(* ===== verification/_CoqProject ===== *)
-Q . S2P
Prelude.v
Env.v
Transport.v
Calendar.v
GenieTime.v
TimePool.v
TimeMsg.v
EventBase.v
SigModel.v
SigTransition.v
SigServers.v
VendorModel.v
Aes.v
Storage.v
KvStore.v
KvLog.v
KvProps.v
KvCrash.v
KvFlash.v
Lifecycle.v
LifecycleProps.v
Cmac.v
MeshCrypto.v
MeshCryptoProps.v
MeshNet.v
MeshNetProps.v
MeshTrans.v
MeshRecv.v
MeshRecvProps.v
MeshEnd.v
Access.v
CfgSrv.v
AccessProps.v
CfgProps.v
CfgFacts.v
Sha256.v
GenieCrypto.v
Ota.v
OtaProps.v
Prov.v
ProvProps.v
ProvAdv.v
Kernel.v
KernelQueue.v
KernelInv.v
KernelPri.v
KernelMoves.v
KernelOps.v
KernelTasks.v
KernelLife.v
KernelProps.v
RingBuf.v
KernelMsg.v
KernelWait.v
KernelMsgProps.v
