(* ===== verification/Prelude.v ===== *)
(** * Genie BT mesh SDK: verification library

    The program is the Tmall Genie Bluetooth mesh SDK 1.3.4: a device service
    (genie_service/) on top of a Zephyr derived mesh stack (network/bluetooth/), the
    AliOS Things kernel (kernel/rhino/) and a platform.  The development follows the
    service: what a lamp or a switch does with the messages of the cloud, with its
    timers, and with what it has to remember over a power cycle.  Paths below are
    relative to src/genie-bt-mesh-sdk-rel_1.3.4/.

    ** Parts and files

    - [Prelude]: C integers as [Z] with their wrap-around, tactics, hint databases.
    - [Env]: what the service sees of the stack and the platform: clock, elements,
      provisioned flag, and one log of everything it sends, reports or calls.  Of
      network/bluetooth/bt_mesh/src/access.c: building of opcodes, element lookup.
    - [Transport]: genie_service/core/src/genie_transport.c.  State [tstate]: the ring
      of received TIDs, the TID counter, the pending list, the retransmission timer with
      the kernel timer behind it, and the depth to which the mesh task holds the mutex,
      on which the timer task blocks.
    - [Calendar], [GenieTime], [TimePool], [TimeMsg]: genie_time.c.  The calendar
      arithmetic; the pool of forty timer records and its two lists; the work item and
      the tick; the parsers of the timing messages.  [GenieTime] is written against a
      class for what it calls upwards, which [EventBase] implements with [Transport].
    - [EventBase]: genie_down_msg and the timer event of genie_event.c.
    - [SigModel], [SigTransition], [SigServers]: sig_models/*.c.  Element state and
      bindings, transitions and the recursive event dispatcher, the on/off, lightness,
      CTL and scene servers.
    - [VendorModel]: genie_vendor_model.c, its handlers and opcode table.
    - [Aes]: AES-128 of tinycrypt (bt_common/tinycrypt/source/aes_*.c) and the wrappers
      bt_encrypt_be, bt_mesh_aes_encrypt.
    - [Storage]: genie_storage.c, genie_triple.c, the CRC of genie_crypto.c, over the
      class [Flash] with the laws [FlashLaws].
    - [Lifecycle], [LifecycleProps]: all of genie_event, genie_mesh.c, genie_reset.c, the
      state and timers of genie_provision.c, and of the stack the sequence number, IV
      index and keys (net.c, main.c).
    - [KvStore]: kernel/rhino/fs/kv/kvmgr.c, the log-structured store behind aos_kv_set,
      on the bytes of its NOR flash partition, with failing allocations and flash
      operations.  [KvLog] relates bytes to lists of entries, [KvProps] to a finite map,
      [KvCrash] is the restart after a power failure, [KvFlash] makes the store an
      instance of the class [Flash] of [Storage], for keys that are not empty.
    - [Cmac], [MeshCrypto], [MeshCryptoProps]: AES-CMAC of tinycrypt and the security
      toolbox of the mesh stack (bt_mesh/src/crypto.c): CCM, nonces, key derivation,
      obfuscation, the frame check sequence.
    - [MeshNet], [MeshNetProps]: the network layer, bt_mesh/src/net.c.  State [net]:
      subnets with their keys, the two duplicate caches, IV index, relay settings.
    - [MeshTrans]: the sending side of bt_mesh/src/transport.c, with the advertising
      buffers of adv.c and their reference counts, and bt_mesh_net_send.  [MeshRecv]: the
      receiving side, with bt_mesh_net_recv.  [MeshRecvProps]: segments.  [MeshEnd]: the
      replay list, and messages through all layers of two nodes.
    - [Access], [AccessProps]: bt_mesh/src/access.c.  Elements and models with their keys,
      groups and publications; dispatch of received messages, sending, publication.
    - [CfgSrv], [CfgProps], [CfgFacts]: bt_mesh/src/cfg_srv.c, the configuration server: all
      message handlers, the key tables, subscriptions, key refresh, heartbeats, reset.
    - [Prov], [ProvProps], [ProvAdv]: bt_mesh/src/prov.c, the provisioning protocol of the
      device over both bearers; [ProvAdv] is about links and segments of PB-ADV.
    - [Sha256], [GenieCrypto]: SHA-256 of tinycrypt; genie_crypto.c: the authentication
      value, the key of a connection, the advertising data.
    - [Ota], [OtaProps]: genie_ais.c, genie_ota.c and the port ali_dfu_port.c that writes the
      firmware to flash.
    - [Kernel]: the scheduler of kernel/rhino/core: ready queue and bitmap (k_sched.c,
      k_bitmap.h), waiting (k_pend.c), ticks (k_tick.c, k_time.c), semaphores, mutexes with
      priority inheritance, tasks (k_task.c), interrupts and start-up (k_sys.c), for one
      CPU.  State [kern]: task blocks, objects, the ready queue, the tick list, the running
      task.  [KernelQueue] is about the ready queue, [KernelInv] defines the invariant,
      [KernelPri] follows priorities along waiting tasks, [KernelMoves], [KernelOps],
      [KernelTasks] and [KernelLife] show that every call keeps it, [KernelProps] has the
      calls as one type and the properties of all runs.
    - [RingBuf], [KernelMsg]: the ring buffer, queues, buffer queues and event flags of the
      kernel (k_ringbuf.c, k_queue.c, k_buf_queue.c, k_event.c) on the bytes of their memory.
      [KernelWait] shows that the calls of [Kernel] leave the tasks that wait for them
      alone, [KernelMsgProps] has all calls as one type and the properties of all runs.

    ** How the parts interact

    A received access message enters [VendorModel.vendor_recv] or a server of
    [SigServers]; duplicates are dropped by [Transport.genie_transport_check_tid]; timing
    attributes go to [TimeMsg], the rest to the MCU.  What the device reports leaves
    through [Transport.genie_transport_send_payload], which keeps acknowledged messages
    until [genie_transport_ack].  Every event passes [Lifecycle.genie_event], which writes
    what must survive to [Storage].  The composed state is [Lifecycle.svc].  [Storage] and
    [Lifecycle] are proved against the class [Flash] with the laws [FlashLaws], and
    [KvFlash.kvmgr_flash_laws] discharges the laws with the store of [KvStore]; that a
    store succeeds is not among the laws, and theorems that need it say so.

    Below the access layer, [MeshTrans.bt_mesh_trans_send] encrypts and segments,
    [MeshNet.bt_mesh_net_encode] secures a network PDU; [MeshRecv.bt_mesh_net_recv]
    decodes, relays, checks for replays, puts segments together and hands the message
    to [Access.bt_mesh_model_recv], which gives it to the models, the configuration
    server [CfgSrv] among them.  The cryptography of all of them ends in [Aes].  [Prov] hands
    the keys of a new node to the network layer; [GenieCrypto] gives it the authentication
    value and gives [Ota] the key of a connection.  [Kernel] stands below all of this; the
    other files see tasks, mutexes and timers only as their headers say.

    ** Modelling

    Handlers are functions on the state of their component, composed as in the code; a
    read behind the end of a buffer, a null pointer or a division by zero is [None].
    C integers are [Z], wrapped where the code stores them.  Interleavings are step
    relations ([tstep], [gtstep], [lstep], [nstep], [kop] and
    [reach] of [KernelProps], [xreach] of [KernelMsgProps]).  Loops that are not structural take fuel, and a theorem shows the fuel is enough: 5 for both loops of [unix2UTC]
    ([unix2UTC_terminates]), 5 for the SIG dispatcher ([sig_event_terminates]), 3 for
    [genie_event] ([event_chain_terminates]), the message length plus one for the
    parsers ([time_message_safe]).  A traversal of a store block takes 512
    rounds, the size of a block by the eight bytes that the header of an entry has.  The
    loops of CMAC, CCM and segmentation are recursive in the data or in the number of
    blocks or segments computed from its length.  In the kernel a chain of mutexes is
    followed for at most [n_objs] steps and a change of priority passes on at most
    [64 * n_tasks] times; that this is enough is part of [kernel_never_stops] and
    [messaging_never_stops].

    ** Configuration

    The servers for on/off, lightness, CTL and scenes, transitions, the vendor timers,
    OTA, the AT interface, reset by repeated power cycles and automatic replies are on;
    storing timers in flash, the control relay, CONFIG_BT_SETTINGS, power management,
    ultra provisioning, binary and user commands and the IV update test mode are off;
    eight group addresses; the key-value partition has two blocks of 4096 bytes.  In the
    mesh stack friendship and low power are off and the proxy is on; the replay list has
    five entries and a reassembled message at most 384 bytes; input and output OOB of the
    provisioning are off, the static value is on.  A group of OTA frames has six.  The
    kernel has one CPU, 62 priorities and 1000 ticks of 64 bits per second (board/tg7100b).

    ** What is proved

    Each theorem names the conditions it needs, and where one of them matters its
    comment names the theorem that shows what happens without it.

    Invariants over all interleavings (pending list, timer pool, provisioning time
    limit), refinement of abstract pools and maps, exact input-output behaviour of the
    message handlers, round trips of the codecs and of everything that is stored,
    termination, freshness of sequence numbers over power failures while the stores of
    the number succeed.  The key-value store
    refines a finite map, and storing into it is atomic under power failures while no
    collection is pending.  CMAC, CCM and SHA-256 compute what RFC 4493, RFC 3610 and FIPS
    180-4 define.  A network PDU and a relayed PDU decode to what was sent, at a node that
    has not seen the PDU; a segmented
    message is delivered once for any order of its segments within one block of sequence
    numbers, inside the buffer; the PDUs of a source that hand a message on have increasing
    sequence numbers while the replay list has room; an unsegmented message goes from the
    model that sends it to the model that takes it, and to no other.  The configuration
    server keeps keys, bindings and refresh states consistent and stays inside its buffers,
    two cases apart.  A device is provisioned only
    by a peer that sent a confirmation, its random number and data that authenticate, an
    honest provisioner over GATT
    succeeds, and PB-ADV puts segments together again.  A firmware update into erased flash
    restarts the device only with the accepted groups in flash.  In the kernel, for callers
    that keep to [legal] and [xlegal], no call stops the system,
    lists and task blocks agree, the most urgent ready task runs, owners of mutexes inherit
    priorities, and a tick ends exactly the waits that are over.  Messages leave a queue once,
    whole and in order, the ring buffer behind it is a queue of as many bytes, and nobody
    waits for a message or a flag that is there.  And, where the code does
    not do what it means to, the counterexample is a theorem.

    ** Not modelled

    Low power (off), the AT, binary and CLI commands and the SAL (text and UART glue), of
    the mesh stack friendship and low power (off), the proxy, beacons apart from their
    authentication, health and clients, the Bluetooth host and controller (third-party
    code apart from its AES wrappers), timers, work queues, memory and statistics
    of the kernel, more than one CPU, drivers and applications apart from two
    timer callbacks of the light_ctl example.  ECDH, random numbers, the radio and the
    flash driver are parameters. *)
From Stdlib Require Import ZArith Lia List Bool.
From stdpp Require Import base list numbers option.

Declare Scope cint_scope.
Delimit Scope cint_scope with cint.
Local Open Scope Z_scope.

(** ** Machine integers *)

(** A w-bit C value is a [Z]; the conversions to the C types are written out. *)
Definition u8 (z : Z) : Z := z mod 256.
Definition u16 (z : Z) : Z := z mod 65536.
Definition u32 (z : Z) : Z := z mod 4294967296.
Definition s8 (z : Z) : Z := (z + 128) mod 256 - 128.
Definition s16 (z : Z) : Z := (z + 32768) mod 65536 - 32768.

(** Range predicates of the C types. *)
Abbreviation is_u8 z := (0 <= z < 256).
Abbreviation is_u16 z := (0 <= z < 65536).
Abbreviation is_u32 z := (0 <= z < 4294967296).

(** A list of bytes. *)
Definition all_u8 (l : list Z) : Prop := Forall (λ b, is_u8 b) l.

(** A C condition: any non-zero integer is true. *)
Definition truthy (z : Z) : bool := negb (z =? 0).

(** [a ^+ b] is addition on [uint32_t], [a ^- b] subtraction. *)
Notation "a ^+ b" := (u32 (a + b)) (at level 50, left associativity) : cint_scope.
Notation "a ^- b" := (u32 (a - b)) (at level 50, left associativity) : cint_scope.

Create HintDb genie.
Create Rewrite HintDb wrap.

Lemma u8_small z : is_u8 z → u8 z = z.
Proof. apply Z.mod_small. Qed.
Lemma u16_small z : is_u16 z → u16 z = z.
Proof. apply Z.mod_small. Qed.
Lemma u32_small z : is_u32 z → u32 z = z.
Proof. apply Z.mod_small. Qed.
Lemma s8_small z : -128 <= z < 128 → s8 z = z.
Proof. intros ?. unfold s8. rewrite Z.mod_small by lia. lia. Qed.
Lemma s16_small z : -32768 <= z < 32768 → s16 z = z.
Proof. intros ?. unfold s16. rewrite Z.mod_small by lia. lia. Qed.

Lemma u8_range z : is_u8 (u8 z).
Proof. apply Z.mod_pos_bound. lia. Qed.
Lemma u16_range z : is_u16 (u16 z).
Proof. apply Z.mod_pos_bound. lia. Qed.
Lemma u32_range z : is_u32 (u32 z).
Proof. apply Z.mod_pos_bound. lia. Qed.

#[export] Hint Resolve u8_range u16_range u32_range : genie.
#[export] Hint Rewrite u8_small u16_small u32_small s8_small s16_small using lia : wrap.

(** ** Tactics *)

(** Case analysis on every boolean comparison of the goal, keeping the
    arithmetic fact it decides. *)
Ltac zcases :=
  repeat match goal with
  | |- context [?a <? ?b] => destruct (Z.ltb_spec a b)
  | |- context [?a <=? ?b] => destruct (Z.leb_spec a b)
  | |- context [?a =? ?b] => destruct (Z.eqb_spec a b)
  | |- context [?a >? ?b] => rewrite (Z.gtb_ltb a b)
  | |- context [?a >=? ?b] => rewrite (Z.geb_leb a b)
  end; simpl andb in *; simpl orb in *; simpl negb in *; cbv iota in *.

(** The same on the hypotheses. *)
Ltac zcases_in H :=
  repeat match type of H with
  | context [?a <? ?b] => destruct (Z.ltb_spec a b)
  | context [?a <=? ?b] => destruct (Z.leb_spec a b)
  | context [?a =? ?b] => destruct (Z.eqb_spec a b)
  | context [?a >? ?b] => rewrite (Z.gtb_ltb a b) in H
  | context [?a >=? ?b] => rewrite (Z.geb_leb a b) in H
  end; simpl andb in *; simpl orb in *; simpl negb in *; cbv iota in *.

(** Linear arithmetic with division and remainder by constants. *)
Ltac dlia := Z.div_mod_to_equations; lia.

(** ** Lists updated by index *)

Lemma alter_insert {A} (f : A → A) (l : list A) i x : l !! i = Some x → alter f i l = <[i := f x]> l.
Proof. rewrite list_insert_alter. intros H. apply list_eq. intros j. destruct (decide (i = j)) as [<-|Ne]; [by rewrite !list_lookup_alter_eq, H | by rewrite !list_lookup_alter_ne]. Qed.
