(* ===== verification/Env.v ===== *)
(** * Env: the platform the service runs on

    The parts of the SDK below genie_service that the modelled code calls: the
    clock ([k_uptime_get]), the heap, the mesh access layer ([bt_mesh_model_send]
    and the element table), the random generator.  They are an environment
    record: what they answer is a field with an arbitrary value, what the service
    does to them is appended to the log [out], oldest entry first.  Time does not
    advance inside a handler.  The message encoder [bt_mesh_model_msg_init] of
    access.c and the little endian encoders it uses are modelled exactly. *)
From Stdlib Require Import ZArith Lia List Bool.
From stdpp Require Import base list numbers option.
From S2P Require Import Prelude.
Local Open Scope Z_scope.

(** ** Little endian encoding, [net_buf_simple_add_le16] and the memory image of a [uint32_t] *)

Definition le16 (z : Z) : list Z := [Z.land z 255; Z.land (Z.shiftr z 8) 255].
Definition le32 (z : Z) : list Z :=
  [Z.land z 255; Z.land (Z.shiftr z 8) 255; Z.land (Z.shiftr z 16) 255; Z.land (Z.shiftr z 24) 255].
Definition be16 (z : Z) : list Z := [Z.land (Z.shiftr z 8) 255; Z.land z 255].

(** [p[0] | (p[1] << 8)], the reads of the message parsers. *)
Definition get_le16 (b0 b1 : Z) : Z := Z.lor b0 (Z.shiftl b1 8).
Definition get_le32 (b0 b1 b2 b3 : Z) : Z :=
  u32 (Z.lor (Z.lor (Z.lor b0 (Z.shiftl b1 8)) (Z.shiftl b2 16)) (Z.shiftl b3 24)).

(** ** Access layer constants and messages *)

Definition BT_MESH_ADDR_UNASSIGNED : Z := 0.
Definition BT_MESH_ADDR_TMALL_GENIE : Z := 61440. (* 0xf000 *)
Definition CONFIG_MESH_VENDOR_COMPANY_ID : Z := 424. (* 0x01A8 *)

Definition BT_MESH_MODEL_OP_2 (b0 b1 : Z) : Z := Z.lor (Z.shiftl b0 8) b1.
Definition BT_MESH_MODEL_OP_3 (b0 cid : Z) : Z := Z.lor (Z.lor (Z.shiftl b0 16) 12582912) cid.

(** The bytes [bt_mesh_model_msg_init] leaves in the emptied buffer. *)
Definition bt_mesh_model_msg_init (opcode : Z) : list Z :=
  if opcode <? 256 then [u8 opcode]
  else if opcode <? 65536 then be16 opcode
  else Z.land (Z.shiftr opcode 16) 255 :: le16 (Z.land opcode 65535).

Record bt_mesh_msg_ctx := mkCtx { net_idx : Z; app_idx : Z; addr : Z; send_ttl : Z; send_rel : Z }.

(** [transport_result_e]. *)
Inductive transport_result_e := SEND_RESULT_SUCCESS | SEND_RESULT_TIMEOUT.

(** [genie_event_e]: the events of the service, those of the application included. *)
Inductive genie_event_e :=
| GENIE_EVT_NONE | GENIE_EVT_SW_RESET | GENIE_EVT_HW_RESET_START | GENIE_EVT_BT_READY | GENIE_EVT_MESH_READY
| GENIE_EVT_SDK_AIS_DISCON | GENIE_EVT_SDK_AIS_CONNECT | GENIE_EVT_SDK_MESH_PBADV_START
| GENIE_EVT_SDK_MESH_PBADV_TIMEOUT | GENIE_EVT_SDK_MESH_SILENT_START
| GENIE_EVT_SDK_MESH_PROV_START | GENIE_EVT_SDK_MESH_PROV_DATA | GENIE_EVT_SDK_MESH_PROV_TIMEOUT
| GENIE_EVT_SDK_MESH_PROV_SUCCESS | GENIE_EVT_SDK_MESH_PROV_FAIL
| GENIE_EVT_SDK_APPKEY_ADD | GENIE_EVT_SDK_APPKEY_DEL | GENIE_EVT_SDK_APPKEY_UPDATE
| GENIE_EVT_SDK_NETKEY_ADD | GENIE_EVT_SDK_NETKEY_DEL | GENIE_EVT_SDK_NETKEY_UPDATE
| GENIE_EVT_SDK_IVI_UPDATE | GENIE_EVT_SDK_APPKEY1_ADD
| GENIE_EVT_SDK_SUB_ADD | GENIE_EVT_SDK_SUB_DEL | GENIE_EVT_SDK_HB_SET | GENIE_EVT_SDK_SEQ_UPDATE
| GENIE_EVT_TIMEOUT | GENIE_EVT_DOWN_MSG | GENIE_EVT_VENDOR_MODEL_MSG | GENIE_EVT_SIG_MODEL_MSG
| GENIE_EVT_USER_TRANS_CYCLE | GENIE_EVT_USER_ACTION_DONE.
#[export] Instance genie_event_e_eq_dec : EqDecision genie_event_e.
Proof. solve_decision. Defined.

(** ** Observable actions *)

(** Calls into the mesh stack and the platform that the service makes for their
    effect only. *)
Inductive stack_call :=
| ProvEnable (bearers : Z)                (* bt_mesh_prov_enable *)
| ProvDisable (bearers : Z)               (* bt_mesh_prov_disable *)
| UnprovBeaconInterval (is_silent : bool) (* genie_set_silent_unprov_beacon_interval *)
| AppkeyRegister (net_idx app_idx : Z) (val : list Z) (update : Z) (* genie_appkey_register *)
| ProvResetLink                           (* bt_mesh_prov_reset_link *)
| AdvStop                                 (* bt_mesh_adv_stop *)
| OtaInit                                 (* genie_ota_init *)
| AosReboot.                              (* aos_reboot *)

Inductive output :=
| TxAccess (ctx : bt_mesh_msg_ctx) (bytes : list Z)      (* bt_mesh_model_send *)
| ResultCb (cb : Z) (tid : Z) (r : transport_result_e)   (* a result_cb call *)
| UserEvent (event : genie_event_e)                      (* event_cb of the application *)
| DownMsg (bytes : list Z)                               (* genie_at_cmd_send_data_to_mcu *)
| AtEvent (state : Z)                                    (* "+MESHEVT" of genie_at_output_event *)
| BufOverrun (n : Z)                                     (* [n] bytes written behind the end of a message buffer *)
| Stack (c : stack_call).

Record env := mkEnv {
  uptime : Z;                    (* k_uptime_get, milliseconds *)
  provisioned : bool;            (* bt_mesh_is_provisioned *)
  malloc_ok : bool;              (* whether hal_malloc succeeds *)
  event_cb : bool;               (* whether the service context has an event_cb *)
  vnd_model : option Z → bool;   (* elements that have the vendor model server *)
  elem_count : Z;                (* dev_comp->elem_count *)
  appkey_id : Z;                 (* bt_mesh_model_get_appkey_id *)
  rand : Z;                      (* the byte bt_rand delivers *)
  send_rc : nat → Z;             (* result of the n-th action, if it is a send *)
  out : list output }.

Definition emit (o : output) (e : env) : env :=
  mkEnv (uptime e) (provisioned e) (malloc_ok e) (event_cb e) (vnd_model e) (elem_count e) (appkey_id e)
        (rand e) (send_rc e) (out e ++ [o]).

(** [bt_mesh_model_send]: the message reaches the access layer, which answers a code. *)
Definition bt_mesh_model_send (ctx : bt_mesh_msg_ctx) (bytes : list Z) (e : env) : Z * env :=
  (send_rc e (length (out e)), emit (TxAccess ctx bytes) e).

(** [bt_mesh_elem_find_by_id]: the element pointer is the element's number. *)
Definition bt_mesh_elem_find_by_id (id : Z) (e : env) : option Z :=
  if id <? elem_count e then Some id else None.

(** [bt_mesh_elem_find_id]. *)
Definition bt_mesh_elem_find_id (p_elem : option Z) (e : env) : Z :=
  match p_elem with
  | Some i => if (0 <=? i) && (i <? elem_count e) then u8 i else 255
  | None => 255
  end.

(** The clock moved forward, nothing else changed. *)
Definition advance (dt : Z) (e : env) : env :=
  mkEnv (uptime e + dt) (provisioned e) (malloc_ok e) (event_cb e) (vnd_model e) (elem_count e) (appkey_id e)
        (rand e) (send_rc e) (out e).

(** The same environment with the fields the mesh stack changes. *)
Definition with_provisioned (b : bool) (e : env) : env :=
  mkEnv (uptime e) b (malloc_ok e) (event_cb e) (vnd_model e) (elem_count e) (appkey_id e) (rand e) (send_rc e) (out e).
Definition with_appkey_id (i : Z) (e : env) : env :=
  mkEnv (uptime e) (provisioned e) (malloc_ok e) (event_cb e) (vnd_model e) (elem_count e) i (rand e) (send_rc e) (out e).

(** ** Lemmas *)

Lemma out_emit o e : out (emit o e) = out e ++ [o].
Proof. done. Qed.
Lemma uptime_emit o e : uptime (emit o e) = uptime e.
Proof. done. Qed.


Lemma land_255 z : Z.land z 255 = z mod 256.
Proof. change 255 with (Z.ones 8). rewrite Z.land_ones by lia. done. Qed.

Lemma get_le16_spec b0 b1 : is_u8 b0 → is_u8 b1 → get_le16 b0 b1 = b0 + 256 * b1.
Proof.
  intros H0 H1. unfold get_le16. rewrite Z.shiftl_mul_pow2 by lia. change (2 ^ 8) with 256.
  pose proof (Z.add_lor_land b0 (b1 * 256)) as E.
  enough (Z.land b0 (b1 * 256) = 0) by lia. apply Z.bits_inj'. intros n Hn. rewrite Z.land_spec, Z.bits_0.
  change 256 with (2 ^ 8). rewrite Z.mul_pow2_bits by lia.
  destruct (Z.lt_ge_cases n 8); [rewrite (Z.testbit_neg_r b1) by lia; apply andb_false_r|].
  rewrite (Z.bits_above_log2 b0); [done|lia|].
  destruct (Z.eq_dec b0 0) as [->|]; [simpl; lia|].
  assert (Z.log2 b0 < 8) by (apply Z.log2_lt_pow2; simpl; lia). lia.
Qed.

Lemma get_le16_le16 z : is_u16 z → get_le16 (Z.land z 255) (Z.land (Z.shiftr z 8) 255) = z.
Proof.
  intros H. rewrite !land_255, Z.shiftr_div_pow2 by lia. change (2 ^ 8) with 256.
  rewrite get_le16_spec by dlia. dlia.
Qed.

Lemma land_shiftl_disjoint a b k : 0 <= a < 2 ^ k → 0 <= k → Z.land a (Z.shiftl b k) = 0.
Proof.
  intros Ha Hk. apply Z.bits_inj'. intros n Hn. rewrite Z.land_spec, Z.bits_0, Z.shiftl_spec by lia.
  destruct (Z.lt_ge_cases n k); [rewrite (Z.testbit_neg_r b) by lia; apply andb_false_r|].
  destruct (Z.eq_dec a 0) as [->|]; [by rewrite Z.bits_0|].
  rewrite (Z.bits_above_log2 a); [done|lia|]. assert (Z.log2 a < k) by (apply Z.log2_lt_pow2; lia). lia.
Qed.

Lemma lor_shiftl a b k : 0 <= a < 2 ^ k → 0 <= k → Z.lor a (Z.shiftl b k) = a + b * 2 ^ k.
Proof.
  intros Ha Hk. pose proof (Z.add_lor_land a (Z.shiftl b k)) as E.
  rewrite land_shiftl_disjoint in E by done. rewrite Z.shiftl_mul_pow2 in * by done. lia.
Qed.

Lemma get_le32_spec b0 b1 b2 b3 : is_u8 b0 → is_u8 b1 → is_u8 b2 → is_u8 b3 →
  get_le32 b0 b1 b2 b3 = b0 + 256 * b1 + 65536 * b2 + 16777216 * b3.
Proof.
  intros. unfold get_le32. rewrite (lor_shiftl b0 b1 8) by lia. change (2 ^ 8) with 256.
  rewrite (lor_shiftl _ b2 16) by lia. change (2 ^ 16) with 65536.
  rewrite (lor_shiftl _ b3 24) by lia. change (2 ^ 24) with 16777216.
  rewrite u32_small; lia.
Qed.

Lemma le32_get b0 b1 b2 b3 : is_u8 b0 → is_u8 b1 → is_u8 b2 → is_u8 b3 →
  le32 (get_le32 b0 b1 b2 b3) = [b0; b1; b2; b3].
Proof.
  intros. rewrite get_le32_spec by done. unfold le32. rewrite !land_255, !Z.shiftr_div_pow2 by lia.
  change (2 ^ 8) with 256; change (2 ^ 16) with 65536; change (2 ^ 24) with 16777216.
  repeat f_equal; dlia.
Qed.

Lemma get_le32_le32 z : is_u32 z →
  match le32 z with [b0; b1; b2; b3] => get_le32 b0 b1 b2 b3 = z | _ => False end.
Proof.
  intros H. unfold le32. rewrite !land_255, !Z.shiftr_div_pow2 by lia.
  change (2 ^ 8) with 256; change (2 ^ 16) with 65536; change (2 ^ 24) with 16777216.
  rewrite get_le32_spec by dlia. dlia.
Qed.
