(* ===== verification/Transport.v ===== *)
(** * Transport: genie_transport.c

    Vendor message transmission with retransmission (the list [send_list] and
    its timer), duplicate detection on reception (the ring [tid_queue]) and the
    TID generator.  [tstate] holds the static variables of the file; the
    operations are the functions of the file on that state.  Two tasks meet here:
    the mesh task, which sends and handles confirmations, and the timer task of the
    kernel, which runs [retransmit_timer_cb].  [transport_mutex] is the depth to
    which the mesh task holds the recursive mutex between two operations; the timer
    task blocks on it while the depth is not 0 ([run_timer_cb]). *)
From Stdlib Require Import ZArith Lia List Bool.
From stdpp Require Import base list numbers option relations.
From S2P Require Import Prelude Env.
Local Open Scope Z_scope.

(** genie_transport.h, genie_vendor_model.h *)
Definition RECV_MSG_TID_QUEUE_SIZE : nat := 5.
Definition GENIE_TRANSPORT_DEDUPLICATE_DURATION : Z := 6000.
Definition TMALL_GENIE_UADDR_START : Z := 1.
Definition TMALL_GENIE_UADDR_END : Z := 16.
Definition GENIE_TRANSPORT_TID_MIN : Z := 128.
Definition GENIE_TRANSPORT_TID_MAX : Z := 191.
Definition GENIE_TRANSPORT_DEFAULT_TTL : Z := 3.
Definition GENIE_TRANSPORT_DEFAULT_RETRY_COUNT : Z := 2.
Definition GENIE_TRANSPORT_EACH_PDU_TIMEOUT : Z := 600.
Definition GENIE_TRANSPORT_EACH_PDU_SIZE : Z := 12.
Definition CONFIG_VENDOR_SEND_MSG_MAX : nat := 8.
Definition VENDOR_MODEL_MSG_MAX_RETRY_TIMES : Z := 45.
Definition GENIE_MODEL_MTU : Z := 96.

Definition VENDOR_OP_ATTR_GET_STATUS : Z := 208. (* 0xD0 *)
Definition VENDOR_OP_ATTR_SET_ACK : Z := 209.
Definition VENDOR_OP_ATTR_SET_UNACK : Z := 210.
Definition VENDOR_OP_ATTR_STATUS : Z := 211.
Definition VENDOR_OP_ATTR_INDICATE : Z := 212.
Definition VENDOR_OP_ATTR_CONFIME : Z := 213.
Definition VENDOR_OP_ATTR_INDICATE_TG : Z := 222.
Definition VENDOR_OP_ATTR_CONFIME_TG : Z := 223.
Definition VENDOR_OP_ATTR_TRANS_MSG : Z := 207.
Definition VENDOR_OP_ATTR_TRANS_INDICATE : Z := 206.
Definition VENDOR_OP_ATTR_TRANS_ACK : Z := 205.

(** [E_MESH_ERROR_TYPE]. *)
Inductive E_MESH_ERROR_TYPE :=
| MESH_SUCCESS | MESH_TID_REPEAT | MESH_ANALYZE_SIZE_ERROR | MESH_ANALYZE_ARGS_ERROR
| MESH_SET_TRANSTION_ERROR.

(** [genie_transport_tid_queue_t]. *)
Record tid_entry := mkTidEntry { q_tid : Z; q_elemid : Z; q_addr : Z; q_time : Z }.

(** [genie_transport_model_param_t]; pointers that may be NULL are options. *)
Record genie_transport_model_param_t := mkParam {
  p_elem : option Z; p_model : option Z; result_cb : option Z;
  retry : Z; opid : Z; tid : Z; dst_addr : Z; retry_period : Z; len : Z; data : option (list Z) }.

(** [genie_transport_node_t], without the links. *)
Record genie_transport_node_t := mkNode {
  left_retry : Z; timeout : Z; msg : genie_transport_model_param_t }.

(** [genie_transport_payload_param_t]. *)
Record genie_transport_payload_param_t := mkPayload {
  element_id : Z; pl_opid : Z; pl_tid : Z; retry_cnt : Z; pl_dst_addr : Z;
  p_payload : option (list Z); payload_len : Z; pl_result_cb : option Z }.

(** The static variables of genie_transport.c; [retransmit_timer] is the
    [timeout] field of the k_timer (0 when it is stopped).  Behind it is a one-shot
    timer of the kernel: [timer_run] while it counts, [timer_due] from its expiry
    until the timer task has got the mutex and runs the callback. *)
Record tstate := mkT {
  tenv : env;
  last_src_addr : Z;
  tid_queue : list tid_entry;
  cur_index : Z;
  gen_tid : Z;
  send_list : list genie_transport_node_t;
  retransmit_timer : Z;
  transport_mutex : Z;
  timer_run : bool;
  timer_due : bool }.

Definition with_env e (s : tstate) := mkT e (last_src_addr s) (tid_queue s) (cur_index s) (gen_tid s)
  (send_list s) (retransmit_timer s) (transport_mutex s) (timer_run s) (timer_due s).
Definition with_send_list l (s : tstate) := mkT (tenv s) (last_src_addr s) (tid_queue s) (cur_index s)
  (gen_tid s) l (retransmit_timer s) (transport_mutex s) (timer_run s) (timer_due s).
Definition with_timer t run due (s : tstate) := mkT (tenv s) (last_src_addr s) (tid_queue s)
  (cur_index s) (gen_tid s) (send_list s) t (transport_mutex s) run due.
Definition with_gen_tid t (s : tstate) := mkT (tenv s) (last_src_addr s) (tid_queue s) (cur_index s) t
  (send_list s) (retransmit_timer s) (transport_mutex s) (timer_run s) (timer_due s).
Definition with_tid_queue q i (s : tstate) := mkT (tenv s) (last_src_addr s) q i (gen_tid s)
  (send_list s) (retransmit_timer s) (transport_mutex s) (timer_run s) (timer_due s).

(** [aos_mutex_lock] / [aos_mutex_unlock] of [transport_mutex].  The mutex is
    recursive: a task that holds it nests it and goes on.  A task that does not hold
    it blocks until the depth is 0; [run_timer_cb] is where that happens. *)
Definition lock (s : tstate) := mkT (tenv s) (last_src_addr s) (tid_queue s) (cur_index s) (gen_tid s)
  (send_list s) (retransmit_timer s) (transport_mutex s + 1) (timer_run s) (timer_due s).
Definition unlock (s : tstate) := mkT (tenv s) (last_src_addr s) (tid_queue s) (cur_index s) (gen_tid s)
  (send_list s) (retransmit_timer s) (transport_mutex s - 1) (timer_run s) (timer_due s).

(** aos_port.c: [k_timer_is_started], [k_timer_stop], [k_timer_start]. *)
Definition k_timer_is_started (s : tstate) : bool := truthy (retransmit_timer s).
Definition k_timer_stop (s : tstate) : tstate :=
  if negb (truthy (retransmit_timer s)) then s else with_timer 0 false (timer_due s) s.
Definition k_timer_start (timeout : Z) (s : tstate) : tstate :=
  let s := k_timer_stop s in with_timer timeout true (timer_due s) s.

Definition with_retry r (m : genie_transport_model_param_t) := mkParam (p_elem m) (p_model m) (result_cb m)
  r (opid m) (tid m) (dst_addr m) (retry_period m) (len m) (data m).
Definition with_tid t (m : genie_transport_model_param_t) := mkParam (p_elem m) (p_model m) (result_cb m)
  (retry m) (opid m) t (dst_addr m) (retry_period m) (len m) (data m).
Definition with_data d (m : genie_transport_model_param_t) := mkParam (p_elem m) (p_model m) (result_cb m)
  (retry m) (opid m) (tid m) (dst_addr m) (retry_period m) (len m) d.

(** The first [n] bytes behind a pointer. *)
Definition read_mem (p : option (list Z)) (n : Z) : list Z := take (Z.to_nat n) (default [] p).

(** ** Operations *)

(** The node, and the message with its retry count clamped in place. *)
Definition genie_transport_msg_node_generate (m : genie_transport_model_param_t) (e : env)
  : option genie_transport_node_t * genie_transport_model_param_t :=
  let m := if retry m >? VENDOR_MODEL_MSG_MAX_RETRY_TIMES
           then with_retry VENDOR_MODEL_MSG_MAX_RETRY_TIMES m else m in
  if negb (malloc_ok e) then (None, m)
  else (Some (mkNode (retry m) (uptime e + retry_period m) (with_data (Some (read_mem (data m) (len m))) m)), m).

(** [genie_transport_find_by_tid] walks the list from its head. *)
Fixpoint find_by_tid (t : Z) (l : list genie_transport_node_t) : option genie_transport_model_param_t :=
  match l with
  | [] => None
  | n :: l => if tid (msg n) =? t then Some (msg n) else find_by_tid t l
  end.

Definition genie_transport_find_by_tid (t : Z) (s : tstate) := find_by_tid t (send_list s).

(** The access PDU of a vendor message: opcode, TID, payload. *)
Definition model_send_bytes (m : genie_transport_model_param_t) : list Z :=
  bt_mesh_model_msg_init (BT_MESH_MODEL_OP_3 (opid m) CONFIG_MESH_VENDOR_COMPANY_ID)
  ++ [tid m] ++ (if len m =? 0 then [] else read_mem (data m) (len m)).

(** The bytes are added to [genie_model_pub.msg], which holds GENIE_MODEL_MTU bytes;
    net_buf_simple_add does not check, so what does not fit goes behind it. *)
Definition fill_pub_msg (bytes : list Z) (e : env) : env :=
  let n := Z.of_nat (length bytes) in
  if GENIE_MODEL_MTU <? n then emit (BufOverrun (n - GENIE_MODEL_MTU)) e else e.

Definition genie_transport_model_send (m : genie_transport_model_param_t) (e : env) : Z * env :=
  if negb (vnd_model e (p_elem m)) then (-1, e)
  else
    let addr := if dst_addr m =? BT_MESH_ADDR_UNASSIGNED then BT_MESH_ADDR_TMALL_GENIE else dst_addr m in
    let ctx := mkCtx 0 (appkey_id e) addr GENIE_TRANSPORT_DEFAULT_TTL 0 in
    let e := fill_pub_msg (model_send_bytes m) e in
    let '(err, e) := bt_mesh_model_send ctx (model_send_bytes m) e in
    (s16 err, e).

Definition genie_transport_append_mesg (m : genie_transport_model_param_t) (s : tstate)
  : Z * genie_transport_model_param_t * tstate :=
  if Nat.leb CONFIG_VENDOR_SEND_MSG_MAX (length (send_list s)) then (-1, m, s)
  else
    let s := lock s in
    match genie_transport_msg_node_generate m (tenv s) with
    | (None, m) => (-1, m, s)
    | (Some node, m) =>
        let s := unlock (with_send_list (send_list s ++ [node]) s) in
        let s := if negb (k_timer_is_started s) then k_timer_start (retry_period m) s else s in
        (0, m, s)
    end.

(** The while loop of [genie_transport_check_tid] over the ring, from
    [cur_index] on, for [n] entries: whether one matches and has not expired. *)
Fixpoint tid_scan (n : nat) (i : Z) (q : list tid_entry) (cur_time src_addr t elem_id : Z) : bool :=
  match n with
  | O => false
  | S n =>
      let ri := Z.to_nat (i mod Z.of_nat RECV_MSG_TID_QUEUE_SIZE) in
      let hit := match q !! ri with
                 | Some x =>
                     (q_tid x =? t) && (q_addr x =? src_addr) && (q_elemid x =? elem_id)
                     && (cur_time <? u32 (q_time x + GENIE_TRANSPORT_DEDUPLICATE_DURATION))
                 | None => false
                 end in
      if hit then true else tid_scan n (u8 (i + 1)) q cur_time src_addr t elem_id
  end.

Definition dedup_addr (src_addr : Z) : Z :=
  if (src_addr >=? TMALL_GENIE_UADDR_START) && (src_addr <=? TMALL_GENIE_UADDR_END)
  then TMALL_GENIE_UADDR_START else src_addr.

Definition genie_transport_check_tid (src_addr t elem_id : Z) (s : tstate) : E_MESH_ERROR_TYPE * tstate :=
  let cur_time := u32 (uptime (tenv s)) in
  let src_addr := dedup_addr src_addr in
  if tid_scan RECV_MSG_TID_QUEUE_SIZE (cur_index s) (tid_queue s) cur_time src_addr t elem_id
  then (MESH_TID_REPEAT, s)
  else
    let q := <[Z.to_nat (cur_index s) := mkTidEntry t elem_id src_addr cur_time]> (tid_queue s) in
    (MESH_SUCCESS, with_tid_queue q (u8 (cur_index s + 1) mod Z.of_nat RECV_MSG_TID_QUEUE_SIZE) s).

Definition genie_transport_src_addr_set (src_addr : Z) (s : tstate) : tstate :=
  mkT (tenv s) src_addr (tid_queue s) (cur_index s) (gen_tid s) (send_list s) (retransmit_timer s)
      (transport_mutex s) (timer_run s) (timer_due s).

(** Removal of the first node with a TID, shared by the two removing walks. *)
Fixpoint remove_first_tid (t : Z) (l : list genie_transport_node_t)
  : option (genie_transport_node_t * list genie_transport_node_t) :=
  match l with
  | [] => None
  | n :: l =>
      if tid (msg n) =? t then Some (n, l)
      else match remove_first_tid t l with Some (x, l) => Some (x, n :: l) | None => None end
  end.

(** The found branch returns without unlocking. *)
Definition transport_remove_by_tid (t : Z) (s : tstate) : Z * tstate :=
  match send_list s with
  | [] => (-1, s)
  | _ =>
      let s := lock s in
      match remove_first_tid t (send_list s) with
      | Some (_, l) => (0, with_send_list l s)
      | None => (-1, unlock s)
      end
  end.

Definition genie_transport_gen_tid (s : tstate) : Z * tstate :=
  let t := if gen_tid s =? GENIE_TRANSPORT_TID_MAX then Z.land (rand (tenv s)) 63
           else Z.land (gen_tid s + 1) 63 in
  (Z.lor t 128, with_gen_tid t s).

Definition genie_transport_get_seg_count (msg_len : Z) : Z :=
  if msg_len <=? 11 then 1
  else
    let msg_len := u16 (msg_len - 8) in
    u8 (if truthy (msg_len mod GENIE_TRANSPORT_EACH_PDU_SIZE)
        then msg_len / GENIE_TRANSPORT_EACH_PDU_SIZE + 2
        else msg_len / GENIE_TRANSPORT_EACH_PDU_SIZE + 1).

Definition transport_get_send_timeout (payload_len : Z) : Z :=
  u16 (GENIE_TRANSPORT_EACH_PDU_TIMEOUT * genie_transport_get_seg_count payload_len).

(** The opcodes of the [switch] of [genie_transport_send_model]. *)
Definition sendable_opid (o : Z) : bool :=
  (o =? VENDOR_OP_ATTR_SET_ACK) || (o =? VENDOR_OP_ATTR_STATUS) || (o =? VENDOR_OP_ATTR_INDICATE)
  || (o =? VENDOR_OP_ATTR_INDICATE_TG) || (o =? VENDOR_OP_ATTR_TRANS_MSG)
  || (o =? VENDOR_OP_ATTR_TRANS_INDICATE).

Definition tid_out_of_range (m : genie_transport_model_param_t) : bool :=
  ((opid m =? VENDOR_OP_ATTR_INDICATE) || (opid m =? VENDOR_OP_ATTR_TRANS_INDICATE))
  && ((tid m <? GENIE_TRANSPORT_TID_MIN) || (tid m >? GENIE_TRANSPORT_TID_MAX)).

(** Whether the message is kept for retransmission. *)
Definition wants_retransmit (m : genie_transport_model_param_t) : bool :=
  negb (opid m =? VENDOR_OP_ATTR_STATUS) && negb (opid m =? VENDOR_OP_ATTR_TRANS_MSG)
  && (retry_period m >? 0).

Definition genie_transport_send_model (m : genie_transport_model_param_t) (s : tstate) : Z * tstate :=
  match data m with
  | None => (-1, s)
  | Some _ =>
    if (len m =? 0) || negb (provisioned (tenv s)) then (-1, s)
    else if negb (sendable_opid (opid m)) then (-1, s)
    else
      let '(m, s) := if tid m =? 0 then let '(t, s) := genie_transport_gen_tid s in (with_tid t m, s)
                     else (m, s) in
      if tid_out_of_range m then (-1, s)
      else
        let s := match genie_transport_find_by_tid (tid m) s with
                 | Some _ => snd (transport_remove_by_tid (tid m) s)
                 | None => s
                 end in
        let '(m, s) := if wants_retransmit m
                       then let '(_, m, s) := genie_transport_append_mesg m s in (m, s)
                       else (m, s) in
        let '(r, e) := genie_transport_model_send m (tenv s) in
        (r, with_env e s)
  end.

Definition genie_transport_send_payload (p : genie_transport_payload_param_t) (s : tstate) : Z * tstate :=
  match p_payload p with
  | None => (-1, s)
  | Some _ =>
      genie_transport_send_model
        (mkParam (bt_mesh_elem_find_by_id (element_id p) (tenv s)) None (pl_result_cb p)
           (retry_cnt p) (pl_opid p) (pl_tid p) (pl_dst_addr p)
           (transport_get_send_timeout (payload_len p)) (payload_len p) (p_payload p)) s
  end.

Definition genie_transport_tx_in_progress (s : tstate) : bool :=
  match send_list s with [] => false | _ => true end.

(** A [result_cb] call when the pointer is not NULL. *)
Definition call_result_cb (m : genie_transport_model_param_t) (r : transport_result_e) (e : env) : env :=
  match result_cb m with Some cb => emit (ResultCb cb (tid m) r) e | None => e end.

(** The walk of [retransmit_timer_cb]: new list, [nearest], environment. *)
Fixpoint retransmit_walk (l : list genie_transport_node_t) (nearest : Z) (e : env)
  : list genie_transport_node_t * Z * env :=
  match l with
  | [] => ([], nearest, e)
  | n :: l =>
      let nearest := retry_period (msg n) in
      if timeout n <=? uptime e then
        if left_retry n =? 0 then (l, nearest, call_result_cb (msg n) SEND_RESULT_TIMEOUT e)
        else
          let '(_, e) := genie_transport_model_send (msg n) e in
          let n := mkNode (u8 (left_retry n - 1)) (uptime e + retry_period (msg n)) (msg n) in
          let '(l, nearest, e) := retransmit_walk l nearest e in
          (n :: l, nearest, e)
      else
        let nearest := if nearest >? timeout n then u32 (timeout n) else nearest in
        let '(l, nearest, e) := retransmit_walk l nearest e in
        (n :: l, nearest, e)
  end.

Definition retransmit_timer_cb (s : tstate) : tstate :=
  let s := lock s in
  let '(l, nearest, e) := retransmit_walk (send_list s) 0 (tenv s) in
  let s := unlock (with_env e (with_send_list l s)) in
  match send_list s with
  | [] => k_timer_stop s
  | _ => k_timer_start nearest s
  end.

(** The kernel timer expires: it is one-shot, and its callback is due. *)
Definition timer_expires (s : tstate) : tstate := with_timer (retransmit_timer s) false true s.

(** The timer task takes a due callback.  It blocks, which is [None], while the
    mesh task holds the mutex. *)
Definition run_timer_cb (s : tstate) : option tstate :=
  if timer_due s && (transport_mutex s =? 0)
  then Some (retransmit_timer_cb (with_timer (retransmit_timer s) (timer_run s) false s)) else None.

Definition genie_transport_ack (t : Z) (s : tstate) : Z * tstate :=
  match send_list s with
  | [] => (0, s)
  | _ =>
      let s := lock s in
      let s := match remove_first_tid t (send_list s) with
               | Some (n, l) => with_env (call_result_cb (msg n) SEND_RESULT_SUCCESS (tenv s)) (with_send_list l s)
               | None => s
               end in
      (0, unlock s)
  end.

Definition genie_transport_init (s : tstate) : tstate :=
  mkT (tenv s) (last_src_addr s) (tid_queue s) (cur_index s) (gen_tid s) [] 0 0 false false.

(** The statics as the loader leaves them, with [genie_transport_init] run. *)
Definition transport_boot (e : env) : tstate :=
  genie_transport_init
    (mkT e BT_MESH_ADDR_TMALL_GENIE (replicate RECV_MSG_TID_QUEUE_SIZE (mkTidEntry 0 0 0 0)) 0
         GENIE_TRANSPORT_TID_MAX [] 0 0 false false).

(** ** Helper lemmas on the walks *)

Abbreviation tids l := (map (λ n, tid (msg n)) l).
Definition other_tid (t : Z) (n : genie_transport_node_t) : bool := negb (tid (msg n) =? t).

Lemma find_by_tid_In t l : find_by_tid t l ≠ None ↔ In t (tids l).
Proof.
  induction l as [|n l IH]; simpl; [done|].
  destruct (Z.eqb_spec (tid (msg n)) t); [naive_solver|]. rewrite IH. naive_solver.
Qed.

Lemma remove_first_tid_None t l : ~ In t (tids l) → remove_first_tid t l = None.
Proof.
  induction l as [|n l IH]; simpl; intros H; [done|].
  destruct (Z.eqb_spec (tid (msg n)) t); [naive_solver|]. by rewrite IH by naive_solver.
Qed.

Lemma filter_other_tid_id t l : ~ In t (tids l) → List.filter (other_tid t) l = l.
Proof.
  induction l as [|n l IH]; simpl; intros H; [done|]. unfold other_tid at 1.
  destruct (Z.eqb_spec (tid (msg n)) t); [naive_solver|]. simpl. by rewrite IH by naive_solver.
Qed.

(** With distinct TIDs, removing the first node of a TID removes the TID. *)
Lemma remove_first_tid_Some t l : List.NoDup (tids l) → In t (tids l) →
  exists n, remove_first_tid t l = Some (n, List.filter (other_tid t) l) /\ In n l /\ tid (msg n) = t.
Proof.
  induction l as [|n l IH]; simpl; intros ND H; [done|]. apply NoDup_cons_iff in ND as [NI ND].
  unfold other_tid at 1. destruct (Z.eqb_spec (tid (msg n)) t) as [<-|NE]; simpl.
  - exists n. rewrite filter_other_tid_id by done. auto.
  - destruct H as [|H]; [done|]. destruct (IH ND H) as (x & -> & ? & ?). exists x. auto.
Qed.

Lemma filter_tids_incl (f : genie_transport_node_t → bool) l t : In t (tids (List.filter f l)) → In t (tids l).
Proof. rewrite !in_map_iff. intros (n & <- & H). apply filter_In in H as [? _]. eauto. Qed.

Lemma filter_tids_NoDup (f : genie_transport_node_t → bool) l : List.NoDup (tids l) → List.NoDup (tids (List.filter f l)).
Proof.
  induction l as [|n l IH]; simpl; intros ND; [done|]. apply NoDup_cons_iff in ND as [NI ND].
  destruct (f n); simpl; [constructor|]; eauto using filter_tids_incl.
Qed.

Lemma filter_removes_tid t l : ~ In t (tids (List.filter (other_tid t) l)).
Proof.
  rewrite in_map_iff. intros (n & <- & H). apply filter_In in H as [_ H].
  unfold other_tid in H. by rewrite Z.eqb_refl in H.
Qed.

Lemma filter_length_le' {A} (f : A → bool) l : (length (List.filter f l) <= length l)%nat.
Proof. induction l as [|x l IH]; simpl; [lia|]. destruct (f x); simpl; lia. Qed.

Lemma Forall_filter' {A} (P : A → Prop) (f : A → bool) l : Forall P l → Forall P (List.filter f l).
Proof. induction 1; simpl; [done|]. destruct (f x); auto. Qed.

(** ** The invariant of the send list *)

(** A message parameter within the C types of its fields. *)
Definition wf_param (m : genie_transport_model_param_t) : Prop :=
  is_u8 (retry m) /\ is_u8 (tid m) /\ is_u16 (retry_period m) /\ is_u16 (len m).

Definition wf_node (n : genie_transport_node_t) : Prop :=
  0 <= left_retry n <= VENDOR_MODEL_MSG_MAX_RETRY_TIMES
  /\ 0 < retry_period (msg n) < 65536 /\ is_u8 (tid (msg n)).

(** The kernel timer counts, or its callback is due. *)
Definition armed (s : tstate) : Prop := timer_run s = true \/ timer_due s = true.

(** At most eight pending messages, with distinct TIDs and retry counts in range;
    while one is pending the k_timer is started, and while it is started the kernel
    timer behind it counts or its callback is due. *)
Definition twf (s : tstate) : Prop :=
  (length (send_list s) <= CONFIG_VENDOR_SEND_MSG_MAX)%nat
  /\ List.NoDup (tids (send_list s)) /\ Forall wf_node (send_list s)
  /\ (send_list s ≠ [] → 0 < retransmit_timer s)
  /\ (0 <= retransmit_timer s /\ (0 < retransmit_timer s → armed s)) /\ 0 <= uptime (tenv s).

Lemma model_send_uptime m e : uptime (snd (genie_transport_model_send m e)) = uptime e.
Proof. unfold genie_transport_model_send, fill_pub_msg. destruct (vnd_model e (p_elem m)); [|done]. by destruct (_ <? _). Qed.

Lemma call_result_cb_uptime m r e : uptime (call_result_cb m r e) = uptime e.
Proof. unfold call_result_cb. by destruct (result_cb m). Qed.

Lemma land_63 z : Z.land z 63 = z mod 64.
Proof. change 63 with (Z.ones 6). by rewrite Z.land_ones by lia. Qed.

(** The TID of a 6-bit counter value. *)
Lemma lor_128 t : 0 <= t < 64 → Z.lor t 128 = 128 + t.
Proof.
  intros Ht. pose proof (Z.add_lor_land t 128) as E. enough (Z.land t 128 = 0) by lia.
  apply Z.bits_inj'. intros n Hn. rewrite Z.land_spec, Z.bits_0. change 128 with (2 ^ 7).
  rewrite Z.pow2_bits_eqb by lia. destruct (Z.eqb_spec 7 n) as [<-|]; [|apply andb_false_r].
  destruct (Z.eq_dec t 0) as [->|]; [by rewrite Z.bits_0|].
  rewrite Z.bits_above_log2; [done|lia|]. assert (Z.log2 t < 6) by (apply Z.log2_lt_pow2; simpl; lia). lia.
Qed.

Lemma gen_tid_spec s :
  let t := (if gen_tid s =? GENIE_TRANSPORT_TID_MAX then rand (tenv s) else gen_tid s + 1) mod 64 in
  genie_transport_gen_tid s = (128 + t, with_gen_tid t s).
Proof.
  unfold genie_transport_gen_tid. rewrite !land_63.
  destruct (gen_tid s =? GENIE_TRANSPORT_TID_MAX); simpl; rewrite lor_128 by dlia; done.
Qed.

Lemma gen_tid_range s : 128 <= fst (genie_transport_gen_tid s) <= 191.
Proof. rewrite gen_tid_spec. simpl. destruct (_ =? _); dlia. Qed.

(** A generated TID is accepted by the range test. *)
Lemma gen_tid_accepted m s : tid m = fst (genie_transport_gen_tid s) → tid_out_of_range m = false.
Proof.
  intros E. pose proof (gen_tid_range s). unfold tid_out_of_range, GENIE_TRANSPORT_TID_MIN, GENIE_TRANSPORT_TID_MAX. rewrite E, Z.gtb_ltb.
  rewrite (proj2 (Z.ltb_ge _ 128)), (proj2 (Z.ltb_ge 191 _)) by lia. apply andb_false_r.
Qed.

Lemma append_twf m s : wf_param m → retry_period m > 0 → ~ In (tid m) (tids (send_list s)) → twf s →
  twf (snd (genie_transport_append_mesg m s)).
Proof.
  intros (Hr & Ht & Hp & _) HP NI (HL & ND & HF & HT & HT0 & HU). unfold genie_transport_append_mesg.
  destruct (Nat.leb_spec CONFIG_VENDOR_SEND_MSG_MAX (length (send_list s))); [repeat split; done || apply HT0|].
  unfold genie_transport_msg_node_generate. cbn [tenv lock].
  set (m' := if retry m >? VENDOR_MODEL_MSG_MAX_RETRY_TIMES
             then with_retry VENDOR_MODEL_MSG_MAX_RETRY_TIMES m else m).
  assert (tid m' = tid m /\ retry_period m' = retry_period m /\ 0 <= retry m' <= 45) as (E1 & E2 & E3).
  { unfold m', VENDOR_MODEL_MSG_MAX_RETRY_TIMES. rewrite Z.gtb_ltb.
    destruct (Z.ltb_spec 45 (retry m)); simpl; lia. }
  destruct (malloc_ok (tenv s)); simpl; [|repeat split; done || apply HT0].
  assert (List.NoDup (tids (send_list s ++ [mkNode (retry m') (uptime (tenv s) + retry_period m')
    (with_data (Some (read_mem (data m') (len m'))) m')]))) as ND'.
  { rewrite map_app. simpl. rewrite E1. apply List.NoDup_app; [done|repeat constructor; simpl; tauto|].
    intros t Hin [<-|[]]. congruence. }
  assert (Forall wf_node (send_list s ++ [mkNode (retry m') (uptime (tenv s) + retry_period m')
    (with_data (Some (read_mem (data m') (len m'))) m')])) as HF'.
  { apply Forall_app. split; [done|]. repeat constructor; simpl; unfold VENDOR_MODEL_MSG_MAX_RETRY_TIMES; lia. }
  unfold k_timer_is_started, k_timer_start, k_timer_stop, truthy. cbn [retransmit_timer unlock with_send_list lock].
  destruct (Z.eqb_spec (retransmit_timer s) 0) as [E0|E0]; cbn; rewrite ?E0; unfold twf, armed in *; simpl; rewrite length_app; simpl;
    repeat split; try done; try lia; intros; first [by left | apply HT0; lia].
Qed.

(** The walk of the timer keeps a sublist of the nodes with their messages. *)
Lemma retransmit_walk_wf l nearest e : 0 <= uptime e → Forall wf_node l → List.NoDup (tids l) →
  let '(l', nearest', e') := retransmit_walk l nearest e in
  (length l' <= length l)%nat /\ Forall wf_node l' /\ List.NoDup (tids l')
  /\ (forall t, In t (tids l') → In t (tids l)) /\ uptime e' = uptime e
  /\ (l = [] → l' = [] /\ nearest' = nearest) /\ (l ≠ [] → 0 < nearest').
Proof.
  revert nearest e. induction l as [|n l IH]; intros nearest e HU HF ND; [by simpl; auto 10|].
  apply List.Forall_cons_iff in HF as [(HL & HP & HT) HF]. apply NoDup_cons_iff in ND as [NI ND]. simpl.
  destruct (Z.leb_spec (timeout n) (uptime e)).
  - destruct (Z.eqb_spec (left_retry n) 0) as [E|E].
    { rewrite call_result_cb_uptime. repeat split; auto; try done; lia. }
    pose proof (model_send_uptime (msg n) e) as EU.
    destruct (genie_transport_model_send (msg n) e) as [rc e1]; simpl in EU.
    specialize (IH (retry_period (msg n)) e1 ltac:(lia) HF ND).
    destruct (retransmit_walk l (retry_period (msg n)) e1) as [[l' nearest'] e'].
    destruct IH as (I1 & I2 & I3 & I4 & I5 & I6 & I7). simpl. repeat split; try lia; try done.
    + constructor; [|done]. unfold wf_node, VENDOR_MODEL_MSG_MAX_RETRY_TIMES in *; simpl. rewrite u8_small by lia. lia.
    + constructor; auto.
    + intros t [<-|Ht]; auto.
    + intros _. destruct l; [destruct I6 as [_ ->]; [done|lia]|auto].
  - set (nr := if retry_period (msg n) >? timeout n then u32 (timeout n) else retry_period (msg n)).
    assert (0 < nr) by (unfold nr; rewrite Z.gtb_ltb; destruct (Z.ltb_spec (timeout n) (retry_period (msg n)));
                        rewrite ?u32_small by lia; lia).
    specialize (IH nr e HU HF ND). destruct (retransmit_walk l nr e) as [[l' nearest'] e'].
    destruct IH as (I1 & I2 & I3 & I4 & I5 & I6 & I7). simpl. repeat split; try lia; try done.
    + constructor; [unfold wf_node; lia|done].
    + constructor; auto.
    + intros t [<-|Ht]; auto.
    + intros _. destruct l; [destruct I6 as [_ ->]; [done|lia]|auto].
Qed.

Lemma k_timer_start_fields t s : send_list (k_timer_start t s) = send_list s /\ tenv (k_timer_start t s) = tenv s
  /\ retransmit_timer (k_timer_start t s) = t /\ timer_run (k_timer_start t s) = true
  /\ transport_mutex (k_timer_start t s) = transport_mutex s.
Proof. unfold k_timer_start, k_timer_stop. by destruct (negb _). Qed.

Lemma k_timer_stop_fields s : send_list (k_timer_stop s) = send_list s /\ tenv (k_timer_stop s) = tenv s
  /\ retransmit_timer (k_timer_stop s) = 0 /\ transport_mutex (k_timer_stop s) = transport_mutex s.
Proof. unfold k_timer_stop, truthy. destruct (Z.eqb_spec (retransmit_timer s) 0); done. Qed.

(** The callback leads from a well-formed list to the invariant, whatever the timer was:
    it starts it again or stops it. *)
Lemma retransmit_timer_cb_twf s : (length (send_list s) <= CONFIG_VENDOR_SEND_MSG_MAX)%nat →
  List.NoDup (tids (send_list s)) → Forall wf_node (send_list s) → 0 <= uptime (tenv s) → twf (retransmit_timer_cb s).
Proof.
  intros HL ND HF HU. unfold retransmit_timer_cb. cbn [send_list lock tenv].
  pose proof (retransmit_walk_wf (send_list s) 0 (tenv s) HU HF ND) as H.
  destruct (retransmit_walk (send_list s) 0 (tenv s)) as [[l' nearest'] e'].
  destruct H as (I1 & I2 & I3 & I4 & I5 & I6 & I7). cbn [send_list unlock with_env with_send_list].
  set (s1 := unlock _). destruct l' as [|n' l'].
  - destruct (k_timer_stop_fields s1) as (E1 & E2 & E3 & _). unfold twf. rewrite E1, E2, E3. cbn in *.
    repeat split; try done; lia.
  - destruct (k_timer_start_fields nearest' s1) as (E1 & E2 & E3 & E4 & _). unfold twf, armed. rewrite E1, E2, E3, E4.
    assert (send_list s ≠ []) as NE by (intros E; rewrite E in *; simpl in *; lia). specialize (I7 NE).
    cbn [s1 send_list unlock with_env with_send_list lock tenv] in *. repeat split; try done; try lia.
Qed.

Lemma filter_twf t s s' : twf s → send_list s' = List.filter (other_tid t) (send_list s) →
  retransmit_timer s' = retransmit_timer s → timer_run s' = timer_run s → timer_due s' = timer_due s →
  uptime (tenv s') = uptime (tenv s) → twf s'.
Proof.
  intros (HL & ND & HF & HT & HT0 & HU) E1 E2 E3 E4 E5. unfold twf, armed in *. rewrite E1, E2, E3, E4, E5.
  pose proof (filter_length_le' (other_tid t) (send_list s)).
  repeat split; try lia; try apply HT0; auto using filter_tids_NoDup, Forall_filter'.
  intros NE. apply HT. intros E. by rewrite E in NE.
Qed.

Lemma ack_send_list t s : twf s →
  send_list (snd (genie_transport_ack t s)) = List.filter (other_tid t) (send_list s)
  /\ retransmit_timer (snd (genie_transport_ack t s)) = retransmit_timer s
  /\ timer_run (snd (genie_transport_ack t s)) = timer_run s /\ timer_due (snd (genie_transport_ack t s)) = timer_due s
  /\ uptime (tenv (snd (genie_transport_ack t s))) = uptime (tenv s)
  /\ transport_mutex (snd (genie_transport_ack t s)) = transport_mutex s.
Proof.
  intros (HL & ND & _). unfold genie_transport_ack.
  destruct (send_list s) as [|n l] eqn:El; [by simpl; rewrite El|].
  rewrite <- El in *. cbn [send_list lock].
  destruct (in_dec Z.eq_dec t (tids (send_list s))) as [Hin|Hin].
  - destruct (remove_first_tid_Some t _ ND Hin) as (x & -> & _). simpl. rewrite call_result_cb_uptime.
    repeat split; lia.
  - rewrite remove_first_tid_None, filter_other_tid_id by done. simpl. repeat split; lia.
Qed.

(** The message and state after the TID of a message has been settled. *)
Definition assign_tid (m : genie_transport_model_param_t) (s : tstate) :=
  if tid m =? 0 then let '(t, s) := genie_transport_gen_tid s in (with_tid t m, s) else (m, s).

(** The state once an older message with the same TID has been dropped. *)
Definition drop_pending (t : Z) (s : tstate) : tstate :=
  match genie_transport_find_by_tid t s with
  | Some _ => snd (transport_remove_by_tid t s)
  | None => s
  end.

Lemma drop_pending_spec t s : List.NoDup (tids (send_list s)) →
  send_list (drop_pending t s) = List.filter (other_tid t) (send_list s)
  /\ retransmit_timer (drop_pending t s) = retransmit_timer s /\ tenv (drop_pending t s) = tenv s
  /\ (timer_run (drop_pending t s) = timer_run s /\ timer_due (drop_pending t s) = timer_due s)
  /\ transport_mutex (drop_pending t s)
     = transport_mutex s + (if existsb (Z.eqb t) (tids (send_list s)) then 1 else 0).
Proof.
  intros ND. unfold drop_pending, genie_transport_find_by_tid.
  destruct (find_by_tid t (send_list s)) eqn:E.
  - assert (In t (tids (send_list s))) as Hin by (apply find_by_tid_In; congruence).
    assert (existsb (Z.eqb t) (tids (send_list s)) = true) as ->
      by (apply existsb_exists; exists t; split; [done|apply Z.eqb_refl]).
    destruct (remove_first_tid_Some t _ ND Hin) as (x & HR & _).
    unfold transport_remove_by_tid. destruct (send_list s) eqn:El; [done|]. cbn [send_list lock].
    rewrite El, HR. done.
  - assert (~ In t (tids (send_list s))) as Hn by (rewrite <- find_by_tid_In; naive_solver).
    rewrite filter_other_tid_id by done. destruct (existsb (Z.eqb t) (tids (send_list s))) eqn:EX.
    + apply existsb_exists in EX as (x & Hx & ->%Z.eqb_eq). done.
    + repeat split; lia.
Qed.

Lemma assign_tid_spec m s : wf_param m →
  let '(m', s') := assign_tid m s in
  wf_param m' /\ retry_period m' = retry_period m /\ send_list s' = send_list s
  /\ retransmit_timer s' = retransmit_timer s /\ tenv s' = tenv s /\ transport_mutex s' = transport_mutex s
  /\ timer_run s' = timer_run s /\ timer_due s' = timer_due s.
Proof.
  intros (H1 & H2 & H3 & H4). unfold assign_tid. destruct (Z.eqb_spec (tid m) 0); [|repeat split; done || lia].
  pose proof (gen_tid_range s) as R. destruct (genie_transport_gen_tid s) as [t s'] eqn:E.
  rewrite gen_tid_spec in E. injection E as <- <-. simpl in *. unfold wf_param; simpl. repeat split; done || lia.
Qed.

(** [genie_transport_send_model] on a message that passes the checks. *)
Lemma send_model_unfold m s : data m ≠ None → len m ≠ 0 → provisioned (tenv s) = true →
  sendable_opid (opid m) = true →
  genie_transport_send_model m s =
  let '(m, s) := assign_tid m s in
  if tid_out_of_range m then (-1, s)
  else
    let s := drop_pending (tid m) s in
    let '(m, s) := if wants_retransmit m
                   then let '(_, m, s) := genie_transport_append_mesg m s in (m, s) else (m, s) in
    let '(r, e) := genie_transport_model_send m (tenv s) in (r, with_env e s).
Proof.
  intros D L P O. unfold genie_transport_send_model. destruct (data m); [|done].
  destruct (Z.eqb_spec (len m) 0); [done|]. rewrite P, O. done.
Qed.

Lemma send_model_rejected m s :
  data m = None \/ len m = 0 \/ provisioned (tenv s) = false \/ sendable_opid (opid m) = false →
  genie_transport_send_model m s = (-1, s).
Proof.
  unfold genie_transport_send_model. intros [-> | [-> | [-> | ->]]]; destruct (data m); try done; simpl.
  - by rewrite orb_true_r.
  - by destruct (_ || _).
Qed.

Lemma with_env_twf e s : uptime (tenv s) <= uptime e → twf s → twf (with_env e s).
Proof. intros H (HL & ND & HF & HT & HT0 & HU). repeat split; simpl; try done; try apply HT0; lia. Qed.

Lemma send_model_twf m s : wf_param m → twf s → twf (snd (genie_transport_send_model m s)).
Proof.
  intros W T.
  destruct (data m) eqn:D; [|by rewrite send_model_rejected by auto].
  destruct (Z.eq_dec (len m) 0); [by rewrite send_model_rejected by auto|].
  destruct (provisioned (tenv s)) eqn:P; [|by rewrite send_model_rejected by auto].
  destruct (sendable_opid (opid m)) eqn:O; [|by rewrite send_model_rejected by auto].
  rewrite send_model_unfold by congruence.
  pose proof (assign_tid_spec m s W) as HA. destruct (assign_tid m s) as [m1 s1].
  destruct HA as (W1 & EP & EL & ET & EE & _ & ER & ED).
  assert (twf s1) as T1 by (unfold twf, armed in *; by rewrite EL, ET, EE, ER, ED).
  destruct (tid_out_of_range m1); [done|]. cbv zeta.
  pose proof T1 as (_ & ND1 & _). destruct (drop_pending_spec (tid m1) s1 ND1) as (D1 & D2 & D3 & (D4 & D5) & _).
  assert (twf (drop_pending (tid m1) s1)) as T2 by (eapply filter_twf; eauto; by rewrite D3).
  assert (~ In (tid m1) (tids (send_list (drop_pending (tid m1) s1)))) as NI
    by (rewrite D1; apply filter_removes_tid).
  assert (forall m' s', twf s' → twf (snd (let '(r, e) := genie_transport_model_send m' (tenv s') in (r, with_env e s')))) as SEND.
  { intros m' s' T'. pose proof (model_send_uptime m' (tenv s')) as U.
    destruct (genie_transport_model_send m' (tenv s')); simpl in *. apply with_env_twf; [lia|done]. }
  destruct (wants_retransmit m1) eqn:WR; [|by apply SEND].
  pose proof (append_twf m1 _ W1 ltac:(unfold wants_retransmit in WR; apply andb_true_iff in WR; lia) NI T2) as T3.
  destruct (genie_transport_append_mesg m1 (drop_pending (tid m1) s1)) as [[r3 m3] s3]. by apply SEND.
Qed.

(** ** The component as a transition system *)

(** Everything that touches the transport: sends, confirmations, the expiry of the
    kernel timer, the due callback when the timer task gets the mutex, received
    messages, and changes of the platform (the clock only moves forward). *)
Inductive tstep : tstate → tstate → Prop :=
| step_send m s : wf_param m → tstep s (snd (genie_transport_send_model m s))
| step_ack t s : tstep s (snd (genie_transport_ack t s))
| step_expires s : timer_run s = true → tstep s (timer_expires s)
| step_timer s s' : run_timer_cb s = Some s' → tstep s s'
| step_check a t el s : tstep s (snd (genie_transport_check_tid a t el s))
| step_src_addr a s : tstep s (genie_transport_src_addr_set a s)
| step_env e s : uptime (tenv s) <= uptime e → tstep s (with_env e s).

Lemma tstep_twf s s' : tstep s s' → twf s → twf s'.
Proof.
  destruct 1; intros T.
  - by apply send_model_twf.
  - destruct (ack_send_list t s T) as (? & ? & ? & ? & ? & _). by eapply filter_twf.
  - destruct T as (HL & ND & HF & HT & HT0 & HU). repeat split; try done; try apply HT0. intros _. by right.
  - unfold run_timer_cb in *. destruct (_ && _); [|done]. simplify_eq. destruct T as (HL & ND & HF & HT & HT0 & HU).
    by apply retransmit_timer_cb_twf.
  - unfold genie_transport_check_tid. by destruct (tid_scan _ _ _ _ _ _ _).
  - done.
  - by apply with_env_twf.
Qed.

Lemma tsteps_twf s s' : rtc tstep s s' → twf s → twf s'.
Proof. induction 1; eauto using tstep_twf. Qed.

Lemma transport_boot_twf e : 0 <= uptime e → twf (transport_boot e).
Proof. intros HU. repeat split; simpl; try done; [lia|constructor]. Qed.

(** ** The receive ring *)

(** An entry of the ring matches a query and has not expired. *)
Definition tid_hit (cur_time a t el : Z) (x : tid_entry) : bool :=
  (q_tid x =? t) && (q_addr x =? a) && (q_elemid x =? el)
  && (cur_time <? u32 (q_time x + GENIE_TRANSPORT_DEDUPLICATE_DURATION)).

Definition ring_wf (s : tstate) : Prop :=
  length (tid_queue s) = RECV_MSG_TID_QUEUE_SIZE /\ 0 <= cur_index s < Z.of_nat RECV_MSG_TID_QUEUE_SIZE.

Lemma tid_scan_true n i q c a t el : 0 <= i → i + Z.of_nat n < 256 →
  tid_scan n i q c a t el = true ↔
  exists k x, 0 <= k < Z.of_nat n
    /\ q !! Z.to_nat ((i + k) mod Z.of_nat RECV_MSG_TID_QUEUE_SIZE) = Some x /\ tid_hit c a t el x = true.
Proof.
  revert i. induction n as [|n IH]; intros i Hi Hn; [split; [done|intros (k & ? & ? & _); lia]|].
  cbn [tid_scan]. set (ri := Z.to_nat (i mod Z.of_nat RECV_MSG_TID_QUEUE_SIZE)).
  destruct (match q !! ri with Some x => _ | None => _ end) eqn:E.
  - split; [intros _|done]. destruct (q !! ri) as [x|] eqn:Eq; [|done].
    exists 0, x. rewrite Z.add_0_r. split; [lia|done].
  - rewrite u8_small by lia. rewrite IH by lia. split.
    + intros (k & x & Hk & Hq & Hx). exists (k + 1), x. split; [lia|].
      split; [|done]. rewrite <- Hq. do 3 f_equal. lia.
    + intros (k & x & Hk & Hq & Hx). destruct (Z.eq_dec k 0) as [->|].
      { rewrite Z.add_0_r in Hq. fold ri in Hq. rewrite Hq in E. unfold tid_hit in Hx. congruence. }
      exists (k - 1), x. split; [lia|]. split; [|done]. rewrite <- Hq. do 3 f_equal. lia.
Qed.

(** The walk from [cur_index] sees every entry of the ring. *)
Lemma tid_scan_existsb s c a t el : ring_wf s →
  tid_scan RECV_MSG_TID_QUEUE_SIZE (cur_index s) (tid_queue s) c a t el
  = existsb (tid_hit c a t el) (tid_queue s).
Proof.
  intros [HL HI]. unfold RECV_MSG_TID_QUEUE_SIZE in *. apply eq_true_iff_eq.
  rewrite tid_scan_true by lia. rewrite existsb_exists. unfold RECV_MSG_TID_QUEUE_SIZE. split.
  - intros (k & x & Hk & Hq & Hx). exists x. split; [|done].
    apply list_elem_of_In. by eapply list_elem_of_lookup_2.
  - intros (x & Hin & Hx). apply list_elem_of_In, list_elem_of_lookup_1 in Hin as [j Hj].
    pose proof (lookup_lt_Some _ _ _ Hj). exists ((Z.of_nat j - cur_index s) mod 5), x.
    split; [dlia|]. split; [|done]. rewrite <- Hj. f_equal. dlia.
Qed.

(** One reception: the clock advances by [dt], then the message is checked. *)
Record rx := mkRx { rx_dt : Z; rx_addr : Z; rx_tid : Z; rx_elem : Z }.

Definition rx_step (r : rx) (s : tstate) : E_MESH_ERROR_TYPE * tstate :=
  genie_transport_check_tid (rx_addr r) (rx_tid r) (rx_elem r) (with_env (advance (rx_dt r) (tenv s)) s).

(** A sequence of receptions, with the number of accepted messages. *)
Fixpoint rx_run (l : list rx) (s : tstate) : nat * tstate :=
  match l with
  | [] => (O, s)
  | r :: l =>
      let '(res, s) := rx_step r s in
      let '(k, s) := rx_run l s in
      (match res with MESH_SUCCESS => S k | _ => k end, s)
  end.

Lemma check_tid_cases a t el s : ring_wf s →
  let c := u32 (uptime (tenv s)) in
  let hit := existsb (tid_hit c (dedup_addr a) t el) (tid_queue s) in
  genie_transport_check_tid a t el s =
  if hit then (MESH_TID_REPEAT, s)
  else (MESH_SUCCESS,
        with_tid_queue (<[Z.to_nat (cur_index s) := mkTidEntry t el (dedup_addr a) c]> (tid_queue s))
                       ((cur_index s + 1) mod 5) s).
Proof.
  intros W. unfold genie_transport_check_tid. rewrite tid_scan_existsb by done. simpl.
  destruct (existsb _ _); [done|]. destruct W as [_ HI]. unfold RECV_MSG_TID_QUEUE_SIZE in *.
  rewrite u8_small by lia. done.
Qed.

Lemma check_tid_ring_wf a t el s : ring_wf s → ring_wf (snd (genie_transport_check_tid a t el s)).
Proof.
  intros W. rewrite check_tid_cases by done. simpl. destruct (existsb _ _); [done|].
  destruct W as [HL HI]. unfold ring_wf, RECV_MSG_TID_QUEUE_SIZE in *. simpl.
  rewrite length_insert. split; [done|dlia].
Qed.

(** An entry written [j] acceptances ago survives until the fifth. *)
Lemma rx_run_keeps l s p x j : ring_wf s → Forall (λ r, 0 <= rx_dt r) l →
  0 <= p < 5 → cur_index s = (p + 1 + Z.of_nat j) mod 5 → tid_queue s !! Z.to_nat p = Some x →
  (j + fst (rx_run l s) <= 4)%nat →
  let s' := snd (rx_run l s) in
  ring_wf s' /\ tid_queue s' !! Z.to_nat p = Some x /\ uptime (tenv s) <= uptime (tenv s').
Proof.
  revert s j. induction l as [|r l IH]; intros s j W HF Hp HC HQ HK; [by simpl|].
  apply List.Forall_cons_iff in HF as [Hr HF]. simpl in *. unfold rx_step in *.
  set (s0 := with_env _ s) in *. assert (ring_wf s0) as W0 by done.
  assert (uptime (tenv s0) = uptime (tenv s) + rx_dt r) as U0 by done.
  pose proof (check_tid_ring_wf (rx_addr r) (rx_tid r) (rx_elem r) s0 W0) as W1.
  rewrite check_tid_cases in * by done. cbv zeta in *.
  destruct (existsb _ _); simpl in W1.
  - specialize (IH s0 j W1 HF Hp HC HQ). destruct (rx_run l s0) as [k s2]. simpl in *.
    destruct (IH HK) as (? & ? & ?). split; [done|split; [done|lia]].
  - destruct (rx_run l _) as [k s2] eqn:E in HK |- *. simpl in *.
    match type of E with rx_run l ?z = _ => specialize (IH z (S j) W1 HF Hp) end. rewrite E in IH. simpl in IH.
    destruct IH as (? & ? & ?); [rewrite HC; dlia| |lia|].
    + rewrite list_lookup_insert_ne; [done|]. rewrite HC. dlia.
    + simpl in *. split; [done|split; [done|lia]].
Qed.

(** ** Claims *)

(** [C31] The pending list is well formed in every state that sends,
    confirmations, receptions, timer expiries and callbacks lead to from boot: at
    most eight messages with pairwise distinct TIDs, retry counts within 0..45.
    While a message is pending the one-shot kernel timer counts or it has expired
    and its callback is due, and a due callback runs when the mesh task does not hold
    the mutex.  It is not always released ([send_model_mutex]), and then the callback
    never runs again ([leaked_mutex_blocks_timer]). *)
Theorem transport_invariant e s : 0 <= uptime e → rtc tstep (transport_boot e) s →
  twf s /\ (send_list s ≠ [] →
    armed s /\ (timer_due s = true → transport_mutex s = 0 → exists s', run_timer_cb s = Some s' /\ twf s')).
Proof.
  intros HU H. assert (twf s) as T by (eapply tsteps_twf; [exact H|by apply transport_boot_twf]).
  split; [done|]. intros NE. split; [by destruct T as (_ & _ & _ & HT & HT0 & _); apply HT0, HT|].
  intros D M. assert (exists s', run_timer_cb s = Some s') as [s' E] by (unfold run_timer_cb; rewrite D, M; eauto).
  exists s'. split; [exact E|]. by apply (tstep_twf s); [apply step_timer|].
Qed.

(** A concrete platform: provisioned, two elements, every send succeeds. *)
Definition env0 : env := mkEnv 1000 true true true (λ _, true) 2 0 5 (λ _, 0) [].

(** An indication of three bytes, three retries, 600 ms apart. *)
Definition param0 : genie_transport_model_param_t :=
  mkParam (Some 0) None (Some 7) 2 VENDOR_OP_ATTR_INDICATE 130 0 600 3 (Some [9; 240; 3]).

Lemma transport_invariant_witness :
  let s := timer_expires (snd (genie_transport_send_model param0 (transport_boot env0))) in
  twf s /\ armed s /\ exists s', run_timer_cb s = Some s' /\ twf s'.
Proof.
  intros s. destruct (transport_invariant env0 s) as (T & A).
  - simpl; lia.
  - eapply rtc_r; [apply rtc_once, step_send|apply step_expires; reflexivity]. repeat split; simpl; lia.
  - split; [exact T|]. destruct A as (A1 & A2); [discriminate|]. split; [exact A1|]. apply A2; reflexivity.
Defined.

(** Duplicate detection: after a message (source, TID, element) was
    accepted, the same message is reported as a repeat until 6 s have passed, as
    long as at most four other messages were accepted in between and the 32-bit
    clock does not wrap; unicast addresses 0x0001..0x0010 count as one source. *)
Theorem check_tid_dedup a a' t el s s1 l dt : ring_wf s → dedup_addr a' = dedup_addr a →
  genie_transport_check_tid a t el s = (MESH_SUCCESS, s1) →
  Forall (λ r, 0 <= rx_dt r) l → 0 <= dt → (fst (rx_run l s1) <= 4)%nat →
  0 <= uptime (tenv s) → uptime (tenv (snd (rx_run l s1))) + dt < uptime (tenv s) + 6000 →
  uptime (tenv s) + 6000 < 4294967296 →
  fst (rx_step (mkRx dt a' t el) (snd (rx_run l s1))) = MESH_TID_REPEAT.
Proof.
  intros W EA EC HF Hdt HK HU HW HB. pose proof W as [HL HI]. unfold RECV_MSG_TID_QUEUE_SIZE in *.
  rewrite check_tid_cases in EC by done. cbv zeta in EC. destruct (existsb _ _); [done|].
  injection EC as E1. set (x := mkTidEntry t el (dedup_addr a) (u32 (uptime (tenv s)))) in *.
  assert (ring_wf s1) as W1.
  { subst s1. split; simpl; [by rewrite length_insert|]. unfold RECV_MSG_TID_QUEUE_SIZE. dlia. }
  assert (tid_queue s1 !! Z.to_nat (cur_index s) = Some x) as HX.
  { subst s1; simpl. apply list_lookup_insert_eq. lia. }
  destruct (rx_run_keeps l s1 (cur_index s) x 0 W1 HF) as (W2 & HQ & HU2);
    [lia|subst s1; simpl; f_equal; lia|done|lia|].
  unfold rx_step. simpl. rewrite check_tid_cases by done. cbv zeta.
  rewrite (proj2 (existsb_exists _ _)); [done|]. exists x. split.
  - apply list_elem_of_In. by eapply list_elem_of_lookup_2.
  - assert (uptime (tenv s1) = uptime (tenv s)) as EU by by subst s1.
    unfold tid_hit, x, GENIE_TRANSPORT_DEDUPLICATE_DURATION; simpl. rewrite EA, !Z.eqb_refl. simpl.
    rewrite !u32_small by (rewrite ?u32_small; lia). apply Z.ltb_lt. lia.
Qed.

Lemma check_tid_dedup_witness :
  fst (rx_step (mkRx 100 2 130 0)
    (snd (rx_run [mkRx 5 3 7 0; mkRx 5 1 130 0] (snd (genie_transport_check_tid 1 130 0 (transport_boot env0))))))
  = MESH_TID_REPEAT.
Proof.
  apply (check_tid_dedup 1 2 130 0 (transport_boot env0)
           (snd (genie_transport_check_tid 1 130 0 (transport_boot env0)))
           [mkRx 5 3 7 0; mkRx 5 1 130 0] 100).
  - split; [reflexivity|split; [discriminate|reflexivity]].
  - reflexivity.
  - reflexivity.
  - apply Forall_cons; split; [simpl; lia|]. apply Forall_cons; split; [simpl; lia|]. apply Forall_nil_2.
  - lia.
  - apply Nat.leb_le. reflexivity.
  - simpl; lia.
  - reflexivity.
  - reflexivity.
Defined.

(** The whole effect of a confirmation. *)
Lemma ack_effect t s : twf s →
  let s' := snd (genie_transport_ack t s) in
  fst (genie_transport_ack t s) = 0
  /\ send_list s' = List.filter (other_tid t) (send_list s)
  /\ transport_mutex s' = transport_mutex s
  /\ out (tenv s') = out (tenv s)
       ++ match find_by_tid t (send_list s) with
          | Some m => match result_cb m with Some cb => [ResultCb cb t SEND_RESULT_SUCCESS] | None => [] end
          | None => []
          end.
Proof.
  intros T. pose proof T as (_ & ND & _). destruct (ack_send_list t s T) as (E1 & _ & _ & _ & _ & E4).
  cbv zeta. rewrite E1, E4. split; [unfold genie_transport_ack; by destruct (send_list s)|].
  split; [done|]. split; [done|]. unfold genie_transport_ack.
  destruct (send_list s) as [|n l] eqn:El; [by rewrite app_nil_r|]. rewrite <- El in *. cbn [send_list lock].
  destruct (in_dec Z.eq_dec t (tids (send_list s))) as [Hin|Hin].
  - assert (forall l0, List.NoDup (tids l0) → In t (tids l0) → exists n0,
      remove_first_tid t l0 = Some (n0, List.filter (other_tid t) l0) /\ find_by_tid t l0 = Some (msg n0)
      /\ tid (msg n0) = t) as REM.
    { clear. induction l0 as [|n l0 IH]; intros ND Hin; [done|]. simpl in *.
      apply NoDup_cons_iff in ND as [NI ND]. unfold other_tid at 1.
      destruct (Z.eqb_spec (tid (msg n)) t) as [<-|NE]; simpl.
      - exists n. rewrite filter_other_tid_id by done. done.
      - destruct Hin as [|Hin]; [done|]. destruct (IH ND Hin) as (x & -> & ? & ?). exists x. done. }
    destruct (REM _ ND Hin) as (x & -> & -> & ET). simpl. unfold call_result_cb.
    destruct (result_cb (msg x)); simpl; [by rewrite ET|by rewrite app_nil_r].
  - rewrite remove_first_tid_None by done. simpl.
    destruct (find_by_tid t (send_list s)) eqn:F; [|by rewrite app_nil_r].
    exfalso. apply Hin. apply find_by_tid_In. congruence.
Qed.

(** A confirmation removes exactly the pending message with its TID (the
    other pending messages keep their order and retry state), reports success to
    that message's callback once, and leaves the mutex as it found it; a
    confirmation of an unknown TID changes nothing. *)
Theorem ack_removes_one t s : twf s →
  let s' := snd (genie_transport_ack t s) in
  fst (genie_transport_ack t s) = 0
  /\ send_list s' = List.filter (other_tid t) (send_list s)
  /\ transport_mutex s' = transport_mutex s
  /\ out (tenv s') = out (tenv s)
       ++ match find_by_tid t (send_list s) with
          | Some m => match result_cb m with Some cb => [ResultCb cb t SEND_RESULT_SUCCESS] | None => [] end
          | None => []
          end.
Proof. apply ack_effect. Qed.

Lemma ack_removes_one_witness :
  let s := snd (genie_transport_send_model param0 (transport_boot env0)) in
  send_list (snd (genie_transport_ack 130 s)) = []
  /\ fst (genie_transport_ack 130 s) = 0.
Proof.
  destruct (ack_removes_one 130 (snd (genie_transport_send_model param0 (transport_boot env0)))) as (H1 & H2 & _).
  - apply send_model_twf; [repeat split; simpl; lia|]. apply transport_boot_twf. simpl; lia.
  - split; [rewrite H2; reflexivity|exact H1].
Defined.

(** ** Retransmission of one message *)

(** The time the timer was started for passes; it expires, and the timer task runs
    the callback unless it blocks on the mutex.  A timer that does not count does
    not expire. *)
Definition expire (s : tstate) : tstate :=
  if timer_run s
  then default s (run_timer_cb (timer_expires (with_env (advance (retransmit_timer s) (tenv s)) s)))
  else s.

Fixpoint expire_n (k : nat) (s : tstate) : tstate :=
  match k with O => s | S k => expire_n k (expire s) end.

(** What one transmission of a message appends to the log. *)
Definition tx_of (m : genie_transport_model_param_t) (e : env) : output :=
  TxAccess (mkCtx 0 (appkey_id e)
    (if dst_addr m =? BT_MESH_ADDR_UNASSIGNED then BT_MESH_ADDR_TMALL_GENIE else dst_addr m)
    GENIE_TRANSPORT_DEFAULT_TTL 0) (model_send_bytes m).

(** The access PDU of a message fits the publication buffer. *)
Definition fits_mtu (m : genie_transport_model_param_t) : Prop :=
  Z.of_nat (length (model_send_bytes m)) <= GENIE_MODEL_MTU.

Lemma model_send_fits m e : fits_mtu m → vnd_model e (p_elem m) = true →
  genie_transport_model_send m e = (s16 (send_rc e (length (out e))), emit (tx_of m e) e).
Proof.
  intros F V. unfold genie_transport_model_send, fill_pub_msg, tx_of, fits_mtu in *. rewrite V. cbn [negb].
  by rewrite (proj2 (Z.ltb_ge _ _)) by lia.
Qed.

(** One message is pending, the timer counts down to its deadline or beyond, and
    nothing holds the mutex. *)
Definition counting (s : tstate) (n : genie_transport_node_t) : Prop :=
  send_list s = [n] /\ transport_mutex s = 0 /\ timer_run s = true /\ timeout n <= uptime (tenv s) + retransmit_timer s.

Lemma expire_retry s n : counting s n → wf_node n → 0 < left_retry n →
  vnd_model (tenv s) (p_elem (msg n)) = true → fits_mtu (msg n) →
  let s' := expire s in
  exists t', counting s' (mkNode (left_retry n - 1) t' (msg n))
  /\ uptime (tenv s') = uptime (tenv s) + retransmit_timer s /\ retransmit_timer s' = retry_period (msg n)
  /\ out (tenv s') = out (tenv s) ++ [tx_of (msg n) (tenv s)]
  /\ vnd_model (tenv s') = vnd_model (tenv s) /\ appkey_id (tenv s') = appkey_id (tenv s).
Proof.
  intros (E & M & R & D) (HL & HP & _) HR HV F. unfold expire, run_timer_cb. rewrite R. cbn [timer_due timer_expires with_timer transport_mutex with_env].
  rewrite M. cbn [andb Z.eqb from_option id]. unfold retransmit_timer_cb. cbn [lock send_list with_timer timer_expires with_env tenv]. rewrite E.
  cbn [retransmit_walk advance uptime]. rewrite (proj2 (Z.leb_le _ _)) by lia. destruct (Z.eqb_spec (left_retry n) 0); [lia|].
  rewrite model_send_fits by done. unfold VENDOR_MODEL_MSG_MAX_RETRY_TIMES in HL. rewrite u8_small by lia.
  cbv beta iota zeta. set (s1 := unlock _). cbn [send_list s1 unlock with_env with_send_list]. fold s1.
  destruct (k_timer_start_fields (retry_period (msg n)) s1) as (E1 & E2 & E3 & E4 & E5).
  exists (uptime (tenv s) + retransmit_timer s + retry_period (msg n)). unfold counting. rewrite E1, E2, E3, E4, E5. cbn.
  rewrite M. repeat split; done || lia.
Qed.

Lemma expire_last s n : counting s n → left_retry n = 0 →
  let s' := expire s in
  send_list s' = [] /\ retransmit_timer s' = 0 /\ timer_run s' = false
  /\ uptime (tenv s') = uptime (tenv s) + retransmit_timer s
  /\ out (tenv s') = out (tenv s) ++ match result_cb (msg n) with
                                     | Some cb => [ResultCb cb (tid (msg n)) SEND_RESULT_TIMEOUT]
                                     | None => [] end.
Proof.
  intros (E & M & R & D) HR. unfold expire, run_timer_cb. rewrite R. cbn [timer_due timer_expires with_timer transport_mutex with_env].
  rewrite M. cbn [andb Z.eqb from_option id]. unfold retransmit_timer_cb. cbn [lock send_list with_timer timer_expires with_env tenv]. rewrite E.
  cbn [retransmit_walk advance uptime]. rewrite (proj2 (Z.leb_le _ _)) by lia. rewrite HR. cbn [Z.eqb send_list unlock with_env with_send_list].
  unfold k_timer_stop, truthy, call_result_cb. cbn. destruct (retransmit_timer s =? 0) eqn:E0; cbn;
    destruct (result_cb (msg n)); cbn; rewrite ?app_nil_r; repeat split; try done; by apply Z.eqb_eq.
Qed.

(** [C32] A single pending message that stays unconfirmed, its PDU within the 96 byte
    publication buffer and the mutex free, is retransmitted exactly as often as its
    retry count says, identically each time and one retry period apart, by a timer
    that every callback has to start again; one more period later it is dropped, its
    callback gets one timeout, and the timer is stopped. *)
Theorem retransmission_count s n : counting s n → wf_node n →
  vnd_model (tenv s) (p_elem (msg n)) = true → fits_mtu (msg n) →
  let s' := expire_n (S (Z.to_nat (left_retry n))) s in
  send_list s' = [] /\ retransmit_timer s' = 0 /\ timer_run s' = false
  /\ uptime (tenv s') = uptime (tenv s) + retransmit_timer s + left_retry n * retry_period (msg n)
  /\ out (tenv s') = out (tenv s) ++ repeat (tx_of (msg n) (tenv s)) (Z.to_nat (left_retry n))
       ++ match result_cb (msg n) with
          | Some cb => [ResultCb cb (tid (msg n)) SEND_RESULT_TIMEOUT] | None => [] end.
Proof.
  remember (Z.to_nat (left_retry n)) as k eqn:Ek. revert s n Ek. induction k as [|k IH]; intros s n Ek C W HV F.
  - assert (left_retry n = 0) as E0 by (destruct W; lia). rewrite E0, Z.mul_0_l, Z.add_0_r. by apply expire_last.
  - destruct (expire_retry s n C W) as (t' & C1 & E1 & E2 & E3 & E4 & E5); [lia|done|done|].
    change (expire_n (S (S k)) s) with (expire_n (S k) (expire s)).
    destruct (IH (expire s) (mkNode (left_retry n - 1) t' (msg n))) as (H1 & H2 & H3 & H4 & H5); [cbn; lia|done| |by rewrite E4|done|].
    + destruct W as (W1 & W2 & W3). repeat split; cbn; lia.
    + cbn [msg left_retry] in H4, H5. repeat split; try done.
      * rewrite H4, E1, E2. lia.
      * rewrite H5, E3. assert (tx_of (msg n) (tenv (expire s)) = tx_of (msg n) (tenv s)) as -> by (unfold tx_of; by rewrite E5).
        by rewrite <- !app_assoc.
Qed.

Lemma retransmission_count_witness :
  let s := snd (genie_transport_send_model param0 (transport_boot env0)) in
  send_list (expire_n 3 s) = [] /\ length (out (tenv (expire_n 3 s))) = 4%nat /\ uptime (tenv (expire_n 3 s)) = 2800.
Proof.
  destruct (retransmission_count (snd (genie_transport_send_model param0 (transport_boot env0)))
              (mkNode 2 1600 param0)) as (H1 & _ & _ & H4 & H5);
    [repeat split; (discriminate || reflexivity)|repeat split; (discriminate || reflexivity)|reflexivity|discriminate|].
  change (expire_n 3) with (expire_n (S (Z.to_nat (left_retry (mkNode 2 1600 param0))))).
  split; [exact H1|]. rewrite H4, H5. split; reflexivity.
Defined.

(** ** The mutex that is not released *)

Lemma send_keeps_mutex m e s : transport_mutex (snd (let '(r, e') := genie_transport_model_send m e in (r, with_env e' s))) = transport_mutex s.
Proof. by destruct (genie_transport_model_send _ _). Qed.

Lemma remove_by_tid_mutex t s : transport_mutex s <= transport_mutex (snd (transport_remove_by_tid t s)).
Proof.
  unfold transport_remove_by_tid. destruct (send_list s) eqn:E; [done|].
  destruct (remove_first_tid _ _) as [[x l0]|]; simpl; lia.
Qed.

Lemma append_mutex m s : transport_mutex s <= transport_mutex (snd (genie_transport_append_mesg m s)).
Proof.
  unfold genie_transport_append_mesg. destruct (Nat.leb _ _); [done|].
  destruct (genie_transport_msg_node_generate _ _) as [[n|] m']; [|cbn; lia]. cbv zeta. set (s1 := unlock _).
  destruct (negb _); [|cbn; lia]. cbn [snd]. destruct (k_timer_start_fields (retry_period m') s1) as (_ & _ & _ & _ & ->). cbn. lia.
Qed.

Lemma send_model_mutex_grows m s : transport_mutex s <= transport_mutex (snd (genie_transport_send_model m s)).
Proof.
  unfold genie_transport_send_model. destruct (data m); [|done]. destruct (_ || _); [done|]. destruct (negb _); [done|].
  assert (exists m1 s1, (if tid m =? 0 then let '(t, s0) := genie_transport_gen_tid s in (with_tid t m, s0) else (m, s)) = (m1, s1)
    /\ transport_mutex s1 = transport_mutex s) as (m1 & s1 & -> & E1) by (destruct (tid m =? 0); eauto).
  destruct (tid_out_of_range m1); [cbn; lia|]. cbv zeta. set (s2 := match _ with Some _ => _ | None => _ end).
  assert (transport_mutex s1 <= transport_mutex s2) by (unfold s2; destruct (genie_transport_find_by_tid _ _); [apply remove_by_tid_mutex|lia]).
  destruct (wants_retransmit m1); [|rewrite send_keeps_mutex; lia].
  pose proof (append_mutex m1 s2). destruct (genie_transport_append_mesg m1 s2) as [[r m3] s3]. rewrite send_keeps_mutex. cbn in *. lia.
Qed.

Lemma tstep_mutex s s' : tstep s s' → 0 < transport_mutex s → transport_mutex s <= transport_mutex s'.
Proof.
  destruct 1; intros M; try (cbn; lia).
  - apply send_model_mutex_grows.
  - unfold genie_transport_ack. destruct (send_list s); [done|]. destruct (remove_first_tid _ _) as [[]|]; cbn; lia.
  - unfold run_timer_cb in *. destruct (Z.eqb_spec (transport_mutex s) 0); [lia|]. by rewrite andb_false_r in *.
  - unfold genie_transport_check_tid. destruct (tid_scan _ _ _ _ _ _ _); cbn; lia.
Qed.

(** A mutex that an operation left held stays held, whatever follows, and the timer
    task blocks on it for good: no due callback runs any more and what is pending is
    never retransmitted. *)
Theorem leaked_mutex_blocks_timer s s' : rtc tstep s s' → 0 < transport_mutex s →
  0 < transport_mutex s' /\ run_timer_cb s' = None.
Proof.
  intros H M. assert (0 < transport_mutex s') as M'.
  { induction H as [|s1 s2 s3 Hs _ IH]; [done|]. apply IH. pose proof (tstep_mutex _ _ Hs M). lia. }
  split; [done|]. unfold run_timer_cb. destruct (Z.eqb_spec (transport_mutex s') 0); [lia|]. by rewrite andb_false_r.
Qed.

Lemma leaked_mutex_blocks_timer_witness :
  let s := snd (genie_transport_send_model param0 (snd (genie_transport_send_model param0 (transport_boot env0)))) in
  send_list (timer_expires s) ≠ [] /\ run_timer_cb (timer_expires s) = None.
Proof.
  intros s. split; [discriminate|]. apply (leaked_mutex_blocks_timer s); [|reflexivity].
  apply rtc_once, step_expires. reflexivity.
Defined.

(** ** Sending *)

(** The mutex is not always released: sending a message whose TID is still
    pending returns with [transport_mutex] nested one deeper (the found branch of
    [transport_remove_by_tid] returns without unlocking), and so does a failed
    allocation in [genie_transport_append_mesg]; otherwise the depth is unchanged. *)
Theorem send_model_mutex m s : twf s → wf_param m → data m ≠ None → len m ≠ 0 → tid m ≠ 0 →
  provisioned (tenv s) = true → sendable_opid (opid m) = true → tid_out_of_range m = false →
  transport_mutex (snd (genie_transport_send_model m s))
  = transport_mutex s
    + (if existsb (Z.eqb (tid m)) (tids (send_list s)) then 1 else 0)
    + (if wants_retransmit m && negb (malloc_ok (tenv s))
          && Nat.ltb (length (List.filter (other_tid (tid m)) (send_list s))) CONFIG_VENDOR_SEND_MSG_MAX
       then 1 else 0).
Proof.
  intros (_ & ND & _) W D L T P O R. rewrite send_model_unfold by done. unfold assign_tid.
  destruct (Z.eqb_spec (tid m) 0); [done|]. rewrite R. cbv zeta.
  destruct (drop_pending_spec (tid m) s ND) as (D1 & _ & D3 & _ & D4).
  destruct (wants_retransmit m); [|rewrite send_keeps_mutex, D4; simpl; lia].
  unfold genie_transport_append_mesg. rewrite D1.
  destruct (Nat.leb_spec CONFIG_VENDOR_SEND_MSG_MAX (length (List.filter (other_tid (tid m)) (send_list s))));
    destruct (Nat.ltb_spec (length (List.filter (other_tid (tid m)) (send_list s))) CONFIG_VENDOR_SEND_MSG_MAX); try lia.
  - rewrite send_keeps_mutex, D4, andb_false_r. lia.
  - unfold genie_transport_msg_node_generate. cbn [tenv lock]. rewrite D3.
    destruct (malloc_ok (tenv s)); simpl negb; cbv iota zeta; rewrite send_keeps_mutex.
    + set (s1 := unlock _). set (m1 := if _ >? _ then _ else _).
      destruct (k_timer_start_fields (retry_period m1) s1) as (_ & _ & _ & _ & K).
      destruct (negb _); rewrite ?K; simpl; rewrite D4; lia.
    + simpl. rewrite D4. lia.
Qed.

Lemma send_model_mutex_witness :
  let s := snd (genie_transport_send_model param0 (transport_boot env0)) in
  transport_mutex s = 0 /\ transport_mutex (snd (genie_transport_send_model param0 s)) = 1.
Proof.
  split; [reflexivity|].
  rewrite (send_model_mutex param0 (snd (genie_transport_send_model param0 (transport_boot env0))));
    try reflexivity; try discriminate; [|repeat split; simpl; lia].
  apply send_model_twf; [repeat split; simpl; lia|]. apply transport_boot_twf. simpl; lia.
Defined.

Lemma model_msg_init_vendor o : sendable_opid o = true →
  bt_mesh_model_msg_init (BT_MESH_MODEL_OP_3 o CONFIG_MESH_VENDOR_COMPANY_ID) = [o; 168; 1].
Proof.
  unfold sendable_opid. intros H.
  repeat (apply orb_true_iff in H as [H|H]); apply Z.eqb_eq in H; subst o; reflexivity.
Qed.

(** Sending an acknowledged vendor message: its access PDU is the three byte
    opcode (opcode byte, company id little endian), the TID and the payload (at most
    92 bytes, what the publication buffer has room for), sent to the given address (0xF000 when unassigned); an older pending message with
    the same TID is dropped, and if there is room the message is queued last with
    its retry count clamped to 45 and the deadline one period from now. *)
Theorem send_model_acked m d s : twf s → wf_param m →
  data m = Some d → Z.of_nat (length d) = len m → 0 < len m <= 92 → tid m ≠ 0 →
  provisioned (tenv s) = true → malloc_ok (tenv s) = true → vnd_model (tenv s) (p_elem m) = true →
  sendable_opid (opid m) = true → tid_out_of_range m = false → wants_retransmit m = true →
  let s' := snd (genie_transport_send_model m s) in
  let kept := List.filter (other_tid (tid m)) (send_list s) in
  let m' := with_retry (Z.min (retry m) 45) m in
  send_list s' = (if Nat.ltb (length kept) CONFIG_VENDOR_SEND_MSG_MAX
                  then kept ++ [mkNode (Z.min (retry m) 45) (uptime (tenv s) + retry_period m) m'] else kept)
  /\ out (tenv s') = out (tenv s) ++
       [TxAccess (mkCtx 0 (appkey_id (tenv s)) (if dst_addr m =? 0 then 61440 else dst_addr m) 3 0)
                 (opid m :: 168 :: 1 :: tid m :: d)]
  /\ fst (genie_transport_send_model m s) = s16 (send_rc (tenv s) (length (out (tenv s)))).
Proof.
  intros (_ & ND & _) W D DL L T P MA V O R WR. rewrite send_model_unfold by (congruence || lia). unfold assign_tid.
  destruct (Z.eqb_spec (tid m) 0); [done|]. rewrite R, WR. cbv zeta.
  destruct (drop_pending_spec (tid m) s ND) as (D1 & _ & D3 & _).
  assert (read_mem (data m) (len m) = d) as RM.
  { unfold read_mem. rewrite D. simpl. rewrite take_ge; [done|lia]. }
  set (mc := if retry m >? VENDOR_MODEL_MSG_MAX_RETRY_TIMES then with_retry VENDOR_MODEL_MSG_MAX_RETRY_TIMES m else m).
  assert (mc = with_retry (Z.min (retry m) 45) m) as EM.
  { unfold mc, VENDOR_MODEL_MSG_MAX_RETRY_TIMES. rewrite Z.gtb_ltb. destruct (Z.ltb_spec 45 (retry m)).
    - by rewrite Z.min_r by lia. - rewrite Z.min_l by lia. by destruct m. }
  assert (model_send_bytes m = opid m :: 168 :: 1 :: tid m :: d) as B.
  { unfold model_send_bytes. rewrite model_msg_init_vendor by done.
    destruct (Z.eqb_spec (len m) 0); [lia|]. by rewrite RM. }
  assert (tx_of m (tenv s) = TxAccess (mkCtx 0 (appkey_id (tenv s)) (if dst_addr m =? 0 then 61440 else dst_addr m) 3 0)
                 (opid m :: 168 :: 1 :: tid m :: d)) as TX by (unfold tx_of; by rewrite B).
  assert (forall m', model_send_bytes m' = model_send_bytes m → p_elem m' = p_elem m → dst_addr m' = dst_addr m →
    forall e, e = tenv s → genie_transport_model_send m' e
      = (s16 (send_rc (tenv s) (length (out (tenv s)))), emit (tx_of m (tenv s)) (tenv s))) as SEND.
  { intros m' B1 B2 B3 e ->. rewrite model_send_fits; [unfold tx_of; by rewrite B1, B3| |by rewrite B2].
    unfold fits_mtu, GENIE_MODEL_MTU. rewrite B1, B. cbn [length]. lia. }
  unfold genie_transport_append_mesg. rewrite D1.
  destruct (Nat.leb_spec CONFIG_VENDOR_SEND_MSG_MAX (length (List.filter (other_tid (tid m)) (send_list s))));
    destruct (Nat.ltb_spec (length (List.filter (other_tid (tid m)) (send_list s))) CONFIG_VENDOR_SEND_MSG_MAX); try lia.
  - rewrite (SEND m) by done. simpl. by rewrite D1, TX.
  - unfold genie_transport_msg_node_generate. cbn [tenv lock send_list]. rewrite D1, D3, MA. simpl negb. cbv iota.
    fold mc. rewrite EM. rewrite (SEND (with_retry _ m)); [|done|done|done|].
    + simpl. rewrite TX. simpl. rewrite RM. unfold with_data, with_retry; simpl. rewrite D.
      destruct (negb _); [|done]. by rewrite (proj1 (k_timer_start_fields _ _)).
    + simpl. destruct (negb _); [|done]. by rewrite (proj1 (proj2 (k_timer_start_fields _ _))).
Qed.

Lemma send_model_acked_witness :
  out (tenv (snd (genie_transport_send_model param0 (transport_boot env0))))
  = [TxAccess (mkCtx 0 0 61440 3 0) [212; 168; 1; 130; 9; 240; 3]].
Proof.
  assert (twf (transport_boot env0)) as T by (apply transport_boot_twf; simpl; lia).
  assert (wf_param param0) as W by (repeat split; simpl; lia).
  exact (proj1 (proj2 (send_model_acked param0 [9; 240; 3] (transport_boot env0) T W eq_refl eq_refl
    ltac:(cbn; lia) ltac:(discriminate) eq_refl eq_refl eq_refl eq_refl eq_refl eq_refl))).
Defined.

(** A rejected send changes nothing: no payload, an empty one, a node that
    is not provisioned or an opcode outside the six sendable ones gives -1, sends
    nothing and leaves the list, the timer, the mutex and the TID counter alone. *)
Theorem send_model_reject m s :
  data m = None \/ len m = 0 \/ provisioned (tenv s) = false \/ sendable_opid (opid m) = false →
  genie_transport_send_model m s = (-1, s).
Proof. apply send_model_rejected. Qed.

Lemma send_model_reject_witness :
  genie_transport_send_model (with_data None param0) (transport_boot env0) = (-1, transport_boot env0).
Proof. apply (send_model_reject (with_data None param0)). left. reflexivity. Defined.

(** The PDU written into the publication buffer is four bytes longer than
    the payload, and nothing bounds it: a payload over 92 bytes exceeds the 96
    bytes (GENIE_MODEL_MTU) the buffer holds. *)
Theorem model_send_size m d : data m = Some d → Z.of_nat (length d) = len m → len m ≠ 0 →
  sendable_opid (opid m) = true →
  Z.of_nat (length (model_send_bytes m)) = 4 + len m
  /\ (GENIE_MODEL_MTU < Z.of_nat (length (model_send_bytes m)) ↔ 92 < len m).
Proof.
  intros D DL L O. unfold model_send_bytes, GENIE_MODEL_MTU. rewrite model_msg_init_vendor by done.
  destruct (Z.eqb_spec (len m) 0); [done|]. unfold read_mem. rewrite D. simpl default.
  rewrite take_ge by lia. rewrite !length_app. simpl length. split; lia.
Qed.

Lemma model_send_size_witness :
  let m := mkParam (Some 0) None None 0 VENDOR_OP_ATTR_STATUS 1 0 600 100 (Some (replicate 100 0)) in
  GENIE_MODEL_MTU < Z.of_nat (length (model_send_bytes m)).
Proof.
  apply (model_send_size (mkParam (Some 0) None None 0 VENDOR_OP_ATTR_STATUS 1 0 600 100 (Some (replicate 100 0)))
           (replicate 100 0)); [reflexivity|reflexivity|discriminate|reflexivity|reflexivity].
Defined.

(** ** The TID generator *)

Fixpoint gen_tid_after (k : nat) (s : tstate) : tstate :=
  match k with O => s | S k => snd (genie_transport_gen_tid (gen_tid_after k s)) end.

(** The TID the (k+1)-th call after boot returns. *)
Definition nth_tid (k : nat) (e : env) : Z := fst (genie_transport_gen_tid (gen_tid_after k (transport_boot e))).

Lemma gen_tid_after_boot k e :
  tenv (gen_tid_after (S k) (transport_boot e)) = e
  /\ gen_tid (gen_tid_after (S k) (transport_boot e)) = (rand e + Z.of_nat k) mod 64.
Proof.
  induction k as [|k [IH1 IH2]].
  - cbn [gen_tid_after]. rewrite gen_tid_spec. simpl. split; [done|]. f_equal. lia.
  - change (gen_tid_after (S (S k)) (transport_boot e))
      with (snd (genie_transport_gen_tid (gen_tid_after (S k) (transport_boot e)))).
    rewrite gen_tid_spec. cbn [snd with_gen_tid tenv gen_tid]. rewrite IH2. split; [done|].
    unfold GENIE_TRANSPORT_TID_MAX. destruct (Z.eqb_spec ((rand e + Z.of_nat k) mod 64) 191); dlia.
Qed.

(** Generated TIDs run through 0x80..0xBF cyclically from a random start:
    the k-th is 0x80 + (rand + k) mod 64, so any 64 consecutive ones differ. *)
Theorem gen_tid_cycle e k :
  nth_tid k e = 128 + (rand e + Z.of_nat k) mod 64
  /\ GENIE_TRANSPORT_TID_MIN <= nth_tid k e <= GENIE_TRANSPORT_TID_MAX
  /\ (forall j, (0 < j < 64)%nat → nth_tid (k + j) e ≠ nth_tid k e).
Proof.
  assert (forall i, nth_tid i e = 128 + (rand e + Z.of_nat i) mod 64) as H.
  { intros [|i]; unfold nth_tid.
    - cbn [gen_tid_after]. rewrite gen_tid_spec. simpl. do 2 f_equal. lia.
    - destruct (gen_tid_after_boot i e) as [E1 E2]. rewrite gen_tid_spec, E1, E2. cbn [fst].
      unfold GENIE_TRANSPORT_TID_MAX. destruct (Z.eqb_spec ((rand e + Z.of_nat i) mod 64) 191); dlia. }
  split; [done|]. split.
  - rewrite H. unfold GENIE_TRANSPORT_TID_MIN, GENIE_TRANSPORT_TID_MAX. dlia.
  - intros j Hj. rewrite !H, Nat2Z.inj_add. dlia.
Qed.

(** The retransmission period of a payload: one PDU up to 11 bytes, else
    (len + 4) / 12 rounded up, 600 ms for each; neither the 8-bit count nor the
    16-bit period wraps up to 1304 bytes, and one more byte wraps the period. *)
Theorem send_timeout_bounds n : 0 <= n <= 1304 →
  let segs := if n <=? 11 then 1 else (n + 15) / 12 in
  genie_transport_get_seg_count n = segs /\ transport_get_send_timeout n = 600 * segs
  /\ transport_get_send_timeout 1305 = 464.
Proof.
  intros H segs. assert (genie_transport_get_seg_count n = segs) as E.
  { unfold segs, genie_transport_get_seg_count, truthy, GENIE_TRANSPORT_EACH_PDU_SIZE.
    destruct (Z.leb_spec n 11); [done|]. rewrite u16_small by lia.
    destruct (Z.eqb_spec ((n - 8) mod 12) 0); simpl negb; cbv iota; rewrite u8_small by dlia; dlia. }
  split; [done|]. split; [|reflexivity]. unfold transport_get_send_timeout, GENIE_TRANSPORT_EACH_PDU_TIMEOUT.
  rewrite E. apply u16_small. unfold segs. destruct (Z.leb_spec n 11); dlia.
Qed.

Lemma send_timeout_bounds_witness : transport_get_send_timeout 20 = 1200.
Proof. apply (send_timeout_bounds 20). lia. Defined.
