(* ===== verification/Calendar.v ===== *)
(** * Calendar: the date arithmetic of genie_time.c *)
From Stdlib Require Import ZArith Lia List Bool.
From stdpp Require Import base list numbers option.
From S2P Require Import Prelude.
Local Open Scope Z_scope.

(** genie_time.h: [MINU], [HOUR], [DAY]. *)
Definition MINU : Z := 60.
Definition HOUR : Z := 60 * MINU.
Definition DAY : Z := 24 * HOUR.

(** [utc_time_t]: month is zero based, day one based, weekday 0 is Sunday. *)
Record utc_time_t := mkUtc {
  year : Z; month : Z; day : Z; seconds : Z; minutes : Z; hour : Z; weekday : Z }.

Definition utc_zero : utc_time_t := mkUtc 0 0 0 0 0 0 0.

Definition is_leap_year (y : Z) : bool :=
  if (y mod 4 =? 0) && negb (y mod 100 =? 0) then true
  else if y mod 400 =? 0 then true
  else false.

Definition g_noleap_daysbeforemonth : list Z :=
  [0; 31; 59; 90; 120; 151; 181; 212; 243; 273; 304; 334; 365].

(** Array read; the code never indexes the 13 entries out of range. *)
Definition daysbeforemonth (m : Z) : Z := nth (Z.to_nat m) g_noleap_daysbeforemonth 0.

(** The table read followed by [if (m >= 2 && leap) tmp++]. *)
Definition daysbefore (leap : bool) (m : Z) : Z :=
  if (2 <=? m) && leap then daysbeforemonth m + 1 else daysbeforemonth m.

Definition UTC2unix (utc : utc_time_t) : Z :=
  let days := u32 ((year utc - 1970) * 365) in
  let days := u32 (days + Z.shiftr (year utc - 1969) 2) in
  let days := u32 (days + daysbeforemonth (month utc)) in
  let days := if (2 <=? month utc) && is_leap_year (year utc) then u32 (days + 1) else days in
  let days := u32 (days + (day utc - 1)) in
  u32 (((days * 24 + hour utc) * 60 + minutes utc) * 60 + seconds utc).

(** The [for (;;)] over the remaining years of [unix2UTC]. *)
Fixpoint year_loop (fuel : nat) (y jdn : Z) : option (Z * Z * bool) :=
  match fuel with
  | O => None
  | S fuel =>
      let leapyear := is_leap_year (u16 (y + 1970)) in
      let tmp := if leapyear then 366 else 365 in
      if jdn >=? tmp then year_loop fuel (y + 1) (u32 (jdn - tmp))
      else Some (y, jdn, leapyear)
  end.

(** The do/while binary search for the month of [unix2UTC]. *)
Fixpoint month_loop (fuel : nat) (leapyear : bool) (jdn mn mx : Z) : option Z :=
  match fuel with
  | O => None
  | S fuel =>
      let value := Z.shiftr (mn + mx) 1 in
      if daysbefore leapyear (value + 1) >? jdn then
        if daysbefore leapyear value >? jdn then
          let mx := value - 1 in
          if mn <? mx then month_loop fuel leapyear jdn mn mx else Some mn
        else Some value
      else
        let mn := value + 1 in
        if mn <? mx then month_loop fuel leapyear jdn mn mx else Some mn
  end.

(** [unix2UTC] with the fuel of its two loops made explicit. *)
Definition unix2UTC_fuel (unix_time : Z) : option utc_time_t :=
  let epoch := unix_time in
  let jdn := epoch / DAY in
  let epoch := u32 (epoch - DAY * jdn) in
  let wday := u32 (jdn + 4) mod 7 in
  let h := epoch / HOUR in
  let epoch := u32 (epoch - HOUR * h) in
  let mi := epoch / MINU in
  let epoch := u32 (epoch - MINU * mi) in
  let sec := epoch in
  let y := jdn / (4 * 365 + 1) in
  let jdn := u32 (jdn - y * (4 * 365 + 1)) in
  let y := Z.shiftl y 2 in
  match year_loop 5 y jdn with
  | None => None
  | Some (y, jdn, leapyear) =>
      let y := y + 1970 in
      match month_loop 5 leapyear jdn 0 11 with
      | None => None
      | Some value =>
          let jdn := u32 (jdn - daysbefore leapyear value) in
          Some (mkUtc (u16 y) (u8 value) (u8 (jdn + 1)) (u8 sec) (u8 mi) (u8 h) (u8 wday))
      end
  end.

Definition unix2UTC (unix_time : Z) : utc_time_t := default utc_zero (unix2UTC_fuel unix_time).

Definition month_update (t : utc_time_t) : utc_time_t :=
  let m := u8 (month t + 1) in
  if m >=? 12
  then mkUtc (u16 (year t + 1)) 0 (day t) (seconds t) (minutes t) (hour t) (weekday t)
  else mkUtc (year t) m (day t) (seconds t) (minutes t) (hour t) (weekday t).

Definition month_days_list (leap : bool) : list Z :=
  [31; if leap then 29 else 28; 31; 30; 31; 30; 31; 31; 30; 31; 30; 31].

Definition days_update (t : utc_time_t) : utc_time_t :=
  let d := u8 (day t + 1) in
  let month_day := nth (Z.to_nat (month t)) (month_days_list (is_leap_year (year t))) 0 in
  let t := mkUtc (year t) (month t) d (seconds t) (minutes t) (hour t) (weekday t) in
  let t := if d >? month_day
           then month_update (mkUtc (year t) (month t) 0 (seconds t) (minutes t) (hour t) (weekday t))
           else t in
  mkUtc (year t) (month t) (day t) (seconds t) (minutes t) (hour t) (u8 ((weekday t + 1) mod 7)).

Definition hours_update (t : utc_time_t) : utc_time_t :=
  let h := u8 (hour t + 1) in
  if h =? 24
  then days_update (mkUtc (year t) (month t) (day t) (seconds t) (minutes t) 0 (weekday t))
  else mkUtc (year t) (month t) (day t) (seconds t) (minutes t) h (weekday t).

Definition minutes_update (t : utc_time_t) : utc_time_t :=
  let m := u8 (minutes t + 1) in
  if m =? 60
  then hours_update (mkUtc (year t) (month t) (day t) (seconds t) 0 (hour t) (weekday t))
  else mkUtc (year t) (month t) (day t) (seconds t) m (hour t) (weekday t).

Definition seconds_update (t : utc_time_t) : utc_time_t :=
  let s := u8 (seconds t + 1) in
  if s =? 60
  then minutes_update (mkUtc (year t) (month t) (day t) 0 (minutes t) (hour t) (weekday t))
  else mkUtc (year t) (month t) (day t) s (minutes t) (hour t) (weekday t).

(** The [while (day_diff < 7)] of [next_weekday_diff_get]. *)
Fixpoint weekday_scan (n : nat) (schedule_tmp day_diff : Z) : Z :=
  match n with
  | O => day_diff
  | S n => if Z.testbit schedule_tmp day_diff then day_diff else weekday_scan n schedule_tmp (day_diff + 1)
  end.

Definition next_weekday_diff_get (weekday_now schedule : Z) : Z :=
  let weekday_now := if weekday_now =? 0 then 7 else weekday_now in
  let schedule_tmp :=
    u16 (Z.land (Z.shiftr (Z.lor schedule (Z.shiftl schedule 7)) (weekday_now - 1)) 127) in
  weekday_scan 7 schedule_tmp 0.

Definition is_weekday_match (weekday_now schedule : Z) : bool :=
  let weekday_mask := if weekday_now =? 0 then u8 (Z.shiftl 1 6) else u8 (Z.shiftl 1 (weekday_now - 1)) in
  weekday_mask =? Z.land schedule weekday_mask.

Definition next_weekday (weekday_now : Z) : Z := u8 ((weekday_now + 1) mod 7).

(** ** Reference calendar

    The Gregorian calendar counted out year by year and month by month, with
    none of the closed forms and searches of the code. *)

Definition year_len (y : Z) : Z := if is_leap_year y then 366 else 365.
Definition month_len (leap : bool) (m : nat) : Z := nth m (month_days_list leap) 0.

(** Days of the first [n] years after 1970-01-01. *)
Fixpoint days_of_years (n : nat) : Z :=
  match n with O => 0 | S n => days_of_years n + year_len (1970 + Z.of_nat n) end.

(** Days of the first [m] months of a year. *)
Fixpoint days_of_months (leap : bool) (m : nat) : Z :=
  match m with O => 0 | S m => days_of_months leap m + month_len leap m end.

Definition civil_day (t : utc_time_t) : Z :=
  days_of_years (Z.to_nat (year t - 1970))
  + days_of_months (is_leap_year (year t)) (Z.to_nat (month t)) + (day t - 1).

Definition civil_seconds (t : utc_time_t) : Z :=
  ((civil_day t * 24 + hour t) * 60 + minutes t) * 60 + seconds t.

Definition valid_utc (t : utc_time_t) : Prop :=
  1970 <= year t < 65536 /\ 0 <= month t <= 11
  /\ 1 <= day t <= month_len (is_leap_year (year t)) (Z.to_nat (month t))
  /\ 0 <= hour t < 24 /\ 0 <= minutes t < 60 /\ 0 <= seconds t < 60.

(** The weekday field is the one of the date: day 0 was a Thursday. *)
Definition weekday_ok (t : utc_time_t) : Prop := weekday t = (civil_day t + 4) mod 7.

(** *** Lemmas on the reference calendar *)

Lemma month_cases m : 0 <= m <= 11 →
  m = 0 \/ m = 1 \/ m = 2 \/ m = 3 \/ m = 4 \/ m = 5
  \/ m = 6 \/ m = 7 \/ m = 8 \/ m = 9 \/ m = 10 \/ m = 11.
Proof. lia. Qed.

Ltac month_case H := destruct (month_cases _ H) as [->|[->|[->|[->|[->|[->|[->|[->|[->|[->|[->| ->]]]]]]]]]]].

Lemma year_len_bounds y : 365 <= year_len y <= 366.
Proof. unfold year_len. destruct (is_leap_year y); lia. Qed.

Lemma month_len_bounds leap m : (m <= 11)%nat → 28 <= month_len leap m <= 31.
Proof. intros H. unfold month_len. do 12 (destruct m; [destruct leap; simpl; lia|]). lia. Qed.

(** The table of the code is the running sum of the month lengths. *)
Lemma daysbefore_months leap m : 0 <= m <= 12 →
  daysbefore leap m = days_of_months leap (Z.to_nat m).
Proof.
  intros H. assert (m = 12 \/ 0 <= m <= 11) as [->|H'] by lia; [by destruct leap|].
  month_case H'; by destruct leap.
Qed.

Lemma days_of_months_year leap : days_of_months leap 12 = if leap then 366 else 365.
Proof. by destruct leap. Qed.

Lemma days_of_months_mono leap m n : (m < n)%nat → (n <= 12)%nat →
  days_of_months leap m + month_len leap m <= days_of_months leap n.
Proof.
  intros Hmn. induction Hmn as [|n Hmn IH]; intros Hn; simpl; [lia|].
  pose proof (month_len_bounds leap n ltac:(lia)). lia.
Qed.

Lemma days_of_years_mono m n : (m < n)%nat →
  days_of_years m + year_len (1970 + Z.of_nat m) <= days_of_years n.
Proof.
  intros Hmn. induction Hmn as [|n Hmn IH]; simpl; [lia|].
  pose proof (year_len_bounds (1970 + Z.of_nat n)). lia.
Qed.

(** Within 1970..2099 the Gregorian rule is the Julian one. *)
Lemma is_leap_year_julian y : 1970 <= y < 2100 → is_leap_year y = (y mod 4 =? 0).
Proof.
  intros H. unfold is_leap_year.
  destruct (Z.eqb_spec (y mod 4) 0); simpl; [|destruct (Z.eqb_spec (y mod 400) 0); dlia].
  destruct (Z.eqb_spec (y mod 100) 0); simpl; [|done].
  destruct (Z.eqb_spec (y mod 400) 0); dlia.
Qed.

Lemma days_of_years_closed n : (n <= 130)%nat →
  days_of_years n = 365 * Z.of_nat n + (Z.of_nat n + 1) / 4.
Proof.
  induction n as [|n IH]; intros Hn; [done|]. simpl days_of_years. rewrite IH by lia.
  unfold year_len. rewrite is_leap_year_julian by lia.
  destruct (Z.eqb_spec ((1970 + Z.of_nat n) mod 4) 0); dlia.
Qed.

Lemma day_of_year_bound t : valid_utc t →
  0 <= days_of_months (is_leap_year (year t)) (Z.to_nat (month t)) + (day t - 1) < year_len (year t).
Proof.
  intros (Hy & Hm & Hd & _). set (leap := is_leap_year (year t)) in *.
  assert (0 <= days_of_months leap (Z.to_nat (month t))).
  { rewrite <- daysbefore_months by lia. month_case Hm; destruct leap; compute; congruence. }
  assert (year_len (year t) = days_of_months leap 12) as ->.
  { rewrite days_of_months_year. done. }
  pose proof (days_of_months_mono leap (Z.to_nat (month t)) 12). lia.
Qed.

(** A date is determined by its day number. *)
Lemma civil_day_inj t t' : valid_utc t → valid_utc t' → civil_day t = civil_day t' →
  year t = year t' /\ month t = month t' /\ day t = day t'.
Proof.
  intros V V' E. unfold civil_day in E.
  pose proof (day_of_year_bound t V) as B. pose proof (day_of_year_bound t' V') as B'.
  destruct V as (Hy & Hm & Hd & _), V' as (Hy' & Hm' & Hd' & _).
  assert (year t = year t') as EY.
  { destruct (Z.lt_total (year t) (year t')) as [L|[L|L]]; [|done|].
    - pose proof (days_of_years_mono (Z.to_nat (year t - 1970)) (Z.to_nat (year t' - 1970)) ltac:(lia)) as M.
      rewrite Z2Nat.id in M by lia. replace (1970 + (year t - 1970)) with (year t) in M by lia. lia.
    - pose proof (days_of_years_mono (Z.to_nat (year t' - 1970)) (Z.to_nat (year t - 1970)) ltac:(lia)) as M.
      rewrite Z2Nat.id in M by lia. replace (1970 + (year t' - 1970)) with (year t') in M by lia. lia. }
  split; [done|]. rewrite EY in *. set (leap := is_leap_year (year t')) in *.
  destruct (Z.lt_total (month t) (month t')) as [L|[L|L]].
  - pose proof (days_of_months_mono leap (Z.to_nat (month t)) (Z.to_nat (month t'))). lia.
  - rewrite L in *. lia.
  - pose proof (days_of_months_mono leap (Z.to_nat (month t')) (Z.to_nat (month t))). lia.
Qed.

(** A valid broken-down time is determined by its second count and weekday. *)
Lemma civil_seconds_inj t t' : valid_utc t → valid_utc t' → weekday_ok t → weekday_ok t' →
  civil_seconds t = civil_seconds t' → t = t'.
Proof.
  intros V V' W W' E. unfold civil_seconds in E.
  pose proof V as (_ & _ & _ & Hh & Hmi & Hs). pose proof V' as (_ & _ & _ & Hh' & Hmi' & Hs').
  assert (civil_day t = civil_day t' /\ hour t = hour t' /\ minutes t = minutes t'
          /\ seconds t = seconds t') as (ED & EH & EM & ES) by lia.
  destruct (civil_day_inj t t' V V' ED) as (? & ? & ?).
  unfold weekday_ok in W, W'. rewrite ED in W. destruct t, t'; simpl in *; congruence.
Qed.

(** *** The loops of unix2UTC *)

Lemma year_loop_spec fuel y j y' j' l : 0 <= y → y + Z.of_nat fuel < 60000 → is_u32 j →
  year_loop fuel y j = Some (y', j', l) →
  y <= y' < 60000 /\ l = is_leap_year (1970 + y') /\ 0 <= j' < year_len (1970 + y')
  /\ days_of_years (Z.to_nat y') + j' = days_of_years (Z.to_nat y) + j.
Proof.
  revert y j. induction fuel as [|fuel IH]; intros y j Hy Hf Hj E; [done|].
  simpl in E. rewrite u16_small in E by lia. rewrite (Z.add_comm y 1970) in E.
  fold (year_len (1970 + y)) in E. pose proof (year_len_bounds (1970 + y)).
  rewrite Z.geb_leb in E. destruct (Z.leb_spec (year_len (1970 + y)) j).
  - rewrite u32_small in E by lia. apply IH in E; [|lia..].
    destruct E as (H1 & H2 & H3 & H4). repeat split; try lia; [done|].
    replace (Z.to_nat (y + 1)) with (S (Z.to_nat y)) in H4 by lia. simpl in H4.
    rewrite Z2Nat.id in H4 by lia. lia.
  - injection E as <- <- <-. repeat split; lia.
Qed.

Lemma year_loop_fuel fuel y j : 0 <= j < 365 * Z.of_nat fuel → is_u32 j → is_Some (year_loop fuel y j).
Proof.
  revert y j. induction fuel as [|fuel IH]; intros y j Hj Hu; [lia|]. simpl.
  rewrite Z.geb_leb. destruct (Z.leb_spec (if is_leap_year (u16 (y + 1970)) then 366 else 365) j); [|by eexists].
  apply IH; destruct (is_leap_year _); rewrite u32_small by lia; lia.
Qed.

(** The binary search keeps the sought month in [mn, mx] and halves the range. *)
Lemma month_loop_invariant fuel (leap : bool) j mn mx :
  0 <= mn <= mx → mx <= 11 → mx - mn + 1 < 2 ^ Z.of_nat fuel →
  daysbefore leap mn <= j < daysbefore leap (mx + 1) →
  exists m, month_loop fuel leap j mn mx = Some m /\ 0 <= m <= 11
    /\ daysbefore leap m <= j < daysbefore leap (m + 1).
Proof.
  revert mn mx. induction fuel as [|fuel IH]; intros mn mx Hr Hx Hf Hj; [simpl in Hf; lia|].
  rewrite Nat2Z.inj_succ, Z.pow_succ_r in Hf by lia. cbn [month_loop]. cbv zeta.
  rewrite Z.shiftr_div_pow2 by lia. change (2 ^ 1) with 2.
  set (v := (mn + mx) / 2). assert (mn <= v <= mx) by (unfold v; dlia).
  assert (v - mn < 2 ^ Z.of_nat fuel /\ mx - v < 2 ^ Z.of_nat fuel) by (unfold v; dlia).
  clearbody v. rewrite !Z.gtb_ltb.
  destruct (Z.ltb_spec j (daysbefore leap (v + 1))).
  - destruct (Z.ltb_spec j (daysbefore leap v)); [|exists v; repeat split; lia].
    assert (mn <> v) by (intros E; rewrite E in *; lia).
    replace (daysbefore leap v) with (daysbefore leap (v - 1 + 1)) in * by (f_equal; lia).
    destruct (Z.ltb_spec mn (v - 1)); [apply IH; lia|].
    assert (mn = v - 1) as E by lia. subst mn. exists (v - 1). repeat split; lia.
  - assert (v + 1 <> mx + 1) by (intros E; rewrite E in *; lia).
    destruct (Z.ltb_spec (v + 1) mx); [apply IH; lia|].
    assert (mx = v + 1) as E by lia. subst mx. exists (v + 1). repeat split; lia.
Qed.

Lemma month_loop_spec (leap : bool) j : 0 <= j < (if leap then 366 else 365) →
  exists m, month_loop 5 leap j 0 11 = Some m /\ 0 <= m <= 11
    /\ daysbefore leap m <= j < daysbefore leap (m + 1).
Proof.
  intros H. apply month_loop_invariant; [lia|lia|simpl; lia|].
  assert (daysbefore leap 0 = 0) as -> by by destruct leap.
  assert (daysbefore leap (11 + 1) = if leap then 366 else 365) as -> by by destruct leap.
  done.
Qed.

(** *** Correctness of unix2UTC and UTC2unix *)

(** Both loops of [unix2UTC] stop within their fuel on every [uint32_t]. *)
Lemma unix2UTC_fuel_some t : is_u32 t → is_Some (unix2UTC_fuel t).
Proof.
  intros Ht. unfold unix2UTC_fuel. cbv zeta. change (4 * 365 + 1) with 1461.
  set (j := u32 (t / DAY - t / DAY / 1461 * 1461)).
  assert (0 <= j < 1461).
  { unfold j. unfold DAY, HOUR, MINU. rewrite u32_small; dlia. }
  destruct (year_loop_fuel 5 (Z.shiftl (t / DAY / 1461) 2) j) as [[[y' j'] l] E]; [lia..|].
  rewrite E. assert (0 <= t / DAY / 1461 <= 40) by (unfold DAY, HOUR, MINU; dlia).
  apply year_loop_spec in E; [|rewrite Z.shiftl_mul_pow2; lia..|lia].
  destruct E as (_ & -> & Hj' & _).
  destruct (month_loop_spec (is_leap_year (1970 + y')) j') as (m & -> & _); [done|]. by eexists.
Qed.

Definition UNIX2UTC_END : Z := 33 * 1461 * DAY.

Lemma unix2UTC_day t : 0 <= t < UNIX2UTC_END →
  valid_utc (unix2UTC t) /\ weekday_ok (unix2UTC t) /\ civil_seconds (unix2UTC t) = t.
Proof.
  unfold UNIX2UTC_END. intros Ht. unfold unix2UTC, unix2UTC_fuel. cbv zeta.
  change (4 * 365 + 1) with 1461.
  set (d := t / DAY). set (q := d / 1461).
  assert (0 <= d < 33 * 1461) by (unfold d, DAY, HOUR, MINU in *; dlia).
  assert (0 <= q <= 32) by (unfold q; dlia).
  assert (0 <= t - DAY * d < DAY) by (unfold d, DAY, HOUR, MINU; dlia).
  assert (0 <= d - q * 1461 < 1461) by (unfold q; dlia).
  clearbody q. clearbody d.
  rewrite (u32_small (d - q * 1461)) by lia.
  rewrite Z.shiftl_mul_pow2 by lia. change (2 ^ 2) with 4.
  destruct (year_loop_fuel 5 (q * 4) (d - q * 1461)) as [[[y j] l] E]; [lia..|].
  rewrite E. apply year_loop_spec in E; [|lia..].
  destruct E as (Hy & -> & Hj & HD). rewrite (days_of_years_closed (Z.to_nat (q * 4))) in HD by lia.
  rewrite Z2Nat.id in HD by lia. unfold year_len in Hj.
  destruct (month_loop_spec (is_leap_year (1970 + y)) j) as (m & -> & Hm & Hmj); [done|].
  rewrite !daysbefore_months in Hmj by lia. rewrite !daysbefore_months by lia.
  replace (Z.to_nat (m + 1)) with (S (Z.to_nat m)) in Hmj by lia. simpl in Hmj.
  set (leap := is_leap_year (1970 + y)) in *. set (dm := days_of_months leap (Z.to_nat m)) in *.
  pose proof (month_len_bounds leap (Z.to_nat m) ltac:(lia)). rewrite (Z.add_comm y 1970).
  remember (t - DAY * d) as s eqn:Hs. unfold DAY, HOUR, MINU in *.
  rewrite (u32_small s) by lia. rewrite (u32_small (s - 60 * 60 * (s / (60 * 60)))) by dlia.
  rewrite (u32_small (_ - _ * _)) by dlia. rewrite (u32_small (j - dm)) by lia.
  rewrite (u32_small (d + 4)) by lia. cbn [default].
  rewrite u16_small by lia. rewrite !u8_small by dlia.
  assert (days_of_years (Z.to_nat y) + dm + (j - dm + 1 - 1) = d) as HC by dlia.
  unfold valid_utc, weekday_ok, civil_seconds, civil_day; simpl.
  replace (1970 + y - 1970) with y by lia. fold leap dm. rewrite HC.
  repeat split; try lia; dlia.
Qed.

(** [UTC2unix] is linear in the day: it may lie beyond the end of the month. *)
Lemma UTC2unix_civil_gen u : 1970 <= year u <= 2100 → 0 <= month u <= 11 → 1 <= day u < 256 →
  0 <= hour u < 24 → 0 <= minutes u < 60 → 0 <= seconds u < 60 → UTC2unix u = civil_seconds u.
Proof.
  intros Hy Hm Hd Hh Hmi Hs. unfold UTC2unix, civil_seconds, civil_day.
  rewrite Z.shiftr_div_pow2 by lia. change (2 ^ 2) with 4.
  rewrite days_of_years_closed by lia. rewrite Z2Nat.id by lia.
  rewrite <- daysbefore_months in * by lia. unfold daysbefore in *.
  assert (0 <= daysbeforemonth (month u) <= 365) by (month_case Hm; compute; split; discriminate).
  replace (year u - 1970 + 1) with (year u - 1969) by lia.
  assert (0 <= (year u - 1969) / 4 <= 32) by dlia.
  set (q := (year u - 1969) / 4) in *. set (D := daysbeforemonth (month u)) in *.
  clearbody q D. cbv zeta. rewrite (u32_small (_ * 365)) by lia. rewrite (u32_small (_ + q)) by lia.
  rewrite (u32_small (_ + D)) by lia.
  destruct ((2 <=? month u) && is_leap_year (year u)); [rewrite (u32_small (_ + 1)) by lia|]; (rewrite (u32_small (_ + (day u - 1))) by lia); rewrite u32_small by lia; lia.
Qed.

Lemma UTC2unix_civil_seconds u : valid_utc u → year u <= 2100 → UTC2unix u = civil_seconds u.
Proof.
  intros (Hy' & Hm & Hd & Hh & Hmi & Hs) Hy.
  pose proof (month_len_bounds (is_leap_year (year u)) (Z.to_nat (month u)) ltac:(lia)).
  apply UTC2unix_civil_gen; lia.
Qed.

(** ** The one-second tick *)

(** The last second of a month. *)
Definition month_end (t : utc_time_t) : Prop :=
  seconds t = 59 /\ minutes t = 59 /\ hour t = 23
  /\ day t = month_len (is_leap_year (year t)) (Z.to_nat (month t)).

(** A tick inside a month advances the civil time by one second. *)
Lemma seconds_update_civil u : valid_utc u → weekday_ok u → year u < 65535 → ~ month_end u →
  valid_utc (seconds_update u) /\ weekday_ok (seconds_update u)
  /\ civil_seconds (seconds_update u) = civil_seconds u + 1.
Proof.
  intros (Hy & Hm & Hd & Hh & Hmi & Hs) W Y NE.
  unfold seconds_update, minutes_update, hours_update, days_update, month_end in *.
  pose proof (month_len_bounds (is_leap_year (year u)) (Z.to_nat (month u)) ltac:(lia)) as ML.
  unfold weekday_ok, civil_seconds, civil_day in *. cbn [year month day hour minutes seconds weekday].
  fold (month_len (is_leap_year (year u)) (Z.to_nat (month u))).
  rewrite !u8_small by (rewrite ?W; dlia). clear Y. rewrite Z.gtb_ltb.
  assert (forall d, (weekday u + 1) mod 7 = (d + 1) mod 7 \/ weekday u <> d mod 7) as WS by (intros; dlia).
  destruct (Z.eqb_spec (seconds u + 1) 60) as [E1|E1]; [destruct (Z.eqb_spec (minutes u + 1) 60) as [E2|E2];
    [destruct (Z.eqb_spec (hour u + 1) 24) as [E3|E3];
      [destruct (Z.ltb_spec (month_len (is_leap_year (year u)) (Z.to_nat (month u))) (day u + 1)); [lia|]|]|]|];
  unfold valid_utc; cbn [year month day hour minutes seconds weekday];
    (split; [repeat split; lia|split; [|lia]]); try done.
  destruct (WS (civil_day u + 4)) as [->|]; unfold civil_day in *; [f_equal; lia|done].
Qed.

(** At the end of a month the code sets the day to 0, not 1. *)
Lemma seconds_update_month_end u : valid_utc u → year u < 65535 → month_end u →
  seconds_update u =
  mkUtc (if month u =? 11 then year u + 1 else year u) (if month u =? 11 then 0 else month u + 1)
        0 0 0 0 (u8 ((weekday u + 1) mod 7)).
Proof.
  intros (Hy & Hm & Hd & Hh & Hmi & Hs) Y (Es & Em & Eh & Ed).
  destruct u as [y m d s mi h w]; cbn [year month day hour minutes seconds weekday] in *. subst s mi h.
  pose proof (month_len_bounds (is_leap_year y) (Z.to_nat m) ltac:(lia)) as ML.
  change (seconds_update (mkUtc y m d 59 59 23 w)) with (days_update (mkUtc y m d 0 0 0 w)).
  unfold days_update, month_update. cbn [year month day hour minutes seconds weekday].
  fold (month_len (is_leap_year y) (Z.to_nat m)). rewrite (u8_small (d + 1)) by lia.
  rewrite Z.gtb_ltb. destruct (Z.ltb_spec (month_len (is_leap_year y) (Z.to_nat m)) (d + 1)); [|lia].
  rewrite (u8_small (m + 1)), u16_small by lia. rewrite Z.geb_leb. zcases; try lia; done.
Qed.

Lemma seconds_update_midnight u : valid_utc u → ~ month_end u →
  hour (seconds_update u) = 0 → minutes (seconds_update u) = 0 → seconds (seconds_update u) = 0 →
  day (seconds_update u) = day u + 1.
Proof.
  intros (Hy & Hm & Hd & Hh & Hmi & Hs) NE. unfold month_end in NE.
  pose proof (month_len_bounds (is_leap_year (year u)) (Z.to_nat (month u)) ltac:(lia)) as ML.
  unfold seconds_update, minutes_update, hours_update, days_update.
  cbn [year month day hour minutes seconds weekday]. rewrite !(u8_small (_ + 1)) by lia.
  fold (month_len (is_leap_year (year u)) (Z.to_nat (month u))).
  destruct (Z.eqb_spec (seconds u + 1) 60); cbn [hour minutes seconds day]; [|intros; lia].
  destruct (Z.eqb_spec (minutes u + 1) 60); cbn [hour minutes seconds day]; [|intros; lia].
  destruct (Z.eqb_spec (hour u + 1) 24); cbn [hour minutes seconds day]; [|intros; lia].
  rewrite Z.gtb_ltb.
  destruct (Z.ltb_spec (month_len (is_leap_year (year u)) (Z.to_nat (month u))) (day u + 1)); [intros; lia|done].
Qed.

Lemma days_of_years_lower n : 365 * Z.of_nat n <= days_of_years n.
Proof. induction n as [|n IH]; simpl; [lia|]. pose proof (year_len_bounds (1970 + Z.of_nat n)). lia. Qed.

Lemma unix2UTC_year t : 0 <= t < UNIX2UTC_END → 1970 <= year (unix2UTC t) <= 2102.
Proof.
  intros Ht. destruct (unix2UTC_day t Ht) as (V & _ & E).
  pose proof (day_of_year_bound _ V). pose proof (days_of_years_lower (Z.to_nat (year (unix2UTC t) - 1970))).
  destruct V as (Hy & _ & _ & Hh & Hmi & Hs). unfold civil_seconds, civil_day in E.
  unfold UNIX2UTC_END, DAY, HOUR, MINU in Ht. lia.
Qed.

(** The first second after [month_end] is the first second of the next month. *)
Lemma next_month_civil u : valid_utc u → weekday_ok u → month_end u → year u < 65535 →
  let v := mkUtc (if month u =? 11 then year u + 1 else year u)
                 (if month u =? 11 then 0 else month u + 1) 1 0 0 0 (u8 ((weekday u + 1) mod 7)) in
  valid_utc v /\ weekday_ok v /\ civil_seconds v = civil_seconds u + 1.
Proof.
  intros (Hy & Hm & Hd & Hh & Hmi & Hs) W (Es & Em & Eh & Ed) Y v.
  assert (civil_day v = civil_day u + 1) as EC.
  { unfold v, civil_day; cbn [year month day]. rewrite Ed. destruct (Z.eqb_spec (month u) 11) as [E|E].
    - rewrite E. replace (year u + 1 - 1970) with (Z.succ (year u - 1970)) by lia.
      rewrite Z2Nat.inj_succ by lia. cbn [days_of_years]. rewrite Z2Nat.id by lia.
      replace (1970 + (year u - 1970)) with (year u) by lia. unfold year_len.
      assert (forall b, days_of_months b (Z.to_nat 11) + month_len b (Z.to_nat 11) = if b then 366 else 365)
        as DM by by intros [].
      pose proof (DM (is_leap_year (year u))). change (days_of_months _ (Z.to_nat 0)) with 0. lia.
    - replace (Z.to_nat (month u + 1)) with (S (Z.to_nat (month u))) by lia.
      cbn [days_of_months]. lia. }
  assert (1 <= month_len (is_leap_year (year v)) (Z.to_nat (month v))).
  { pose proof (month_len_bounds (is_leap_year (year v)) (Z.to_nat (month v))) as H.
    unfold v in *; cbn [year month] in *. destruct (Z.eqb_spec (month u) 11); lia. }
  unfold valid_utc, weekday_ok, civil_seconds in *. rewrite EC, Es, Em, Eh.
  unfold v in *; cbn [year month day hour minutes seconds weekday] in *.
  rewrite u8_small by dlia. rewrite W. destruct (Z.eqb_spec (month u) 11); repeat split; try lia; dlia.
Qed.

(** ** Claims *)

(** The day field of a broken-down time replaced. *)
Definition with_day (d : Z) (t : utc_time_t) : utc_time_t :=
  mkUtc (year t) (month t) d (seconds t) (minutes t) (hour t) (weekday t).

(** Both loops of [unix2UTC] (the year loop and the binary search for the
    month) stop within five iterations on every 32-bit time. *)
Theorem unix2UTC_terminates t : is_u32 t → unix2UTC_fuel t = Some (unix2UTC t).
Proof. intros Ht. unfold unix2UTC. by destruct (unix2UTC_fuel_some t Ht) as [u ->]. Qed.

Lemma unix2UTC_terminates_witness : unix2UTC_fuel 4294967295 = Some (unix2UTC 4294967295).
Proof. apply unix2UTC_terminates. lia. Defined.

(** [C36] [unix2UTC] computes the Gregorian date: up to 2102-01-01 its result is
    a valid broken-down time whose second count in the reference calendar is the
    argument, with the right weekday. *)
Theorem unix2UTC_correct t : 0 <= t < UNIX2UTC_END →
  valid_utc (unix2UTC t) /\ civil_seconds (unix2UTC t) = t
  /\ weekday (unix2UTC t) = (t / DAY + 4) mod 7.
Proof.
  intros Ht. destruct (unix2UTC_day t Ht) as (V & W & E). split; [done|]. split; [done|].
  rewrite W. f_equal. f_equal. destruct V as (_ & _ & _ & Hh & Hmi & Hs).
  rewrite <- E at 2. unfold civil_seconds, DAY, HOUR, MINU. dlia.
Qed.

Lemma unix2UTC_correct_witness :
  valid_utc (unix2UTC 1609459199) /\ civil_seconds (unix2UTC 1609459199) = 1609459199
  /\ weekday (unix2UTC 1609459199) = 4.
Proof. apply (unix2UTC_correct 1609459199). split; [lia|reflexivity]. Defined.

(** [UTC2unix] inverts [unix2UTC] on every time before 2101-01-01, and
    [unix2UTC] inverts [UTC2unix] on every valid date up to the year 2100. *)
Theorem unix_UTC_roundtrip t u :
  0 <= t < 4133980800 → valid_utc u → weekday_ok u → year u <= 2100 →
  UTC2unix (unix2UTC t) = t /\ unix2UTC (UTC2unix u) = u.
Proof.
  intros Ht Vu Wu Yu. split.
  - destruct (unix2UTC_day t) as (V & _ & E); [unfold UNIX2UTC_END, DAY, HOUR, MINU; lia|].
    rewrite UTC2unix_civil_seconds; [done|done|].
    destruct (Z.le_gt_cases (year (unix2UTC t)) 2100) as [|G]; [done|exfalso].
    pose proof (day_of_year_bound _ V).
    pose proof (days_of_years_mono 130 (Z.to_nat (year (unix2UTC t) - 1970)) ltac:(lia)) as M.
    change (days_of_years 130 + year_len (1970 + Z.of_nat 130)) with 47847 in M.
    destruct V as (_ & _ & _ & Hh & Hmi & Hs). unfold civil_seconds, civil_day in E. lia.
  - rewrite UTC2unix_civil_seconds by done.
    assert (0 <= civil_seconds u < UNIX2UTC_END) as B.
    { pose proof (day_of_year_bound u Vu). pose proof (year_len_bounds (year u)).
      destruct Vu as (Hy & _ & _ & Hh & Hmi & Hs). unfold civil_seconds, civil_day.
      rewrite days_of_years_closed by lia. rewrite Z2Nat.id by lia.
      unfold UNIX2UTC_END, DAY, HOUR, MINU. split; dlia. }
    destruct (unix2UTC_day _ B) as (V & W & E). by apply civil_seconds_inj.
Qed.

Lemma unix_UTC_roundtrip_witness :
  UTC2unix (unix2UTC 951782400) = 951782400
  /\ unix2UTC (UTC2unix (mkUtc 2020 1 29 59 59 23 6)) = mkUtc 2020 1 29 59 59 23 6.
Proof.
  apply (unix_UTC_roundtrip 951782400 (mkUtc 2020 1 29 59 59 23 6)); [lia| |reflexivity|simpl; lia].
  repeat split; vm_compute; (reflexivity || discriminate).
Defined.

(** The one-second tick [seconds_update] follows the calendar: applied to
    the broken-down time of second [t] it gives the one of second [t + 1], except
    on the first second of a month, where the day field becomes 0 instead of 1. *)
Theorem seconds_update_tick t : 0 <= t → t + 1 < UNIX2UTC_END →
  seconds_update (unix2UTC t) =
  if ((t + 1) mod DAY =? 0) && (day (unix2UTC (t + 1)) =? 1)
  then with_day 0 (unix2UTC (t + 1)) else unix2UTC (t + 1).
Proof.
  intros Ht0 Ht. destruct (unix2UTC_day t) as (V & W & E); [lia|].
  destruct (unix2UTC_day (t + 1)) as (V1 & W1 & E1); [lia|].
  pose proof (unix2UTC_year t ltac:(lia)). generalize dependent (unix2UTC t).
  generalize dependent (unix2UTC (t + 1)). intros v V1 W1 E1 u V W E HY.
  assert (Decision (month_end u)) as [ME|NE] by (unfold month_end; apply _).
  - destruct (next_month_civil u V W ME) as (V' & W' & E'); [lia|]. rewrite E in E'.
    rewrite seconds_update_month_end by (done || lia).
    pose proof (civil_seconds_inj _ _ V1 V' W1 W' ltac:(congruence)) as ->.
    destruct ME as (Es & Em & Eh & _). unfold civil_seconds in E. unfold DAY, HOUR, MINU in *.
    destruct (Z.eqb_spec ((t + 1) mod (24 * (60 * 60))) 0); [done|dlia].
  - destruct (seconds_update_civil u V W) as (V' & W' & E'); [lia|done|]. rewrite E in E'.
    pose proof (civil_seconds_inj _ _ V' V1 W' W1 ltac:(congruence)) as <-.
    destruct (Z.eqb_spec ((t + 1) mod DAY) 0) as [M|M]; [|done].
    pose proof (seconds_update_midnight u V NE) as MN.
    destruct V as (_ & _ & Hd & _), V' as (_ & _ & _ & Hh & Hmi & Hs).
    unfold civil_seconds, DAY, HOUR, MINU in *. generalize dependent (seconds_update u). intros.
    rewrite MN by dlia. destruct (Z.eqb_spec (day u + 1) 1); [lia|done].
Qed.

Lemma seconds_update_tick_witness :
  seconds_update (unix2UTC 1614556798) = unix2UTC 1614556799
  /\ seconds_update (unix2UTC 1614556799) = with_day 0 (unix2UTC 1614556800).
Proof.
  split; [exact (seconds_update_tick 1614556798 ltac:(lia) ltac:(reflexivity))
         |exact (seconds_update_tick 1614556799 ltac:(lia) ltac:(reflexivity))].
Defined.

(** *** Weekday schedules *)

(** A bounded universal check over a list, reflected. *)
Lemma forallb_range (P : Z → bool) n :
  forallb P (map Z.of_nat (seq 0 n)) = true → forall z, 0 <= z < Z.of_nat n → P z = true.
Proof.
  intros H z Hz. rewrite forallb_forall in H. apply H.
  rewrite in_map_iff. exists (Z.to_nat z). split; [lia|]. apply in_seq. lia.
Qed.

(** [next_weekday_diff_get] agrees with [is_weekday_match] on one argument pair. *)
Definition weekday_diff_ok (w s : Z) : bool :=
  let d := next_weekday_diff_get w s in
  forallb (λ k, negb (is_weekday_match ((w + k) mod 7) s)) (map Z.of_nat (seq 0 (Z.to_nat d)))
  && (if s =? 0 then d =? 7 else (0 <=? d) && (d <? 7) && is_weekday_match ((w + d) mod 7) s).

(** The 7 x 128 cases, evaluated. *)
Lemma weekday_diff_all :
  forallb (λ w, forallb (weekday_diff_ok w) (map Z.of_nat (seq 0 128))) (map Z.of_nat (seq 0 7)) = true.
Proof. vm_compute. reflexivity. Qed.

Lemma weekday_diff_get w s : 0 <= w < 7 → 0 <= s < 128 → weekday_diff_ok w s = true.
Proof.
  intros Hw Hs.
  pose proof (forallb_range _ 7 weekday_diff_all w Hw) as H.
  exact (forallb_range _ 128 H s Hs).
Qed.

Lemma weekday_diff_least w s : 0 <= w < 7 → 0 <= s < 128 →
  let d := next_weekday_diff_get w s in
  (forall k, 0 <= k < d → is_weekday_match ((w + k) mod 7) s = false)
  /\ (s = 0 → d = 7)
  /\ (s <> 0 → 0 <= d < 7 /\ is_weekday_match ((w + d) mod 7) s = true).
Proof.
  intros Hw Hs d. pose proof (weekday_diff_get w s Hw Hs) as H. unfold weekday_diff_ok in H.
  fold d in H. apply andb_true_iff in H as [H1 H2]. split.
  - intros k Hk. apply negb_true_iff.
    apply (forallb_range (λ k, negb (is_weekday_match ((w + k) mod 7) s)) (Z.to_nat d)); [done|lia].
  - destruct (Z.eqb_spec s 0); split; try lia.
    intros _. apply andb_true_iff in H2 as [H2 ?]. apply andb_true_iff in H2 as [? ?]. split; [lia|done].
Qed.

(** [next_weekday_diff_get] finds the next scheduled day: for a weekday
    and a 7-bit schedule that is not empty it returns the least number of days
    (0 to 6) after which the weekday matches the schedule; for the empty
    schedule it returns 7. *)
Theorem next_weekday_diff_get_least w s : 0 <= w < 7 → 0 <= s < 128 →
  let d := next_weekday_diff_get w s in
  (forall k, 0 <= k < d → is_weekday_match ((w + k) mod 7) s = false)
  /\ (s = 0 → d = 7)
  /\ (s <> 0 → 0 <= d < 7 /\ is_weekday_match ((w + d) mod 7) s = true).
Proof. apply weekday_diff_least. Qed.

Lemma next_weekday_diff_get_least_witness :
  next_weekday_diff_get 3 1 = 5 /\ is_weekday_match ((3 + 5) mod 7) 1 = true.
Proof.
  destruct (next_weekday_diff_get_least 3 1 ltac:(lia) ltac:(lia)) as (_ & _ & H).
  split; [reflexivity|]. apply H. lia.
Defined.
