(* ===== verification/GenieTime.v ===== *)
(** * GenieTime: the timer pool of genie_time.c

    Forty timer records ([timer_data]) are linked in an active and an idle list
    whose nodes are the records themselves: the lists hold record numbers and the
    records live in one store, so an operation that writes through a
    [genie_time_t] pointer is a store update.  The 1 Hz hardware timer advances
    [unix_time] and [local_time] and submits the work item that fires the timers.
    The semaphore is taken and given in each critical section and has no state
    here; GT_STORE is off, so saving and restoring fail and erasing succeeds. *)
From Stdlib Require Import ZArith Lia List Bool.
From stdpp Require Import base list numbers option relations.
From S2P Require Import Prelude Env Transport Calendar.
Local Open Scope Z_scope.

Definition GENIE_TIME_MAX : nat := 40.
Definition DEF_SYNC_PERIOD : Z := 180.
Definition DEF_SYNC_DELAY : Z := 10.
Definition DEF_SYNC_DELAY_RETRY : Z := 10.

(** [genie_time_errno]. *)
Definition GT_OK : Z := 0.
Definition GT_E_INIT : Z := 1.
Definition GT_E_LOCALTIME_NOTSET : Z := 2.
Definition GT_E_INDEX : Z := 3.
Definition GT_E_PARAM : Z := 4.
Definition GT_E_NORESOURCE : Z := 5.

(** [vt_state]. *)
Inductive vt_state := TIMER_OFF | TIMER_ON | TIMER_INVAILD.
#[export] Instance vt_state_eq_dec : EqDecision vt_state.
Proof. solve_decision. Defined.

(** [vendor_attr_data_t]. *)
Record vendor_attr_data_t := mkAttr { attr_type : Z; para : Z }.

(** [genie_time_t]; the link field is the position in a list. *)
Record genie_time_t := mkTimer {
  index : Z; state : vt_state; periodic : bool; periodic_time : Z; schedule : Z;
  unixtime_match : Z; attr_data : vendor_attr_data_t }.

(** [unixtime_sync_t]. *)
Record unixtime_sync_t := mkSync { period_time : Z; retry_delay : Z; retry_times : Z }.

(** [genie_time_data_t]. *)
Record genie_time_data_t := mkData {
  magic : Z; timezone : Z; timing_sync_config : unixtime_sync_t; timer_data : list genie_time_t }.

(** [genie_time_timer_t]; [hw_timer] is whether the hardware timer runs,
    [work] whether the work item is queued. *)
Record genie_time_timer_t := mkTT {
  init : bool; update : bool; hw_timer : bool;
  timer_list_active : list nat; timer_list_idle : list nat;
  unix_time : Z; unix_time_sync_match : Z; unix_time_sync_retry_times : Z;
  genie_time_event_cb : bool; work : bool }.

(** ** What the timers ask of the rest of the service *)

(** [genie_transport_send_payload], [genie_event(GENIE_EVT_TIMEOUT, .)] and the
    element table, on the state [T] of the components above and below. *)
Class TimeUplink (T : Type) := {
  ul_send : genie_transport_payload_param_t → T → Z * T;
  ul_timeout_event : vendor_attr_data_t → T → T;
  ul_elem_find_id : option Z → T → Z }.

(** The static variables of genie_time.c, and the uplink state. *)
Record gtstate (T : Type) := mkGT {
  genie_time_data : genie_time_data_t;
  genie_time_timer : genie_time_timer_t;
  local_time : utc_time_t;
  uplink : T }.
Arguments mkGT {T}. Arguments genie_time_data {T}. Arguments genie_time_timer {T}.
Arguments local_time {T}. Arguments uplink {T}.

(** ** Field updates *)

Definition set_timer_data l (d : genie_time_data_t) := mkData (magic d) (timezone d) (timing_sync_config d) l.
Definition set_timezone z (d : genie_time_data_t) := mkData (magic d) z (timing_sync_config d) (timer_data d).
Definition set_sync_config c (d : genie_time_data_t) := mkData (magic d) (timezone d) c (timer_data d).
Definition set_lists a i (t : genie_time_timer_t) := mkTT (init t) (update t) (hw_timer t) a i (unix_time t)
  (unix_time_sync_match t) (unix_time_sync_retry_times t) (genie_time_event_cb t) (work t).
Definition set_clock u (t : genie_time_timer_t) := mkTT (init t) true (hw_timer t) (timer_list_active t)
  (timer_list_idle t) u (unix_time_sync_match t) (unix_time_sync_retry_times t) (genie_time_event_cb t) (work t).
Definition set_sync m r (t : genie_time_timer_t) := mkTT (init t) (update t) (hw_timer t) (timer_list_active t)
  (timer_list_idle t) (unix_time t) m r (genie_time_event_cb t) (work t).
Definition set_work w (t : genie_time_timer_t) := mkTT (init t) (update t) (hw_timer t) (timer_list_active t)
  (timer_list_idle t) (unix_time t) (unix_time_sync_match t) (unix_time_sync_retry_times t)
  (genie_time_event_cb t) w.

Section genie_time.
Context {T : Type} `{U : TimeUplink T}.

Definition on_data (f : genie_time_data_t → genie_time_data_t) (s : gtstate T) := mkGT (f (genie_time_data s)) (genie_time_timer s) (local_time s) (uplink s).
Definition on_timer (f : genie_time_timer_t → genie_time_timer_t) (s : gtstate T) := mkGT (genie_time_data s) (f (genie_time_timer s)) (local_time s) (uplink s).
Definition on_local_time (f : utc_time_t → utc_time_t) (s : gtstate T) := mkGT (genie_time_data s) (genie_time_timer s) (f (local_time s)) (uplink s).
Definition on_uplink (f : T → T) (s : gtstate T) := mkGT (genie_time_data s) (genie_time_timer s) (local_time s) (f (uplink s)).

Definition active (s : gtstate T) : list nat := timer_list_active (genie_time_timer s).
Definition idle (s : gtstate T) : list nat := timer_list_idle (genie_time_timer s).
Definition timer0 : genie_time_t := mkTimer 0 TIMER_OFF false 0 0 0 (mkAttr 0 0).

(** [*p] and [*p = x] for a timer pointer [p]. *)
Definition node (s : gtstate T) (p : nat) : genie_time_t := nth p (timer_data (genie_time_data s)) timer0.
Definition set_node (p : nat) (x : genie_time_t) : gtstate T → gtstate T :=
  on_data (λ d, set_timer_data (<[p := x]> (timer_data d)) d).

(** [sys_slist_find_and_remove] and [sys_slist_append] on the two lists. *)
Fixpoint list_remove_first (p : nat) (l : list nat) : list nat :=
  match l with [] => [] | q :: l => if Nat.eqb q p then l else q :: list_remove_first p l end.
Definition active_remove (p : nat) : gtstate T → gtstate T :=
  on_timer (λ t, set_lists (list_remove_first p (timer_list_active t)) (timer_list_idle t) t).
Definition active_append (p : nat) : gtstate T → gtstate T :=
  on_timer (λ t, set_lists (timer_list_active t ++ [p]) (timer_list_idle t) t).
Definition idle_append (p : nat) : gtstate T → gtstate T :=
  on_timer (λ t, set_lists (timer_list_active t) (timer_list_idle t ++ [p]) t).

(** ** Reading the clock *)

Definition genie_time_local_time_get (s : gtstate T) : utc_time_t := local_time s.
Definition genie_time_local_unixtime_get (s : gtstate T) : Z := unix_time (genie_time_timer s).
Definition genie_time_timezone_get (s : gtstate T) : Z := timezone (genie_time_data s).
Definition genie_time_time_sync_get (s : gtstate T) : Z * Z * Z :=
  let c := timing_sync_config (genie_time_data s) in (period_time c, retry_delay c, retry_times c).

(** ** Timers *)

Fixpoint find_index (idx : Z) (s : gtstate T) (l : list nat) : option nat :=
  match l with
  | [] => None
  | p :: l => if index (node s p) =? idx then Some p else find_index idx s l
  end.

Definition genie_time_find (idx : Z) (s : gtstate T) : option nat :=
  if idx >=? Z.of_nat GENIE_TIME_MAX then None else find_index idx s (active s).

Definition genie_time_new (s : gtstate T) : option nat * gtstate T :=
  match idle s with
  | [] => (None, s)
  | p :: l => (Some p, on_timer (λ t, set_lists (timer_list_active t) l t) s)
  end.

(** The record for an index: the active one, unlinked, or else one of the idle list. *)
Definition timer_acquire (idx : Z) (s : gtstate T) : option nat * gtstate T :=
  match genie_time_find idx s with
  | None => genie_time_new s
  | Some p => (Some p, active_remove p s)
  end.

Definition genie_time_periodic_start (idx periodic_time' schedule' : Z) (a : vendor_attr_data_t)
    (s : gtstate T) : Z * gtstate T :=
  if negb (init (genie_time_timer s)) then (- GT_E_INIT, s)
  else if negb (update (genie_time_timer s)) then (- GT_E_LOCALTIME_NOTSET, s)
  else if schedule' =? 0 then (- GT_E_PARAM, s)
  else match timer_acquire idx s with
       | (None, s) => (- GT_E_NORESOURCE, s)
       | (Some p, s) =>
           let lt := local_time s in
           let utc := mkUtc (year lt) (month lt)
                        (u8 (day lt + next_weekday_diff_get (weekday lt) schedule')) 0 0 0 (weekday lt) in
           let unixtime_match' := u32 (UTC2unix utc + periodic_time' - timezone (genie_time_data s) * HOUR) in
           let s := set_node p (mkTimer idx TIMER_ON true periodic_time' schedule' unixtime_match'
                                  (mkAttr (attr_type a) (para a))) s in
           (0, active_append p s)
       end.

Definition genie_time_start (idx unix_time' : Z) (a : option vendor_attr_data_t) (s : gtstate T)
  : Z * gtstate T :=
  match a with
  | None => (- GT_E_PARAM, s)
  | Some a =>
    if negb (init (genie_time_timer s)) then (- GT_E_INIT, s)
    else if negb (update (genie_time_timer s)) then (- GT_E_LOCALTIME_NOTSET, s)
    else if unix_time' <=? unix_time (genie_time_timer s) then (- GT_E_PARAM, s)
    else match timer_acquire idx s with
         | (None, s) => (- GT_E_NORESOURCE, s)
         | (Some p, s) =>
             let x := node s p in
             let s := set_node p (mkTimer idx TIMER_ON (periodic x) (periodic_time x) (schedule x) unix_time'
                                    (mkAttr (attr_type a) (para a))) s in
             (0, active_append p s)
         end
  end.

(** The parameter is an [int8_t], [genie_time_find] takes a [uint8_t]. *)
Definition genie_time_stop (idx : Z) (s : gtstate T) : Z * gtstate T :=
  if negb (init (genie_time_timer s)) then (- GT_E_INIT, s)
  else if negb (update (genie_time_timer s)) then (- GT_E_LOCALTIME_NOTSET, s)
  else if idx >=? Z.of_nat GENIE_TIME_MAX then (- GT_E_INDEX, s)
  else match genie_time_find (u8 idx) s with
       | None => (- GT_E_INDEX, s)
       | Some p =>
           let x := node s p in
           let s := set_node p (mkTimer 255 TIMER_INVAILD (periodic x) (periodic_time x) (schedule x) 0 (attr_data x)) s in
           (0, idle_append p (active_remove p s))
       end.

(** [for (i = 0; i < GENIE_TIME_MAX; i++) genie_time_stop(i);] *)
Definition stop_all (s : gtstate T) : gtstate T :=
  fold_left (λ s i, snd (genie_time_stop (s8 (Z.of_nat i)) s)) (seq 0 GENIE_TIME_MAX) s.

(** The parameter is an [int8_t]: the caller's byte is converted. *)
Definition genie_time_remove (idx : Z) (s : gtstate T) : Z * gtstate T :=
  if idx =? 255 then (0, stop_all s) else genie_time_stop idx s.

(** ** Notifications *)

Definition TIMING_TIMEOUT_T : Z := 61449. (* 0xF009 *)
Definition EL_TIMING_TIMEOUT_T : Z := 17.
Definition UNIX_TIME_T : Z := 61471. (* 0xF01F *)

(** A zeroed parameter record with the fields the senders of this file set. *)
Definition payload_param (elem op t : Z) (bytes : list Z) (n retry : Z) : genie_transport_payload_param_t :=
  mkPayload elem op t retry 0 (Some bytes) n None.

Definition send (p : genie_transport_payload_param_t) (s : gtstate T) : Z * gtstate T :=
  let '(r, u) := ul_send p (uplink s) in (r, on_uplink (λ _, u) s).

Definition _genie_time_timeout_indicate (idx : Z) (s : gtstate T) : gtstate T :=
  snd (send (payload_param 0 VENDOR_OP_ATTR_INDICATE 0 (le16 TIMING_TIMEOUT_T ++ [EL_TIMING_TIMEOUT_T; idx]) 4
               VENDOR_MODEL_MSG_MAX_RETRY_TIMES) s).

Definition genie_time_request_utc_time (s : gtstate T) : gtstate T :=
  snd (send (payload_param 0 VENDOR_OP_ATTR_INDICATE_TG 0 (le16 UNIX_TIME_T) 2 1) s).

(** The two events of [genie_time_event_callback]. *)
Inductive gt_event := GT_TIMEOUT (a : vendor_attr_data_t) | GT_TIMING_SYNC.

Definition genie_time_event_callback (ev : gt_event) (idx : Z) (s : gtstate T) : Z * gtstate T :=
  match ev with
  | GT_TIMEOUT a => (0, _genie_time_timeout_indicate idx (on_uplink (ul_timeout_event a) s))
  | GT_TIMING_SYNC => (0, genie_time_request_utc_time s)
  end.

(** ** The work item *)

Definition is_genie_time_timeout (x : genie_time_t) (now : Z) : bool :=
  if decide (state x = TIMER_INVAILD) then false else unixtime_match x =? now.

(** One node of the walk of [genie_time_do_work]. *)
Definition fire_node (s : gtstate T) (p : nat) : gtstate T :=
  let x := node s p in
  if is_genie_time_timeout x (unix_time (genie_time_timer s)) then
    let s := if genie_time_event_cb (genie_time_timer s)
             then snd (genie_time_event_callback (GT_TIMEOUT (attr_data x)) (index x) s) else s in
    let x := node s p in
    if negb (periodic x) then
      let s := set_node p (mkTimer (index x) TIMER_INVAILD (periodic x) (periodic_time x) (schedule x)
                             4294967295 (attr_data x)) s in
      idle_append p (active_remove p s)
    else
      set_node p (mkTimer (index x) (state x) (periodic x) (periodic_time x) (schedule x)
                    (u32 (unixtime_match x
                          + (1 + next_weekday_diff_get (next_weekday (weekday (local_time s))) (schedule x)) * DAY))
                    (attr_data x)) s
  else s.

(** The time synchronisation request at the end of [genie_time_do_work]. *)
Definition sync_check (s : gtstate T) : gtstate T :=
  let t := genie_time_timer s in
  if truthy (unix_time_sync_match t) && (unix_time_sync_match t <=? unix_time t) then
    let '(ret, s) := if genie_time_event_cb t then genie_time_event_callback GT_TIMING_SYNC 0 s else (0, s) in
    let t := genie_time_timer s in
    let c := timing_sync_config (genie_time_data s) in
    if truthy ret && (unix_time_sync_retry_times t >? 0) then
      on_timer (set_sync (u32 (unix_time_sync_match t + retry_delay c * MINU))
                         (u8 (unix_time_sync_retry_times t - 1))) s
    else on_timer (set_sync (u32 (unix_time t + period_time c * MINU)) (retry_times c)) s
  else s.

(** The SAFE walk reads the next pointer before the body runs, and the body
    unlinks only the current node: the walk visits the list as it was. *)
Definition genie_time_do_work (s : gtstate T) : gtstate T :=
  sync_check (fold_left fire_node (active s) (on_timer (set_work false) s)).

Definition timer_update (s : gtstate T) : gtstate T :=
  if negb (update (genie_time_timer s)) then s
  else on_timer (set_work true)
         (on_local_time seconds_update (on_timer (λ t, set_clock (u32 (unix_time t + 1)) t) s)).

Definition genie_time_utc_start (idx : Z) (utc : utc_time_t) (a : vendor_attr_data_t) (s : gtstate T) :=
  genie_time_start idx (UTC2unix utc) (Some a) s.

(** ** Clock settings *)

Definition genie_time_timezone_update (tz : Z) (s : gtstate T) : Z * gtstate T :=
  if (tz <? -12) || (tz >? 12) then (- GT_E_PARAM, s)
  else if negb (init (genie_time_timer s)) then (- GT_E_INIT, s)
  else (0, on_data (set_timezone tz) s).

Definition genie_time_time_sync_set (period delay times : Z) (s : gtstate T) : Z * gtstate T :=
  if negb (truthy period) || negb (truthy delay) || negb (truthy times) then (- GT_E_PARAM, s)
  else
    let s := on_data (set_sync_config (mkSync period delay times)) s in
    (0, on_timer (λ t, set_sync (u32 (unix_time t + period * MINU)) times t) s).

Definition genie_time_local_time_update (unix_time' : Z) (s : gtstate T) : Z * gtstate T :=
  if negb (init (genie_time_timer s)) then (- GT_E_INIT, s)
  else
    let s := on_timer (set_clock unix_time') s in
    let s := on_local_time (λ _, unix2UTC (u32 (unix_time' + timezone (genie_time_data s) * HOUR))) s in
    (0, snd (genie_time_time_sync_set DEF_SYNC_PERIOD DEF_SYNC_DELAY DEF_SYNC_DELAY_RETRY s)).

(** ** Start and end *)

Definition genie_time_save (s : gtstate T) : Z := -1.
Definition genie_time_restore (s : gtstate T) : Z := -1.
Definition genie_time_erase (s : gtstate T) : Z := 0.

Definition idle_timer : genie_time_t := mkTimer 255 TIMER_INVAILD false 0 0 4294967295 (mkAttr 0 0).

Definition genie_time_init (s : gtstate T) : Z * gtstate T :=
  if init (genie_time_timer s) then (0, s)
  else
    let s := mkGT (genie_time_data s) (mkTT true false true [] [] 0 0 0 true false) utc_zero (uplink s) in
    let s := if truthy (genie_time_restore s) then
               on_timer (set_lists [] (seq 0 GENIE_TIME_MAX))
                 (on_data (λ _, mkData 43981 8 (mkSync 0 0 0) (replicate GENIE_TIME_MAX idle_timer)) s)
             else s in
    (0, s).

(** [memset] up to the work item clears everything but [work]. *)
Definition genie_time_finalize (s : gtstate T) : Z * gtstate T :=
  if negb (init (genie_time_timer s)) then (-1, s)
  else
    let s := stop_all s in
    let s := mkGT (genie_time_data s) (mkTT false false false [] [] 0 0 0 false (work (genie_time_timer s)))
                  utc_zero (uplink s) in
    (genie_time_erase s, s).

End genie_time.
