(* ===== verification/TimePool.v ===== *)
(** * TimePool: the timer pool refines two lists of timers

    The operations of GenieTime on the linked records are shown equal to
    operations on two lists of records ([pool]), and the pool invariant is
    shown for every reachable state. *)
From Stdlib Require Import ZArith Lia List Bool.
From stdpp Require Import base list numbers option relations.
From S2P Require Import Prelude Env Transport Calendar GenieTime.
Local Open Scope Z_scope.

Section time_pool.
Context {T : Type} `{U : TimeUplink T}.

(** ** The pool as two lists of records *)

(** The abstract pool: the records themselves, in list order, without the store. *)
Record pool := mkPool { p_active : list genie_time_t; p_idle : list genie_time_t }.
Definition abs (s : gtstate T) : pool := mkPool (map (node s) (active s)) (map (node s) (idle s)).

(** The first record with an index, and the others. *)
Fixpoint take_index (idx : Z) (l : list genie_time_t) : option (genie_time_t * list genie_time_t) :=
  match l with
  | [] => None
  | x :: l => if index x =? idx then Some (x, l)
              else match take_index idx l with Some (y, l) => Some (y, x :: l) | None => None end
  end.

Definition spec_pop (a : pool) : option (genie_time_t * pool) :=
  match p_idle a with [] => None | x :: l => Some (x, mkPool (p_active a) l) end.

Definition spec_acquire (idx : Z) (a : pool) : option (genie_time_t * pool) :=
  if idx >=? Z.of_nat GENIE_TIME_MAX then spec_pop a
  else match take_index idx (p_active a) with
       | Some (x, l) => Some (x, mkPool l (p_idle a))
       | None => spec_pop a
       end.

Definition spec_start (idx t : Z) (d : vendor_attr_data_t) (a : pool) : option pool :=
  match spec_acquire idx a with
  | Some (x, a) =>
      Some (mkPool (p_active a ++ [mkTimer idx TIMER_ON (periodic x) (periodic_time x) (schedule x) t d]) (p_idle a))
  | None => None
  end.

Definition spec_periodic_start (idx pt sch m : Z) (d : vendor_attr_data_t) (a : pool) : option pool :=
  match spec_acquire idx a with
  | Some (x, a) => Some (mkPool (p_active a ++ [mkTimer idx TIMER_ON true pt sch m d]) (p_idle a))
  | None => None
  end.

Definition stopped (x : genie_time_t) : genie_time_t :=
  mkTimer 255 TIMER_INVAILD (periodic x) (periodic_time x) (schedule x) 0 (attr_data x).
Definition spec_stop (idx : Z) (a : pool) : option pool :=
  match take_index idx (p_active a) with
  | Some (x, l) => Some (mkPool l (p_idle a ++ [stopped x]))
  | None => None
  end.

(** A pass of the work item at time [now] on weekday [wd]: a due one-shot timer
    goes to the idle list, a due periodic one is moved to its next day. *)
Definition rescheduled (wd : Z) (x : genie_time_t) : genie_time_t :=
  mkTimer (index x) (state x) (periodic x) (periodic_time x) (schedule x)
    (u32 (unixtime_match x + (1 + next_weekday_diff_get (next_weekday wd) (schedule x)) * DAY)) (attr_data x).
Definition retired (x : genie_time_t) : genie_time_t :=
  mkTimer (index x) TIMER_INVAILD (periodic x) (periodic_time x) (schedule x) 4294967295 (attr_data x).
Definition due (now : Z) (x : genie_time_t) : bool := is_genie_time_timeout x now.
Definition keep_rec (now wd : Z) (x : genie_time_t) : list genie_time_t :=
  if due now x then if periodic x then [rescheduled wd x] else [] else [x].
Definition retire_rec (now : Z) (x : genie_time_t) : list genie_time_t :=
  if due now x && negb (periodic x) then [retired x] else [].
Definition spec_fire (now wd : Z) (a : pool) : pool :=
  mkPool (flat_map (keep_rec now wd) (p_active a)) (p_idle a ++ flat_map (retire_rec now) (p_active a)).

(** What the firing of a timer does to the rest of the service. *)
Definition notify (x : genie_time_t) (u : T) : T :=
  snd (ul_send (payload_param 0 VENDOR_OP_ATTR_INDICATE 0
                  (le16 TIMING_TIMEOUT_T ++ [EL_TIMING_TIMEOUT_T; index x]) 4 VENDOR_MODEL_MSG_MAX_RETRY_TIMES)
         (ul_timeout_event (attr_data x) u)).

(** ** The invariant *)

(** Every record is in exactly one list; active timers are on, idle ones
    invalid; the indices a client can address are distinct among the active. *)
Definition addressable (x : Z) : bool := x <? Z.of_nat GENIE_TIME_MAX.
Definition pool_wf (s : gtstate T) : Prop :=
  length (timer_data (genie_time_data s)) = GENIE_TIME_MAX
  /\ active s ++ idle s ≡ₚ seq 0 GENIE_TIME_MAX
  /\ Forall (λ x, state x = TIMER_ON) (p_active (abs s))
  /\ Forall (λ x, state x = TIMER_INVAILD) (p_idle (abs s))
  /\ List.NoDup (List.filter addressable (map index (p_active (abs s)))).

(** ** The store and the lists *)

Lemma node_set_node p x (s : gtstate T) : (p < length (timer_data (genie_time_data s)))%nat → node (set_node p x s) p = x.
Proof.
  intros H. unfold node, set_node. cbn. rewrite nth_lookup, list_lookup_insert_eq by done. done.
Qed.

Lemma node_set_node_ne p q x (s : gtstate T) : p ≠ q → node (set_node p x s) q = node s q.
Proof. intros H. unfold node, set_node. cbn. by rewrite !nth_lookup, list_lookup_insert_ne. Qed.

Lemma map_node_set_node p x (s : gtstate T) l : p ∉ l → map (node (set_node p x s)) l = map (node s) l.
Proof.
  intros H. apply map_ext_in. intros q Hq. apply node_set_node_ne. intros ->.
  apply H. by apply list_elem_of_In.
Qed.

Lemma list_remove_first_app p l1 l2 : p ∉ l1 → list_remove_first p (l1 ++ p :: l2) = l1 ++ l2.
Proof.
  induction l1 as [|q l1 IH]; simpl; intros H; [by rewrite Nat.eqb_refl|].
  apply not_elem_of_cons in H as [H1 H2]. destruct (Nat.eqb_spec q p) as [->|]; [done|]. by rewrite IH.
Qed.

Lemma find_index_Some idx (s : gtstate T) l p : find_index idx s l = Some p →
  exists l1 l2, l = l1 ++ p :: l2 /\ index (node s p) = idx
    /\ take_index idx (map (node s) l) = Some (node s p, map (node s) (l1 ++ l2)).
Proof.
  induction l as [|q l IH]; simpl; [done|]. destruct (Z.eqb_spec (index (node s q)) idx) as [E|NE].
  - intros [= ->]. by exists [], l.
  - intros H. destruct (IH H) as (l1 & l2 & -> & ? & Ht). exists (q :: l1), l2. by rewrite Ht.
Qed.

Lemma find_index_None idx (s : gtstate T) l : find_index idx s l = None →
  take_index idx (map (node s) l) = None /\ ~ In idx (map index (map (node s) l)).
Proof.
  induction l as [|q l IH]; simpl; [naive_solver|]. destruct (Z.eqb_spec (index (node s q)) idx) as [E|NE]; [done|].
  intros H. destruct (IH H) as [-> ?]. naive_solver.
Qed.

Lemma pool_nodup (s : gtstate T) : pool_wf s → List.NoDup (active s ++ idle s).
Proof. intros (_ & P & _). rewrite P. apply seq_NoDup. Qed.

Lemma pool_lt (s : gtstate T) p : pool_wf s → p ∈ active s ++ idle s → (p < length (timer_data (genie_time_data s)))%nat.
Proof. intros (-> & P & _). rewrite P, elem_of_seq. unfold GENIE_TIME_MAX. lia. Qed.

(** The active list around one of its records. *)
Lemma active_split (s : gtstate T) l1 p l2 : pool_wf s → active s = l1 ++ p :: l2 →
  (p ∉ l1) /\ (p ∉ l2) /\ (p ∉ idle s) /\ active (active_remove p s) = l1 ++ l2
  /\ (p < length (timer_data (genie_time_data s)))%nat.
Proof.
  intros W E. pose proof (pool_nodup _ W) as ND. rewrite E, <- app_assoc, <- NoDup_ListNoDup in ND.
  cbn in ND. apply NoDup_app in ND as (_ & N1 & N2). apply NoDup_cons in N2 as [N2 _].
  rewrite elem_of_app in N2. assert (p ∉ l1) as N0 by (intros H; apply (N1 p H); left).
  repeat split; [done|naive_solver..| |].
  - unfold active, active_remove in *. cbn. rewrite E. by apply list_remove_first_app.
  - apply pool_lt; [done|]. rewrite E. set_solver.
Qed.

(** Where [timer_acquire] leaves the pool: one record [p] in neither list. *)
Definition acquired (idx : Z) (p : nat) (s : gtstate T) : Prop :=
  length (timer_data (genie_time_data s)) = GENIE_TIME_MAX
  /\ p :: active s ++ idle s ≡ₚ seq 0 GENIE_TIME_MAX
  /\ Forall (λ x, state x = TIMER_ON) (p_active (abs s))
  /\ Forall (λ x, state x = TIMER_INVAILD) (p_idle (abs s))
  /\ List.NoDup (List.filter addressable (map index (p_active (abs s))))
  /\ (addressable idx = true → ~ In idx (map index (p_active (abs s)))).

Lemma filter_map_app_mid idx (s : gtstate T) l1 p l2 : index (node s p) = idx →
  List.NoDup (List.filter addressable (map index (map (node s) (l1 ++ p :: l2)))) →
  List.NoDup (List.filter addressable (map index (map (node s) (l1 ++ l2))))
  /\ (addressable idx = true → ~ In idx (map index (map (node s) (l1 ++ l2)))).
Proof.
  intros Hi. rewrite !map_app, !List.filter_app. cbn. rewrite Hi.
  destruct (addressable idx) eqn:A; [|done]. intros ND. split; [by eapply NoDup_remove_1|]. intros _.
  apply NoDup_remove_2 in ND. contradict ND. rewrite in_app_iff in *. rewrite !filter_In. naive_solver.
Qed.

Lemma new_acquired idx (s : gtstate T) p s' : pool_wf s →
  (addressable idx = true → ~ In idx (map index (p_active (abs s)))) →
  genie_time_new s = (Some p, s') →
  acquired idx p s' /\ genie_time_data s' = genie_time_data s /\ spec_pop (abs s) = Some (node s p, abs s').
Proof.
  intros (L & P & A & I & ND) Hn. unfold genie_time_new. destruct (idle s) as [|q l] eqn:E; [done|].
  intros [= <- <-]. unfold acquired, spec_pop, abs in *. cbn in *. rewrite E in *. cbn in *.
  repeat split; auto.
  - by rewrite <- P, Permutation_middle.
  - by apply Forall_inv_tail in I.
Qed.

Lemma timer_acquire_Some idx (s : gtstate T) p s' : pool_wf s → timer_acquire idx s = (Some p, s') →
  acquired idx p s' /\ genie_time_data s' = genie_time_data s
  /\ spec_acquire idx (abs s) = Some (node s p, abs s').
Proof.
  intros W. unfold timer_acquire, genie_time_find, spec_acquire. cbn [p_active abs].
  rewrite Z.geb_leb. destruct (Z.leb_spec (Z.of_nat GENIE_TIME_MAX) idx).
  { intros H1. apply new_acquired; [done| |done]. unfold addressable. zcases; [lia|done]. }
  destruct (find_index idx s (active s)) as [q|] eqn:F.
  - intros [= <- <-]. apply find_index_Some in F as (l1 & l2 & E & Hi & ->).
    destruct (active_split s l1 q l2 W E) as (_ & _ & _ & R & _).
    destruct W as (L & P & A & I & ND). unfold acquired, abs in *. rewrite R. cbn in *. rewrite E in *.
    destruct (filter_map_app_mid idx s l1 q l2 Hi ND) as [ND' NI].
    repeat split; auto.
    + rewrite <- P. by rewrite <- !app_assoc, Permutation_middle.
    + rewrite map_app in *. apply Forall_app in A as [? A]. apply Forall_app. split; [done|].
      by apply Forall_inv_tail in A.
  - apply find_index_None in F as [-> NI]. intros H1. apply new_acquired; [done| |done]. intros _. exact NI.
Qed.

Lemma timer_acquire_None idx (s : gtstate T) s' : timer_acquire idx s = (None, s') →
  s' = s /\ spec_acquire idx (abs s) = None.
Proof.
  assert (genie_time_new s = (None, s') → s' = s /\ spec_pop (abs s) = None) as N.
  { unfold genie_time_new, spec_pop, abs. cbn. destruct (idle s); [|done]. by intros [= <-]. }
  unfold timer_acquire, genie_time_find, spec_acquire. cbn [p_active abs].
  destruct (idx >=? Z.of_nat GENIE_TIME_MAX); [done|].
  destruct (find_index idx s (active s)) as [q|] eqn:F; [done|]. apply find_index_None in F as [-> _]. done.
Qed.

(** Linking the acquired record back as an active timer. *)
Lemma install idx p x (s : gtstate T) : acquired idx p s → index x = idx → state x = TIMER_ON →
  pool_wf (active_append p (set_node p x s))
  /\ abs (active_append p (set_node p x s)) = mkPool (p_active (abs s) ++ [x]) (p_idle (abs s)).
Proof.
  intros (L & P & A & I & ND & NI) Hi Hs.
  assert (List.NoDup (p :: active s ++ idle s)) as D by (rewrite P; apply seq_NoDup).
  apply NoDup_cons_iff in D as [D _]. rewrite in_app_iff, <- !list_elem_of_In in D.
  assert (p < length (timer_data (genie_time_data s)))%nat as Hp.
  { rewrite L. assert (p ∈ seq 0 GENIE_TIME_MAX) as Q by (rewrite <- P; left).
    apply elem_of_seq in Q. unfold GENIE_TIME_MAX in *. lia. }
  assert (abs (active_append p (set_node p x s)) = mkPool (p_active (abs s) ++ [x]) (p_idle (abs s))) as E.
  { unfold abs. cbn [active idle active_append on_timer genie_time_timer set_lists timer_list_active timer_list_idle
                     p_active p_idle]. rewrite map_app.
    change (node (active_append p (set_node p x s))) with (node (set_node p x s)).
    cbn [map]. rewrite node_set_node by done. unfold active, idle in *.
    by rewrite !map_node_set_node by naive_solver. }
  split; [|done]. unfold pool_wf. rewrite E. cbn [p_active p_idle]. repeat split.
  - cbn. by rewrite length_insert.
  - rewrite <- P. cbn. unfold active, idle. rewrite <- app_assoc. cbn. by rewrite <- Permutation_middle.
  - apply Forall_app. auto.
  - done.
  - rewrite map_app, List.filter_app. cbn. rewrite Hi. destruct (addressable idx) eqn:Q; [|by rewrite app_nil_r].
    apply List.NoDup_app; [done|repeat constructor; naive_solver|]. intros y Hy [<-|[]].
    apply filter_In in Hy. naive_solver.
Qed.

(** Retiring an active record to the idle list. *)
Lemma release p x (s : gtstate T) l1 l2 : pool_wf s → active s = l1 ++ p :: l2 → state x = TIMER_INVAILD →
  pool_wf (idle_append p (active_remove p (set_node p x s)))
  /\ active (idle_append p (active_remove p (set_node p x s))) = l1 ++ l2
  /\ abs (idle_append p (active_remove p (set_node p x s)))
     = mkPool (map (node s) (l1 ++ l2)) (p_idle (abs s) ++ [x]).
Proof.
  intros W E Hs. destruct (active_split s l1 p l2 W E) as (N1 & N2 & N3 & R & Lp).
  assert (active (idle_append p (active_remove p (set_node p x s))) = l1 ++ l2) as Ea by exact R.
  assert (abs (idle_append p (active_remove p (set_node p x s)))
          = mkPool (map (node s) (l1 ++ l2)) (p_idle (abs s) ++ [x])) as Eb.
  { unfold abs at 1. rewrite Ea.
    change (node (idle_append p (active_remove p (set_node p x s)))) with (node (set_node p x s)).
    change (idle (idle_append p (active_remove p (set_node p x s)))) with (idle s ++ [p]).
    rewrite !(map_app _ _ [p]). cbn [map]. rewrite node_set_node by done.
    by rewrite !map_node_set_node by (try done; set_solver). }
  split; [|done]. destruct W as (L & P & A & I & ND). unfold pool_wf. rewrite Eb, Ea. cbn [p_active p_idle].
  unfold abs in A, ND, I. cbn [p_active p_idle] in A, ND, I. rewrite E in *. repeat split.
  - cbn. by rewrite length_insert.
  - rewrite <- P. change (idle (idle_append p (active_remove p (set_node p x s)))) with (idle s ++ [p]).
    rewrite app_assoc, (Permutation_app_comm _ [p]), <- !app_assoc. cbn. by rewrite Permutation_middle.
  - rewrite map_app in *. apply Forall_app in A as [? A]. apply Forall_app. split; [done|].
    by apply Forall_inv_tail in A.
  - apply Forall_app. auto.
  - by eapply filter_map_app_mid.
Qed.

(** ** Operations *)

Lemma attr_eta a : mkAttr (attr_type a) (para a) = a.
Proof. by destruct a. Qed.

(** What an operation on the lists leaves alone. *)
Definition same_clock (s s' : gtstate T) : Prop :=
  uplink s' = uplink s /\ local_time s' = local_time s
  /\ init (genie_time_timer s') = init (genie_time_timer s) /\ update (genie_time_timer s') = update (genie_time_timer s)
  /\ unix_time (genie_time_timer s') = unix_time (genie_time_timer s).

Lemma acquire_same_clock idx (s : gtstate T) r s' : timer_acquire idx s = (r, s') → same_clock s s'.
Proof.
  unfold timer_acquire, genie_time_new. destruct (genie_time_find idx s); [by intros [= <- <-]|].
  destruct (idle s); by intros [= <- <-].
Qed.

Lemma start_spec idx t a (s : gtstate T) : pool_wf s → init (genie_time_timer s) = true →
  update (genie_time_timer s) = true → unix_time (genie_time_timer s) < t →
  match spec_start idx t a (abs s) with
  | Some a' => exists s', genie_time_start idx t (Some a) s = (0, s') /\ abs s' = a' /\ pool_wf s' /\ same_clock s s'
  | None => genie_time_start idx t (Some a) s = (- GT_E_NORESOURCE, s)
  end.
Proof.
  intros W Hi Hu Ht. unfold genie_time_start, spec_start. rewrite Hi, Hu. cbn [negb].
  rewrite (proj2 (Z.leb_gt _ _)) by done.
  destruct (timer_acquire idx s) as [[p|] s'] eqn:E.
  - pose proof (acquire_same_clock _ _ _ _ E) as C.
    apply timer_acquire_Some in E as (Q & D & ->); [|done].
    assert (node s' p = node s p) as N by (unfold node; by rewrite D). rewrite N, attr_eta.
    set (x := mkTimer idx TIMER_ON _ _ _ _ _). destruct (install idx p x s' Q eq_refl eq_refl) as [W' A'].
    eexists. split; [done|]. auto.
  - apply timer_acquire_None in E as [-> ->]. done.
Qed.

(** The time of the first firing [genie_time_periodic_start] computes. *)
Definition first_match (pt sch : Z) (s : gtstate T) : Z :=
  let lt := local_time s in
  u32 (UTC2unix (mkUtc (year lt) (month lt) (u8 (day lt + next_weekday_diff_get (weekday lt) sch)) 0 0 0 (weekday lt))
       + pt - timezone (genie_time_data s) * HOUR).

Lemma periodic_start_spec idx pt sch a (s : gtstate T) : pool_wf s → init (genie_time_timer s) = true →
  update (genie_time_timer s) = true → sch ≠ 0 →
  match spec_periodic_start idx pt sch (first_match pt sch s) a (abs s) with
  | Some a' => exists s', genie_time_periodic_start idx pt sch a s = (0, s') /\ abs s' = a' /\ pool_wf s' /\ same_clock s s'
  | None => genie_time_periodic_start idx pt sch a s = (- GT_E_NORESOURCE, s)
  end.
Proof.
  intros W Hi Hu Ht. unfold genie_time_periodic_start, spec_periodic_start. rewrite Hi, Hu. cbn [negb].
  rewrite (proj2 (Z.eqb_neq _ _)) by done.
  destruct (timer_acquire idx s) as [[p|] s'] eqn:E.
  - pose proof (acquire_same_clock _ _ _ _ E) as C. pose proof C as (_ & L & _).
    apply timer_acquire_Some in E as (Q & D & ->); [|done].
    rewrite attr_eta, L, D. fold (first_match pt sch s).
    set (x := mkTimer idx TIMER_ON _ _ _ _ _). destruct (install idx p x s' Q eq_refl eq_refl) as [W' A'].
    eexists. split; [done|]. auto.
  - apply timer_acquire_None in E as [-> ->]. done.
Qed.

(** Here the argument is the [int8_t] the callers pass. *)
Lemma stop_spec idx (s : gtstate T) : pool_wf s → init (genie_time_timer s) = true →
  update (genie_time_timer s) = true → 0 <= idx < 40 →
  match spec_stop idx (abs s) with
  | Some a' => exists s', genie_time_stop idx s = (0, s') /\ abs s' = a' /\ pool_wf s' /\ same_clock s s'
  | None => genie_time_stop idx s = (- GT_E_INDEX, s)
  end.
Proof.
  intros W Hi Hu R. unfold genie_time_stop, spec_stop, genie_time_find. rewrite Hi, Hu. cbn [negb].
  rewrite u8_small by lia. rewrite Z.geb_leb.
  rewrite (proj2 (Z.leb_gt _ _)) by (unfold GENIE_TIME_MAX; lia). cbn [p_active abs].
  destruct (find_index idx s (active s)) as [p|] eqn:F.
  - apply find_index_Some in F as (l1 & l2 & E & _ & ->).
    destruct (release p (stopped (node s p)) s l1 l2 W E eq_refl) as (W' & _ & A').
    eexists. split; [done|]. split; [done|]. split; [done|]. by repeat split.
  - apply find_index_None in F as [-> _]. done.
Qed.

Lemma stop_same (s : gtstate T) idx :
  fst (genie_time_stop idx s) ≠ 0 → snd (genie_time_stop idx s) = s.
Proof.
  unfold genie_time_stop. repeat case_match; try done.
Qed.

(** ** The work item *)

(** The walk changes the records, the lists and the uplink only. *)
Definition same_but_pool (s s' : gtstate T) : Prop :=
  local_time s' = local_time s
  /\ genie_time_timer s' = set_lists (active s') (idle s') (genie_time_timer s)
  /\ genie_time_data s' = set_timer_data (timer_data (genie_time_data s')) (genie_time_data s).

Lemma same_but_pool_refl s : same_but_pool s s.
Proof. repeat split; [by destruct s as [? [] ? ?]|by destruct s as [[] ? ? ?]]. Qed.

Lemma same_but_pool_trans s1 s2 s3 : same_but_pool s1 s2 → same_but_pool s2 s3 → same_but_pool s1 s3.
Proof. intros (? & E2 & D2) (? & E3 & D3). repeat split; [congruence|by rewrite E3, E2|by rewrite D3, D2]. Qed.

Definition notify_if (cb : bool) (u : T) (x : genie_time_t) : T := if cb then notify x u else u.

(** Setting the record of an active node in place. *)
Lemma set_active_node p x (s : gtstate T) l1 l2 : pool_wf s → active s = l1 ++ p :: l2 → state x = TIMER_ON →
  index x = index (node s p) →
  pool_wf (set_node p x s)
  /\ abs (set_node p x s) = mkPool (map (node s) l1 ++ x :: map (node s) l2) (p_idle (abs s)).
Proof.
  intros W E Hs Hi. destruct (active_split s l1 p l2 W E) as (N1 & N2 & N3 & _ & Lp).
  assert (abs (set_node p x s) = mkPool (map (node s) l1 ++ x :: map (node s) l2) (p_idle (abs s))) as Eb.
  { unfold abs. change (active (set_node p x s)) with (active s). change (idle (set_node p x s)) with (idle s).
    rewrite E, map_app. cbn [map p_idle]. rewrite node_set_node by done. by rewrite !map_node_set_node by done. }
  split; [|done]. destruct W as (L & P & A & I & ND). unfold pool_wf. rewrite Eb. cbn [p_active p_idle].
  unfold abs in A, ND. cbn [p_active] in A, ND. rewrite E, map_app in A, ND. cbn [map] in A, ND. repeat split.
  - cbn. by rewrite length_insert.
  - done.
  - apply Forall_app in A as [A1 A2]. apply Forall_app. split; [done|]. apply Forall_cons_1 in A2 as [_ A2]. by constructor.
  - done.
  - rewrite map_app in *. cbn [map] in *. by rewrite Hi.
Qed.

Lemma callback_timeout x (s : gtstate T) :
  snd (genie_time_event_callback (GT_TIMEOUT (attr_data x)) (index x) s) = on_uplink (notify x) s.
Proof.
  unfold genie_time_event_callback, _genie_time_timeout_indicate, send, notify, on_uplink.
  cbn [uplink snd genie_time_data genie_time_timer local_time]. by destruct (ul_send _ _).
Qed.

Lemma fire_node_spec (s : gtstate T) l1 p l2 : pool_wf s → active s = l1 ++ p :: l2 →
  let now := unix_time (genie_time_timer s) in let wd := weekday (local_time s) in
  let s' := fire_node s p in
  pool_wf s' /\ same_but_pool s s'
  /\ active s' = (if due now (node s p) && negb (periodic (node s p)) then l1 else l1 ++ [p]) ++ l2
  /\ (forall q, q ≠ p → node s' q = node s q)
  /\ abs s' = mkPool (map (node s) l1 ++ keep_rec now wd (node s p) ++ map (node s) l2)
                     (p_idle (abs s) ++ retire_rec now (node s p))
  /\ uplink s' = if due now (node s p) then notify_if (genie_time_event_cb (genie_time_timer s)) (uplink s) (node s p)
                 else uplink s.
Proof.
  intros W E. cbn zeta. unfold fire_node, keep_rec, retire_rec, due.
  destruct (is_genie_time_timeout (node s p) _) eqn:D; cbn [andb].
  2: { split; [done|]. split; [apply same_but_pool_refl|]. split; [by rewrite E, <- app_assoc|].
       split; [done|]. split; [|done]. unfold abs. rewrite E, map_app. cbn. by rewrite app_nil_r. }
  rewrite callback_timeout.
  set (u := if genie_time_event_cb (genie_time_timer s) then on_uplink (notify (node s p)) s else s).
  assert (u = on_uplink (λ u, notify_if (genie_time_event_cb (genie_time_timer s)) u (node s p)) s) as Eu.
  { unfold u, notify_if. destruct (genie_time_event_cb _); [done|]. by destruct s. }
  rewrite Eu. clear u Eu.
  set (s1 := on_uplink (λ u : T, notify_if (genie_time_event_cb (genie_time_timer s)) u (node s p)) s).
  change (node s1 p) with (node s p). change (local_time s1) with (local_time s).
  assert (state (node s p) = TIMER_ON) as On.
  { destruct W as (_ & _ & A & _). unfold abs in A. cbn in A. rewrite E, map_app in A. cbn in A.
    apply Forall_app in A as [_ A]. by apply Forall_inv in A. }
  change (active s) with (active s1) in E. change (pool_wf s) with (pool_wf s1) in W.
  destruct (periodic (node s p)) eqn:P; cbn [negb].
  - fold (rescheduled (weekday (local_time s)) (node s p)).
    rewrite <- P. fold (rescheduled (weekday (local_time s)) (node s p)).
    destruct (set_active_node p (rescheduled (weekday (local_time s)) (node s p)) s1 l1 l2 W E On eq_refl) as [W' A'].
    split; [done|]. split; [repeat split; by destruct s as [? [] ? ?]|]. split; [|split; [|split; [|done]]].
    + change (active s1 = (l1 ++ [p]) ++ l2). by rewrite E, <- app_assoc.
    + intros q Hq. by rewrite node_set_node_ne by done.
    + rewrite A', app_nil_r. done.
  - rewrite <- P. fold (retired (node s p)).
    destruct (release p (retired (node s p)) s1 l1 l2 W E eq_refl) as (W' & Ac & A').
    split; [done|]. split; [repeat split|]. split; [done|]. split; [|split; [|done]].
    + intros q Hq. exact (node_set_node_ne p q (retired (node s p)) s1 (not_eq_sym Hq)).
    + rewrite A'. rewrite map_app. done.
Qed.

(** The walk from any point of the list on. *)
Lemma fire_walk l2 : forall l1 (s : gtstate T), pool_wf s → active s = l1 ++ l2 →
  let now := unix_time (genie_time_timer s) in let wd := weekday (local_time s) in
  let s' := fold_left fire_node l2 s in
  pool_wf s' /\ same_but_pool s s'
  /\ abs s' = mkPool (map (node s) l1 ++ flat_map (keep_rec now wd) (map (node s) l2))
                     (p_idle (abs s) ++ flat_map (retire_rec now) (map (node s) l2))
  /\ uplink s' = fold_left (notify_if (genie_time_event_cb (genie_time_timer s)))
                    (List.filter (due now) (map (node s) l2)) (uplink s).
Proof.
  induction l2 as [|p l2 IH]; intros l1 s W E; cbn zeta.
  { cbn. split; [done|]. split; [apply same_but_pool_refl|]. rewrite !app_nil_r. split; [|done].
    unfold abs. rewrite E. by rewrite app_nil_r. }
  destruct (fire_node_spec s l1 p l2 W E) as (W1 & S1 & A1 & N1 & B1 & U1).
  pose proof (active_split s l1 p l2 W E) as (NI1 & NI2 & _).
  assert (forall l, p ∉ l → map (node (fire_node s p)) l = map (node s) l) as M.
  { intros l Hl. apply map_ext_in. intros q Hq. apply N1. intros ->. by apply Hl, list_elem_of_In. }
  cbn [fold_left]. destruct (IH _ _ W1 A1) as (W2 & S2 & B2 & U2). clear IH.
  destruct S1 as (L1 & T1 & D1).
  rewrite T1 in B2, U2. rewrite L1 in B2. cbn [set_lists unix_time genie_time_event_cb] in B2, U2.
  split; [done|]. split; [by apply (same_but_pool_trans s (fire_node s p))|].
  rewrite B2, U2, U1, !(M l2) by done. cbn [map flat_map List.filter]. rewrite B1. cbn [p_idle].
  split; [|by destruct (due _ (node s p))]. rewrite !app_assoc. f_equal. f_equal.
  pose proof (f_equal p_active B1) as B3. unfold abs in B3 at 1. cbn [p_active] in B3.
  rewrite A1, map_app, (M l2) in B3 by done. by rewrite app_assoc, app_inv_tail_iff in B3.
Qed.

(** ** The step relation *)

(** Initialisation, reset, the hardware timer, the work item, the operations
    messages trigger, and any change the rest of the service makes to its own state. *)
Inductive gtstep : gtstate T → gtstate T → Prop :=
| step_init s : gtstep s (snd (genie_time_init s))
| step_finalize s : gtstep s (snd (genie_time_finalize s))
| step_tick s : hw_timer (genie_time_timer s) = true → gtstep s (timer_update s)
| step_work s : work (genie_time_timer s) = true → gtstep s (genie_time_do_work s)
| step_start idx t a s : is_u8 idx → gtstep s (snd (genie_time_start idx t a s))
| step_periodic_start idx pt sch a s : is_u8 idx → gtstep s (snd (genie_time_periodic_start idx pt sch a s))
| step_remove idx s : -128 <= idx < 128 → gtstep s (snd (genie_time_remove idx s))
| step_timezone tz s : gtstep s (snd (genie_time_timezone_update tz s))
| step_sync p d r s : gtstep s (snd (genie_time_time_sync_set p d r s))
| step_clock u s : gtstep s (snd (genie_time_local_time_update u s))
| step_uplink u s : gtstep s (on_uplink (λ _, u) s).

Definition gt_wf (s : gtstate T) : Prop :=
  if init (genie_time_timer s) then pool_wf s else active s = [] /\ idle s = [].

(** The statics as the loader leaves them. *)
Definition time_boot (u : T) : gtstate T :=
  mkGT (mkData 0 0 (mkSync 0 0 0) (replicate GENIE_TIME_MAX timer0)) (mkTT false false false [] [] 0 0 0 false false)
       utc_zero u.

Lemma init_pool_wf (s : gtstate T) : init (genie_time_timer s) = false → pool_wf (snd (genie_time_init s)).
Proof.
  intros H. unfold genie_time_init. rewrite H. cbn [truthy genie_time_restore Z.eqb negb snd].
  split; [done|]. split; [done|]. split; [constructor|]. split; [|constructor].
  unfold abs. cbn [p_idle]. apply Forall_forall. intros x Hx%list_elem_of_In.
  apply in_map_iff in Hx as (q & <- & Hq). unfold node. cbn [genie_time_data timer_data on_timer on_data].
  apply in_seq in Hq. rewrite nth_lookup, lookup_replicate_2; [done|lia].
Qed.

Lemma start_wf idx t a (s : gtstate T) : gt_wf s → gt_wf (snd (genie_time_start idx t a s)).
Proof.
  unfold gt_wf. intros W. destruct a as [a|]; [|done].
  destruct (init (genie_time_timer s)) eqn:Hi; [|by unfold genie_time_start; rewrite Hi; cbn; rewrite Hi].
  destruct (update (genie_time_timer s)) eqn:Hu; [|by unfold genie_time_start; rewrite Hi, Hu; cbn; rewrite Hi].
  destruct (Z.leb_spec t (unix_time (genie_time_timer s))) as [Ht|Ht].
  { unfold genie_time_start. rewrite Hi, Hu. cbn [negb]. rewrite (proj2 (Z.leb_le _ _)) by done. cbn. by rewrite Hi. }
  pose proof (start_spec idx t a s W Hi Hu Ht) as H. destruct (spec_start idx t a (abs s)).
  - destruct H as (s' & -> & _ & W' & (_ & _ & I & _)). cbn. by rewrite I, Hi.
  - rewrite H. cbn. by rewrite Hi.
Qed.

Lemma periodic_start_wf idx pt sch a (s : gtstate T) : gt_wf s → gt_wf (snd (genie_time_periodic_start idx pt sch a s)).
Proof.
  unfold gt_wf. intros W.
  destruct (init (genie_time_timer s)) eqn:Hi; [|by unfold genie_time_periodic_start; rewrite Hi; cbn; rewrite Hi].
  destruct (update (genie_time_timer s)) eqn:Hu; [|by unfold genie_time_periodic_start; rewrite Hi, Hu; cbn; rewrite Hi].
  destruct (Z.eqb_spec sch 0) as [->|Hn].
  { unfold genie_time_periodic_start. rewrite Hi, Hu. cbn. by rewrite Hi. }
  pose proof (periodic_start_spec idx pt sch a s W Hi Hu Hn) as H. destruct (spec_periodic_start idx pt sch _ a (abs s)).
  - destruct H as (s' & -> & _ & W' & (_ & _ & I & _)). cbn. by rewrite I, Hi.
  - rewrite H. cbn. by rewrite Hi.
Qed.

Lemma stop_out_of_range idx (s : gtstate T) : -128 <= idx < 128 → ~ (0 <= idx < 40) → snd (genie_time_stop idx s) = s.
Proof.
  intros R N. unfold genie_time_stop, genie_time_find.
  destruct (init _), (update _); try done. cbn [negb]. unfold GENIE_TIME_MAX.
  rewrite !Z.geb_leb. destruct (Z.leb_spec (Z.of_nat 40) idx); [done|].
  rewrite (proj2 (Z.leb_le _ _)); [done|]. unfold u8. dlia.
Qed.

Lemma stop_wf idx (s : gtstate T) : -128 <= idx < 128 → gt_wf s → gt_wf (snd (genie_time_stop idx s)).
Proof.
  unfold gt_wf. intros R W. assert (0 <= idx < 40 \/ ~ (0 <= idx < 40)) as [Q|Q] by lia; [|by rewrite stop_out_of_range].
  destruct (init (genie_time_timer s)) eqn:Hi; [|by unfold genie_time_stop; rewrite Hi; cbn; rewrite Hi].
  destruct (update (genie_time_timer s)) eqn:Hu; [|by unfold genie_time_stop; rewrite Hi, Hu; cbn; rewrite Hi].
  pose proof (stop_spec idx s W Hi Hu Q) as H. destruct (spec_stop idx (abs s)).
  - destruct H as (s' & -> & _ & W' & (_ & _ & I & _)). cbn. by rewrite I, Hi.
  - rewrite H. cbn. by rewrite Hi.
Qed.

Lemma stop_all_wf (s : gtstate T) : gt_wf s → gt_wf (stop_all s).
Proof.
  unfold stop_all. assert (forall i, In i (seq 0 GENIE_TIME_MAX) → (i < 40)%nat) as H.
  { intros i Hi. apply in_seq in Hi. unfold GENIE_TIME_MAX in Hi. lia. }
  revert s H. generalize (seq 0 GENIE_TIME_MAX). induction l as [|i l IH]; intros s H W; [done|]. cbn.
  apply IH; [naive_solver|]. apply stop_wf; [|done]. pose proof (H i (or_introl eq_refl)). rewrite s8_small; lia.
Qed.

Lemma sync_set_pool p d r (s : gtstate T) : gt_wf s → gt_wf (snd (genie_time_time_sync_set p d r s)).
Proof. unfold genie_time_time_sync_set. by destruct (_ || _). Qed.

(** The synchronisation request touches neither records nor lists. *)
Lemma sync_check_frame (s : gtstate T) :
  genie_time_data (sync_check s) = genie_time_data s /\ active (sync_check s) = active s
  /\ idle (sync_check s) = idle s /\ init (genie_time_timer (sync_check s)) = init (genie_time_timer s)
  /\ unix_time (genie_time_timer (sync_check s)) = unix_time (genie_time_timer s)
  /\ local_time (sync_check s) = local_time s /\ update (genie_time_timer (sync_check s)) = update (genie_time_timer s)
  /\ genie_time_event_cb (genie_time_timer (sync_check s)) = genie_time_event_cb (genie_time_timer s).
Proof.
  unfold sync_check. destruct (_ && _); [|done].
  destruct (genie_time_event_cb (genie_time_timer s)) eqn:E; [|by cbn; rewrite ?E].
  unfold genie_time_event_callback, genie_time_request_utc_time, send. destruct (ul_send _ _). cbn. by rewrite ?E.
Qed.

Lemma do_work_wf (s : gtstate T) : gt_wf s → gt_wf (genie_time_do_work s).
Proof.
  intros W. unfold gt_wf, genie_time_do_work in *. set (s0 := on_timer (set_work false) s).
  change (active s) with (active s0). change (init (genie_time_timer s)) with (init (genie_time_timer s0)) in W.
  change (pool_wf s) with (pool_wf s0) in W. change (active s) with (active s0) in W. change (idle s) with (idle s0) in W.
  clearbody s0. destruct (sync_check_frame (fold_left fire_node (active s0) s0)) as (D & A & I & J & _).
  rewrite J. destruct (init (genie_time_timer s0)) eqn:Hi.
  - destruct (fire_walk (active s0) [] s0 W eq_refl) as (W' & (_ & S & _) & _).
    rewrite S. cbn [set_lists init]. rewrite Hi. clear S J. unfold pool_wf, abs in *.
    assert (node (sync_check (fold_left fire_node (active s0) s0)) = node (fold_left fire_node (active s0) s0)) as N.
    { unfold node. by rewrite D. }
    by rewrite N, D, A, I.
  - destruct W as [Wa Wi]. rewrite A, I, Wa. cbn. by rewrite Hi.
Qed.

Lemma gtstep_wf s s' : gtstep s s' → gt_wf s → gt_wf s'.
Proof.
  destruct 1; intros W.
  - destruct (init (genie_time_timer s)) eqn:Hi; [by unfold genie_time_init; rewrite Hi|].
    pose proof (init_pool_wf s Hi) as P. unfold gt_wf. unfold genie_time_init in *. rewrite Hi in *. exact P.
  - unfold genie_time_finalize. destruct (init (genie_time_timer s)) eqn:Hi; cbn [negb]; [|done]. done.
  - unfold timer_update. by destruct (update _).
  - by apply do_work_wf.
  - by apply start_wf.
  - by apply periodic_start_wf.
  - unfold genie_time_remove. destruct (Z.eqb_spec idx 255); [by apply stop_all_wf|by apply stop_wf].
  - unfold genie_time_timezone_update. destruct (_ || _); [done|]. by destruct (init _).
  - by apply sync_set_pool.
  - unfold genie_time_local_time_update. destruct (init _) eqn:Hi; [|done]. cbn [negb]. apply sync_set_pool.
    unfold gt_wf in *. cbn. by rewrite Hi in *.
  - done.
Qed.

(** ** Seconds *)

(** One second of normal running: the tick, then the work item it queued. *)
Definition second (s : gtstate T) : gtstate T := genie_time_do_work (timer_update s).
Definition seconds_run (n : nat) (s : gtstate T) : gtstate T := Nat.iter n second s.

(** The timers the work item notifies in the [n]-th second from now. *)
Definition fired_in (n : nat) (s : gtstate T) : list genie_time_t :=
  match n with
  | O => []
  | S n => List.filter (due (u32 (unix_time (genie_time_timer (seconds_run n s)) + 1))) (p_active (abs (seconds_run n s)))
  end.

(** A running timer service: initialised, clock set, callback installed. *)
Definition running (s : gtstate T) : Prop :=
  pool_wf s /\ init (genie_time_timer s) = true /\ update (genie_time_timer s) = true
  /\ genie_time_event_cb (genie_time_timer s) = true.

(** The request [sync_check] sends when the synchronisation time has come. *)
Definition sync_due (s : gtstate T) : bool :=
  truthy (unix_time_sync_match (genie_time_timer s))
  && (unix_time_sync_match (genie_time_timer s) <=? unix_time (genie_time_timer s)).
Definition request_time (u : T) : T := snd (ul_send (payload_param 0 VENDOR_OP_ATTR_INDICATE_TG 0 (le16 UNIX_TIME_T) 2 1) u).

Lemma sync_check_uplink (s : gtstate T) : genie_time_event_cb (genie_time_timer s) = true →
  uplink (sync_check s) = if sync_due s then request_time (uplink s) else uplink s.
Proof.
  intros E. unfold sync_check, sync_due. destruct (_ && _); [|done]. rewrite E.
  unfold genie_time_event_callback, genie_time_request_utc_time, send, request_time.
  by destruct (ul_send _ (uplink s)).
Qed.

Lemma do_work_spec (s : gtstate T) : running s →
  let now := unix_time (genie_time_timer s) in
  running (genie_time_do_work s)
  /\ abs (genie_time_do_work s) = spec_fire now (weekday (local_time s)) (abs s)
  /\ uplink (genie_time_do_work s)
     = (let u := fold_left (λ u x, notify x u) (List.filter (due now) (p_active (abs s))) (uplink s) in
        if sync_due s then request_time u else u)
  /\ unix_time (genie_time_timer (genie_time_do_work s)) = now
  /\ local_time (genie_time_do_work s) = local_time s.
Proof.
  intros (W & Hi & Hu & Hc). cbn zeta. unfold genie_time_do_work.
  set (s0 := on_timer (set_work false) s). change (active s) with (active s0).
  destruct (fire_walk (active s0) [] s0 W eq_refl) as (W1 & (L1 & S1 & D1) & A1 & U1).
  set (s1 := fold_left fire_node (active s0) s0) in *.
  destruct (sync_check_frame s1) as (D & A & I & J & N & L & P & C).
  assert (abs (sync_check s1) = abs s1) as B.
  { unfold abs. rewrite A, I. assert (node (sync_check s1) = node s1) as -> by (unfold node; by rewrite D). done. }
  split; [|split; [|split; [|split]]].
  - unfold running. rewrite J, P, C, S1. split; [|done]. unfold pool_wf in *. by rewrite B, A, I, D.
  - by rewrite B, A1.
  - rewrite sync_check_uplink by (by rewrite S1). unfold sync_due. rewrite S1, U1.
    cbn [set_lists unix_time unix_time_sync_match s0 on_timer genie_time_timer set_work genie_time_event_cb].
    rewrite Hc. done.
  - by rewrite N, S1.
  - by rewrite L, L1.
Qed.

Lemma second_spec (s : gtstate T) : running s →
  let now := u32 (unix_time (genie_time_timer s) + 1) in
  running (second s) /\ unix_time (genie_time_timer (second s)) = now
  /\ local_time (second s) = seconds_update (local_time s)
  /\ abs (second s) = spec_fire now (weekday (seconds_update (local_time s))) (abs s).
Proof.
  intros (W & Hi & Hu & Hc). unfold second, timer_update. rewrite Hu. cbn [negb].
  set (s0 := on_timer (set_work true) _). assert (running s0) as R by done.
  destruct (do_work_spec s0 R) as (R' & A & _ & N & L). done.
Qed.

Lemma seconds_spec n (s : gtstate T) : running s → 0 <= unix_time (genie_time_timer s) →
  unix_time (genie_time_timer s) + Z.of_nat n < 4294967296 →
  running (seconds_run n s) /\ unix_time (genie_time_timer (seconds_run n s)) = unix_time (genie_time_timer s) + Z.of_nat n.
Proof.
  intros R H0. induction n as [|n IH]; intros Hn; [split; [done|simpl; lia]|].
  destruct IH as [R1 N1]; [lia|]. destruct (second_spec _ R1) as (R2 & N2 & _). split; [done|].
  change (seconds_run (S n) s) with (second (seconds_run n s)). rewrite N2, N1, u32_small; lia.
Qed.

Lemma due_eq now x : state x = TIMER_ON → due now x = (unixtime_match x =? now).
Proof. intros E. unfold due, is_genie_time_timeout. rewrite E. by rewrite decide_False. Qed.

Lemma active_on (s : gtstate T) x : running s → In x (p_active (abs s)) → state x = TIMER_ON.
Proof. intros ((_ & _ & A & _) & _) H. rewrite Forall_forall in A. by apply A, list_elem_of_In. Qed.

(** A second keeps a timer that is not due. *)
Lemma second_keeps (s : gtstate T) x : running s → In x (p_active (abs s)) →
  unixtime_match x ≠ u32 (unix_time (genie_time_timer s) + 1) → In x (p_active (abs (second s))).
Proof.
  intros R H N. destruct (second_spec s R) as (_ & _ & _ & ->). cbn [spec_fire p_active].
  apply in_flat_map. exists x. split; [done|]. unfold keep_rec.
  rewrite due_eq by (by eapply active_on). by rewrite (proj2 (Z.eqb_neq _ _) N); left.
Qed.

(** A one-shot timer in the list after a second was there, and not due. *)
Lemma second_one_shot (s : gtstate T) x : running s → periodic x = false → In x (p_active (abs (second s))) →
  In x (p_active (abs s)) /\ unixtime_match x ≠ u32 (unix_time (genie_time_timer s) + 1).
Proof.
  intros R P. destruct (second_spec s R) as (_ & _ & _ & ->). cbn [spec_fire p_active].
  intros H. apply in_flat_map in H as (y & Hy & H). unfold keep_rec in H.
  rewrite due_eq in H by (by eapply active_on). destruct (Z.eqb_spec (unixtime_match y) (u32 (unix_time (genie_time_timer s) + 1))).
  - destruct (periodic y) eqn:Py; [|done]. destruct H as [<-|[]]. cbn in P. congruence.
  - destruct H as [<-|[]]. done.
Qed.

Lemma seconds_keep n (s : gtstate T) x : running s → 0 <= unix_time (genie_time_timer s) →
  unix_time (genie_time_timer s) + Z.of_nat n < 4294967296 → In x (p_active (abs s)) →
  (forall m, (1 <= m <= n)%nat → unixtime_match x ≠ unix_time (genie_time_timer s) + Z.of_nat m) →
  In x (p_active (abs (seconds_run n s))).
Proof.
  intros R H0. induction n as [|n IH]; intros Hn Hx N; [done|].
  destruct (seconds_spec n s R H0 ltac:(lia)) as [R1 N1].
  change (seconds_run (S n) s) with (second (seconds_run n s)). apply second_keeps; [done| |].
  - apply IH; [lia|done|]. intros m Hm. apply N. lia.
  - rewrite N1, u32_small by lia. replace (_ + _ + 1) with (unix_time (genie_time_timer s) + Z.of_nat (S n)) by lia.
    apply N. lia.
Qed.

Lemma fired_in_spec n (s : gtstate T) x : running s → 0 <= unix_time (genie_time_timer s) →
  unix_time (genie_time_timer s) + Z.of_nat (S n) < 4294967296 →
  In x (fired_in (S n) s) ↔ In x (p_active (abs (seconds_run n s)))
                            /\ unixtime_match x = unix_time (genie_time_timer s) + Z.of_nat (S n).
Proof.
  intros R H0 Hn. destruct (seconds_spec n s R H0 ltac:(lia)) as [R1 N1].
  cbn [fired_in]. rewrite filter_In, N1, u32_small by lia.
  split; intros [H1 H2]; (split; [done|]); rewrite due_eq in * by (by eapply active_on); lia.
Qed.

(** A one-shot timer fires exactly once, in the second it was set for:
    running from a state where it is active with match time [k] seconds ahead, it
    stays in the active list for [k - 1] seconds, the work item notifies it in the
    [k]-th second and in no other, and it is then in the active list no more. *)
Theorem one_shot_fires_once x k n (s : gtstate T) : running s → In x (p_active (abs s)) →
  periodic x = false → 0 <= unix_time (genie_time_timer s) → (0 < k)%nat →
  unixtime_match x = unix_time (genie_time_timer s) + Z.of_nat k →
  unix_time (genie_time_timer s) + Z.of_nat n < 4294967296 →
  (In x (p_active (abs (seconds_run n s))) ↔ (n < k)%nat) /\ (In x (fired_in n s) ↔ n = k).
Proof.
  intros R Hx P H0 Hk M Hn.
  assert (forall n, unix_time (genie_time_timer s) + Z.of_nat n < 4294967296 →
            In x (p_active (abs (seconds_run n s))) ↔ (n < k)%nat) as A.
  { clear n Hn. induction n as [|n IH]; intros Hn; [split; [lia|done]|].
    destruct (seconds_spec n s R H0 ltac:(lia)) as [R1 N1].
    change (seconds_run (S n) s) with (second (seconds_run n s)). split.
    - intros H. apply second_one_shot in H as [H1 H2]; [|done..]. apply IH in H1; [|lia].
      rewrite N1, u32_small in H2 by lia. lia.
    - intros H. apply second_keeps; [done|apply IH; lia|]. rewrite N1, u32_small; lia. }
  split; [by apply A|]. destruct n as [|n]; [cbn; split; [done|lia]|].
  rewrite fired_in_spec by done. rewrite A by lia. lia.
Qed.

(** In every state the timer service can reach (initialisation, reset, ticks,
    work items, the operations of messages, and arbitrary changes of the rest of
    the service in between), an initialised pool has each of its forty records in
    exactly one of the two lists, the active ones on and the idle ones invalid,
    and no two active timers share an index below forty; an uninitialised pool
    has empty lists. *)
Theorem timer_pool_invariant u s : rtc gtstep (time_boot u) s → gt_wf s.
Proof.
  assert (gt_wf (time_boot u)) as W by done. revert W. generalize (time_boot u).
  intros s0 W H. induction H; eauto using gtstep_wf.
Qed.

(** [genie_time_start] refines the pool of records: every branch is
    decided by the clock and the abstract pool.  Without a set clock or for a time
    not in the future it fails and changes nothing; with no record left it answers
    [-GT_E_NORESOURCE] and changes nothing; otherwise the new timer is appended to
    the active list in place of the old one of its index, or of the first idle
    record, and the pool invariant and the clock are kept. *)
Theorem timer_start_refines idx t a (s : gtstate T) : pool_wf s → init (genie_time_timer s) = true →
  if negb (update (genie_time_timer s)) then genie_time_start idx t (Some a) s = (- GT_E_LOCALTIME_NOTSET, s)
  else if t <=? unix_time (genie_time_timer s) then genie_time_start idx t (Some a) s = (- GT_E_PARAM, s)
  else match spec_start idx t a (abs s) with
       | None => genie_time_start idx t (Some a) s = (- GT_E_NORESOURCE, s)
       | Some p => exists s', genie_time_start idx t (Some a) s = (0, s')
                   /\ abs s' = p /\ pool_wf s' /\ same_clock s s'
       end.
Proof.
  intros W Hi. destruct (update (genie_time_timer s)) eqn:Hu; cbn [negb].
  2: { unfold genie_time_start. by rewrite Hi, Hu. }
  destruct (Z.leb_spec t (unix_time (genie_time_timer s))) as [Ht|Ht].
  { unfold genie_time_start. rewrite Hi, Hu. cbn [negb]. by rewrite (proj2 (Z.leb_le _ _)) by done. }
  pose proof (start_spec idx t a s W Hi Hu Ht) as H. by destruct (spec_start idx t a (abs s)).
Qed.

(** [C35] [genie_time_do_work] refines one pass over the pool of records: due
    one-shot timers move to the idle list, due periodic ones move to their next
    day, the others stay as they are and in order; the rest of the service sees
    exactly the notifications of the due timers, in list order, and then the time
    request if the synchronisation time has come. *)
Theorem timer_fire_refines (s : gtstate T) : running s →
  let now := unix_time (genie_time_timer s) in
  running (genie_time_do_work s)
  /\ abs (genie_time_do_work s) = spec_fire now (weekday (local_time s)) (abs s)
  /\ uplink (genie_time_do_work s)
     = (let u := fold_left (λ u x, notify x u) (List.filter (due now) (p_active (abs s))) (uplink s) in
        if sync_due s then request_time u else u).
Proof. intros R. destruct (do_work_spec s R) as (? & ? & ? & _). done. Qed.

(** A due periodic timer is moved to the next scheduled day: by [d] days, 1 to
    7, where the weekday [d] days from today is in the schedule and no day between
    is. *)
Theorem periodic_reschedule x (s : gtstate T) : running s → In x (p_active (abs s)) →
  due (unix_time (genie_time_timer s)) x = true → periodic x = true → 0 < schedule x < 128 →
  0 <= weekday (local_time s) < 7 → 0 <= unixtime_match x → unixtime_match x + 7 * DAY < 4294967296 →
  exists y d, In y (p_active (abs (genie_time_do_work s)))
    /\ index y = index x /\ periodic y = true /\ schedule y = schedule x /\ attr_data y = attr_data x
    /\ unixtime_match y = unixtime_match x + d * DAY /\ 1 <= d <= 7
    /\ is_weekday_match ((weekday (local_time s) + d) mod 7) (schedule x) = true
    /\ (forall k, 1 <= k < d → is_weekday_match ((weekday (local_time s) + k) mod 7) (schedule x) = false).
Proof.
  intros R Hx D P Hs Hw H0 HM. destruct (do_work_spec s R) as (_ & A & _). cbn zeta in A.
  set (w := weekday (local_time s)) in *.
  assert (next_weekday w = (w + 1) mod 7) as NW by (unfold next_weekday; apply u8_small; dlia).
  destruct (weekday_diff_least ((w + 1) mod 7) (schedule x)) as (L1 & _ & L2); [dlia|lia|].
  destruct (L2 ltac:(lia)) as [Hd Hm]. set (d := next_weekday_diff_get ((w + 1) mod 7) (schedule x)) in *.
  assert (forall k, ((w + 1) mod 7 + k) mod 7 = (w + (1 + k)) mod 7) as EQ by (intros; dlia).
  exists (rescheduled w x), (1 + d). split.
  { rewrite A. cbn [spec_fire p_active]. apply in_flat_map. exists x. split; [done|].
    unfold keep_rec. rewrite D, P. by left. }
  cbn [rescheduled index periodic schedule attr_data unixtime_match]. rewrite NW. fold d.
  repeat split; try done; try lia.
  - rewrite u32_small by (unfold DAY, HOUR, MINU in *; lia). done.
  - by rewrite <- EQ.
  - intros k Hk. replace k with (1 + (k - 1)) by lia. rewrite <- EQ. apply L1. lia.
Qed.

(** A one-shot timer started on a record that held a periodic timer stays
    periodic: [genie_time_start] writes neither [periodic] nor [schedule], and
    neither do [genie_time_stop] and the retiring of a timer.  When its time comes
    it is not retired but moved to a day of the old schedule. *)
Theorem one_shot_inherits_periodic idx t a x p (s : gtstate T) : pool_wf s →
  init (genie_time_timer s) = true → update (genie_time_timer s) = true → unix_time (genie_time_timer s) < t →
  spec_acquire idx (abs s) = Some (x, p) → periodic x = true →
  exists s' y, genie_time_start idx t (Some a) s = (0, s') /\ In y (p_active (abs s'))
    /\ index y = idx /\ unixtime_match y = t
    /\ forall wd, In (rescheduled wd y) (p_active (spec_fire t wd (abs s'))).
Proof.
  intros W Hi Hu Ht A P. pose proof (start_spec idx t a s W Hi Hu Ht) as H. unfold spec_start in H. rewrite A in H.
  destruct H as (s' & E & B & _). set (y := mkTimer idx _ _ _ _ _ _) in B. exists s', y.
  assert (In y (p_active (abs s'))) as Hy by (rewrite B; cbn; apply in_or_app; right; by left).
  repeat split; try done. intros wd. cbn [spec_fire p_active]. apply in_flat_map. exists y. split; [done|].
  unfold keep_rec. rewrite due_eq by done. cbn [unixtime_match y periodic]. rewrite Z.eqb_refl, P. by left.
Qed.

(** ** The first firing of a periodic timer *)

(** Local seconds since the epoch, and the clock as [genie_time_local_time_update] sets it. *)
Definition local_seconds (s : gtstate T) : Z := unix_time (genie_time_timer s) + timezone (genie_time_data s) * HOUR.
Definition clock_coherent (s : gtstate T) : Prop :=
  local_time s = unix2UTC (local_seconds s) /\ -12 <= timezone (genie_time_data s) <= 12
  /\ DAY <= unix_time (genie_time_timer s) /\ local_seconds s < 4133980800 - 8 * DAY.

(** Midnight of a day [k] days ahead, from broken-down time. *)
Lemma UTC2unix_midnight L k : 0 <= L < 4133980800 → 0 <= k <= 7 →
  let u := unix2UTC L in
  UTC2unix (mkUtc (year u) (month u) (u8 (day u + k)) 0 0 0 (weekday u)) = L - L mod DAY + k * DAY.
Proof.
  intros HL Hk u. destruct (unix2UTC_day L) as (V & _ & E); [unfold UNIX2UTC_END, DAY, HOUR, MINU; lia|].
  fold u in V, E. pose proof V as (Hy & Hm & Hd & Hh & Hmi & Hs).
  pose proof (month_len_bounds (is_leap_year (year u)) (Z.to_nat (month u)) ltac:(lia)) as ML.
  pose proof (day_of_year_bound u V) as B.
  assert (year u <= 2100) as Y.
  { destruct (Z.le_gt_cases (year u) 2100) as [|G]; [done|]. exfalso.
    assert (days_of_years 131 <= days_of_years (Z.to_nat (year u - 1970))) as Q.
    { destruct (decide (Z.to_nat (year u - 1970) = 131%nat)) as [->|]; [done|].
      pose proof (days_of_years_mono 131 (Z.to_nat (year u - 1970)) ltac:(lia)).
      pose proof (year_len_bounds (1970 + Z.of_nat 131)). lia. }
    replace (days_of_years 131) with 47847 in Q by (vm_compute; reflexivity).
    unfold civil_seconds, civil_day in E. lia. }
  rewrite u8_small by lia.
  rewrite UTC2unix_civil_gen by (cbn [year month day hour minutes seconds]; lia).
  unfold civil_seconds, civil_day in *. cbn [year month day hour minutes seconds].
  unfold DAY, HOUR, MINU. dlia.
Qed.

Lemma first_match_value pt sch (s : gtstate T) : clock_coherent s → 0 <= pt < DAY → 0 < sch < 128 →
  first_match pt sch s
  = local_seconds s - local_seconds s mod DAY + next_weekday_diff_get (weekday (local_time s)) sch * DAY
    + pt - timezone (genie_time_data s) * HOUR.
Proof.
  intros (EL & Htz & Hnow & HL) Hp Hs. unfold first_match. set (L := local_seconds s) in *.
  assert (0 <= L) as L0 by (unfold L, local_seconds, DAY, HOUR, MINU in *; lia).
  assert (0 <= weekday (local_time s) < 7) as W.
  { rewrite EL. destruct (unix2UTC_day L) as (_ & -> & _); [unfold UNIX2UTC_END, DAY, HOUR, MINU in *; lia|dlia]. }
  destruct (weekday_diff_least _ sch W ltac:(lia)) as (_ & _ & H). destruct (H ltac:(lia)) as [Hd _].
  set (d := next_weekday_diff_get (weekday (local_time s)) sch) in *. rewrite EL. 
  rewrite (UTC2unix_midnight L d) by (unfold DAY, HOUR, MINU in *; lia).
  apply u32_small. unfold L, local_seconds, DAY, HOUR, MINU in *. dlia.
Qed.

Lemma coherent_weekday (s : gtstate T) : clock_coherent s →
  weekday (local_time s) = (local_seconds s / DAY + 4) mod 7.
Proof.
  intros (EL & Htz & Hnow & HL). rewrite EL.
  assert (0 <= local_seconds s < UNIX2UTC_END) as R.
  { unfold UNIX2UTC_END, local_seconds, DAY, HOUR, MINU in *. lia. }
  destruct (unix2UTC_day _ R) as (V & -> & E). f_equal. f_equal. destruct V as (_ & _ & _ & Hh & Hmi & Hs).
  rewrite <- E at 2. unfold civil_seconds, DAY, HOUR, MINU. dlia.
Qed.

(** The first match time of a periodic timer: with a coherent clock it is an
    instant whose local weekday is in the schedule and whose local time of day is
    the requested one, and no such instant lies between now and it.  When today is
    scheduled and the time of day has passed, though, it is not after now. *)
Theorem periodic_first_match pt sch (s : gtstate T) : clock_coherent s → 0 <= pt < DAY → 0 < sch < 128 →
  let tz := timezone (genie_time_data s) * HOUR in
  let now := unix_time (genie_time_timer s) in
  let m := first_match pt sch s in
  let scheduled t := is_weekday_match (((t + tz) / DAY + 4) mod 7) sch = true /\ (t + tz) mod DAY = pt in
  scheduled m /\ (forall t, now < t < m → ~ scheduled t)
  /\ (is_weekday_match (weekday (local_time s)) sch = true → pt <= (now + tz) mod DAY → m <= now)
  /\ (~ (is_weekday_match (weekday (local_time s)) sch = true /\ pt <= (now + tz) mod DAY) → now < m).
Proof.
  intros C Hp Hs tz now m scheduled. pose proof (coherent_weekday s C) as W.
  pose proof (first_match_value pt sch s C Hp Hs) as M. fold m in M. fold tz in M.
  change (local_seconds s) with (now + tz) in *. set (L := now + tz) in *.
  destruct (weekday_diff_least (weekday (local_time s)) sch ltac:(dlia) ltac:(lia)) as (L1 & _ & L2).
  destruct (L2 ltac:(lia)) as [Hd Hm]. set (d := next_weekday_diff_get (weekday (local_time s)) sch) in *.
  assert (m + tz = (L / DAY + d) * DAY + pt) as E by (rewrite M; unfold DAY, HOUR, MINU in *; dlia).
  assert ((m + tz) / DAY = L / DAY + d /\ (m + tz) mod DAY = pt) as [E1 E2].
  { rewrite E. unfold DAY, HOUR, MINU in *. split; dlia. }
  clearbody d m. repeat split.
  - rewrite E1. rewrite W in Hm. replace ((L / DAY + d + 4) mod 7) with (((L / DAY + 4) mod 7 + d) mod 7) by dlia. done.
  - done.
  - intros t Ht [S1 S2]. set (k := (t + tz) / DAY - L / DAY).
    assert (0 <= k < d) as Hk. { unfold k, L, DAY, HOUR, MINU in *. clearbody tz now. clear -S2 Ht E Hp. dlia. }
    pose proof (L1 k Hk) as F. rewrite W in F.
    replace (((L / DAY + 4) mod 7 + k) mod 7) with (((t + tz) / DAY + 4) mod 7) in F by (unfold k; dlia). congruence.
  - intros A B. assert (d = 0) as ->.
    { destruct (Z.eq_dec d 0); [done|]. pose proof (L1 0 ltac:(lia)) as F. rewrite Z.add_0_r, Z.mod_small in F by dlia. congruence. }
    unfold L in *. unfold DAY, HOUR, MINU in *. dlia.
  - intros N. assert (now < m \/ m <= now) as [|G] by lia; [done|]. exfalso. apply N.
    assert (d = 0) as Ed. { unfold L, DAY, HOUR, MINU in *. dlia. }
    rewrite Ed in *. rewrite Z.add_0_r, Z.mod_small in Hm by dlia. split; [done|].
    unfold L, DAY, HOUR, MINU in *. dlia.
Qed.

(** A periodic timer set for today at a time of day that has passed is
    accepted and stays in the active list, but never fires: the work item compares
    the match time for equality and the match time lies in the past. *)
Theorem periodic_past_lost idx pt sch a n (s s' : gtstate T) : running s → clock_coherent s →
  0 <= pt < DAY → 0 < sch < 128 → is_weekday_match (weekday (local_time s)) sch = true →
  pt <= local_seconds s mod DAY → genie_time_periodic_start idx pt sch a s = (0, s') →
  unix_time (genie_time_timer s) + Z.of_nat n < 4294967296 →
  exists x, In x (p_active (abs (seconds_run n s'))) /\ index x = idx /\ attr_data x = a
    /\ forall m, (m <= n)%nat → ~ In x (fired_in m s').
Proof.
  intros (W & Hi & Hu & Hc) C Hp Hs Hd Ht E Hn.
  assert (first_match pt sch s <= unix_time (genie_time_timer s)) as Past.
  { pose proof (coherent_weekday s C) as Wk.
    destruct (weekday_diff_least (weekday (local_time s)) sch ltac:(dlia) ltac:(lia)) as (L1 & _ & _).
    rewrite (first_match_value pt sch s C Hp Hs).
    assert (next_weekday_diff_get (weekday (local_time s)) sch <= 0) as D0.
    { apply Z.le_ngt. intros G. specialize (L1 0 ltac:(lia)). rewrite Z.add_0_r, Z.mod_small in L1 by dlia. congruence. }
    unfold local_seconds, DAY, HOUR, MINU in *. dlia. }
  destruct C as (_ & _ & H0 & _).
  assert (0 <= unix_time (genie_time_timer s)) as N0 by (unfold DAY, HOUR, MINU in H0; lia).
  pose proof (periodic_start_spec idx pt sch a s W Hi Hu ltac:(lia)) as P. unfold spec_periodic_start in P.
  destruct (spec_acquire idx (abs s)) as [[y b]|]; [|by rewrite E in P].
  destruct P as (s1 & E1 & A & W1 & (_ & _ & I1 & U1 & T1)). rewrite E in E1. injection E1 as <-.
  assert (genie_time_event_cb (genie_time_timer s') = true) as C1.
  { revert E. unfold genie_time_periodic_start. rewrite Hi, Hu. cbn [negb]. rewrite (proj2 (Z.eqb_neq _ _)) by lia.
    destruct (timer_acquire idx s) as [[p|] s2] eqn:Q; [|done]. intros [= <-]. cbn.
    revert Q. unfold timer_acquire, genie_time_new. destruct (genie_time_find idx s); [by intros [= <- <-]|].
    destruct (idle s); by intros [= <- <-]. }
  assert (running s') as R' by (repeat split; [apply W1..|congruence|congruence|done]).
  exists (mkTimer idx TIMER_ON true pt sch (first_match pt sch s) a).
  assert (forall m, (m <= n)%nat → In (mkTimer idx TIMER_ON true pt sch (first_match pt sch s) a) (p_active (abs (seconds_run m s')))) as K.
  { intros m Hm. apply seconds_keep; [done|lia|lia| |].
    - rewrite A. cbn [p_active]. apply in_or_app. right. by left.
    - intros j Hj. cbn [unixtime_match]. lia. }
  split; [by apply K|]. split; [done|]. split; [done|]. intros m Hm. destruct m as [|m]; [by intros []|].
  rewrite fired_in_spec by (try done; lia). cbn [unixtime_match]. lia.
Qed.

End time_pool.

(** ** Concrete runs *)

(** An uplink that logs what it is asked: messages and timeout events. *)
Definition uplog : Type := list (genie_transport_payload_param_t + vendor_attr_data_t).
#[export] Instance uplog_uplink : TimeUplink uplog :=
  { ul_send := λ p l, (0, l ++ [inl p]); ul_timeout_event := λ a l, l ++ [inr a]; ul_elem_find_id := λ _ _, 0 }.

(** Saturday 2021-02-27 12:00 UTC, a one-shot timer in two seconds. *)
Definition run0 : gtstate uplog := snd (genie_time_local_time_update 1614427200 (snd (genie_time_init (time_boot [])))).
Definition run1 : gtstate uplog := snd (genie_time_start 3 1614427202 (Some (mkAttr 256 1)) run0).
Definition x1 : genie_time_t := mkTimer 3 TIMER_ON false 0 0 1614427202 (mkAttr 256 1).

Lemma run0_reachable : rtc gtstep (time_boot []) run0.
Proof.
  eapply rtc_l; [apply step_init|]. eapply rtc_l; [apply (step_clock 1614427200)|]. apply rtc_refl.
Qed.

Lemma run1_reachable : rtc gtstep (time_boot []) run1.
Proof.
  etrans; [apply run0_reachable|]. apply rtc_once. unfold run1.
  apply (step_start 3 1614427202). lia.
Qed.

Lemma gt_wf_reachable u s : rtc (@gtstep uplog _) (time_boot u) s → gt_wf s.
Proof.
  assert (gt_wf (time_boot u)) as W by done. revert W. generalize (time_boot u).
  intros s0 W H. induction H; eauto using gtstep_wf.
Qed.

Lemma run0_running : running run0.
Proof. split; [exact (gt_wf_reachable _ _ run0_reachable)|by vm_compute]. Qed.
Lemma run1_running : running run1.
Proof. split; [exact (gt_wf_reachable _ _ run1_reachable)|by vm_compute]. Qed.

Lemma timer_pool_invariant_witness : gt_wf run1.
Proof. apply (timer_pool_invariant []). apply run1_reachable. Defined.

Lemma timer_start_refines_witness :
  exists s', genie_time_start 3 1614427202 (Some (mkAttr 256 1)) run0 = (0, s')
    /\ p_active (abs s') = [x1] /\ pool_wf s'.
Proof.
  destruct (timer_start_refines 3 1614427202 (mkAttr 256 1) run0 (proj1 run0_running) eq_refl) as (s' & H & A & W & _).
  exists s'. split; [exact H|]. split; [rewrite A; reflexivity|exact W].
Defined.

Lemma one_shot_fires_once_witness :
  In x1 (fired_in 2 run1) /\ ~ In x1 (p_active (abs (seconds_run 5 run1))).
Proof.
  assert (In x1 (p_active (abs run1))) as H by (vm_compute; by left).
  split.
  - apply (one_shot_fires_once x1 2 2 run1 run1_running H eq_refl); [vm_compute; discriminate|lia|reflexivity|reflexivity|reflexivity].
  - rewrite (proj1 (one_shot_fires_once x1 2 5 run1 run1_running H eq_refl ltac:(vm_compute; discriminate)
                      ltac:(lia) eq_refl ltac:(reflexivity))). lia.
Defined.

Lemma timer_fire_refines_witness :
  let s := timer_update (second run1) in
  p_active (abs (genie_time_do_work s)) = []
  /\ uplink (genie_time_do_work s)
     = [inr (mkAttr 256 1); inl (payload_param 0 VENDOR_OP_ATTR_INDICATE 0 [9; 240; 17; 3] 4 45)].
Proof.
  intros s. assert (running s) as R.
  { destruct (second_spec run1 run1_running) as [R _]. unfold s, timer_update.
    destruct (update (genie_time_timer (second run1))); exact R. }
  destruct (timer_fire_refines s R) as (_ & A & U). rewrite A, U. split; vm_compute; reflexivity.
Defined.

(** A periodic timer for Mondays and Saturdays at 20:00:01 local time, one second ahead. *)
Definition run2 : gtstate uplog := snd (genie_time_periodic_start 4 72001 33 (mkAttr 256 0) run0).
Definition x2 : genie_time_t := mkTimer 4 TIMER_ON true 72001 33 1614427201 (mkAttr 256 0).

Lemma run2_running : running run2.
Proof.
  assert (rtc gtstep (time_boot []) run2) as R.
  { etrans; [apply run0_reachable|]. apply rtc_once. apply (step_periodic_start 4). lia. }
  split; [exact (gt_wf_reachable _ _ R)|by vm_compute].
Qed.

Lemma periodic_reschedule_witness :
  exists y d, In y (p_active (abs (genie_time_do_work (timer_update run2))))
    /\ unixtime_match y = 1614427201 + d * DAY
    /\ is_weekday_match ((6 + d) mod 7) 33 = true /\ 1 <= d <= 7.
Proof.
  assert (running (timer_update run2)) as R.
  { unfold timer_update. destruct (update (genie_time_timer run2)); exact run2_running. }
  destruct (periodic_reschedule x2 (timer_update run2) R) as (y & d & H & _ & _ & _ & _ & M & Hd & W & _).
  1-7: vm_compute; try (split; discriminate); try (split; reflexivity); try reflexivity; try discriminate; auto.
  1: split; [discriminate|reflexivity]. 
  exists y, d. split; [exact H|]. split; [exact M|]. split; [exact W|exact Hd].
Defined.

Lemma run0_coherent : clock_coherent run0.
Proof. split; [vm_compute; reflexivity|]. vm_compute. repeat split; (discriminate || reflexivity). Qed.

Lemma periodic_first_match_witness : first_match 72001 33 run0 = 1614427201 /\ 1614427200 < first_match 72001 33 run0.
Proof.
  split; [vm_compute; reflexivity|].
  apply (periodic_first_match 72001 33 run0 run0_coherent); [vm_compute; split; congruence|lia|].
  vm_compute. intros [_ H]. by apply H.
Defined.

Lemma periodic_past_lost_witness :
  let s' := snd (genie_time_periodic_start 4 3600 32 (mkAttr 256 1) run0) in
  exists x, In x (p_active (abs (seconds_run 100 s'))) /\ index x = 4
    /\ forall m, (m <= 100)%nat → ~ In x (fired_in m s').
Proof.
  intros s'. destruct (periodic_past_lost 4 3600 32 (mkAttr 256 1) 100 run0 s' run0_running run0_coherent)
    as (x & H & I & _ & F).
  1-6: try reflexivity; try (vm_compute; congruence); (vm_compute; split; congruence).
  exists x. split; [exact H|]. split; [exact I|exact F].
Defined.

(** Stop the periodic timer until its record heads the idle list again, then start a one-shot one. *)
Definition run3 : gtstate uplog :=
  Nat.iter 39 (λ s, snd (genie_time_stop 5 (snd (genie_time_start 5 1614427900 (Some (mkAttr 256 1)) s))))
    (snd (genie_time_stop 4 run2)).

Lemma one_shot_inherits_periodic_witness :
  exists s' y, genie_time_start 5 1614428000 (Some (mkAttr 256 1)) run3 = (0, s') /\ In y (p_active (abs s'))
    /\ forall wd, In (rescheduled wd y) (p_active (spec_fire 1614428000 wd (abs s'))).
Proof.
  assert (gt_wf run3) as W.
  { unfold run3. assert (gt_wf (snd (genie_time_stop 4 run2))) as W0.
    { apply stop_wf; [lia|]. exact (proj1 run2_running). }
    revert W0. generalize (snd (genie_time_stop 4 run2)). intros s W0.
    apply Nat.iter_invariant; [|done]. intros z Wz. apply stop_wf; [lia|]. by apply start_wf. }
  assert (init (genie_time_timer run3) = true) as Hi by (vm_compute; reflexivity).
  unfold gt_wf in W. rewrite Hi in W.
  destruct (one_shot_inherits_periodic 5 1614428000 (mkAttr 256 1)
              (mkTimer 255 TIMER_INVAILD true 72001 33 0 (mkAttr 256 0))
              (mkPool [] (tail (p_idle (abs run3)))) run3 W Hi) as (s' & y & E & Hy & _ & _ & F).
  1-4: vm_compute; reflexivity.
  exists s', y. split; [exact E|]. split; [exact Hy|exact F].
Defined.
