(* ===== verification/TimeMsg.v ===== *)
(** * TimeMsg: the vendor messages of genie_time.c

    The parsers of the timing attributes and the status messages they answer.
    [None] is a read beyond the message buffer; the loops recurse on a fuel that
    bounds their iterations, and running out of it is [None] too. *)
From Stdlib Require Import ZArith Lia List Bool.
From stdpp Require Import base list numbers option relations.
From S2P Require Import Prelude Env Transport Calendar GenieTime TimePool.
Local Open Scope Z_scope.

(** genie_vendor_model.h *)
Definition ERR_CODE_UNIXTIME : Z := 128.
Definition ERR_CODE_NOTSUP_ATTR_OP : Z := 130.
Definition ERR_CODE_NOTSUP_ATTR_PARAM : Z := 131.
Definition ERR_CODE_TIMER_SETTING : Z := 132.
Definition ERR_CODE_TIMER_INDEX : Z := 133.
Definition ERR_CODE_TIMER_FULL : Z := 134.
Definition ERR_CODE_TIMER_PRIORDIC_PARAM : Z := 135.
Definition ERROR_CODE_T : Z := 0.
Definition TIMING_SETTING_T : Z := 61456.
Definition TIMING_PERIODIC_SETTING_T : Z := 61457.
Definition TIMING_DELETE_T : Z := 61458.
Definition TIMING_SYNC_T : Z := 61469.
Definition TIMEZONE_SETTING_T : Z := 61470.
Definition ATTR_TYPE_GENERIC_ONOFF : Z := 256.

Section time_msg.
Context {T : Type} `{U : TimeUplink T}.

(** ** Status messages *)

Definition genie_time_operate_status (elem t attr : Z) (s : gtstate T) : Z * gtstate T :=
  let reply bytes := send (payload_param elem VENDOR_OP_ATTR_STATUS t bytes (Z.of_nat (length bytes)) 1) s in
  if attr =? UNIX_TIME_T then reply (le16 UNIX_TIME_T ++ le32 (genie_time_local_unixtime_get s))
  else if attr =? TIMEZONE_SETTING_T then reply (le16 TIMEZONE_SETTING_T ++ [u8 (genie_time_timezone_get s)])
  else if attr =? TIMING_SYNC_T then
    let '(period, delay, times) := genie_time_time_sync_get s in
    reply (le16 TIMING_SYNC_T ++ le16 period ++ [delay; times])
  else (-1, s).

Definition _genie_time_errcode_status (attr err idx t : Z) (s : gtstate T) : Z * gtstate T :=
  send (payload_param 0 VENDOR_OP_ATTR_STATUS t (le16 ERROR_CODE_T ++ le16 attr ++ [err; idx]) 6 1) s.

(** The answer that echoes the request. *)
Definition echo_status (m : list Z) (n t : Z) (s : gtstate T) : Z * gtstate T :=
  send (payload_param 0 VENDOR_OP_ATTR_STATUS t m n 1) s.

(** ** The setting messages *)

(** The error code for a failed [genie_time_start]. *)
Definition start_errcode (ret : Z) : Z :=
  if (ret =? - GT_E_INIT) || (ret =? GT_E_LOCALTIME_NOTSET) then ERR_CODE_UNIXTIME
  else if ret =? - GT_E_INDEX then ERR_CODE_TIMER_INDEX
  else if ret =? - GT_E_NORESOURCE then ERR_CODE_TIMER_FULL
  else if ret =? - GT_E_PARAM then ERR_CODE_TIMER_SETTING
  else ERR_CODE_UNIXTIME.

(** The error code for a failed [genie_time_periodic_start]. *)
Definition periodic_errcode (ret : Z) : Z :=
  if (ret =? - GT_E_INIT) || (ret =? GT_E_LOCALTIME_NOTSET) then ERR_CODE_UNIXTIME
  else if ret =? - GT_E_INDEX then ERR_CODE_TIMER_INDEX
  else if ret =? - GT_E_NORESOURCE then ERR_CODE_TIMER_FULL
  else if ret =? - GT_E_PARAM then ERR_CODE_TIMER_SETTING
  else ERR_CODE_TIMER_PRIORDIC_PARAM.

(** The while loop of [genie_time_timing_settting_event]: [inl] when it ends,
    [inr] when the function returns from it.  An item has eight bytes, the size of
    the packed structure. *)
Fixpoint timing_loop (fuel : nat) (p : list Z) (msg_len t : Z) (s : gtstate T)
  : option (gtstate T + Z * gtstate T) :=
  match fuel with
  | O => None
  | S fuel =>
    if msg_len <=? 0 then Some (inl s)
    else if msg_len <? 8 then Some (inl s)
    else match p with
         | idx :: b0 :: b1 :: b2 :: b3 :: t0 :: t1 :: p =>
             let unix_time' := get_le32 b0 b1 b2 b3 / 60 * 60 in
             let type := get_le16 t0 t1 in
             if negb (type =? ATTR_TYPE_GENERIC_ONOFF)
             then Some (inr (_genie_time_errcode_status TIMING_SETTING_T ERR_CODE_NOTSUP_ATTR_OP idx t s))
             else match p with
                  | para' :: p =>
                      if para' >? 1
                      then Some (inr (_genie_time_errcode_status TIMING_SETTING_T ERR_CODE_NOTSUP_ATTR_PARAM idx t s))
                      else
                        let '(ret, s) := genie_time_start idx unix_time' (Some (mkAttr type para')) s in
                        if truthy ret
                        then Some (inr (_genie_time_errcode_status TIMING_SETTING_T (start_errcode ret) idx t s))
                        else timing_loop fuel p (u16 (msg_len - 8)) t s
                  | _ => None
                  end
         | _ => None
         end
  end.

Definition genie_time_timing_settting_event (op : Z) (m : list Z) (msg_length t : Z) (s : gtstate T)
  : option (Z * gtstate T) :=
  match m with
  | a0 :: a1 :: pmsg =>
      let attr := u16 (a0 + Z.shiftl a1 8) in
      let msg_len := u16 (msg_length - 2) in
      if negb (attr =? TIMING_SETTING_T) then Some (-1, s)
      else if negb (op =? VENDOR_OP_ATTR_SET_ACK) && negb (op =? VENDOR_OP_ATTR_GET_STATUS) then Some (-1, s)
      else if op =? VENDOR_OP_ATTR_SET_ACK then
        match timing_loop (S (Z.to_nat msg_len)) pmsg msg_len t s with
        | Some (inl s) => Some (echo_status m msg_length t s)
        | Some (inr r) => Some r
        | None => None
        end
      else Some (echo_status m msg_length t s)
  | _ => None
  end.

(** The while loop of [genie_time_priordic_timing_settting_event]; seven bytes an item. *)
Fixpoint priordic_loop (fuel : nat) (p : list Z) (msg_len t : Z) (s : gtstate T)
  : option (gtstate T + Z * gtstate T) :=
  match fuel with
  | O => None
  | S fuel =>
    if msg_len <=? 0 then Some (inl s)
    else if msg_len <? 7 then Some (inl s)
    else match p with
         | idx :: b0 :: b1 :: sch :: p =>
             let prioridc_time := Z.land (get_le16 b0 b1) 4095 in
             if sch >? 127
             then Some (inr (_genie_time_errcode_status TIMING_PERIODIC_SETTING_T ERR_CODE_TIMER_PRIORDIC_PARAM idx t s))
             else match p with
             | t0 :: t1 :: p =>
                 let type := get_le16 t0 t1 in
                 if negb (type =? ATTR_TYPE_GENERIC_ONOFF)
                 then Some (inr (_genie_time_errcode_status TIMING_PERIODIC_SETTING_T ERR_CODE_NOTSUP_ATTR_OP idx t s))
                 else match p with
                 | para' :: p =>
                     if para' >? 1
                     then Some (inr (_genie_time_errcode_status TIMING_PERIODIC_SETTING_T ERR_CODE_NOTSUP_ATTR_PARAM idx t s))
                     else
                       let '(ret, s) := genie_time_periodic_start idx (prioridc_time * 60) sch (mkAttr type para') s in
                       if truthy ret
                       then Some (inr (_genie_time_errcode_status TIMING_PERIODIC_SETTING_T (periodic_errcode ret) idx t s))
                       else priordic_loop fuel p (u16 (msg_len - 7)) t s
                 | _ => None
                 end
             | _ => None
             end
         | _ => None
         end
  end.

Definition genie_time_priordic_timing_settting_event (op : Z) (m : list Z) (msg_length t : Z) (s : gtstate T)
  : option (Z * gtstate T) :=
  match m with
  | a0 :: a1 :: pmsg =>
      let attr := u16 (a0 + Z.shiftl a1 8) in
      let msg_len := u16 (msg_length - 2) in
      if negb (attr =? TIMING_PERIODIC_SETTING_T) then Some (-1, s)
      else if negb (op =? VENDOR_OP_ATTR_SET_ACK) && negb (op =? VENDOR_OP_ATTR_GET_STATUS) then Some (-1, s)
      else if op =? VENDOR_OP_ATTR_SET_ACK then
        match priordic_loop (S (Z.to_nat msg_len)) pmsg msg_len t s with
        | Some (inl s) => Some (echo_status m msg_length t s)
        | Some (inr r) => Some r
        | None => None
        end
      else Some (echo_status m msg_length t s)
  | _ => None
  end.

(** The while loop of [genie_time_timing_remove_event]; [genie_time_remove]
    takes its index as an [int8_t]. *)
Fixpoint remove_loop (fuel : nat) (p : list Z) (msg_len : Z) (s : gtstate T) : option (gtstate T) :=
  match fuel with
  | O => None
  | S fuel =>
    if msg_len <=? 0 then Some s
    else match p with
         | idx :: p => remove_loop fuel p (u16 (msg_len - 1)) (snd (genie_time_remove (s8 idx) s))
         | [] => None
         end
  end.

Definition genie_time_timing_remove_event (op : Z) (m : list Z) (msg_length t : Z) (s : gtstate T)
  : option (Z * gtstate T) :=
  match m with
  | a0 :: a1 :: pmsg =>
      let attr := u16 (a0 + Z.shiftl a1 8) in
      let msg_len := u16 (msg_length - 2) in
      if negb (attr =? TIMING_DELETE_T) then Some (-1, s)
      else if negb (op =? VENDOR_OP_ATTR_SET_ACK) then Some (-1, s)
      else match remove_loop (S (Z.to_nat msg_len)) pmsg msg_len s with
           | Some s => Some (echo_status m msg_length t s)
           | None => None
           end
  | _ => None
  end.

(** ** The dispatcher *)

(** The answer with the handler's state; handlers' own results are dropped. *)
Definition time_mesg (r : option (Z * gtstate T)) : option (Z * gtstate T) :=
  match r with Some (_, s) => Some (1, s) | None => None end.

Definition handle_get (m : genie_transport_model_param_t) (elem : Z) (d : list Z) (s : gtstate T) : option (Z * gtstate T) :=
  match d with
  | a0 :: a1 :: _ =>
      let attr := u16 (a0 + Z.shiftl a1 8) in
      if (attr =? UNIX_TIME_T) || (attr =? TIMEZONE_SETTING_T) || (attr =? TIMING_SYNC_T)
      then time_mesg (Some (genie_time_operate_status elem (tid m) attr s))
      else if attr =? TIMING_SETTING_T
      then time_mesg (genie_time_timing_settting_event VENDOR_OP_ATTR_GET_STATUS d (len m) (tid m) s)
      else if attr =? TIMING_PERIODIC_SETTING_T
      then time_mesg (genie_time_priordic_timing_settting_event VENDOR_OP_ATTR_GET_STATUS d (len m) (tid m) s)
      else Some (0, s)
  | _ => None
  end.

Definition handle_set (m : genie_transport_model_param_t) (elem : Z) (d : list Z) (s : gtstate T) : option (Z * gtstate T) :=
  match d with
  | a0 :: a1 :: p =>
      let attr := u16 (a0 + Z.shiftl a1 8) in
      if attr =? UNIX_TIME_T then
        match p with
        | b0 :: b1 :: b2 :: b3 :: _ =>
            let s := snd (genie_time_local_time_update (get_le32 b0 b1 b2 b3) s) in
            time_mesg (Some (genie_time_operate_status elem (tid m) attr s))
        | _ => None
        end
      else if attr =? TIMEZONE_SETTING_T then
        match p with
        | z :: _ =>
            let s := snd (genie_time_timezone_update (s8 z) s) in
            time_mesg (Some (genie_time_operate_status elem (tid m) attr s))
        | _ => None
        end
      else if attr =? TIMING_SYNC_T then
        match p with
        | b0 :: b1 :: delay :: times :: _ =>
            let s := snd (genie_time_time_sync_set (get_le16 b0 b1) delay times s) in
            time_mesg (Some (genie_time_operate_status elem (tid m) attr s))
        | _ => None
        end
      else if attr =? TIMING_SETTING_T
      then time_mesg (genie_time_timing_settting_event VENDOR_OP_ATTR_SET_ACK d (len m) (tid m) s)
      else if attr =? TIMING_PERIODIC_SETTING_T
      then time_mesg (genie_time_priordic_timing_settting_event VENDOR_OP_ATTR_SET_ACK d (len m) (tid m) s)
      else if attr =? TIMING_DELETE_T
      then time_mesg (genie_time_timing_remove_event VENDOR_OP_ATTR_SET_ACK d (len m) (tid m) s)
      else Some (0, s)
  | _ => None
  end.

Definition handle_confirm_tg (d : list Z) (s : gtstate T) : option (Z * gtstate T) :=
  match d with
  | a0 :: a1 :: p =>
      if u16 (a0 + Z.shiftl a1 8) =? UNIX_TIME_T then
        match p with
        | b0 :: b1 :: b2 :: b3 :: _ => Some (1, snd (genie_time_local_time_update (get_le32 b0 b1 b2 b3) s))
        | _ => None
        end
      else Some (0, s)
  | _ => None
  end.

Definition genie_time_handle_model_mesg (m : genie_transport_model_param_t) (s : gtstate T) : option (Z * gtstate T) :=
  match data m with
  | None => Some (-1, s)
  | Some d =>
      if len m =? 0 then Some (-1, s)
      else
        let elem := ul_elem_find_id (p_elem m) (uplink s) in
        if opid m =? VENDOR_OP_ATTR_GET_STATUS then handle_get m elem d s
        else if opid m =? VENDOR_OP_ATTR_SET_ACK then handle_set m elem d s
        else if opid m =? VENDOR_OP_ATTR_CONFIME_TG then handle_confirm_tg d s
        else Some (0, s)
  end.

(** ** Messages are sequences of pool steps *)

Definition result_state (r : gtstate T + Z * gtstate T) : gtstate T :=
  match r with inl s => s | inr r => snd r end.

Lemma send_step p (s : gtstate T) : gtstep s (snd (send p s)).
Proof. unfold send. destruct (ul_send p (uplink s)) as [r u]. apply step_uplink. Qed.

Lemma send_steps p (s s' : gtstate T) : rtc gtstep s s' → rtc gtstep s (snd (send p s')).
Proof. intros H. eapply rtc_r; [done|apply send_step]. Qed.

Lemma errcode_steps a e i t (s s' : gtstate T) :
  rtc gtstep s s' → rtc gtstep s (result_state (inr (_genie_time_errcode_status a e i t s'))).
Proof. apply send_steps. Qed.

#[local] Hint Resolve send_steps errcode_steps rtc_refl rtc_once : genie.

Lemma timing_loop_safe fuel : forall p L t (s : gtstate T), L <= Z.of_nat (length p) → 0 <= L < 65536 →
  L < Z.of_nat fuel → Forall (λ b, is_u8 b) p →
  exists r, timing_loop fuel p L t s = Some r /\ rtc gtstep s (result_state r).
Proof.
  induction fuel as [|fuel IH]; intros p L t s Hp HL Hf F; [lia|]. cbn [timing_loop].
  destruct (Z.leb_spec L 0); [eauto with genie|]. destruct (Z.ltb_spec L 8); [eauto with genie|].
  do 8 (destruct p as [|? p]; [cbn in Hp; lia|]; apply Forall_cons_1 in F as [? F]). cbn [length] in Hp.
  destruct (negb _); [eauto with genie|]. destruct (_ >? 1); [eauto with genie|].
  destruct (genie_time_start _ _ _ s) as [ret s1] eqn:E.
  assert (gtstep s s1) as S1. { rewrite <- (f_equal snd E : _ = s1). by apply step_start. }
  destruct (truthy ret); [eauto with genie|].
  destruct (IH p (u16 (L - 8)) t s1) as (r & -> & R); [rewrite u16_small by lia; lia..|done|].
  eexists; split; [done|]. by eapply rtc_l.
Qed.

Lemma priordic_loop_safe fuel : forall p L t (s : gtstate T), L <= Z.of_nat (length p) → 0 <= L < 65536 →
  L < Z.of_nat fuel → Forall (λ b, is_u8 b) p →
  exists r, priordic_loop fuel p L t s = Some r /\ rtc gtstep s (result_state r).
Proof.
  induction fuel as [|fuel IH]; intros p L t s Hp HL Hf F; [lia|]. cbn [priordic_loop].
  destruct (Z.leb_spec L 0); [eauto with genie|]. destruct (Z.ltb_spec L 7); [eauto with genie|].
  do 7 (destruct p as [|? p]; [cbn in Hp; lia|]; apply Forall_cons_1 in F as [? F]). cbn [length] in Hp.
  destruct (_ >? 127); [eauto with genie|].
  destruct (negb _); [eauto with genie|]. destruct (_ >? 1); [eauto with genie|].
  destruct (genie_time_periodic_start _ _ _ _ s) as [ret s1] eqn:E.
  assert (gtstep s s1) as S1. { rewrite <- (f_equal snd E : _ = s1). by apply step_periodic_start. }
  destruct (truthy ret); [eauto with genie|].
  destruct (IH p (u16 (L - 7)) t s1) as (r & -> & R); [rewrite u16_small by lia; lia..|done|].
  eexists; split; [done|]. by eapply rtc_l.
Qed.

Lemma s8_range z : -128 <= s8 z < 128.
Proof. unfold s8. dlia. Qed.

Lemma remove_loop_safe fuel : forall p L (s : gtstate T), L <= Z.of_nat (length p) → 0 <= L < 65536 →
  L < Z.of_nat fuel → exists s', remove_loop fuel p L s = Some s' /\ rtc gtstep s s'.
Proof.
  induction fuel as [|fuel IH]; intros p L s Hp HL Hf; [lia|]. cbn [remove_loop].
  destruct (Z.leb_spec L 0); [eauto with genie|]. destruct p as [|i p]; [cbn in Hp; lia|]. cbn [length] in Hp.
  destruct (IH p (u16 (L - 1)) (snd (genie_time_remove (s8 i) s))) as (s' & -> & R); [rewrite u16_small by lia; lia..|].
  eexists; split; [done|]. eapply rtc_l; [|done]. apply step_remove, s8_range.
Qed.

(** A message as the access layer delivers it, long enough for the fixed part
    of its attribute. *)
Definition complete_mesg (m : genie_transport_model_param_t) (d : list Z) : Prop :=
  data m = Some d /\ len m = Z.of_nat (length d) /\ 2 <= len m < 65536 /\ Forall (λ b, is_u8 b) d
  /\ match d with
     | a0 :: a1 :: _ =>
         let attr := u16 (a0 + Z.shiftl a1 8) in
         (attr = UNIX_TIME_T → opid m ≠ VENDOR_OP_ATTR_GET_STATUS → 6 <= len m)
         /\ (attr = TIMEZONE_SETTING_T → opid m = VENDOR_OP_ATTR_SET_ACK → 3 <= len m)
         /\ (attr = TIMING_SYNC_T → opid m = VENDOR_OP_ATTR_SET_ACK → 6 <= len m)
     | _ => True
     end.

Lemma timing_event_safe op m L t (s : gtstate T) : L = Z.of_nat (length m) → 2 <= L < 65536 → Forall (λ b, is_u8 b) m →
  exists r s', genie_time_timing_settting_event op m L t s = Some (r, s') /\ rtc gtstep s s'.
Proof.
  intros E HL F. do 2 (destruct m as [|? m]; [cbn in E; lia|]; apply Forall_cons_1 in F as [? F]). cbn [length] in E.
  unfold genie_time_timing_settting_event, echo_status. destruct (negb _); [eauto with genie|].
  destruct (_ && _); [eauto with genie|]. destruct (op =? _).
  - destruct (timing_loop_safe (S (Z.to_nat (u16 (L - 2)))) m (u16 (L - 2)) t s) as (r & -> & R);
      [rewrite u16_small by lia; lia..|done|].
    destruct r as [s1|[r s1]]; cbn in R; [|eauto].
    rewrite (surjective_pairing (send _ s1)). eauto with genie.
  - rewrite (surjective_pairing (send _ s)). eauto with genie.
Qed.

Lemma priordic_event_safe op m L t (s : gtstate T) : L = Z.of_nat (length m) → 2 <= L < 65536 → Forall (λ b, is_u8 b) m →
  exists r s', genie_time_priordic_timing_settting_event op m L t s = Some (r, s') /\ rtc gtstep s s'.
Proof.
  intros E HL F. do 2 (destruct m as [|? m]; [cbn in E; lia|]; apply Forall_cons_1 in F as [? F]). cbn [length] in E.
  unfold genie_time_priordic_timing_settting_event, echo_status. destruct (negb _); [eauto with genie|].
  destruct (_ && _); [eauto with genie|]. destruct (op =? _).
  - destruct (priordic_loop_safe (S (Z.to_nat (u16 (L - 2)))) m (u16 (L - 2)) t s) as (r & -> & R);
      [rewrite u16_small by lia; lia..|done|].
    destruct r as [s1|[r s1]]; cbn in R; [|eauto].
    rewrite (surjective_pairing (send _ s1)). eauto with genie.
  - rewrite (surjective_pairing (send _ s)). eauto with genie.
Qed.

Lemma remove_event_safe op m L t (s : gtstate T) : L = Z.of_nat (length m) → 2 <= L < 65536 →
  exists r s', genie_time_timing_remove_event op m L t s = Some (r, s') /\ rtc gtstep s s'.
Proof.
  intros E HL. do 2 (destruct m as [|? m]; [cbn in E; lia|]). cbn [length] in E.
  unfold genie_time_timing_remove_event, echo_status. destruct (negb _); [eauto with genie|].
  destruct (negb _); [eauto with genie|].
  destruct (remove_loop_safe (S (Z.to_nat (u16 (L - 2)))) m (u16 (L - 2)) s) as (s1 & -> & R);
    [rewrite u16_small by lia; lia..|].
  rewrite (surjective_pairing (send _ s1)). eauto with genie.
Qed.

Lemma operate_status_steps e t a (s0 s : gtstate T) : rtc gtstep s0 s → rtc gtstep s0 (snd (genie_time_operate_status e t a s)).
Proof.
  intros R. unfold genie_time_operate_status. repeat case_match; cbn [snd]; auto with genie.
Qed.

Lemma time_mesg_safe (s : gtstate T) r : (exists x s', r = Some (x, s') /\ rtc gtstep s s') →
  exists x s', time_mesg r = Some (x, s') /\ rtc gtstep s s'.
Proof. intros (x & s' & -> & R). cbn. eauto. Qed.

Lemma status_safe e t a (s0 s : gtstate T) : rtc gtstep s0 s →
  exists x s', time_mesg (Some (genie_time_operate_status e t a s)) = Some (x, s') /\ rtc gtstep s0 s'.
Proof.
  intros R. rewrite (surjective_pairing (genie_time_operate_status e t a s)). cbn.
  eauto using operate_status_steps.
Qed.

#[local] Hint Resolve timing_event_safe priordic_event_safe remove_event_safe time_mesg_safe status_safe : genie.

Lemma gtsteps_wf (s s' : gtstate T) : rtc gtstep s s' → gt_wf s → gt_wf s'.
Proof. induction 1; eauto using gtstep_wf. Qed.

Lemma time_message_steps m d (s : gtstate T) : complete_mesg m d →
  exists r s', genie_time_handle_model_mesg m s = Some (r, s') /\ rtc gtstep s s'.
Proof.
  intros (E & EL & HL & F & C).
  unfold genie_time_handle_model_mesg. rewrite E. rewrite (proj2 (Z.eqb_neq (len m) 0)) by lia.
  set (elem := ul_elem_find_id _ _). clearbody elem.
  assert (exists a0 a1 p, d = a0 :: a1 :: p) as (a0 & a1 & p & Ed).
  { destruct d as [|a0 [|a1 p]]; cbn in EL; [lia..|eauto]. }
  assert (forall n, n <= len m → (Z.to_nat n - 2 <= length p)%nat) as LP by (intros n; rewrite EL, Ed; cbn; lia).
  rewrite Ed in C. cbn [u16] in C. destruct C as (C1 & C2 & C3).
  destruct (Z.eqb_spec (opid m) VENDOR_OP_ATTR_GET_STATUS) as [O|O].
  - rewrite Ed. unfold handle_get. rewrite <- Ed. destruct (_ || _); [eauto with genie|].
    destruct (_ =? _); [eauto with genie|]. destruct (_ =? _); eauto with genie.
  - destruct (Z.eqb_spec (opid m) VENDOR_OP_ATTR_SET_ACK) as [O'|O'].
    + rewrite Ed. unfold handle_set. rewrite <- Ed.
      destruct (Z.eqb_spec (u16 (a0 + Z.shiftl a1 8)) UNIX_TIME_T) as [A|A].
      { specialize (LP 6 (C1 A O)). do 4 (destruct p as [|? p]; [cbn in LP; lia|]).
        apply status_safe, rtc_once, step_clock. }
      destruct (Z.eqb_spec (u16 (a0 + Z.shiftl a1 8)) TIMEZONE_SETTING_T) as [B|B].
      { specialize (LP 3 (C2 B O')). destruct p as [|? p]; [cbn in LP; lia|].
        apply status_safe, rtc_once, step_timezone. }
      destruct (Z.eqb_spec (u16 (a0 + Z.shiftl a1 8)) TIMING_SYNC_T) as [D|D].
      { specialize (LP 6 (C3 D O')). do 4 (destruct p as [|? p]; [cbn in LP; lia|]).
        apply status_safe, rtc_once, step_sync. }
      destruct (_ =? _); [eauto with genie|]. destruct (_ =? _); [eauto with genie|].
      destruct (_ =? _); eauto with genie.
    + destruct (_ =? _); [|eauto with genie]. rewrite Ed. unfold handle_confirm_tg.
      destruct (Z.eqb_spec (u16 (a0 + Z.shiftl a1 8)) UNIX_TIME_T) as [A|A]; [|eauto with genie].
      specialize (LP 6 (C1 A O)). do 4 (destruct p as [|? p]; [cbn in LP; lia|]).
      eexists _, _; split; [done|]. apply rtc_once, step_clock.
Qed.

(** ** What the messages send *)

Lemma timer_acquire_uplink i (s : gtstate T) : uplink (snd (timer_acquire i s)) = uplink s.
Proof. unfold timer_acquire, genie_time_new. destruct (genie_time_find i s); [done|]. by destruct (idle s). Qed.

Lemma start_uplink i u a (s : gtstate T) : uplink (snd (genie_time_start i u a s)) = uplink s.
Proof.
  unfold genie_time_start. destruct a; [|done]. repeat (destruct (negb _); [done|]). destruct (_ <=? _); [done|].
  pose proof (timer_acquire_uplink i s) as E. by destruct (timer_acquire i s) as [[p|] s1].
Qed.

Lemma periodic_start_uplink i u sch a (s : gtstate T) : uplink (snd (genie_time_periodic_start i u sch a s)) = uplink s.
Proof.
  unfold genie_time_periodic_start. repeat (destruct (negb _); [done|]). destruct (_ =? _); [done|].
  pose proof (timer_acquire_uplink i s) as E. by destruct (timer_acquire i s) as [[p|] s1].
Qed.

Lemma time_stop_uplink i (s : gtstate T) : uplink (snd (genie_time_stop i s)) = uplink s.
Proof. unfold genie_time_stop. repeat (destruct (negb _); [done|]). destruct (_ >=? _); [done|]. by destruct (genie_time_find _ s). Qed.

Lemma remove_uplink i (s : gtstate T) : uplink (snd (genie_time_remove i s)) = uplink s.
Proof.
  unfold genie_time_remove. destruct (i =? 255); [|apply time_stop_uplink]. cbn [snd]. unfold stop_all. revert s.
  induction (seq 0 GENIE_TIME_MAX) as [|j l IH]; intros s; [done|]. cbn [fold_left]. by rewrite IH, time_stop_uplink.
Qed.

Lemma clock_uplink u (s : gtstate T) : uplink (snd (genie_time_local_time_update u s)) = uplink s.
Proof. unfold genie_time_local_time_update. by destruct (negb _). Qed.
Lemma timezone_uplink z (s : gtstate T) : uplink (snd (genie_time_timezone_update z s)) = uplink s.
Proof. unfold genie_time_timezone_update. destruct (_ || _); [done|]. by destruct (negb _). Qed.
Lemma sync_set_uplink p d r (s : gtstate T) : uplink (snd (genie_time_time_sync_set p d r s)) = uplink s.
Proof. unfold genie_time_time_sync_set. by destruct (_ || _ || _). Qed.

Section answers.
(** What sending does to the uplink, for payloads of at most [N] bytes. *)
Context (R : relation T) `{!PreOrder R} (N : Z) (HN : 6 <= N).
Context (send_R : forall p u, payload_len p <= N → R u (snd (ul_send p u))).

(** The answers since [s0] kept to the relation. *)
Definition said (s0 s : gtstate T) : Prop := R (uplink s0) (uplink s).

Lemma said_eq s0 s s' : uplink s' = uplink s → said s0 s → said s0 s'.
Proof. unfold said. by intros ->. Qed.

Lemma said_send p s0 s : payload_len p <= N → said s0 s → said s0 (snd (send p s)).
Proof.
  unfold said, send. intros L H. pose proof (send_R p (uplink s) L) as HR. destruct (ul_send p (uplink s)) as [r u].
  cbn in *. by transitivity (uplink s).
Qed.

Lemma said_errcode a e i t s0 s : said s0 s → said s0 (snd (_genie_time_errcode_status a e i t s)).
Proof. by apply said_send. Qed.

Lemma said_echo m n t s0 s : n <= N → said s0 s → said s0 (snd (echo_status m n t s)).
Proof. intros. by apply said_send. Qed.

Lemma said_status e t a s0 s : said s0 s → said s0 (snd (genie_time_operate_status e t a s)).
Proof.
  intros H. unfold genie_time_operate_status. cbv zeta. destruct (a =? UNIX_TIME_T); [by apply said_send|].
  destruct (a =? TIMEZONE_SETTING_T); [apply said_send; [cbn; lia|done]|]. destruct (a =? TIMING_SYNC_T); [|done].
  destruct (genie_time_time_sync_get s) as [[p d] r]. by apply said_send.
Qed.

#[local] Hint Resolve said_errcode said_echo said_status : genie.

Lemma timing_loop_said fuel : forall p L t s0 s r, said s0 s → timing_loop fuel p L t s = Some r → said s0 (result_state r).
Proof.
  induction fuel as [|fuel IH]; intros p L t s0 s r H E; [done|]. cbn [timing_loop] in E.
  destruct (L <=? 0); [by simplify_eq|]. destruct (L <? 8); [by simplify_eq|].
  do 7 (destruct p as [|? p]; [done|]). destruct (negb _); [simplify_eq; cbn; eauto with genie|].
  destruct p as [|? p]; [done|]. destruct (_ >? 1); [simplify_eq; cbn; eauto with genie|].
  pose proof (start_uplink z (get_le32 z0 z1 z2 z3 / 60 * 60) (Some (mkAttr (get_le16 z4 z5) z6)) s) as U1.
  destruct (genie_time_start _ _ _ s) as [ret s1]. cbn in U1. assert (said s0 s1) by (by eapply said_eq).
  destruct (truthy ret); [simplify_eq; cbn; eauto with genie|]. eauto.
Qed.

Lemma priordic_loop_said fuel : forall p L t s0 s r, said s0 s → priordic_loop fuel p L t s = Some r → said s0 (result_state r).
Proof.
  induction fuel as [|fuel IH]; intros p L t s0 s r H E; [done|]. cbn [priordic_loop] in E.
  destruct (L <=? 0); [by simplify_eq|]. destruct (L <? 7); [by simplify_eq|].
  do 4 (destruct p as [|? p]; [done|]). destruct (_ >? 127); [simplify_eq; cbn; eauto with genie|].
  do 2 (destruct p as [|? p]; [done|]). destruct (negb _); [simplify_eq; cbn; eauto with genie|].
  destruct p as [|? p]; [done|]. destruct (_ >? 1); [simplify_eq; cbn; eauto with genie|].
  destruct (genie_time_periodic_start _ _ _ _ s) as [ret s1] eqn:E1. assert (said s0 s1).
  { eapply said_eq; [|exact H]. rewrite <- (f_equal snd E1 : _ = s1). apply periodic_start_uplink. }
  destruct (truthy ret); [simplify_eq; cbn; eauto with genie|]. eauto.
Qed.

Lemma remove_loop_said fuel : forall p L s0 s s', said s0 s → remove_loop fuel p L s = Some s' → said s0 s'.
Proof.
  induction fuel as [|fuel IH]; intros p L s0 s s' H E; [done|]. cbn [remove_loop] in E.
  destruct (L <=? 0); [by simplify_eq|]. destruct p as [|i p]; [done|]. eapply IH; [|exact E].
  eapply said_eq; [apply remove_uplink|done].
Qed.

Lemma time_mesg_said s0 r x s' : (forall y s, r = Some (y, s) → said s0 s) → time_mesg r = Some (x, s') → said s0 s'.
Proof. intros H E. destruct r as [[y s]|]; [|done]. cbn in E. simplify_eq. eauto. Qed.

Lemma status_said e t a s0 s x s' : said s0 s → time_mesg (Some (genie_time_operate_status e t a s)) = Some (x, s') → said s0 s'.
Proof. intros H. apply time_mesg_said. intros y s1 [= E]. rewrite <- (f_equal snd E : _ = s1). eauto with genie. Qed.

Lemma timing_event_said op m L t s y s' : L <= N → genie_time_timing_settting_event op m L t s = Some (y, s') → said s s'.
Proof.
  intros HL E. assert (said s s) as H0 by (unfold said; done). unfold genie_time_timing_settting_event in E.
  do 2 (destruct m as [|? m]; [done|]). destruct (negb _); [by simplify_eq|]. destruct (_ && _); [by simplify_eq|].
  destruct (op =? _).
  - destruct (timing_loop _ _ _ _ s) as [r|] eqn:EL; [|done]. pose proof (timing_loop_said _ _ _ _ _ _ _ H0 EL) as HR.
    destruct r as [s1|[r s1]]; injection E as E; [|by simplify_eq]. rewrite <- (f_equal snd E : _ = s'). eauto with genie.
  - injection E as E. rewrite <- (f_equal snd E : _ = s'). eauto with genie.
Qed.

Lemma priordic_event_said op m L t s y s' : L <= N → genie_time_priordic_timing_settting_event op m L t s = Some (y, s') → said s s'.
Proof.
  intros HL E. assert (said s s) as H0 by (unfold said; done). unfold genie_time_priordic_timing_settting_event in E.
  do 2 (destruct m as [|? m]; [done|]). destruct (negb _); [by simplify_eq|]. destruct (_ && _); [by simplify_eq|].
  destruct (op =? _).
  - destruct (priordic_loop _ _ _ _ s) as [r|] eqn:EL; [|done]. pose proof (priordic_loop_said _ _ _ _ _ _ _ H0 EL) as HR.
    destruct r as [s1|[r s1]]; injection E as E; [|by simplify_eq]. rewrite <- (f_equal snd E : _ = s'). eauto with genie.
  - injection E as E. rewrite <- (f_equal snd E : _ = s'). eauto with genie.
Qed.

Lemma remove_event_said op m L t s y s' : L <= N → genie_time_timing_remove_event op m L t s = Some (y, s') → said s s'.
Proof.
  intros HL E. assert (said s s) as H0 by (unfold said; done). unfold genie_time_timing_remove_event in E.
  do 2 (destruct m as [|? m]; [done|]). do 2 (destruct (negb _); [by simplify_eq|]).
  destruct (remove_loop _ _ _ s) as [s1|] eqn:EL; [|done]. injection E as E. rewrite <- (f_equal snd E : _ = s').
  apply said_echo; [done|]. by eapply remove_loop_said.
Qed.

(** A message answers with its own bytes, or with at most six. *)
Lemma time_message_said m s y s' : len m <= N → genie_time_handle_model_mesg m s = Some (y, s') → said s s'.
Proof.
  intros HL E. assert (said s s) as H0 by (unfold said; done). unfold genie_time_handle_model_mesg in E.
  destruct (data m) as [d|]; [|by simplify_eq]. destruct (len m =? 0); [by simplify_eq|].
  destruct (opid m =? _); [|destruct (opid m =? _); [|destruct (opid m =? _); [|by simplify_eq]]].
  - unfold handle_get in E. destruct d as [|a0 [|a1 p]]; [done..|]. cbv zeta in E.
    destruct (_ || _ || _); [by eapply status_said|].
    destruct (_ =? _); [eapply time_mesg_said; [|exact E]; intros; by eapply timing_event_said|].
    destruct (_ =? _); [eapply time_mesg_said; [|exact E]; intros; by eapply priordic_event_said|by simplify_eq].
  - unfold handle_set in E. destruct d as [|a0 [|a1 p]]; [done..|]. cbv zeta in E.
    destruct (_ =? _). { do 4 (destruct p as [|? p]; [done|]). eapply status_said, E. by eapply said_eq; [apply clock_uplink|]. }
    destruct (_ =? _). { destruct p as [|? p]; [done|]. eapply status_said, E. by eapply said_eq; [apply timezone_uplink|]. }
    destruct (_ =? _). { do 4 (destruct p as [|? p]; [done|]). eapply status_said, E. by eapply said_eq; [apply sync_set_uplink|]. }
    destruct (_ =? _); [eapply time_mesg_said; [|exact E]; intros; by eapply timing_event_said|].
    destruct (_ =? _); [eapply time_mesg_said; [|exact E]; intros; by eapply priordic_event_said|].
    destruct (_ =? _); [eapply time_mesg_said; [|exact E]; intros; by eapply remove_event_said|by simplify_eq].
  - unfold handle_confirm_tg in E. destruct d as [|a0 [|a1 p]]; [done..|]. destruct (_ =? _); [|by simplify_eq].
    do 4 (destruct p as [|? p]; [done|]). simplify_eq. by eapply said_eq; [apply clock_uplink|].
Qed.

End answers.

(** The timing message handler reads inside the message and ends: on every
    message whose length is that of its buffer and that carries the fixed part of
    its attribute it returns, and what it did is a sequence of pool steps, so that
    the pool invariant holds after it.  (The setting and delete loops need no more
    than the two attribute bytes.) *)
Theorem time_message_safe m d (s : gtstate T) : complete_mesg m d →
  exists r s', genie_time_handle_model_mesg m s = Some (r, s') /\ rtc gtstep s s' /\ (gt_wf s → gt_wf s').
Proof.
  intros C. destruct (time_message_steps m d s C) as (r & s' & E & R). exists r, s'. eauto using gtsteps_wf.
Qed.

(** ** What the messages do *)

(** A timing item of a setting message, encoded. *)
Definition timing_item : Type := Z * Z * Z. (* index, time, on/off *)
Definition item_ok (it : timing_item) : Prop :=
  let '(i, u, a) := it in is_u8 i /\ is_u32 u /\ 0 <= a <= 1.
Definition encode_item (it : timing_item) : list Z :=
  let '(i, u, a) := it in [i] ++ le32 u ++ le16 ATTR_TYPE_GENERIC_ONOFF ++ [a].

(** Setting the timers one by one, up to the first that fails. *)
Fixpoint start_items (its : list timing_item) (t : Z) (s : gtstate T) : gtstate T + Z * gtstate T :=
  match its with
  | [] => inl s
  | (i, u, a) :: its =>
      let '(ret, s) := genie_time_start i (u / 60 * 60) (Some (mkAttr ATTR_TYPE_GENERIC_ONOFF a)) s in
      if truthy ret then inr (_genie_time_errcode_status TIMING_SETTING_T (start_errcode ret) i t s)
      else start_items its t s
  end.

Lemma encode_items_length its : length (concat (map encode_item its)) = (8 * length its)%nat.
Proof. induction its as [|[[i u] a] its IH]; [done|]. cbn [map concat]. rewrite length_app, IH. cbn. lia. Qed.

Lemma timing_loop_items its : forall fuel t (s : gtstate T), Forall item_ok its →
  (8 * length its < fuel)%nat → Z.of_nat (8 * length its) < 65536 →
  timing_loop fuel (concat (map encode_item its)) (Z.of_nat (8 * length its)) t s = Some (start_items its t s).
Proof.
  induction its as [|[[i u] a] its IH]; intros fuel t s F Hf HL; destruct fuel as [|fuel]; [lia|done|lia|].
  apply Forall_cons_1 in F as [(Hi & Hu & Ha) F]. cbn [timing_loop]. cbn [length] in *.
  destruct (Z.leb_spec (Z.of_nat (8 * S (length its))) 0); [lia|].
  destruct (Z.ltb_spec (Z.of_nat (8 * S (length its))) 8); [lia|].
  cbn [map concat encode_item]. pose proof (get_le32_le32 u Hu) as EU. destruct (le32 u) as [|b0 [|b1 [|b2 [|b3 [|]]]]] eqn:EB; try done.
  cbn [app le16]. rewrite EU. change (get_le16 _ _) with ATTR_TYPE_GENERIC_ONOFF. rewrite Z.eqb_refl. cbn [negb].
  rewrite Z.gtb_ltb. destruct (Z.ltb_spec 1 a); [lia|]. cbn [start_items].
  destruct (genie_time_start _ _ _ s) as [ret s1]. destruct (truthy ret); [done|].
  replace (u16 _) with (Z.of_nat (8 * length its)) by (rewrite u16_small; lia). apply IH; [done|lia..].
Qed.

(** A timing setting message is parsed back to the items it encodes: on a
    well-formed message with any list of items that fits, the handler sets the
    timers one by one with the times rounded down to the minute, answers the first
    failure with its error code and nothing after it, and echoes the message when
    all were set. *)
Theorem timing_message_roundtrip its m (s : gtstate T) :
  let d := le16 TIMING_SETTING_T ++ concat (map encode_item its) in
  Forall item_ok its → Z.of_nat (length d) < 65536 →
  opid m = VENDOR_OP_ATTR_SET_ACK → data m = Some d → len m = Z.of_nat (length d) →
  genie_time_handle_model_mesg m s
  = Some (1, match start_items its (tid m) s with
             | inl s' => snd (echo_status d (len m) (tid m) s')
             | inr r => snd r
             end).
Proof.
  intros d F HL O D L. unfold genie_time_handle_model_mesg. rewrite D, O.
  assert (len m = Z.of_nat (8 * length its) + 2) as L'.
  { rewrite L. unfold d. rewrite length_app, encode_items_length. cbn. lia. }
  rewrite (proj2 (Z.eqb_neq (len m) 0)) by lia.
  change (VENDOR_OP_ATTR_SET_ACK =? VENDOR_OP_ATTR_GET_STATUS) with false. cbv iota. rewrite Z.eqb_refl.
  change (handle_set m (ul_elem_find_id (p_elem m) (uplink s)) d s)
    with (time_mesg (genie_time_timing_settting_event VENDOR_OP_ATTR_SET_ACK d (len m) (tid m) s)).
  set (c := concat (map encode_item its)) in *.
  change (genie_time_timing_settting_event VENDOR_OP_ATTR_SET_ACK d (len m) (tid m) s)
    with (match timing_loop (S (Z.to_nat (u16 (len m - 2)))) c (u16 (len m - 2)) (tid m) s with
          | Some (inl s) => Some (echo_status d (len m) (tid m) s) | Some (inr r) => Some r | None => None end).
  rewrite u16_small by lia. replace (len m - 2) with (Z.of_nat (8 * length its)) by lia.
  unfold c. rewrite timing_loop_items; [|done|lia|lia].
  destruct (start_items its (tid m) s) as [s'|[r s']]; [|done].
  cbn [time_mesg]. by rewrite (surjective_pairing (echo_status _ _ _ s')).
Qed.

(** Setting the clock by message: the handler stores the four time bytes
    as the Unix time, computes the local time of the time zone, restarts the
    synchronisation period and reports exactly the bytes it was sent. *)
Theorem clock_message b0 b1 b2 b3 m (s : gtstate T) :
  is_u8 b0 → is_u8 b1 → is_u8 b2 → is_u8 b3 → init (genie_time_timer s) = true →
  opid m = VENDOR_OP_ATTR_SET_ACK → len m = 6 → data m = Some (le16 UNIX_TIME_T ++ [b0; b1; b2; b3]) →
  let u := get_le32 b0 b1 b2 b3 in
  exists s', genie_time_handle_model_mesg m s = Some (1, s')
    /\ unix_time (genie_time_timer s') = u /\ update (genie_time_timer s') = true
    /\ local_time s' = unix2UTC (u32 (u + timezone (genie_time_data s) * HOUR))
    /\ unix_time_sync_match (genie_time_timer s') = u32 (u + DEF_SYNC_PERIOD * MINU)
    /\ abs s' = abs s
    /\ uplink s' = snd (ul_send (payload_param (ul_elem_find_id (p_elem m) (uplink s)) VENDOR_OP_ATTR_STATUS (tid m)
                                   (le16 UNIX_TIME_T ++ [b0; b1; b2; b3]) 6 1) (uplink s)).
Proof.
  intros H0 H1 H2 H3 Hi O L D u. unfold genie_time_handle_model_mesg. rewrite D, O, L.
  change (6 =? 0) with false. change (VENDOR_OP_ATTR_SET_ACK =? VENDOR_OP_ATTR_GET_STATUS) with false. cbv iota.
  rewrite Z.eqb_refl. set (e := ul_elem_find_id (p_elem m) (uplink s)).
  set (s1 := snd (genie_time_local_time_update u s)).
  change (handle_set m e (le16 UNIX_TIME_T ++ [b0; b1; b2; b3]) s)
    with (time_mesg (Some (send (payload_param e VENDOR_OP_ATTR_STATUS (tid m)
            (le16 UNIX_TIME_T ++ le32 (unix_time (genie_time_timer s1))) 6 1) s1))).
  assert (s1 = on_timer (set_sync (u32 (u + DEF_SYNC_PERIOD * MINU)) DEF_SYNC_DELAY_RETRY)
                 (on_data (set_sync_config (mkSync DEF_SYNC_PERIOD DEF_SYNC_DELAY DEF_SYNC_DELAY_RETRY))
                   (on_local_time (λ _, unix2UTC (u32 (u + timezone (genie_time_data s) * HOUR)))
                     (on_timer (set_clock u) s)))) as E1.
  { unfold s1, genie_time_local_time_update. rewrite Hi. reflexivity. }
  assert (unix_time (genie_time_timer s1) = u) as Eu by (by rewrite E1). rewrite Eu. unfold u at 1.
  rewrite le32_get by done. unfold send.
  assert (uplink s1 = uplink s) as El by (by rewrite E1). rewrite El.
  destruct (ul_send _ (uplink s)) as [r w]. cbn [time_mesg]. eexists. split; [done|].
  rewrite E1. done.
Qed.

(** The effect of a delete message on the pool of records. *)
Definition spec_delete (p : pool) (i : Z) : pool :=
  if i <? 40 then default p (spec_stop i p) else p.

Lemma same_clock_refl (s : gtstate T) : same_clock s s.
Proof. by repeat split. Qed.

Lemma remove_loop_spec idxs : forall fuel (s : gtstate T), pool_wf s → init (genie_time_timer s) = true →
  update (genie_time_timer s) = true → Forall (λ b, is_u8 b) idxs → (length idxs < fuel)%nat →
  Z.of_nat (length idxs) < 65536 →
  exists s', remove_loop fuel idxs (Z.of_nat (length idxs)) s = Some s'
    /\ abs s' = fold_left spec_delete idxs (abs s) /\ same_clock s s'.
Proof.
  induction idxs as [|i idxs IH]; intros fuel s W Hi Hu F Hf HL; (destruct fuel as [|fuel]; [lia|]).
  { exists s. repeat split. }
  apply Forall_cons_1 in F as [Fi F]. cbn [remove_loop length] in *.
  destruct (Z.leb_spec (Z.of_nat (S (length idxs))) 0); [lia|].
  replace (u16 _) with (Z.of_nat (length idxs)) by (rewrite u16_small; lia).
  assert (exists s1, snd (genie_time_remove (s8 i) s) = s1 /\ abs s1 = spec_delete (abs s) i /\ pool_wf s1 /\ same_clock s s1)
    as (s1 & -> & A1 & W1 & C1).
  { unfold genie_time_remove. pose proof (s8_range i). rewrite (proj2 (Z.eqb_neq (s8 i) 255)) by lia.
    unfold spec_delete. destruct (Z.ltb_spec i 40).
    - rewrite s8_small by lia. pose proof (stop_spec i s W Hi Hu ltac:(lia)) as P.
      destruct (spec_stop i (abs s)) as [a|]; [destruct P as (s1 & -> & ? & ? & ?); eauto|rewrite P].
      exists s. auto using same_clock_refl.
    - exists s. rewrite stop_out_of_range by (unfold s8 in *; dlia). auto using same_clock_refl. }
  destruct C1 as (U1 & T1 & I1 & P1 & N1).
  destruct (IH fuel s1 W1 ltac:(congruence) ltac:(congruence) F ltac:(lia) ltac:(lia)) as (s' & -> & A' & C').
  exists s'. split; [done|]. rewrite A', A1. split; [done|].
  destruct C' as (U2 & T2 & I2 & P2 & N2). repeat split; congruence.
Qed.

(** A delete message stops, one after the other, the timers whose indices
    below forty it lists, and echoes the message; every other index, 0xFF too,
    leaves the pool as it is. *)
Theorem delete_message idxs m (s : gtstate T) :
  let d := le16 TIMING_DELETE_T ++ idxs in
  pool_wf s → init (genie_time_timer s) = true → update (genie_time_timer s) = true →
  Forall (λ b, is_u8 b) idxs → opid m = VENDOR_OP_ATTR_SET_ACK → data m = Some d →
  len m = Z.of_nat (length d) → len m < 65536 →
  exists s', genie_time_handle_model_mesg m s = Some (1, s')
    /\ abs s' = fold_left spec_delete idxs (abs s)
    /\ uplink s' = snd (ul_send (payload_param 0 VENDOR_OP_ATTR_STATUS (tid m) d (len m) 1) (uplink s)).
Proof.
  intros d W Hi Hu F O D L HL. unfold genie_time_handle_model_mesg. rewrite D, O.
  assert (len m = Z.of_nat (length idxs) + 2) as L' by (rewrite L; unfold d; rewrite length_app; cbn; lia).
  rewrite (proj2 (Z.eqb_neq (len m) 0)) by lia.
  change (VENDOR_OP_ATTR_SET_ACK =? VENDOR_OP_ATTR_GET_STATUS) with false. cbv iota. rewrite Z.eqb_refl.
  change (handle_set m (ul_elem_find_id (p_elem m) (uplink s)) d s)
    with (time_mesg (match remove_loop (S (Z.to_nat (u16 (len m - 2)))) idxs (u16 (len m - 2)) s with
                     | Some s => Some (echo_status d (len m) (tid m) s) | None => None end)).
  rewrite u16_small by lia. replace (len m - 2) with (Z.of_nat (length idxs)) by lia.
  destruct (remove_loop_spec idxs (S (Z.to_nat (Z.of_nat (length idxs)))) s W Hi Hu F ltac:(lia) ltac:(lia)) as (s1 & -> & A & (U1 & _)).
  unfold echo_status, send. rewrite U1. destruct (ul_send _ (uplink s)) as [r w]. cbn. eexists. split; [done|].
  split; [|done]. exact A.
Qed.

(** Before the clock is set, a well-formed setting message changes no timer
    and is answered with an error status; the one-shot handler reports
    ERR_CODE_UNIXTIME, the periodic one ERR_CODE_TIMER_PRIORDIC_PARAM, because
    both test [ret == GT_E_LOCALTIME_NOTSET] and the result is negative. *)
Theorem unset_clock_errcodes i t (s : gtstate T) bs a sch p0 p1 :
  init (genie_time_timer s) = true → update (genie_time_timer s) = false →
  length bs = 4%nat → 0 <= a <= 1 → 0 <= sch < 128 →
  genie_time_timing_settting_event VENDOR_OP_ATTR_SET_ACK
    (le16 TIMING_SETTING_T ++ [i] ++ bs ++ le16 ATTR_TYPE_GENERIC_ONOFF ++ [a]) 10 t s
  = Some (_genie_time_errcode_status TIMING_SETTING_T ERR_CODE_UNIXTIME i t s)
  /\ genie_time_priordic_timing_settting_event VENDOR_OP_ATTR_SET_ACK
       (le16 TIMING_PERIODIC_SETTING_T ++ [i; p0; p1; sch] ++ le16 ATTR_TYPE_GENERIC_ONOFF ++ [a]) 9 t s
     = Some (_genie_time_errcode_status TIMING_PERIODIC_SETTING_T ERR_CODE_TIMER_PRIORDIC_PARAM i t s).
Proof.
  intros Hi Hu Hb Ha Hs. destruct bs as [|b0 [|b1 [|b2 [|b3 [|]]]]]; try done.
  assert (forall u at', genie_time_start i u (Some at') s = (-2, s)) as E1.
  { intros. unfold genie_time_start. by rewrite Hi, Hu. }
  assert (forall pt at', genie_time_periodic_start i pt sch at' s = (-2, s)) as E2.
  { intros. unfold genie_time_periodic_start. by rewrite Hi, Hu. }
  split.
  - cbn - [genie_time_start _genie_time_errcode_status get_le32 Z.gtb]. rewrite Z.gtb_ltb.
    destruct (Z.ltb_spec 1 a); [lia|]. by rewrite E1.
  - cbn - [genie_time_periodic_start _genie_time_errcode_status Z.gtb Z.land Z.mul]. rewrite !Z.gtb_ltb.
    destruct (Z.ltb_spec 127 sch); [lia|]. cbn - [genie_time_periodic_start _genie_time_errcode_status Z.ltb Z.land Z.mul].
    destruct (Z.ltb_spec 1 a); [lia|]. by rewrite E2.
Qed.

End time_msg.

(** ** Concrete messages *)

Definition time_mesg_of (op : Z) (d : list Z) : genie_transport_model_param_t :=
  mkParam (Some 0) None None 0 op 5 0 0 (Z.of_nat (length d)) (Some d).

Lemma time_message_safe_witness :
  exists r s', genie_time_handle_model_mesg (time_mesg_of VENDOR_OP_ATTR_SET_ACK [18; 240; 3; 255]) run1 = Some (r, s')
    /\ gt_wf s'.
Proof.
  destruct (time_message_safe (time_mesg_of VENDOR_OP_ATTR_SET_ACK [18; 240; 3; 255]) [18; 240; 3; 255] run1)
    as (r & s' & H & _ & W).
  { split; [reflexivity|]. split; [reflexivity|]. split; [cbn; lia|]. split; [repeat constructor; lia|].
    cbn. repeat split; intros; discriminate. }
  exists r, s'. split; [exact H|]. apply W. exact (proj1 run1_running).
Defined.

Lemma timing_message_roundtrip_witness :
  let d := le16 TIMING_SETTING_T ++ encode_item (7, 1614427275, 1) ++ encode_item (8, 1614427000, 0) in
  exists s', genie_time_handle_model_mesg (time_mesg_of VENDOR_OP_ATTR_SET_ACK d) run0 = Some (1, s')
    /\ map index (p_active (abs s')) = [7] /\ map unixtime_match (p_active (abs s')) = [1614427260].
Proof.
  intros d. eexists. split.
  - apply (timing_message_roundtrip [(7, 1614427275, 1); (8, 1614427000, 0)] (time_mesg_of VENDOR_OP_ATTR_SET_ACK d) run0);
      [repeat constructor; lia|cbn; lia|reflexivity..].
  - vm_compute. split; reflexivity.
Defined.

Lemma clock_message_witness :
  exists s', genie_time_handle_model_mesg (time_mesg_of VENDOR_OP_ATTR_SET_ACK [31; 240; 0; 60; 58; 96]) run1 = Some (1, s')
    /\ unix_time (genie_time_timer s') = get_le32 0 60 58 96.
Proof.
  destruct (clock_message 0 60 58 96 (time_mesg_of VENDOR_OP_ATTR_SET_ACK [31; 240; 0; 60; 58; 96]) run1)
    as (s' & H & E & _); [lia|lia|lia|lia|vm_compute; reflexivity|reflexivity|reflexivity|reflexivity|].
  exists s'. split; [exact H|exact E].
Defined.

Lemma delete_message_witness :
  (exists s', genie_time_handle_model_mesg (time_mesg_of VENDOR_OP_ATTR_SET_ACK [18; 240; 3]) run1 = Some (1, s')
     /\ p_active (abs s') = [])
  /\ (exists s', genie_time_handle_model_mesg (time_mesg_of VENDOR_OP_ATTR_SET_ACK [18; 240; 255]) run1 = Some (1, s')
        /\ p_active (abs s') = [x1]).
Proof.
  split.
  - destruct (delete_message [3] (time_mesg_of VENDOR_OP_ATTR_SET_ACK [18; 240; 3]) run1) as (s' & H & A & _);
      [exact (proj1 run1_running)|reflexivity|reflexivity|repeat constructor; lia|reflexivity..|].
    exists s'. split; [exact H|]. rewrite A. vm_compute. reflexivity.
  - destruct (delete_message [255] (time_mesg_of VENDOR_OP_ATTR_SET_ACK [18; 240; 255]) run1) as (s' & H & A & _);
      [exact (proj1 run1_running)|reflexivity|reflexivity|repeat constructor; lia|reflexivity..|].
    exists s'. split; [exact H|]. rewrite A. vm_compute. reflexivity.
Defined.

Lemma unset_clock_errcodes_witness :
  let s := snd (genie_time_init (time_boot [])) : gtstate uplog in
  genie_time_priordic_timing_settting_event VENDOR_OP_ATTR_SET_ACK [17; 240; 4; 10; 16; 33; 0; 1; 1] 9 5 s
  = Some (_genie_time_errcode_status TIMING_PERIODIC_SETTING_T ERR_CODE_TIMER_PRIORDIC_PARAM 4 5 s).
Proof.
  intros s. apply (unset_clock_errcodes 4 5 s [0; 0; 0; 0] 1 33 10 16); [reflexivity|reflexivity|reflexivity|lia|lia].
Defined.
