(* ===== verification/EventBase.v ===== *)
(** * EventBase: messages to the MCU and application events (genie_event.c)

    The part of genie_event.c the models and the timers call: [genie_down_msg],
    the cases of [genie_event] that only inform the application, and the timeout
    case, which makes the transport layer and the event layer the uplink of the
    timers. *)
From Stdlib Require Import ZArith Lia List Bool.
From stdpp Require Import base list numbers option.
From S2P Require Import Prelude Env Transport Calendar GenieTime TimePool TimeMsg.
Local Open Scope Z_scope.

(** [sig_model_msg]. *)
Record sig_model_msg := mkSigMsg { sm_element_id : Z; sm_opcode : Z; sm_len : Z; sm_data : list Z }.

(** The message types of [genie_down_msg], with the structure its pointer has. *)
Inductive down_mesg :=
| GENIE_DOWN_MESG_VENDOR_TYPE (m : genie_transport_model_param_t)
| GENIE_DOWN_MESG_SIG_TYPE (m : sig_model_msg).

(** What is written to the buffer of [n] bytes that is sent to the MCU. *)
Definition down_bytes (n : Z) (bytes : list Z) : list Z := take (Z.to_nat n) bytes.

Definition genie_down_msg (p_msg : down_mesg) (opcode : Z) (e : env) : Z * env :=
  if negb (event_cb e) then (-1, e)
  else match p_msg with
  | GENIE_DOWN_MESG_VENDOR_TYPE m =>
      if negb (malloc_ok e) then (-1, e)
      else (0, emit (DownMsg (down_bytes (u16 (4 + len m))
             ([opid m; u8 opcode; u8 (Z.shiftr opcode 8); tid m]
              ++ (if len m >? 0 then read_mem (data m) (len m) else [])))) e)
  | GENIE_DOWN_MESG_SIG_TYPE m =>
      let e := emit (UserEvent GENIE_EVT_SIG_MODEL_MSG) e in
      if negb (malloc_ok e) then (-1, e)
      else if opcode <? 127
      then (0, emit (DownMsg (down_bytes (u16 (1 + sm_len m))
                     (Z.land opcode 255 :: read_mem (Some (sm_data m)) (sm_len m)))) e)
      else (0, emit (DownMsg (down_bytes (u16 (2 + sm_len m))
                     (Z.land (Z.shiftr opcode 8) 255 :: Z.land opcode 255
                      :: read_mem (Some (sm_data m)) (sm_len m)))) e)
  end.

(** [genie_event] for an event of the default case: the application is told. *)
Definition genie_event_user (ev : genie_event_e) (e : env) : env :=
  if event_cb e then emit (UserEvent ev) e else e.

(** The zeroed message with the fields [genie_model_notify_onoff_msg] sets. *)
Definition notify_param (t p : Z) : genie_transport_model_param_t :=
  mkParam None None None 0 VENDOR_OP_ATTR_SET_UNACK t 0 0 3 (Some [0; 1; p]).

Definition genie_model_notify_onoff_msg (a : vendor_attr_data_t) (s : tstate) : tstate :=
  if attr_type a =? ATTR_TYPE_GENERIC_ONOFF then
    let '(t, s) := genie_transport_gen_tid s in
    with_env (snd (genie_down_msg (GENIE_DOWN_MESG_VENDOR_TYPE (notify_param t (para a)))
                     CONFIG_MESH_VENDOR_COMPANY_ID (tenv s))) s
  else s.

(** [genie_event(GENIE_EVT_TIMEOUT, attr_data)]. *)
Definition genie_event_timeout (a : vendor_attr_data_t) (s : tstate) : tstate :=
  if negb (event_cb (tenv s)) then s
  else
    let s := genie_model_notify_onoff_msg a s in
    with_env (emit (UserEvent GENIE_EVT_TIMEOUT) (tenv s)) s.

(** The uplink of the timers in the running service. *)
#[export] Instance transport_uplink : TimeUplink tstate :=
  { ul_send := genie_transport_send_payload;
    ul_timeout_event := genie_event_timeout;
    ul_elem_find_id := λ p s, bt_mesh_elem_find_id p (tenv s) }.

(** ** Output lemmas *)

Lemma append_mesg_frame m s : let '(_, m', s') := genie_transport_append_mesg m s in
  tenv s' = tenv s /\ model_send_bytes m' = model_send_bytes m /\ p_elem m' = p_elem m /\ dst_addr m' = dst_addr m.
Proof.
  unfold genie_transport_append_mesg. destruct (Nat.leb _ _); [done|].
  unfold genie_transport_msg_node_generate. cbn [tenv lock].
  destruct (retry m >? _); destruct (malloc_ok (tenv s)); cbn [negb]; try done.
  all: cbv zeta; destruct (negb _); [|done]; by rewrite (proj1 (proj2 (k_timer_start_fields _ _))).
Qed.

(** The TID a message is sent with. *)
Definition sent_tid (m : genie_transport_model_param_t) (s : tstate) : Z :=
  if tid m =? 0 then fst (genie_transport_gen_tid s) else tid m.

Lemma send_model_output m d s : List.NoDup (tids (send_list s)) → data m = Some d →
  Z.of_nat (length d) = len m → 0 < len m <= 92 → provisioned (tenv s) = true →
  vnd_model (tenv s) (p_elem m) = true → sendable_opid (opid m) = true →
  tid_out_of_range (with_tid (sent_tid m s) m) = false →
  let s' := snd (genie_transport_send_model m s) in
  tenv s' = emit (TxAccess (mkCtx 0 (appkey_id (tenv s)) (if dst_addr m =? 0 then 61440 else dst_addr m) 3 0)
                   (opid m :: 168 :: 1 :: sent_tid m s :: d)) (tenv s).
Proof.
  intros ND D DL L P V O R. rewrite send_model_unfold by (congruence || lia).
  assert (exists s1, assign_tid m s = (with_tid (sent_tid m s) m, s1) /\ tenv s1 = tenv s /\ send_list s1 = send_list s)
    as (s1 & -> & E1 & E2).
  { unfold assign_tid, sent_tid. destruct (tid m =? 0); [|exists s; by destruct m].
    destruct (genie_transport_gen_tid s) as [t s1] eqn:G. exists s1. split; [done|].
    revert G. unfold genie_transport_gen_tid. by intros [= _ <-]. }
  rewrite R. cbv zeta. destruct (drop_pending_spec (tid (with_tid (sent_tid m s) m)) s1) as (_ & _ & D3 & _); [by rewrite E2|].
  set (m1 := with_tid (sent_tid m s) m) in *. set (s2 := drop_pending (tid m1) s1) in *.
  assert (read_mem (data m) (len m) = d) as RM.
  { unfold read_mem. rewrite D. simpl. rewrite take_ge; [done|lia]. }
  assert (model_send_bytes m1 = opid m :: 168 :: 1 :: sent_tid m s :: d) as B.
  { unfold model_send_bytes. rewrite model_msg_init_vendor by done. cbn [m1 with_tid opid tid len data].
    destruct (Z.eqb_spec (len m) 0); [lia|]. by rewrite RM. }
  assert (forall m' s', model_send_bytes m' = model_send_bytes m1 → p_elem m' = p_elem m1 → dst_addr m' = dst_addr m1 →
    tenv s' = tenv s → tenv (snd (let '(r, e) := genie_transport_model_send m' (tenv s') in (r, with_env e s')))
     = emit (TxAccess (mkCtx 0 (appkey_id (tenv s)) (if dst_addr m =? 0 then 61440 else dst_addr m) 3 0)
                   (opid m :: 168 :: 1 :: sent_tid m s :: d)) (tenv s)) as SEND.
  { intros m' s' B1 B2 B3 ->. rewrite model_send_fits; [unfold tx_of; by rewrite B1, B3, B| |by rewrite B2].
    unfold fits_mtu, GENIE_MODEL_MTU. rewrite B1, B. cbn [length]. lia. }
  destruct (wants_retransmit m1).
  - pose proof (append_mesg_frame m1 s2) as F. destruct (genie_transport_append_mesg m1 s2) as [[r m2] s3].
    destruct F as (F1 & F2 & F3 & F4). apply SEND; [done..|]. congruence.
  - apply SEND; [done..|]. congruence.
Qed.

(** A service whose node can send: provisioned, vendor model on its elements. *)
Definition can_send (s : tstate) : Prop :=
  twf s /\ provisioned (tenv s) = true /\ event_cb (tenv s) = true /\ malloc_ok (tenv s) = true
  /\ 0 < elem_count (tenv s) /\ vnd_model (tenv s) (Some 0) = true.

Lemma notify_onoff_output a s : attr_type a = ATTR_TYPE_GENERIC_ONOFF → event_cb (tenv s) = true →
  malloc_ok (tenv s) = true →
  genie_event_timeout a s
  = with_env (emit (UserEvent GENIE_EVT_TIMEOUT)
               (emit (DownMsg [210; 168; 1; fst (genie_transport_gen_tid s); 0; 1; para a]) (tenv s)))
             (snd (genie_transport_gen_tid s)).
Proof.
  intros A E M. unfold genie_event_timeout. rewrite E. cbn [negb].
  unfold genie_model_notify_onoff_msg. rewrite A, Z.eqb_refl.
  destruct (genie_transport_gen_tid s) as [t s1] eqn:G. assert (tenv s1 = tenv s) as E1.
  { revert G. unfold genie_transport_gen_tid. by intros [= _ <-]. }
  unfold genie_down_msg. rewrite E1, E, M. cbn. done.
Qed.

(** The whole path of a timer: when the work item finds one due on/off timer, the
    MCU gets the vendor SET_UNACK frame with the on/off attribute and the timer's
    value, the application the timeout event, and the cloud an INDICATE message
    with the timing-timeout event and the timer's index, in that order and nothing
    else. *)
Theorem timer_reaches_cloud x (s : gtstate tstate) : TimePool.running s → can_send (uplink s) →
  List.filter (TimePool.due (unix_time (genie_time_timer s))) (TimePool.p_active (TimePool.abs s)) = [x] →
  TimePool.sync_due s = false → attr_type (attr_data x) = ATTR_TYPE_GENERIC_ONOFF →
  let u := uplink s in
  let t1 := fst (genie_transport_gen_tid u) in
  let t2 := fst (genie_transport_gen_tid (snd (genie_transport_gen_tid u))) in
  out (tenv (uplink (genie_time_do_work s)))
  = out (tenv u) ++ [DownMsg [210; 168; 1; t1; 0; 1; para (attr_data x)]; UserEvent GENIE_EVT_TIMEOUT;
                     TxAccess (mkCtx 0 (appkey_id (tenv u)) 61440 3 0) [212; 168; 1; t2; 9; 240; 17; index x]].
Proof.
  intros R (W & P & E & M & EC & V) F SD A u t1 t2.
  destruct (TimePool.do_work_spec s R) as (_ & _ & -> & _). rewrite F, SD. cbn [fold_left].
  unfold TimePool.notify. cbn [ul_timeout_event ul_send transport_uplink].
  rewrite notify_onoff_output by done. fold u t1.
  set (u1 := with_env _ (snd (genie_transport_gen_tid u))).
  unfold genie_transport_send_payload. cbn [p_payload payload_param].
  set (m := mkParam _ _ _ _ _ _ _ _ _ _).
  assert (tenv (snd (genie_transport_gen_tid u)) = tenv u) as E1 by done.
  assert (sent_tid m u1 = t2) as ST.
  { unfold sent_tid, t2. cbn [m tid]. change (pl_tid _ =? 0) with true. cbv iota.
    unfold genie_transport_gen_tid. cbn [u1 with_env gen_tid tenv rand emit snd with_gen_tid]. done. }
  rewrite (send_model_output m [9; 240; 17; index x] u1); [..|].
  - rewrite ST. cbn [m opid dst_addr payload_param pl_opid pl_dst_addr]. cbn. rewrite <- !app_assoc. done.
  - destruct W as (_ & ND & _). exact ND.
  - done.
  - done.
  - done.
  - done.
  - assert (p_elem m = Some 0) as ->; [|exact V].
    change (p_elem m) with (if 0 <? elem_count (tenv (uplink s)) then Some 0 else None).
    by rewrite (proj2 (Z.ltb_lt _ _) EC).
  - done.
  - by apply (gen_tid_accepted _ (snd (genie_transport_gen_tid u))).
Qed.

(** A provisioned node, its clock set, one on/off timer due at the next tick. *)
Definition node_run : gtstate tstate :=
  timer_update (snd (genie_time_start 3 1614427201 (Some (mkAttr 256 1))
    (snd (genie_time_local_time_update 1614427200 (snd (genie_time_init (TimePool.time_boot (transport_boot env0)))))))).

Lemma timer_reaches_cloud_witness :
  out (tenv (uplink (genie_time_do_work node_run)))
  = [DownMsg [210; 168; 1; 133; 0; 1; 1]; UserEvent GENIE_EVT_TIMEOUT;
     TxAccess (mkCtx 0 0 61440 3 0) [212; 168; 1; 134; 9; 240; 17; 3]].
Proof.
  assert (TimePool.running node_run) as R.
  { split; [|by vm_compute]. unfold node_run.
    set (s := snd (genie_time_init (TimePool.time_boot (transport_boot env0)))).
    assert (TimePool.gt_wf s) as W0 by (exact (TimePool.init_pool_wf (TimePool.time_boot (transport_boot env0)) eq_refl)).
    assert (TimePool.gt_wf (snd (genie_time_local_time_update 1614427200 s))) as W1
      by (exact (TimePool.gtstep_wf _ _ (TimePool.step_clock _ _) W0)).
    exact (TimePool.start_wf 3 1614427201 (Some (mkAttr 256 1)) _ W1). }
  rewrite (timer_reaches_cloud (mkTimer 3 TIMER_ON false 0 0 1614427201 (mkAttr 256 1)) node_run R).
  - vm_compute. reflexivity.
  - split; [apply transport_boot_twf; simpl; lia|by vm_compute].
  - vm_compute. reflexivity.
  - vm_compute. reflexivity.
  - reflexivity.
Defined.
