(* ===== verification/SigModel.v ===== *)
(** * SigModel: element state, transitions and events of the SIG models

    sig_model.h, sig_model_transition.c, sig_model_bind_ops.c, sig_model_event.c,
    and the two timer callbacks the light application installs (light.c).  An
    operation takes the element it works on and the context all elements share:
    the indicate flags, the boot state and the transport layer.  [None] is a
    division by zero, or no fuel left in the event dispatcher. *)
From Stdlib Require Import ZArith Lia List Bool.
From stdpp Require Import base list numbers option.
From S2P Require Import Prelude Env Transport Calendar GenieTime TimePool TimeMsg EventBase.
Local Open Scope Z_scope.

Definition ATTR_TYPE_LIGHTNESS : Z := 289. (* 0x0121 *)
Definition ATTR_TYPE_COLOR_TEMPERATURE : Z := 290.
Definition ATTR_TYPE_SENCE : Z := 61444. (* 0xF004 *)
Definition LIGHTNESS_DEFAULT : Z := 58982. (* 0xE666 *)
Definition LIGHTNESS_MAX_VALUE : Z := 65535.
Definition COLOR_TEMPERATURE_MIN : Z := 800.
Definition COLOR_TEMPERATURE_MAX : Z := 20000.
Definition COLOR_TEMPERATURE_DEFAULT : Z := COLOR_TEMPERATURE_MAX.
Definition SIG_MODEL_TRANSITION_INTERVAL : Z := 20.
Definition TRANSITION_TIME_VALUE_MIN : Z := 0.
Definition TRANSITION_TIME_VALUE_MAX : Z := 62.
Definition TRANSITION_TIME_VALUE_INVALID : Z := 63.
Definition TRANSITION_TIME_VALUE_MASK : Z := 63.
Definition SIG_MODEL_INDICATE_PAYLOAD_MAX_LEN : Z := 20.

(** [sig_model_state_t]: the present ([_p]) and target ([_t]) entries of its
    arrays are fields; a timer is its timeout, 0 when it is stopped. *)
Record sig_model_state_t := mkSt {
  onoff_p : Z; onoff_t : Z; lightness_p : Z; lightness_t : Z; ct_p : Z; ct_t : Z; scene_p : Z; scene_t : Z;
  delay : Z; delay_timer : Z; trans : Z; trans_start_time : Z; trans_end_time : Z; trans_timer : Z }.

Record sig_model_powerup_t := mkPw { last_onoff : Z; last_lightness : Z; last_color_temperature : Z; last_scene : Z }.

Record sig_model_element_state_t := mkElem { elem_id : Z; st : sig_model_state_t; powerup : sig_model_powerup_t }.

(** [indicate_flags]. *)
Inductive sig_model_indicate_flag_e :=
| SIG_MODEL_INDICATE_GEN_ONOFF | SIG_MODEL_INDICATE_GEN_LIGHTNESS | SIG_MODEL_INDICATE_GEN_CTL | SIG_MODEL_INDICATE_GEN_SCENE.
#[export] Instance indicate_eq_dec : EqDecision sig_model_indicate_flag_e.
Proof. solve_decision. Defined.
Definition indicate_flags : Type := sig_model_indicate_flag_e → bool.

(** What the elements share; [normal_boot] is
    [genie_mesh_get_init_state() == GENIE_MESH_INIT_STATE_NORMAL_BOOT]. *)
Record sctx := mkSctx { flags : indicate_flags; normal_boot : bool; transport : tstate }.

Definition now32 (c : sctx) : Z := u32 (uptime (tenv (transport c))).
Definition on_transport (f : tstate → tstate) (c : sctx) : sctx := mkSctx (flags c) (normal_boot c) (f (transport c)).
Definition on_env (f : env → env) : sctx → sctx := on_transport (λ s, with_env (f (tenv s)) s).

(** [sig_model_event_set_indicate], [atomic_test_and_clear_bit]. *)
Definition set_flag (i : sig_model_indicate_flag_e) (f : indicate_flags) : indicate_flags :=
  λ j, if decide (i = j) then true else f j.
Definition clear_flag (i : sig_model_indicate_flag_e) (f : indicate_flags) : indicate_flags :=
  λ j, if decide (i = j) then false else f j.
Definition sig_model_event_set_indicate (i : sig_model_indicate_flag_e) (c : sctx) : sctx :=
  mkSctx (set_flag i (flags c)) (normal_boot c) (transport c).
Definition set_indicate_if (b : bool) (i : sig_model_indicate_flag_e) (f : indicate_flags) : indicate_flags :=
  if b then set_flag i f else f.

(** ** Field updates *)

Definition with_onoff p t (s : sig_model_state_t) := mkSt p t (lightness_p s) (lightness_t s) (ct_p s) (ct_t s)
  (scene_p s) (scene_t s) (delay s) (delay_timer s) (trans s) (trans_start_time s) (trans_end_time s) (trans_timer s).
Definition with_lightness p t (s : sig_model_state_t) := mkSt (onoff_p s) (onoff_t s) p t (ct_p s) (ct_t s)
  (scene_p s) (scene_t s) (delay s) (delay_timer s) (trans s) (trans_start_time s) (trans_end_time s) (trans_timer s).
Definition with_ct p t (s : sig_model_state_t) := mkSt (onoff_p s) (onoff_t s) (lightness_p s) (lightness_t s) p t
  (scene_p s) (scene_t s) (delay s) (delay_timer s) (trans s) (trans_start_time s) (trans_end_time s) (trans_timer s).
Definition with_scene p t (s : sig_model_state_t) := mkSt (onoff_p s) (onoff_t s) (lightness_p s) (lightness_t s)
  (ct_p s) (ct_t s) p t (delay s) (delay_timer s) (trans s) (trans_start_time s) (trans_end_time s) (trans_timer s).
Definition with_timers d tt (s : sig_model_state_t) := mkSt (onoff_p s) (onoff_t s) (lightness_p s) (lightness_t s)
  (ct_p s) (ct_t s) (scene_p s) (scene_t s) (delay s) d (trans s) (trans_start_time s) (trans_end_time s) tt.
Definition with_trans tr a b (s : sig_model_state_t) := mkSt (onoff_p s) (onoff_t s) (lightness_p s) (lightness_t s)
  (ct_p s) (ct_t s) (scene_p s) (scene_t s) (delay s) (delay_timer s) tr a b (trans_timer s).
Definition with_delay d (s : sig_model_state_t) := mkSt (onoff_p s) (onoff_t s) (lightness_p s) (lightness_t s)
  (ct_p s) (ct_t s) (scene_p s) (scene_t s) d (delay_timer s) (trans s) (trans_start_time s) (trans_end_time s) (trans_timer s).

Definition on_state (f : sig_model_state_t → sig_model_state_t) (e : sig_model_element_state_t) : sig_model_element_state_t :=
  mkElem (elem_id e) (f (st e)) (powerup e).
Definition clear_trans (s : sig_model_state_t) := with_trans 0 (trans_start_time s) (trans_end_time s) s.

(** ** Transitions *)

Definition sig_model_transition_timer_stop : sig_model_element_state_t → sig_model_element_state_t :=
  on_state (with_timers 0 0).
Definition sig_model_transition_state_reset : sig_model_element_state_t → sig_model_element_state_t :=
  on_state (with_trans 0 0 0).

Definition DELTA_ACTUAL_MIN : Z := 655.
Definition DELTA_TEMP_MIN : Z := 192.

(** The lightness branch of [sig_model_transition_update]: new present value,
    and whether the indicate flag is set. *)
Definition lightness_step (p t step : Z) : option (Z * bool) :=
  if step =? 0 then None
  else if t >? p then
    let delta := u16 ((t - p) / step) in
    let delta := if delta >? DELTA_ACTUAL_MIN then delta else DELTA_ACTUAL_MIN in
    if (LIGHTNESS_MAX_VALUE - p <? delta) || (t - p <? delta) then Some (t, true)
    else let p := u16 (p + delta) in Some (p, p =? t)
  else
    let delta := u16 ((p - t) / step) in
    let delta := if delta >? DELTA_ACTUAL_MIN then delta else DELTA_ACTUAL_MIN in
    if (p <? delta) || (p - delta <? t) then Some (t, true)
    else let p := u16 (p - delta) in Some (p, p =? t).

(** The colour temperature branch; going up, the step is added a second time. *)
Definition ct_step (p t step : Z) : option (Z * bool) :=
  if step =? 0 then None
  else if t >? p then
    let delta := u16 ((t - p) / step) in
    let delta := if delta >? DELTA_TEMP_MIN then delta else DELTA_TEMP_MIN in
    let '(p, i) := if (COLOR_TEMPERATURE_MAX - p <? delta) || (t - p <? delta) then (t, true)
                   else let p := u16 (p + delta) in (p, p =? t) in
    let delta := u16 (delta + p) in
    Some (if delta >? t then t else delta, i)
  else
    let delta := u16 ((p - t) / step) in
    let delta := if delta >? DELTA_TEMP_MIN then delta else DELTA_TEMP_MIN in
    if (p <? delta + COLOR_TEMPERATURE_MIN) || (p - delta <? t) then Some (t, true)
    else let p := u16 (p - delta) in Some (p, p =? t).

(** The part of [sig_model_transition_update] before the end time: state, flags, [cycle]. *)
Definition transition_step (s : sig_model_state_t) (f : indicate_flags) (step : Z)
  : option (sig_model_state_t * indicate_flags * bool) :=
  let f := set_indicate_if (negb (onoff_p s =? onoff_t s)) SIG_MODEL_INDICATE_GEN_ONOFF f in
  let s := with_onoff (onoff_t s) (onoff_t s) s in
  match (if lightness_p s =? lightness_t s then Some (lightness_p s, false, false)
         else match lightness_step (lightness_p s) (lightness_t s) step with
              | Some (p, i) => Some (p, i, true) | None => None end) with
  | None => None
  | Some (p, i, cycle) =>
      let f := set_indicate_if i SIG_MODEL_INDICATE_GEN_LIGHTNESS f in
      let s := with_lightness p (lightness_t s) s in
      match (if ct_p s =? ct_t s then Some (ct_p s, false, cycle)
             else match ct_step (ct_p s) (ct_t s) step with
                  | Some (p, i) => Some (p, i, true) | None => None end) with
      | None => None
      | Some (p, i, cycle) =>
          Some (with_ct p (ct_t s) s, set_indicate_if i SIG_MODEL_INDICATE_GEN_CTL f, cycle)
      end
  end.

(** The end of [sig_model_transition_update], when [cycle] is 0. *)
Definition transition_finish (s : sig_model_state_t) (f : indicate_flags) : sig_model_state_t * indicate_flags :=
  let s := if lightness_t s =? 0 then with_onoff (onoff_p s) 0 s else s in
  let f := set_indicate_if (negb (onoff_p s =? onoff_t s)) SIG_MODEL_INDICATE_GEN_ONOFF f in
  let s := with_onoff (onoff_t s) (onoff_t s) s in
  let f := set_indicate_if (negb (lightness_p s =? lightness_t s)) SIG_MODEL_INDICATE_GEN_LIGHTNESS f in
  let s := with_lightness (lightness_t s) (lightness_t s) s in
  let f := set_indicate_if (negb (ct_p s =? ct_t s)) SIG_MODEL_INDICATE_GEN_CTL f in
  let s := with_ct (ct_t s) (ct_t s) s in
  (clear_trans s, f).

Definition settled (s : sig_model_state_t) : bool :=
  (onoff_p s =? onoff_t s) && (lightness_p s =? lightness_t s) && (ct_p s =? ct_t s).

Definition sig_model_transition_update (s : sig_model_state_t) (f : indicate_flags) (cur_time : Z)
  : option (Z * sig_model_state_t * indicate_flags) :=
  match (if cur_time <=? u32 (trans_end_time s - SIG_MODEL_TRANSITION_INTERVAL)
         then transition_step s f (u16 (u32 (trans_end_time s - cur_time) / SIG_MODEL_TRANSITION_INTERVAL))
         else Some (s, f, false)) with
  | None => None
  | Some (s, f, cycle) =>
      let cycle := if settled s then false else cycle in
      if cycle then Some (1, s, f)
      else let '(s, f) := transition_finish s f in Some (0, s, f)
  end.

Definition TRANS_TIMES : list Z := [100; 1000; 10 * 1000; 10 * 60 * 1000].
Definition TRANS_TIME (i : Z) : Z := nth (Z.to_nat i) TRANS_TIMES 0.
Definition TRANSITION_TIME_UNIT_BIT (unit_value : Z) : Z := Z.shiftl unit_value 6.

Definition _get_transition_byte (time : Z) : Z :=
  if time >? TRANS_TIME 3 * TRANSITION_TIME_VALUE_MAX then 0
  else if time >? TRANS_TIME 2 * TRANSITION_TIME_VALUE_MAX
  then u8 (Z.lor (time / TRANS_TIME 3) (TRANSITION_TIME_UNIT_BIT 3))
  else if time >? TRANS_TIME 1 * TRANSITION_TIME_VALUE_MAX
  then u8 (Z.lor (time / TRANS_TIME 2) (TRANSITION_TIME_UNIT_BIT 2))
  else if time >? TRANS_TIME 0 * TRANSITION_TIME_VALUE_MAX
  then u8 (Z.lor (time / TRANS_TIME 1) (TRANSITION_TIME_UNIT_BIT 1))
  else u8 (time / TRANS_TIME 0).

Definition sig_model_transition_get_transition_time (byte : Z) : Z :=
  if Z.land byte TRANSITION_TIME_VALUE_MASK =? TRANSITION_TIME_VALUE_INVALID then TRANSITION_TIME_VALUE_INVALID
  else Z.land byte TRANSITION_TIME_VALUE_MASK * TRANS_TIME (Z.shiftr byte 6).

(** [passed_time] is 0 minus the start time: the current time is not added. *)
Definition sig_model_transition_get_remain_time_byte (s : sig_model_state_t) (is_ack : bool) (cur_time : Z) : Z :=
  if negb is_ack && (trans_start_time s <? cur_time) then
    let passed_time := 0 - trans_start_time s in
    let trans_duration := sig_model_transition_get_transition_time (trans s) in
    if trans_duration >? passed_time then _get_transition_byte (u32 (trans_duration - passed_time))
    else TRANSITION_TIME_VALUE_MIN
  else trans s.

(** ** Binding of the states *)

Definition sig_model_lightness_update_by_onoff (e : sig_model_element_state_t) : sig_model_element_state_t :=
  let s := st e in
  if (onoff_p s =? 0) && (onoff_t s =? 1) then
    on_state (with_lightness (lightness_p s) (if truthy (last_lightness (powerup e)) then last_lightness (powerup e)
                                              else LIGHTNESS_DEFAULT)) e
  else if (onoff_p s =? 1) && (onoff_t s =? 0) then on_state (with_lightness (lightness_p s) 0) e
  else e.

Definition sig_model_light_ctl_update_by_onoff (e : sig_model_element_state_t) (c : sctx) : sig_model_element_state_t * sctx :=
  let s := st e in
  if (onoff_p s =? 0) && (onoff_t s =? 1) then
    if negb (ct_p s =? ct_t s) then
      (on_state (with_ct (ct_p s) (if truthy (last_color_temperature (powerup e)) then last_color_temperature (powerup e)
                                   else COLOR_TEMPERATURE_DEFAULT)) e,
       sig_model_event_set_indicate SIG_MODEL_INDICATE_GEN_CTL c)
    else (e, c)
  else (e, c).

Definition sig_model_generic_onoff_bind_ops (e : sig_model_element_state_t) (c : sctx) : sig_model_element_state_t * sctx :=
  sig_model_light_ctl_update_by_onoff (sig_model_lightness_update_by_onoff e) c.

(** [sig_model_onoff_update_by_lightness] with TYPE_TARGET, and with TYPE_PRESENT. *)
Inductive E_VALUE_TYPE := TYPE_PRESENT | TYPE_TARGET.
Definition sig_model_onoff_update_by_lightness (ty : E_VALUE_TYPE) (e : sig_model_element_state_t) : sig_model_element_state_t :=
  let s := st e in
  match ty with
  | TYPE_TARGET =>
      if (lightness_p s =? 0) && negb (lightness_t s =? 0) then on_state (with_onoff (onoff_p s) 1) e
      else if negb (lightness_p s =? 0) && (lightness_t s =? 0) then on_state (with_onoff (onoff_p s) 0) e
      else e
  | TYPE_PRESENT =>
      if (lightness_p s =? 0) && (lightness_t s =? 0) then on_state (with_onoff 0 (onoff_t s)) e else e
  end.
Definition sig_model_generic_lightness_bind_ops (e : sig_model_element_state_t) (ty : E_VALUE_TYPE) : sig_model_element_state_t :=
  sig_model_onoff_update_by_lightness ty e.

Definition sig_model_onoff_update_by_color_temperature (e : sig_model_element_state_t) (c : sctx) : sig_model_element_state_t * sctx :=
  if onoff_t (st e) =? 0 then sig_model_generic_onoff_bind_ops (on_state (with_onoff (onoff_p (st e)) 1) e) c
  else (e, c).
Definition sig_model_generic_color_temperature_bind_ops := sig_model_onoff_update_by_color_temperature.

(** ** Events *)

Inductive sig_model_event_e :=
| SIG_MODEL_EVT_NONE | SIG_MODEL_EVT_ANALYZE_MSG | SIG_MODEL_EVT_ACTION_DONE | SIG_MODEL_EVT_INDICATE
| SIG_MODEL_EVT_DELAY_START | SIG_MODEL_EVT_DELAY_END | SIG_MODEL_EVT_TRANS_START | SIG_MODEL_EVT_TRANS_CYCLE
| SIG_MODEL_EVT_TRANS_END.
#[export] Instance sig_event_eq_dec : EqDecision sig_model_event_e.
Proof. solve_decision. Defined.

(** A handler: the element and the context it leaves, and the next event. *)
Definition handled : Type := sig_model_event_e * sig_model_element_state_t * sctx.

Definition sig_model_event_handle_delay_start (e : sig_model_element_state_t) (c : sctx) : handled :=
  (SIG_MODEL_EVT_NONE, on_state (λ s, with_timers (delay s * 5) (trans_timer s) s) (sig_model_transition_timer_stop e), c).

Definition sig_model_event_handle_delay_end (e : sig_model_element_state_t) (c : sctx) : handled :=
  let e := on_state (with_delay 0) e in
  if (trans (st e) =? 0) || (now32 c >=? trans_end_time (st e))
  then (SIG_MODEL_EVT_ACTION_DONE, sig_model_transition_state_reset e, c)
  else (SIG_MODEL_EVT_TRANS_START, e, c).

Definition sig_model_event_handle_trans_start (e : sig_model_element_state_t) (c : sctx) : handled :=
  let e := sig_model_transition_timer_stop e in
  if now32 c >=? u32 (trans_end_time (st e) - SIG_MODEL_TRANSITION_INTERVAL) then (SIG_MODEL_EVT_TRANS_END, e, c)
  else (SIG_MODEL_EVT_NONE, on_state (λ s, with_timers (delay_timer s) SIG_MODEL_TRANSITION_INTERVAL s) e, c).

Definition sig_model_event_handle_trans_cycle (e : sig_model_element_state_t) (c : sctx) : option handled :=
  match sig_model_transition_update (st e) (flags c) (now32 c) with
  | None => None
  | Some (r, s, f) =>
      let e := on_state (λ _, s) e in
      let c := mkSctx f (normal_boot c) (transport c) in
      Some (SIG_MODEL_EVT_NONE, if r =? 0 then on_state clear_trans e else e, c)
  end.

Definition sig_model_event_handle_trans_end (e : sig_model_element_state_t) (c : sctx) : handled :=
  (SIG_MODEL_EVT_ACTION_DONE, sig_model_transition_state_reset e, c).

Definition sig_model_event_handle_analyze_msg (e : sig_model_element_state_t) (c : sctx) : handled :=
  (if truthy (trans (st e)) || truthy (delay (st e)) then
     if truthy (delay (st e)) then SIG_MODEL_EVT_DELAY_START else SIG_MODEL_EVT_TRANS_START
   else SIG_MODEL_EVT_ACTION_DONE, e, c).

Definition sig_model_handle_action_done (e : sig_model_element_state_t) (c : sctx) : handled :=
  let s := st e in
  let f := set_indicate_if (negb (onoff_p s =? onoff_t s)) SIG_MODEL_INDICATE_GEN_ONOFF (flags c) in
  let f := set_indicate_if (negb (lightness_p s =? lightness_t s)) SIG_MODEL_INDICATE_GEN_LIGHTNESS f in
  let f := set_indicate_if (negb (ct_p s =? ct_t s)) SIG_MODEL_INDICATE_GEN_CTL f in
  let f := set_indicate_if (negb (scene_p s =? scene_t s)) SIG_MODEL_INDICATE_GEN_SCENE f in
  let s := with_scene (scene_t s) (scene_t s) (with_ct (ct_t s) (ct_t s)
             (with_lightness (lightness_t s) (lightness_t s) (with_onoff (onoff_t s) (onoff_t s) s))) in
  (if provisioned (tenv (transport c)) && normal_boot c then SIG_MODEL_EVT_INDICATE else SIG_MODEL_EVT_NONE,
   on_state (λ _, s) e, mkSctx f (normal_boot c) (transport c)).

(** The payload of [sig_model_handle_indicate]. *)
Definition indicate_payload (s : sig_model_state_t) (f : indicate_flags) : list Z :=
  (if f SIG_MODEL_INDICATE_GEN_ONOFF then le16 ATTR_TYPE_GENERIC_ONOFF ++ [onoff_p s] else [])
  ++ (if f SIG_MODEL_INDICATE_GEN_LIGHTNESS then le16 ATTR_TYPE_LIGHTNESS ++ le16 (lightness_p s) else [])
  ++ (if f SIG_MODEL_INDICATE_GEN_CTL then le16 ATTR_TYPE_COLOR_TEMPERATURE ++ le16 (ct_p s) else [])
  ++ (if f SIG_MODEL_INDICATE_GEN_SCENE then le16 ATTR_TYPE_SENCE ++ le16 (scene_p s) else []).

Definition indicate_param (e : sig_model_element_state_t) (payload : list Z) (en : env) : genie_transport_model_param_t :=
  let n := Z.min SIG_MODEL_INDICATE_PAYLOAD_MAX_LEN (Z.of_nat (length payload)) in
  mkParam (bt_mesh_elem_find_by_id (elem_id e) en) None None GENIE_TRANSPORT_DEFAULT_RETRY_COUNT
    VENDOR_OP_ATTR_INDICATE 0 0 (u16 (GENIE_TRANSPORT_EACH_PDU_TIMEOUT * genie_transport_get_seg_count n)) n (Some payload).

Definition sig_model_handle_indicate (e : sig_model_element_state_t) (c : sctx) : handled :=
  let payload := indicate_payload (st e) (flags c) in
  let c := mkSctx (λ _, false) (normal_boot c) (transport c) in
  let c := match payload with
           | [] => c
           | _ => on_transport (λ s, snd (genie_transport_send_model (indicate_param e payload (tenv s)) s)) c
           end in
  (SIG_MODEL_EVT_NONE, e, c).

(** The handler of an event. *)
Definition sig_model_event_handle (ev : sig_model_event_e) (e : sig_model_element_state_t) (c : sctx) : option handled :=
  match ev with
  | SIG_MODEL_EVT_INDICATE => Some (sig_model_handle_indicate e c)
  | SIG_MODEL_EVT_ACTION_DONE => Some (sig_model_handle_action_done e c)
  | SIG_MODEL_EVT_ANALYZE_MSG => Some (sig_model_event_handle_analyze_msg e c)
  | SIG_MODEL_EVT_DELAY_START => Some (sig_model_event_handle_delay_start e c)
  | SIG_MODEL_EVT_DELAY_END => Some (sig_model_event_handle_delay_end e c)
  | SIG_MODEL_EVT_TRANS_START => Some (sig_model_event_handle_trans_start e c)
  | SIG_MODEL_EVT_TRANS_CYCLE => sig_model_event_handle_trans_cycle e c
  | SIG_MODEL_EVT_TRANS_END => Some (sig_model_event_handle_trans_end e c)
  | SIG_MODEL_EVT_NONE => Some (SIG_MODEL_EVT_NONE, e, c)
  end.

Fixpoint sig_model_event_fuel (fuel : nat) (ev : sig_model_event_e) (e : sig_model_element_state_t) (c : sctx)
  : option (sig_model_element_state_t * sctx) :=
  match fuel with
  | O => None
  | S fuel =>
      match sig_model_event_handle ev e c with
      | None => None
      | Some (next, e, c) =>
          match (if decide (next = SIG_MODEL_EVT_NONE) then Some (e, c) else sig_model_event_fuel fuel next e c) with
          | None => None
          | Some (e, c) =>
              let c := if decide (ev = SIG_MODEL_EVT_ACTION_DONE)
                       then on_env (genie_event_user GENIE_EVT_USER_ACTION_DONE) c else c in
              let c := if decide (ev = SIG_MODEL_EVT_TRANS_CYCLE)
                       then on_env (genie_event_user GENIE_EVT_USER_TRANS_CYCLE) c else c in
              Some (e, c)
          end
      end
  end.

(** Five nested events at most. *)
Definition sig_model_event := sig_model_event_fuel 5.

(** [sig_model_event(SIG_MODEL_EVT_GENERIC_MESG, msg)]. *)
Definition sig_model_event_generic (m : sig_model_msg) (c : sctx) : sctx :=
  on_env (λ e, snd (genie_down_msg (GENIE_DOWN_MESG_SIG_TYPE m) (sm_opcode m) e)) c.

(** ** The timer callbacks of the application *)

Definition _mesh_delay_timer_cb (e : sig_model_element_state_t) (c : sctx) : option (sig_model_element_state_t * sctx) :=
  sig_model_event SIG_MODEL_EVT_DELAY_END (sig_model_transition_timer_stop e) c.

Definition _mesh_trans_timer_cycle (e : sig_model_element_state_t) (c : sctx) : option (sig_model_element_state_t * sctx) :=
  match sig_model_event SIG_MODEL_EVT_TRANS_CYCLE (sig_model_transition_timer_stop e) c with
  | None => None
  | Some (e, c) =>
      if trans (st e) =? 0 then sig_model_event SIG_MODEL_EVT_TRANS_END e c
      else Some (on_state (λ s, with_timers (delay_timer s) SIG_MODEL_TRANSITION_INTERVAL s) e, c)
  end.
