(* ===== verification/SigTransition.v ===== *)
(** * SigTransition: the transition time codec, the transition steps and their end

    Theorems on SigModel: encoding of transition times, bounded depth of the event
    dispatcher, convergence of the transition steps, division by zero. *)
From Stdlib Require Import ZArith Lia List Bool.
From stdpp Require Import base list numbers option.
From S2P Require Import Prelude Env Transport Calendar GenieTime TimePool TimeMsg EventBase SigModel.
Local Open Scope Z_scope.

(** ** Transition time bytes *)

(** A byte with the 6-bit value [v] and the unit [u]. *)
Lemma transition_byte v u : 0 <= v < 64 → 0 <= u < 4 →
  u8 (Z.lor v (TRANSITION_TIME_UNIT_BIT u)) = v + 64 * u
  /\ Z.land (v + 64 * u) TRANSITION_TIME_VALUE_MASK = v /\ Z.shiftr (v + 64 * u) 6 = u.
Proof.
  intros Hv Hu. unfold TRANSITION_TIME_UNIT_BIT, TRANSITION_TIME_VALUE_MASK.
  rewrite lor_shiftl by (simpl; lia). change (2 ^ 6) with 64. rewrite land_63, Z.shiftr_div_pow2 by lia.
  change (2 ^ 6) with 64. rewrite u8_small by lia. repeat split; dlia.
Qed.

Lemma transition_time_of v u : 0 <= v < 63 → 0 <= u < 4 →
  sig_model_transition_get_transition_time (v + 64 * u) = v * TRANS_TIME u.
Proof.
  intros Hv Hu. unfold sig_model_transition_get_transition_time.
  destruct (transition_byte v u) as (_ & -> & ->); [lia|lia|].
  unfold TRANSITION_TIME_VALUE_INVALID. by rewrite (proj2 (Z.eqb_neq v 63)) by lia.
Qed.

(** The resolution a time is encoded with. *)
Definition time_unit (t : Z) : Z :=
  if t >? 620000 then 600000 else if t >? 62000 then 10000 else if t >? 6200 then 1000 else 100.

Lemma transition_byte_rounds t : 0 <= t <= 37200000 →
  is_u8 (_get_transition_byte t) /\ Z.land (_get_transition_byte t) TRANSITION_TIME_VALUE_MASK ≠ TRANSITION_TIME_VALUE_INVALID
  /\ sig_model_transition_get_transition_time (_get_transition_byte t) = t / time_unit t * time_unit t.
Proof.
  intros Ht. unfold _get_transition_byte, time_unit.
  change (TRANS_TIME 3 * TRANSITION_TIME_VALUE_MAX) with 37200000.
  change (TRANS_TIME 2 * TRANSITION_TIME_VALUE_MAX) with 620000.
  change (TRANS_TIME 1 * TRANSITION_TIME_VALUE_MAX) with 62000.
  change (TRANS_TIME 0 * TRANSITION_TIME_VALUE_MAX) with 6200.
  change (TRANS_TIME 3) with 600000; change (TRANS_TIME 2) with 10000;
  change (TRANS_TIME 1) with 1000; change (TRANS_TIME 0) with 100.
  rewrite !Z.gtb_ltb. destruct (Z.ltb_spec 37200000 t); [lia|].
  assert (forall v u, 0 <= v < 63 → 0 <= u < 4 → is_u8 (v + 64 * u)
    /\ Z.land (v + 64 * u) TRANSITION_TIME_VALUE_MASK ≠ TRANSITION_TIME_VALUE_INVALID
    /\ sig_model_transition_get_transition_time (v + 64 * u) = v * TRANS_TIME u) as K.
  { intros v u Hv Hu. destruct (transition_byte v u) as (_ & -> & _); [lia|lia|].
    rewrite transition_time_of by lia. unfold TRANSITION_TIME_VALUE_INVALID. repeat split; lia. }
  destruct (Z.ltb_spec 620000 t); [|destruct (Z.ltb_spec 62000 t); [|destruct (Z.ltb_spec 6200 t)]].
  - destruct (transition_byte (t / 600000) 3) as (-> & _); [dlia|lia|]. apply (K _ 3); [dlia|lia].
  - destruct (transition_byte (t / 10000) 2) as (-> & _); [dlia|lia|]. apply (K _ 2); [dlia|lia].
  - destruct (transition_byte (t / 1000) 1) as (-> & _); [dlia|lia|]. apply (K _ 1); [dlia|lia].
  - rewrite u8_small by dlia. pose proof (K (t / 100) 0 ltac:(dlia) ltac:(lia)) as K0.
    replace (t / 100 + 64 * 0) with (t / 100) in K0 by lia. exact K0.
Qed.

(** The transition times a byte can carry are encoded without loss: all 252 of them. *)
Definition byte_roundtrip (b : Z) : bool :=
  (Z.land b 63 =? 63)
  || (sig_model_transition_get_transition_time (_get_transition_byte (sig_model_transition_get_transition_time b))
      =? sig_model_transition_get_transition_time b).
Lemma byte_roundtrip_all : forallb byte_roundtrip (map Z.of_nat (seq 0 256)) = true.
Proof. vm_compute. reflexivity. Qed.

(** The transition time codec: every valid transition byte decodes to a time
    that encodes and decodes to itself, and any time up to 62 ten-minute steps is
    encoded to a valid byte that decodes to the time rounded down to the resolution
    of its range (100 ms, 1 s, 10 s, 10 min). *)
Theorem transition_codec b t : is_u8 b → Z.land b TRANSITION_TIME_VALUE_MASK ≠ TRANSITION_TIME_VALUE_INVALID →
  0 <= t <= 37200000 →
  (let u := sig_model_transition_get_transition_time b in
   sig_model_transition_get_transition_time (_get_transition_byte u) = u)
  /\ is_u8 (_get_transition_byte t)
  /\ sig_model_transition_get_transition_time (_get_transition_byte t) = t / time_unit t * time_unit t.
Proof.
  intros Hb Hv Ht. destruct (transition_byte_rounds t Ht) as (H1 & _ & H3). split; [|done].
  pose proof (forallb_range byte_roundtrip 256 byte_roundtrip_all b ltac:(lia)) as H.
  apply orb_true_iff in H as [H|H]; apply Z.eqb_eq in H; done.
Qed.

Lemma transition_codec_witness :
  _get_transition_byte 45000 = 109 /\ sig_model_transition_get_transition_time 109 = 45000
  /\ sig_model_transition_get_transition_time (_get_transition_byte 45678) = 45000.
Proof.
  destruct (transition_codec 109 45678) as (H & _ & E); [lia|vm_compute; discriminate|lia|].
  split; [reflexivity|]. split; [exact H|]. rewrite E. reflexivity.
Defined.

(** ** The event dispatcher *)

(** How many events may still follow an event. *)
Definition rank (ev : sig_model_event_e) : nat :=
  match ev with
  | SIG_MODEL_EVT_NONE => 0 | SIG_MODEL_EVT_INDICATE => 1 | SIG_MODEL_EVT_ACTION_DONE => 2
  | SIG_MODEL_EVT_TRANS_END => 3 | SIG_MODEL_EVT_TRANS_START => 4 | SIG_MODEL_EVT_DELAY_END => 5
  | SIG_MODEL_EVT_ANALYZE_MSG => 5 | SIG_MODEL_EVT_DELAY_START => 1 | SIG_MODEL_EVT_TRANS_CYCLE => 1
  end.

Lemma handle_rank ev e c n e' c' : sig_model_event_handle ev e c = Some (n, e', c') →
  n = SIG_MODEL_EVT_NONE \/ (rank n < rank ev)%nat /\ n ≠ SIG_MODEL_EVT_TRANS_CYCLE.
Proof.
  destruct ev; cbn [sig_model_event_handle].
  - intros [= <- _ _]. by left.
  - unfold sig_model_event_handle_analyze_msg. destruct (_ || _); [destruct (truthy (delay _))|]; intros [= <- _ _]; right; cbn; split; (lia || done).
  - unfold sig_model_handle_action_done. destruct (_ && _); intros [= <- _ _]; [right; cbn; split; [lia|done]|by left].
  - unfold sig_model_handle_indicate. intros [= <- _ _]. by left.
  - unfold sig_model_event_handle_delay_start. intros [= <- _ _]. by left.
  - unfold sig_model_event_handle_delay_end. destruct (_ || _); intros [= <- _ _]; right; cbn; split; (lia || done).
  - unfold sig_model_event_handle_trans_start. destruct (_ >=? _); intros [= <- _ _]; [right; cbn; split; [lia|done]|by left].
  - unfold sig_model_event_handle_trans_cycle. destruct (sig_model_transition_update _ _ _) as [[[r s] f]|]; [|done].
    intros [= <- _ _]. by left.
  - unfold sig_model_event_handle_trans_end. intros [= <- _ _]. right. cbn. split; [lia|done].
Qed.

Lemma event_fuel_some fuel : forall ev e c, ev ≠ SIG_MODEL_EVT_TRANS_CYCLE → (rank ev <= fuel)%nat → fuel ≠ O →
  is_Some (sig_model_event_fuel fuel ev e c).
Proof.
  induction fuel as [|fuel IH]; intros ev e c N R F; [done|]. cbn [sig_model_event_fuel].
  assert (exists n e' c', sig_model_event_handle ev e c = Some (n, e', c')) as (n & e' & c' & H).
  { destruct ev; cbn [sig_model_event_handle]; try done; eexists _, _, _; try reflexivity.
    all: unfold sig_model_event_handle_delay_end, sig_model_event_handle_trans_start, sig_model_handle_action_done, sig_model_handle_indicate.
    all: try (rewrite <- surjective_pairing; f_equal; apply surjective_pairing). }
  rewrite H. apply handle_rank in H as [->|[Hr Nc]]; [rewrite decide_True by done; eauto|].
  destruct (decide (n = SIG_MODEL_EVT_NONE)); [eauto|].
  destruct (IH n e' c' Nc ltac:(lia)) as [[e2 c2] ->]; [|eauto].
  destruct fuel; [|done]. destruct n; cbn in Hr; (done || lia).
Qed.

Lemma event_fuel_mono fuel : forall k ev e c r, sig_model_event_fuel fuel ev e c = Some r →
  sig_model_event_fuel (fuel + k) ev e c = Some r.
Proof.
  induction fuel as [|fuel IH]; intros k ev e c r; [done|]. cbn [sig_model_event_fuel Nat.add].
  destruct (sig_model_event_handle ev e c) as [[[n e1] c1]|]; [|done].
  destruct (decide (n = SIG_MODEL_EVT_NONE)); [done|].
  destruct (sig_model_event_fuel fuel n e1 c1) as [[e2 c2]|] eqn:E; [|done]. by rewrite (IH k _ _ _ _ E).
Qed.

(** The event dispatcher ends: whatever the event (a transition cycle
    provided its step does not divide by zero), at most five events are nested, so
    the five levels of [sig_model_event] give a result and more do not change it. *)
Theorem sig_event_terminates ev e c k :
  (ev = SIG_MODEL_EVT_TRANS_CYCLE → sig_model_transition_update (st e) (flags c) (now32 c) ≠ None) →
  exists r, sig_model_event ev e c = Some r /\ sig_model_event_fuel (5 + k) ev e c = Some r.
Proof.
  intros H. assert (is_Some (sig_model_event ev e c)) as [r E].
  { destruct (decide (ev = SIG_MODEL_EVT_TRANS_CYCLE)) as [->|N].
    - specialize (H eq_refl). unfold sig_model_event. cbn [sig_model_event_fuel sig_model_event_handle].
      unfold sig_model_event_handle_trans_cycle.
      destruct (sig_model_transition_update _ _ _) as [[[r s] f]|]; [|done]. rewrite decide_True by done. eauto.
    - apply event_fuel_some; [done| |done]. destruct ev; cbn; lia. }
  exists r. split; [done|]. by apply event_fuel_mono.
Qed.

(** ** Steps *)

Definition st_wf (s : sig_model_state_t) : Prop :=
  is_u16 (lightness_p s) /\ is_u16 (lightness_t s)
  /\ 0 <= ct_p s <= COLOR_TEMPERATURE_MAX /\ 0 <= ct_t s <= COLOR_TEMPERATURE_MAX.

(** A value [p'] on the way from [p] to [t], at least [d] closer unless it is there. *)
Definition closer (d p t p' : Z) : Prop :=
  (p <= p' <= t \/ t <= p' <= p) /\ Z.abs (t - p') <= Z.max 0 (Z.abs (t - p) - d).

Lemma lightness_step_spec p t step : is_u16 p → is_u16 t → p ≠ t → 0 < step < 65536 →
  exists p' i, lightness_step p t step = Some (p', i) /\ closer DELTA_ACTUAL_MIN p t p' /\ (i = true ↔ p' = t).
Proof.
  intros Hp Ht N Hs. unfold lightness_step, closer, LIGHTNESS_MAX_VALUE. cbv zeta.
  rewrite (proj2 (Z.eqb_neq step 0)) by lia. rewrite !Z.gtb_ltb. destruct (Z.ltb_spec p t).
  - assert (0 <= (t - p) / step < 65536) as D by (split; [apply Z.div_pos; lia|apply Z.div_lt_upper_bound; nia]).
    rewrite u16_small by lia. set (d := if DELTA_ACTUAL_MIN <? (t - p) / step then _ else _).
    assert (655 <= d < 65536) as Hd by (unfold d, DELTA_ACTUAL_MIN; destruct (Z.ltb_spec 655 ((t - p) / step)); lia).
    clearbody d. unfold DELTA_ACTUAL_MIN.
    destruct (Z.ltb_spec (65535 - p) d), (Z.ltb_spec (t - p) d); cbn [orb]; try (exists t, true; repeat split; try done; lia).
    rewrite u16_small by lia. exists (p + d), (p + d =? t). rewrite Z.eqb_eq. repeat split; (done || lia).
  - assert (0 <= (p - t) / step < 65536) as D by (split; [apply Z.div_pos; lia|apply Z.div_lt_upper_bound; nia]).
    rewrite u16_small by lia. set (d := if DELTA_ACTUAL_MIN <? (p - t) / step then _ else _).
    assert (655 <= d < 65536) as Hd by (unfold d, DELTA_ACTUAL_MIN; destruct (Z.ltb_spec 655 ((p - t) / step)); lia).
    clearbody d. unfold DELTA_ACTUAL_MIN.
    destruct (Z.ltb_spec p d), (Z.ltb_spec (p - d) t); cbn [orb]; try (exists t, true; repeat split; try done; lia).
    rewrite u16_small by lia. exists (p - d), (p - d =? t). rewrite Z.eqb_eq. repeat split; (done || lia).
Qed.

Lemma ct_step_spec p t step : 0 <= p <= COLOR_TEMPERATURE_MAX → 0 <= t <= COLOR_TEMPERATURE_MAX → p ≠ t →
  0 < step < 65536 → exists p' i, ct_step p t step = Some (p', i) /\ closer DELTA_TEMP_MIN p t p'.
Proof.
  unfold COLOR_TEMPERATURE_MAX. intros Hp Ht N Hs. unfold ct_step, closer, COLOR_TEMPERATURE_MAX, COLOR_TEMPERATURE_MIN. cbv zeta.
  rewrite (proj2 (Z.eqb_neq step 0)) by lia. rewrite !Z.gtb_ltb. destruct (Z.ltb_spec p t).
  - assert (0 <= (t - p) / step <= t - p) as D.
    { split; [apply Z.div_pos; lia|]. apply Z.div_le_upper_bound; nia. }
    rewrite u16_small by lia. set (d := if DELTA_TEMP_MIN <? (t - p) / step then _ else _).
    assert (192 <= d <= 20000) as Hd by (unfold d, DELTA_TEMP_MIN; destruct (Z.ltb_spec 192 ((t - p) / step)); lia).
    clearbody d. unfold DELTA_TEMP_MIN.
    destruct (Z.ltb_spec (20000 - p) d), (Z.ltb_spec (t - p) d); cbn [orb];
      rewrite ?(u16_small (p + d)) by lia; rewrite u16_small by lia; rewrite Z.gtb_ltb;
      match goal with |- context [?a <? ?b] => destruct (Z.ltb_spec a b) end;
      eexists _, _; (split; [reflexivity|]); lia.
  - assert (0 <= (p - t) / step <= p - t) as D.
    { split; [apply Z.div_pos; lia|]. apply Z.div_le_upper_bound; nia. }
    rewrite u16_small by lia. set (d := if DELTA_TEMP_MIN <? (p - t) / step then _ else _).
    assert (192 <= d <= 20000) as Hd by (unfold d, DELTA_TEMP_MIN; destruct (Z.ltb_spec 192 ((p - t) / step)); lia).
    clearbody d. unfold DELTA_TEMP_MIN.
    destruct (Z.ltb_spec p (d + 800)), (Z.ltb_spec (p - d) t); cbn [orb];
      rewrite ?u16_small by lia; eexists _, _; (split; [reflexivity|]); lia.
Qed.

(** The number of steps still needed, from the least step sizes. *)
Definition steps_left (s : sig_model_state_t) : Z :=
  (Z.abs (lightness_t s - lightness_p s) + 654) / 655 + (Z.abs (ct_t s - ct_p s) + 191) / 192.

Lemma steps_left_bound s : st_wf s → 0 <= steps_left s <= 206.
Proof. unfold st_wf, steps_left, COLOR_TEMPERATURE_MAX. intros (? & ? & ? & ?). dlia. Qed.

(** The step divides by [step]: it must not be 0 while the cycle is in time. *)
Definition step_ok (s : sig_model_state_t) (cur : Z) : Prop :=
  cur <= u32 (trans_end_time s - SIG_MODEL_TRANSITION_INTERVAL) →
  0 < u16 (u32 (trans_end_time s - cur) / SIG_MODEL_TRANSITION_INTERVAL).

Lemma step_ok_window s cur : 20 <= trans_end_time s < 4294967296 → 0 <= cur → trans_end_time s - cur < 1310720 → step_ok s cur.
Proof.
  unfold step_ok, SIG_MODEL_TRANSITION_INTERVAL. intros He Hc Hw. rewrite u32_small by lia. intros H.
  rewrite u32_small by lia. rewrite u16_small; dlia.
Qed.

Lemma transition_step_spec s f step : st_wf s → 0 < step < 65536 →
  exists s' f' cy, transition_step s f step = Some (s', f', cy)
    /\ closer 655 (lightness_p s) (lightness_t s) (lightness_p s') /\ closer 192 (ct_p s) (ct_t s) (ct_p s')
    /\ s' = with_ct (ct_p s') (ct_t s) (with_lightness (lightness_p s') (lightness_t s) (with_onoff (onoff_t s) (onoff_t s) s))
    /\ (cy = false ↔ lightness_p s = lightness_t s /\ ct_p s = ct_t s).
Proof.
  intros (Hlp & Hlt & Hcp & Hct) Hs. unfold transition_step.
  cbn [lightness_p lightness_t ct_p ct_t with_onoff with_lightness].
  assert (forall d p, closer d p p p) as Same by (intros; unfold closer; lia).
  destruct (Z.eqb_spec (lightness_p s) (lightness_t s)) as [El|Nl].
  - destruct (Z.eqb_spec (ct_p s) (ct_t s)) as [Ec|Nc].
    + eexists _, _, _. split; [reflexivity|]. cbn. rewrite <- El, <- Ec. repeat split; auto; lia.
    + destruct (ct_step_spec (ct_p s) (ct_t s) step) as (p' & i & -> & C); [done..|].
      eexists _, _, _. split; [reflexivity|]. cbn. rewrite <- El. split; [auto|]. split; [done|]. split; [done|].
      split; [done|]. lia.
  - destruct (lightness_step_spec (lightness_p s) (lightness_t s) step) as (l' & j & -> & L & _); [done..|].
    destruct (Z.eqb_spec (ct_p s) (ct_t s)) as [Ec|Nc].
    + eexists _, _, _. split; [reflexivity|]. cbn. rewrite <- Ec. split; [done|]. split; [auto|]. split; [done|].
      split; [done|]. lia.
    + destruct (ct_step_spec (ct_p s) (ct_t s) step) as (p' & i & -> & C); [done..|].
      eexists _, _, _. split; [reflexivity|]. cbn. split; [done|]. split; [done|]. split; [done|].
      split; [done|]. lia.
Qed.

Lemma closer_steps d p t p' : 0 < d → closer d p t p' →
  (Z.abs (t - p') + (d - 1)) / d <= (Z.abs (t - p) + (d - 1)) / d
  /\ (p ≠ t → (Z.abs (t - p') + (d - 1)) / d + 1 <= (Z.abs (t - p) + (d - 1)) / d).
Proof.
  intros Hd [_ H]. split.
  - apply Z.div_le_mono; lia.
  - intros N. destruct (Z.le_gt_cases (Z.abs (t - p)) d).
    + rewrite Z.max_l in H by lia. replace (Z.abs (t - p')) with 0 by lia. rewrite Z.div_small by lia.
      apply Z.div_le_lower_bound; lia.
    + rewrite <- Z.div_add by lia. apply Z.div_le_mono; lia.
Qed.

(** ** One cycle *)

Lemma transition_finish_spec s f : let '(s', _) := transition_finish s f in
  settled s' = true /\ trans s' = 0 /\ lightness_p s' = lightness_t s /\ lightness_t s' = lightness_t s
  /\ ct_p s' = ct_t s /\ ct_t s' = ct_t s /\ onoff_t s' = (if lightness_t s =? 0 then 0 else onoff_t s).
Proof.
  unfold transition_finish, settled. destruct (lightness_t s =? 0); cbn; rewrite !Z.eqb_refl; done.
Qed.

Lemma transition_update_spec s f cur : st_wf s → step_ok s cur →
  exists r s' f', sig_model_transition_update s f cur = Some (r, s', f')
    /\ lightness_t s' = lightness_t s /\ ct_t s' = ct_t s /\ trans_end_time s' = trans_end_time s
    /\ closer 655 (lightness_p s) (lightness_t s) (lightness_p s') /\ closer 192 (ct_p s) (ct_t s) (ct_p s')
    /\ (r = 1 /\ trans s' = trans s /\ steps_left s' < steps_left s \/ r = 0 /\ trans s' = 0 /\ settled s' = true).
Proof.
  intros W OK. unfold sig_model_transition_update.
  assert (forall d p t, closer d p t t) as There by (intros; unfold closer; lia).
  assert (forall s1 f1, lightness_t s1 = lightness_t s → ct_t s1 = ct_t s → trans_end_time s1 = trans_end_time s →
    exists r s' f', (let '(s', f') := transition_finish s1 f1 in Some (0, s', f')) = Some (r, s', f')
    /\ lightness_t s' = lightness_t s /\ ct_t s' = ct_t s /\ trans_end_time s' = trans_end_time s
    /\ closer 655 (lightness_p s) (lightness_t s) (lightness_p s') /\ closer 192 (ct_p s) (ct_t s) (ct_p s')
    /\ (r = 1 /\ trans s' = trans s /\ steps_left s' < steps_left s \/ r = 0 /\ trans s' = 0 /\ settled s' = true)) as Fin.
  { intros s1 f1 H1 H2 H3. pose proof (transition_finish_spec s1 f1) as F.
    assert (trans_end_time (fst (transition_finish s1 f1)) = trans_end_time s1) as H4.
    { unfold transition_finish. by destruct (lightness_t s1 =? 0). }
    destruct (transition_finish s1 f1) as [s' f']. destruct F as (F1 & F2 & F3 & F4 & F5 & F6 & _).
    exists 0, s', f'. rewrite F3, F4, F5, F6, H1, H2. cbn in H4. rewrite H4, H3. auto 10. }
  destruct (Z.leb_spec cur (u32 (trans_end_time s - SIG_MODEL_TRANSITION_INTERVAL))) as [L|L].
  2: { destruct (settled s); by apply Fin. }
  specialize (OK L). set (step := u16 _) in *.
  assert (0 < step < 65536) as Hs by (pose proof (u16_range (u32 (trans_end_time s - cur) / SIG_MODEL_TRANSITION_INTERVAL)); lia).
  clearbody step. destruct (transition_step_spec s f step W Hs) as (s' & f' & cy & -> & Cl & Cc & E & Hcy).
  assert (lightness_t s' = lightness_t s /\ ct_t s' = ct_t s /\ trans_end_time s' = trans_end_time s /\ trans s' = trans s)
    as (E1 & E2 & E3 & E4) by (rewrite E; done).
  destruct (settled s'); [by apply Fin|]. destruct cy; [|by apply Fin].
  exists 1, s', f'. split; [done|]. split; [done|]. split; [done|]. split; [done|]. split; [done|]. split; [done|]. left.
  split; [done|]. split; [done|]. unfold steps_left. rewrite E1, E2.
  destruct (closer_steps 655 _ _ _ ltac:(lia) Cl) as [A1 A2]. destruct (closer_steps 192 _ _ _ ltac:(lia) Cc) as [B1 B2].
  change (655 - 1) with 654 in *. change (192 - 1) with 191 in *.
  destruct (Z.eq_dec (lightness_p s) (lightness_t s)) as [El|Nl]; [|lia].
  destruct (Z.eq_dec (ct_p s) (ct_t s)) as [Ec|Nc]; [|lia]. destruct Hcy as [_ Hcy]. by specialize (Hcy (conj El Ec)).
Qed.

(** ** Whole transitions *)

(** The element once an action is done. *)
Definition done_state (s : sig_model_state_t) : sig_model_state_t :=
  with_scene (scene_t s) (scene_t s) (with_ct (ct_t s) (ct_t s)
    (with_lightness (lightness_t s) (lightness_t s) (with_onoff (onoff_t s) (onoff_t s) s))).

Lemma action_done_elem fuel e c : (2 <= fuel)%nat →
  exists c', sig_model_event_fuel fuel SIG_MODEL_EVT_ACTION_DONE e c = Some (on_state done_state e, c').
Proof.
  intros Hf. destruct fuel as [|[|fuel]]; [lia|lia|]. cbn [sig_model_event_fuel sig_model_event_handle].
  unfold sig_model_handle_action_done. destruct (_ && _).
  - rewrite decide_False by done. cbn [sig_model_event_handle]. unfold sig_model_handle_indicate.
    rewrite decide_True by done. eexists. reflexivity.
  - rewrite decide_True by done. eexists. reflexivity.
Qed.

Lemma trans_end_elem e c :
  exists c', sig_model_event SIG_MODEL_EVT_TRANS_END e c
             = Some (on_state done_state (sig_model_transition_state_reset e), c').
Proof.
  unfold sig_model_event. remember 4%nat as n eqn:En. cbn [sig_model_event_fuel sig_model_event_handle].
  unfold sig_model_event_handle_trans_end. rewrite decide_False by done.
  destruct (action_done_elem n (sig_model_transition_state_reset e) c ltac:(lia)) as [c' ->]. eexists. reflexivity.
Qed.

Lemma trans_cycle_cb e c : st_wf (st e) → step_ok (st e) (now32 c) →
  exists e' c', _mesh_trans_timer_cycle e c = Some (e', c')
    /\ st_wf (st e') /\ lightness_t (st e') = lightness_t (st e) /\ ct_t (st e') = ct_t (st e)
    /\ (trans (st e') ≠ 0 /\ trans (st e') = trans (st e) /\ trans_end_time (st e') = trans_end_time (st e)
        /\ steps_left (st e') < steps_left (st e) /\ trans_timer (st e') = SIG_MODEL_TRANSITION_INTERVAL
        \/ trans (st e') = 0 /\ settled (st e') = true /\ trans_timer (st e') = 0).
Proof.
  intros W OK. unfold _mesh_trans_timer_cycle.
  set (e1 := sig_model_transition_timer_stop e).
  destruct (transition_update_spec (st e1) (flags c) (now32 c)) as (r & s' & f' & U & T1 & T2 & T3 & C1 & C2 & R); [done..|].
  assert (st_wf s') as W'.
  { destruct W as (? & ? & ? & ?), C1 as [? _], C2 as [? _]. cbn in *. unfold st_wf. rewrite T1, T2. cbn. lia. }
  assert (trans_timer s' = 0) as TT.
  { revert U. unfold sig_model_transition_update. destruct (if _ <=? _ then _ else _) as [[[s2 f2] cy]|] eqn:E2; [|done].
    assert (trans_timer s2 = 0) as T0.
    { destruct (_ <=? _); [|by injection E2 as <- _ _]. revert E2. unfold transition_step.
      repeat (case_match; try done); by intros [= <- _ _]. }
    destruct (if settled s2 then false else cy); [by intros [= _ <- _]|].
    unfold transition_finish. destruct (lightness_t s2 =? 0); by intros [= _ <- _]. }
  unfold sig_model_event at 1. cbn [sig_model_event_fuel sig_model_event_handle]. unfold sig_model_event_handle_trans_cycle.
  change (st (sig_model_transition_timer_stop e)) with (st e1). rewrite U. rewrite !decide_True by done.
  rewrite decide_False by done. fold e1.
  destruct R as [(-> & Tr & SL)|(-> & Tr & SE)]; cbn [Z.eqb on_state st].
  - cbn in Tr, SL. rewrite Tr. destruct (Z.eqb_spec (trans (st e)) 0) as [E0|N0].
    + match goal with |- context [sig_model_event SIG_MODEL_EVT_TRANS_END ?e2 ?c2] => destruct (trans_end_elem e2 c2) as [c' ->] end.
      eexists _, _. split; [reflexivity|]. cbn. split; [|split; [done|split; [done|]]].
      * destruct W' as (? & ? & ? & ?). unfold st_wf. cbn. lia.
      * right. unfold settled. cbn. rewrite !Z.eqb_refl. done.
    + eexists _, _. split; [reflexivity|]. cbn. split; [exact W'|]. split; [done|]. split; [done|]. left. rewrite Tr. done.
  - cbn in Tr. cbn [clear_trans with_trans trans].
    match goal with |- context [sig_model_event SIG_MODEL_EVT_TRANS_END ?e2 ?c2] => destruct (trans_end_elem e2 c2) as [c' ->] end.
    eexists _, _. split; [reflexivity|]. cbn. split; [|split; [done|split; [done|]]].
    + destruct W' as (? & ? & ? & ?). unfold st_wf. cbn. lia.
    + right. unfold settled. cbn. rewrite !Z.eqb_refl. done.
Qed.

(** The context at uptime [t]. *)
Definition at_time (t : Z) : sctx → sctx := on_env (λ e, advance (t - uptime e) e).

(** The transition timer expiring at the given uptimes, until the transition is over. *)
Fixpoint trans_run (ts : list Z) (e : sig_model_element_state_t) (c : sctx) : option (sig_model_element_state_t * sctx) :=
  match ts with
  | [] => Some (e, c)
  | t :: ts =>
      if trans (st e) =? 0 then Some (e, c)
      else match _mesh_trans_timer_cycle e (at_time t c) with
           | Some (e, c) => trans_run ts e c
           | None => None
           end
  end.

Lemma now32_at_time t c : is_u32 t → now32 (at_time t c) = t.
Proof. intros H. unfold now32, at_time, advance. cbn. rewrite u32_small; lia. Qed.

(** An expiry of the timer inside the last 65536 steps of the transition. *)
Definition expiry_ok (s : sig_model_state_t) (t : Z) : Prop := is_u32 t /\ trans_end_time s - t < 1310720.

Lemma trans_run_ends ts : forall e c, st_wf (st e) → 20 <= trans_end_time (st e) < 4294967296 →
  Forall (expiry_ok (st e)) ts → trans (st e) ≠ 0 → steps_left (st e) < Z.of_nat (length ts) →
  exists e' c', trans_run ts e c = Some (e', c') /\ trans (st e') = 0 /\ settled (st e') = true
    /\ lightness_p (st e') = lightness_t (st e) /\ ct_p (st e') = ct_t (st e) /\ trans_timer (st e') = 0.
Proof.
  induction ts as [|t ts IH]; intros e c W He F N L.
  { pose proof (steps_left_bound _ W). cbn in L. lia. }
  apply Forall_cons_1 in F as [[Ht Hw] F]. cbn [trans_run length] in *.
  rewrite (proj2 (Z.eqb_neq _ _) N).
  destruct (trans_cycle_cb e (at_time t c)) as (e1 & c1 & -> & W1 & T1 & T2 & R); [done| |].
  { rewrite now32_at_time by done. apply step_ok_window; [done|lia|done]. }
  destruct R as [(N1 & _ & E1 & S1 & _)|(Z1 & S1 & TT)].
  - rewrite <- T1, <- T2. apply IH; [done|by rewrite E1| |done|lia].
    eapply List.Forall_impl; [|exact F]. intros x [? ?]. split; [done|by rewrite E1].
  - exists e1, c1. split; [destruct ts; cbn; [done|]; by rewrite Z1|]. split; [done|]. split; [done|].
    unfold settled in S1. apply andb_true_iff in S1 as [S1 S3]. apply andb_true_iff in S1 as [_ S2].
    apply Z.eqb_eq in S2, S3. rewrite S2, S3, T1, T2. done.
Qed.

(** [C38] A transition ends at its target: from any element in range whose
    transition is running, however the timer expiries fall (in the last 65536
    steps of 20 ms before the end time or after it), at most 207 of them bring the
    present lightness and colour temperature to the targets, clear the transition
    and leave the timer stopped; no step divides by zero. *)
Theorem transition_terminates ts e c : st_wf (st e) → 20 <= trans_end_time (st e) < 4294967296 →
  trans (st e) ≠ 0 → Forall (expiry_ok (st e)) ts → (207 <= length ts)%nat →
  exists e' c', trans_run ts e c = Some (e', c') /\ trans (st e') = 0 /\ settled (st e') = true
    /\ lightness_p (st e') = lightness_t (st e) /\ ct_p (st e') = ct_t (st e) /\ trans_timer (st e') = 0.
Proof.
  intros W He N F L. apply trans_run_ends; [done..|]. pose proof (steps_left_bound _ W). lia.
Qed.

(** One step of a transition in time: the present lightness and colour
    temperature move towards their targets without passing them, by at least 655
    and 192 or to the target; the targets stay. *)
Theorem transition_step_monotone s f cur : st_wf s → step_ok s cur →
  exists r s' f', sig_model_transition_update s f cur = Some (r, s', f')
    /\ lightness_t s' = lightness_t s /\ ct_t s' = ct_t s
    /\ closer DELTA_ACTUAL_MIN (lightness_p s) (lightness_t s) (lightness_p s')
    /\ closer DELTA_TEMP_MIN (ct_p s) (ct_t s) (ct_p s') /\ (r = 0 → settled s' = true /\ trans s' = 0).
Proof.
  intros W OK. destruct (transition_update_spec s f cur W OK) as (r & s' & f' & E & E1 & E2 & _ & C1 & C2 & R).
  exists r, s', f'. split; [done|]. split; [done|]. split; [done|]. split; [done|]. split; [done|].
  intros ->. destruct R as [(? & _)|(_ & ? & ?)]; done.
Qed.

(** The step count of a cycle is truncated to 16 bits: when the remaining
    time is 65536 steps of 20 ms (21 min 50.72 s, within the longest transition of
    620 min) and a value has still to change, the cycle divides by zero. *)
Theorem transition_divides_by_zero s f cur k : 1 <= k <= 28 → 0 <= cur →
  65536 * 20 * k <= trans_end_time s - cur < 65536 * 20 * k + 20 → trans_end_time s < 4294967296 →
  lightness_p s ≠ lightness_t s \/ ct_p s ≠ ct_t s → sig_model_transition_update s f cur = None.
Proof.
  intros Hk Hc Hr He N. unfold sig_model_transition_update, SIG_MODEL_TRANSITION_INTERVAL.
  rewrite u32_small by lia. rewrite (proj2 (Z.leb_le _ _)) by lia. rewrite u32_small by lia.
  assert (u16 ((trans_end_time s - cur) / 20) = 0) as ->.
  { unfold u16. replace ((trans_end_time s - cur) / 20) with (k * 65536) by dlia. apply Z.mod_mul. lia. }
  unfold transition_step, lightness_step, ct_step. cbn [lightness_p lightness_t ct_p ct_t with_onoff with_lightness Z.eqb].
  destruct (Z.eqb_spec (lightness_p s) (lightness_t s)); [|done]. destruct (Z.eqb_spec (ct_p s) (ct_t s)); [|done]. lia.
Qed.

(** The remaining-time byte of a status that is no acknowledgement does not
    depend on the current time: once the transition has started it encodes the
    start time plus the whole duration, never the time left. *)
Theorem remain_time_ignores_clock s cur cur' : trans_start_time s < cur → trans_start_time s < cur' →
  0 <= trans_start_time s → 0 < sig_model_transition_get_transition_time (trans s) →
  sig_model_transition_get_remain_time_byte s false cur = sig_model_transition_get_remain_time_byte s false cur'
  /\ sig_model_transition_get_remain_time_byte s false cur
     = _get_transition_byte (u32 (sig_model_transition_get_transition_time (trans s) + trans_start_time s)).
Proof.
  intros H1 H2 H0 HT. unfold sig_model_transition_get_remain_time_byte. cbn [negb andb].
  rewrite !(proj2 (Z.ltb_lt _ _)) by done. split; [done|].
  rewrite Z.gtb_ltb, (proj2 (Z.ltb_lt _ _)) by lia. do 2 f_equal. lia.
Qed.

(** ** Concrete runs *)

Definition trans0 : sig_model_state_t := mkSt 1 1 1000 60000 800 20000 0 0 0 0 65 1000 2000 20.
Definition elem0 : sig_model_element_state_t := mkElem 0 trans0 (mkPw 1 60000 20000 0).
Definition sctx0 : sctx := mkSctx (λ _, false) true (transport_boot env0).

Lemma sig_event_terminates_witness :
  exists r, sig_model_event SIG_MODEL_EVT_TRANS_CYCLE elem0 sctx0 = Some r.
Proof.
  destruct (sig_event_terminates SIG_MODEL_EVT_TRANS_CYCLE elem0 sctx0 3) as (r & H & _).
  - intros _. vm_compute. discriminate.
  - exists r. exact H.
Defined.

Lemma transition_terminates_witness :
  exists e' c', trans_run (repeat 1020 207) elem0 sctx0 = Some (e', c') /\ lightness_p (st e') = 60000 /\ trans (st e') = 0.
Proof.
  destruct (transition_terminates (repeat 1020 207) elem0 sctx0) as (e' & c' & R & T & _ & L & _).
  - vm_compute. repeat split; discriminate || reflexivity.
  - cbn. lia.
  - cbn. lia.
  - apply List.Forall_forall. intros x Hx. apply repeat_spec in Hx. subst x. split; cbn; lia.
  - rewrite repeat_length. lia.
  - exists e', c'. split; [exact R|]. split; [exact L|exact T].
Defined.

Lemma transition_step_monotone_witness :
  exists r s' f', sig_model_transition_update trans0 (λ _, false) 1020 = Some (r, s', f')
    /\ closer DELTA_ACTUAL_MIN 1000 60000 (lightness_p s').
Proof.
  destruct (transition_step_monotone trans0 (λ _, false) 1020) as (r & s' & f' & H & _ & _ & C & _).
  - vm_compute. repeat split; discriminate || reflexivity.
  - apply step_ok_window; cbn; lia.
  - exists r, s', f'. split; [exact H|exact C].
Defined.

Lemma transition_divides_by_zero_witness :
  sig_model_transition_update (with_trans 195 1000 1801000 trans0) (λ _, false) 490280 = None.
Proof.
  apply (transition_divides_by_zero _ (λ _, false) 490280 1); [lia|lia|cbn; lia|cbn; lia|left; discriminate].
Defined.

Lemma remain_time_ignores_clock_witness :
  sig_model_transition_get_remain_time_byte trans0 false 1900 = 20
  /\ sig_model_transition_get_remain_time_byte trans0 false 1001 = sig_model_transition_get_remain_time_byte trans0 false 1900.
Proof.
  destruct (remain_time_ignores_clock trans0 1001 1900) as [H _]; [cbn; lia|cbn; lia|cbn; lia|vm_compute; reflexivity|].
  split; [reflexivity|exact H].
Defined.
