(* ===== verification/SigServers.v ===== *)
(** * SigServers: the SIG model servers

    sig_model_onoff_srv.c, sig_model_lightness_srv.c, sig_model_light_ctl_srv.c and
    sig_model_scene_srv.c: parsing of the set messages, status messages, and the
    get, set and unacknowledged set handlers.  The message buffer is its list of
    bytes; a handler's message context is the one of the received message. *)
From Stdlib Require Import ZArith Lia List Bool.
From stdpp Require Import base list numbers option.
From S2P Require Import Prelude Env Transport Calendar GenieTime TimePool TimeMsg EventBase SigModel SigTransition.
Local Open Scope Z_scope.

Definition OP_GENERIC_ONOFF_GET : Z := BT_MESH_MODEL_OP_2 130 1.
Definition OP_GENERIC_ONOFF_SET : Z := BT_MESH_MODEL_OP_2 130 2.
Definition OP_GENERIC_ONOFF_SET_UNACK : Z := BT_MESH_MODEL_OP_2 130 3.
Definition OP_GENERIC_ONOFF_STATUS : Z := BT_MESH_MODEL_OP_2 130 4.
Definition OP_GENERIC_SCENE_GET : Z := BT_MESH_MODEL_OP_2 130 65.
Definition OP_GENERIC_SCENE_SET : Z := BT_MESH_MODEL_OP_2 130 66.
Definition OP_GENERIC_SCENE_SET_UNACK : Z := BT_MESH_MODEL_OP_2 130 67.
Definition OP_GENERIC_SCENE_STATUS : Z := 94. (* BT_MESH_MODEL_OP_1(0x5E) *)
Definition OP_GENERIC_LIGHTNESS_GET : Z := BT_MESH_MODEL_OP_2 130 75.
Definition OP_GENERIC_LIGHTNESS_SET : Z := BT_MESH_MODEL_OP_2 130 76.
Definition OP_GENERIC_LIGHTNESS_SET_UNACK : Z := BT_MESH_MODEL_OP_2 130 77.
Definition OP_GENERIC_LIGHTNESS_STATUS : Z := BT_MESH_MODEL_OP_2 130 78.
Definition OP_GENERIC_LIGHT_CTL_GET : Z := BT_MESH_MODEL_OP_2 130 93.
Definition OP_GENERIC_LIGHT_CTL_SET : Z := BT_MESH_MODEL_OP_2 130 94.
Definition OP_GENERIC_LIGHT_CTL_SET_UNACK : Z := BT_MESH_MODEL_OP_2 130 95.
Definition OP_GENERIC_LIGHT_CTL_STATUS : Z := BT_MESH_MODEL_OP_2 130 96.

#[export] Instance E_MESH_ERROR_TYPE_eq_dec : EqDecision E_MESH_ERROR_TYPE.
Proof. solve_decision. Defined.

(** An element with the shared context, threaded through the handlers. *)
Definition estate : Type := sig_model_element_state_t * sctx.

(** ** Status messages *)

(** [bt_mesh_model_send] of a status with the time to live of the service. *)
Definition send_status (ctx : bt_mesh_msg_ctx) (bytes : list Z) (c : sctx) : sctx :=
  on_env (λ e, snd (bt_mesh_model_send
    (mkCtx (net_idx ctx) (app_idx ctx) (addr ctx) GENIE_TRANSPORT_DEFAULT_TTL (send_rel ctx)) bytes e)) c.

(** The remaining time byte: [k_uptime_get] in full width. *)
Definition remain_byte (e : sig_model_element_state_t) (c : sctx) (is_ack : bool) : Z :=
  sig_model_transition_get_remain_time_byte (st e) is_ack (uptime (tenv (transport c))).

(** The three status layouts: [now] and [target] are the encoded values. *)
Definition status_body (is_ack : bool) (remain : Z) (present target : list Z) : list Z :=
  if is_ack && (remain =? 0) then target
  else present ++ (if truthy remain then target ++ [remain] else []).

Definition _gen_onoff_prepear_buf (e : sig_model_element_state_t) (c : sctx) (is_ack : bool) : list Z :=
  bt_mesh_model_msg_init OP_GENERIC_ONOFF_STATUS
  ++ status_body is_ack (remain_byte e c is_ack) [onoff_p (st e)] [onoff_t (st e)].
Definition _gen_onoff_status (ctx : bt_mesh_msg_ctx) (is_ack : bool) (es : estate) : estate :=
  let '(e, c) := es in (e, send_status ctx (_gen_onoff_prepear_buf e c is_ack) c).

Definition _lightness_prepare_buf (e : sig_model_element_state_t) (c : sctx) (is_ack : bool) : list Z :=
  bt_mesh_model_msg_init OP_GENERIC_LIGHTNESS_STATUS
  ++ status_body is_ack (remain_byte e c is_ack) (le16 (lightness_p (st e))) (le16 (lightness_t (st e))).
Definition _lightness_status (ctx : bt_mesh_msg_ctx) (is_ack : bool) (es : estate) : estate :=
  let '(e, c) := es in (e, send_status ctx (_lightness_prepare_buf e c is_ack) c).

Definition _ctl_prepare_buf (e : sig_model_element_state_t) (c : sctx) (is_ack : bool) : list Z :=
  bt_mesh_model_msg_init OP_GENERIC_LIGHT_CTL_STATUS
  ++ status_body is_ack (remain_byte e c is_ack) (le16 (lightness_p (st e)) ++ le16 (ct_p (st e)))
       (le16 (lightness_t (st e)) ++ le16 (ct_t (st e))).
Definition _ctl_status (ctx : bt_mesh_msg_ctx) (is_ack : bool) (es : estate) : estate :=
  let '(e, c) := es in (e, send_status ctx (_ctl_prepare_buf e c is_ack) c).

Definition _scene_prepare_buf (e : sig_model_element_state_t) : list Z :=
  bt_mesh_model_msg_init OP_GENERIC_SCENE_STATUS ++ le16 (scene_p (st e)).
Definition _scene_status (ctx : bt_mesh_msg_ctx) (is_ack : bool) (es : estate) : estate :=
  let '(e, c) := es in (e, send_status ctx (_scene_prepare_buf e) c).

(** ** Parsing *)

(** [genie_transport_check_tid] and [genie_transport_src_addr_set]. *)
Definition check_tid (src t : Z) (e : sig_model_element_state_t) (c : sctx) : E_MESH_ERROR_TYPE * sctx :=
  let '(r, s) := genie_transport_check_tid src t (elem_id e) (transport c) in (r, on_transport (λ _, s) c).
Definition set_src (src : Z) (c : sctx) : sctx := on_transport (genie_transport_src_addr_set src) c.

(** The optional transition and delay bytes after the TID. *)
Definition pull_trans (rest : list Z) : option (Z * Z) :=
  match rest with
  | [] => Some (0, 0)
  | tr :: dl :: _ => Some (tr, dl)
  | _ => None
  end.
Definition trans_invalid (tr : Z) : bool := Z.land tr 63 =? 63.

(** The transition times of an accepted set message. *)
Definition set_trans (tr dl : Z) (now : Z) (s : sig_model_state_t) : sig_model_state_t :=
  let s := with_delay dl (with_trans tr (trans_start_time s) (trans_end_time s) s) in
  if truthy tr then
    let start := u32 (now + dl * 5) in
    with_trans tr start (u32 (start + sig_model_transition_get_transition_time tr)) s
  else s.

Definition uptime_of (c : sctx) : Z := uptime (tenv (transport c)).

Definition _gen_onoff_analyze (src : Z) (buf : list Z) (es : estate) : E_MESH_ERROR_TYPE * estate :=
  let '(e, c) := es in
  match buf with
  | onoff :: t :: rest =>
      if negb (Nat.eqb (length buf) 2) && negb (Nat.eqb (length buf) 4) then (MESH_ANALYZE_SIZE_ERROR, es)
      else match pull_trans rest with
      | None => (MESH_ANALYZE_SIZE_ERROR, es)
      | Some (tr, dl) =>
          if truthy (Z.shiftr onoff 1) then (MESH_ANALYZE_ARGS_ERROR, es)
          else if trans_invalid tr then (MESH_SET_TRANSTION_ERROR, es)
          else
            let '(r, c) := check_tid src t e c in
            if decide (r ≠ MESH_SUCCESS) then (MESH_TID_REPEAT, (e, c))
            else
              let c := set_src src c in
              let e := on_state (λ s, set_trans tr dl (uptime_of c) (with_onoff (onoff_p s) onoff s)) e in
              let c := sig_model_event_set_indicate SIG_MODEL_INDICATE_GEN_ONOFF c in
              (MESH_SUCCESS, sig_model_generic_onoff_bind_ops e c)
      end
  | _ => (MESH_ANALYZE_SIZE_ERROR, es)
  end.

Definition with_last_lightness v (e : sig_model_element_state_t) := mkElem (elem_id e) (st e)
  (mkPw (last_onoff (powerup e)) v (last_color_temperature (powerup e)) (last_scene (powerup e))).
Definition with_last_ct v (e : sig_model_element_state_t) := mkElem (elem_id e) (st e)
  (mkPw (last_onoff (powerup e)) (last_lightness (powerup e)) v (last_scene (powerup e))).

Definition _lightness_analyze (src : Z) (buf : list Z) (es : estate) : E_MESH_ERROR_TYPE * estate :=
  let '(e, c) := es in
  match buf with
  | l0 :: l1 :: t :: rest =>
      if negb (Nat.eqb (length buf) 3) && negb (Nat.eqb (length buf) 5) then (MESH_ANALYZE_SIZE_ERROR, es)
      else match pull_trans rest with
      | None => (MESH_ANALYZE_SIZE_ERROR, es)
      | Some (tr, dl) =>
          if trans_invalid tr then (MESH_SET_TRANSTION_ERROR, es)
          else
            let '(r, c) := check_tid src t e c in
            if decide (r ≠ MESH_SUCCESS) then (MESH_TID_REPEAT, (e, c))
            else
              let lightness := s16 (get_le16 l0 l1) in
              let e := on_state (λ s, with_lightness (lightness_p s) (u16 lightness) s) e in
              let e := if truthy (lightness_t (st e)) then with_last_lightness (lightness_t (st e)) e else e in
              let e := on_state (set_trans tr dl (uptime_of c)) e in
              if negb (lightness_p (st e) =? lightness_t (st e)) then
                (MESH_SUCCESS, (sig_model_generic_lightness_bind_ops e TYPE_TARGET,
                                sig_model_event_set_indicate SIG_MODEL_INDICATE_GEN_LIGHTNESS c))
              else (MESH_SUCCESS, (e, c))
      end
  | _ => (MESH_ANALYZE_SIZE_ERROR, es)
  end.

Definition _ctl_analyze (src : Z) (buf : list Z) (es : estate) : E_MESH_ERROR_TYPE * estate :=
  let '(e, c) := es in
  match buf with
  | l0 :: l1 :: k0 :: k1 :: uv0 :: uv1 :: t :: rest =>
      if negb (Nat.eqb (length buf) 7) && negb (Nat.eqb (length buf) 9) then (MESH_ANALYZE_SIZE_ERROR, es)
      else match pull_trans rest with
      | None => (MESH_ANALYZE_SIZE_ERROR, es)
      | Some (tr, dl) =>
          let color_temperature := get_le16 k0 k1 in
          if trans_invalid tr then (MESH_SET_TRANSTION_ERROR, es)
          else if (color_temperature <? COLOR_TEMPERATURE_MIN) || (color_temperature >? COLOR_TEMPERATURE_MAX)
          then (MESH_ANALYZE_ARGS_ERROR, es)
          else
            let '(r, c) := check_tid src t e c in
            if decide (r ≠ MESH_SUCCESS) then (MESH_TID_REPEAT, (e, c))
            else
              let e := with_last_ct color_temperature (on_state (λ s, with_ct (ct_p s) color_temperature s) e) in
              let e := on_state (set_trans tr dl (uptime_of c)) e in
              if negb (ct_p (st e) =? ct_t (st e)) then
                (MESH_SUCCESS, sig_model_generic_color_temperature_bind_ops e
                                 (sig_model_event_set_indicate SIG_MODEL_INDICATE_GEN_CTL c))
              else (MESH_SUCCESS, (e, c))
      end
  | _ => (MESH_ANALYZE_SIZE_ERROR, es)
  end.

(** The scene number is compared as an [s16_t] with the stored [u16_t]. *)
Definition _scene_analyze (src : Z) (buf : list Z) (es : estate) : E_MESH_ERROR_TYPE * estate :=
  let '(e, c) := es in
  match buf with
  | s0 :: s1 :: t :: _ =>
      if negb (Nat.eqb (length buf) 3) && negb (Nat.eqb (length buf) 5) then (MESH_ANALYZE_SIZE_ERROR, es)
      else
        let scene := s16 (get_le16 s0 s1) in
        let '(r, c) := check_tid src t e c in
        if decide (r ≠ MESH_SUCCESS) then (MESH_TID_REPEAT, (e, c))
        else
          let c := set_src src c in
          if negb (scene_t (st e) =? scene) then
            (MESH_SUCCESS, (on_state (λ s, with_scene (scene_p s) (u16 scene) s) e,
                            sig_model_event_set_indicate SIG_MODEL_INDICATE_GEN_SCENE c))
          else (MESH_SUCCESS, (e, c))
  | _ => (MESH_ANALYZE_SIZE_ERROR, es)
  end.

(** ** Handlers *)

(** The message is reported to the application and the MCU. *)
Definition report (op : Z) (buf : list Z) (es : estate) : estate :=
  let '(e, c) := es in
  (e, sig_model_event_generic (mkSigMsg (elem_id e) op (u16 (Z.of_nat (length buf))) buf) c).

Definition src_set (src : Z) (es : estate) : estate := let '(e, c) := es in (e, set_src src c).

Definition analyzed (es : estate) : option estate := let '(e, c) := es in sig_model_event SIG_MODEL_EVT_ANALYZE_MSG e c.

(** The tail of the set handlers that answer: the status, then the action. *)
Definition reply_and_act (status : estate → estate) (r : E_MESH_ERROR_TYPE) (es : estate) : option estate :=
  match r with
  | MESH_SUCCESS => analyzed (status es)
  | MESH_TID_REPEAT => Some (status es)
  | _ => Some es
  end.

Definition _gen_onoff_get (ctx : bt_mesh_msg_ctx) (buf : list Z) (es : estate) : estate :=
  _gen_onoff_status ctx false (report OP_GENERIC_ONOFF_GET buf (src_set (addr ctx) es)).

Definition _gen_onoff_set (ctx : bt_mesh_msg_ctx) (buf : list Z) (es : estate) : option estate :=
  let '(r, es) := _gen_onoff_analyze (addr ctx) buf es in
  let es := if decide (r = MESH_SUCCESS) then report OP_GENERIC_ONOFF_SET buf es else es in
  reply_and_act (_gen_onoff_status ctx true) r es.

Definition _gen_onoff_set_unack (ctx : bt_mesh_msg_ctx) (buf : list Z) (es : estate) : option estate :=
  let '(r, es) := _gen_onoff_analyze (addr ctx) buf es in
  if decide (r = MESH_SUCCESS) then analyzed (report OP_GENERIC_ONOFF_SET_UNACK buf es) else Some es.

Definition _lightness_get (ctx : bt_mesh_msg_ctx) (buf : list Z) (es : estate) : estate :=
  _lightness_status ctx false (report OP_GENERIC_LIGHTNESS_GET buf (src_set (addr ctx) es)).

Definition _lightness_set (ctx : bt_mesh_msg_ctx) (buf : list Z) (es : estate) : option estate :=
  let es := report OP_GENERIC_LIGHTNESS_SET buf (src_set (addr ctx) es) in
  let '(r, es) := _lightness_analyze (addr ctx) buf es in
  reply_and_act (_lightness_status ctx true) r es.

Definition _lightness_set_unack (ctx : bt_mesh_msg_ctx) (buf : list Z) (es : estate) : option estate :=
  let es := report OP_GENERIC_LIGHTNESS_SET_UNACK buf (src_set (addr ctx) es) in
  let '(r, es) := _lightness_analyze (addr ctx) buf es in
  if decide (r = MESH_SUCCESS) then analyzed es else Some es.

Definition _ctl_get (ctx : bt_mesh_msg_ctx) (buf : list Z) (es : estate) : estate :=
  _ctl_status ctx false (report OP_GENERIC_LIGHT_CTL_GET buf (src_set (addr ctx) es)).

Definition _ctl_set (ctx : bt_mesh_msg_ctx) (buf : list Z) (es : estate) : option estate :=
  let es := report OP_GENERIC_LIGHT_CTL_SET buf (src_set (addr ctx) es) in
  let '(r, es) := _ctl_analyze (addr ctx) buf es in
  reply_and_act (_ctl_status ctx true) r es.

Definition _ctl_set_unack (ctx : bt_mesh_msg_ctx) (buf : list Z) (es : estate) : option estate :=
  let es := report OP_GENERIC_LIGHT_CTL_SET_UNACK buf (src_set (addr ctx) es) in
  let '(r, es) := _ctl_analyze (addr ctx) buf es in
  if decide (r = MESH_SUCCESS) then analyzed es else Some es.

Definition _scene_get (ctx : bt_mesh_msg_ctx) (buf : list Z) (es : estate) : estate :=
  _scene_status ctx false (report OP_GENERIC_SCENE_GET buf (src_set (addr ctx) es)).

Definition _scene_set (ctx : bt_mesh_msg_ctx) (buf : list Z) (es : estate) : option estate :=
  let '(r, es) := _scene_analyze (addr ctx) buf es in
  let es := if decide (r = MESH_SUCCESS) then report OP_GENERIC_SCENE_SET buf es else es in
  reply_and_act (_scene_status ctx true) r es.

Definition _scene_set_unack (ctx : bt_mesh_msg_ctx) (buf : list Z) (es : estate) : option estate :=
  let '(r, es) := _scene_analyze (addr ctx) buf es in
  if decide (r = MESH_SUCCESS) then analyzed (report OP_GENERIC_SCENE_SET_UNACK buf es) else Some es.

(** ** Rejected messages *)

Lemma on_transport_id c : on_transport (λ _, transport c) c = c.
Proof. by destruct c. Qed.

Lemma check_tid_refused src t e c r c' : check_tid src t e c = (r, c') → r ≠ MESH_SUCCESS → c' = c.
Proof.
  unfold check_tid, genie_transport_check_tid. destruct (tid_scan _ _ _ _ _ _ _); intros [= <- <-]; [|done].
  intros _. apply on_transport_id.
Qed.

Lemma check_tid_elem_cases src t e c : (exists c', check_tid src t e c = (MESH_SUCCESS, c') /\ flags c' = flags c /\ normal_boot c' = normal_boot c)
  \/ check_tid src t e c = (MESH_TID_REPEAT, c).
Proof.
  unfold check_tid, genie_transport_check_tid. destruct (tid_scan _ _ _ _ _ _ _).
  - right. by rewrite on_transport_id.
  - left. eauto.
Qed.

(** The four parsers. *)
Inductive server := OnOff | Lightness | Ctl | Scene.
Definition analyze (k : server) : Z → list Z → estate → E_MESH_ERROR_TYPE * estate :=
  match k with OnOff => _gen_onoff_analyze | Lightness => _lightness_analyze | Ctl => _ctl_analyze | Scene => _scene_analyze end.
Definition set_handler (k : server) : bt_mesh_msg_ctx → list Z → estate → option estate :=
  match k with OnOff => _gen_onoff_set | Lightness => _lightness_set | Ctl => _ctl_set | Scene => _scene_set end.
Definition set_unack_handler (k : server) : bt_mesh_msg_ctx → list Z → estate → option estate :=
  match k with
  | OnOff => _gen_onoff_set_unack | Lightness => _lightness_set_unack | Ctl => _ctl_set_unack | Scene => _scene_set_unack
  end.

Lemma set_rejected_elem k src buf es : fst (analyze k src buf es) ≠ MESH_SUCCESS → snd (analyze k src buf es) = es.
Proof.
  destruct es as [e c]. destruct k; cbn [analyze].
  - unfold _gen_onoff_analyze. destruct buf as [|onoff [|t rest]]; try done. destruct (_ && _); [done|].
    destruct (pull_trans rest) as [[tr dl]|]; [|done]. destruct (truthy _); [done|]. destruct (trans_invalid tr); [done|].
    destruct (check_tid_elem_cases src t e c) as [(c' & -> & _)| ->]; [rewrite decide_False by naive_solver|rewrite decide_True by done; done].
    cbn. done.
  - unfold _lightness_analyze. destruct buf as [|l0 [|l1 [|t rest]]]; try done. destruct (_ && _); [done|].
    destruct (pull_trans rest) as [[tr dl]|]; [|done]. destruct (trans_invalid tr); [done|].
    destruct (check_tid_elem_cases src t e c) as [(c' & -> & _)| ->]; [rewrite decide_False by naive_solver|rewrite decide_True by done; done].
    cbv zeta. by destruct (negb (_ =? _)).
  - unfold _ctl_analyze. destruct buf as [|l0 [|l1 [|k0 [|k1 [|u0 [|u1 [|t rest]]]]]]]; try done. destruct (_ && _); [done|].
    destruct (pull_trans rest) as [[tr dl]|]; [|done]. destruct (trans_invalid tr); [done|]. destruct (_ || _); [done|].
    destruct (check_tid_elem_cases src t e c) as [(c' & -> & _)| ->]; [rewrite decide_False by naive_solver|rewrite decide_True by done; done].
    cbv zeta. by destruct (negb (_ =? _)).
  - unfold _scene_analyze. destruct buf as [|s0 [|s1 [|t rest]]]; try done. destruct (_ && _); [done|].
    destruct (check_tid_elem_cases src t e c) as [(c' & -> & _)| ->]; [rewrite decide_False by naive_solver|rewrite decide_True by done; done].
    cbv zeta. by destruct (negb (_ =? _)).
Qed.

(** A set message that is not accepted (wrong length, reserved transition
    time, value out of range, repeated TID) leaves the element, the indicate flags
    and the transport layer as they were, in all four servers. *)
Theorem set_rejected k src buf es : fst (analyze k src buf es) ≠ MESH_SUCCESS → snd (analyze k src buf es) = es.
Proof. apply set_rejected_elem. Qed.

(** ** Immediate set messages *)

(** Length of a set message without transition. *)
Definition plain_len (k : server) : nat := match k with OnOff => 2 | Lightness => 3 | Ctl => 7 | Scene => 3 end.

(** On/off and lightness agree: both zero, or on and not dark. *)
Definition bound_t (s : sig_model_state_t) : Prop :=
  onoff_t s = 0 /\ lightness_t s = 0 \/ onoff_t s = 1 /\ lightness_t s ≠ 0.

(** No action in progress: present values at their targets, no transition, no delay. *)
Definition at_rest (s : sig_model_state_t) : Prop :=
  settled s = true /\ trans s = 0 /\ delay s = 0.

Lemma bind_onoff_fields e c : let '(e', c') := sig_model_generic_onoff_bind_ops e c in
  trans (st e') = trans (st e) /\ delay (st e') = delay (st e) /\ onoff_t (st e') = onoff_t (st e)
  /\ lightness_t (st e') = lightness_t (st (sig_model_lightness_update_by_onoff e)).
Proof.
  unfold sig_model_generic_onoff_bind_ops, sig_model_light_ctl_update_by_onoff.
  assert (trans (st (sig_model_lightness_update_by_onoff e)) = trans (st e)
    /\ delay (st (sig_model_lightness_update_by_onoff e)) = delay (st e)
    /\ onoff_t (st (sig_model_lightness_update_by_onoff e)) = onoff_t (st e)) as (E1 & E2 & E3).
  { unfold sig_model_lightness_update_by_onoff. repeat case_match; done. }
  destruct (_ && _); [destruct (negb _)|]; done.
Qed.

Lemma bind_onoff_bound e c : onoff_p (st e) = 0 /\ lightness_t (st e) = 0 \/ onoff_p (st e) = 1 /\ lightness_t (st e) ≠ 0 →
  onoff_t (st e) = 0 \/ onoff_t (st e) = 1 →
  bound_t (st (fst (sig_model_generic_onoff_bind_ops e c))).
Proof.
  intros B T. pose proof (bind_onoff_fields e c) as F. destruct (sig_model_generic_onoff_bind_ops e c) as [e' c'].
  destruct F as (_ & _ & F3 & F4). unfold bound_t. cbn [fst]. rewrite F3, F4. clear F3 F4.
  unfold sig_model_lightness_update_by_onoff, LIGHTNESS_DEFAULT, truthy.
  destruct B as [[-> B]|[-> B]], T as [-> | ->]; cbn; auto.
  right. split; [done|]. destruct (Z.eqb_spec (last_lightness (powerup e)) 0); cbn; lia.
Qed.

Lemma at_rest_eqs s : at_rest s → onoff_p s = onoff_t s /\ lightness_p s = lightness_t s /\ ct_p s = ct_t s.
Proof.
  intros (S & _). unfold settled in S. apply andb_true_iff in S as [S S3]. apply andb_true_iff in S as [S1 S2].
  apply Z.eqb_eq in S1, S2, S3. done.
Qed.

Lemma onoff_bit b : is_u8 b → truthy (Z.shiftr b 1) = false → b = 0 \/ b = 1.
Proof.
  intros H. rewrite Z.shiftr_div_pow2 by lia. change (2 ^ 1) with 2. unfold truthy.
  destruct (Z.eqb_spec (b / 2) 0); [|done]. intros _. dlia.
Qed.

(** What acceptance of a plain set message leaves: no transition, targets bound. *)
Lemma analyze_plain k src buf e c e1 c1 : analyze k src buf (e, c) = (MESH_SUCCESS, (e1, c1)) →
  length buf = plain_len k → Forall (λ b, is_u8 b) buf → at_rest (st e) → bound_t (st e) →
  trans (st e1) = 0 /\ delay (st e1) = 0 /\ bound_t (st e1).
Proof.
  intros A L F R B. pose proof (at_rest_eqs _ R) as (E1 & E2 & E3). destruct R as (_ & R2 & R3).
  destruct k; cbn [analyze plain_len] in *.
  - destruct buf as [|onoff [|t [|]]]; try done. apply Forall_cons_1 in F as [Ho _]. unfold _gen_onoff_analyze in A. cbn in A.
    destruct (truthy (Z.shiftr onoff 1)) eqn:Bo; [done|].
    destruct (check_tid_elem_cases src t e c) as [(c' & E & _)|E]; rewrite E in A; [rewrite decide_False in A by naive_solver|by rewrite decide_True in A by done].
    injection A as A. set (e2 := on_state _ e) in A.
    match type of A with sig_model_generic_onoff_bind_ops e2 ?c2 = _ =>
      pose proof (bind_onoff_fields e2 c2) as Fl; pose proof (bind_onoff_bound e2 c2) as Bd end.
    rewrite A in Fl, Bd. cbn [fst] in Bd. destruct Fl as (-> & -> & _). split; [done|]. split; [done|].
    apply Bd; cbn; [unfold bound_t in B; rewrite E1; exact B|by apply onoff_bit].
  - destruct buf as [|l0 [|l1 [|t [|]]]]; try done. unfold _lightness_analyze in A. cbn in A.
    destruct (check_tid_elem_cases src t e c) as [(c' & E & _)|E]; rewrite E in A; [rewrite decide_False in A by naive_solver|by rewrite decide_True in A by done].
    set (v := u16 (s16 (get_le16 l0 l1))) in A. clearbody v.
    destruct (truthy v) eqn:Tv; cbn in A;
      (destruct (Z.eqb_spec (lightness_p (st e)) v) as [Ev|Ev]; cbn in A; injection A as <- <-);
      cbn; try (split; [done|]; split; [done|]; unfold bound_t in *; cbn; rewrite <- Ev, E2; exact B).
    + unfold sig_model_generic_lightness_bind_ops, sig_model_onoff_update_by_lightness. cbn.
      unfold truthy in Tv. destruct (Z.eqb_spec v 0) as [|Nv]; [done|].
      destruct (Z.eqb_spec (lightness_p (st e)) 0) as [E0|N0]; cbn; (split; [done|]; split; [done|]); right; cbn; split; try done.
      destruct B as [[_ B]|[B _]]; [congruence|done].
    + unfold sig_model_generic_lightness_bind_ops, sig_model_onoff_update_by_lightness. cbn.
      unfold truthy in Tv. destruct (Z.eqb_spec v 0) as [Hv|Nv]; [|done].
      destruct (Z.eqb_spec (lightness_p (st e)) 0) as [E0|N0]; cbn; [congruence|]. (split; [done|]; split; [done|]). left. done.
  - destruct buf as [|l0 [|l1 [|k0 [|k1 [|u0 [|u1 [|t [|]]]]]]]]; try done. unfold _ctl_analyze in A. cbn in A.
    destruct (_ || _); [done|].
    destruct (check_tid_elem_cases src t e c) as [(c' & E & _)|E]; rewrite E in A; [rewrite decide_False in A by naive_solver|by rewrite decide_True in A by done].
    destruct (Z.eqb_spec (ct_p (st e)) (get_le16 k0 k1)) as [Ev|Ev]; cbn in A.
    + injection A as <- <-. cbn. split; [done|]. split; [done|]. exact B.
    + injection A as A. unfold sig_model_generic_color_temperature_bind_ops, sig_model_onoff_update_by_color_temperature in A. cbn in A.
      destruct (Z.eqb_spec (onoff_t (st e)) 0) as [Et|Nt].
      * match type of A with sig_model_generic_onoff_bind_ops ?e2 ?c2 = _ =>
          pose proof (bind_onoff_fields e2 c2) as Fl; pose proof (bind_onoff_bound e2 c2) as Bd end.
        rewrite A in Fl, Bd. cbn [fst] in Bd. destruct Fl as (-> & -> & _). split; [done|]. split; [done|].
        apply Bd; cbn; [|by right]. left. unfold bound_t in B. lia.
      * injection A as <- <-. cbn. split; [done|]. split; [done|]. exact B.
  - destruct buf as [|s0 [|s1 [|t [|]]]]; try done. unfold _scene_analyze in A. cbn in A.
    destruct (check_tid_elem_cases src t e c) as [(c' & E & _)|E]; rewrite E in A; [rewrite decide_False in A by naive_solver|by rewrite decide_True in A by done].
    destruct (_ =? _); cbn in A; injection A as <- <-; done.
Qed.

Lemma analyzed_plain e c : trans (st e) = 0 → delay (st e) = 0 →
  exists c', analyzed (e, c) = Some (on_state done_state e, c').
Proof.
  intros T D. unfold analyzed, sig_model_event. remember 4%nat as n eqn:En. cbn [sig_model_event_fuel sig_model_event_handle].
  unfold sig_model_event_handle_analyze_msg. rewrite T, D. cbn [truthy Z.eqb negb orb]. rewrite decide_False by done.
  destruct (action_done_elem n e c ltac:(lia)) as [c' ->]. eexists. reflexivity.
Qed.

Lemma done_at_rest e : trans (st e) = 0 → delay (st e) = 0 → bound_t (st e) →
  at_rest (st (on_state done_state e)) /\ bound_t (st (on_state done_state e)).
Proof. intros T D B. split; [|exact B]. unfold at_rest, settled. cbn. by rewrite !Z.eqb_refl. Qed.

(** What a set handler does to the element, from its parser's answer. *)
Lemma reply_plain (status : estate → estate) r e c e0 :
  (forall e c, exists c', status (e, c) = (e, c')) → (r = MESH_SUCCESS → trans (st e) = 0 /\ delay (st e) = 0 /\ bound_t (st e)) →
  (r ≠ MESH_SUCCESS → e = e0) → at_rest (st e0) → bound_t (st e0) →
  exists e' c', reply_and_act status r (e, c) = Some (e', c') /\ at_rest (st e') /\ bound_t (st e').
Proof.
  intros S P N R B. unfold reply_and_act. destruct r; try (rewrite N by done; eauto); destruct (S e c) as [c1 E1].
  - rewrite E1. destruct (P eq_refl) as (T & D & B'). destruct (analyzed_plain e c1 T D) as [c' ->].
    eexists _, _. split; [done|]. by apply done_at_rest.
  - rewrite N in E1 by done. rewrite E1. eauto.
Qed.

Lemma status_elem k ctx b e c : exists c', (match k with OnOff => _gen_onoff_status | Lightness => _lightness_status
  | Ctl => _ctl_status | Scene => _scene_status end) ctx b (e, c) = (e, c').
Proof. destruct k; eexists; reflexivity. Qed.

Lemma analyze_case k src buf e c : length buf = plain_len k → Forall (λ b, is_u8 b) buf → at_rest (st e) → bound_t (st e) →
  exists r e1 c1, analyze k src buf (e, c) = (r, (e1, c1))
    /\ (r = MESH_SUCCESS → trans (st e1) = 0 /\ delay (st e1) = 0 /\ bound_t (st e1)) /\ (r ≠ MESH_SUCCESS → e1 = e).
Proof.
  intros L F R B. destruct (analyze k src buf (e, c)) as [r [e1 c1]] eqn:A. exists r, e1, c1. split; [done|]. split.
  - intros ->. by eapply analyze_plain.
  - intros N. pose proof (set_rejected_elem k src buf (e, c)) as H. rewrite A in H. cbn in H. by injection (H N).
Qed.

(** Set messages without transition keep on/off and lightness consistent:
    from an element at rest whose on/off state is on exactly when its lightness is
    not zero, the acknowledged and the unacknowledged set handlers of all four
    servers return, for any message of the right length, an element at rest with
    that property. *)
Theorem plain_set_keeps_binding k ctx buf e c : length buf = plain_len k → Forall (λ b, is_u8 b) buf →
  at_rest (st e) → bound_t (st e) →
  (exists e' c', set_handler k ctx buf (e, c) = Some (e', c') /\ at_rest (st e') /\ bound_t (st e'))
  /\ (exists e' c', set_unack_handler k ctx buf (e, c) = Some (e', c') /\ at_rest (st e') /\ bound_t (st e')).
Proof.
  intros L F R B.
  assert (forall c0, exists r e1 c1, analyze k (addr ctx) buf (e, c0) = (r, (e1, c1))
    /\ (r = MESH_SUCCESS → trans (st e1) = 0 /\ delay (st e1) = 0 /\ bound_t (st e1)) /\ (r ≠ MESH_SUCCESS → e1 = e)) as A
    by (intros; by apply analyze_case).
  assert (forall r e1 c1, (r = MESH_SUCCESS → trans (st e1) = 0 /\ delay (st e1) = 0 /\ bound_t (st e1)) → (r ≠ MESH_SUCCESS → e1 = e) →
    exists e' c', (if decide (r = MESH_SUCCESS) then analyzed (e1, c1) else Some (e1, c1)) = Some (e', c') /\ at_rest (st e') /\ bound_t (st e')) as Un.
  { intros r e1 c1 H1 H2. destruct (decide (r = MESH_SUCCESS)) as [E|N].
    - destruct (H1 E) as (T & D & B'). destruct (analyzed_plain e1 c1 T D) as [c' ->].
      eexists _, _. split; [done|]. by apply done_at_rest.
    - rewrite H2 by done. eauto. }
  assert (forall r op es, exists c2, (if decide (r = MESH_SUCCESS) then report op buf es else es) = (fst es, c2)) as Rp.
  { intros r op [e1 c1]. destruct (decide (r = MESH_SUCCESS)); eexists; reflexivity. }
  destruct k; cbn [set_handler set_unack_handler analyze] in *.
  - unfold _gen_onoff_set, _gen_onoff_set_unack. destruct (A c) as (r & e1 & c1 & -> & H1 & H2). split.
    + destruct (Rp r OP_GENERIC_ONOFF_SET (e1, c1)) as [c2 ->]. eapply reply_plain; try done. apply (status_elem OnOff).
    + destruct (decide (r = MESH_SUCCESS)) as [E|N]; [|rewrite H2 by done; eauto].
      specialize (Un r e1 (snd (report OP_GENERIC_ONOFF_SET_UNACK buf (e1, c1))) H1 H2). by rewrite decide_True in Un.
  - unfold _lightness_set, _lightness_set_unack. cbn [report src_set].
    split; match goal with |- context [_lightness_analyze _ _ (e, ?c0)] => destruct (A c0) as (r & e1 & c1 & -> & H1 & H2) end;
      [|by apply Un]. eapply reply_plain; try done. apply (status_elem Lightness).
  - unfold _ctl_set, _ctl_set_unack. cbn [report src_set].
    split; match goal with |- context [_ctl_analyze _ _ (e, ?c0)] => destruct (A c0) as (r & e1 & c1 & -> & H1 & H2) end;
      [|by apply Un]. eapply reply_plain; try done. apply (status_elem Ctl).
  - unfold _scene_set, _scene_set_unack. destruct (A c) as (r & e1 & c1 & -> & H1 & H2). split.
    + destruct (Rp r OP_GENERIC_SCENE_SET (e1, c1)) as [c2 ->]. eapply reply_plain; try done. apply (status_elem Scene).
    + destruct (decide (r = MESH_SUCCESS)) as [E|N]; [|rewrite H2 by done; eauto].
      specialize (Un r e1 (snd (report OP_GENERIC_SCENE_SET_UNACK buf (e1, c1))) H1 H2). by rewrite decide_True in Un.
Qed.

(** ** The on/off set message, end to end *)

(** The flags when an action is done: those set before, and those of the values that changed. *)
Definition flags_done (s : sig_model_state_t) (f : indicate_flags) : indicate_flags :=
  set_indicate_if (negb (scene_p s =? scene_t s)) SIG_MODEL_INDICATE_GEN_SCENE
   (set_indicate_if (negb (ct_p s =? ct_t s)) SIG_MODEL_INDICATE_GEN_CTL
     (set_indicate_if (negb (lightness_p s =? lightness_t s)) SIG_MODEL_INDICATE_GEN_LIGHTNESS
       (set_indicate_if (negb (onoff_p s =? onoff_t s)) SIG_MODEL_INDICATE_GEN_ONOFF f))).

Lemma action_done_event n e c : provisioned (tenv (transport c)) && normal_boot c = true →
  sig_model_event_fuel (S (S n)) SIG_MODEL_EVT_ACTION_DONE e c
  = Some (on_state done_state e, on_env (genie_event_user GENIE_EVT_USER_ACTION_DONE)
      (snd (sig_model_handle_indicate (on_state done_state e) (mkSctx (flags_done (st e) (flags c)) (normal_boot c) (transport c))))).
Proof.
  intros H. cbn [sig_model_event_fuel sig_model_event_handle]. unfold sig_model_handle_action_done at 1. rewrite H.
  rewrite decide_False by done. cbn [sig_model_event_handle]. unfold sig_model_handle_indicate at 1.
  rewrite !decide_True by done. rewrite !decide_False by done. reflexivity.
Qed.

Lemma analyzed_event e c : trans (st e) = 0 → delay (st e) = 0 → provisioned (tenv (transport c)) && normal_boot c = true →
  analyzed (e, c) = Some (on_state done_state e, on_env (genie_event_user GENIE_EVT_USER_ACTION_DONE)
      (snd (sig_model_handle_indicate (on_state done_state e) (mkSctx (flags_done (st e) (flags c)) (normal_boot c) (transport c))))).
Proof.
  intros T D H. unfold analyzed, sig_model_event. remember 2%nat as n eqn:En.
  remember (S (S n)) as k eqn:Ek. cbn [sig_model_event_fuel sig_model_event_handle].
  unfold sig_model_event_handle_analyze_msg. rewrite T, D. cbn [truthy Z.eqb negb orb]. rewrite decide_False by done.
  subst k. rewrite action_done_event by done. rewrite !decide_False by done. reflexivity.
Qed.

(** The lightness an on/off change leads to. *)
Definition onoff_lightness (b : Z) (e : sig_model_element_state_t) : Z :=
  if b =? 0 then 0 else if truthy (last_lightness (powerup e)) then last_lightness (powerup e) else LIGHTNESS_DEFAULT.

(** Parsing of an accepted plain on/off message that changes the state. *)
Lemma onoff_analyze_change src b t e c c1 : at_rest (st e) → bound_t (st e) → b = 0 \/ b = 1 → b ≠ onoff_p (st e) →
  check_tid src t e c = (MESH_SUCCESS, c1) →
  exists e1, _gen_onoff_analyze src [b; t] (e, c)
    = (MESH_SUCCESS, (e1, sig_model_event_set_indicate SIG_MODEL_INDICATE_GEN_ONOFF (set_src src c1)))
    /\ elem_id e1 = elem_id e
    /\ st e1 = with_lightness (lightness_p (st e)) (onoff_lightness b e)
                 (set_trans 0 0 (uptime_of (set_src src c1)) (with_onoff (onoff_p (st e)) b (st e))).
Proof.
  intros R B Hb N E. pose proof (at_rest_eqs _ R) as (E1 & E2 & E3).
  unfold _gen_onoff_analyze. cbn [length Nat.eqb negb andb pull_trans].
  assert (truthy (Z.shiftr b 1) = false) as -> by (destruct Hb as [-> | ->]; reflexivity).
  change (trans_invalid 0) with false. cbv iota. rewrite E, decide_False by naive_solver.
  unfold sig_model_generic_onoff_bind_ops, sig_model_lightness_update_by_onoff, sig_model_light_ctl_update_by_onoff, onoff_lightness.
  destruct e as [i s p]. cbn [st elem_id powerup on_state] in *. unfold bound_t in B. rewrite <- E1 in B.
  destruct B as [[B1 B2]|[B1 B2]], Hb as [-> | ->]; try lia; repeat (cbn; rewrite B1); cbn.
  - rewrite <- E3, Z.eqb_refl. cbn. eexists. split; [reflexivity|]. split; [done|].
    destruct (truthy (last_lightness p)); cbn; by rewrite ?B1.
  - eexists. split; [reflexivity|]. split; [done|]. cbn. by rewrite ?B1.
Qed.

(** What the cloud is told of the change. *)
Lemma onoff_payload b e f now : at_rest (st e) → bound_t (st e) → b = 0 \/ b = 1 → b ≠ onoff_p (st e) → scene_p (st e) = scene_t (st e) →
  (forall i, f i = false) →
  let s1 := with_lightness (lightness_p (st e)) (onoff_lightness b e) (set_trans 0 0 now (with_onoff (onoff_p (st e)) b (st e))) in
  indicate_payload (done_state s1) (flags_done s1 (set_flag SIG_MODEL_INDICATE_GEN_ONOFF f)) = [0; 1; b; 33; 1] ++ le16 (onoff_lightness b e).
Proof.
  intros R B Hb N Sc FL s1. pose proof (at_rest_eqs _ R) as (E1 & E2 & E3).
  unfold indicate_payload, flags_done, set_indicate_if. cbn. rewrite E3, Sc, !Z.eqb_refl. cbn.
  rewrite (proj2 (Z.eqb_neq (onoff_p (st e)) b)) by lia. cbn.
  assert ((lightness_p (st e) =? onoff_lightness b e) = false) as ->.
  { apply Z.eqb_neq. unfold onoff_lightness, bound_t in *. unfold LIGHTNESS_DEFAULT, truthy. destruct Hb as [-> | ->]; cbn; [lia|].
    destruct (Z.eqb_spec (last_lightness (powerup e)) 0); cbn; lia. }
  cbn. unfold set_flag. rewrite !FL. repeat (rewrite decide_True by done || rewrite decide_False by done). done.
Qed.

(** An on/off set message with a new TID that changes the state, on a
    provisioned node: the application and the MCU get the message, the sender the
    status with the new value, the cloud one INDICATE message with the new on/off
    state and lightness, and the application the action-done event, in that order
    and nothing else; the element ends at rest with both values in place. *)
Theorem onoff_set_reported ctx b t e c :
  at_rest (st e) → bound_t (st e) → b = 0 \/ b = 1 → b ≠ onoff_p (st e) → scene_p (st e) = scene_t (st e) →
  elem_id e = 0 → can_send (transport c) → normal_boot c = true → (forall i, flags c i = false) →
  fst (genie_transport_check_tid (addr ctx) t 0 (transport c)) = MESH_SUCCESS →
  let l := onoff_lightness b e in
  exists e' c', _gen_onoff_set ctx [b; t] (e, c) = Some (e', c')
    /\ onoff_p (st e') = b /\ lightness_p (st e') = l /\ at_rest (st e')
    /\ out (tenv (transport c')) = out (tenv (transport c)) ++
         [UserEvent GENIE_EVT_SIG_MODEL_MSG; DownMsg [130; 2; b; t];
          TxAccess (mkCtx (net_idx ctx) (app_idx ctx) (addr ctx) 3 (send_rel ctx)) [130; 4; b];
          TxAccess (mkCtx 0 (appkey_id (tenv (transport c))) 61440 3 0)
            ([212; 168; 1; fst (genie_transport_gen_tid (transport c)); 0; 1; b; 33; 1] ++ le16 l);
          UserEvent GENIE_EVT_USER_ACTION_DONE].
Proof.
  intros R B Hb N Sc I0 (W & P & EC & M & EN & V) NB FL CT l. pose proof (at_rest_eqs _ R) as (E1 & E2 & E3).
  destruct (check_tid_elem_cases (addr ctx) t e c) as [(c1 & CK & F1 & B1)|CK].
  2: { unfold check_tid in CK. rewrite I0 in CK. destruct (genie_transport_check_tid (addr ctx) t 0 (transport c)). cbn in CT. congruence. }
  destruct (onoff_analyze_change (addr ctx) b t e c c1 R B Hb N CK) as (e1 & A & Ei & Es).
  assert (exists q i, transport c1 = with_tid_queue q i (transport c)) as (q & i & Tq).
  { unfold check_tid, genie_transport_check_tid in CK. destruct (tid_scan _ _ _ _ _ _ _); [done|]. injection CK as <-. cbn. eauto. }
  unfold _gen_onoff_set. rewrite A. rewrite decide_True by done. cbn [reply_and_act report _gen_onoff_status].
  rewrite Ei, I0.
  set (c2 := sig_model_event_set_indicate SIG_MODEL_INDICATE_GEN_ONOFF (set_src (addr ctx) c1)).
  set (T1 := genie_transport_src_addr_set (addr ctx) (with_tid_queue q i (transport c))).
  assert (c2 = mkSctx (set_flag SIG_MODEL_INDICATE_GEN_ONOFF (flags c)) true T1) as Ec2.
  { unfold c2, sig_model_event_set_indicate, set_src, on_transport, T1. cbn. by rewrite Tq, F1, B1, NB. }
  rewrite Ec2. clearbody c2. clear Ec2 c2 A CK.
  unfold sig_model_event_generic, on_env, on_transport. cbn [flags normal_boot transport sm_opcode].
  unfold genie_down_msg. change (tenv T1) with (tenv (transport c)). rewrite EC. cbn [negb malloc_ok emit]. rewrite M. cbn [negb].
  change (OP_GENERIC_ONOFF_SET <? 127) with false. cbv iota. cbn [snd].
  set (e1' := emit _ (emit _ (tenv (transport c)))).
  unfold send_status, on_env, on_transport. cbn [flags normal_boot transport tenv with_env snd bt_mesh_model_send].
  assert (_gen_onoff_prepear_buf e1 (mkSctx (set_flag SIG_MODEL_INDICATE_GEN_ONOFF (flags c)) true (with_env e1' T1)) true = [130; 4; b]) as ->.
  { unfold _gen_onoff_prepear_buf, remain_byte, sig_model_transition_get_remain_time_byte. rewrite Es. cbn. done. }
  rewrite analyzed_event; [|by rewrite Es|by rewrite Es|exact (proj2 (andb_true_iff _ _) (conj P eq_refl))].
  cbn [flags normal_boot transport].
  set (T2 := with_env _ (with_env e1' T1)). set (F := flags_done _ _).
  assert (indicate_payload (done_state (st e1)) F = [0; 1; b; 33; 1] ++ le16 l) as PL.
  { unfold F. rewrite Es. by apply onoff_payload. }
  unfold sig_model_handle_indicate. cbn [flags st on_state normal_boot transport elem_id]. rewrite PL. cbn [app snd].
  eexists _, _. split; [reflexivity|]. cbn [st on_state]. rewrite Es.
  split; [done|]. split; [done|]. split.
  { unfold at_rest, settled. cbn. by rewrite !Z.eqb_refl. }
  unfold on_env, on_transport. cbn [transport tenv with_env].
  set (m := indicate_param _ _ _).
  assert (sent_tid m T2 = fst (genie_transport_gen_tid (transport c))) as ST by done.
  assert (tenv (snd (genie_transport_send_model m T2)) = emit (TxAccess (mkCtx 0 (appkey_id (tenv (transport c))) 61440 3 0)
     (212 :: 168 :: 1 :: sent_tid m T2 :: [0; 1; b; 33; 1] ++ le16 l)) (tenv T2)) as SM.
  { apply (send_model_output m ([0; 1; b; 33; 1] ++ le16 l) T2); try done.
    - destruct W as (_ & ND & _). exact ND.
    - assert (p_elem m = Some 0) as ->; [|exact V].
      change (p_elem m) with (if elem_id e1 <? elem_count (tenv (transport c)) then Some (elem_id e1) else None).
      rewrite Ei, I0. by rewrite (proj2 (Z.ltb_lt _ _) EN).
    - by apply (gen_tid_accepted _ (transport c)). }
  rewrite SM, ST. unfold genie_event_user. cbn [event_cb emit]. change (event_cb (tenv T2)) with (event_cb (tenv (transport c))). rewrite EC.
  cbn. rewrite <- !app_assoc. done.
Qed.

(** ** Concrete messages *)

(** A light that is off, last lightness 0x8000. *)
Definition off_light : sig_model_element_state_t :=
  mkElem 0 (mkSt 0 0 0 0 20000 20000 0 0 0 0 0 0 0 0) (mkPw 0 32768 20000 0).
Definition msg_ctx : bt_mesh_msg_ctx := mkCtx 0 0 5 7 0.

Lemma set_rejected_witness :
  snd (_ctl_analyze 5 [0; 0; 1; 0; 0; 0; 9] (off_light, sctx0)) = (off_light, sctx0).
Proof. apply (set_rejected Ctl 5 [0; 0; 1; 0; 0; 0; 9] (off_light, sctx0)). vm_compute. discriminate. Defined.

Lemma off_light_rest : at_rest (st off_light) /\ bound_t (st off_light).
Proof. split; [by repeat split|]. left. done. Qed.

Lemma plain_set_keeps_binding_witness :
  exists e' c', set_handler Lightness msg_ctx [0; 64; 9] (off_light, sctx0) = Some (e', c') /\ bound_t (st e').
Proof.
  destruct (plain_set_keeps_binding Lightness msg_ctx [0; 64; 9] off_light sctx0) as [(e' & c' & H & _ & B) _];
    [reflexivity|repeat constructor; lia|exact (proj1 off_light_rest)|exact (proj2 off_light_rest)|].
  exists e', c'. split; [exact H|exact B].
Defined.

Lemma onoff_set_reported_witness :
  exists e' c', _gen_onoff_set msg_ctx [1; 9] (off_light, sctx0) = Some (e', c') /\ lightness_p (st e') = 32768
    /\ out (tenv (transport c'))
       = [UserEvent GENIE_EVT_SIG_MODEL_MSG; DownMsg [130; 2; 1; 9]; TxAccess (mkCtx 0 0 5 3 0) [130; 4; 1];
          TxAccess (mkCtx 0 0 61440 3 0) [212; 168; 1; 133; 0; 1; 1; 33; 1; 0; 128]; UserEvent GENIE_EVT_USER_ACTION_DONE].
Proof.
  destruct (onoff_set_reported msg_ctx 1 9 off_light sctx0) as (e' & c' & H & _ & L & _ & O);
    [exact (proj1 off_light_rest)|exact (proj2 off_light_rest)|by right|discriminate|reflexivity|reflexivity| |reflexivity|reflexivity|reflexivity|].
  - split; [apply transport_boot_twf; simpl; lia|by vm_compute].
  - exists e', c'. split; [exact H|]. split; [rewrite L; reflexivity|]. rewrite O. vm_compute. reflexivity.
Defined.
