(* ===== verification/VendorModel.v ===== *)
(** * VendorModel: the vendor model server (genie_vendor_model.c)

    The handlers of the Tmall Genie vendor model and the table that selects them.
    They run on the whole service below the event layer: the timers of genie_time.c
    with the transport layer as their uplink.  A handler that would read behind the
    end of the received buffer gives [None]. *)
From Stdlib Require Import ZArith Lia List Bool.
From stdpp Require Import base list numbers option.
From S2P Require Import Prelude Env Transport Calendar GenieTime TimePool TimeMsg EventBase.
Local Open Scope Z_scope.

Definition vstate := gtstate tstate.

Definition on_env (f : env → env) (s : vstate) : vstate := on_uplink (λ u, with_env (f (tenv u)) u) s.

(** [genie_down_msg] of a vendor message. *)
Definition down_vendor (m : genie_transport_model_param_t) (s : vstate) : Z * vstate :=
  let '(r, e) := genie_down_msg (GENIE_DOWN_MESG_VENDOR_TYPE m) CONFIG_MESH_VENDOR_COMPANY_ID (tenv (uplink s)) in
  (r, on_env (λ _, e) s).

Definition genie_model_handle_mesg (m : genie_transport_model_param_t) (s : vstate) : option (Z * vstate) :=
  if len m <? 2 then Some (down_vendor m s) else
  match data m with
  | None => Some (-1, s)
  | Some _ =>
    if len m =? 0 then Some (-1, s) else
    '(r, s) ← genie_time_handle_model_mesg m s;
    if truthy r then Some (0, s) else
    let '(_, s) := down_vendor m s in Some (0, s)
  end.

(** [genie_event(GENIE_EVT_VENDOR_MODEL_MSG, msg)]. *)
Definition genie_event_vendor (m : genie_transport_model_param_t) (s : vstate) : option vstate :=
  if negb (event_cb (tenv (uplink s))) then Some s else
  '(_, s) ← genie_model_handle_mesg m s;
  Some (on_env (emit (UserEvent GENIE_EVT_VENDOR_MODEL_MSG)) s).

(** [p_model->user_data]: the element id of the model, if the pointers are set. *)
Definition genie_model_analyze (user_data : option Z) (ctx : bt_mesh_msg_ctx) (p_buf : list Z) (op : Z) (s : vstate)
  : option (E_MESH_ERROR_TYPE * vstate) :=
  match user_data with
  | None => Some (MESH_ANALYZE_ARGS_ERROR, s)
  | Some elem =>
    if Z.of_nat (length p_buf) <? 3 then Some (MESH_ANALYZE_SIZE_ERROR, s) else
    match p_buf with
    | [] => None
    | t :: rest =>
      match genie_transport_check_tid (addr ctx) t elem (uplink s) with
      | (MESH_SUCCESS, u) =>
          let s := on_uplink (λ _, genie_transport_src_addr_set (addr ctx) u) s in
          let n := Z.of_nat (length rest) in
          let m := mkParam (bt_mesh_elem_find_by_id elem (tenv u)) (Some elem) None 0 op t 0 0 n
                     (if truthy n then Some rest else None) in
          s ← genie_event_vendor m s; Some (MESH_SUCCESS, s)
      | (_, u) => Some (MESH_TID_REPEAT, on_uplink (λ _, u) s)
      end
    end
  end.

Definition genie_model_get ud ctx buf (s : vstate) := genie_model_analyze ud ctx buf VENDOR_OP_ATTR_GET_STATUS s.
Definition genie_model_set_ack ud ctx buf (s : vstate) := genie_model_analyze ud ctx buf VENDOR_OP_ATTR_SET_ACK s.
Definition genie_model_set_unack ud ctx buf (s : vstate) := genie_model_analyze ud ctx buf VENDOR_OP_ATTR_SET_UNACK s.
Definition genie_model_transparent ud ctx buf (s : vstate) := genie_model_analyze ud ctx buf VENDOR_OP_ATTR_TRANS_MSG s.

Definition ack (t : Z) (s : vstate) : vstate := on_uplink (λ u, snd (genie_transport_ack t u)) s.

(** The message without payload that the answers are reported as. *)
Definition bare_mesg (ud : option Z) (op t : Z) : genie_transport_model_param_t :=
  mkParam None ud None 0 op t 0 0 0 None.

(** [genie_model_confirm] and [genie_model_transparent_ack] differ in the opcode. *)
Definition confirm_with (op : Z) (ud : option Z) (buf : list Z) (s : vstate) : option vstate :=
  match ud with
  | None => Some s
  | Some _ =>
    match buf with
    | [t] => genie_event_vendor (bare_mesg ud op t) (ack t s)
    | _ => Some s
    end
  end.
Definition genie_model_confirm (ud : option Z) (ctx : bt_mesh_msg_ctx) (buf : list Z) (s : vstate) : option vstate :=
  confirm_with VENDOR_OP_ATTR_CONFIME ud buf s.
Definition genie_model_transparent_ack (ud : option Z) (ctx : bt_mesh_msg_ctx) (buf : list Z) (s : vstate) : option vstate :=
  confirm_with VENDOR_OP_ATTR_TRANS_ACK ud buf s.

Definition genie_model_get_indicate (ud : option Z) (ctx : bt_mesh_msg_ctx) (buf : list Z) (s : vstate) : option vstate :=
  match ud with
  | None => Some s
  | Some _ =>
    match buf with
    | [] => None
    | t :: _ =>
      let s := ack t s in
      let p_msg := bt_mesh_model_msg_init (BT_MESH_MODEL_OP_3 VENDOR_OP_ATTR_CONFIME CONFIG_MESH_VENDOR_COMPANY_ID) ++ [t] in
      let ctx := mkCtx (net_idx ctx) (app_idx ctx) (addr ctx) GENIE_TRANSPORT_DEFAULT_TTL (send_rel ctx) in
      let s := on_env (λ e, snd (bt_mesh_model_send ctx p_msg e)) s in
      let s := on_uplink (genie_transport_src_addr_set (addr ctx)) s in
      genie_event_vendor (bare_mesg ud VENDOR_OP_ATTR_INDICATE t) s
    end
  end.

Definition genie_model_confirm_tg (ud : option Z) (ctx : bt_mesh_msg_ctx) (buf : list Z) (s : vstate) : option vstate :=
  match ud with
  | None => Some s
  | Some _ =>
    match buf with
    | [] => None
    | t :: rest =>
      let s := ack t s in
      let n := Z.of_nat (length rest) in
      genie_event_vendor (mkParam None ud None 0 VENDOR_OP_ATTR_CONFIME_TG t 0 0 n (if truthy n then Some rest else None)) s
    end
  end.

(** A handler whose result code the access layer drops. *)
Definition no_result (f : option Z → bt_mesh_msg_ctx → list Z → vstate → option (E_MESH_ERROR_TYPE * vstate))
  (ud : option Z) (ctx : bt_mesh_msg_ctx) (buf : list Z) (s : vstate) : option vstate := snd <$> f ud ctx buf s.

(** [genie_model_op]: opcode, least length, handler. *)
Definition genie_model_op : list (Z * Z * (option Z → bt_mesh_msg_ctx → list Z → vstate → option vstate)) :=
  let op c := BT_MESH_MODEL_OP_3 c CONFIG_MESH_VENDOR_COMPANY_ID in
  [ (op VENDOR_OP_ATTR_GET_STATUS, 2, no_result genie_model_get);
    (op VENDOR_OP_ATTR_SET_ACK, 2, no_result genie_model_set_ack);
    (op VENDOR_OP_ATTR_SET_UNACK, 2, no_result genie_model_set_unack);
    (op VENDOR_OP_ATTR_INDICATE, 1, genie_model_get_indicate);
    (op VENDOR_OP_ATTR_CONFIME, 1, genie_model_confirm);
    (op VENDOR_OP_ATTR_CONFIME_TG, 1, genie_model_confirm_tg);
    (op VENDOR_OP_ATTR_TRANS_MSG, 1, no_result genie_model_transparent);
    (op VENDOR_OP_ATTR_TRANS_ACK, 1, genie_model_transparent_ack) ].

(** The use the access layer makes of the table for one element ([bt_mesh_model_recv]). *)
Definition vendor_recv (opcode : Z) (ud : option Z) (ctx : bt_mesh_msg_ctx) (buf : list Z) (s : vstate) : option vstate :=
  match find (λ o, (fst (fst o) =? opcode)) genie_model_op with
  | None => Some s
  | Some (_, min_len, func) => if Z.of_nat (length buf) <? min_len then Some s else func ud ctx buf s
  end.

(** ** Messages are handled inside their buffer *)

(** The payload carries the fixed part of the attribute the timers read. *)
Definition complete_payload (op : Z) (d : list Z) : Prop :=
  match d with
  | a0 :: a1 :: _ =>
      let attr := u16 (a0 + Z.shiftl a1 8) in let n := Z.of_nat (length d) in
      (attr = UNIX_TIME_T → op ≠ VENDOR_OP_ATTR_GET_STATUS → 6 <= n)
      /\ (attr = TIMEZONE_SETTING_T → op = VENDOR_OP_ATTR_SET_ACK → 3 <= n)
      /\ (attr = TIMING_SYNC_T → op = VENDOR_OP_ATTR_SET_ACK → 6 <= n)
  | _ => True
  end.

Definition vendor_op (op : Z) : Z := BT_MESH_MODEL_OP_3 op CONFIG_MESH_VENDOR_COMPANY_ID.

Lemma on_env_wf f (s : vstate) : gt_wf s → gt_wf (on_env f s).
Proof. apply (gtstep_wf s), step_uplink. Qed.

Lemma on_uplink_wf f (s : vstate) : gt_wf s → gt_wf (on_uplink f s).
Proof. apply (gtstep_wf s), step_uplink. Qed.

Lemma down_vendor_wf m (s : vstate) : gt_wf s → gt_wf (snd (down_vendor m s)).
Proof. unfold down_vendor. destruct (genie_down_msg _ _ _). apply on_env_wf. Qed.

(** ** What is sent fits the publication buffer *)

Definition fits (o : output) : Prop :=
  match o with TxAccess _ bytes => Z.of_nat (length bytes) <= GENIE_MODEL_MTU | BufOverrun _ => False | _ => True end.

(** Everything the service did from [u] to [u'] fits. *)
Definition sends_fit (u u' : tstate) : Prop := exists o, out (tenv u') = out (tenv u) ++ o /\ Forall fits o.

#[export] Instance sends_fit_preorder : PreOrder sends_fit.
Proof.
  split.
  - intros u. exists []. by rewrite app_nil_r.
  - intros u1 u2 u3 (o1 & E1 & F1) (o2 & E2 & F2). exists (o1 ++ o2). rewrite E2, E1, <- app_assoc. split; [done|by apply Forall_app].
Qed.

Lemma sends_fit_same u u' : out (tenv u') = out (tenv u) → sends_fit u u'.
Proof. intros E. exists []. by rewrite app_nil_r. Qed.

Lemma sends_fit_refl u : sends_fit u u.
Proof. reflexivity. Qed.
#[local] Hint Resolve sends_fit_refl : core.

Lemma sends_fit_one u u' o : out (tenv u') = out (tenv u) ++ [o] → fits o → sends_fit u u'.
Proof. intros E F. exists [o]. split; [done|]. by constructor. Qed.

Lemma model_send_bytes_le m : len m <= 92 → fits_mtu m.
Proof.
  intros L. unfold fits_mtu, model_send_bytes, GENIE_MODEL_MTU. rewrite !length_app.
  assert (length (bt_mesh_model_msg_init (BT_MESH_MODEL_OP_3 (opid m) CONFIG_MESH_VENDOR_COMPANY_ID)) <= 3)%nat
    by (unfold bt_mesh_model_msg_init; repeat case_match; cbn; lia).
  destruct (Z.eqb_spec (len m) 0); unfold read_mem; rewrite ?length_take; cbn [length]; lia.
Qed.

Lemma model_send_sends_fit m u : len m <= 92 →
  sends_fit u (snd (let '(r, e) := genie_transport_model_send m (tenv u) in (r, with_env e u))).
Proof.
  intros L%model_send_bytes_le. destruct (vnd_model (tenv u) (p_elem m)) eqn:V.
  - rewrite (model_send_fits m _ L V). cbn [snd]. eapply sends_fit_one; [done|exact L].
  - unfold genie_transport_model_send. rewrite V. apply sends_fit_same. done.
Qed.

Lemma send_model_sends_fit m u : len m <= 92 → sends_fit u (snd (genie_transport_send_model m u)).
Proof.
  intros L. destruct (data m) eqn:D; [|by rewrite send_model_rejected by auto].
  destruct (Z.eq_dec (len m) 0); [by rewrite send_model_rejected by auto|].
  destruct (provisioned (tenv u)) eqn:P; [|by rewrite send_model_rejected by auto].
  destruct (sendable_opid (opid m)) eqn:O; [|by rewrite send_model_rejected by auto].
  rewrite send_model_unfold by congruence.
  assert (exists m1 u1, assign_tid m u = (m1, u1) /\ len m1 = len m /\ tenv u1 = tenv u) as (m1 & u1 & -> & E1 & E2).
  { unfold assign_tid. destruct (tid m =? 0); [|eauto]. rewrite gen_tid_spec. eauto. }
  destruct (tid_out_of_range m1); [apply sends_fit_same; by rewrite <- E2|]. cbv zeta.
  assert (tenv (drop_pending (tid m1) u1) = tenv u) as E3.
  { rewrite <- E2. unfold drop_pending, transport_remove_by_tid. destruct (genie_transport_find_by_tid _ _); [|done].
    destruct (send_list u1); [done|]. by destruct (remove_first_tid _ _) as [[]|]. }
  set (u2 := drop_pending _ _) in *. destruct (wants_retransmit m1).
  - pose proof (append_mesg_frame m1 u2) as F. assert (len (snd (fst (genie_transport_append_mesg m1 u2))) = len m1) as EL.
    { unfold genie_transport_append_mesg, genie_transport_msg_node_generate. destruct (Nat.leb _ _); [done|].
      destruct (retry m1 >? _); by destruct (malloc_ok (tenv (lock u2))). }
    destruct (genie_transport_append_mesg m1 u2) as [[r m3] u3]. destruct F as (F & _). cbn in EL.
    transitivity u3; [apply sends_fit_same; by rewrite F, E3|]. apply model_send_sends_fit. lia.
  - transitivity u2; [apply sends_fit_same; by rewrite E3|]. apply model_send_sends_fit. lia.
Qed.

Lemma send_payload_sends_fit p u : payload_len p <= 92 → sends_fit u (snd (genie_transport_send_payload p u)).
Proof. intros L. unfold genie_transport_send_payload. destruct (p_payload p); [|done]. by apply send_model_sends_fit. Qed.

Lemma ack_sends_fit t (s : vstate) : sends_fit (uplink s) (uplink (ack t s)).
Proof.
  unfold ack, genie_transport_ack. cbn [uplink on_uplink]. destruct (send_list (uplink s)); [done|].
  destruct (remove_first_tid _ _) as [[n l']|]; cbn [snd]; [|by apply sends_fit_same].
  unfold call_result_cb. destruct (result_cb (msg n)); [|by apply sends_fit_same]. by eapply sends_fit_one.
Qed.

Lemma down_vendor_sends_fit m (s : vstate) : sends_fit (uplink s) (uplink (snd (down_vendor m s))).
Proof.
  unfold down_vendor, genie_down_msg. repeat case_match; simplify_eq; cbn [snd]; try by apply sends_fit_same.
  all: by eapply sends_fit_one.
Qed.

Lemma on_env_sends_fit o (s : vstate) : fits o → sends_fit (uplink s) (uplink (on_env (emit o) s)).
Proof. intros F. by eapply sends_fit_one. Qed.

Lemma event_vendor_safe op d t pe pm (s : vstate) : Forall (λ b, is_u8 b) d → Z.of_nat (length d) < 65536 → complete_payload op d →
  let n := Z.of_nat (length d) in
  exists s', genie_event_vendor (mkParam pe pm None 0 op t 0 0 n (if truthy n then Some d else None)) s = Some s'
    /\ (gt_wf s → gt_wf s') /\ (n <= 92 → sends_fit (uplink s) (uplink s')).
Proof.
  intros F L C n. unfold genie_event_vendor. destruct (negb _); [by eauto|].
  set (m := mkParam _ _ _ _ _ _ _ _ _ _).
  enough (exists r s', genie_model_handle_mesg m s = Some (r, s') /\ (gt_wf s → gt_wf s')
    /\ (n <= 92 → sends_fit (uplink s) (uplink s'))) as (r & s' & -> & W & S).
  { cbn [mbind option_bind]. eexists. split; [done|]. split; [eauto using on_env_wf|]. intros H.
    transitivity (uplink s'); [by apply S|]. by apply on_env_sends_fit. }
  unfold genie_model_handle_mesg. cbn [len m data]. destruct (Z.ltb_spec n 2) as [Hn|Hn].
  { rewrite (surjective_pairing (down_vendor m s)). eauto 10 using down_vendor_wf, down_vendor_sends_fit. }
  assert (truthy n = true) as Tn by (unfold truthy; by rewrite (proj2 (Z.eqb_neq n 0)) by lia).
  rewrite Tn, (proj2 (Z.eqb_neq n 0)) by lia.
  destruct (time_message_steps m d s) as (r & s' & E & R).
  { unfold m. rewrite Tn. split; [done|]. split; [done|]. cbn [len opid]. split; [lia|]. split; [done|]. exact C. }
  assert (n <= 92 → sends_fit (uplink s) (uplink s')) as S.
  { intros H. exact (time_message_said sends_fit 92 ltac:(lia) send_payload_sends_fit m s r s' H E). }
  rewrite E. cbn [mbind option_bind]. destruct (truthy r); [by eauto 10 using gtsteps_wf|].
  rewrite (surjective_pairing (down_vendor m s')). eexists _, _. split; [reflexivity|]. split.
  - intros. apply down_vendor_wf. by apply (gtsteps_wf s).
  - intros H. transitivity (uplink s'); [by apply S|apply down_vendor_sends_fit].
Qed.

Lemma confirm_with_safe op ud buf (s : vstate) : exists s', confirm_with op ud buf s = Some s' /\ (gt_wf s → gt_wf s')
  /\ sends_fit (uplink s) (uplink s').
Proof.
  unfold confirm_with. destruct ud as [el|]; [|by eauto]. destruct buf as [|t [|]]; try by eauto.
  destruct (event_vendor_safe op [] t None (Some el) (ack t s)) as (s' & E & W & S); [constructor | cbn; lia | done |].
  exists s'. split; [exact E|]. split; [eauto using on_uplink_wf|]. transitivity (uplink (ack t s)); [apply ack_sends_fit|by apply S].
Qed.

Lemma analyze_safe ud ctx buf op (s : vstate) : Forall (λ b, is_u8 b) buf → Z.of_nat (length buf) < 65536 →
  complete_payload op (tl buf) → exists s', no_result (λ ud ctx buf, genie_model_analyze ud ctx buf op) ud ctx buf s = Some s'
    /\ (gt_wf s → gt_wf s') /\ (Z.of_nat (length buf) <= 93 → sends_fit (uplink s) (uplink s')).
Proof.
  intros F L C. unfold no_result, genie_model_analyze. destruct ud as [el|]; [|cbn; by eauto].
  destruct (Z.ltb_spec (Z.of_nat (length buf)) 3); [cbn; by eauto|]. destruct buf as [|t d]; [cbn [length] in *; lia|].
  apply Forall_cons_1 in F as [_ F]. cbn [length tl] in *.
  assert (tenv (snd (genie_transport_check_tid (addr ctx) t el (uplink s))) = tenv (uplink s)) as EU
    by (unfold genie_transport_check_tid; by destruct (tid_scan _ _ _ _ _ _ _)).
  assert (forall u, tenv u = tenv (uplink s) → exists s', Some (on_uplink (λ _, u) s) = Some s' /\ (gt_wf s → gt_wf s')
    /\ (Z.of_nat (S (length d)) <= 93 → sends_fit (uplink s) (uplink s'))) as REP.
  { intros u E. eexists. split; [done|]. split; [apply on_uplink_wf|]. intros _. apply sends_fit_same. cbn. by rewrite E. }
  destruct (genie_transport_check_tid _ _ _ _) as [[] u]; cbn [snd] in EU; try (cbn; by apply REP).
  edestruct (event_vendor_safe op d t) as (s' & -> & W & S); [done | lia | done |]. cbn. eexists. split; [done|].
  split; [eauto using on_uplink_wf|]. intros HB. etransitivity; [|apply S; lia]. apply sends_fit_same. cbn. by rewrite EU.
Qed.

(** [C33] Every vendor message that the access layer delivers and that carries the
    fixed part of its attribute is read within its own buffer: whatever the opcode,
    the element and the state, the table selects a handler that returns, and the
    timer pool invariant holds after it.  What a message of at most 93 bytes makes
    the node send fits the 96 byte publication buffer; a longer one may be echoed
    behind its end ([long_request_overruns]). *)
Theorem vendor_recv_safe opcode ud ctx buf (s : vstate) : Forall (λ b, is_u8 b) buf → Z.of_nat (length buf) < 65536 →
  (forall op, opcode = vendor_op op → complete_payload op (tl buf)) →
  exists s', vendor_recv opcode ud ctx buf s = Some s' /\ (gt_wf s → gt_wf s')
    /\ (Z.of_nat (length buf) <= 93 → sends_fit (uplink s) (uplink s')).
Proof.
  intros F L C. unfold vendor_recv, genie_model_op. cbn [find fst].
  repeat match goal with |- context [BT_MESH_MODEL_OP_3 ?op _ =? opcode] =>
    destruct (Z.eqb_spec (BT_MESH_MODEL_OP_3 op CONFIG_MESH_VENDOR_COMPANY_ID) opcode) as [<-|_];
    [specialize (C op eq_refl); match goal with |- context [Z.of_nat (length buf) <? ?n] =>
       destruct (Z.ltb_spec (Z.of_nat (length buf)) n); [by eauto|] end|] end;
  try (apply analyze_safe; done); [| | | |by eauto].
  - unfold genie_model_get_indicate. destruct ud as [el|]; [|by eauto]. destruct buf as [|t d]; [cbn [length] in *; lia|].
    edestruct (event_vendor_safe VENDOR_OP_ATTR_INDICATE [] t) as (s' & E & W & S); [constructor | cbn; lia | done |].
    exists s'. split; [exact E|]. split; [unfold ack, on_env in *; eauto using on_uplink_wf|]. intros _.
    transitivity (uplink (ack t s)); [apply ack_sends_fit|]. etransitivity; [|apply S; cbn; lia].
    by eapply sends_fit_one.
  - destruct (confirm_with_safe VENDOR_OP_ATTR_CONFIME ud buf s) as (s' & E & W & S). eauto.
  - unfold genie_model_confirm_tg. destruct ud as [el|]; [|by eauto]. destruct buf as [|t d]; [cbn [length] in *; lia|].
    apply Forall_cons_1 in F as [_ F]. cbn [tl length] in *.
    edestruct (event_vendor_safe VENDOR_OP_ATTR_CONFIME_TG d t None (Some el) (ack t s)) as (s' & E & W & S); [done | lia | done |].
    exists s'. split; [exact E|]. split; [unfold ack in *; eauto using on_uplink_wf|]. intros HB.
    transitivity (uplink (ack t s)); [apply ack_sends_fit|apply S; lia].
  - destruct (confirm_with_safe VENDOR_OP_ATTR_TRANS_ACK ud buf s) as (s' & E & W & S). eauto.
Qed.

(** A timer service over a transport layer, before any message. *)
Definition vboot (e : env) : vstate := snd (genie_time_init (time_boot (transport_boot e))).

Lemma vendor_recv_safe_witness :
  exists s', vendor_recv (vendor_op VENDOR_OP_ATTR_SET_ACK) (Some 0) (mkCtx 0 0 5 3 0) [130; 31; 240; 1; 2; 3; 4] (vboot env0) = Some s'
    /\ (gt_wf (vboot env0) → gt_wf s') /\ sends_fit (uplink (vboot env0)) (uplink s').
Proof.
  destruct (vendor_recv_safe (vendor_op VENDOR_OP_ATTR_SET_ACK) (Some 0) (mkCtx 0 0 5 3 0) [130; 31; 240; 1; 2; 3; 4] (vboot env0))
    as (s' & E & W & S).
  - repeat (apply Forall_cons_2; [lia|]); constructor.
  - reflexivity.
  - intros op _. cbn. repeat split; intros; lia.
  - exists s'. split; [exact E|]. split; [exact W|]. apply S. vm_compute. discriminate.
Defined.

(** A request for the timers (TIMING_SETTING, GET) with 102 bytes is echoed: the
    answer has 106 bytes, and ten of them are written behind the publication buffer. *)
Theorem long_request_overruns :
  let buf := [130; 16; 240] ++ replicate 100 0 in
  (λ s, out (tenv (uplink s))) <$> vendor_recv (vendor_op VENDOR_OP_ATTR_GET_STATUS) (Some 0) (mkCtx 0 0 5 3 0) buf (vboot env0)
  = Some [BufOverrun 10; TxAccess (mkCtx 0 0 61440 3 0) ([211; 168; 1] ++ buf); UserEvent GENIE_EVT_VENDOR_MODEL_MSG].
Proof. vm_compute. reflexivity. Qed.

(** ** What the messages do *)

Lemma ack_frame t u : event_cb (tenv (snd (genie_transport_ack t u))) = event_cb (tenv u)
  /\ malloc_ok (tenv (snd (genie_transport_ack t u))) = malloc_ok (tenv u).
Proof.
  unfold genie_transport_ack, call_result_cb. repeat (case_match; simplify_eq; try done).
Qed.

(** A confirmation completes the exchange: the vendor CONFIME message with TID
    [t] removes exactly the pending message with that TID and stops its
    retransmission, its callback gets one success, the MCU gets the bare frame, the
    application the vendor event, in this order and nothing else; the timers stay. *)
Theorem confirm_completes el t ctx (s : vstate) : twf (uplink s) → event_cb (tenv (uplink s)) = true →
  malloc_ok (tenv (uplink s)) = true → let u := uplink s in
  exists s', vendor_recv (vendor_op VENDOR_OP_ATTR_CONFIME) (Some el) ctx [t] s = Some s'
    /\ send_list (uplink s') = List.filter (other_tid t) (send_list u)
    /\ transport_mutex (uplink s') = transport_mutex u
    /\ out (tenv (uplink s')) = out (tenv u)
         ++ match find_by_tid t (send_list u) with
            | Some m => match result_cb m with Some cb => [ResultCb cb t SEND_RESULT_SUCCESS] | None => [] end
            | None => []
            end ++ [DownMsg [213; 168; 1; t]; UserEvent GENIE_EVT_VENDOR_MODEL_MSG]
    /\ genie_time_data s' = genie_time_data s /\ genie_time_timer s' = genie_time_timer s /\ local_time s' = local_time s.
Proof.
  intros T E M u. change (vendor_recv _ _ _ [t] s) with (genie_event_vendor (bare_mesg (Some el) VENDOR_OP_ATTR_CONFIME t) (ack t s)).
  destruct (ack_effect t u T) as (_ & A1 & A2 & A3). destruct (ack_frame t u) as (F1 & F2).
  unfold genie_event_vendor, genie_model_handle_mesg, down_vendor, genie_down_msg.
  cbn [uplink ack on_uplink len bare_mesg data Z.ltb Z.compare]. fold u in E, M |- *.
  rewrite F1, F2, E, M. cbn [negb mbind option_bind]. eexists. split; [reflexivity|].
  cbn [on_env on_uplink uplink with_env tenv emit out send_list transport_mutex genie_time_data genie_time_timer local_time].
  change (uplink (ack t s)) with (snd (genie_transport_ack t u)). rewrite A1, A2, A3, <- !app_assoc. done.
Qed.

(** An acknowledged indication is pending when its confirmation arrives. *)
Definition pending0 : vstate := on_uplink (λ u, snd (genie_transport_send_model param0 u)) (vboot env0).

Lemma confirm_completes_witness : let u := uplink pending0 in
  exists s', vendor_recv (vendor_op VENDOR_OP_ATTR_CONFIME) (Some 0) (mkCtx 0 0 1 3 0) [130] pending0 = Some s'
    /\ send_list (uplink s') = List.filter (other_tid 130) (send_list u)
    /\ transport_mutex (uplink s') = transport_mutex u
    /\ out (tenv (uplink s')) = out (tenv u)
         ++ match find_by_tid 130 (send_list u) with
            | Some m => match result_cb m with Some cb => [ResultCb cb 130 SEND_RESULT_SUCCESS] | None => [] end
            | None => []
            end ++ [DownMsg [213; 168; 1; 130]; UserEvent GENIE_EVT_VENDOR_MODEL_MSG]
    /\ genie_time_data s' = genie_time_data pending0 /\ genie_time_timer s' = genie_time_timer pending0
    /\ local_time s' = local_time pending0.
Proof.
  intros u. apply (confirm_completes 0 130 (mkCtx 0 0 1 3 0) pending0).
  - apply (tstep_twf (transport_boot env0)); [|apply transport_boot_twf; cbn; lia].
    apply step_send. repeat split; simpl; lia.
  - reflexivity.
  - reflexivity.
Defined.

(** A payload that goes to the MCU: not an attribute of the timers. *)
Definition for_mcu (op : Z) (d : list Z) : Prop :=
  op = VENDOR_OP_ATTR_SET_UNACK \/ op = VENDOR_OP_ATTR_TRANS_MSG \/
  (op = VENDOR_OP_ATTR_SET_ACK /\ match d with
     | a0 :: a1 :: _ => u16 (a0 + Z.shiftl a1 8) ∉ [UNIX_TIME_T; TIMEZONE_SETTING_T; TIMING_SYNC_T; TIMING_SETTING_T;
                                                     TIMING_PERIODIC_SETTING_T; TIMING_DELETE_T]
     | _ => False end).

Lemma for_mcu_not_time op d m (s : vstate) : for_mcu op d → opid m = op → data m = Some d → len m ≠ 0 →
  genie_time_handle_model_mesg m s = Some (0, s).
Proof.
  intros H O D L. unfold genie_time_handle_model_mesg. rewrite D, O, (proj2 (Z.eqb_neq _ _) L).
  destruct H as [-> | [-> | [-> H]]]; [done..|]. change (VENDOR_OP_ATTR_SET_ACK =? VENDOR_OP_ATTR_GET_STATUS) with false.
  rewrite Z.eqb_refl. destruct d as [|a0 [|a1 p]]; [done..|]. unfold handle_set.
  rewrite !not_elem_of_cons in H. destruct H as (? & ? & ? & ? & ? & ? & _).
  repeat match goal with |- context [?x =? ?y] => rewrite (proj2 (Z.eqb_neq x y)) by done end.
  done.
Qed.

Lemma analyze_selected op el ctx buf (s : vstate) : op = VENDOR_OP_ATTR_SET_UNACK \/ op = VENDOR_OP_ATTR_TRANS_MSG \/ op = VENDOR_OP_ATTR_SET_ACK →
  3 <= Z.of_nat (length buf) →
  vendor_recv (vendor_op op) (Some el) ctx buf s = snd <$> genie_model_analyze (Some el) ctx buf op s.
Proof.
  intros O L.
  assert (exists n, n <= 2 /\ vendor_recv (vendor_op op) (Some el) ctx buf s
    = if Z.of_nat (length buf) <? n then Some s else snd <$> genie_model_analyze (Some el) ctx buf op s) as (n & Hn & ->).
  { destruct O as [-> | [-> | ->]]; [exists 2 | exists 1 | exists 2]; split; (lia || reflexivity). }
  by rewrite (proj2 (Z.ltb_ge _ _)) by lia.
Qed.

(** A message that was just accepted is a repeat for six seconds. *)
Lemma check_tid_repeated a t el u u1 u2 dt : ring_wf u → genie_transport_check_tid a t el u = (MESH_SUCCESS, u1) →
  tid_queue u2 = tid_queue u1 → cur_index u2 = cur_index u1 → uptime (tenv u2) = uptime (tenv u) + dt →
  0 <= dt < 6000 → 0 <= uptime (tenv u) → uptime (tenv u) + 6000 < 4294967296 →
  genie_transport_check_tid a t el u2 = (MESH_TID_REPEAT, u2).
Proof.
  intros W EC Q CI HU Hd H0 HB. pose proof W as [HL HI].
  pose proof (check_tid_ring_wf a t el u W) as W1. rewrite EC in W1. cbn [snd] in W1.
  assert (ring_wf u2) as W2 by (unfold ring_wf in *; by rewrite Q, CI).
  rewrite check_tid_cases in EC by done. cbv zeta in EC. destruct (existsb _ _); [done|]. injection EC as E1.
  rewrite check_tid_cases by done. cbv zeta. rewrite (proj2 (existsb_exists _ _)); [done|].
  exists (mkTidEntry t el (dedup_addr a) (u32 (uptime (tenv u)))). split.
  - apply list_elem_of_In. rewrite Q, <- E1. cbn [tid_queue with_tid_queue].
    apply (list_elem_of_lookup_2 _ (Z.to_nat (cur_index u))), list_lookup_insert_eq. unfold RECV_MSG_TID_QUEUE_SIZE in *. lia.
  - unfold tid_hit, GENIE_TRANSPORT_DEDUPLICATE_DURATION; simpl. rewrite !Z.eqb_refl, HU. simpl.
    rewrite !u32_small by (rewrite ?u32_small; lia). apply Z.ltb_lt. lia.
Qed.

(** A vendor message for the MCU is delivered once: with a new TID the MCU gets
    the frame of opcode, company id, TID and payload and the application the vendor
    event, nothing else; the same message arriving again from the same source within
    six seconds (a mesh retransmission) changes nothing. *)
Theorem vendor_delivered_once op el ctx t d dt (s : vstate) : for_mcu op d → 2 <= Z.of_nat (length d) < 65532 →
  event_cb (tenv (uplink s)) = true → malloc_ok (tenv (uplink s)) = true → ring_wf (uplink s) →
  fst (genie_transport_check_tid (addr ctx) t el (uplink s)) = MESH_SUCCESS →
  0 <= dt < 6000 → 0 <= uptime (tenv (uplink s)) → uptime (tenv (uplink s)) + 6000 < 4294967296 →
  exists s', vendor_recv (vendor_op op) (Some el) ctx (t :: d) s = Some s'
    /\ out (tenv (uplink s')) = out (tenv (uplink s)) ++ [DownMsg (op :: 168 :: 1 :: t :: d); UserEvent GENIE_EVT_VENDOR_MODEL_MSG]
    /\ send_list (uplink s') = send_list (uplink s)
    /\ let later := on_env (advance dt) s' in vendor_recv (vendor_op op) (Some el) ctx (t :: d) later = Some later.
Proof.
  intros H L E M W C Hd H0 HB. assert (op = VENDOR_OP_ATTR_SET_UNACK \/ op = VENDOR_OP_ATTR_TRANS_MSG \/ op = VENDOR_OP_ATTR_SET_ACK) as O
    by (unfold for_mcu in H; tauto).
  destruct (genie_transport_check_tid (addr ctx) t el (uplink s)) as [r u1] eqn:EC. cbn [fst] in C. subst r.
  assert (tenv u1 = tenv (uplink s) /\ send_list u1 = send_list (uplink s)) as [EU ES].
  { rewrite check_tid_cases in EC by done. cbv zeta in EC. destruct (existsb _ _); [done|]. injection EC as <-. done. }
  assert (3 <= Z.of_nat (length (t :: d))) as L3 by (cbn [length]; lia).
  rewrite (analyze_selected op el ctx (t :: d) s O L3). unfold genie_model_analyze at 1. rewrite (proj2 (Z.ltb_ge _ _) L3), EC.
  set (n := Z.of_nat (length d)). assert (truthy n = true) as Tn by (unfold truthy; by rewrite (proj2 (Z.eqb_neq n 0)) by lia).
  rewrite Tn. set (m := mkParam _ _ _ _ _ _ _ _ _ _). unfold genie_event_vendor. cbn [uplink on_uplink genie_transport_src_addr_set tenv].
  rewrite EU, E. cbn [negb]. unfold genie_model_handle_mesg. cbn [len m data]. rewrite (proj2 (Z.ltb_ge n 2)), (proj2 (Z.eqb_neq n 0)) by lia.
  rewrite (for_mcu_not_time op d m) by (done || (cbn; lia)). cbn [mbind option_bind truthy Z.eqb negb].
  unfold down_vendor, genie_down_msg. cbn [uplink on_uplink genie_transport_src_addr_set tenv]. rewrite EU, E, M.
  cbn [negb mbind option_bind fmap option_fmap option_map snd]. eexists. split; [reflexivity|].
  split; [|split; [exact ES|]].
  - cbn [on_env on_uplink uplink with_env tenv emit out]. rewrite <- app_assoc. do 3 f_equal.
    unfold down_bytes, read_mem. cbn [len m data default opid tid]. rewrite (proj2 (Z.gtb_lt n 0)) by lia.
    rewrite u16_small by lia. rewrite take_ge by (rewrite length_app, length_take; cbn; lia).
    cbn. by rewrite take_ge by lia.
  - set (later := on_env _ _). rewrite (analyze_selected op el ctx (t :: d) later O L3).
    unfold genie_model_analyze. rewrite (proj2 (Z.ltb_ge _ _) L3).
    rewrite (check_tid_repeated (addr ctx) t el (uplink s) u1 (uplink later) dt) by (done || (unfold later; cbn; by rewrite ?EU)).
    clearbody later. cbn. by destruct later.
Qed.

Lemma vendor_delivered_once_witness :
  exists s', vendor_recv (vendor_op VENDOR_OP_ATTR_SET_ACK) (Some 0) (mkCtx 0 0 5 3 0) [9; 0; 1; 1] (vboot env0) = Some s'
    /\ out (tenv (uplink s')) = out (tenv (uplink (vboot env0))) ++ [DownMsg [VENDOR_OP_ATTR_SET_ACK; 168; 1; 9; 0; 1; 1]; UserEvent GENIE_EVT_VENDOR_MODEL_MSG]
    /\ send_list (uplink s') = send_list (uplink (vboot env0))
    /\ let later := on_env (advance 250) s' in
       vendor_recv (vendor_op VENDOR_OP_ATTR_SET_ACK) (Some 0) (mkCtx 0 0 5 3 0) [9; 0; 1; 1] later = Some later.
Proof.
  apply (vendor_delivered_once VENDOR_OP_ATTR_SET_ACK 0 (mkCtx 0 0 5 3 0) 9 [0; 1; 1] 250 (vboot env0)).
  - right; right. split; [done|]. apply (bool_decide_unpack _). vm_compute. exact I.
  - cbn; lia.
  - reflexivity.
  - reflexivity.
  - split; [reflexivity|split; [discriminate|reflexivity]].
  - vm_compute. reflexivity.
  - lia.
  - cbn; lia.
  - reflexivity.
Defined.
