(* ===== verification/Aes.v ===== *)
(** * Aes: the block cipher under the flash store

    [bt_mesh_aes_encrypt] and [bt_mesh_aes_decrypt] of mesh_hal_sec.c, through
    [bt_encrypt_be]/[bt_decrypt_be] of bt_host/host/crypto.c, down to the AES-128
    code of tinycrypt (aes_encrypt.c, aes_decrypt.c, utils.c).  A block is the
    list of its sixteen bytes, a key schedule the list of its 44 words; a null
    pointer is [None].  The arithmetic that C does on [int] before a store to
    [uint8_t] or [unsigned int] is reduced at the store. *)
From Stdlib Require Import ZArith Lia List Bool Btauto.
From stdpp Require Import base list numbers option.
From S2P Require Import Prelude.
Local Open Scope Z_scope.

(** ** Tables and constants *)

Definition Nb : nat := 4.
Definition Nk : nat := 4.
Definition Nr : nat := 10.
Definition TC_CRYPTO_SUCCESS : Z := 1.
Definition TC_CRYPTO_FAIL : Z := 0.

Definition sbox : list Z :=
  [99; 124; 119; 123; 242; 107; 111; 197; 48; 1; 103; 43; 254; 215; 171; 118; 202; 130; 201;
   125; 250; 89; 71; 240; 173; 212; 162; 175; 156; 164; 114; 192; 183; 253; 147; 38; 54; 63;
   247; 204; 52; 165; 229; 241; 113; 216; 49; 21; 4; 199; 35; 195; 24; 150; 5; 154; 7; 18; 128;
   226; 235; 39; 178; 117; 9; 131; 44; 26; 27; 110; 90; 160; 82; 59; 214; 179; 41; 227; 47;
   132; 83; 209; 0; 237; 32; 252; 177; 91; 106; 203; 190; 57; 74; 76; 88; 207; 208; 239; 170;
   251; 67; 77; 51; 133; 69; 249; 2; 127; 80; 60; 159; 168; 81; 163; 64; 143; 146; 157; 56;
   245; 188; 182; 218; 33; 16; 255; 243; 210; 205; 12; 19; 236; 95; 151; 68; 23; 196; 167; 126;
   61; 100; 93; 25; 115; 96; 129; 79; 220; 34; 42; 144; 136; 70; 238; 184; 20; 222; 94; 11;
   219; 224; 50; 58; 10; 73; 6; 36; 92; 194; 211; 172; 98; 145; 149; 228; 121; 231; 200; 55;
   109; 141; 213; 78; 169; 108; 86; 244; 234; 101; 122; 174; 8; 186; 120; 37; 46; 28; 166; 180;
   198; 232; 221; 116; 31; 75; 189; 139; 138; 112; 62; 181; 102; 72; 3; 246; 14; 97; 53; 87;
   185; 134; 193; 29; 158; 225; 248; 152; 17; 105; 217; 142; 148; 155; 30; 135; 233; 206; 85;
   40; 223; 140; 161; 137; 13; 191; 230; 66; 104; 65; 153; 45; 15; 176; 84; 187; 22].

Definition inv_sbox : list Z :=
  [82; 9; 106; 213; 48; 54; 165; 56; 191; 64; 163; 158; 129; 243; 215; 251; 124; 227; 57; 130;
   155; 47; 255; 135; 52; 142; 67; 68; 196; 222; 233; 203; 84; 123; 148; 50; 166; 194; 35; 61;
   238; 76; 149; 11; 66; 250; 195; 78; 8; 46; 161; 102; 40; 217; 36; 178; 118; 91; 162; 73;
   109; 139; 209; 37; 114; 248; 246; 100; 134; 104; 152; 22; 212; 164; 92; 204; 93; 101; 182;
   146; 108; 112; 72; 80; 253; 237; 185; 218; 94; 21; 70; 87; 167; 141; 157; 132; 144; 216;
   171; 0; 140; 188; 211; 10; 247; 228; 88; 5; 184; 179; 69; 6; 208; 44; 30; 143; 202; 63; 15;
   2; 193; 175; 189; 3; 1; 19; 138; 107; 58; 145; 17; 65; 79; 103; 220; 234; 151; 242; 207;
   206; 240; 180; 230; 115; 150; 172; 116; 34; 231; 173; 53; 133; 226; 249; 55; 232; 28; 117;
   223; 110; 71; 241; 26; 113; 29; 41; 197; 137; 111; 183; 98; 14; 170; 24; 190; 27; 252; 86;
   62; 75; 198; 210; 121; 32; 154; 219; 192; 254; 120; 205; 90; 244; 31; 221; 168; 51; 136; 7;
   199; 49; 177; 18; 16; 89; 39; 128; 236; 95; 96; 81; 127; 169; 25; 181; 74; 13; 45; 229; 122;
   159; 147; 201; 156; 239; 160; 224; 59; 77; 174; 42; 245; 176; 200; 235; 187; 60; 131; 83;
   153; 97; 23; 43; 4; 126; 186; 119; 214; 38; 225; 105; 20; 99; 85; 33; 12; 125].

(** ** Bytes and words *)

(** [t[x]] for a byte [x]. *)
Definition look (t : list Z) (x : Z) : Z := nth (Z.to_nat x) t 0.

Definition _double_byte (a : Z) : Z := u8 (Z.lxor (Z.shiftl a 1) (Z.shiftr a 7 * 27)).
Definition triple (a : Z) : Z := Z.lxor (_double_byte a) a.

Definition mult8 (a : Z) : Z := _double_byte (_double_byte (_double_byte a)).
Definition mult9 (a : Z) : Z := Z.lxor (mult8 a) a.
Definition multb (a : Z) : Z := Z.lxor (Z.lxor (mult8 a) (_double_byte a)) a.
Definition multd (a : Z) : Z := Z.lxor (Z.lxor (mult8 a) (_double_byte (_double_byte a))) a.
Definition multe (a : Z) : Z := Z.lxor (Z.lxor (mult8 a) (_double_byte (_double_byte a))) (_double_byte a).

Definition rotword (a : Z) : Z := u32 (Z.lor (Z.shiftr a 24) (Z.shiftl a 8)).
Definition subbyte (a o : Z) : Z := Z.shiftl (look sbox (Z.land (Z.shiftr a o) 255)) o.
Definition subword (a : Z) : Z := Z.lor (Z.lor (Z.lor (subbyte a 24) (subbyte a 16)) (subbyte a 8)) (subbyte a 0).

(** ** Key schedule *)

Definition rconst : list Z :=
  [0; 16777216; 33554432; 67108864; 134217728; 268435456; 536870912; 1073741824; 2147483648; 452984832; 905969664].

Definition key_word (k : list Z) (i : nat) : Z :=
  let at_ n := nth n k 0 in
  u32 (Z.lor (Z.lor (Z.lor (Z.shiftl (at_ (Nb * i)%nat) 24) (Z.shiftl (at_ (Nb * i + 1)%nat) 16))
                    (Z.shiftl (at_ (Nb * i + 2)%nat) 8)) (at_ (Nb * i + 3)%nat)).

(** The body of the second loop; [ws] is the initialised prefix of [s->words]. *)
Definition expand_word (ws : list Z) (i : nat) : list Z :=
  let t := nth (i - 1) ws 0 in
  let t := if (i mod Nk =? 0)%nat then Z.lxor (subword (rotword t)) (nth (i / Nk) rconst 0) else t in
  ws ++ [Z.lxor (nth (i - Nk) ws 0) t].

Definition key_schedule (k : list Z) : list Z :=
  fold_left expand_word (seq Nk (Nb * (Nr + 1) - Nk)) (map (key_word k) (seq 0 Nk)).

(** The schedule is the out parameter [s]: [Some] what it held before the call. *)
Definition tc_aes128_set_encrypt_key (s k : option (list Z)) : Z * option (list Z) :=
  match s, k with
  | None, _ => (TC_CRYPTO_FAIL, s)
  | _, None => (TC_CRYPTO_FAIL, s)
  | Some _, Some key => (TC_CRYPTO_SUCCESS, Some (key_schedule key))
  end.

Definition tc_aes128_set_decrypt_key (s k : option (list Z)) : Z * option (list Z) := tc_aes128_set_encrypt_key s k.

(** ** Rounds *)

Definition word_bytes (w : Z) : list Z := [u8 (Z.shiftr w 24); u8 (Z.shiftr w 16); u8 (Z.shiftr w 8); u8 w].

(** [add_round_key(s, words + Nb * i)]. *)
Definition add_round_key (s : list Z) (words : list Z) (i : nat) : list Z :=
  zip_with Z.lxor s (concat (map word_bytes (take Nb (drop (Nb * i) words)))).

Definition sub_bytes (s : list Z) : list Z := map (look sbox) s.
Definition inv_sub_bytes (s : list Z) : list Z := map (look inv_sbox) s.

Definition permute (p : list nat) (s : list Z) : list Z := map (λ i, nth i s 0) p.
Definition shift_rows : list Z → list Z := permute [0; 5; 10; 15; 4; 9; 14; 3; 8; 13; 2; 7; 12; 1; 6; 11]%nat.
Definition inv_shift_rows : list Z → list Z := permute [0; 13; 10; 7; 4; 1; 14; 11; 8; 5; 2; 15; 12; 9; 6; 3]%nat.

(** Both [mult_row_column] functions on one column. *)
Definition mult_row_column (c : list Z) : list Z :=
  let at_ n := nth n c 0 in
  [ Z.lxor (Z.lxor (Z.lxor (_double_byte (at_ 0%nat)) (triple (at_ 1%nat))) (at_ 2%nat)) (at_ 3%nat);
    Z.lxor (Z.lxor (Z.lxor (at_ 0%nat) (_double_byte (at_ 1%nat))) (triple (at_ 2%nat))) (at_ 3%nat);
    Z.lxor (Z.lxor (Z.lxor (at_ 0%nat) (at_ 1%nat)) (_double_byte (at_ 2%nat))) (triple (at_ 3%nat));
    Z.lxor (Z.lxor (Z.lxor (triple (at_ 0%nat)) (at_ 1%nat)) (at_ 2%nat)) (_double_byte (at_ 3%nat)) ].

Definition inv_mult_row_column (c : list Z) : list Z :=
  let at_ n := nth n c 0 in
  [ Z.lxor (Z.lxor (Z.lxor (multe (at_ 0%nat)) (multb (at_ 1%nat))) (multd (at_ 2%nat))) (mult9 (at_ 3%nat));
    Z.lxor (Z.lxor (Z.lxor (mult9 (at_ 0%nat)) (multe (at_ 1%nat))) (multb (at_ 2%nat))) (multd (at_ 3%nat));
    Z.lxor (Z.lxor (Z.lxor (multd (at_ 0%nat)) (mult9 (at_ 1%nat))) (multe (at_ 2%nat))) (multb (at_ 3%nat));
    Z.lxor (Z.lxor (Z.lxor (multb (at_ 0%nat)) (multd (at_ 1%nat))) (mult9 (at_ 2%nat))) (multe (at_ 3%nat)) ].

(** A column function on the four columns of the state. *)
Definition on_columns (f : list Z → list Z) (s : list Z) : list Z :=
  f (take Nb s) ++ f (take Nb (drop Nb s)) ++ f (take Nb (drop (2 * Nb) s)) ++ f (take Nb (drop (3 * Nb) s)).
Definition mix_columns : list Z → list Z := on_columns mult_row_column.
Definition inv_mix_columns : list Z → list Z := on_columns inv_mult_row_column.

(** ** The cipher *)

Definition enc_round (words st : list Z) (i : nat) : list Z :=
  add_round_key (mix_columns (shift_rows (sub_bytes st))) words (i + 1).

Definition encrypt_block (words inb : list Z) : list Z :=
  let st := fold_left (enc_round words) (seq 0 (Nr - 1)) (add_round_key inb words 0) in
  add_round_key (shift_rows (sub_bytes st)) words Nr.

Definition dec_round (words st : list Z) (i : nat) : list Z :=
  inv_mix_columns (add_round_key (inv_sub_bytes (inv_shift_rows st)) words i).

Definition decrypt_block (words inb : list Z) : list Z :=
  let st := fold_left (dec_round words) (rev (seq 1 (Nr - 1))) (add_round_key inb words Nr) in
  add_round_key (inv_sub_bytes (inv_shift_rows st)) words 0.

(** [out] is the out parameter: what the buffer holds before and after the call. *)
Definition tc_aes_encrypt (out inb s : option (list Z)) : Z * option (list Z) :=
  match out, inb, s with
  | None, _, _ => (TC_CRYPTO_FAIL, out)
  | _, None, _ => (TC_CRYPTO_FAIL, out)
  | _, _, None => (TC_CRYPTO_FAIL, out)
  | Some _, Some b, Some words => (TC_CRYPTO_SUCCESS, Some (encrypt_block words b))
  end.

Definition tc_aes_decrypt (out inb s : option (list Z)) : Z * option (list Z) :=
  match out, inb, s with
  | None, _, _ => (TC_CRYPTO_FAIL, out)
  | _, None, _ => (TC_CRYPTO_FAIL, out)
  | _, _, None => (TC_CRYPTO_FAIL, out)
  | Some _, Some b, Some words => (TC_CRYPTO_SUCCESS, Some (decrypt_block words b))
  end.

Definition EINVAL : Z := 22.

(** The schedule is a local variable of [bt_encrypt_be], uninitialised: [sched0]. *)
Definition bt_encrypt_be (sched0 key plaintext enc_data : list Z) : Z * list Z :=
  match tc_aes128_set_encrypt_key (Some sched0) (Some key) with
  | (r, s) => if r =? TC_CRYPTO_FAIL then (- EINVAL, enc_data) else
    match tc_aes_encrypt (Some enc_data) (Some plaintext) s with
    | (r, Some o) => if r =? TC_CRYPTO_FAIL then (- EINVAL, o) else (0, o)
    | (_, None) => (- EINVAL, enc_data)
    end
  end.

Definition bt_decrypt_be (sched0 key enc_data dec_data : list Z) : Z * list Z :=
  match tc_aes128_set_decrypt_key (Some sched0) (Some key) with
  | (r, s) => if r =? TC_CRYPTO_FAIL then (- EINVAL, dec_data) else
    match tc_aes_decrypt (Some dec_data) (Some enc_data) s with
    | (r, Some o) => if r =? TC_CRYPTO_FAIL then (- EINVAL, o) else (0, o)
    | (_, None) => (- EINVAL, dec_data)
    end
  end.

Definition bt_mesh_aes_encrypt := bt_encrypt_be.
Definition bt_mesh_aes_decrypt := bt_decrypt_be.

(** The FIPS 197 example (appendix B and C.1), a check of the tables and of the
    byte order. *)
Example fips197_b :
  encrypt_block (key_schedule [43; 126; 21; 22; 40; 174; 210; 166; 171; 247; 21; 136; 9; 207; 79; 60])
    [50; 67; 246; 168; 136; 90; 48; 141; 49; 49; 152; 162; 224; 55; 7; 52]
  = [57; 37; 132; 29; 2; 220; 9; 251; 220; 17; 133; 151; 25; 106; 11; 50].
Proof. vm_compute. reflexivity. Qed.
Example fips197_c1 :
  let key := [0; 1; 2; 3; 4; 5; 6; 7; 8; 9; 10; 11; 12; 13; 14; 15] in
  let plain := [0; 17; 34; 51; 68; 85; 102; 119; 136; 153; 170; 187; 204; 221; 238; 255] in
  let cipher := [105; 196; 224; 216; 106; 123; 4; 48; 216; 205; 183; 128; 112; 180; 197; 90] in
  encrypt_block (key_schedule key) plain = cipher /\ decrypt_block (key_schedule key) cipher = plain.
Proof. vm_compute. split; reflexivity. Qed.

(** ** Functions on bytes are decided by evaluation *)

Definition bytes256 : list Z := map Z.of_nat (seq 0 256).

Lemma in_bytes256 x : is_u8 x → In x bytes256.
Proof.
  intros ?. apply in_map_iff. exists (Z.to_nat x). split; [lia | apply in_seq; lia].
Qed.

Lemma byte_forall (P : Z → bool) : forallb P bytes256 = true → forall x, is_u8 x → P x = true.
Proof. intros H x Hx. by apply (proj1 (List.forallb_forall P bytes256) H), in_bytes256. Qed.

(** An identity between two functions of a byte. *)
Lemma byte_ext (f g : Z → Z) : forallb (λ x, f x =? g x) bytes256 = true → forall x, is_u8 x → f x = g x.
Proof. intros H x Hx. apply Z.eqb_eq. exact (byte_forall _ H x Hx). Qed.

Lemma byte_ext2 (f g : Z → Z → Z) : forallb (λ x, forallb (λ y, f x y =? g x y) bytes256) bytes256 = true →
  forall x y, is_u8 x → is_u8 y → f x y = g x y.
Proof.
  intros H x y Hx Hy. apply Z.eqb_eq.
  exact (byte_forall (λ y, f x y =? g x y) (byte_forall _ H x Hx) y Hy).
Qed.

Lemma lxor_byte x y : is_u8 x → is_u8 y → is_u8 (Z.lxor x y).
Proof.
  intros Hx Hy.
  assert (H : (Z.lxor x y) = u8 (Z.lxor x y))
    by (apply (byte_ext2 (λ x y, Z.lxor x y) (λ x y, u8 (Z.lxor x y))); [by vm_compute | done..]).
  rewrite H. apply u8_range.
Qed.

Lemma lxor_cancel x y : Z.lxor (Z.lxor x y) y = x.
Proof. by rewrite Z.lxor_assoc, Z.lxor_nilpotent, Z.lxor_0_r. Qed.

(** ** Blocks *)

Definition block (s : list Z) : Prop := length s = 16%nat /\ Forall (λ b, is_u8 b) s.

(** A block is sixteen bytes, by name. *)
Ltac block_cases s :=
  destruct s as [|? [|? [|? [|? [|? [|? [|? [|? [|? [|? [|? [|? [|? [|? [|? [|? [|]]]]]]]]]]]]]]]]]; try discriminate.

Ltac bytes := repeat match goal with H : Forall _ (_ :: _) |- _ => apply Forall_cons_1 in H as [? ?] end.

(** All bytes of an explicit list are in range. *)
Ltac all_bytes := repeat (apply Forall_cons_2; [solve [assumption | auto with genie] |]); apply Forall_nil_2.

Lemma double_byte_byte x : is_u8 (_double_byte x).
Proof. apply u8_range. Qed.
#[local] Hint Resolve lxor_byte double_byte_byte : genie.

Lemma mult_byte x : is_u8 x → is_u8 (triple x) /\ is_u8 (mult9 x) /\ is_u8 (multb x) /\ is_u8 (multd x) /\ is_u8 (multe x).
Proof. intros ?. unfold triple, mult9, multb, multd, multe, mult8. auto 8 with genie. Qed.

(** *** Substitution *)

Lemma sbox_inv x : is_u8 x → look inv_sbox (look sbox x) = x.
Proof. apply (byte_ext (λ x, look inv_sbox (look sbox x)) (λ x, x)). vm_compute. reflexivity. Qed.

Lemma sbox_byte x : is_u8 x → is_u8 (look sbox x).
Proof.
  intros Hx. assert (H : ((0 <=? look sbox x) && (look sbox x <? 256)) = true)
    by (apply (byte_forall (λ x, (0 <=? look sbox x) && (look sbox x <? 256))); [by vm_compute | done]).
  apply andb_true_iff in H as [?%Z.leb_le ?%Z.ltb_lt]. lia.
Qed.

Lemma sub_bytes_block s : block s → block (sub_bytes s).
Proof.
  intros [Hl Hb]. split; [by unfold sub_bytes; rewrite length_map |].
  apply Forall_map, (List.Forall_impl _ sbox_byte Hb).
Qed.

Lemma inv_sub_bytes_sub_bytes s : block s → inv_sub_bytes (sub_bytes s) = s.
Proof.
  intros [_ Hb]. unfold inv_sub_bytes, sub_bytes. rewrite map_map.
  induction Hb as [|x s Hx _ IH]; [done|]. cbn [map]. by rewrite IH, sbox_inv.
Qed.

(** *** Row shifts *)

Lemma shift_rows_block s : block s → block (shift_rows s).
Proof. intros [Hl Hb]. block_cases s. split; [done|]. bytes. unfold shift_rows, permute. cbn [map nth]. all_bytes. Qed.

Lemma inv_shift_rows_shift_rows s : block s → inv_shift_rows (shift_rows s) = s.
Proof. intros [Hl _]. block_cases s. done. Qed.

(** *** Round keys *)

Lemma word_bytes_byte ws : Forall (λ b, is_u8 b) (concat (map word_bytes ws)).
Proof.
  induction ws as [|w ws IH]; [constructor|]. cbn [map concat]. apply Forall_app_2; [|done].
  unfold word_bytes. all_bytes.
Qed.

Lemma word_bytes_length ws : length (concat (map word_bytes ws)) = (4 * length ws)%nat.
Proof. induction ws as [|w ws IH]; [done|]. cbn [map concat length]. rewrite length_app, IH. simpl. lia. Qed.

(** The schedule has a key for round [i]. *)
Definition has_key (words : list Z) (i : nat) : Prop := (Nb * i + Nb <= length words)%nat.

Lemma round_key_block words i : has_key words i → block (concat (map word_bytes (take Nb (drop (Nb * i) words)))).
Proof.
  intros Hk. split; [|apply word_bytes_byte].
  rewrite word_bytes_length, length_take, length_drop. unfold has_key, Nb in *. lia.
Qed.

Lemma zip_lxor_block s k : block s → block k → block (zip_with Z.lxor s k).
Proof.
  intros [Hl Hb] [Hl' Hb']. split; [rewrite length_zip_with; lia|].
  clear Hl Hl'. revert k Hb'. induction Hb as [|x s Hx _ IH]; intros [|y k] Hb'; cbn [zip_with]; try constructor.
  - apply Forall_cons_1 in Hb' as [? _]. by apply lxor_byte.
  - apply Forall_cons_1 in Hb' as [_ ?]. by apply IH.
Qed.

Lemma zip_lxor_cancel s k : length s = length k → zip_with Z.lxor (zip_with Z.lxor s k) k = s.
Proof.
  revert k. induction s as [|x s IH]; intros [|y k]; try discriminate; [done|].
  intros [= ?]. cbn [zip_with]. by rewrite lxor_cancel, IH.
Qed.

Lemma add_round_key_block s words i : block s → has_key words i → block (add_round_key s words i).
Proof. intros. by apply zip_lxor_block, round_key_block. Qed.

Lemma add_round_key_twice s words i : block s → has_key words i →
  add_round_key (add_round_key s words i) words i = s.
Proof. intros [Hl _] Hk. apply zip_lxor_cancel. by rewrite (proj1 (round_key_block words i Hk)). Qed.

(** *** Column mixing *)

Lemma double_byte_lxor x y : is_u8 x → is_u8 y → _double_byte (Z.lxor x y) = Z.lxor (_double_byte x) (_double_byte y).
Proof. apply (byte_ext2 (λ x y, _double_byte (Z.lxor x y)) (λ x y, Z.lxor (_double_byte x) (_double_byte y))). by vm_compute. Qed.

(** [f] is additive on bytes. *)
Definition additive (f : Z → Z) : Prop := forall x y, is_u8 x → is_u8 y → f (Z.lxor x y) = Z.lxor (f x) (f y).

Ltac xor_bits := apply Z.bits_inj'; intros ? ?; rewrite ?Z.lxor_spec; btauto.

Lemma mult_additive : additive mult9 /\ additive multb /\ additive multd /\ additive multe.
Proof.
  repeat split; intros x y Hx Hy; unfold mult9, multb, multd, multe, mult8;
    rewrite !double_byte_lxor by auto with genie; xor_bits.
Qed.

(** One output of the inverse column applied to a column: the coefficients of
    each input byte gather. *)
Lemma gather f0 f1 f2 f3 a0 a1 a2 a3 b0 b1 b2 b3 c0 c1 c2 c3 d0 d1 d2 d3 :
  additive f0 → additive f1 → additive f2 → additive f3 →
  Forall (λ b, is_u8 b) [a0; a1; a2; a3; b0; b1; b2; b3; c0; c1; c2; c3; d0; d1; d2; d3] →
  Z.lxor (Z.lxor (Z.lxor (f0 (Z.lxor (Z.lxor (Z.lxor a0 b0) c0) d0)) (f1 (Z.lxor (Z.lxor (Z.lxor a1 b1) c1) d1)))
                 (f2 (Z.lxor (Z.lxor (Z.lxor a2 b2) c2) d2))) (f3 (Z.lxor (Z.lxor (Z.lxor a3 b3) c3) d3)) =
  Z.lxor (Z.lxor (Z.lxor (Z.lxor (Z.lxor (Z.lxor (f0 a0) (f1 a1)) (f2 a2)) (f3 a3))
                         (Z.lxor (Z.lxor (Z.lxor (f0 b0) (f1 b1)) (f2 b2)) (f3 b3)))
                 (Z.lxor (Z.lxor (Z.lxor (f0 c0) (f1 c1)) (f2 c2)) (f3 c3)))
         (Z.lxor (Z.lxor (Z.lxor (f0 d0) (f1 d1)) (f2 d2)) (f3 d3)).
Proof.
  intros A0 A1 A2 A3 Hb. bytes.
  rewrite !A0, !A1, !A2, !A3 by auto with genie. xor_bits.
Qed.

(** The coefficients: the identity on the diagonal, zero elsewhere. *)
Lemma coefficients x : is_u8 x →
  let row f0 f1 f2 f3 := Z.lxor (Z.lxor (Z.lxor f0 f1) f2) f3 in
  let d := _double_byte x in let t := triple x in
  (row (multe d) (multb x) (multd x) (mult9 t) = x /\ row (multe t) (multb d) (multd x) (mult9 x) = 0 /\
   row (multe x) (multb t) (multd d) (mult9 x) = 0 /\ row (multe x) (multb x) (multd t) (mult9 d) = 0) /\
  (row (mult9 d) (multe x) (multb x) (multd t) = 0 /\ row (mult9 t) (multe d) (multb x) (multd x) = x /\
   row (mult9 x) (multe t) (multb d) (multd x) = 0 /\ row (mult9 x) (multe x) (multb t) (multd d) = 0) /\
  (row (multd d) (mult9 x) (multe x) (multb t) = 0 /\ row (multd t) (mult9 d) (multe x) (multb x) = 0 /\
   row (multd x) (mult9 t) (multe d) (multb x) = x /\ row (multd x) (mult9 x) (multe t) (multb d) = 0) /\
  (row (multb d) (multd x) (mult9 x) (multe t) = 0 /\ row (multb t) (multd d) (mult9 x) (multe x) = 0 /\
   row (multb x) (multd t) (mult9 d) (multe x) = 0 /\ row (multb x) (multd x) (mult9 t) (multe d) = x).
Proof.
  intros Hx row d t. unfold row, d, t. clear row d t.
  repeat split; revert x Hx; match goal with |- forall x, _ → ?l = ?r =>
    apply (byte_ext (λ x, l) (λ x, r)); by vm_compute end.
Qed.

Lemma inv_mult_mult a b c d : is_u8 a → is_u8 b → is_u8 c → is_u8 d →
  inv_mult_row_column (mult_row_column [a; b; c; d]) = [a; b; c; d].
Proof.
  intros Ha Hb Hc Hd. destruct mult_additive as (A9 & Ab & Ad & Ae).
  destruct (mult_byte a Ha) as [Ta _], (mult_byte b Hb) as [Tb _], (mult_byte c Hc) as [Tc _], (mult_byte d Hd) as [Td _].
  unfold inv_mult_row_column, mult_row_column. cbn [nth].
  rewrite !gather by (done || all_bytes).
  destruct (coefficients a Ha) as ((-> & _) & (-> & _) & (-> & _) & (-> & _)).
  destruct (coefficients b Hb) as ((_ & -> & _) & (_ & -> & _) & (_ & -> & _) & (_ & -> & _)).
  destruct (coefficients c Hc) as ((_ & _ & -> & _) & (_ & _ & -> & _) & (_ & _ & -> & _) & (_ & _ & -> & _)).
  destruct (coefficients d Hd) as ((_ & _ & _ & ->) & (_ & _ & _ & ->) & (_ & _ & _ & ->) & (_ & _ & _ & ->)).
  by rewrite !Z.lxor_0_r, ?Z.lxor_0_l, ?Z.lxor_0_r.
Qed.

Lemma mult_row_column_bytes a b c d : is_u8 a → is_u8 b → is_u8 c → is_u8 d →
  Forall (λ x, is_u8 x) (mult_row_column [a; b; c; d]).
Proof.
  intros Ha Hb Hc Hd.
  destruct (mult_byte a Ha) as [Ta _], (mult_byte b Hb) as [Tb _], (mult_byte c Hc) as [Tc _], (mult_byte d Hd) as [Td _].
  unfold mult_row_column. cbn [nth]. all_bytes.
Qed.

Lemma mix_columns_block s : block s → block (mix_columns s).
Proof.
  intros [Hl Hb]. block_cases s. bytes. split; [done|].
  unfold mix_columns, on_columns, Nb. cbn [take drop Nat.mul Nat.add].
  repeat (apply Forall_app_2 || (apply mult_row_column_bytes; done)).
Qed.

Lemma mult_row_column_four c : exists w x y z, mult_row_column c = [w; x; y; z].
Proof. do 4 eexists. reflexivity. Qed.

Lemma inv_mix_columns_mix_columns s : block s → inv_mix_columns (mix_columns s) = s.
Proof.
  intros [Hl Hb]. block_cases s. bytes.
  unfold inv_mix_columns, mix_columns, on_columns, Nb. cbn [take drop Nat.mul Nat.add].
  repeat match goal with |- context [mult_row_column [?a; ?b; ?c; ?d]] =>
    let E := fresh in let H := fresh in
    pose proof (inv_mult_mult a b c d ltac:(done) ltac:(done) ltac:(done) ltac:(done)) as H;
    destruct (mult_row_column_four [a; b; c; d]) as (? & ? & ? & ? & E); rewrite E in H; rewrite E; clear E end.
  cbn [take drop app].
  repeat match goal with H : inv_mult_row_column _ = _ |- _ => rewrite H; clear H end. done.
Qed.

(** ** Decryption inverts encryption *)

Lemma dec_round_enc_round words st i : block st → has_key words (S i) →
  dec_round words (shift_rows (sub_bytes (enc_round words st i))) (S i) = shift_rows (sub_bytes st).
Proof.
  intros Hs Hk. unfold dec_round, enc_round. rewrite Nat.add_1_r.
  assert (H1 : block (shift_rows (sub_bytes st))) by by apply shift_rows_block, sub_bytes_block.
  assert (H2 : block (mix_columns (shift_rows (sub_bytes st)))) by by apply mix_columns_block.
  assert (H3 : block (add_round_key (mix_columns (shift_rows (sub_bytes st))) words (S i))) by by apply add_round_key_block.
  rewrite inv_shift_rows_shift_rows by by apply sub_bytes_block.
  rewrite inv_sub_bytes_sub_bytes, add_round_key_twice by done. by apply inv_mix_columns_mix_columns.
Qed.

Lemma enc_round_block words st i : block st → has_key words (S i) → block (enc_round words st i).
Proof. intros. unfold enc_round. rewrite Nat.add_1_r. by apply add_round_key_block; [apply mix_columns_block, shift_rows_block, sub_bytes_block|]. Qed.

(** A loop up and the loop of the inverse rounds down, [h] being the part of the
    next round that the inverse round undoes first. *)
Lemma fold_inverse {A} (P : A → Prop) (f g : A → nat → A) (h : A → A) n x : P x →
  (forall i y, (i < n)%nat → P y → P (f y i) /\ g (h (f y i)) (S i) = h y) →
  P (fold_left f (seq 0 n) x) /\ fold_left g (rev (seq 1 n)) (h (fold_left f (seq 0 n) x)) = h x.
Proof.
  intros Hx. induction n as [|n IH]; intros H; [done|].
  destruct IH as [IHb IH]; [intros; apply H; [lia | done]|].
  rewrite !seq_S, !fold_left_app, rev_app_distr. cbn [fold_left rev app Nat.add].
  destruct (H n _ ltac:(lia) IHb) as [Hf Hg]. by rewrite Hg.
Qed.

Lemma rounds_inverse words n st : block st → (forall i, (i <= n)%nat → has_key words i) →
  block (fold_left (enc_round words) (seq 0 n) st) /\
  fold_left (dec_round words) (rev (seq 1 n)) (shift_rows (sub_bytes (fold_left (enc_round words) (seq 0 n) st)))
  = shift_rows (sub_bytes st).
Proof.
  intros Hs Hk. apply (fold_inverse block (enc_round words) (dec_round words) (λ s, shift_rows (sub_bytes s))); [exact Hs|].
  intros i y Hi Hy. split.
  - apply enc_round_block; [exact Hy | apply Hk; lia].
  - apply dec_round_enc_round; [exact Hy | apply Hk; lia].
Qed.

Lemma decrypt_encrypt words b : block b → length words = (Nb * (Nr + 1))%nat →
  decrypt_block words (encrypt_block words b) = b.
Proof.
  intros Hb Hw. assert (Hk : forall i, (i <= Nr)%nat → has_key words i)
    by (intros; unfold has_key, Nb, Nr in *; lia).
  unfold decrypt_block, encrypt_block. cbv zeta.
  assert (H0 : block (add_round_key b words 0)) by (apply add_round_key_block; [done | apply Hk; lia]).
  destruct (rounds_inverse words (Nr - 1) (add_round_key b words 0) H0) as [Hr Hi]; [intros; apply Hk; lia|].
  rewrite add_round_key_twice by (by apply shift_rows_block, sub_bytes_block || by apply Hk).
  rewrite Hi, inv_shift_rows_shift_rows by by apply sub_bytes_block.
  rewrite inv_sub_bytes_sub_bytes by done. apply add_round_key_twice; [done | apply Hk; lia].
Qed.

Lemma encrypt_block_block words b : block b → length words = (Nb * (Nr + 1))%nat → block (encrypt_block words b).
Proof.
  intros Hb Hw. assert (Hk : forall i, (i <= Nr)%nat → has_key words i)
    by (intros; unfold has_key, Nb, Nr in *; lia).
  unfold encrypt_block. cbv zeta.
  destruct (rounds_inverse words (Nr - 1) (add_round_key b words 0)) as [Hr _];
    [apply add_round_key_block; [done | apply Hk; lia] | intros; apply Hk; lia |].
  apply add_round_key_block; [by apply shift_rows_block, sub_bytes_block | by apply Hk].
Qed.

Lemma key_schedule_length k : length (key_schedule k) = (Nb * (Nr + 1))%nat.
Proof.
  unfold key_schedule.
  assert (H : forall l ws, length (fold_left expand_word l ws) = (length ws + length l)%nat).
  { induction l as [|i l IH]; intros ws; cbn [fold_left length]; [lia|].
    rewrite IH. unfold expand_word. rewrite length_app. simpl. lia. }
  rewrite H, length_map, !length_seq. reflexivity.
Qed.

Lemma bt_mesh_aes_encrypt_eq sched0 key b o : bt_mesh_aes_encrypt sched0 key b o = (0, encrypt_block (key_schedule key) b).
Proof. reflexivity. Qed.
Lemma bt_mesh_aes_decrypt_eq sched0 key b o : bt_mesh_aes_decrypt sched0 key b o = (0, decrypt_block (key_schedule key) b).
Proof. reflexivity. Qed.

(** [C37] The AES code decrypts what it encrypted: for every key and every block of
    sixteen bytes both calls succeed, the ciphertext is again sixteen bytes, and
    decrypting it with the same key gives the block back, whatever the stack
    variables and the output buffers held. *)
Theorem aes_roundtrip key b sched0 sched1 o o' : length b = 16%nat → Forall (λ x, is_u8 x) b →
  exists c, bt_mesh_aes_encrypt sched0 key b o = (0, c) /\ length c = 16%nat /\ Forall (λ x, is_u8 x) c /\
    bt_mesh_aes_decrypt sched1 key c o' = (0, b).
Proof.
  intros Hl Hb. exists (encrypt_block (key_schedule key) b).
  destruct (encrypt_block_block (key_schedule key) b (conj Hl Hb) (key_schedule_length key)) as [Hc Hc'].
  rewrite bt_mesh_aes_encrypt_eq, bt_mesh_aes_decrypt_eq, decrypt_encrypt by (done || apply key_schedule_length). done.
Qed.

Lemma aes_roundtrip_witness :
  exists c, bt_mesh_aes_encrypt [] (repeat 7 16) (map Z.of_nat (seq 0 16)) [] = (0, c) /\ length c = 16%nat /\
    Forall (λ x, is_u8 x) c /\ bt_mesh_aes_decrypt [1] (repeat 7 16) c [2] = (0, map Z.of_nat (seq 0 16)).
Proof. apply aes_roundtrip; [reflexivity | cbn; repeat constructor; lia]. Defined.
