(* ===== verification/Storage.v ===== *)
(** * Storage: the persistent store of the service

    genie_storage.c, genie_triple.c, [genie_crc16_compute] of genie_crypto.c and
    [genie_provision_get_saved_data] of genie_provision.c, over the interface
    [Flash] of what they call: the key-value store of the kernel (kvmgr.c), the
    protected flash area of the platform and the heap.  [aos_kv_get] itself is
    modelled, since the code depends on what it leaves in the buffer.  Structures
    are stored as their memory image (32-bit little endian, natural alignment,
    padding bytes zero as the [memset] before leaves them). *)
From Stdlib Require Import ZArith Lia List Bool.
From stdpp Require Import base list numbers option strings pretty gmap.
From S2P Require Import Prelude Env Aes.
Local Open Scope Z_scope.

(** ** Constants *)

Definition GENIE_KV_SEQ_KEY : string := "seq".
Definition GENIE_SEQ_MAGIC_NUMBER : Z := 168. (* 0xA8 *)
Definition GENIE_SEQ_SAVE_INTERVAL : Z := 100.

Definition GFI_MESH_PARA : Z := 1.
Definition GFI_MESH_TRITUPLE : Z := 2.
Definition GFI_MESH_SADDR : Z := 3.
Definition GFI_MESH_SUB : Z := 4.
Definition GFI_MESH_RESET_CNT : Z := 5.
Definition GFI_MESH_POWERUP : Z := 6.
Definition GFI_MESH_HB : Z := 7.
Definition GFI_MESH_DEVKEY : Z := 8.
Definition GFI_MESH_NETKEY : Z := 9.
Definition GFI_MESH_APPKEY : Z := 10.
Definition GFI_MESH_APPKEY1 : Z := 14.

Definition GENIE_STORAGE_SUCCESS : Z := 0.
Definition GENIE_STORAGE_EARSE_FAIL : Z := 3.
Definition GENIE_STORAGE_DATA_INVALID : Z := 4.
Definition GENIE_STORAGE_READ_FAIL : Z := 6.
Definition GENIE_STORAGE_WRITE_FAIL : Z := 7.
Definition GENIE_STORAGE_DELETE_FAIL : Z := 8.
Definition GENIE_STORAGE_INVALID_INDEX : Z := 9.

Definition RES_OK : Z := 0.
Definition RES_NO_SPACE : Z := -2.
Definition RES_ITEM_NOT_FOUND : Z := -5.

Definition CONFIG_BT_MESH_MODEL_GROUP_COUNT : nat := 8.

(** ** The interface of the flash and of the heap *)

(** What the code below calls.  A read gives a result code and the bytes it left
    in the buffer; [hal_malloc n] the uninitialised contents of the new buffer. *)
Class Flash (F : Type) := {
  kv_item_get : string → F → option (list Z);
  aos_kv_set : string → list Z → F → Z * F;
  aos_kv_del : string → F → Z * F;
  aos_kv_del_all : F → Z * F;
  hal_flash_read_triples : Z → F → Z * list Z;
  hal_flash_write_triples : list Z → F → Z * F;
  hal_flash_read_group_addr : Z → F → Z * list Z;
  hal_flash_write_group_addr : list Z → F → Z * F;
  hal_malloc : Z → F → option (list Z);
  save_switches_param : F → F }.

(** What it promises: a successful write is read back, a write under one key
    leaves the other keys alone, and the areas do not overlap. *)
Class FlashLaws (F : Type) `{Flash F} := {
  kv_set_get k v f : fst (aos_kv_set k v f) = 0 → kv_item_get k (snd (aos_kv_set k v f)) = Some v;
  kv_set_get_ne k k' v f : k ≠ k' → kv_item_get k' (snd (aos_kv_set k v f)) = kv_item_get k' f;
  kv_del_all_get k f : fst (aos_kv_del_all f) = 0 → kv_item_get k (snd (aos_kv_del_all f)) = None;
  triples_write_read bs f : fst (hal_flash_write_triples bs f) = 0 →
    hal_flash_read_triples (Z.of_nat (length bs)) (snd (hal_flash_write_triples bs f)) = (0, bs);
  group_addr_write_read bs f : fst (hal_flash_write_group_addr bs f) = 0 →
    hal_flash_read_group_addr (Z.of_nat (length bs)) (snd (hal_flash_write_group_addr bs f)) = (0, bs);
  triples_write_kv k bs f : kv_item_get k (snd (hal_flash_write_triples bs f)) = kv_item_get k f;
  group_addr_write_kv k bs f : kv_item_get k (snd (hal_flash_write_group_addr bs f)) = kv_item_get k f;
  malloc_length n f b : hal_malloc n f = Some b → Z.of_nat (length b) = n }.

Section Storage.
Context {F : Type} `{Flash F}.

(** The state of genie_storage.c: the flash, [g_enc_key], [flash_already_inited]. *)
Record storage := mkStorage { flash : F; g_enc_key : list Z; flash_already_inited : Z }.
Definition with_flash (f : F) (s : storage) : storage := mkStorage f (g_enc_key s) (flash_already_inited s).

(** [*p = new] for the first bytes of a buffer. *)
Definition memcpy (dst src : list Z) : list Z := src ++ drop (length src) dst.

(** ** genie_storage.c *)

(** The blocks [i < n] of the buffer replaced by their image. *)
Fixpoint crypt_blocks (f : list Z → list Z) (n : nat) (buf : list Z) : list Z :=
  match n with O => buf | S n => f (take 16 buf) ++ crypt_blocks f n (drop 16 buf) end.

(** Neither routine looks at the result code or needs the old contents of its
    temporary buffers. *)
Definition _genie_storage_encrypt (key : list Z) (p_buff : list Z) (size : Z) : list Z :=
  crypt_blocks (λ data_temp, snd (bt_mesh_aes_encrypt [] key data_temp [])) (Z.to_nat (Z.shiftr size 4)) p_buff.

Definition _genie_storage_decrypt (key : list Z) (p_buff : list Z) (size : Z) : list Z :=
  crypt_blocks (λ data_temp, snd (bt_mesh_aes_decrypt [] key data_temp [])) (Z.to_nat (Z.shiftr size 4)) p_buff.

Definition _ginie_flash_get_enc_key (project_key : list Z) : list Z :=
  snd (bt_mesh_aes_encrypt [] project_key project_key []).

(** [prj_key] is the key in PROJECT_SECRET_KEY, if the build defines it. *)
Definition genie_storage_init (prj_key : option (list Z)) (s : storage) : Z * storage :=
  if flash_already_inited s =? 1 then (GENIE_STORAGE_SUCCESS, s) else
  (GENIE_STORAGE_SUCCESS,
   mkStorage (flash s) (match prj_key with Some k => _ginie_flash_get_enc_key k | None => g_enc_key s end) 1).

(** [snprintf(key, sizeof(key), "%s_%d", "key", key_index)]; the index is a
    [uint16_t], so the text fits the ten bytes. *)
Definition key_name (key_index : Z) : string := "key_" +:+ pretty (Z.to_N key_index).

(** kvmgr.c: a value longer than the buffer is not copied, a shorter one
    overwrites the front of the buffer. *)
Definition aos_kv_get (key : string) (buffer : list Z) (f : F) : Z * list Z :=
  match kv_item_get key f with
  | None => (RES_ITEM_NOT_FOUND, buffer)
  | Some v => if (length buffer <? length v)%nat then (RES_NO_SPACE, buffer) else (RES_OK, memcpy buffer v)
  end.

Definition genie_kv_read (key_index : Z) (value : list Z) (s : storage) : Z * list Z :=
  aos_kv_get (key_name key_index) value (flash s).

Definition _genie_storage_read (key_index : Z) (p_buff : list Z) (s : storage) : Z * list Z :=
  let '(retval, buf) := genie_kv_read key_index p_buff s in
  (if truthy retval then GENIE_STORAGE_READ_FAIL else GENIE_STORAGE_SUCCESS, buf).

Definition genie_kv_write (key_index : Z) (value : list Z) (s : storage) : Z * storage :=
  let '(r, f) := aos_kv_set (key_name key_index) value (flash s) in (r, with_flash f s).

(** A null buffer is [None]; the bytes are the [size] bytes of the buffer. *)
Definition _genie_storage_write (key_index : Z) (p_buff : option (list Z)) (s : storage) : Z * storage :=
  match p_buff with
  | None => (GENIE_STORAGE_DATA_INVALID, s)
  | Some [] => (GENIE_STORAGE_DATA_INVALID, s)
  | Some b => let '(retval, s) := genie_kv_write key_index b s in
      (if truthy retval then GENIE_STORAGE_WRITE_FAIL else GENIE_STORAGE_SUCCESS, s)
  end.

Definition _genie_storage_get_reliable_size (data_size : Z) : Z :=
  if Z.land data_size 15 =? 0 then data_size else u16 (Z.shiftl (Z.shiftr data_size 4 + 1) 4).

(** Reads [data_size] bytes into [p_data]; gives the status and the new contents. *)
Definition genie_storage_read_reliable (index : Z) (p_data : option (list Z)) (data_size : Z) (s : storage) : Z * option (list Z) :=
  let buff_size := _genie_storage_get_reliable_size data_size in
  match p_data with
  | None => (GENIE_STORAGE_DATA_INVALID, p_data)
  | Some dst =>
    match hal_malloc buff_size (flash s) with
    | None => (GENIE_STORAGE_DATA_INVALID, p_data)
    | Some p_buff =>
      let '(ret, buf) :=
        if index =? GFI_MESH_TRITUPLE then
          let '(r, b) := hal_flash_read_triples buff_size (flash s) in
          (if truthy r then GENIE_STORAGE_READ_FAIL else GENIE_STORAGE_SUCCESS, memcpy p_buff b)
        else _genie_storage_read index p_buff s in
      if ret =? 0 then
        let buf := _genie_storage_decrypt (g_enc_key s) buf buff_size in
        (ret, Some (memcpy dst (take (Z.to_nat data_size) buf)))
      else (ret, p_data)
    end
  end.

Definition genie_storage_write_reliable (index : Z) (p_data : option (list Z)) (data_size : Z) (s : storage) : Z * storage :=
  let buff_size := _genie_storage_get_reliable_size data_size in
  match p_data with
  | None => (GENIE_STORAGE_DATA_INVALID, s)
  | Some src =>
    match hal_malloc buff_size (flash s) with
    | None => (GENIE_STORAGE_DATA_INVALID, s)
    | Some _ =>
      let p_buff := memcpy (repeat 0 (Z.to_nat buff_size)) (take (Z.to_nat data_size) src) in
      let p_buff := _genie_storage_encrypt (g_enc_key s) p_buff buff_size in
      if index =? GFI_MESH_TRITUPLE then
        let '(r, f) := hal_flash_write_triples p_buff (flash s) in
        (if truthy r then GENIE_STORAGE_WRITE_FAIL else GENIE_STORAGE_SUCCESS, with_flash f s)
      else _genie_storage_write index (Some p_buff) s
    end
  end.

Definition genie_storage_delete_reliable (index : Z) (s : storage) : Z * storage :=
  let '(r, f) := aos_kv_del (key_name index) (flash s) in (r, with_flash f s).

Definition genie_storage_read_userdata (index : Z) (p_buff : list Z) (s : storage) : Z * list Z := _genie_storage_read index p_buff s.
Definition genie_storage_write_userdata (index : Z) (p_buff : option (list Z)) (s : storage) : Z * storage := _genie_storage_write index p_buff s.
Definition genie_storage_delete_userdata (index : Z) (s : storage) : Z * storage :=
  let '(r, f) := aos_kv_del (key_name index) (flash s) in (r, with_flash f s).

(** *** Sequence number *)

Definition genie_storage_write_seq (seq : Z) (force_write : bool) (s : storage) : Z * storage :=
  if negb force_write && (3 <? seq) && negb (seq mod GENIE_SEQ_SAVE_INTERVAL =? 0) then (GENIE_STORAGE_SUCCESS, s) else
  let seq_write := Z.lor (Z.land seq 16777215) (Z.shiftl GENIE_SEQ_MAGIC_NUMBER 24) in
  let '(ret, f) := aos_kv_set GENIE_KV_SEQ_KEY (le32 seq_write) (flash s) in
  (if truthy ret then GENIE_STORAGE_WRITE_FAIL else GENIE_STORAGE_SUCCESS, with_flash f s).

(** A [uint32_t] from its four bytes in memory. *)
Definition of_le32 (b : list Z) : Z := get_le32 (nth 0 b 0) (nth 1 b 0) (nth 2 b 0) (nth 3 b 0).

(** [seq_read] is the uninitialised local variable of the function, as bytes. *)
Definition genie_storage_read_seq (seq_read : list Z) (p_seq : Z) (s : storage) : Z * Z * storage :=
  let '(ret, b) := aos_kv_get GENIE_KV_SEQ_KEY seq_read (flash s) in
  let seq_read := of_le32 b in
  if negb (Z.shiftr seq_read 24 =? GENIE_SEQ_MAGIC_NUMBER) then (GENIE_STORAGE_DATA_INVALID, p_seq, s) else
  let p_seq := Z.land seq_read 16777215 in
  let p_seq := u32 (p_seq + GENIE_SEQ_SAVE_INTERVAL) in
  let '(_, s) := genie_storage_write_seq p_seq true s in
  (ret, p_seq, s).

Definition genie_storage_delete_seq (s : storage) : Z * storage :=
  let '(ret, f) := aos_kv_del GENIE_KV_SEQ_KEY (flash s) in
  (if truthy ret then GENIE_STORAGE_DELETE_FAIL else GENIE_STORAGE_SUCCESS, with_flash f s).

(** *** Checksum *)

(** One byte of [genie_crc16_compute]. *)
Definition crc16_step (crc b : Z) : Z :=
  let crc := u16 (Z.lor (u8 (Z.shiftr crc 8)) (Z.shiftl crc 8)) in
  let crc := u16 (Z.lxor crc b) in
  let crc := u16 (Z.lxor crc (Z.shiftr (u8 (Z.land crc 255)) 4)) in
  let crc := u16 (Z.lxor crc (Z.shiftl (Z.shiftl crc 8) 4)) in
  u16 (Z.lxor crc (Z.shiftl (Z.shiftl (Z.land crc 255) 4) 1)).

Definition genie_crc16_compute (p_data : list Z) (p_crc : option Z) : Z :=
  fold_left crc16_step p_data (match p_crc with None => 65535 | Some c => c end).

Definition crc_magic : Z := 42406. (* 0xA5A6 *)

(** *** Subscription list *)

Definition SUB_BYTES : nat := (CONFIG_BT_MESH_MODEL_GROUP_COUNT * 2)%nat.

(** A [uint16_t] array in memory, and back. *)
Definition u16_image (l : list Z) : list Z := concat (map le16 l).
Fixpoint u16_array (b : list Z) : list Z :=
  match b with b0 :: b1 :: b => get_le16 b0 b1 :: u16_array b | _ => [] end.

(** The [data] that [genie_storage_write_sub] builds. *)
Definition sub_image (p_sub : list Z) : list Z :=
  let data := take SUB_BYTES (u16_image p_sub) in
  data ++ le16 (genie_crc16_compute data (Some crc_magic)).

Definition genie_storage_write_sub (p_sub : list Z) (s : storage) : Z * storage :=
  let '(r, f) := hal_flash_write_group_addr (sub_image p_sub) (flash s) in (r, with_flash f s).

Definition genie_storage_read_sub (p_sub : list Z) (s : storage) : Z * list Z :=
  let '(r, b) := hal_flash_read_group_addr (Z.of_nat (SUB_BYTES + 2)) (flash s) in
  if truthy r then (GENIE_STORAGE_READ_FAIL, p_sub) else
  let group_addr_crc := genie_crc16_compute (take SUB_BYTES b) (Some crc_magic) in
  let group_addr_read_crc := get_le16 (nth SUB_BYTES b 0) (nth (SUB_BYTES + 1) b 0) in
  if negb (group_addr_read_crc =? group_addr_crc) then (GENIE_STORAGE_READ_FAIL, p_sub) else
  (GENIE_STORAGE_SUCCESS, u16_array (take SUB_BYTES b)).

(** *** Keys and addresses *)

Record mesh_netkey_para_t := mkNetkey { nk_net_index : Z; nk_flag : Z; nk_ivi : Z; nk_key : list Z }.
Record mesh_appkey_para_t := mkAppkey { ak_net_index : Z; ak_key_index : Z; ak_flag : Z; ak_key : list Z }.
Record mesh_hb_para_t := mkHb { hb_dst : Z; hb_count : Z; hb_period : Z; hb_ttl : Z; hb_feat : Z; hb_net_idx : Z }.

Definition netkey_size : Z := 24.
Definition appkey_size : Z := 22.
Definition hb_size : Z := 10.

Definition netkey_image (n : mesh_netkey_para_t) : list Z :=
  le16 (nk_net_index n) ++ [nk_flag n; 0] ++ le32 (nk_ivi n) ++ nk_key n.
Definition netkey_of (b : list Z) : mesh_netkey_para_t :=
  mkNetkey (get_le16 (nth 0 b 0) (nth 1 b 0)) (nth 2 b 0) (of_le32 (drop 4 b)) (take 16 (drop 8 b)).
Definition appkey_image (a : mesh_appkey_para_t) : list Z :=
  le16 (ak_net_index a) ++ le16 (ak_key_index a) ++ [ak_flag a] ++ ak_key a ++ [0].
Definition appkey_of (b : list Z) : mesh_appkey_para_t :=
  mkAppkey (get_le16 (nth 0 b 0) (nth 1 b 0)) (get_le16 (nth 2 b 0) (nth 3 b 0)) (nth 4 b 0) (take 16 (drop 5 b)).
Definition hb_image (h : mesh_hb_para_t) : list Z :=
  le16 (hb_dst h) ++ [hb_count h; hb_period h; hb_ttl h; 0] ++ le16 (hb_feat h) ++ le16 (hb_net_idx h).
Definition hb_of (b : list Z) : mesh_hb_para_t :=
  mkHb (get_le16 (nth 0 b 0) (nth 1 b 0)) (nth 2 b 0) (nth 3 b 0) (nth 4 b 0)
       (get_le16 (nth 6 b 0) (nth 7 b 0)) (get_le16 (nth 8 b 0) (nth 9 b 0)).

(** A structure read through its image. *)
Definition read_struct {A} (index size : Z) (image : A → list Z) (parse : list Z → A) (p : A) (s : storage) : Z * A :=
  match genie_storage_read_reliable index (Some (image p)) size s with
  | (r, Some b) => (r, parse b)
  | (r, None) => (r, p)
  end.

Definition genie_storage_write_devkey (p_devkey : list Z) (s : storage) : Z * storage :=
  genie_storage_write_reliable GFI_MESH_DEVKEY (Some p_devkey) 16 s.
Definition genie_storage_read_devkey (p_devkey : list Z) (s : storage) : Z * list Z :=
  read_struct GFI_MESH_DEVKEY 16 (λ k, k) (λ k, k) p_devkey s.
Definition genie_storage_write_netkey (p_netkey : mesh_netkey_para_t) (s : storage) : Z * storage :=
  genie_storage_write_reliable GFI_MESH_NETKEY (Some (netkey_image p_netkey)) netkey_size s.
Definition genie_storage_read_netkey (p_netkey : mesh_netkey_para_t) (s : storage) : Z * mesh_netkey_para_t :=
  read_struct GFI_MESH_NETKEY netkey_size netkey_image netkey_of p_netkey s.
Definition genie_storage_write_appkey (key_idx : Z) (p_appkey : mesh_appkey_para_t) (s : storage) : Z * storage :=
  if key_idx =? 0 then genie_storage_write_reliable GFI_MESH_APPKEY (Some (appkey_image p_appkey)) appkey_size s
  else if key_idx =? 1 then genie_storage_write_reliable GFI_MESH_APPKEY1 (Some (appkey_image p_appkey)) appkey_size s
  else (GENIE_STORAGE_INVALID_INDEX, s).
Definition genie_storage_read_appkey (key_idx : Z) (p_appkey : mesh_appkey_para_t) (s : storage) : Z * mesh_appkey_para_t :=
  if key_idx =? 0 then read_struct GFI_MESH_APPKEY appkey_size appkey_image appkey_of p_appkey s
  else if key_idx =? 1 then read_struct GFI_MESH_APPKEY1 appkey_size appkey_image appkey_of p_appkey s
  else (GENIE_STORAGE_INVALID_INDEX, p_appkey).
Definition genie_storage_write_addr (p_addr : Z) (s : storage) : Z * storage :=
  genie_storage_write_reliable GFI_MESH_SADDR (Some (le16 p_addr)) 2 s.
Definition genie_storage_read_addr (p_addr : Z) (s : storage) : Z * Z :=
  read_struct GFI_MESH_SADDR 2 le16 (λ b, get_le16 (nth 0 b 0) (nth 1 b 0)) p_addr s.
Definition genie_storage_write_hb (p_para : mesh_hb_para_t) (s : storage) : Z * storage :=
  genie_storage_write_reliable GFI_MESH_HB (Some (hb_image p_para)) hb_size s.
Definition genie_storage_read_hb (p_para : mesh_hb_para_t) (s : storage) : Z * mesh_hb_para_t :=
  read_struct GFI_MESH_HB hb_size hb_image hb_of p_para s.

(** The application hook writes the switch states back after the erase. *)
Definition genie_storage_reset_system (s : storage) : Z * storage :=
  let '(ret, f) := aos_kv_del_all (flash s) in
  let f := save_switches_param f in
  (if truthy ret then GENIE_STORAGE_EARSE_FAIL else GENIE_STORAGE_SUCCESS, with_flash f s).

(** ** genie_triple.c *)

Definition GENIE_TRIPLE_PID_SIZE : nat := 4.
Definition GENIE_TRIPLE_KEY_SIZE : nat := 16.
Definition GENIE_TRIPLE_MAC_SIZE : nat := 6.
Definition GENIE_TRIPLE_CRC_LEN : nat := 2.
Definition GENIE_SIZE_TRI_TRUPLE : nat := 28.

Record genie_triple_t := mkTriple { pid : Z; triple_key : list Z; triple_mac : list Z }.

(** The bytes before the checksum. *)
Definition triple_body (p_pid : Z) (p_mac p_key : list Z) : list Z :=
  le32 p_pid ++ take GENIE_TRIPLE_KEY_SIZE p_key ++ take GENIE_TRIPLE_MAC_SIZE p_mac.

Definition genie_triple_write (p_pid : Z) (p_mac p_key : list Z) (s : storage) : Z * storage :=
  let data := triple_body p_pid p_mac p_key in
  let triple_crc := genie_crc16_compute data (Some crc_magic) in
  genie_storage_write_reliable GFI_MESH_TRITUPLE (Some (data ++ le16 triple_crc)) (Z.of_nat GENIE_SIZE_TRI_TRUPLE) s.

(** [data] is the uninitialised local buffer. *)
Definition genie_triple_read (data : list Z) (t : genie_triple_t) (s : storage) : Z * genie_triple_t :=
  match genie_storage_read_reliable GFI_MESH_TRITUPLE (Some data) (Z.of_nat GENIE_SIZE_TRI_TRUPLE) s with
  | (ret, Some data) =>
    if negb (ret =? GENIE_STORAGE_SUCCESS) then (ret, t) else
    let body := take (GENIE_SIZE_TRI_TRUPLE - GENIE_TRIPLE_CRC_LEN) data in
    let triple_crc := genie_crc16_compute body (Some crc_magic) in
    let triple_read_crc := get_le16 (nth 26 data 0) (nth 27 data 0) in
    if negb (triple_crc =? triple_read_crc) then (GENIE_STORAGE_READ_FAIL, t) else
    (GENIE_STORAGE_SUCCESS,
     mkTriple (of_le32 data) (take GENIE_TRIPLE_KEY_SIZE (drop GENIE_TRIPLE_PID_SIZE data))
       (take GENIE_TRIPLE_MAC_SIZE (drop (GENIE_TRIPLE_PID_SIZE + GENIE_TRIPLE_KEY_SIZE) data)))
  | (ret, None) => (ret, t)
  end.

(** The static [genie_triple] after [genie_triple_init], with its result. *)
Definition genie_triple_init (data : list Z) (s : storage) : Z * genie_triple_t :=
  let t := mkTriple 0 (repeat 0 GENIE_TRIPLE_KEY_SIZE) (repeat 0 GENIE_TRIPLE_MAC_SIZE) in
  let '(ret, t) := genie_triple_read data t s in
  (if negb (ret =? GENIE_STORAGE_SUCCESS) then -1 else 0, t).

(** ** The saved provisioning data, genie_provision.c *)

Record genie_provision_t := mkProvision {
  p_addr : Z; p_seq : Z; p_devkey : list Z; p_netkey : mesh_netkey_para_t; p_appkey : mesh_appkey_para_t }.

Definition provision_zero : genie_provision_t :=
  mkProvision 0 0 (repeat 0 16) (mkNetkey 0 0 0 (repeat 0 16)) (mkAppkey 0 0 0 (repeat 0 16)).

Definition genie_provision_get_saved_data (seq_read : list Z) (s : storage) : Z * genie_provision_t * storage :=
  let p := provision_zero in
  let '(ret, a) := genie_storage_read_addr (p_addr p) s in
  let p := mkProvision a (p_seq p) (p_devkey p) (p_netkey p) (p_appkey p) in
  if negb (ret =? GENIE_STORAGE_SUCCESS) then (ret, p, s) else
  let '(ret, q, s) := genie_storage_read_seq seq_read (p_seq p) s in
  let p := mkProvision (p_addr p) q (p_devkey p) (p_netkey p) (p_appkey p) in
  if negb (ret =? GENIE_STORAGE_SUCCESS) then (ret, p, s) else
  let '(ret, d) := genie_storage_read_devkey (p_devkey p) s in
  let p := mkProvision (p_addr p) (p_seq p) d (p_netkey p) (p_appkey p) in
  if negb (ret =? GENIE_STORAGE_SUCCESS) then (ret, p, s) else
  let '(ret, n) := genie_storage_read_netkey (p_netkey p) s in
  let p := mkProvision (p_addr p) (p_seq p) (p_devkey p) n (p_appkey p) in
  if negb (ret =? GENIE_STORAGE_SUCCESS) then (ret, p, s) else
  let '(ret, a) := genie_storage_read_appkey 0 (p_appkey p) s in
  let p := mkProvision (p_addr p) (p_seq p) (p_devkey p) (p_netkey p) a in
  if negb (ret =? GENIE_STORAGE_SUCCESS) then (ret, p, s) else
  (0, p, s).

End Storage.
Arguments storage F : clear implicits.
Arguments mkStorage {F} _ _ _.

(** ** Block encryption of a buffer *)


Lemma reliable_size n : 0 <= n <= 65520 →
  let m := _genie_storage_get_reliable_size n in m = 16 * Z.shiftr m 4 /\ n <= m < n + 16.
Proof.
  intros Hn. unfold _genie_storage_get_reliable_size. change 15 with (Z.ones 4). rewrite Z.land_ones by lia.
  rewrite !Z.shiftr_div_pow2, Z.shiftl_mul_pow2 by lia. change (2 ^ 4) with 16.
  zcases; cbv zeta; rewrite ?Z.shiftr_div_pow2 by lia; change (2 ^ 4) with 16; rewrite ?u16_small by dlia; dlia.
Qed.

Lemma crypt_blocks_inverse f g n buf : length buf = (16 * n)%nat → all_u8 buf →
  (forall b, block b → block (f b) /\ g (f b) = b) →
  crypt_blocks g n (crypt_blocks f n buf) = buf /\ length (crypt_blocks f n buf) = (16 * n)%nat.
Proof.
  revert buf. induction n as [|n IH]; intros buf Hl Hb H; [by destruct buf|]. cbn [crypt_blocks].
  assert (Hblk : block (take 16 buf)) by (split; [rewrite length_take; lia | by apply Forall_take]).
  destruct (H _ Hblk) as [[Hfl _] Hg].
  destruct (IH (drop 16 buf)) as [E El]; [rewrite length_drop; lia | by apply Forall_drop | done |].
  rewrite <- Hfl at 1 4. rewrite take_app_length, drop_app_length, E, Hg, length_app, El, Hfl.
  split; [apply take_drop | lia].
Qed.

Lemma aes_block_inverse key b : block b →
  block (snd (bt_mesh_aes_encrypt [] key b [])) /\
  snd (bt_mesh_aes_decrypt [] key (snd (bt_mesh_aes_encrypt [] key b [])) []) = b.
Proof.
  intros Hb. rewrite bt_mesh_aes_encrypt_eq, bt_mesh_aes_decrypt_eq. cbn [snd].
  split; [apply encrypt_block_block | apply decrypt_encrypt]; (done || apply key_schedule_length).
Qed.

Lemma storage_decrypt_encrypt key buf n : 0 <= n → length buf = (16 * Z.to_nat (Z.shiftr n 4))%nat → all_u8 buf →
  _genie_storage_decrypt key (_genie_storage_encrypt key buf n) n = buf /\
  length (_genie_storage_encrypt key buf n) = length buf.
Proof.
  intros Hn Hl Hb. unfold _genie_storage_decrypt, _genie_storage_encrypt. rewrite Hl.
  apply crypt_blocks_inverse; [done..|]. intros. by apply aes_block_inverse.
Qed.

(** ** Reading back what was written *)

Lemma memcpy_all dst src : length dst = length src → memcpy dst src = src.
Proof. intros E. unfold memcpy. rewrite <- E, drop_all. apply app_nil_r. Qed.

(** The padded buffer that is encrypted. *)
Definition padded (data : list Z) (n : Z) : list Z :=
  memcpy (repeat 0 (Z.to_nat (_genie_storage_get_reliable_size n))) data.

Lemma padded_spec data n : Z.of_nat (length data) = n → n <= 65520 → all_u8 data →
  let m := _genie_storage_get_reliable_size n in
  length (padded data n) = Z.to_nat m /\ length (padded data n) = (16 * Z.to_nat (Z.shiftr m 4))%nat /\
  all_u8 (padded data n) /\ take (length data) (padded data n) = data.
Proof.
  intros Hd Hn Hb m. pose proof (reliable_size n ltac:(lia)) as [Hm Hm']. fold m in Hm, Hm'.
  assert (Hl : length (padded data n) = Z.to_nat m).
  { unfold padded, memcpy. rewrite length_app, length_drop, repeat_length. fold m. lia. }
  repeat split; [done | lia | |].
  - unfold padded, memcpy. apply Forall_app_2; [done|]. apply Forall_drop, List.Forall_forall.
    intros x ->%repeat_spec. lia.
  - unfold padded, memcpy. apply take_app_length.
Qed.

Section Laws.
Context {F : Type} `{FlashLaws F}.
Implicit Types (s : storage F).

(** The ciphertext of some data, and an index that holds it. *)
Definition ciphertext (key data : list Z) (n : Z) : list Z :=
  _genie_storage_encrypt key (padded data n) (_genie_storage_get_reliable_size n).
Definition holds (index : Z) (data : list Z) (n : Z) s : Prop :=
  kv_item_get (key_name index) (flash s) = Some (ciphertext (g_enc_key s) data n).

Lemma ciphertext_spec key data n : length data = Z.to_nat n → 0 < n <= 65520 → all_u8 data →
  let m := _genie_storage_get_reliable_size n in
  Z.of_nat (length (ciphertext key data n)) = m /\ 0 < m /\
  take (length data) (_genie_storage_decrypt key (ciphertext key data n) m) = data.
Proof.
  intros Hd Hn Hb m. destruct (padded_spec data n ltac:(lia) ltac:(lia) Hb) as (Hl & Hl' & Hp & Ht). fold m in Hl, Hl'.
  assert (n <= m) as Hm by (apply reliable_size; lia).
  destruct (storage_decrypt_encrypt key (padded data n) m) as [Hdec Hel]; [lia | done..|]. fold m.
  unfold ciphertext. fold m. rewrite Hdec, Hel, Hl. repeat split; [lia | lia | exact Ht].
Qed.

(** Decryption of a buffer that received the ciphertext. *)
Lemma read_buffer key data n junk dst : length data = Z.to_nat n → 0 < n <= 65520 → all_u8 data →
  Z.of_nat (length junk) = _genie_storage_get_reliable_size n →
  (length junk <? length (ciphertext key data n))%nat = false /\
  Some (memcpy dst (take (Z.to_nat n) (_genie_storage_decrypt key (memcpy junk (ciphertext key data n)) (_genie_storage_get_reliable_size n))))
  = Some (memcpy dst data).
Proof.
  intros Hd Hn Hb Hj. destruct (ciphertext_spec key data n Hd Hn Hb) as (Hl & _ & Ht).
  split; [apply Nat.ltb_ge; lia|]. rewrite (memcpy_all junk) by lia. by rewrite <- Hd, Ht.
Qed.

Lemma holds_read index data n s dst : index ≠ GFI_MESH_TRITUPLE → length data = Z.to_nat n → 0 < n <= 65520 → all_u8 data →
  holds index data n s → hal_malloc (_genie_storage_get_reliable_size n) (flash s) ≠ None →
  genie_storage_read_reliable index (Some dst) n s = (GENIE_STORAGE_SUCCESS, Some (memcpy dst data)).
Proof.
  intros Hi Hd Hn Hb Hh Hm. unfold genie_storage_read_reliable. cbv zeta.
  destruct (hal_malloc _ (flash s)) as [junk|] eqn:Ej; [|done].
  destruct (read_buffer (g_enc_key s) data n junk dst Hd Hn Hb (malloc_length _ _ _ Ej)) as [Hc Hr].
  rewrite (proj2 (Z.eqb_neq _ _) Hi). unfold _genie_storage_read, genie_kv_read, aos_kv_get. rewrite Hh, Hc.
  change (truthy RES_OK) with false. cbv iota. change (GENIE_STORAGE_SUCCESS =? 0) with true. cbv iota. by rewrite Hr.
Qed.

(** A write that succeeds on an allocated buffer. *)
Lemma write_reliable_eq index data n s : length data = Z.to_nat n → 0 < n <= 65520 → all_u8 data →
  genie_storage_write_reliable index (Some data) n s =
  match hal_malloc (_genie_storage_get_reliable_size n) (flash s) with
  | None => (GENIE_STORAGE_DATA_INVALID, s)
  | Some _ =>
    let w := if index =? GFI_MESH_TRITUPLE then hal_flash_write_triples (ciphertext (g_enc_key s) data n) (flash s)
             else aos_kv_set (key_name index) (ciphertext (g_enc_key s) data n) (flash s) in
    (if truthy (fst w) then GENIE_STORAGE_WRITE_FAIL else GENIE_STORAGE_SUCCESS, with_flash (snd w) s)
  end.
Proof.
  intros Hd Hn Hb. unfold genie_storage_write_reliable. cbv zeta. destruct (hal_malloc _ _); [|done].
  rewrite <- Hd, firstn_all. fold (padded data n). fold (ciphertext (g_enc_key s) data n).
  destruct (ciphertext_spec (g_enc_key s) data n Hd Hn Hb) as (Hl & Hp & _).
  destruct (index =? GFI_MESH_TRITUPLE); [by destruct (hal_flash_write_triples _ _)|].
  unfold _genie_storage_write, genie_kv_write. destruct (ciphertext (g_enc_key s) data n); [cbn in Hl; lia|].
  by destruct (aos_kv_set _ _ _).
Qed.

Lemma truthy_false z : truthy z = false → z = 0.
Proof. unfold truthy. destruct (Z.eqb_spec z 0); done. Qed.

Lemma write_holds index data n s s' : index ≠ GFI_MESH_TRITUPLE → length data = Z.to_nat n → 0 < n <= 65520 → all_u8 data →
  genie_storage_write_reliable index (Some data) n s = (GENIE_STORAGE_SUCCESS, s') → holds index data n s'.
Proof.
  intros Hi Hd Hn Hb. rewrite write_reliable_eq by done. destruct (hal_malloc _ _); [|discriminate]. cbv zeta.
  rewrite (proj2 (Z.eqb_neq _ _) Hi). destruct (truthy _) eqn:T; intros E; [by apply (f_equal fst) in E|].
  apply (f_equal snd) in E. cbn [snd] in E. subst s'. apply truthy_false in T.
  exact (kv_set_get _ _ _ T).
Qed.

(** What a successful [genie_storage_write_reliable] leaves to the next read. *)
Lemma write_read_reliable index data n s s' dst : length data = Z.to_nat n → 0 < n <= 65520 → all_u8 data →
  genie_storage_write_reliable index (Some data) n s = (GENIE_STORAGE_SUCCESS, s') →
  hal_malloc (_genie_storage_get_reliable_size n) (flash s') ≠ None →
  genie_storage_read_reliable index (Some dst) n s' = (GENIE_STORAGE_SUCCESS, Some (memcpy dst data)).
Proof.
  intros Hd Hn Hb Hw Hm. destruct (decide (index = GFI_MESH_TRITUPLE)) as [->|Hi].
  2: { eapply holds_read; eauto. by eapply write_holds. }
  rewrite write_reliable_eq in Hw by done. destruct (hal_malloc _ (flash s)); [|discriminate]. cbv zeta in Hw.
  change (GFI_MESH_TRITUPLE =? GFI_MESH_TRITUPLE) with true in Hw. cbv iota in Hw.
  destruct (truthy _) eqn:T in Hw; [by apply (f_equal fst) in Hw|]. apply (f_equal snd) in Hw. cbn [snd] in Hw.
  apply truthy_false, triples_write_read in T.
  destruct (ciphertext_spec (g_enc_key s) data n Hd Hn Hb) as (Hl & _ & _). rewrite Hl in T.
  unfold genie_storage_read_reliable. cbv zeta. destruct (hal_malloc _ (flash s')) as [junk|] eqn:Ej; [|done].
  destruct (read_buffer (g_enc_key s) data n junk dst Hd Hn Hb (malloc_length _ _ _ Ej)) as [_ Hr]. subst s'.
  change (GFI_MESH_TRITUPLE =? GFI_MESH_TRITUPLE) with true. cbv iota. cbn [flash with_flash g_enc_key]. rewrite T.
  change (truthy 0) with false. cbv iota. change (GENIE_STORAGE_SUCCESS =? 0) with true. cbv iota. by rewrite Hr.
Qed.

(** A write under one index leaves the other keys alone. *)
Lemma write_reliable_other index data n s k : index ≠ GFI_MESH_TRITUPLE → k ≠ key_name index →
  kv_item_get k (flash (snd (genie_storage_write_reliable index data n s))) = kv_item_get k (flash s).
Proof.
  intros Hi Hk. unfold genie_storage_write_reliable. destruct data as [src|]; [|done].
  destruct (hal_malloc _ _); [|done]. cbv zeta. rewrite (proj2 (Z.eqb_neq _ _) Hi).
  unfold _genie_storage_write. case_match; [done|]. unfold genie_kv_write.
  match goal with |- context [aos_kv_set ?a ?b ?c] => pose proof (kv_set_get_ne a k b c) as Hn; destruct (aos_kv_set a b c) end.
  cbn in *. by apply Hn.
Qed.

Lemma write_reliable_key index data n s : g_enc_key (snd (genie_storage_write_reliable index data n s)) = g_enc_key s.
Proof.
  unfold genie_storage_write_reliable, _genie_storage_write, genie_kv_write.
  repeat (case_match; try done); simplify_eq; done.
Qed.

End Laws.

Lemma key_name_inj i j : is_u16 i → is_u16 j → key_name i = key_name j → i = j.
Proof.
  unfold key_name. intros ? ? E. apply (inj (String.app "key_")) in E. apply (inj pretty) in E. apply (f_equal Z.of_N) in E. rewrite !Z2N.id in E by lia. done.
Qed.

Lemma key_name_not_seq i : key_name i ≠ GENIE_KV_SEQ_KEY.
Proof. discriminate. Qed.

(** ** The checksum detects a changed byte *)

(** The rotation of the checksum and the mixing of [crc16_step]. *)
Definition crc_swap (c : Z) : Z := u16 (Z.lor (u8 (Z.shiftr c 8)) (Z.shiftl c 8)).
Definition crc_mix (x : Z) : Z :=
  let x := u16 (Z.lxor x (Z.shiftr (u8 (Z.land x 255)) 4)) in
  let x := u16 (Z.lxor x (Z.shiftl (Z.shiftl x 8) 4)) in
  u16 (Z.lxor x (Z.shiftl (Z.shiftl (Z.land x 255) 4) 1)).
(** Its inverse, each of the three steps undone. *)
Definition crc_unmix (y : Z) : Z :=
  let lo := Z.lxor y (Z.shiftl (Z.land y 7) 5) in
  let y := u16 (Z.lxor y (Z.shiftl (Z.land lo 255) 5)) in
  let y := u16 (Z.lxor y (Z.shiftl y 12)) in
  u16 (Z.lxor y (Z.shiftr (Z.land y 255) 4)).

Definition words16 : list Z := flat_map (λ hi, map (λ lo, 256 * hi + lo) bytes256) bytes256.

Lemma word_forall (P : Z → bool) : forallb P words16 = true → forall x, is_u16 x → P x = true.
Proof.
  intros H x Hx. apply (proj1 (List.forallb_forall P words16) H), in_flat_map.
  exists (x / 256). split; [apply in_bytes256; dlia|]. apply in_map_iff.
  exists (x mod 256). split; [dlia | apply in_bytes256; dlia].
Qed.

Lemma crc_unmix_mix x : is_u16 x → crc_unmix (crc_mix x) = x.
Proof. intros Hx. apply Z.eqb_eq. revert x Hx. apply (word_forall (λ x, crc_unmix (crc_mix x) =? x)). by vm_compute. Qed.

Lemma crc_swap_swap x : is_u16 x → crc_swap (crc_swap x) = x.
Proof. intros Hx. apply Z.eqb_eq. revert x Hx. apply (word_forall (λ x, crc_swap (crc_swap x) =? x)). by vm_compute. Qed.

Lemma crc16_step_mix c b : crc16_step c b = crc_mix (u16 (Z.lxor (crc_swap c) b)).
Proof. done. Qed.

Lemma u16_lxor_cancel x b : is_u16 x → is_u8 b → u16 (Z.lxor (u16 (Z.lxor x b)) b) = x.
Proof.
  intros Hx Hb. unfold u16. change 65536 with (2 ^ 16). apply Z.bits_inj'. intros n Hn.
  rewrite <- !Z.land_ones by lia. rewrite Z.land_spec, Z.lxor_spec, Z.land_spec, Z.lxor_spec.
  destruct (Z.lt_ge_cases n 16).
  - rewrite Z.ones_spec_low by lia. destruct (Z.testbit x n), (Z.testbit b n); done.
  - rewrite Z.ones_spec_high by lia. rewrite !andb_false_r. symmetry.
    destruct (Z.eq_dec x 0) as [->|]; [apply Z.bits_0|]. apply Z.bits_above_log2; [lia|].
    assert (Z.log2 x < 16) by (apply Z.log2_lt_pow2; lia). lia.
Qed.

(** The byte and the checksum after it determine the checksum before it, and the
    checksums before and after determine the byte. *)
Lemma crc16_step_inj_crc c c' b : is_u16 c → is_u16 c' → is_u8 b → crc16_step c b = crc16_step c' b → c = c'.
Proof.
  intros Hc Hc' Hb E. rewrite !crc16_step_mix in E.
  apply (f_equal crc_unmix) in E. rewrite !crc_unmix_mix in E by apply u16_range.
  apply (f_equal (λ z, u16 (Z.lxor z b))) in E. rewrite !u16_lxor_cancel in E by (done || apply u16_range).
  by rewrite <- (crc_swap_swap c), E, crc_swap_swap.
Qed.

Lemma crc16_step_inj_byte c b b' : is_u16 c → is_u8 b → is_u8 b' → crc16_step c b = crc16_step c b' → b = b'.
Proof.
  intros Hc Hb Hb' E. rewrite !crc16_step_mix in E.
  apply (f_equal crc_unmix) in E. rewrite !crc_unmix_mix in E by apply u16_range.
  apply (f_equal (λ z, u16 (Z.lxor z (crc_swap c)))) in E.
  rewrite !(Z.lxor_comm (crc_swap c)) in E.
  revert E. unfold u16. change 65536 with (2 ^ 16). rewrite <- !Z.land_ones by lia. intros E.
  apply Z.bits_inj'. intros n Hn. apply (f_equal (λ z, Z.testbit z n)) in E.
  rewrite !Z.land_spec, !Z.lxor_spec, !Z.land_spec, !Z.lxor_spec in E.
  destruct (Z.lt_ge_cases n 16) as [Hlt|Hge].
  - rewrite Z.ones_spec_low in E by lia. destruct (Z.testbit b n), (Z.testbit b' n), (Z.testbit (crc_swap c) n); done.
  - assert (Hz : forall z, is_u8 z → Z.testbit z n = false).
    { intros z Hz. destruct (Z.eq_dec z 0) as [->|]; [apply Z.bits_0|]. apply Z.bits_above_log2; [lia|].
      assert (Z.log2 z < 8) by (apply Z.log2_lt_pow2; lia). lia. }
    by rewrite !Hz.
Qed.

Lemma crc16_fold_range l c : is_u16 c → is_u16 (fold_left crc16_step l c).
Proof. revert c. induction l as [|b l IH]; intros c Hc; [done|]. cbn [fold_left]. apply IH, u16_range. Qed.

Lemma crc16_fold_inj l c c' : is_u16 c → is_u16 c' → all_u8 l → fold_left crc16_step l c = fold_left crc16_step l c' → c = c'.
Proof.
  revert c c'. induction l as [|b l IH]; intros c c' Hc Hc' Hl E; [done|]. cbn [fold_left] in E.
  apply Forall_cons_1 in Hl as [Hb Hl]. apply (IH _ _ (u16_range _) (u16_range _) Hl) in E. by apply crc16_step_inj_crc in E.
Qed.

(** Two texts that differ in one byte have different checksums. *)
Lemma crc16_one_byte l1 b b' l2 c : is_u16 c → all_u8 (l1 ++ b :: l2) → is_u8 b' → b ≠ b' →
  genie_crc16_compute (l1 ++ b :: l2) (Some c) ≠ genie_crc16_compute (l1 ++ b' :: l2) (Some c).
Proof.
  intros Hc Hl Hb' Hne E. apply Hne. unfold genie_crc16_compute in E. rewrite !fold_left_app in E. cbn [fold_left] in E.
  apply Forall_app in Hl as [_ [Hb Hl]%Forall_cons_1].
  apply crc16_fold_inj in E; [|apply u16_range..|done].
  apply (crc16_step_inj_byte _ _ _ (crc16_fold_range l1 c Hc) Hb Hb' E).
Qed.

(** ** A flash in memory *)

(** The key-value store as a map, the two areas as byte lists that read as erased
    flash past their end; [heap] says whether allocations succeed, [wr] what the
    next write answers, [junk] what fresh memory holds. *)
Record gflash := mkGflash { g_kv : gmap string (list Z); g_triples : list Z; g_group : list Z; heap : bool; wr : Z; junk : Z }.

Definition area_read (n : Z) (a : list Z) : list Z := take (Z.to_nat n) (a ++ repeat 255 (Z.to_nat n)).

#[export] Instance gflash_flash : Flash gflash := {
  kv_item_get k f := g_kv f !! k;
  aos_kv_set k v f := (wr f, if wr f =? 0 then mkGflash (<[k:=v]> (g_kv f)) (g_triples f) (g_group f) (heap f) (wr f) (junk f) else f);
  aos_kv_del k f := match g_kv f !! k with
    | None => (RES_ITEM_NOT_FOUND, f)
    | Some _ => (RES_OK, mkGflash (delete k (g_kv f)) (g_triples f) (g_group f) (heap f) (wr f) (junk f)) end;
  aos_kv_del_all f := (RES_OK, mkGflash ∅ (g_triples f) (g_group f) (heap f) (wr f) (junk f));
  hal_flash_read_triples n f := (0, area_read n (g_triples f));
  hal_flash_write_triples bs f := (wr f, mkGflash (g_kv f) bs (g_group f) (heap f) (wr f) (junk f));
  hal_flash_read_group_addr n f := (0, area_read n (g_group f));
  hal_flash_write_group_addr bs f := (wr f, mkGflash (g_kv f) (g_triples f) bs (heap f) (wr f) (junk f));
  hal_malloc n f := if heap f && (0 <=? n) then Some (repeat (junk f) (Z.to_nat n)) else None;
  save_switches_param f := f }.

Lemma area_read_all bs : area_read (Z.of_nat (length bs)) bs = bs.
Proof. unfold area_read. rewrite Nat2Z.id. apply take_app_length. Qed.

#[export] Instance gflash_laws : FlashLaws gflash.
Proof.
  split; cbn [kv_item_get aos_kv_set aos_kv_del_all hal_flash_read_triples hal_flash_write_triples
    hal_flash_read_group_addr hal_flash_write_group_addr hal_malloc gflash_flash fst snd]; intros.
  - rewrite (proj2 (Z.eqb_eq _ _) H). apply lookup_insert_eq.
  - destruct (wr f =? 0); [by apply lookup_insert_ne | done].
  - apply lookup_empty.
  - cbn. by rewrite area_read_all.
  - cbn. by rewrite area_read_all.
  - done.
  - done.
  - destruct (heap f); [|done]. destruct (Z.leb_spec 0 n); [|done]. injection H as <-. rewrite repeat_length. lia.
Qed.

(** An empty working flash under the key of an unset PROJECT_SECRET_KEY. *)
Definition blank : storage gflash := mkStorage (mkGflash ∅ [] [] true 0 7) (repeat 0 16) 0.

(** ** The store keeps what it is given *)

Section Claims.
Context {F : Type} `{FlashLaws F}.
Implicit Types (s : storage F).

(** Encrypted storage round trip: after [genie_storage_write_reliable] of [n]
    bytes (1 to 65520) reported success, [genie_storage_read_reliable] of the same
    index and size succeeds and delivers exactly the bytes, through zero padding to
    whole blocks, encryption, the flash, and decryption into an uninitialised
    buffer; the values under every other index are untouched. *)
Theorem reliable_roundtrip index data n s s' dst : length data = Z.to_nat n → 0 < n <= 65520 → all_u8 data →
  genie_storage_write_reliable index (Some data) n s = (GENIE_STORAGE_SUCCESS, s') →
  hal_malloc (_genie_storage_get_reliable_size n) (flash s') ≠ None →
  genie_storage_read_reliable index (Some dst) n s' = (GENIE_STORAGE_SUCCESS, Some (memcpy dst data)) /\
  (forall j buf, is_u16 index → is_u16 j → index ≠ GFI_MESH_TRITUPLE → j ≠ index →
     genie_kv_read j buf s' = genie_kv_read j buf s).
Proof.
  intros Hd Hn Hb Hw Hm. split; [by eapply write_read_reliable|].
  intros j buf Hi Hj Ht Hne. unfold genie_kv_read, aos_kv_get.
  pose proof (write_reliable_other index (Some data) n s (key_name j) Ht) as Ho. rewrite Hw in Ho.
  cbn [snd] in Ho. rewrite Ho; [done|]. intros E. apply Hne. by apply key_name_inj.
Qed.

Lemma u16_image_length l : length (u16_image l) = (2 * length l)%nat.
Proof. induction l as [|x l IH]; [done|]. unfold u16_image in *. cbn [map concat length]. rewrite length_app, IH. simpl. lia. Qed.

Lemma u16_image_bytes l : all_u8 (u16_image l).
Proof.
  induction l as [|x l IH]; [constructor|]. unfold u16_image in *. cbn [map concat]. apply Forall_app_2; [|done].
  unfold le16. rewrite !land_255. repeat (apply Forall_cons_2; [apply Z.mod_pos_bound; lia|]). constructor.
Qed.

Lemma u16_array_image l : Forall (λ x, is_u16 x) l → u16_array (u16_image l) = l.
Proof.
  induction 1 as [|x l Hx _ IH]; [done|]. unfold u16_image in *. cbn [map concat app le16 u16_array].
  rewrite IH. f_equal. by apply get_le16_le16.
Qed.

Lemma crc16_range l c : is_u16 c → is_u16 (genie_crc16_compute l (Some c)).
Proof. apply crc16_fold_range. Qed.

(** Text followed by its checksum, as both writers lay it out. *)
Lemma tail_bytes (t : list Z) lo hi :
  take (length t) (t ++ [lo; hi]) = t /\ nth (length t) (t ++ [lo; hi]) 0 = lo /\ nth (length t + 1) (t ++ [lo; hi]) 0 = hi.
Proof.
  split; [apply take_app_length|]. split; [|apply app_nth2_plus].
  rewrite app_nth2 by lia. by rewrite Nat.sub_diag.
Qed.

Lemma crc_fields t c : let d := t ++ le16 c in is_u16 c →
  take (length t) d = t /\ get_le16 (nth (length t) d 0) (nth (length t + 1) d 0) = c.
Proof.
  intros d Hc. destruct (tail_bytes t (Z.land c 255) (Z.land (Z.shiftr c 8) 255)) as (Ht & Hlo & Hhi).
  split; [exact Ht|]. unfold d, le16. rewrite Hlo, Hhi. by apply get_le16_le16.
Qed.

Lemma crc_magic_u16 : is_u16 crc_magic.
Proof. unfold crc_magic. lia. Qed.

Lemma le16_bytes c : exists lo hi, le16 c = [lo; hi] /\ is_u8 lo /\ is_u8 hi /\ (is_u16 c → c = get_le16 lo hi).
Proof.
  exists (Z.land c 255), (Z.land (Z.shiftr c 8) 255).
  split; [done|]. repeat split; try (rewrite land_255; apply Z.mod_pos_bound; lia).
  intros. symmetry. by apply get_le16_le16.
Qed.

(** A changed byte, in the text or in its checksum, breaks the agreement. *)
Lemma crc_detects t l1 b b' l2 : all_u8 t →
  t ++ le16 (genie_crc16_compute t (Some crc_magic)) = l1 ++ b :: l2 → b ≠ b' → is_u8 b' → let d' := l1 ++ b' :: l2 in
  get_le16 (nth (length t) d' 0) (nth (length t + 1) d' 0) ≠ genie_crc16_compute (take (length t) d') (Some crc_magic).
Proof.
  intros Ht E Hne Hb' d'. unfold d'. clear d'. pose proof (crc16_range t _ crc_magic_u16) as Hc.
  remember (genie_crc16_compute t (Some crc_magic)) as c eqn:Ec.
  destruct (le16_bytes c) as (lo & hi & El & Hlo & Hhi & Ecv). specialize (Ecv Hc).
  assert (Hcrc : forall lo' hi', is_u8 lo' → is_u8 hi' → lo ≠ lo' \/ hi ≠ hi' →
    get_le16 (nth (length t) (t ++ [lo'; hi']) 0) (nth (length t + 1) (t ++ [lo'; hi']) 0)
    ≠ genie_crc16_compute (take (length t) (t ++ [lo'; hi'])) (Some crc_magic)).
  { intros lo' hi' ? ? Hd. destruct (tail_bytes t lo' hi') as (-> & -> & ->).
    rewrite <- Ec, Ecv, !get_le16_spec by done. lia. }
  apply app_eq_inv in E as [([|x k] & Et & E) | (k & -> & E)].
  - rewrite app_nil_r in Et. subst l1. rewrite El in E. injection E as -> ->. apply Hcrc; [done.. | by left].
  - injection E as -> ->. clear Hcrc. subst t.
    replace (l1 ++ b' :: k ++ le16 c) with ((l1 ++ b' :: k) ++ le16 c) by by rewrite <- app_assoc.
    replace (length (l1 ++ x :: k)) with (length (l1 ++ b' :: k)) by by rewrite !length_app.
    destruct (crc_fields (l1 ++ b' :: k) c Hc) as [-> ->]. rewrite Ec. apply crc16_one_byte; (done || apply crc_magic_u16).
  - rewrite El in E. destruct k as [|y [|y' k]]; try discriminate.
    + injection E as <- <-. rewrite app_nil_r. apply Hcrc; [done.. | by left].
    + injection E as <- <- <-. rewrite <- app_assoc. apply Hcrc; [done.. | by right].
    + injection E as _ _ E. by destruct k.
Qed.

(** The subscription list: what [genie_storage_write_sub] stored is read back,
    and an image in which any one byte was changed, in the addresses or in their
    checksum, is refused and leaves the caller's list alone. *)
Theorem sub_store p_sub q s s' s2 l1 b b' l2 : length p_sub = CONFIG_BT_MESH_MODEL_GROUP_COUNT → Forall (λ x, is_u16 x) p_sub →
  genie_storage_write_sub p_sub s = (0, s') →
  sub_image p_sub = l1 ++ b :: l2 → b ≠ b' → is_u8 b' →
  hal_flash_read_group_addr 18 (flash s2) = (0, l1 ++ b' :: l2) →
  genie_storage_read_sub q s' = (GENIE_STORAGE_SUCCESS, p_sub) /\
  genie_storage_read_sub q s2 = (GENIE_STORAGE_READ_FAIL, q).
Proof.
  intros Hl Hu Hw Ei Hne Hb' Hr.
  assert (Ht : take SUB_BYTES (u16_image p_sub) = u16_image p_sub)
    by (apply take_ge; rewrite u16_image_length, Hl; unfold SUB_BYTES; lia).
  assert (Hlen : length (u16_image p_sub) = SUB_BYTES) by (rewrite u16_image_length, Hl; done).
  unfold sub_image in Ei. rewrite Ht in Ei. split.
  - unfold genie_storage_write_sub, sub_image in Hw. rewrite Ht in Hw.
    set (c := genie_crc16_compute (u16_image p_sub) (Some crc_magic)) in *. cbv zeta in Hw.
    pose proof (group_addr_write_read (u16_image p_sub ++ le16 c) (flash s)) as Hg.
    destruct (hal_flash_write_group_addr _ _) as [r f]. injection Hw as -> <-. specialize (Hg eq_refl).
    rewrite length_app, Hlen in Hg. unfold genie_storage_read_sub. cbn [flash with_flash].
    change (length (le16 c)) with 2%nat in Hg. cbn [snd] in Hg. rewrite Hg. change (truthy 0) with false. cbv iota zeta.
    destruct (crc_fields (u16_image p_sub) c) as [Ef Eg]; [apply crc16_range, crc_magic_u16|].
    rewrite Hlen in Ef, Eg. rewrite Ef, Eg. fold c. rewrite Z.eqb_refl. cbn [negb]. by rewrite u16_array_image.
  - unfold genie_storage_read_sub. change (Z.of_nat (SUB_BYTES + 2)) with 18. rewrite Hr.
    change (truthy 0) with false. cbv iota zeta. rewrite <- Hlen.
    rewrite (proj2 (Z.eqb_neq _ _)); [done|]. eapply crc_detects; [apply u16_image_bytes | exact Ei | done | done].
Qed.

Lemma le32_bytes z : all_u8 (le32 z).
Proof. unfold le32. rewrite !land_255. repeat (apply Forall_cons_2; [apply Z.mod_pos_bound; lia|]). constructor. Qed.

Lemma of_le32_app z l : is_u32 z → of_le32 (le32 z ++ l) = z.
Proof. intros Hz. exact (get_le32_le32 z Hz). Qed.

Lemma le16_u8 z : all_u8 (le16 z).
Proof. destruct (le16_bytes z) as (lo & hi & -> & ? & ? & _). by repeat (apply Forall_cons_2; [done|]). Qed.

(** The device triple: after [genie_triple_write] succeeded, [genie_triple_read]
    and [genie_triple_init] deliver the product id, the key and the MAC address
    that were written, through the checksum, the padding and the encryption. *)
Theorem triple_roundtrip p_pid p_mac p_key data t s s' : is_u32 p_pid →
  length p_mac = GENIE_TRIPLE_MAC_SIZE → length p_key = GENIE_TRIPLE_KEY_SIZE → all_u8 p_mac → all_u8 p_key →
  length data = GENIE_SIZE_TRI_TRUPLE → genie_triple_write p_pid p_mac p_key s = (GENIE_STORAGE_SUCCESS, s') →
  hal_malloc 32 (flash s') ≠ None →
  genie_triple_read data t s' = (GENIE_STORAGE_SUCCESS, mkTriple p_pid p_key p_mac) /\
  genie_triple_init data s' = (0, mkTriple p_pid p_key p_mac).
Proof.
  intros Hp Hm Hk Hmb Hkb Hd Hw Hmal. unfold genie_triple_write in Hw. cbv zeta in Hw.
  assert (Eb : triple_body p_pid p_mac p_key = le32 p_pid ++ p_key ++ p_mac).
  { unfold triple_body. by rewrite <- Hm, <- Hk, !firstn_all. }
  rewrite Eb in Hw. set (body := le32 p_pid ++ p_key ++ p_mac) in *.
  assert (Hbl : length body = 26%nat) by (unfold body; rewrite !length_app, Hm, Hk; done).
  assert (Hbb : all_u8 body) by (unfold body; repeat apply Forall_app_2; done || apply le32_bytes).
  set (c := genie_crc16_compute body (Some crc_magic)) in *.
  assert (Hc : is_u16 c) by apply crc16_range, crc_magic_u16.
  assert (Hr : forall t, genie_triple_read data t s' = (GENIE_STORAGE_SUCCESS, mkTriple p_pid p_key p_mac)).
  { intros t'. unfold genie_triple_read.
    rewrite (write_read_reliable GFI_MESH_TRITUPLE (body ++ le16 c) 28 s s' data); cycle 1.
    - rewrite length_app, Hbl. done.
    - lia.
    - apply Forall_app_2; [done | apply le16_u8].
    - exact Hw.
    - exact Hmal.
    - rewrite memcpy_all by (rewrite length_app, Hbl, Hd; done). change (GENIE_STORAGE_SUCCESS =? GENIE_STORAGE_SUCCESS) with true.
      cbn [negb]. cbv iota zeta. change (GENIE_SIZE_TRI_TRUPLE - GENIE_TRIPLE_CRC_LEN)%nat with 26%nat.
      destruct (crc_fields body c Hc) as [Ef Eg]. rewrite Hbl in Ef, Eg. change (26 + 1)%nat with 27%nat in Eg.
      rewrite Ef, Eg. fold c. rewrite Z.eqb_refl. cbn [negb]. f_equal. unfold body, GENIE_TRIPLE_PID_SIZE.
      rewrite <- !app_assoc, of_le32_app by done.
      change (drop 4 (le32 p_pid ++ p_key ++ p_mac ++ le16 c)) with (p_key ++ p_mac ++ le16 c).
      change (drop (4 + GENIE_TRIPLE_KEY_SIZE) (le32 p_pid ++ p_key ++ p_mac ++ le16 c)) with (drop GENIE_TRIPLE_KEY_SIZE (p_key ++ p_mac ++ le16 c)).
      by rewrite <- Hk, <- Hm, drop_app_length, !take_app_length. }
  split; [apply Hr|]. unfold genie_triple_init. by rewrite Hr.
Qed.

End Claims.

(** The sample values of the witnesses. *)
Definition sample_key : list Z := map Z.of_nat (seq 1 16).
Definition sample_mac : list Z := [248; 167; 99; 1; 2; 3].

Lemma reliable_roundtrip_witness :
  let s' := snd (genie_storage_write_reliable GFI_MESH_DEVKEY (Some sample_key) 16 blank) in
  genie_storage_read_reliable GFI_MESH_DEVKEY (Some (repeat 9 16)) 16 s' = (GENIE_STORAGE_SUCCESS, Some (memcpy (repeat 9 16) sample_key)) /\
  (forall j buf, is_u16 GFI_MESH_DEVKEY → is_u16 j → GFI_MESH_DEVKEY ≠ GFI_MESH_TRITUPLE → j ≠ GFI_MESH_DEVKEY →
     genie_kv_read j buf s' = genie_kv_read j buf blank).
Proof.
  intros s'. apply (reliable_roundtrip GFI_MESH_DEVKEY sample_key 16 blank s' (repeat 9 16)).
  - reflexivity.
  - lia.
  - unfold sample_key, all_u8. cbn. repeat constructor; lia.
  - vm_compute. reflexivity.
  - discriminate.
Defined.

Lemma sub_store_witness :
  let p_sub := [49152; 49153; 49154; 0; 0; 0; 0; 53248] in
  let s' := snd (genie_storage_write_sub p_sub blank) in
  let s2 := mkStorage (mkGflash ∅ [] (1 :: drop 1 (sub_image p_sub)) true 0 7) (repeat 0 16) 0 in
  genie_storage_read_sub [] s' = (GENIE_STORAGE_SUCCESS, p_sub) /\ genie_storage_read_sub [] s2 = (GENIE_STORAGE_READ_FAIL, []).
Proof.
  intros p_sub s' s2. apply (sub_store p_sub [] blank s' s2 [] 0 1 (drop 1 (sub_image p_sub))).
  - reflexivity.
  - unfold p_sub. repeat constructor; lia.
  - vm_compute. reflexivity.
  - vm_compute. reflexivity.
  - discriminate.
  - lia.
  - vm_compute. reflexivity.
Defined.

Lemma triple_roundtrip_witness :
  let s' := snd (genie_triple_write 1234567 sample_mac sample_key blank) in
  genie_triple_read (repeat 0 28) (mkTriple 0 [] []) s' = (GENIE_STORAGE_SUCCESS, mkTriple 1234567 sample_key sample_mac) /\
  genie_triple_init (repeat 0 28) s' = (0, mkTriple 1234567 sample_key sample_mac).
Proof.
  intros s'. apply (triple_roundtrip 1234567 sample_mac sample_key (repeat 0 28) (mkTriple 0 [] []) blank s').
  - lia.
  - reflexivity.
  - reflexivity.
  - unfold sample_mac, all_u8. repeat constructor; lia.
  - unfold sample_key, all_u8. cbn. repeat constructor; lia.
  - reflexivity.
  - vm_compute. reflexivity.
  - discriminate.
Defined.
