(* ===== verification/KvStore.v ===== *)
(** * KvStore: the key-value store on flash (kernel/rhino/fs/kv/kvmgr.c)

    The log-structured store behind [aos_kv_set] and [aos_kv_get], on the bytes of its
    partition.  The configuration is that of kv_conf.h: two blocks of 4096 bytes, one
    of them reserved for garbage collection, 16-bit positions, 32-bit pointers.  With
    two blocks the search loop of [kv_calc_position] is not compiled.

    The flash is NOR flash: erasing sets the bits of a block, programming clears bits.
    Every program and erase operation is logged, so that the state of the flash after
    a power failure is what a prefix of the log leaves.  [faults] says which of the
    coming allocations and flash operations fail; when it is empty they succeed.
    The functions run under the mutex of the module and are atomic; the garbage
    collection task is [kv_gc_task], pending while [gc_trigger] is set. *)
From Stdlib Require Import ZArith Lia List Bool.
From stdpp Require Import base list numbers option.
From S2P Require Import Prelude Env Aes Storage.
Local Open Scope Z_scope.

(** ** Constants of kv_conf.h and kv_defs.h *)

Definition KV_TOTAL_SIZE : Z := 8 * 1024.
Definition BLK_BITS : Z := 12.
Definition BLK_SIZE : Z := Z.shiftl 1 BLK_BITS.
Definition BLK_NUMS : nat := Z.to_nat (Z.shiftr KV_TOTAL_SIZE BLK_BITS).
Definition BLK_HDR_SIZE : Z := 4.
Definition BLK_STATE_USED : Z := 204.  (* 0xCC *)
Definition BLK_STATE_CLEAN : Z := 238. (* 0xEE *)
Definition BLK_STATE_DIRTY : Z := 68.  (* 0x44 *)
Definition ITEM_HDR_SIZE : Z := 8.
Definition ITEM_MAX_KEY_LEN : Z := 128.
Definition ITEM_MAX_VAL_LEN : Z := 512.
Definition ITEM_MAX_LEN : Z := ITEM_HDR_SIZE + ITEM_MAX_KEY_LEN + ITEM_MAX_VAL_LEN.
Definition ITEM_STATE_NORMAL : Z := 238. (* 0xEE *)
Definition ITEM_STATE_DELETE : Z := 0.
Definition KV_STATE_OFF : Z := 1.
Definition KV_GC_RESERVED : Z := 1.
Definition BLK_MAGIC_NUM : Z := 75.  (* 'K' *)
Definition ITEM_MAGIC_NUM : Z := 73. (* 'I' *)
Definition RES_CONT : Z := -1.
Definition RES_INVALID_PARAM : Z := -3.
Definition RES_MALLOC_FAILED : Z := -4.
Definition RES_FLASH_READ_ERR : Z := -6.
Definition RES_FLASH_WRITE_ERR : Z := -7.
Definition RES_FLASH_EARSE_ERR : Z := -8.

Definition INVALID_BLK_STATE (st : Z) : bool :=
  negb (st =? BLK_STATE_USED) && negb (st =? BLK_STATE_CLEAN) && negb (st =? BLK_STATE_DIRTY).

(** Rounds up to the size of a pointer. *)
Definition KV_ALIGN (x : Z) : Z := 4 * ((x + 3) / 4).

(** ** State *)

Record item_hdr_t := mkHdr { h_magic : Z; h_state : Z; h_crc : Z; h_key_len : Z; h_val_len : Z; h_origin_off : Z }.
Record kv_item_t := mkItem { i_hdr : item_hdr_t; i_store : list Z; i_len : Z; i_pos : Z }.
Record block_info_t := mkBi { bi_space : Z; bi_state : Z }.

(** An operation that changed the flash. *)
Inductive flash_op := Program (off : Z) (bytes : list Z) | Erase (off size : Z).

(** [g_kv_mgr], the partition, the log, the coming failures, and the byte fresh
    memory holds. *)
Record kv := mkKv {
  inited : Z; gc_trigger : Z; gc_waiter : Z; clean_blk_nums : Z; write_pos : Z; block_info : list block_info_t;
  part : list Z; flog : list flash_op; faults : list bool; uninit : Z }.

Definition with_gc (t w : Z) (s : kv) : kv := mkKv (inited s) t w (clean_blk_nums s) (write_pos s) (block_info s) (part s) (flog s) (faults s) (uninit s).
Definition with_clean (n : Z) (s : kv) : kv := mkKv (inited s) (gc_trigger s) (gc_waiter s) n (write_pos s) (block_info s) (part s) (flog s) (faults s) (uninit s).
Definition with_write_pos (p : Z) (s : kv) : kv := mkKv (inited s) (gc_trigger s) (gc_waiter s) (clean_blk_nums s) p (block_info s) (part s) (flog s) (faults s) (uninit s).
Definition with_info (l : list block_info_t) (s : kv) : kv := mkKv (inited s) (gc_trigger s) (gc_waiter s) (clean_blk_nums s) (write_pos s) l (part s) (flog s) (faults s) (uninit s).
Definition with_faults (l : list bool) (s : kv) : kv := mkKv (inited s) (gc_trigger s) (gc_waiter s) (clean_blk_nums s) (write_pos s) (block_info s) (part s) (flog s) l (uninit s).
Definition with_inited (v : Z) (s : kv) : kv := mkKv v (gc_trigger s) (gc_waiter s) (clean_blk_nums s) (write_pos s) (block_info s) (part s) (flog s) (faults s) (uninit s).

Definition bi (i : Z) (s : kv) : block_info_t := nth (Z.to_nat i) (block_info s) (mkBi 0 0).
Definition set_bi (i : Z) (b : block_info_t) (s : kv) : kv := with_info (<[Z.to_nat i := b]> (block_info s)) s.
Definition set_space (i v : Z) (s : kv) : kv := set_bi i (mkBi v (bi_state (bi i s))) s.
Definition set_bstate (i v : Z) (s : kv) : kv := set_bi i (mkBi (bi_space (bi i s)) v) s.

(** ** The flash *)

Definition rd (off n : Z) (p : list Z) : list Z := take (Z.to_nat n) (drop (Z.to_nat off) p).
Definition splice (off : Z) (b p : list Z) : list Z :=
  take (Z.to_nat off) p ++ b ++ drop (Z.to_nat off + length b) p.
Definition program (off : Z) (b p : list Z) : list Z := splice off (zip_with Z.land (rd off (Z.of_nat (length b)) p) b) p.

Definition apply_op (o : flash_op) (p : list Z) : list Z :=
  match o with
  | Program off b => program off b p
  | Erase off n => splice off (repeat 255 (Z.to_nat n)) p
  end.
Definition do_op (o : flash_op) (s : kv) : kv :=
  mkKv (inited s) (gc_trigger s) (gc_waiter s) (clean_blk_nums s) (write_pos s) (block_info s)
    (apply_op o (part s)) (flog s ++ [o]) (faults s) (uninit s).

(** Whether the next allocation or flash operation succeeds. *)
Definition next_ok (s : kv) : bool * kv :=
  match faults s with [] => (true, s) | b :: l => (negb b, with_faults l s) end.

(** kv_osal.c, over [hal_flash_read], [hal_flash_write] and [hal_flash_erase]: a range
    that leaves the partition is refused. *)
Definition kv_os_partition_read (off n : Z) (s : kv) : option (list Z) * kv :=
  let '(ok, s) := next_ok s in
  if ok && (off + n <=? KV_TOTAL_SIZE) then (Some (rd off n (part s)), s) else (None, s).
Definition kv_os_partition_write (off : Z) (b : list Z) (s : kv) : Z * kv :=
  let '(ok, s) := next_ok s in
  if ok && (off + Z.of_nat (length b) <=? KV_TOTAL_SIZE) then (RES_OK, do_op (Program off b) s) else (-1, s).
Definition kv_os_partition_erase (off n : Z) (s : kv) : Z * kv :=
  let '(ok, s) := next_ok s in
  if ok && (off + n <=? KV_TOTAL_SIZE) then (RES_OK, do_op (Erase off n) s) else (-1, s).
Definition kv_os_malloc (n : Z) (s : kv) : option (list Z) * kv :=
  let '(ok, s) := next_ok s in
  if ok then (Some (repeat (uninit s) (Z.to_nat n)), s) else (None, s).

(** ** kvmgr.c *)

Fixpoint crc8_bits (n : nat) (crc : Z) : Z :=
  match n with
  | O => crc
  | S n => crc8_bits n (if truthy (Z.land crc 128) then u8 (Z.lxor (Z.shiftl crc 1) 49) else u8 (Z.shiftl crc 1))
  end.
Definition calc_crc8 (buf : list Z) : Z := fold_left (λ crc b, crc8_bits 8 (Z.lxor crc b)) buf 0.

Definition kv_trigger_gc (s : kv) : kv := if truthy (gc_trigger s) then s else with_gc 1 0 s.

Definition kv_state_set (pos st : Z) (s : kv) : Z * kv := kv_os_partition_write (pos + KV_STATE_OFF) [st] s.

(** The start of a block. *)
Definition blk_pos (i : Z) : Z := Z.shiftl i BLK_BITS.
Definition blk_of (pos : Z) : Z := u8 (Z.shiftr pos BLK_BITS).

Definition kv_block_format (i : Z) (s : kv) : Z * kv :=
  let pos := u16 (blk_pos i) in
  let '(r, s) := kv_os_partition_erase pos BLK_SIZE s in
  if truthy r then (RES_FLASH_EARSE_ERR, s) else
  let '(r, s) := kv_os_partition_write pos [BLK_MAGIC_NUM; BLK_STATE_CLEAN; 0; 0] s in
  if truthy r then (RES_FLASH_WRITE_ERR, s) else
  (RES_OK, with_clean (u8 (clean_blk_nums s + 1)) (set_bi i (mkBi (BLK_SIZE - BLK_HDR_SIZE) BLK_STATE_CLEAN) s)).

(** The position to write at; 0 is none. *)
Definition kv_calc_position (len : Z) (s : kv) : Z * kv :=
  let b := bi (blk_of (write_pos s)) s in
  if bi_space b >? len then
    (write_pos s,
     if (bi_space b - len <? ITEM_MAX_LEN) && (clean_blk_nums s <=? KV_GC_RESERVED) then kv_trigger_gc s else s)
  else (0, kv_trigger_gc s).

(** An item header from its bytes, and back. *)
Definition hdr_of (b : list Z) : item_hdr_t :=
  mkHdr (nth 0 b 0) (nth 1 b 0) (nth 2 b 0) (nth 3 b 0) (get_le16 (nth 4 b 0) (nth 5 b 0)) (get_le16 (nth 6 b 0) (nth 7 b 0)).
Definition hdr_image (h : item_hdr_t) : list Z :=
  [h_magic h; h_state h; h_crc h; h_key_len h] ++ le16 (h_val_len h) ++ le16 (h_origin_off h).

Definition list_eqb (a b : list Z) : bool := bool_decide (a = b).

(** Marks an item, and its block, at [off]. *)
Definition del_at (off : Z) (s : kv) : Z * kv :=
  let '(res, s) := kv_state_set off ITEM_STATE_DELETE s in
  if truthy res then (res, s) else
  let i := blk_of off in
  if bi_state (bi i s) =? BLK_STATE_USED then
    let '(res, s) := kv_state_set (blk_pos i) BLK_STATE_DIRTY s in
    if truthy res then (res, s) else (res, set_bstate i BLK_STATE_DIRTY s)
  else (res, s).

(** [kv_item_del(item, KV_DELETE_REMOVE)]. *)
Definition kv_item_del (it : kv_item_t) (s : kv) : Z * kv := del_at (i_pos it) s.

(** [kv_item_del(item, KV_UPDATE_REMOVE)]: the item at the origin offset, if it is a
    live item of the same key.  The results of the two key reads are not looked at. *)
Definition kv_item_del_origin (it : kv_item_t) (s : kv) : Z * kv :=
  let off := h_origin_off (i_hdr it) in
  let '(b, s) := kv_os_partition_read off ITEM_HDR_SIZE s in
  match b with
  | None => (RES_FLASH_READ_ERR, s)
  | Some b =>
    let hdr := hdr_of b in
    if negb (h_magic hdr =? ITEM_MAGIC_NUM) || negb (h_state hdr =? ITEM_STATE_NORMAL)
       || negb (h_key_len hdr =? h_key_len (i_hdr it)) then (RES_OK, s) else
    let '(ori_key, s) := kv_os_malloc (h_key_len hdr) s in
    match ori_key with
    | None => (RES_MALLOC_FAILED, s)
    | Some ori_key =>
      let '(new_key, s) := kv_os_malloc (h_key_len hdr) s in
      match new_key with
      | None => (RES_MALLOC_FAILED, s)
      | Some new_key =>
        let '(o, s) := kv_os_partition_read (off + ITEM_HDR_SIZE) (h_key_len hdr) s in
        let '(n, s) := kv_os_partition_read (i_pos it + ITEM_HDR_SIZE) (h_key_len hdr) s in
        if negb (list_eqb (default ori_key o) (default new_key n)) then (RES_OK, s) else del_at off s
      end
    end
  end.

(** The callbacks of the traversal: result code, item, state. *)

Definition __item_recovery_cb (it : kv_item_t) (s : kv) : Z * kv_item_t * kv :=
  let '(p, s) := kv_os_malloc (i_len it) s in
  match p with
  | None => (RES_MALLOC_FAILED, it, s)
  | Some _ =>
    let '(b, s) := kv_os_partition_read (i_pos it + ITEM_HDR_SIZE) (i_len it) s in
    match b with
    | None => (RES_FLASH_READ_ERR, it, s)
    | Some b =>
      let s :=
        if h_crc (i_hdr it) =? calc_crc8 b then
          if truthy (h_origin_off (i_hdr it)) && negb (i_pos it =? h_origin_off (i_hdr it))
          then snd (kv_item_del_origin it s) else s
        else snd (kv_item_del it s) in
      (RES_CONT, it, s)
    end
  end.

Definition with_store (b : list Z) (it : kv_item_t) : kv_item_t := mkItem (i_hdr it) b (i_len it) (i_pos it).

Definition __item_find_cb (key : list Z) (it : kv_item_t) (s : kv) : Z * kv_item_t * kv :=
  if negb (h_key_len (i_hdr it) =? Z.of_nat (length key)) then (RES_CONT, it, s) else
  let '(p, s) := kv_os_malloc (h_key_len (i_hdr it) + h_val_len (i_hdr it)) s in
  match p with
  | None => (RES_MALLOC_FAILED, it, s)
  | Some _ =>
    let '(b, s) := kv_os_partition_read (i_pos it + ITEM_HDR_SIZE) (i_len it) s in
    match b with
    | None => (RES_FLASH_READ_ERR, it, s)
    | Some b =>
      let it := with_store b it in
      (if list_eqb (take (length key) b) key then RES_OK else RES_CONT, it, s)
    end
  end.

Definition __item_gc_cb (it : kv_item_t) (s : kv) : Z * kv_item_t * kv :=
  let len := u16 (KV_ALIGN (ITEM_HDR_SIZE + i_len it)) in
  let '(p, s) := kv_os_malloc len s in
  match p with
  | None => (RES_MALLOC_FAILED, it, s)
  | Some _ =>
    let '(b, s) := kv_os_partition_read (i_pos it) len s in
    match b with
    | None => (RES_FLASH_READ_ERR, it, s)
    | Some b =>
      let '(r, s) := kv_os_partition_write (write_pos s) b s in
      if truthy r then (RES_FLASH_WRITE_ERR, it, s) else
      let s := with_write_pos (u16 (write_pos s + len)) s in
      let idx := blk_of (write_pos s) in
      (RES_CONT, it, set_space idx (u16 (bi_space (bi idx s) - len)) s)
    end
  end.

(** Whether the key of the item starts with [prefix]: [strncmp] on the key bytes
    followed by a null byte. *)
Definition key_has_prefix (prefix key : list Z) : bool := list_eqb (take (length prefix) key) prefix.

Definition __item_del_by_prefix_cb (prefix : list Z) (it : kv_item_t) (s : kv) : Z * kv_item_t * kv :=
  if h_key_len (i_hdr it) <? Z.of_nat (length prefix) then (RES_CONT, it, s) else
  let '(p, s) := kv_os_malloc (h_key_len (i_hdr it) + 1) s in
  match p with
  | None => (RES_MALLOC_FAILED, it, s)
  | Some _ =>
    let '(b, s) := kv_os_partition_read (i_pos it + ITEM_HDR_SIZE) (h_key_len (i_hdr it)) s in
    let key := default (repeat 0 (Z.to_nat (h_key_len (i_hdr it)))) b in
    (RES_CONT, it, if key_has_prefix prefix key then snd (kv_item_del it s) else s)
  end.

Definition __item_del_all_cb (ex_prefix : option (list Z)) (it : kv_item_t) (s : kv) : Z * kv_item_t * kv :=
  if h_key_len (i_hdr it) >? 0 then
    match ex_prefix with
    | None => (RES_CONT, it, snd (kv_item_del it s))
    | Some prefix =>
      if h_key_len (i_hdr it) <? Z.of_nat (length prefix) then (RES_CONT, it, snd (kv_item_del it s)) else
      let '(p, s) := kv_os_malloc (h_key_len (i_hdr it) + 1) s in
      match p with
      | None => (RES_MALLOC_FAILED, it, s)
      | Some _ =>
        let '(b, s) := kv_os_partition_read (i_pos it + ITEM_HDR_SIZE) (h_key_len (i_hdr it)) s in
        let key := default (repeat 0 (Z.to_nat (h_key_len (i_hdr it)))) b in
        (RES_CONT, it, if negb (key_has_prefix prefix key) then snd (kv_item_del it s) else s)
      end
    end
  else (RES_CONT, it, s).

(** How a traversal ends: with an item, early, or at the position behind the items. *)
Inductive traversal := Found (it : kv_item_t) | Stopped | Done (pos : Z).

Definition mark_dirty (i : Z) (s : kv) : kv :=
  if bi_state (bi i s) =? BLK_STATE_USED
  then set_bstate i BLK_STATE_DIRTY (snd (kv_state_set (blk_pos i) BLK_STATE_DIRTY s)) else s.

(** The loop of [kv_item_traverse] from [pos] on; each round advances by at least the
    size of a header, so a block needs at most 512 rounds. *)
Fixpoint traverse_loop (fuel : nat) (func : kv_item_t → kv → Z * kv_item_t * kv) (i pos : Z) (s : kv) : traversal * kv :=
  let next fuel pos s :=
    if blk_pos i + BLK_SIZE >? pos + ITEM_HDR_SIZE then traverse_loop fuel func i pos s else (Done pos, s) in
  match fuel with
  | O => (Stopped, s)
  | S fuel =>
    let '(m, s) := kv_os_malloc 20 s in
    match m with
    | None => (Stopped, s)
    | Some _ =>
      let '(b, s) := kv_os_partition_read pos ITEM_HDR_SIZE s in
      match b with
      | None => (Stopped, s)
      | Some b =>
        let hdr := hdr_of b in
        if negb (h_magic hdr =? ITEM_MAGIC_NUM) && (h_magic hdr =? 255) && (h_state hdr =? 255) then (Done pos, s) else
        let val_len := if h_magic hdr =? ITEM_MAGIC_NUM then h_val_len hdr else 65535 in
        if (val_len >? ITEM_MAX_VAL_LEN) || (h_key_len hdr >? ITEM_MAX_KEY_LEN) || (val_len =? 0) || (h_key_len hdr =? 0)
        then next fuel (u16 (pos + ITEM_HDR_SIZE)) (mark_dirty i s)
        else
          let len := u16 (KV_ALIGN (ITEM_HDR_SIZE + h_key_len hdr + val_len)) in
          if h_state hdr =? ITEM_STATE_NORMAL then
            let '(res, it, s) := func (mkItem hdr [] (u16 (h_key_len hdr + val_len)) pos) s in
            if res =? RES_OK then (Found it, s)
            else if negb (res =? RES_CONT) then (Stopped, s)
            else next fuel (u16 (pos + len)) s
          else next fuel (u16 (pos + len)) (mark_dirty i s)
      end
    end
  end.

Definition kv_item_traverse (func : kv_item_t → kv → Z * kv_item_t * kv) (i : Z) (s : kv) : option kv_item_t * kv :=
  match traverse_loop 512 func i (u16 (blk_pos i + BLK_HDR_SIZE)) s with
  | (Found it, s) => (Some it, s)
  | (Stopped, s) => (None, s)
  | (Done pos, s) =>
    let e := blk_pos i + BLK_SIZE in
    (None, set_space i (if e >? pos then u16 (e - pos) else ITEM_HDR_SIZE) s)
  end.

(** The loop over the blocks from [i] on. *)
Fixpoint item_get_from (n : nat) (i : Z) (key : list Z) (s : kv) : option kv_item_t * kv :=
  match n with
  | O => (None, s)
  | S n =>
    if negb (bi_state (bi i s) =? BLK_STATE_CLEAN) then
      match kv_item_traverse (__item_find_cb key) i s with
      | (Some it, s) => (Some it, s)
      | (None, s) => item_get_from n (i + 1) key s
      end
    else item_get_from n (i + 1) key s
  end.
Definition kv_item_get (key : list Z) (s : kv) : option kv_item_t * kv := item_get_from BLK_NUMS 0 key s.

(** The bytes [kv_item_store] writes. *)
Definition item_image (key val : list Z) (origin : Z) : list Z :=
  let key_len := u8 (Z.of_nat (length key)) in
  let val_len := u16 (Z.of_nat (length val)) in
  let len := u16 (KV_ALIGN (ITEM_HDR_SIZE + key_len + val_len)) in
  let body := key ++ val in
  let b := hdr_image (mkHdr ITEM_MAGIC_NUM ITEM_STATE_NORMAL (calc_crc8 body) key_len val_len origin) ++ body in
  b ++ repeat 0 (Z.to_nat len - length b).

Definition kv_item_store (key val : list Z) (origin : Z) (s : kv) : Z * kv :=
  let b := item_image key val origin in
  let len := Z.of_nat (length b) in
  let '(p, s) := kv_os_malloc len s in
  match p with
  | None => (RES_MALLOC_FAILED, s)
  | Some _ =>
    let '(pos, s) := kv_calc_position len s in
    if pos >? 0 then
      let '(r, s) := kv_os_partition_write pos b s in
      if r =? RES_OK then
        let s := with_write_pos (u16 (pos + len)) s in
        let idx := blk_of (write_pos s) in
        (r, set_space idx (u16 (bi_space (bi idx s) - len)) s)
      else (r, s)
    else (RES_NO_SPACE, s)
  end.

Definition kv_item_update (it : kv_item_t) (key val : list Z) (s : kv) : Z * kv :=
  if (h_val_len (i_hdr it) =? Z.of_nat (length val)) && list_eqb (drop (Z.to_nat (h_key_len (i_hdr it))) (i_store it)) val
  then (RES_OK, s) else
  let '(res, s) := kv_item_store key val (i_pos it) s in
  if truthy res then (res, s) else kv_item_del it s.

(** First loop of [kv_init]: formats or recovers the blocks from [i] on; gives the
    blocks that are marked clean but hold data. *)
Fixpoint init_blocks (n : nat) (i : Z) (unclean : list Z) (s : kv) : Z * list Z * kv :=
  let format k s := let '(res, s) := kv_block_format i s in if truthy res then (res, unclean, s) else k s in
  match n with
  | O => (RES_OK, unclean, s)
  | S n =>
    let '(b, s) := kv_os_partition_read (blk_pos i) BLK_HDR_SIZE s in
    let b := default (repeat 0 4) b in
    let st := nth 1 b 0 in
    if nth 0 b 0 =? BLK_MAGIC_NUM then
      if INVALID_BLK_STATE st then format (init_blocks n (i + 1) unclean) s
      else
        let s := set_bstate i st s in
        let '(_, s) := kv_item_traverse __item_recovery_cb i s in
        if st =? BLK_STATE_CLEAN then
          if negb (bi_space (bi i s) =? BLK_SIZE - BLK_HDR_SIZE) then init_blocks n (i + 1) (i :: unclean) s
          else init_blocks n (i + 1) unclean (with_clean (u8 (clean_blk_nums s + 1)) s)
        else init_blocks n (i + 1) unclean s
    else format (init_blocks n (i + 1) unclean) s
  end.

(** Second loop, over the last found first. *)
Fixpoint init_unclean (unclean : list Z) (s : kv) : Z * kv :=
  match unclean with
  | [] => (RES_OK, s)
  | i :: unclean =>
    if clean_blk_nums s >=? KV_GC_RESERVED then
      let '(res, s) := kv_state_set (blk_pos i) BLK_STATE_DIRTY s in
      if truthy res then (res, s) else init_unclean unclean (set_bstate i BLK_STATE_DIRTY s)
    else
      let '(res, s) := kv_block_format i s in
      if truthy res then (res, s) else init_unclean unclean s
  end.

(** The search for the write position. *)
Fixpoint init_write_pos (n : nat) (i : Z) (s : kv) : kv :=
  match n with
  | O => s
  | S n =>
    let st j := bi_state (bi j s) in
    let next := if i + 1 =? Z.of_nat BLK_NUMS then 0 else i + 1 in
    if ((st i =? BLK_STATE_USED) || (st i =? BLK_STATE_DIRTY)) && (st next =? BLK_STATE_CLEAN)
    then with_write_pos (u16 (blk_pos i + BLK_SIZE - bi_space (bi i s))) s
    else init_write_pos n (i + 1) s
  end.

Definition kv_init (s : kv) : Z * kv :=
  let '(res, unclean, s) := init_blocks BLK_NUMS 0 [] s in
  if truthy res then (res, s) else
  let '(res, s) := init_unclean unclean s in
  if truthy res then (res, s) else
  let '(res, s) := if clean_blk_nums s =? 0 then kv_block_format 0 s else (RES_OK, s) in
  if truthy res then (res, s) else
  if clean_blk_nums s =? Z.of_nat BLK_NUMS then
    let s := with_write_pos BLK_HDR_SIZE s in
    let '(r, s) := kv_state_set 0 BLK_STATE_USED s in
    (RES_OK, if truthy r then s else with_clean (u8 (clean_blk_nums s - 1)) (set_bstate 0 BLK_STATE_USED s))
  else (RES_OK, init_write_pos BLK_NUMS 0 s).

(** The first clean block from [i] on. *)
Fixpoint find_clean (n : nat) (i : Z) (s : kv) : option Z :=
  match n with
  | O => None
  | S n => if bi_state (bi i s) =? BLK_STATE_CLEAN then Some i else find_clean n (i + 1) s
  end.

(** The while loop of [kv_gc_task]: the first dirty block from [i] on, up to the
    block [b] of the old write position. *)
Fixpoint find_dirty (n : nat) (i b : Z) (s : kv) : option Z :=
  match n with
  | O => None
  | S n =>
    let i := if i =? Z.of_nat BLK_NUMS then 0 else i in
    if bi_state (bi i s) =? BLK_STATE_DIRTY then Some i
    else if i =? b then None else find_dirty n (i + 1) b s
  end.

(** The body of [kv_gc_task] under the mutex. *)
Definition gc_collect (s : kv) : kv :=
  let origin_pos := write_pos s in
  if clean_blk_nums s =? 0 then s else
  match find_clean BLK_NUMS 0 s with
  | None => s
  | Some gc_idx =>
    let s := with_write_pos (u16 (blk_pos gc_idx + BLK_HDR_SIZE)) s in
    match find_dirty (S BLK_NUMS) (Z.shiftr origin_pos BLK_BITS + 1) (Z.shiftr origin_pos BLK_BITS) s with
    | None => with_write_pos origin_pos s
    | Some i =>
      let '(_, s) := kv_item_traverse __item_gc_cb i s in
      let '(r, s) := kv_block_format i s in
      if truthy r then s else
      let '(_, s) := kv_state_set (blk_pos (Z.shiftr (write_pos s) BLK_BITS)) BLK_STATE_USED s in
      with_clean (u8 (clean_blk_nums s - 1)) (set_bstate gc_idx BLK_STATE_USED s)
    end
  end.

Definition kv_gc_task (s : kv) : kv := let s := gc_collect s in with_gc 0 (gc_waiter s) s.

Definition aos_kv_del (key : list Z) (s : kv) : Z * kv :=
  match kv_item_get key s with
  | (None, s) => (RES_ITEM_NOT_FOUND, s)
  | (Some it, s) => kv_item_del it s
  end.

Fixpoint traverse_blocks (n : nat) (func : kv_item_t → kv → Z * kv_item_t * kv) (i : Z) (s : kv) : kv :=
  match n with O => s | S n => traverse_blocks n func (i + 1) (snd (kv_item_traverse func i s)) end.

Definition aos_kv_del_by_prefix (prefix : list Z) (s : kv) : Z * kv :=
  (RES_OK, traverse_blocks BLK_NUMS (__item_del_by_prefix_cb prefix) 0 s).
Definition aos_kv_del_all (ex_prefix : option (list Z)) (s : kv) : Z * kv :=
  (RES_OK, traverse_blocks BLK_NUMS (__item_del_all_cb ex_prefix) 0 s).

(** A pending collection runs before the store: the caller waits for it. *)
Definition gc_wait (s : kv) : kv :=
  if truthy (gc_trigger s) then kv_gc_task (with_gc (gc_trigger s) (u8 (gc_waiter s + 1)) s) else s.

Definition aos_kv_set (key val : list Z) (s : kv) : Z * kv :=
  let len := Z.of_nat (length val) in
  if (len <=? 0) || (Z.of_nat (length key) >? ITEM_MAX_KEY_LEN) || (len >? ITEM_MAX_VAL_LEN)
  then (RES_INVALID_PARAM, s) else
  match kv_item_get key (gc_wait s) with
  | (Some it, s) => kv_item_update it key val s
  | (None, s) => kv_item_store key val 0 s
  end.

(** What [aos_kv_get] finds: the value of the key. *)
Definition kv_lookup (key : list Z) (s : kv) : option (list Z) * kv :=
  match kv_item_get key s with
  | (Some it, s) => (Some (drop (Z.to_nat (h_key_len (i_hdr it))) (i_store it)), s)
  | (None, s) => (None, s)
  end.

Definition aos_kv_get_vlen (key : list Z) (s : kv) : Z * kv :=
  match kv_item_get key s with
  | (Some it, s) => (h_val_len (i_hdr it), s)
  | (None, s) => (0, s)
  end.

(** The module after power on with the flash [p]. *)
Definition kv_reset (p : list Z) (junk : Z) : kv :=
  mkKv 0 0 0 0 0 (repeat (mkBi 0 0) BLK_NUMS) p [] [] junk.

Definition aos_kv_init (s : kv) : Z * kv :=
  if truthy (inited s) then (RES_OK, s) else
  let '(res, s) := kv_init (mkKv 0 0 0 0 0 (repeat (mkBi 0 0) BLK_NUMS) (part s) (flog s) (faults s) (uninit s)) in
  if truthy res then (res, s) else
  let s := with_inited 1 s in
  (RES_OK,
   if (bi_space (bi (blk_of (write_pos s)) s) <? ITEM_MAX_LEN) && (clean_blk_nums s <? KV_GC_RESERVED + 1)
   then kv_trigger_gc s else s).

Definition aos_kv_deinit (s : kv) : kv := with_inited 0 s.

(** ** Examples *)

Definition erased : list Z := repeat 255 (Z.to_nat KV_TOTAL_SIZE).
Definition kv0 : kv := snd (aos_kv_init (kv_reset erased 165)).

Example kv0_ok : (write_pos kv0, clean_blk_nums kv0, block_info kv0) = (4, 1, [mkBi 4092 204; mkBi 4092 238]).
Proof. vm_compute. reflexivity. Qed.

Example set_get : let s := snd (aos_kv_set [97] [1; 2; 3] kv0) in let s := snd (aos_kv_set [98] [9] s) in
  let s := snd (aos_kv_set [97] [4; 5] s) in
  fst (kv_lookup [97] s) = Some [4; 5] /\ fst (kv_lookup [98] s) = Some [9] /\ fst (kv_lookup [99] s) = None.
Proof. vm_compute. repeat split. Qed.
