(* ===== verification/KvLog.v ===== *)
(** * KvLog: the layout of the key-value store

    A block is a header, a log of entries and erased space.  This file relates the
    bytes of the partition to lists of entries: where an entry lies, what programming
    and erasing do to the lists, and what one traversal of a block does in terms of
    its entries ([traverse_walk]), for any callback. *)
From Stdlib Require Import ZArith Lia List Bool.
From stdpp Require Import base list numbers option.
From S2P Require Import Prelude Env Aes Storage KvStore.
Local Open Scope Z_scope.

(** ** Ranges of bytes *)

Lemma rd_app a b c off n : Z.of_nat (length a) = off → Z.of_nat (length b) = n → rd off n (a ++ b ++ c) = b.
Proof. intros <- <-. unfold rd. by rewrite !Nat2Z.id, drop_app_length, take_app_length. Qed.

Lemma splice_app a b b' c off : Z.of_nat (length a) = off → length b = length b' → splice off b' (a ++ b ++ c) = a ++ b' ++ c.
Proof.
  intros <- E. unfold splice. rewrite Nat2Z.id, take_app_length, <- E, <- length_app, (app_assoc a b c), drop_app_length. done.
Qed.

Lemma program_app a b b' c off : Z.of_nat (length a) = off → length b = length b' →
  program off b' (a ++ b ++ c) = a ++ zip_with Z.land b b' ++ c.
Proof.
  intros H E. unfold program. rewrite (rd_app a b c off) by (done || lia). apply splice_app; [done|].
  rewrite length_zip_with. lia.
Qed.

Lemma length_splice off b p : 0 <= off → Z.of_nat (length b) + off <= Z.of_nat (length p) → length (splice off b p) = length p.
Proof. intros H1 H2. unfold splice. rewrite !length_app, length_take, length_drop. lia. Qed.

(** Programming erased bytes writes them. *)
Lemma land_255_byte x : is_u8 x → Z.land 255 x = x.
Proof. intros H. change 255 with (Z.ones 8). rewrite Z.land_comm, Z.land_ones by lia. by apply Z.mod_small. Qed.

Lemma program_erased b : all_u8 b → zip_with Z.land (repeat 255 (length b)) b = b.
Proof. induction 1 as [|x b Hx Hb IH]; [done|]. cbn [length repeat zip_with]. by rewrite IH, land_255_byte. Qed.

(** ** Entries *)

Record entry := mkEntry { e_state : Z; e_key : list Z; e_val : list Z; e_origin : Z }.

Definition e_body (e : entry) : list Z := e_key e ++ e_val e.
Definition e_hdr (e : entry) : item_hdr_t :=
  mkHdr ITEM_MAGIC_NUM (e_state e) (calc_crc8 (e_body e)) (Z.of_nat (length (e_key e))) (Z.of_nat (length (e_val e))) (e_origin e).
Definition e_len (e : entry) : Z := KV_ALIGN (ITEM_HDR_SIZE + Z.of_nat (length (e_key e)) + Z.of_nat (length (e_val e))).
Definition e_pad (e : entry) : list Z := repeat 0 (Z.to_nat (e_len e - ITEM_HDR_SIZE) - length (e_body e)).
Definition e_image (e : entry) : list Z := hdr_image (e_hdr e) ++ e_body e ++ e_pad e.

Definition e_live (e : entry) : bool := e_state e =? ITEM_STATE_NORMAL.
Definition e_kill (e : entry) : entry := mkEntry ITEM_STATE_DELETE (e_key e) (e_val e) (e_origin e).

Record e_wf (e : entry) : Prop := {
  wf_key : 1 <= Z.of_nat (length (e_key e)) <= ITEM_MAX_KEY_LEN;
  wf_val : 1 <= Z.of_nat (length (e_val e)) <= ITEM_MAX_VAL_LEN;
  wf_key_bytes : all_u8 (e_key e);
  wf_val_bytes : all_u8 (e_val e);
  wf_state : e_state e = ITEM_STATE_NORMAL \/ e_state e = ITEM_STATE_DELETE;
  wf_origin : is_u16 (e_origin e) }.

Lemma e_kill_wf e : e_wf e → e_wf (e_kill e).
Proof. intros []. split; cbn; auto. Qed.

Lemma e_kill_len e : e_len (e_kill e) = e_len e.
Proof. done. Qed.

Lemma length_body e : length (e_body e) = (length (e_key e) + length (e_val e))%nat.
Proof. apply length_app. Qed.

Lemma e_len_bounds e : e_wf e → ITEM_HDR_SIZE + Z.of_nat (length (e_body e)) <= e_len e <= 648 /\ 12 <= e_len e /\ e_len e mod 4 = 0.
Proof.
  intros [Hk Hv _ _ _ _]. rewrite length_body. unfold e_len, KV_ALIGN, ITEM_HDR_SIZE, ITEM_MAX_KEY_LEN, ITEM_MAX_VAL_LEN in *. dlia.
Qed.

Lemma length_hdr h : length (hdr_image h) = 8%nat.
Proof. done. Qed.

Lemma length_image e : e_wf e → Z.of_nat (length (e_image e)) = e_len e.
Proof.
  intros W. pose proof (e_len_bounds e W) as (H1 & H2 & _). unfold e_image, e_pad. rewrite !length_app, length_hdr, repeat_length.
  unfold ITEM_HDR_SIZE in *. lia.
Qed.

Lemma crc8_byte b : is_u8 (calc_crc8 b).
Proof.
  unfold calc_crc8. assert (forall n c, (1 <= n)%nat → is_u8 (crc8_bits n c)) as Hb.
  { intros n c Hn. destruct n as [|n]; [lia|]. clear Hn. revert c. induction n as [|n IH]; intros c; cbn [crc8_bits]; [destruct (truthy _); auto with genie|].
    apply (IH (if truthy (Z.land c 128) then _ else _)). }
  destruct b as [|x b _] using rev_ind; [cbn; lia|]. rewrite fold_left_app. cbn [fold_left]. apply Hb. lia.
Qed.

Lemma image_bytes e : e_wf e → all_u8 (e_image e).
Proof.
  intros W. pose proof W as [Hk Hv Bk Bv Hs Ho]. unfold e_image, hdr_image, e_pad, e_body.
  repeat apply Forall_app_2; try (apply le16_u8 || done).
  - unfold ITEM_MAX_KEY_LEN in Hk. constructor; [cbn; unfold ITEM_MAGIC_NUM; lia|].
    constructor; [cbn; destruct Hs as [-> | ->]; unfold ITEM_STATE_NORMAL, ITEM_STATE_DELETE; lia|].
    constructor; [apply crc8_byte|]. constructor; [cbn; lia | constructor].
  - apply List.Forall_forall. intros x Hx. apply repeat_spec in Hx. subst. lia.
Qed.

Lemma hdr_of_image h rest : is_u16 (h_val_len h) → is_u16 (h_origin_off h) → hdr_of (hdr_image h ++ rest) = h.
Proof.
  intros H1 H2. destruct h as [a b c d v o]. unfold hdr_of, hdr_image. cbn [h_magic h_state h_crc h_key_len h_val_len h_origin_off le16 app nth] in *.
  by rewrite !get_le16_le16.
Qed.

(** ** Blocks *)

Definition size (es : list entry) : Z := foldr (λ e n, e_len e + n) 0 es.
Definition images (es : list entry) : list Z := concat (map e_image es).
Definition blk_image (st : Z) (es : list entry) : list Z :=
  [BLK_MAGIC_NUM; st; 0; 0] ++ images es ++ repeat 255 (Z.to_nat (4092 - size es)).

Lemma size_cons e es : size (e :: es) = e_len e + size es.
Proof. done. Qed.

Lemma size_app a b : size (a ++ b) = size a + size b.
Proof. induction a as [|e a IH]; [done|]. cbn [app]. rewrite !size_cons, IH. lia. Qed.

Lemma size_pos es : Forall e_wf es → 12 * Z.of_nat (length es) <= size es /\ size es mod 4 = 0.
Proof.
  induction 1 as [|e es He Hes IH]; [done|]. rewrite size_cons. cbn [length]. pose proof (e_len_bounds e He). dlia.
Qed.

Lemma images_app a b : images (a ++ b) = images a ++ images b.
Proof. unfold images. by rewrite map_app, concat_app. Qed.

Lemma length_images es : Forall e_wf es → Z.of_nat (length (images es)) = size es.
Proof.
  induction 1 as [|e es He Hes IH]; [done|]. unfold images in *. cbn [map concat]. rewrite length_app, size_cons, <- (length_image e He). lia.
Qed.

Lemma length_blk st es : Forall e_wf es → size es <= 4092 → length (blk_image st es) = Z.to_nat 4096.
Proof.
  intros W H. pose proof (length_images es W). pose proof (size_pos es W). unfold blk_image. rewrite !length_app, repeat_length. cbn [length]. lia.
Qed.

(** A block seen from one of its entries. *)
Lemma blk_at st pre e post : blk_image st (pre ++ e :: post) =
  ([BLK_MAGIC_NUM; st; 0; 0] ++ images pre) ++ e_image e ++ images post ++ repeat 255 (Z.to_nat (4092 - size (pre ++ e :: post))).
Proof. unfold blk_image. rewrite images_app. unfold images. cbn [map concat]. by rewrite <- !app_assoc. Qed.

(** ** The partition *)

Definition blk_desc : Type := Z * list entry.
Definition blk_ok (d : blk_desc) : Prop := Forall e_wf (snd d) /\ size (snd d) < 4092.
Definition blk_bytes (d : blk_desc) : list Z := blk_image (fst d) (snd d).

(** The bytes of two blocks, of which block [i] is [d] and the other one [o]. *)
Definition flash_of (i : Z) (d o : blk_desc) : list Z :=
  if i =? 0 then blk_bytes d ++ blk_bytes o else blk_bytes o ++ blk_bytes d.

Definition blk_index (i : Z) : Prop := i = 0 \/ i = 1.

Lemma blk_pos_eq i : blk_index i → blk_pos i = 4096 * i.
Proof. by intros [-> | ->]. Qed.

Lemma length_blk_bytes d : blk_ok d → length (blk_bytes d) = Z.to_nat 4096.
Proof. intros [H1 H2]. apply length_blk; [done | lia]. Qed.

(** The partition around block [i]. *)
Lemma flash_split i d o : blk_index i → blk_ok o → exists l r, flash_of i d o = l ++ blk_bytes d ++ r /\
  Z.of_nat (length l) = 4096 * i /\ forall d', flash_of i d' o = l ++ blk_bytes d' ++ r.
Proof.
  intros [-> | ->] O; unfold flash_of; cbn [Z.eqb].
  - exists [], (blk_bytes o). done.
  - exists (blk_bytes o), []. rewrite app_nil_r. split; [done|]. split; [rewrite length_blk_bytes by done; done|]. intros d'. by rewrite app_nil_r.
Qed.

Lemma flash_swap i d o : blk_index i → flash_of i d o = flash_of (1 - i) o d.
Proof. by intros [-> | ->]. Qed.

Lemma length_flash i d o : blk_ok d → blk_ok o → length (flash_of i d o) = Z.to_nat KV_TOTAL_SIZE.
Proof. intros H1 H2. unfold flash_of. destruct (i =? 0); rewrite length_app, !length_blk_bytes by done; done. Qed.

(** The position of an entry. *)
Definition e_pos (i : Z) (pre : list entry) : Z := 4096 * i + 4 + size pre.

Section At.
Context (i : Z) (st : Z) (pre post : list entry) (e : entry) (o : blk_desc).
Hypothesis Hi : blk_index i.
Hypothesis Ho : blk_ok o.
Hypothesis Hd : blk_ok (st, pre ++ e :: post).

Lemma at_facts : Forall e_wf pre /\ e_wf e /\ Forall e_wf post /\ Z.of_nat (length (images pre)) = size pre
  /\ 0 <= size pre /\ size pre + e_len e + size post < 4092 /\ 0 <= size post.
Proof.
  destruct Hd as [W S]. cbn [snd] in *. apply Forall_app in W as [W1 [W2 W3]%Forall_cons_1]. rewrite size_app, size_cons in S.
  pose proof (size_pos pre W1). pose proof (size_pos post W3). pose proof (length_images pre W1). split_and!; (done || lia).
Qed.

(** The bytes before, of and after the entry. *)
Lemma flash_entry : exists l r, flash_of i (st, pre ++ e :: post) o = l ++ e_image e ++ r /\ Z.of_nat (length l) = e_pos i pre
  /\ forall e', e_wf e' → e_len e' = e_len e → flash_of i (st, pre ++ e' :: post) o = l ++ e_image e' ++ r.
Proof.
  destruct at_facts as (W1 & We & W3 & L1 & S1 & S2 & S3).
  destruct (flash_split i (st, pre ++ e :: post) o Hi Ho) as (l & r & E & Ll & Eq). unfold blk_bytes in *. cbn [fst snd] in *.
  rewrite blk_at in E. exists (l ++ [BLK_MAGIC_NUM; st; 0; 0] ++ images pre), (images post ++ repeat 255 (Z.to_nat (4092 - size (pre ++ e :: post))) ++ r).
  split; [|split].
  - rewrite E. by rewrite <- !app_assoc.
  - rewrite !length_app. cbn [length]. unfold e_pos. lia.
  - intros e' W' E'. rewrite (Eq (st, pre ++ e' :: post)). cbn [fst snd]. rewrite blk_at, !size_app, !size_cons, E'. by rewrite <- !app_assoc.
Qed.

Lemma read_image : rd (e_pos i pre) (e_len e) (flash_of i (st, pre ++ e :: post) o) = e_image e.
Proof.
  destruct at_facts as (W1 & We & W3 & _). destruct flash_entry as (l & r & -> & L & _). apply rd_app; [done | by apply length_image].
Qed.

Lemma read_hdr : hdr_of (rd (e_pos i pre) ITEM_HDR_SIZE (flash_of i (st, pre ++ e :: post) o)) = e_hdr e.
Proof.
  destruct at_facts as (_ & We & _). destruct flash_entry as (l & r & -> & L & _). unfold e_image. rewrite <- app_assoc.
  rewrite (rd_app l (hdr_image (e_hdr e)) _ _ _ L) by done. rewrite <- (app_nil_r (hdr_image _)).
  pose proof We as [_ Hv _ _ _ Hor]. unfold ITEM_MAX_VAL_LEN in Hv. apply hdr_of_image; cbn; [lia | done].
Qed.

Lemma read_body : rd (e_pos i pre + ITEM_HDR_SIZE) (Z.of_nat (length (e_body e))) (flash_of i (st, pre ++ e :: post) o) = e_body e.
Proof.
  destruct flash_entry as (l & r & -> & L & _). unfold e_image. rewrite <- !app_assoc. rewrite (app_assoc l).
  apply rd_app; [rewrite length_app, length_hdr; unfold ITEM_HDR_SIZE; lia | done].
Qed.

Lemma read_key : rd (e_pos i pre + ITEM_HDR_SIZE) (Z.of_nat (length (e_key e))) (flash_of i (st, pre ++ e :: post) o) = e_key e.
Proof.
  destruct flash_entry as (l & r & -> & L & _). unfold e_image, e_body. rewrite <- !app_assoc. rewrite (app_assoc l).
  apply rd_app; [rewrite length_app, length_hdr; unfold ITEM_HDR_SIZE; lia | done].
Qed.

(** Clearing the state byte of the entry. *)
Lemma program_kill : program (e_pos i pre + KV_STATE_OFF) [ITEM_STATE_DELETE] (flash_of i (st, pre ++ e :: post) o)
  = flash_of i (st, pre ++ e_kill e :: post) o.
Proof.
  destruct at_facts as (_ & We & _). destruct flash_entry as (l & r & -> & L & Eq).
  rewrite (Eq (e_kill e)) by (done || by apply e_kill_wf). unfold e_image, hdr_image. cbn [app h_magic h_state e_hdr e_kill e_state].
  change (l ++ ITEM_MAGIC_NUM :: e_state e :: ?t) with (l ++ [ITEM_MAGIC_NUM] ++ [e_state e] ++ t).
  change (l ++ ITEM_MAGIC_NUM :: ITEM_STATE_DELETE :: ?t) with (l ++ [ITEM_MAGIC_NUM] ++ [ITEM_STATE_DELETE] ++ t).
  match goal with |- program ?x ?y (?a ++ ?b ++ ?c ++ ?d) = _ => rewrite (app_assoc a b), (program_app (a ++ b) c y d) end;
    [|rewrite length_app; cbn [length]; unfold KV_STATE_OFF; lia | done].
  cbn [zip_with]. unfold ITEM_STATE_DELETE. by rewrite Z.land_0_r, <- app_assoc.
Qed.
End At.

(** Changing the state byte of a block. *)
Lemma program_state i st st' es o : blk_index i → blk_ok o → blk_ok (st, es) → Z.land st st' = st' →
  program (4096 * i + KV_STATE_OFF) [st'] (flash_of i (st, es) o) = flash_of i (st', es) o.
Proof.
  intros Hi Ho Hd H. destruct (flash_split i (st, es) o Hi Ho) as (l & r & -> & L & Eq). rewrite (Eq (st', es)).
  unfold blk_bytes, blk_image. cbn [fst snd app].
  change (l ++ BLK_MAGIC_NUM :: st :: ?t) with (l ++ [BLK_MAGIC_NUM] ++ [st] ++ t).
  change (l ++ BLK_MAGIC_NUM :: st' :: ?t) with (l ++ [BLK_MAGIC_NUM] ++ [st'] ++ t).
  match goal with |- program ?x ?y (?a ++ ?b ++ ?c ++ ?d) = _ => rewrite (app_assoc a b), (program_app (a ++ b) c y d) end;
    [|rewrite length_app; cbn [length]; unfold KV_STATE_OFF; lia | done].
  cbn [zip_with]. by rewrite H, <- app_assoc.
Qed.

(** Appending an entry. *)
Lemma program_entry i st es e o : blk_index i → blk_ok o → blk_ok (st, es) → e_wf e → size es + e_len e <= 4092 →
  program (e_pos i es) (e_image e) (flash_of i (st, es) o) = flash_of i (st, es ++ [e]) o.
Proof.
  intros Hi Ho [W S] We Hs. cbn [snd] in *. destruct (flash_split i (st, es) o Hi Ho) as (l & r & -> & L & Eq). rewrite (Eq (st, es ++ [e])).
  unfold blk_bytes, blk_image. cbn [fst snd]. pose proof (length_images es W) as Li. pose proof (length_image e We) as Le. pose proof (size_pos es W).
  pose proof (e_len_bounds e We). rewrite images_app, size_app, size_cons. change (size []) with 0. unfold images at 3. cbn [map concat]. rewrite app_nil_r.
  replace (Z.to_nat (4092 - size es)) with (length (e_image e) + Z.to_nat (4092 - (size es + (e_len e + 0))))%nat by lia.
  rewrite repeat_app. set (c := repeat 255 (Z.to_nat _)).
  transitivity (program (e_pos i es) (e_image e) ((l ++ [BLK_MAGIC_NUM; st; 0; 0] ++ images es) ++ repeat 255 (length (e_image e)) ++ c ++ r)).
  { f_equal. by rewrite <- !app_assoc. }
  rewrite program_app; [|rewrite !length_app; cbn [length]; unfold e_pos; lia | by rewrite repeat_length].
  rewrite program_erased by (by apply image_bytes). by rewrite <- !app_assoc.
Qed.

Lemma blk_header i st es o : blk_index i → blk_ok o → rd (4096 * i) BLK_HDR_SIZE (flash_of i (st, es) o) = [BLK_MAGIC_NUM; st; 0; 0].
Proof.
  intros Hi Ho. destruct (flash_split i (st, es) o Hi Ho) as (l & r & -> & L & _). unfold blk_bytes, blk_image. cbn [fst snd].
  rewrite <- !app_assoc. by apply rd_app.
Qed.

(** The free space reads as erased. *)
Lemma read_free i st es o : blk_index i → blk_ok o → blk_ok (st, es) → size es + 8 <= 4092 →
  rd (e_pos i es) ITEM_HDR_SIZE (flash_of i (st, es) o) = repeat 255 8.
Proof.
  intros Hi Ho [W S] Hs. cbn [snd] in *. destruct (flash_split i (st, es) o Hi Ho) as (l & r & -> & L & _). unfold blk_bytes, blk_image. cbn [fst snd].
  pose proof (length_images es W). replace (Z.to_nat (4092 - size es)) with (8 + Z.to_nat (4092 - size es - 8))%nat by lia.
  rewrite repeat_app. set (c := repeat 255 (Z.to_nat _)).
  transitivity (rd (e_pos i es) ITEM_HDR_SIZE ((l ++ [BLK_MAGIC_NUM; st; 0; 0] ++ images es) ++ repeat 255 8 ++ c ++ r)).
  { f_equal. by rewrite <- !app_assoc. }
  apply rd_app; [rewrite !length_app; cbn [length]; unfold e_pos; lia | done].
Qed.

(** Formatting a block: erase, then the header. *)
Lemma erase_header i d o : blk_index i → blk_ok o → blk_ok d →
  program (4096 * i) [BLK_MAGIC_NUM; BLK_STATE_CLEAN; 0; 0] (splice (4096 * i) (repeat 255 (Z.to_nat BLK_SIZE)) (flash_of i d o))
  = flash_of i (BLK_STATE_CLEAN, []) o.
Proof.
  intros Hi Ho Hd. destruct (flash_split i d o Hi Ho) as (l & r & -> & L & Eq). rewrite (Eq (BLK_STATE_CLEAN, [])).
  rewrite splice_app by (done || (rewrite length_blk_bytes by done; by rewrite repeat_length)).
  replace (Z.to_nat BLK_SIZE) with (4 + Z.to_nat 4092)%nat by done. rewrite repeat_app, <- app_assoc.
  rewrite program_app by done. unfold blk_bytes, blk_image. cbn [fst snd images map concat app]. done.
Qed.

(** ** Traversal *)

(** Without failures, allocations and reads leave the state alone. *)
Lemma malloc_ok n s : faults s = [] → kv_os_malloc n s = (Some (repeat (uninit s) (Z.to_nat n)), s).
Proof. intros F. unfold kv_os_malloc, next_ok. by rewrite F. Qed.

Lemma read_ok off n s : faults s = [] → off + n <= KV_TOTAL_SIZE → kv_os_partition_read off n s = (Some (rd off n (part s)), s).
Proof. intros F H. unfold kv_os_partition_read, next_ok. rewrite F. cbn [andb]. by rewrite (proj2 (Z.leb_le _ _) H). Qed.

Lemma write_ok off b s : faults s = [] → off + Z.of_nat (length b) <= KV_TOTAL_SIZE →
  kv_os_partition_write off b s = (RES_OK, do_op (Program off b) s).
Proof. intros F H. unfold kv_os_partition_write, next_ok. rewrite F. cbn [andb]. by rewrite (proj2 (Z.leb_le _ _) H). Qed.

Lemma erase_ok off n s : faults s = [] → off + n <= KV_TOTAL_SIZE → kv_os_partition_erase off n s = (RES_OK, do_op (Erase off n) s).
Proof. intros F H. unfold kv_os_partition_erase, next_ok. rewrite F. cbn [andb]. by rewrite (proj2 (Z.leb_le _ _) H). Qed.

Definition loop_next (n : nat) func (i pos : Z) (s : kv) : traversal * kv :=
  if blk_pos i + BLK_SIZE >? pos + ITEM_HDR_SIZE then traverse_loop n func i pos s else (Done pos, s).

(** The item a traversal hands to its callback. *)
Definition item_at (i : Z) (pre : list entry) (e : entry) : kv_item_t :=
  mkItem (e_hdr e) [] (Z.of_nat (length (e_body e))) (e_pos i pre).

Lemma e_pos_snoc i pre e : e_pos i (pre ++ [e]) = e_pos i pre + e_len e.
Proof. unfold e_pos. rewrite size_app, size_cons. change (size []) with 0. lia. Qed.

Lemma e_len_u16 e : e_wf e → u16 (KV_ALIGN (ITEM_HDR_SIZE + h_key_len (e_hdr e) + h_val_len (e_hdr e))) = e_len e.
Proof. intros W. pose proof (e_len_bounds e W). apply u16_small. cbn. unfold e_len, ITEM_HDR_SIZE in *. lia. Qed.

Section Loop.
Context (func : kv_item_t → kv → Z * kv_item_t * kv) (i : Z) (n : nat).
Hypothesis Hi : blk_index i.

(** One round at an entry. *)
Lemma loop_entry st pre e post o s : faults s = [] → part s = flash_of i (st, pre ++ e :: post) o → blk_ok (st, pre ++ e :: post) → blk_ok o →
  traverse_loop (S n) func i (e_pos i pre) s =
  if e_live e then
    let '(res, it, s) := func (item_at i pre e) s in
    if res =? RES_OK then (Found it, s) else if negb (res =? RES_CONT) then (Stopped, s) else loop_next n func i (e_pos i (pre ++ [e])) s
  else loop_next n func i (e_pos i (pre ++ [e])) (mark_dirty i s).
Proof.
  intros F P Hd Ho. destruct (at_facts st pre post e Hd) as (W1 & We & W3 & L1 & S1 & S2 & S3). pose proof (e_len_bounds e We) as (B1 & B2 & _).
  cbn [traverse_loop]. rewrite malloc_ok by done. rewrite read_ok by (done || (destruct Hi as [-> | ->]; unfold e_pos, ITEM_HDR_SIZE, KV_TOTAL_SIZE in *; lia)).
  rewrite P, (read_hdr i st pre post e o Hi Ho Hd), e_len_u16 by done.
  pose proof We as [Hk Hv _ _ _ _]. unfold ITEM_MAX_KEY_LEN, ITEM_MAX_VAL_LEN in *.
  cbn [e_hdr h_magic h_val_len h_key_len h_state]. change (ITEM_MAGIC_NUM =? ITEM_MAGIC_NUM) with true. cbn [negb andb].
  replace ((Z.of_nat (length (e_val e)) >? 512) || (Z.of_nat (length (e_key e)) >? 128) || (Z.of_nat (length (e_val e)) =? 0)
    || (Z.of_nat (length (e_key e)) =? 0)) with false by (symmetry; rewrite !orb_false_iff; repeat split; lia).
  rewrite (u16_small (e_pos i pre + e_len e)) by (destruct Hi as [-> | ->]; unfold e_pos; lia).
  rewrite (u16_small (_ + _)) by lia. rewrite e_pos_snoc. unfold item_at. rewrite length_body, Nat2Z.inj_add. done.
Qed.

(** The round at the free space. *)
Lemma loop_end st es o s : faults s = [] → part s = flash_of i (st, es) o → blk_ok (st, es) → blk_ok o → size es + 8 <= 4092 →
  traverse_loop (S n) func i (e_pos i es) s = (Done (e_pos i es), s).
Proof.
  intros F P Hd Ho H. pose proof (size_pos es (proj1 Hd)). cbn [traverse_loop]. rewrite malloc_ok by done.
  rewrite read_ok by (done || (destruct Hi as [-> | ->]; unfold e_pos, ITEM_HDR_SIZE, KV_TOTAL_SIZE in *; lia)).
  by rewrite P, (read_free i st es o Hi Ho Hd H).
Qed.
End Loop.

(** What a traversal needs to know of the state: the block is [pre ++ rest]. *)
Definition holds (i : Z) (es : list entry) (s : kv) : Prop :=
  faults s = [] /\ exists st o, part s = flash_of i (st, es) o /\ blk_ok (st, es) /\ blk_ok o.

Section Walk.
Context (func : kv_item_t → kv → Z * kv_item_t * kv) (i : Z).
Context (P : list entry → list entry → kv → Prop) (Q : kv_item_t → kv → Prop).
Hypothesis Hi : blk_index i.
Hypothesis P_holds : forall pre rest s, P pre rest s → holds i (pre ++ rest) s.
Hypothesis P_live : forall pre e rest s, P pre (e :: rest) s → e_live e = true →
  exists res it s', func (item_at i pre e) s = (res, it, s') /\
  ((res = RES_OK /\ Q it s') \/
   (res = RES_CONT /\ exists pre' rest', length rest' = length rest /\ size pre' = size (pre ++ [e]) /\ P pre' rest' s')).
Hypothesis P_dead : forall pre e rest s, P pre (e :: rest) s → e_live e = false → P (pre ++ [e]) rest (mark_dirty i s).

(** Every traversal with enough fuel reaches an item the callback accepts, or the end
    of the log with the invariant. *)
Lemma traverse_walk n : forall pre rest s, P pre rest s → (length rest < n)%nat → (rest = [] → size pre + 8 <= 4092) →
  match traverse_loop n func i (e_pos i pre) s with
  | (Found it, s') => Q it s'
  | (Stopped, _) => False
  | (Done pos, s') => exists es, P es [] s' /\ pos = e_pos i es
  end.
Proof.
  induction n as [|n IH]; intros pre rest s HP Hn Hend; [lia|].
  pose proof (P_holds _ _ _ HP) as (F & st & o & E & Hd & Ho). destruct rest as [|e rest].
  - rewrite app_nil_r in *. rewrite (loop_end func i n Hi st pre o) by (try done; by apply Hend). by exists pre.
  - rewrite (loop_entry func i n Hi st pre e rest o) by done. cbn [length] in Hn.
    assert (forall pre' rest' s', P pre' rest' s' → length rest' = length rest → size pre' = size (pre ++ [e]) →
      match loop_next n func i (e_pos i (pre ++ [e])) s' with
      | (Found it, s') => Q it s' | (Stopped, _) => False | (Done pos, s') => exists es, P es [] s' /\ pos = e_pos i es end) as Hnext.
    { intros pre' rest' s' HP' HL HS. unfold loop_next. rewrite blk_pos_eq by done.
      replace (e_pos i (pre ++ [e])) with (e_pos i pre') by (unfold e_pos; lia).
      pose proof (P_holds _ _ _ HP') as (_ & st' & o' & _ & [W' S'] & _). cbn [snd] in *. rewrite size_app in S'.
      destruct (Z.gtb_spec (4096 * i + BLK_SIZE) (e_pos i pre' + ITEM_HDR_SIZE)) as [G|G]; change BLK_SIZE with 4096 in G; unfold e_pos, ITEM_HDR_SIZE in G.
      - apply IH with (rest := rest'); [done | lia | lia].
      - destruct rest' as [|e' rest']; [by exists pre'|]. exfalso. rewrite size_cons in S'. apply Forall_app in W' as [_ [We W']%Forall_cons_1].
        pose proof (e_len_bounds e' We). pose proof (size_pos rest' W'). lia. }
    destruct (e_live e) eqn:Hl; [|apply (Hnext (pre ++ [e]) rest); [by apply P_dead | done | done]].
    destruct (P_live _ _ _ _ HP Hl) as (res & it & s' & -> & [[-> HQ]|[-> (pre' & rest' & HL & HS & HP')]]); [done|].
    cbn [Z.eqb RES_OK RES_CONT negb]. by apply (Hnext pre' rest').
Qed.

(** [kv_item_traverse] of a block. *)
Lemma traverse_spec es s : P [] es s →
  match kv_item_traverse func i s with
  | (Some it, s') => Q it s'
  | (None, s') => exists es' s0, P es' [] s0 /\ s' = set_space i (4092 - size es') s0
  end.
Proof.
  intros HP. pose proof (P_holds _ _ _ HP) as (F & st & o & E & Hd & Ho). destruct Hd as [W S]. cbn [snd app] in *.
  pose proof (size_pos es W) as HL. unfold kv_item_traverse. rewrite blk_pos_eq by done.
  rewrite u16_small by (destruct Hi as [-> | ->]; unfold BLK_HDR_SIZE; lia).
  pose proof (traverse_walk 512 [] es s HP ltac:(lia) ltac:(intros _; cbn; lia)) as HW.
  change (e_pos i []) with (4096 * i + 4 + 0) in HW. rewrite Z.add_0_r in HW. change (4096 * i + BLK_HDR_SIZE) with (4096 * i + 4).
  destruct (traverse_loop 512 func i (4096 * i + 4) s) as [[it| |pos] s']; [done..|].
  destruct HW as (es' & HP' & ->). exists es', s'. split; [done|].
  pose proof (P_holds _ _ _ HP') as (_ & st' & o' & _ & [W' S'] & _). cbn [snd] in *. rewrite app_nil_r in *. pose proof (size_pos es' W').
  unfold e_pos. change BLK_SIZE with 4096. rewrite (proj2 (Z.gtb_lt _ _)) by lia. f_equal. f_equal. rewrite u16_small; lia.
Qed.
End Walk.
