(* ===== verification/KvProps.v ===== *)
(** * KvProps: the key-value store implements a finite map

    The invariant [kv_inv] of the store between operations, the map [contents] it
    stands for, and what every operation does to that map: lookup, store, deletion,
    garbage collection, restart, and restart after a power failure. *)
From Stdlib Require Import ZArith Lia List Bool.
From stdpp Require Import base list numbers option gmap.
From S2P Require Import Prelude Env Aes Storage KvStore KvLog.
Local Open Scope Z_scope.

(** ** The map of a log *)

Definition alive (es : list entry) : list entry := List.filter e_live es.
Definition pair_of (e : entry) : list Z * list Z := (e_key e, e_val e).
Definition contents (es : list entry) : gmap (list Z) (list Z) := list_to_map (map pair_of (alive es)).
Definition live_keys (es : list entry) : list (list Z) := map e_key (alive es).

Lemma alive_app a b : alive (a ++ b) = alive a ++ alive b.
Proof. apply List.filter_app. Qed.

Lemma alive_alive es : alive (alive es) = alive es.
Proof. unfold alive. induction es as [|e es IH]; [done|]. cbn. destruct (e_live e) eqn:E; cbn; rewrite ?E, IH; done. Qed.

Lemma alive_kill pre e post : alive (pre ++ e_kill e :: post) = alive pre ++ alive post.
Proof. by rewrite alive_app. Qed.

Lemma alive_live pre e post : e_live e = true → alive (pre ++ e :: post) = alive pre ++ e :: alive post.
Proof. intros E. rewrite alive_app. unfold alive. cbn. by rewrite E. Qed.

Lemma keys_pairs es : live_keys es = (map pair_of (alive es)).*1.
Proof. unfold live_keys. induction (alive es) as [|e l IH]; [done|]. cbn. by f_equal. Qed.

(** An entry that is alive holds its key's value. *)
Lemma contents_live pre e post : e_live e = true → List.NoDup (live_keys (pre ++ e :: post)) →
  contents (pre ++ e :: post) !! e_key e = Some (e_val e).
Proof.
  intros E N. unfold contents. apply elem_of_list_to_map_1.
  - rewrite <- keys_pairs. by apply NoDup_ListNoDup.
  - rewrite alive_live by done. rewrite map_app. apply elem_of_app. right. cbn. apply elem_of_cons. by left.
Qed.

Lemma contents_none es key : (forall e, In e (alive es) → e_key e ≠ key) → contents es !! key = None.
Proof.
  intros H. unfold contents. apply not_elem_of_list_to_map_1. rewrite <- keys_pairs. intros Hin.
  apply list_elem_of_In in Hin. unfold live_keys in Hin. apply in_map_iff in Hin as (e & E & Hin). by eapply H.
Qed.

(** Killing an entry removes its key. *)
Lemma contents_kill pre e post : e_live e = true → List.NoDup (live_keys (pre ++ e :: post)) →
  contents (pre ++ e_kill e :: post) = delete (e_key e) (contents (pre ++ e :: post)).
Proof.
  intros E N. pose proof (contents_live pre e post E N) as L. unfold live_keys in N. rewrite alive_live, map_app in N by done. cbn [map] in N.
  unfold contents at 2. rewrite alive_live by done. rewrite map_app. cbn [map].
  rewrite (list_to_map_proper _ (pair_of e :: map pair_of (alive pre) ++ map pair_of (alive post))).
  - cbn [list_to_map foldr fst snd pair_of]. unfold contents. rewrite alive_kill, map_app. rewrite delete_insert_id; [done|].
    apply not_elem_of_list_to_map_1. rewrite fmap_app. apply NoDup_remove_2 in N. intros Hin. apply N. apply elem_of_app in Hin.
    apply in_or_app. rewrite <- !keys_pairs in Hin. destruct Hin as [Hin|Hin]; apply list_elem_of_In in Hin; [by left | by right].
  - rewrite fmap_app. cbn [fmap list_fmap]. apply NoDup_ListNoDup. by rewrite <- !keys_pairs.
  - by rewrite Permutation_middle.
Qed.

(** An entry behind the others sets its key. *)
Lemma contents_snoc es e : e_live e = true → (forall x, In x (alive es) → e_key x ≠ e_key e) →
  contents (es ++ [e]) = <[e_key e := e_val e]> (contents es).
Proof.
  intros E H. unfold contents. rewrite alive_live, map_app by done. cbn [alive List.filter map]. rewrite list_to_map_app.
  cbn [list_to_map foldr pair_of fst snd]. rewrite <- insert_union_r; [by rewrite map_union_empty|].
  by apply contents_none.
Qed.

(** ** The invariant *)

(** Entries for block [b] and for the other block. *)
Definition info (b : Z) (x y : block_info_t) : list block_info_t := if b =? 0 then [x; y] else [y; x].

Definition clean_info : block_info_t := mkBi 4092 BLK_STATE_CLEAN.
Definition clean_blk : blk_desc := (BLK_STATE_CLEAN, []).

(** A block in use: its state says whether it has dead entries. *)
Record blk_in_use (st : Z) (es : list entry) : Prop := {
  use_state : st = BLK_STATE_USED \/ st = BLK_STATE_DIRTY;
  use_ok : blk_ok (st, es);
  use_alive : st = BLK_STATE_USED → Forall (λ e, e_live e = true) es }.

(** Block [b], in state [st], holds the log [es]; the other block is clean. *)
Record kv_log (b st : Z) (es : list entry) (s : kv) : Prop := {
  inv_index : blk_index b;
  inv_use : blk_in_use st es;
  inv_part : part s = flash_of b (st, es) clean_blk;
  inv_faults : faults s = [];
  inv_info : block_info s = info b (mkBi (4092 - size es) st) clean_info;
  inv_clean : clean_blk_nums s = 1;
  inv_pos : write_pos s = e_pos b es;
  inv_trigger : gc_trigger s = 0 \/ gc_trigger s = 1 }.

(** Between operations no key has two live entries. *)
Definition kv_inv (b st : Z) (es : list entry) (s : kv) : Prop := kv_log b st es s /\ List.NoDup (live_keys es).

(** The store stands for the map [m]. *)
Definition represents (s : kv) (m : gmap (list Z) (list Z)) : Prop := exists b st es, kv_inv b st es s /\ contents es = m.

Lemma clean_ok : blk_ok clean_blk.
Proof. split; [constructor | done]. Qed.

Section Info.
Context (b : Z) (x y : block_info_t) (s : kv).
Hypothesis Hb : blk_index b.
Hypothesis E : block_info s = info b x y.

Lemma bi_here : bi b s = x.
Proof. unfold bi. rewrite E. by destruct Hb as [-> | ->]. Qed.
Lemma bi_other : bi (1 - b) s = y.
Proof. unfold bi. rewrite E. by destruct Hb as [-> | ->]. Qed.
Lemma set_bi_here z : block_info (set_bi b z s) = info b z y.
Proof. unfold set_bi. cbn [with_info block_info]. rewrite E. by destruct Hb as [-> | ->]. Qed.
Lemma set_bi_other z : block_info (set_bi (1 - b) z s) = info b x z.
Proof. unfold set_bi. cbn [with_info block_info]. rewrite E. by destruct Hb as [-> | ->]. Qed.
Lemma set_bi_same : set_bi b x s = s.
Proof. unfold set_bi. rewrite E. destruct s; cbn in *; subst; by destruct Hb as [-> | ->]. Qed.
Lemma set_bi_same_other : set_bi (1 - b) y s = s.
Proof. unfold set_bi. rewrite E. destruct s; cbn in *; subst; by destruct Hb as [-> | ->]. Qed.
End Info.

Lemma other_index b : blk_index b → blk_index (1 - b).
Proof. intros [-> | ->]; [by right | by left]. Qed.

Lemma info_swap b x y : blk_index b → info (1 - b) x y = info b y x.
Proof. by intros [-> | ->]. Qed.

Section Lookup.
Context (b st : Z) (es : list entry) (s : kv).
Hypothesis I : kv_log b st es s.

Lemma inv_holds : holds b es s.
Proof. destruct I as [? [] ? ? ? ? ? ?]. split; [done|]. exists st, clean_blk. split; [done|]. split; [done | apply clean_ok]. Qed.

Lemma inv_bi : bi b s = mkBi (4092 - size es) st.
Proof. destruct I. eapply bi_here; eauto. Qed.
Lemma inv_bi_other : bi (1 - b) s = clean_info.
Proof. destruct I. eapply bi_other; eauto. Qed.

Lemma inv_space : set_space b (4092 - size es) s = s.
Proof. unfold set_space. rewrite inv_bi. destruct I. eapply set_bi_same; eauto. Qed.

(** A block with a dead entry is already marked. *)
Lemma inv_mark pre e post : es = pre ++ e :: post → e_live e = false → mark_dirty b s = s.
Proof.
  intros E H. unfold mark_dirty. rewrite inv_bi. cbn [bi_state]. destruct I as [_ [[-> | ->] _ A] _ _ _ _ _ _]; [|done].
  specialize (A eq_refl). subst. apply Forall_app in A as [_ [A _]%Forall_cons_1]. congruence.
Qed.

(** The item found for [key]. *)
Definition found_at (key : list Z) (it : kv_item_t) : Prop :=
  exists pre e post, es = pre ++ e :: post /\ e_live e = true /\ e_key e = key /\ it = with_store (e_body e) (item_at b pre e).

Lemma find_step key pre e rest : es = pre ++ e :: rest →
  __item_find_cb key (item_at b pre e) s =
  if bool_decide (e_key e = key) then (RES_OK, with_store (e_body e) (item_at b pre e), s)
  else (RES_CONT, if Z.of_nat (length (e_key e)) =? Z.of_nat (length key) then with_store (e_body e) (item_at b pre e) else item_at b pre e, s).
Proof.
  intros E. destruct I as [Hi [_ U _] P F _ _ _ _]. subst es. destruct (at_facts st pre rest e U) as (_ & We & _ & _ & S1 & S2 & S3).
  pose proof (e_len_bounds e We) as (B1 & _). unfold __item_find_cb. cbn [item_at i_hdr e_hdr h_key_len h_val_len i_pos i_len].
  destruct (Z.eqb_spec (Z.of_nat (length (e_key e))) (Z.of_nat (length key))) as [L|L]; cbn [negb].
  2: { rewrite bool_decide_eq_false_2; [done | congruence]. }
  rewrite malloc_ok by done.
  rewrite read_ok by (done || (destruct Hi as [-> | ->]; unfold e_pos, ITEM_HDR_SIZE, KV_TOTAL_SIZE in *; lia)).
  rewrite P, (read_body b st pre rest e clean_blk Hi clean_ok U).
  replace (take (length key) (e_body e)) with (e_key e) by (replace (length key) with (length (e_key e)) by lia; symmetry; apply take_app_length).
  unfold list_eqb. by destruct (bool_decide _).
Qed.

Lemma find_traverse key : match kv_item_traverse (__item_find_cb key) b s with
  | (Some it, s') => s' = s /\ found_at key it
  | (None, s') => s' = s /\ forall e, In e (alive es) → e_key e ≠ key
  end.
Proof.
  pose (P := λ pre rest s', s' = s /\ es = pre ++ rest /\ forall e, In e (alive pre) → e_key e ≠ key).
  pose proof (traverse_spec (__item_find_cb key) b P (λ it s', s' = s /\ found_at key it) (inv_index _ _ _ _ I)) as T.
  assert (forall pre e rest s', P pre (e :: rest) s' → (e_live e = true → e_key e ≠ key) → P (pre ++ [e]) rest s') as Hstep.
  { intros pre e rest s' (-> & E & H) Hk. split; [done|]. split; [by rewrite <- app_assoc|].
    intros x. rewrite alive_app, in_app_iff. intros [Hx|Hx]; [by apply H|]. unfold alive in Hx. cbn in Hx.
    destruct (e_live e) eqn:El; [|done]. destruct Hx as [-> | []]. by apply Hk. }
  assert (P [] es s) as HP by (split; [done|]; split; [done | intros e []]).
  specialize (fun h1 h2 h3 => T h1 h2 h3 es s HP). destruct (kv_item_traverse _ b s) as [o s']. 
  assert (match o with Some it => s' = s /\ found_at key it | None => exists es' s0, P es' [] s0 /\ s' = set_space b (4092 - size es') s0 end) as R.
  { apply T; clear T.
    - intros pre rest s1 (-> & E & _). rewrite <- E. apply inv_holds.
    - intros pre e rest s1 HP1 El. pose proof HP1 as (-> & E & _). rewrite (find_step key _ _ _ E).
      destruct (bool_decide_reflect (e_key e = key)) as [K|K]; do 3 eexists; (split; [reflexivity|]).
      + left. split; [done|]. split; [done|]. by exists pre, e, rest.
      + right. split; [done|]. exists (pre ++ [e]), rest. split; [done|]. split; [done|]. by apply Hstep.
    - intros pre e rest s1 HP1 El. pose proof HP1 as (-> & E & _). rewrite (inv_mark pre e rest E El). apply Hstep; [done | congruence]. }
  destruct o; [done|]. destruct R as (es' & s0 & (-> & E & H) & ->). rewrite app_nil_r in E. subst es'. by rewrite inv_space.
Qed.

(** A lookup finds the live entry of the key and changes nothing. *)
Lemma get_spec key :
  (exists it, kv_item_get key s = (Some it, s) /\ found_at key it) \/
  (kv_item_get key s = (None, s) /\ forall e, In e (alive es) → e_key e ≠ key).
Proof.
  pose proof (find_traverse key) as T. pose proof inv_bi as B. pose proof inv_bi_other as B'. unfold kv_item_get.
  change BLK_NUMS with 2%nat. pose proof I as [Hi [[-> | ->] _ _] _ _ _ _ _ _]; destruct Hi as [-> | ->]; cbn [item_get_from];
    change (1 - 0) with 1 in B'; change (1 - 1) with 0 in B'; change (0 + 1) with 1; rewrite B, B'; cbn [bi_state clean_info negb Z.eqb Pos.eqb BLK_STATE_USED BLK_STATE_CLEAN BLK_STATE_DIRTY];
    destruct (kv_item_traverse _ _ s) as [[it|] s'];
    destruct T as [-> T]; rewrite ?B'; [left; by exists it | by right | left; by exists it | by right | left; by exists it | by right | left; by exists it | by right].
Qed.

(** The invariant determines what a lookup returns. *)
Lemma lookup_spec key : List.NoDup (live_keys es) → kv_lookup key s = (contents es !! key, s).
Proof.
  intros N.
  unfold kv_lookup. destruct (get_spec key) as [(it & -> & pre & e & post & E & El & Ek & ->)|[-> H]].
  - f_equal. cbn [with_store i_hdr i_store item_at e_hdr h_key_len]. rewrite Nat2Z.id. unfold e_body. rewrite drop_app_length.
    subst. by rewrite contents_live.
  - by rewrite contents_none.
Qed.
End Lookup.

(** ** Deletion *)

(** [s] after the flash operations [ops]. *)
Definition relog (l : list block_info_t) (p : list Z) (ops : list flash_op) (s : kv) : kv :=
  mkKv (inited s) (gc_trigger s) (gc_waiter s) (clean_blk_nums s) (write_pos s) l p (flog s ++ ops) (faults s) (uninit s).

(** The operations that delete the entry at [pos] of block [b]. *)
Definition kill_ops (b st pos : Z) : list flash_op :=
  Program (pos + KV_STATE_OFF) [ITEM_STATE_DELETE] :: (if st =? BLK_STATE_USED then [Program (4096 * b + KV_STATE_OFF) [BLK_STATE_DIRTY]] else []).
Definition dirtied (st : Z) : Z := if st =? BLK_STATE_USED then BLK_STATE_DIRTY else st.

Lemma blk_of_pos b n : blk_index b → 0 <= n < 4096 → blk_of (4096 * b + n) = b.
Proof.
  intros Hb Hn. unfold blk_of, BLK_BITS. rewrite Z.shiftr_div_pow2 by lia. change (2 ^ 12) with 4096.
  destruct Hb as [-> | ->]; [rewrite Z.div_small by lia | replace ((4096 * 1 + n) / 4096) with 1 by (apply Z.div_unique with (r := n); lia)]; done.
Qed.

Lemma kill_blk_ok st st' pre e post : blk_ok (st, pre ++ e :: post) → blk_ok (st', pre ++ e_kill e :: post).
Proof.
  intros [W S]. split; cbn [snd] in *; [|rewrite size_app, size_cons in *; exact S].
  apply Forall_app in W as [W1 [We W3]%Forall_cons_1]. apply Forall_app; split; [done|]. constructor; [by apply e_kill_wf | done].
Qed.

Lemma del_at_spec b st pre e post o y sp s : blk_index b → faults s = [] → part s = flash_of b (st, pre ++ e :: post) o →
  blk_ok (st, pre ++ e :: post) → blk_ok o → block_info s = info b (mkBi sp st) y →
  del_at (e_pos b pre) s =
  (RES_OK, relog (info b (mkBi sp (dirtied st)) y) (flash_of b (dirtied st, pre ++ e_kill e :: post) o) (kill_ops b st (e_pos b pre)) s).
Proof.
  intros Hb F P Hd Ho B. destruct (at_facts st pre post e Hd) as (W1 & We & W3 & L1 & S1 & S2 & S3). pose proof (e_len_bounds e We) as (B1 & B2 & _).
  assert (blk_of (e_pos b pre) = b) as Eb by (unfold e_pos; rewrite <- Z.add_assoc; apply blk_of_pos; [done | lia]).
  unfold del_at, kv_state_set, KV_STATE_OFF. rewrite write_ok; [|done | cbn [length]; destruct Hb as [-> | ->]; unfold e_pos, KV_TOTAL_SIZE; lia].
  cbn [truthy negb Z.eqb RES_OK]. rewrite Eb. set (s1 := do_op _ s).
  assert (part s1 = flash_of b (st, pre ++ e_kill e :: post) o) as P1 by (cbn [s1 do_op part apply_op]; rewrite P; by apply program_kill).
  assert (bi b s1 = mkBi sp st) as B3 by (eapply bi_here; eauto). rewrite B3. cbn [bi_state]. unfold dirtied, kill_ops.
  destruct (Z.eqb_spec st BLK_STATE_USED) as [-> |N].
  - rewrite write_ok; [|done | cbn [length]; rewrite blk_pos_eq by done; destruct Hb as [-> | ->]; unfold KV_TOTAL_SIZE; lia].
    cbn [truthy negb Z.eqb RES_OK]. f_equal. set (s2 := do_op _ s1).
    assert (part s2 = flash_of b (BLK_STATE_DIRTY, pre ++ e_kill e :: post) o) as P2.
    { cbn [s2 do_op part apply_op]. rewrite P1, blk_pos_eq by done. apply (program_state b BLK_STATE_USED); [done | done | | done].
      by apply (kill_blk_ok _ _ _ _ _ Hd). }
    assert (bi b s2 = mkBi sp BLK_STATE_USED) as B4 by (eapply bi_here; eauto).
    assert (block_info s2 = info b (mkBi sp BLK_STATE_USED) y) as B5 by done.
    unfold set_bstate. rewrite B4. cbn [bi_space]. pose proof (set_bi_here b _ _ s2 Hb B5 (mkBi sp BLK_STATE_DIRTY)) as B6.
    unfold set_bi, with_info, relog in *. cbn [block_info] in B6. rewrite B6. rewrite P2. cbn [s2 s1 do_op inited gc_trigger gc_waiter clean_blk_nums write_pos flog faults uninit].
    rewrite <- app_assoc, blk_pos_eq by done. done.
  - f_equal. unfold relog. cbn [s1 do_op]. rewrite <- P1, <- B. done.
Qed.


Section Delete.
Context (b st : Z) (pre post : list entry) (e : entry) (s : kv).
Hypothesis I : kv_log b st (pre ++ e :: post) s.

Definition killed : kv :=
  relog (info b (mkBi (4092 - size (pre ++ e :: post)) BLK_STATE_DIRTY) clean_info)
    (flash_of b (BLK_STATE_DIRTY, pre ++ e_kill e :: post) clean_blk) (kill_ops b st (e_pos b pre)) s.

Lemma del_log : del_at (e_pos b pre) s = (RES_OK, killed).
Proof.
  destruct I as [Hb [Hs Hd _] P F B _ _ _]. rewrite (del_at_spec b st pre e post clean_blk clean_info _ s Hb F P Hd clean_ok B).
  unfold killed. by destruct Hs as [-> | ->].
Qed.

Lemma killed_log : kv_log b BLK_STATE_DIRTY (pre ++ e_kill e :: post) killed.
Proof.
  destruct I as [Hb [Hs Hd _] P F B C W T]. assert (size (pre ++ e_kill e :: post) = size (pre ++ e :: post)) as Es by (by rewrite !size_app, !size_cons).
  split; try done; cbn [killed relog block_info write_pos].
  - split; [by right | by apply (kill_blk_ok _ _ _ _ _ Hd) | done].
  - by rewrite Es.
  - rewrite W. unfold e_pos. by rewrite Es.
Qed.

Lemma killed_inv : e_live e = true → List.NoDup (live_keys (pre ++ e :: post)) → List.NoDup (live_keys (pre ++ e_kill e :: post)).
Proof. intros E N. unfold live_keys in *. rewrite alive_kill. rewrite alive_live, map_app in N by done. apply NoDup_remove_1 in N. by rewrite map_app. Qed.
End Delete.

(** ** Store *)

Record valid_item (key val : list Z) : Prop := {
  v_key : 1 <= Z.of_nat (length key) <= ITEM_MAX_KEY_LEN; v_val : 1 <= Z.of_nat (length val) <= ITEM_MAX_VAL_LEN;
  v_key_bytes : all_u8 key; v_val_bytes : all_u8 val }.

Definition item_entry (key val : list Z) (origin : Z) : entry := mkEntry ITEM_STATE_NORMAL key val origin.

Lemma item_entry_wf key val origin : valid_item key val → is_u16 origin → e_wf (item_entry key val origin).
Proof. intros [] H. split; try done. by left. Qed.

Lemma item_image_entry key val origin : valid_item key val → is_u16 origin → item_image key val origin = e_image (item_entry key val origin).
Proof.
  intros V H. pose proof (item_entry_wf key val origin V H) as W. destruct V as [Hk Hv _ _]. unfold ITEM_MAX_KEY_LEN, ITEM_MAX_VAL_LEN in *.
  unfold item_image. cbv zeta. rewrite u8_small, u16_small by lia. pose proof (e_len_u16 _ W) as EL. cbn [e_hdr item_entry h_key_len h_val_len e_key e_val] in EL.
  rewrite EL. unfold e_image, e_pad, e_body. cbn [item_entry e_key e_val]. rewrite <- app_assoc. f_equal. f_equal. f_equal.
  rewrite length_app, length_hdr. unfold ITEM_HDR_SIZE. lia.
Qed.

Lemma trigger_log b st es s : kv_log b st es s → kv_log b st es (kv_trigger_gc s) /\ gc_trigger (kv_trigger_gc s) = 1 /\ flog (kv_trigger_gc s) = flog s.
Proof.
  intros I. unfold kv_trigger_gc. destruct I as [Hb U P F B C W T]. destruct T as [T|T]; rewrite T; cbn [truthy negb Z.eqb]; (split; [split; auto|]; auto).
Qed.

Lemma append_log b st es e s : kv_log b st es s → e_wf e → e_live e = true → size es + e_len e < 4092 →
  let s1 := with_write_pos (u16 (e_pos b es + e_len e)) (do_op (Program (e_pos b es) (e_image e)) s) in
  let idx := blk_of (write_pos s1) in
  kv_log b st (es ++ [e]) (set_space idx (u16 (bi_space (bi idx s1) - e_len e)) s1).
Proof.
  intros [Hb [Hs Hd Ha] P F B C W T] We El Hsz s1. pose proof (e_len_bounds e We). pose proof (size_pos es (proj1 Hd)).
  assert (write_pos s1 = e_pos b (es ++ [e])) as E1 by (cbn [s1 with_write_pos write_pos]; rewrite e_pos_snoc; apply u16_small; destruct Hb as [-> | ->]; unfold e_pos; lia).
  rewrite E1. cbv zeta. replace (blk_of _) with b by (unfold e_pos; rewrite <- Z.add_assoc; rewrite size_app, size_cons; change (size []) with 0; symmetry; apply blk_of_pos; [done | lia]).
  assert (block_info s1 = info b (mkBi (4092 - size es) st) clean_info) as B1 by done. pose proof (bi_here b _ _ s1 Hb B1) as B2.
  unfold set_space. rewrite B2. cbn [bi_space bi_state]. rewrite u16_small by lia. split; try done.
  - split; [done | split; cbn [snd] | intros X; apply Forall_app; split; [by apply Ha | by constructor]].
    + apply Forall_app; split; [apply Hd | by constructor].
    + rewrite size_app, size_cons. change (size []) with 0. lia.
  - cbn [set_bi with_info part s1 with_write_pos do_op apply_op]. rewrite P. apply program_entry; [done | apply clean_ok | done | done | lia].
  - rewrite (set_bi_here b _ _ s1 Hb B1). rewrite size_app, size_cons. change (size []) with 0. do 2 f_equal. lia.
Qed.

(** Storing appends an entry when there is space for it, and else asks for a collection. *)
Lemma store_spec b st es s key val origin : kv_log b st es s → valid_item key val → is_u16 origin →
  let e := item_entry key val origin in
  exists s', kv_item_store key val origin s = ((if 4092 - size es >? e_len e then RES_OK else RES_NO_SPACE), s') /\
  if 4092 - size es >? e_len e
  then kv_log b st (es ++ [e]) s' /\ flog s' = flog s ++ [Program (e_pos b es) (e_image e)]
  else kv_log b st es s' /\ gc_trigger s' = 1 /\ flog s' = flog s.
Proof.
  intros I V Ho e. pose proof (item_entry_wf key val origin V Ho) as We. fold e in We. unfold kv_item_store. cbv zeta. rewrite item_image_entry by done. fold e.
  rewrite (length_image e We), malloc_ok by apply I. unfold kv_calc_position.
  pose proof I as [Hb [Hs Hd Ha] P F B C W T]. pose proof (size_pos es (proj1 Hd)). pose proof (e_len_bounds e We) as (B1 & B2 & _). destruct Hd as [Wd Sd]. cbn [snd] in *.
  rewrite W. replace (blk_of (e_pos b es)) with b by (unfold e_pos; rewrite <- Z.add_assoc; symmetry; apply blk_of_pos; [done | lia]).
  rewrite (inv_bi b st es s I). cbn [bi_space]. destruct (Z.gtb_spec (4092 - size es) (e_len e)) as [G|G].
  - set (s1 := if _ && _ then _ else s). assert (kv_log b st es s1 /\ flog s1 = flog s) as [I1 L1].
    { unfold s1. destruct (_ && _); [|done]. pose proof (trigger_log b st es s I). tauto. }
    rewrite (proj2 (Z.gtb_lt (e_pos b es) 0)) by (destruct Hb as [-> | ->]; unfold e_pos; lia).
    rewrite write_ok; [|apply I1 | rewrite (length_image e We); destruct Hb as [-> | ->]; unfold e_pos, KV_TOTAL_SIZE; lia].
    cbn [Z.eqb RES_OK]. eexists. split; [reflexivity|]. split; [apply append_log; [done | done | done | lia]|].
    cbn [set_space set_bi with_info flog with_write_pos do_op]. by rewrite L1.
  - cbn [Z.gtb Z.compare]. pose proof (trigger_log b st es s I) as (I1 & T1 & L1). by exists (kv_trigger_gc s).
Qed.

(** ** Garbage collection *)

Section Collect.
Context (b : Z) (es : list entry) (s : kv).
Hypothesis Hb : blk_index b.
Hypothesis Hd : blk_ok (BLK_STATE_DIRTY, es).

(** While block [b] is copied, the other block holds the live entries passed. *)
Record copying (pre rest : list entry) (t : kv) : Prop := {
  cp_split : es = pre ++ rest;
  cp_faults : faults t = [];
  cp_part : part t = flash_of b (BLK_STATE_DIRTY, es) (BLK_STATE_CLEAN, alive pre);
  cp_info : block_info t = info b (mkBi (4092 - size es) BLK_STATE_DIRTY) (mkBi (4092 - size (alive pre)) BLK_STATE_CLEAN);
  cp_clean : clean_blk_nums t = 1;
  cp_pos : write_pos t = e_pos (1 - b) (alive pre) }.

Lemma alive_wf l : Forall e_wf l → Forall e_wf (alive l) /\ size (alive l) <= size l.
Proof.
  unfold alive. induction 1 as [|e l We W IH]; [done|]. cbn [List.filter]. pose proof (e_len_bounds e We).
  destruct (e_live e); rewrite !size_cons; (split; [try constructor; tauto | lia]).
Qed.

Lemma alive_ok st pre rest : es = pre ++ rest → blk_ok (st, alive pre).
Proof.
  intros E. destruct Hd as [W S]. cbn [snd] in *. rewrite E in *. apply Forall_app in W as [W1 W2]. rewrite size_app in S.
  pose proof (alive_wf pre W1) as [A1 A2]. pose proof (size_pos rest W2). split; [done|]. cbn [snd]. lia.
Qed.

Lemma gc_step pre e rest t : copying pre (e :: rest) t → e_live e = true →
  exists t', __item_gc_cb (item_at b pre e) t = (RES_CONT, item_at b pre e, t') /\ copying (pre ++ [e]) rest t'.
Proof.
  intros [E F P B C W] El. pose proof Hd as Hd'. rewrite E in Hd'. destruct (at_facts _ pre rest e Hd') as (W1 & We & W3 & L1 & S1 & S2 & S3).
  pose proof (e_len_bounds e We) as (B1 & B2 & _). pose proof (alive_ok BLK_STATE_CLEAN pre (e :: rest) E) as Ho. pose proof (alive_wf pre W1) as [A1 A2].
  pose proof (size_pos _ A1) as A3. assert (alive (pre ++ [e]) = alive pre ++ [e]) as Ea by (by rewrite alive_live).
  unfold __item_gc_cb. cbn [item_at i_len i_pos]. cbv zeta.
  replace (u16 (KV_ALIGN (ITEM_HDR_SIZE + Z.of_nat (length (e_body e))))) with (e_len e).
  2: { rewrite <- (e_len_u16 e We). cbn [e_hdr h_key_len h_val_len]. rewrite length_body. do 2 f_equal. lia. }
  rewrite malloc_ok by done. rewrite read_ok; [|done | destruct Hb as [-> | ->]; unfold e_pos, KV_TOTAL_SIZE; lia].
  rewrite P, E, (read_image b _ pre rest e _ Hb Ho Hd'), W. pose proof (other_index b Hb) as Hj.
  rewrite write_ok; [|done | rewrite (length_image e We); destruct Hb as [-> | ->]; unfold e_pos, KV_TOTAL_SIZE; lia].
  cbn [truthy negb Z.eqb RES_OK]. set (t1 := with_write_pos _ _).
  assert (write_pos t1 = e_pos (1 - b) (alive (pre ++ [e]))) as E1.
  { cbn [t1 with_write_pos write_pos do_op]. rewrite W, Ea, e_pos_snoc. apply u16_small. destruct Hb as [-> | ->]; unfold e_pos; lia. }
  replace (blk_of (write_pos t1)) with (1 - b).
  2: { rewrite E1, Ea, e_pos_snoc. unfold e_pos. rewrite <- !Z.add_assoc. symmetry. apply blk_of_pos; [done | lia]. }
  assert (block_info t1 = info b (mkBi (4092 - size es) BLK_STATE_DIRTY) (mkBi (4092 - size (alive pre)) BLK_STATE_CLEAN)) as B3 by done.
  eexists. split; [reflexivity|]. unfold set_space. rewrite (bi_other b _ _ t1 Hb B3). cbn [bi_space bi_state]. rewrite u16_small by lia.
  split; try done.
  - by rewrite <- app_assoc.
  - cbn [set_bi with_info part t1 with_write_pos do_op apply_op]. rewrite P, Ea, (flash_swap b) by done.
    rewrite (program_entry (1 - b) BLK_STATE_CLEAN (alive pre) e (BLK_STATE_DIRTY, es) Hj Hd Ho We) by lia. by rewrite <- flash_swap.
  - rewrite (set_bi_other b _ _ t1 Hb B3), Ea, size_app, size_cons. change (size []) with 0. do 2 f_equal. lia.
Qed.

Lemma gc_traverse t : copying [] es t → exists t', kv_item_traverse __item_gc_cb b t = (None, t') /\ copying es [] t'.
Proof.
  intros Cp. pose proof (traverse_spec __item_gc_cb b copying (λ _ _, False) Hb) as T. specialize (fun h1 h2 h3 => T h1 h2 h3 es t Cp).
  destruct (kv_item_traverse __item_gc_cb b t) as [o t'].
  assert (match o with Some _ => False | None => exists es' t0, copying es' [] t0 /\ t' = set_space b (4092 - size es') t0 end) as R.
  { apply T; clear T.
    - intros pre rest t1 [E F P _ _ _]. split; [done|]. rewrite <- E. do 2 eexists. split; [exact P|]. split; [done | by apply (alive_ok _ _ _ E)].
    - intros pre e rest t1 C1 El. destruct (gc_step pre e rest t1 C1 El) as (t2 & -> & C2). do 3 eexists. split; [reflexivity|]. right. split; [done|].
      by exists (pre ++ [e]), rest.
    - intros pre e rest t1 C1 El. pose proof C1 as [E F P B C W]. unfold mark_dirty. rewrite (bi_here b _ _ t1 Hb B). cbn [bi_state Z.eqb].
      assert (alive (pre ++ [e]) = alive pre) as Ea by (rewrite alive_app; unfold alive; cbn [List.filter]; rewrite El; apply app_nil_r).
      split; rewrite ?Ea; try done. by rewrite <- app_assoc. }
  destruct o; [done|]. destruct R as (es' & t0 & C0 & ->). pose proof C0 as [E F P B C W]. rewrite app_nil_r in E. subst es'.
  eexists. split; [reflexivity|]. unfold set_space. rewrite (bi_here b _ _ t0 Hb B). cbn [bi_state].
  by rewrite (set_bi_same b _ _ t0 Hb B).
Qed.

(** Formatting block [b] next to the block [o]. *)
Lemma format_spec d o x y t : blk_ok d → blk_ok o → faults t = [] → part t = flash_of b d o → block_info t = info b x y → is_u8 (clean_blk_nums t + 1) →
  exists t', kv_block_format b t = (RES_OK, t') /\ part t' = flash_of b clean_blk o /\ block_info t' = info b clean_info y /\
  clean_blk_nums t' = clean_blk_nums t + 1 /\ faults t' = [] /\ write_pos t' = write_pos t.
Proof.
  intros Hd' Ho F P B C. unfold kv_block_format. rewrite blk_pos_eq by done. rewrite u16_small by (destruct Hb as [-> | ->]; lia).
  rewrite erase_ok by (done || (destruct Hb as [-> | ->]; unfold KV_TOTAL_SIZE; change BLK_SIZE with 4096; lia)). cbn [truthy negb Z.eqb RES_OK].
  rewrite write_ok; [|done | cbn [length]; destruct Hb as [-> | ->]; unfold KV_TOTAL_SIZE; lia]. cbn [truthy negb Z.eqb RES_OK].
  eexists. split; [reflexivity|]. cbn [with_clean part block_info clean_blk_nums faults write_pos]. set (t1 := do_op _ (do_op _ t)).
  assert (block_info t1 = info b x y) as B1 by done. split; [|split; [|split; [|split]]]; try done.
  - cbn [set_bi with_info part t1 do_op apply_op]. rewrite P. by apply erase_header.
  - by apply (set_bi_here b x y t1).
  - by apply u8_small.
Qed.
End Collect.

Lemma find_clean_spec b x t : blk_index b → block_info t = info b x clean_info → bi_state x ≠ BLK_STATE_CLEAN → find_clean BLK_NUMS 0 t = Some (1 - b).
Proof.
  intros Hb B N. pose proof (bi_here b _ _ t Hb B) as B1. pose proof (bi_other b _ _ t Hb B) as B2. apply Z.eqb_neq in N.
  change BLK_NUMS with 2%nat. destruct Hb as [-> | ->]; cbn [find_clean]; change (1 - 0) with 1 in B2; change (1 - 1) with 0 in B2; change (0 + 1) with 1; by rewrite ?B2, ?B1, ?N.
Qed.

Lemma find_dirty_spec b x t : blk_index b → block_info t = info b x clean_info →
  find_dirty (S BLK_NUMS) (b + 1) b t = if bi_state x =? BLK_STATE_DIRTY then Some b else None.
Proof. intros Hb B. destruct t. cbn in B. subst. by destruct Hb as [-> | ->], x. Qed.

(** What the collection leaves: the live entries, in the other block, when the block
    has garbage; the same state otherwise. *)
Lemma collect_spec b st es s : kv_log b st es s →
  if st =? BLK_STATE_DIRTY then kv_log (1 - b) BLK_STATE_USED (alive es) (kv_gc_task s) else kv_gc_task s = with_gc 0 (gc_waiter s) s.
Proof.
  intros I. pose proof I as [Hb [Hs Hd Ha] P F B C W T]. pose proof (size_pos es (proj1 Hd)). pose proof Hd as [Wd Sd]. cbn [snd] in *. unfold kv_gc_task, gc_collect. cbv zeta. rewrite C. cbn [Z.eqb].
  rewrite (find_clean_spec b _ s Hb B) by (destruct Hs as [-> | ->]; done).
  assert (Z.shiftr (write_pos s) BLK_BITS = b) as Ew.
  { rewrite W. unfold BLK_BITS. rewrite Z.shiftr_div_pow2 by lia. symmetry. apply Z.div_unique with (r := 4 + size es); unfold e_pos; lia. }
  rewrite Ew. set (s1 := with_write_pos _ s). rewrite (find_dirty_spec b _ s1 Hb B). cbn [bi_state].
  destruct (Z.eqb_spec st BLK_STATE_DIRTY) as [-> |N].
  2: { unfold s1, with_write_pos. cbn. by destruct s. }
  pose proof (other_index b Hb) as Hj.
  assert (copying b es [] es s1) as C1.
  { split; try done. cbn [s1 with_write_pos write_pos]. rewrite blk_pos_eq by done. unfold e_pos, BLK_HDR_SIZE. change (size (alive [])) with 0. rewrite u16_small; destruct Hb as [-> | ->]; lia. }
  destruct (gc_traverse b es Hb Hd s1 C1) as (s2 & -> & [_ F2 P2 B2 C2 W2]). pose proof (alive_ok es Hd BLK_STATE_CLEAN es [] (eq_sym (app_nil_r es))) as Ho.
  destruct (format_spec b Hb _ _ _ _ s2 Hd Ho F2 P2 B2 ltac:(lia)) as (s3 & -> & P3 & B3 & C3 & F3 & W3). cbn [truthy negb Z.eqb RES_OK].
  pose proof (alive_wf es Wd) as [A1 A2]. pose proof (size_pos _ A1). rewrite W3, W2. replace (Z.shiftr (e_pos (1 - b) (alive es)) BLK_BITS) with (1 - b).
  2: { unfold BLK_BITS. rewrite Z.shiftr_div_pow2 by lia. apply Z.div_unique with (r := 4 + size (alive es)); unfold e_pos; lia. }
  unfold kv_state_set. rewrite blk_pos_eq by done. rewrite write_ok; [|done | cbn [length]; destruct Hb as [-> | ->]; unfold KV_TOTAL_SIZE, KV_STATE_OFF; lia].
  set (s4 := do_op _ s3). assert (block_info s4 = info b clean_info (mkBi (4092 - size (alive es)) BLK_STATE_CLEAN)) as B4 by done.
  unfold set_bstate. rewrite (bi_other b _ _ s4 Hb B4). cbn [bi_space].
  split; try done; cbn [with_gc with_clean part block_info clean_blk_nums write_pos gc_trigger faults]; try by left.
  - split; [by left | apply (alive_ok es Hd _ es [] (eq_sym (app_nil_r es))) |]. intros _. apply List.Forall_forall. intros e He. unfold alive in He. apply List.filter_In in He. tauto.
  - cbn [set_bi with_info part s4 do_op apply_op]. rewrite P3, (flash_swap b) by done.
    by rewrite (program_state (1 - b) BLK_STATE_CLEAN BLK_STATE_USED (alive es) clean_blk Hj clean_ok Ho).
  - rewrite (set_bi_other b _ _ s4 Hb B4). by rewrite info_swap.
  - cbn [set_bi with_info s4 do_op clean_blk_nums]. rewrite C3, C2. done.
  - cbn [set_bi with_info s4 do_op write_pos]. by rewrite W3.
Qed.

Lemma alive_all es : Forall (λ e, e_live e = true) es → alive es = es.
Proof. unfold alive. induction 1 as [|e es E H IH]; [done|]. cbn [List.filter]. by rewrite E, IH. Qed.

Lemma with_gc_log b st es t w s : t = 0 \/ t = 1 → kv_log b st es s → kv_log b st es (with_gc t w s).
Proof. intros Ht []. by split. Qed.

(** Either way the log of the block in use is what was alive. *)
Lemma gc_task_spec b st es s : kv_log b st es s → gc_trigger (kv_gc_task s) = 0 /\ exists b', kv_log b' BLK_STATE_USED (alive es) (kv_gc_task s).
Proof.
  intros I. split; [done|]. pose proof (collect_spec b st es s I) as H. pose proof (inv_use _ _ _ _ I) as [Hs _ Ha].
  destruct Hs as [-> | ->]; cbn [Z.eqb] in H.
  - exists b. rewrite alive_all by (by apply Ha). change (BLK_STATE_USED =? BLK_STATE_DIRTY) with false in H. rewrite H. apply with_gc_log; [by left | done].
  - by exists (1 - b).
Qed.

Lemma gc_wait_spec b st es s : kv_log b st es s → exists b' st' es', kv_log b' st' es' (gc_wait s) /\ alive es' = alive es /\
  (truthy (gc_trigger s) = true → es' = alive es).
Proof.
  intros I. unfold gc_wait. destruct (truthy (gc_trigger s)) eqn:T.
  - pose proof (gc_task_spec b st es _ (with_gc_log b st es (gc_trigger s) (u8 (gc_waiter s + 1)) s (inv_trigger _ _ _ _ I) I)) as [_ [b' I']].
    exists b', BLK_STATE_USED, (alive es). split; [done|]. by rewrite alive_alive.
  - by exists b, st, es.
Qed.

Lemma contents_alive es es' : alive es = alive es' → contents es = contents es' /\ live_keys es = live_keys es'.
Proof. intros E. unfold contents, live_keys. by rewrite E. Qed.

(** ** The operations on the map *)

(** The key and its value in a log that has it. *)
Lemma found_pos b es key it : found_at b es key it → exists pre e post, es = pre ++ e :: post /\ e_live e = true /\ e_key e = key /\
  it = with_store (e_body e) (item_at b pre e) /\ i_pos it = e_pos b pre.
Proof. intros (pre & e & post & H1 & H2 & H3 & ->). by exists pre, e, post. Qed.

Lemma not_alive_keys pre e post : List.NoDup (live_keys (pre ++ e :: post)) → e_live e = true →
  forall x, In x (alive (pre ++ e_kill e :: post)) → e_key x ≠ e_key e.
Proof.
  intros N El x Hx Ek. unfold live_keys in N. rewrite alive_live, map_app in N by done. apply NoDup_remove_2 in N. apply N.
  rewrite alive_kill in Hx. rewrite <- Ek, <- map_app. by apply in_map.
Qed.

Lemma keys_snoc es e : e_live e = true → List.NoDup (live_keys es) → (forall x, In x (alive es) → e_key x ≠ e_key e) → List.NoDup (live_keys (es ++ [e])).
Proof.
  intros El N H. unfold live_keys. rewrite alive_live, map_app by done. cbn [alive List.filter map]. apply (NoDup_ListNoDup (map e_key (alive es) ++ [e_key e])). apply NoDup_app. split; [by apply NoDup_ListNoDup|].
  split; [|apply NoDup_singleton]. intros k Hk Hk'. apply list_elem_of_singleton in Hk'. subst k. apply list_elem_of_In, in_map_iff in Hk as (x & Ex & Hx). by apply (H x).
Qed.

(** Updating the item found for the key. *)
Lemma update_spec b st es s key val it : kv_inv b st es s → valid_item key val → found_at b es key it →
  exists r s' st' es', kv_item_update it key val s = (r, s') /\ kv_inv b st' es' s' /\
  ((r = RES_OK /\ contents es' = <[key := val]> (contents es)) \/
   (r = RES_NO_SPACE /\ es' = es /\ gc_trigger s' = 1 /\ 4092 - size es <= e_len (item_entry key val 0))).
Proof.
  intros [I N] V Hf. destruct (found_pos _ _ _ _ Hf) as (pre & e & post & E & El & Ek & -> & Ep). unfold kv_item_update.
  cbn [with_store i_hdr i_store item_at e_hdr h_val_len h_key_len]. rewrite Nat2Z.id. unfold e_body at 1. rewrite drop_app_length.
  destruct ((Z.of_nat (length (e_val e)) =? Z.of_nat (length val)) && list_eqb (e_val e) val) eqn:Same.
  - apply andb_true_iff in Same as [_ Hv]. apply bool_decide_eq_true in Hv. exists RES_OK, s, st, es. split; [done|]. split; [done|]. left. split; [done|].
    rewrite insert_id; [done|]. subst. by apply contents_live.
  - clear Same. pose proof I as [Hb [Hs [Wd Sd] Ha] _ _ _ _ _ _]. cbn [snd] in *. pose proof Wd as Wd'. rewrite E in Wd', Sd. rewrite size_app, size_cons in Sd.
    apply Forall_app in Wd' as [W1 [We W3]%Forall_cons_1]. pose proof (size_pos pre W1). pose proof (size_pos post W3). pose proof (e_len_bounds e We).
    cbn [with_store i_pos item_at].
    assert (is_u16 (e_pos b pre)) as Ho by (destruct Hb as [-> | ->]; unfold e_pos; lia).
    pose proof (store_spec b st es s key val (e_pos b pre) I V Ho) as (s1 & -> & R). set (e' := item_entry key val (e_pos b pre)) in *.
    change (e_len (item_entry key val 0)) with (e_len e'). destruct (Z.gtb_spec (4092 - size es) (e_len e')) as [G|G].
    + destruct R as [I1 _]. cbn [truthy negb Z.eqb RES_OK]. unfold kv_item_del. cbn [with_store i_pos item_at].
      assert (es ++ [e'] = pre ++ e :: (post ++ [e'])) as E1 by (by rewrite E, <- app_assoc). rewrite E1 in I1.
      rewrite (del_log b st pre (post ++ [e']) e s1 I1). do 4 eexists. split; [reflexivity|].
      pose proof (killed_log b st pre (post ++ [e']) e s1 I1) as I2. subst es key.
      pose proof (not_alive_keys pre e post N El) as Nk. pose proof (killed_inv pre post e El N) as N2.
      change (pre ++ e_kill e :: post ++ [e']) with (pre ++ (e_kill e :: post) ++ [e']) in *. rewrite app_assoc in I2.
      split; [split; [exact I2 | by apply keys_snoc]|]. left. split; [done|].
      rewrite contents_snoc by done. cbn [e' item_entry e_key e_val]. rewrite contents_kill by done. by rewrite insert_delete_eq.
    + cbn [truthy negb Z.eqb RES_NO_SPACE]. exists RES_NO_SPACE, s1, st, es. split; [done|]. destruct R as (I1 & T1 & _). split; [done|]. right. repeat split; (done || lia).
Qed.

Lemma set_spec b st es s key val : kv_inv b st es s → valid_item key val →
  exists r s' b' st' es', aos_kv_set key val s = (r, s') /\ kv_inv b' st' es' s' /\
  ((r = RES_OK /\ contents es' = <[key := val]> (contents es)) \/
   (r = RES_NO_SPACE /\ contents es' = contents es /\ alive es' = alive es /\ gc_trigger s' = 1 /\
    (truthy (gc_trigger s) = true → 4092 - size (alive es) <= e_len (item_entry key val 0)))).
Proof.
  intros [I N] V. pose proof V as [Hk Hv _ _]. destruct (gc_wait_spec b st es s I) as (b1 & st1 & es1 & I1 & A1 & T1).
  destruct (contents_alive es1 es A1) as [C1 K1]. assert (kv_inv b1 st1 es1 (gc_wait s)) as I1' by (split; [done | by rewrite K1]).
  unfold aos_kv_set. unfold ITEM_MAX_KEY_LEN, ITEM_MAX_VAL_LEN in *. cbv zeta.
  replace ((Z.of_nat (length val) <=? 0) || (Z.of_nat (length key) >? 128) || (Z.of_nat (length val) >? 512)) with false
    by (symmetry; rewrite !orb_false_iff; repeat split; lia).
  destruct (get_spec b1 st1 es1 _ I1 key) as [(it & -> & Hf)|[-> Hn]].
  - destruct (update_spec b1 st1 es1 _ key val it I1' V Hf) as (r & s' & st' & es' & -> & I' & R). exists r, s', b1, st', es'. split; [done|]. split; [done|].
    destruct R as [[-> R]|(-> & -> & T & S)]; [left; by rewrite R, C1|]. right. split_and!; try done. intros X. by rewrite <- (T1 X).
  - pose proof (store_spec b1 st1 es1 _ key val 0 I1 V ltac:(lia)) as (s' & -> & R). set (e := item_entry key val 0) in *.
    destruct (Z.gtb_spec (4092 - size es1) (e_len e)) as [G|G].
    + destruct R as [I' _]. do 5 eexists. split; [reflexivity|]. split; [split; [exact I' | apply keys_snoc; [done | by rewrite K1 | done]]|].
      left. split; [done|]. rewrite contents_snoc by done. by rewrite C1.
    + destruct R as (I' & T & _). do 5 eexists. split; [reflexivity|]. split; [split; [exact I' | by rewrite K1]|]. right. split_and!; try done.
      intros X. rewrite <- (T1 X). lia.
Qed.

(** ** Footprint *)

Definition footprint (m : gmap (list Z) (list Z)) : Z := map_fold (λ k v n, e_len (item_entry k v 0) + n) 0 m.

Lemma footprint_insert m k v : m !! k = None → footprint (<[k := v]> m) = e_len (item_entry k v 0) + footprint m.
Proof. intros H. unfold footprint. rewrite map_fold_insert_L; [done | intros; lia | done]. Qed.

(** The live entries take the space of the map. *)
Lemma footprint_alive es : List.NoDup (live_keys es) → footprint (contents es) = size (alive es).
Proof.
  unfold contents, live_keys. induction (alive es) as [|e l IH]; intros N; [done|]. cbn [map] in N. apply NoDup_cons_iff in N as [N1 N2].
  cbn [map list_to_map foldr pair_of fst snd]. rewrite size_cons, <- (IH N2). apply footprint_insert.
  apply not_elem_of_list_to_map_1. intros H. apply N1. apply list_elem_of_In in H. change (In (e_key e) (map fst (map pair_of l))) in H.
  by rewrite map_map in H.
Qed.

(** ** Deletion of many keys *)

(** A traversal of the clean block. *)
Lemma traverse_clean func b st es s : kv_log b st es s → kv_item_traverse func (1 - b) s = (None, s).
Proof.
  intros I. pose proof I as [Hb [Hs Hd Ha] P F B C W T]. pose proof (other_index b Hb) as Hj.
  pose proof (traverse_spec func (1 - b) (λ pre rest t, t = s /\ pre = [] /\ rest = []) (λ _ _, False) Hj) as R. specialize (fun h1 h2 h3 => R h1 h2 h3 [] s (conj eq_refl (conj eq_refl eq_refl))).
  destruct (kv_item_traverse func (1 - b) s) as [o t].
  assert (match o with Some _ => False | None => exists es' t0, (t0 = s /\ es' = [] /\ ([] : list entry) = []) /\ t = set_space (1 - b) (4092 - size es') t0 end) as R'.
  { apply R; clear R; [|by intros ? ? ? ? (_ & _ & [=])..]. intros pre rest t0 (-> & -> & ->). split; [done|]. exists BLK_STATE_CLEAN, (st, es). rewrite P, flash_swap by done. split; [done|]. split; [apply clean_ok | done]. }
  destruct o; [done|]. destruct R' as (es' & t0 & (-> & -> & _) & ->). f_equal. unfold set_space. rewrite (bi_other b _ _ s Hb B).
  apply (set_bi_same_other b _ _ s Hb B).
Qed.

Section Sweep.
Context (func : kv_item_t → kv → Z * kv_item_t * kv) (g : list Z → bool).
Hypothesis func_spec : forall b st pre e post t, kv_log b st (pre ++ e :: post) t → e_live e = true →
  func (item_at b pre e) t = (RES_CONT, item_at b pre e, if g (e_key e) then snd (del_at (e_pos b pre) t) else t).

Definition sweep1 (e : entry) : entry := if e_live e && g (e_key e) then e_kill e else e.
Definition sweep (es : list entry) : list entry := map sweep1 es.

Lemma sweep_size es : size (sweep es) = size es.
Proof. induction es as [|e es IH]; [done|]. cbn [sweep map]. rewrite !size_cons. fold (sweep es). rewrite IH. unfold sweep1. by destruct (_ && _). Qed.

Lemma sweep_alive es : alive (sweep es) = List.filter (λ e, negb (g (e_key e))) (alive es).
Proof.
  unfold alive, sweep. induction es as [|e es IH]; [done|]. cbn [map List.filter]. unfold sweep1 at 1 2. destruct (e_live e) eqn:El; cbn [andb]; [|by rewrite El].
  destruct (g (e_key e)) eqn:Eg; cbn [e_live e_kill e_state List.filter]; rewrite ?Eg; [done|]. fold (e_live e). by rewrite El, IH.
Qed.

Lemma sweep_contents es : List.NoDup (live_keys es) →
  contents (sweep es) = filter (λ kv, g (fst kv) = false) (contents es) /\ List.NoDup (live_keys (sweep es)).
Proof.
  unfold contents, live_keys. rewrite sweep_alive. induction (alive es) as [|e l IH]; intros N; [done|]. cbn [map] in N. apply NoDup_cons_iff in N as [N1 N2].
  destruct (IH N2) as [IH1 IH2]. cbn [List.filter map list_to_map foldr pair_of fst snd]. destruct (g (e_key e)) eqn:Eg; cbn [negb].
  - rewrite map_filter_insert_False; [|cbn; congruence]. rewrite IH1. split; [|done]. apply map_eq. intros k. symmetry.
    destruct (decide (k = e_key e)) as [-> |Ne]; [|by rewrite !map_lookup_filter, lookup_delete_ne by done].
    rewrite !map_lookup_filter, lookup_delete_eq. destruct (list_to_map (map pair_of l) !! e_key e); [|done]. cbn. rewrite option_guard_False; [done | congruence].
  - cbn [map list_to_map foldr pair_of fst snd]. rewrite map_filter_insert_True by done. rewrite IH1. split; [done|]. apply NoDup_cons_iff. split; [|done].
    intros H. apply N1. apply in_map_iff in H as (x & Hx & Hin). apply List.filter_In in Hin as [Hin _]. apply in_map_iff. by exists x.
Qed.

Lemma sweep_traverse b st es s : kv_log b st es s → exists st' s', kv_item_traverse func b s = (None, s') /\ kv_log b st' (sweep es) s'.
Proof.
  intros I. pose proof I as [Hb _ _ _ _ _ _ _].
  pose (P := λ pre rest t, exists st' pre0, kv_log b st' (pre ++ rest) t /\ es = pre0 ++ rest /\ pre = sweep pre0).
  assert (P [] es s) as HP by (by exists st, []).
  pose proof (traverse_spec func b P (λ _ _, False) Hb) as R. specialize (fun h1 h2 h3 => R h1 h2 h3 es s HP).
  destruct (kv_item_traverse func b s) as [o t].
  assert (match o with Some _ => False | None => exists es' t0, P es' [] t0 /\ t = set_space b (4092 - size es') t0 end) as R'.
  { apply R; clear R.
    - intros pre rest t0 (st' & pre0 & I' & _). by apply (inv_holds b st').
    - intros pre e rest t0 (st' & pre0 & I' & E & E') El. rewrite (func_spec b st' pre e rest t0 I' El). do 3 eexists. split; [reflexivity|]. right. split; [done|].
      exists (pre ++ [sweep1 e]), rest. split; [done|]. split; [rewrite !size_app, !size_cons; unfold sweep1; by destruct (_ && _)|].
      assert (es = (pre0 ++ [e]) ++ rest) as E2 by (by rewrite E, <- app_assoc).
      assert (pre ++ [sweep1 e] = sweep (pre0 ++ [e])) as E3 by (subst pre; unfold sweep; by rewrite map_app).
      destruct (g (e_key e)) eqn:Eg.
      + rewrite (del_log b st' pre rest e t0 I'). exists BLK_STATE_DIRTY, (pre0 ++ [e]). split; [|done]. rewrite <- app_assoc. unfold sweep1. rewrite El, Eg. cbn [andb app].
        by apply killed_log.
      + exists st', (pre0 ++ [e]). split; [|done]. rewrite <- app_assoc. unfold sweep1. rewrite El, Eg. done.
    - intros pre e rest t0 (st' & pre0 & I' & E & E') El. rewrite (inv_mark b st' _ t0 I' pre e rest) by done. exists st', (pre0 ++ [e]). split; [by rewrite <- app_assoc|].
      split; [by rewrite <- app_assoc|]. subst pre. unfold sweep. rewrite map_app. cbn [map]. unfold sweep1. by rewrite El. }
  destruct o; [done|]. destruct R' as (es' & t0 & (st' & pre0 & I' & E & ->) & ->). rewrite app_nil_r in *. subst pre0. exists st', t0.
  by rewrite (inv_space b st' _ t0 I').
Qed.

(** Both blocks, in order. *)
Lemma sweep_blocks s m : represents s m → represents (traverse_blocks BLK_NUMS func 0 s) (filter (λ kv, g (fst kv) = false) m).
Proof.
  intros (b & st & es & [I N] & <-). destruct (sweep_traverse b st es s I) as (st' & s' & T & I').
  destruct (sweep_contents es N) as [C' N']. exists b, st', (sweep es). split; [|done]. split; [|done].
  change BLK_NUMS with 2%nat. pose proof (inv_index _ _ _ _ I) as [-> | ->]; cbn [traverse_blocks]; change (0 + 1) with 1.
  - rewrite T. cbn [snd]. pose proof (traverse_clean func 0 st' _ s' I') as T2. change (1 - 0) with 1 in T2. by rewrite T2.
  - pose proof (traverse_clean func 1 st _ s I) as T2. change (1 - 1) with 0 in T2. rewrite T2. cbn [snd]. by rewrite T.
Qed.
End Sweep.

(** The two callbacks that delete many keys. *)
Lemma has_prefix_short prefix key : (length key < length prefix)%nat → key_has_prefix prefix key = false.
Proof. intros H. apply bool_decide_eq_false. intros E. apply (f_equal length) in E. rewrite length_take in E. lia. Qed.

Section Callbacks.
Context (b st : Z) (pre post : list entry) (e : entry) (t : kv) (prefix : list Z).
Hypothesis I : kv_log b st (pre ++ e :: post) t.

Lemma read_key_at : kv_os_partition_read (e_pos b pre + ITEM_HDR_SIZE) (Z.of_nat (length (e_key e))) t = (Some (e_key e), t).
Proof.
  destruct I as [Hb [Hs Hd Ha] P F B C W T]. destruct (at_facts st pre post e Hd) as (W1 & We & W3 & L1 & S1 & S2 & S3).
  pose proof (e_len_bounds e We) as (B1 & _). rewrite length_body in B1. rewrite read_ok by (done || (destruct Hb as [-> | ->]; unfold e_pos, ITEM_HDR_SIZE, KV_TOTAL_SIZE in *; lia)).
  by rewrite P, (read_key b st pre post e clean_blk Hb clean_ok Hd).
Qed.

Lemma by_prefix_cb : __item_del_by_prefix_cb prefix (item_at b pre e) t =
  (RES_CONT, item_at b pre e, if key_has_prefix prefix (e_key e) then snd (del_at (e_pos b pre) t) else t).
Proof.
  unfold __item_del_by_prefix_cb. cbn [item_at i_hdr e_hdr h_key_len i_pos]. fold (item_at b pre e).
  destruct (Z.ltb_spec (Z.of_nat (length (e_key e))) (Z.of_nat (length prefix))) as [L|L]; [by rewrite has_prefix_short by lia|].
  rewrite malloc_ok by apply I. by rewrite read_key_at.
Qed.

Lemma del_all_cb (ex : option (list Z)) : __item_del_all_cb ex (item_at b pre e) t =
  (RES_CONT, item_at b pre e, if match ex with Some prefix => negb (key_has_prefix prefix (e_key e)) | None => true end then snd (del_at (e_pos b pre) t) else t).
Proof.
  pose proof I as [_ [_ Hd _] _ _ _ _ _ _]. destruct (at_facts st pre post e Hd) as (_ & [Hk _ _ _ _ _] & _). unfold ITEM_MAX_KEY_LEN in Hk.
  unfold __item_del_all_cb. cbn [item_at i_hdr e_hdr h_key_len i_pos]. fold (item_at b pre e). rewrite (proj2 (Z.gtb_lt _ _)) by lia.
  destruct ex as [p|]; [|done]. destruct (Z.ltb_spec (Z.of_nat (length (e_key e))) (Z.of_nat (length p))) as [L|L]; [by rewrite has_prefix_short by lia|].
  rewrite malloc_ok by apply I. by rewrite read_key_at.
Qed.
End Callbacks.

(** ** The store implements a map *)

(** The calls of the module, and the collection that may run between them. *)
Inductive kv_call := Set_ (key val : list Z) | Del (key : list Z) | DelPrefix (prefix : list Z) | DelAll (ex_prefix : option (list Z)) | Collect.

Definition kv_exec (c : kv_call) (s : kv) : Z * kv :=
  match c with
  | Set_ key val => aos_kv_set key val s
  | Del key => aos_kv_del key s
  | DelPrefix p => aos_kv_del_by_prefix p s
  | DelAll p => aos_kv_del_all p s
  | Collect => (RES_OK, kv_gc_task s)
  end.

(** What a call answers and does to the map. *)
Inductive map_step (m : gmap (list Z) (list Z)) : kv_call → Z → gmap (list Z) (list Z) → Prop :=
  | step_set key val : valid_item key val → map_step m (Set_ key val) RES_OK (<[key := val]> m)
  | step_full key val : valid_item key val → map_step m (Set_ key val) RES_NO_SPACE m
  | step_del key : is_Some (m !! key) → map_step m (Del key) RES_OK (delete key m)
  | step_absent key : m !! key = None → map_step m (Del key) RES_ITEM_NOT_FOUND m
  | step_prefix p : map_step m (DelPrefix p) RES_OK (filter (λ kv, key_has_prefix p (fst kv) = false) m)
  | step_all : map_step m (DelAll None) RES_OK ∅
  | step_keep p : map_step m (DelAll (Some p)) RES_OK (filter (λ kv, key_has_prefix p (fst kv) = true) m)
  | step_collect : map_step m Collect RES_OK m.

Definition call_ok (c : kv_call) : Prop := match c with Set_ key val => valid_item key val | _ => True end.

Lemma exec_step c s m : represents s m → call_ok c → exists m', map_step m c (fst (kv_exec c s)) m' /\ represents (snd (kv_exec c s)) m'.
Proof.
  intros R Hc. pose proof R as (b & st & es & [I N] & Em). destruct c as [key val|key|p|ex|]; cbn [kv_exec].
  - destruct (set_spec b st es s key val (conj I N) Hc) as (r & s' & b' & st' & es' & -> & I' & [[-> C]|(-> & C & _)]); cbn [fst snd].
    + exists (<[key := val]> m). split; [by constructor|]. exists b', st', es'. by rewrite C, Em.
    + exists m. split; [by constructor|]. exists b', st', es'. by rewrite C, Em.
  - unfold aos_kv_del. destruct (get_spec b st es s I key) as [(it & -> & Hf)|[-> Hn]]; cbn [fst snd].
    + destruct (found_pos _ _ _ _ Hf) as (pre & e & post & -> & El & <- & _ & Ep). unfold kv_item_del. rewrite Ep, (del_log b st pre post e s I). cbn [fst snd].
      exists (delete (e_key e) m). split; [constructor; subst m; by rewrite contents_live|].
      exists b, BLK_STATE_DIRTY, (pre ++ e_kill e :: post). split; [split; [by apply killed_log | by apply killed_inv]|]. subst m. by apply contents_kill.
    + exists m. split; [constructor; subst m; by apply contents_none | done].
  - exists (filter (λ kv, key_has_prefix p (fst kv) = false) m). split; [constructor|]. apply sweep_blocks; [|done]. intros ? ? ? ? ? ? H _. exact (by_prefix_cb _ _ _ _ _ _ p H).
  - destruct ex as [p|].
    + exists (filter (λ kv, key_has_prefix p (fst kv) = true) m). split; [constructor|].
      rewrite (proj1 (map_filter_ext _ (λ kv, negb (key_has_prefix p (fst kv)) = false) m)); [|intros k v _; cbn; by destruct (key_has_prefix p k)].
      apply (sweep_blocks (__item_del_all_cb (Some p)) (λ k, negb (key_has_prefix p k))); [|done]. intros ? ? ? ? ? ? H _. exact (del_all_cb _ _ _ _ _ _ H (Some p)).
    + exists ∅. split; [constructor|]. replace ∅ with (filter (λ kv : list Z * list Z, true = false) m).
      * apply (sweep_blocks (__item_del_all_cb None) (λ _, true)); [|done]. intros ? ? ? ? ? ? H _. exact (del_all_cb _ _ _ _ _ _ H None).
      * apply map_empty. intros k. rewrite map_lookup_filter. destruct (m !! k); [|done]. cbn. by rewrite option_guard_False.
  - exists m. split; [constructor|]. cbn [snd]. destruct (gc_task_spec b st es s I) as [_ [b' I']]. exists b', BLK_STATE_USED, (alive es).
    destruct (contents_alive (alive es) es (alive_alive es)) as [C' K']. split; [split; [done | by rewrite K'] | by rewrite C'].
Qed.

Fixpoint kv_run (cs : list kv_call) (s : kv) : list Z * kv :=
  match cs with
  | [] => ([], s)
  | c :: cs => let '(r, s) := kv_exec c s in let '(rs, s) := kv_run cs s in (r :: rs, s)
  end.

Inductive map_run : gmap (list Z) (list Z) → list kv_call → list Z → gmap (list Z) (list Z) → Prop :=
  | run_nil m : map_run m [] [] m
  | run_cons m m' m'' c cs r rs : map_step m c r m' → map_run m' cs rs m'' → map_run m (c :: cs) (r :: rs) m''.

(** [C3] The store refines a finite map: whatever calls are made from a state that stands for the map [m], in any order and with garbage collections anywhere between them, there is a run of the map that gives the same answers, and the store then stands for the map that run ends in: a lookup of any key answers what the map has for it, and changes nothing.  A store answers "no space" only by leaving the map as it was. *)
Theorem kv_refines_map cs s m : represents s m → Forall call_ok cs →
  exists m', map_run m cs (fst (kv_run cs s)) m' /\ represents (snd (kv_run cs s)) m' /\
  forall key, kv_lookup key (snd (kv_run cs s)) = (m' !! key, snd (kv_run cs s)).
Proof.
  intros R Hc. revert s m R. induction Hc as [|c cs Hc Hcs IH]; intros s m R.
  - exists m. split; [constructor|]. split; [done|]. intros key. destruct R as (b & st & es & [I N] & <-). by apply (lookup_spec b st).
  - cbn [kv_run]. destruct (exec_step c s m R Hc) as (m1 & S1 & R1). destruct (kv_exec c s) as [r s1]. cbn [fst snd] in *.
    destruct (IH s1 m1 R1) as (m2 & S2 & R2). destruct (kv_run cs s1) as [rs s2]. cbn [fst snd] in *. exists m2. split; [by econstructor | done].
Qed.

(** A full store recovers: when the map's items and the new one fit a block, a store refused for lack of space succeeds when it is tried once more, since the refusal asked for a collection and the next call waits for it. *)
Theorem kv_set_retry s m key val : represents s m → valid_item key val → footprint m + e_len (item_entry key val 0) < 4092 →
  let '(r, s1) := aos_kv_set key val s in
  let '(r', s2) := aos_kv_set key val s1 in
  r = RES_OK /\ represents s1 (<[key := val]> m) \/ r = RES_NO_SPACE /\ r' = RES_OK /\ represents s2 (<[key := val]> m).
Proof.
  intros (b & st & es & [I N] & <-) V Hf. rewrite (footprint_alive es N) in Hf.
  destruct (set_spec b st es s key val (conj I N) V) as (r & s1 & b1 & st1 & es1 & -> & I1 & R).
  destruct (set_spec b1 st1 es1 s1 key val I1 V) as (r' & s2 & b2 & st2 & es2 & -> & I2 & R2).
  destruct R as [[-> C]|(-> & C & A & T & _)]; [left; split; [done|]; by exists b1, st1, es1|]. right. split; [done|].
  destruct R2 as [[-> C2]|(-> & _ & _ & _ & F)]; [split; [done|]; exists b2, st2, es2; by rewrite C2, C|]. exfalso.
  rewrite T, A in F. specialize (F eq_refl). lia.
Qed.

(** ** Witnesses *)

Lemma kv0_inv : kv_inv 0 BLK_STATE_USED [] kv0.
Proof.
  split; [|constructor]. split; try (vm_compute; reflexivity); [by left | | by left]. split; [by left | split; [constructor | done] | done].
Qed.

Lemma kv0_represents : represents kv0 ∅.
Proof. exists 0, BLK_STATE_USED, []. split; [apply kv0_inv | done]. Qed.

Definition wkey : list Z := [97; 98].
Definition wval : list Z := [1; 2; 3].
Lemma wvalid : valid_item wkey wval.
Proof. split; try (unfold ITEM_MAX_KEY_LEN, ITEM_MAX_VAL_LEN; cbn; lia); repeat constructor; lia. Qed.

Lemma kv_refines_map_witness : let cs := [Set_ wkey wval; Collect; DelPrefix [98]] in
  exists m', map_run ∅ cs (fst (kv_run cs kv0)) m' /\ represents (snd (kv_run cs kv0)) m' /\
  forall key, kv_lookup key (snd (kv_run cs kv0)) = (m' !! key, snd (kv_run cs kv0)).
Proof.
  apply (kv_refines_map [Set_ wkey wval; Collect; DelPrefix [98]] kv0 ∅ kv0_represents). constructor; [exact wvalid|]. constructor; [exact Logic.I|].
  constructor; [exact Logic.I | constructor].
Defined.

Lemma kv_set_retry_witness :
  let '(r, s1) := aos_kv_set wkey wval kv0 in
  let '(r', s2) := aos_kv_set wkey wval s1 in
  r = RES_OK /\ represents s1 (<[wkey := wval]> ∅) \/ r = RES_NO_SPACE /\ r' = RES_OK /\ represents s2 (<[wkey := wval]> ∅).
Proof. apply (kv_set_retry kv0 ∅ wkey wval kv0_represents wvalid). vm_compute. reflexivity. Defined.
