(* ===== verification/KvCrash.v ===== *)
(** * KvCrash: restart of the key-value store, with and without a power failure

    [aos_kv_init] rebuilds the module's state from the flash.  An item that replaced an
    older one carries the older one's position (its origin); recovery deletes the item
    at that position if it still is a live item of the same key, which finishes an
    update a power failure cut short.  The theorems say when that restores the map,
    and that a power failure during a collection can lose a key. *)
From Stdlib Require Import ZArith Lia List Bool.
From stdpp Require Import base list numbers option gmap.
From S2P Require Import Prelude Env Aes Storage KvStore KvLog KvProps.
Local Open Scope Z_scope.

(** ** Recovery of a block *)

(** Block [b] holds [es], the other block is clean; nothing is known of its marks. *)
Record raw (b st sp : Z) (y : block_info_t) (es : list entry) (t : kv) : Prop := {
  raw_faults : faults t = [];
  raw_part : part t = flash_of b (st, es) clean_blk;
  raw_info : block_info t = info b (mkBi sp st) y;
  raw_state : st = BLK_STATE_USED \/ st = BLK_STATE_DIRTY;
  raw_ok : blk_ok (st, es) }.

(** What an origin may point at: nothing, the other block, or the start of an entry. *)
Definition origin_ok (b : Z) (es : list entry) (e : entry) : Prop :=
  e_origin e = 0 \/ (4096 * (1 - b) <= e_origin e < 4096 * (1 - b) + 4096) \/
  exists pre' e' post', es = pre' ++ e' :: post' /\ e_origin e = e_pos b pre'.

(** The entry that recovery deletes for the sake of [e], found behind [pre]. *)
Definition victim (b : Z) (es pre : list entry) (e : entry) (pre' : list entry) (e' : entry) (post' : list entry) : Prop :=
  es = pre' ++ e' :: post' /\ e_live e' = true /\ e_key e' = e_key e /\ e_origin e = e_pos b pre' /\ e_pos b pre ≠ e_pos b pre'.

(** No byte of a clean block starts an item. *)
Lemma clean_no_item b d off : blk_index b → blk_ok d → 4096 * (1 - b) <= off < 4096 * (1 - b) + 4096 →
  h_magic (hdr_of (rd off ITEM_HDR_SIZE (flash_of b d clean_blk))) ≠ ITEM_MAGIC_NUM.
Proof.
  intros Hb Hd Ho. destruct (flash_split (1 - b) clean_blk d (other_index b Hb) Hd) as (l & r & E & L & _). rewrite flash_swap, E by done.
  assert (rd off ITEM_HDR_SIZE (l ++ blk_bytes clean_blk ++ r) = take 8 (drop (Z.to_nat (off - 4096 * (1 - b))) (blk_bytes clean_blk ++ r))) as ->.
  { unfold rd. replace (Z.to_nat off) with (length l + Z.to_nat (off - 4096 * (1 - b)))%nat by lia. by rewrite drop_app_add. }
  set (n := Z.to_nat (off - 4096 * (1 - b))). assert (n < Z.to_nat 4096)%nat as Hn by lia. cbn [hdr_of h_magic].
  assert (exists x, blk_bytes clean_blk !! n = Some x /\ x ≠ ITEM_MAGIC_NUM) as (x & Ex & Nx).
  { destruct (lookup_lt_is_Some_2 (blk_bytes clean_blk) n) as [x Ex]; [by rewrite (length_blk_bytes _ clean_ok)|]. exists x. split; [done|].
    apply list_elem_of_lookup_2, list_elem_of_In in Ex. unfold blk_bytes, blk_image, clean_blk in Ex. cbn [fst snd images map concat app] in Ex.
    destruct Ex as [<-|[<-|[<-|[<-|Ex]]]]; [done..|]. apply repeat_spec in Ex. by subst. }
  rewrite nth_lookup, lookup_take_lt, lookup_drop by lia. rewrite Nat.add_0_r. by rewrite (lookup_app_l_Some _ _ _ _ Ex).
Qed.

Lemma split_at (p1 p2 q1 q2 : list entry) x1 x2 : p1 ++ x1 :: q1 = p2 ++ x2 :: q2 → Forall e_wf (p1 ++ x1 :: q1) → size p1 = size p2 → p1 = p2 /\ x1 = x2 /\ q1 = q2.
Proof.
  revert p2. induction p1 as [|y p1 IH]; intros [|z p2] E W S; cbn [app] in *.
  - by injection E as -> ->.
  - injection E as -> ->. apply Forall_cons_1 in W as [Wz W]. apply Forall_app in W as [W _]. rewrite size_cons in S. pose proof (e_len_bounds z Wz). pose proof (size_pos p2 W). change (size []) with 0 in S. lia.
  - injection E as -> <-. apply Forall_cons_1 in W as [Wz W]. apply Forall_app in W as [W _]. rewrite size_cons in S. pose proof (e_len_bounds x2 Wz). pose proof (size_pos p1 W). change (size []) with 0 in S. lia.
  - injection E as -> E. apply Forall_cons_1 in W as [Wz W]. rewrite !size_cons in S. destruct (IH p2 E W ltac:(lia)) as (-> & -> & ->). done.
Qed.

(** The registers that recovery does not touch. *)
Definition regs (t t' : kv) : Prop :=
  (inited t', gc_trigger t', gc_waiter t', clean_blk_nums t', write_pos t', uninit t')
  = (inited t, gc_trigger t, gc_waiter t, clean_blk_nums t, write_pos t, uninit t).

Global Instance regs_trans : Transitive regs.
Proof. intros a b c. unfold regs. congruence. Qed.

Section Recover.
Context (b : Z) (y : block_info_t).
Hypothesis Hb : blk_index b.

(** An origin that is the start of an entry. *)
Lemma del_origin_entry st sp es pre e rest pre' e' post' t : raw b st sp y es t → es = pre ++ e :: rest → es = pre' ++ e' :: post' →
  e_origin e = e_pos b pre' →
  kv_item_del_origin (item_at b pre e) t = if e_live e' && bool_decide (e_key e' = e_key e) then del_at (e_pos b pre') t else (RES_OK, t).
Proof.
  intros [F P B Hs Hd] E E' Eo. pose proof Hd as Hd1. rewrite E in Hd1. destruct (at_facts st pre rest e Hd1) as (_ & We & _ & _ & S1 & S2 & S3).
  pose proof Hd as Hd2. rewrite E' in Hd2. destruct (at_facts st pre' post' e' Hd2) as (_ & We' & _ & _ & S1' & S2' & S3').
  pose proof (e_len_bounds e We) as (B1 & _). pose proof (e_len_bounds e' We') as (B1' & _). rewrite length_body in B1, B1'.
  unfold kv_item_del_origin. cbn [item_at i_hdr e_hdr h_origin_off h_key_len i_pos]. rewrite Eo.
  rewrite read_ok by (done || (destruct Hb as [-> | ->]; unfold e_pos, ITEM_HDR_SIZE, KV_TOTAL_SIZE in *; lia)).
  pose proof (read_hdr b st pre' post' e' clean_blk Hb clean_ok Hd2) as RH. pose proof (read_key b st pre' post' e' clean_blk Hb clean_ok Hd2) as RK'.
  pose proof (read_key b st pre rest e clean_blk Hb clean_ok Hd1) as RK. rewrite <- E' in RH, RK'. rewrite <- E in RK.
  rewrite P, RH. cbn [e_hdr h_magic h_state h_key_len].
  rewrite Z.eqb_refl. fold (e_live e'). destruct (e_live e') eqn:El'; [|done]. cbn [negb orb andb].
  destruct (Z.eqb_spec (Z.of_nat (length (e_key e'))) (Z.of_nat (length (e_key e)))) as [L|L]; cbn [negb].
  2: { rewrite bool_decide_eq_false_2 by congruence. done. }
  rewrite !malloc_ok by done. rewrite !read_ok by (done || (destruct Hb as [-> | ->]; unfold e_pos, ITEM_HDR_SIZE, KV_TOTAL_SIZE in *; lia)).
  rewrite !P, RK', L, RK. cbn [default from_option id]. unfold list_eqb. by destruct (bool_decide (e_key e' = e_key e)).
Qed.

(** An origin in the clean block. *)
Lemma del_origin_clean st sp es pre e t : raw b st sp y es t → 4096 * (1 - b) <= e_origin e < 4096 * (1 - b) + 4096 → snd (kv_item_del_origin (item_at b pre e) t) = t.
Proof.
  intros [F P B Hs Hd] Ho. unfold kv_item_del_origin. cbn [item_at i_hdr e_hdr h_origin_off].
  destruct (Z.leb_spec (e_origin e + ITEM_HDR_SIZE) KV_TOTAL_SIZE) as [L|L].
  - rewrite read_ok by done. rewrite P. pose proof (clean_no_item b (st, es) _ Hb Hd Ho) as N. apply Z.eqb_neq in N. by rewrite N.
  - unfold kv_os_partition_read, next_ok. rewrite F. cbn [andb]. apply Z.leb_gt in L. by rewrite L.
Qed.

(** The callback at a live entry: it deletes the victim, if there is one. *)
Lemma recover_step st sp es pre e rest t : raw b st sp y es t → es = pre ++ e :: rest → e_live e = true → origin_ok b es e →
  (__item_recovery_cb (item_at b pre e) t = (RES_CONT, item_at b pre e, t) /\ forall pre' e' post', ~ victim b es pre e pre' e' post') \/
  (exists pre' e' post', victim b es pre e pre' e' post' /\
   __item_recovery_cb (item_at b pre e) t = (RES_CONT, item_at b pre e,
     relog (info b (mkBi sp BLK_STATE_DIRTY) y) (flash_of b (BLK_STATE_DIRTY, pre' ++ e_kill e' :: post') clean_blk) (kill_ops b st (e_pos b pre')) t)).
Proof.
  intros R E El Ho. pose proof R as [F P B Hs Hd]. pose proof Hd as Hd'. rewrite E in Hd'. destruct (at_facts st pre rest e Hd') as (W1 & We & W3 & L1 & S1 & S2 & S3).
  pose proof (e_len_bounds e We) as (B1 & B2 & _). unfold __item_recovery_cb. cbn [item_at i_len i_pos i_hdr]. rewrite malloc_ok by done.
  rewrite read_ok by (done || (destruct Hb as [-> | ->]; unfold e_pos, ITEM_HDR_SIZE, KV_TOTAL_SIZE in *; lia)).
  replace (part t) with (flash_of b (st, pre ++ e :: rest) clean_blk) by (by rewrite P, E). rewrite (read_body b st pre rest e clean_blk Hb clean_ok Hd').
  cbn [e_hdr h_crc h_origin_off]. rewrite Z.eqb_refl. fold (e_hdr e). fold (item_at b pre e).
  assert (forall pre' e' post', es = pre' ++ e' :: post' → 0 <= size pre') as Hpos.
  { intros pre' e' post' E'. pose proof (proj1 Hd) as W. cbn [snd] in W. rewrite E' in W. apply Forall_app in W as [W _]. pose proof (size_pos pre' W). lia. }
  destruct (truthy (e_origin e) && negb (e_pos b pre =? e_origin e)) eqn:Cond.
  2: { left. split; [done|]. intros pre' e' post' (E' & _ & _ & Eo & Np). specialize (Hpos _ _ _ E'). apply andb_false_iff in Cond as [C|C]; unfold truthy in C; apply negb_false_iff, Z.eqb_eq in C; [|lia].
       destruct Hb as [-> | ->]; unfold e_pos in *; lia. }
  apply andb_true_iff in Cond as [C1 C2]. unfold truthy in C1. apply negb_true_iff, Z.eqb_neq in C1, C2.
  destruct Ho as [Ho|[Ho|(pre' & e' & post' & E' & Eo)]]; [lia | left | ].
  - rewrite (del_origin_clean st sp es pre e t R Ho). split; [done|]. intros pre' e' post' (E' & _ & _ & Eo & _). specialize (Hpos _ _ _ E').
    assert (size pre' < 4092) by (pose proof (proj2 Hd) as S; pose proof (proj1 Hd) as W; cbn [snd] in *; rewrite E' in S, W; rewrite size_app in S; apply Forall_app in W as [_ W]; pose proof (size_pos _ W); lia).
    destruct Hb as [-> | ->]; unfold e_pos in *; lia.
  - rewrite (del_origin_entry st sp es pre e rest pre' e' post' t R E E' Eo).
    destruct (e_live e' && bool_decide (e_key e' = e_key e)) eqn:Cv.
    + right. apply andb_true_iff in Cv as [Cl Ck]. apply bool_decide_eq_true in Ck. exists pre', e', post'. split; [split_and!; try done; lia|].
      rewrite E' in P, Hd. rewrite (del_at_spec b st pre' e' post' clean_blk y sp t Hb F P Hd clean_ok B). unfold dirtied. by destruct Hs as [-> | ->].
    + left. split; [done|]. intros p1 x1 q1 (E1 & El1 & Ek1 & Eo1 & _). rewrite E' in E1.
      destruct (split_at pre' p1 post' q1 e' x1 E1) as (_ & <- & _); [pose proof (proj1 Hd) as W; cbn [snd] in W; by rewrite E' in W | unfold e_pos in *; lia|].
      rewrite El1 in Cv. rewrite bool_decide_eq_true_2 in Cv by done. done.
Qed.

(** Marking the block. *)
Lemma mark_raw st sp es t : raw b st sp y es t → raw b BLK_STATE_DIRTY sp y es (mark_dirty b t) /\ regs t (mark_dirty b t).
Proof.
  intros [F P B Hs Hd]. unfold mark_dirty. rewrite (bi_here b _ _ t Hb B). cbn [bi_state].
  destruct Hs as [-> | ->]; [|split; [|done]; split; try done; by right]. cbn [Z.eqb]. rewrite Z.eqb_refl.
  unfold kv_state_set. rewrite blk_pos_eq by done. rewrite write_ok; [|done | cbn [length]; destruct Hb as [-> | ->]; unfold KV_TOTAL_SIZE, KV_STATE_OFF; lia].
  cbn [snd]. set (t1 := do_op _ t). assert (block_info t1 = info b (mkBi sp BLK_STATE_USED) y) as B1 by done.
  unfold set_bstate. rewrite (bi_here b _ _ t1 Hb B1). cbn [bi_space]. split; [|done]. split; try done; [| |by right].
  - cbn [set_bi with_info part t1 do_op apply_op]. rewrite P. by apply (program_state b BLK_STATE_USED); [done | apply clean_ok | |].
  - apply (set_bi_here b _ _ t1 Hb B1).
Qed.

(** What recovery may leave of [es]. *)
Definition recovered (es es' : list entry) : Prop :=
  (es' = es /\ forall pre e, es = pre ++ [e] → e_live e = true → forall pre' e' post', ~ victim b es pre e pre' e' post') \/
  (exists pre e pre' e' post', es = pre ++ [e] /\ e_live e = true /\ victim b es pre e pre' e' post' /\ es' = pre' ++ e_kill e' :: post').

(** If no entry but the last has a victim, recovery deletes the victim of the last. *)
Lemma recover_traverse st sp es t : raw b st sp y es t →
  (forall pre e rest, es = pre ++ e :: rest → e_live e = true →
   origin_ok b es e /\ (rest ≠ [] → forall pre' e' post', ~ victim b es pre e pre' e' post')) →
  exists st' es' t', kv_item_traverse __item_recovery_cb b t = (None, t') /\ raw b st' (4092 - size es') y es' t' /\
  (st' = BLK_STATE_USED → Forall (λ e, e_live e = true) es') /\ regs t t' /\ recovered es es'.
Proof.
  intros R Hes.
  pose (P := λ pre rest t', exists st', raw b st' sp y (pre ++ rest) t' /\ regs t t' /\ (st' = BLK_STATE_USED → Forall (λ e, e_live e = true) pre) /\
    (rest ≠ [] → pre ++ rest = es) /\ (rest = [] → recovered es pre)).
  assert (P [] es t) as HP.
  { exists st. split; [done|]. split; [done|]. split; [constructor|]. split; [done|]. intros ->. left. split; [done|]. intros pre e E. by destruct pre. }
  assert (forall pre e rest t', P pre (e :: rest) t' → pre ++ e :: rest = es) as Hsplit by (intros pre e rest t' (st' & _ & _ & _ & H & _); by apply H).
  pose proof (traverse_spec __item_recovery_cb b P (λ _ _, False) Hb) as T. specialize (fun h1 h2 h3 => T h1 h2 h3 es t HP).
  destruct (kv_item_traverse _ b t) as [o t'].
  assert (match o with Some _ => False | None => exists es' t0, P es' [] t0 /\ t' = set_space b (4092 - size es') t0 end) as R'.
  { apply T; clear T t'.
    - intros pre rest t' (st' & [F' P' _ _ Hd'] & _). split; [done|]. exists st', clean_blk. split; [done|]. split; [done | apply clean_ok].
    - intros pre e rest t' HP' El. pose proof (Hsplit _ _ _ _ HP') as E. destruct HP' as (st' & R1 & G1 & A1 & _).
      symmetry in E. destruct (Hes pre e rest E El) as [Ho Hv]. rewrite <- E in R1.
      destruct (recover_step st' sp es pre e rest t' R1 E El Ho) as [[-> Nv]|(pre' & e' & post' & Hvic & ->)]; do 3 eexists; (split; [reflexivity|]); right; (split; [done|]).
      + exists (pre ++ [e]), rest. split; [done|]. split; [done|]. exists st'. rewrite <- app_assoc. cbn [app]. rewrite <- E. split; [done|]. split; [done|].
        split; [intros X; apply Forall_app; split; [by apply A1 | by constructor]|]. split; [done|]. intros ->. left. split; [done|].
        intros pre2 e2 E2 _. rewrite E in E2. apply app_inj_tail in E2 as [<- <-]. rewrite E. by rewrite <- E.
      + destruct rest as [|x rest]; [|exfalso; by apply (Hv ltac:(done) _ _ _ Hvic)].
        pose proof Hvic as (Ev & _). exists (pre' ++ e_kill e' :: post'), []. split; [done|].
        split; [rewrite <- E, Ev, !size_app, !size_cons; done|]. exists BLK_STATE_DIRTY. rewrite app_nil_r. destruct R1 as [F1 P1 B1 Hs1 Hd1]. split.
        { split; try done; [by right|]. rewrite Ev in Hd1. by apply (kill_blk_ok _ _ _ _ _ Hd1). }
        split; [done|]. split; [done|]. split; [done|]. intros _. right. by exists pre, e, pre', e', post'.
    - intros pre e rest t' HP' El. pose proof (Hsplit _ _ _ _ HP') as E. destruct HP' as (st' & R1 & G1 & A1 & _). destruct (mark_raw st' sp _ t' R1) as [R2 G2].
      exists BLK_STATE_DIRTY. rewrite <- app_assoc. cbn [app]. split; [done|]. split; [by etransitivity|]. split; [done|]. split; [done|]. intros ->. left. split; [done|].
      intros pre2 e2 E2 El2. rewrite <- E in E2. apply app_inj_tail in E2 as [<- <-]. congruence. }
  destruct o; [done|]. destruct R' as (es' & t0 & (st' & [F0 P0 B0 Hs0 Hd0] & G0 & A0 & _ & Hr) & ->). rewrite app_nil_r in *. exists st', es'. eexists. split; [reflexivity|].
  unfold set_space. rewrite (bi_here b _ _ t0 Hb B0). cbn [bi_state]. split; [|split; [done | split; [done | by apply Hr]]].
  split; try done. apply (set_bi_here b _ _ t0 Hb B0).
Qed.
End Recover.

(** ** Restart *)

Lemma clean_traverse func j t : blk_index j → holds j [] t → kv_item_traverse func j t = (None, set_space j 4092 t).
Proof.
  intros Hj H. pose proof (traverse_spec func j (λ pre rest t', t' = t /\ pre = [] /\ rest = []) (λ _ _, False) Hj) as R.
  specialize (fun h1 h2 h3 => R h1 h2 h3 [] t (conj eq_refl (conj eq_refl eq_refl))). destruct (kv_item_traverse func j t) as [o t'].
  assert (match o with Some _ => False | None => exists es' t0, (t0 = t /\ es' = [] /\ ([] : list entry) = []) /\ t' = set_space j (4092 - size es') t0 end) as R'.
  { apply R; clear R; [|by intros ? ? ? ? (_ & _ & [=])..]. by intros pre rest t0 (-> & -> & ->). }
  destruct o; [done|]. by destruct R' as (es' & t0 & (-> & -> & _) & ->).
Qed.

Section Init.
Context (b : Z).
Hypothesis Hb : blk_index b.

(** [kv_init] at the clean block. *)
Lemma init_clean n d x sp0 st0 t : faults t = [] → part t = flash_of b d clean_blk → blk_ok d → block_info t = info b x (mkBi sp0 st0) →
  0 <= clean_blk_nums t < 255 →
  exists t', init_blocks (S n) (1 - b) [] t = init_blocks n (1 - b + 1) [] t' /\ faults t' = [] /\ part t' = part t /\
  block_info t' = info b x clean_info /\ clean_blk_nums t' = clean_blk_nums t + 1 /\ gc_trigger t' = gc_trigger t.
Proof.
  intros F P Hd B C. pose proof (other_index b Hb) as Hj. cbn [init_blocks]. rewrite blk_pos_eq by done.
  rewrite read_ok by (done || (destruct Hb as [-> | ->]; unfold KV_TOTAL_SIZE, BLK_HDR_SIZE; lia)).
  pose proof (blk_header (1 - b) BLK_STATE_CLEAN [] d Hj Hd) as Hh. rewrite <- flash_swap in Hh by done. rewrite P. change (BLK_STATE_CLEAN, []) with clean_blk in Hh. rewrite Hh.
  cbn [default from_option id nth]. change (BLK_MAGIC_NUM =? BLK_MAGIC_NUM) with true. change (INVALID_BLK_STATE BLK_STATE_CLEAN) with false. cbn [andb].
  set (t1 := set_bstate (1 - b) BLK_STATE_CLEAN t). assert (block_info t1 = info b x (mkBi sp0 BLK_STATE_CLEAN)) as B1.
  { unfold t1, set_bstate. rewrite (bi_other b _ _ t Hb B). cbn [bi_space]. by apply (set_bi_other b x (mkBi sp0 st0) t). }
  rewrite clean_traverse; [|done|]. 2: { split; [done|]. exists BLK_STATE_CLEAN, d. rewrite <- flash_swap by done. split; [done|]. split; [apply clean_ok | done]. }
  change (BLK_STATE_CLEAN =? BLK_STATE_CLEAN) with true. cbv iota.
  assert (block_info (set_space (1 - b) 4092 t1) = info b x clean_info) as B2.
  { unfold set_space. rewrite (bi_other b _ _ t1 Hb B1). cbn [bi_state]. by apply (set_bi_other b x (mkBi sp0 BLK_STATE_CLEAN) t1). }
  rewrite (bi_other b _ _ _ Hb B2). change (negb (bi_space clean_info =? BLK_SIZE - BLK_HDR_SIZE)) with false. cbv iota.
  eexists. split; [reflexivity|]. split_and!; try done. cbn [with_clean clean_blk_nums]. apply u8_small. cbn. lia.
Qed.

(** [kv_init] at the block in use. *)
Lemma init_used n st es sp0 st0 y t : faults t = [] → part t = flash_of b (st, es) clean_blk → blk_ok (st, es) → (st = BLK_STATE_USED \/ st = BLK_STATE_DIRTY) →
  block_info t = info b (mkBi sp0 st0) y →
  (forall pre e rest, es = pre ++ e :: rest → e_live e = true →
   origin_ok b es e /\ (rest ≠ [] → forall pre' e' post', ~ victim b es pre e pre' e' post')) →
  exists st' es' t', init_blocks (S n) b [] t = init_blocks n (b + 1) [] t' /\ raw b st' (4092 - size es') y es' t' /\
  (st' = BLK_STATE_USED → Forall (λ e, e_live e = true) es') /\ clean_blk_nums t' = clean_blk_nums t /\ gc_trigger t' = gc_trigger t /\ recovered b es es'.
Proof.
  intros F P Hd Hs B Hes. cbn [init_blocks]. rewrite blk_pos_eq by done.
  rewrite read_ok by (done || (destruct Hb as [-> | ->]; unfold KV_TOTAL_SIZE, BLK_HDR_SIZE; lia)).
  rewrite P, (blk_header b st es clean_blk Hb clean_ok). cbn [default from_option id nth]. change (BLK_MAGIC_NUM =? BLK_MAGIC_NUM) with true.
  replace (INVALID_BLK_STATE st) with false by (by destruct Hs as [-> | ->]). cbv iota.
  set (t1 := set_bstate b st t). assert (raw b st sp0 y es t1) as R1.
  { split; try done. unfold t1, set_bstate. rewrite (bi_here b _ _ t Hb B). cbn [bi_space]. by apply (set_bi_here b (mkBi sp0 st0) y t). }
  destruct (recover_traverse b y Hb st sp0 es t1 R1 Hes) as (st' & es' & t' & -> & R2 & A2 & G2 & Hr). exists st', es', t'.
  replace (st =? BLK_STATE_CLEAN) with false by (by destruct Hs as [-> | ->]). split; [done|]. split; [done|]. split; [done|].
  injection G2 as G1 G2 G3 G4 G5 G6. done.
Qed.

(** The write position found for block [b]. *)
Lemma init_write_pos_spec st es t : raw b st (4092 - size es) clean_info es t → write_pos (init_write_pos BLK_NUMS 0 t) = e_pos b es /\
  init_write_pos BLK_NUMS 0 t = with_write_pos (e_pos b es) t.
Proof.
  intros [F P B Hs Hd]. pose proof (bi_here b _ _ t Hb B) as B1. pose proof (bi_other b _ _ t Hb B) as B2.
  pose proof (size_pos es (proj1 Hd)). destruct Hd as [Wd Sd]. cbn [snd] in *.
  assert (init_write_pos BLK_NUMS 0 t = with_write_pos (e_pos b es) t) as E; [|by rewrite E].
  assert (u16 (blk_pos b + BLK_SIZE - (4092 - size es)) = e_pos b es) as Eu.
  { rewrite blk_pos_eq by done. change BLK_SIZE with 4096. unfold e_pos. rewrite u16_small; destruct Hb as [-> | ->]; lia. }
  change BLK_NUMS with 2%nat. destruct Hb as [-> | ->]; cbn [init_write_pos]; change (Z.of_nat BLK_NUMS) with 2; change (0 + 1) with 1; change (1 + 1) with 2;
    change (1 - 0) with 1 in B2; change (1 - 1) with 0 in B2; cbn [Z.eqb Pos.eqb]; rewrite B2, B1; cbn [bi_state bi_space clean_info];
    destruct Hs as [-> | ->]; cbn [Z.eqb Pos.eqb orb andb BLK_STATE_USED BLK_STATE_DIRTY BLK_STATE_CLEAN]; rewrite ?B1; cbn [bi_space]; by rewrite Eu.
Qed.
End Init.

(** The module, restarted on a flash of one block in use and one clean block. *)
Lemma restart_spec b st es junk : blk_index b → blk_ok (st, es) → (st = BLK_STATE_USED \/ st = BLK_STATE_DIRTY) →
  (forall pre e rest, es = pre ++ e :: rest → e_live e = true →
   origin_ok b es e /\ (rest ≠ [] → forall pre' e' post', ~ victim b es pre e pre' e' post')) →
  exists st' es' s', aos_kv_init (kv_reset (flash_of b (st, es) clean_blk) junk) = (RES_OK, s') /\ kv_log b st' es' s' /\ recovered b es es'.
Proof.
  intros Hb Hd Hs Hes. unfold aos_kv_init. cbn [kv_reset inited truthy negb Z.eqb part flog faults uninit]. set (t0 := mkKv 0 _ _ _ _ _ _ _ _ _).
  assert (exists st' es' t', init_blocks BLK_NUMS 0 [] t0 = (RES_OK, [], t') /\ raw b st' (4092 - size es') clean_info es' t' /\
    (st' = BLK_STATE_USED → Forall (λ e, e_live e = true) es') /\ clean_blk_nums t' = 1 /\ gc_trigger t' = 0 /\ recovered b es es') as (st' & es' & t' & Ei & R & A & C & G & Hr).
  { change BLK_NUMS with 2%nat. assert (block_info t0 = info b (mkBi 0 0) (mkBi 0 0)) as B0 by (by destruct Hb as [-> | ->]). destruct Hb as [-> | ->].
    - destruct (init_used 0 (or_introl eq_refl) 1 st es 0 0 (mkBi 0 0) t0 eq_refl eq_refl Hd Hs B0 Hes) as (st' & es' & t' & -> & [F P B Hs' Hd'] & A & C & G & Hr).
      destruct (init_clean 0 (or_introl eq_refl) 0 (st', es') _ 0 0 t' F P Hd' B ltac:(rewrite C; cbn; lia)) as (t2 & E2 & F2 & P2 & B2 & C2 & G2).
      change (0 + 1) with (1 - 0). rewrite E2. exists st', es', t2. split; [done|]. split; [split; try done; by rewrite P2|]. split; [done|]. rewrite C2, G2, C, G. done.
    - destruct (init_clean 1 (or_intror eq_refl) 1 (st, es) _ 0 0 t0 eq_refl eq_refl Hd B0 ltac:(cbn; lia)) as (t2 & E2 & F2 & P2 & B2 & C2 & G2).
      change 0 with (1 - 1) at 1. rewrite E2. change (1 - 1 + 1) with 1.
      destruct (init_used 1 (or_intror eq_refl) 0 st es 0 0 clean_info t2 F2 P2 Hd Hs B2 Hes) as (st' & es' & t' & -> & R & A & C & G & Hr).
      exists st', es', t'. split; [done|]. split; [done|]. split; [done|]. rewrite C, G, C2, G2. split; [reflexivity|]. split; [reflexivity | exact Hr]. }
  unfold kv_init. rewrite Ei. cbn [truthy negb Z.eqb RES_OK init_unclean]. rewrite C. cbn [Z.eqb truthy negb RES_OK]. rewrite C. change (1 =? Z.of_nat BLK_NUMS) with false. cbv iota beta.
  destruct (init_write_pos_spec b Hb st' es' t' R) as [_ ->]. cbn [truthy negb Z.eqb RES_OK].
  set (t2 := with_inited 1 (with_write_pos (e_pos b es') t')). destruct R as [F P B Hs' Hd']. assert (kv_log b st' es' t2) as I2 by (split; try done; by left).
  exists st', es'. eexists. split; [reflexivity|]. split; [|done]. destruct (_ && _); [|done]. by apply trigger_log.
Qed.

(** Two live entries of one key in a log without duplicates are the same one. *)
Lemma nodup_split es p1 x1 q1 p2 x2 q2 : List.NoDup (live_keys es) → es = p1 ++ x1 :: q1 → es = p2 ++ x2 :: q2 →
  e_live x1 = true → e_live x2 = true → e_key x1 = e_key x2 → p1 = p2.
Proof.
  intros N -> E L1 L2 K. revert p2 E. induction p1 as [|y p1 IH]; intros [|z p2] E; cbn [app] in *; [done|..].
  - injection E as <- ->. exfalso. unfold live_keys, alive in N. cbn [List.filter] in N. rewrite L1 in N. cbn [map] in N. apply NoDup_cons_iff in N as [N _]. apply N.
    fold (alive (p2 ++ x2 :: q2)). rewrite alive_live, map_app, K by done. apply in_or_app. right. by left.
  - injection E as -> <-. exfalso. unfold live_keys, alive in N. cbn [List.filter] in N. rewrite L2 in N. cbn [map] in N. apply NoDup_cons_iff in N as [N _]. apply N.
    fold (alive (p1 ++ x1 :: q1)). rewrite alive_live, map_app, <- K by done. apply in_or_app. right. by left.
  - injection E as -> E. f_equal. apply IH; [|done]. unfold live_keys, alive in N. cbn [List.filter] in N. destruct (e_live z); [|done]. cbn [map] in N. by apply NoDup_cons_iff in N as [_ N].
Qed.

Lemma nodup_no_victim b es pre e rest pre' e' post' : List.NoDup (live_keys es) → es = pre ++ e :: rest → e_live e = true → ~ victim b es pre e pre' e' post'.
Proof. intros N E El (E' & El' & Ek & _ & Np). apply Np. by rewrite (nodup_split es pre e rest pre' e' post' N E E' El El' (eq_sym Ek)). Qed.

(** Every live item's origin is empty, in the other block or the start of an entry. *)
Definition origins_ok (b : Z) (es : list entry) : Prop := Forall (λ e, e_live e = true → origin_ok b es e) es.

Lemma origins_at b es pre e rest : origins_ok b es → es = pre ++ e :: rest → e_live e = true → origin_ok b es e.
Proof. intros H E El. unfold origins_ok in H. rewrite List.Forall_forall in H. apply H; [|done]. subst es. apply in_or_app. right. by left. Qed.

Lemma restart_quiet b st es junk : blk_index b → blk_ok (st, es) → (st = BLK_STATE_USED \/ st = BLK_STATE_DIRTY) → List.NoDup (live_keys es) → origins_ok b es →
  exists s', aos_kv_init (kv_reset (flash_of b (st, es) clean_blk) junk) = (RES_OK, s') /\ represents s' (contents es).
Proof.
  intros Hb Hd Hs N Ho. destruct (restart_spec b st es junk Hb Hd Hs) as (st' & es' & s' & E & I & Hr).
  - intros pre e rest E El. split; [by apply (origins_at b es pre e rest)|]. intros _ pre' e' post'. by apply (nodup_no_victim b es pre e rest).
  - exists s'. split; [done|]. destruct Hr as [[-> _]|(pre & e & pre' & e' & post' & E' & El & Hv & _)]; [|exfalso; by apply (nodup_no_victim b es pre e [] pre' e' post' N E' El)].
    by exists b, st', es.
Qed.

(** A restart keeps the map: if every live item's origin is empty, in the other block or the start of an entry, which holds until an item has been moved by two collections, then [aos_kv_init] on the flash the store leaves rebuilds a state of the same map. *)
Theorem kv_restart b st es s junk : kv_inv b st es s → origins_ok b es →
  exists s', aos_kv_init (kv_reset (part s) junk) = (RES_OK, s') /\ represents s' (contents es).
Proof. intros [I N] Ho. pose proof I as [Hb [Hs Hd _] -> _ _ _ _ _]. by apply (restart_quiet b st). Qed.

(** ** A power failure during a store *)

(** The flash when only the first [k] of the operations [ops] were done. *)
Definition crash (p : list Z) (ops : list flash_op) (k : nat) : list Z := fold_left (λ p o, apply_op o p) (take k ops) p.

Lemma origin_ok_app b es l x : origin_ok b es x → origin_ok b (es ++ l) x.
Proof. intros [H|[H|(p & y & q & -> & H)]]; [by left | by right; left | right; right]. exists p, y, (q ++ l). by rewrite <- app_assoc. Qed.

Lemma size_lens l l' : map e_len l = map e_len l' → size l = size l'.
Proof. revert l'. induction l as [|x l IH]; intros [|y l'] E; try done. cbn [map] in E. injection E as E1 E2. rewrite !size_cons, E1, (IH l' E2). done. Qed.

(** Whether an origin is in order depends on the sizes of the entries only. *)
Lemma origin_ok_lens b l l' x : map e_len l = map e_len l' → origin_ok b l x → origin_ok b l' x.
Proof.
  intros E [H|[H|(p & y & q & -> & H)]]; [by left | by right; left | right; right]. rewrite map_app in E. cbn [map] in E.
  symmetry in E. apply map_eq_app in E as (p' & q' & -> & E1 & E2). apply map_eq_cons in E2 as (y' & q'' & -> & _ & _).
  exists p', y', q''. split; [done|]. rewrite H. unfold e_pos. by rewrite (size_lens p' p E1).
Qed.

Section SetCrash.
Context (b st : Z) (es : list entry) (s : kv) (key val : list Z).
Hypothesis I : kv_log b st es s.
Hypothesis N : List.NoDup (live_keys es).
Hypothesis O : origins_ok b es.
Hypothesis V : valid_item key val.
Hypothesis G : gc_trigger s = 0.

(** The flash operations of a store: none, one that appends, or one that appends and
    those that delete the old item. *)
Inductive set_ops : Z → list flash_op → Prop :=
  | ops_none r : set_ops r []
  | ops_new : (forall x, In x (alive es) → e_key x ≠ key) → size es + e_len (item_entry key val 0) < 4092 →
      set_ops RES_OK [Program (e_pos b es) (e_image (item_entry key val 0))]
  | ops_update pre e post : es = pre ++ e :: post → e_live e = true → e_key e = key → size es + e_len (item_entry key val (e_pos b pre)) < 4092 →
      set_ops RES_OK (Program (e_pos b es) (e_image (item_entry key val (e_pos b pre))) :: kill_ops b st (e_pos b pre)).

Lemma set_ops_spec : exists ops, flog (snd (aos_kv_set key val s)) = flog s ++ ops /\ set_ops (fst (aos_kv_set key val s)) ops.
Proof.
  pose proof V as [Hk Hv _ _]. unfold aos_kv_set, gc_wait. rewrite G. unfold ITEM_MAX_KEY_LEN, ITEM_MAX_VAL_LEN in *. cbv zeta.
  replace ((Z.of_nat (length val) <=? 0) || (Z.of_nat (length key) >? 128) || (Z.of_nat (length val) >? 512)) with false
    by (symmetry; rewrite !orb_false_iff; repeat split; lia).
  cbn [truthy negb Z.eqb]. destruct (get_spec b st es s I key) as [(it & -> & Hf)|[-> Hn]].
  - destruct (found_pos _ _ _ _ Hf) as (pre & e & post & E & El & Ek & -> & _). unfold kv_item_update.
    destruct (_ && _); [exists []; rewrite app_nil_r; split; [done | constructor]|]. cbn [with_store i_pos item_at].
    pose proof I as [Hb [Hs [Wd Sd] Ha] _ _ _ _ _ _]. cbn [snd] in *. pose proof Wd as Wd'. rewrite E in Wd', Sd. rewrite size_app, size_cons in Sd.
    apply Forall_app in Wd' as [W1 [We W3]%Forall_cons_1]. pose proof (size_pos pre W1). pose proof (size_pos post W3). pose proof (e_len_bounds e We).
    assert (is_u16 (e_pos b pre)) as Ho by (destruct Hb as [-> | ->]; unfold e_pos; lia).
    pose proof (store_spec b st es s key val (e_pos b pre) I V Ho) as (s1 & -> & R). set (e' := item_entry key val (e_pos b pre)) in *.
    destruct (Z.gtb_spec (4092 - size es) (e_len e')) as [Gt|Gt].
    + destruct R as [I1 L1]. cbn [truthy negb Z.eqb RES_OK]. unfold kv_item_del. cbn [with_store i_pos item_at].
      assert (es ++ [e'] = pre ++ e :: (post ++ [e'])) as E1 by (by rewrite E, <- app_assoc). rewrite E1 in I1.
      rewrite (del_log b st pre (post ++ [e']) e s1 I1). cbn [fst snd killed relog flog]. rewrite L1, <- app_assoc. eexists. split; [reflexivity|].
      apply (ops_update pre e post); try done. fold e'. lia.
    + cbn [truthy negb Z.eqb RES_NO_SPACE]. destruct R as (_ & _ & L1). cbn [snd fst]. exists []. rewrite L1, app_nil_r. split; [done | constructor].
  - pose proof (store_spec b st es s key val 0 I V ltac:(lia)) as (s1 & -> & R). cbn [snd fst]. destruct (Z.gtb_spec (4092 - size es) (e_len (item_entry key val 0))) as [Gt|Gt].
    + destruct R as [_ L1]. rewrite L1. eexists. split; [reflexivity|]. constructor; [done | lia].
    + destruct R as (_ & _ & L1). exists []. rewrite L1, app_nil_r. split; [done | constructor].
Qed.

Lemma log_bounds : blk_index b /\ blk_ok (st, es) /\ (st = BLK_STATE_USED \/ st = BLK_STATE_DIRTY) /\ part s = flash_of b (st, es) clean_blk /\ 0 <= size es < 4092.
Proof. destruct I as [Hb [Hs Hd _] P _ _ _ _ _]. pose proof (size_pos es (proj1 Hd)). pose proof (proj2 Hd). cbn [snd] in *. split_and!; (done || lia). Qed.

(** No origin points behind the log. *)
Lemma origin_before x pre rest : es = pre ++ x :: rest → e_live x = true → e_origin x ≠ e_pos b es.
Proof.
  intros E El Eo. destruct log_bounds as (Hb & Hd & _ & _ & Sz). destruct (origins_at b es pre x rest O E El) as [H|[H|(p & y & q & E' & H)]].
  - destruct Hb as [-> | ->]; unfold e_pos in *; lia.
  - destruct Hb as [-> | ->]; unfold e_pos in *; lia.
  - pose proof (proj1 Hd) as W. cbn [snd] in W. rewrite E' in W. apply Forall_app in W as [_ [Wy Wq]%Forall_cons_1]. pose proof (e_len_bounds y Wy). pose proof (size_pos q Wq).
    rewrite H in Eo. unfold e_pos in Eo. rewrite E', size_app, size_cons in Eo. lia.
Qed.

Section Appended.
Context (e : entry).
Hypothesis We : e_wf e.
Hypothesis El : e_live e = true.
Hypothesis Sz : size es + e_len e < 4092.

Lemma append_ok st' : blk_ok (st', es ++ [e]).
Proof.
  destruct log_bounds as (_ & [W S] & _). split; cbn [snd] in *; [apply Forall_app; split; [done | by constructor]|].
  rewrite size_app, size_cons. change (size []) with 0. lia.
Qed.

Lemma append_flash : apply_op (Program (e_pos b es) (e_image e)) (part s) = flash_of b (st, es ++ [e]) clean_blk.
Proof. destruct log_bounds as (Hb & Hd & Hs & -> & _). apply program_entry; [done | apply clean_ok | done | done | lia]. Qed.

Lemma append_origins : origin_ok b (es ++ [e]) e → origins_ok b (es ++ [e]).
Proof.
  intros H. apply Forall_app. split; [|by constructor]. eapply List.Forall_impl; [|exact O]. intros x Hx Lx. apply origin_ok_app. by apply Hx.
Qed.
End Appended.

(** Restart after the new item was written and before the old one was deleted. *)
Lemma crash_between pre e post junk : let e' := item_entry key val (e_pos b pre) in
  es = pre ++ e :: post → e_live e = true → e_key e = key → size es + e_len e' < 4092 →
  exists s', aos_kv_init (kv_reset (flash_of b (st, es ++ [e']) clean_blk) junk) = (RES_OK, s') /\ represents s' (contents (pre ++ e_kill e :: post ++ [e'])).
Proof.
  intros e' E El Ek Hsz. destruct log_bounds as (Hb & Hd & Hs & P & Sz).
  assert (0 <= size pre /\ size pre + e_len e <= size es /\ 12 <= e_len e) as (Sp & Sp' & Le).
  { pose proof (proj1 Hd) as W. cbn [snd] in W. rewrite E in W. apply Forall_app in W as [W1 [W2 W3]%Forall_cons_1]. pose proof (size_pos pre W1). pose proof (size_pos post W3).
    pose proof (e_len_bounds e W2). rewrite E, size_app, size_cons. lia. }
  assert (e_wf e') as We' by (apply item_entry_wf; [done | destruct Hb as [-> | ->]; unfold e_pos; lia]).
  assert (es ++ [e'] = pre ++ e :: (post ++ [e'])) as E1 by (by rewrite E, <- app_assoc).
  assert (origins_ok b (es ++ [e'])) as O1 by (apply append_origins; right; right; by exists pre, e, (post ++ [e'])).
  destruct (restart_spec b st (es ++ [e']) junk Hb (append_ok e' We' Hsz st) Hs) as (st' & es' & s' & Er & I' & Hr).
  - intros p x rest Ex Lx. split; [by apply (origins_at b _ p x rest)|]. intros Hne. destruct rest as [|z rest _] using rev_ind; [done|]. clear Hne.
    rewrite app_comm_cons, app_assoc in Ex. apply app_inj_tail in Ex as [Ex <-]. intros p' x' q' (Ev & Lv & Kv & Ov & Np). destruct q' as [|z q' _] using rev_ind.
    + apply app_inj_tail in Ev as [<- _]. by apply (origin_before x p rest).
    + rewrite app_comm_cons, app_assoc in Ev. apply app_inj_tail in Ev as [Ev <-]. apply Np. by rewrite (nodup_split es p x rest p' x' q' N Ex Ev Lx Lv (eq_sym Kv)).
  - exists s'. split; [done|]. assert (victim b (es ++ [e']) es e' pre e (post ++ [e'])) as Hv by (split_and!; try done; unfold e_pos; lia).
    destruct Hr as [[_ Hn]|(p & x & p' & x' & q' & Ex & _ & (Ev & _ & _ & Ov & _) & ->)]; [exfalso; by apply (Hn es e' eq_refl eq_refl _ _ _ Hv)|].
    apply app_inj_tail in Ex as [_ <-]. cbn [e' item_entry e_origin] in Ov. rewrite E1 in Ev. pose proof (append_ok e' We' Hsz st) as [W _]. cbn [snd] in W. rewrite E1 in W.
    destruct (split_at pre p' _ q' e x' Ev W) as (<- & <- & <-); [unfold e_pos in Ov; lia|].
    exists b, st', (pre ++ e_kill e :: post ++ [e']). split; [split; [done|] | done].
    change (pre ++ e_kill e :: post ++ [e']) with (pre ++ (e_kill e :: post) ++ [e']). rewrite app_assoc. pose proof N as N'. rewrite E in N'.
    apply keys_snoc; [done | by apply killed_inv |]. cbn [e' item_entry e_key]. rewrite <- Ek. by apply not_alive_keys.
Qed.
End SetCrash.

Lemma contents_update pre e post e' : e_live e = true → e_live e' = true → e_key e' = e_key e → List.NoDup (live_keys (pre ++ e :: post)) →
  contents (pre ++ e_kill e :: post ++ [e']) = <[e_key e := e_val e']> (contents (pre ++ e :: post)) /\ List.NoDup (live_keys (pre ++ e_kill e :: post ++ [e'])).
Proof.
  intros El El' Ek N. change (pre ++ e_kill e :: post ++ [e']) with (pre ++ (e_kill e :: post) ++ [e']). rewrite app_assoc.
  pose proof (not_alive_keys pre e post N El) as Nk. rewrite <- Ek in Nk. split; [|by apply keys_snoc; [|apply killed_inv|]].
  rewrite contents_snoc, contents_kill by done. rewrite Ek. by rewrite insert_delete_eq.
Qed.

(** The log an update leaves is in order. *)
Lemma update_ok b st es s key val pre e post st' : kv_log b st es s → origins_ok b es → valid_item key val → let e' := item_entry key val (e_pos b pre) in
  es = pre ++ e :: post → e_live e = true → size es + e_len e' < 4092 → e_wf e' /\ blk_ok (st', pre ++ e_kill e :: post ++ [e']) /\ origins_ok b (pre ++ e_kill e :: post ++ [e']).
Proof.
  intros I O V e' E El Hsz. destruct (log_bounds b st es s I) as (Hb & Hd & Hs & P & Sz).
  assert (e_wf e') as We'.
  { apply item_entry_wf; [done|]. pose proof (proj1 Hd) as W. cbn [snd] in W. rewrite E in W. apply Forall_app in W as [W1 W2]. pose proof (size_pos pre W1). pose proof (size_pos _ W2).
    rewrite E, size_app in Sz. destruct Hb as [-> | ->]; unfold e_pos; lia. }
  assert (es ++ [e'] = pre ++ e :: (post ++ [e'])) as E1 by (by rewrite E, <- app_assoc). split; [done|].
  pose proof (append_ok b st es s I e' We' Hsz st) as Hok. rewrite E1 in Hok. split; [by apply (kill_blk_ok _ _ _ _ _ Hok)|].
  assert (origins_ok b (es ++ [e'])) as O1 by (apply append_origins; [done|]; right; right; by exists pre, e, (post ++ [e'])).
  assert (map e_len (es ++ [e']) = map e_len (pre ++ e_kill e :: post ++ [e'])) as El2 by (rewrite E1, !map_app; done).
  apply List.Forall_forall. intros x Hx Lx. apply (origin_ok_lens b _ _ x El2). unfold origins_ok in O1. rewrite List.Forall_forall in O1. apply O1; [|done].
  rewrite E1. apply in_app_iff in Hx as [Hx|[<-|Hx]]; [apply in_or_app; by left | done | apply in_or_app; right; by right].
Qed.

(** The flash after each operation of an update. *)
Lemma update_crash b st es s key val pre e post k : kv_log b st es s → origins_ok b es → valid_item key val → let e' := item_entry key val (e_pos b pre) in
  es = pre ++ e :: post → e_live e = true → size es + e_len e' < 4092 →
  crash (part s) (Program (e_pos b es) (e_image e') :: kill_ops b st (e_pos b pre)) k = part s \/
  crash (part s) (Program (e_pos b es) (e_image e') :: kill_ops b st (e_pos b pre)) k = flash_of b (st, es ++ [e']) clean_blk \/
  exists st', (st' = BLK_STATE_USED \/ st' = BLK_STATE_DIRTY) /\
  crash (part s) (Program (e_pos b es) (e_image e') :: kill_ops b st (e_pos b pre)) k = flash_of b (st', pre ++ e_kill e :: post ++ [e']) clean_blk.
Proof.
  intros I O V e' E El Hsz. destruct (log_bounds b st es s I) as (Hb & Hd & Hs & P & Sz).
  destruct (update_ok b st es s key val pre e post st I O V E El Hsz) as (We' & _).
  pose proof (append_ok b st es s I e' We' Hsz) as Hok. pose proof (append_flash b st es s I e' We' Hsz) as Ha.
  assert (es ++ [e'] = pre ++ e :: (post ++ [e'])) as E1 by (by rewrite E, <- app_assoc).
  destruct k as [|[|k]]; [by left | right; left; by cbn [crash take fold_left]|]. right. right. unfold kill_ops.
  pose proof (program_kill b st pre (post ++ [e']) e clean_blk Hb clean_ok) as Hk. rewrite <- E1 in Hk. specialize (Hk (Hok st)).
  destruct Hs as [-> | ->].
  - rewrite Z.eqb_refl. destruct k as [|k].
    + exists BLK_STATE_USED. split; [by left|]. unfold crash. cbn [take fold_left]. rewrite Ha. exact Hk.
    + exists BLK_STATE_DIRTY. split; [by right|]. unfold crash. cbn [take]. rewrite firstn_nil. cbn [fold_left]. rewrite Ha. cbn [apply_op] in *. rewrite Hk.
      apply program_state; [done | apply clean_ok | | done]. specialize (Hok BLK_STATE_USED). rewrite E1 in Hok. by apply (kill_blk_ok _ _ _ _ _ Hok).
  - exists BLK_STATE_DIRTY. split; [by right|]. unfold crash. change (BLK_STATE_DIRTY =? BLK_STATE_USED) with false. cbn [take]. rewrite firstn_nil. cbn [fold_left]. rewrite Ha. exact Hk.
Qed.

(** [C4] A store into a quiet log is atomic under power failures: in a state of the invariant in which no garbage collection is pending ([gc_trigger] is 0) and the origin of every live item is empty, in the other block or the start of an entry ([origins_ok]), whichever of the flash operations of [aos_kv_set] were done when the power went, the restart gives the map before the store or the map after it, and the map after it only if the call would have succeeded.  While a collection runs the statement does not hold: [gc_power_failure_loses_key]. *)
Theorem kv_set_power_failure b st es s key val k junk : kv_inv b st es s → origins_ok b es → valid_item key val → gc_trigger s = 0 →
  exists ops s', flog (snd (aos_kv_set key val s)) = flog s ++ ops /\ aos_kv_init (kv_reset (crash (part s) ops k) junk) = (RES_OK, s') /\
  (represents s' (contents es) \/ fst (aos_kv_set key val s) = RES_OK /\ represents s' (<[key := val]> (contents es))).
Proof.
  intros [I N] O V G. destruct (log_bounds b st es s I) as (Hb & Hd & Hs & P & Sz). destruct (set_ops_spec b st es s key val I O V G) as (ops & El & Hops). exists ops.
  assert (exists s', aos_kv_init (kv_reset (part s) junk) = (RES_OK, s') /\ represents s' (contents es)) as (s0 & E0 & R0) by (rewrite P; by apply restart_quiet).
  destruct Hops as [r|Hn Hsz|pre e post E Le Ke Hsz].
  - exists s0. split; [done|]. unfold crash. rewrite take_nil. cbn [fold_left]. split; [done | by left].
  - assert (e_wf (item_entry key val 0)) as We by (apply item_entry_wf; [done | lia]). destruct k as [|k]; [exists s0; by cbn [crash take fold_left]; auto|].
    unfold crash. cbn [take]. rewrite firstn_nil. cbn [fold_left]. rewrite (append_flash b st es s I _ We Hsz).
    destruct (restart_quiet b st (es ++ [item_entry key val 0]) junk Hb (append_ok b st es s I _ We Hsz st) Hs) as (s1 & E1 & R1); [by apply keys_snoc | by apply append_origins; [|left]|].
    exists s1. split; [done|]. split; [done|]. right. split; [done|]. by rewrite contents_snoc in R1.
  - destruct (contents_update pre e post (item_entry key val (e_pos b pre)) Le eq_refl (eq_sym Ke) ltac:(by rewrite <- E)) as [Cu Nu]. rewrite <- E, Ke in Cu.
    destruct (update_crash b st es s key val pre e post k I O V E Le Hsz) as [Ec|[Ec|(st' & Hs' & Ec)]]; rewrite Ec.
    + exists s0. auto.
    + destruct (crash_between b st es s key val I N O V pre e post junk E Le Ke Hsz) as (s1 & E1 & R1). exists s1. split; [done|]. split; [done|]. right. split; [done|]. by rewrite Cu in R1.
    + destruct (update_ok b st es s key val pre e post st' I O V E Le Hsz) as (_ & Hok & Ook).
      destruct (restart_quiet b st' _ junk Hb Hok Hs' Nu Ook) as (s1 & E1 & R1). exists s1. split; [done|]. split; [done|]. right. split; [done|]. by rewrite Cu in R1.
Qed.

(** ** A power failure during a collection *)

(** A key set twice, then nineteen updates of another one with long values. *)
Definition gc_calls : list kv_call :=
  Set_ [65] [1] :: Set_ [65] [2] :: map (λ n, Set_ [66] (repeat (Z.of_nat n) 500)) (seq 0 19).
Definition gc_state : kv := snd (kv_run gc_calls kv0).
(** The flash operations of the collection that is then pending. *)
Definition gc_ops : list flash_op := drop (length (flog gc_state)) (flog (kv_gc_task gc_state)).

(** A power failure during a collection can lose a key that was not being written: there is a sequence of calls, all of which succeed, after which the pending collection, interrupted when it has copied an item and restarted, leaves the store without that item's key.  The item had been moved by two collections, so that its stale origin is its own position; recovery takes the copy in the block being filled for a newer version, deletes the original, and then formats the block being filled. *)
Theorem gc_power_failure_loses_key :
  Forall (λ r, r = RES_OK) (fst (kv_run gc_calls kv0)) /\ gc_trigger gc_state = 1 /\
  fst (kv_lookup [65] gc_state) = Some [2] /\ fst (kv_lookup [65] (kv_gc_task gc_state)) = Some [2] /\
  let '(r, s) := aos_kv_init (kv_reset (crash (part gc_state) gc_ops 1) 165) in
  r = RES_OK /\ fst (kv_lookup [65] s) = None.
Proof. vm_compute. repeat split; repeat constructor. Qed.

(** ** Witnesses *)

Definition wstate : kv := snd (aos_kv_set wkey wval kv0).
Definition wlog : list entry := [item_entry wkey wval 0].

Lemma wstate_inv : kv_inv 0 BLK_STATE_USED wlog wstate /\ origins_ok 0 wlog /\ gc_trigger wstate = 0.
Proof.
  split; [split|split].
  - split; try (vm_compute; reflexivity); [by left | | by left]. split; [by left | split; [|done] | intros _; by repeat constructor].
    constructor; [|constructor]. apply item_entry_wf; [exact wvalid | lia].
  - repeat constructor; intros [].
  - constructor; [|constructor]. intros _. by left.
  - vm_compute. reflexivity.
Qed.

Lemma kv_restart_witness : exists s', aos_kv_init (kv_reset (part wstate) 165) = (RES_OK, s') /\ represents s' (contents wlog).
Proof. apply (kv_restart 0 BLK_STATE_USED wlog wstate 165); apply wstate_inv. Defined.

Lemma wvalid2 : valid_item wkey [9].
Proof. split; try (unfold ITEM_MAX_KEY_LEN, ITEM_MAX_VAL_LEN; cbn; lia); repeat constructor; lia. Qed.

Lemma kv_set_power_failure_witness : exists ops s', flog (snd (aos_kv_set wkey [9] wstate)) = flog wstate ++ ops /\
  aos_kv_init (kv_reset (crash (part wstate) ops 1) 165) = (RES_OK, s') /\
  (represents s' (contents wlog) \/ fst (aos_kv_set wkey [9] wstate) = RES_OK /\ represents s' (<[wkey := [9]]> (contents wlog))).
Proof. apply (kv_set_power_failure 0 BLK_STATE_USED wlog wstate wkey [9] 1 165); try apply wstate_inv. exact wvalid2. Defined.
