(* ===== verification/KvFlash.v ===== *)
(** * KvFlash: the key-value store as the flash of the service

    The storage and lifecycle theorems are proved against the interface [Flash] and its
    laws.  Here kvmgr.c, running on the bytes of its partition, is an instance of it:
    keys are the bytes of the strings, and the two areas next to the store are byte
    lists.  So what Storage and Lifecycle prove holds over the modelled store. *)
From Stdlib Require Import ZArith Lia List Bool Strings.Byte String.
From stdpp Require Import base list numbers option strings gmap.
From S2P Require Import Prelude Env Aes Storage KvStore KvLog KvProps.
Local Open Scope Z_scope.

(** ** Keys *)

Definition key_bytes (k : string) : list Z := map (λ b, Z.of_N (Byte.to_N b)) (list_byte_of_string k).

Lemma key_bytes_inj k k' : key_bytes k = key_bytes k' → k = k'.
Proof.
  intros E. rewrite <- (string_of_list_byte_of_string k), <- (string_of_list_byte_of_string k'). f_equal.
  unfold key_bytes in E. revert E. generalize (list_byte_of_string k') as l'. generalize (list_byte_of_string k) as l.
  induction l as [|x l IH]; intros [|y l'] E; try done. cbn [map] in E. injection E as E1 E2. apply N2Z.inj in E1. f_equal; [|by apply IH].
  pose proof (Byte.of_to_N x) as X. rewrite E1, Byte.of_to_N in X. by injection X.
Qed.

(** Whether the store is asked for something it can hold. *)
Definition valid_itemb (key val : list Z) : bool :=
  let bytes := forallb (λ x, (0 <=? x) && (x <? 256)) in
  (1 <=? Z.of_nat (length key)) && (Z.of_nat (length key) <=? ITEM_MAX_KEY_LEN)
  && (1 <=? Z.of_nat (length val)) && (Z.of_nat (length val) <=? ITEM_MAX_VAL_LEN) && bytes key && bytes val.

Lemma valid_itemb_true key val : valid_itemb key val = true → valid_item key val.
Proof.
  unfold valid_itemb. rewrite !andb_true_iff, !forallb_forall, !Z.leb_le. intros (((((H1 & H2) & H3) & H4) & H5) & H6).
  split; [lia | lia | apply List.Forall_forall; intros x Hx; specialize (H5 x Hx); lia | apply List.Forall_forall; intros x Hx; specialize (H6 x Hx); lia].
Qed.

(** ** The instance *)

(** The module's state, which stands for some map, and the areas. *)
Record device := mkDevice { d_kv : kv; d_ok : exists m, represents d_kv m; d_triples : list Z; d_group : list Z }.

Lemma exec_ok (c : kv_call) s : call_ok c → (exists m, represents s m) → exists m, represents (snd (kv_exec c s)) m.
Proof. intros Hc [m R]. destruct (exec_step c s m R Hc) as (m' & _ & R'). by exists m'. Qed.

Definition device_exec (c : kv_call) (H : call_ok c) (d : device) : Z * device :=
  (fst (kv_exec c (d_kv d)), mkDevice (snd (kv_exec c (d_kv d))) (exec_ok c (d_kv d) H (d_ok d)) (d_triples d) (d_group d)).

(** The interface is for items the store can hold, so that the state keeps standing for a
    map; others are refused.  The code's own check does that but for an empty key
    ([device_set_is_aos_kv_set]), and the keys of the service are not empty. *)
Definition device_set (key val : list Z) (d : device) : Z * device :=
  match Sumbool.sumbool_of_bool (valid_itemb key val) with
  | left H => device_exec (Set_ key val) (valid_itemb_true key val H) d
  | right _ => (RES_INVALID_PARAM, d)
  end.

(** For a key that is not empty, this is [aos_kv_set] of kvmgr.c, whatever the lengths. *)
Lemma device_set_is_aos_kv_set key val d : key ≠ [] → all_u8 key → all_u8 val →
  fst (device_set key val d) = fst (KvStore.aos_kv_set key val (d_kv d)) /\ d_kv (snd (device_set key val d)) = snd (KvStore.aos_kv_set key val (d_kv d)).
Proof.
  intros Nk Hk Hv. unfold device_set. destruct (Sumbool.sumbool_of_bool (valid_itemb key val)) as [V|V]; [done|].
  assert (((Z.of_nat (length val) <=? 0) || (Z.of_nat (length key) >? ITEM_MAX_KEY_LEN) || (Z.of_nat (length val) >? ITEM_MAX_VAL_LEN)) = true) as R.
  { apply not_false_iff_true. intros R. rewrite !orb_false_iff, Z.leb_gt, !Z.gtb_ltb, !Z.ltb_ge in R. destruct R as ((R1 & R2) & R3).
    enough (valid_itemb key val = true) by congruence. assert (0 < length key)%nat by (destruct key; [done|cbn; lia]).
    unfold valid_itemb. rewrite !andb_true_iff, !forallb_forall, !Z.leb_le. unfold all_u8 in *. rewrite List.Forall_forall in Hk, Hv.
    repeat split; try lia; intros x Hx; [specialize (Hk x Hx)|specialize (Hv x Hx)]; lia. }
  unfold KvStore.aos_kv_set. by rewrite R.
Qed.

#[export] Instance device_flash : Flash device := {
  kv_item_get k d := fst (kv_lookup (key_bytes k) (d_kv d));
  aos_kv_set k v d := device_set (key_bytes k) v d;
  aos_kv_del k d := device_exec (Del (key_bytes k)) Logic.I d;
  aos_kv_del_all d := device_exec (DelAll None) Logic.I d;
  hal_flash_read_triples n d := (0, area_read n (d_triples d));
  hal_flash_write_triples bs d := (0, mkDevice (d_kv d) (d_ok d) bs (d_group d));
  hal_flash_read_group_addr n d := (0, area_read n (d_group d));
  hal_flash_write_group_addr bs d := (0, mkDevice (d_kv d) (d_ok d) (d_triples d) bs);
  hal_malloc n d := if 0 <=? n then Some (repeat (uninit (d_kv d)) (Z.to_nat n)) else None;
  save_switches_param d := d }.

Lemma represents_lookup s m key : represents s m → fst (kv_lookup key s) = m !! key.
Proof. intros (b & st & es & [I N] & <-). by rewrite (lookup_spec b st es s I key N). Qed.

(** What a store does to the lookups. *)
Lemma device_set_spec key val d :
  (fst (device_set key val d) = RES_OK /\ forall k, fst (kv_lookup k (d_kv (snd (device_set key val d)))) = if bool_decide (k = key) then Some val else fst (kv_lookup k (d_kv d))) \/
  (fst (device_set key val d) ≠ RES_OK /\ forall k, fst (kv_lookup k (d_kv (snd (device_set key val d)))) = fst (kv_lookup k (d_kv d))).
Proof.
  unfold device_set. destruct (Sumbool.sumbool_of_bool (valid_itemb key val)) as [V|V]; [|by right].
  cbn [device_exec fst snd d_kv]. destruct (d_ok d) as [m R]. destruct (exec_step (Set_ key val) (d_kv d) m R (valid_itemb_true key val V)) as (m' & S & R').
  cbn [kv_exec] in S, R' |- *. inversion S as [? ? ? E1 E2 E3|? ? ? E1 E2 E3| | | | | |]; subst.
  - left. split; [done|]. intros k. rewrite (represents_lookup _ _ k R'), (represents_lookup _ _ k R). destruct (bool_decide_reflect (k = key)) as [-> |Ne]; [apply lookup_insert_eq | by apply lookup_insert_ne].
  - right. split; [done|]. intros k. by rewrite (represents_lookup _ _ k R'), (represents_lookup _ _ k R).
Qed.

(** The key-value store discharges the interface the service is verified against: over the flash of kvmgr.c a successful write is read back, a write under one key leaves the others alone even when it is refused for lack of space, deleting everything leaves nothing, and the areas next to the store are independent of it. *)
Lemma kvmgr_flash_laws : FlashLaws device.
Proof.
  split; cbn [Storage.kv_item_get Storage.aos_kv_set Storage.aos_kv_del_all hal_flash_read_triples hal_flash_write_triples
    hal_flash_read_group_addr hal_flash_write_group_addr hal_malloc device_flash fst snd d_kv d_triples d_group]; intros; try done; try (by rewrite area_read_all).
  - destruct (device_set_spec (key_bytes k) v f) as [[_ ->]|[N _]]; [by rewrite bool_decide_eq_true_2 | done].
  - destruct (device_set_spec (key_bytes k) v f) as [[_ ->]|[_ ->]]; [|done]. rewrite bool_decide_eq_false_2; [done|]. intros E. apply key_bytes_inj in E. congruence.
  - cbn [device_exec snd d_kv]. destruct (d_ok f) as [m R]. destruct (exec_step (DelAll None) (d_kv f) m R Logic.I) as (m' & S & R').
    inversion S; subst. by rewrite (represents_lookup _ _ _ R').
  - destruct (Z.leb_spec 0 n); [|done]. simplify_eq. rewrite repeat_length. lia.
Qed.
#[export] Existing Instance kvmgr_flash_laws.
