(* ===== verification/Lifecycle.v ===== *)
(** * Lifecycle: provisioning, reset and the event machine of the service

    genie_event.c (all of [genie_event]), genie_mesh.c, genie_reset.c, the timers and
    the state of genie_provision.c, and of the mesh stack what they rest on: the
    sequence number and the IV index of net.c, [bt_mesh_provision] and
    [bt_mesh_reset] of main.c.  The service state is the timers with the transport
    layer ([vstate]), the persistent store, the network state and the statics of
    the modelled files.  A timer is [Some ms] while it is pending.  Of bt_mesh.net the
    replay list, the subnets' derived keys and the beacon data are left out.  Other
    calls into the stack are entries of the log. *)
From Stdlib Require Import ZArith Lia List Bool.
From stdpp Require Import base list numbers option.
From S2P Require Import Prelude Env Transport Calendar GenieTime TimePool TimeMsg EventBase VendorModel Storage.
Local Open Scope Z_scope.

(** ** Constants *)

Definition MESH_PROVISIONING_TIMEOUT : Z := 60 * 1000.
Definition UNPROV_ADV_FEATURE1_SILENT_ADV : Z := 1.
Definition UNPROV_ADV_FEATURE1_SILENT_UNMASK : Z := 254.
Definition GENIE_RESET_BY_REPEAT_COUNTER : Z := 4.
Definition GENIE_RESET_BY_REPEAT_TIMEOUT : Z := 3 * 1000.
Definition GENIE_RESET_WAIT_TIMEOUT : Z := 1 * 1000.
Definition GENIE_MESH_INIT_PHARSE_II_HW_RESET_DELAY : Z := 2000.
Definition GENIE_MESH_INIT_PROVISIONED_DELAY_START_MIN : Z := 1000.
Definition GENIE_MESH_INIT_PROVISIONED_DELAY_START_MAX : Z := 2000.
Definition GENIE_MESH_INIT_PHARSE_II_DELAY_START_MIN : Z := 2000.
Definition GENIE_MESH_INIT_PHARSE_II_DELAY_START_MAX : Z := 3000.
Definition GENIE_MESH_INIT_PHARSE_II_CHECK_APPKEY_TIMEOUT : Z := 30000.
Definition GENIE_MESH_INIT_STATE_PROVISION : Z := 1.
Definition GENIE_MESH_INIT_STATE_HW_RESET : Z := 2.
Definition GENIE_MESH_INIT_STATE_NORMAL_BOOT : Z := 3.
Definition ATTR_TYPE_DEVICE_EVENT : Z := 61449. (* 0xF009 *)
Definition EL_DEV_UP_T : Z := 3.
Definition EL_HW_RESET_T : Z := 35.
Definition PROV_BEARERS : Z := 3. (* BT_MESH_PROV_GATT | BT_MESH_PROV_ADV *)
Definition BT_MESH_PROV_ADV : Z := 1.
Definition EALREADY : Z := 69.
Definition EIO : Z := 5.
Definition IV_UPDATE_MIN_MS : Z := 96 * 3600 * 1000. (* K_HOURS(96) *)
Definition IV_UPDATE_SEQ_LIMIT : Z := 11592960. (* 0xB0E500 *)

(** ** State *)

Inductive genie_provision_state_e := GENIE_PROVISION_UNPROV | GENIE_PROVISION_START | GENIE_PROVISION_SUCCESS.
#[export] Instance genie_provision_state_e_eq_dec : EqDecision genie_provision_state_e.
Proof. solve_decision. Defined.

(** Of [struct bt_mesh_net]: [net_seq] has 24 bits, [iv_update] one; the device
    key, the network key slots and index of [sub[0]] and the values of the two app
    keys; [dev_primary_addr] is the address access.c keeps. *)
Record bt_mesh_net := mkNet {
  iv_index : Z; net_seq : Z; iv_update : Z; pending_update : Z; valid : Z; last_update : Z; ivu_initiator : Z;
  dev_key : list Z; net_key0 : list Z; net_key1 : list Z; app_key0 : list Z; app_key1 : list Z;
  sub_net_idx : Z; dev_primary_addr : Z }.

Definition net_zero : bt_mesh_net := mkNet 0 0 0 0 0 0 0 (repeat 0 16) (repeat 0 16) (repeat 0 16) (repeat 0 16) (repeat 0 16) 65535 0.

(** The statics of genie_provision.c, genie_reset.c and genie_mesh.c, [g_sub_list]
    of the stack, and [prov_timeout] of the service context. *)
Record lifecycle := mkLc {
  provision_state : genie_provision_state_e;
  pbadv_timeout_timer : option Z; prov_timeout_timer : option Z;
  delay_reset_timer : option Z; repeat_reset_timer : option Z; do_mesh_ready_timer : option Z;
  hw_reset_flag : Z; s_mesh_init_state : Z; genie_uuid13 : Z; g_sub_list : list Z; prov_timeout : Z }.

Definition set_state v l := mkLc v (pbadv_timeout_timer l) (prov_timeout_timer l) (delay_reset_timer l) (repeat_reset_timer l) (do_mesh_ready_timer l) (hw_reset_flag l) (s_mesh_init_state l) (genie_uuid13 l) (g_sub_list l) (prov_timeout l).
Definition set_pbadv v l := mkLc (provision_state l) v (prov_timeout_timer l) (delay_reset_timer l) (repeat_reset_timer l) (do_mesh_ready_timer l) (hw_reset_flag l) (s_mesh_init_state l) (genie_uuid13 l) (g_sub_list l) (prov_timeout l).
Definition set_prov v l := mkLc (provision_state l) (pbadv_timeout_timer l) v (delay_reset_timer l) (repeat_reset_timer l) (do_mesh_ready_timer l) (hw_reset_flag l) (s_mesh_init_state l) (genie_uuid13 l) (g_sub_list l) (prov_timeout l).
Definition set_delay v l := mkLc (provision_state l) (pbadv_timeout_timer l) (prov_timeout_timer l) v (repeat_reset_timer l) (do_mesh_ready_timer l) (hw_reset_flag l) (s_mesh_init_state l) (genie_uuid13 l) (g_sub_list l) (prov_timeout l).
Definition set_repeat v l := mkLc (provision_state l) (pbadv_timeout_timer l) (prov_timeout_timer l) (delay_reset_timer l) v (do_mesh_ready_timer l) (hw_reset_flag l) (s_mesh_init_state l) (genie_uuid13 l) (g_sub_list l) (prov_timeout l).
Definition set_ready v l := mkLc (provision_state l) (pbadv_timeout_timer l) (prov_timeout_timer l) (delay_reset_timer l) (repeat_reset_timer l) v (hw_reset_flag l) (s_mesh_init_state l) (genie_uuid13 l) (g_sub_list l) (prov_timeout l).
Definition set_hw_flag v l := mkLc (provision_state l) (pbadv_timeout_timer l) (prov_timeout_timer l) (delay_reset_timer l) (repeat_reset_timer l) (do_mesh_ready_timer l) v (s_mesh_init_state l) (genie_uuid13 l) (g_sub_list l) (prov_timeout l).
Definition set_init_state v l := mkLc (provision_state l) (pbadv_timeout_timer l) (prov_timeout_timer l) (delay_reset_timer l) (repeat_reset_timer l) (do_mesh_ready_timer l) (hw_reset_flag l) v (genie_uuid13 l) (g_sub_list l) (prov_timeout l).
Definition set_uuid13 v l := mkLc (provision_state l) (pbadv_timeout_timer l) (prov_timeout_timer l) (delay_reset_timer l) (repeat_reset_timer l) (do_mesh_ready_timer l) (hw_reset_flag l) (s_mesh_init_state l) v (g_sub_list l) (prov_timeout l).
Definition set_subs v l := mkLc (provision_state l) (pbadv_timeout_timer l) (prov_timeout_timer l) (delay_reset_timer l) (repeat_reset_timer l) (do_mesh_ready_timer l) (hw_reset_flag l) (s_mesh_init_state l) (genie_uuid13 l) v (prov_timeout l).

Section Lifecycle.
Context {F : Type} `{Flash F}.

(** Whether [bt_mesh_net_keys_create] derives the keys of a network key. *)
Variable keys_ok : list Z → bool.

Record svc := mkSvc { gt : vstate; store : storage F; net : bt_mesh_net; lc : lifecycle }.

Definition on_gt (f : vstate → vstate) (s : svc) : svc := mkSvc (f (gt s)) (store s) (net s) (lc s).
Definition on_store (f : storage F → storage F) (s : svc) : svc := mkSvc (gt s) (f (store s)) (net s) (lc s).
Definition on_net (f : bt_mesh_net → bt_mesh_net) (s : svc) : svc := mkSvc (gt s) (store s) (f (net s)) (lc s).
Definition on_lc (f : lifecycle → lifecycle) (s : svc) : svc := mkSvc (gt s) (store s) (net s) (f (lc s)).
Definition senv (s : svc) : env := tenv (uplink (gt s)).
Definition say (o : output) (s : svc) : svc := on_gt (on_env (emit o)) s.

(** A stack call that answers a code. *)
Definition stack_rc (c : stack_call) (s : svc) : Z * svc := (send_rc (senv s) (length (out (senv s))), say (Stack c) s).

(** ** genie_provision.c *)

Definition genie_provision_set_silent_flag (s : svc) : svc :=
  on_lc (λ l, set_uuid13 (Z.lor (genie_uuid13 l) UNPROV_ADV_FEATURE1_SILENT_ADV) l) s.
Definition genie_provision_clear_silent_flag (s : svc) : svc :=
  on_lc (λ l, set_uuid13 (Z.land (genie_uuid13 l) UNPROV_ADV_FEATURE1_SILENT_UNMASK) l) s.
Definition genie_provision_set_state (v : genie_provision_state_e) (s : svc) : svc := on_lc (set_state v) s.
Definition genie_provision_pbadv_timer_start (t : Z) (s : svc) : svc := on_lc (set_pbadv (Some t)) s.
Definition genie_provision_pbadv_timer_stop (s : svc) : svc := on_lc (set_pbadv None) s.
Definition genie_provision_prov_timer_start (s : svc) : svc := on_lc (set_prov (Some MESH_PROVISIONING_TIMEOUT)) s.
Definition genie_provision_prov_timer_stop (s : svc) : svc := on_lc (set_prov None) s.

Definition genie_provision_start_slient_pbadv (s : svc) : svc :=
  let s := genie_provision_set_silent_flag s in
  let s := say (Stack (UnprovBeaconInterval true)) s in
  say (Stack (ProvEnable BT_MESH_PROV_ADV)) s.

(** ** genie_mesh.c *)

(** The zeroed parameters with the fields the reports set; [cb] names the callback. *)
Definition device_event (ev cb : Z) : genie_transport_payload_param_t :=
  mkPayload 0 VENDOR_OP_ATTR_INDICATE 0 GENIE_TRANSPORT_DEFAULT_RETRY_COUNT 0
    (Some (le16 ATTR_TYPE_DEVICE_EVENT ++ [ev])) 3 (Some cb).
Definition report_poweron_callback : Z := 101.
Definition reset_report_result_cb : Z := 102.

Definition send_report (p : genie_transport_payload_param_t) (s : svc) : svc :=
  on_gt (on_uplink (λ u, snd (genie_transport_send_payload p u))) s.

Definition genie_mesh_report_poweron (s : svc) : svc := send_report (device_event EL_DEV_UP_T report_poweron_callback) s.

(** The user group addresses found in the stored list are written from the end. *)
Fixpoint merge_subs (user : list Z) (write_i : Z) (subs : list Z) : list Z :=
  match user with
  | [] => subs
  | a :: user =>
      if a >? 53247 then merge_subs user (write_i - 1) (<[Z.to_nat write_i := a]> subs) else merge_subs user write_i subs
  end.

Definition genie_mesh_load_group_addr (s : svc) : svc :=
  let n := CONFIG_BT_MESH_MODEL_GROUP_COUNT in
  let '(r, subs) := genie_storage_read_sub (g_sub_list (lc s)) (store s) in
  let s := if negb (r =? GENIE_STORAGE_SUCCESS)
           then on_store (λ st, snd (genie_storage_write_sub (repeat 0 n) st)) (on_lc (set_subs (repeat 0 n)) s)
           else on_lc (set_subs subs) s in
  let '(status, user) := genie_storage_read_userdata GFI_MESH_SUB (repeat 0 (2 * n)) (store s) in
  if status =? GENIE_STORAGE_SUCCESS
  then on_lc (λ l, set_subs (merge_subs (u16_array user) (Z.of_nat n - 1) (g_sub_list l)) l) s else s.

Definition genie_mesh_init_pharse_ii (s : svc) : svc :=
  let s := say (Stack OtaInit) s in
  let s := on_gt (λ g, snd (genie_time_init g)) s in
  genie_mesh_report_poweron s.

(** A delay between [lo] and [hi] from one random byte. *)
Definition random_delay (lo hi rnd : Z) : Z := u16 (lo + (hi - lo) * rnd / 255).

Definition genie_mesh_ready_checktimer_restart (s : svc) : svc :=
  on_lc (set_ready (Some (random_delay GENIE_MESH_INIT_PROVISIONED_DELAY_START_MIN
    GENIE_MESH_INIT_PROVISIONED_DELAY_START_MAX (rand (senv s))))) s.

Definition mesh_provision_complete (s : svc) : svc :=
  if negb (bool_decide (provision_state (lc s) = GENIE_PROVISION_UNPROV)) then
    on_lc (λ l, set_ready (Some GENIE_MESH_INIT_PHARSE_II_CHECK_APPKEY_TIMEOUT) (set_init_state GENIE_MESH_INIT_STATE_PROVISION l)) s
  else if truthy (hw_reset_flag (lc s)) then
    on_lc (λ l, set_ready (Some GENIE_MESH_INIT_PHARSE_II_HW_RESET_DELAY) (set_init_state GENIE_MESH_INIT_STATE_HW_RESET l)) s
  else
    on_lc (set_ready (Some (random_delay GENIE_MESH_INIT_PHARSE_II_DELAY_START_MIN
      GENIE_MESH_INIT_PHARSE_II_DELAY_START_MAX (rand (senv s))))) s.

Definition mesh_provision_reset (s : svc) : svc := on_gt (λ g, snd (genie_time_finalize g)) s.

(** ** The network state, net.c and main.c *)

Definition BT_MESH_IV_UPDATE (flags : Z) : Z := Z.land (Z.shiftr flags 1) 1.
Definition BT_MESH_KEY_REFRESH (flags : Z) : Z := Z.land flags 1.
(** [BT_MESH_NET_IVI_TX]: the IV index outgoing messages are encrypted with. *)
Definition BT_MESH_NET_IVI_TX (n : bt_mesh_net) : Z := u32 (iv_index n - iv_update n).

Definition set_iv iv sq upd pend last n := mkNet iv sq upd pend (valid n) last (ivu_initiator n)
  (dev_key n) (net_key0 n) (net_key1 n) (app_key0 n) (app_key1 n) (sub_net_idx n) (dev_primary_addr n).

(** The state change at [do_update] of [bt_mesh_net_iv_update]. *)
Definition iv_do_update (iv : Z) (upd : bool) (now : Z) (n : bt_mesh_net) : bt_mesh_net :=
  if upd then set_iv iv (net_seq n) 1 (pending_update n) now n
  else set_iv (iv_index n) 0 0 (pending_update n) now n.

(** [now] is [k_uptime_get()], [tx_busy] is [bt_mesh_tx_in_progress()]; the IV update
    test mode is off. *)
Definition bt_mesh_net_iv_update (iv : Z) (upd : bool) (now : Z) (tx_busy : bool) (n : bt_mesh_net) : bool * bt_mesh_net :=
  let guarded n :=
    if now - last_update n <? IV_UPDATE_MIN_MS then (false, n)
    else if negb upd && tx_busy
    then (false, set_iv (iv_index n) (net_seq n) (iv_update n) 1 (last_update n) n)
    else (true, iv_do_update iv upd now n) in
  if truthy (iv_update n) then
    if negb (iv =? iv_index n) then (false, n)
    else if upd then (false, n)
    else guarded n
  else
    if iv =? iv_index n then (false, n)
    else if (iv <? iv_index n) || (iv >? u32 (iv_index n + 42)) then (false, n)
    else if (iv >? u32 (iv_index n + 1)) || ((iv =? u32 (iv_index n + 1)) && negb upd)
    then (true, iv_do_update iv upd now (set_iv iv 0 (iv_update n) (pending_update n) (last_update n) n))
    else if negb upd then (false, n)
    else if negb (iv =? u32 (iv_index n + 1)) then (false, n)
    else guarded n.

(** [bt_mesh_net_create] of the primary subnet. *)
Definition bt_mesh_net_create (idx flags : Z) (key : list Z) (iv now : Z) (n : bt_mesh_net) : Z * bt_mesh_net :=
  if truthy (valid n) then (- EALREADY, n)
  else if negb (keys_ok key) then (- EIO, n)
  else
    let kr := truthy (BT_MESH_KEY_REFRESH flags) in
    (0, mkNet iv (net_seq n) (BT_MESH_IV_UPDATE flags) (pending_update n) 1 now (ivu_initiator n) (dev_key n)
          (if kr then net_key0 n else key) (if kr then key else net_key1 n) (app_key0 n) (app_key1 n) idx (dev_primary_addr n)).

Definition set_seq (sq : Z) (n : bt_mesh_net) : bt_mesh_net :=
  mkNet (iv_index n) (sq mod 16777216) (iv_update n) (pending_update n) (valid n) (last_update n) (ivu_initiator n)
    (dev_key n) (net_key0 n) (net_key1 n) (app_key0 n) (app_key1 n) (sub_net_idx n) (dev_primary_addr n).
Definition set_addr (a : Z) (n : bt_mesh_net) : bt_mesh_net :=
  mkNet (iv_index n) (net_seq n) (iv_update n) (pending_update n) (valid n) (last_update n) (ivu_initiator n)
    (dev_key n) (net_key0 n) (net_key1 n) (app_key0 n) (app_key1 n) (sub_net_idx n) a.
Definition set_dev_key (k : list Z) (n : bt_mesh_net) : bt_mesh_net :=
  mkNet (iv_index n) (net_seq n) (iv_update n) (pending_update n) (valid n) (last_update n) (ivu_initiator n)
    k (net_key0 n) (net_key1 n) (app_key0 n) (app_key1 n) (sub_net_idx n) (dev_primary_addr n).

(** The sequence number, the address and the provisioned flag; enabling the bearers is left out. *)
Definition bt_mesh_setup (sq addr : Z) (s : svc) : svc :=
  on_gt (on_env (with_provisioned true)) (on_net (set_addr addr) (on_net (set_seq sq) s)).

Definition bt_mesh_provision (net_key : list Z) (idx flags iv sq addr : Z) (devk : list Z) (s : svc) : Z * svc :=
  let '(err, n) := bt_mesh_net_create idx flags net_key iv (uptime (senv s)) (net s) in
  if truthy err then (err, s) else
  let s := on_net (λ _, set_dev_key devk n) s in
  let s := bt_mesh_setup sq addr s in
  (0, mesh_provision_complete s).

Definition bt_mesh_reset (s : svc) : svc :=
  if negb (provisioned (senv s)) then s else
  let s := on_lc (set_subs (repeat 0 CONFIG_BT_MESH_MODEL_GROUP_COUNT)) s in
  let s := on_net (λ _, net_zero) s in
  let s := on_gt (on_env (with_provisioned false)) s in
  mesh_provision_reset s.

(** ** genie_reset.c *)

Definition _genie_reset_write_count (count : Z) (s : svc) : svc :=
  on_store (λ st, snd (genie_storage_write_userdata GFI_MESH_RESET_CNT (Some [count]) st)) s.

Definition repeat_reset_timer_cb (s : svc) : svc := _genie_reset_write_count 0 s.

Definition genie_reset_by_repeat_init (s : svc) : svc :=
  let '(flash_err, b) := genie_storage_read_userdata GFI_MESH_RESET_CNT [0] (store s) in
  let count := if negb (flash_err =? GENIE_STORAGE_SUCCESS) then 0 else nth 0 b 0 in
  let count := if count >? GENIE_RESET_BY_REPEAT_COUNTER then 0 else count in
  let s := if count <? GENIE_RESET_BY_REPEAT_COUNTER
           then _genie_reset_write_count (u8 (count + 1)) s
           else on_lc (set_hw_flag 1) s in
  on_lc (set_repeat (Some GENIE_RESET_BY_REPEAT_TIMEOUT)) s.

Definition genie_reset_init (s : svc) : svc := genie_reset_by_repeat_init (on_lc (set_delay None) s).

Definition genie_reset_provision (s : svc) : svc :=
  let s := bt_mesh_reset s in
  let s := say (Stack ProvResetLink) s in
  let s := say (Stack AdvStop) s in
  on_store (λ st, snd (genie_storage_reset_system st)) s.

Definition delay_reset_timer_cb (s : svc) : svc :=
  let s := genie_provision_set_state GENIE_PROVISION_UNPROV s in
  let s := genie_reset_provision s in
  say (Stack AosReboot) s.

Definition genie_reset_do_sw_reset (s : svc) : genie_event_e * svc :=
  (GENIE_EVT_NONE, on_lc (set_delay (Some GENIE_RESET_WAIT_TIMEOUT)) s).

(** [reset_report_result_cb] on success. *)
Definition reset_report_ok (s : svc) : svc := on_lc (set_hw_flag 0) s.

Definition genie_reset_report_device_reset (s : svc) : svc := send_report (device_event EL_HW_RESET_T reset_report_result_cb) s.

Definition genie_reset_do_hw_reset (is_only_report : bool) (s : svc) : genie_event_e * svc :=
  let s := genie_reset_report_device_reset s in
  (if is_only_report then GENIE_EVT_NONE else GENIE_EVT_SW_RESET, s).

(** ** genie_event.c *)

Definition genie_mesh_start (p : genie_provision_t) (s : svc) : svc :=
  let nk := p_netkey p in let ak := p_appkey p in
  let '(_, s) := bt_mesh_provision (nk_key nk) (nk_net_index nk) (nk_flag nk) (nk_ivi nk) (p_seq p) (p_addr p) (p_devkey p) s in
  let register a s := genie_mesh_load_group_addr (say (Stack (AppkeyRegister (ak_net_index a) (ak_key_index a) (ak_key a) (ak_flag a))) s) in
  let s := register ak s in
  let '(r, ak1) := genie_storage_read_appkey 1 (mkAppkey 0 0 0 (repeat 0 16)) (store s) in
  if r =? GENIE_STORAGE_SUCCESS
  then on_gt (on_env (with_appkey_id (ak_key_index ak1))) (register ak1 s)
  else s.

(** [seq_read] is the uninitialised variable of [genie_storage_read_seq]. *)
Definition _genie_event_handle_mesh_init (seq_read : list Z) (s : svc) : genie_event_e * svc :=
  let '(r, p, st) := genie_provision_get_saved_data seq_read (store s) in
  let s := on_store (λ _, st) s in
  if r =? 0 then (GENIE_EVT_NONE, genie_mesh_start p s)
  else (GENIE_EVT_SDK_MESH_PBADV_START, say (Stack (ProvEnable PROV_BEARERS)) s).

Definition _genie_event_handle_pbadv_start (s : svc) : genie_event_e * svc :=
  let s := genie_provision_clear_silent_flag s in
  let s := say (Stack (UnprovBeaconInterval false)) s in
  (GENIE_EVT_NONE, genie_provision_pbadv_timer_start (prov_timeout (lc s)) s).

Definition _genie_event_handle_pbadv_timeout (s : svc) : genie_event_e * svc :=
  (GENIE_EVT_SDK_MESH_SILENT_START, say (Stack (ProvDisable PROV_BEARERS)) (genie_provision_pbadv_timer_stop s)).

Definition _genie_event_handle_silent_start (s : svc) : genie_event_e * svc :=
  (GENIE_EVT_NONE, genie_provision_start_slient_pbadv s).

Definition _genie_event_handle_prov_start (s : svc) : genie_event_e * svc :=
  (GENIE_EVT_NONE,
   if bool_decide (provision_state (lc s) = GENIE_PROVISION_UNPROV)
   then genie_provision_prov_timer_start (genie_provision_pbadv_timer_stop (genie_provision_set_state GENIE_PROVISION_START s))
   else s).

Definition _genie_event_handle_prov_data (addr : Z) (s : svc) : genie_event_e * svc :=
  (GENIE_EVT_NONE, on_store (λ st, snd (genie_storage_write_addr addr st)) s).

Definition _genie_event_handle_prov_timeout (s : svc) : genie_event_e * svc := (GENIE_EVT_SDK_MESH_PROV_FAIL, s).

Definition _genie_event_handle_prov_success (s : svc) : genie_event_e * svc := (GENIE_EVT_NONE, genie_provision_pbadv_timer_stop s).

Definition _genie_event_handle_prov_fail (s : svc) : genie_event_e * svc :=
  let s := genie_provision_set_state GENIE_PROVISION_UNPROV s in
  let s := genie_reset_provision s in
  (GENIE_EVT_SDK_MESH_PBADV_START, say (Stack (ProvEnable PROV_BEARERS)) s).

(** What the handler stores of the stack's keys: the rest of both structures is zero. *)
Definition save_keys (s : svc) : svc :=
  let n := net s in
  let s := on_store (λ st, snd (genie_storage_write_devkey (dev_key n) st)) s in
  let s := on_store (λ st, snd (genie_storage_write_netkey (mkNetkey 0 0 0 (net_key0 n)) st)) s in
  on_store (λ st, snd (genie_storage_write_appkey 0 (mkAppkey 0 0 0 (app_key0 n)) st)) s.

Definition _genie_event_handle_appkey_add (status : Z) (s : svc) : genie_event_e * svc :=
  if bool_decide (provision_state (lc s) = GENIE_PROVISION_START) then
    let s := genie_provision_prov_timer_stop s in
    if status =? 0 then
      let s := save_keys s in
      let s := genie_provision_set_state GENIE_PROVISION_SUCCESS s in
      (GENIE_EVT_SDK_MESH_PROV_SUCCESS, genie_mesh_ready_checktimer_restart s)
    else (GENIE_EVT_SDK_MESH_PROV_FAIL, s)
  else (GENIE_EVT_NONE, s).

Definition _genie_event_handle_appkey1_add (status : Z) (s : svc) : genie_event_e * svc :=
  (GENIE_EVT_NONE,
   if status =? 0 then
     let '(r, st) := genie_storage_write_appkey 1 (mkAppkey 0 1 0 (app_key1 (net s))) (store s) in
     let s := on_store (λ _, st) s in
     if r =? GENIE_STORAGE_SUCCESS then on_gt (on_env (with_appkey_id 1)) s else s
   else s).

Definition genie_event_handle_sub_add (s : svc) : genie_event_e * svc :=
  (GENIE_EVT_NONE, on_store (λ st, snd (genie_storage_write_userdata GFI_MESH_SUB (Some (u16_image (g_sub_list (lc s)))) st)) s).

Definition _genie_event_handle_hb_set (p : mesh_hb_para_t) (s : svc) : genie_event_e * svc :=
  (GENIE_EVT_NONE, on_store (λ st, snd (genie_storage_write_hb p st)) s).

Definition _genie_event_handle_seq_update (s : svc) : genie_event_e * svc :=
  let sq := net_seq (net s) in
  (GENIE_EVT_NONE, on_store (λ st, snd (genie_storage_write_seq sq (sq =? 0) st)) s).

Definition _genie_event_handle_ais_discon (s : svc) : genie_event_e * svc :=
  let '(r, s) := stack_rc (ProvEnable PROV_BEARERS) s in
  (if r =? 0 then GENIE_EVT_SDK_MESH_PBADV_START else GENIE_EVT_NONE, s).

Definition handle_ivi_update (ivi : Z) (s : svc) : genie_event_e * svc :=
  let '(r, nk) := genie_storage_read_netkey (mkNetkey 0 0 0 (repeat 0 16)) (store s) in
  (GENIE_EVT_NONE,
   if r =? GENIE_STORAGE_SUCCESS
   then on_store (λ st, snd (genie_storage_write_netkey (mkNetkey (nk_net_index nk) (nk_flag nk) ivi (nk_key nk)) st)) s
   else s).

(** The argument pointer, by what it points to. *)
Inductive event_arg :=
| NULL | PtrInt (z : Z) | PtrHb (h : mesh_hb_para_t)
| PtrMsg (m : genie_transport_model_param_t) | PtrAttr (a : vendor_attr_data_t).

(** The [switch] of [genie_event]: next event, [ignore_user_event], state; [None] is
    a wrong pointer or a message read behind its end. *)
Definition event_dispatch (seq_read : list Z) (ev : genie_event_e) (arg : event_arg) (s : svc)
  : option (genie_event_e * bool * svc) :=
  let told r := Some (fst r, false, snd r) in
  match ev with
  | GENIE_EVT_SW_RESET =>
      let r := genie_reset_do_sw_reset (say (UserEvent GENIE_EVT_SW_RESET) s) in Some (fst r, true, snd r)
  | GENIE_EVT_HW_RESET_START =>
      match arg with
      | NULL => told (genie_reset_do_hw_reset false s)
      | PtrInt b => told (genie_reset_do_hw_reset (truthy b) s)
      | _ => None
      end
  | GENIE_EVT_BT_READY => told (_genie_event_handle_mesh_init seq_read s)
  | GENIE_EVT_SDK_AIS_DISCON => told (_genie_event_handle_ais_discon s)
  | GENIE_EVT_SDK_MESH_PBADV_START => told (_genie_event_handle_pbadv_start s)
  | GENIE_EVT_SDK_MESH_PBADV_TIMEOUT => told (_genie_event_handle_pbadv_timeout s)
  | GENIE_EVT_SDK_MESH_SILENT_START => told (_genie_event_handle_silent_start s)
  | GENIE_EVT_SDK_MESH_PROV_START => told (_genie_event_handle_prov_start s)
  | GENIE_EVT_SDK_MESH_PROV_DATA => match arg with PtrInt a => told (_genie_event_handle_prov_data a s) | _ => None end
  | GENIE_EVT_SDK_MESH_PROV_TIMEOUT => told (_genie_event_handle_prov_timeout s)
  | GENIE_EVT_SDK_MESH_PROV_FAIL => told (_genie_event_handle_prov_fail s)
  | GENIE_EVT_SDK_MESH_PROV_SUCCESS => told (_genie_event_handle_prov_success s)
  | GENIE_EVT_MESH_READY =>
      Some (GENIE_EVT_NONE, true, genie_mesh_init_pharse_ii (say (UserEvent GENIE_EVT_MESH_READY) s))
  | GENIE_EVT_SDK_APPKEY_ADD => match arg with PtrInt st => told (_genie_event_handle_appkey_add st s) | _ => None end
  | GENIE_EVT_SDK_APPKEY1_ADD => match arg with PtrInt st => told (_genie_event_handle_appkey1_add st s) | _ => None end
  | GENIE_EVT_SDK_IVI_UPDATE => match arg with PtrInt iv => told (handle_ivi_update iv s) | _ => None end
  | GENIE_EVT_SDK_SUB_ADD => told (genie_event_handle_sub_add s)
  | GENIE_EVT_SDK_HB_SET => match arg with PtrHb h => told (_genie_event_handle_hb_set h s) | _ => None end
  | GENIE_EVT_SDK_SEQ_UPDATE => told (_genie_event_handle_seq_update s)
  | GENIE_EVT_VENDOR_MODEL_MSG =>
      match arg with
      | PtrMsg m => '(_, g) ← genie_model_handle_mesg m (gt s); told (GENIE_EVT_NONE, on_gt (λ _, g) s)
      | _ => None
      end
  | GENIE_EVT_TIMEOUT =>
      match arg with PtrAttr a => told (GENIE_EVT_NONE, on_gt (on_uplink (genie_model_notify_onoff_msg a)) s) | _ => None end
  | _ => Some (GENIE_EVT_NONE, false, s)
  end.

(** [genie_at_output_event]. *)
Definition genie_at_output_event (ev : genie_event_e) (s : svc) : svc :=
  match ev with
  | GENIE_EVT_MESH_READY => say (AtEvent 4) s
  | GENIE_EVT_SDK_MESH_PROV_SUCCESS => say (AtEvent 0) s
  | GENIE_EVT_SDK_MESH_PROV_FAIL => say (AtEvent 5) s
  | _ => s
  end.

(** [genie_event]; the recursive call is bounded by [fuel]. *)
Fixpoint genie_event_fuel (fuel : nat) (seq_read : list Z) (ev : genie_event_e) (arg : event_arg) (s : svc) : option svc :=
  match fuel with
  | O => None
  | S fuel =>
    if negb (event_cb (senv s)) then Some s else
    '(next, ignore, s) ← event_dispatch seq_read ev arg s;
    let s := if negb ignore && event_cb (senv s) then say (UserEvent ev) s else s in
    let s := genie_at_output_event ev s in
    if bool_decide (next = GENIE_EVT_NONE) then Some s else genie_event_fuel fuel seq_read next arg s
  end.

(** Three levels are enough: see [event_chain_terminates]. *)
Definition genie_event := genie_event_fuel 3.

(** ** Timer expiries and the use of a sequence number *)

Definition _genie_pbadv_timer_cb (q : list Z) (s : svc) : option svc := genie_event q GENIE_EVT_SDK_MESH_PBADV_TIMEOUT NULL s.
Definition _genie_prov_timer_cb (q : list Z) (s : svc) : option svc := genie_event q GENIE_EVT_SDK_MESH_PROV_TIMEOUT NULL s.

Definition do_mesh_ready_timer_cb (q : list Z) (s : svc) : option svc :=
  let st := s_mesh_init_state (lc s) in
  let ready s := s ← genie_event q GENIE_EVT_MESH_READY NULL s; Some (on_lc (set_init_state GENIE_MESH_INIT_STATE_NORMAL_BOOT) s) in
  if st =? GENIE_MESH_INIT_STATE_PROVISION then
    if negb (bool_decide (provision_state (lc s) = GENIE_PROVISION_SUCCESS))
    then genie_event q GENIE_EVT_SDK_MESH_PROV_TIMEOUT NULL s
    else ready s
  else if st =? GENIE_MESH_INIT_STATE_HW_RESET then genie_event q GENIE_EVT_HW_RESET_START NULL s
  else ready s.

(** The part of [bt_mesh_net_encode] (and of [bt_mesh_net_resend] and friend.c) that
    takes a sequence number: the IV index and the number the PDU is encrypted with,
    and the state after the update event. *)
Definition net_take_seq (q : list Z) (s : svc) : option (Z * Z * svc) :=
  let sq := net_seq (net s) in
  let iv := BT_MESH_NET_IVI_TX (net s) in
  s ← genie_event q GENIE_EVT_SDK_SEQ_UPDATE NULL (on_net (set_seq (sq + 1)) s);
  Some (iv, sq, s).

(** Power on: the statics as the loader leaves them, the flash as it was, then the
    start of [genie_service_init] up to the Bluetooth stack, and the ready event.
    [e] is the platform after the restart, [prj_key] the build's storage key. *)
Definition power_on (e : env) (prj_key : option (list Z)) (pt : Z) (f : F) : svc :=
  let st := snd (genie_storage_init prj_key (mkStorage f (repeat 0 16) 0)) in
  let l := mkLc GENIE_PROVISION_UNPROV None None None None None 0 0 2 (repeat 0 CONFIG_BT_MESH_MODEL_GROUP_COUNT) pt in
  genie_reset_init (mkSvc (time_boot (transport_boot e)) st net_zero l).

Definition reboot (q : list Z) (e : env) (prj_key : option (list Z)) (s : svc) : option svc :=
  genie_event q GENIE_EVT_BT_READY NULL (power_on e prj_key (prov_timeout (lc s)) (flash (store s))).

End Lifecycle.
Arguments svc F : clear implicits.
