(* ===== verification/LifecycleProps.v ===== *)
(** * LifecycleProps: what the event machine guarantees

    Termination of the event chains, the provisioning time limit as an invariant of
    every interleaving, the reset by repeated power cycles, what survives a restart,
    and the freshness of the sequence numbers that the network layer encrypts with. *)
From Stdlib Require Import ZArith Lia List Bool Sorted.
From stdpp Require Import base list numbers option relations strings gmap.
From S2P Require Import Prelude Env Transport Calendar GenieTime TimePool TimeMsg EventBase VendorModel Storage Lifecycle.
Local Open Scope Z_scope.

Section Props.
Context {F : Type} `{FlashLaws F}.
Variable keys_ok : list Z → bool.
Implicit Types s : svc F.
Abbreviation event := (genie_event keys_ok).
Abbreviation event_fuel := (genie_event_fuel keys_ok).

(** ** Event chains end *)

(** The number of events an event can lead to, itself included. *)
Definition event_depth (ev : genie_event_e) : nat :=
  match ev with
  | GENIE_EVT_NONE | GENIE_EVT_SW_RESET | GENIE_EVT_SDK_MESH_PBADV_START | GENIE_EVT_SDK_MESH_SILENT_START
  | GENIE_EVT_SDK_MESH_PROV_SUCCESS => 1
  | GENIE_EVT_SDK_MESH_PROV_FAIL => 2
  | _ => 3
  end.

Lemma dispatch_next q ev arg s next ign s' : event_dispatch keys_ok q ev arg s = Some (next, ign, s') →
  next = GENIE_EVT_NONE \/ (event_depth next < event_depth ev)%nat.
Proof.
  assert (forall a b c, Some (a, b, c) = Some (next, ign, s') → a = next) as J by congruence.
  destruct ev; cbn [event_dispatch]; intros E;
    try match type of E with match arg with _ => _ end = _ => destruct arg; try discriminate E end;
    try match type of E with mbind _ ?o = _ => destruct o as [[]|]; [|discriminate E] end;
    apply J in E; subst next; try (left; reflexivity);
    unfold _genie_event_handle_mesh_init, _genie_event_handle_appkey_add, handle_ivi_update,
      genie_reset_do_hw_reset, _genie_event_handle_ais_discon, stack_rc;
    repeat case_match; cbn; auto with lia.
Qed.

(** The events of a chain need no argument. *)
Lemma dispatch_total q ev arg s : (event_depth ev < 3)%nat → event_dispatch keys_ok q ev arg s ≠ None.
Proof. destruct ev; cbn [event_dispatch event_depth]; (lia || discriminate). Qed.

Lemma event_fuel_enough q fuel : forall ev arg s, event_dispatch keys_ok q ev arg s ≠ None → (event_depth ev <= fuel)%nat →
  exists s', forall k, event_fuel (fuel + k) q ev arg s = Some s'.
Proof.
  induction fuel as [|fuel IH]; intros ev arg s D Hf; [destruct ev; cbn in Hf; lia|]. cbn [Nat.add genie_event_fuel].
  destruct (event_cb (senv s)); cbn [negb]; [|eauto].
  destruct (event_dispatch keys_ok q ev arg s) as [[[next ign] s1]|] eqn:E; [|done]. cbn [mbind option_bind].
  set (s2 := genie_at_output_event _ _). clearbody s2.
  destruct (dispatch_next _ _ _ _ _ _ _ E) as [->|Hn]; [rewrite bool_decide_true by done; eauto|].
  destruct (bool_decide (next = GENIE_EVT_NONE)); [eauto|].
  destruct (IH next arg s2) as [s' R]; [apply dispatch_total; destruct ev; cbn in *; lia | lia | eauto].
Qed.

(** The event machine ends: an event whose argument its handler accepts leads to
    at most two further events, so [genie_event] returns; deeper recursion would not
    change the result. *)
Theorem event_chain_terminates q ev arg s : event_dispatch keys_ok q ev arg s ≠ None →
  exists s', event q ev arg s = Some s' /\ forall k, event_fuel (3 + k) q ev arg s = Some s'.
Proof.
  intros D. destruct (event_fuel_enough q 3 ev arg s D) as [s' R]; [destruct ev; cbn; lia|].
  exists s'. split; [exact (R 0%nat) | exact R].
Qed.

(** ** A provisioning attempt has a time limit *)

(** The service in its environment: events of the stack and of the application,
    expiries of its timers, the stack's own provisioning, anything the rest of the
    service does to the timers, the store and the network state, and restarts.
    A running service has its event callback ([genie_service_check_ctx]). *)
Inductive lstep : svc F → svc F → Prop :=
| ls_event q ev arg s s' : event_cb (senv s) = true → event q ev arg s = Some s' → lstep s s'
| ls_pbadv q t s s' : event_cb (senv s) = true → pbadv_timeout_timer (lc s) = Some t →
    _genie_pbadv_timer_cb keys_ok q (on_lc (set_pbadv None) s) = Some s' → lstep s s'
| ls_prov q t s s' : event_cb (senv s) = true → prov_timeout_timer (lc s) = Some t →
    _genie_prov_timer_cb keys_ok q (on_lc (set_prov None) s) = Some s' → lstep s s'
| ls_ready q t s s' : event_cb (senv s) = true → do_mesh_ready_timer (lc s) = Some t →
    do_mesh_ready_timer_cb keys_ok q (on_lc (set_ready None) s) = Some s' → lstep s s'
| ls_delay t s : delay_reset_timer (lc s) = Some t → lstep s (delay_reset_timer_cb (on_lc (set_delay None) s))
| ls_repeat t s : repeat_reset_timer (lc s) = Some t → lstep s (repeat_reset_timer_cb (on_lc (set_repeat None) s))
| ls_report s : lstep s (reset_report_ok s)
| ls_provision key idx flags iv sq a devk s : lstep s (snd (bt_mesh_provision keys_ok key idx flags iv sq a devk s))
| ls_other g st n s : lstep s (mkSvc g st n (lc s))
| ls_restart e k pt f s : lstep s (power_on e k pt f).

Definition timed s : Prop := provision_state (lc s) = GENIE_PROVISION_START → prov_timeout_timer (lc s) ≠ None.

(** The fields of the invariant are the same. *)
Definition same_prov s s' : Prop :=
  provision_state (lc s') = provision_state (lc s) /\ prov_timeout_timer (lc s') = prov_timeout_timer (lc s).

Lemma same_prov_timed s s' : same_prov s s' → timed s → timed s'.
Proof. unfold timed. intros [-> ->]. done. Qed.

Lemma mesh_provision_complete_prov s : same_prov s (mesh_provision_complete s).
Proof. unfold mesh_provision_complete. by repeat case_match. Qed.

Lemma bt_mesh_provision_prov key idx flags iv sq a devk s : same_prov s (snd (bt_mesh_provision keys_ok key idx flags iv sq a devk s)).
Proof.
  unfold bt_mesh_provision. destruct (bt_mesh_net_create _ _ _ _ _ _ _) as [err n]. destruct (truthy err); [done|].
  cbn [snd]. match goal with |- same_prov s (mesh_provision_complete ?x) => exact (mesh_provision_complete_prov x) end.
Qed.

Lemma load_group_addr_prov s : same_prov s (genie_mesh_load_group_addr s).
Proof.
  unfold genie_mesh_load_group_addr. destruct (genie_storage_read_sub _ _) as [r subs].
  destruct (negb _); destruct (genie_storage_read_userdata _ _ _) as [r' user]; by destruct (r' =? _).
Qed.

Lemma same_prov_trans s1 s2 s3 : same_prov s1 s2 → same_prov s2 s3 → same_prov s1 s3.
Proof. unfold same_prov. intros [] []. split; congruence. Qed.

Lemma mesh_start_prov p s : same_prov s (genie_mesh_start keys_ok p s).
Proof.
  unfold genie_mesh_start. cbv zeta.
  match goal with |- context [bt_mesh_provision keys_ok ?a ?b ?c ?d ?e ?f ?g s] =>
    pose proof (bt_mesh_provision_prov a b c d e f g s) as P; destruct (bt_mesh_provision keys_ok a b c d e f g s) as [r s1] end.
  cbn [snd] in P. apply (same_prov_trans _ _ _ P).
  set (s2 := genie_mesh_load_group_addr _). assert (same_prov s1 s2) as P2 by apply (load_group_addr_prov (say _ s1)).
  destruct (genie_storage_read_appkey 1 _ (store s2)) as [r1 ak1]. destruct (_ =? _); [|done].
  apply (same_prov_trans _ _ _ P2). apply (load_group_addr_prov (say _ s2)).
Qed.

Lemma reset_provision_prov s : same_prov s (genie_reset_provision s).
Proof. unfold genie_reset_provision, bt_mesh_reset. by destruct (negb _). Qed.

(** One event keeps the limit, or hands over to the failure event. *)
Lemma dispatch_timed q ev arg s next ign s' :
  timed s \/ ev = GENIE_EVT_SDK_MESH_PROV_FAIL \/ ev = GENIE_EVT_SDK_MESH_PROV_TIMEOUT →
  event_dispatch keys_ok q ev arg s = Some (next, ign, s') → timed s' \/ (next = GENIE_EVT_SDK_MESH_PROV_FAIL /\ gt s' = gt s).
Proof.
  intros T E. destruct (decide (ev = GENIE_EVT_SDK_MESH_PROV_FAIL)) as [->|N1].
  { cbn [event_dispatch] in E. apply (f_equal (option_map snd)) in E. cbn in E. injection E as <-. left.
    unfold timed. cbn. unfold genie_reset_provision, bt_mesh_reset. by destruct (negb _). }
  destruct (decide (ev = GENIE_EVT_SDK_MESH_PROV_TIMEOUT)) as [->|N2].
  { cbn [event_dispatch] in E. injection E as <- _ <-. by right. }
  destruct T as [T | [T | T]]; [|done..].
  assert (forall r : genie_event_e * svc F, Some (fst r, false, snd r) = Some (next, ign, s') → r = (next, s')) as J
    by (intros []; cbn; congruence).
  destruct ev; try done; cbn [event_dispatch] in E;
    try match type of E with match arg with _ => _ end = _ => destruct arg; try discriminate E end;
    try match type of E with mbind _ ?o = _ => destruct o as [[]|]; [|discriminate E] end;
    try (injection E as _ _ <-; left; apply (same_prov_timed s); [split; reflexivity | exact T]; fail);
    apply J in E.
  - unfold _genie_event_handle_mesh_init in E. destruct (genie_provision_get_saved_data q (store s)) as [[r p] st].
    destruct (r =? 0); injection E as _ <-; left; apply (same_prov_timed s); try exact T; [apply (mesh_start_prov p (on_store _ s)) | split; reflexivity].
  - unfold _genie_event_handle_prov_start in E. injection E as _ <-. left. destruct (bool_decide _); [done | exact T].
  - unfold _genie_event_handle_appkey_add in E. destruct (bool_decide _) eqn:B.
    + destruct (z =? 0); injection E as <- <-; [left; done | by right].
    + injection E as _ <-. by left.
  - unfold handle_ivi_update in E. destruct (genie_storage_read_netkey _ _) as [r nk].
    injection E as _ <-. left. destruct (r =? _); exact T.
  - unfold _genie_event_handle_appkey1_add in E. injection E as _ <-. left. destruct (z =? 0); [|exact T].
    destruct (genie_storage_write_appkey _ _ _) as [r st]. destruct (r =? _); exact T.
Qed.

(** The whole chain keeps the limit. *)
Lemma event_timed q fuel : forall ev arg s s',
  timed s \/ (event_cb (senv s) = true /\ (ev = GENIE_EVT_SDK_MESH_PROV_FAIL \/ ev = GENIE_EVT_SDK_MESH_PROV_TIMEOUT)) →
  event_fuel fuel q ev arg s = Some s' → timed s'.
Proof.
  induction fuel as [|fuel IH]; intros ev arg s s' T E; [done|]. cbn [genie_event_fuel] in E.
  destruct (event_cb (senv s)) eqn:C; cbn [negb] in E; [|injection E as <-; by destruct T as [T|[T _]]].
  destruct (event_dispatch keys_ok q ev arg s) as [[[next ign] s1]|] eqn:D; [|done]. cbn [mbind option_bind] in E.
  apply dispatch_timed in D; [|destruct T as [T|[_ T]]; [by left | by right]].
  set (s2 := genie_at_output_event ev _) in E.
  assert (same_prov s1 s2 /\ event_cb (senv s2) = event_cb (senv s1)) as [P C2].
  { unfold s2. destruct (negb ign && _); by destruct ev. }
  assert (timed s2 \/ event_cb (senv s2) = true /\ next = GENIE_EVT_SDK_MESH_PROV_FAIL) as T2.
  { destruct D as [D | [-> G]]; [left; by apply (same_prov_timed s1) | right]. split; [|done]. rewrite C2. unfold senv. by rewrite G. }
  destruct (bool_decide (next = GENIE_EVT_NONE)) eqn:B.
  - injection E as <-. destruct T2 as [|[_ ->]]; [done|]. by rewrite bool_decide_false in B.
  - refine (IH _ _ _ _ _ E). destruct T2 as [T2|[T2 ->]]; [by left | right; auto].
Qed.

Lemma power_on_timed e k pt (f : F) : timed (power_on e k pt f).
Proof.
  unfold power_on, genie_reset_init, genie_reset_by_repeat_init. cbv zeta.
  destruct (genie_storage_read_userdata _ _ _). unfold timed. intros E. exfalso. revert E.
  match goal with |- context [if ?c <? ?d then _ else _] => destruct (c <? d) end; done.
Qed.

Lemma lstep_timed s s' : lstep s s' → timed s → timed s'.
Proof.
  intros S T. destruct S as [q ev arg s s' C E | q t s s' C Ht E | q t s s' C Ht E | q t s s' C Ht E | | | | | | ];
    unfold _genie_pbadv_timer_cb, _genie_prov_timer_cb, genie_event in *.
  - eapply event_timed; [|exact E]. left. exact T.
  - eapply event_timed; [|exact E]. left. exact T.
  - eapply event_timed; [|exact E]. right. split; [exact C | by right].
  - revert E. unfold do_mesh_ready_timer_cb, genie_event. assert (timed (on_lc (set_ready None) s)) as T1 by exact T.
    assert (forall s'', (event_fuel 3 q GENIE_EVT_MESH_READY NULL (on_lc (set_ready None) s) ≫=
      λ s, Some (on_lc (set_init_state GENIE_MESH_INIT_STATE_NORMAL_BOOT) s)) = Some s'' → timed s'') as R.
    { intros s'' E. destruct (event_fuel 3 q GENIE_EVT_MESH_READY NULL _) as [s3|] eqn:E3; [|done]. injection E as <-.
      change (timed s3). eapply event_timed; [left; exact T1 | exact E3]. }
    repeat case_match; intros E; try (by apply R); (eapply event_timed; [|exact E]; left; exact T1).
  - intros E. exfalso. revert E. cbn. unfold genie_reset_provision, bt_mesh_reset. by destruct (negb _).
  - exact T.
  - exact T.
  - apply (same_prov_timed s); [apply bt_mesh_provision_prov | exact T].
  - exact T.
  - apply power_on_timed.
Qed.

(** What the failure of an attempt leaves. *)
Lemma stop_uplink i (g : vstate) : uplink (snd (genie_time_stop i g)) = uplink g.
Proof.
  unfold genie_time_stop. destruct (negb _); [done|]. destruct (negb _); [done|]. destruct (_ >=? _); [done|].
  by destruct (genie_time_find _ g).
Qed.

Lemma stop_all_uplink (g : vstate) : uplink (stop_all g) = uplink g.
Proof.
  unfold stop_all. generalize (seq 0 GENIE_TIME_MAX). intros l. revert g.
  induction l as [|i l IH]; intros g; [done|]. cbn [fold_left]. by rewrite IH, stop_uplink.
Qed.

(** The state [genie_time_finalize] builds from the stopped pool. *)
Definition finalized (g : vstate) : vstate :=
  mkGT (genie_time_data g) (mkTT false false false [] [] 0 0 0 false (work (genie_time_timer g))) utc_zero (uplink g).

Lemma finalized_uplink g : uplink (finalized g) = uplink g.
Proof. done. Qed.

Lemma finalize_eq (g : vstate) :
  snd (genie_time_finalize g) = if negb (init (genie_time_timer g)) then g else finalized (stop_all g).
Proof. unfold genie_time_finalize. by destruct (negb _). Qed.

Lemma finalize_uplink (g : vstate) : uplink (snd (genie_time_finalize g)) = uplink g.
Proof.
  rewrite finalize_eq. destruct (negb _); [done|]. rewrite finalized_uplink. apply stop_all_uplink.
Qed.

Lemma bt_mesh_reset_frame s : store (bt_mesh_reset s) = store s /\ provisioned (senv (bt_mesh_reset s)) = false
  /\ event_cb (senv (bt_mesh_reset s)) = event_cb (senv s) /\ out (senv (bt_mesh_reset s)) = out (senv s)
  /\ (provisioned (senv s) = true → net (bt_mesh_reset s) = net_zero)
  /\ prov_timeout (lc (bt_mesh_reset s)) = prov_timeout (lc s) /\ provision_state (lc (bt_mesh_reset s)) = provision_state (lc s)
  /\ prov_timeout_timer (lc (bt_mesh_reset s)) = prov_timeout_timer (lc s).
Proof.
  unfold bt_mesh_reset. destruct (provisioned (senv s)) eqn:P; cbn [negb].
  - unfold mesh_provision_reset, senv. cbn [gt on_gt on_net on_lc store net lc]. rewrite finalize_uplink. done.
  - repeat split; done.
Qed.

(** One level of [genie_event] while the callback is set. *)
Lemma event_fuel_S n q ev arg s next ign s1 : event_cb (senv s) = true →
  event_dispatch keys_ok q ev arg s = Some (next, ign, s1) → event_cb (senv s1) = true →
  event_fuel (S n) q ev arg s =
  let s2 := genie_at_output_event ev (if ign then s1 else say (UserEvent ev) s1) in
  if bool_decide (next = GENIE_EVT_NONE) then Some s2 else event_fuel n q next arg s2.
Proof. intros C D C1. cbn [genie_event_fuel]. rewrite C, D. cbn [negb mbind option_bind]. rewrite C1. by destruct ign. Qed.

(** The expiry of the provisioning timer. *)
Lemma prov_fail_effect q s : event_cb (senv s) = true →
  exists s', _genie_prov_timer_cb keys_ok q (on_lc (set_prov None) s) = Some s'
    /\ provision_state (lc s') = GENIE_PROVISION_UNPROV /\ provisioned (senv s') = false
    /\ (provisioned (senv s) = true → net s' = net_zero)
    /\ flash (store s') = save_switches_param (snd (aos_kv_del_all (flash (store s))))
    /\ prov_timeout_timer (lc s') = None /\ pbadv_timeout_timer (lc s') = Some (prov_timeout (lc s))
    /\ out (senv s') = out (senv s) ++
         [UserEvent GENIE_EVT_SDK_MESH_PROV_TIMEOUT; Stack ProvResetLink; Stack AdvStop; Stack (ProvEnable PROV_BEARERS);
          UserEvent GENIE_EVT_SDK_MESH_PROV_FAIL; AtEvent 5; Stack (UnprovBeaconInterval false);
          UserEvent GENIE_EVT_SDK_MESH_PBADV_START].
Proof.
  intros C. unfold _genie_prov_timer_cb, genie_event.
  set (s0 := on_lc (set_prov None) s). set (s1 := say (UserEvent GENIE_EVT_SDK_MESH_PROV_TIMEOUT) s0).
  rewrite (event_fuel_S 2 q GENIE_EVT_SDK_MESH_PROV_TIMEOUT NULL s0 GENIE_EVT_SDK_MESH_PROV_FAIL false s0 C eq_refl C).
  rewrite bool_decide_false by done. cbn [genie_at_output_event]. fold s1.
  destruct (bt_mesh_reset_frame (genie_provision_set_state GENIE_PROVISION_UNPROV s1)) as (R1 & R2 & R3 & R4 & R5 & R6 & R7 & R8).
  set (s2 := bt_mesh_reset _) in *.
  set (s3 := snd (_genie_event_handle_prov_fail s1)).
  assert (event_cb (senv s3) = true) as C3 by (etrans; [exact R3 | exact C]).
  rewrite (event_fuel_S 1 q GENIE_EVT_SDK_MESH_PROV_FAIL NULL s1 GENIE_EVT_SDK_MESH_PBADV_START false s3 C eq_refl C3).
  rewrite bool_decide_false by done. cbn [genie_at_output_event].
  set (s4 := say (AtEvent 5) _).
  rewrite (event_fuel_S 0 q GENIE_EVT_SDK_MESH_PBADV_START NULL s4 GENIE_EVT_NONE false (snd (_genie_event_handle_pbadv_start s4)) C3 eq_refl C3).
  rewrite bool_decide_true by done. eexists. split; [reflexivity|].
  split; [exact R7|]. split; [exact R2|]. split; [exact R5|].
  split; [|split; [exact R8|]].
  - cbn [flash store]. change (flash (store s3) = save_switches_param (snd (aos_kv_del_all (flash (store s))))).
    unfold s3, _genie_event_handle_prov_fail, genie_reset_provision. fold s2. cbn [snd store on_store on_gt say].
    rewrite R1. unfold genie_storage_reset_system. change (store (genie_provision_set_state GENIE_PROVISION_UNPROV s1)) with (store s).
    by destruct (aos_kv_del_all (flash (store s))).
  - split; [exact (f_equal Some R6)|].
    change (out (senv (genie_provision_set_state GENIE_PROVISION_UNPROV s1))) with (out (senv s) ++ [UserEvent GENIE_EVT_SDK_MESH_PROV_TIMEOUT]) in R4.
    transitivity (((((((out (senv s2) ++ [Stack ProvResetLink]) ++ [Stack AdvStop]) ++ [Stack (ProvEnable PROV_BEARERS)])
      ++ [UserEvent GENIE_EVT_SDK_MESH_PROV_FAIL]) ++ [AtEvent 5]) ++ [Stack (UnprovBeaconInterval false)])
      ++ [UserEvent GENIE_EVT_SDK_MESH_PBADV_START]); [reflexivity|].
    rewrite R4, <- !app_assoc. reflexivity.
Qed.

(** [C34] A provisioning attempt is bounded in time: in every state the service can
    reach, however events, timer expiries, restarts and the rest of the service
    interleave, an attempt in progress has its 60 s timer pending; when it expires,
    the node is unprovisioned, its network state and the key-value store are erased,
    and it advertises on both bearers again with a new advertising limit. *)
Theorem provisioning_is_timed e k pt (f : F) s q : rtc lstep (power_on e k pt f) s →
  provision_state (lc s) = GENIE_PROVISION_START → event_cb (senv s) = true →
  prov_timeout_timer (lc s) ≠ None /\
  exists s', _genie_prov_timer_cb keys_ok q (on_lc (set_prov None) s) = Some s'
    /\ provision_state (lc s') = GENIE_PROVISION_UNPROV /\ provisioned (senv s') = false
    /\ (provisioned (senv s) = true → net s' = net_zero)
    /\ flash (store s') = save_switches_param (snd (aos_kv_del_all (flash (store s))))
    /\ prov_timeout_timer (lc s') = None /\ pbadv_timeout_timer (lc s') = Some (prov_timeout (lc s))
    /\ out (senv s') = out (senv s) ++
         [UserEvent GENIE_EVT_SDK_MESH_PROV_TIMEOUT; Stack ProvResetLink; Stack AdvStop; Stack (ProvEnable PROV_BEARERS);
          UserEvent GENIE_EVT_SDK_MESH_PROV_FAIL; AtEvent 5; Stack (UnprovBeaconInterval false);
          UserEvent GENIE_EVT_SDK_MESH_PBADV_START].
Proof.
  intros R P C. split.
  - assert (timed s) as T; [|by apply T].
    pose proof (power_on_timed e k pt f) as T0. induction R; [done|]. eauto using lstep_timed.
  - exact (prov_fail_effect q s C).
Qed.

(** ** Reset by repeated power cycles *)

(** Writes to the key-value store succeed. *)
Definition kv_works : Prop := forall k v (f : F), fst (aos_kv_set k v f) = 0.

Definition cnt_key : string := key_name GFI_MESH_RESET_CNT.

(** The stored power cycle count, an absent one counting as zero. *)
Definition stored_count (f : F) (c : Z) : Prop := kv_item_get cnt_key f = Some [c] \/ (kv_item_get cnt_key f = None /\ c = 0).

Lemma write_userdata_get i b (st : storage F) : kv_works → b ≠ [] →
  kv_item_get (key_name i) (flash (snd (genie_storage_write_userdata i (Some b) st))) = Some b.
Proof.
  intros W Hb. unfold genie_storage_write_userdata, _genie_storage_write, genie_kv_write. destruct b as [|x b]; [done|].
  pose proof (kv_set_get (key_name i) (x :: b) (flash st) (W _ _ _)) as G.
  destruct (aos_kv_set _ _ _) as [r f]. exact G.
Qed.

Lemma read_count (st : storage F) c : stored_count (flash st) c →
  let r := genie_storage_read_userdata GFI_MESH_RESET_CNT [0] st in
  (if negb (fst r =? GENIE_STORAGE_SUCCESS) then 0 else nth 0 (snd r) 0) = c.
Proof.
  unfold stored_count, cnt_key, genie_storage_read_userdata, _genie_storage_read, genie_kv_read, aos_kv_get.
  by intros [-> | [-> ->]].
Qed.

Lemma power_on_count e k pt (f : F) c : kv_works → stored_count f c → 0 <= c <= 4 →
  let s := power_on e k pt f in
  hw_reset_flag (lc s) = (if c <? 4 then 0 else 1) /\ stored_count (flash (store s)) (Z.min (c + 1) 4)
  /\ repeat_reset_timer (lc s) = Some GENIE_RESET_BY_REPEAT_TIMEOUT.
Proof.
  intros W Hc Hr. unfold power_on, genie_reset_init, genie_reset_by_repeat_init. cbv zeta.
  set (st := snd (genie_storage_init k (mkStorage f (repeat 0 16) 0))).
  assert (flash st = f) as Ef by (unfold st; by destruct k).
  cbn [store on_lc]. pose proof (read_count st c) as Rc. rewrite Ef in Rc. specialize (Rc Hc). cbv zeta in Rc.
  destruct (genie_storage_read_userdata GFI_MESH_RESET_CNT [0] st) as [err b]. cbn [fst snd] in Rc. rewrite Rc.
  unfold GENIE_RESET_BY_REPEAT_COUNTER. rewrite Z.gtb_ltb, (proj2 (Z.ltb_ge 4 c)) by lia.
  destruct (Z.ltb_spec c 4) as [Hlt|Hge]; (split; [reflexivity|]); (split; [|reflexivity]).
  - left. rewrite Z.min_l, u8_small by lia. exact (write_userdata_get GFI_MESH_RESET_CNT [c + 1] st W ltac:(done)).
  - rewrite Z.min_r by lia. replace 4 with c by lia. change (stored_count (flash st) c). by rewrite Ef.
Qed.

(** The flash after [n] power cycles that each end before the 3 s timer expires. *)
Fixpoint quick_cycles (e : env) (k : option (list Z)) (pt : Z) (n : nat) (f : F) : F :=
  match n with O => f | S n => flash (store (power_on e k pt (quick_cycles e k pt n f))) end.

(** Reset by repeated power cycles: on a device whose counter is clear, the
    power-on after [n] quick power cycles sets the hardware reset flag exactly when
    [n] is at least four, that is, from the fifth power-on in a row; every power-on
    starts the 3 s timer, and its expiry clears the counter. *)
Theorem repeat_reset_fifth e k pt (f : F) n : kv_works → kv_item_get cnt_key f = None →
  let s := power_on e k pt (quick_cycles e k pt n f) in
  hw_reset_flag (lc s) = (if (4 <=? n)%nat then 1 else 0)
  /\ repeat_reset_timer (lc s) = Some GENIE_RESET_BY_REPEAT_TIMEOUT
  /\ kv_item_get cnt_key (flash (store (repeat_reset_timer_cb s))) = Some [0].
Proof.
  intros W Hf s. assert (stored_count (quick_cycles e k pt n f) (Z.min (Z.of_nat n) 4)) as Hc.
  { clear s. induction n as [|n IH]; [by right|]. cbn [quick_cycles].
    destruct (power_on_count e k pt _ _ W IH) as (_ & Hc & _); [lia|].
    replace (Z.min (Z.of_nat (S n)) 4) with (Z.min (Z.min (Z.of_nat n) 4 + 1) 4) by lia. exact Hc. }
  destruct (power_on_count e k pt _ _ W Hc) as (H1 & _ & H3); [lia|]. fold s in H1, H3.
  split; [|split; [exact H3|]].
  - rewrite H1. destruct (Nat.leb_spec 4 n); destruct (Z.ltb_spec (Z.min (Z.of_nat n) 4) 4); done || lia.
  - exact (write_userdata_get GFI_MESH_RESET_CNT [0] (store s) W ltac:(done)).
Qed.

(** ** Sequence numbers are fresh *)

(** The stored sequence number [v] and its magic byte. *)
Definition seq_item (v : Z) : list Z := le32 (Z.lor (Z.land v 16777215) (Z.shiftl GENIE_SEQ_MAGIC_NUMBER 24)).
Definition seq_kv s : option (list Z) := kv_item_get GENIE_KV_SEQ_KEY (flash (store s)).

Lemma land_24 v : Z.land v 16777215 = v mod 16777216.
Proof. change 16777215 with (Z.ones 24). rewrite Z.land_ones by lia. done. Qed.

Lemma seq_item_value v : Z.lor (Z.land v 16777215) (Z.shiftl GENIE_SEQ_MAGIC_NUMBER 24) = v mod 16777216 + 2818572288.
Proof. rewrite land_24, lor_shiftl; [unfold GENIE_SEQ_MAGIC_NUMBER; lia | apply Z.mod_pos_bound; lia | lia]. Qed.

Lemma of_le32_seq_item v : of_le32 (seq_item v) = v mod 16777216 + 2818572288.
Proof.
  unfold seq_item. rewrite seq_item_value. rewrite <- (app_nil_r (le32 _)). apply of_le32_app. pose proof (Z.mod_pos_bound v 16777216). lia.
Qed.

Lemma write_seq_kv sq force (st : storage F) : fst (genie_storage_write_seq sq force st) = GENIE_STORAGE_SUCCESS →
  force = true \/ sq <= 3 \/ sq mod 100 = 0 → kv_item_get GENIE_KV_SEQ_KEY (flash (snd (genie_storage_write_seq sq force st))) = Some (seq_item sq).
Proof.
  intros W Hc. revert W. unfold genie_storage_write_seq. replace (negb force && _ && _) with false; cycle 1.
  { symmetry. destruct force; [done|]. destruct Hc as [|[Hc|Hc]]; [done|..].
    - by rewrite (proj2 (Z.ltb_ge 3 sq)) by lia.
    - unfold GENIE_SEQ_SAVE_INTERVAL. rewrite Hc. by rewrite andb_false_r. }
  cbv zeta. pose proof (kv_set_get GENIE_KV_SEQ_KEY (seq_item sq) (flash st)) as G. fold (seq_item sq).
  destruct (aos_kv_set _ _ _) as [r f]. cbn [fst snd] in *. destruct (truthy r) eqn:T; [discriminate|]. intros _. apply G. unfold truthy in T. lia.
Qed.

Lemma write_seq_skip sq (st : storage F) : 3 < sq → sq mod 100 ≠ 0 → genie_storage_write_seq sq false st = (GENIE_STORAGE_SUCCESS, st).
Proof.
  intros Hs Hm. unfold genie_storage_write_seq, GENIE_SEQ_SAVE_INTERVAL.
  by rewrite (proj2 (Z.ltb_lt 3 sq) Hs), (proj2 (Z.eqb_neq _ _) Hm).
Qed.

(** Reading leaves the number it delivers in the store, if the store takes it. *)
Lemma read_seq_stored q p (st st' : storage F) ret sq : genie_storage_read_seq q p st = (ret, sq, st') →
  ret = 0 → (fst (genie_storage_write_seq sq true st) = GENIE_STORAGE_SUCCESS → kv_item_get GENIE_KV_SEQ_KEY (flash st') = Some (seq_item sq)) /\ 0 <= sq
  /\ (forall v, kv_item_get GENIE_KV_SEQ_KEY (flash st) = Some (seq_item v) → length q = 4%nat → sq = v mod 16777216 + 100).
Proof.
  intros E R. unfold genie_storage_read_seq in E. destruct (aos_kv_get GENIE_KV_SEQ_KEY q (flash st)) as [r b] eqn:G.
  destruct (negb _) eqn:M; [injection E as <- _ _; discriminate R|]. cbv zeta in E.
  set (x := u32 (Z.land (of_le32 b) 16777215 + GENIE_SEQ_SAVE_INTERVAL)) in E.
  destruct (genie_storage_write_seq x true st) as [r' st1] eqn:Ew. injection E as _ <- <-.
  pose proof (λ W, write_seq_kv x true st W (or_introl eq_refl)) as Wk. rewrite Ew in Wk.
  split; [rewrite Ew; exact Wk|]. split; [apply u32_range|]. intros v Hv Hq.
  unfold aos_kv_get in G. rewrite Hv, Hq in G. change (length (seq_item v)) with 4%nat in G. cbn [Nat.ltb Nat.leb] in G.
  injection G as _ Gb. rewrite memcpy_all in Gb by (by rewrite Hq). unfold x. rewrite <- Gb, of_le32_seq_item, land_24.
  unfold GENIE_SEQ_SAVE_INTERVAL. rewrite u32_small; dlia.
Qed.

(** *** What a restart restores *)

Lemma load_group_addr_frame s : let s' := genie_mesh_load_group_addr s in
  gt s' = gt s /\ net s' = net s /\ g_enc_key (store s') = g_enc_key (store s)
  /\ forall k, kv_item_get k (flash (store s')) = kv_item_get k (flash (store s)).
Proof.
  cbv zeta. unfold genie_mesh_load_group_addr. destruct (genie_storage_read_sub _ _) as [r subs].
  set (s1 := if negb _ then _ else _).
  assert (gt s1 = gt s /\ net s1 = net s /\ g_enc_key (store s1) = g_enc_key (store s)
    /\ forall k, kv_item_get k (flash (store s1)) = kv_item_get k (flash (store s))) as P.
  { unfold s1. destruct (negb _); [|done]. cbn [store on_store on_lc gt net]. unfold genie_storage_write_sub.
    match goal with |- context [hal_flash_write_group_addr ?b ?f] =>
      pose proof (fun k => group_addr_write_kv k b f) as G; destruct (hal_flash_write_group_addr b f) as [r' f'] end. done. }
  clearbody s1. destruct (genie_storage_read_userdata _ _ _) as [r' user]. by destruct (r' =? _).
Qed.

(** The network part of [genie_mesh_start]. *)
Definition start_net (p : genie_provision_t) s : svc F :=
  snd (bt_mesh_provision keys_ok (nk_key (p_netkey p)) (nk_net_index (p_netkey p)) (nk_flag (p_netkey p)) (nk_ivi (p_netkey p)) (p_seq p) (p_addr p) (p_devkey p) s).

(** The application keys are registered after it; nothing else changes. *)
Lemma mesh_start_parts p s : let s1 := start_net p s in let s' := genie_mesh_start keys_ok p s in
  provisioned (senv s') = provisioned (senv s1) /\ event_cb (senv s') = event_cb (senv s1) /\ net s' = net s1
  /\ (forall k, kv_item_get k (flash (store s')) = kv_item_get k (flash (store s1)))
  /\ let a := p_appkey p in In (Stack (AppkeyRegister (ak_net_index a) (ak_key_index a) (ak_key a) (ak_flag a))) (out (senv s')).
Proof.
  cbv zeta. unfold genie_mesh_start, start_net. cbv zeta.
  set (s1 := snd (bt_mesh_provision keys_ok _ _ _ _ _ _ _ s)).
  rewrite (surjective_pairing (bt_mesh_provision keys_ok _ _ _ _ _ _ _ s)). fold s1.
  set (s2 := say _ s1). pose proof (load_group_addr_frame s2) as (G2 & N2 & K2 & I2). set (s3 := genie_mesh_load_group_addr s2) in *.
  assert (In (Stack (AppkeyRegister (ak_net_index (p_appkey p)) (ak_key_index (p_appkey p)) (ak_key (p_appkey p)) (ak_flag (p_appkey p)))) (out (senv s2))) as In2
    by (apply in_or_app; right; by left).
  destruct (genie_storage_read_appkey 1 _ (store s3)) as [r ak1]. destruct (r =? _).
  - pose proof (load_group_addr_frame (say (Stack (AppkeyRegister (ak_net_index ak1) (ak_key_index ak1) (ak_key ak1) (ak_flag ak1))) s3)) as (G5 & N5 & K5 & I5).
    unfold senv in *. cbn [gt on_gt net store] in *. rewrite G5, N5. cbn. rewrite G2. split; [done|]. split; [done|]. split; [exact N2|].
    split; [intros k; rewrite I5; apply I2|]. apply in_or_app. by left.
  - unfold senv in *. rewrite G2, N2. auto.
Qed.

Lemma start_net_frame p s : valid (net s) = 0 →
  let k := nk_key (p_netkey p) in let s' := start_net p s in
  event_cb (senv s') = event_cb (senv s) /\ store s' = store s /\
  if keys_ok k then provisioned (senv s') = true /\
    net s' = set_addr (p_addr p) (set_seq (p_seq p) (set_dev_key (p_devkey p)
      (snd (bt_mesh_net_create keys_ok (nk_net_index (p_netkey p)) (nk_flag (p_netkey p)) k (nk_ivi (p_netkey p)) (uptime (senv s)) (net s)))))
  else provisioned (senv s') = provisioned (senv s).
Proof.
  intros V. cbv zeta. unfold start_net, bt_mesh_provision.
  assert (forall x : svc F, net (mesh_provision_complete x) = net x /\ senv (mesh_provision_complete x) = senv x /\ store (mesh_provision_complete x) = store x) as MC
    by (intros; unfold mesh_provision_complete; by repeat case_match).
  unfold bt_mesh_net_create. rewrite V. change (truthy 0) with false. cbv iota.
  destruct (keys_ok (nk_key (p_netkey p))); cbn [negb]; [|done]. change (truthy 0) with false. cbv iota. cbn [snd].
  match goal with |- context [mesh_provision_complete ?x] => destruct (MC x) as (-> & -> & ->) end. done.
Qed.

Lemma mesh_start_frame p s : valid (net s) = 0 → provisioned (senv (genie_mesh_start keys_ok p s)) = true → provisioned (senv s) = false →
  let s' := genie_mesh_start keys_ok p s in
  net_seq (net s') = p_seq p mod 16777216 /\ event_cb (senv s') = event_cb (senv s)
  /\ (forall k, kv_item_get k (flash (store s')) = kv_item_get k (flash (store s))).
Proof.
  intros V Pr Un. cbv zeta. destruct (mesh_start_parts p s) as (P & C & N & I & _). destruct (start_net_frame p s V) as (C1 & S1 & K1).
  rewrite P in Pr. destruct (keys_ok _); [|congruence]. destruct K1 as [_ N1].
  rewrite N, C, N1. split; [done|]. split; [done|]. intros k. by rewrite I, S1.
Qed.

Lemma saved_data_seq q (st st' : storage F) p : genie_provision_get_saved_data q st = (0, p, st') →
  genie_storage_read_seq q 0 st = (0, p_seq p, st').
Proof.
  unfold genie_provision_get_saved_data, GENIE_STORAGE_SUCCESS. cbv zeta. cbn [p_addr p_seq p_devkey p_netkey p_appkey provision_zero].
  assert (forall z, negb (z =? 0) = true → z ≠ 0) as N by (intros z; destruct (Z.eqb_spec z 0); done).
  destruct (genie_storage_read_addr 0 st) as [r1 a]. destruct (negb (r1 =? 0)) eqn:E1; [intros [= -> _ _]; by apply N in E1|].
  destruct (genie_storage_read_seq q 0 st) as [[r2 sq] st1]. destruct (negb (r2 =? 0)) eqn:E2; [intros [= -> _ _]; by apply N in E2|].
  destruct (genie_storage_read_devkey _ st1) as [r3 d]. destruct (negb (r3 =? 0)) eqn:E3; [intros [= -> _ _]; by apply N in E3|].
  destruct (genie_storage_read_netkey _ st1) as [r4 nk]. destruct (negb (r4 =? 0)) eqn:E4; [intros [= -> _ _]; by apply N in E4|].
  destruct (genie_storage_read_appkey 0 _ st1) as [r5 ak]. destruct (negb (r5 =? 0)) eqn:E5; [intros [= -> _ _]; by apply N in E5|].
  intros [= <- <-]. cbn [p_seq]. destruct (Z.eqb_spec r2 0); [by subst | done].
Qed.

Lemma power_on_frame e k pt (f : F) : let s := power_on e k pt f in
  senv s = e /\ net s = net_zero /\ (forall key, key ≠ cnt_key → kv_item_get key (flash (store s)) = kv_item_get key f)
  /\ g_enc_key (store s) = match k with Some key => _ginie_flash_get_enc_key key | None => repeat 0 16 end.
Proof.
  cbv zeta. unfold power_on, genie_reset_init, genie_reset_by_repeat_init. cbv zeta.
  set (st := snd (genie_storage_init k (mkStorage f (repeat 0 16) 0))).
  assert (flash st = f /\ g_enc_key st = match k with Some key => _ginie_flash_get_enc_key key | None => repeat 0 16 end)
    as [Ef Ek] by (unfold st; by destruct k).
  cbn [store on_lc]. destruct (genie_storage_read_userdata GFI_MESH_RESET_CNT [0] st) as [err b].
  match goal with |- context [if ?c <? ?d then _ else _] => destruct (c <? d) end;
    [|split; [done|]; split; [done|]; split; [|exact Ek]; intros key _; change (kv_item_get key (flash st) = kv_item_get key f); by rewrite Ef].
  split; [done|]. split; [done|].
  cbn [store on_lc on_store _genie_reset_write_count]. unfold genie_storage_write_userdata, _genie_storage_write, genie_kv_write.
  match goal with |- context [aos_kv_set ?a ?b' ?f'] => pose proof (fun key => kv_set_get_ne a key b' f') as G; destruct (aos_kv_set a b' f') as [r f2] end.
  split; [|exact Ek]. intros key Hk. cbn [flash with_flash snd] in *. rewrite <- Ef. by apply G.
Qed.

(** The store takes the number that a restart writes back, a hundred past the one it finds. *)
Definition rewrites_seq (q : list Z) (e : env) (k : option (list Z)) s : Prop :=
  let st := store (power_on e k (prov_timeout (lc s)) (flash (store s))) in
  fst (genie_storage_write_seq (snd (fst (genie_storage_read_seq q 0 st))) true st) = GENIE_STORAGE_SUCCESS.

(** A restart that finds its data starts past every number the store allows for. *)
Lemma reboot_seq q e k s s' : rewrites_seq q e k s → provisioned e = false → event_cb e = true → reboot keys_ok q e k s = Some s' →
  provisioned (senv s') = true → event_cb (senv s') = true /\
  exists v, seq_kv s' = Some (seq_item v) /\ net_seq (net s') = v mod 16777216 /\ 0 <= v
    /\ (forall u, seq_kv s = Some (seq_item u) → length q = 4%nat → v = u mod 16777216 + 100).
Proof.
  intros W Pe Ce R Ps. unfold reboot, genie_event in R.
  destruct (power_on_frame e k (prov_timeout (lc s)) (flash (store s))) as (B1 & B2 & B3 & _).
  set (b := power_on e k _ _) in *. assert (seq_kv b = seq_kv s) as Bk by (apply B3; discriminate).
  assert (event_cb (senv b) = true) as Cb by by rewrite B1.
  cbn [genie_event_fuel] in R. rewrite Cb in R. cbn [negb event_dispatch mbind option_bind] in R.
  unfold _genie_event_handle_mesh_init in R. destruct (genie_provision_get_saved_data q (store b)) as [[r p] st] eqn:Es.
  set (b1 := on_store (λ _, st) b) in R. change (senv b1) with (senv b) in R.
  destruct (Z.eqb_spec r 0) as [->|Hr].
  - cbn [fst snd negb andb] in R. set (m := genie_mesh_start keys_ok p b1) in R.
    rewrite bool_decide_true in R by done.
    assert (exists x, s' = x /\ net x = net m /\ store x = store m /\ provisioned (senv x) = provisioned (senv m) /\ event_cb (senv x) = event_cb (senv m))
      as (x & -> & N & S & P & C).
    { injection R as <-. eexists. split; [reflexivity|]. by destruct (event_cb (senv m)) eqn:Em. }
    rewrite P in Ps. apply saved_data_seq in Es.
    destruct (mesh_start_frame p b1) as (M1 & M2 & M3); [exact (f_equal valid B2) | exact Ps | by change (provisioned (senv b) = false); rewrite B1 |].
    fold m in M1, M2, M3. split; [rewrite C, M2; exact Cb|].
    destruct (read_seq_stored q 0 (store b) st 0 (p_seq p) Es eq_refl) as (Q1 & Q2 & Q3).
    unfold rewrites_seq in W. fold b in W. cbv zeta in W. rewrite Es in W. cbn [fst snd] in W.
    exists (p_seq p). split; [unfold seq_kv; rewrite S, M3; exact (Q1 W)|]. split; [by rewrite N|]. split; [done|].
    intros u Hu. apply Q3. change (seq_kv b = Some (seq_item u)). by rewrite Bk.
  - exfalso. cbn [fst snd negb andb] in R. change (senv (say (Stack (ProvEnable PROV_BEARERS)) b1)) with (emit (Stack (ProvEnable PROV_BEARERS)) (senv b)) in R.
    cbn [event_cb emit] in R. rewrite Cb in R. rewrite bool_decide_false in R by done. cbn [genie_at_output_event genie_event_fuel] in R.
    match type of R with context [senv ?y] => assert (event_cb (senv y) = true /\ provisioned (senv y) = false) as [Cy Py] by (change (event_cb (senv b) = true /\ provisioned (senv b) = false); by rewrite B1) end.
    rewrite Cy in R. cbn [negb event_dispatch mbind option_bind fst snd] in R.
    rewrite bool_decide_true in R by done. injection R as <-.
    change (provisioned (senv b) = true) in Ps || (revert Ps; case_match; intros Ps; change (provisioned (senv b) = true) in Ps).
    all: rewrite B1, Pe in Ps; discriminate.
Qed.

(** *** Runs of a provisioned node *)

(** The store takes the next number, if it is one of those that are stored. *)
Definition saves_seq s : Prop :=
  fst (genie_storage_write_seq ((net_seq (net s) + 1) mod 16777216) false (store s)) = GENIE_STORAGE_SUCCESS.

(** The node and the IV index and sequence number of every PDU it encrypted, oldest
    first: it sends, it restarts at any moment with whatever its stack held, and the
    rest of the service works without touching the sequence number or its item in the
    store.  The IV index is not updated, the 24 bits are not exhausted, and the stores
    of the number that this history makes succeed; others may fail. *)
Inductive nstep : svc F * list (Z * Z) → svc F * list (Z * Z) → Prop :=
| ns_send q s s' iv sq l : event_cb (senv s) = true → net_seq (net s) + 1 < 16777216 → saves_seq s →
    net_take_seq keys_ok q s = Some (iv, sq, s') → nstep (s, l) (s', l ++ [(iv, sq)])
| ns_restart q e k s s' l : length q = 4%nat → provisioned e = false → event_cb e = true → net_seq (net s) + 100 < 16777216 → rewrites_seq q e k s →
    reboot keys_ok q e k s = Some s' → provisioned (senv s') = true → nstep (s, l) (s', l)
| ns_other s s' l : net_seq (net s') = net_seq (net s) → seq_kv s' = seq_kv s → nstep (s, l) (s', l).

(** What the store knows of the next number. *)
Definition seq_inv (c : svc F * list (Z * Z)) : Prop :=
  let (s, l) := c in let n := net_seq (net s) in
  0 <= n < 16777216 /\ Forall (λ x, snd x < n) l /\ StronglySorted Z.lt (map snd l) /\
  ((l = [] /\ n = 0) \/ exists v, seq_kv s = Some (seq_item v) /\ 0 <= v <= n /\ v / 100 = n / 100).

Lemma take_seq_effect q s iv sq s' : event_cb (senv s) = true → net_take_seq keys_ok q s = Some (iv, sq, s') →
  iv = BT_MESH_NET_IVI_TX (net s) /\ sq = net_seq (net s) /\ net s' = set_seq (net_seq (net s) + 1) (net s) /\
  let n := (net_seq (net s) + 1) mod 16777216 in
  store s' = snd (genie_storage_write_seq n (n =? 0) (store s)).
Proof.
  intros C E. unfold net_take_seq, genie_event in E.
  set (s1 := on_net (set_seq (net_seq (net s) + 1)) s) in E.
  rewrite (event_fuel_S 2 q GENIE_EVT_SDK_SEQ_UPDATE NULL s1 GENIE_EVT_NONE false (snd (_genie_event_handle_seq_update s1)) C eq_refl C) in E.
  rewrite bool_decide_true in E by done. cbn [genie_at_output_event mbind option_bind] in E. injection E as <- <- <-. done.
Qed.

Lemma take_seq_ok q s : event_cb (senv s) = true → exists s', net_take_seq keys_ok q s = Some (BT_MESH_NET_IVI_TX (net s), net_seq (net s), s').
Proof.
  intros C. unfold net_take_seq, genie_event. set (s1 := on_net _ s).
  rewrite (event_fuel_S 2 q GENIE_EVT_SDK_SEQ_UPDATE NULL s1 GENIE_EVT_NONE false (snd (_genie_event_handle_seq_update s1)) C eq_refl C).
  rewrite bool_decide_true by done. cbn [genie_at_output_event mbind option_bind]. eauto.
Qed.

Lemma sorted_snoc l x : StronglySorted Z.lt l → Forall (λ y, y < x) l → StronglySorted Z.lt (l ++ [x]).
Proof.
  induction 1 as [|y l Hs IH Hy]; intros Hx; cbn; [repeat constructor|]. apply Forall_cons_1 in Hx as [? Hx].
  constructor; [by apply IH|]. apply Forall_app_2; [done | by repeat constructor].
Qed.

Lemma nstep_inv c c' : nstep c c' → seq_inv c → seq_inv c'.
Proof.
  intros S. destruct S as [q s s' iv sq l C B W E | q e k s s' l Hq Pe Ce B W E Ps | s s' l En Ek]; intros (Hn & Hl & Hs & Hv); cbn [seq_inv].
  - apply take_seq_effect in E as (_ & -> & -> & E); [|done]. cbv zeta in E. cbn [net_seq set_seq].
    unfold saves_seq in W. set (n := net_seq (net s)) in *. rewrite Z.mod_small in E, W |- * by lia.
    rewrite (proj2 (Z.eqb_neq (n + 1) 0)) in E by lia. split; [lia|]. split; [|split].
    + apply Forall_app_2; [eapply List.Forall_impl; [|exact Hl]; cbn; intros; lia | repeat constructor; cbn; lia].
    + rewrite map_app. apply sorted_snoc; [done|]. apply Forall_map. exact Hl.
    + right. unfold seq_kv. rewrite E. assert (n + 1 <= 3 \/ (n + 1) mod 100 = 0 \/ (3 < n + 1 /\ (n + 1) mod 100 ≠ 0)) as [D|[D|[D1 D2]]] by lia.
      * exists (n + 1). split; [apply write_seq_kv; auto | lia].
      * exists (n + 1). split; [apply write_seq_kv; auto | lia].
      * rewrite write_seq_skip by done. destruct Hv as [[_ Hz]|(v & Hv & Hr & Hd)]; [lia|].
        exists v. split; [exact Hv|]. split; [lia|]. dlia.
  - destruct (reboot_seq q e k s s' W Pe Ce E Ps) as (_ & v & Kv & Ev & Hv0 & Hu).
    destruct Hv as [[-> Hz]|(u & Ku & Hr & Hd)].
    + split; [rewrite Ev; apply Z.mod_pos_bound; lia|]. split; [constructor|]. split; [constructor|]. right.
      exists (v mod 16777216). rewrite Ev. split; [|split; [pose proof (Z.mod_pos_bound v 16777216); lia | done]].
      rewrite Kv. unfold seq_item. by rewrite !seq_item_value, Z.mod_mod by lia.
    + specialize (Hu u Ku Hq). rewrite Z.mod_small in Hu by lia. subst v. rewrite Z.mod_small in Ev by lia. rewrite Ev.
      split; [lia|]. split; [eapply List.Forall_impl; [|exact Hl]; cbn; intros; dlia|]. split; [done|].
      right. exists (u + 100). split; [exact Kv|]. lia.
  - rewrite En. unfold seq_kv in *. rewrite Ek. auto.
Qed.

(** [C1] No sequence number is used twice across power failures, while the store takes
    the number whenever it is due, the IV index is not updated and the 24 bits are not
    exhausted: from a freshly provisioned node on, the numbers of the PDUs it encrypts
    increase strictly, whatever the interleaving of sends and restarts, although only
    every hundredth number (and the first three) is stored.  So no pair of IV index and
    sequence number repeats. *)
Theorem seq_never_reused s0 s l : net_seq (net s0) = 0 → rtc nstep (s0, []) (s, l) →
  StronglySorted Z.lt (map snd l) /\ List.NoDup l.
Proof.
  intros Z0 R. assert (seq_inv (s0, [])) as I0 by (cbn; rewrite Z0; repeat split; [lia.. | constructor | constructor | auto]).
  assert (seq_inv (s, l)) as (_ & _ & Hs & _).
  { remember (s0, []) as c0. remember (s, l) as c1. clear Heqc0 Heqc1. induction R; eauto using nstep_inv. }
  split; [done|]. apply (NoDup_map_inv snd). clear -Hs.
  induction Hs as [|x l' Hs IH Hx]; constructor; [|done]. intros Hin. rewrite List.Forall_forall in Hx. specialize (Hx x Hin). lia.
Qed.

(** ** Provisioning survives a restart *)

(** Allocations succeed. *)
Definition heap_works : Prop := forall n (f : F), 0 <= n → hal_malloc n f ≠ None.

Lemma reliable_size_pos n : 0 < n <= 65520 → 0 <= _genie_storage_get_reliable_size n.
Proof. intros Hn. destruct (reliable_size n ltac:(lia)) as [_ Hm]. lia. Qed.

Lemma write_holds_ok i data n (st : storage F) : fst (genie_storage_write_reliable i (Some data) n st) = GENIE_STORAGE_SUCCESS → i ≠ GFI_MESH_TRITUPLE →
  length data = Z.to_nat n → 0 < n <= 65520 → all_u8 data →
  holds i data n (snd (genie_storage_write_reliable i (Some data) n st)).
Proof. intros W Hi Hd Hn Hb. apply (write_holds i data n st); [done..|]. by rewrite <- W, <- surjective_pairing. Qed.

(** What an index holds depends on its key and the encryption key only. *)
Lemma holds_frame i data n (st st' : storage F) : kv_item_get (key_name i) (flash st') = kv_item_get (key_name i) (flash st) →
  g_enc_key st' = g_enc_key st → holds i data n st → holds i data n st'.
Proof. unfold holds. by intros -> ->. Qed.

Lemma holds_write_other i j data n d m (st : storage F) : j ≠ GFI_MESH_TRITUPLE → is_u16 i → is_u16 j → i ≠ j →
  holds i data n st → holds i data n (snd (genie_storage_write_reliable j d m st)).
Proof.
  intros Hj Ui Uj Hne. apply holds_frame; [|apply write_reliable_key].
  apply write_reliable_other; [done|]. intros E. apply Hne. by apply key_name_inj.
Qed.

(** The stored images of the structures are read back. *)
Definition netkey_ok (k : mesh_netkey_para_t) : Prop :=
  is_u16 (nk_net_index k) /\ is_u8 (nk_flag k) /\ is_u32 (nk_ivi k) /\ length (nk_key k) = 16%nat /\ all_u8 (nk_key k).
Definition appkey_ok (k : mesh_appkey_para_t) : Prop :=
  is_u16 (ak_net_index k) /\ is_u16 (ak_key_index k) /\ is_u8 (ak_flag k) /\ length (ak_key k) = 16%nat /\ all_u8 (ak_key k).

Lemma netkey_image_ok k : netkey_ok k → netkey_of (netkey_image k) = k /\ length (netkey_image k) = 24%nat /\ all_u8 (netkey_image k).
Proof.
  intros (Hn & Hf & Hi & Hl & Hb). unfold netkey_image. split; [|split].
  - destruct k as [ni fl iv key]. cbn [nk_net_index nk_flag nk_ivi nk_key] in *. unfold netkey_of, le16. cbn [app nth].
    rewrite get_le16_le16 by done. change (drop 4 _) with (le32 iv ++ key). rewrite of_le32_app by done.
    change (drop 8 _) with key. rewrite take_ge by lia. done.
  - rewrite !length_app, Hl. reflexivity.
  - repeat apply Forall_app_2; [apply le16_u8 | | apply le32_bytes | done]. repeat (apply Forall_cons_2; [lia|]). constructor.
Qed.

Lemma appkey_image_ok k : appkey_ok k → appkey_of (appkey_image k) = k /\ length (appkey_image k) = 22%nat /\ all_u8 (appkey_image k).
Proof.
  intros (Hn & Hk & Hf & Hl & Hb). unfold appkey_image. split; [|split].
  - destruct k as [ni ki fl key]. cbn [ak_net_index ak_key_index ak_flag ak_key] in *. unfold appkey_of, le16. cbn [app nth].
    rewrite !get_le16_le16 by done. change (drop 5 _) with (key ++ [0]). rewrite <- Hl, take_app_length. done.
  - rewrite !length_app, Hl. reflexivity.
  - repeat apply Forall_app_2; [apply le16_u8 | apply le16_u8 | | done |]; repeat (apply Forall_cons_2; [lia|]); constructor.
Qed.

Lemma read_struct_ok {A} i n (image : A → list Z) parse (x p : A) (st : storage F) : heap_works → i ≠ GFI_MESH_TRITUPLE →
  parse (image x) = x → length (image x) = Z.to_nat n → length (image p) = Z.to_nat n → 0 < n <= 65520 → all_u8 (image x) →
  holds i (image x) n st → read_struct i n image parse p st = (GENIE_STORAGE_SUCCESS, x).
Proof.
  intros Hh Hi Hp Hx Hpl Hn Hb Ho. unfold read_struct. rewrite (holds_read i (image x) n st (image p)) by (done || apply Hh, reliable_size_pos, Hn).
  rewrite memcpy_all by congruence. by rewrite Hp.
Qed.

(** The store of a provisioned node. *)
Definition saved (a : Z) (dk : list Z) (nk : mesh_netkey_para_t) (ak : mesh_appkey_para_t) (st : storage F) : Prop :=
  holds GFI_MESH_SADDR (le16 a) 2 st /\ holds GFI_MESH_DEVKEY dk 16 st /\
  holds GFI_MESH_NETKEY (netkey_image nk) netkey_size st /\ holds GFI_MESH_APPKEY (appkey_image ak) appkey_size st.

Lemma saved_frame a dk nk ak (st st' : storage F) : saved a dk nk ak st → g_enc_key st' = g_enc_key st →
  (forall i, i ≠ GFI_MESH_RESET_CNT → is_u16 i → kv_item_get (key_name i) (flash st') = kv_item_get (key_name i) (flash st)) → saved a dk nk ak st'.
Proof.
  intros (H1 & H2 & H3 & H4) K E. repeat split; (eapply holds_frame; [apply E; [discriminate | by unfold GFI_MESH_SADDR, GFI_MESH_DEVKEY, GFI_MESH_NETKEY, GFI_MESH_APPKEY] | exact K | done]).
Qed.

Lemma write_seq_frame sq force (st : storage F) : let st' := snd (genie_storage_write_seq sq force st) in
  g_enc_key st' = g_enc_key st /\ forall key, key ≠ GENIE_KV_SEQ_KEY → kv_item_get key (flash st') = kv_item_get key (flash st).
Proof.
  cbv zeta. unfold genie_storage_write_seq. destruct (negb force && _ && _); [done|]. cbv zeta.
  match goal with |- context [aos_kv_set ?a ?b' ?f'] => pose proof (fun key => kv_set_get_ne a key b' f') as G; destruct (aos_kv_set a b' f') as [r' f2] end.
  split; [done|]. intros key Hk. by apply G.
Qed.

Lemma read_seq_frame q p (st st' : storage F) r sq : genie_storage_read_seq q p st = (r, sq, st') →
  g_enc_key st' = g_enc_key st /\ forall i, kv_item_get (key_name i) (flash st') = kv_item_get (key_name i) (flash st).
Proof.
  unfold genie_storage_read_seq. destruct (aos_kv_get _ _ _) as [ret b]. destruct (negb _); [by intros [= _ _ <-]|]. cbv zeta.
  match goal with |- context [genie_storage_write_seq ?x true st] =>
    destruct (write_seq_frame x true st) as [Fk Fi]; destruct (genie_storage_write_seq x true st) as [r' st1] end.
  intros [= _ _ <-]. split; [done|]. intros i. apply Fi, key_name_not_seq.
Qed.

Lemma saved_data_ok q a dk nk ak v (st : storage F) : heap_works → length q = 4%nat → is_u16 a →
  length dk = 16%nat → all_u8 dk → netkey_ok nk → appkey_ok ak → saved a dk nk ak st →
  kv_item_get GENIE_KV_SEQ_KEY (flash st) = Some (seq_item v) → 0 <= v < 16777216 →
  exists st', genie_provision_get_saved_data q st = (0, mkProvision a (v + 100) dk nk ak, st').
Proof.
  intros Hh Hq Ha Hd Hdb Hn Hak Hs Hv Hr. pose proof Hs as (S1 & _).
  destruct (netkey_image_ok nk Hn) as (N1 & N2 & N3). destruct (appkey_image_ok ak Hak) as (A1 & A2 & A3).
  unfold genie_provision_get_saved_data. cbv zeta. cbn [p_addr p_seq p_devkey p_netkey p_appkey provision_zero].
  unfold genie_storage_read_addr. rewrite (read_struct_ok GFI_MESH_SADDR 2 le16 _ a 0 st) by (done || (cbn [le16 nth]; by apply get_le16_le16) || (lia) || apply le16_u8).
  change (negb (GENIE_STORAGE_SUCCESS =? GENIE_STORAGE_SUCCESS)) with false. cbv iota.
  destruct (genie_storage_read_seq q 0 st) as [[r sq] st1] eqn:Er.
  destruct (read_seq_frame _ _ _ _ _ _ Er) as [K1 I1].
  assert (r = 0 /\ sq = v + 100) as [-> ->].
  { assert (r = 0) as ->.
    { unfold genie_storage_read_seq, aos_kv_get in Er. rewrite Hv, Hq in Er. change (length (seq_item v)) with 4%nat in Er.
      cbn [Nat.ltb Nat.leb] in Er. rewrite memcpy_all in Er by (by rewrite Hq). rewrite of_le32_seq_item, Z.mod_small in Er by done.
      rewrite Z.shiftr_div_pow2 in Er by lia. change (2 ^ 24) with 16777216 in Er.
      replace ((v + 2818572288) / 16777216) with 168 in Er by dlia. change (negb (168 =? GENIE_SEQ_MAGIC_NUMBER)) with false in Er. cbv iota zeta in Er.
      destruct (genie_storage_write_seq _ true st). by injection Er as <- _ _. }
    destruct (read_seq_stored q 0 st st1 0 sq Er eq_refl) as (_ & _ & Hu). specialize (Hu v Hv Hq). rewrite Z.mod_small in Hu by done. done. }
  assert (saved a dk nk ak st1) as (_ & T2 & T3 & T4) by (apply (saved_frame a dk nk ak st); [done | done | intros; apply I1]).
  change (negb (0 =? GENIE_STORAGE_SUCCESS)) with false. cbv iota. cbn [p_addr p_seq p_devkey p_netkey p_appkey].
  unfold genie_storage_read_devkey. rewrite (read_struct_ok GFI_MESH_DEVKEY 16 (λ k, k) (λ k, k) dk _ st1) by (done || lia).
  change (negb (GENIE_STORAGE_SUCCESS =? GENIE_STORAGE_SUCCESS)) with false. cbv iota.
  unfold genie_storage_read_netkey. rewrite (read_struct_ok GFI_MESH_NETKEY netkey_size netkey_image netkey_of nk _ st1) by (done || (unfold netkey_size; lia)).
  change (negb (GENIE_STORAGE_SUCCESS =? GENIE_STORAGE_SUCCESS)) with false. cbv iota.
  unfold genie_storage_read_appkey. change (0 =? 0) with true. cbv iota. cbn [p_appkey p_addr p_seq p_devkey p_netkey].
  rewrite (read_struct_ok GFI_MESH_APPKEY appkey_size appkey_image appkey_of ak _ st1) by (done || (unfold appkey_size; lia)).
  change (negb (GENIE_STORAGE_SUCCESS =? GENIE_STORAGE_SUCCESS)) with false. cbv iota. by exists st1.
Qed.

(** The store takes the address, the keys and the first sequence number of a node. *)
Definition saves_all (a : Z) (n : bt_mesh_net) (st : storage F) : Prop :=
  let st1 := snd (genie_storage_write_addr a st) in
  let st2 := snd (genie_storage_write_devkey (dev_key n) st1) in
  let st3 := snd (genie_storage_write_netkey (mkNetkey 0 0 0 (net_key0 n)) st2) in
  let st4 := snd (genie_storage_write_appkey 0 (mkAppkey 0 0 0 (app_key0 n)) st3) in
  fst (genie_storage_write_addr a st) = GENIE_STORAGE_SUCCESS /\ fst (genie_storage_write_devkey (dev_key n) st1) = GENIE_STORAGE_SUCCESS /\
  fst (genie_storage_write_netkey (mkNetkey 0 0 0 (net_key0 n)) st2) = GENIE_STORAGE_SUCCESS /\
  fst (genie_storage_write_appkey 0 (mkAppkey 0 0 0 (app_key0 n)) st3) = GENIE_STORAGE_SUCCESS /\ fst (genie_storage_write_seq 1 false st4) = GENIE_STORAGE_SUCCESS.

(** The store after an address and the keys were saved. *)
Lemma save_all_saved a n (st : storage F) : saves_all a n st → is_u16 a →
  Forall (λ k, length k = 16%nat /\ all_u8 k) [dev_key n; net_key0 n; app_key0 n] →
  let st1 := snd (genie_storage_write_addr a st) in
  let st2 := snd (genie_storage_write_devkey (dev_key n) st1) in
  let st3 := snd (genie_storage_write_netkey (mkNetkey 0 0 0 (net_key0 n)) st2) in
  let st4 := snd (genie_storage_write_appkey 0 (mkAppkey 0 0 0 (app_key0 n)) st3) in
  saved a (dev_key n) (mkNetkey 0 0 0 (net_key0 n)) (mkAppkey 0 0 0 (app_key0 n)) st4
  /\ g_enc_key st4 = g_enc_key st /\ kv_item_get GENIE_KV_SEQ_KEY (flash st4) = kv_item_get GENIE_KV_SEQ_KEY (flash st).
Proof.
  intros (W1 & W2 & W3 & W4 & _) Ha Hk st1 st2 st3 st4.
  apply Forall_cons_1 in Hk as [[Ld Bd] Hk]. apply Forall_cons_1 in Hk as [[Ln Bn] Hk]. apply Forall_cons_1 in Hk as [[La Ba] _].
  destruct (netkey_image_ok (mkNetkey 0 0 0 (net_key0 n))) as (_ & N2 & N3); [repeat split; (done || lia)|].
  destruct (appkey_image_ok (mkAppkey 0 0 0 (app_key0 n))) as (_ & A2 & A3); [repeat split; (done || lia)|].
  unfold st4, st3, st2, st1, genie_storage_write_addr, genie_storage_write_devkey, genie_storage_write_netkey, genie_storage_write_appkey in *.
  change (0 =? 0) with true in *. cbv iota in *. split; [|split].
  - repeat split; repeat (apply holds_write_other; [discriminate | by unfold GFI_MESH_SADDR, GFI_MESH_DEVKEY, GFI_MESH_NETKEY | done | discriminate |]);
      apply write_holds_ok; (done || apply le16_u8 || lia || (unfold netkey_size, appkey_size; lia)).
  - by rewrite !write_reliable_key.
  - by rewrite !write_reliable_other by (discriminate || apply not_eq_sym, key_name_not_seq).
Qed.

(** A restart of a provisioned node restores what was saved. *)
Lemma reboot_restores q e k s a dk nk ak v : heap_works → length q = 4%nat → is_u16 a →
  length dk = 16%nat → all_u8 dk → netkey_ok nk → appkey_ok ak → saved a dk nk ak (store s) →
  g_enc_key (store s) = match k with Some key => _ginie_flash_get_enc_key key | None => repeat 0 16 end →
  seq_kv s = Some (seq_item v) → 0 <= v < 16777116 → keys_ok (nk_key nk) = true → nk_flag nk = 0 →
  provisioned e = false → event_cb e = true →
  exists s', reboot keys_ok q e k s = Some s' /\ provisioned (senv s') = true /\ dev_primary_addr (net s') = a
    /\ dev_key (net s') = dk /\ net_key0 (net s') = nk_key nk
    /\ In (Stack (AppkeyRegister (ak_net_index ak) (ak_key_index ak) (ak_key ak) (ak_flag ak))) (out (senv s'))
    /\ net_seq (net s') = v + 100 /\ iv_index (net s') = nk_ivi nk /\ sub_net_idx (net s') = nk_net_index nk
    /\ iv_update (net s') = 0 /\ event_cb (senv s') = true.
Proof.
  intros Hh Hq Ha Hd Hdb Hn Hak Hs Hkey Hv Hr Hok Hfl Pe Ce. unfold reboot, genie_event.
  destruct (power_on_frame e k (prov_timeout (lc s)) (flash (store s))) as (B1 & B2 & B3 & B4).
  set (b := power_on e k _ _) in *. assert (event_cb (senv b) = true) as Cb by by rewrite B1.
  assert (saved a dk nk ak (store b)) as Sb.
  { apply (saved_frame a dk nk ak (store s)); [done | congruence|]. intros i Hi Ui. apply B3.
    intros E. apply Hi. by apply key_name_inj. }
  assert (seq_kv b = Some (seq_item v)) as Vb by (rewrite <- Hv; apply B3; discriminate).
  destruct (saved_data_ok q a dk nk ak v (store b) Hh Hq Ha Hd Hdb Hn Hak Sb Vb ltac:(lia)) as [st' Es].
  set (p := mkProvision a (v + 100) dk nk ak) in *. set (b1 := on_store (λ _, st') b).
  assert (event_dispatch keys_ok q GENIE_EVT_BT_READY NULL b = Some (GENIE_EVT_NONE, false, genie_mesh_start keys_ok p b1)) as D.
  { cbn [event_dispatch]. unfold _genie_event_handle_mesh_init. by rewrite Es. }
  destruct (mesh_start_parts p b1) as (P & C & N & _ & I). destruct (start_net_frame p b1) as (C1 & _ & K1); [exact (f_equal valid B2)|].
  change (nk_key (p_netkey p)) with (nk_key nk) in K1. rewrite Hok in K1. destruct K1 as [P1 N1].
  rewrite (event_fuel_S 2 q GENIE_EVT_BT_READY NULL b _ _ _ Cb D) by (rewrite C, C1; exact Cb).
  rewrite bool_decide_true by done. cbn [genie_at_output_event]. eexists. split; [reflexivity|].
  set (m := genie_mesh_start keys_ok p b1) in *.
  assert (net (say (UserEvent GENIE_EVT_BT_READY) m) = net (start_net p b1)) as -> by exact N.
  rewrite N1. unfold bt_mesh_net_create. change (net b1) with (net b). rewrite B2, Hok. cbn [p_netkey p]. rewrite Hfl.
  cbn [dev_primary_addr set_addr dev_key set_seq set_dev_key net_key0 net_seq iv_index sub_net_idx p_addr p_devkey p_seq p snd].
  split; [by rewrite <- P in P1|]. split; [done|]. split; [done|]. split; [done|].
  split; [apply in_or_app; by left|]. split; [apply Z.mod_small; lia|].
  split; [done|]. split; [done|]. split; [done|]. change (event_cb (senv m) = true). rewrite C, C1. exact Cb.
Qed.

(** The provisioning data, the first application key and the first PDU save a node. *)
Lemma provisioning_saves a q s : saves_all a (net s) (store s) → is_u16 a →
  provision_state (lc s) = GENIE_PROVISION_START → event_cb (senv s) = true → net_seq (net s) = 0 →
  Forall (λ k, length k = 16%nat /\ all_u8 k) [dev_key (net s); net_key0 (net s); app_key0 (net s)] →
  exists s', (s1 ← event q GENIE_EVT_SDK_MESH_PROV_DATA (PtrInt a) s;
              s2 ← event q GENIE_EVT_SDK_APPKEY_ADD (PtrInt 0) s1;
              net_take_seq keys_ok q s2) = Some (BT_MESH_NET_IVI_TX (net s), 0, s')
    /\ saved a (dev_key (net s)) (mkNetkey 0 0 0 (net_key0 (net s))) (mkAppkey 0 0 0 (app_key0 (net s))) (store s')
    /\ g_enc_key (store s') = g_enc_key (store s) /\ seq_kv s' = Some (seq_item 1).
Proof.
  intros W Ha Hst C Hz Hk.
  destruct (save_all_saved a (net s) (store s) W Ha Hk) as (Sv & Ke & _).
  set (st4 := snd (genie_storage_write_appkey _ _ _)) in *. unfold genie_event.
  rewrite (event_fuel_S 2 q GENIE_EVT_SDK_MESH_PROV_DATA (PtrInt a) s GENIE_EVT_NONE false (snd (_genie_event_handle_prov_data a s)) C eq_refl C).
  rewrite bool_decide_true by done. cbn [genie_at_output_event mbind option_bind]. set (s1 := say _ _).
  assert (event_dispatch keys_ok q GENIE_EVT_SDK_APPKEY_ADD (PtrInt 0) s1 = Some (GENIE_EVT_SDK_MESH_PROV_SUCCESS, false, snd (_genie_event_handle_appkey_add 0 s1))) as D.
  { cbn [event_dispatch]. unfold _genie_event_handle_appkey_add. change (provision_state (lc s1)) with (provision_state (lc s)). rewrite Hst. done. }
  assert (exists l g, snd (_genie_event_handle_appkey_add 0 s1) = mkSvc g st4 (net s) l /\ event_cb (tenv (uplink g)) = true) as (l & g & E2 & C2).
  { unfold _genie_event_handle_appkey_add. change (provision_state (lc s1)) with (provision_state (lc s)). rewrite Hst.
    eexists _, _. split; [reflexivity | exact C]. }
  rewrite (event_fuel_S 2 q GENIE_EVT_SDK_APPKEY_ADD (PtrInt 0) s1 _ _ _ C D) by (rewrite E2; exact C2).
  rewrite E2, bool_decide_false by done. cbn [genie_at_output_event].
  set (s2 := say _ _). rewrite (event_fuel_S 1 q GENIE_EVT_SDK_MESH_PROV_SUCCESS (PtrInt 0) s2 GENIE_EVT_NONE false (snd (_genie_event_handle_prov_success s2)) C2 eq_refl C2).
  rewrite bool_decide_true by done. cbn [genie_at_output_event mbind option_bind]. set (s3 := say (AtEvent 0) _).
  destruct (take_seq_ok q s3 C2) as [s4 E4]. change (net s3) with (net s) in E4. rewrite Hz in E4. exists s4. split; [exact E4|]. apply take_seq_effect in E4 as (_ & _ & _ & E4); [|exact C2].
  change (net s3) with (net s) in E4. rewrite Hz in E4. cbv zeta in E4. change ((0 + 1) mod 16777216) with 1 in E4. change (1 =? 0) with false in E4.
  change (store s3) with st4 in E4. unfold seq_kv. rewrite E4.
  destruct (write_seq_frame 1 false st4) as [Fk Fi]. split; [|split; [by rewrite Fk | apply write_seq_kv; [apply W | auto with lia]]].
  apply (saved_frame _ _ _ _ st4); [exact Sv | exact Fk | intros; apply Fi, key_name_not_seq].
Qed.

(** A freshly provisioned node: the attempt is in progress, the stack holds the keys,
    nothing was sent; [e] and [k] are the platform and the build's key after the
    power cycle, [q] is the uninitialised variable of the sequence number read. *)
Section Restart.
Variables (a : Z) (q : list Z) (e : env) (k : option (list Z)) (s : svc F).
Hypothesis stores_work : saves_all a (net s) (store s).
Hypothesis heap : heap_works.
Hypothesis a_ok : is_u16 a.
Hypothesis q_ok : length q = 4%nat.
Hypothesis in_progress : provision_state (lc s) = GENIE_PROVISION_START /\ event_cb (senv s) = true /\ net_seq (net s) = 0.
Hypothesis stack_keys : Forall (λ k, length k = 16%nat /\ all_u8 k) [dev_key (net s); net_key0 (net s); app_key0 (net s)].
Hypothesis derives : keys_ok (net_key0 (net s)) = true.
Hypothesis same_build : g_enc_key (store s) = match k with Some key => _ginie_flash_get_enc_key key | None => repeat 0 16 end.
Hypothesis platform : provisioned e = false /\ event_cb e = true.

(** The provisioning data and the first application key arrive, the first PDU is sent. *)
Definition provision_and_send : option (Z * Z * svc F) :=
  s1 ← event q GENIE_EVT_SDK_MESH_PROV_DATA (PtrInt a) s;
  s2 ← event q GENIE_EVT_SDK_APPKEY_ADD (PtrInt 0) s1;
  net_take_seq keys_ok q s2.

Lemma send_and_restart : exists s3 s', provision_and_send = Some (BT_MESH_NET_IVI_TX (net s), 0, s3) /\ reboot keys_ok q e k s3 = Some s'
  /\ provisioned (senv s') = true /\ dev_primary_addr (net s') = a /\ dev_key (net s') = dev_key (net s)
  /\ net_key0 (net s') = net_key0 (net s) /\ In (Stack (AppkeyRegister 0 0 (app_key0 (net s)) 0)) (out (senv s'))
  /\ net_seq (net s') = 101 /\ iv_index (net s') = 0 /\ sub_net_idx (net s') = 0
  /\ iv_update (net s') = 0 /\ event_cb (senv s') = true.
Proof.
  destruct in_progress as (Hst & C & Hz), platform as [Pe Ce].
  destruct (provisioning_saves a q s stores_work a_ok Hst C Hz stack_keys) as (s4 & E4 & Sv & Ke & Sq).
  pose proof stack_keys as Hk. apply Forall_cons_1 in Hk as [[Ld Bd] Hk]. apply Forall_cons_1 in Hk as [[Ln Bn] Hk]. apply Forall_cons_1 in Hk as [[La Ba] _].
  destruct (reboot_restores q e k s4 a _ (mkNetkey 0 0 0 (net_key0 (net s))) (mkAppkey 0 0 0 (app_key0 (net s))) 1 heap q_ok a_ok Ld Bd
    ltac:(repeat split; (done || lia)) ltac:(repeat split; (done || lia)) Sv ltac:(congruence) Sq ltac:(lia) derives eq_refl Pe Ce) as (s' & R & Rest).
  exists s4, s'. split; [exact E4|]. split; [exact R | exact Rest].
Qed.

(** [C2] Provisioning survives a restart, if the store took what the provisioning saved
    (the stores of the restart itself may fail) and memory can be allocated: after the
    provisioning data and the first application key arrived and a first PDU was sent, a
    power cycle brings the node
    back with the address, the device key, the network key and the application key
    it was given, and with a sequence number a hundred past the stored one.  The IV
    index is not among what survives: it comes back as 0, and so does the network
    key index. *)
Theorem provision_survives_restart : exists s', ('(_, _, s3) ← provision_and_send; reboot keys_ok q e k s3) = Some s'
  /\ provisioned (senv s') = true /\ dev_primary_addr (net s') = a /\ dev_key (net s') = dev_key (net s)
  /\ net_key0 (net s') = net_key0 (net s) /\ In (Stack (AppkeyRegister 0 0 (app_key0 (net s)) 0)) (out (senv s'))
  /\ net_seq (net s') = 101 /\ iv_index (net s') = 0 /\ sub_net_idx (net s') = 0.
Proof.
  destruct send_and_restart as (s3 & s' & E & R & Rest). exists s'. rewrite E. cbn [mbind option_bind]. split; [exact R|]. tauto.
Qed.

(** The IV recovery after a restart repeats a nonce: a node is provisioned into a
    network with IV index [n], between 1 and 42, sends its first PDU, and is power
    cycled.  As the IV index was never stored, it restarts with index 0, although
    with the sequence number 101; the next secure network beacon of its network then
    runs the IV recovery procedure, which sets the sequence number back to 0, and the
    next PDU is encrypted with the pair of IV index and sequence number of the first. *)
Theorem iv_recovery_reuses_nonce n now tx_busy : iv_index (net s) = n → iv_update (net s) = 0 → 1 <= n <= 42 →
  exists s3 s' n' s'', provision_and_send = Some (n, 0, s3) /\ reboot keys_ok q e k s3 = Some s'
    /\ bt_mesh_net_iv_update n false now tx_busy (net s') = (true, n')
    /\ net_take_seq keys_ok q (on_net (λ _, n') s') = Some (n, 0, s'').
Proof.
  intros Hi Hu Hn. destruct send_and_restart as (s3 & s' & E & R & _ & _ & _ & _ & _ & _ & Iv & _ & Up & C).
  unfold BT_MESH_NET_IVI_TX in E. rewrite Hi, Hu, Z.sub_0_r, u32_small in E by lia.
  set (n' := iv_do_update n false now (set_iv n 0 (iv_update (net s')) (pending_update (net s')) (last_update (net s')) (net s'))).
  destruct (take_seq_ok q (on_net (λ _, n') s') C) as [s'' T]. exists s3, s', n', s''. split; [exact E|]. split; [exact R|]. split.
  - unfold bt_mesh_net_iv_update. rewrite Iv, Up. change (truthy 0) with false. cbv iota zeta. change (u32 (0 + 42)) with 42. change (u32 (0 + 1)) with 1.
    rewrite (proj2 (Z.eqb_neq n 0)), (proj2 (Z.ltb_ge n 0)) by lia. rewrite !Z.gtb_ltb, (proj2 (Z.ltb_ge 42 n)) by lia. cbn [orb negb andb].
    replace ((1 <? n) || (n =? 1) && true) with true; [reflexivity|]. destruct (Z.ltb_spec 1 n); [done|]. by rewrite (proj2 (Z.eqb_eq n 1)) by lia.
  - rewrite T. unfold BT_MESH_NET_IVI_TX. cbn. by rewrite Z.sub_0_r, u32_small by lia.
Qed.

End Restart.

End Props.

(** ** Witnesses *)

(** A flash in memory whose writes and allocations always succeed. *)
Record wflash := mkWflash { w_kv : gmap string (list Z); w_triples : list Z; w_group : list Z }.

#[export] Instance wflash_flash : Flash wflash := {
  kv_item_get k f := w_kv f !! k;
  aos_kv_set k v f := (0, mkWflash (<[k:=v]> (w_kv f)) (w_triples f) (w_group f));
  aos_kv_del k f := match w_kv f !! k with
    | None => (RES_ITEM_NOT_FOUND, f)
    | Some _ => (RES_OK, mkWflash (delete k (w_kv f)) (w_triples f) (w_group f)) end;
  aos_kv_del_all f := (RES_OK, mkWflash ∅ (w_triples f) (w_group f));
  hal_flash_read_triples n f := (0, area_read n (w_triples f));
  hal_flash_write_triples bs f := (0, mkWflash (w_kv f) bs (w_group f));
  hal_flash_read_group_addr n f := (0, area_read n (w_group f));
  hal_flash_write_group_addr bs f := (0, mkWflash (w_kv f) (w_triples f) bs);
  hal_malloc n f := if 0 <=? n then Some (repeat 165 (Z.to_nat n)) else None;
  save_switches_param f := f }.

#[export] Instance wflash_laws : FlashLaws wflash.
Proof.
  split; cbn [kv_item_get aos_kv_set aos_kv_del_all hal_flash_read_triples hal_flash_write_triples
    hal_flash_read_group_addr hal_flash_write_group_addr hal_malloc wflash_flash fst snd w_kv w_triples w_group]; intros; try done.
  - apply lookup_insert_eq.
  - by apply lookup_insert_ne.
  - by rewrite area_read_all.
  - by rewrite area_read_all.
  - destruct (Z.leb_spec 0 n); [|done]. simplify_eq. rewrite repeat_length. lia.
Qed.

Lemma wflash_works : kv_works (F := wflash) /\ heap_works (F := wflash).
Proof. split; [done|]. intros n f Hn. cbn [hal_malloc wflash_flash]. by rewrite (proj2 (Z.leb_le 0 n) Hn). Defined.

(** An erased device, its platform, and the ready event of its first boot. *)
Definition fresh : wflash := mkWflash ∅ [] [].
Definition env1 : env := mkEnv 1000 false true true (λ _, true) 2 0 5 (λ _, 0) [].
Definition any_key (_ : list Z) : bool := true.
Definition unset4 : list Z := [0; 0; 0; 0].
Definition boot1 : svc wflash := power_on env1 (Some sample_key) 600000 fresh.

(** Provisioning in progress: the link is open; then the data arrived, IV index 5. *)
Definition started1 : svc wflash :=
  default boot1 (genie_event any_key unset4 GENIE_EVT_SDK_MESH_PROV_START NULL boot1).
Definition joined1 : svc wflash :=
  on_net (λ n, mkNet 5 0 0 0 1 1000 0 sample_key sample_key (net_key1 n) sample_key (app_key1 n) 0 32)
    (on_gt (on_env (with_provisioned true)) started1).

Lemma event_chain_terminates_witness : exists s',
  genie_event any_key unset4 GENIE_EVT_SDK_MESH_PROV_TIMEOUT NULL joined1 = Some s' /\
  forall k, genie_event_fuel any_key (3 + k) unset4 GENIE_EVT_SDK_MESH_PROV_TIMEOUT NULL joined1 = Some s'.
Proof. apply (event_chain_terminates any_key unset4 GENIE_EVT_SDK_MESH_PROV_TIMEOUT NULL joined1). discriminate. Defined.

Lemma provisioning_is_timed_witness : prov_timeout_timer (lc started1) ≠ None /\
  exists s', _genie_prov_timer_cb any_key unset4 (on_lc (set_prov None) started1) = Some s'
    /\ provision_state (lc s') = GENIE_PROVISION_UNPROV.
Proof.
  destruct (provisioning_is_timed any_key env1 (Some sample_key) 600000 fresh started1 unset4) as (T & s' & E & P & _).
  - apply rtc_once. apply (ls_event any_key unset4 GENIE_EVT_SDK_MESH_PROV_START NULL); reflexivity.
  - reflexivity.
  - reflexivity.
  - split; [exact T|]. exists s'. split; [exact E | exact P].
Defined.

Lemma repeat_reset_fifth_witness :
  let s := power_on env1 (Some sample_key) 600000 (quick_cycles env1 (Some sample_key) 600000 4 fresh) in
  hw_reset_flag (lc s) = 1 /\ repeat_reset_timer (lc s) = Some GENIE_RESET_BY_REPEAT_TIMEOUT
  /\ kv_item_get cnt_key (flash (store (repeat_reset_timer_cb s))) = Some [0].
Proof. apply (repeat_reset_fifth env1 (Some sample_key) 600000 fresh 4); [exact (proj1 wflash_works) | reflexivity]. Defined.

(** ** Witnesses over the store of kvmgr.c

    The same node on the bytes of an erased partition. *)
From S2P Require Import KvStore KvLog KvProps KvFlash.

Definition dev0 : device := mkDevice kv0 (ex_intro _ ∅ kv0_represents) [] [].
Definition dev_boot : svc device := power_on env1 (Some sample_key) 600000 dev0.
Definition dev_started : svc device := default dev_boot (genie_event any_key unset4 GENIE_EVT_SDK_MESH_PROV_START NULL dev_boot).
Definition dev_joined : svc device :=
  on_net (λ n, mkNet 5 0 0 0 1 1000 0 sample_key sample_key (net_key1 n) sample_key (app_key1 n) 0 32)
    (on_gt (on_env (with_provisioned true)) dev_started).
Lemma dev_heap : heap_works (F := device).
Proof. intros n f Hn. cbn [hal_malloc device_flash]. by rewrite (proj2 (Z.leb_le 0 n) Hn). Qed.
Definition dev_after (r : option (Z * Z * svc device)) : svc device := match r with Some (_, _, s) => s | None => dev_boot end.
(** Two PDUs of the freshly provisioned node, a power failure, and a third PDU. *)
Definition dev_p : svc device :=
  default dev_boot (s1 ← genie_event any_key unset4 GENIE_EVT_SDK_MESH_PROV_DATA (PtrInt 32) dev_joined; genie_event any_key unset4 GENIE_EVT_SDK_APPKEY_ADD (PtrInt 0) s1).
Definition dev_s1 : svc device := dev_after (net_take_seq any_key unset4 dev_p).
Definition dev_s2 : svc device := dev_after (net_take_seq any_key unset4 dev_s1).
Definition dev_s3 : svc device := default dev_boot (reboot any_key unset4 env1 (Some sample_key) dev_s2).
Definition dev_s4 : svc device := dev_after (net_take_seq any_key unset4 dev_s3).
Lemma dev_take s iv sq : option_map fst (net_take_seq any_key unset4 s) = Some (iv, sq) → net_take_seq any_key unset4 s = Some (iv, sq, dev_after (net_take_seq any_key unset4 s)).
Proof. destruct (net_take_seq any_key unset4 s) as [[[? ?] ?]|]; intros E; [injection E as -> ->; reflexivity | discriminate]. Qed.
Lemma dev_reboot s : option_map (λ _, tt) (reboot any_key unset4 env1 (Some sample_key) s) = Some tt → reboot any_key unset4 env1 (Some sample_key) s = Some (default dev_boot (reboot any_key unset4 env1 (Some sample_key) s)).
Proof. by destruct (reboot _ _ _ _ s). Qed.
Lemma dev_send s iv sq l : option_map fst (net_take_seq any_key unset4 s) = Some (iv, sq) → event_cb (senv s) = true → (net_seq (net s) + 1 <? 16777216) = true → saves_seq s →
  nstep any_key (s, l) (dev_after (net_take_seq any_key unset4 s), l ++ [(iv, sq)]).
Proof. intros E C B W. apply (ns_send any_key unset4); [exact C | lia | exact W | by apply dev_take]. Qed.
Lemma dev_run : rtc (nstep any_key) (dev_p, []) (dev_s4, [(5, 0); (5, 1); (0, 102)]).
Proof.
  apply (rtc_l _ _ (dev_s1, [] ++ [(5, 0)])); [apply dev_send; vm_compute; reflexivity|].
  apply (rtc_l _ _ (dev_s2, ([] ++ [(5, 0)]) ++ [(5, 1)])); [apply dev_send; vm_compute; reflexivity|].
  apply (rtc_l _ _ (dev_s3, ([] ++ [(5, 0)]) ++ [(5, 1)])).
  - apply (ns_restart any_key unset4 env1 (Some sample_key)); [reflexivity | reflexivity | reflexivity | vm_compute; reflexivity | vm_compute; reflexivity | apply dev_reboot; vm_compute; reflexivity | vm_compute; reflexivity].
  - apply (rtc_l _ _ (dev_s4, (([] ++ [(5, 0)]) ++ [(5, 1)]) ++ [(0, 102)])); [apply dev_send; vm_compute; reflexivity | apply rtc_refl].
Qed.

(** Two PDUs, a power failure, and a PDU on the store of kvmgr.c. *)
Lemma seq_never_reused_witness : rtc (nstep any_key) (dev_p, []) (dev_s4, [(5, 0); (5, 1); (0, 102)]) /\ List.NoDup [(5, 0); (5, 1); (0, 102)].
Proof.
  split; [exact dev_run|]. exact (proj2 (seq_never_reused any_key dev_p dev_s4 [(5, 0); (5, 1); (0, 102)] ltac:(vm_compute; reflexivity) dev_run)).
Defined.

Lemma sample_key_ok : length sample_key = 16%nat /\ all_u8 sample_key.
Proof. split; [reflexivity|]. unfold sample_key, all_u8. cbn. repeat constructor; lia. Defined.
Lemma dev_saves : saves_all 32 (net dev_joined) (store dev_joined).
Proof. repeat split; vm_compute; reflexivity. Qed.

Lemma provision_survives_restart_witness : exists s',
  ('(_, _, s3) ← provision_and_send any_key 32 unset4 dev_joined; reboot any_key unset4 env1 (Some sample_key) s3) = Some s'
  /\ dev_primary_addr (net s') = 32 /\ net_seq (net s') = 101 /\ iv_index (net s') = 0.
Proof.
  destruct (provision_survives_restart any_key 32 unset4 env1 (Some sample_key) dev_joined) as (s' & E & _ & A & _ & _ & _ & Q & V & _).
  - exact dev_saves.
  - exact dev_heap.
  - lia.
  - reflexivity.
  - repeat split; vm_compute; reflexivity.
  - repeat apply Forall_cons_2; (exact sample_key_ok || constructor).
  - reflexivity.
  - vm_compute. reflexivity.
  - repeat split.
  - exists s'. split; [exact E|]. split; [exact A|]. split; [exact Q | exact V].
Defined.

Lemma iv_recovery_reuses_nonce_witness : exists s3 s' n' s'',
  provision_and_send any_key 32 unset4 joined1 = Some (5, 0, s3) /\ reboot any_key unset4 env1 (Some sample_key) s3 = Some s'
  /\ bt_mesh_net_iv_update 5 false 9000 false (net s') = (true, n')
  /\ net_take_seq any_key unset4 (on_net (λ _, n') s') = Some (5, 0, s'').
Proof.
  apply (iv_recovery_reuses_nonce any_key 32 unset4 env1 (Some sample_key) joined1).
  - repeat split; vm_compute; reflexivity.
  - exact (proj2 wflash_works).
  - lia.
  - reflexivity.
  - repeat split.
  - repeat apply Forall_cons_2; (exact sample_key_ok || constructor).
  - reflexivity.
  - vm_compute. reflexivity.
  - repeat split.
  - reflexivity.
  - reflexivity.
  - lia.
Defined.
