(* ===== verification/Cmac.v ===== *)
(** * Cmac: the message authentication code of tinycrypt (source/cmac_mode.c)

    AES-CMAC as an incremental computation: set up with a key, updated with pieces of
    the message, finished with a tag, and the wrapper [bt_mesh_aes_cmac] of
    mesh_hal_sec.c over a list of pieces.  [cmac_ref] is the algorithm of RFC 4493 on
    the whole message; [cmac_pieces] says when the two agree. *)
From Stdlib Require Import ZArith Lia List Bool.
From stdpp Require Import base list numbers option.
From S2P Require Import Prelude Env Aes.
Local Open Scope Z_scope.

Definition TC_AES_BLOCK_SIZE : nat := 16.
Definition TC_CMAC_PADDING : Z := 128. (* 0x80 *)
Definition MAX_CALLS : Z := Z.shiftl 1 48.
Definition gf_wrap : Z := 135. (* 0x87 *)
Definition EIO_cmac : Z := 5.

(** Doubling in GF(2^128), from the low order byte (the last one) on. *)
Fixpoint gf_loop (xs : list Z) (carry : Z) : list Z :=
  match xs with
  | [] => []
  | x :: xs => u8 (Z.lxor (Z.shiftl x 1) carry) :: gf_loop xs (Z.shiftr x 7)
  end.
Definition gf_double (b : list Z) : list Z :=
  rev (gf_loop (rev b) (if truthy (Z.shiftr (nth 0 b 0) 7) then gf_wrap else 0)).

(** [struct tc_cmac_struct]; the schedule is the words of the key. *)
Record tc_cmac_struct := mkCmac {
  iv : list Z; K1 : list Z; K2 : list Z; leftover : list Z; leftover_offset : nat; sched : list Z; countdown : Z }.

Definition zeros (n : nat) : list Z := repeat 0 n.
Definition xor_blk (a b : list Z) : list Z := zip_with Z.lxor a b.

Definition tc_cmac_init (s : tc_cmac_struct) : tc_cmac_struct :=
  mkCmac (zeros 16) (K1 s) (K2 s) (zeros 16) 0 (sched s) MAX_CALLS.

Definition tc_cmac_setup (key : list Z) : tc_cmac_struct :=
  let words := key_schedule key in
  let v := encrypt_block words (zeros 16) in
  let k1 := gf_double v in
  tc_cmac_init (mkCmac v k1 (gf_double k1) [] 0 words 0).

Definition tc_cmac_erase (s : tc_cmac_struct) : tc_cmac_struct := mkCmac (zeros 16) (zeros 16) (zeros 16) (zeros 16) 0 [] 0.

(** [_copy(&s->leftover[off], ...)]. *)
Definition store_at (off : nat) (d buf : list Z) : list Z := take off buf ++ d ++ drop (off + length d) buf.

(** The while loop over the data: all blocks but the last are encrypted. *)
Fixpoint cmac_blocks (fuel : nat) (words v data : list Z) : list Z * list Z :=
  match fuel with
  | O => (v, data)
  | S fuel =>
    if Nat.ltb TC_AES_BLOCK_SIZE (length data)
    then cmac_blocks fuel words (encrypt_block words (xor_blk v (take TC_AES_BLOCK_SIZE data))) (drop TC_AES_BLOCK_SIZE data)
    else (v, data)
  end.

(** [data = None] is the null pointer. *)
Definition tc_cmac_update (s : tc_cmac_struct) (data : option (list Z)) : Z * tc_cmac_struct :=
  match data with
  | None | Some [] => (TC_CRYPTO_SUCCESS, s)
  | Some data =>
    if countdown s =? 0 then (TC_CRYPTO_FAIL, s) else
    let c := countdown s - 1 in
    let remaining_space := (TC_AES_BLOCK_SIZE - leftover_offset s)%nat in
    if Nat.ltb 0 (leftover_offset s) && Nat.ltb (length data) remaining_space then
      (TC_CRYPTO_SUCCESS, mkCmac (iv s) (K1 s) (K2 s) (store_at (leftover_offset s) data (leftover s))
                           (leftover_offset s + length data) (sched s) c)
    else
      let '(v, l, off, data) :=
        if Nat.ltb 0 (leftover_offset s) then
          let l := store_at (leftover_offset s) (take remaining_space data) (leftover s) in
          (encrypt_block (sched s) (xor_blk (iv s) l), l, 0%nat, drop remaining_space data)
        else (iv s, leftover s, leftover_offset s, data) in
      let '(v, data) := cmac_blocks (length data) (sched s) v data in
      let '(l, off) := if Nat.ltb 0 (length data) then (store_at 0 data l, length data) else (l, off) in
      (TC_CRYPTO_SUCCESS, mkCmac v (K1 s) (K2 s) l off (sched s) c)
  end.

Definition tc_cmac_final (s : tc_cmac_struct) : Z * list Z :=
  let '(l, k) :=
    if Nat.eqb (leftover_offset s) TC_AES_BLOCK_SIZE then (leftover s, K1 s)
    else (take (leftover_offset s) (leftover s) ++ TC_CMAC_PADDING :: zeros (TC_AES_BLOCK_SIZE - leftover_offset s - 1), K2 s) in
  (TC_CRYPTO_SUCCESS, encrypt_block (sched s) (xor_blk (iv s) (xor_blk l k))).

(** [bt_mesh_aes_cmac]: the pieces in order. *)
Fixpoint cmac_updates (s : tc_cmac_struct) (sg : list (option (list Z))) : option tc_cmac_struct :=
  match sg with
  | [] => Some s
  | d :: sg => let '(r, s) := tc_cmac_update s d in if r =? TC_CRYPTO_FAIL then None else cmac_updates s sg
  end.
Definition bt_mesh_aes_cmac (key : list Z) (sg : list (option (list Z))) (mac : list Z) : Z * list Z :=
  match cmac_updates (tc_cmac_setup key) sg with
  | None => (- EIO_cmac, mac)
  | Some s => let '(r, tag) := tc_cmac_final s in if r =? TC_CRYPTO_FAIL then (- EIO_cmac, mac) else (0, tag)
  end.
Definition bt_mesh_aes_cmac_one (key m mac : list Z) : Z * list Z := bt_mesh_aes_cmac key [Some m] mac.

(** ** RFC 4493 *)

(** The message without its last block, in blocks, and the last block. *)
Fixpoint split_last (fuel : nat) (m : list Z) : list (list Z) * list Z :=
  match fuel with
  | O => ([], m)
  | S fuel => if Nat.ltb 16 (length m) then let '(bs, l) := split_last fuel (drop 16 m) in (take 16 m :: bs, l) else ([], m)
  end.

Definition cbc (words v : list Z) (bs : list (list Z)) : list Z := fold_left (λ v b, encrypt_block words (xor_blk v b)) bs v.

Definition cmac_ref (key m : list Z) : list Z :=
  let words := key_schedule key in
  let k1 := gf_double (encrypt_block words (zeros 16)) in
  let '(bs, l) := split_last (length m) m in
  let last := if Nat.eqb (length l) 16 then xor_blk l k1 else xor_blk (l ++ 128 :: zeros (16 - length l - 1)) (gf_double k1) in
  encrypt_block words (xor_blk (cbc words (zeros 16) bs) last).

(** Test vectors of RFC 4493: the empty message, 16, 40 and 64 bytes. *)
Definition rfc_key : list Z := [43; 126; 21; 22; 40; 174; 210; 166; 171; 247; 21; 136; 9; 207; 79; 60].
Definition rfc_msg : list Z :=
  [107; 193; 190; 226; 46; 64; 159; 150; 233; 61; 126; 17; 115; 147; 23; 42; 174; 45; 138; 87; 30; 3; 172; 156; 158; 183; 111; 172; 69; 175; 142; 81;
   48; 200; 28; 70; 163; 92; 228; 17; 229; 251; 193; 25; 26; 10; 82; 239; 246; 159; 36; 69; 223; 79; 155; 23; 173; 43; 65; 123; 230; 108; 55; 16].
Example rfc4493_0 : bt_mesh_aes_cmac_one rfc_key [] [] = (0, [187; 29; 105; 41; 233; 89; 55; 40; 127; 163; 125; 18; 155; 117; 103; 70]).
Proof. vm_compute. reflexivity. Qed.
Example rfc4493_16 : bt_mesh_aes_cmac_one rfc_key (take 16 rfc_msg) [] = (0, [7; 10; 22; 180; 107; 77; 65; 68; 247; 155; 221; 157; 208; 74; 40; 124]).
Proof. vm_compute. reflexivity. Qed.
Example rfc4493_40 : bt_mesh_aes_cmac_one rfc_key (take 40 rfc_msg) [] = (0, [223; 166; 103; 71; 222; 154; 230; 48; 48; 202; 50; 97; 20; 151; 200; 39]).
Proof. vm_compute. reflexivity. Qed.
Example rfc4493_64 : bt_mesh_aes_cmac_one rfc_key rfc_msg [] = (0, [81; 240; 190; 191; 126; 59; 157; 146; 252; 73; 116; 23; 121; 54; 60; 254]).
Proof. vm_compute. reflexivity. Qed.

(** ** The incremental computation *)

#[local] Opaque encrypt_block key_schedule gf_double MAX_CALLS.

Definition full_blocks (bs : list (list Z)) : Prop := Forall (λ b, length b = 16%nat) bs.

Lemma split_last_unique n bs l : full_blocks bs → (length l <= 16)%nat → (bs ≠ [] → l ≠ []) → (length bs <= n)%nat →
  split_last n (concat bs ++ l) = (bs, l).
Proof.
  revert bs. induction n as [|n IH]; intros bs Hb Hl Hne Hn.
  - destruct bs; [done | cbn in Hn; lia].
  - cbn [split_last]. destruct bs as [|b bs]; cbn [concat app].
    + destruct (Nat.ltb_spec 16 (length l)); [lia | done].
    + apply Forall_cons_1 in Hb as [Hb Hbs]. rewrite <- app_assoc. cbn [length] in Hn.
      destruct (Nat.ltb_spec 16 (length (b ++ concat bs ++ l))) as [_|H].
      * rewrite take_app_length', drop_app_length' by done. rewrite IH; [done | done | done | | lia]. intros _. by apply Hne.
      * exfalso. rewrite !length_app in H. destruct l; [by apply Hne | cbn in H; lia].
Qed.

Lemma split_last_spec n m : (length m <= n)%nat → let '(bs, l) := split_last n m in
  m = concat bs ++ l /\ full_blocks bs /\ (length l <= 16)%nat /\ (m ≠ [] → l ≠ []) /\ (length bs <= length m)%nat.
Proof.
  revert m. induction n as [|n IH]; intros m Hn; cbn [split_last].
  - destruct m; [|cbn in Hn; lia]. split_and!; first [done | cbn; lia | constructor].
  - destruct (Nat.ltb_spec 16 (length m)) as [H|H]; [|split_and!; first [done | cbn; lia | constructor]].
    specialize (IH (drop 16 m)). rewrite length_drop in IH. specialize (IH ltac:(lia)). destruct (split_last n (drop 16 m)) as [bs l].
    destruct IH as (E & Hb & Hl & Hne & Hlen). split_and!.
    + cbn [concat]. rewrite <- app_assoc, <- E. by rewrite take_drop.
    + constructor; [rewrite length_take; lia | done].
    + done.
    + intros _. apply Hne. intros X. apply (f_equal length) in X. rewrite length_drop in X. cbn in X. lia.
    + cbn [length]. lia.
Qed.

Lemma cmac_blocks_spec n words v m : cmac_blocks n words v m = let '(bs, l) := split_last n m in (cbc words v bs, l).
Proof.
  revert v m. induction n as [|n IH]; intros v m; [done|]. cbn [cmac_blocks split_last]. change TC_AES_BLOCK_SIZE with 16%nat.
  destruct (Nat.ltb_spec 16 (length m)); [|done]. rewrite IH. destruct (split_last n (drop 16 m)). done.
Qed.

(** The state after the data [d], which is the blocks [bs] and the last block [l]. *)
Record absorbed (key d : list Z) (bs : list (list Z)) (l : list Z) (n : Z) (s : tc_cmac_struct) : Prop := {
  ab_split : d = concat bs ++ l;
  ab_full : full_blocks bs;
  ab_len : (length l <= 16)%nat;
  ab_ne : d ≠ [] → l ≠ [];
  ab_iv : iv s = cbc (key_schedule key) (zeros 16) bs;
  ab_left : take (length l) (leftover s) = l;
  ab_left_len : length (leftover s) = 16%nat;
  ab_off : leftover_offset s = length l;
  ab_sched : sched s = key_schedule key;
  ab_k1 : K1 s = gf_double (encrypt_block (key_schedule key) (zeros 16));
  ab_k2 : K2 s = gf_double (K1 s);
  ab_count : countdown s = n }.

Lemma setup_absorbed key : absorbed key [] [] [] MAX_CALLS (tc_cmac_setup key).
Proof.
  unfold tc_cmac_setup, tc_cmac_init. cbv zeta. split; cbn [iv K1 K2 leftover leftover_offset sched countdown length];
    [reflexivity | constructor | apply Nat.le_0_l | intros H; exact H | reflexivity..].
Qed.

Lemma store_at_take off d b : (off + length d <= length b)%nat →
  take (off + length d) (store_at off d b) = take off b ++ d /\ length (store_at off d b) = length b.
Proof.
  intros H. unfold store_at. split.
  - rewrite app_assoc. rewrite take_app_length'; [done|]. rewrite length_app, length_take. lia.
  - rewrite !length_app, length_take, length_drop. lia.
Qed.

Lemma cbc_app words v a b : cbc words v (a ++ b) = cbc words (cbc words v a) b.
Proof. apply fold_left_app. Qed.

(** The pieces after [total] bytes: none but the last block is ended by a piece that
    fills a block begun by an earlier one. *)
Definition piece_ok (total n : nat) : bool := negb (Nat.ltb 0 (total mod 16) && Nat.eqb (total mod 16 + n) 16).
Fixpoint pieces_ok (total : nat) (sg : list (option (list Z))) : bool :=
  match sg with
  | [] => true
  | d :: sg => let n := length (default [] d) in piece_ok total n && pieces_ok (total + n) sg
  end.

Lemma last_mod d bs l : d = concat bs ++ l → full_blocks bs → (0 < length l < 16)%nat → (length d mod 16 = length l)%nat.
Proof.
  intros -> Hb Hl. rewrite length_app. assert (length (concat bs) = 16 * length bs)%nat as E.
  { induction Hb as [|b bs Hb Hbs IH]; [done|]. cbn [concat length]. rewrite length_app, IH, Hb. lia. }
  rewrite E, Nat.add_comm, (Nat.mul_comm 16), Nat.Div0.mod_add. apply Nat.mod_small. lia.
Qed.

(** The blocks of the data behind what the state has, with [l] the rest of the buffer. *)
Lemma tail_absorbed key d bs m n k1 k2 l0 : full_blocks bs → d = concat bs ++ m → m ≠ [] → length l0 = 16%nat →
  k1 = gf_double (encrypt_block (key_schedule key) (zeros 16)) → k2 = gf_double k1 →
  let '(v, data) := cmac_blocks (length m) (key_schedule key) (cbc (key_schedule key) (zeros 16) bs) m in
  let '(l, off) := if Nat.ltb 0 (length data) then (store_at 0 data l0, length data) else (l0, 0%nat) in
  exists bs' l', absorbed key d bs' l' n (mkCmac v k1 k2 l off (key_schedule key) n).
Proof.
  intros Hb E Hm Hl0 -> ->. rewrite cmac_blocks_spec. pose proof (split_last_spec (length m) m (le_n _)) as S.
  destruct (split_last (length m) m) as [bs2 l2]. destruct S as (Em & Hb2 & Hl2 & Hne & _). specialize (Hne Hm).
  destruct (Nat.ltb_spec 0 (length l2)) as [H|H]; [|destruct l2; [done | cbn in H; lia]].
  destruct (store_at_take 0 l2 l0 ltac:(lia)) as [T1 T2]. exists (bs ++ bs2), l2. split; try done.
  - rewrite E, Em, concat_app, <- app_assoc. done.
  - by apply Forall_app.
  - cbn [iv]. by rewrite cbc_app.
  - cbn [leftover]. lia.
Qed.

Lemma update_absorbed key d bs l n s p : absorbed key d bs l n s → 0 < n → piece_ok (length d) (length (default [] p)) = true →
  exists s' bs' l' n', tc_cmac_update s p = (TC_CRYPTO_SUCCESS, s') /\ absorbed key (d ++ default [] p) bs' l' n' s' /\ n - 1 <= n'.
Proof.
  intros A Hn Hp. destruct p as [[|x p]|]; cbn [default from_option id tc_cmac_update] in *; [exists s, bs, l, n; rewrite app_nil_r; split_and!; (done || lia)| |exists s, bs, l, n; rewrite app_nil_r; split_and!; (done || lia)].
  set (data := x :: p) in *. assert (data ≠ []) as Hne by done. clearbody data. clear x p.
  pose proof A as [Es Hb Hl Hd Ei Et El Eo Ek E1 E2 Ec]. rewrite Ec. destruct (Z.eqb_spec n 0); [lia|]. rewrite Eo. change TC_AES_BLOCK_SIZE with 16%nat.
  destruct (Nat.ltb_spec 0 (length l)) as [L|L]; cbn [andb].
  - destruct (Nat.ltb_spec (length data) (16 - length l)) as [F|F].
    + do 4 eexists. split; [reflexivity|]. split; [|exact (Z.le_refl _)]. destruct (store_at_take (length l) data (leftover s) ltac:(lia)) as [T1 T2]. apply (Build_absorbed key (d ++ data) bs (l ++ data)); try done; cbn [leftover leftover_offset].
      * by rewrite Es, <- app_assoc.
      * rewrite length_app. lia.
      * intros _ X. by apply app_nil in X as [_ X].
      * by rewrite length_app, T1, Et.
      * lia.
      * by rewrite length_app.
    + set (f := take (16 - length l) data). assert (length f = 16 - length l)%nat as Hf by (unfold f; rewrite length_take; lia).
      assert (store_at (length l) f (leftover s) = l ++ f) as Ef.
      { unfold store_at. rewrite Et, Hf. rewrite drop_ge by lia. by rewrite app_nil_r. }
      rewrite Ef, Ei, Ek.
      assert (drop (16 - length l) data ≠ []) as Hr.
      { intros X. apply (f_equal length) in X. rewrite length_drop in X. cbn in X. unfold piece_ok in Hp. destruct (decide (length l = 16%nat)) as [E16|E16]; [destruct data; [done|]; cbn in *; lia|].
        rewrite (last_mod d bs l Es Hb ltac:(lia)) in Hp. apply negb_true_iff, andb_false_iff in Hp as [Hp|Hp]; [apply Nat.ltb_ge in Hp; lia | apply Nat.eqb_neq in Hp; lia]. }
      pose proof (tail_absorbed key (d ++ data) (bs ++ [l ++ f]) (drop (16 - length l) data) (n - 1) (K1 s) (K2 s) (l ++ f)) as T.
      rewrite cbc_app in T. cbn [cbc fold_left] in T. fold (cbc (key_schedule key) (zeros 16) bs) in T.
      destruct (cmac_blocks _ _ _ _) as [v data']. destruct (if Nat.ltb 0 (length data') then _ else _) as [l' off'].
      destruct T as (bs2 & l2 & T); [..|do 4 eexists; split; [reflexivity|]; split; [exact T | lia]].
      * apply Forall_app. split; [done|]. constructor; [rewrite length_app; lia | constructor].
      * rewrite concat_app. cbn [concat]. rewrite app_nil_r, <- !app_assoc. unfold f. rewrite take_drop. by rewrite Es, <- app_assoc.
      * done.
      * rewrite length_app. lia.
      * done.
      * done.
  - assert (l = []) as -> by (destruct l; [done | cbn in L; lia]). assert (d = []) as -> by (destruct d; [done|]; exfalso; by apply Hd).
    pose proof (tail_absorbed key data [] data (n - 1) (K1 s) (K2 s) (leftover s)) as T. assert (bs = []) as ->.
    { destruct bs as [|b bs]; [done|]. apply Forall_cons_1 in Hb as [Hb _]. cbn in Es. destruct b; [done|]. done. }
    rewrite Ei, Ek. cbn [length app]. destruct (cmac_blocks _ _ _ _) as [v data']. destruct (if Nat.ltb 0 (length data') then _ else _) as [l' off'].
    destruct T as (bs2 & l2 & T); [by constructor | done..|]. do 4 eexists; split; [reflexivity|]; split; [exact T | lia].
Qed.

Definition joined (sg : list (option (list Z))) : list Z := concat (map (default []) sg).

Lemma updates_absorbed key sg : forall d bs l n s, absorbed key d bs l n s → Z.of_nat (length sg) <= n → pieces_ok (length d) sg = true →
  exists s' bs' l' n', cmac_updates s sg = Some s' /\ absorbed key (d ++ joined sg) bs' l' n' s'.
Proof.
  induction sg as [|p sg IH]; intros d bs l n s A Hn Hp; cbn [cmac_updates pieces_ok joined map concat] in *.
  - exists s, bs, l, n. by rewrite app_nil_r.
  - apply andb_true_iff in Hp as [Hp1 Hp2]. cbn [length] in Hn.
    destruct (update_absorbed key d bs l n s p A ltac:(lia) Hp1) as (s1 & bs1 & l1 & n1 & -> & A1 & Hn1). cbn [Z.eqb].
    destruct (IH _ _ _ _ _ A1 ltac:(lia)) as (s' & bs' & l' & n' & E & A'); [by rewrite length_app|].
    exists s', bs', l', n'. split; [exact E|]. by rewrite app_assoc.
Qed.

Lemma final_absorbed key d bs l n s : absorbed key d bs l n s → tc_cmac_final s = (TC_CRYPTO_SUCCESS, cmac_ref key d).
Proof.
  intros [Es Hb Hl Hd Ei Et El Eo Ek E1 E2 Ec]. unfold tc_cmac_final, cmac_ref. cbv zeta.
  assert (split_last (length d) d = (bs, l)) as ->.
  { rewrite Es. apply split_last_unique; [done | done | |].
    - intros Hne. apply Hd. rewrite Es. intros X. apply app_nil in X as [X _]. destruct bs as [|b bs]; [done|]. apply Forall_cons_1 in Hb as [Hb _]. by destruct b.
    - clear -Hb. rewrite length_app. induction Hb as [|b bs Hb Hbs IH]; [cbn; lia|]. cbn [concat length]. rewrite length_app. lia. }
  rewrite Eo, E2, E1, Ei, Ek, Et. change TC_AES_BLOCK_SIZE with 16%nat. destruct (Nat.eqb_spec (length l) 16) as [L|L]; [|done].
  rewrite L, take_ge in Et by lia. by rewrite Et.
Qed.

Lemma cmac_joined key sg mac : pieces_ok 0 sg = true → Z.of_nat (length sg) <= MAX_CALLS → bt_mesh_aes_cmac key sg mac = (0, cmac_ref key (joined sg)).
Proof.
  intros Hp Hn. destruct (updates_absorbed key sg [] [] [] MAX_CALLS _ (setup_absorbed key) Hn Hp) as (s & bs & l & n & E & A).
  unfold bt_mesh_aes_cmac. rewrite E, (final_absorbed key _ bs l n s A). done.
Qed.

(** The incremental code computes AES-CMAC: fed with the pieces of a message, tinycrypt's state machine gives the tag RFC 4493 defines for the whole message, provided no piece exactly fills up a block that an earlier piece began. *)
Theorem cmac_pieces key sg mac : pieces_ok 0 sg = true → Z.of_nat (length sg) <= MAX_CALLS →
  bt_mesh_aes_cmac key sg mac = (0, cmac_ref key (joined sg)).
Proof. apply cmac_joined. Qed.

(** One piece is never split. *)
Lemma cmac_one key m mac : bt_mesh_aes_cmac_one key m mac = (0, cmac_ref key m).
Proof. unfold bt_mesh_aes_cmac_one. rewrite <- (app_nil_r m) at 2. apply (cmac_joined key [Some m]); [done | vm_compute; discriminate]. Qed.

(** Where that condition fails the tag is wrong: the same sixteen bytes give one tag in one piece and another one as a piece of five and a piece of eleven bytes, because the block the second piece fills is encrypted at once and the computation ends with an empty padded block. *)
Theorem cmac_split_wrong :
  let m := take 16 rfc_msg in
  let '(r, tag) := bt_mesh_aes_cmac rfc_key [Some (take 5 m); Some (drop 5 m)] [] in
  r = 0 /\ tag ≠ cmac_ref rfc_key m.
Proof. vm_compute. split; [reflexivity | discriminate]. Qed.

(** ** Doubling in the field *)

(** The bytes as a number, most significant byte first. *)
Definition be_val (b : list Z) : Z := fold_left (λ a x, 256 * a + x) b 0.
Fixpoint le_val (b : list Z) : Z := match b with [] => 0 | x :: b => x + 256 * le_val b end.

Lemma be_le_val b : be_val b = le_val (rev b).
Proof.
  unfold be_val. rewrite <- (rev_involutive b) at 1. generalize (rev b) as l. clear b.
  induction l as [|x l IH]; [done|]. cbn [rev le_val]. rewrite fold_left_app, IH. cbn [fold_left]. lia.
Qed.

Lemma shift_byte x c : is_u8 x → c = 0 \/ c = 1 → u8 (Z.lxor (Z.shiftl x 1) c) = (2 * x + c) mod 256.
Proof. intros Hx [-> | ->]; revert x Hx; apply byte_ext; vm_compute; reflexivity. Qed.

Lemma gf_loop_shift xs c : all_u8 xs → c = 0 \/ c = 1 → le_val (gf_loop xs c) = (2 * le_val xs + c) mod 256 ^ Z.of_nat (length xs).
Proof.
  intros H. revert c. induction H as [|x xs Hx Hxs IH]; intros c Hc; cbn [gf_loop le_val length]; [by rewrite Z.mod_1_r|].
  assert (Z.shiftr x 7 = x / 128) as Es by (rewrite Z.shiftr_div_pow2 by lia; done).
  rewrite IH by (rewrite Es; dlia). rewrite shift_byte by done. rewrite Es, Nat2Z.inj_succ, Z.pow_succ_r by lia.
  set (N := 256 ^ Z.of_nat (length xs)). assert (0 < N) by (apply Z.pow_pos_nonneg; lia).
  rewrite (Z.rem_mul_r (2 * (x + 256 * le_val xs) + c) 256 N) by lia.
  f_equal; [rewrite <- (Z.mod_add (2 * x + c) (2 * le_val xs) 256) by lia; f_equal; lia|]. do 2 f_equal. Z.div_mod_to_equations. destruct Hc as [-> | ->]; lia.
Qed.

(** The reduction is added to the low order byte. *)
Lemma gf_loop_wrap xs : xs ≠ [] → le_val (gf_loop xs gf_wrap) = Z.lxor (le_val (gf_loop xs 0)) gf_wrap.
Proof.
  destruct xs as [|x xs]; [done|]. intros _. cbn [gf_loop le_val]. rewrite Z.lxor_0_r.
  assert (forall h t, is_u8 h → Z.lxor h gf_wrap + 256 * t = Z.lxor (h + 256 * t) gf_wrap) as H.
  { intros h t Hh. assert (is_u8 (Z.lxor h gf_wrap)) by (apply lxor_byte; [done | unfold gf_wrap; lia]).
    pose proof (lor_shiftl h t 8 Hh ltac:(lia)) as E1. pose proof (lor_shiftl (Z.lxor h gf_wrap) t 8 H ltac:(lia)) as E2.
    change (2 ^ 8) with 256 in *. replace (h + 256 * t) with (h + t * 256) by lia. replace (Z.lxor h gf_wrap + 256 * t) with (Z.lxor h gf_wrap + t * 256) by lia.
    rewrite <- E1, <- E2. pose proof (land_shiftl_disjoint h t 8 Hh ltac:(lia)) as D1. pose proof (land_shiftl_disjoint _ t 8 H ltac:(lia)) as D2.
    rewrite <- !Z.lxor_lor by done. rewrite !Z.lxor_assoc. f_equal. apply Z.lxor_comm. }
  rewrite <- H by auto with genie. f_equal. unfold u8. change 256 with (2 ^ 8). rewrite <- !Z.land_ones by lia. apply Z.bits_inj'. intros n Hn.
  rewrite Z.lxor_spec, !Z.land_spec, Z.lxor_spec. destruct (Z.lt_ge_cases n 8).
  - rewrite Z.ones_spec_low by lia. by rewrite !andb_true_r.
  - rewrite Z.ones_spec_high by lia. rewrite !andb_false_r. symmetry. apply Z.bits_above_log2; [unfold gf_wrap; lia | cbn; lia].
Qed.

Lemma gf_loop_length xs c : length (gf_loop xs c) = length xs.
Proof. revert c. induction xs as [|x xs IH]; intros c; [done|]. cbn [gf_loop length]. by rewrite IH. Qed.

(** [gf_double] is multiplication by x in GF(2^128): on the number the sixteen bytes stand for it is a shift, with the remainder of x^128 modulo the field polynomial added when the top bit is lost. *)
Theorem gf_double_spec b : length b = 16%nat → all_u8 b →
  be_val (gf_double b) = if nth 0 b 0 <? 128 then (2 * be_val b) mod 2 ^ 128 else Z.lxor ((2 * be_val b) mod 2 ^ 128) 135.
Proof.
  intros Hl Hb. rewrite !be_le_val. Local Transparent gf_double. unfold gf_double. rewrite rev_involutive.
  assert (all_u8 (rev b)) as Hr by (by apply Forall_rev).
  pose proof (gf_loop_shift (rev b) 0 Hr (or_introl eq_refl)) as E. rewrite length_rev, Hl, Z.add_0_r in E. change (256 ^ Z.of_nat 16) with (2 ^ 128) in E.
  assert (is_u8 (nth 0 b 0)) as Hx by (destruct b; [done|]; by apply Forall_cons_1 in Hb as [Hb _]).
  unfold truthy. rewrite Z.shiftr_div_pow2 by lia. change (2 ^ 7) with 128.
  destruct (Z.ltb_spec (nth 0 b 0) 128); destruct (Z.eqb_spec (nth 0 b 0 / 128) 0); cbn [negb]; [exact E | dlia | dlia |].
  rewrite gf_loop_wrap, E; [done|]. destruct b; [done|]. cbn. intros X. apply (f_equal length) in X. rewrite length_app in X. cbn in X. lia.
Qed.

(** ** Witnesses *)

Lemma cmac_pieces_witness : bt_mesh_aes_cmac rfc_key [None; Some (take 16 rfc_msg); Some [1]; Some [2]] [] = (0, cmac_ref rfc_key (take 16 rfc_msg ++ [1; 2])).
Proof. apply (cmac_pieces rfc_key [None; Some (take 16 rfc_msg); Some [1]; Some [2]] []); vm_compute; [reflexivity | discriminate]. Defined.

Lemma gf_double_spec_witness : let b := map Z.of_nat (seq 200 16) in
  be_val (gf_double b) = if nth 0 b 0 <? 128 then (2 * be_val b) mod 2 ^ 128 else Z.lxor ((2 * be_val b) mod 2 ^ 128) 135.
Proof. apply (gf_double_spec (map Z.of_nat (seq 200 16))); [reflexivity | cbn; repeat constructor; lia]. Defined.
