(* ===== verification/MeshCrypto.v ===== *)
(** * MeshCrypto: the security toolbox of the mesh stack (bt_mesh/src/crypto.c)

    AES-CCM with the nonces of the network, proxy and application layer, obfuscation,
    the key derivation functions, the frame check sequence of the provisioning bearer.
    The routines that work in place (the output buffer is the input buffer) read every
    byte before they write it, so input and output are separate values here.  A function
    with an out parameter answers [inl] the error code or [inr] the output. *)
From Stdlib Require Import ZArith Lia List Bool String Ascii.
From stdpp Require Import base list numbers option.
From S2P Require Import Prelude Env Aes Cmac.
Local Open Scope Z_scope.

(** ** Errors and bytes *)

Definition res (A : Type) : Type := Z + A.
Definition rbind {A B} (r : res A) (k : A → res B) : res B := match r with inl e => inl e | inr a => k a end.
Notation "'let!' x := r 'in' k" := (rbind r (λ x, k)) (at level 10, x pattern, r at level 100, k at level 200).
(** A call that answers a code and an output. *)
Definition lift {A} (r : Z * A) : res A := if fst r =? 0 then inr (snd r) else inl (fst r).

Definition EBADMSG : Z := 77.
Definition be32 (z : Z) : list Z := [u8 (Z.shiftr z 24); u8 (Z.shiftr z 16); u8 (Z.shiftr z 8); u8 z].
Definition get_be16 (hi lo : Z) : Z := Z.lor (Z.shiftl hi 8) lo.
(** The characters of a C string. *)
Fixpoint cstr (s : string) : list Z :=
  match s with EmptyString => [] | String c s => Z.of_N (N_of_ascii c) :: cstr s end.

(** [bt_mesh_aes_encrypt]; it cannot fail on buffers that are not null. *)
Definition aes (key b : list Z) : list Z := snd (bt_mesh_aes_encrypt [] key b []).

(** ** Key derivation *)

Definition cmac1 (key m : list Z) : res (list Z) := lift (bt_mesh_aes_cmac_one key m []).

(** The result is a [bool]: every error is 1. *)
Definition bt_mesh_s1 (m : list Z) : res (list Z) := match cmac1 (zeros 16) m with inl _ => inl 1 | inr t => inr t end.

Definition bt_mesh_k1 (ikm salt info : list Z) : res (list Z) := let! okm := cmac1 salt ikm in cmac1 okm info.

Definition bt_mesh_k2 (n p : list Z) : res (Z * list Z * list Z) :=
  let! salt := bt_mesh_s1 (cstr "smk2") in
  let! t := cmac1 salt n in
  let! out := lift (bt_mesh_aes_cmac t [None; Some p; Some [1]] []) in
  let net_id := Z.land (nth 15 out 0) 127 in
  let! out := lift (bt_mesh_aes_cmac t [Some out; Some p; Some [2]] []) in
  let enc_key := out in
  let! out := lift (bt_mesh_aes_cmac t [Some out; Some p; Some [3]] []) in
  inr (net_id, enc_key, out).

Definition bt_mesh_k3 (n : list Z) : res (list Z) :=
  let! tmp := bt_mesh_s1 (cstr "smk3") in
  let! t := cmac1 tmp n in
  let! tmp := cmac1 t (cstr "id64" ++ [1]) in
  inr (take 8 (drop 8 tmp)).

Definition bt_mesh_k4 (n : list Z) : res Z :=
  let! tmp := bt_mesh_s1 (cstr "smk4") in
  let! t := cmac1 tmp n in
  let! tmp := cmac1 t (cstr "id6" ++ [1]) in
  inr (Z.land (nth 15 tmp 0) 63).

Definition bt_mesh_id128 (n s : list Z) : res (list Z) :=
  let! salt := bt_mesh_s1 s in
  bt_mesh_k1 n salt (cstr "id128" ++ [1]).

Definition bt_mesh_identity_key (net_key : list Z) : res (list Z) := bt_mesh_id128 net_key (cstr "nkik").
Definition bt_mesh_beacon_key (net_key : list Z) : res (list Z) := bt_mesh_id128 net_key (cstr "nkbk").
Definition bt_mesh_app_id (app_key : list Z) : res Z := bt_mesh_k4 app_key.
Definition bt_mesh_session_key (dhkey prov_salt : list Z) : res (list Z) := bt_mesh_k1 dhkey prov_salt (cstr "prsk").
Definition bt_mesh_dev_key (dhkey prov_salt : list Z) : res (list Z) := bt_mesh_k1 dhkey prov_salt (cstr "prdk").
Definition bt_mesh_prov_nonce (dhkey prov_salt : list Z) : res (list Z) :=
  let! tmp := bt_mesh_k1 dhkey prov_salt (cstr "prsn") in inr (take 13 (drop 3 tmp)).
Definition bt_mesh_prov_salt (conf_salt prov_rand dev_rand : list Z) : res (list Z) :=
  lift (bt_mesh_aes_cmac (zeros 16) [Some conf_salt; Some prov_rand; Some dev_rand] []).
Definition bt_mesh_prov_conf_salt (conf_inputs : list Z) : res (list Z) := cmac1 (zeros 16) conf_inputs.
Definition bt_mesh_prov_conf_key (dhkey conf_salt : list Z) : res (list Z) := bt_mesh_k1 dhkey conf_salt (cstr "prck").
Definition bt_mesh_prov_conf (conf_key rand_ auth : list Z) : res (list Z) := lift (bt_mesh_aes_cmac conf_key [Some rand_; Some auth] []).

Definition bt_mesh_virtual_addr (virtual_label : list Z) : res Z :=
  let! salt := bt_mesh_s1 (cstr "vtad") in
  let! tmp := cmac1 salt virtual_label in
  inr (Z.lor (Z.land (get_be16 (nth 14 tmp 0) (nth 15 tmp 0)) 16383) 32768).

Definition bt_mesh_beacon_auth (beacon_key : list Z) (flags : Z) (net_id : list Z) (iv_index : Z) : res (list Z) :=
  let! tmp := cmac1 beacon_key (flags :: net_id ++ be32 iv_index) in inr (take 8 tmp).

(** ** AES-CCM *)

(** [E] is the block cipher under the key. *)

(** The key stream block [n]: [e(key, 0x01 || nonce || n)]. *)
Definition ccm_ctr (E : list Z → list Z) (nonce : list Z) (n : Z) : list Z := E (1 :: nonce ++ be16 n).

Definition ccm_x0 (E : list Z → list Z) (nonce : list Z) (msg_len aad_len mic_size : Z) : list Z :=
  E (Z.lor (if mic_size =? 8 then 25 else 9) (if truthy aad_len then 64 else 0) :: nonce ++ be16 msg_len).

Definition nth_xor (Xn d : list Z) (i n : nat) : list Z := map (λ k, Z.lxor (nth k Xn 0) (nth (k - i) d 0)) (seq i n).

(** The while loop over the additional data and the block behind it; [left] is
    [aad_len], [j] the position in the data. *)
Fixpoint ccm_aad_loop (fuel : nat) (E : list Z → list Z) (Xn aad : list Z) (left : nat) : list Z :=
  match fuel with
  | O => Xn
  | S fuel =>
    if Nat.ltb 16 left
    then ccm_aad_loop fuel E (E (nth_xor Xn aad 0 16)) (drop 16 aad) (left - 16)
    else E (nth_xor Xn aad 0 left ++ drop left Xn)
  end.

(** The additional data is the memory from its pointer on, its length a number.  The
    first block holds the length in two bytes, when there is a second block; when
    there is none, the loop behind starts again at the first byte. *)
Definition ccm_aad (E : list Z → list Z) (Xn aad : list Z) (aad_len : nat) : list Z :=
  if Nat.eqb aad_len 0 then Xn else
  let left := (aad_len + 2)%nat in
  if Nat.ltb 16 left then
    let pmsg := nth_xor Xn (be16 (Z.of_nat aad_len)) 0 2 ++ nth_xor Xn aad 2 14 in
    ccm_aad_loop (S aad_len) E (E pmsg) (drop 14 aad) (left - 16)
  else ccm_aad_loop 1 E Xn aad left.

(** [Xn ^ block], the block padded with zeros. *)
Definition xor_pad (Xn m : list Z) : list Z := xor_blk Xn (m ++ zeros (16 - length m)).

(** The loop over the blocks of the message from number [j] on: ciphertext and [Xn].  The
    number of blocks is kept in 16 bits, which is enough below a megabyte; the length
    field has 16 bits, and a mesh message at most 384 bytes. *)
Fixpoint ccm_enc_loop (fuel : nat) (E : list Z → list Z) (nonce : list Z) (j : Z) (msg Xn : list Z) : list Z * list Z :=
  match fuel with
  | O => ([], Xn)
  | S fuel =>
    if Nat.leb (length msg) 16 then
      let Xn := E (xor_pad Xn msg) in
      (xor_blk msg (ccm_ctr E nonce (j + 1)), Xn)
    else
      let Xn := E (xor_blk Xn (take 16 msg)) in
      let '(out, Xn') := ccm_enc_loop fuel E nonce (j + 1) (drop 16 msg) Xn in
      (xor_blk (take 16 msg) (ccm_ctr E nonce (j + 1)) ++ out, Xn')
  end.

(** The same for decryption: the plaintext is what is authenticated. *)
Fixpoint ccm_dec_loop (fuel : nat) (E : list Z → list Z) (nonce : list Z) (j : Z) (enc Xn : list Z) : list Z * list Z :=
  match fuel with
  | O => ([], Xn)
  | S fuel =>
    if Nat.leb (length enc) 16 then
      let msg := xor_blk enc (ccm_ctr E nonce (j + 1)) in
      (msg, E (xor_pad Xn msg))
    else
      let msg := xor_blk (take 16 enc) (ccm_ctr E nonce (j + 1)) in
      let Xn := E (xor_blk Xn msg) in
      let '(out, Xn') := ccm_dec_loop fuel E nonce (j + 1) (drop 16 enc) Xn in
      (msg ++ out, Xn')
  end.

(** [mic0] is what the uninitialised variable [mic] holds: it is used when the message
    is empty. *)
Definition ccm_encrypt (E : list Z → list Z) (mic0 nonce msg aad : list Z) (aad_len mic_size : nat) : Z * list Z :=
  if 65280 <=? Z.of_nat aad_len then (- EINVAL, []) else
  let cmic := ccm_ctr E nonce 0 in
  let Xn := ccm_x0 E nonce (Z.of_nat (length msg)) (Z.of_nat aad_len) (Z.of_nat mic_size) in
  let Xn := ccm_aad E Xn aad aad_len in
  let '(out, mic) :=
    if Nat.eqb (length msg) 0 then ([], mic0) else
    let '(out, Xn) := ccm_enc_loop (length msg) E nonce 0 msg Xn in (out, xor_blk cmic Xn) in
  (0, out ++ take mic_size mic).

(** [enc_msg] is the ciphertext followed by the MIC; the output is written even if the
    MIC is wrong. *)
Definition ccm_decrypt (E : list Z → list Z) (nonce enc_msg : list Z) (msg_len : nat) (aad : list Z) (aad_len mic_size : nat) : Z * list Z :=
  if Nat.ltb msg_len 1 || (65280 <=? Z.of_nat aad_len) then (- EINVAL, []) else
  let cmic := ccm_ctr E nonce 0 in
  let Xn := ccm_x0 E nonce (Z.of_nat msg_len) (Z.of_nat aad_len) (Z.of_nat mic_size) in
  let Xn := ccm_aad E Xn aad aad_len in
  let '(out, Xn) := ccm_dec_loop msg_len E nonce 0 (take msg_len enc_msg) Xn in
  let mic := xor_blk cmic Xn in
  if bool_decide (take mic_size mic = take mic_size (drop msg_len enc_msg)) then (0, out) else (- EBADMSG, out).

Definition bt_mesh_ccm_encrypt (mic0 key nonce msg aad : list Z) (aad_len mic_size : nat) : Z * list Z :=
  ccm_encrypt (aes key) mic0 nonce msg aad aad_len mic_size.
Definition bt_mesh_ccm_decrypt (key nonce enc_msg : list Z) (msg_len : nat) (aad : list Z) (aad_len mic_size : nat) : Z * list Z :=
  ccm_decrypt (aes key) nonce enc_msg msg_len aad aad_len mic_size.

(** ** Network layer *)

Definition NET_MIC_LEN (pdu : list Z) : nat := if truthy (Z.land (nth 1 pdu 0) 128) then 8 else 4.
Definition APP_MIC_LEN (aszmic : Z) : nat := if truthy aszmic then 8 else 4.

Definition create_proxy_nonce (pdu : list Z) (iv_index : Z) : list Z := [3; 0] ++ take 5 (drop 2 pdu) ++ [0; 0] ++ be32 iv_index.
Definition create_net_nonce (pdu : list Z) (iv_index : Z) : list Z := [0] ++ take 6 (drop 1 pdu) ++ [0; 0] ++ be32 iv_index.
Definition net_nonce (proxy : bool) (pdu : list Z) (iv_index : Z) : list Z :=
  if proxy then create_proxy_nonce pdu iv_index else create_net_nonce pdu iv_index.

Definition bt_mesh_net_obfuscate (pdu : list Z) (iv_index : Z) (privacy_key : list Z) : list Z :=
  let priv_rand := zeros 5 ++ be32 iv_index ++ take 7 (drop 7 pdu) in
  let tmp := aes privacy_key priv_rand in
  take 1 pdu ++ xor_blk (take 6 (drop 1 pdu)) (take 6 tmp) ++ drop 7 pdu.

(** The header is not encrypted; the MIC is added to the buffer. *)
Definition bt_mesh_net_encrypt (mic0 key pdu : list Z) (iv_index : Z) (proxy : bool) : Z * list Z :=
  let '(err, out) := bt_mesh_ccm_encrypt mic0 key (net_nonce proxy pdu iv_index) (drop 7 pdu) [] 0 (NET_MIC_LEN pdu) in
  if negb (err =? 0) then (err, pdu) else (err, take 7 pdu ++ out).

(** A PDU here has a header, a payload of at least one byte and the MIC, which
    [bt_mesh_net_decode] checks. *)
Definition bt_mesh_net_decrypt (key pdu : list Z) (iv_index : Z) (proxy : bool) : Z * list Z :=
  let mic_len := NET_MIC_LEN pdu in
  let '(err, out) := bt_mesh_ccm_decrypt key (net_nonce proxy pdu iv_index) (drop 7 pdu) (length pdu - mic_len - 7) [] 0 mic_len in
  (err, take 7 pdu ++ out).

(** ** Application layer *)

Definition create_app_nonce (dev_key : bool) (aszmic src dst seq_num iv_index : Z) : list Z :=
  [if dev_key then 2 else 1] ++ be32 (Z.lor seq_num (u32 (Z.shiftl aszmic 31))) ++ be16 src ++ be16 dst ++ be32 iv_index.

Definition ad_len (ad : option (list Z)) : nat := match ad with Some _ => 16 | None => 0 end.

Definition bt_mesh_app_encrypt (mic0 key : list Z) (dev_key : bool) (aszmic : Z) (buf : list Z) (ad : option (list Z)) (src dst seq_num iv_index : Z) : Z * list Z :=
  let nonce := create_app_nonce dev_key aszmic src dst seq_num iv_index in
  let '(err, out) := bt_mesh_ccm_encrypt mic0 key nonce buf (default [] ad) (ad_len ad) (APP_MIC_LEN aszmic) in
  if negb (err =? 0) then (err, buf) else (err, out).

(** [buf] is the ciphertext, the MIC lies behind it in memory: [mem] is both. *)
Definition bt_mesh_app_decrypt (key : list Z) (dev_key : bool) (aszmic : Z) (mem : list Z) (len : nat) (ad : option (list Z)) (src dst seq_num iv_index : Z) : Z * list Z :=
  let nonce := create_app_nonce dev_key aszmic src dst seq_num iv_index in
  bt_mesh_ccm_decrypt key nonce mem len (default [] ad) (ad_len ad) (APP_MIC_LEN aszmic).

(** ** Provisioning *)

Definition bt_mesh_prov_decrypt (key nonce data : list Z) : Z * list Z := bt_mesh_ccm_decrypt key nonce data 25 [] 0 8.

(** The table of the reflected CRC-8 with polynomial 7. *)
Definition crc_table : list Z := [
   0; 145; 227; 114; 7; 150; 228; 117; 14; 159; 237; 124; 9; 152; 234; 123;
   28; 141; 255; 110; 27; 138; 248; 105; 18; 131; 241; 96; 21; 132; 246; 103;
   56; 169; 219; 74; 63; 174; 220; 77; 54; 167; 213; 68; 49; 160; 210; 67;
   36; 181; 199; 86; 35; 178; 192; 81; 42; 187; 201; 88; 45; 188; 206; 95;
   112; 225; 147; 2; 119; 230; 148; 5; 126; 239; 157; 12; 121; 232; 154; 11;
   108; 253; 143; 30; 107; 250; 136; 25; 98; 243; 129; 16; 101; 244; 134; 23;
   72; 217; 171; 58; 79; 222; 172; 61; 70; 215; 165; 52; 65; 208; 162; 51;
   84; 197; 183; 38; 83; 194; 176; 33; 90; 203; 185; 40; 93; 204; 190; 47;
   224; 113; 3; 146; 231; 118; 4; 149; 238; 127; 13; 156; 233; 120; 10; 155;
   252; 109; 31; 142; 251; 106; 24; 137; 242; 99; 17; 128; 245; 100; 22; 135;
   216; 73; 59; 170; 223; 78; 60; 173; 214; 71; 53; 164; 209; 64; 50; 163;
   196; 85; 39; 182; 195; 82; 32; 177; 202; 91; 41; 184; 205; 92; 46; 191;
   144; 1; 115; 226; 151; 6; 116; 229; 158; 15; 125; 236; 153; 8; 122; 235;
   140; 29; 111; 254; 139; 26; 104; 249; 130; 19; 97; 240; 133; 20; 102; 247;
   168; 57; 75; 218; 175; 62; 76; 221; 166; 55; 69; 212; 161; 48; 66; 211;
   180; 37; 87; 198; 179; 34; 80; 193; 186; 43; 89; 200; 189; 44; 94; 207].
Definition fcs_step (fcs d : Z) : Z := look crc_table (Z.lxor fcs d).
(** The length is a [u8_t]: at most 255 bytes. *)
Definition bt_mesh_fcs_calc (data : list Z) : Z := 255 - fold_left fcs_step data 255.
Definition bt_mesh_fcs_check (data : list Z) (received_fcs : Z) : bool := look crc_table (Z.lxor (fold_left fcs_step data 255) received_fcs) =? 207.

(** ** Sample data of the mesh profile specification, chapter 8 *)

Definition hex_key : list Z := [247; 162; 164; 79; 142; 138; 128; 41; 6; 79; 23; 61; 220; 30; 43; 0].
(** 8.1.3: k2 of the master security material: NID, encryption key, privacy key. *)
Example k2_sample : bt_mesh_k2 hex_key [0] =
  inr (127, [159; 88; 145; 129; 160; 245; 13; 231; 60; 128; 112; 199; 166; 210; 127; 70],
            [76; 113; 91; 212; 166; 75; 147; 143; 153; 180; 83; 53; 22; 83; 18; 79]).
Proof. vm_compute. reflexivity. Qed.

(** 8.3.1: a friend request, as it is sent. *)
Definition sample_enc : list Z := [9; 83; 250; 147; 231; 202; 172; 150; 56; 245; 136; 32; 34; 10; 57; 142].
Definition sample_priv : list Z := [139; 132; 238; 222; 193; 0; 6; 125; 103; 9; 113; 221; 42; 167; 0; 207].
Example net_sample :
  let iv := 305419896 in (* 0x12345678 *)
  let pdu := [104; 128; 0; 0; 1; 18; 1; 255; 253; 3; 75; 80; 5; 126; 64; 0; 0; 1; 0; 0] in
  let '(r, c) := bt_mesh_net_encrypt [] sample_enc pdu iv false in
  r = 0 /\ bt_mesh_net_obfuscate c iv sample_priv =
    [104; 236; 164; 135; 81; 103; 101; 181; 229; 191; 218; 203; 175; 108; 183; 251; 107; 255; 135; 31; 3; 84; 68; 206; 131; 166; 112; 223].
Proof. vm_compute. split; reflexivity. Qed.
