(* ===== verification/MeshCryptoProps.v ===== *)
(** * MeshCryptoProps: AES-CCM, obfuscation and the frame check sequence

    Decryption inverts encryption, on every layer; the blockwise loops compute CCM as
    RFC 3610 defines it; obfuscation is its own inverse; the frame check sequence
    accepts what it was computed for and nothing that differs in one byte. *)
From Stdlib Require Import ZArith Lia List Bool.
From stdpp Require Import base list numbers option.
From S2P Require Import Prelude Env Aes Cmac MeshCrypto.
Local Open Scope Z_scope.

(** ** Lengths *)

Lemma shift_rows_length s : length (shift_rows s) = 16%nat.
Proof. done. Qed.

Lemma encrypt_block_length words b : length words = (Nb * (Nr + 1))%nat → length (encrypt_block words b) = 16%nat.
Proof.
  intros H. unfold encrypt_block, add_round_key at 1. rewrite length_zip_with, shift_rows_length, word_bytes_length, length_take, length_drop, H. done.
Qed.

Lemma aes_length key b : length (aes key b) = 16%nat.
Proof. apply encrypt_block_length, key_schedule_length. Qed.

(** A block cipher gives blocks. *)
Section Cipher.
Context (E : list Z → list Z).
Hypothesis E_length : forall b, length (E b) = 16%nat.

Lemma ctr_length nonce n : length (ccm_ctr E nonce n) = 16%nat.
Proof. apply E_length. Qed.

Lemma xor_blk_length a b : (length a <= length b)%nat → length (xor_blk a b) = length a.
Proof. intros H. unfold xor_blk. rewrite length_zip_with. lia. Qed.

Lemma xor_blk_cancel a b : (length a <= length b)%nat → xor_blk (xor_blk a b) b = a.
Proof.
  revert b. induction a as [|x a IH]; intros [|y b] H; cbn in *; try done; [lia|]. unfold xor_blk in *. cbn. by rewrite lxor_cancel, IH by lia.
Qed.

(** ** The loops *)

Lemma enc_loop_length n nonce j msg Xn : (1 <= length msg <= n)%nat → length (fst (ccm_enc_loop n E nonce j msg Xn)) = length msg.
Proof.
  revert j msg Xn. induction n as [|n IH]; intros j msg Xn H; [lia|]. cbn [ccm_enc_loop]. destruct (Nat.leb_spec (length msg) 16) as [L|L].
  - cbn [fst]. apply xor_blk_length. rewrite ctr_length. lia.
  - specialize (IH (j + 1) (drop 16 msg) (E (xor_blk Xn (take 16 msg)))). rewrite length_drop in IH. specialize (IH ltac:(lia)).
    destruct (ccm_enc_loop n _ _ _ _ _) as [out X]. cbn [fst] in *. rewrite length_app, xor_blk_length, length_take by (rewrite ctr_length, length_take; lia). lia.
Qed.

Lemma enc_loop_chain n nonce j msg Xn : (1 <= length msg <= n)%nat → length (snd (ccm_enc_loop n E nonce j msg Xn)) = 16%nat.
Proof.
  revert j msg Xn. induction n as [|n IH]; intros j msg Xn H; [lia|]. cbn [ccm_enc_loop]. destruct (Nat.leb_spec (length msg) 16) as [L|L]; [apply E_length|].
  specialize (IH (j + 1) (drop 16 msg) (E (xor_blk Xn (take 16 msg)))). rewrite length_drop in IH. specialize (IH ltac:(lia)).
  by destruct (ccm_enc_loop n _ _ _ _ _).
Qed.

(** Decrypting the ciphertext passes through the same chain. *)
Lemma dec_enc_loop n nonce j msg Xn : (1 <= length msg <= n)%nat →
  ccm_dec_loop n E nonce j (fst (ccm_enc_loop n E nonce j msg Xn)) Xn = (msg, snd (ccm_enc_loop n E nonce j msg Xn)).
Proof.
  revert j msg Xn. induction n as [|n IH]; intros j msg Xn H; [lia|]. pose proof (enc_loop_length (S n) nonce j msg Xn H) as HL.
  cbn [ccm_dec_loop]. rewrite HL. clear HL. cbn [ccm_enc_loop]. destruct (Nat.leb_spec (length msg) 16) as [L|L].
  - cbn [fst snd]. by rewrite xor_blk_cancel by (rewrite ctr_length; lia).
  - specialize (IH (j + 1) (drop 16 msg) (E (xor_blk Xn (take 16 msg)))). rewrite length_drop in IH. specialize (IH ltac:(lia)).
    assert (length (xor_blk (take 16 msg) (ccm_ctr E nonce (j + 1))) = 16%nat) as L16 by (rewrite xor_blk_length; rewrite ?ctr_length, length_take; lia).
    destruct (ccm_enc_loop n _ _ _ _ _) as [out X]. cbn [fst snd] in *. rewrite take_app_length', drop_app_length' by done.
    rewrite xor_blk_cancel by (rewrite ctr_length, length_take; lia). rewrite IH. by rewrite take_drop.
Qed.

Lemma ccm_crypt mic0 nonce msg aad aad_len mic_size : (1 <= length msg)%nat → Z.of_nat aad_len < 65280 → (mic_size <= 16)%nat →
  exists c, ccm_encrypt E mic0 nonce msg aad aad_len mic_size = (0, c) /\ length c = (length msg + mic_size)%nat /\
  ccm_decrypt E nonce c (length msg) aad aad_len mic_size = (0, msg).
Proof.
  intros Hm Ha Hs. unfold ccm_encrypt, ccm_decrypt. rewrite (proj2 (Z.leb_gt _ _) Ha). rewrite orb_false_r.
  destruct (Nat.eqb_spec (length msg) 0); [lia|]. destruct (Nat.ltb_spec (length msg) 1); [lia|].
  set (X0 := ccm_aad _ _ _ _). pose proof (enc_loop_length (length msg) nonce 0 msg X0 ltac:(lia)) as HL.
  pose proof (dec_enc_loop (length msg) nonce 0 msg X0 ltac:(lia)) as HD. destruct (ccm_enc_loop _ _ _ _ _ _) as [out X] eqn:EL. cbn [fst snd] in *.
  pose proof (enc_loop_chain (length msg) nonce 0 msg X0 ltac:(lia)) as HX. rewrite EL in HX. cbn [snd] in HX.
  eexists. split; [reflexivity|]. split; [rewrite length_app, length_take, HL, xor_blk_length; rewrite ctr_length; lia|].
  rewrite take_app_length', drop_app_length' by done. rewrite HD.
  by rewrite bool_decide_eq_true_2 by (by rewrite take_take, Nat.min_id).
Qed.

(** ** CCM as RFC 3610 defines it *)

Fixpoint chunks (fuel : nat) (m : list Z) : list (list Z) :=
  match fuel, m with
  | S fuel, _ :: _ => take 16 m :: chunks fuel (drop 16 m)
  | _, _ => []
  end.
Definition pad16 (b : list Z) : list Z := b ++ zeros (16 - length b).
(** A string of bytes as blocks, the last one padded with zeros. *)
Definition padded (m : list Z) : list (list Z) := map pad16 (chunks (length m) m).
Definition chain (X : list Z) (bs : list (list Z)) : list Z := fold_left (λ x b, E (xor_blk x b)) bs X.
(** A number in two bytes, most significant first. *)
Definition two_bytes (n : Z) : list Z := [n / 256 mod 256; n mod 256].
(** The key stream of RFC 3610, section 2.3: S_i is the encryption of A_i, which is the flags (the size
    of the length field minus one), the nonce and the number of the block. *)
Definition counter_block (nonce : list Z) (i : Z) : list Z := (2 - 1) :: nonce ++ two_bytes i.
Definition key_block (nonce : list Z) (i : Z) : list Z := E (counter_block nonce i).
Definition stream (nonce : list Z) (j : Z) (n : nat) : list Z := concat (map (λ i, key_block nonce (j + Z.of_nat i)) (seq 1 n)).

(** Two bytes of length, MIC of [M] bytes, nonce of thirteen bytes. *)
Definition ccm_ref (nonce msg aad : list Z) (M : nat) : list Z :=
  let flags := (if bool_decide (aad = []) then 0 else 64) + 8 * ((Z.of_nat M - 2) / 2) + 1 in
  let b0 := flags :: nonce ++ two_bytes (Z.of_nat (length msg)) in
  let auth := if bool_decide (aad = []) then [] else padded (two_bytes (Z.of_nat (length aad)) ++ aad) in
  let T := chain (zeros 16) (b0 :: auth ++ padded msg) in
  xor_blk msg (stream nonce 0 (length (padded msg))) ++ take M (xor_blk (key_block nonce 0) T).

Lemma be16_two_bytes n : be16 n = two_bytes n.
Proof. unfold be16, two_bytes. rewrite Z.shiftr_div_pow2 by lia. change 255 with (Z.ones 8). by rewrite !Z.land_ones by lia. Qed.
Lemma ctr_key_block nonce n : ccm_ctr E nonce n = key_block nonce n.
Proof. unfold ccm_ctr, key_block, counter_block. by rewrite be16_two_bytes. Qed.

Lemma pad16_full b : length b = 16%nat → pad16 b = b.
Proof. intros H. unfold pad16. rewrite H. apply app_nil_r. Qed.

Lemma chunks_small n m : (1 <= length m <= 16)%nat → (length m <= n)%nat → chunks n m = [m].
Proof.
  intros H Hn. destruct n as [|n]; [lia|]. destruct m as [|x m]; [cbn in H; lia|]. cbn [chunks]. rewrite take_ge, drop_ge by lia. by destruct n.
Qed.

Lemma chunks_more n m : (16 < length m)%nat → chunks (S n) m = take 16 m :: chunks n (drop 16 m).
Proof. destruct m; [cbn; lia | done]. Qed.

Lemma chunks_fuel n n' m : (length m <= n)%nat → (length m <= n')%nat → chunks n m = chunks n' m.
Proof.
  revert n' m. induction n as [|n IH]; intros n' m H H'; [destruct m; [by destruct n' | cbn in H; lia]|].
  destruct m as [|x m]; [by destruct n'|]. destruct n' as [|n']; [cbn in H'; lia|]. cbn [chunks]. f_equal. apply IH; rewrite length_drop; cbn [length] in *; lia.
Qed.

Lemma xor_blk_app a b c d : length a = length c → xor_blk (a ++ b) (c ++ d) = xor_blk a c ++ xor_blk b d.
Proof. apply zip_with_app. Qed.

Lemma stream_cons nonce j n : stream nonce j (S n) = key_block nonce (j + 1) ++ stream nonce (j + 1) n.
Proof.
  unfold stream. cbn [seq map concat]. change (Z.of_nat 1) with 1. apply (f_equal (app _)), (f_equal (@concat Z)).
  rewrite <- (seq_shift n 1), map_map. apply map_ext. intros i. apply (f_equal (key_block nonce)). lia.
Qed.

(** The loop over the message is counter mode next to the chain. *)
Lemma enc_loop_ref n nonce j msg X : (1 <= length msg <= n)%nat →
  ccm_enc_loop n E nonce j msg X = (xor_blk msg (stream nonce j (length (chunks n msg))), chain X (map pad16 (chunks n msg))).
Proof.
  revert j msg X. induction n as [|n IH]; intros j msg X H; [lia|]. cbn [ccm_enc_loop]. rewrite ctr_key_block. destruct (Nat.leb_spec (length msg) 16) as [L|L].
  - rewrite chunks_small by lia. cbn [length map chain fold_left]. unfold stream. cbn [seq map concat]. by rewrite app_nil_r.
  - rewrite chunks_more by lia. rewrite IH by (rewrite length_drop; lia). cbn [length map chain fold_left]. rewrite stream_cons. apply (f_equal2 pair).
    + rewrite <- xor_blk_app by (rewrite <- ctr_key_block, ctr_length, length_take; lia). by rewrite take_drop.
    + by rewrite (pad16_full (take 16 msg)) by (rewrite length_take; lia).
Qed.

Lemma map_nth_xor A B n : (n <= length A)%nat → (n <= length B)%nat →
  map (λ k, Z.lxor (nth k A 0) (nth k B 0)) (seq 0 n) = xor_blk (take n A) (take n B).
Proof.
  revert A B. induction n as [|n IH]; intros A B HA HB; [done|]. destruct A as [|x A], B as [|y B]; cbn in HA, HB; try lia.
  cbn [seq map nth take]. unfold xor_blk in *. cbn [zip_with]. f_equal. rewrite <- (seq_shift n 0), map_map. apply IH; lia.
Qed.

Lemma seq_add i n : seq i n = map (Nat.add i) (seq 0 n).
Proof. induction i as [|i IH]; [symmetry; apply map_id|]. rewrite <- seq_shift, IH, map_map. done. Qed.

Lemma nth_xor_spec X d i n : (i + n <= length X)%nat → (n <= length d)%nat → nth_xor X d i n = xor_blk (take n (drop i X)) (take n d).
Proof.
  intros HX Hd. rewrite <- map_nth_xor by (rewrite ?length_drop; lia). unfold nth_xor. rewrite seq_add, map_map.
  apply map_ext. intros k. replace (i + k - i)%nat with k by lia. f_equal. rewrite !nth_lookup, lookup_drop. done.
Qed.

Lemma xor_zeros X n : length X = n → xor_blk X (zeros n) = X.
Proof. intros <-. induction X as [|x X IH]; [done|]. unfold xor_blk, zeros in *. cbn. by rewrite Z.lxor_0_r, IH. Qed.

(** A block that is not full. *)
Lemma short_block X d n : length X = 16%nat → length d = n → (n <= 16)%nat → nth_xor X d 0 n ++ drop n X = xor_blk X (pad16 d).
Proof.
  intros HX Hd Hn. rewrite nth_xor_spec by lia. rewrite drop_0, (take_ge d) by lia. unfold pad16.
  rewrite <- (xor_zeros (drop n X) (16 - n)) by (rewrite length_drop; lia). rewrite <- xor_blk_app by (rewrite length_take; lia). by rewrite take_drop, Hd.
Qed.

Lemma aad_loop_ref n X aad : length X = 16%nat → (1 <= length aad)%nat → (length aad <= n)%nat →
  ccm_aad_loop (S n) E X aad (length aad) = chain X (padded aad).
Proof.
  unfold padded. revert X aad. induction n as [|n IH]; intros X aad HX H1 Hn; [lia|]. cbn [ccm_aad_loop]. destruct (Nat.ltb_spec 16 (length aad)) as [L|L].
  - replace (length aad - 16)%nat with (length (drop 16 aad)) by (rewrite length_drop; lia). specialize (IH (E (nth_xor X aad 0 16)) (drop 16 aad)).
    cbn [ccm_aad_loop] in IH. rewrite IH; [|apply E_length | rewrite length_drop; lia | rewrite length_drop; lia].
    destruct (length aad) as [|m] eqn:Em; [lia|]. rewrite chunks_more by lia. cbn [map chain fold_left].
    rewrite (chunks_fuel (length (drop 16 aad)) m) by (rewrite length_drop; lia).
    apply (f_equal (λ b, chain (E b) _)). rewrite nth_xor_spec, drop_0, (take_ge X) by lia. by rewrite pad16_full by (rewrite length_take; lia).
  - rewrite chunks_small by lia. cbn [map chain fold_left]. by rewrite short_block.
Qed.

Lemma ccm_aad_ref X aad : length X = 16%nat → aad = [] \/ (15 <= length aad)%nat →
  ccm_aad E X aad (length aad) = chain X (if bool_decide (aad = []) then [] else padded (two_bytes (Z.of_nat (length aad)) ++ aad)).
Proof.
  intros HX Ha. unfold ccm_aad. rewrite be16_two_bytes. destruct Ha as [-> |Ha]; [done|]. destruct (Nat.eqb_spec (length aad) 0); [lia|].
  rewrite bool_decide_eq_false_2 by (intros ->; cbn in Ha; lia). cbv zeta. destruct (Nat.ltb_spec 16 (length aad + 2)); [|lia].
  set (len := two_bytes (Z.of_nat (length aad))). assert (length len = 2%nat) as Hlen by done.
  replace (length aad + 2 - 16)%nat with (length (drop 14 aad)) by (rewrite length_drop; lia).
  rewrite aad_loop_ref; [|apply E_length | rewrite length_drop; lia | rewrite length_drop; lia].
  unfold padded. rewrite length_app, Hlen. cbn [Nat.add]. rewrite chunks_more by (rewrite length_app; lia). cbn [map chain fold_left].
  replace (take 16 (len ++ aad)) with (len ++ take 14 aad) by (symmetry; rewrite take_app_ge by lia; by rewrite Hlen).
  replace (drop 16 (len ++ aad)) with (drop 14 aad) by (symmetry; rewrite drop_app_ge by lia; by rewrite Hlen).
  rewrite (chunks_fuel (length (drop 14 aad)) (S (length aad))) by (rewrite length_drop; lia).
  apply (f_equal (λ b, chain (E b) _)). rewrite !nth_xor_spec by lia. rewrite drop_0. rewrite (take_ge len) by lia. rewrite pad16_full by (rewrite length_app, length_take; lia).
  rewrite (take_ge (drop 2 X)) by (rewrite length_drop; lia). rewrite <- xor_blk_app by (rewrite length_take; lia). by rewrite take_drop.
Qed.

Lemma ccm_rfc mic0 nonce msg aad M : length nonce = 13%nat → (1 <= length msg)%nat → aad = [] \/ (15 <= length aad)%nat →
  Z.of_nat (length aad) < 65280 → M = 4%nat \/ M = 8%nat → ccm_encrypt E mic0 nonce msg aad (length aad) M = (0, ccm_ref nonce msg aad M).
Proof.
  intros Hn Hm Ha Hl HM. unfold ccm_encrypt. rewrite (proj2 (Z.leb_gt _ _) Hl). destruct (Nat.eqb_spec (length msg) 0); [lia|].
  rewrite ccm_aad_ref by (apply E_length || done). rewrite enc_loop_ref by lia. unfold ccm_ref. cbv zeta. rewrite ctr_key_block. unfold ccm_x0. rewrite be16_two_bytes. apply (f_equal (pair 0)). unfold padded at 2 3. rewrite length_map.
  apply (f_equal (λ t, _ ++ take M (xor_blk _ t))). cbn [chain fold_left]. rewrite fold_left_app.
  apply (f_equal (λ x, chain (chain (E x) _) _)).
  replace (xor_blk (zeros 16) _) with (((if bool_decide (aad = []) then 0 else 64) + 8 * ((Z.of_nat M - 2) / 2) + 1) :: nonce ++ two_bytes (Z.of_nat (length msg))).
  - f_equal. unfold truthy. destruct (bool_decide_reflect (aad = [])) as [-> |Na]; [destruct HM as [-> | ->]; done|].
    destruct (Z.eqb_spec (Z.of_nat (length aad)) 0); [destruct aad; [done | cbn in *; lia]|]. destruct HM as [-> | ->]; done.
  - set (b0 := _ :: _). assert (length b0 = 16%nat) as L by (cbn [b0 length]; rewrite length_app, Hn; done). clearbody b0.
    unfold xor_blk, zeros. rewrite <- L. clear L. induction b0 as [|x b0 IH]; [done|]. cbn. by rewrite <- IH.
Qed.

End Cipher.

#[local] Opaque aes.

(** CCM decrypts what it encrypted: for every key, nonce, additional data, message of at least one byte and MIC of four or eight bytes, encryption succeeds and adds the MIC, and decryption accepts the MIC and gives the message back. *)
Theorem ccm_roundtrip mic0 key nonce msg aad aad_len mic_size : 1 <= Z.of_nat (length msg) < 65536 → Z.of_nat aad_len < 65280 → (mic_size <= 16)%nat →
  exists c, bt_mesh_ccm_encrypt mic0 key nonce msg aad aad_len mic_size = (0, c) /\ length c = (length msg + mic_size)%nat /\
  bt_mesh_ccm_decrypt key nonce c (length msg) aad aad_len mic_size = (0, msg).
Proof. intros H. apply (ccm_crypt (aes key) (aes_length key)). lia. Qed.

(** [C30] The loops compute CCM as RFC 3610 defines it, with a two-byte length and a nonce of thirteen bytes: the ciphertext is the message under the key stream of the counter blocks, and the MIC is the chain over the first block, the length-prefixed additional data and the padded message under the key block of counter 0, for every message of 1 to 65535 bytes, MICs of 4 and 8 bytes, and additional data that is absent or 15 to 65279 bytes long.  (For shorter additional data see [ccm_short_aad], for the empty message [ccm_empty_message].) *)
Theorem ccm_is_rfc3610 mic0 key nonce msg aad M : length nonce = 13%nat → 1 <= Z.of_nat (length msg) < 65536 → aad = [] \/ (15 <= length aad)%nat →
  Z.of_nat (length aad) < 65280 → M = 4%nat \/ M = 8%nat →
  bt_mesh_ccm_encrypt mic0 key nonce msg aad (length aad) M = (0, ccm_ref (aes key) nonce msg aad M).
Proof. intros Hn H. apply (ccm_rfc (aes key) (aes_length key)); [done | lia]. Qed.

(** Of an empty message the MIC is not computed: the bytes that happen to be in the variable are taken. *)
Lemma ccm_empty_message mic0 key nonce aad n M : Z.of_nat n < 65280 → bt_mesh_ccm_encrypt mic0 key nonce [] aad n M = (0, take M mic0).
Proof. intros H. unfold bt_mesh_ccm_encrypt, ccm_encrypt. by rewrite (proj2 (Z.leb_gt _ _) H). Qed.

(** With short additional data the code differs: the loop over the last block starts at
    its first byte again, overwrites the length and reads two bytes behind the data. *)
Example ccm_short_aad : let mem := map Z.of_nat (seq 0 16) in
  snd (bt_mesh_ccm_encrypt [] (zeros 16) (zeros 13) [1] mem 9 4) ≠ ccm_ref (aes (zeros 16)) (zeros 13) [1] (take 9 mem) 4.
Proof. vm_compute. discriminate. Qed.

(** ** The network layer *)

(** Obfuscation masks six bytes of the header with a value computed from the rest. *)
Definition mask (iv : Z) (key tail : list Z) : list Z := take 6 (aes key (zeros 5 ++ be32 iv ++ take 7 tail)).
Lemma mask_length iv key tail : length (mask iv key tail) = 6%nat.
Proof. unfold mask. by rewrite length_take, aes_length. Qed.

Lemma obfuscate_eq h b t iv key : length h = 1%nat → length b = 6%nat →
  bt_mesh_net_obfuscate (h ++ b ++ t) iv key = h ++ xor_blk b (mask iv key t) ++ t.
Proof.
  intros Hh Hb. unfold bt_mesh_net_obfuscate. cbv zeta. replace (drop 7 (h ++ b ++ t)) with t.
  - rewrite take_app_length', drop_app_length' by done. rewrite take_app_length' by done. done.
  - rewrite app_assoc, drop_app_length'; [done|]. rewrite length_app. lia.
Qed.

Lemma pdu_split (pdu : list Z) : (7 <= length pdu)%nat → exists h b t, pdu = h ++ b ++ t /\ length h = 1%nat /\ length b = 6%nat /\ t = drop 7 pdu.
Proof.
  intros H. exists (take 1 pdu), (take 6 (drop 1 pdu)), (drop 7 pdu). split_and!; [|rewrite length_take; lia | rewrite length_take, length_drop; lia | done].
  replace (drop 7 pdu) with (drop 6 (drop 1 pdu)) by (by rewrite drop_drop). by rewrite !take_drop.
Qed.

Lemma obfuscate_twice pdu iv key : (7 <= length pdu)%nat → bt_mesh_net_obfuscate (bt_mesh_net_obfuscate pdu iv key) iv key = pdu.
Proof.
  intros H. destruct (pdu_split pdu H) as (h & b & t & -> & Hh & Hb & _). rewrite (obfuscate_eq h b t) by done.
  rewrite obfuscate_eq by (done || (rewrite xor_blk_length; rewrite ?mask_length; lia)). by rewrite xor_blk_cancel by (rewrite mask_length; lia).
Qed.

(** Obfuscation keeps the length, the first byte and everything behind the header. *)
Lemma obfuscate_shape pdu iv key : (7 <= length pdu)%nat → length (bt_mesh_net_obfuscate pdu iv key) = length pdu /\
  nth 0 (bt_mesh_net_obfuscate pdu iv key) 0 = nth 0 pdu 0 /\ drop 7 (bt_mesh_net_obfuscate pdu iv key) = drop 7 pdu.
Proof.
  intros H. destruct (pdu_split pdu H) as (h & b & t & -> & Hh & Hb & Ht). rewrite obfuscate_eq by done.
  assert (length (xor_blk b (mask iv key t)) = 6%nat) as L6 by (rewrite xor_blk_length; rewrite ?mask_length; lia). split; [|split].
  - rewrite !length_app. lia.
  - by destruct h.
  - rewrite !app_assoc, !drop_app_length'; [done | rewrite length_app; lia..].
Qed.

Lemma net_crypt_roundtrip mic0 key pdu iv proxy : (8 <= length pdu)%nat →
  exists c, bt_mesh_net_encrypt mic0 key pdu iv proxy = (0, take 7 pdu ++ c) /\ length c = (length pdu - 7 + NET_MIC_LEN pdu)%nat /\
  bt_mesh_net_decrypt key (take 7 pdu ++ c) iv proxy = (0, pdu).
Proof.
  intros H. unfold bt_mesh_net_encrypt, bt_mesh_ccm_encrypt. destruct (ccm_crypt (aes key) (aes_length key) mic0 (net_nonce proxy pdu iv) (drop 7 pdu) [] 0 (NET_MIC_LEN pdu)) as (c & E & L & D).
  { rewrite length_drop. lia. } { done. } { unfold NET_MIC_LEN. destruct (truthy _); lia. }
  rewrite E. exists c. cbn [Z.eqb negb]. split; [done|]. rewrite length_drop in L, D. split; [done|].
  assert (length (take 7 pdu) = 7%nat) as L7 by (rewrite length_take; lia).
  assert (NET_MIC_LEN (take 7 pdu ++ c) = NET_MIC_LEN pdu) as Em by (do 2 (destruct pdu as [|? pdu]; [cbn in H; lia|]); done).
  assert (net_nonce proxy (take 7 pdu ++ c) iv = net_nonce proxy pdu iv) as En by (do 7 (destruct pdu as [|? pdu]; [cbn in H; lia|]); by destruct proxy).
  unfold bt_mesh_net_decrypt, bt_mesh_ccm_decrypt. cbv zeta. rewrite Em, En, drop_app_length', take_app_length' by done.
  replace (length (take 7 pdu ++ c) - NET_MIC_LEN pdu - 7)%nat with (length pdu - 7)%nat by (rewrite length_app; lia). rewrite D. by rewrite take_drop.
Qed.

(** ** The application layer *)

Lemma app_crypt_roundtrip mic0 key dev aszmic buf ad src dst seq iv : (1 <= length buf)%nat →
  exists c, bt_mesh_app_encrypt mic0 key dev aszmic buf ad src dst seq iv = (0, c) /\ length c = (length buf + APP_MIC_LEN aszmic)%nat /\
  bt_mesh_app_decrypt key dev aszmic c (length buf) ad src dst seq iv = (0, buf).
Proof.
  intros H. unfold bt_mesh_app_encrypt, bt_mesh_app_decrypt, bt_mesh_ccm_encrypt, bt_mesh_ccm_decrypt. cbv zeta.
  destruct (ccm_crypt (aes key) (aes_length key) mic0 (create_app_nonce dev aszmic src dst seq iv) buf (default [] ad) (ad_len ad) (APP_MIC_LEN aszmic)) as (c & -> & L & D).
  { done. } { by destruct ad. } { unfold APP_MIC_LEN. destruct (truthy _); lia. }
  exists c. by rewrite D.
Qed.

(** ** Forged copies *)

(** The MIC is compared in full: what decrypts with one last byte decrypts with no other. *)
Lemma ccm_tampered E nonce b x y msg_len aad aad_len M : (length b + 1 = msg_len + M)%nat → (1 <= M)%nat → x ≠ y →
  fst (ccm_decrypt E nonce (b ++ [x]) msg_len aad aad_len M) = 0 → fst (ccm_decrypt E nonce (b ++ [y]) msg_len aad aad_len M) = - EBADMSG.
Proof.
  intros L HM N. unfold ccm_decrypt. destruct (_ || _); [done|]. cbv zeta. rewrite !take_app_le, !drop_app_le by lia.
  destruct (ccm_dec_loop _ _ _ _ _ _) as [o X]. rewrite !(take_ge (drop msg_len b ++ _)) by (rewrite length_app, length_drop; cbn; lia).
  destruct (decide (take M (xor_blk (ccm_ctr E nonce 0) X) = drop msg_len b ++ [x])) as [->|].
  - intros _. rewrite bool_decide_eq_false_2; [done|]. by intros [_ ?]%app_inj_tail.
  - rewrite bool_decide_eq_false_2 by done. discriminate.
Qed.

Lemma net_tampered key b x y iv proxy : (7 + NET_MIC_LEN b <= length b)%nat → x ≠ y →
  fst (bt_mesh_net_decrypt key (b ++ [x]) iv proxy) = 0 → fst (bt_mesh_net_decrypt key (b ++ [y]) iv proxy) = - EBADMSG.
Proof.
  intros L N. assert (7 <= length b)%nat as L7 by lia. assert (1 <= NET_MIC_LEN b)%nat as L1 by (unfold NET_MIC_LEN; destruct (truthy _); lia).
  assert (forall z, NET_MIC_LEN (b ++ [z]) = NET_MIC_LEN b /\ net_nonce proxy (b ++ [z]) iv = net_nonce proxy b iv) as Eb by (intros z; do 7 (destruct b as [|? b]; [cbn in L7; lia|]); by destruct proxy).
  unfold bt_mesh_net_decrypt, bt_mesh_ccm_decrypt. cbv zeta. destruct (Eb x) as [-> ->], (Eb y) as [-> ->]. rewrite !length_app. cbn [length]. rewrite !(drop_app_le b) by lia.
  pose proof (ccm_tampered (aes key) (net_nonce proxy b iv) (drop 7 b) x y (length b + 1 - NET_MIC_LEN b - 7) [] 0 (NET_MIC_LEN b)) as T. rewrite length_drop in T. specialize (T ltac:(lia) L1 N).
  destruct (ccm_decrypt _ _ (drop 7 b ++ [x]) _ _ _ _), (ccm_decrypt _ _ (drop 7 b ++ [y]) _ _ _ _). exact T.
Qed.

(** Obfuscation does not look at the last byte of a long PDU. *)
Lemma obfuscate_last b x iv key : (14 <= length b)%nat → bt_mesh_net_obfuscate (b ++ [x]) iv key = bt_mesh_net_obfuscate b iv key ++ [x].
Proof.
  intros L. unfold bt_mesh_net_obfuscate. cbv zeta. rewrite !take_app_le, !drop_app_le by (rewrite ?length_drop; lia). rewrite !take_app_le by (rewrite ?length_drop; lia). by rewrite !app_assoc.
Qed.

(** ** The frame check sequence *)

Lemma crc_table_byte x : is_u8 x → is_u8 (look crc_table x).
Proof. intros H. pose proof (byte_forall (λ x, (0 <=? look crc_table x) && (look crc_table x <? 256)) eq_refl x H) as E. cbn beta in E. lia. Qed.

Lemma crc_table_inj x y : is_u8 x → is_u8 y → look crc_table x = look crc_table y → x = y.
Proof.
  intros Hx Hy E. pose proof (byte_forall (λ x, forallb (λ y, negb (look crc_table x =? look crc_table y) || (x =? y)) bytes256) ltac:(vm_compute; reflexivity) x Hx) as H.
  cbn beta in H. rewrite forallb_forall in H. specialize (H y (in_bytes256 y Hy)). lia.
Qed.

Lemma fcs_fold_byte data c : all_u8 data → is_u8 c → is_u8 (fold_left fcs_step data c).
Proof. intros H. revert c. induction H as [|x data Hx H IH]; intros c Hc; [done|]. cbn [fold_left]. apply IH. apply crc_table_byte, lxor_byte; done. Qed.

Lemma lxor_inj_l a b x : Z.lxor a x = Z.lxor b x → a = b.
Proof. intros E. rewrite <- (lxor_cancel a x), E. apply lxor_cancel. Qed.

Lemma fcs_fold_inj data a b : all_u8 data → is_u8 a → is_u8 b → fold_left fcs_step data a = fold_left fcs_step data b → a = b.
Proof.
  intros H. revert a b. induction H as [|x data Hx H IH]; intros a b Ha Hb E; [done|]. cbn [fold_left] in E.
  apply IH in E; try (apply crc_table_byte, lxor_byte; done). apply crc_table_inj in E; try (apply lxor_byte; done). by apply lxor_inj_l in E.
Qed.

(** The final step accepts the complement of the register only. *)
Lemma fcs_accept f r : is_u8 f → is_u8 r → (look crc_table (Z.lxor f r) =? 207) = (r =? 255 - f).
Proof.
  intros Hf Hr. pose proof (byte_forall (λ f, forallb (λ r, Bool.eqb (look crc_table (Z.lxor f r) =? 207) (r =? 255 - f)) bytes256) ltac:(vm_compute; reflexivity) f Hf) as H.
  cbn beta in H. rewrite forallb_forall in H. specialize (H r (in_bytes256 r Hr)). by apply Bool.eqb_prop in H.
Qed.

(** The frame check sequence of a provisioning PDU is accepted for exactly the PDU it was computed for, among all PDUs that differ from it in at most one byte, and no other value of the sequence is. *)
Theorem fcs_detects a x y b : all_u8 (a ++ x :: b) → is_u8 y → Z.of_nat (length (a ++ x :: b)) < 256 →
  bt_mesh_fcs_check (a ++ y :: b) (bt_mesh_fcs_calc (a ++ x :: b)) = (x =? y) /\
  forall r, is_u8 r → bt_mesh_fcs_check (a ++ x :: b) r = (r =? bt_mesh_fcs_calc (a ++ x :: b)).
Proof.
  intros H Hy _. assert (all_u8 a /\ is_u8 x /\ all_u8 b) as (Ha & Hx & Hb) by (apply Forall_app in H as [H1 [H2 H3]%Forall_cons_1]; done).
  unfold bt_mesh_fcs_check, bt_mesh_fcs_calc. rewrite !fold_left_app. cbn [fold_left]. set (f := fold_left fcs_step a 255).
  assert (is_u8 f) as Hf by (apply fcs_fold_byte; [done | lia]).
  assert (forall z, is_u8 z → is_u8 (fcs_step f z)) as Hs by (intros z Hz; apply crc_table_byte, lxor_byte; done).
  pose proof (fcs_fold_byte b (fcs_step f x) Hb (Hs x Hx)) as Fx. pose proof (fcs_fold_byte b (fcs_step f y) Hb (Hs y Hy)) as Fy.
  split; [|intros r Hr; by apply fcs_accept]. rewrite fcs_accept by lia. destruct (Z.eqb_spec x y) as [-> |N]; [lia|].
  apply Z.eqb_neq. intros E. apply N. assert (fold_left fcs_step b (fcs_step f x) = fold_left fcs_step b (fcs_step f y)) as E' by lia.
  apply fcs_fold_inj in E'; [|done | by apply Hs | by apply Hs]. apply crc_table_inj in E'; [|by apply lxor_byte | by apply lxor_byte].
  rewrite !(Z.lxor_comm f) in E'. by apply lxor_inj_l in E'.
Qed.

(** ** Witnesses *)

Lemma ccm_roundtrip_witness : exists c, bt_mesh_ccm_encrypt [] (zeros 16) (zeros 13) (map Z.of_nat (seq 0 40)) (zeros 16) 16 8 = (0, c) /\
  length c = 48%nat /\ bt_mesh_ccm_decrypt (zeros 16) (zeros 13) c 40 (zeros 16) 16 8 = (0, map Z.of_nat (seq 0 40)).
Proof. apply (ccm_roundtrip [] (zeros 16) (zeros 13) (map Z.of_nat (seq 0 40)) (zeros 16) 16 8); cbn; lia. Defined.

Lemma ccm_is_rfc3610_witness : bt_mesh_ccm_encrypt [] (zeros 16) (zeros 13) [1; 2; 3] (zeros 16) 16 4 = (0, ccm_ref (aes (zeros 16)) (zeros 13) [1; 2; 3] (zeros 16) 4).
Proof. apply (ccm_is_rfc3610 [] (zeros 16) (zeros 13) [1; 2; 3] (zeros 16) 4); [reflexivity | cbn; lia | right; cbn; lia | cbn; lia | left; reflexivity]. Defined.

Lemma fcs_detects_witness : bt_mesh_fcs_check ([1; 2] ++ 9 :: [4]) (bt_mesh_fcs_calc ([1; 2] ++ 3 :: [4])) = (3 =? 9) /\
  forall r, is_u8 r → bt_mesh_fcs_check ([1; 2] ++ 3 :: [4]) r = (r =? bt_mesh_fcs_calc ([1; 2] ++ 3 :: [4])).
Proof. apply (fcs_detects [1; 2] 3 9 [4]); [repeat constructor; lia | lia | cbn; lia]. Defined.
