(* ===== verification/MeshNet.v ===== *)
(** * MeshNet: the network layer of the mesh stack (bt_mesh/src/net.c)

    Subnets and their keys, the two duplicate caches, encoding, decoding and relaying of
    network PDUs, the key refresh procedure and the replay list's reset.  A buffer is the
    list of its bytes from [data] on.  Friendship credentials are off, as in the light
    example (CONFIG_BT_MESH_FRIEND and CONFIG_BT_MESH_LOW_POWER are not set); the proxy
    is on.  Sequence numbers, the IV update procedure and what is stored of them are in
    Lifecycle. *)
From Stdlib Require Import ZArith Lia List Bool.
From stdpp Require Import base list numbers option.
From S2P Require Import Prelude Env Aes Cmac MeshCrypto.
Local Open Scope Z_scope.

Definition ENOENT : Z := 2.
Definition E_ALREADY : Z := 69.
Definition BT_MESH_NET_HDR_LEN : Z := 9.
Definition BT_MESH_NET_MIN_PDU_LEN : Z := BT_MESH_NET_HDR_LEN + 1 + 8.
Definition CONFIG_BT_MESH_MSG_CACHE_SIZE : nat := 10.
Definition BT_MESH_KEY_UNUSED : Z := 65535.
Definition BT_MESH_KEY_ANY : Z := 65535.
Definition BT_MESH_TTL_DEFAULT : Z := 255.
Definition BT_MESH_KR_NORMAL : Z := 0.
Definition BT_MESH_KR_PHASE_1 : Z := 1.
Definition BT_MESH_KR_PHASE_2 : Z := 2.
Definition BT_MESH_ADDR_IS_UNICAST (addr : Z) : bool := truthy addr && (addr <? 32768).
Definition BT_MESH_ADDR_IS_RFU (addr : Z) : bool := (65280 <=? addr) && (addr <=? 65531).

(** ** State *)

Record bt_mesh_subnet_keys := mkKeys { k_net : list Z; k_nid : Z; k_enc : list Z; k_net_id : list Z; k_identity : list Z; k_privacy : list Z; k_beacon : list Z }.
Record bt_mesh_subnet := mkSubnet { sub_net_idx : Z; kr_flag : bool; kr_phase : Z; keys0 : bt_mesh_subnet_keys; keys1 : bt_mesh_subnet_keys }.
Record bt_mesh_rpl := mkRpl { rpl_src : Z; rpl_old_iv : bool; rpl_seq : Z }.

(** [bt_mesh], the caches, and what the layer asks of the others: the addresses of the
    elements, the relay and proxy states. *)
Record net := mkNet {
  iv_index : Z; iv_update : bool; seq_num : Z; subs : list bt_mesh_subnet;
  msg_cache : list Z; msg_cache_next : nat; dup_cache : list Z; dup_cache_next : nat;
  elems : list Z; relay_on : bool; proxy_on : bool; rpl : list bt_mesh_rpl }.

Definition with_msg_cache (c : list Z) (n : nat) (s : net) : net :=
  mkNet (iv_index s) (iv_update s) (seq_num s) (subs s) c n (dup_cache s) (dup_cache_next s) (elems s) (relay_on s) (proxy_on s) (rpl s).
Definition with_dup_cache (c : list Z) (n : nat) (s : net) : net :=
  mkNet (iv_index s) (iv_update s) (seq_num s) (subs s) (msg_cache s) (msg_cache_next s) c n (elems s) (relay_on s) (proxy_on s) (rpl s).
(** [seq] is a bit field of 24 bits. *)
Definition with_seq (n : Z) (s : net) : net :=
  mkNet (iv_index s) (iv_update s) (n mod 16777216) (subs s) (msg_cache s) (msg_cache_next s) (dup_cache s) (dup_cache_next s) (elems s) (relay_on s) (proxy_on s) (rpl s).
Definition with_rpl (l : list bt_mesh_rpl) (s : net) : net :=
  mkNet (iv_index s) (iv_update s) (seq_num s) (subs s) (msg_cache s) (msg_cache_next s) (dup_cache s) (dup_cache_next s) (elems s) (relay_on s) (proxy_on s) l.

Definition keys_of (new : bool) (sub : bt_mesh_subnet) : bt_mesh_subnet_keys := if new then keys1 sub else keys0 sub.
Definition IVI_TX (s : net) : Z := u32 (iv_index s - Z.b2z (iv_update s)).
Definition IVI_RX (old_iv : bool) (s : net) : Z := u32 (iv_index s - Z.b2z old_iv).
Definition bt_mesh_elem_find (addr : Z) (s : net) : bool := existsb (Z.eqb addr) (elems s).

(** ** Fields of a PDU *)

Definition at_ (n : nat) (pdu : list Z) : Z := nth n pdu 0.
Definition IVI (pdu : list Z) : Z := Z.shiftr (at_ 0 pdu) 7.
Definition NID (pdu : list Z) : Z := Z.land (at_ 0 pdu) 127.
Definition CTL (pdu : list Z) : Z := Z.shiftr (at_ 1 pdu) 7.
Definition TTL (pdu : list Z) : Z := Z.land (at_ 1 pdu) 127.
Definition SEQ (pdu : list Z) : Z := Z.lor (Z.lor (Z.shiftl (at_ 2 pdu) 16) (Z.shiftl (at_ 3 pdu) 8)) (at_ 4 pdu).
Definition SRC (pdu : list Z) : Z := get_be16 (at_ 5 pdu) (at_ 6 pdu).
Definition DST (pdu : list Z) : Z := get_be16 (at_ 7 pdu) (at_ 8 pdu).

(** ** The caches *)

Definition get_be32 (b : list Z) : Z :=
  Z.lor (Z.lor (Z.lor (Z.shiftl (nth 0 b 0) 24) (Z.shiftl (nth 1 b 0) 16)) (Z.shiftl (nth 2 b 0) 8)) (nth 3 b 0).

(** The last eight bytes identify a PDU before it is decrypted. *)
Definition dup_val (data : list Z) : Z :=
  let n := length data in Z.lxor (get_be32 (drop (n - 4) data)) (get_be32 (drop (n - 8) data)).

(** A ring: look, and else overwrite the oldest entry. *)
Definition cache_seen (v : Z) (c : list Z) : bool := existsb (Z.eqb v) c.
Definition cache_put (v : Z) (c : list Z) (next : nat) : list Z * nat := (<[next := v]> c, ((next + 1) mod CONFIG_BT_MESH_MSG_CACHE_SIZE)%nat).

Definition check_dup (data : list Z) (s : net) : bool * net :=
  let v := dup_val data in
  if cache_seen v (dup_cache s) then (true, s)
  else let '(c, n) := cache_put v (dup_cache s) (dup_cache_next s) in (false, with_dup_cache c n s).

(** IV index, sequence number and source of a deobfuscated PDU. *)
Definition msg_hash (old_iv : bool) (pdu : list Z) (s : net) : Z :=
  let hash1 := Z.lor (u32 (Z.shiftl (IVI_RX old_iv s) 8)) (at_ 2 pdu) in
  let hash2 := get_le32 (at_ 3 pdu) (at_ 4 pdu) (at_ 5 pdu) (at_ 6 pdu) in
  Z.lor (Z.shiftl hash1 32) hash2.

Definition msg_cache_match (old_iv : bool) (pdu : list Z) (s : net) : bool * net :=
  let h := msg_hash old_iv pdu s in
  if cache_seen h (msg_cache s) then (true, s)
  else let '(c, n) := cache_put h (msg_cache s) (msg_cache_next s) in (false, with_msg_cache c n s).

(** ** Encoding *)

(** [tx]: whether it is a control message, the addresses and the TTL. *)
Record net_tx := mkTx { tx_ctl : bool; tx_src : Z; tx_dst : Z; tx_ttl : Z }.

Definition seq_bytes (n : Z) : list Z := [u8 (Z.shiftr n 16); u8 (Z.shiftr n 8); u8 n].

(** The PDU before encryption. *)
Definition net_header (k : bt_mesh_subnet_keys) (iv seq : Z) (tx : net_tx) : list Z :=
  [u8 (Z.lor (k_nid k) (Z.shiftl (Z.land iv 1) 7)); (if tx_ctl tx then Z.lor (tx_ttl tx) 128 else tx_ttl tx)]
  ++ seq_bytes seq ++ be16 (tx_src tx) ++ be16 (tx_dst tx).

Definition bt_mesh_net_encode (mic0 : list Z) (tailroom : Z) (tx : net_tx) (sub : bt_mesh_subnet) (buf : list Z) (proxy : bool) (s : net) : Z * list Z * net :=
  if (tx_ctl tx && (tailroom <? 8)) || (tailroom <? 4) then (- EINVAL, buf, s) else
  let k := keys_of (kr_flag sub) sub in
  let pdu := net_header k (IVI_TX s) (seq_num s) tx ++ buf in
  let s' := with_seq (seq_num s + 1) s in
  let '(err, c) := bt_mesh_net_encrypt mic0 (k_enc k) pdu (IVI_TX s) proxy in
  if negb (err =? 0) then (err, c, s') else (0, bt_mesh_net_obfuscate c (IVI_TX s) (k_privacy k), s').

(** A segment sent again: decrypted, given a new sequence number, encrypted.  (The IV
    update that a high sequence number starts afterwards is in Lifecycle.) *)
Definition bt_mesh_net_resend (mic0 : list Z) (sub : bt_mesh_subnet) (new_key : bool) (buf : list Z) (s : net) : Z * list Z * net :=
  let k := keys_of new_key sub in
  let buf := bt_mesh_net_obfuscate buf (IVI_TX s) (k_privacy k) in
  let '(err, buf) := bt_mesh_net_decrypt (k_enc k) buf (IVI_TX s) false in
  if negb (err =? 0) then (err, buf, s) else
  let buf := take 2 buf ++ seq_bytes (seq_num s) ++ drop 5 buf in
  let s' := with_seq (seq_num s + 1) s in
  let '(err, buf) := bt_mesh_net_encrypt mic0 (k_enc k) buf (IVI_TX s) false in
  if negb (err =? 0) then (err, buf, s') else (0, bt_mesh_net_obfuscate buf (IVI_TX s) (k_privacy k), s').

(** ** Decoding *)

Inductive bt_mesh_net_if := BT_MESH_NET_IF_ADV | BT_MESH_NET_IF_LOCAL | BT_MESH_NET_IF_PROXY | BT_MESH_NET_IF_PROXY_CFG.
#[export] Instance net_if_eq_dec : EqDecision bt_mesh_net_if.
Proof. solve_decision. Defined.

Record net_rx := mkRx {
  rx_net_if : bt_mesh_net_if; rx_sub : nat; rx_net_idx : Z; rx_new_key : bool; rx_old_iv : bool; rx_ctl : Z; rx_seq : Z; rx_src : Z; rx_dst : Z;
  rx_recv_ttl : Z; rx_send_ttl : Z }.

(** The result, the old IV bit, the source address, the buffer.  The data is copied to the buffer of the
    caller, which has 29 bytes: both callers refuse longer data before they come here
    (bt_mesh_net_recv in net.c, proxy_cfg in proxy.c). *)
Definition net_decrypt (net_if : bt_mesh_net_if) (k : bt_mesh_subnet_keys) (data : list Z) (s : net) : Z * bool * Z * list Z * net :=
  let old_iv := negb (IVI data =? Z.land (iv_index s) 1) in
  let buf := bt_mesh_net_obfuscate data (IVI_RX old_iv s) (k_privacy k) in
  let '(dup, s) := match net_if with BT_MESH_NET_IF_ADV => msg_cache_match old_iv buf s | _ => (false, s) end in
  if dup then (- E_ALREADY, old_iv, 0, buf, s) else
  let src := SRC buf in
  if negb (BT_MESH_ADDR_IS_UNICAST src) then (- EINVAL, old_iv, src, buf, s) else
  let '(err, buf) := bt_mesh_net_decrypt (k_enc k) buf (IVI_RX old_iv s) (bool_decide (net_if = BT_MESH_NET_IF_PROXY_CFG)) in
  (err, old_iv, src, buf, s).

(** The loop over the subnets from number [i] on: which one, which key, the IV bit, the
    source and the buffer. *)
Fixpoint find_and_decrypt (net_if : bt_mesh_net_if) (data : list Z) (i : nat) (l : list bt_mesh_subnet) (s : net) : option (nat * bool * bool * Z * list Z) * net :=
  match l with
  | [] => (None, s)
  | sub :: l =>
    if sub_net_idx sub =? BT_MESH_KEY_UNUSED then find_and_decrypt net_if data (S i) l s else
    let '(r, s) := if NID data =? k_nid (keys0 sub) then let '(err, o, a, b, s) := net_decrypt net_if (keys0 sub) data s in (if err =? 0 then Some (o, a, b) else None, s) else (None, s) in
    match r with
    | Some (o, a, b) => (Some (i, false, o, a, b), s)
    | None =>
      if kr_phase sub =? BT_MESH_KR_NORMAL then find_and_decrypt net_if data (S i) l s else
      let '(r, s) := if NID data =? k_nid (keys1 sub) then let '(err, o, a, b, s) := net_decrypt net_if (keys1 sub) data s in (if err =? 0 then Some (o, a, b) else None, s) else (None, s) in
      match r with
      | Some (o, a, b) => (Some (i, true, o, a, b), s)
      | None => find_and_decrypt net_if data (S i) l s
      end
    end
  end.
Definition net_find_and_decrypt (net_if : bt_mesh_net_if) (data : list Z) (s : net) : option (nat * bool * bool * Z * list Z) * net :=
  find_and_decrypt net_if data 0 (subs s) s.

Definition bt_mesh_net_decode (data : list Z) (net_if : bt_mesh_net_if) (s : net) : Z * option (net_rx * list Z) * net :=
  if Z.of_nat (length data) <? BT_MESH_NET_MIN_PDU_LEN then (- EINVAL, None, s) else
  let '(dup, s) := match net_if with BT_MESH_NET_IF_ADV => check_dup data s | _ => (false, s) end in
  if dup then (- EINVAL, None, s) else
  match net_find_and_decrypt net_if data s with
  | (None, s) => (- ENOENT, None, s)
  | (Some (i, new_key, old_iv, src, buf), s) =>
    let recv_ttl := TTL buf in
    let rx := mkRx net_if i (match subs s !! i with Some sub => sub_net_idx sub | None => BT_MESH_KEY_UNUSED end) new_key old_iv (CTL buf) (SEQ buf) src (DST buf)
                recv_ttl (if recv_ttl =? 0 then 0 else BT_MESH_TTL_DEFAULT) in
    if negb (bool_decide (net_if = BT_MESH_NET_IF_PROXY_CFG)) && (DST buf =? BT_MESH_ADDR_UNASSIGNED) then (- EBADMSG, None, s) else
    if BT_MESH_ADDR_IS_RFU (DST buf) then (- EBADMSG, None, s) else
    if negb (bool_decide (net_if = BT_MESH_NET_IF_LOCAL)) && bt_mesh_elem_find src s then (- EBADMSG, None, s) else
    (0, Some (rx, buf), s)
  end.

(** ** Relaying *)

Definition relay_to_adv (net_if : bt_mesh_net_if) (s : net) : bool :=
  match net_if with
  | BT_MESH_NET_IF_LOCAL => true
  | BT_MESH_NET_IF_ADV => relay_on s
  | BT_MESH_NET_IF_PROXY => proxy_on s
  | BT_MESH_NET_IF_PROXY_CFG => false
  end.

(** Whether the PDU is relayed at all. *)
Definition relays (rx : net_rx) (s : net) : bool :=
  match rx_net_if rx with
  | BT_MESH_NET_IF_LOCAL => negb (rx_recv_ttl rx =? 1)
  | _ => negb (rx_recv_ttl rx <=? 1)
  end && negb (bool_decide (rx_net_if rx = BT_MESH_NET_IF_ADV) && negb (relay_on s) && negb (proxy_on s)).

(** The PDU that is sent on: to the proxy clients, and to the advertising bearer unless
    it is for a unicast address behind the proxy ([proxy_took]).  [None]: nothing. *)
Definition bt_mesh_net_relay (mic0 sbuf : list Z) (rx : net_rx) (adv_buf proxy_took : bool) (s : net) : option (list Z * bool * bool) :=
  if negb (relays rx s) then None else
  if negb adv_buf then None else
  let sbuf := match rx_net_if rx with
    | BT_MESH_NET_IF_LOCAL => sbuf
    | _ => take 1 sbuf ++ [u8 (Z.lor (Z.land (at_ 1 sbuf) 128) (rx_recv_ttl rx - 1))] ++ drop 2 sbuf end in
  match subs s !! rx_sub rx with
  | None => None
  | Some sub =>
    let k := keys_of (kr_flag sub) sub in
    let '(err, c) := bt_mesh_net_encrypt mic0 (k_enc k) sbuf (IVI_RX (rx_old_iv rx) s) false in
    if negb (err =? 0) then None else
    let c := bt_mesh_net_obfuscate c (IVI_RX (rx_old_iv rx) s) (k_privacy k) in
    let to_proxy := proxy_on s || bool_decide (rx_net_if rx = BT_MESH_NET_IF_LOCAL) in
    let done_ := to_proxy && proxy_took && BT_MESH_ADDR_IS_UNICAST (rx_dst rx) in
    Some (c, to_proxy, negb done_ && relay_to_adv (rx_net_if rx) s)
  end.

(** ** Keys *)

Definition bt_mesh_net_keys_create (key : list Z) : res bt_mesh_subnet_keys :=
  let! (nid, enc, priv) := bt_mesh_k2 key [0] in
  let! net_id := bt_mesh_k3 key in
  let! identity := bt_mesh_identity_key key in
  let! beacon := bt_mesh_beacon_key key in
  inr (mkKeys key nid enc net_id identity priv beacon).

Definition bt_mesh_subnet_get (net_idx : Z) (s : net) : option bt_mesh_subnet :=
  if net_idx =? BT_MESH_KEY_ANY then head (subs s) else find (λ sub, sub_net_idx sub =? net_idx) (subs s).

(** The authentication value of a secure network beacon, under one set of keys. *)
Definition auth_match (k : bt_mesh_subnet_keys) (net_id : list Z) (flags iv : Z) (auth : list Z) : bool :=
  bool_decide (net_id = k_net_id k) &&
  match bt_mesh_beacon_auth (k_beacon k) flags (k_net_id k) iv with inr a => bool_decide (auth = a) | inl _ => false end.

Fixpoint subnet_find (l : list bt_mesh_subnet) (net_id : list Z) (flags iv : Z) (auth : list Z) : option (bt_mesh_subnet * bool) :=
  match l with
  | [] => None
  | sub :: l =>
    if sub_net_idx sub =? BT_MESH_KEY_UNUSED then subnet_find l net_id flags iv auth else
    if auth_match (keys0 sub) net_id flags iv auth then Some (sub, false) else
    if kr_phase sub =? BT_MESH_KR_NORMAL then subnet_find l net_id flags iv auth else
    if auth_match (keys1 sub) net_id flags iv auth then Some (sub, true) else subnet_find l net_id flags iv auth
  end.

Definition bt_mesh_net_flags (sub : option bt_mesh_subnet) (s : net) : Z :=
  Z.lor (match sub with Some sub => if kr_flag sub then 1 else 0 | None => 0 end) (if iv_update s then 2 else 0).

Definition bt_mesh_net_beacon_update (sub : bt_mesh_subnet) (s : net) : res (list Z) :=
  let k := keys_of (kr_flag sub) sub in
  bt_mesh_beacon_auth (k_beacon k) (bt_mesh_net_flags (Some sub) s) (k_net_id k) (iv_index s).

(** The key refresh procedure on a received flag; the application keys follow in
    [bt_mesh_net_revoke_keys], of which the subnet's part is here. *)
Definition bt_mesh_kr_update (new_kr new_key : bool) (sub : bt_mesh_subnet) : bool * bt_mesh_subnet :=
  if negb (Bool.eqb new_kr (kr_flag sub)) && (kr_phase sub =? BT_MESH_KR_NORMAL) then (false, sub) else
  let revoked := mkSubnet (sub_net_idx sub) new_kr BT_MESH_KR_NORMAL (keys1 sub) (keys1 sub) in
  let same := mkSubnet (sub_net_idx sub) new_kr (kr_phase sub) (keys0 sub) (keys1 sub) in
  if new_kr then
    if kr_phase sub =? BT_MESH_KR_PHASE_1 then (true, mkSubnet (sub_net_idx sub) new_kr BT_MESH_KR_PHASE_2 (keys0 sub) (keys1 sub)) else (false, same)
  else if kr_phase sub =? BT_MESH_KR_PHASE_1 then (if new_key then (true, revoked) else (false, same))
  else if kr_phase sub =? BT_MESH_KR_PHASE_2 then (true, revoked) else (false, same).

Definition bt_mesh_rpl_reset (s : net) : net :=
  with_rpl (map (λ r, if truthy (rpl_src r) then if rpl_old_iv r then mkRpl 0 false 0 else mkRpl (rpl_src r) true (rpl_seq r) else r) (rpl s)) s.
