(* ===== verification/MeshNetProps.v ===== *)
(** * MeshNetProps: what the network layer guarantees

    A PDU one node secures is decoded by another node of the subnet to the same
    fields and payload; a relayed PDU too, with one hop less; the caches stay rings of
    their size; a PDU is taken once; and a forged copy can keep the real one out. *)
From Stdlib Require Import ZArith Lia List Bool.
From stdpp Require Import base list numbers option.
From S2P Require Import Prelude Env Aes Cmac MeshCrypto MeshCryptoProps MeshNet.
Local Open Scope Z_scope.

#[local] Opaque aes bt_mesh_net_encrypt bt_mesh_net_decrypt bt_mesh_net_obfuscate.

(** ** Fields *)

Lemma get_be16_spec hi lo : is_u8 hi → is_u8 lo → get_be16 hi lo = 256 * hi + lo.
Proof. intros H1 H2. unfold get_be16. rewrite Z.lor_comm, lor_shiftl by (change (2 ^ 8) with 256; lia). change (2 ^ 8) with 256. lia. Qed.

Lemma get_be16_be16 z : is_u16 z → get_be16 (Z.land (Z.shiftr z 8) 255) (Z.land z 255) = z.
Proof.
  intros H. rewrite !land_255, Z.shiftr_div_pow2 by lia. change (2 ^ 8) with 256. rewrite get_be16_spec by (split; apply Z.mod_pos_bound || apply Z.mod_pos_bound; lia). dlia.
Qed.

Lemma seq_of_bytes n : Z.lor (Z.lor (Z.shiftl (u8 (Z.shiftr n 16)) 16) (Z.shiftl (u8 (Z.shiftr n 8)) 8)) (u8 n) = n mod 2 ^ 24.
Proof.
  pose proof (u8_range (Z.shiftr n 16)). pose proof (u8_range (Z.shiftr n 8)). pose proof (u8_range n).
  rewrite (Z.lor_comm (Z.lor _ _)), (Z.lor_comm (Z.shiftl _ 16)), Z.lor_assoc. rewrite (lor_shiftl _ _ 8) by (change (2 ^ 8) with 256; lia).
  rewrite (lor_shiftl _ _ 16) by (change (2 ^ 16) with 65536; change (2 ^ 8) with 256; lia).
  unfold u8. rewrite !Z.shiftr_div_pow2 by lia. change (2 ^ 24) with 16777216. change (2 ^ 16) with 65536. change (2 ^ 8) with 256. clear. dlia.
Qed.

Lemma first_byte nid b : 0 <= nid < 128 → b = 0 \/ b = 1 → Z.shiftr (u8 (Z.lor nid (Z.shiftl b 7))) 7 = b /\ Z.land (u8 (Z.lor nid (Z.shiftl b 7))) 127 = nid.
Proof.
  intros H Hb. rewrite lor_shiftl by (change (2 ^ 7) with 128; lia). change (2 ^ 7) with 128. rewrite u8_small by (destruct Hb as [-> | ->]; lia).
  change 127 with (Z.ones 7). rewrite Z.land_ones, Z.shiftr_div_pow2 by lia. change (2 ^ 7) with 128. destruct Hb as [-> | ->]; dlia.
Qed.

Lemma ctl_byte ttl : 0 <= ttl < 128 → Z.lor ttl 128 = ttl + 128.
Proof. intros H. change 128 with (Z.shiftl 1 7). rewrite lor_shiftl by (change (2 ^ 7) with 128; lia). done. Qed.

Lemma land_1 iv : Z.land iv 1 = 0 \/ Z.land iv 1 = 1.
Proof. pose proof (Z.land_ones iv 1 ltac:(lia)) as E. change (Z.ones 1) with 1 in E. change (2 ^ 1) with 2 in E. rewrite E. dlia. Qed.

Record tx_ok (tx : net_tx) : Prop := {
  tx_src_ok : 1 <= tx_src tx < 32768; tx_dst_ok : 1 <= tx_dst tx < 65536; tx_dst_rfu : BT_MESH_ADDR_IS_RFU (tx_dst tx) = false; tx_ttl_ok : 0 <= tx_ttl tx < 128 }.

Lemma header_fields k iv seq tx buf : 0 <= k_nid k < 128 → tx_ok tx → let pdu := net_header k iv seq tx ++ buf in
  NID pdu = k_nid k /\ IVI pdu = Z.land iv 1 /\ CTL pdu = Z.b2z (tx_ctl tx) /\ TTL pdu = tx_ttl tx /\ SEQ pdu = seq mod 2 ^ 24 /\
  SRC pdu = tx_src tx /\ DST pdu = tx_dst tx /\ NET_MIC_LEN pdu = if tx_ctl tx then 8%nat else 4%nat.
Proof.
  intros Hn [Hs Hd _ Ht] pdu. destruct (first_byte (k_nid k) (Z.land iv 1) Hn (land_1 iv)) as [E1 E2].
  assert (SEQ pdu = seq mod 2 ^ 24) as Es by (rewrite <- seq_of_bytes; reflexivity).
  assert (SRC pdu = tx_src tx) as Er by (rewrite <- (get_be16_be16 (tx_src tx)) by lia; reflexivity).
  assert (DST pdu = tx_dst tx) as Ed by (rewrite <- (get_be16_be16 (tx_dst tx)) by lia; reflexivity).
  assert (at_ 1 pdu = tx_ttl tx + 128 * Z.b2z (tx_ctl tx)) as E3 by (change (at_ 1 pdu) with (if tx_ctl tx then Z.lor (tx_ttl tx) 128 else tx_ttl tx); destruct (tx_ctl tx); cbn [Z.b2z]; [rewrite ctl_byte; lia | lia]).
  assert (CTL pdu = Z.b2z (tx_ctl tx)) as Ec by (unfold CTL; rewrite E3, Z.shiftr_div_pow2 by lia; change (2 ^ 7) with 128; destruct (tx_ctl tx); cbn [Z.b2z]; dlia).
  assert (TTL pdu = tx_ttl tx) as Et by (unfold TTL; rewrite E3; change 127 with (Z.ones 7); rewrite Z.land_ones by lia; change (2 ^ 7) with 128; destruct (tx_ctl tx); cbn [Z.b2z]; dlia).
  split_and!; try done. unfold NET_MIC_LEN. change (nth 1 pdu 0) with (at_ 1 pdu). rewrite E3. destruct (tx_ctl tx); cbn [Z.b2z].
  - rewrite Z.mul_1_r. replace (tx_ttl tx + 128) with (Z.lor (tx_ttl tx) 128) by (by rewrite ctl_byte). rewrite Z.land_comm, Z.land_lor_distr_r. change (Z.land 128 128) with 128.
    unfold truthy. destruct (Z.eqb_spec (Z.lor (Z.land 128 (tx_ttl tx)) 128) 0) as [E|E]; [apply Z.lor_eq_0_iff in E; lia | done].
  - rewrite Z.mul_0_r, Z.add_0_r. replace (Z.land (tx_ttl tx) 128) with 0; [done|]. change 128 with (Z.shiftl 1 7). rewrite land_shiftl_disjoint by (change (2 ^ 7) with 128; lia). done.
Qed.

(** ** A secured PDU *)

Definition secured (mic0 : list Z) (k : bt_mesh_subnet_keys) (iv : Z) (pdu : list Z) : list Z :=
  bt_mesh_net_obfuscate (snd (bt_mesh_net_encrypt mic0 (k_enc k) pdu iv false)) iv (k_privacy k).

Lemma app_head {A} (a b : list A) n : (n < length a)%nat → forall d, nth n (a ++ b) d = nth n a d.
Proof. intros H d. by apply app_nth1. Qed.

(** Removing obfuscation and encryption. *)
Lemma secured_spec mic0 k iv pdu : (8 <= length pdu)%nat →
  length (secured mic0 k iv pdu) = (length pdu + NET_MIC_LEN pdu)%nat /\ at_ 0 (secured mic0 k iv pdu) = at_ 0 pdu /\
  exists c, bt_mesh_net_obfuscate (secured mic0 k iv pdu) iv (k_privacy k) = take 7 pdu ++ c /\ fst (bt_mesh_net_encrypt mic0 (k_enc k) pdu iv false) = 0 /\
    bt_mesh_net_decrypt (k_enc k) (take 7 pdu ++ c) iv false = (0, pdu).
Proof.
  intros H. destruct (net_crypt_roundtrip mic0 (k_enc k) pdu iv false H) as (c & E & L & D). unfold secured. rewrite E. cbn [fst snd].
  assert (length (take 7 pdu ++ c) = (length pdu + NET_MIC_LEN pdu)%nat) as Lc by (rewrite length_app, length_take; lia).
  assert (7 <= length (take 7 pdu ++ c))%nat as L7 by lia. destruct (obfuscate_shape _ iv (k_privacy k) L7) as (S1 & S2 & _). unfold at_.
  split; [lia|]. split; [rewrite S2; destruct pdu; [cbn in H; lia | done]|]. exists c. by rewrite obfuscate_twice by done.
Qed.

Lemma fields_head pdu c : (9 <= length pdu)%nat → SRC (take 7 pdu ++ c) = SRC pdu /\ (forall o s, msg_hash o (take 7 pdu ++ c) s = msg_hash o pdu s).
Proof.
  intros H. assert (forall n, (n < 7)%nat → at_ n (take 7 pdu ++ c) = at_ n pdu) as E.
  { intros n Hn. unfold at_. rewrite app_head by (rewrite length_take; lia). rewrite !nth_lookup, lookup_take_lt by lia. done. }
  unfold SRC, msg_hash. split; intros; rewrite !E by lia; done.
Qed.

(** The IV index of a PDU is the receiver's or the one before. *)
Definition iv_near (iv : Z) (s : net) : Prop := is_u32 (iv_index s) /\ is_u32 iv /\ (iv = iv_index s \/ iv = iv_index s - 1).

Lemma iv_near_rx iv s : iv_near iv s → let old := negb (Z.land iv 1 =? Z.land (iv_index s) 1) in IVI_RX old s = iv.
Proof.
  intros (H1 & H2 & H). cbv zeta. unfold IVI_RX.
  assert (forall z, Z.land z 1 = z mod 2) as E by (intros z; change 1 with (Z.ones 1); rewrite Z.land_ones by lia; done). rewrite !E.
  destruct H as [-> | ->].
  - rewrite Z.eqb_refl. cbn [negb Z.b2z]. rewrite Z.sub_0_r. by apply u32_small.
  - destruct (Z.eqb_spec ((iv_index s - 1) mod 2) (iv_index s mod 2)); [dlia|]. cbn [negb Z.b2z]. by apply u32_small.
Qed.

(** Subnets that cannot be meant by the NID. *)
Definition other_nid (nid : Z) (sub : bt_mesh_subnet) : Prop := sub_net_idx sub = BT_MESH_KEY_UNUSED \/ (k_nid (keys0 sub) ≠ nid /\ k_nid (keys1 sub) ≠ nid).

Lemma find_skip net_if data l l' i s : Forall (other_nid (NID data)) l → find_and_decrypt net_if data i (l ++ l') s = find_and_decrypt net_if data (i + length l) l' s.
Proof.
  intros H. revert i. induction H as [|sub l Hs H IH]; intros i; [by rewrite Nat.add_0_r|]. cbn [app find_and_decrypt length]. rewrite Nat.add_succ_r, <- Nat.add_succ_l.
  destruct Hs as [-> |[N0 N1]]; [rewrite Z.eqb_refl; apply IH|]. destruct (sub_net_idx sub =? BT_MESH_KEY_UNUSED); [apply IH|].
  rewrite (proj2 (Z.eqb_neq (NID data) (k_nid (keys0 sub)))), (proj2 (Z.eqb_neq (NID data) (k_nid (keys1 sub)))) by congruence.
  destruct (kr_phase sub =? BT_MESH_KR_NORMAL); apply IH.
Qed.

(** The state after a PDU was taken. *)
Definition took_dup (data : list Z) (s : net) : net :=
  let '(c, n) := cache_put (dup_val data) (dup_cache s) (dup_cache_next s) in with_dup_cache c n s.
Definition took_msg (old : bool) (pdu : list Z) (s : net) : net :=
  let '(c, n) := cache_put (msg_hash old pdu s) (msg_cache s) (msg_cache_next s) in with_msg_cache c n s.

(** A PDU that can be decoded under the keys [k] and the IV index [iv]. *)
Record pdu_ok (k : bt_mesh_subnet_keys) (iv : Z) (pdu : list Z) : Prop := {
  pdu_len : (9 <= length pdu)%nat /\ 18 <= Z.of_nat (length pdu + NET_MIC_LEN pdu);
  pdu_nid : NID pdu = k_nid k /\ IVI pdu = Z.land iv 1;
  pdu_src : BT_MESH_ADDR_IS_UNICAST (SRC pdu) = true;
  pdu_dst : DST pdu ≠ BT_MESH_ADDR_UNASSIGNED /\ BT_MESH_ADDR_IS_RFU (DST pdu) = false }.

(** A node of the subnet that has not seen the PDU: [sub], behind the subnets [pre] of
    other NIDs, has the keys; the IV index is near; the source is not the node itself. *)
Record hears (k : bt_mesh_subnet_keys) (iv : Z) (pdu data : list Z) (pre : list bt_mesh_subnet) (sub : bt_mesh_subnet) (s : net) : Prop := {
  hears_src : bt_mesh_elem_find (SRC pdu) s = false;
  hears_iv : iv_near iv s;
  hears_sub : exists post, subs s = pre ++ sub :: post;
  hears_pre : Forall (other_nid (k_nid k)) pre;
  hears_key : keys0 sub = k /\ sub_net_idx sub ≠ BT_MESH_KEY_UNUSED;
  hears_dup : cache_seen (dup_val data) (dup_cache s) = false;
  hears_fresh : cache_seen (msg_hash (negb (Z.land iv 1 =? Z.land (iv_index s) 1)) pdu s) (msg_cache s) = false }.

(** The context a decoded PDU comes with. *)
Definition rx_of (old : bool) (i : nat) (sub : bt_mesh_subnet) (pdu : list Z) : net_rx :=
  mkRx BT_MESH_NET_IF_ADV i (sub_net_idx sub) false old (CTL pdu) (SEQ pdu) (SRC pdu) (DST pdu) (TTL pdu) (if TTL pdu =? 0 then 0 else BT_MESH_TTL_DEFAULT).

Lemma decode_secured mic0 k iv pdu pre sub s : let data := secured mic0 k iv pdu in pdu_ok k iv pdu → hears k iv pdu data pre sub s →
  let old := negb (Z.land iv 1 =? Z.land (iv_index s) 1) in
  bt_mesh_net_decode data BT_MESH_NET_IF_ADV s =
  (0, Some (rx_of old (length pre) sub pdu, pdu), took_msg old pdu (took_dup data s)).
Proof.
  intros data [[L9 L18] [Hn Hi] Hs [Hd Hr]] [He Hv [post Hsub] Hpre [Hk Hx] Hdup Hf] old.
  destruct (secured_spec mic0 k iv pdu ltac:(lia)) as (SL & S0 & c & So & _ & Sd). fold data in SL, S0, So.
  destruct (fields_head pdu c L9) as [Fs Fh]. assert (NID data = k_nid k) as Nd by (unfold NID; rewrite S0; exact Hn). assert (IVI data = Z.land iv 1) as Id by (unfold IVI; rewrite S0; exact Hi).
  pose proof (iv_near_rx iv s Hv) as Ir. cbv zeta in Ir. fold old in Ir.
  unfold bt_mesh_net_decode. rewrite SL. destruct (Z.ltb_spec (Z.of_nat (length pdu + NET_MIC_LEN pdu)) BT_MESH_NET_MIN_PDU_LEN) as [X|_]; [unfold BT_MESH_NET_MIN_PDU_LEN, BT_MESH_NET_HDR_LEN in X; lia|].
  unfold check_dup. rewrite Hdup. unfold took_dup. destruct (cache_put (dup_val data) _ _) as [dc dn] eqn:Edc. set (s1 := with_dup_cache dc dn s).
  unfold net_find_and_decrypt. change (subs s1) with (subs s). rewrite Hsub, find_skip by (by rewrite Nd). cbn [find_and_decrypt Nat.add].
  rewrite (proj2 (Z.eqb_neq _ _) Hx), Hk, Nd, Z.eqb_refl. unfold net_decrypt. cbv zeta. rewrite Id. change (iv_index s1) with (iv_index s). fold old.
  change (IVI_RX old s1) with (IVI_RX old s). rewrite Ir, So. unfold msg_cache_match. rewrite Fh. change (msg_hash old pdu s1) with (msg_hash old pdu s). change (msg_cache s1) with (msg_cache s).
  fold old in Hf. rewrite Hf. unfold took_msg. change (msg_hash old pdu s1) with (msg_hash old pdu s). change (msg_cache s1) with (msg_cache s). destruct (cache_put (msg_hash old pdu s) _ _) as [mc mn].
  rewrite Fs, Hs. cbn [negb]. rewrite bool_decide_eq_false_2 by done.
  change (IVI_RX old (with_msg_cache mc mn s1)) with (IVI_RX old s). rewrite Ir, Sd. cbn [Z.eqb].
  change (subs (with_msg_cache mc mn s1)) with (subs s). rewrite Hsub, list_lookup_middle by done.
  cbn [negb andb]. destruct (Z.eqb_spec (DST pdu) BT_MESH_ADDR_UNASSIGNED); [done|]. rewrite Hr.
  rewrite bool_decide_eq_false_2 by done. cbn [negb andb]. change (bt_mesh_elem_find (SRC pdu) (with_msg_cache mc mn s1)) with (bt_mesh_elem_find (SRC pdu) s). rewrite He. done.
Qed.

(** ** From node to node *)

Lemma header_ok k iv seq tx buf : 0 <= k_nid k < 128 → tx_ok tx → ((if tx_ctl tx then 1 else 5) <= length buf)%nat → pdu_ok k iv (net_header k iv seq tx ++ buf).
Proof.
  intros Hn Ht Hl. pose proof (header_fields k iv seq tx buf Hn Ht) as (F1 & F2 & _ & _ & _ & F6 & F7 & F8). destruct Ht as [Hs Hd Hr Httl].
  split; rewrite ?F6, ?F7, ?F8; [|done| |].
  - rewrite length_app. change (length (net_header k iv seq tx)) with 9%nat. destruct (tx_ctl tx); lia.
  - unfold BT_MESH_ADDR_IS_UNICAST, truthy. rewrite (proj2 (Z.eqb_neq _ _)) by lia. cbn [negb andb]. apply Z.ltb_lt. lia.
  - split; [unfold BT_MESH_ADDR_UNASSIGNED; lia | done].
Qed.

(** Encoding secures the header and the payload and takes a sequence number. *)
Lemma encode_spec mic0 tailroom tx sub buf s : (if tx_ctl tx then 8 else 4) <= tailroom → (1 <= length buf)%nat → let k := keys_of (kr_flag sub) sub in
  bt_mesh_net_encode mic0 tailroom tx sub buf false s =
  (0, secured mic0 k (IVI_TX s) (net_header k (IVI_TX s) (seq_num s) tx ++ buf), with_seq (seq_num s + 1) s).
Proof.
  intros Ht Hl k. unfold bt_mesh_net_encode. assert (tx_ctl tx && (tailroom <? 8) || (tailroom <? 4) = false) as -> by (destruct (tx_ctl tx); zcases; (done || lia)). cbv zeta. fold k.
  set (pdu := net_header k (IVI_TX s) (seq_num s) tx ++ buf). assert (8 <= length pdu)%nat as H8 by (unfold pdu; rewrite length_app; cbn [net_header length app seq_bytes be16]; lia).
  destruct (secured_spec mic0 k (IVI_TX s) pdu H8) as (_ & _ & c & _ & E & _). unfold secured. destruct (bt_mesh_net_encrypt mic0 (k_enc k) pdu (IVI_TX s) false) as [err o]. cbn [fst snd] in *. by subst err.
Qed.

(** [C28] A network PDU arrives as it was sent: what one node encodes, with a payload of at least the length a transport header needs, a second node of the subnet decodes to the control bit, TTL, sequence number (modulo 2^24), addresses and payload of the sender, whether its IV index is that of the sender or already one further.  The second node, as [hears] says, is not the source, has the key as the first key of a subnet whose earlier neighbours have other NIDs, and has the PDU in neither of its caches: a forged copy with the same header, heard before, enters the cache and blocks it ([forged_copy_blocks]). *)
Theorem net_roundtrip mic0 tailroom tx sub1 buf s1 pre sub2 s2 : let k := keys_of (kr_flag sub1) sub1 in let iv := IVI_TX s1 in
  let pdu := net_header k iv (seq_num s1) tx ++ buf in
  (if tx_ctl tx then 8 else 4) <= tailroom → 0 <= k_nid k < 128 → tx_ok tx → ((if tx_ctl tx then 1 else 5) <= length buf)%nat →
  hears k iv pdu (secured mic0 k iv pdu) pre sub2 s2 →
  exists data rx s2', bt_mesh_net_encode mic0 tailroom tx sub1 buf false s1 = (0, data, with_seq (seq_num s1 + 1) s1) /\
  bt_mesh_net_decode data BT_MESH_NET_IF_ADV s2 = (0, Some (rx, net_header k iv (seq_num s1) tx ++ buf), s2') /\
  rx_ctl rx = Z.b2z (tx_ctl tx) /\ rx_recv_ttl rx = tx_ttl tx /\ rx_seq rx = seq_num s1 mod 2 ^ 24 /\ rx_src rx = tx_src tx /\ rx_dst rx = tx_dst tx /\
  rx_net_idx rx = sub_net_idx sub2 /\ drop 9 pdu = buf.
Proof.
  intros k iv pdu Ht Hn Hx Hl Hh. assert (1 <= length buf)%nat by (destruct (tx_ctl tx); lia). pose proof (header_ok k iv (seq_num s1) tx buf Hn Hx Hl) as Hp.
  pose proof (header_fields k iv (seq_num s1) tx buf Hn Hx) as (_ & _ & F3 & F4 & F5 & F6 & F7 & _).
  pose proof (decode_secured mic0 k iv pdu pre sub2 s2 Hp Hh) as D. do 3 eexists. split; [by apply encode_spec|]. split; [exact D|].
  unfold rx_of. cbn [rx_ctl rx_recv_ttl rx_seq rx_src rx_dst rx_net_idx]. fold pdu in F3, F4, F5, F6, F7. rewrite F3, F4, F5, F6, F7. done.
Qed.

(** Relaying takes one hop off the TTL in the header. *)
Lemma relay_header k iv seq tx buf : tx_ok tx → 2 <= tx_ttl tx → let pdu := net_header k iv seq tx ++ buf in
  take 1 pdu ++ [u8 (Z.lor (Z.land (at_ 1 pdu) 128) (tx_ttl tx - 1))] ++ drop 2 pdu = net_header k iv seq (mkTx (tx_ctl tx) (tx_src tx) (tx_dst tx) (tx_ttl tx - 1)) ++ buf.
Proof.
  intros [_ _ _ Ht] H2 pdu. assert (u8 (Z.lor (Z.land (at_ 1 pdu) 128) (tx_ttl tx - 1)) = if tx_ctl tx then Z.lor (tx_ttl tx - 1) 128 else tx_ttl tx - 1) as E.
  { change (at_ 1 pdu) with (if tx_ctl tx then Z.lor (tx_ttl tx) 128 else tx_ttl tx).
    assert (Z.land (tx_ttl tx) 128 = 0) as E0 by (change 128 with (Z.shiftl 1 7); apply land_shiftl_disjoint; [change (2 ^ 7) with 128|]; lia).
    destruct (tx_ctl tx); [rewrite Z.land_lor_distr_l, E0; change (Z.lor 0 (Z.land 128 128)) with 128; rewrite Z.lor_comm | rewrite E0, Z.lor_0_l].
    - rewrite ctl_byte by lia. apply u8_small. lia.
    - apply u8_small. lia. }
  rewrite E. reflexivity.
Qed.

(** A relayed PDU arrives as it was sent, one hop nearer its end: a node with the relay feature that decoded a PDU of TTL 2 or more sends it on, and the next node of the subnet decodes the same control bit, sequence number, addresses and payload with the TTL lowered by one. *)
Theorem relay_roundtrip mic0 mic1 k iv seq tx buf pre sub s pre3 sub3 s3 : let pdu := net_header k iv seq tx ++ buf in
  let pdu' := net_header k iv seq (mkTx (tx_ctl tx) (tx_src tx) (tx_dst tx) (tx_ttl tx - 1)) ++ buf in
  0 <= k_nid k < 128 → tx_ok tx → 2 <= tx_ttl tx → ((if tx_ctl tx then 1 else 5) <= length buf)%nat →
  hears k iv pdu (secured mic0 k iv pdu) pre sub s → kr_flag sub = false → relay_on s = true →
  hears k iv pdu' (secured mic1 k iv pdu') pre3 sub3 s3 →
  exists rx s' data rx3 s3', bt_mesh_net_decode (secured mic0 k iv pdu) BT_MESH_NET_IF_ADV s = (0, Some (rx, pdu), s') /\
  bt_mesh_net_relay mic1 pdu rx true false s' = Some (data, proxy_on s, true) /\
  bt_mesh_net_decode data BT_MESH_NET_IF_ADV s3 = (0, Some (rx3, pdu'), s3') /\
  rx_recv_ttl rx3 = rx_recv_ttl rx - 1 /\ (rx_ctl rx3, rx_seq rx3, rx_src rx3, rx_dst rx3) = (rx_ctl rx, rx_seq rx, rx_src rx, rx_dst rx).
Proof.
  intros pdu pdu' Hn Hx H2 Hl Hh Hkr Hr Hh3. pose proof Hx as [Xs Xd Xr Xt]. set (tx' := mkTx _ _ _ _) in pdu'.
  assert (tx_ok tx') as Hx' by (split; cbn; (done || lia)). pose proof (header_ok k iv seq tx buf Hn Hx Hl) as Hp. pose proof (header_ok k iv seq tx' buf Hn Hx' Hl) as Hp'.
  pose proof (header_fields k iv seq tx buf Hn Hx) as (_ & _ & F3 & F4 & F5 & F6 & F7 & _). pose proof (header_fields k iv seq tx' buf Hn Hx') as (_ & _ & G3 & G4 & G5 & G6 & G7 & _).
  fold pdu in F3, F4, F5, F6, F7, Hp. fold pdu' in G3, G4, G5, G6, G7, Hp'.
  pose proof (decode_secured mic0 k iv pdu pre sub s Hp Hh) as D. pose proof (decode_secured mic1 k iv pdu' pre3 sub3 s3 Hp' Hh3) as D3. cbv zeta in D, D3.
  set (old := negb _) in D. set (s' := took_msg _ _ _) in D. exists (rx_of old (length pre) sub pdu), s', (secured mic1 k iv pdu'). do 2 eexists. split; [exact D|].
  split; [|split; [exact D3|]; unfold rx_of; cbn [rx_ctl rx_recv_ttl rx_seq rx_src rx_dst]; rewrite F3, F4, F5, F6, F7, G3, G4, G5, G6, G7; done].
  destruct Hh as [_ Hv [post Hsub] _ [Hk _] _ _]. assert (relay_on s' = relay_on s /\ proxy_on s' = proxy_on s /\ subs s' = subs s /\ iv_index s' = iv_index s) as (R1 & R2 & R3 & R4).
  { unfold s', took_msg, took_dup. destruct (cache_put _ _ _) as [mc mn] eqn:E1. destruct (cache_put (dup_val _) _ _) as [dc dn] eqn:E2. done. }
  unfold bt_mesh_net_relay, relays. cbn [rx_of rx_net_if rx_recv_ttl rx_sub rx_old_iv rx_dst]. rewrite F4, R1, R2, R3, Hr, Hsub. rewrite (proj2 (Z.leb_gt (tx_ttl tx) 1)) by lia.
  rewrite andb_false_r. cbn [negb andb]. rewrite list_lookup_middle by done. rewrite Hkr. cbn [keys_of]. rewrite Hk.
  assert (IVI_RX old s' = iv) as -> by (unfold IVI_RX; rewrite R4; by apply iv_near_rx). pose proof (relay_header k iv seq tx buf Hx H2) as Hrel. cbv zeta in Hrel. fold pdu in Hrel. fold tx' in Hrel. fold pdu' in Hrel. rewrite Hrel.
  assert (8 <= length pdu')%nat as H8 by (destruct Hp' as [[? _] _ _ _]; lia). destruct (secured_spec mic1 k iv pdu' H8) as (_ & _ & c & _ & E & _). unfold secured.
  destruct (bt_mesh_net_encrypt mic1 (k_enc k) pdu' iv false) as [err o]. cbn [fst snd] in *. subst err. cbn [Z.eqb negb relay_to_adv]. rewrite R1, Hr.
  rewrite bool_decide_eq_false_2 by done. by rewrite orb_false_r, andb_false_r.
Qed.

(** ** The caches *)

(** Both caches are rings of their size, and the next entry to overwrite is one of them. *)
Record caches_ok (s : net) : Prop := {
  msg_ring : length (msg_cache s) = CONFIG_BT_MESH_MSG_CACHE_SIZE /\ (msg_cache_next s < CONFIG_BT_MESH_MSG_CACHE_SIZE)%nat;
  dup_ring : length (dup_cache s) = CONFIG_BT_MESH_MSG_CACHE_SIZE /\ (dup_cache_next s < CONFIG_BT_MESH_MSG_CACHE_SIZE)%nat }.

(** Equal but for the network message cache. *)
Definition same_but_msg (s s' : net) : Prop := exists c n, s' = with_msg_cache c n s.

Lemma same_but_msg_refl s : same_but_msg s s.
Proof. exists (msg_cache s), (msg_cache_next s). by destruct s. Qed.
Lemma same_but_msg_trans s1 s2 s3 : same_but_msg s1 s2 → same_but_msg s2 s3 → same_but_msg s1 s3.
Proof. intros (c & n & ->) (c' & n' & ->). by exists c', n'. Qed.

Lemma cache_put_ring v c n : length c = CONFIG_BT_MESH_MSG_CACHE_SIZE →
  length (fst (cache_put v c n)) = CONFIG_BT_MESH_MSG_CACHE_SIZE /\ (snd (cache_put v c n) < CONFIG_BT_MESH_MSG_CACHE_SIZE)%nat.
Proof. intros H. cbn [cache_put fst snd]. rewrite length_insert. split; [done | apply Nat.mod_upper_bound; done]. Qed.

Lemma cache_put_seen v c n : (n < length c)%nat → cache_seen v (fst (cache_put v c n)) = true.
Proof. intros H. apply existsb_exists. exists v. split; [|apply Z.eqb_refl]. apply list_elem_of_In, list_elem_of_lookup. exists n. by apply list_lookup_insert_eq. Qed.

Lemma match_caches old pdu s b s' : msg_cache_match old pdu s = (b, s') → same_but_msg s s' /\ (caches_ok s → caches_ok s').
Proof.
  unfold msg_cache_match. destruct (cache_seen _ _); [intros [= <- <-]; split; [apply same_but_msg_refl | done]|].
  destruct (cache_put _ _ _) as [c n] eqn:E. intros [= <- <-]. split; [by exists c, n|]. intros [[M1 M2] D]. split; [|exact D].
  pose proof (cache_put_ring (msg_hash old pdu s) (msg_cache s) (msg_cache_next s) M1) as R. by rewrite E in R.
Qed.

Lemma net_decrypt_caches net_if k data s r s' : net_decrypt net_if k data s = (r, s') → same_but_msg s s' /\ (caches_ok s → caches_ok s').
Proof.
  unfold net_decrypt. cbv zeta. set (old := negb _).
  destruct (match net_if with BT_MESH_NET_IF_ADV => _ | _ => _ end) as [dup s1] eqn:E.
  assert (same_but_msg s s1 /\ (caches_ok s → caches_ok s1)) as H by (destruct net_if; first [by apply match_caches in E | injection E as <- <-; split; [apply same_but_msg_refl | done]]).
  destruct dup; [|destruct (negb (BT_MESH_ADDR_IS_UNICAST _)); [|destruct (bt_mesh_net_decrypt _ _ _ _)]]; intros X; apply (f_equal snd) in X; cbn [snd] in X; subst s'; exact H.
Qed.

Lemma find_caches net_if data l i s r s' : find_and_decrypt net_if data i l s = (r, s') → same_but_msg s s' /\ (caches_ok s → caches_ok s').
Proof.
  assert (forall k s r s1, (if NID data =? k_nid k then let '(err, o, a, b, s) := net_decrypt net_if k data s in (if err =? 0 then Some (o, a, b) else None, s) else (None, s)) = (r, s1) →
    same_but_msg s s1 /\ (caches_ok s → caches_ok s1)) as Hone.
  { intros k s0 r0 s1. destruct (NID data =? k_nid k); [|intros [= <- <-]; split; [apply same_but_msg_refl | done]].
    destruct (net_decrypt net_if k data s0) as [[[[? ?] ?] ?] s2] eqn:E. intros [= <- <-]. by apply net_decrypt_caches in E. }
  assert (forall s1 s2 s3, same_but_msg s1 s2 /\ (caches_ok s1 → caches_ok s2) → same_but_msg s2 s3 /\ (caches_ok s2 → caches_ok s3) → same_but_msg s1 s3 /\ (caches_ok s1 → caches_ok s3)) as Htr.
  { intros s1 s2 s3 [A B] [C D]. split; [by eapply same_but_msg_trans | auto]. }
  revert i s r s'. induction l as [|sub l IH]; intros i s r s'; cbn [find_and_decrypt]; [intros [= <- <-]; split; [apply same_but_msg_refl | done]|].
  destruct (sub_net_idx sub =? BT_MESH_KEY_UNUSED); [apply IH|]. destruct (if NID data =? k_nid (keys0 sub) then _ else _) as [r1 s1] eqn:E1. apply Hone in E1.
  destruct r1 as [[[o a] b]|]; [by intros [= <- <-]|]. destruct (kr_phase sub =? BT_MESH_KR_NORMAL); [intros H; eapply Htr; eauto|].
  destruct (if NID data =? k_nid (keys1 sub) then _ else _) as [r2 s2] eqn:E2. apply Hone in E2.
  destruct r2 as [[[o a] b]|]; [intros [= <- <-]; by eapply Htr | intros H; eapply Htr; [exact E1|]; eapply Htr; eauto].
Qed.

(** What decoding changes: the caches, and only after the length check. *)
Lemma decode_caches data net_if s r o s' : bt_mesh_net_decode data net_if s = (r, o, s') →
  (caches_ok s → caches_ok s') /\ with_msg_cache [] 0 (with_dup_cache [] 0 s') = with_msg_cache [] 0 (with_dup_cache [] 0 s) /\
  (net_if = BT_MESH_NET_IF_ADV → caches_ok s → BT_MESH_NET_MIN_PDU_LEN <= Z.of_nat (length data) → cache_seen (dup_val data) (dup_cache s') = true).
Proof.
  unfold bt_mesh_net_decode. destruct (Z.ltb_spec (Z.of_nat (length data)) BT_MESH_NET_MIN_PDU_LEN) as [HL|HL]; [intros [= <- <- <-]; split_and!; try done; intros; lia|].
  destruct (match net_if with BT_MESH_NET_IF_ADV => _ | _ => _ end) as [dup s1] eqn:E.
  assert ((caches_ok s → caches_ok s1) /\ with_dup_cache [] 0 s1 = with_dup_cache [] 0 s /\ (net_if = BT_MESH_NET_IF_ADV → caches_ok s → cache_seen (dup_val data) (dup_cache s1) = true)) as (H1 & H2 & H3).
  { destruct net_if; try (injection E as <- <-; done). unfold check_dup in E. destruct (cache_seen _ _) eqn:Es; [injection E as <- <-; done|].
    destruct (cache_put (dup_val data) (dup_cache s) (dup_cache_next s)) as [c n] eqn:Ec. injection E as <- <-. split_and!; [|done|].
    - intros [M [D1 D2]]. split; [exact M|]. pose proof (cache_put_ring (dup_val data) (dup_cache s) (dup_cache_next s) D1) as R. by rewrite Ec in R.
    - intros _ [M [D1 D2]]. pose proof (cache_put_seen (dup_val data) (dup_cache s) (dup_cache_next s)) as R. rewrite Ec in R. apply R. lia. }
  destruct dup.
  { intros [= <- <- <-]. split_and!; [done| |auto]. by rewrite H2. }
  unfold net_find_and_decrypt. destruct (find_and_decrypt _ _ _ _ _) as [f s2] eqn:Ef. apply find_caches in Ef as [(c & n & ->) Hc].
  assert (forall r0 o0, (r0, o0, with_msg_cache c n s1) = (r, o, s') → (caches_ok s → caches_ok s') /\ with_msg_cache [] 0 (with_dup_cache [] 0 s') = with_msg_cache [] 0 (with_dup_cache [] 0 s) /\
    (net_if = BT_MESH_NET_IF_ADV → caches_ok s → BT_MESH_NET_MIN_PDU_LEN <= Z.of_nat (length data) → cache_seen (dup_val data) (dup_cache s') = true)) as K.
  { intros ? ? [= <- <- <-]. split_and!; [auto | | auto]. change (with_msg_cache [] 0 (with_dup_cache [] 0 s1) = with_msg_cache [] 0 (with_dup_cache [] 0 s)). by rewrite H2. }
  destruct f as [[[[[i nk] ov] src] buf]|]; [|apply K]. cbv zeta. repeat (destruct (_ && _); [apply K|]). destruct (BT_MESH_ADDR_IS_RFU _); [apply K|]. destruct (_ && _); apply K.
Qed.

(** [C29] Whatever the bytes received and the bearer, decoding keeps the caches two rings of 10 entries with the next index inside, so the write [cache\[next\]] is in bounds, and changes nothing but the caches: not the sequence number, the IV index, the subnets or the replay list. *)
Theorem decode_type data net_if s : caches_ok s → let s' := snd (bt_mesh_net_decode data net_if s) in
  caches_ok s' /\ with_msg_cache [] 0 (with_dup_cache [] 0 s') = with_msg_cache [] 0 (with_dup_cache [] 0 s).
Proof.
  intros H. destruct (bt_mesh_net_decode data net_if s) as [[r o] s'] eqn:E. apply decode_caches in E as (H1 & H2 & _). auto.
Qed.

(** A PDU is taken at most once from the advertising bearer: whatever the first reception of some bytes gave, the next reception of the same bytes is refused with -EINVAL and leaves the state as it is. *)
Theorem decode_once data s : caches_ok s → let s' := snd (bt_mesh_net_decode data BT_MESH_NET_IF_ADV s) in
  bt_mesh_net_decode data BT_MESH_NET_IF_ADV s' = (- EINVAL, None, s').
Proof.
  intros H. destruct (bt_mesh_net_decode data BT_MESH_NET_IF_ADV s) as [[r o] s'] eqn:E. apply decode_caches in E as (_ & _ & H3). cbn [snd]. unfold bt_mesh_net_decode.
  destruct (Z.ltb_spec (Z.of_nat (length data)) BT_MESH_NET_MIN_PDU_LEN) as [HL|HL]; [done|]. unfold check_dup. by rewrite H3.
Qed.

(** ** Forged copies *)

(** A PDU the only subnet cannot decrypt. *)
Lemma decode_refused data sub s err o a buf s' : BT_MESH_NET_MIN_PDU_LEN <= Z.of_nat (length data) → subs s = [sub] → kr_phase sub = BT_MESH_KR_NORMAL →
  cache_seen (dup_val data) (dup_cache s) = false → net_decrypt BT_MESH_NET_IF_ADV (keys0 sub) data (took_dup data s) = (err, o, a, buf, s') → err ≠ 0 →
  NID data = k_nid (keys0 sub) → sub_net_idx sub ≠ BT_MESH_KEY_UNUSED → bt_mesh_net_decode data BT_MESH_NET_IF_ADV s = (- ENOENT, None, s').
Proof.
  intros HL Hs Hk Hd H He Hn Hx. unfold bt_mesh_net_decode. rewrite (proj2 (Z.ltb_ge _ _) HL). unfold check_dup. rewrite Hd. unfold took_dup in H.
  destruct (cache_put _ _ _) as [c n]. unfold net_find_and_decrypt. change (subs (with_dup_cache c n s)) with (subs s). rewrite Hs. cbn [find_and_decrypt].
  rewrite (proj2 (Z.eqb_neq _ _) Hx), Hn, Z.eqb_refl, H, (proj2 (Z.eqb_neq _ _) He), Hk. done.
Qed.

(** Decryption from the advertising bearer, the IV index and the deobfuscated PDU known. *)
Lemma net_decrypt_adv k data iv hdr t : iv_near iv t → IVI data = Z.land iv 1 → bt_mesh_net_obfuscate data iv (k_privacy k) = hdr →
  BT_MESH_ADDR_IS_UNICAST (SRC hdr) = true → let old := negb (Z.land iv 1 =? Z.land (iv_index t) 1) in
  net_decrypt BT_MESH_NET_IF_ADV k data t =
  if cache_seen (msg_hash old hdr t) (msg_cache t) then (- E_ALREADY, old, 0, hdr, t)
  else let '(err, buf) := bt_mesh_net_decrypt (k_enc k) hdr iv false in (err, old, SRC hdr, buf, took_msg old hdr t).
Proof.
  intros Hv Hi Ho Hs old. pose proof (iv_near_rx iv t Hv) as Ir. cbv zeta in Ir. fold old in Ir. unfold net_decrypt. cbv zeta. rewrite Hi. fold old. rewrite Ir, Ho. unfold msg_cache_match.
  destruct (cache_seen _ _); [done|]. unfold took_msg. destruct (cache_put _ _ _) as [c n]. rewrite Hs. change (IVI_RX old (with_msg_cache c n t)) with (IVI_RX old t). rewrite Ir.
  rewrite bool_decide_eq_false_2 by done. cbn [negb]. done.
Qed.

(** What the hash and the source address look at. *)
Lemma hash_last b x : (7 <= length b)%nat → SRC (b ++ [x]) = SRC b /\ forall o s, msg_hash o (b ++ [x]) s = msg_hash o b s.
Proof. intros L. do 7 (destruct b as [|? b]; [cbn in L; lia|]). done. Qed.

(** The network message cache is filled before the PDU is authenticated: a copy of a PDU in which the last byte of the MIC is another is refused, but its deobfuscated header is recorded as seen, and the authentic PDU that arrives afterwards is refused too.  (A node of one subnet, outside a key refresh.) *)
Theorem forged_copy_blocks mic0 k iv pdu b x y sub s : secured mic0 k iv pdu = b ++ [x] → x ≠ y → pdu_ok k iv pdu → hears k iv pdu (b ++ [x]) [] sub s → caches_ok s →
  subs s = [sub] → kr_phase sub = BT_MESH_KR_NORMAL → cache_seen (dup_val (b ++ [y])) (dup_cache s) = false →
  exists s' r, bt_mesh_net_decode (b ++ [y]) BT_MESH_NET_IF_ADV s = (- ENOENT, None, s') /\ r ≠ 0 /\
  fst (bt_mesh_net_decode (b ++ [x]) BT_MESH_NET_IF_ADV s') = (r, None).
Proof.
  intros E N [[L9 L18] [Hn Hi] Hs _] [_ Hv _ _ [Hk Hx] _ Hf] Hc Hsub Hkr Hdup.
  destruct (secured_spec mic0 k iv pdu ltac:(lia)) as (SL & S0 & c & So & _ & Sd). destruct (fields_head pdu c L9) as [Fs Fh]. rewrite E in SL, S0, So.
  rewrite length_app in SL. cbn [length] in SL. rewrite obfuscate_last in So by lia. set (ob := bt_mesh_net_obfuscate b iv (k_privacy k)) in *.
  assert (length ob = length b) as Lo by (apply obfuscate_shape; lia). assert (forall z, at_ 0 (b ++ [z]) = at_ 0 pdu) as A0 by (intros z; rewrite <- S0; unfold at_; rewrite !app_head by lia; done).
  assert (forall z, NID (b ++ [z]) = k_nid k /\ IVI (b ++ [z]) = Z.land iv 1) as An by (intros z; unfold NID, IVI; rewrite A0; done).
  assert (forall z, SRC (ob ++ [z]) = SRC pdu /\ forall o s, msg_hash o (ob ++ [z]) s = msg_hash o pdu s) as Ah.
  { intros z. destruct (hash_last ob z ltac:(lia)) as [H1 H2], (hash_last ob x ltac:(lia)) as [H3 H4]. rewrite <- Fs, <- So, H3. split; [done|]. intros o t. by rewrite <- Fh, <- So, H4. }
  assert (BT_MESH_NET_MIN_PDU_LEN <= Z.of_nat (length b + 1)) as Lm by (unfold BT_MESH_NET_MIN_PDU_LEN, BT_MESH_NET_HDR_LEN; lia).
  pose proof (iv_near_rx iv s Hv) as Ir. cbv zeta in Ir. set (old := negb _) in Ir, Hf.
  (* the forged copy *)
  pose (s1 := took_msg old pdu (took_dup (b ++ [y]) s)).
  assert (fst (bt_mesh_net_decrypt (k_enc k) (ob ++ [y]) iv false) = - EBADMSG) as Dy.
  { apply (net_tampered _ ob x y); [|done | by rewrite So, Sd]. assert (NET_MIC_LEN ob = NET_MIC_LEN pdu) as ->; [|lia].
    unfold NET_MIC_LEN. replace (nth 1 ob 0) with (nth 1 pdu 0); [done|]. rewrite <- (app_head ob [x]) by lia. rewrite So, app_head by (rewrite length_take; lia). by rewrite !nth_lookup, lookup_take_lt by lia. }
  assert (exists o a buf, net_decrypt BT_MESH_NET_IF_ADV (keys0 sub) (b ++ [y]) (took_dup (b ++ [y]) s) = (- EBADMSG, o, a, buf, s1)) as (o1 & a1 & b1 & D1).
  { pose proof (net_decrypt_adv k (b ++ [y]) iv (ob ++ [y]) (took_dup (b ++ [y]) s) Hv (proj2 (An y)) (obfuscate_last b y iv _ ltac:(lia)) ltac:(by rewrite (proj1 (Ah y)))) as D.
    cbv zeta in D. rewrite Hk. rewrite D. change (msg_cache (took_dup (b ++ [y]) s)) with (msg_cache s). change (iv_index (took_dup (b ++ [y]) s)) with (iv_index s). fold old.
    rewrite (proj2 (Ah y)). change (msg_hash old pdu (took_dup (b ++ [y]) s)) with (msg_hash old pdu s). rewrite Hf.
    rewrite (surjective_pairing (bt_mesh_net_decrypt _ _ _ _)), Dy. unfold s1, took_msg. rewrite (proj2 (Ah y)). eauto. }
  exists s1. assert (bt_mesh_net_decode (b ++ [y]) BT_MESH_NET_IF_ADV s = (- ENOENT, None, s1)) as ->.
  { eapply decode_refused; try done; [by rewrite length_app | rewrite Hk; apply An]. }
  (* the authentic PDU *)
  destruct (cache_seen (dup_val (b ++ [x])) (dup_cache s1)) eqn:Ed.
  - exists (- EINVAL). split; [done|]. split; [done|]. unfold bt_mesh_net_decode, check_dup. rewrite Ed, (proj2 (Z.ltb_ge _ _)) by (by rewrite length_app). done.
  - exists (- ENOENT). split; [done|]. split; [done|].
    assert (exists o a buf s2, net_decrypt BT_MESH_NET_IF_ADV (keys0 sub) (b ++ [x]) (took_dup (b ++ [x]) s1) = (- E_ALREADY, o, a, buf, s2)) as (o2 & a2 & b2 & s2 & D2).
    { pose proof (net_decrypt_adv k (b ++ [x]) iv (ob ++ [x]) (took_dup (b ++ [x]) s1) Hv (proj2 (An x)) (obfuscate_last b x iv _ ltac:(lia)) ltac:(by rewrite (proj1 (Ah x)))) as D.
      cbv zeta in D. rewrite Hk. rewrite D. change (iv_index (took_dup (b ++ [x]) s1)) with (iv_index s). fold old. rewrite (proj2 (Ah x)).
      change (msg_hash old pdu (took_dup (b ++ [x]) s1)) with (msg_hash old pdu s). destruct Hc as [[M1 M2] _].
      change (msg_cache (took_dup (b ++ [x]) s1)) with (fst (cache_put (msg_hash old pdu s) (msg_cache s) (msg_cache_next s))). rewrite cache_put_seen by lia. eauto. }
    rewrite (decode_refused (b ++ [x]) sub s1 _ _ _ _ _ ltac:(by rewrite length_app) Hsub Hkr Ed D2 ltac:(done) ltac:(rewrite Hk; apply An) Hx). done.
Qed.

(** ** Concrete nodes *)

Definition sample_keys : bt_mesh_subnet_keys := mkKeys (zeros 16) 104 sample_enc (zeros 8) (zeros 16) sample_priv (zeros 16).
Definition sample_sub : bt_mesh_subnet := mkSubnet 0 false BT_MESH_KR_NORMAL sample_keys sample_keys.
Definition sample_node (addr : Z) : net := mkNet 305419896 false 3221931 [sample_sub] (repeat 0 10) 0 (repeat 0 10) 0 [addr] true true [].
Definition sample_tx (ttl : Z) : net_tx := mkTx false 4609 65533 ttl.
Definition sample_pdu (ttl : Z) : list Z := net_header sample_keys 305419896 3221931 (sample_tx ttl) ++ [1; 2; 3; 4; 5; 6].

Lemma sample_tx_ok ttl : 0 <= ttl < 128 → tx_ok (sample_tx ttl).
Proof. intros H. split; cbn; (done || lia). Qed.

Lemma sample_hears ttl addr : (ttl, addr) = (3, 7) \/ (ttl, addr) = (2, 9) → hears sample_keys 305419896 (sample_pdu ttl) (secured [] sample_keys 305419896 (sample_pdu ttl)) [] sample_sub (sample_node addr).
Proof.
  intros H. split; [| |by exists []|constructor | done | |]; try (destruct H as [[= -> ->]|[= -> ->]]; vm_compute; reflexivity).
  split; [|split; [|by left]]; cbn; lia.
Qed.

Lemma net_roundtrip_witness : exists data rx s2', bt_mesh_net_encode [] 8 (sample_tx 3) sample_sub [1; 2; 3; 4; 5; 6] false (sample_node 4609) = (0, data, with_seq 3221932 (sample_node 4609)) /\
  bt_mesh_net_decode data BT_MESH_NET_IF_ADV (sample_node 7) = (0, Some (rx, sample_pdu 3), s2') /\
  rx_ctl rx = 0 /\ rx_recv_ttl rx = 3 /\ rx_seq rx = 3221931 /\ rx_src rx = 4609 /\ rx_dst rx = 65533 /\ rx_net_idx rx = 0 /\ drop 9 (sample_pdu 3) = [1; 2; 3; 4; 5; 6].
Proof.
  apply (net_roundtrip [] 8 (sample_tx 3) sample_sub [1; 2; 3; 4; 5; 6] (sample_node 4609) [] sample_sub (sample_node 7)); [cbn; lia | cbn; lia | apply sample_tx_ok; lia | cbn; lia |].
  apply sample_hears. by left.
Defined.

Lemma relay_roundtrip_witness : exists rx s' data rx3 s3', bt_mesh_net_decode (secured [] sample_keys 305419896 (sample_pdu 3)) BT_MESH_NET_IF_ADV (sample_node 7) = (0, Some (rx, sample_pdu 3), s') /\
  bt_mesh_net_relay [] (sample_pdu 3) rx true false s' = Some (data, true, true) /\
  bt_mesh_net_decode data BT_MESH_NET_IF_ADV (sample_node 9) = (0, Some (rx3, sample_pdu 2), s3') /\
  rx_recv_ttl rx3 = rx_recv_ttl rx - 1 /\ (rx_ctl rx3, rx_seq rx3, rx_src rx3, rx_dst rx3) = (rx_ctl rx, rx_seq rx, rx_src rx, rx_dst rx).
Proof.
  apply (relay_roundtrip [] [] sample_keys 305419896 3221931 (sample_tx 3) [1; 2; 3; 4; 5; 6] [] sample_sub (sample_node 7) [] sample_sub (sample_node 9));
    [cbn; lia | apply sample_tx_ok; lia | cbn; lia | cbn; lia | apply sample_hears; by left | reflexivity | reflexivity | apply sample_hears; by right].
Defined.

Lemma sample_caches addr : caches_ok (sample_node addr).
Proof. split; cbn; unfold CONFIG_BT_MESH_MSG_CACHE_SIZE; lia. Qed.

Lemma decode_type_witness : let s' := snd (bt_mesh_net_decode (secured [] sample_keys 305419896 (sample_pdu 3)) BT_MESH_NET_IF_ADV (sample_node 7)) in
  caches_ok s' /\ with_msg_cache [] 0 (with_dup_cache [] 0 s') = with_msg_cache [] 0 (with_dup_cache [] 0 (sample_node 7)).
Proof. apply (decode_type (secured [] sample_keys 305419896 (sample_pdu 3)) BT_MESH_NET_IF_ADV (sample_node 7)), sample_caches. Defined.

Lemma decode_once_witness : let s' := snd (bt_mesh_net_decode (secured [] sample_keys 305419896 (sample_pdu 3)) BT_MESH_NET_IF_ADV (sample_node 7)) in
  bt_mesh_net_decode (secured [] sample_keys 305419896 (sample_pdu 3)) BT_MESH_NET_IF_ADV s' = (- EINVAL, None, s').
Proof. apply (decode_once (secured [] sample_keys 305419896 (sample_pdu 3)) (sample_node 7)), sample_caches. Defined.

Lemma forged_copy_blocks_witness : exists b x, secured [] sample_keys 305419896 (sample_pdu 3) = b ++ [x] /\
  exists s' r, bt_mesh_net_decode (b ++ [0]) BT_MESH_NET_IF_ADV (sample_node 7) = (- ENOENT, None, s') /\ r ≠ 0 /\
  fst (bt_mesh_net_decode (b ++ [x]) BT_MESH_NET_IF_ADV s') = (r, None).
Proof.
  let d := eval vm_compute in (secured [] sample_keys 305419896 (sample_pdu 3)) in let b := eval vm_compute in (take 18 d) in let x := eval vm_compute in (at_ 18 d) in pose (fb := b); pose (fx := x).
  assert (secured [] sample_keys 305419896 (sample_pdu 3) = fb ++ [fx]) as E by (vm_compute; reflexivity). exists fb, fx. split; [exact E|].
  apply (forged_copy_blocks [] sample_keys 305419896 (sample_pdu 3) fb fx 0 sample_sub (sample_node 7) E); [discriminate | apply header_ok; [cbn; lia | apply sample_tx_ok; lia | cbn; lia] | | apply sample_caches | reflexivity | reflexivity | vm_compute; reflexivity].
  rewrite <- E. apply sample_hears. by left.
Defined.
