(* ===== verification/MeshTrans.v ===== *)
(** * MeshTrans: sending in the transport layer (bt_mesh/src/transport.c, adv.c, net.c)

    The buffers of the advertising bearer with their reference counts, the network
    layer's [bt_mesh_net_send] and [bt_mesh_net_resend], the contexts of segmented
    messages, [bt_mesh_trans_send].  Receiving is in MeshRecv.  Friendship and low power
    are off, as in the light example, so [friend_match] is false and
    [bt_mesh_lpn_established] too.  Pointers to subnets, contexts and buffers are their
    numbers. *)
From Stdlib Require Import ZArith Lia List Bool.
From stdpp Require Import base list numbers option.
From S2P Require Import Prelude Env Aes Cmac MeshCrypto MeshNet.
Local Open Scope Z_scope.

Definition EIO_trans : Z := 5.
Definition ENOMEM : Z := 12.
Definition EBUSY : Z := 16.
Definition EMSGSIZE : Z := 36.
Definition ENOPROTOOPT : Z := 42.
Definition ENOBUFS : Z := 55.
Definition ETIMEDOUT : Z := 60.
Definition ECANCELED : Z := 72.
Definition BT_MESH_KEY_DEV : Z := 65534.
Definition BT_MESH_ADDR_ALL_NODES : Z := 65535.
Definition BT_MESH_ADDR_RELAYS : Z := 65534.
Definition BT_MESH_ADDR_GENIE_ALL_NODES : Z := 53247.
Definition BT_MESH_ADDR_IS_GROUP (a : Z) : bool := (49152 <=? a) && (a <=? 65280).
Definition BT_MESH_ADDR_IS_VIRTUAL (a : Z) : bool := (32768 <=? a) && (a <? 49152).
Definition BT_MESH_ADV_DATA_SIZE : Z := 29.
Definition BT_MESH_TX_SEG_COUNT : nat := 8.
Definition BT_MESH_TX_SDU_MAX : Z := Z.of_nat BT_MESH_TX_SEG_COUNT * 12.
Definition SEG_RETRANSMIT_ATTEMPTS : Z := 1.
Definition IV_UPDATE_SEQ_LIMIT : Z := 11592960.
Definition K_HOURS (h : Z) : Z := h * 60 * 60 * 1000.

Definition AID_MASK : Z := 63.
Definition UNSEG_HDR (akf aid : Z) : Z := Z.lor (Z.shiftl akf 6) (Z.land aid AID_MASK).
Definition SEG_HDR (akf aid : Z) : Z := Z.lor (UNSEG_HDR akf aid) 128.
Definition BLOCK_COMPLETE (seg_n : Z) : Z := u32 (Z.shiftl 1 (seg_n + 1) - 1).
Definition SEQ_AUTH (iv seq : Z) : Z := Z.lor (Z.shiftl iv 24) seq.
Definition TRANS_CTL_HDR (op : Z) : Z := Z.land op 127.

(** ** State *)

(** Whom the bearer tells when a PDU was sent: the sender of the message ([UserCb]), or
    the context of the segmented message it belongs to. *)
Inductive send_cb := NoCb | UserCb (id : Z) | FirstSent (tx : nat) | SegSent (tx : nat).

(** A buffer of [adv_buf_pool] with its [struct bt_mesh_adv]; free when [ab_ref = 0]. *)
Record adv_buf := mkBuf { ab_ref : nat; ab_data : list Z; ab_attempts : Z; ab_busy : bool; ab_cb : send_cb }.

Record seg_tx := mkSegTx {
  stx_sub : option nat; stx_seg : list (option nat); stx_seq_auth : Z; stx_dst : Z; stx_seg_n : Z; stx_new_key : bool;
  stx_nack : Z; stx_cb : option Z; stx_timer : bool }.

(** [buf_data] and [buf.len] of the reassembly buffer are [srx_data] and [srx_len];
    [srx_ack] is the delay the acknowledgment timer was started with. *)
Record seg_rx := mkSegRx {
  srx_sub : nat; srx_seq_auth : Z; srx_seg_n : Z; srx_ctl : bool; srx_in_use : bool; srx_obo : bool; srx_hdr : Z; srx_ttl : Z;
  srx_src : Z; srx_dst : Z; srx_block : Z; srx_last : Z; srx_ack : option Z; srx_len : Z; srx_data : list Z }.

Record bt_mesh_app_key := mkAppKey { ak_net_idx : Z; ak_app_idx : Z; ak_updated : bool; ak_id0 : Z; ak_val0 : list Z; ak_id1 : Z; ak_val1 : list Z }.

(** What leaves the layer: PDUs to the proxy clients, calls to the sender's callbacks,
    messages to the access layer, heartbeats to the configuration server. *)
Inductive tevent :=
| EvProxy (data : list Z) (dst : Z)
| EvProxyAddr (src : Z)
| EvStart (id err : Z)
| EvEnd (id err : Z)
| EvModel (app_idx src dst ttl : Z) (sdu : list Z)
| EvHeartbeat (src dst hops feat : Z)
| EvBeacon.

(** What the layer asks of others and does not change: keys, label UUIDs, the groups the
    models are subscribed to, whether a proxy client takes an address, the default TTL,
    the heartbeat subscription, the clock, and the uninitialised MIC of CCM. *)
Record tcfg := mkCfg {
  app_keys : list bt_mesh_app_key; dev_key : list Z; labels : list (Z * list Z); groups : list Z; proxy_takes : Z → bool;
  default_ttl : Z; hb_sub_dst : Z; now : Z; mic0 : list Z }.

Record trans := mkTrans {
  tc : tcfg; tn : net; pool : list adv_buf; adv_queue : list nat; local_queue : list nat; txs : list seg_tx; rxs : list seg_rx;
  rpl_index : nat; pending_update : bool; last_update : Z; tlog : list tevent }.

Definition with_tn (n : net) (s : trans) : trans := mkTrans (tc s) n (pool s) (adv_queue s) (local_queue s) (txs s) (rxs s) (rpl_index s) (pending_update s) (last_update s) (tlog s).
Definition with_pool (p : list adv_buf) (s : trans) : trans := mkTrans (tc s) (tn s) p (adv_queue s) (local_queue s) (txs s) (rxs s) (rpl_index s) (pending_update s) (last_update s) (tlog s).
Definition with_queue (q : list nat) (s : trans) : trans := mkTrans (tc s) (tn s) (pool s) q (local_queue s) (txs s) (rxs s) (rpl_index s) (pending_update s) (last_update s) (tlog s).
Definition with_local (q : list nat) (s : trans) : trans := mkTrans (tc s) (tn s) (pool s) (adv_queue s) q (txs s) (rxs s) (rpl_index s) (pending_update s) (last_update s) (tlog s).
Definition with_txs (l : list seg_tx) (s : trans) : trans := mkTrans (tc s) (tn s) (pool s) (adv_queue s) (local_queue s) l (rxs s) (rpl_index s) (pending_update s) (last_update s) (tlog s).
Definition with_rxs (l : list seg_rx) (s : trans) : trans := mkTrans (tc s) (tn s) (pool s) (adv_queue s) (local_queue s) (txs s) l (rpl_index s) (pending_update s) (last_update s) (tlog s).
Definition with_rpl_index (i : nat) (s : trans) : trans := mkTrans (tc s) (tn s) (pool s) (adv_queue s) (local_queue s) (txs s) (rxs s) i (pending_update s) (last_update s) (tlog s).
Definition with_update (p : bool) (t : Z) (s : trans) : trans := mkTrans (tc s) (tn s) (pool s) (adv_queue s) (local_queue s) (txs s) (rxs s) (rpl_index s) p t (tlog s).
Definition emit (e : tevent) (s : trans) : trans := mkTrans (tc s) (tn s) (pool s) (adv_queue s) (local_queue s) (txs s) (rxs s) (rpl_index s) (pending_update s) (last_update s) (tlog s ++ [e]).

Definition on_tx (i : nat) (f : seg_tx → seg_tx) (s : trans) : trans := with_txs (alter f i (txs s)) s.
Definition on_buf (i : nat) (f : adv_buf → adv_buf) (s : trans) : trans := with_pool (alter f i (pool s)) s.

(** ** Buffers *)

Definition net_buf_ref (i : nat) : trans → trans := on_buf i (λ b, mkBuf (S (ab_ref b)) (ab_data b) (ab_attempts b) (ab_busy b) (ab_cb b)).
Definition net_buf_unref (i : nat) : trans → trans := on_buf i (λ b, mkBuf (pred (ab_ref b)) (ab_data b) (ab_attempts b) (ab_busy b) (ab_cb b)).
Definition buf_put (i : nat) (d : list Z) : trans → trans := on_buf i (λ b, mkBuf (ab_ref b) d (ab_attempts b) (ab_busy b) (ab_cb b)).
Definition buf_data (i : nat) (s : trans) : list Z := match pool s !! i with Some b => ab_data b | None => [] end.
Definition tailroom (d : list Z) : Z := BT_MESH_ADV_DATA_SIZE - BT_MESH_NET_HDR_LEN - Z.of_nat (length d).

Fixpoint find_free (p : list adv_buf) (i : nat) : option nat :=
  match p with [] => None | b :: p => if Nat.eqb (ab_ref b) 0 then Some i else find_free p (S i) end.
Definition bt_mesh_adv_create (s : trans) : option (nat * trans) :=
  match find_free (pool s) 0 with
  | None => None
  | Some i => Some (i, on_buf i (λ _, mkBuf 1 [] 0 false NoCb) s)
  end.

Definition bt_mesh_adv_send (i : nat) (cb : send_cb) (s : trans) : trans :=
  let s := on_buf i (λ b, mkBuf (S (ab_ref b)) (ab_data b) (ab_attempts b) true cb) s in
  with_queue (adv_queue s ++ [i]) s.

(** ** IV update *)

Definition bt_mesh_tx_in_progress (s : trans) : bool := existsb (λ t, truthy (stx_nack t)) (txs s).

Definition set_iv (iv : Z) (upd : bool) (seq : Z) (r : list bt_mesh_rpl) (n : net) : net :=
  mkNet iv upd seq (subs n) (msg_cache n) (msg_cache_next n) (dup_cache n) (dup_cache_next n) (elems n) (relay_on n) (proxy_on n) r.

(** From [do_update] on. *)
Definition iv_do_update (iv : Z) (upd : bool) (s : trans) : trans :=
  let n := tn s in
  let n := if upd then bt_mesh_rpl_reset (set_iv iv true (seq_num n) (rpl n) n) else set_iv (iv_index n) false 0 (rpl n) n in
  with_update (pending_update s) (now (tc s)) (with_tn n s).

Definition bt_mesh_net_iv_update (iv : Z) (upd : bool) (s : trans) : bool * trans :=
  let n := tn s in
  let recover := with_tn (set_iv iv (iv_update n) 0 (map (λ _, mkRpl 0 false 0) (rpl n)) n) s in
  let change :=
    if now (tc s) - last_update s <? K_HOURS 96 then (false, s) else
    if negb upd && bt_mesh_tx_in_progress s then (false, with_update true (last_update s) s) else
    (true, iv_do_update iv upd s) in
  if iv_update n then
    if negb (iv =? iv_index n) then (false, s) else if upd then (false, s) else change
  else
    if iv =? iv_index n then (false, s) else
    if (iv <? iv_index n) || (u32 (iv_index n + 42) <? iv) then (false, s) else
    if u32 (iv_index n + 1) <? iv then (true, iv_do_update iv upd recover) else
    if (iv =? u32 (iv_index n + 1)) && negb upd then (true, iv_do_update iv upd recover) else
    if negb upd then (false, s) else
    if negb (iv =? u32 (iv_index n + 1)) then (false, s) else change.

(** ** Segmented messages: ends *)

Definition clear_tx (t : seg_tx) : seg_tx := mkSegTx None (stx_seg t) 0 BT_MESH_ADDR_UNASSIGNED (stx_seg_n t) (stx_new_key t) (stx_nack t) None false.

(** The loop that releases the segments [0..seg_n] from number [j] on. *)
Fixpoint release_segs (k : nat) (i j : nat) (s : trans) : trans :=
  match k with
  | O => s
  | S k =>
    let s := match txs s !! i with
      | Some t => match stx_seg t !! j with
        | Some (Some b) => on_tx i (λ t, mkSegTx (stx_sub t) (<[j := None]> (stx_seg t)) (stx_seq_auth t) (stx_dst t) (stx_seg_n t) (stx_new_key t) (stx_nack t) (stx_cb t) (stx_timer t)) (net_buf_unref b s)
        | _ => s end
      | None => s end in
    release_segs k i (S j) s
  end.

Definition set_nack (n : Z) (t : seg_tx) : seg_tx := mkSegTx (stx_sub t) (stx_seg t) (stx_seq_auth t) (stx_dst t) (stx_seg_n t) (stx_new_key t) n (stx_cb t) (stx_timer t).
Definition set_timer (b : bool) (t : seg_tx) : seg_tx := mkSegTx (stx_sub t) (stx_seg t) (stx_seq_auth t) (stx_dst t) (stx_seg_n t) (stx_new_key t) (stx_nack t) (stx_cb t) b.

Definition seg_tx_reset (i : nat) (s : trans) : trans :=
  match txs s !! i with
  | None => s
  | Some t =>
    let s := on_tx i clear_tx s in
    if stx_nack t =? 0 then s else
    let s := release_segs (Z.to_nat (stx_seg_n t) + 1) i 0 s in
    let s := on_tx i (set_nack 0) s in
    if pending_update s then
      let s := with_update false (last_update s) s in
      let '(done_, s) := bt_mesh_net_iv_update (iv_index (tn s)) false s in
      if done_ then emit EvBeacon s else s
    else s
  end.

Definition seg_tx_complete (i : nat) (err : Z) (s : trans) : trans :=
  let s := match txs s !! i with Some t => match stx_cb t with Some id => emit (EvEnd id err) s | None => s end | None => s end in
  seg_tx_reset i s.

Definition seg_sent (i : nat) (s : trans) : trans :=
  match txs s !! i with
  | None => s
  | Some t => if negb (BT_MESH_ADDR_IS_UNICAST (stx_dst t)) then seg_tx_complete i (- ENOPROTOOPT) s else on_tx i (set_timer true) s
  end.

(** The callbacks of a buffer. *)
Definition cb_start (cb : send_cb) (err : Z) (s : trans) : trans :=
  match cb with
  | UserCb id => emit (EvStart id err) s
  | FirstSent i => match txs s !! i with Some t => match stx_cb t with Some id => emit (EvStart id err) s | None => s end | None => s end
  | _ => s
  end.
Definition cb_end (cb : send_cb) (err : Z) (s : trans) : trans :=
  match cb with
  | NoCb => s
  | UserCb id => emit (EvEnd id err) s
  | FirstSent i | SegSent i => seg_sent i s
  end.

(** ** Network layer, sending *)

(** [struct bt_mesh_net_tx] with its message context. *)
Record msg_tx := mkMsgTx { mt_sub : nat; mt_app_idx : Z; mt_dst : Z; mt_ttl : Z; mt_src : Z; mt_send_rel : bool; mt_aszmic : Z; mt_aid : Z }.

Definition bt_mesh_fixed_group_match (a : Z) (s : trans) : bool :=
  if (a =? BT_MESH_ADDR_ALL_NODES) || (a =? BT_MESH_ADDR_GENIE_ALL_NODES) then true
  else if a =? BT_MESH_ADDR_RELAYS then relay_on (tn s) else false.
Definition elem_find (a : Z) (s : trans) : bool :=
  if BT_MESH_ADDR_IS_GROUP a || BT_MESH_ADDR_IS_VIRTUAL a then existsb (Z.eqb a) (groups (tc s)) || (a =? BT_MESH_ADDR_GENIE_ALL_NODES)
  else bt_mesh_elem_find a (tn s).

(** Takes over the reference to the buffer. *)
Definition bt_mesh_net_send (tx : msg_tx) (i : nat) (cb : send_cb) (s : trans) : Z * trans :=
  let ttl := if mt_ttl tx =? BT_MESH_TTL_DEFAULT then default_ttl (tc s) else mt_ttl tx in
  match subs (tn s) !! mt_sub tx with
  | None => (- EINVAL, net_buf_unref i s)
  | Some sub =>
    let d := buf_data i s in
    let '(err, c, n) := bt_mesh_net_encode (mic0 (tc s)) (tailroom d) (mkTx (mt_app_idx tx =? BT_MESH_KEY_UNUSED) (mt_src tx) (mt_dst tx) ttl) sub d false (tn s) in
    let s := buf_put i c (with_tn n s) in
    if negb (err =? 0) then (err, net_buf_unref i s) else
    let s := if ttl =? 1 then s else emit (EvProxy c (mt_dst tx)) s in
    if negb (ttl =? 1) && proxy_takes (tc s) (mt_dst tx) && BT_MESH_ADDR_IS_UNICAST (mt_dst tx)
    then (0, net_buf_unref i (cb_end cb 0 (cb_start cb 0 s))) else
    let s :=
      if bt_mesh_fixed_group_match (mt_dst tx) s || elem_find (mt_dst tx) s then
        let s := net_buf_ref i (cb_start cb 0 s) in
        cb_end cb 0 (with_local (local_queue s ++ [i]) s)
      else if negb (ttl =? 1) then bt_mesh_adv_send i cb s else s in
    (0, net_buf_unref i s)
  end.

(** A segment goes out again; a high sequence number starts the IV update. *)
Definition net_resend (subi : nat) (i : nat) (new_key : bool) (cb : send_cb) (s : trans) : Z * trans :=
  match subs (tn s) !! subi with
  | None => (- EINVAL, s)
  | Some sub =>
    let '(err, c, n) := bt_mesh_net_resend (mic0 (tc s)) sub new_key (buf_data i s) (tn s) in
    let s := buf_put i c (with_tn n s) in
    if negb (err =? 0) then (err, s) else
    let s := bt_mesh_adv_send i cb s in
    if negb (iv_update (tn s)) && (IV_UPDATE_SEQ_LIMIT <? seq_num (tn s))
    then (0, emit EvBeacon (snd (bt_mesh_net_iv_update (u32 (iv_index (tn s) + 1)) true s)))
    else (0, s)
  end.

(** ** Segmented messages: sending *)

(** The loop of [seg_tx_send_unacked] from segment [j] on. *)
Fixpoint send_unacked (k : nat) (i j : nat) (s : trans) : trans :=
  match k with
  | O => s
  | S k =>
    match txs s !! i with
    | None => s
    | Some t =>
      match stx_seg t !! j with
      | Some (Some b) =>
        match pool s !! b with
        | None => s
        | Some buf =>
          if ab_busy buf then send_unacked k i (S j) s else
          let s := on_buf b (λ b, mkBuf (ab_ref b) (ab_data b) (u8 (ab_attempts b - 1)) (ab_busy b) (ab_cb b)) s in
          if ab_attempts buf =? 0 then seg_tx_complete i (- ETIMEDOUT) s else
          match stx_sub t with
          | None => s
          | Some subi =>
            let '(err, s) := net_resend subi b (stx_new_key t) (SegSent i) s in
            if negb (err =? 0) then seg_tx_complete i (- EIO_trans) s else send_unacked k i (S j) s
          end
        end
      | _ => send_unacked k i (S j) s
      end
    end
  end.
Definition seg_tx_send_unacked (i : nat) (s : trans) : trans :=
  match txs s !! i with None => s | Some t => send_unacked (Z.to_nat (stx_seg_n t) + 1) i 0 s end.
Definition seg_retransmit (i : nat) (s : trans) : trans := seg_tx_send_unacked i (on_tx i (set_timer false) s).

(** The header of segment [seg_o] of [seg_n], and the segment. *)
Definition seg_header (seg_hdr aszmic seq_zero seg_o seg_n : Z) : list Z :=
  [u8 seg_hdr; u8 (Z.lor (Z.shiftl aszmic 7) (Z.shiftr seq_zero 6)); u8 (Z.lor (Z.shiftl (Z.land seq_zero 63) 2) (Z.shiftr seg_o 3));
   u8 (Z.lor (Z.shiftl (Z.land seg_o 7) 5) seg_n)].

Definition app_hdr (mk : Z → Z → Z) (tx : msg_tx) : Z := if mt_app_idx tx =? BT_MESH_KEY_DEV then mk 0 0 else mk 1 (mt_aid tx).

Fixpoint send_segs (fuel : nat) (tx : msg_tx) (i : nat) (seq_zero : Z) (seg_o : nat) (sdu : list Z) (s : trans) : Z * trans :=
  match fuel, sdu with
  | O, _ | _, [] => (0, s)
  | S fuel, _ =>
    match bt_mesh_adv_create s with
    | None => (- ENOBUFS, seg_tx_reset i s)
    | Some (b, s) =>
      let seg_n := match txs s !! i with Some t => stx_seg_n t | None => 0 end in
      let d := seg_header (app_hdr SEG_HDR tx) (mt_aszmic tx) seq_zero (Z.of_nat seg_o) seg_n ++ take 12 sdu in
      let s := on_buf b (λ x, mkBuf (S (ab_ref x)) d SEG_RETRANSMIT_ATTEMPTS (ab_busy x) (ab_cb x)) s in
      let s := on_tx i (λ t, mkSegTx (stx_sub t) (<[seg_o := Some b]> (stx_seg t)) (stx_seq_auth t) (stx_dst t) (stx_seg_n t) (stx_new_key t) (stx_nack t) (stx_cb t) (stx_timer t)) s in
      let '(err, s) := bt_mesh_net_send tx b (if Nat.eqb seg_o 0 then FirstSent i else SegSent i) s in
      if negb (err =? 0) then (err, seg_tx_reset i s) else send_segs fuel tx i seq_zero (S seg_o) (drop 12 sdu) s
    end
  end.

Fixpoint find_idle (l : list seg_tx) (i : nat) : option nat :=
  match l with [] => None | t :: l => if stx_nack t =? 0 then Some i else find_idle l (S i) end.

Definition send_seg (tx : msg_tx) (sdu : list Z) (cb : option Z) (s : trans) : Z * trans :=
  let len := Z.of_nat (length sdu) in
  if len <? 1 then (- EINVAL, s) else
  if BT_MESH_TX_SDU_MAX <? len then (- EMSGSIZE, s) else
  match find_idle (txs s) 0 with
  | None => (- EBUSY, s)
  | Some i =>
    let seg_n := (len - 1) / 12 in
    let seq_auth := SEQ_AUTH (IVI_TX (tn s)) (seq_num (tn s)) in
    let new_key := match subs (tn s) !! mt_sub tx with Some sub => kr_flag sub | None => false end in
    let s := on_tx i (λ t, mkSegTx (Some (mt_sub tx)) (stx_seg t) seq_auth (mt_dst tx) seg_n new_key (seg_n + 1) cb (stx_timer t)) s in
    send_segs (length sdu) tx i (Z.land seq_auth 8191) 0 sdu s
  end.

Definition send_unseg (tx : msg_tx) (sdu : list Z) (cb : send_cb) (s : trans) : Z * trans :=
  match bt_mesh_adv_create s with
  | None => (- ENOBUFS, s)
  | Some (b, s) => bt_mesh_net_send tx b cb (buf_put b (u8 (app_hdr UNSEG_HDR tx) :: sdu) s)
  end.

Definition bt_mesh_ctl_send (tx : msg_tx) (op : Z) (data : list Z) (cb : send_cb) (s : trans) : Z * trans :=
  match bt_mesh_adv_create s with
  | None => (- ENOBUFS, s)
  | Some (b, s) => bt_mesh_net_send tx b cb (buf_put b (TRANS_CTL_HDR op :: data) s)
  end.

(** ** Access messages *)

Definition bt_mesh_app_key_find (app_idx : Z) (l : list bt_mesh_app_key) : option bt_mesh_app_key :=
  find (λ k, negb (ak_net_idx k =? BT_MESH_KEY_UNUSED) && (ak_app_idx k =? app_idx)) l.
Definition bt_mesh_label_uuid_get (a : Z) (l : list (Z * list Z)) : option (list Z) := option_map snd (find (λ p, fst p =? a) l).
Definition label_of (dst : Z) (s : trans) : option (list Z) := if BT_MESH_ADDR_IS_VIRTUAL dst then bt_mesh_label_uuid_get dst (labels (tc s)) else None.

(** The key of a message and its identifier. *)
Definition trans_key (tx : msg_tx) (s : trans) : option (list Z * Z) :=
  if mt_app_idx tx =? BT_MESH_KEY_DEV then Some (dev_key (tc s), 0) else
  match bt_mesh_app_key_find (mt_app_idx tx) (app_keys (tc s)) with
  | None => None
  | Some k =>
    let phase := match subs (tn s) !! mt_sub tx with Some sub => kr_phase sub | None => BT_MESH_KR_NORMAL end in
    if (phase =? BT_MESH_KR_PHASE_2) && ak_updated k then Some (ak_val1 k, ak_id1 k) else Some (ak_val0 k, ak_id0 k)
  end.

(** [room] is the tail room of the message's buffer, [cb] the sender's callback. *)
Definition bt_mesh_trans_send (tx : msg_tx) (msg : list Z) (room : Z) (cb : option Z) (s : trans) : Z * trans :=
  if room <? 4 then (- EINVAL, s) else
  let rel := mt_send_rel tx || (11 <? Z.of_nat (length msg)) in
  match trans_key tx s with
  | None => (- EINVAL, s)
  | Some (key, aid) =>
    let aszmic := if negb rel || (room <? 8) then 0 else 1 in
    let tx := mkMsgTx (mt_sub tx) (mt_app_idx tx) (mt_dst tx) (mt_ttl tx) (mt_src tx) rel aszmic aid in
    let '(err, sdu) := bt_mesh_app_encrypt (mic0 (tc s)) key (mt_app_idx tx =? BT_MESH_KEY_DEV) aszmic msg (label_of (mt_dst tx) s)
                         (mt_src tx) (mt_dst tx) (seq_num (tn s)) (IVI_TX (tn s)) in
    if negb (err =? 0) then (err, s) else
    if rel then send_seg tx sdu cb s else send_unseg tx sdu (match cb with Some id => UserCb id | None => NoCb end) s
  end.

(** ** The bearer *)

(** The advertising thread takes the next buffer: what went on the air, if it was not
    cancelled.  Starting and stopping the controller succeed. *)
Definition adv_thread (s : trans) : option (list Z) * trans :=
  match adv_queue s with
  | [] => (None, s)
  | i :: q =>
    let s := with_queue q s in
    match pool s !! i with
    | None => (None, s)
    | Some b =>
      if ab_busy b then
        let s := on_buf i (λ b, mkBuf (ab_ref b) (ab_data b) (ab_attempts b) false (ab_cb b)) s in
        (Some (ab_data b), cb_end (ab_cb b) 0 (cb_start (ab_cb b) 0 (net_buf_unref i s)))
      else (None, net_buf_unref i s)
    end
  end.

Definition bt_mesh_tx_reset (s : trans) : trans := fold_left (λ s i, seg_tx_reset i s) (seq 0 (length (txs s))) s.
