(* ===== verification/MeshRecv.v ===== *)
(** * MeshRecv: receiving in the transport layer (bt_mesh/src/transport.c, net.c)

    Replay protection, acknowledgments of segments, reassembly, decryption of access
    messages, and [bt_mesh_net_recv], which joins the layers. *)
From Stdlib Require Import ZArith Lia List Bool.
From stdpp Require Import base list numbers option.
From S2P Require Import Prelude Env Aes Cmac MeshCrypto MeshNet MeshTrans.
Local Open Scope Z_scope.

Definition CONFIG_BT_MESH_CRPL : nat := 5.
Definition CONFIG_BT_MESH_RX_SDU_MAX : Z := 384.
Definition TRANS_CTL_OP_ACK : Z := 0.
Definition TRANS_CTL_OP_HEARTBEAT : Z := 10.

Definition SEG (d : list Z) : Z := Z.shiftr (at_ 0 d) 7.
Definition AKF (hdr : Z) : Z := Z.land (Z.shiftr hdr 6) 1.
Definition AID (hdr : Z) : Z := Z.land hdr AID_MASK.
Definition ASZMIC (d : list Z) : Z := Z.land (Z.shiftr (at_ 1 d) 7) 1.

(** ** Replay protection *)

(** The walk over the list: [None] when it is full and has no entry for the source. *)
Fixpoint rpl_walk (src seq : Z) (old_iv : bool) (l : list bt_mesh_rpl) : option (bool * list bt_mesh_rpl) :=
  match l with
  | [] => None
  | r :: l =>
    if negb (truthy (rpl_src r)) then Some (false, mkRpl src old_iv seq :: l) else
    if rpl_src r =? src then
      if old_iv && negb (rpl_old_iv r) then Some (true, r :: l) else
      if (negb old_iv && rpl_old_iv r) || (rpl_seq r <? seq) then Some (false, mkRpl src old_iv seq :: l) else Some (true, r :: l)
    else match rpl_walk src seq old_iv l with Some (b, l') => Some (b, r :: l') | None => None end
  end.

(** A full list: entry [index], a static variable, is overwritten. *)
Definition is_replay (rx : net_rx) (s : trans) : bool * trans :=
  match rpl_walk (rx_src rx) (rx_seq rx) (rx_old_iv rx) (rpl (tn s)) with
  | Some (b, l) => (b, with_tn (with_rpl l (tn s)) s)
  | None =>
    (false, with_rpl_index ((rpl_index s + 1) mod CONFIG_BT_MESH_CRPL)
              (with_tn (with_rpl (<[rpl_index s := mkRpl (rx_src rx) (rx_old_iv rx) (rx_seq rx)]> (rpl (tn s))) (tn s)) s))
  end.

(** ** Access messages *)

(** The loop over the application keys: index and plaintext. *)
Fixpoint try_keys (l : list bt_mesh_app_key) (rx : net_rx) (net_idx hdr aszmic : Z) (mem : list Z) (len : nat) (ad : option (list Z)) (iv : Z) : option (Z * list Z) :=
  match l with
  | [] => None
  | k :: l =>
    let next := try_keys l rx net_idx hdr aszmic mem len ad iv in
    if negb (ak_net_idx k =? net_idx) then next else
    let '(id, val) := if rx_new_key rx && ak_updated k then (ak_id1 k, ak_val1 k) else (ak_id0 k, ak_val0 k) in
    if negb (AID hdr =? id) then next else
    let '(err, out) := bt_mesh_app_decrypt val false aszmic mem len ad (rx_src rx) (rx_dst rx) (rx_seq rx) iv in
    if negb (err =? 0) then next else Some (ak_app_idx k, out)
  end.

Definition sdu_recv (rx : net_rx) (hdr aszmic : Z) (buf : list Z) (s : trans) : Z * trans :=
  if (length buf <? 1 + APP_MIC_LEN aszmic)%nat then (- EINVAL, s) else
  let ad := label_of (rx_dst rx) s in
  let len := (length buf - APP_MIC_LEN aszmic)%nat in
  let iv := IVI_RX (rx_old_iv rx) (tn s) in
  if negb (truthy (AKF hdr)) then
    let '(err, out) := bt_mesh_app_decrypt (dev_key (tc s)) true aszmic buf len ad (rx_src rx) (rx_dst rx) (rx_seq rx) iv in
    if negb (err =? 0) then (- EINVAL, s) else (0, emit (EvModel BT_MESH_KEY_DEV (rx_src rx) (rx_dst rx) (rx_recv_ttl rx) out) s)
  else
    let net_idx := match subs (tn s) !! rx_sub rx with Some sub => sub_net_idx sub | None => BT_MESH_KEY_UNUSED end in
    match try_keys (app_keys (tc s)) rx net_idx hdr aszmic buf len ad iv with
    | Some (app_idx, out) => (0, emit (EvModel app_idx (rx_src rx) (rx_dst rx) (rx_recv_ttl rx) out) s)
    | None => (- EINVAL, s)
    end.

(** ** Acknowledgments *)

Fixpoint tx_lookup (seq_zero : Z) (obo : bool) (addr : Z) (l : list seg_tx) (i : nat) : option nat :=
  match l with
  | [] => None
  | t :: l =>
    if negb (Z.land (stx_seq_auth t) 8191 =? seq_zero) then tx_lookup seq_zero obo addr l (S i) else
    if (stx_dst t =? addr) || (obo && (stx_nack t =? stx_seg_n t + 1)) then Some i else tx_lookup seq_zero obo addr l (S i)
  end.
(** The context of an acknowledgment; its destination is the sender of the first one
    that comes on behalf of it. *)
Definition seg_tx_lookup (seq_zero : Z) (obo : bool) (addr : Z) (s : trans) : option (nat * trans) :=
  match tx_lookup seq_zero obo addr (txs s) 0 with
  | None => None
  | Some i => Some (i, on_tx i (λ t, mkSegTx (stx_sub t) (stx_seg t) (stx_seq_auth t) addr (stx_seg_n t) (stx_new_key t) (stx_nack t) (stx_cb t) (stx_timer t)) s)
  end.

Definition find_msb_set (d : Z) : Z := if d =? 0 then 0 else Z.log2 d + 1.

(** The loop over the bits of an acknowledgment, from bit [j] on. *)
Fixpoint ack_segs (k : nat) (ack : Z) (i j : nat) (s : trans) : trans :=
  match k with
  | O => s
  | S k =>
    let s :=
      if Z.testbit ack (Z.of_nat j) then
        match txs s !! i with
        | Some t => match stx_seg t !! j with
          | Some (Some b) =>
            on_tx i (λ t, mkSegTx (stx_sub t) (<[j := None]> (stx_seg t)) (stx_seq_auth t) (stx_dst t) (stx_seg_n t) (stx_new_key t) (u8 (stx_nack t - 1)) (stx_cb t) (stx_timer t)) (net_buf_unref b s)
          | _ => s end
        | None => s end
      else s in
    ack_segs k ack i (S j) s
  end.

Definition trans_ack (rx : net_rx) (buf : list Z) (s : trans) : Z * trans :=
  if (length buf <? 6)%nat then (- EINVAL, s) else
  let w := get_be16 (at_ 0 buf) (at_ 1 buf) in
  let obo := truthy (Z.shiftr w 15) in
  let seq_zero := Z.land (Z.shiftr w 2) 8191 in
  let ack := get_be32 (drop 2 buf) in
  match seg_tx_lookup seq_zero obo (rx_src rx) s with
  | None => (- EINVAL, s)
  | Some (i, s) =>
    if ack =? 0 then (0, seg_tx_complete i (- ECANCELED) s) else
    let seg_n := match txs s !! i with Some t => stx_seg_n t | None => 0 end in
    if seg_n <? find_msb_set ack - 1 then (- EINVAL, s) else
    let s := on_tx i (set_timer false) s in
    let s := ack_segs 32 ack i 0 s in
    let nack := match txs s !! i with Some t => stx_nack t | None => 0 end in
    if truthy nack then (0, seg_tx_send_unacked i s) else (0, seg_tx_complete i 0 s)
  end.

Definition trans_heartbeat (rx : net_rx) (buf : list Z) (s : trans) : Z * trans :=
  if (length buf <? 3)%nat then (- EINVAL, s) else
  if negb (rx_dst rx =? hb_sub_dst (tc s)) then (0, s) else
  let init_ttl := Z.land (at_ 0 buf) 127 in
  let feat := get_be16 (at_ 1 buf) (at_ 2 buf) in
  (0, emit (EvHeartbeat (rx_src rx) (rx_dst rx) (u8 (init_ttl - rx_recv_ttl rx + 1)) feat) s).

Definition ctl_recv (rx : net_rx) (local_match : bool) (hdr : Z) (buf : list Z) (s : trans) : Z * trans :=
  let op := Z.land hdr 127 in
  if op =? TRANS_CTL_OP_ACK then trans_ack rx buf s else
  if op =? TRANS_CTL_OP_HEARTBEAT then trans_heartbeat rx buf s else
  if negb local_match then (0, s) else (- ENOENT, s).

Definition trans_unseg (buf : list Z) (rx : net_rx) (local_match : bool) (s : trans) : Z * trans :=
  match buf with
  | [] => (- EINVAL, s)
  | hdr :: buf =>
    let '(replay, s) := if local_match then is_replay rx s else (false, s) in
    if replay then (- EINVAL, s) else
    if truthy (rx_ctl rx) then ctl_recv rx local_match hdr buf s else
    if negb local_match then (0, s) else sdu_recv rx hdr 0 buf s
  end.

(** ** Reassembly *)

Definition popcount (b : Z) : Z := fold_left (λ n j, n + Z.b2z (Z.testbit b (Z.of_nat j))) (seq 0 32) 0.
Definition ack_timeout (r : seg_rx) : Z := Z.max (150 + 50 * srx_ttl r + (srx_seg_n r + 1 - popcount (srx_block r)) * 100) 400.

Definition send_ack (subi : nat) (src dst ttl seq_auth block : Z) (obo : bool) (s : trans) : Z * trans :=
  let seq_zero := Z.land seq_auth 8191 in
  if negb (BT_MESH_ADDR_IS_UNICAST src) then (0, s) else
  let src := if obo then hd 0 (elems (tn s)) else src in
  let buf := be16 (Z.lor (Z.land (Z.shiftl seq_zero 2) 32764) (Z.shiftl (Z.b2z obo) 15)) ++ be32 block in
  bt_mesh_ctl_send (mkMsgTx subi BT_MESH_KEY_UNUSED dst ttl src false 0 0) TRANS_CTL_OP_ACK buf NoCb s.

Definition on_rx (i : nat) (f : seg_rx → seg_rx) (s : trans) : trans := with_rxs (alter f i (rxs s)) s.
Definition set_ack_timer (a : option Z) (r : seg_rx) : seg_rx :=
  mkSegRx (srx_sub r) (srx_seq_auth r) (srx_seg_n r) (srx_ctl r) (srx_in_use r) (srx_obo r) (srx_hdr r) (srx_ttl r) (srx_src r) (srx_dst r) (srx_block r) (srx_last r) a (srx_len r) (srx_data r).
Definition idle_rx (r : seg_rx) : seg_rx :=
  mkSegRx (srx_sub r) (srx_seq_auth r) (srx_seg_n r) (srx_ctl r) false (srx_obo r) (srx_hdr r) (srx_ttl r) (srx_src r) (srx_dst r) (srx_block r) (srx_last r) None (srx_len r) (srx_data r).
Definition set_block (b : Z) (r : seg_rx) : seg_rx :=
  mkSegRx (srx_sub r) (srx_seq_auth r) (srx_seg_n r) (srx_ctl r) (srx_in_use r) (srx_obo r) (srx_hdr r) (srx_ttl r) (srx_src r) (srx_dst r) b (srx_last r) (srx_ack r) (srx_len r) (srx_data r).
Definition set_len (n : Z) (r : seg_rx) : seg_rx :=
  mkSegRx (srx_sub r) (srx_seq_auth r) (srx_seg_n r) (srx_ctl r) (srx_in_use r) (srx_obo r) (srx_hdr r) (srx_ttl r) (srx_src r) (srx_dst r) (srx_block r) (srx_last r) (srx_ack r) n (srx_data r).

Definition seg_rx_reset (i : nat) : trans → trans := on_rx i idle_rx.

(** The acknowledgment timer of context [i]. *)
Definition seg_ack (i : nat) (s : trans) : trans :=
  match rxs s !! i with
  | None => s
  | Some r =>
    let s := on_rx i (set_ack_timer None) s in
    if 60000 <? u32 (now (tc s) - srx_last r)
    then seg_rx_reset i (snd (send_ack (srx_sub r) (srx_dst r) (srx_src r) (srx_ttl r) (srx_seq_auth r) 0 (srx_obo r) s))
    else on_rx i (set_ack_timer (Some (ack_timeout r))) (snd (send_ack (srx_sub r) (srx_dst r) (srx_src r) (srx_ttl r) (srx_seq_auth r) (srx_block r) (srx_obo r) s))
  end.

Definition seg_len (ctl : bool) : Z := if ctl then 8 else 12.
Definition sdu_len_is_ok (ctl : bool) (seg_n : Z) : bool := seg_n * seg_len ctl + 1 <=? CONFIG_BT_MESH_RX_SDU_MAX.

(** Which context, or which one to clear because its sender has started anew. *)
Inductive find_result := Found (i : nat) | Superseded (i : nat) | NotFound.
Fixpoint rx_find (src dst seq_auth : Z) (l : list seg_rx) (i : nat) : find_result :=
  match l with
  | [] => NotFound
  | r :: l =>
    if negb (srx_src r =? src) || negb (srx_dst r =? dst) then rx_find src dst seq_auth l (S i) else
    if srx_seq_auth r =? seq_auth then Found i else
    if srx_in_use r then Superseded i else rx_find src dst seq_auth l (S i)
  end.
Definition seg_rx_find (rx : net_rx) (seq_auth : Z) (s : trans) : option nat * trans :=
  match rx_find (rx_src rx) (rx_dst rx) seq_auth (rxs s) 0 with
  | Found i => (Some i, s)
  | Superseded i => (None, seg_rx_reset i s)
  | NotFound => (None, s)
  end.

Definition seg_rx_is_valid (r : seg_rx) (rx : net_rx) (hdr seg_n : Z) : bool :=
  (srx_hdr r =? hdr) && (srx_seg_n r =? seg_n) && (srx_src r =? rx_src rx) && (srx_dst r =? rx_dst rx) && Bool.eqb (srx_ctl r) (truthy (rx_ctl rx)).

Fixpoint find_unused (l : list seg_rx) (i : nat) : option nat :=
  match l with [] => None | r :: l => if srx_in_use r then find_unused l (S i) else Some i end.
(** The acknowledgment timer and the time of the last segment keep their values. *)
Definition new_rx (rx : net_rx) (hdr seq_auth seg_n : Z) (r : seg_rx) : seg_rx :=
  mkSegRx (rx_sub rx) seq_auth seg_n (truthy (rx_ctl rx)) true false hdr (rx_send_ttl rx) (rx_src rx) (rx_dst rx) 0 (srx_last r) (srx_ack r) 0 (srx_data r).
Definition seg_rx_alloc (rx : net_rx) (hdr seq_auth seg_n : Z) (s : trans) : option (nat * trans) :=
  match find_unused (rxs s) 0 with
  | None => None
  | Some i => Some (i, on_rx i (new_rx rx hdr seq_auth seg_n) s)
  end.

Definition MESH_BIT (n : Z) : Z := Z.shiftl 1 n.
Definition with_rx_seq (n : Z) (rx : net_rx) : net_rx :=
  mkRx (rx_net_if rx) (rx_sub rx) (rx_net_idx rx) (rx_new_key rx) (rx_old_iv rx) (rx_ctl rx) n (rx_src rx) (rx_dst rx) (rx_recv_ttl rx) (rx_send_ttl rx).

(** Storing a segment: the incomplete timer, the acknowledgment timer, the data, the
    bit of the segment. *)
Definition store_seg (t seg_o : Z) (d : list Z) (r : seg_rx) : seg_rx :=
  mkSegRx (srx_sub r) (srx_seq_auth r) (srx_seg_n r) (srx_ctl r) (srx_in_use r) (srx_obo r) (srx_hdr r) (srx_ttl r) (srx_src r) (srx_dst r)
    (Z.lor (srx_block r) (MESH_BIT seg_o)) t (Some (match srx_ack r with Some a => a | None => ack_timeout r end)) (srx_len r)
    (store_at (Z.to_nat (seg_o * seg_len (srx_ctl r))) d (srx_data r)).

(** From [found_rx] on: a segment for context [i]. *)
Definition seg_found (i : nat) (r : seg_rx) (rx : net_rx) (local_match : bool) (hdr aszmic seq_auth seg_o seg_n : Z) (d : list Z) (s : trans) : Z * trans :=
  if truthy (Z.land (MESH_BIT seg_o) (srx_block r)) then (- E_ALREADY, s) else
  let len := u16 (seg_n * seg_len (srx_ctl r) + Z.of_nat (length d)) in
  let s := if seg_o =? seg_n then on_rx i (set_len len) s else s in
  if (seg_o =? seg_n) && (CONFIG_BT_MESH_RX_SDU_MAX <? len) then
    (- EMSGSIZE, seg_rx_reset i (snd (send_ack (rx_sub rx) (rx_dst rx) (rx_src rx) (rx_send_ttl rx) seq_auth 0 (srx_obo r) s)))
  else if negb (seg_o =? seg_n) && negb (Z.of_nat (length d) =? seg_len (srx_ctl r)) then (- EINVAL, s) else
  let s := on_rx i (store_seg (u32 (now (tc s))) seg_o d) s in
  let block := Z.lor (srx_block r) (MESH_BIT seg_o) in
  if negb (block =? BLOCK_COMPLETE seg_n) then (0, s) else
  let '(replay, s) := if local_match then is_replay rx s else (false, s) in
  if replay then (- EINVAL, on_rx i (set_block (srx_block r)) s) else
  let rx := with_rx_seq (Z.land (srx_seq_auth r) 16777215) rx in
  let s := on_rx i (set_ack_timer None) s in
  let s := snd (send_ack (rx_sub rx) (rx_dst rx) (rx_src rx) (rx_send_ttl rx) seq_auth block (srx_obo r) s) in
  let sdu := match rxs s !! i with Some r => take (Z.to_nat (srx_len r)) (srx_data r) | None => [] end in
  let '(err, s) := if truthy (rx_ctl rx) then ctl_recv rx local_match hdr sdu s else sdu_recv rx hdr aszmic sdu s in
  (err, seg_rx_reset i s).

Definition trans_seg (buf : list Z) (rx : net_rx) (local_match : bool) (s : trans) : Z * trans :=
  if (length buf <? 5)%nat then (- EINVAL, s) else
  let hdr := at_ 0 buf in
  let w := get_be16 (at_ 1 buf) (at_ 2 buf) in
  let seq_zero := Z.land (Z.shiftr w 2) 8191 in
  let seg_o := Z.lor (Z.shiftl (Z.land w 3) 3) (Z.shiftr (at_ 3 buf) 5) in
  let seg_n := Z.land (at_ 3 buf) 31 in
  let d := drop 4 buf in
  if seg_n <? seg_o then (- EINVAL, s) else
  let seq_auth := SEQ_AUTH (IVI_RX (rx_old_iv rx) (tn s)) (Z.lor (Z.land (rx_seq rx) 4294959104) seq_zero) in
  let '(f, s) := seg_rx_find rx seq_auth s in
  match f with
  | Some i =>
    match rxs s !! i with
    | None => (- EINVAL, s)
    | Some r =>
      if negb (seg_rx_is_valid r rx hdr seg_n) then (- EINVAL, s) else
      if srx_in_use r then seg_found i r rx local_match hdr (ASZMIC buf) seq_auth seg_o seg_n d s else
      if srx_block r =? BLOCK_COMPLETE (srx_seg_n r) then
        (- E_ALREADY, snd (send_ack (rx_sub rx) (rx_dst rx) (rx_src rx) (rx_send_ttl rx) seq_auth (srx_block r) (srx_obo r) s))
      else (- EINVAL, s)
    end
  | None =>
    if negb (sdu_len_is_ok (truthy (rx_ctl rx)) seg_n) then
      (- EMSGSIZE, snd (send_ack (rx_sub rx) (rx_dst rx) (rx_src rx) (rx_send_ttl rx) seq_auth 0 false s))
    else
      match seg_rx_alloc rx hdr seq_auth seg_n s with
      | None => (- ENOMEM, s)
      | Some (i, s) => match rxs s !! i with None => (- ENOMEM, s) | Some r => seg_found i r rx local_match hdr (ASZMIC buf) seq_auth seg_o seg_n d s end
      end
  end.

Definition bt_mesh_trans_recv (pdu : list Z) (rx : net_rx) (local_match : bool) (s : trans) : Z * trans :=
  let buf := drop 9 pdu in
  if truthy (SEG buf) then if negb local_match then (0, s) else trans_seg buf rx local_match s
  else trans_unseg buf rx local_match s.

Definition bt_mesh_rx_reset (s : trans) : trans :=
  with_rxs (map (λ r, let r := idle_rx r in mkSegRx (srx_sub r) (srx_seq_auth r) (srx_seg_n r) (srx_ctl r) (srx_in_use r) (srx_obo r) (srx_hdr r) (srx_ttl r)
    BT_MESH_ADDR_UNASSIGNED BT_MESH_ADDR_UNASSIGNED (srx_block r) (srx_last r) (srx_ack r) (srx_len r) (srx_data r)) (rxs s)) s.
Definition bt_mesh_rpl_clear (s : trans) : trans := with_tn (with_rpl (map (λ _, mkRpl 0 false 0) (rpl (tn s))) (tn s)) s.

(** ** A received PDU *)

(** Relaying, with the buffer it needs. *)
Definition net_relay (pdu : list Z) (rx : net_rx) (s : trans) : trans :=
  if negb (relays rx (tn s)) then s else
  match bt_mesh_adv_create s with
  | None => s
  | Some (b, s) =>
    match bt_mesh_net_relay (mic0 (tc s)) pdu rx true (proxy_takes (tc s) (rx_dst rx)) (tn s) with
    | None => net_buf_unref b s
    | Some (c, to_proxy, to_adv) =>
      let s := buf_put b c s in
      let s := if to_proxy then emit (EvProxy c (rx_dst rx)) s else s in
      net_buf_unref b (if to_adv then bt_mesh_adv_send b NoCb s else s)
    end
  end.

(** A node that is provisioned. *)
Definition bt_mesh_net_recv (data : list Z) (net_if : bt_mesh_net_if) (s : trans) : trans :=
  if 29 <? Z.of_nat (length data) then s else
  let '(err, r, n) := bt_mesh_net_decode data net_if (tn s) in
  let s := with_tn n s in
  match r with
  | None => s
  | Some (rx, pdu) =>
    let s := match net_if with BT_MESH_NET_IF_PROXY => emit (EvProxyAddr (rx_src rx)) s | _ => s end in
    let local_match := bt_mesh_fixed_group_match (rx_dst rx) s || elem_find (rx_dst rx) s in
    let s := snd (bt_mesh_trans_recv pdu rx local_match s) in
    if negb (BT_MESH_ADDR_IS_UNICAST (rx_dst rx)) || negb local_match then net_relay pdu rx s else s
  end.

(** The work item for PDUs to the node itself, one buffer. *)
Definition bt_mesh_net_local (s : trans) : trans :=
  match local_queue s with
  | [] => s
  | i :: q => net_buf_unref i (bt_mesh_net_recv (buf_data i s) BT_MESH_NET_IF_LOCAL (with_local q s))
  end.
