(* ===== verification/MeshRecvProps.v ===== *)
(** * MeshRecvProps: what the transport layer guarantees

    A segmented message is put together from its segments in whatever order and however
    often they arrive, and handed on once; the reassembly buffers are not overrun. *)
From Stdlib Require Import ZArith Lia List Bool.
From stdpp Require Import base list numbers option.
From S2P Require Import Prelude Env Aes Cmac MeshCrypto MeshCryptoProps MeshNet MeshNetProps MeshTrans MeshRecv.
Local Open Scope Z_scope.

#[local] Opaque aes bt_mesh_net_encrypt bt_mesh_net_decrypt bt_mesh_net_obfuscate bt_mesh_app_encrypt bt_mesh_app_decrypt.

(** ** Headers of segments *)

Lemma land_mod n z : 0 <= n → Z.land z (Z.ones n) = z mod 2 ^ n.
Proof. apply Z.land_ones. Qed.

(** The bytes of a header as numbers. *)
Lemma seg_header_bytes h a sz k n : is_u8 h → a = 0 \/ a = 1 → 0 <= sz < 8192 → 0 <= k < 32 → 0 <= n < 32 →
  seg_header h a sz k n = [h; 128 * a + sz / 64; 4 * (sz mod 64) + k / 8; 32 * (k mod 8) + n].
Proof.
  intros Hh Ha Hs Hk Hn. unfold seg_header. rewrite (u8_small h) by done.
  change 63 with (Z.ones 6). change (Z.land k 7) with (Z.land k (Z.ones 3)). rewrite !land_mod, !Z.shiftr_div_pow2 by lia.
  change (2 ^ 6) with 64. change (2 ^ 3) with 8.
  rewrite (Z.lor_comm (Z.shiftl a 7)), (Z.lor_comm (Z.shiftl (sz mod 64) 2)), (Z.lor_comm (Z.shiftl (k mod 8) 5)).
  rewrite !lor_shiftl by (change (2 ^ 7) with 128 || change (2 ^ 2) with 4 || change (2 ^ 5) with 32; dlia).
  change (2 ^ 7) with 128. change (2 ^ 2) with 4. change (2 ^ 5) with 32.
  rewrite !u8_small by dlia. rewrite (Z.add_comm (sz / 64)), (Z.add_comm (k / 8)), (Z.add_comm n). rewrite !(Z.mul_comm _ 128), !(Z.mul_comm _ 4), !(Z.mul_comm _ 32). done.
Qed.

(** What the receiver reads out of a header. *)
Lemma seg_header_read h a sz k n d : is_u8 h → a = 0 \/ a = 1 → 0 <= sz < 8192 → 0 <= k < 32 → 0 <= n < 32 → let buf := seg_header h a sz k n ++ d in
  at_ 0 buf = h /\ Z.land (Z.shiftr (get_be16 (at_ 1 buf) (at_ 2 buf)) 2) 8191 = sz /\
  Z.lor (Z.shiftl (Z.land (get_be16 (at_ 1 buf) (at_ 2 buf)) 3) 3) (Z.shiftr (at_ 3 buf) 5) = k /\ Z.land (at_ 3 buf) 31 = n /\ ASZMIC buf = a /\ drop 4 buf = d.
Proof.
  intros Hh Ha Hs Hk Hn buf. unfold buf. rewrite seg_header_bytes by done. unfold ASZMIC, at_. cbn [nth app drop].
  rewrite get_be16_spec by dlia. rewrite (Z.lor_comm (Z.shiftl _ 3)).
  change 8191 with (Z.ones 13). change 31 with (Z.ones 5). change (Z.land ?x 3) with (Z.land x (Z.ones 2)). change (Z.land ?x 1) with (Z.land x (Z.ones 1)).
  rewrite !Z.shiftr_div_pow2 by lia. rewrite !land_mod by lia. rewrite lor_shiftl by (change (2 ^ 3) with 8; change (2 ^ 5) with 32; dlia).
  change (2 ^ 13) with 8192. change (2 ^ 5) with 32. change (2 ^ 3) with 8. change (2 ^ 2) with 4. change (2 ^ 1) with 2. change (2 ^ 7) with 128.
  split_and!; try done; dlia.
Qed.

(** ** What sending an acknowledgment leaves alone *)

Definition is_model (e : tevent) : bool := match e with EvModel _ _ _ _ _ => true | _ => false end.
Definition deliveries (s : trans) : list tevent := List.filter is_model (tlog s).

(** Equal but for what sending changes: sequence number, buffers, queues, proxy events. *)
Record calm (s s' : trans) : Prop := {
  calm_tc : tc s' = tc s; calm_rxs : rxs s' = rxs s; calm_txs : txs s' = txs s; calm_index : rpl_index s' = rpl_index s;
  calm_rpl : rpl (tn s') = rpl (tn s); calm_iv : iv_index (tn s') = iv_index (tn s); calm_subs : subs (tn s') = subs (tn s);
  calm_del : deliveries s' = deliveries s }.
#[local] Hint Resolve Build_calm : core.

Lemma calm_refl s : calm s s.
Proof. by split. Qed.
Lemma calm_trans s1 s2 s3 : calm s1 s2 → calm s2 s3 → calm s1 s3.
Proof. intros [] []. split; congruence. Qed.
Lemma calm_buf i f s : calm s (on_buf i f s).
Proof. by split. Qed.
Lemma calm_emit e s : is_model e = false → calm s (emit e s).
Proof. intros H. split; try done. unfold deliveries. cbn [emit tlog]. rewrite List.filter_app. cbn [List.filter]. by rewrite H, app_nil_r. Qed.

Lemma encode_calm m room tx sub buf proxy n e c n' : bt_mesh_net_encode m room tx sub buf proxy n = (e, c, n') → n' = n \/ n' = with_seq (seq_num n + 1) n.
Proof.
  unfold bt_mesh_net_encode. destruct (_ || _); [intros [= <- <- <-]; by left|]. cbv zeta. destruct (bt_mesh_net_encrypt _ _ _ _ _) as [err o].
  destruct (negb _); intros [= <- <- <-]; by right.
Qed.

Lemma net_send_calm tx i s : calm s (snd (bt_mesh_net_send tx i NoCb s)).
Proof.
  unfold bt_mesh_net_send. destruct (subs (tn s) !! mt_sub tx) as [sub|]; [|apply calm_buf]. cbv zeta.
  destruct (bt_mesh_net_encode _ _ _ _ _ _ _) as [[err c] n] eqn:E. apply encode_calm in E. set (s1 := buf_put i c (with_tn n s)).
  assert (calm s s1) as C1 by (destruct E as [-> | ->]; by split). destruct (negb (err =? 0)); [eapply calm_trans; [exact C1 | apply calm_buf]|].
  set (ttl := if mt_ttl tx =? _ then _ else _). set (s2 := if ttl =? 1 then s1 else _).
  assert (calm s s2) as C2 by (unfold s2; destruct (ttl =? 1); [done | eapply calm_trans; [exact C1 | by apply calm_emit]]).
  cbn [cb_start cb_end]. destruct (_ && _ && _); cbn [snd]; [eapply calm_trans; [exact C2 | apply calm_buf]|].
  eapply calm_trans; [|apply calm_buf]. eapply calm_trans; [exact C2|]. destruct (_ || _); [by split|]. destruct (negb _); by split.
Qed.

Lemma ack_calm subi src dst ttl sa block obo s : calm s (snd (send_ack subi src dst ttl sa block obo s)).
Proof.
  unfold send_ack. cbv zeta. destruct (negb _); [apply calm_refl|]. unfold bt_mesh_ctl_send, bt_mesh_adv_create. destruct (find_free _ _) as [i|]; [|apply calm_refl].
  eapply calm_trans; [|apply net_send_calm]. by split.
Qed.

(** ** Looking for contexts *)

Definition for_msg (src dst sa : Z) (r : seg_rx) : Prop := srx_src r = src /\ srx_dst r = dst /\ srx_seq_auth r = sa.

Lemma rx_find_new src dst sa l m i r : rx_find src dst sa l m = NotFound → (i < length l)%nat → for_msg src dst sa r → rx_find src dst sa (<[i := r]> l) m = Found (m + i).
Proof.
  revert m i. induction l as [|x l IH]; intros m i H Hi Hr; [cbn in Hi; lia|]. cbn [rx_find] in H. destruct i as [|i].
  - destruct Hr as (E1 & E2 & E3). change (<[0%nat := r]> (x :: l)) with (r :: l). cbn [rx_find]. rewrite E1, E2, E3, !Z.eqb_refl. cbn [negb orb]. by rewrite Nat.add_0_r.
  - change (<[S i := r]> (x :: l)) with (x :: <[i := r]> l). cbn [rx_find]. cbn [length] in Hi. rewrite Nat.add_succ_r, <- Nat.add_succ_l.
    destruct (_ || _); [apply IH; [done | lia | done]|]. destruct (_ =? _); [done|]. destruct (srx_in_use x); [done|]. apply IH; [done | lia | done].
Qed.

Lemma find_unused_lt l m i : find_unused l m = Some i → (m <= i < m + length l)%nat.
Proof.
  revert m. induction l as [|x l IH]; intros m; [done|]. cbn [find_unused length]. destruct (srx_in_use x); [intros H%IH; lia | intros [= ->]; lia].
Qed.

(** ** The reassembly buffer *)

Lemma store_at_lookup off b l p : (off + length b <= length l)%nat →
  store_at off b l !! p = if decide (off <= p < off + length b)%nat then b !! (p - off)%nat else l !! p.
Proof.
  intros H. unfold store_at. destruct (decide _) as [[H1 H2]|N].
  - rewrite lookup_app_r by (rewrite length_take; lia). rewrite length_take. rewrite lookup_app_l by lia. f_equal. lia.
  - destruct (decide (p < off)%nat).
    + rewrite lookup_app_l by (rewrite length_take; lia). by rewrite lookup_take_lt.
    + rewrite lookup_app_r by (rewrite length_take; lia). rewrite length_take. rewrite lookup_app_r by lia. rewrite lookup_drop. f_equal. lia.
Qed.

Lemma store_at_length off b l : (off + length b <= length l)%nat → length (store_at off b l) = length l.
Proof. intros H. unfold store_at. rewrite !length_app, length_take, length_drop. lia. Qed.


(** ** One message *)

Lemma land_high seq : 0 <= seq < 2 ^ 24 → Z.land seq 4294959104 = 8192 * (seq / 8192).
Proof.
  intros H. change 4294959104 with (Z.shiftl (Z.ones 19) 13).
  replace (8192 * (seq / 8192)) with (Z.shiftl (Z.shiftr seq 13) 13) by (rewrite Z.shiftl_mul_pow2, Z.shiftr_div_pow2 by lia; change (2 ^ 13) with 8192; lia).
  apply Z.bits_inj'. intros j Hj. rewrite Z.land_spec. destruct (Z.lt_ge_cases j 13) as [J|J].
  - rewrite !Z.shiftl_spec_low by lia. apply andb_false_r.
  - rewrite !Z.shiftl_spec, Z.shiftr_spec by lia. replace (j - 13 + 13) with j by lia. destruct (Z.lt_ge_cases j 32).
    + rewrite Z.ones_spec_low by lia. apply andb_true_r.
    + rewrite Z.bits_above_log2; [done | lia|]. destruct (Z.eq_dec seq 0) as [-> |]; [cbn; lia|]. apply Z.log2_lt_pow2; [lia|]. apply Z.lt_le_trans with (2 ^ 24); [lia|]. apply Z.pow_le_mono_r; lia.
Qed.

Lemma seq_zero_auth seq seq0 : 0 <= seq0 < 2 ^ 24 → 0 <= seq < 2 ^ 24 → seq / 8192 = seq0 / 8192 → Z.lor (Z.land seq 4294959104) (seq0 mod 8192) = seq0.
Proof.
  intros H0 H E. rewrite land_high, E by done. rewrite Z.lor_comm. replace (8192 * (seq0 / 8192)) with (Z.shiftl (seq0 / 8192) 13) by (rewrite Z.shiftl_mul_pow2 by lia; change (2 ^ 13) with 8192; lia).
  rewrite lor_shiftl by (change (2 ^ 13) with 8192; dlia). change (2 ^ 13) with 8192. dlia.
Qed.

Lemma seq_auth_low iv seq0 : 0 <= seq0 < 2 ^ 24 → Z.land (SEQ_AUTH iv seq0) 16777215 = seq0.
Proof.
  intros H. unfold SEQ_AUTH. rewrite Z.lor_comm, lor_shiftl by lia. change 16777215 with (Z.ones 24). rewrite Z.land_ones by lia.
  rewrite Z.mod_add by lia. apply Z.mod_small. lia.
Qed.

Section Message.
Context (src dst seq0 iv h a : Z) (d : list Z) (subi : nat) (newk old : bool).
Hypotheses (Hd : 1 <= Z.of_nat (length d) <= 384) (Hh : is_u8 h) (Ha : a = 0 \/ a = 1) (Hseq : 0 <= seq0 < 2 ^ 24).

(** The number of the last segment, the pieces of the SDU and the segments. *)
Definition last_seg : nat := ((length d - 1) / 12)%nat.
Definition chunk (k : nat) : list Z := take 12 (drop (12 * k) d).
Definition segment (k : nat) : list Z := seg_header h a (seq0 mod 8192) (Z.of_nat k) (Z.of_nat last_seg) ++ chunk k.
Definition msg_auth : Z := SEQ_AUTH iv seq0.

(** The context of a PDU that carries a segment: its sequence number is in the same
    block of 8192 as that of the first one, the TTLs are whatever the path made them. *)
Record from_msg (rx : net_rx) : Prop := {
  fm_src : rx_src rx = src; fm_dst : rx_dst rx = dst; fm_ctl : rx_ctl rx = 0; fm_old : rx_old_iv rx = old; fm_sub : rx_sub rx = subi; fm_key : rx_new_key rx = newk;
  fm_seq : 0 <= rx_seq rx < 2 ^ 24 /\ rx_seq rx / 8192 = seq0 / 8192 }.

Lemma last_seg_range : (last_seg < 32 /\ 12 * last_seg < length d <= 12 * last_seg + 12)%nat.
Proof.
  unfold last_seg. pose proof (Nat.div_mod_eq (length d - 1) 12). pose proof (Nat.mod_upper_bound (length d - 1) 12 ltac:(lia)). lia.
Qed.

Lemma chunk_length k : (k <= last_seg)%nat → length (chunk k) = if Nat.eqb k last_seg then (length d - 12 * last_seg)%nat else 12%nat.
Proof. intros H. pose proof last_seg_range. unfold chunk. rewrite length_take, length_drop. destruct (Nat.eqb_spec k last_seg); lia. Qed.

Lemma chunk_lookup k x : (x < 12)%nat → chunk k !! x = d !! (12 * k + x)%nat.
Proof. intros H. unfold chunk. rewrite lookup_take_lt by done. apply lookup_drop. Qed.

(** The segments that arrived. *)
Definition has (got : list nat) (k : nat) : bool := existsb (Nat.eqb k) got.
Definition complete (got : list nat) : bool := forallb (has got) (seq 0 (S last_seg)).

Lemma has_spec got k : has got k = true ↔ In k got.
Proof.
  unfold has. rewrite existsb_exists. split; [intros (x & Hx & E%Nat.eqb_eq); by subst | intros H; exists k; split; [done | apply Nat.eqb_refl]].
Qed.
Lemma complete_spec got : complete got = true ↔ forall k, (k <= last_seg)%nat → has got k = true.
Proof. unfold complete. rewrite forallb_forall. split; intros H k Hk; [apply H, in_seq; lia | apply in_seq in Hk; apply H; lia]. Qed.
Lemma has_cons k got j : has (k :: got) j = Nat.eqb j k || has got j.
Proof. done. Qed.

(** The bits of the received segments. *)
Definition block_of (got : list nat) (b : Z) : Prop := 0 <= b /\ forall j : nat, Z.testbit b (Z.of_nat j) = has got j.

Lemma block_bit got b k : block_of got b → truthy (Z.land (MESH_BIT (Z.of_nat k)) b) = has got k.
Proof.
  intros [Hb H]. rewrite <- H. unfold MESH_BIT. rewrite Z.land_comm. unfold truthy.
  assert (Z.land b (Z.shiftl 1 (Z.of_nat k)) = if Z.testbit b (Z.of_nat k) then 2 ^ Z.of_nat k else 0) as ->.
  { rewrite Z.shiftl_1_l. apply Z.bits_inj'. intros j Hj. rewrite Z.land_spec, Z.pow2_bits_eqb by lia.
    destruct (Z.eqb_spec (Z.of_nat k) j) as [<- |N]; destruct (Z.testbit b (Z.of_nat k)); rewrite ?andb_true_r, ?andb_false_r, ?Z.bits_0; try done.
    - by rewrite Z.pow2_bits_true by lia.
    - by rewrite Z.pow2_bits_false by lia. }
  destruct (Z.testbit b (Z.of_nat k)); [|done]. destruct (Z.eqb_spec (2 ^ Z.of_nat k) 0) as [E|]; [|done]. pose proof (Z.pow_pos_nonneg 2 (Z.of_nat k)). lia.
Qed.

Lemma block_add got b k : block_of got b → block_of (k :: got) (Z.lor b (MESH_BIT (Z.of_nat k))).
Proof.
  intros [Hb H]. unfold MESH_BIT. rewrite Z.shiftl_1_l. split; [apply Z.lor_nonneg; split; [done | apply Z.pow_nonneg; lia]|].
  intros j. rewrite Z.lor_spec, Z.pow2_bits_eqb by lia. rewrite H, has_cons, orb_comm. f_equal. destruct (Nat.eqb_spec j k), (Z.eqb_spec (Z.of_nat k) (Z.of_nat j)); (done || lia).
Qed.

Lemma block_complete got b : (forall k, In k got → (k <= last_seg)%nat) → block_of got b → (b =? BLOCK_COMPLETE (Z.of_nat last_seg)) = complete got.
Proof.
  intros Hg [Hb H]. pose proof last_seg_range as [L _]. assert (BLOCK_COMPLETE (Z.of_nat last_seg) = Z.ones (Z.of_nat last_seg + 1)) as ->.
  { unfold BLOCK_COMPLETE. rewrite Z.shiftl_1_l. rewrite u32_small; [rewrite Z.ones_equiv; lia|]. assert (2 ^ (Z.of_nat last_seg + 1) <= 2 ^ 32) by (apply Z.pow_le_mono_r; lia).
    pose proof (Z.pow_pos_nonneg 2 (Z.of_nat last_seg + 1)). change (2 ^ 32) with 4294967296 in *. lia. }
  apply eq_iff_eq_true. rewrite Z.eqb_eq, complete_spec. split.
  - intros -> k Hk. rewrite <- H. apply Z.ones_spec_low. lia.
  - intros Hc. apply Z.bits_inj'. intros j Hj. rewrite <- (Z2Nat.id j) by done. rewrite H. rewrite Z2Nat.id by done. destruct (Z.lt_ge_cases j (Z.of_nat last_seg + 1)).
    + rewrite Z.ones_spec_low by lia. apply Hc. lia.
    + rewrite Z.ones_spec_high by lia. apply not_true_is_false. intros E%has_spec%Hg. lia.
Qed.

(** A context that has received the segments [got]. *)
Record partial (got : list nat) (r : seg_rx) : Prop := {
  p_msg : for_msg src dst msg_auth r; p_hdr : srx_hdr r = h /\ srx_seg_n r = Z.of_nat last_seg /\ srx_ctl r = false; p_use : srx_in_use r = true;
  p_got : forall k, In k got → (k <= last_seg)%nat; p_block : block_of got (srx_block r); p_len : has got last_seg = true → srx_len r = Z.of_nat (length d);
  p_size : length (srx_data r) = Z.to_nat CONFIG_BT_MESH_RX_SDU_MAX;
  p_data : forall k x, In k got → (x < 12)%nat → (12 * k + x < length d)%nat → srx_data r !! (12 * k + x)%nat = d !! (12 * k + x)%nat }.

(** A context that has handed the message on. *)
Record finished (r : seg_rx) : Prop := {
  f_msg : for_msg src dst msg_auth r; f_hdr : srx_hdr r = h /\ srx_seg_n r = Z.of_nat last_seg /\ srx_ctl r = false; f_use : srx_in_use r = false;
  f_block : srx_block r = BLOCK_COMPLETE (Z.of_nat last_seg) }.

Lemma partial_dup got k r : has got k = true → partial got r → partial (k :: got) r.
Proof.
  intros Hk [M H U G B L S D]. split; try done.
  - intros j [<- |Hj]; [apply G; by apply has_spec | by apply G].
  - destruct B as [B0 B]. split; [done|]. intros j. rewrite B, has_cons. destruct (Nat.eqb_spec j k) as [-> |]; [by rewrite Hk | done].
  - rewrite has_cons. destruct (Nat.eqb_spec last_seg k) as [<- |]; [by rewrite Hk in L; intros _; apply L | apply L].
  - intros j x [<- |Hj]; [apply D; by apply has_spec | by apply D].
Qed.

(** What storing a segment does to the context. *)
Lemma partial_store got k t r : partial got r → (k <= last_seg)%nat → 
  partial (k :: got) (store_seg t (Z.of_nat k) (chunk k) (if Nat.eqb k last_seg then set_len (Z.of_nat (length d)) r else r)).
Proof.
  intros [M H U G B L S D] Hk. pose proof last_seg_range as [R1 R2]. pose proof (chunk_length k Hk) as LC. set (r' := if Nat.eqb k last_seg then _ else r).
  assert (srx_block r' = srx_block r /\ srx_data r' = srx_data r /\ srx_ctl r' = false) as (E1 & E2 & E3) by (unfold r'; destruct (Nat.eqb k last_seg); destruct H as (_ & _ & H); done).
  assert (Z.to_nat (Z.of_nat k * seg_len (srx_ctl r')) = (12 * k)%nat) as Eo by (rewrite E3; cbn [seg_len]; lia).
  assert (Z.to_nat CONFIG_BT_MESH_RX_SDU_MAX = 384%nat) as E384 by done.
  assert (12 * k + length (chunk k) <= length (srx_data r))%nat as Hfit by (rewrite S, LC, E384; destruct (Nat.eqb_spec k last_seg); lia).
  split; unfold store_seg; cbn [srx_src srx_dst srx_seq_auth srx_hdr srx_seg_n srx_ctl srx_in_use srx_block srx_len srx_data].
  - unfold r'. by destruct (Nat.eqb k last_seg).
  - unfold r'. by destruct (Nat.eqb k last_seg).
  - unfold r'. by destruct (Nat.eqb k last_seg).
  - intros j [<- |Hj]; [done | by apply G].
  - rewrite E1. by apply block_add.
  - rewrite has_cons. unfold r'. rewrite (Nat.eqb_sym last_seg k). destruct (Nat.eqb_spec k last_seg); [done | exact L].
  - rewrite Eo, E2, store_at_length by done. done.
  - intros j x Hj Hx Hlt. rewrite Eo, E2, store_at_lookup by done. destruct (decide _) as [[I1 I2]|N].
    + assert (j = k) as -> by (rewrite LC in I2; destruct (Nat.eqb k last_seg); lia). rewrite <- chunk_lookup by done. f_equal. lia.
    + apply D; [|done | done]. destruct Hj as [<- |Hj]; [|done]. exfalso. apply N. rewrite LC. destruct (Nat.eqb_spec k last_seg); lia.
Qed.

(** A full context holds the SDU. *)
Lemma partial_sdu got r : partial got r → complete got = true → take (Z.to_nat (srx_len r)) (srx_data r) = d.
Proof.
  intros [M H U G B L S D] C. pose proof last_seg_range as [R1 R2]. rewrite complete_spec in C. rewrite L by (apply C; lia). rewrite Nat2Z.id.
  apply list_eq. intros p. destruct (decide (p < length d)%nat) as [Hp|Hp].
  - rewrite lookup_take_lt by done. pose proof (Nat.div_mod_eq p 12) as E. pose proof (Nat.mod_upper_bound p 12 ltac:(lia)) as Hm. rewrite E. apply D; [|done | lia].
    apply has_spec, C. assert (12 * (p / 12) <= p)%nat by lia. assert (12 * (p / 12) < 12 * last_seg + 12)%nat by lia. lia.
  - rewrite (lookup_ge_None_2 d) by lia. apply lookup_ge_None_2. rewrite length_take. lia.
Qed.

(** Marking it as handed on. *)
Lemma partial_finished got r t : partial got r → complete got = true → finished (idle_rx (set_ack_timer t r)).
Proof.
  intros [M H U G B L S D] C. split; try done. apply Z.eqb_eq. cbn [idle_rx set_ack_timer srx_block]. by rewrite (block_complete got).
Qed.

(** The state is the old one with context [i] replaced. *)
Record moved (i : nat) (r : seg_rx) (s s' : trans) : Prop := {
  mv_tc : tc s' = tc s; mv_rxs : rxs s' = <[i := r]> (rxs s); mv_iv : iv_index (tn s') = iv_index (tn s); mv_subs : subs (tn s') = subs (tn s) }.

Lemma moved_on i f r s : rxs s !! i = Some r → moved i (f r) s (on_rx i f s).
Proof. intros H. split; try done. by apply alter_insert. Qed.

Lemma moved_trans i r r' s s' s'' : moved i r s s' → moved i r' s' s'' → moved i r' s s''.
Proof. intros [A1 A2 A3 A4] [B1 B2 B3 B4]. split; [congruence | rewrite B2, A2; apply list_insert_insert_eq | congruence | congruence]. Qed.

Lemma moved_calm i r s s' s'' : moved i r s s' → calm s' s'' → moved i r s s''.
Proof. intros [A1 A2 A3 A4] [B1 B2 B3 B4 B5 B6 B7 B8]. split; congruence. Qed.

Lemma replay_rx rx i f s : is_replay rx (on_rx i f s) = (fst (is_replay rx s), on_rx i f (snd (is_replay rx s))).
Proof. unfold is_replay. change (rpl (tn (on_rx i f s))) with (rpl (tn s)). destruct (rpl_walk _ _ _ _) as [[b l]|]; done. Qed.

Lemma replay_moved rx s : tc (snd (is_replay rx s)) = tc s /\ rxs (snd (is_replay rx s)) = rxs s /\ iv_index (tn (snd (is_replay rx s))) = iv_index (tn s) /\
  subs (tn (snd (is_replay rx s))) = subs (tn s) /\ deliveries (snd (is_replay rx s)) = deliveries s.
Proof. unfold is_replay. destruct (rpl_walk _ _ _ _) as [[b l]|]; done. Qed.

(** What the access layer is handed. *)
Definition handed (rx : net_rx) (s : trans) : Z * trans := sdu_recv (with_rx_seq seq0 rx) h a d s.

(** Whoever has the keys of [s0] hands the message [e] on. *)
Definition delivers (e : net_rx → tevent) (s0 : trans) : Prop := forall rx s, from_msg rx → tc s = tc s0 → iv_index (tn s) = iv_index (tn s0) → subs (tn s) = subs (tn s0) →
  handed rx s = (0, emit (e rx) s) /\ is_model (e rx) = true.

Section Step.
Context (i : nat) (got : list nat) (k : nat) (rx : net_rx) (r : seg_rx) (s : trans).
Hypotheses (Hp : partial got r) (Hi : rxs s !! i = Some r) (Hrx : from_msg rx) (Hk : (k <= last_seg)%nat).

Definition stored : seg_rx := store_seg (u32 (now (tc s))) (Z.of_nat k) (chunk k) (if Nat.eqb k last_seg then set_len (Z.of_nat (length d)) r else r).
Definition found : Z * trans := seg_found i r rx true h a msg_auth (Z.of_nat k) (Z.of_nat last_seg) (chunk k) s.

Lemma found_again : has got k = true → found = (- E_ALREADY, s).
Proof. intros H. unfold found, seg_found. destruct Hp as [_ _ _ _ B _ _ _]. by rewrite (block_bit got _ k B), H. Qed.

(** The state after the store. *)
Lemma found_store : has got k = false → exists s1, moved i stored s s1 /\ rpl (tn s1) = rpl (tn s) /\ rpl_index s1 = rpl_index s /\ deliveries s1 = deliveries s /\
  is_replay rx s1 = (fst (is_replay rx s), snd (is_replay rx s1)) /\
  found = if negb (complete (k :: got)) then (0, s1) else
    let '(replay, s2) := is_replay rx s1 in
    if replay then (- EINVAL, on_rx i (set_block (srx_block r)) s2) else
    let rx' := with_rx_seq (Z.land (srx_seq_auth r) 16777215) rx in
    let s3 := snd (send_ack (rx_sub rx') (rx_dst rx') (rx_src rx') (rx_send_ttl rx') msg_auth (Z.lor (srx_block r) (MESH_BIT (Z.of_nat k))) (srx_obo r) (on_rx i (set_ack_timer None) s2)) in
    let sdu := match rxs s3 !! i with Some r => take (Z.to_nat (srx_len r)) (srx_data r) | None => [] end in
    let '(err, s4) := sdu_recv rx' h a sdu s3 in (err, seg_rx_reset i s4).
Proof.
  intros Hn. pose proof last_seg_range as [R1 R2]. pose proof (chunk_length k Hk) as LC. pose proof (partial_store got k (u32 (now (tc s))) r Hp Hk) as Hps.
  destruct Hp as [M H U G B L S D]. destruct H as (H1 & H2 & H3). destruct Hrx as [X1 X2 X3 X4 X5 X6 X7].
  pose (s0 := if Nat.eqb k last_seg then on_rx i (set_len (Z.of_nat (length d))) s else s). pose (s1 := on_rx i (store_seg (u32 (now (tc s))) (Z.of_nat k) (chunk k)) s0).
  assert (moved i stored s s1) as Hm.
  { unfold s1, s0, stored. destruct (Nat.eqb k last_seg); [|by apply moved_on]. eapply moved_trans; [by apply moved_on|]. apply moved_on. cbn [on_rx with_rxs rxs].
    rewrite (alter_insert _ _ _ _ Hi). apply list_lookup_insert_eq. by eapply lookup_lt_Some. }
  exists s1. split; [exact Hm|]. split_and!; [by unfold s1, s0; destruct (Nat.eqb k last_seg) | by unfold s1, s0; destruct (Nat.eqb k last_seg) | by unfold s1, s0; destruct (Nat.eqb k last_seg) | |].
  { unfold s1, s0. destruct (Nat.eqb k last_seg); rewrite !replay_rx; done. }
  unfold found, seg_found. rewrite (block_bit got _ k B), Hn. cbv zeta. rewrite H3. cbn [seg_len].
  assert (Z.eqb (Z.of_nat k) (Z.of_nat last_seg) = Nat.eqb k last_seg) as Ek by (destruct (Nat.eqb_spec k last_seg), (Z.eqb_spec (Z.of_nat k) (Z.of_nat last_seg)); (done || lia)). rewrite Ek.
  assert (Nat.eqb k last_seg = true → u16 (Z.of_nat last_seg * 12 + Z.of_nat (length (chunk k))) = Z.of_nat (length d)) as El.
  { intros E. rewrite LC, E. rewrite u16_small by lia. lia. }
  assert ((if Nat.eqb k last_seg then on_rx i (set_len (u16 (Z.of_nat last_seg * 12 + Z.of_nat (length (chunk k))))) s else s) = s0) as -> by (unfold s0; destruct (Nat.eqb k last_seg); [by rewrite El | done]).
  assert (Nat.eqb k last_seg && (CONFIG_BT_MESH_RX_SDU_MAX <? u16 (Z.of_nat last_seg * 12 + Z.of_nat (length (chunk k)))) = false) as ->.
  { destruct (Nat.eqb k last_seg); [|done]. rewrite El by done. cbn [andb]. apply Z.ltb_ge. unfold CONFIG_BT_MESH_RX_SDU_MAX. lia. }
  assert (negb (Nat.eqb k last_seg) && negb (Z.of_nat (length (chunk k)) =? 12) = false) as -> by (rewrite LC; by destruct (Nat.eqb k last_seg)).
  assert (now (tc s0) = now (tc s)) as -> by (unfold s0; by destruct (Nat.eqb k last_seg)). fold s1.
  rewrite (block_complete (k :: got)); [|intros j [<- |Hj]; [done | by apply G] | by apply block_add]. destruct (complete (k :: got)); [|done]. cbn [negb].
  destruct (is_replay rx s1) as [rp s2]. destruct rp; [done|]. change (rx_ctl (with_rx_seq (Z.land (srx_seq_auth r) 16777215) rx)) with (rx_ctl rx). rewrite X3. done.
Qed.

(** The last segment. *)
Lemma found_done e s0 : delivers e s0 → tc s = tc s0 → iv_index (tn s) = iv_index (tn s0) → subs (tn s) = subs (tn s0) →
  has got k = false → complete (k :: got) = true → fst (is_replay rx s) = false →
  exists r' s', found = (0, s') /\ moved i r' s s' /\ finished r' /\ deliveries s' = deliveries s ++ [e rx].
Proof.
  intros He T1 T2 T3 Hn Hc Hr. destruct (found_store Hn) as (s1 & Hm & _ & _ & Hdel & Er & ->). rewrite Hc, Er, Hr. cbn [negb]. cbv zeta.
  pose proof (partial_store got k (u32 (now (tc s))) r Hp Hk) as Hps. fold stored in Hps. destruct (replay_moved rx s1) as (Q1 & Q2 & Q3 & Q4 & Q5). set (s2 := snd (is_replay rx s1)) in *.
  assert (rxs s !! i = Some r) as Hi' by done. apply lookup_lt_Some in Hi'.
  assert (rxs s2 !! i = Some stored) as I2 by (rewrite Q2, (mv_rxs _ _ _ _ Hm); by apply list_lookup_insert_eq).
  assert (moved i stored s s2) as Hm2 by (destruct Hm as [A1 A2 A3 A4]; split; congruence).
  set (rx' := with_rx_seq _ rx). set (s3 := snd (send_ack _ _ _ _ _ _ _ _)).
  assert (calm (on_rx i (set_ack_timer None) s2) s3) as C3 by apply ack_calm.
  assert (moved i (set_ack_timer None stored) s s3) as Hm3 by (eapply moved_calm; [eapply moved_trans; [exact Hm2 | by apply moved_on] | exact C3]).
  assert (rxs s3 !! i = Some (set_ack_timer None stored)) as I3 by (rewrite (mv_rxs _ _ _ _ Hm3); by apply list_lookup_insert_eq). rewrite I3.
  change (srx_len (set_ack_timer None stored)) with (srx_len stored). change (srx_data (set_ack_timer None stored)) with (srx_data stored). rewrite (partial_sdu _ _ Hps Hc).
  assert (rx' = with_rx_seq seq0 rx) as Ex. { unfold rx'. destruct Hp as [(_ & _ & ->) _ _ _ _ _ _ _]. unfold msg_auth. by rewrite seq_auth_low. }
  assert (handed rx s3 = (0, emit (e rx) s3) /\ is_model (e rx) = true) as [Hd' Hmod].
  { destruct Hm3 as [A1 A2 A3 A4]. apply He; [done | congruence | congruence | congruence]. }
  rewrite Ex. unfold handed in Hd'. rewrite Hd'. exists (idle_rx (set_ack_timer None stored)), (seg_rx_reset i (emit (e rx) s3)). split; [done|].
  split; [|split; [by eapply partial_finished|]].
  - eapply moved_trans; [|by apply moved_on]. destruct Hm3. by split.
  - unfold deliveries. cbn [seg_rx_reset on_rx with_rxs emit tlog]. rewrite List.filter_app. cbn [List.filter]. rewrite Hmod.
    change (List.filter is_model (tlog s3)) with (deliveries s3). rewrite (calm_del _ _ C3). change (deliveries (on_rx i (set_ack_timer None) s2)) with (deliveries s2). by rewrite Q5, Hdel.
Qed.

End Step.

(** A receiver that is ready: no context for the message, a free one, the IV index, and
    the keys. *)
Record ready (e : net_rx → tevent) (i : nat) (s0 : trans) : Prop := {
  rd_iv : IVI_RX old (tn s0) = iv; rd_find : rx_find src dst msg_auth (rxs s0) 0 = NotFound; rd_free : find_unused (rxs s0) 0 = Some i;
  rd_size : Forall (λ r, length (srx_data r) = Z.to_nat CONFIG_BT_MESH_RX_SDU_MAX) (rxs s0); rd_keys : delivers e s0 }.

(** The receiver after the segments [got]. *)
Record progress (e : net_rx → tevent) (i : nat) (s0 : trans) (got : list nat) (s : trans) : Prop := {
  pr_tc : tc s = tc s0; pr_iv : iv_index (tn s) = iv_index (tn s0); pr_subs : subs (tn s) = subs (tn s0);
  pr_got : forall k, In k got → (k <= last_seg)%nat;
  pr_quiet : complete got = false → rpl (tn s) = rpl (tn s0) /\ deliveries s = deliveries s0;
  pr_fresh : got = [] → rxs s = rxs s0;
  pr_partial : got ≠ [] → complete got = false → exists r, rxs s = <[i := r]> (rxs s0) /\ partial got r;
  pr_done : complete got = true → exists r rx, rxs s = <[i := r]> (rxs s0) /\ finished r /\ from_msg rx /\ deliveries s = deliveries s0 ++ [e rx] }.

Lemma complete_nil : complete [] = false.
Proof. done. Qed.

Lemma complete_dup k got : has got k = true → complete (k :: got) = complete got.
Proof.
  intros H. apply eq_iff_eq_true. rewrite !complete_spec. split; intros C j Hj; specialize (C j Hj); rewrite has_cons in *; [|by rewrite C, orb_true_r].
  destruct (Nat.eqb_spec j k) as [E|]; [by rewrite E | exact C].
Qed.

Lemma replay_eq rx s s0 : rpl (tn s) = rpl (tn s0) → fst (is_replay rx s) = fst (is_replay rx s0).
Proof. intros H. unfold is_replay. rewrite H. by destruct (rpl_walk _ _ _ _) as [[b l]|]. Qed.

(** Reading the segment. *)
Lemma seg_open k rx s : from_msg rx → (k <= last_seg)%nat → IVI_RX old (tn s) = iv → trans_seg (segment k) rx true s =
  let '(f, s) := seg_rx_find rx msg_auth s in
  match f with
  | Some i => match rxs s !! i with
    | None => (- EINVAL, s)
    | Some r =>
      if negb (seg_rx_is_valid r rx h (Z.of_nat last_seg)) then (- EINVAL, s) else
      if srx_in_use r then found i k rx r s else
      if srx_block r =? BLOCK_COMPLETE (srx_seg_n r) then (- E_ALREADY, snd (send_ack (rx_sub rx) (rx_dst rx) (rx_src rx) (rx_send_ttl rx) msg_auth (srx_block r) (srx_obo r) s))
      else (- EINVAL, s) end
  | None => match seg_rx_alloc rx h msg_auth (Z.of_nat last_seg) s with
    | None => (- ENOMEM, s)
    | Some (i, s) => match rxs s !! i with None => (- ENOMEM, s) | Some r => found i k rx r s end end
  end.
Proof.
  intros [X1 X2 X3 X4 X5 X6 X7] Hk Hiv. pose proof last_seg_range as [R1 R2]. pose proof (chunk_length k Hk) as LC.
  destruct (seg_header_read h a (seq0 mod 8192) (Z.of_nat k) (Z.of_nat last_seg) (chunk k) Hh Ha ltac:(dlia) ltac:(lia) ltac:(lia)) as (F0 & F1 & F2 & F3 & F4 & F5).
  fold (segment k) in F0, F1, F2, F3, F4, F5. unfold trans_seg. rewrite F0, F1, F2, F3, F4, F5.
  assert (Nat.ltb (length (segment k)) 5 = false) as ->. { apply Nat.ltb_ge. unfold segment. rewrite length_app. change (length (seg_header h a (seq0 mod 8192) (Z.of_nat k) (Z.of_nat last_seg))) with 4%nat. rewrite LC. destruct (Nat.eqb k last_seg); lia. }
  rewrite (proj2 (Z.ltb_ge _ _)) by lia. cbv zeta. rewrite X4, Hiv, seq_zero_auth by (done || lia). fold msg_auth. destruct (seg_rx_find rx msg_auth s) as [f s1]. rewrite X3.
  destruct f as [i|]; [done|]. change (truthy 0) with false. assert (sdu_len_is_ok false (Z.of_nat last_seg) = true) as -> by (apply Z.leb_le; cbn [seg_len]; unfold CONFIG_BT_MESH_RX_SDU_MAX; lia). done.
Qed.

(** A segment for a context that is not full. *)
Lemma progress_found e i s0 got k rx r s : ready e i s0 → complete got = false → partial got r → rxs s = <[i := r]> (rxs s0) →
  tc s = tc s0 → iv_index (tn s) = iv_index (tn s0) → subs (tn s) = subs (tn s0) → rpl (tn s) = rpl (tn s0) → deliveries s = deliveries s0 →
  from_msg rx → (k <= last_seg)%nat → fst (is_replay rx s0) = false → progress e i s0 (k :: got) (snd (found i k rx r s)).
Proof.
  intros [_ _ Hfree _ He] Hc Hp Hrxs T1 T2 T3 T4 T5 Hrx Hk Hr. apply find_unused_lt in Hfree. assert (rxs s !! i = Some r) as Hi by (rewrite Hrxs; apply list_lookup_insert_eq; lia).
  assert (forall j, In j (k :: got) → (j <= last_seg)%nat) as Hg by (intros j [<- |Hj]; [done | by apply (p_got _ _ Hp)]).
  destruct (has got k) eqn:Hn.
  - rewrite (found_again i got k rx r s Hp Hn). cbn [snd]. split; try done; rewrite ?(complete_dup k got Hn); try done; [|congruence]. intros _ _. exists r. split; [done | by apply partial_dup].
  - destruct (complete (k :: got)) eqn:Hc'.
    + destruct (found_done i got k rx r s Hp Hi Hrx Hk e s0 He T1 T2 T3 Hn Hc') as (r' & s' & -> & [M1 M2 M3 M4] & Hf & Hdel); [by rewrite (replay_eq rx s s0)|]. cbn [snd].
      split; try congruence; try done. intros _. exists r', rx. split_and!; [by rewrite M2, Hrxs, list_insert_insert_eq | done | done | by rewrite Hdel, T5].
    + destruct (found_store i got k rx r s Hp Hi Hrx Hk Hn) as (s1 & [M1 M2 M3 M4] & Q1 & _ & Q2 & _ & ->). rewrite Hc'. cbn [negb snd].
      split; try congruence; try done; [split; congruence|]. intros _ _. exists (stored k r s). split; [by rewrite M2, Hrxs, list_insert_insert_eq | by apply partial_store].
Qed.

Lemma find_for rx s : from_msg rx → seg_rx_find rx msg_auth s = match rx_find src dst msg_auth (rxs s) 0 with Found i => (Some i, s) | Superseded i => (None, seg_rx_reset i s) | NotFound => (None, s) end.
Proof. intros [X1 X2 _ _ _ _ _]. unfold seg_rx_find. by rewrite X1, X2. Qed.

Lemma valid_for rx r : from_msg rx → for_msg src dst msg_auth r → srx_hdr r = h /\ srx_seg_n r = Z.of_nat last_seg /\ srx_ctl r = false → seg_rx_is_valid r rx h (Z.of_nat last_seg) = true.
Proof. intros [X1 X2 X3 _ _ _ _] (E1 & E2 & _) (E3 & E4 & E5). unfold seg_rx_is_valid. rewrite E1, E2, E3, E4, E5, X1, X2, X3, !Z.eqb_refl. done. Qed.

Lemma progress_step e i s0 got k rx s : ready e i s0 → progress e i s0 got s → from_msg rx → (k <= last_seg)%nat → fst (is_replay rx s0) = false →
  progress e i s0 (k :: got) (snd (trans_seg (segment k) rx true s)).
Proof.
  intros Hrd [T1 T2 T3 Hg Hq Hfr Hpa Hdo] Hrx Hk Hr. pose proof Hrd as [Hiv Hnf Hfree Hsz He]. pose proof (find_unused_lt _ _ _ Hfree) as Hi.
  rewrite seg_open by (done || (unfold IVI_RX; rewrite T2; exact Hiv)). rewrite find_for by done. destruct (complete got) eqn:Hc.
  - destruct (Hdo eq_refl) as (r & rx0 & Hrxs & Hf & Hrx0 & Hdel). pose proof Hf as [F1 F2 F3 F4]. rewrite Hrxs, (rx_find_new _ _ _ _ _ _ _ Hnf) by (done || lia). cbn [Nat.add].
    rewrite Hrxs, list_lookup_insert_eq by lia. rewrite valid_for by done. cbn [negb]. rewrite F3. destruct F2 as (F5 & F6 & F7). rewrite F6, F4, Z.eqb_refl. cbn [snd].
    set (s' := snd _). assert (calm s s') as [C1 C2 C3 C4 C5 C6 C7 C8] by apply ack_calm.
    assert (has got k = true) as Hn by (rewrite complete_spec in Hc; by apply Hc). split; try congruence; try done.
    + intros j [<- |Hj]; [done | by apply Hg].
    + rewrite complete_dup by done. congruence.
    + intros _. rewrite complete_dup by done. congruence.
    + intros _. exists r, rx0. split_and!; [congruence | done | done | congruence].
  - destruct (Hq eq_refl) as [Q1 Q2]. destruct got as [|g got].
    + rewrite (Hfr eq_refl), Hnf. unfold seg_rx_alloc. rewrite (Hfr eq_refl), Hfree. assert (is_Some (rxs s0 !! i)) as [r0 Hr0] by (apply lookup_lt_is_Some; lia).
      set (f := new_rx rx h msg_auth (Z.of_nat last_seg)). assert (rxs (on_rx i f s) = <[i := f r0]> (rxs s0)) as E by (cbn [on_rx with_rxs rxs]; rewrite (Hfr eq_refl); by apply alter_insert).
      rewrite E, list_lookup_insert_eq by lia. apply progress_found; try done. destruct Hrx as [X1 X2 X3 X4 X5 X6 X7].
      split; try done; [unfold f, new_rx; cbn [srx_hdr srx_seg_n srx_ctl]; by rewrite X3 | split; [done|]; intros j; apply Z.testbit_0_l |].
      rewrite List.Forall_forall in Hsz. apply (Hsz r0), list_elem_of_In. by eapply list_elem_of_lookup_2.
    + destruct (Hpa ltac:(done) eq_refl) as (r & Hrxs & Hp). rewrite Hrxs, (rx_find_new _ _ _ _ _ _ _ Hnf) by (apply (p_msg _ _ Hp) || lia). cbn [Nat.add].
      rewrite Hrxs, list_lookup_insert_eq by lia. rewrite valid_for by (done || apply (p_msg _ _ Hp) || apply (p_hdr _ _ Hp)). cbn [negb]. rewrite (p_use _ _ Hp). by apply progress_found.
Qed.

(** The segments as they arrive, with the contexts of their PDUs. *)
Definition recv_segs (order : list (nat * net_rx)) (s : trans) : trans := fold_left (λ s p, snd (trans_seg (segment (fst p)) (snd p) true s)) order s.

Lemma recv_progress e i s0 order : ready e i s0 → Forall (λ p, (fst p <= last_seg)%nat /\ from_msg (snd p) /\ fst (is_replay (snd p) s0) = false) order →
  progress e i s0 (rev (map fst order)) (recv_segs order s0).
Proof.
  intros Hrd H. unfold recv_segs. revert H. induction order as [|p order IH] using rev_ind; intros H.
  - cbn. split; try done.
  - apply Forall_app in H as [H1 [(Hk & Hx & Hr) _]%Forall_cons_1]. rewrite fold_left_app, map_app, rev_app_distr. cbn [fold_left map rev app]. apply progress_step; try done. by apply IH.
Qed.
End Message.

(** ** Keys *)

(** The key the receiver uses for a PDU. *)
Definition rx_key (newk : bool) (k : bt_mesh_app_key) : Z * list Z := if newk && ak_updated k then (ak_id1 k, ak_val1 k) else (ak_id0 k, ak_val0 k).

(** The application key [k] is the first one of the subnet with its identifier. *)
Record has_key (newk : bool) (net_idx aid : Z) (val : list Z) (k : bt_mesh_app_key) (s : trans) : Prop := {
  hk_aid : 0 <= aid < 64; hk_key : rx_key newk k = (aid, val); hk_net : ak_net_idx k = net_idx;
  hk_first : exists pre post, app_keys (tc s) = pre ++ k :: post /\ Forall (λ k', ak_net_idx k' ≠ net_idx \/ fst (rx_key newk k') ≠ aid) pre }.

Lemma hdr_fields aid : 0 <= aid < 64 → is_u8 (SEG_HDR 1 aid) /\ AKF (SEG_HDR 1 aid) = 1 /\ AID (SEG_HDR 1 aid) = aid.
Proof.
  intros H. pose proof (List.Forall_forall (λ z, is_u8 (SEG_HDR 1 z) /\ AKF (SEG_HDR 1 z) = 1 /\ AID (SEG_HDR 1 z) = z) (map Z.of_nat (seq 0 64))) as [F _].
  apply F; [|apply in_map_iff; exists (Z.to_nat aid); rewrite in_seq; lia]. cbn [seq map]. repeat (constructor; [vm_compute; split_and!; congruence|]). constructor.
Qed.

Lemma try_keys_first l k post rx net_idx hdr aszmic mem len ad iv out :
  Forall (λ k', ak_net_idx k' ≠ net_idx \/ fst (rx_key (rx_new_key rx) k') ≠ AID hdr) l → ak_net_idx k = net_idx → fst (rx_key (rx_new_key rx) k) = AID hdr →
  bt_mesh_app_decrypt (snd (rx_key (rx_new_key rx) k)) false aszmic mem len ad (rx_src rx) (rx_dst rx) (rx_seq rx) iv = (0, out) →
  try_keys (l ++ k :: post) rx net_idx hdr aszmic mem len ad iv = Some (ak_app_idx k, out).
Proof.
  intros H Hn Hid Hdec. unfold rx_key in *. induction H as [|x l Hx H IH]; cbn [app try_keys].
  - rewrite Hn, Z.eqb_refl. cbn [negb]. destruct (if rx_new_key rx && ak_updated k then _ else _) as [id val]. cbn [fst snd] in *. subst id. rewrite Z.eqb_refl. cbn [negb]. by rewrite Hdec.
  - rewrite IH. destruct (Z.eqb_spec (ak_net_idx x) net_idx); [|done]. cbn [negb]. destruct (if rx_new_key rx && ak_updated x then _ else _) as [id val]. cbn [fst] in *.
    destruct Hx as [|Hx]; [done|]. by rewrite (proj2 (Z.eqb_neq (AID hdr) id)) by congruence.
Qed.

Lemma app_delivers m src dst seq0 iv a val msg subi sub newk old aid k s0 : a = 0 \/ a = 1 → (1 <= length msg)%nat → IVI_RX old (tn s0) = iv →
  subs (tn s0) !! subi = Some sub → has_key newk (sub_net_idx sub) aid val k s0 →
  let d := snd (bt_mesh_app_encrypt m val false a msg (label_of dst s0) src dst seq0 iv) in
  length d = (length msg + APP_MIC_LEN a)%nat /\
  delivers src dst seq0 (SEG_HDR 1 aid) a d subi newk old (λ rx, EvModel (ak_app_idx k) src dst (rx_recv_ttl rx) msg) s0.
Proof.
  intros Ha Hm Hiv Hsub [Ka Kk Kn (pre & post & Kl & Kf)]. destruct (hdr_fields aid Ka) as (_ & G1 & G2).
  destruct (app_crypt_roundtrip m val false a msg (label_of dst s0) src dst seq0 iv Hm) as (c & E & L & D). rewrite E. cbn [snd]. split; [done|].
  intros rx s [X1 X2 X3 X4 X5 X6 X7] T1 T2 T3. split; [|done]. unfold handed, sdu_recv. rewrite L, (proj2 (Nat.ltb_ge _ _)) by lia. cbv zeta. rewrite G1. change (negb (truthy 1)) with false.
  change (rx_sub (with_rx_seq seq0 rx)) with (rx_sub rx). change (rx_dst (with_rx_seq seq0 rx)) with (rx_dst rx). change (rx_src (with_rx_seq seq0 rx)) with (rx_src rx).
  change (rx_old_iv (with_rx_seq seq0 rx)) with (rx_old_iv rx). change (rx_recv_ttl (with_rx_seq seq0 rx)) with (rx_recv_ttl rx).
  assert (label_of (rx_dst rx) s = label_of dst s0) as -> by (unfold label_of; by rewrite X2, T1).
  assert (IVI_RX (rx_old_iv rx) (tn s) = iv) as -> by (unfold IVI_RX in *; by rewrite X4, T2). rewrite T1, T3, X5, Hsub, Kl.
  rewrite (try_keys_first pre k post (with_rx_seq seq0 rx) (sub_net_idx sub) (SEG_HDR 1 aid) a c _ (label_of dst s0) iv msg); cbn [with_rx_seq rx_new_key rx_src rx_dst rx_seq]; rewrite ?X6, ?G2, ?Kk; try done; [by rewrite X1, X2|].
  replace (length msg + APP_MIC_LEN a - APP_MIC_LEN a)%nat with (length msg) by lia. by rewrite X1, X2.
Qed.

(** [C25] A segmented message arrives whole and once: an access message that was encrypted and cut into segments is handed to the access layer exactly once, with its bytes, when all segments have arrived, in whatever order and however often each of them comes; before that nothing is handed on.  The receiver has the key, a free context, none for this message yet and no replay entry against the sequence numbers, and all segments carry sequence numbers of one block of 8192, which also holds the first one: over a block boundary the message is lost ([block_boundary_loses_message]). *)
Theorem segmented_delivery m src dst seq0 a val msg subi sub newk old aid k i order s0 : let iv := IVI_RX old (tn s0) in
  let d := snd (bt_mesh_app_encrypt m val false a msg (label_of dst s0) src dst seq0 iv) in let h := SEG_HDR 1 aid in
  a = 0 \/ a = 1 → (1 <= length msg)%nat → Z.of_nat (length msg + APP_MIC_LEN a) <= CONFIG_BT_MESH_RX_SDU_MAX → 0 <= seq0 < 2 ^ 24 →
  subs (tn s0) !! subi = Some sub → has_key newk (sub_net_idx sub) aid val k s0 →
  rx_find src dst (SEQ_AUTH iv seq0) (rxs s0) 0 = NotFound → find_unused (rxs s0) 0 = Some i → Forall (λ r, length (srx_data r) = Z.to_nat CONFIG_BT_MESH_RX_SDU_MAX) (rxs s0) →
  Forall (λ p, (fst p <= last_seg d)%nat /\ from_msg src dst seq0 subi newk old (snd p) /\ fst (is_replay (snd p) s0) = false) order →
  if complete d (map fst order) then exists ttl, deliveries (recv_segs seq0 h a d order s0) = deliveries s0 ++ [EvModel (ak_app_idx k) src dst ttl msg]
  else deliveries (recv_segs seq0 h a d order s0) = deliveries s0.
Proof.
  intros iv d h Ha Hm Hmax Hs Hsub Hkey Hnf Hfree Hsz Hord. destruct (app_delivers m src dst seq0 iv a val msg subi sub newk old aid k s0 Ha Hm eq_refl Hsub Hkey) as [L Hdel]. fold d h in L, Hdel.
  assert (1 <= Z.of_nat (length d) <= 384) as Hd by (unfold CONFIG_BT_MESH_RX_SDU_MAX in Hmax; lia). destruct (hdr_fields aid (hk_aid _ _ _ _ _ _ Hkey)) as (Hh & _ & _).
  pose proof (recv_progress src dst seq0 iv h a d subi newk old Hd Hh Ha Hs _ i s0 order (Build_ready _ _ _ _ _ _ _ _ _ _ _ _ _ eq_refl Hnf Hfree Hsz Hdel) Hord) as [_ _ _ _ Hq _ _ Hdone].
  assert (complete d (rev (map fst order)) = complete d (map fst order)) as E.
  { apply eq_iff_eq_true. rewrite !complete_spec. assert (forall j, has (rev (map fst order)) j = has (map fst order) j) as Er by (intros j; apply eq_iff_eq_true; rewrite !has_spec; symmetry; apply in_rev).
    split; intros C j Hj; specialize (C j Hj); rewrite Er in *; done. }
  rewrite E in *. destruct (complete d (map fst order)); [|by apply Hq]. destruct (Hdone eq_refl) as (r & rx & _ & _ & _ & ->). by exists (rx_recv_ttl rx).
Qed.

(** ** Sending does not touch the reassembly contexts *)

Lemma rxs_iv_update iv upd s : rxs (snd (bt_mesh_net_iv_update iv upd s)) = rxs s.
Proof. unfold bt_mesh_net_iv_update. cbv zeta. repeat (destruct (negb _ && _) || destruct (_ && negb _) || destruct (_ || _) || destruct (_ =? _) || destruct (_ <? _) || destruct upd || destruct (iv_update _) || cbn [negb]); done. Qed.

Lemma rxs_release k i j s : rxs (release_segs k i j s) = rxs s.
Proof. revert j s. induction k as [|k IH]; intros j s; [done|]. cbn [release_segs]. rewrite IH. destruct (txs s !! i) as [t|]; [|done]. destruct (stx_seg t !! j) as [[b|]|]; done. Qed.

Lemma rxs_tx_reset i s : rxs (seg_tx_reset i s) = rxs s.
Proof.
  unfold seg_tx_reset. destruct (txs s !! i) as [t|]; [|done]. cbv zeta. destruct (stx_nack t =? 0); [done|]. set (s1 := on_tx i (set_nack 0) _).
  assert (rxs s1 = rxs s) as E by (unfold s1; cbn [on_tx with_txs rxs]; by rewrite rxs_release). destruct (pending_update s1); [|done].
  pose proof (rxs_iv_update (iv_index (tn (with_update false (last_update s1) s1))) false (with_update false (last_update s1) s1)) as R.
  destruct (bt_mesh_net_iv_update _ _ _) as [b s2]. cbn [snd] in R. destruct b; cbn [emit rxs]; by rewrite R.
Qed.

Lemma rxs_tx_complete i e s : rxs (seg_tx_complete i e s) = rxs s.
Proof. unfold seg_tx_complete. rewrite rxs_tx_reset. destruct (txs s !! i) as [t|]; [|done]. by destruct (stx_cb t). Qed.

Lemma rxs_resend subi i nk cb s : rxs (snd (net_resend subi i nk cb s)) = rxs s.
Proof.
  unfold net_resend. destruct (subs (tn s) !! subi) as [sub|]; [|done]. destruct (bt_mesh_net_resend _ _ _ _ _) as [[e c] n]. cbv zeta. destruct (negb (e =? 0)); [done|].
  destruct (_ && _); [|done]. cbn [snd emit rxs]. by rewrite rxs_iv_update.
Qed.

Lemma rxs_unacked k i j s : rxs (send_unacked k i j s) = rxs s.
Proof.
  revert j s. induction k as [|k IH]; intros j s; [done|]. cbn [send_unacked]. destruct (txs s !! i) as [t|]; [|done]. destruct (stx_seg t !! j) as [[b|]|]; [|apply IH | apply IH].
  destruct (pool s !! b) as [buf|]; [|done]. destruct (ab_busy buf); [apply IH|]. cbv zeta. destruct (ab_attempts buf =? 0); [by rewrite rxs_tx_complete|]. destruct (stx_sub t) as [subi|]; [|done].
  set (s1 := on_buf b _ s). pose proof (rxs_resend subi b (stx_new_key t) (SegSent i) s1) as R. destruct (net_resend _ _ _ _ _) as [e s2]. cbn [snd] in R.
  destruct (negb (e =? 0)); [by rewrite rxs_tx_complete, R | by rewrite IH, R].
Qed.

Lemma rxs_ack_segs k ack i j s : rxs (ack_segs k ack i j s) = rxs s.
Proof.
  revert j s. induction k as [|k IH]; intros j s; [done|]. cbn [ack_segs]. rewrite IH. destruct (Z.testbit _ _); [|done]. destruct (txs s !! i) as [t|]; [|done]. by destruct (stx_seg t !! j) as [[b|]|].
Qed.

Lemma rxs_ctl_recv rx lm hdr buf s : rxs (snd (ctl_recv rx lm hdr buf s)) = rxs s.
Proof.
  unfold ctl_recv. cbv zeta. destruct (_ =? TRANS_CTL_OP_ACK).
  - unfold trans_ack. destruct (Nat.ltb _ _); [done|]. cbv zeta. unfold seg_tx_lookup. destruct (tx_lookup _ _ _ _ _) as [i|]; [|done]. destruct (_ =? 0); [cbn [snd]; by rewrite rxs_tx_complete|].
    destruct (_ <? _); [done|]. set (s1 := ack_segs _ _ _ _ _). assert (rxs s1 = rxs s) as E by (unfold s1; by rewrite rxs_ack_segs). destruct (truthy _); cbn [snd].
    + unfold seg_tx_send_unacked. destruct (txs s1 !! i); [by rewrite rxs_unacked | done].
    + by rewrite rxs_tx_complete.
  - destruct (_ =? TRANS_CTL_OP_HEARTBEAT); [|by destruct (negb lm)]. unfold trans_heartbeat. destruct (Nat.ltb _ _); [done|]. by destruct (negb _).
Qed.

Lemma rxs_sdu_recv rx hdr a buf s : rxs (snd (sdu_recv rx hdr a buf s)) = rxs s.
Proof.
  unfold sdu_recv. destruct (Nat.ltb _ _); [done|]. cbv zeta. destruct (negb _); [destruct (bt_mesh_app_decrypt _ _ _ _ _ _ _ _ _ _); by destruct (negb _)|]. by destruct (try_keys _ _ _ _ _ _ _ _ _) as [[? ?]|].
Qed.

(** ** The reassembly buffers are not overrun *)

(** Every buffer has its size; a context in use fits it. *)
Definition rx_fits (r : seg_rx) : Prop := length (srx_data r) = Z.to_nat CONFIG_BT_MESH_RX_SDU_MAX /\ (srx_in_use r = true → 0 <= srx_seg_n r /\ srx_seg_n r * seg_len (srx_ctl r) + 1 <= CONFIG_BT_MESH_RX_SDU_MAX).
Definition rx_inv (s : trans) : Prop := Forall rx_fits (rxs s).

Lemma rx_inv_alter f i s : (forall r, rxs s !! i = Some r → rx_fits (f r)) → rx_inv s → rx_inv (on_rx i f s).
Proof. intros Hf H. unfold rx_inv in *. cbn [on_rx with_rxs rxs]. apply Forall_alter; [done|]. intros x Hx _. by apply Hf. Qed.

Lemma rx_inv_get s i r : rx_inv s → rxs s !! i = Some r → rx_fits r.
Proof. intros H Hi. by eapply Forall_lookup_1 in H. Qed.

Lemma idle_fits r : rx_fits r → rx_fits (idle_rx r).
Proof. intros [H _]. by split. Qed.

Lemma rx_inv_reset i s : rx_inv s → rx_inv (seg_rx_reset i s).
Proof. intros H. apply rx_inv_alter; [|done]. intros r Hr. by eapply idle_fits, rx_inv_get. Qed.

Lemma rx_inv_rxs s s' : rxs s' = rxs s → rx_inv s → rx_inv s'.
Proof. intros E. unfold rx_inv. by rewrite E. Qed.
#[local] Hint Resolve rx_inv_reset idle_fits : core.

(** A segment that passed the checks lies inside the buffer. *)
Lemma store_fits t seg_o d r : rx_fits r → srx_in_use r = true → 0 <= seg_o <= srx_seg_n r →
  (seg_o = srx_seg_n r → seg_o * seg_len (srx_ctl r) + Z.of_nat (length d) <= CONFIG_BT_MESH_RX_SDU_MAX) → (seg_o ≠ srx_seg_n r → Z.of_nat (length d) = seg_len (srx_ctl r)) →
  (Z.to_nat (seg_o * seg_len (srx_ctl r)) + length d <= length (srx_data r))%nat /\ rx_fits (store_seg t seg_o d r).
Proof.
  intros [L F] U Ho H1 H2. destruct (F U) as [F0 F1]. assert (0 < seg_len (srx_ctl r)) by (destruct (srx_ctl r); cbn; lia).
  assert (0 <= seg_o * seg_len (srx_ctl r)) by nia. assert (Z.to_nat (seg_o * seg_len (srx_ctl r)) + length d <= length (srx_data r))%nat as Hf.
  { rewrite L. destruct (Z.eq_dec seg_o (srx_seg_n r)) as [E|E]; [specialize (H1 E); unfold CONFIG_BT_MESH_RX_SDU_MAX in *; lia|]. specialize (H2 E).
    assert (seg_o * seg_len (srx_ctl r) + seg_len (srx_ctl r) <= srx_seg_n r * seg_len (srx_ctl r)) by nia. unfold CONFIG_BT_MESH_RX_SDU_MAX in *. lia. }
  split; [done|]. split; [cbn [store_seg srx_data]; by rewrite store_at_length | exact F].
Qed.

Lemma seg_found_inv i r rx lm hdr a sa seg_o seg_n d s : rx_inv s → rxs s !! i = Some r → srx_in_use r = true → srx_seg_n r = seg_n → 0 <= seg_o <= seg_n → (length d <= 29)%nat →
  rx_inv (snd (seg_found i r rx lm hdr a sa seg_o seg_n d s)).
Proof.
  intros H Hi U En Ho Hd. pose proof (rx_inv_get s i r H Hi) as Hr. pose proof Hr as [L F]. destruct (F U) as [F0 F1]. unfold seg_found. destruct (truthy _); [done|]. cbv zeta.
  assert (u16 (seg_n * seg_len (srx_ctl r) + Z.of_nat (length d)) = seg_n * seg_len (srx_ctl r) + Z.of_nat (length d)) as E16.
  { apply u16_small. rewrite En in *. unfold CONFIG_BT_MESH_RX_SDU_MAX in *. assert (0 <= seg_n * seg_len (srx_ctl r)) by (destruct (srx_ctl r); cbn [seg_len]; lia). lia. }
  rewrite E16. set (s1 := if seg_o =? seg_n then _ else s). set (r1 := if seg_o =? seg_n then set_len (seg_n * seg_len (srx_ctl r) + Z.of_nat (length d)) r else r).
  assert (rx_inv s1) as H1 by (unfold s1; destruct (seg_o =? seg_n); [|done]; apply rx_inv_alter; [|done]; intros x Hx; pose proof (rx_inv_get s i x H Hx) as []; by split).
  assert (rxs s1 !! i = Some r1) as Hi1.
  { unfold s1, r1. destruct (seg_o =? seg_n); [|done]. cbn [on_rx with_rxs rxs]. rewrite (alter_insert _ _ _ _ Hi). apply list_lookup_insert_eq. by eapply lookup_lt_Some. }
  destruct ((seg_o =? seg_n) && (CONFIG_BT_MESH_RX_SDU_MAX <? _)) eqn:C1; [cbn [snd]; apply rx_inv_reset; eapply rx_inv_rxs; [apply calm_rxs, ack_calm | done]|].
  destruct (negb (seg_o =? seg_n) && _) eqn:C2; [done|]. set (s2 := on_rx i (store_seg _ _ _) s1).
  assert (rx_inv s2) as H2.
  { apply rx_inv_alter; [|done]. intros x Hx. rewrite Hi1 in Hx. injection Hx as <-. assert (srx_in_use r1 = true /\ srx_seg_n r1 = seg_n /\ srx_ctl r1 = srx_ctl r) as (G1 & G2 & G3) by (unfold r1; by destruct (seg_o =? seg_n)).
    apply store_fits; [by eapply rx_inv_get | done | lia | |]; rewrite G2, G3; intros E; zcases_in C1; zcases_in C2; lia. }
  destruct (negb (_ =? BLOCK_COMPLETE seg_n)); [done|]. destruct (if lm then is_replay rx s2 else _) as [rp s3] eqn:Er.
  assert (rx_inv s3) as H3. { eapply rx_inv_rxs; [|exact H2]. destruct lm; [|by injection Er as <- <-]. pose proof (replay_moved rx s2) as (_ & R & _). by rewrite Er in R. }
  destruct rp; [cbn [snd]; apply rx_inv_alter; [|done]; intros x Hx; pose proof (rx_inv_get s3 i x H3 Hx) as []; by split|].
  set (rx' := with_rx_seq _ rx). set (s4 := snd (send_ack _ _ _ _ _ _ _ _)). assert (rx_inv s4) as H4.
  { eapply rx_inv_rxs; [apply calm_rxs, ack_calm|]. apply rx_inv_alter; [|done]. intros x Hx. pose proof (rx_inv_get s3 i x H3 Hx) as []. by split. }
  set (sdu := match rxs s4 !! i with Some _ => _ | None => _ end). destruct (if truthy (rx_ctl rx') then _ else _) as [e s5] eqn:E5. cbn [snd]. apply rx_inv_reset. eapply rx_inv_rxs; [|exact H4].
  destruct (truthy (rx_ctl rx')); [rewrite <- (rxs_ctl_recv rx' lm hdr sdu s4) | rewrite <- (rxs_sdu_recv rx' hdr a sdu s4)]; by rewrite E5.
Qed.

Lemma seg_o_range w b : 0 <= b → 0 <= Z.lor (Z.shiftl (Z.land w 3) 3) (Z.shiftr b 5).
Proof. intros H. apply Z.lor_nonneg. split; [apply Z.shiftl_nonneg, Z.land_nonneg; lia | by apply Z.shiftr_nonneg]. Qed.

Lemma trans_seg_inv buf rx lm s : all_u8 buf → (length buf <= 29)%nat → rx_inv s → rx_inv (snd (trans_seg buf rx lm s)).
Proof.
  intros Hb Hl H. unfold trans_seg. destruct (Nat.ltb _ _) eqn:L5; [done|]. apply Nat.ltb_ge in L5. cbv zeta. set (seg_o := Z.lor _ (Z.shiftr (at_ 3 buf) 5)). set (seg_n := Z.land (at_ 3 buf) 31).
  destruct (Z.ltb_spec seg_n seg_o) as [|Ho]; [done|]. assert (0 <= at_ 3 buf) as Hb3. { unfold at_. unfold all_u8 in Hb. rewrite List.Forall_forall in Hb. apply Hb, nth_In. lia. }
  pose proof (seg_o_range (get_be16 (at_ 1 buf) (at_ 2 buf)) (at_ 3 buf) Hb3) as Ho0. fold seg_o in Ho0. assert (0 <= seg_n) as Hn0 by lia. assert (length (drop 4 buf) <= 29)%nat as Hd by (rewrite length_drop; lia).
  set (sa := SEQ_AUTH _ _). unfold seg_rx_find. set (f := rx_find _ _ _ _ _).
  assert (forall i s, rx_inv s → rx_inv (snd (match rxs s !! i with None => (- EINVAL, s) | Some r => if negb (seg_rx_is_valid r rx (at_ 0 buf) seg_n) then (- EINVAL, s) else
      if srx_in_use r then seg_found i r rx lm (at_ 0 buf) (ASZMIC buf) sa seg_o seg_n (drop 4 buf) s else
      if srx_block r =? BLOCK_COMPLETE (srx_seg_n r) then (- E_ALREADY, snd (send_ack (rx_sub rx) (rx_dst rx) (rx_src rx) (rx_send_ttl rx) sa (srx_block r) (srx_obo r) s)) else (- EINVAL, s) end))) as Hold.
  { intros i t Ht. destruct (rxs t !! i) as [r|] eqn:Hi; [|done]. destruct (seg_rx_is_valid r rx (at_ 0 buf) seg_n) eqn:V; [|done]. cbn [negb]. unfold seg_rx_is_valid in V. destruct (srx_in_use r) eqn:U.
    - apply seg_found_inv; try done. zcases_in V; (done || congruence).
    - destruct (srx_block r =? _); [|done]. cbn [snd]. eapply rx_inv_rxs; [apply calm_rxs, ack_calm | done]. }
  assert (forall s, rx_inv s → rx_inv (snd (if negb (sdu_len_is_ok (truthy (rx_ctl rx)) seg_n) then (- EMSGSIZE, snd (send_ack (rx_sub rx) (rx_dst rx) (rx_src rx) (rx_send_ttl rx) sa 0 false s)) else
      match seg_rx_alloc rx (at_ 0 buf) sa seg_n s with None => (- ENOMEM, s) | Some (i, s) => match rxs s !! i with None => (- ENOMEM, s) | Some r => seg_found i r rx lm (at_ 0 buf) (ASZMIC buf) sa seg_o seg_n (drop 4 buf) s end end))) as Hnew.
  { intros t Ht. destruct (sdu_len_is_ok _ _) eqn:K; cbn [negb]; [|cbn [snd]; eapply rx_inv_rxs; [apply calm_rxs, ack_calm | done]]. apply Z.leb_le in K. unfold seg_rx_alloc.
    destruct (find_unused (rxs t) 0) as [i|] eqn:Hf; [|done]. set (t1 := on_rx i _ t). assert (rx_inv t1) as Ht1 by (apply rx_inv_alter; [|done]; intros x Hx; pose proof (rx_inv_get t i x Ht Hx) as []; by split).
    destruct (rxs t1 !! i) as [r|] eqn:Hi; [|done]. apply find_unused_lt in Hf. assert (is_Some (rxs t !! i)) as [r0 Hr0] by (apply lookup_lt_is_Some; lia).
    unfold t1 in Hi. cbn [on_rx with_rxs rxs] in Hi. rewrite (alter_insert _ _ _ _ Hr0), list_lookup_insert_eq in Hi by lia. injection Hi as <-. apply seg_found_inv; try done.
    unfold t1. cbn [on_rx with_rxs rxs]. rewrite (alter_insert _ _ _ _ Hr0). apply list_lookup_insert_eq. lia. }
  destruct f as [i|i|]; [by apply Hold | apply Hnew; by apply rx_inv_reset | by apply Hnew].
Qed.

(** [C26] No received PDU overruns a reassembly buffer: whatever bytes (up to the 29 of an advertising PDU) the transport layer is given and whatever state its contexts are in, every segment it stores lies inside the 384 bytes of its buffer, so the buffers keep their size and every context in use fits its buffer. *)
Theorem reassembly_in_bounds pdu rx lm s : all_u8 pdu → (length pdu <= 29)%nat → rx_inv s → rx_inv (snd (bt_mesh_trans_recv pdu rx lm s)).
Proof.
  intros Hb Hl H. assert (all_u8 (drop 9 pdu)) as Hb9 by (by apply Forall_drop). assert (length (drop 9 pdu) <= 29)%nat as Hl9 by (rewrite length_drop; lia). unfold bt_mesh_trans_recv. cbv zeta.
  destruct (truthy (SEG _)); [destruct (negb lm); [done | by apply trans_seg_inv]|]. unfold trans_unseg. destruct (drop 9 pdu) as [|hdr buf]; [done|].
  destruct (if lm then is_replay rx s else _) as [rp s1] eqn:Er. assert (rx_inv s1) as H1.
  { eapply rx_inv_rxs; [|exact H]. destruct lm; [|by injection Er as <- <-]. pose proof (replay_moved rx s) as (_ & R & _). by rewrite Er in R. }
  destruct rp; [done|]. destruct (truthy (rx_ctl rx)); [eapply rx_inv_rxs; [apply rxs_ctl_recv | done]|]. destruct (negb lm); [done | eapply rx_inv_rxs; [apply rxs_sdu_recv | done]].
Qed.

(** ** Concrete nodes *)

Definition free_buf : adv_buf := mkBuf 0 [] 0 false NoCb.
Definition idle_ctx : seg_tx := mkSegTx None (repeat None BT_MESH_TX_SEG_COUNT) 0 0 0 false 0 None false.
Definition empty_ctx : seg_rx := mkSegRx 0 0 0 false false false 0 0 0 0 0 0 None 0 (zeros 384).
Definition sample_app : bt_mesh_app_key := mkAppKey 0 0 false 38 (zeros 16) 0 [].
Definition sample_cfg : tcfg := mkCfg [sample_app] (zeros 16) [] [] (λ _, false) 10 0 1000 [].

(** A provisioned node with one element and one application key. *)
Definition mesh_node (addr seq : Z) : trans := mkTrans sample_cfg
  (mkNet 305419896 false seq [sample_sub] (repeat 0 10) 0 (repeat 0 10) 0 [addr] true false (repeat (mkRpl 0 false 0) CONFIG_BT_MESH_CRPL))
  (repeat free_buf 12) [] [] (repeat idle_ctx 6) (repeat empty_ctx 4) 0 false 0 [].

Definition sample_text : list Z := map Z.of_nat (seq 1 20).
Definition sample_rx (seq : Z) : net_rx := mkRx BT_MESH_NET_IF_ADV 0 0 false false 0 seq 1 2 5 255.

Lemma segmented_delivery_witness : let d := snd (bt_mesh_app_encrypt [] (zeros 16) false 1 sample_text None 1 2 8000 305419896) in
  let order := [(2%nat, sample_rx 8002); (0%nat, sample_rx 8000); (2%nat, sample_rx 8002); (1%nat, sample_rx 8001); (0%nat, sample_rx 8005)] in
  exists ttl, deliveries (recv_segs 8000 (SEG_HDR 1 38) 1 d order (mesh_node 2 100)) = [EvModel 0 1 2 ttl sample_text].
Proof.
  pose proof (segmented_delivery [] 1 2 8000 1 (zeros 16) sample_text 0 sample_sub false false 38 sample_app 0 
    [(2%nat, sample_rx 8002); (0%nat, sample_rx 8000); (2%nat, sample_rx 8002); (1%nat, sample_rx 8001); (0%nat, sample_rx 8005)] (mesh_node 2 100)) as T. cbv zeta in T.
  assert (complete (snd (bt_mesh_app_encrypt [] (zeros 16) false 1 sample_text None 1 2 8000 305419896)) [2; 0; 2; 1; 0]%nat = true) as Hc by (vm_compute; reflexivity).
  change (IVI_RX false (tn (mesh_node 2 100))) with 305419896 in T. change (label_of 2 (mesh_node 2 100)) with (@None (list Z)) in T. cbn [map fst] in T. rewrite Hc in T. apply T; clear T; try (vm_compute; reflexivity).
  - by right.
  - cbn; lia.
  - vm_compute. discriminate.
  - lia.
  - split; [lia | reflexivity | reflexivity |]. exists [], []. split; [reflexivity | constructor].
  - repeat (constructor; [vm_compute; reflexivity|]). constructor.
  - assert (last_seg (snd (bt_mesh_app_encrypt [] (zeros 16) false 1 sample_text None 1 2 8000 305419896)) = 2%nat) as -> by (vm_compute; reflexivity).
    repeat (constructor; [cbn [fst snd]; split_and!; [lia | split; try reflexivity; cbn; split; [lia | reflexivity] | vm_compute; reflexivity]|]). constructor.
Defined.

Lemma reassembly_in_bounds_witness : rx_inv (snd (bt_mesh_trans_recv (zeros 9 ++ [230; 125; 0; 34] ++ zeros 12) (sample_rx 8000) true (mesh_node 2 100))).
Proof.
  apply (reassembly_in_bounds (zeros 9 ++ [230; 125; 0; 34] ++ zeros 12) (sample_rx 8000) true (mesh_node 2 100)); [repeat (constructor; [lia|]); constructor | cbn; lia |].
  repeat (constructor; [split; [vm_compute; reflexivity | discriminate]|]). constructor.
Defined.
