(* ===== verification/MeshEnd.v ===== *)
(** * MeshEnd: replay protection, and messages from end to end

    As long as the replay list has room for the sources, the PDUs with which a node hands
    access messages on have increasing sequence numbers for each source; a full list
    forgets, and a segmented message can be handed on twice.  An access message goes from
    node to node through all layers.  And other cases in which the transport layer does
    not do what it should. *)
From Stdlib Require Import ZArith Lia List Bool Sorted.
From stdpp Require Import base list numbers option.
From S2P Require Import Prelude Env Aes Cmac MeshCrypto MeshCryptoProps MeshNet MeshNetProps MeshTrans MeshRecv MeshRecvProps.
Local Open Scope Z_scope.

(** ** The replay list *)



Abbreviation walk rx l := (rpl_walk (rx_src rx) (rx_seq rx) (rx_old_iv rx) l).





(** ** Receptions *)







(** ** Runs *)






(** ** From end to end *)

#[local] Opaque aes bt_mesh_net_encrypt bt_mesh_net_decrypt bt_mesh_net_obfuscate bt_mesh_app_encrypt bt_mesh_app_decrypt.

Lemma find_free_spec p m i : find_free p m = Some i → exists b, p !! (i - m)%nat = Some b /\ (m <= i)%nat.
Proof.
  revert m. induction p as [|b p IH]; intros m; [done|]. cbn [find_free]. destruct (Nat.eqb _ _); [intros [= ->]; exists b; rewrite Nat.sub_diag; done|].
  intros (b' & Hb & Hm)%IH. exists b'. replace (i - m)%nat with (S (i - S m)) by lia. split; [done | lia].
Qed.

(** A node that can send [tx] on the air: the subnet and the key are there, a buffer is
    free, the destination is neither local nor behind the proxy. *)
Record can_send (tx : msg_tx) (sub : bt_mesh_subnet) (key : list Z) (aid : Z) (b : nat) (s : trans) : Prop := {
  cs_sub : subs (tn s) !! mt_sub tx = Some sub; cs_key : trans_key tx s = Some (key, aid); cs_app : mt_app_idx tx ≠ BT_MESH_KEY_DEV /\ mt_app_idx tx ≠ BT_MESH_KEY_UNUSED;
  cs_buf : find_free (pool s) 0 = Some b; cs_queue : adv_queue s = []; cs_ttl : mt_ttl tx ≠ BT_MESH_TTL_DEFAULT /\ mt_ttl tx ≠ 1;
  cs_proxy : proxy_takes (tc s) (mt_dst tx) = false; cs_local : bt_mesh_fixed_group_match (mt_dst tx) s = false /\ elem_find (mt_dst tx) s = false }.

(** The PDU of an unsegmented message. *)
Definition unseg_pdu (tx : msg_tx) (sub : bt_mesh_subnet) (key : list Z) (aid : Z) (msg : list Z) (s : trans) : list Z :=
  net_header (keys_of (kr_flag sub) sub) (IVI_TX (tn s)) (seq_num (tn s)) (mkTx false (mt_src tx) (mt_dst tx) (mt_ttl tx)) ++
  u8 (UNSEG_HDR 1 aid) :: snd (bt_mesh_app_encrypt (mic0 (tc s)) key false 0 msg (label_of (mt_dst tx) s) (mt_src tx) (mt_dst tx) (seq_num (tn s)) (IVI_TX (tn s))).

(** What goes on the air. *)
Lemma unseg_sent tx sub key aid b msg room cb s : can_send tx sub key aid b s → mt_send_rel tx = false → (1 <= length msg <= 11)%nat → 4 <= room →
  exists s', bt_mesh_trans_send tx msg room cb s = (0, s') /\
  fst (adv_thread s') = Some (secured (mic0 (tc s)) (keys_of (kr_flag sub) sub) (IVI_TX (tn s)) (unseg_pdu tx sub key aid msg s)).
Proof.
  intros [Hsub Hkey [Hdev Hun] Hb Hq [Ht1 Ht2] Hp [Hl1 Hl2]] Hrel Hm Hroom. unfold bt_mesh_trans_send. rewrite (proj2 (Z.ltb_ge _ _) Hroom), Hrel, (proj2 (Z.ltb_ge _ _)) by lia. cbn [orb]. rewrite Hkey. cbv zeta. cbn [negb orb].
  cbn [mt_app_idx mt_dst mt_src mt_sub mt_ttl]. rewrite (proj2 (Z.eqb_neq _ _) Hdev). unfold unseg_pdu.
  destruct (app_crypt_roundtrip (mic0 (tc s)) key false 0 msg (label_of (mt_dst tx) s) (mt_src tx) (mt_dst tx) (seq_num (tn s)) (IVI_TX (tn s)) ltac:(lia)) as (c & E & L & _). rewrite E. cbn [Z.eqb negb snd].
  change (APP_MIC_LEN 0) with 4%nat in L. unfold send_unseg, bt_mesh_adv_create. rewrite Hb. destruct (find_free_spec _ _ _ Hb) as (buf0 & Hlk & _). rewrite Nat.sub_0_r in Hlk. apply lookup_lt_Some in Hlk as Hlt.
  set (cb' := match cb with Some id => UserCb id | None => NoCb end). unfold app_hdr. cbn [mt_app_idx mt_aid]. rewrite (proj2 (Z.eqb_neq _ _) Hdev). set (s1 := buf_put b _ _). unfold bt_mesh_net_send. cbn [mt_app_idx mt_dst mt_src mt_sub mt_ttl]. rewrite (proj2 (Z.eqb_neq _ _) Ht1).
  change (subs (tn s1)) with (subs (tn s)). rewrite Hsub.
  assert (pool s1 = <[b := mkBuf 1 (u8 (UNSEG_HDR 1 aid) :: c) 0 false NoCb]> (pool s)) as Ep.
  { unfold s1, buf_put, on_buf. cbn [with_pool pool]. rewrite (alter_insert _ _ _ _ Hlk). rewrite (alter_insert _ _ _ (mkBuf 1 [] 0 false NoCb)) by (by apply list_lookup_insert_eq). by rewrite list_insert_insert_eq. }
  assert (buf_data b s1 = u8 (UNSEG_HDR 1 aid) :: c) as Ed by (unfold buf_data; rewrite Ep, list_lookup_insert_eq by done; done). rewrite Ed. rewrite (proj2 (Z.eqb_neq _ _) Hun).
  rewrite encode_spec; [|cbn [tx_ctl]; unfold tailroom, BT_MESH_ADV_DATA_SIZE, BT_MESH_NET_HDR_LEN; cbn [length]; lia | cbn; lia].
  change (tn s1) with (tn s). change (mic0 (tc s1)) with (mic0 (tc s)). cbv zeta. set (data := secured _ _ _ _). cbn [Z.eqb negb]. rewrite (proj2 (Z.eqb_neq _ _) Ht2). cbn [negb andb].
  set (s2 := buf_put b data _). set (s3 := emit (EvProxy data (mt_dst tx)) s2). change (proxy_takes (tc s3) (mt_dst tx)) with (proxy_takes (tc s) (mt_dst tx)). rewrite Hp. cbn [andb].
  change (bt_mesh_fixed_group_match (mt_dst tx) s3) with (bt_mesh_fixed_group_match (mt_dst tx) s). change (elem_find (mt_dst tx) s3) with (elem_find (mt_dst tx) s). rewrite Hl1, Hl2. cbn [orb].
  eexists. split; [done|]. unfold adv_thread.
  assert (pool s3 = <[b := mkBuf 1 data 0 false NoCb]> (pool s)) as Ep3.
  { change (pool s3) with (alter (λ x, mkBuf (ab_ref x) data (ab_attempts x) (ab_busy x) (ab_cb x)) b (pool s1)). rewrite Ep. rewrite (alter_insert _ _ _ (mkBuf 1 (u8 (UNSEG_HDR 1 aid) :: c) 0 false NoCb)) by (by apply list_lookup_insert_eq). by rewrite list_insert_insert_eq. }
  set (s4 := net_buf_unref b _). assert (adv_queue s4 = [b]) as -> by (change (adv_queue s4) with (adv_queue s ++ [b]); by rewrite Hq).
  assert (pool (with_queue [] s4) !! b = Some (mkBuf 1 data 0 true cb')) as ->; [|done].
  change (pool (with_queue [] s4)) with (alter (λ x, mkBuf (pred (ab_ref x)) (ab_data x) (ab_attempts x) (ab_busy x) (ab_cb x)) b (alter (λ x, mkBuf (S (ab_ref x)) (ab_data x) (ab_attempts x) true cb') b (pool s3))).
  rewrite Ep3, !list_lookup_alter_eq. rewrite list_lookup_insert_eq by done. done.
Qed.

Lemma unseg_hdr_fields aid : 0 <= aid < 64 → u8 (UNSEG_HDR 1 aid) = UNSEG_HDR 1 aid /\ Z.shiftr (UNSEG_HDR 1 aid) 7 = 0 /\ AKF (UNSEG_HDR 1 aid) = 1 /\ AID (UNSEG_HDR 1 aid) = aid.
Proof.
  intros H. pose proof (List.Forall_forall (λ z, u8 (UNSEG_HDR 1 z) = UNSEG_HDR 1 z /\ Z.shiftr (UNSEG_HDR 1 z) 7 = 0 /\ AKF (UNSEG_HDR 1 z) = 1 /\ AID (UNSEG_HDR 1 z) = z) (map Z.of_nat (seq 0 64))) as [F _].
  apply F; [|apply in_map_iff; exists (Z.to_nat aid); rewrite in_seq; lia]. cbn [seq map]. repeat (constructor; [vm_compute; split_and!; congruence|]). constructor.
Qed.

Lemma label_unicast a s : BT_MESH_ADDR_IS_UNICAST a = true → label_of a s = None.
Proof. unfold BT_MESH_ADDR_IS_UNICAST, label_of, BT_MESH_ADDR_IS_VIRTUAL. intros H. destruct (Z.leb_spec 32768 a); [|done]. rewrite (proj2 (Z.ltb_ge a 32768)), andb_false_r in H by lia. done. Qed.

(** An access message in an unsegmented PDU reaches the access layer. *)
Lemma unseg_received m src dst seq iv a_rx hdr key aid msg sub k s : bt_mesh_app_encrypt m key false 0 msg None src dst seq iv = (0, a_rx) → length a_rx = (length msg + 4)%nat →
  bt_mesh_app_decrypt key false 0 a_rx (length msg) None src dst seq iv = (0, msg) → BT_MESH_ADDR_IS_UNICAST dst = true → AKF hdr = 1 → AID hdr = aid → (1 <= length msg)%nat →
  forall rx, rx_src rx = src → rx_dst rx = dst → rx_seq rx = seq → rx_new_key rx = false → IVI_RX (rx_old_iv rx) (tn s) = iv → subs (tn s) !! rx_sub rx = Some sub →
  has_key false (sub_net_idx sub) aid key k s → sdu_recv rx hdr 0 a_rx s = (0, emit (EvModel (ak_app_idx k) src dst (rx_recv_ttl rx) msg) s).
Proof.
  intros E L D Hu G1 G2 Hm rx X1 X2 X3 X4 X5 X6 [Ka Kk Kn (pre & post & Kl & Kf)]. unfold sdu_recv. change (APP_MIC_LEN 0) with 4%nat. rewrite L, (proj2 (Nat.ltb_ge _ _)) by lia. cbv zeta.
  rewrite G1. change (negb (truthy 1)) with false. rewrite X2, label_unicast, X5, X6, Kl by done.
  rewrite (try_keys_first pre k post rx (sub_net_idx sub) hdr 0 a_rx _ None iv msg); rewrite ?X1, ?X2, ?X3, ?X4, ?G2, ?Kk; try done.
  replace (length msg + 4 - 4)%nat with (length msg) by lia. done.
Qed.

(** An access message goes through all layers: what one node sends with [bt_mesh_trans_send] (up to 11 bytes to a unicast address) leaves as one advertising PDU, and the node that has the address, the keys and no record of the PDU hands exactly the message, once, to its access layer, with the source, the destination and the application key index. *)
Theorem unsegmented_end_to_end tx sub key aid b msg room cb s pre sub2 k s2 : let k1 := keys_of (kr_flag sub) sub in let iv := IVI_TX (tn s) in
  let pdu := unseg_pdu tx sub key aid msg s in let data := secured (mic0 (tc s)) k1 iv pdu in
  can_send tx sub key aid b s → mt_send_rel tx = false → (1 <= length msg <= 11)%nat → 4 <= room → 0 <= k_nid k1 < 128 → 0 <= seq_num (tn s) < 2 ^ 24 →
  tx_ok (mkTx false (mt_src tx) (mt_dst tx) (mt_ttl tx)) → mt_dst tx < 32768 → hears k1 iv pdu data pre sub2 (tn s2) → bt_mesh_elem_find (mt_dst tx) (tn s2) = true →
  has_key false (sub_net_idx sub2) aid key k s2 → (forall rx, rx_src rx = mt_src tx → rx_seq rx = seq_num (tn s) → fst (is_replay rx s2) = false) →
  exists s', bt_mesh_trans_send tx msg room cb s = (0, s') /\ fst (adv_thread s') = Some data /\
  deliveries (bt_mesh_net_recv data BT_MESH_NET_IF_ADV s2) = deliveries s2 ++ [EvModel (ak_app_idx k) (mt_src tx) (mt_dst tx) (mt_ttl tx) msg].
Proof.
  intros k1 iv pdu data Hcs Hrel Hm Hroom Hnid Hseq Hx Hd Hh He Hkey Hrp. destruct (unseg_sent tx sub key aid b msg room cb s Hcs Hrel Hm Hroom) as (s' & E1 & E2). exists s'. split; [done|]. split; [done|].
  pose proof (tx_dst_ok _ Hx) as Hd1. cbn [tx_dst] in Hd1. assert (BT_MESH_ADDR_IS_UNICAST (mt_dst tx) = true) as Hu by (unfold BT_MESH_ADDR_IS_UNICAST, truthy; zcases; (done || lia)).
  destruct (app_crypt_roundtrip (mic0 (tc s)) key false 0 msg None (mt_src tx) (mt_dst tx) (seq_num (tn s)) iv ltac:(lia)) as (c & Ec & Lc & Dc). change (APP_MIC_LEN 0) with 4%nat in Lc.
  destruct (unseg_hdr_fields aid (hk_aid _ _ _ _ _ _ Hkey)) as (U1 & U2 & U3 & U4).
  set (buf := UNSEG_HDR 1 aid :: c). assert (pdu = net_header k1 iv (seq_num (tn s)) (mkTx false (mt_src tx) (mt_dst tx) (mt_ttl tx)) ++ buf) as Epdu by (unfold pdu, unseg_pdu; rewrite label_unicast by done; fold iv; rewrite Ec, U1; done).
  assert (5 <= length buf)%nat as Lb by (cbn [buf length]; lia). pose proof (header_ok k1 iv (seq_num (tn s)) _ buf Hnid Hx Lb) as Hok. pose proof (header_fields k1 iv (seq_num (tn s)) _ buf Hnid Hx) as (_ & _ & F3 & F4 & F5 & F6 & F7 & F8).
  rewrite <- Epdu in Hok, F3, F4, F5, F6, F7, F8. cbn [tx_ctl tx_ttl tx_src tx_dst Z.b2z] in F3, F4, F6, F7, F8. rewrite Z.mod_small in F5 by done.
  assert (length pdu = (14 + length msg)%nat) as Lp by (rewrite Epdu, length_app; cbn [net_header app length seq_bytes be16 buf]; lia).
  destruct (secured_spec (mic0 (tc s)) k1 iv pdu ltac:(lia)) as (SL & _). fold data in SL. rewrite F8 in SL.
  pose proof (decode_secured (mic0 (tc s)) k1 iv pdu pre sub2 (tn s2) Hok Hh) as D. cbv zeta in D. fold data in D. set (old := negb _) in D. set (n' := took_msg _ _ _) in D. set (rx := rx_of old (length pre) sub2 pdu) in D.
  assert (subs n' = subs (tn s2) /\ iv_index n' = iv_index (tn s2) /\ rpl n' = rpl (tn s2) /\ elems n' = elems (tn s2)) as (N1 & N2 & N3 & N4) by done.
  unfold bt_mesh_net_recv. rewrite SL, (proj2 (Z.ltb_ge _ _)) by lia. rewrite D. cbv zeta. change (rx_dst rx) with (DST pdu). rewrite F7. set (t := with_tn n' s2).
  assert (elem_find (mt_dst tx) t = true) as Hloc. { unfold elem_find, BT_MESH_ADDR_IS_GROUP, BT_MESH_ADDR_IS_VIRTUAL. rewrite (proj2 (Z.leb_gt 49152 _)), (proj2 (Z.leb_gt 32768 _)) by lia. cbn [andb orb]. done. }
  rewrite Hloc, orb_true_r, Hu. cbn [negb orb]. unfold bt_mesh_trans_recv. rewrite Epdu. change (drop 9 (net_header k1 iv (seq_num (tn s)) _ ++ buf)) with buf. cbv zeta. unfold SEG, at_. cbn [nth buf]. rewrite U2. change (truthy 0) with false. cbv iota.
  unfold trans_unseg, buf. cbv iota beta. assert (fst (is_replay rx t) = false) as Hr by (rewrite <- (Hrp rx F6 F5); by apply replay_eq). destruct (replay_moved rx t) as (Q1 & Q2 & Q3 & Q4 & Q5). destruct (is_replay rx t) as [rp t1]. cbn [fst snd] in *. subst rp.
  change (rx_ctl rx) with (CTL pdu). rewrite F3. change (truthy 0) with false. cbn [negb]. destruct Hh as [_ Hv [post Hsub] _ [Hk0 _] _ _].
  rewrite (unseg_received (mic0 (tc s)) (mt_src tx) (mt_dst tx) (seq_num (tn s)) iv c (UNSEG_HDR 1 aid) key aid msg sub2 k t1 Ec Lc Dc Hu U3 U4 ltac:(lia) rx F6 F7 F5 eq_refl); cbn [snd].
  - change (rx_recv_ttl rx) with (TTL pdu). rewrite F4. unfold deliveries in *. cbn [emit tlog]. rewrite List.filter_app. cbn [List.filter is_model]. by rewrite Q5.
  - unfold IVI_RX. rewrite Q3. exact (iv_near_rx iv (tn s2) Hv).
  - rewrite Q4. change (subs (tn t)) with (subs (tn s2)). rewrite Hsub. by apply list_lookup_middle.
  - destruct Hkey as [K1 K2 K3 (p1 & p2 & K4 & K5)]. split; try done. exists p1, p2. rewrite Q1. done.
Qed.

(** ** What goes wrong *)

(** What the advertising thread sends in [k] rounds, the node after it, and a node that
    hears PDUs. *)
Fixpoint on_air (k : nat) (s : trans) : list (list Z) * trans :=
  match k with
  | O => ([], s)
  | S k => let '(d, s) := adv_thread s in let '(l, s) := on_air k s in (match d with Some d => d :: l | None => l end, s)
  end.
Definition hear (l : list (list Z)) (s : trans) : trans := fold_left (λ s d, bt_mesh_net_recv d BT_MESH_NET_IF_ADV s) l s.
Definition sample_to (dst : Z) : msg_tx := mkMsgTx 0 0 dst 5 1 false 0 0.

(** The same message, sent from sequence number [seq] on, and what the other node hands on. *)
Definition text_from (seq : Z) : Z * list tevent :=
  let '(r, a) := bt_mesh_trans_send (sample_to 2) sample_text 40 None (mesh_node 1 seq) in
  (r, deliveries (hear (fst (on_air 12 a)) (mesh_node 2 100))).

(** A segmented message is lost when its sequence numbers pass a multiple of 8192: the receiver takes the upper bits of SeqAuth from the PDU at hand, so the segments behind the multiple open a second context.  The 20 bytes that arrive from sequence number 8189 on (segments 8189, 8190, 8191) are not handed on from 8190 on, although all three segments are received. *)
Theorem block_boundary_loses_message : text_from 8189 = (0, [EvModel 0 1 2 5 sample_text]) /\ text_from 8190 = (0, []) /\
  let a := snd (bt_mesh_trans_send (sample_to 2) sample_text 40 None (mesh_node 1 8190)) in
  let b := hear (fst (on_air 12 a)) (mesh_node 2 100) in map (λ r, (srx_in_use r, srx_seq_auth r mod 16777216, srx_block r)) (rxs b) = [(true, 16382, 4); (false, 0, 0); (false, 0, 0); (false, 0, 0)].
Proof. vm_compute. split_and!; reflexivity. Qed.

(** The node after a message of three segments to all nodes, when the local work item and
    the advertising thread have nothing left to do. *)
Definition group_text (s : trans) : Z * trans :=
  let '(r, s) := bt_mesh_trans_send (sample_to BT_MESH_ADDR_ALL_NODES) sample_text 40 None s in
  (r, snd (on_air 12 (bt_mesh_net_local (bt_mesh_net_local (bt_mesh_net_local s))))).

(** The node after a message of three segments to a node that does not answer: sent, sent
    again by the retransmission timer, given up at its next expiry. *)
Definition unanswered_text (s : trans) : Z * trans :=
  let '(r, s) := bt_mesh_trans_send (sample_to 2) sample_text 40 None s in
  (r, snd (on_air 12 (seg_retransmit 0 (snd (on_air 12 (seg_retransmit 0 (snd (on_air 12 s)))))))).

(** Nothing left to do: empty queues, and no context in use or holding a segment. *)
Definition at_rest (s : trans) : bool :=
  match adv_queue s, local_queue s with [], [] => negb (bt_mesh_tx_in_progress s) && forallb (λ t, forallb (λ o, match o with Some _ => false | None => true end) (stx_seg t)) (txs s) | _, _ => false end.

(** A segmented message to a group the node is in itself leaks its buffers: the callback of the first segment, which runs at once for the local delivery, resets the context while [send_seg] still adds segments, so all but the first stay in a context that counts as free, and the next message overwrites them.  After a message of three segments to all nodes and one to another node everything is at rest, but two of the twelve buffers are still referenced, and after a second such pair four are.  Without the group message no buffer is lost. *)
Theorem group_message_leaks : let s1 := snd (unanswered_text (snd (group_text (mesh_node 1 8000)))) in let s2 := snd (unanswered_text (snd (group_text s1))) in
  let u1 := snd (unanswered_text (mesh_node 1 8000)) in
  (at_rest s1 = true /\ map ab_ref (pool s1) = [0; 1; 1; 0; 0; 0; 0; 0; 0; 0; 0; 0]%nat) /\ (at_rest s2 = true /\ map ab_ref (pool s2) = [0; 1; 1; 1; 1; 0; 0; 0; 0; 0; 0; 0]%nat) /\
  (at_rest u1 = true /\ map ab_ref (pool u1) = repeat 0%nat 12).
Proof. vm_compute. split_and!; reflexivity. Qed.

(** The PDUs of a message from [src] to node 2 that is sent from sequence number [seq] on. *)
Definition pdus_of (src seq : Z) (msg : list Z) : list (list Z) := fst (on_air 12 (snd (bt_mesh_trans_send (mkMsgTx 0 0 2 5 src false 0 0) msg 40 None (mesh_node src seq)))).
Definition from_of (e : tevent) : Z := match e with EvModel _ src _ _ _ => src | _ => 0 end.

(** A full replay list forgets: after messages from six sources the entry of the first is overwritten, and when the message caches have forgotten its PDU too, a copy of it is handed on again; with five sources it is not. *)
Theorem replay_after_eviction : let once src := pdus_of src 7 [1; 2; 3] in let twice src := once src ++ pdus_of src 8 [4; 5; 6] in
  map from_of (deliveries (hear (once 1 ++ twice 3 ++ twice 4 ++ twice 5 ++ twice 6 ++ twice 7 ++ once 1) (mesh_node 2 100))) = [1; 3; 3; 4; 4; 5; 5; 6; 6; 7; 7; 1] /\
  map from_of (deliveries (hear (once 1 ++ twice 3 ++ twice 4 ++ twice 5 ++ twice 6 ++ pdus_of 6 9 [1] ++ pdus_of 6 10 [1] ++ once 1) (mesh_node 2 100))) = [1; 3; 3; 4; 4; 5; 5; 6; 6; 6; 6].
Proof. vm_compute. split; reflexivity. Qed.

(** A segmented message is handed on twice: the replay list records the sequence number of the segment that completed the message, not the largest one.  Three segments are heard in reverse order, so that the first one, 8000, is recorded; when four messages of another node have taken the context and the caches, the same three PDUs in order pass the check with 8002. *)
Theorem segmented_message_replayed : let m := pdus_of 1 8000 sample_text in let others := concat (map (λ i, pdus_of 3 (8000 + 3 * i) sample_text) [0; 1; 2; 3]) in
  length m = 3%nat /\ deliveries (hear (rev m) (mesh_node 2 100)) = [EvModel 0 1 2 5 sample_text] /\
  map from_of (deliveries (hear (rev m ++ others ++ m) (mesh_node 2 100))) = [1; 3; 3; 3; 3; 1].
Proof. vm_compute. split_and!; reflexivity. Qed.

(** ** Witnesses *)


Lemma unsegmented_end_to_end_witness : exists data s', bt_mesh_trans_send (sample_to 2) [1; 2; 3] 40 None (mesh_node 1 8000) = (0, s') /\ fst (adv_thread s') = Some data /\ deliveries (bt_mesh_net_recv data BT_MESH_NET_IF_ADV (mesh_node 2 100)) = [EvModel 0 1 2 5 [1; 2; 3]].
Proof.
  eexists. apply (unsegmented_end_to_end (sample_to 2) sample_sub (zeros 16) 38 0 [1; 2; 3] 40 None (mesh_node 1 8000) [] sample_sub sample_app (mesh_node 2 100)); try reflexivity; try (cbn; lia).
  - split; try reflexivity; split; (discriminate || reflexivity).
  - split; cbn; (done || lia).
  - split; [vm_compute; reflexivity | | by exists [] | constructor | done | vm_compute; reflexivity | vm_compute; reflexivity]. split; [vm_compute; split; congruence | split; [vm_compute; split; congruence | left; reflexivity]].
  - split; [lia | reflexivity | reflexivity |]. exists [], []. split; [reflexivity | constructor].
Defined.
