(* ===== verification/Access.v ===== *)
(** * Access: the access layer of the mesh stack (bt_mesh/src/access.c)

    The composition of the device (elements and their models), the dispatch of received
    messages to the handlers of the models, sending, and periodic publication.  The layer
    stands on the transport layer: its state [node] contains the state [trans] of
    MeshTrans, and [net_view] gives that layer what it asks of this one.  A pointer to a
    model is its place in the composition ([mref]); each model has its own publication
    context.  Friendship and low power are off. *)
From Stdlib Require Import ZArith Lia List Bool.
From stdpp Require Import base list numbers option.
From S2P Require Import Prelude Env Aes Cmac MeshCrypto MeshNet MeshTrans.
Local Open Scope Z_scope.

Definition E2BIG : Z := 7.
Definition EAGAIN : Z := 11.
Definition ENOTSUP : Z := 35.
Definition EADDRNOTAVAIL : Z := 49.
Definition BT_MESH_MODEL_ID_CFG_SRV : Z := 0.
Definition BT_MESH_RELAY_ENABLED : Z := 1.
Definition BT_MESH_RELAY_NOT_SUPPORTED : Z := 2.
Definition BT_MESH_GATT_PROXY_DISABLED : Z := 0.
Definition BT_MESH_GATT_PROXY_ENABLED : Z := 1.
Definition BT_MESH_GATT_PROXY_NOT_SUPPORTED : Z := 2.
Definition BT_MESH_FRIEND_ENABLED : Z := 1.
Definition BT_MESH_FRIEND_NOT_SUPPORTED : Z := 2.
Definition BT_MESH_TTL_MAX : Z := 127.

(** ** Composition *)

(** The handlers of the configuration server; those of other models are numbers. *)
Inductive cfg_handler :=
| Dev_comp_data_get | App_key_add | App_key_update | App_key_del | App_key_get | Beacon_get | Beacon_set | Default_ttl_get | Default_ttl_set
| Gatt_proxy_get | Gatt_proxy_set | Net_transmit_get | Net_transmit_set | Relay_get | Relay_set | Mod_pub_get | Mod_pub_set | Mod_pub_va_set
| Mod_sub_add | Mod_sub_va_add | Mod_sub_del | Mod_sub_va_del | Mod_sub_overwrite | Mod_sub_va_overwrite | Mod_sub_del_all | Mod_sub_get
| Mod_sub_get_vnd | Net_key_add | Net_key_update | Net_key_del | Net_key_get | Node_identity_get | Node_identity_set | Mod_app_bind
| Mod_app_unbind | Mod_app_get | Node_reset | Friend_get | Friend_set | Lpn_timeout_get | Krp_get | Krp_set | Heartbeat_pub_get
| Heartbeat_pub_set | Heartbeat_sub_get | Heartbeat_sub_set.
Inductive handler := Cfg (h : cfg_handler) | Model (n : Z).

(** [p_count] is a bit field of three bits; [p_timer] the delay of the pending work item. *)
Record bt_mesh_model_pub := mkPub {
  p_addr : Z; p_key : Z; p_ttl : Z; p_retransmit : Z; p_period : Z; p_period_div : Z; p_cred : Z; p_count : Z; p_start : Z;
  p_msg : list Z; p_update : bool; p_timer : option Z }.
Record bt_mesh_model_op := mkOp { op_code : Z; op_min_len : Z; op_func : handler }.
Record bt_mesh_model := mkModel {
  m_company : Z; m_id : Z; m_pub : option bt_mesh_model_pub; m_keys : list Z; m_groups : list Z; m_op : list bt_mesh_model_op }.
Record bt_mesh_elem := mkElem { e_addr : Z; e_group : Z; e_loc : Z; e_models : list bt_mesh_model; e_vnd : list bt_mesh_model }.

Record mref := mkRef { r_elem : nat; r_vnd : bool; r_model : nat }.
#[export] Instance mref_eq_dec : EqDecision mref.
Proof. solve_decision. Defined.

(** ** State *)

Record hb_pub_t := mkHbPub { hp_dst : Z; hp_count : Z; hp_period : Z; hp_ttl : Z; hp_feat : Z; hp_net_idx : Z; hp_timer : option Z }.
Record hb_sub_t := mkHbSub { hs_src : Z; hs_dst : Z; hs_count : Z; hs_min_hops : Z; hs_max_hops : Z; hs_expiry : Z }.
Record bt_mesh_cfg_srv := mkCfgSrv {
  net_transmit : Z; relay : Z; relay_retransmit : Z; beacon : Z; gatt_proxy : Z; frnd : Z; c_default_ttl : Z; hb_pub : hb_pub_t; hb_sub : hb_sub_t }.

(** What the layer and the configuration server do, oldest first: messages handed to
    [bt_mesh_model_send] with its answer, control messages, handlers of other models,
    events of the service, calls to proxy, bearer and beacons. *)
Inductive stack_act := ActAdvUpdate | ActProxyDisconnect | ActProxyBeacon (net_idx : Z) | ActBeaconEnable | ActBeaconDisable | ActProxyGattDisable | ActScanDisable | ActProvReset.
Inductive nevent :=
| NSend (ctx : bt_mesh_msg_ctx) (bytes : list Z) (err : Z)
| NCtl (net_idx dst ttl op : Z) (data : list Z)
| NCall (r : mref) (n : Z) (ctx : bt_mesh_msg_ctx) (buf : list Z)
| NGenie (ev : genie_event_e) (status : option Z)
| NStack (a : stack_act).

(** [subx]: of every subnet the node identity state and the beacon's authentication value.
    [stored]: the user subscriptions in the store.  [hw_reset]: genie_reset's flag. *)
Record node := mkNode {
  nt : trans; comp : list bt_mesh_elem; dev_ids : Z * Z * Z; conf : bt_mesh_cfg_srv; g_sub_list : list Z; subx : list (Z * list Z);
  n_provisioned : bool; dev_primary_addr : Z; stored : list Z * list Z; hw_reset : bool; relay_built : bool; nlog : list nevent }.

Definition with_nt (t : trans) (s : node) : node := mkNode t (comp s) (dev_ids s) (conf s) (g_sub_list s) (subx s) (n_provisioned s) (dev_primary_addr s) (stored s) (hw_reset s) (relay_built s) (nlog s).
Definition with_comp (c : list bt_mesh_elem) (s : node) : node := mkNode (nt s) c (dev_ids s) (conf s) (g_sub_list s) (subx s) (n_provisioned s) (dev_primary_addr s) (stored s) (hw_reset s) (relay_built s) (nlog s).
Definition with_conf (c : bt_mesh_cfg_srv) (s : node) : node := mkNode (nt s) (comp s) (dev_ids s) c (g_sub_list s) (subx s) (n_provisioned s) (dev_primary_addr s) (stored s) (hw_reset s) (relay_built s) (nlog s).
Definition with_sub_list (l : list Z) (s : node) : node := mkNode (nt s) (comp s) (dev_ids s) (conf s) l (subx s) (n_provisioned s) (dev_primary_addr s) (stored s) (hw_reset s) (relay_built s) (nlog s).
Definition with_subx (l : list (Z * list Z)) (s : node) : node := mkNode (nt s) (comp s) (dev_ids s) (conf s) (g_sub_list s) l (n_provisioned s) (dev_primary_addr s) (stored s) (hw_reset s) (relay_built s) (nlog s).
Definition with_prov (b : bool) (a : Z) (s : node) : node := mkNode (nt s) (comp s) (dev_ids s) (conf s) (g_sub_list s) (subx s) b a (stored s) (hw_reset s) (relay_built s) (nlog s).
Definition with_stored (l : list Z * list Z) (s : node) : node := mkNode (nt s) (comp s) (dev_ids s) (conf s) (g_sub_list s) (subx s) (n_provisioned s) (dev_primary_addr s) l (hw_reset s) (relay_built s) (nlog s).
Definition note (e : nevent) (s : node) : node := mkNode (nt s) (comp s) (dev_ids s) (conf s) (g_sub_list s) (subx s) (n_provisioned s) (dev_primary_addr s) (stored s) (hw_reset s) (relay_built s) (nlog s ++ [e]).

(** Models of an element, and a model by its place. *)
Definition models_of (vnd : bool) (e : bt_mesh_elem) : list bt_mesh_model := if vnd then e_vnd e else e_models e.
Definition on_models (vnd : bool) (f : list bt_mesh_model → list bt_mesh_model) (e : bt_mesh_elem) : bt_mesh_elem :=
  if vnd then mkElem (e_addr e) (e_group e) (e_loc e) (e_models e) (f (e_vnd e)) else mkElem (e_addr e) (e_group e) (e_loc e) (f (e_models e)) (e_vnd e).
Definition model_at (r : mref) (c : list bt_mesh_elem) : option bt_mesh_model := e ← c !! r_elem r; models_of (r_vnd r) e !! r_model r.
Definition alter_model (r : mref) (f : bt_mesh_model → bt_mesh_model) (c : list bt_mesh_elem) : list bt_mesh_elem :=
  alter (on_models (r_vnd r) (alter f (r_model r))) (r_elem r) c.
Definition on_model (r : mref) (f : bt_mesh_model → bt_mesh_model) (s : node) : node := with_comp (alter_model r f (comp s)) s.
Definition set_pub (p : option bt_mesh_model_pub) (m : bt_mesh_model) : bt_mesh_model := mkModel (m_company m) (m_id m) p (m_keys m) (m_groups m) (m_op m).
Definition set_keys (k : list Z) (m : bt_mesh_model) : bt_mesh_model := mkModel (m_company m) (m_id m) (m_pub m) k (m_groups m) (m_op m).
Definition set_groups (g : list Z) (m : bt_mesh_model) : bt_mesh_model := mkModel (m_company m) (m_id m) (m_pub m) (m_keys m) g (m_op m).
Definition on_pub (f : bt_mesh_model_pub → bt_mesh_model_pub) (m : bt_mesh_model) : bt_mesh_model := set_pub (f <$> m_pub m) m.

(** The models in the order of [bt_mesh_model_foreach]. *)
Definition refs_of (i : nat) (e : bt_mesh_elem) : list mref := map (mkRef i false) (seq 0 (length (e_models e))) ++ map (mkRef i true) (seq 0 (length (e_vnd e))).
Definition all_refs (c : list bt_mesh_elem) : list mref := concat (imap refs_of c).
Definition bt_mesh_model_foreach (func : mref → node → node) (s : node) : node := fold_left (λ s r, func r s) (all_refs (comp s)) s.

(** ** Groups and elements *)

(** Where a group address was found: in the model's list, or it is the element's. *)
Inductive group_ptr := InModel (i : nat) | InElem.
Fixpoint index_of (a : Z) (l : list Z) (i : nat) : option nat := match l with [] => None | x :: l => if x =? a then Some i else index_of a l (S i) end.
Definition bt_mesh_model_find_group (e : bt_mesh_elem) (m : bt_mesh_model) (addr : Z) : option group_ptr :=
  match index_of addr (m_groups m) 0 with
  | Some i => Some (InModel i)
  | None => if (addr =? e_group e) || (addr =? BT_MESH_ADDR_GENIE_ALL_NODES) then Some InElem else None
  end.
Definition has_group (e : bt_mesh_elem) (addr : Z) (m : bt_mesh_model) : bool := match bt_mesh_model_find_group e m addr with Some _ => true | None => false end.
Definition bt_mesh_elem_find_group (e : bt_mesh_elem) (addr : Z) : bool := existsb (has_group e addr) (e_models e) || existsb (has_group e addr) (e_vnd e).
Definition elem_matches (addr : Z) (e : bt_mesh_elem) : bool :=
  if BT_MESH_ADDR_IS_GROUP addr || BT_MESH_ADDR_IS_VIRTUAL addr then bt_mesh_elem_find_group e addr else e_addr e =? addr.
Fixpoint elem_search (addr : Z) (c : list bt_mesh_elem) (i : nat) : option nat :=
  match c with [] => None | e :: c => if elem_matches addr e then Some i else elem_search addr c (S i) end.
Definition elem_find_in (addr : Z) (c : list bt_mesh_elem) : option nat := elem_search addr c 0.

(** ** What the transport layer sees *)

(** The groups some model is in: its list, and the group of its element. *)
Definition elem_groups (e : bt_mesh_elem) : list Z := concat (map (λ m, m_groups m ++ [e_group e]) (e_models e ++ e_vnd e)).
Definition net_view (s : node) : trans :=
  let t := nt s in let c := tc t in let n := tn t in
  mkTrans (mkCfg (app_keys c) (dev_key c) (labels c) (concat (map elem_groups (comp s))) (proxy_takes c) (c_default_ttl (conf s)) (hb_sub_dst c) (now c) (mic0 c))
    (mkNet (iv_index n) (iv_update n) (seq_num n) (subs n) (msg_cache n) (msg_cache_next n) (dup_cache n) (dup_cache_next n)
       (map e_addr (comp s)) (relay (conf s) =? BT_MESH_RELAY_ENABLED) (gatt_proxy (conf s) =? BT_MESH_GATT_PROXY_ENABLED) (rpl n))
    (pool t) (adv_queue t) (local_queue t) (txs t) (rxs t) (rpl_index t) (pending_update t) (last_update t) (tlog t).
Definition on_trans (f : trans → Z * trans) (s : node) : Z * node := let '(err, t) := f (net_view s) in (err, with_nt t s).

(** [bt_mesh_subnet_get], by the number of the subnet. *)
Fixpoint subnet_search (net_idx : Z) (l : list bt_mesh_subnet) (i : nat) : option nat :=
  match l with [] => None | sub :: l => if sub_net_idx sub =? net_idx then Some i else subnet_search net_idx l (S i) end.
Definition subnet_num (net_idx : Z) (s : node) : option nat := if net_idx =? BT_MESH_KEY_ANY then Some 0%nat else subnet_search net_idx (subs (tn (nt s))) 0.

(** ** Receiving *)

Definition model_has_key (m : bt_mesh_model) (key : Z) : bool := existsb (Z.eqb key) (m_keys m).

(** The first model with the key and the opcode. *)
Fixpoint find_op (models : list bt_mesh_model) (i : nat) (app_idx opcode : Z) : option (nat * bt_mesh_model_op) :=
  match models with
  | [] => None
  | m :: models =>
    if negb (model_has_key m app_idx) then find_op models (S i) app_idx opcode else
    match find (λ op, op_code op =? opcode) (m_op m) with
    | Some op => Some (i, op)
    | None => find_op models (S i) app_idx opcode
    end
  end.

(** The opcode and the rest of the buffer; the buffer is not empty. *)
Definition get_opcode (buf : list Z) : option (Z * list Z) :=
  match buf with
  | [] => None
  | b0 :: rest =>
    let c := Z.shiftr b0 6 in
    if (c =? 0) || (c =? 1) then if b0 =? 127 then None else Some (b0, rest) else
    if c =? 2 then match rest with b1 :: rest => Some (get_be16 b0 b1, rest) | [] => None end else
    if c =? 3 then match rest with b1 :: b2 :: rest => Some (Z.lor (Z.shiftl b0 16) (get_le16 b1 b2), rest) | _ => None end else
    None
  end.

(** Whether element number [i] is addressed. *)
Definition elem_addressed (i : nat) (e : bt_mesh_elem) (dst : Z) (s : node) : bool :=
  if BT_MESH_ADDR_IS_UNICAST dst then e_addr e =? dst
  else if BT_MESH_ADDR_IS_GROUP dst || BT_MESH_ADDR_IS_VIRTUAL dst then bt_mesh_elem_find_group e dst
  else Nat.eqb i 0 && bt_mesh_fixed_group_match dst (net_view s).

Section Dispatch.
Context (call : handler → mref → bt_mesh_msg_ctx → list Z → node → option node).

(** One round of the loop of [bt_mesh_model_recv]; [None] is a handler that reads
    behind the end of the message or writes behind that of its answer. *)
Definition recv_elem (opcode dst : Z) (ctx : bt_mesh_msg_ctx) (buf : list Z) (i : nat) (s : node) : option node :=
  match comp s !! i with
  | None => Some s
  | Some e =>
    if negb (elem_addressed i e dst s) then Some s else
    let vnd := negb (opcode <? 65536) in
    match find_op (models_of vnd e) 0 (app_idx ctx) opcode with
    | None => Some s
    | Some (j, op) => if Z.of_nat (length buf) <? op_min_len op then Some s else call (op_func op) (mkRef i vnd j) ctx buf s
    end
  end.
Fixpoint recv_elems (opcode dst : Z) (ctx : bt_mesh_msg_ctx) (buf : list Z) (k i : nat) (s : node) : option node :=
  match k with O => Some s | S k => s ← recv_elem opcode dst ctx buf i s; recv_elems opcode dst ctx buf k (S i) s end.
Definition bt_mesh_model_recv (ctx : bt_mesh_msg_ctx) (dst : Z) (buf : list Z) (s : node) : option node :=
  match get_opcode buf with
  | None => Some s
  | Some (opcode, buf) => recv_elems opcode dst ctx buf (length (comp s)) 0 s
  end.
End Dispatch.

(** ** Sending *)

(** [room]: the tail room of the buffer [msg] is in. *)
Definition model_send (m : bt_mesh_model) (tx : msg_tx) (implicit_bind : bool) (msg : list Z) (room : Z) (cb : option Z) (s : node) : Z * node :=
  if negb (n_provisioned s) then (- EAGAIN, s) else
  if room <? 4 then (- EINVAL, s) else
  if BT_MESH_TX_SDU_MAX - 4 <? Z.of_nat (length msg) then (- EMSGSIZE, s) else
  if negb implicit_bind && negb (model_has_key m (mt_app_idx tx)) then (- EINVAL, s) else
  on_trans (bt_mesh_trans_send tx msg room cb) s.

Definition elem_addr (r : mref) (s : node) : Z := match comp s !! r_elem r with Some e => e_addr e | None => 0 end.

(** The message and the answer are noted. *)
Definition bt_mesh_model_send (r : mref) (ctx : bt_mesh_msg_ctx) (msg : list Z) (room : Z) (cb : option Z) (s : node) : Z * node :=
  let '(err, s) :=
    match subnet_num (net_idx ctx) s, model_at r (comp s) with
    | Some i, Some m => model_send m (mkMsgTx i (app_idx ctx) (addr ctx) (send_ttl ctx) (elem_addr r s) (truthy (send_rel ctx)) 0 0) false msg room cb s
    | _, _ => (- EINVAL, s)
    end in
  (err, note (NSend ctx msg err) s).

(** ** Publication *)

Definition K_SECONDS (n : Z) : Z := n * 1000.
Definition K_MINUTES (n : Z) : Z := n * 60 * 1000.
Definition BT_MESH_PUB_TRANSMIT_COUNT (t : Z) : Z := Z.land t 7.
Definition BT_MESH_PUB_TRANSMIT_INT (t : Z) : Z := (Z.shiftr t 3 + 1) * 50.

Definition pub_period (p : bt_mesh_model_pub) : Z :=
  let n := Z.land (p_period p) 63 in
  let c := Z.shiftr (p_period p) 6 in
  let period := if c =? 0 then n * 100 else if c =? 1 then K_SECONDS n else if c =? 2 then K_SECONDS (n * 10) else K_MINUTES (n * 10) in
  Z.shiftr period (p_period_div p).
Definition bt_mesh_model_pub_period_get (m : bt_mesh_model) : Z := match m_pub m with None => 0 | Some p => pub_period p end.

(** Milliseconds since the start of the period, on 32 bits. *)
Definition next_period (clock : Z) (p : bt_mesh_model_pub) : Z :=
  let period := pub_period p in
  if period =? 0 then 0 else
  let elapsed := u32 (u32 clock - p_start p) in
  if period <? elapsed then 1 else period - elapsed.

Definition set_timer (d : option Z) (p : bt_mesh_model_pub) : bt_mesh_model_pub :=
  mkPub (p_addr p) (p_key p) (p_ttl p) (p_retransmit p) (p_period p) (p_period_div p) (p_cred p) (p_count p) (p_start p) (p_msg p) (p_update p) d.
Definition set_count (n : Z) (p : bt_mesh_model_pub) : bt_mesh_model_pub :=
  mkPub (p_addr p) (p_key p) (p_ttl p) (p_retransmit p) (p_period p) (p_period_div p) (p_cred p) n (p_start p) (p_msg p) (p_update p) (p_timer p).
Definition set_period_start (t : Z) (p : bt_mesh_model_pub) : bt_mesh_model_pub :=
  mkPub (p_addr p) (p_key p) (p_ttl p) (p_retransmit p) (p_period p) (p_period_div p) (p_cred p) (p_count p) t (p_msg p) (p_update p) (p_timer p).
Definition set_msg (b : list Z) (p : bt_mesh_model_pub) : bt_mesh_model_pub :=
  mkPub (p_addr p) (p_key p) (p_ttl p) (p_retransmit p) (p_period p) (p_period_div p) (p_cred p) (p_count p) (p_start p) b (p_update p) (p_timer p).

(** The callback when the bearer has sent a publication of model [r]. *)
Definition publish_sent (r : mref) (s : node) : node :=
  match m ← model_at r (comp s); m_pub m with
  | None => s
  | Some p =>
    let delay := if truthy (p_count p) then BT_MESH_PUB_TRANSMIT_INT (p_retransmit p) else next_period (now (tc (nt s))) p in
    if delay =? 0 then s else on_model r (on_pub (set_timer (Some delay))) s
  end.

(** How the bearer names the callback of model [r]. *)
Definition pub_sent_cb (r : mref) : Z := Z.of_nat (r_elem r) * 512 + Z.b2z (r_vnd r) * 256 + Z.of_nat (r_model r).

(** The message context and the network parameters of a publication, when its key and
    its subnet are there.  The friendship credentials flag has no effect here. *)
Definition pub_tx (r : mref) (p : bt_mesh_model_pub) (k : bt_mesh_app_key) (i : nat) (s : node) : msg_tx :=
  mkMsgTx i (ak_app_idx k) (p_addr p) (p_ttl p) (elem_addr r s) false 0 0.

Definition publish_retransmit (r : mref) (s : node) : Z * node :=
  match m ← model_at r (comp s); m_pub m with
  | None => (- ENOTSUP, s)
  | Some p =>
    match bt_mesh_app_key_find (p_key p) (app_keys (tc (nt s))) with
    | None => (- EADDRNOTAVAIL, s)
    | Some k =>
      match subnet_num (ak_net_idx k) s with
      | None => (- EINVAL, s)
      | Some i =>
        let s := on_model r (on_pub (set_count (p_count p - 1))) s in
        on_trans (bt_mesh_trans_send (pub_tx r p k i s) (p_msg p) (BT_MESH_TX_SDU_MAX - Z.of_nat (length (p_msg p))) (Some (pub_sent_cb r))) s
      end
    end
  end.

Definition bt_mesh_model_publish (r : mref) (s : node) : Z * node :=
  match model_at r (comp s) with
  | None => (- EINVAL, s)
  | Some m =>
    match m_pub m with
    | None => (- ENOTSUP, s)
    | Some p =>
      if p_addr p =? BT_MESH_ADDR_UNASSIGNED then (- EADDRNOTAVAIL, s) else
      match bt_mesh_app_key_find (p_key p) (app_keys (tc (nt s))) with
      | None => (- EADDRNOTAVAIL, s)
      | Some k =>
        if BT_MESH_TX_SDU_MAX <? Z.of_nat (length (p_msg p)) + 4 then (- EMSGSIZE, s) else
        let s := if truthy (p_count p) then on_model r (on_pub (set_timer None)) s else s in
        match subnet_num (ak_net_idx k) s with
        | None => (- EINVAL, s)
        | Some i =>
          let s := on_model r (on_pub (set_count (BT_MESH_PUB_TRANSMIT_COUNT (p_retransmit p)))) s in
          let '(err, s) := model_send m (pub_tx r p k i s) true (p_msg p) (BT_MESH_TX_SDU_MAX - Z.of_nat (length (p_msg p))) (Some (pub_sent_cb r)) s in
          if negb (err =? 0) then (err, on_model r (on_pub (set_count 0)) s) else (0, s)
        end
      end
    end
  end.

Section Publication.
(** The [update] callback of a model: its result and the new message. *)
Context (update : mref → list Z → Z * list Z).

(** The work item of the publication timer; [None] is the call of a null [update]. *)
Definition mod_publish (r : mref) (s : node) : option node :=
  match m ← model_at r (comp s); m_pub m with
  | None => Some s
  | Some p =>
    let s := on_model r (on_pub (set_timer None)) s in
    let period_ms := pub_period p in
    if truthy (p_count p) then
      let '(err, s) := publish_retransmit r s in
      if negb (err =? 0) then
        let s := on_model r (on_pub (set_count 0)) s in
        Some (if truthy period_ms then on_model r (on_pub (set_timer (Some period_ms))) s else s)
      else Some s
    else
    if period_ms =? 0 then Some s else
    if negb (p_update p) then None else
    let s := on_model r (on_pub (set_period_start (u32 (now (tc (nt s)))))) s in
    let '(err, msg) := update r (p_msg p) in
    let s := on_model r (on_pub (set_msg msg)) s in
    if negb (err =? 0) then Some s else
    let s := snd (bt_mesh_model_publish r s) in
    Some (match m ← model_at r (comp s); m_pub m with
          | Some p => if truthy (p_count p) then on_model r (on_pub (set_timer None)) s else s
          | None => s
          end)
  end.
End Publication.

(** ** Start, provisioning, reset *)

Definition conf_is_valid (c : bt_mesh_cfg_srv) : bool := negb (2 <? relay c) && negb (1 <? beacon c) && negb (BT_MESH_TTL_MAX <? c_default_ttl c).

Definition set_hb_pub (h : hb_pub_t) (c : bt_mesh_cfg_srv) : bt_mesh_cfg_srv := mkCfgSrv (net_transmit c) (relay c) (relay_retransmit c) (beacon c) (gatt_proxy c) (frnd c) (c_default_ttl c) h (hb_sub c).
Definition set_hb_sub (h : hb_sub_t) (c : bt_mesh_cfg_srv) : bt_mesh_cfg_srv := mkCfgSrv (net_transmit c) (relay c) (relay_retransmit c) (beacon c) (gatt_proxy c) (frnd c) (c_default_ttl c) (hb_pub c) h.
Definition hb_pub_timer (t : option Z) (h : hb_pub_t) : hb_pub_t := mkHbPub (hp_dst h) (hp_count h) (hp_period h) (hp_ttl h) (hp_feat h) (hp_net_idx h) t.

(** In this build the proxy is supported, friendship is not. *)
Definition bt_mesh_cfg_srv_init (r : mref) (s : node) : Z * node :=
  let c := conf s in
  if negb (conf_is_valid c) then (- EINVAL, s) else
  let s := on_model r (λ m, set_keys (<[0%nat := BT_MESH_KEY_DEV]> (m_keys m)) m) s in
  let hs := hb_sub c in
  let c := mkCfgSrv (net_transmit c) (if relay_built s then relay c else BT_MESH_RELAY_NOT_SUPPORTED) (relay_retransmit c) (beacon c) (gatt_proxy c) BT_MESH_FRIEND_NOT_SUPPORTED
             (c_default_ttl c) (hb_pub_timer None (hb_pub c)) (mkHbSub (hs_src hs) (hs_dst hs) (hs_count hs) (hs_min_hops hs) (hs_max_hops hs) 0) in
  (0, with_conf c s).

(** The other model with an initialisation, the health server, does not touch keys,
    groups or publication settings. *)
Definition mod_init (r : mref) (s : node) : node :=
  let s := on_model r (λ m, set_keys (map (λ _, BT_MESH_KEY_UNUSED) (m_keys m)) (on_pub (set_timer None) m)) s in
  if r_vnd r then s else
  match model_at r (comp s) with
  | Some m => if m_id m =? BT_MESH_MODEL_ID_CFG_SRV then snd (bt_mesh_cfg_srv_init r s) else s
  | None => s
  end.

Definition bt_mesh_comp_register (c : list bt_mesh_elem) (s : node) : Z * node :=
  if Nat.eqb (length c) 0 then (- EINVAL, s) else (0, bt_mesh_model_foreach mod_init (with_comp c s)).

Definition set_elem_addr (a : Z) (e : bt_mesh_elem) : bt_mesh_elem := mkElem a (e_group e) (e_loc e) (e_models e) (e_vnd e).
Definition bt_mesh_comp_provision (addr : Z) (s : node) : node :=
  with_comp (imap (λ i e, set_elem_addr (u16 (addr + Z.of_nat i)) e) (comp s)) (with_prov (n_provisioned s) addr s).
Definition bt_mesh_comp_unprovision (s : node) : node :=
  bt_mesh_model_foreach mod_init (with_prov (n_provisioned s) BT_MESH_ADDR_UNASSIGNED s).

Definition find_vnd (e : bt_mesh_elem) (company id : Z) : option nat := fst <$> list_find (λ m, m_company m = company /\ m_id m = id) (e_vnd e).
Definition find_sig (e : bt_mesh_elem) (id : Z) : option nat := fst <$> list_find (λ m, m_id m = id) (e_models e).
Definition bt_mesh_model_find_vnd (i : nat) (company id : Z) (s : node) : option mref := e ← comp s !! i; mkRef i true <$> find_vnd e company id.
Definition bt_mesh_model_find (i : nat) (id : Z) (s : node) : option mref := e ← comp s !! i; mkRef i false <$> find_sig e id.
