(* ===== verification/CfgSrv.v ===== *)
(** * CfgSrv: the configuration server (bt_mesh/src/cfg_srv.c)

    All handlers of the foundation model by which a provisioner configures the node:
    composition data, keys and key refresh, bindings, subscriptions, publications, node
    identity, relay, proxy, beacon and heartbeat settings, reset.  A handler answers
    [None] when it reads behind the end of the message or writes behind the end of its
    answer's buffer.  The build has the proxy, but no friendship and low power; a key
    derivation that fails does not leave half-written keys behind. *)
From Stdlib Require Import ZArith Lia List Bool.
From stdpp Require Import base list numbers option.
From S2P Require Import Prelude Env Aes Storage Lifecycle Cmac MeshCrypto MeshNet MeshTrans MeshRecv Access.
Local Open Scope Z_scope.

Definition STATUS_SUCCESS : Z := 0.
Definition STATUS_INVALID_ADDRESS : Z := 1.
Definition STATUS_INVALID_MODEL : Z := 2.
Definition STATUS_INVALID_APPKEY : Z := 3.
Definition STATUS_INVALID_NETKEY : Z := 4.
Definition STATUS_INSUFF_RESOURCES : Z := 5.
Definition STATUS_IDX_ALREADY_STORED : Z := 6.
Definition STATUS_NVAL_PUB_PARAM : Z := 7.
Definition STATUS_STORAGE_FAIL : Z := 9.
Definition STATUS_FEAT_NOT_SUPP : Z := 10.
Definition STATUS_CANNOT_UPDATE : Z := 11.
Definition STATUS_CANNOT_REMOVE : Z := 12.
Definition STATUS_CANNOT_BIND : Z := 13.
Definition STATUS_CANNOT_SET : Z := 15.
Definition STATUS_UNSPECIFIED : Z := 16.
Definition STATUS_INVALID_BINDING : Z := 17.
Definition BT_MESH_KR_PHASE_3 : Z := 3.
Definition BT_MESH_NODE_IDENTITY_STOPPED : Z := 0.
Definition BT_MESH_NODE_IDENTITY_RUNNING : Z := 1.
Definition BT_MESH_FEAT_RELAY : Z := 1.
Definition BT_MESH_FEAT_PROXY : Z := 2.
Definition BT_MESH_FEAT_FRIEND : Z := 4.

(** The second byte of the opcodes that start with 0x80; the others have one byte. *)
Definition OP80 (b : Z) : Z := BT_MESH_MODEL_OP_2 128 b.
Definition OP_DEV_COMP_DATA_STATUS : Z := 2.
Definition OP_HEARTBEAT_PUB_STATUS : Z := 6.
Definition OP_APP_KEY_LIST : Z := OP80 2.
Definition OP_APP_KEY_STATUS : Z := OP80 3.
Definition OP_BEACON_STATUS : Z := OP80 11.
Definition OP_DEFAULT_TTL_STATUS : Z := OP80 14.
Definition OP_FRIEND_STATUS : Z := OP80 17.
Definition OP_GATT_PROXY_STATUS : Z := OP80 20.
Definition OP_KRP_STATUS : Z := OP80 23.
Definition OP_MOD_PUB_STATUS : Z := OP80 25.
Definition OP_MOD_SUB_STATUS : Z := OP80 31.
Definition OP_NET_TRANSMIT_STATUS : Z := OP80 37.
Definition OP_RELAY_STATUS : Z := OP80 40.
Definition OP_MOD_SUB_LIST : Z := OP80 42.
Definition OP_MOD_SUB_LIST_VND : Z := OP80 44.
Definition OP_LPN_TIMEOUT_STATUS : Z := OP80 46.
Definition OP_HEARTBEAT_SUB_STATUS : Z := OP80 60.
Definition OP_MOD_APP_STATUS : Z := OP80 62.
Definition OP_NET_KEY_LIST : Z := OP80 67.
Definition OP_NET_KEY_STATUS : Z := OP80 68.
Definition OP_NODE_IDENTITY_STATUS : Z := OP80 72.
Definition OP_NODE_RESET_STATUS : Z := OP80 74.
Definition OP_SIG_MOD_APP_LIST : Z := OP80 76.
Definition OP_VND_MOD_APP_LIST : Z := OP80 78.

(** ** Buffers *)

Definition net_buf_simple_pull_u8 (buf : list Z) : option (Z * list Z) := match buf with b :: buf => Some (b, buf) | [] => None end.
Definition net_buf_simple_pull_le16 (buf : list Z) : option (Z * list Z) := match buf with b0 :: b1 :: buf => Some (get_le16 b0 b1, buf) | _ => None end.
Definition net_buf_simple_pull (n : nat) (buf : list Z) : option (list Z * list Z) := if (length buf <? n)%nat then None else Some (take n buf, drop n buf).

(** Two key indices of twelve bits in three bytes. *)
Definition key_idx_pack (idx1 idx2 : Z) : list Z := le16 (Z.lor idx1 (u16 (Z.shiftl (Z.land idx2 15) 12))) ++ [u8 (Z.shiftr idx2 4)].
Definition key_idx_unpack (buf : list Z) : option (Z * Z * list Z) :=
  match buf with
  | b0 :: b1 :: b2 :: buf => Some (Z.land (get_le16 b0 b1) 4095, Z.shiftr (get_le16 b1 b2) 4, buf)
  | _ => None
  end.

(** The answer [msg], built in a buffer of [size] bytes. *)
Definition reply (r : mref) (ctx : bt_mesh_msg_ctx) (size : Z) (msg : list Z) (s : node) : option node :=
  let len := Z.of_nat (length msg) in
  if size <? len then None else Some (snd (bt_mesh_model_send r ctx msg (size - len) None s)).

(** ** Parts of the state *)

Definition app_keys_of (s : node) : list bt_mesh_app_key := app_keys (tc (nt s)).
Definition subs_of (s : node) : list bt_mesh_subnet := subs (tn (nt s)).
Definition on_tc (f : tcfg → tcfg) (s : node) : node :=
  let t := nt s in with_nt (mkTrans (f (tc t)) (tn t) (pool t) (adv_queue t) (local_queue t) (txs t) (rxs t) (rpl_index t) (pending_update t) (last_update t) (tlog t)) s.
Definition set_app_keys (l : list bt_mesh_app_key) : node → node := on_tc (λ c, mkCfg l (dev_key c) (labels c) (groups c) (proxy_takes c) (default_ttl c) (hb_sub_dst c) (now c) (mic0 c)).
Definition set_labels (l : list (Z * list Z)) : node → node := on_tc (λ c, mkCfg (app_keys c) (dev_key c) l (groups c) (proxy_takes c) (default_ttl c) (hb_sub_dst c) (now c) (mic0 c)).
Definition bt_mesh_set_hb_sub_dst (a : Z) : node → node := on_tc (λ c, mkCfg (app_keys c) (dev_key c) (labels c) (groups c) (proxy_takes c) (default_ttl c) a (now c) (mic0 c)).
Definition set_dev_key (k : list Z) : node → node := on_tc (λ c, mkCfg (app_keys c) k (labels c) (groups c) (proxy_takes c) (default_ttl c) (hb_sub_dst c) (now c) (mic0 c)).
Definition set_subs (l : list bt_mesh_subnet) (s : node) : node :=
  let n := tn (nt s) in
  with_nt (with_tn (mkNet (iv_index n) (iv_update n) (seq_num n) l (msg_cache n) (msg_cache_next n) (dup_cache n) (dup_cache_next n) (elems n) (relay_on n) (proxy_on n) (rpl n)) (nt s)) s.
Definition on_conf (f : bt_mesh_cfg_srv → bt_mesh_cfg_srv) (s : node) : node := with_conf (f (conf s)) s.
Definition uptime_of (s : node) : Z := now (tc (nt s)).

Definition no_keys : bt_mesh_subnet_keys := mkKeys (zeros 16) 0 (zeros 16) (zeros 8) (zeros 16) (zeros 16) (zeros 16).
Definition unused_subnet : bt_mesh_subnet := mkSubnet BT_MESH_KEY_UNUSED false 0 no_keys no_keys.

(** The beacon's authentication value of subnet [i] is made anew. *)
Definition beacon_update (i : nat) (s : node) : node :=
  match subs_of s !! i with
  | None => s
  | Some sub => match bt_mesh_net_beacon_update sub (tn (nt s)) with inr a => with_subx (alter (λ x, (fst x, a)) i (subx s)) s | inl _ => s end
  end.
Definition set_node_id (i : nat) (v : Z) (s : node) : node := with_subx (alter (λ x, (v, snd x)) i (subx s)) s.
Definition bt_mesh_proxy_identity_start (i : nat) : node → node := set_node_id i BT_MESH_NODE_IDENTITY_RUNNING.
Definition bt_mesh_proxy_identity_stop (i : nat) : node → node := set_node_id i BT_MESH_NODE_IDENTITY_STOPPED.

(** The subscriptions that are stored: those of the group address area, and the user's,
    which are written from the end. *)
Definition load_group_addr (s : node) : node :=
  with_sub_list (merge_subs (snd (stored s)) (Z.of_nat (length (g_sub_list s)) - 1) (fst (stored s))) s.

(** Of [genie_event]: adding a subscription stores the list; what the others store is in
    Lifecycle. *)
Definition event (ev : genie_event_e) (status : option Z) (s : node) : node :=
  let s := note (NGenie ev status) s in
  match ev with GENIE_EVT_SDK_SUB_ADD => with_stored (fst (stored s), g_sub_list s) s | _ => s end.

(** ** Heartbeats *)

Definition bt_mesh_feat (s : node) : Z :=
  Z.lor (Z.lor (if relay (conf s) =? BT_MESH_RELAY_ENABLED then BT_MESH_FEAT_RELAY else 0) (if gatt_proxy (conf s) =? BT_MESH_GATT_PROXY_ENABLED then BT_MESH_FEAT_PROXY else 0))
        (if frnd (conf s) =? BT_MESH_FRIEND_ENABLED then BT_MESH_FEAT_FRIEND else 0).
Definition hb_send (r : mref) (s : node) : node :=
  let h := hb_pub (conf s) in
  match subnet_num (hp_net_idx h) s with
  | None => s
  | Some i =>
    let data := hp_ttl h :: be16 (bt_mesh_feat s) in
    note (NCtl (hp_net_idx h) (hp_dst h) (hp_ttl h) TRANS_CTL_OP_HEARTBEAT data)
      (snd (on_trans (bt_mesh_ctl_send (mkMsgTx i BT_MESH_KEY_UNUSED (hp_dst h) (hp_ttl h) (elem_addr r s) false 0 0) TRANS_CTL_OP_HEARTBEAT data NoCb) s))
  end.
(** A feature changed whose heartbeat is published. *)
Definition hb_feature (r : mref) (feat : Z) (s : node) : node :=
  let h := hb_pub (conf s) in
  if truthy (Z.land (hp_feat h) feat) && (match subnet_num (hp_net_idx h) s with Some _ => true | None => false end) then hb_send r s else s.

Definition hb_pub_disable (s : node) : node :=
  on_conf (λ c, set_hb_pub (mkHbPub BT_MESH_ADDR_UNASSIGNED 0 0 0 (hp_feat (hb_pub c)) (hp_net_idx (hb_pub c)) None) c) s.

(** ** Composition data *)

(** The tail room test takes vendor models for two bytes. *)
Definition comp_add_elem (size : Z) (e : bt_mesh_elem) (buf : list Z) : option (Z * list Z) :=
  if size - Z.of_nat (length buf) <? 4 + Z.of_nat (length (e_models e)) * 2 + Z.of_nat (length (e_vnd e)) * 2 then Some (- E2BIG, buf) else
  let buf := buf ++ le16 (e_loc e) ++ [u8 (Z.of_nat (length (e_models e))); u8 (Z.of_nat (length (e_vnd e)))]
                 ++ concat (map (λ m, le16 (m_id m)) (e_models e)) ++ concat (map (λ m, le16 (m_company m) ++ le16 (m_id m)) (e_vnd e)) in
  if size <? Z.of_nat (length buf) then None else Some (0, buf).
Fixpoint comp_add_elems (size : Z) (c : list bt_mesh_elem) (buf : list Z) : option (Z * list Z) :=
  match c with
  | [] => Some (0, buf)
  | e :: c => '(err, buf) ← comp_add_elem size e buf; if negb (err =? 0) then Some (err, buf) else comp_add_elems size c buf
  end.
Definition comp_get_page_0 (size : Z) (buf : list Z) (s : node) : option (Z * list Z) :=
  let feat := Z.lor (if relay_built s then BT_MESH_FEAT_RELAY else 0) BT_MESH_FEAT_PROXY in
  let '(cid, pid, vid) := dev_ids s in
  comp_add_elems size (comp s) (buf ++ le16 cid ++ le16 pid ++ le16 vid ++ le16 (Z.of_nat CONFIG_BT_MESH_CRPL) ++ le16 feat).

Definition dev_comp_data_get (r : mref) (ctx : bt_mesh_msg_ctx) (buf : list Z) (s : node) : option node :=
  '(page, _) ← net_buf_simple_pull_u8 buf;
  '(err, sdu) ← comp_get_page_0 BT_MESH_TX_SDU_MAX (bt_mesh_model_msg_init OP_DEV_COMP_DATA_STATUS ++ [0]) s;
  if err <? 0 then Some s else reply r ctx BT_MESH_TX_SDU_MAX sdu s.

(** ** Publication settings and bindings *)

Definition app_key_is_valid (app_idx : Z) (s : node) : bool := existsb (λ k, negb (ak_net_idx k =? BT_MESH_KEY_UNUSED) && (ak_app_idx k =? app_idx)) (app_keys_of s).

Definition pub_settings (addr key cred ttl period retransmit : Z) (p : bt_mesh_model_pub) : bt_mesh_model_pub :=
  mkPub addr key ttl retransmit period (p_period_div p) cred (p_count p) (p_start p) (p_msg p) (p_update p) (p_timer p).

Definition _mod_pub_set (m : mref) (pub_addr app_idx cred_flag ttl period retransmit : Z) (s : node) : Z * node :=
  match mo ← model_at m (comp s); m_pub mo with
  | None => (STATUS_NVAL_PUB_PARAM, s)
  | Some p =>
    if truthy cred_flag then (STATUS_FEAT_NOT_SUPP, s) else
    if negb (p_update p) && truthy period then (STATUS_NVAL_PUB_PARAM, s) else
    if pub_addr =? BT_MESH_ADDR_UNASSIGNED then
      let p := set_count 0 (pub_settings BT_MESH_ADDR_UNASSIGNED 0 0 0 0 0 p) in
      (STATUS_SUCCESS, on_model m (on_pub (λ _, if p_update p then set_timer None p else p)) s)
    else
    match bt_mesh_app_key_find app_idx (app_keys_of s) with
    | None => (STATUS_INVALID_APPKEY, s)
    | Some _ =>
      let p := pub_settings pub_addr app_idx cred_flag ttl period retransmit p in
      let p := if p_update p then set_timer (if truthy (pub_period p) then Some (pub_period p) else None) p else p in
      (STATUS_SUCCESS, on_model m (on_pub (λ _, p)) s)
    end
  end.

Definition mod_bind (m : mref) (key_idx : Z) (s : node) : Z * node :=
  if negb (app_key_is_valid key_idx s) then (STATUS_INVALID_APPKEY, s) else
  match model_at m (comp s) with
  | None => (STATUS_INVALID_MODEL, s)
  | Some mo =>
    if model_has_key mo key_idx then (STATUS_SUCCESS, s) else
    match index_of BT_MESH_KEY_UNUSED (m_keys mo) 0 with
    | Some i => (STATUS_SUCCESS, on_model m (set_keys (<[i := key_idx]> (m_keys mo))) s)
    | None => (STATUS_INSUFF_RESOURCES, s)
    end
  end.

Definition mod_unbind (m : mref) (key_idx : Z) (s : node) : Z * node :=
  if negb (app_key_is_valid key_idx s) then (STATUS_INVALID_APPKEY, s) else
  match model_at m (comp s) with
  | None => (STATUS_INVALID_MODEL, s)
  | Some mo =>
    match index_of key_idx (m_keys mo) 0 with
    | None => (STATUS_CANNOT_BIND, s)
    | Some i =>
      let s := on_model m (set_keys (<[i := BT_MESH_KEY_UNUSED]> (m_keys mo))) s in
      let s := match m_pub mo with
               | Some p => if p_key p =? key_idx then snd (_mod_pub_set m BT_MESH_ADDR_UNASSIGNED 0 0 0 0 0 s) else s
               | None => s end in
      (STATUS_SUCCESS, s)
    end
  end.

(** ** Application keys *)

Definition app_key_num (app_idx : Z) (s : node) : option nat :=
  fst <$> list_find (λ k, ak_net_idx k ≠ BT_MESH_KEY_UNUSED /\ ak_app_idx k = app_idx) (app_keys_of s).
(** An index is also the place in the table. *)
Definition app_key_alloc (app_idx : Z) (s : node) : option nat := if app_idx >=? Z.of_nat (length (app_keys_of s)) then None else Some (Z.to_nat app_idx).
Definition put_app_key (i : nat) (k : bt_mesh_app_key) (s : node) : node := set_app_keys (<[i := k]> (app_keys_of s)) s.

Definition app_key_set (net_idx app_idx : Z) (val : list Z) (update : bool) (s : node) : Z * node :=
  match subnet_num net_idx s with
  | None => (STATUS_INVALID_NETKEY, s)
  | Some si =>
    let phase := match subs_of s !! si with Some sub => kr_phase sub | None => BT_MESH_KR_NORMAL end in
    let found := i ← app_key_num app_idx s; k ← app_keys_of s !! i; Some (i, k) in
    if update then
      match found with
      | None => (STATUS_INVALID_APPKEY, s)
      | Some (i, k) =>
        if negb (ak_net_idx k =? net_idx) then (STATUS_INVALID_BINDING, s) else
        if negb (phase =? BT_MESH_KR_PHASE_1) then (STATUS_CANNOT_UPDATE, s) else
        if ak_updated k then (if negb (bool_decide (ak_val1 k = val)) then STATUS_CANNOT_UPDATE else STATUS_SUCCESS, s) else
        match bt_mesh_app_id val with
        | inl _ => (STATUS_STORAGE_FAIL, s)
        | inr id => (STATUS_SUCCESS, put_app_key i (mkAppKey net_idx app_idx true (ak_id0 k) (ak_val0 k) id val) s)
        end
      end
    else
      match found with
      | Some (_, k) =>
        if ak_net_idx k =? net_idx then (if bool_decide (ak_val0 k = val) then STATUS_SUCCESS else STATUS_IDX_ALREADY_STORED, s) else (STATUS_INVALID_NETKEY, s)
      | None =>
        match app_key_alloc app_idx s with
        | None => (STATUS_INSUFF_RESOURCES, s)
        | Some i =>
          match bt_mesh_app_id val with
          | inl _ => (STATUS_STORAGE_FAIL, s)
          | inr id =>
            let s' := set_app_keys (alter (λ k, mkAppKey net_idx app_idx (ak_updated k) id val (ak_id1 k) (ak_val1 k)) i (app_keys_of s)) s in
            (STATUS_SUCCESS, s')
          end
        end
      end
  end.

(** Every model is bound to the key and gets the subscriptions. *)
Definition setup_model (key_app_idx : Z) (m : mref) (s : node) : node := on_model m (set_groups (g_sub_list s)) (snd (mod_bind m key_app_idx s)).
Definition setup_elem (key_app_idx : Z) (i : nat) (s : node) : node :=
  match comp s !! i with
  | None => s
  | Some e =>
    let s := fold_left (λ s mo, match bt_mesh_model_find i (m_id mo) s with Some m => setup_model key_app_idx m s | None => s end) (e_models e) s in
    fold_left (λ s mo, match bt_mesh_model_find_vnd i (m_company mo) (m_id mo) s with Some m => setup_model key_app_idx m s | None => s end) (e_vnd e) s
  end.
Fixpoint setup_elems (key_app_idx : Z) (k : nat) (i : Z) (s : node) : Z * node :=
  match k with
  | O => (0, s)
  | S k =>
    match elem_find_in (u16 (dev_primary_addr s + i)) (comp s) with
    | None => (-1, s)
    | Some e => setup_elems key_app_idx k (i + 1) (setup_elem key_app_idx e s)
    end
  end.
Definition genie_mesh_setup (key_app_idx : Z) (s : node) : Z * node := setup_elems key_app_idx (length (comp s)) 0 s.

Definition app_key_status (status net_idx app_idx : Z) : list Z := bt_mesh_model_msg_init OP_APP_KEY_STATUS ++ [status] ++ key_idx_pack net_idx app_idx.

Definition app_key_add (r : mref) (ctx : bt_mesh_msg_ctx) (buf : list Z) (s : node) : option node :=
  '(key_net_idx, key_app_idx, buf) ← key_idx_unpack buf;
  '(val, _) ← net_buf_simple_pull 16 buf;
  let '(status, s) := app_key_set key_net_idx key_app_idx val false s in
  s ← reply r ctx 10 (app_key_status status key_net_idx key_app_idx) s;
  let s := snd (genie_mesh_setup key_app_idx (load_group_addr s)) in
  Some (if key_app_idx =? 0 then event GENIE_EVT_SDK_APPKEY_ADD (Some status) s
        else if key_app_idx =? 1 then event GENIE_EVT_SDK_APPKEY1_ADD (Some status) s else s).

Definition genie_appkey_register (net_idx app_idx : Z) (val : list Z) (update : bool) (s : node) : node :=
  snd (genie_mesh_setup app_idx (load_group_addr (snd (app_key_set net_idx app_idx val update s)))).

Definition app_key_update (r : mref) (ctx : bt_mesh_msg_ctx) (buf : list Z) (s : node) : option node :=
  '(key_net_idx, key_app_idx, buf) ← key_idx_unpack buf;
  '(val, _) ← net_buf_simple_pull 16 buf;
  let '(status, s) := app_key_set key_net_idx key_app_idx val true s in
  s ← reply r ctx 10 (app_key_status status key_net_idx key_app_idx) s;
  Some (event GENIE_EVT_SDK_APPKEY_UPDATE (Some status) s).

(** The slot keeps its index and its [updated] flag. *)
Definition _app_key_del (i : nat) (s : node) : node :=
  match app_keys_of s !! i with
  | None => s
  | Some k =>
    let s := bt_mesh_model_foreach (λ m s, snd (mod_unbind m (ak_app_idx k) s)) s in
    put_app_key i (mkAppKey BT_MESH_KEY_UNUSED (ak_app_idx k) (ak_updated k) 0 (zeros 16) 0 (zeros 16)) s
  end.

Definition app_key_del (r : mref) (ctx : bt_mesh_msg_ctx) (buf : list Z) (s : node) : option node :=
  '(key_net_idx, key_app_idx, _) ← key_idx_unpack buf;
  let '(status, s) :=
    match subnet_num key_net_idx s with
    | None => (STATUS_INVALID_NETKEY, s)
    | Some _ =>
      match i ← app_key_num key_app_idx s; k ← app_keys_of s !! i; Some (i, k) with
      | None => (STATUS_SUCCESS, s)
      | Some (i, k) =>
        if negb (ak_net_idx k =? key_net_idx) then (STATUS_INVALID_BINDING, s) else
        (STATUS_SUCCESS, event GENIE_EVT_SDK_APPKEY_DEL (Some STATUS_SUCCESS) (_app_key_del i s))
      end
    end in
  reply r ctx 10 (app_key_status status key_net_idx key_app_idx) s.

Definition IDX_LEN (num : Z) : Z := num / 2 * 3 + num mod 2 * 2.
(** Key indices in pairs of three bytes, an odd one in two. *)
Fixpoint idx_list (l : list Z) (prev : Z) : list Z :=
  match l with
  | [] => if prev =? BT_MESH_KEY_UNUSED then [] else le16 prev
  | i :: l => if prev =? BT_MESH_KEY_UNUSED then idx_list l i else key_idx_pack prev i ++ idx_list l BT_MESH_KEY_UNUSED
  end.

Definition app_key_get (r : mref) (ctx : bt_mesh_msg_ctx) (buf : list Z) (s : node) : option node :=
  '(get_idx, _) ← net_buf_simple_pull_le16 buf;
  if 4095 <? get_idx then Some s else
  let status := match subnet_num get_idx s with None => STATUS_INVALID_NETKEY | Some _ => STATUS_SUCCESS end in
  let list := if status =? STATUS_SUCCESS then idx_list (map ak_app_idx (List.filter (λ k, ak_net_idx k =? get_idx) (app_keys_of s))) BT_MESH_KEY_UNUSED else [] in
  reply r ctx (9 + IDX_LEN (Z.of_nat (length (app_keys_of s)))) (bt_mesh_model_msg_init OP_APP_KEY_LIST ++ [status] ++ le16 get_idx ++ list) s.

(** ** Beacon, TTL, proxy, transmit and relay settings *)

Definition set_beacon (v : Z) (c : bt_mesh_cfg_srv) := mkCfgSrv (net_transmit c) (relay c) (relay_retransmit c) v (gatt_proxy c) (frnd c) (c_default_ttl c) (hb_pub c) (hb_sub c).
Definition set_ttl (v : Z) (c : bt_mesh_cfg_srv) := mkCfgSrv (net_transmit c) (relay c) (relay_retransmit c) (beacon c) (gatt_proxy c) (frnd c) v (hb_pub c) (hb_sub c).
Definition set_gatt_proxy (v : Z) (c : bt_mesh_cfg_srv) := mkCfgSrv (net_transmit c) (relay c) (relay_retransmit c) (beacon c) v (frnd c) (c_default_ttl c) (hb_pub c) (hb_sub c).
Definition set_net_transmit (v : Z) (c : bt_mesh_cfg_srv) := mkCfgSrv v (relay c) (relay_retransmit c) (beacon c) (gatt_proxy c) (frnd c) (c_default_ttl c) (hb_pub c) (hb_sub c).
Definition set_relay (v xmit : Z) (c : bt_mesh_cfg_srv) := mkCfgSrv (net_transmit c) v xmit (beacon c) (gatt_proxy c) (frnd c) (c_default_ttl c) (hb_pub c) (hb_sub c).

Definition beacon_get (r : mref) (ctx : bt_mesh_msg_ctx) (buf : list Z) (s : node) : option node :=
  reply r ctx 7 (bt_mesh_model_msg_init OP_BEACON_STATUS ++ [beacon (conf s)]) s.
Definition beacon_set (r : mref) (ctx : bt_mesh_msg_ctx) (buf : list Z) (s : node) : option node :=
  '(v, _) ← net_buf_simple_pull_u8 buf;
  if negb ((v =? 0) || (v =? 1)) then Some s else
  let s := if v =? beacon (conf s) then s else note (NStack (if truthy v then ActBeaconEnable else ActBeaconDisable)) (on_conf (set_beacon v) s) in
  reply r ctx 7 (bt_mesh_model_msg_init OP_BEACON_STATUS ++ [beacon (conf s)]) s.

Definition default_ttl_get (r : mref) (ctx : bt_mesh_msg_ctx) (buf : list Z) (s : node) : option node :=
  reply r ctx 7 (bt_mesh_model_msg_init OP_DEFAULT_TTL_STATUS ++ [c_default_ttl (conf s)]) s.
Definition default_ttl_set (r : mref) (ctx : bt_mesh_msg_ctx) (buf : list Z) (s : node) : option node :=
  '(v, _) ← net_buf_simple_pull_u8 buf;
  if negb ((v <=? BT_MESH_TTL_MAX) && negb (v =? 1)) then Some s else
  let s := on_conf (set_ttl v) s in
  reply r ctx 7 (bt_mesh_model_msg_init OP_DEFAULT_TTL_STATUS ++ [c_default_ttl (conf s)]) s.

Definition send_gatt_proxy_status (r : mref) (ctx : bt_mesh_msg_ctx) (s : node) : option node :=
  reply r ctx 7 (bt_mesh_model_msg_init OP_GATT_PROXY_STATUS ++ [gatt_proxy (conf s)]) s.
Definition gatt_proxy_get (r : mref) (ctx : bt_mesh_msg_ctx) (buf : list Z) (s : node) : option node := send_gatt_proxy_status r ctx s.
(** The node identity of every subnet that is used stops. *)
Definition identity_stop_all (s : node) : node :=
  fold_left (λ s i, match subs_of s !! i with Some sub => if sub_net_idx sub =? BT_MESH_KEY_UNUSED then s else bt_mesh_proxy_identity_stop i s | None => s end)
    (seq 0 (length (subs_of s))) s.
Definition gatt_proxy_set (r : mref) (ctx : bt_mesh_msg_ctx) (buf : list Z) (s : node) : option node :=
  '(v, _) ← net_buf_simple_pull_u8 buf;
  if negb (v =? 0) && negb (v =? 1) then Some s else
  if gatt_proxy (conf s) =? BT_MESH_GATT_PROXY_NOT_SUPPORTED then send_gatt_proxy_status r ctx s else
  if gatt_proxy (conf s) =? v then send_gatt_proxy_status r ctx s else
  let s := on_conf (set_gatt_proxy v) s in
  let s := if v =? BT_MESH_GATT_PROXY_DISABLED then note (NStack ActProxyDisconnect) (identity_stop_all s) else s in
  let s := note (NStack ActAdvUpdate) s in
  send_gatt_proxy_status r ctx (hb_feature r BT_MESH_FEAT_PROXY s).

Definition net_transmit_get (r : mref) (ctx : bt_mesh_msg_ctx) (buf : list Z) (s : node) : option node :=
  reply r ctx 7 (bt_mesh_model_msg_init OP_NET_TRANSMIT_STATUS ++ [net_transmit (conf s)]) s.
Definition net_transmit_set (r : mref) (ctx : bt_mesh_msg_ctx) (buf : list Z) (s : node) : option node :=
  '(v, _) ← net_buf_simple_pull_u8 buf;
  let s := on_conf (set_net_transmit v) s in
  reply r ctx 7 (bt_mesh_model_msg_init OP_NET_TRANSMIT_STATUS ++ [net_transmit (conf s)]) s.

Definition relay_status (s : node) : list Z := bt_mesh_model_msg_init OP_RELAY_STATUS ++ [relay (conf s); relay_retransmit (conf s)].
Definition relay_get (r : mref) (ctx : bt_mesh_msg_ctx) (buf : list Z) (s : node) : option node := reply r ctx 8 (relay_status s) s.
Definition relay_set (r : mref) (ctx : bt_mesh_msg_ctx) (buf : list Z) (s : node) : option node :=
  '(v, buf) ← net_buf_simple_pull_u8 buf;
  if negb ((v =? 0) || (v =? 1)) then Some s else
  if relay (conf s) =? BT_MESH_RELAY_NOT_SUPPORTED then reply r ctx 8 (relay_status s) s else
  '(xmit, _) ← net_buf_simple_pull_u8 buf;
  let change := negb (relay (conf s) =? v) in
  let s := on_conf (set_relay v xmit) s in
  let s := if change then hb_feature r BT_MESH_FEAT_RELAY s else s in
  reply r ctx 8 (relay_status s) s.

(** ** Models by address *)

(** [get_model] of element [i]: the model, whether it is a vendor model. *)
Definition get_model (i : nat) (buf : list Z) (s : node) : option (option mref * bool) :=
  if (length buf <? 4)%nat then '(id, _) ← net_buf_simple_pull_le16 buf; Some (bt_mesh_model_find i id s, false)
  else '(company, buf) ← net_buf_simple_pull_le16 buf; '(id, _) ← net_buf_simple_pull_le16 buf; Some (bt_mesh_model_find_vnd i company id s, true).

(** The common start of the handlers that name a model: its element and place, or a
    status; and whether the identifier in [buf] is that of a vendor model. *)
Definition locate (elem_addr : Z) (buf : list Z) (s : node) : option ((Z + nat * mref) * bool) :=
  match elem_find_in elem_addr (comp s) with
  | None => Some (inl STATUS_INVALID_ADDRESS, Nat.eqb (length buf) 4)
  | Some i =>
    '(m, vnd) ← get_model i buf s;
    Some (match m with Some m => inr (i, m) | None => inl STATUS_INVALID_MODEL end, vnd)
  end.
(** The identifier of the model, copied into the answer. *)
Definition mod_id (vnd : bool) (buf : list Z) : option (list Z) := '(id, _) ← net_buf_simple_pull (if vnd then 4 else 2) buf; Some id.

(** ** Publication *)

Definition send_mod_pub_status (r : mref) (ctx : bt_mesh_msg_ctx) (elem_addr pub_addr : Z) (vnd : bool) (mod_ : option mref) (status : Z) (buf : list Z) (s : node) : option node :=
  body ← (if negb (status =? STATUS_SUCCESS) then Some (zeros 7)
          else p ← (m ← mod_; mo ← model_at m (comp s); m_pub mo);
               Some (le16 pub_addr ++ le16 (Z.lor (p_key p) (u16 (Z.shiftl (p_cred p) 12))) ++ [p_ttl p; p_period p; p_retransmit p]));
  id ← mod_id vnd buf;
  reply r ctx 20 (bt_mesh_model_msg_init OP_MOD_PUB_STATUS ++ [status] ++ le16 elem_addr ++ body ++ id) s.

Definition mod_pub_get (r : mref) (ctx : bt_mesh_msg_ctx) (buf : list Z) (s : node) : option node :=
  '(elem_addr, buf) ← net_buf_simple_pull_le16 buf;
  '(l, vnd) ← locate elem_addr buf s;
  match l with
  | inl status => send_mod_pub_status r ctx elem_addr 0 vnd None status buf s
  | inr (_, m) =>
    match mo ← model_at m (comp s); m_pub mo with
    | None => send_mod_pub_status r ctx elem_addr 0 vnd (Some m) STATUS_NVAL_PUB_PARAM buf s
    | Some p => send_mod_pub_status r ctx elem_addr (p_addr p) vnd (Some m) STATUS_SUCCESS buf s
    end
  end.

(** The settings that follow the address: key, credentials, TTL, period, retransmissions. *)
Definition pull_pub (buf : list Z) : option (Z * Z * Z * option (Z * Z * list Z)) :=
  '(w, buf) ← net_buf_simple_pull_le16 buf;
  '(ttl, buf) ← net_buf_simple_pull_u8 buf;
  let idx := Z.land w 4095 in let cred := Z.land (Z.shiftr w 12) 1 in
  if (BT_MESH_TTL_MAX <? ttl) && negb (ttl =? BT_MESH_TTL_DEFAULT) then Some (idx, cred, ttl, None) else
  '(period, buf) ← net_buf_simple_pull_u8 buf;
  '(retransmit, buf) ← net_buf_simple_pull_u8 buf;
  Some (idx, cred, ttl, Some (period, retransmit, buf)).

Definition mod_pub_set (r : mref) (ctx : bt_mesh_msg_ctx) (buf : list Z) (s : node) : option node :=
  '(elem_addr, buf) ← net_buf_simple_pull_le16 buf;
  '(pub_addr, buf) ← net_buf_simple_pull_le16 buf;
  '(idx, cred, ttl, rest) ← pull_pub buf;
  match rest with
  | None => Some s
  | Some (period, retransmit, buf) =>
    '(l, vnd) ← locate elem_addr buf s;
    match l with
    | inl status => send_mod_pub_status r ctx elem_addr pub_addr vnd None status buf s
    | inr (_, m) => let '(status, s) := _mod_pub_set m pub_addr idx cred ttl period retransmit s in send_mod_pub_status r ctx elem_addr pub_addr vnd (Some m) status buf s
    end
  end.

(** ** Virtual addresses *)

(** The address of a label, and the last free slot before it. *)
Fixpoint va_search (uuid : list Z) (l : list (Z * list Z)) (i : nat) (free : option nat) : Z * option nat :=
  match l with
  | [] => (BT_MESH_ADDR_UNASSIGNED, free)
  | (a, u) :: l =>
    if negb (BT_MESH_ADDR_IS_VIRTUAL a) then va_search uuid l (S i) (Some i) else
    if bool_decide (u = uuid) then (a, free) else va_search uuid l (S i) free
  end.
Definition labels_of (s : node) : list (Z * list Z) := labels (tc (nt s)).
Definition va_find (uuid : list Z) (s : node) : Z * option nat := va_search uuid (labels_of s) 0 None.
Definition va_add (uuid : list Z) (s : node) : Z * Z * node :=
  let '(a, free) := va_find uuid s in
  if negb (a =? BT_MESH_ADDR_UNASSIGNED) then (STATUS_SUCCESS, a, s) else
  match free with
  | None => (STATUS_INSUFF_RESOURCES, a, s)
  | Some i =>
    match bt_mesh_virtual_addr uuid with
    | inl _ => (STATUS_UNSPECIFIED, a, s)
    | inr a => (STATUS_SUCCESS, a, set_labels (<[i := (a, uuid)]> (labels_of s)) s)
    end
  end.

Definition mod_pub_va_set (r : mref) (ctx : bt_mesh_msg_ctx) (buf : list Z) (s : node) : option node :=
  '(elem_addr, buf) ← net_buf_simple_pull_le16 buf;
  '(uuid, buf) ← net_buf_simple_pull 16 buf;
  '(idx, cred, ttl, rest) ← pull_pub buf;
  match rest with
  | None => Some s
  | Some (period, retransmit, buf) =>
    '(l, vnd) ← locate elem_addr buf s;
    match l with
    | inl status => send_mod_pub_status r ctx elem_addr 0 vnd None status buf s
    | inr (_, m) =>
      let '(status, a, s) := va_add uuid s in
      let '(status, s) := if status =? STATUS_SUCCESS then _mod_pub_set m a idx cred ttl period retransmit s else (status, s) in
      send_mod_pub_status r ctx elem_addr a vnd (Some m) status buf s
    end
  end.

(** ** Subscription *)

Definition send_mod_sub_status (r : mref) (ctx : bt_mesh_msg_ctx) (status elem_addr sub_addr : Z) (vnd : bool) (buf : list Z) (s : node) : option node :=
  id ← mod_id vnd buf;
  reply r ctx 15 (bt_mesh_model_msg_init OP_MOD_SUB_STATUS ++ [status] ++ le16 elem_addr ++ le16 sub_addr ++ id) s.

(** Every model of the element gets the list; a model is found by its identifier. *)
Definition _elem_sub_bind (i : nat) (s : node) : node :=
  match comp s !! i with
  | None => s
  | Some e =>
    let s := fold_left (λ s mo, match bt_mesh_model_find i (m_id mo) s with Some m => on_model m (set_groups (g_sub_list s)) s | None => s end) (e_models e) s in
    fold_left (λ s mo, match bt_mesh_model_find_vnd i (m_company mo) (m_id mo) s with Some m => on_model m (set_groups (g_sub_list s)) s | None => s end) (e_vnd e) s
  end.

Definition find_group (m : mref) (a : Z) (s : node) : option group_ptr :=
  e ← comp s !! r_elem m; mo ← model_at m (comp s); bt_mesh_model_find_group e mo a.

(** The change of the list, and the status. *)
Definition sub_add (i : nat) (m : mref) (sub_addr : Z) (s : node) : Z * node :=
  if negb (BT_MESH_ADDR_IS_GROUP sub_addr) then (STATUS_INVALID_ADDRESS, s) else
  match find_group m sub_addr s with
  | Some _ => (STATUS_SUCCESS, s)
  | None =>
    match index_of BT_MESH_ADDR_UNASSIGNED (g_sub_list s) 0 with
    | Some k => (STATUS_SUCCESS, _elem_sub_bind i (with_sub_list (<[k := sub_addr]> (g_sub_list s)) s))
    | None => (STATUS_INSUFF_RESOURCES, s)
    end
  end.
Definition mod_sub_add (r : mref) (ctx : bt_mesh_msg_ctx) (buf : list Z) (s : node) : option node :=
  '(elem_addr, buf) ← net_buf_simple_pull_le16 buf;
  '(sub_addr, buf) ← net_buf_simple_pull_le16 buf;
  '(l, vnd) ← locate elem_addr buf s;
  let '(status, s) := match l with inl st => (st, s) | inr (i, m) => sub_add i m sub_addr s end in
  s ← send_mod_sub_status r ctx status elem_addr sub_addr vnd buf s;
  Some (if status =? STATUS_SUCCESS then event GENIE_EVT_SDK_SUB_ADD None s else s).

Definition sub_del (i : nat) (sub_addr : Z) (s : node) : Z * node :=
  if negb (BT_MESH_ADDR_IS_GROUP sub_addr) then (STATUS_INVALID_ADDRESS, s) else
  match index_of sub_addr (g_sub_list s) 0 with
  | Some k => (STATUS_SUCCESS, _elem_sub_bind i (with_sub_list (<[k := BT_MESH_ADDR_UNASSIGNED]> (g_sub_list s)) s))
  | None => (STATUS_SUCCESS, s)
  end.
Definition mod_sub_del (r : mref) (ctx : bt_mesh_msg_ctx) (buf : list Z) (s : node) : option node :=
  '(elem_addr, buf) ← net_buf_simple_pull_le16 buf;
  '(sub_addr, buf) ← net_buf_simple_pull_le16 buf;
  '(l, vnd) ← locate elem_addr buf s;
  let '(status, s) := match l with inl st => (st, s) | inr (i, m) => sub_del i sub_addr s end in
  s ← send_mod_sub_status r ctx status elem_addr sub_addr vnd buf s;
  Some (if status =? STATUS_SUCCESS then event GENIE_EVT_SDK_SUB_DEL None s else s).

Definition clear_groups (m : mref) (s : node) : node := on_model m (λ mo, set_groups (map (λ _, BT_MESH_ADDR_UNASSIGNED) (m_groups mo)) mo) s.
Definition put_first_group (m : mref) (a : Z) (s : node) : node := on_model m (λ mo, set_groups (<[0%nat := a]> (m_groups mo)) mo) s.
Definition mod_sub_overwrite (r : mref) (ctx : bt_mesh_msg_ctx) (buf : list Z) (s : node) : option node :=
  '(elem_addr, buf) ← net_buf_simple_pull_le16 buf;
  '(sub_addr, buf) ← net_buf_simple_pull_le16 buf;
  '(l, vnd) ← locate elem_addr buf s;
  let '(status, s) :=
    match l with
    | inl st => (st, s)
    | inr (_, m) => if negb (BT_MESH_ADDR_IS_GROUP sub_addr) then (STATUS_INVALID_ADDRESS, s) else (STATUS_SUCCESS, put_first_group m sub_addr (clear_groups m s))
    end in
  send_mod_sub_status r ctx status elem_addr sub_addr vnd buf s.

Definition mod_sub_del_all (r : mref) (ctx : bt_mesh_msg_ctx) (buf : list Z) (s : node) : option node :=
  '(elem_addr, buf) ← net_buf_simple_pull_le16 buf;
  '(l, vnd) ← locate elem_addr buf s;
  let '(status, s) := match l with inl st => (st, s) | inr (_, m) => (STATUS_SUCCESS, clear_groups m s) end in
  send_mod_sub_status r ctx status elem_addr BT_MESH_ADDR_UNASSIGNED vnd buf s.

Definition group_bytes (mo : bt_mesh_model) : list Z := concat (map le16 (List.filter (λ a, negb (a =? BT_MESH_ADDR_UNASSIGNED)) (m_groups mo))).
(** The answer to a subscription get: [id] are the bytes that name the model. *)
Definition sub_list_status (addr : Z) (id : list Z) (find_ : nat → option mref) (s : node) : list Z :=
  match elem_find_in addr (comp s) with
  | None => [STATUS_INVALID_ADDRESS] ++ le16 addr ++ id
  | Some i =>
    match m ← find_ i; model_at m (comp s) with
    | None => [STATUS_INVALID_MODEL] ++ le16 addr ++ id
    | Some mo => [STATUS_SUCCESS] ++ le16 addr ++ id ++ group_bytes mo
    end
  end.
Definition mod_sub_get (r : mref) (ctx : bt_mesh_msg_ctx) (buf : list Z) (s : node) : option node :=
  '(addr, buf) ← net_buf_simple_pull_le16 buf;
  '(id, _) ← net_buf_simple_pull_le16 buf;
  reply r ctx (11 + 2 * Z.of_nat (length (g_sub_list s))) (bt_mesh_model_msg_init OP_MOD_SUB_LIST ++ sub_list_status addr (le16 id) (λ i, bt_mesh_model_find i id s) s) s.
Definition mod_sub_get_vnd (r : mref) (ctx : bt_mesh_msg_ctx) (buf : list Z) (s : node) : option node :=
  '(addr, buf) ← net_buf_simple_pull_le16 buf;
  '(company, buf) ← net_buf_simple_pull_le16 buf;
  '(id, _) ← net_buf_simple_pull_le16 buf;
  reply r ctx (13 + 2 * Z.of_nat (length (g_sub_list s)))
    (bt_mesh_model_msg_init OP_MOD_SUB_LIST_VND ++ sub_list_status addr (le16 company ++ le16 id) (λ i, bt_mesh_model_find_vnd i company id s) s) s.

Definition sub_va_add (m : mref) (uuid : list Z) (s : node) : Z * Z * node :=
  let '(status, a, s) := va_add uuid s in
  if negb (status =? STATUS_SUCCESS) then (status, a, s) else
  match find_group m a s with
  | Some _ => (STATUS_SUCCESS, a, s)
  | None =>
    match mo ← model_at m (comp s); index_of BT_MESH_ADDR_UNASSIGNED (m_groups mo) 0 with
    | Some k => (STATUS_SUCCESS, a, on_model m (λ mo, set_groups (<[k := a]> (m_groups mo)) mo) s)
    | None => (STATUS_INSUFF_RESOURCES, a, s)
    end
  end.
Definition mod_sub_va_add (r : mref) (ctx : bt_mesh_msg_ctx) (buf : list Z) (s : node) : option node :=
  '(elem_addr, buf) ← net_buf_simple_pull_le16 buf;
  '(uuid, buf) ← net_buf_simple_pull 16 buf;
  '(l, vnd) ← locate elem_addr buf s;
  let '(status, a, s) := match l with inl st => (st, BT_MESH_ADDR_UNASSIGNED, s) | inr (_, m) => sub_va_add m uuid s end in
  send_mod_sub_status r ctx status elem_addr a vnd buf s.

(** What the found pointer points at is cleared. *)
Definition clear_group_ptr (m : mref) (p : group_ptr) (s : node) : node :=
  match p with
  | InModel k => on_model m (λ mo, set_groups (<[k := BT_MESH_ADDR_UNASSIGNED]> (m_groups mo)) mo) s
  | InElem => with_comp (alter (λ e, mkElem (e_addr e) BT_MESH_ADDR_UNASSIGNED (e_loc e) (e_models e) (e_vnd e)) (r_elem m) (comp s)) s
  end.
Definition sub_va_del (m : mref) (uuid : list Z) (s : node) : Z * Z * node :=
  let a := fst (va_find uuid s) in
  if a =? BT_MESH_ADDR_UNASSIGNED then (STATUS_CANNOT_REMOVE, a, s) else
  match find_group m a s with
  | Some p => (STATUS_SUCCESS, a, clear_group_ptr m p s)
  | None => (STATUS_CANNOT_REMOVE, a, s)
  end.
Definition mod_sub_va_del (r : mref) (ctx : bt_mesh_msg_ctx) (buf : list Z) (s : node) : option node :=
  '(elem_addr, buf) ← net_buf_simple_pull_le16 buf;
  '(uuid, buf) ← net_buf_simple_pull 16 buf;
  '(l, vnd) ← locate elem_addr buf s;
  let '(status, a, s) := match l with inl st => (st, BT_MESH_ADDR_UNASSIGNED, s) | inr (_, m) => sub_va_del m uuid s end in
  send_mod_sub_status r ctx status elem_addr a vnd buf s.

Definition mod_sub_va_overwrite (r : mref) (ctx : bt_mesh_msg_ctx) (buf : list Z) (s : node) : option node :=
  '(elem_addr, buf) ← net_buf_simple_pull_le16 buf;
  '(uuid, buf) ← net_buf_simple_pull 16 buf;
  '(l, vnd) ← locate elem_addr buf s;
  let '(status, a, s) :=
    match l with
    | inl st => (st, BT_MESH_ADDR_UNASSIGNED, s)
    | inr (_, m) =>
      let '(status, a, s) := va_add uuid (clear_groups m s) in
      (status, a, if status =? STATUS_SUCCESS then put_first_group m a s else s)
    end in
  send_mod_sub_status r ctx status elem_addr a vnd buf s.

(** ** Network keys *)

Definition send_net_key_status (r : mref) (ctx : bt_mesh_msg_ctx) (idx status : Z) (s : node) : option node :=
  reply r ctx 9 (bt_mesh_model_msg_init OP_NET_KEY_STATUS ++ [status] ++ le16 idx) s.

Definition alter_sub (i : nat) (f : bt_mesh_subnet → bt_mesh_subnet) (s : node) : node := set_subs (alter f i (subs_of s)) s.

(** A new subnet in slot [i]: its beacon, node identity and proxy advertising. *)
Definition subnet_start (i : nat) (idx : Z) (k : bt_mesh_subnet_keys) (s : node) : node :=
  let s := alter_sub i (λ sub, mkSubnet idx (kr_flag sub) (kr_phase sub) k (keys1 sub)) s in
  let s := set_node_id i BT_MESH_NODE_IDENTITY_STOPPED (beacon_update i s) in
  note (NStack ActAdvUpdate) (note (NStack (ActProxyBeacon idx)) s).

Definition net_key_add (r : mref) (ctx : bt_mesh_msg_ctx) (buf : list Z) (s : node) : option node :=
  '(idx, buf) ← net_buf_simple_pull_le16 buf;
  if 4095 <? idx then Some s else
  '(key, _) ← net_buf_simple_pull 16 buf;
  match i ← subnet_num idx s; subs_of s !! i with
  | Some sub =>
    let status := if bool_decide (key = k_net (keys0 sub)) then STATUS_SUCCESS else STATUS_IDX_ALREADY_STORED in
    send_net_key_status r ctx idx status (event GENIE_EVT_SDK_NETKEY_ADD (Some status) s)
  | None =>
    match subnet_search BT_MESH_KEY_UNUSED (subs_of s) 0 with
    | None => send_net_key_status r ctx idx STATUS_INSUFF_RESOURCES s
    | Some i =>
      match bt_mesh_net_keys_create key with
      | inl _ => send_net_key_status r ctx idx STATUS_UNSPECIFIED s
      | inr k => send_net_key_status r ctx idx STATUS_SUCCESS (subnet_start i idx k s)
      end
    end
  end.

(** The change and the status that was computed; no answer at all to the same key in
    normal operation. *)
Definition key_update (i : nat) (sub : bt_mesh_subnet) (key : list Z) (s : node) : option Z * node :=
  let start :=
    match bt_mesh_net_keys_create key with
    | inl _ => (Some STATUS_UNSPECIFIED, s)
    | inr k =>
      let s := alter_sub i (λ sub, mkSubnet (sub_net_idx sub) (kr_flag sub) BT_MESH_KR_PHASE_1 (keys0 sub) k) s in
      (Some STATUS_SUCCESS, beacon_update i (event GENIE_EVT_SDK_NETKEY_UPDATE (Some STATUS_SUCCESS) s))
    end in
  if kr_phase sub =? BT_MESH_KR_NORMAL then if bool_decide (key = k_net (keys0 sub)) then (None, s) else start else
  if (kr_phase sub =? BT_MESH_KR_PHASE_1) && bool_decide (key = k_net (keys1 sub)) then (Some STATUS_SUCCESS, s) else
  if (kr_phase sub =? BT_MESH_KR_PHASE_1) || (kr_phase sub =? BT_MESH_KR_PHASE_2) || (kr_phase sub =? BT_MESH_KR_PHASE_3) then (Some STATUS_CANNOT_UPDATE, s) else start.
(** Whatever the status is, the answer says success. *)
Definition net_key_update (r : mref) (ctx : bt_mesh_msg_ctx) (buf : list Z) (s : node) : option node :=
  '(idx, buf) ← net_buf_simple_pull_le16 buf;
  if 4095 <? idx then Some s else
  '(key, _) ← net_buf_simple_pull 16 buf;
  let '(status, s) :=
    match i ← subnet_num idx s; sub ← subs_of s !! i; Some (i, sub) with
    | None => (Some STATUS_INVALID_NETKEY, s)
    | Some (i, sub) => key_update i sub key s
    end in
  match status with None => Some s | Some _ => send_net_key_status r ctx idx STATUS_SUCCESS s end.

Definition subnet_clear (i : nat) (s : node) : node := with_subx (alter (λ _, (0, zeros 8)) i (subx s)) (alter_sub i (λ _, unused_subnet) s).
Definition app_keys_del_net (net_idx : Z) (s : node) : node :=
  fold_left (λ s i, match app_keys_of s !! i with Some k => if ak_net_idx k =? net_idx then _app_key_del i s else s | None => s end) (seq 0 (length (app_keys_of s))) s.

Definition net_key_del (r : mref) (ctx : bt_mesh_msg_ctx) (buf : list Z) (s : node) : option node :=
  '(del_idx, _) ← net_buf_simple_pull_le16 buf;
  if 4095 <? del_idx then Some s else
  let '(status, s) :=
    match subnet_num del_idx s with
    | None => (STATUS_SUCCESS, s)
    | Some i =>
      if net_idx ctx =? del_idx then (STATUS_CANNOT_REMOVE, s) else
      let s := if hp_net_idx (hb_pub (conf s)) =? del_idx then hb_pub_disable s else s in
      let s := subnet_clear i (app_keys_del_net del_idx s) in
      (STATUS_SUCCESS, event GENIE_EVT_SDK_NETKEY_DEL (Some STATUS_SUCCESS) s)
    end in
  send_net_key_status r ctx del_idx status s.

Definition used_idx (s : node) : list Z := List.filter (λ i, negb (i =? BT_MESH_KEY_UNUSED)) (map sub_net_idx (subs_of s)).
Definition net_key_get (r : mref) (ctx : bt_mesh_msg_ctx) (buf : list Z) (s : node) : option node :=
  reply r ctx (6 + IDX_LEN (Z.of_nat (length (subs_of s)))) (bt_mesh_model_msg_init OP_NET_KEY_LIST ++ idx_list (used_idx s) BT_MESH_KEY_UNUSED) s.

(** ** Node identity *)

Definition node_id_of (i : nat) (s : node) : Z := match subx s !! i with Some x => fst x | None => 0 end.
Definition identity_status (status idx node_id : Z) : list Z := bt_mesh_model_msg_init OP_NODE_IDENTITY_STATUS ++ [status] ++ le16 idx ++ [node_id].
Definition node_identity_get (r : mref) (ctx : bt_mesh_msg_ctx) (buf : list Z) (s : node) : option node :=
  '(idx, _) ← net_buf_simple_pull_le16 buf;
  if 4095 <? idx then Some s else
  match subnet_num idx s with
  | None => reply r ctx 10 (identity_status STATUS_INVALID_NETKEY idx 0) s
  | Some i => reply r ctx 10 (identity_status STATUS_SUCCESS idx (node_id_of i s)) s
  end.
Definition node_identity_set (r : mref) (ctx : bt_mesh_msg_ctx) (buf : list Z) (s : node) : option node :=
  '(idx, buf) ← net_buf_simple_pull_le16 buf;
  if 4095 <? idx then Some s else
  '(node_id, _) ← net_buf_simple_pull_u8 buf;
  if negb (node_id =? 0) && negb (node_id =? 1) then Some s else
  match subnet_num idx s with
  | None => reply r ctx 10 (identity_status STATUS_INVALID_NETKEY idx node_id) s
  | Some i =>
    let s := if gatt_proxy (conf s) =? BT_MESH_GATT_PROXY_ENABLED
             then note (NStack ActAdvUpdate) (if truthy node_id then bt_mesh_proxy_identity_start i s else bt_mesh_proxy_identity_stop i s) else s in
    reply r ctx 10 (identity_status STATUS_SUCCESS idx (node_id_of i s)) s
  end.

(** ** Bindings *)

Definition create_mod_app_status (status elem_addr app_idx : Z) (id : list Z) : list Z :=
  bt_mesh_model_msg_init OP_MOD_APP_STATUS ++ [status] ++ le16 elem_addr ++ le16 app_idx ++ id.
Definition mod_app_bind (r : mref) (ctx : bt_mesh_msg_ctx) (buf : list Z) (s : node) : option node :=
  '(elem_addr, buf) ← net_buf_simple_pull_le16 buf;
  '(key_app_idx, buf) ← net_buf_simple_pull_le16 buf;
  '(l, vnd) ← locate elem_addr buf s;
  let '(status, s) :=
    match l with inl st => (st, s) | inr (_, m) => if bool_decide (m = r) then (STATUS_CANNOT_BIND, s) else mod_bind m key_app_idx s end in
  id ← mod_id vnd buf;
  reply r ctx 15 (create_mod_app_status status elem_addr key_app_idx id) s.
Definition mod_app_unbind (r : mref) (ctx : bt_mesh_msg_ctx) (buf : list Z) (s : node) : option node :=
  '(elem_addr, buf) ← net_buf_simple_pull_le16 buf;
  '(key_app_idx, buf) ← net_buf_simple_pull_le16 buf;
  '(l, vnd) ← locate elem_addr buf s;
  let '(status, s) := match l with inl st => (st, s) | inr (_, m) => mod_unbind m key_app_idx s end in
  id ← mod_id vnd buf;
  reply r ctx 15 (create_mod_app_status status elem_addr key_app_idx id) s.

(** The answer's buffer has room for [CONFIG_BT_MESH_MODEL_KEY_COUNT] keys, 2. *)
Definition key_bytes (mo : bt_mesh_model) : list Z := concat (map le16 (List.filter (λ k, negb (k =? BT_MESH_KEY_UNUSED)) (m_keys mo))).
Definition mod_app_get (r : mref) (ctx : bt_mesh_msg_ctx) (buf : list Z) (s : node) : option node :=
  '(elem_addr, buf) ← net_buf_simple_pull_le16 buf;
  '(l, vnd) ← locate elem_addr buf s;
  let status := match l with inl st => st | inr _ => STATUS_SUCCESS end in
  let keys := match l with inr (_, m) => match model_at m (comp s) with Some mo => key_bytes mo | None => [] end | inl _ => [] end in
  id ← mod_id vnd buf;
  reply r ctx 19 (bt_mesh_model_msg_init (if (vnd : bool) then OP_VND_MOD_APP_LIST else OP_SIG_MOD_APP_LIST) ++ [status] ++ le16 elem_addr ++ id ++ keys) s.

(** ** Reset *)

Definition bt_mesh_cfg_reset (s : node) : node :=
  let s := bt_mesh_set_hb_sub_dst BT_MESH_ADDR_UNASSIGNED s in
  let s := on_conf (λ c, let h := hb_sub c in set_hb_sub (mkHbSub BT_MESH_ADDR_UNASSIGNED BT_MESH_ADDR_UNASSIGNED (hs_count h) (hs_min_hops h) (hs_max_hops h) 0) c) s in
  let s := hb_pub_disable s in
  let s := fold_left (λ s i, match app_keys_of s !! i with Some k => if ak_net_idx k =? BT_MESH_KEY_UNUSED then s else _app_key_del i s | None => s end) (seq 0 (length (app_keys_of s))) s in
  let s := fold_left (λ s i, subnet_clear i s) (seq 0 (length (subs_of s))) s in
  set_labels (map (λ _, (0, zeros 16)) (labels_of s)) s.

(** Sequence number, IV index and the IV update state of the transport layer's view. *)
Definition clear_iv (s : node) : node :=
  let n := tn (nt s) in
  let n := mkNet 0 false 0 (subs n) (msg_cache n) (msg_cache_next n) (dup_cache n) (dup_cache_next n) (elems n) (relay_on n) (proxy_on n) (rpl n) in
  with_nt (with_update false 0 (with_tn n (nt s))) s.

Definition bt_mesh_reset (s : node) : node :=
  if negb (n_provisioned s) then s else
  let s := bt_mesh_comp_unprovision s in
  let s := with_sub_list (map (λ _, 0) (g_sub_list s)) s in
  let s := bt_mesh_cfg_reset (clear_iv s) in
  let s := with_nt (bt_mesh_tx_reset (bt_mesh_rx_reset (nt s))) s in
  let s := set_dev_key (zeros 16) (note (NStack ActProxyGattDisable) s) in
  let s := with_prov false (dev_primary_addr s) (with_nt (bt_mesh_rpl_clear (nt s)) s) in
  note (NStack ActProvReset) (note (NStack ActBeaconDisable) (note (NStack ActScanDisable) s)).

Definition node_reset (r : mref) (ctx : bt_mesh_msg_ctx) (buf : list Z) (s : node) : option node :=
  s ← reply r ctx 6 (bt_mesh_model_msg_init OP_NODE_RESET_STATUS) s;
  if hw_reset s then Some s else Some (event GENIE_EVT_SW_RESET None (bt_mesh_reset s)).

(** ** Friendship, which is off *)

Definition send_friend_status (r : mref) (ctx : bt_mesh_msg_ctx) (s : node) : option node :=
  reply r ctx 7 (bt_mesh_model_msg_init OP_FRIEND_STATUS ++ [frnd (conf s)]) s.
Definition friend_get (r : mref) (ctx : bt_mesh_msg_ctx) (buf : list Z) (s : node) : option node := send_friend_status r ctx s.
Definition friend_set (r : mref) (ctx : bt_mesh_msg_ctx) (buf : list Z) (s : node) : option node :=
  '(v, _) ← net_buf_simple_pull_u8 buf;
  if negb (v =? 0) && negb (v =? 1) then Some s else
  if frnd (conf s) =? v then send_friend_status r ctx s else send_friend_status r ctx (hb_feature r BT_MESH_FEAT_FRIEND s).
Definition lpn_timeout_get (r : mref) (ctx : bt_mesh_msg_ctx) (buf : list Z) (s : node) : option node :=
  '(lpn_addr, _) ← net_buf_simple_pull_le16 buf;
  if negb (BT_MESH_ADDR_IS_UNICAST lpn_addr) then Some s else
  reply r ctx 11 (bt_mesh_model_msg_init OP_LPN_TIMEOUT_STATUS ++ le16 lpn_addr ++ [0; 0; 0]) s.

(** ** Key refresh *)

Definition send_krp_status (r : mref) (ctx : bt_mesh_msg_ctx) (idx phase status : Z) (s : node) : option node :=
  reply r ctx 10 (bt_mesh_model_msg_init OP_KRP_STATUS ++ [status] ++ le16 idx ++ [phase]) s.
Definition krp_get (r : mref) (ctx : bt_mesh_msg_ctx) (buf : list Z) (s : node) : option node :=
  '(idx, _) ← net_buf_simple_pull_le16 buf;
  if 4095 <? idx then Some s else
  match i ← subnet_num idx s; subs_of s !! i with
  | None => send_krp_status r ctx idx 0 STATUS_INVALID_NETKEY s
  | Some sub => send_krp_status r ctx idx (kr_phase sub) STATUS_SUCCESS s
  end.

(** The new keys of the subnet and of its updated application keys take over. *)
Definition bt_mesh_net_revoke_keys (i : nat) (sub : bt_mesh_subnet) (s : node) : node :=
  let s := alter_sub i (λ sub, mkSubnet (sub_net_idx sub) (kr_flag sub) (kr_phase sub) (keys1 sub) (keys1 sub)) s in
  set_app_keys (map (λ k, if negb (ak_net_idx k =? sub_net_idx sub) || negb (ak_updated k) then k
                          else mkAppKey (ak_net_idx k) (ak_app_idx k) false (ak_id1 k) (ak_val1 k) (ak_id1 k) (ak_val1 k)) (app_keys_of s)) s.
Definition set_phase (i : nat) (phase : Z) (flag : bool) (s : node) : node := alter_sub i (λ sub, mkSubnet (sub_net_idx sub) flag phase (keys0 sub) (keys1 sub)) s.

Definition krp_set (r : mref) (ctx : bt_mesh_msg_ctx) (buf : list Z) (s : node) : option node :=
  '(idx, buf) ← net_buf_simple_pull_le16 buf;
  '(phase, _) ← net_buf_simple_pull_u8 buf;
  if 4095 <? idx then Some s else
  match i ← subnet_num idx s; sub ← subs_of s !! i; Some (i, sub) with
  | None => send_krp_status r ctx idx 0 STATUS_INVALID_NETKEY s
  | Some (i, sub) =>
    if (phase <? BT_MESH_KR_PHASE_2) || (BT_MESH_KR_PHASE_3 <? phase) || ((kr_phase sub =? BT_MESH_KR_NORMAL) && (phase =? BT_MESH_KR_PHASE_2)) then Some s else
    if (kr_phase sub =? BT_MESH_KR_PHASE_1) && (phase =? BT_MESH_KR_PHASE_2) then
      send_krp_status r ctx idx BT_MESH_KR_PHASE_2 STATUS_SUCCESS (beacon_update i (set_phase i BT_MESH_KR_PHASE_2 true s))
    else if ((kr_phase sub =? BT_MESH_KR_PHASE_1) || (kr_phase sub =? BT_MESH_KR_PHASE_2)) && (phase =? BT_MESH_KR_PHASE_3) then
      send_krp_status r ctx idx BT_MESH_KR_NORMAL STATUS_SUCCESS (beacon_update i (set_phase i BT_MESH_KR_NORMAL false (bt_mesh_net_revoke_keys i sub s)))
    else send_krp_status r ctx idx (kr_phase sub) STATUS_SUCCESS s
  end.

(** ** Heartbeat settings *)

Definition hb_log (val : Z) : Z := if val =? 0 then 0 else if val =? 65535 then 255 else Z.log2 val + 1.
Definition hb_pub_count_log (val : Z) : Z := if val =? 0 then 0 else if val =? 1 then 1 else if val =? 65535 then 255 else Z.log2 (val - 1) + 2.
Definition hb_pwr2 (val sub : Z) : Z := if val =? 0 then 0 else if (val =? 255) || (val =? 17) then 65535 else u16 (Z.shiftl 1 (val - sub)).

(** [orig_msg]: the parameters of a request that failed, sent back. *)
Definition hb_pub_send_status (r : mref) (ctx : bt_mesh_msg_ctx) (status : Z) (orig_msg : option (list Z)) (s : node) : option node :=
  let h := hb_pub (conf s) in
  let body := match orig_msg with
    | Some b => b
    | None => le16 (hp_dst h) ++ [hb_pub_count_log (hp_count h); hp_period h; hp_ttl h] ++ le16 (hp_feat h) ++ le16 (hp_net_idx h) end in
  reply r ctx 15 (bt_mesh_model_msg_init OP_HEARTBEAT_PUB_STATUS ++ [status] ++ body) s.
Definition heartbeat_pub_get (r : mref) (ctx : bt_mesh_msg_ctx) (buf : list Z) (s : node) : option node := hb_pub_send_status r ctx STATUS_SUCCESS None s.

Definition heartbeat_pub_set (r : mref) (ctx : bt_mesh_msg_ctx) (buf : list Z) (s : node) : option node :=
  '(param, _) ← net_buf_simple_pull 9 buf;
  let dst := get_le16 (at_ 0 param) (at_ 1 param) in
  let count_log := at_ 2 param in let period_log := at_ 3 param in let ttl := at_ 4 param in
  let feat := get_le16 (at_ 5 param) (at_ 6 param) in let idx := get_le16 (at_ 7 param) (at_ 8 param) in
  let failed status := hb_pub_send_status r ctx status (Some param) s in
  if BT_MESH_ADDR_IS_VIRTUAL dst then failed STATUS_INVALID_ADDRESS else
  if (17 <? count_log) && negb (count_log =? 255) then failed STATUS_CANNOT_SET else
  if 16 <? period_log then failed STATUS_CANNOT_SET else
  if (BT_MESH_TTL_MAX <? ttl) && negb (ttl =? BT_MESH_TTL_DEFAULT) then Some s else
  if 4095 <? idx then Some s else
  match subnet_num idx s with
  | None => failed STATUS_INVALID_NETKEY
  | Some _ =>
    let h := hb_pub (conf s) in
    let s := on_conf (set_hb_pub (mkHbPub dst (hp_count h) period_log (hp_ttl h) feat idx (hp_timer h))) s in
    let s := if dst =? BT_MESH_ADDR_UNASSIGNED then hb_pub_disable s
             else on_conf (set_hb_pub (mkHbPub dst (hb_pwr2 count_log 1) period_log ttl feat idx (if truthy period_log && truthy count_log then Some 0 else None))) s in
    hb_pub_send_status r ctx STATUS_SUCCESS None s
  end.

Definition hb_sub_send_status (r : mref) (ctx : bt_mesh_msg_ctx) (status : Z) (s : node) : option node :=
  let h := hb_sub (conf s) in
  let period := if hs_expiry h <? uptime_of s then 0 else u16 ((hs_expiry h - uptime_of s) / 1000) in
  reply r ctx 15 (bt_mesh_model_msg_init OP_HEARTBEAT_SUB_STATUS ++ [status] ++ le16 (hs_src h) ++ le16 (hs_dst h)
                  ++ [hb_log period; hb_log (hs_count h); hs_min_hops h; hs_max_hops h]) s.
Definition heartbeat_sub_get (r : mref) (ctx : bt_mesh_msg_ctx) (buf : list Z) (s : node) : option node := hb_sub_send_status r ctx STATUS_SUCCESS s.

Definition heartbeat_sub_set (r : mref) (ctx : bt_mesh_msg_ctx) (buf : list Z) (s : node) : option node :=
  '(sub_src, buf) ← net_buf_simple_pull_le16 buf;
  '(sub_dst, buf) ← net_buf_simple_pull_le16 buf;
  '(sub_period, _) ← net_buf_simple_pull_u8 buf;
  if negb (sub_src =? BT_MESH_ADDR_UNASSIGNED) && negb (BT_MESH_ADDR_IS_UNICAST sub_src) then Some s else
  if BT_MESH_ADDR_IS_VIRTUAL sub_dst || BT_MESH_ADDR_IS_RFU sub_dst || (BT_MESH_ADDR_IS_UNICAST sub_dst && negb (sub_dst =? dev_primary_addr s)) then Some s else
  if 17 <? sub_period then Some s else
  let h := hb_sub (conf s) in
  let '(h, period_ms) :=
    if (sub_src =? BT_MESH_ADDR_UNASSIGNED) || (sub_dst =? BT_MESH_ADDR_UNASSIGNED) || (sub_period =? 0) then
      (if negb (hs_src h =? sub_src) || negb (hs_dst h =? sub_dst)
       then mkHbSub BT_MESH_ADDR_UNASSIGNED BT_MESH_ADDR_UNASSIGNED (hs_count h) (hs_min_hops h) (hs_max_hops h) (hs_expiry h) else h, 0)
    else (mkHbSub sub_src sub_dst 0 BT_MESH_TTL_MAX 0 (hs_expiry h), hb_pwr2 sub_period 1 * 1000) in
  let s := bt_mesh_set_hb_sub_dst (hs_dst h) s in
  let h := mkHbSub (hs_src h) (hs_dst h) (hs_count h) (hs_min_hops h) (hs_max_hops h) (if truthy period_ms then uptime_of s + period_ms else 0) in
  hb_sub_send_status r ctx STATUS_SUCCESS (on_conf (set_hb_sub h) s).

(** The work item of the heartbeat timer; [r] is the configuration server.  The period in
    milliseconds is a 16-bit variable. *)
Definition hb_publish (r : mref) (s : node) : node :=
  let h := hb_pub (conf s) in
  let s := on_conf (set_hb_pub (hb_pub_timer None h)) s in
  match subnet_num (hp_net_idx h) s with
  | None => on_conf (set_hb_pub (mkHbPub BT_MESH_ADDR_UNASSIGNED (hp_count h) (hp_period h) (hp_ttl h) (hp_feat h) (hp_net_idx h) None)) s
  | Some _ =>
    let s := hb_send r s in
    if hp_count h =? 0 then s else
    let count := if hp_count h =? 65535 then 65535 else hp_count h - 1 in
    let period_ms := u16 (hb_pwr2 (hp_period h) 1 * 1000) in
    on_conf (set_hb_pub (mkHbPub (hp_dst h) count (hp_period h) (hp_ttl h) (hp_feat h) (hp_net_idx h) (if truthy period_ms then Some period_ms else None))) s
  end.

(** A received heartbeat.  There is no tracking function. *)
Definition bt_mesh_heartbeat (src dst hops feat : Z) (s : node) : node :=
  let h := hb_sub (conf s) in
  if negb (src =? hs_src h) || negb (dst =? hs_dst h) then s else
  if hs_expiry h <? uptime_of s then s else
  on_conf (set_hb_sub (mkHbSub (hs_src h) (hs_dst h) (if hs_count h <? 65535 then hs_count h + 1 else hs_count h) (Z.min (hs_min_hops h) hops) (Z.max (hs_max_hops h) hops) (hs_expiry h))) s.

(** Entry points for other components: the service turns relaying off and on, and the
    heartbeats off. *)
Definition bt_mesh_relay_set (v : Z) (s : node) : Z * node := (0, on_conf (set_relay v (relay_retransmit (conf s))) s).
Definition bt_mesh_hb_pub_disable (s : node) : node := hb_pub_disable s.

(** ** The handlers *)

Definition bt_mesh_cfg_srv_op : list bt_mesh_model_op :=
  [mkOp (OP80 8) 1 (Cfg Dev_comp_data_get); mkOp 0 19 (Cfg App_key_add); mkOp 1 19 (Cfg App_key_update); mkOp (OP80 0) 3 (Cfg App_key_del);
   mkOp (OP80 1) 2 (Cfg App_key_get); mkOp (OP80 9) 0 (Cfg Beacon_get); mkOp (OP80 10) 1 (Cfg Beacon_set); mkOp (OP80 12) 0 (Cfg Default_ttl_get);
   mkOp (OP80 13) 1 (Cfg Default_ttl_set); mkOp (OP80 18) 0 (Cfg Gatt_proxy_get); mkOp (OP80 19) 1 (Cfg Gatt_proxy_set);
   mkOp (OP80 35) 0 (Cfg Net_transmit_get); mkOp (OP80 36) 1 (Cfg Net_transmit_set); mkOp (OP80 38) 0 (Cfg Relay_get); mkOp (OP80 39) 2 (Cfg Relay_set);
   mkOp (OP80 24) 4 (Cfg Mod_pub_get); mkOp 3 11 (Cfg Mod_pub_set); mkOp (OP80 26) 24 (Cfg Mod_pub_va_set); mkOp (OP80 27) 6 (Cfg Mod_sub_add);
   mkOp (OP80 32) 20 (Cfg Mod_sub_va_add); mkOp (OP80 28) 6 (Cfg Mod_sub_del); mkOp (OP80 33) 20 (Cfg Mod_sub_va_del);
   mkOp (OP80 30) 6 (Cfg Mod_sub_overwrite); mkOp (OP80 34) 20 (Cfg Mod_sub_va_overwrite); mkOp (OP80 29) 4 (Cfg Mod_sub_del_all);
   mkOp (OP80 41) 4 (Cfg Mod_sub_get); mkOp (OP80 43) 6 (Cfg Mod_sub_get_vnd); mkOp (OP80 64) 18 (Cfg Net_key_add); mkOp (OP80 69) 18 (Cfg Net_key_update);
   mkOp (OP80 65) 2 (Cfg Net_key_del); mkOp (OP80 66) 0 (Cfg Net_key_get); mkOp (OP80 70) 2 (Cfg Node_identity_get); mkOp (OP80 71) 3 (Cfg Node_identity_set);
   mkOp (OP80 61) 6 (Cfg Mod_app_bind); mkOp (OP80 63) 6 (Cfg Mod_app_unbind); mkOp (OP80 75) 4 (Cfg Mod_app_get); mkOp (OP80 77) 6 (Cfg Mod_app_get);
   mkOp (OP80 73) 0 (Cfg Node_reset); mkOp (OP80 15) 0 (Cfg Friend_get); mkOp (OP80 16) 1 (Cfg Friend_set); mkOp (OP80 45) 2 (Cfg Lpn_timeout_get);
   mkOp (OP80 21) 2 (Cfg Krp_get); mkOp (OP80 22) 3 (Cfg Krp_set); mkOp (OP80 56) 0 (Cfg Heartbeat_pub_get); mkOp (OP80 57) 9 (Cfg Heartbeat_pub_set);
   mkOp (OP80 58) 0 (Cfg Heartbeat_sub_get); mkOp (OP80 59) 5 (Cfg Heartbeat_sub_set)].

Definition cfg_call (h : cfg_handler) : mref → bt_mesh_msg_ctx → list Z → node → option node :=
  match h with
  | Dev_comp_data_get => dev_comp_data_get | App_key_add => app_key_add | App_key_update => app_key_update | App_key_del => app_key_del | App_key_get => app_key_get
  | Beacon_get => beacon_get | Beacon_set => beacon_set | Default_ttl_get => default_ttl_get | Default_ttl_set => default_ttl_set
  | Gatt_proxy_get => gatt_proxy_get | Gatt_proxy_set => gatt_proxy_set | Net_transmit_get => net_transmit_get | Net_transmit_set => net_transmit_set
  | Relay_get => relay_get | Relay_set => relay_set | Mod_pub_get => mod_pub_get | Mod_pub_set => mod_pub_set | Mod_pub_va_set => mod_pub_va_set
  | Mod_sub_add => mod_sub_add | Mod_sub_va_add => mod_sub_va_add | Mod_sub_del => mod_sub_del | Mod_sub_va_del => mod_sub_va_del
  | Mod_sub_overwrite => mod_sub_overwrite | Mod_sub_va_overwrite => mod_sub_va_overwrite | Mod_sub_del_all => mod_sub_del_all
  | Mod_sub_get => mod_sub_get | Mod_sub_get_vnd => mod_sub_get_vnd | Net_key_add => net_key_add | Net_key_update => net_key_update
  | Net_key_del => net_key_del | Net_key_get => net_key_get | Node_identity_get => node_identity_get | Node_identity_set => node_identity_set
  | Mod_app_bind => mod_app_bind | Mod_app_unbind => mod_app_unbind | Mod_app_get => mod_app_get | Node_reset => node_reset
  | Friend_get => friend_get | Friend_set => friend_set | Lpn_timeout_get => lpn_timeout_get | Krp_get => krp_get | Krp_set => krp_set
  | Heartbeat_pub_get => heartbeat_pub_get | Heartbeat_pub_set => heartbeat_pub_set | Heartbeat_sub_get => heartbeat_sub_get | Heartbeat_sub_set => heartbeat_sub_set
  end.

(** A message for a handler of another model is noted. *)
Definition call (h : handler) (r : mref) (ctx : bt_mesh_msg_ctx) (buf : list Z) (s : node) : option node :=
  match h with Cfg h => cfg_call h r ctx buf s | Model n => Some (note (NCall r n ctx buf) s) end.

(** A message from the transport layer. *)
Definition node_recv : bt_mesh_msg_ctx → Z → list Z → node → option node := bt_mesh_model_recv call.
