(* ===== verification/AccessProps.v ===== *)
(** * AccessProps: what the access layer guarantees

    Opcodes are read as they were written; the transport layer's view of the elements is
    that of this layer; a received message is dispatched to exactly the models it
    concerns; a message goes from a model of one node to a model of another. *)
From Stdlib Require Import ZArith Lia List Bool.
From stdpp Require Import base list numbers option.
From S2P Require Import Prelude Env Aes Cmac MeshCrypto MeshCryptoProps MeshNet MeshNetProps MeshTrans MeshRecv MeshRecvProps MeshEnd Access CfgSrv.
Local Open Scope Z_scope.

(** ** Opcodes *)

(** One byte but 0x7f; two bytes from 0x80 to 0xbf; three bytes from 0xc0 on. *)
Definition valid_opcode (op : Z) : Prop := (0 <= op < 127) \/ (32768 <= op < 49152) \/ (12582912 <= op < 16777216).

Lemma shiftr6 b : Z.shiftr b 6 = b / 64.
Proof. by rewrite Z.shiftr_div_pow2 by lia. Qed.

Lemma opcode_read op payload : valid_opcode op → get_opcode (bt_mesh_model_msg_init op ++ payload) = Some (op, payload).
Proof.
  intros [H|[H|H]]; unfold bt_mesh_model_msg_init.
  - rewrite (proj2 (Z.ltb_lt op 256)) by lia. rewrite u8_small by lia. cbn [app get_opcode]. rewrite shiftr6.
    assert (op / 64 = 0 \/ op / 64 = 1) as [-> | ->] by (enough (0 <= op / 64 < 2) by lia; dlia); cbn [Z.eqb orb]; rewrite (proj2 (Z.eqb_neq op 127)) by lia; done.
  - rewrite (proj2 (Z.ltb_ge op 256)), (proj2 (Z.ltb_lt op 65536)) by lia. unfold be16. rewrite !land_255, Z.shiftr_div_pow2 by lia. change (2 ^ 8) with 256.
    cbn [app get_opcode]. rewrite shiftr6. replace (op / 256 mod 256 / 64) with 2 by dlia. cbn [Z.eqb orb].
    rewrite get_be16_spec by dlia. do 2 f_equal. dlia.
  - rewrite (proj2 (Z.ltb_ge op 256)), (proj2 (Z.ltb_ge op 65536)) by lia. unfold le16.
    replace (Z.land op 65535) with (op mod 65536) by (symmetry; apply (Z.land_ones op 16); lia). rewrite !land_255, !Z.shiftr_div_pow2 by lia. change (2 ^ 8) with 256. change (2 ^ 16) with 65536.
    cbn [app get_opcode]. rewrite shiftr6. replace (op / 65536 mod 256 / 64) with 3 by dlia. cbn [Z.eqb orb].
    rewrite get_le16_spec by dlia. rewrite Z.lor_comm, lor_shiftl by (change (2 ^ 16) with 65536; dlia). change (2 ^ 16) with 65536. do 2 f_equal. dlia.
Qed.

(** ** What the transport layer sees of the elements *)

Lemma index_of_is_Some a l i : is_Some (index_of a l i) ↔ a ∈ l.
Proof.
  revert i. induction l as [|x l IH]; intros i; cbn [index_of].
  - split; [by intros [? ?] | by intros ?%elem_of_nil].
  - rewrite elem_of_cons. destruct (Z.eqb_spec x a) as [->|]; [split; [by left|eauto]|]. rewrite IH. naive_solver.
Qed.

Lemma has_group_spec e a m : has_group e a m = true ↔ a ∈ m_groups m ++ [e_group e] \/ a = BT_MESH_ADDR_GENIE_ALL_NODES.
Proof.
  unfold has_group, bt_mesh_model_find_group. rewrite elem_of_app, list_elem_of_singleton, <- (index_of_is_Some a (m_groups m) 0).
  destruct (index_of a (m_groups m) 0) as [i|]; [split; eauto|]. rewrite is_Some_alt.
  destruct (Z.eqb_spec a (e_group e)); cbn [orb]; [naive_solver|]. destruct (Z.eqb_spec a BT_MESH_ADDR_GENIE_ALL_NODES); naive_solver.
Qed.

Lemma elem_find_group_spec e a : bt_mesh_elem_find_group e a = true ↔ a ∈ elem_groups e \/ (a = BT_MESH_ADDR_GENIE_ALL_NODES /\ e_models e ++ e_vnd e ≠ []).
Proof.
  unfold bt_mesh_elem_find_group, elem_groups. rewrite <- existsb_app, existsb_exists, list_elem_of_In, in_concat. setoid_rewrite has_group_spec. setoid_rewrite in_map_iff. split.
  - intros (m & Hm & [H|H]); [left; eexists; split; [by exists m|]; by apply list_elem_of_In | right; split; [done|]; intros E; by rewrite E in Hm].
  - intros [(g & (m & <- & Hm) & Hg) | [-> H]]; [exists m; split; [done|]; left; by apply list_elem_of_In|].
    destruct (e_models e ++ e_vnd e) as [|m l]; [done|]. exists m. split; [by left | by right].
Qed.

Lemma elem_search_Some a c i : (match elem_search a c i with Some _ => true | None => false end) = existsb (elem_matches a) c.
Proof. revert i. induction c as [|e c IH]; intros i; cbn [elem_search existsb]; [done|]. by destruct (elem_matches a e). Qed.

(** Does the device have a model at all? *)
Definition has_model (s : node) : Prop := exists e, e ∈ comp s /\ e_models e ++ e_vnd e ≠ [].

Lemma elem_find_agrees a s : has_model s → elem_find a (net_view s) = match elem_find_in a (comp s) with Some _ => true | None => false end.
Proof.
  intros (e0 & He0 & Hm0). unfold elem_find_in. rewrite elem_search_Some. unfold elem_find, elem_matches.
  destruct (BT_MESH_ADDR_IS_GROUP a || BT_MESH_ADDR_IS_VIRTUAL a).
  - cbn [net_view tc groups]. apply eq_true_iff_eq. rewrite orb_true_iff, !existsb_exists. setoid_rewrite elem_find_group_spec. split.
    + intros [(x & Hx & E%Z.eqb_eq)|E%Z.eqb_eq].
      * subst x. apply in_concat in Hx as (l & (e & <- & He)%in_map_iff & Hl). exists e. split; [done|]. left. by apply list_elem_of_In.
      * subst a. exists e0. split; [by apply list_elem_of_In | by right].
    + intros (e & He & [H|[-> _]]); [left | right; apply Z.eqb_refl]. exists a. rewrite Z.eqb_refl. split; [|done].
      apply in_concat. exists (elem_groups e). split; [apply in_map_iff; eauto | by apply list_elem_of_In].
  - unfold bt_mesh_elem_find. cbn [net_view tn elems]. clear. induction (comp s) as [|e c IH]; [done|]. cbn [map existsb]. by rewrite IH, Z.eqb_sym.
Qed.

(** ** Dispatch *)

(** The same node with more in its log. *)
Definition notes (l : list nevent) (s : node) : node :=
  mkNode (nt s) (comp s) (dev_ids s) (conf s) (g_sub_list s) (subx s) (n_provisioned s) (dev_primary_addr s) (stored s) (hw_reset s) (relay_built s) (nlog s ++ l).
Lemma notes_nil s : notes [] s = s.
Proof. unfold notes. rewrite app_nil_r. by destruct s. Qed.
Lemma notes_note e l s : notes l (note e s) = notes (e :: l) s.
Proof. unfold notes, note. cbn. by rewrite <- app_assoc. Qed.

(** The model of element [i] that handles a message, and its handler. *)
Definition recipient (opcode dst app_idx len : Z) (s : node) (i : nat) : option (mref * handler) :=
  e ← comp s !! i;
  if elem_addressed i e dst s then
    '(j, op) ← find_op (models_of (negb (opcode <? 65536)) e) 0 app_idx opcode;
    if len <? op_min_len op then None else Some (mkRef i (negb (opcode <? 65536)) j, op_func op)
  else None.

Lemma recv_elem_spec opcode dst ctx buf i s : recv_elem call opcode dst ctx buf i s =
  match recipient opcode dst (app_idx ctx) (Z.of_nat (length buf)) s i with Some (r, h) => call h r ctx buf s | None => Some s end.
Proof.
  unfold recv_elem, recipient. destruct (comp s !! i) as [e|]; cbn; [|done]. destruct (elem_addressed i e dst s); cbn; [|done].
  destruct (find_op _ 0 _ _) as [[j op]|]; cbn; [|done]. by destruct (_ <? _).
Qed.

Lemma recipient_notes opcode dst k len l s i : recipient opcode dst k len (notes l s) i = recipient opcode dst k len s i.
Proof. done. Qed.

(** The calls of application handlers that a message leads to. *)
Definition calls_from (opcode dst : Z) (ctx : bt_mesh_msg_ctx) (buf : list Z) (s : node) (k i : nat) : list nevent :=
  omap (λ i, match recipient opcode dst (app_idx ctx) (Z.of_nat (length buf)) s i with Some (r, Model n) => Some (NCall r n ctx buf) | _ => None end) (seq i k).

Lemma recv_elems_calls opcode dst ctx buf s k i l : (forall j r h, recipient opcode dst (app_idx ctx) (Z.of_nat (length buf)) s j = Some (r, h) → exists n, h = Model n) →
  recv_elems call opcode dst ctx buf k i (notes l s) = Some (notes (l ++ calls_from opcode dst ctx buf s k i) s).
Proof.
  intros H. revert i l. induction k as [|k IH]; intros i l; cbn [recv_elems calls_from seq omap]; [by rewrite app_nil_r|].
  rewrite recv_elem_spec, recipient_notes. unfold calls_from in *. cbn [seq]. destruct (recipient _ _ _ _ s i) as [[r h]|] eqn:E; cbn [mbind option_bind omap list_omap].
  - destruct (H i r h E) as [n ->]. cbn [call]. cbn [mbind option_bind]. change (note (NCall r n ctx buf) (notes l s)) with (notes [NCall r n ctx buf] (notes l s)).
    replace (notes [NCall r n ctx buf] (notes l s)) with (notes (l ++ [NCall r n ctx buf]) s) by (unfold notes; cbn; by rewrite app_assoc).
    rewrite IH. rewrite <- app_assoc. rewrite E. done.
  - rewrite IH. by rewrite E.
Qed.

(** Model [r], of element [e], takes opcode [op] with key [k]: the entry of its table. *)
Definition takes (m : bt_mesh_model) (k op : Z) (o : bt_mesh_model_op) : Prop := model_has_key m k = true /\ find (λ o, op_code o =? op) (m_op m) = Some o.

Lemma find_op_spec ms i k op j o : find_op ms i k op = Some (j, o) ↔
  exists n m, j = (i + n)%nat /\ ms !! n = Some m /\ takes m k op o /\ forall n' m', (n' < n)%nat → ms !! n' = Some m' → ~ exists o, takes m' k op o.
Proof.
  revert i. induction ms as [|m ms IH]; intros i; cbn [find_op].
  - split; [done|]. intros (n & m & _ & H & _). by destruct n.
  - assert ((~ exists x, takes m k op x) → (find_op ms (S i) k op = Some (j, o) ↔ exists n m0, j = (i + n)%nat /\ (m :: ms) !! n = Some m0 /\ takes m0 k op o /\ forall n' m', (n' < n)%nat → (m :: ms) !! n' = Some m' → ~ exists o, takes m' k op o)) as Skip.
    { intros Hn. rewrite IH. split.
      - intros (n & m0 & -> & L & Tk & F). exists (S n), m0. split_and!; [lia | done | done |]. intros [|n'] m' Hlt L'; [injection L' as <-; done|]. apply (F n'); [lia|done].
      - intros (n & m0 & -> & L & Tk & F). destruct n as [|n]; [injection L as ->; exfalso; eauto|]. exists n, m0. split_and!; [lia|done|done|]. intros n' m' Hlt L'. apply (F (S n')); [lia|done]. }
    destruct (model_has_key m k) eqn:K; cbn [negb]; [|apply Skip; intros (x & [? _]); congruence].
    destruct (find _ (m_op m)) as [x|] eqn:Fx; [|apply Skip; intros (y & [_ ?]); congruence]. split.
    + intros [= <- <-]. exists 0%nat, m. split_and!; [lia|done|done|]. intros n' m' Hlt. lia.
    + intros (n & m0 & -> & L & [T1 T2] & F). destruct n as [|n]; [injection L as <-; rewrite Fx in T2; injection T2 as ->; do 2 f_equal; lia|].
      exfalso. apply (F 0%nat m ltac:(lia) eq_refl). exists x. by split.
Qed.

(** Who gets a message with opcode [op] for [dst]: the first model of every addressed
    element that takes it; for a vendor opcode a vendor model. *)
Definition concerned (op dst : Z) (ctx : bt_mesh_msg_ctx) (len : Z) (s : node) (r : mref) (h : handler) : Prop :=
  exists e m o, comp s !! r_elem r = Some e /\ elem_addressed (r_elem r) e dst s = true /\ r_vnd r = negb (op <? 65536) /\
  models_of (r_vnd r) e !! r_model r = Some m /\ takes m (app_idx ctx) op o /\ op_min_len o <= len /\ op_func o = h /\
  forall j m', (j < r_model r)%nat → models_of (r_vnd r) e !! j = Some m' → ~ exists o, takes m' (app_idx ctx) op o.

Lemma recipient_concerned op dst ctx len s i r h : recipient op dst (app_idx ctx) len s i = Some (r, h) ↔ r_elem r = i /\ concerned op dst ctx len s r h.
Proof.
  unfold recipient, concerned. destruct (comp s !! i) as [e|] eqn:E; cbn [mbind option_bind].
  2: { split; [done|]. intros [<- (e & m & o & H & _)]. congruence. }
  destruct (elem_addressed i e dst s) eqn:A.
  2: { split; [done|]. intros [<- (e' & m & o & H & H' & _)]. congruence. }
  destruct (find_op _ 0 _ op) as [[j o]|] eqn:F; cbn [mbind option_bind].
  - pose proof (proj1 (find_op_spec _ _ _ _ _ _) F) as (n & m & -> & L & T & B). destruct (Z.ltb_spec len (op_min_len o)); (split; [|]).
    + done.
    + intros [<- (e' & m' & o' & H1 & _ & H2 & H3 & H4 & H5 & _ & H6)]. rewrite E in H1. injection H1 as <-. rewrite H2 in *.
      assert (find_op (models_of (negb (op <? 65536)) e) 0 (app_idx ctx) op = Some (r_model r, o')) as F' by (apply find_op_spec; exists (r_model r), m'; done). rewrite F in F'. injection F' as _ <-. lia.
    + intros [= <- <-]. split; [done|]. exists e, m, o. cbn [r_elem r_vnd r_model]. done.
    + intros [<- (e' & m' & o' & H1 & _ & H2 & H3 & H4 & H5 & <- & H6)]. rewrite E in H1. injection H1 as <-. rewrite H2 in *.
      assert (find_op (models_of (negb (op <? 65536)) e) 0 (app_idx ctx) op = Some (r_model r, o')) as F' by (apply find_op_spec; exists (r_model r), m'; done). rewrite F in F'. injection F' as E1 <-.
      destruct r as [a b c]; cbn in *. subst. done.
  - split; [done|]. intros [<- (e' & m' & o' & H1 & _ & H2 & H3 & H4 & H5 & _ & H6)]. rewrite E in H1. injection H1 as <-. rewrite H2 in *.
    assert (find_op (models_of (negb (op <? 65536)) e) 0 (app_idx ctx) op = Some (r_model r, o')) as F' by (apply find_op_spec; exists (r_model r), m'; done). congruence.
Qed.

Lemma elem_of_calls opcode dst ctx buf s k i x : x ∈ calls_from opcode dst ctx buf s k i ↔
  exists r n, x = NCall r n ctx buf /\ (i <= r_elem r < i + k)%nat /\ concerned opcode dst ctx (Z.of_nat (length buf)) s r (Model n).
Proof.
  unfold calls_from. rewrite list_elem_of_omap. split.
  - intros (j & Hj%elem_of_seq & H). destruct (recipient _ _ _ _ s j) as [[r [h|n]]|] eqn:E; try done. injection H as <-.
    apply recipient_concerned in E as [<- C]. exists r, n. done.
  - intros (r & n & -> & Hr & C). exists (r_elem r). split; [by apply elem_of_seq|]. by rewrite (proj2 (recipient_concerned _ _ _ _ _ _ r (Model n)) (conj eq_refl C)).
Qed.

Lemma calls_NoDup opcode dst ctx buf s k i : NoDup (calls_from opcode dst ctx buf s k i).
Proof.
  revert i. induction k as [|k IH]; intros i; [constructor|]. unfold calls_from in *. cbn [seq omap list_omap]. specialize (IH (S i)).
  destruct (recipient _ _ _ _ s i) as [[r [h|n]]|] eqn:E; try done. constructor; [|done]. intros H.
  apply (elem_of_calls opcode dst ctx buf s k (S i)) in H as (r' & n' & [= <- <-] & H & _). apply recipient_concerned in E as [E _]. lia.
Qed.

(** Whom a message concerns. *)
Lemma concerned_elem op dst ctx len s r h : concerned op dst ctx len s r h → (r_elem r < length (comp s))%nat.
Proof. intros (e & _ & _ & H & _). by apply lookup_lt_Some in H. Qed.

Lemma recv_calls op dst ctx payload s : valid_opcode op → (forall r h, concerned op dst ctx (Z.of_nat (length payload)) s r h → exists n, h = Model n) →
  node_recv ctx dst (bt_mesh_model_msg_init op ++ payload) s = Some (notes (calls_from op dst ctx payload s (length (comp s)) 0) s).
Proof.
  intros Hop H. unfold node_recv, bt_mesh_model_recv. rewrite opcode_read by done. rewrite <- (notes_nil s) at 2. rewrite recv_elems_calls; [done|].
  intros j r h [_ C]%recipient_concerned. eauto.
Qed.

(** [C24] A received message is dispatched to exactly the models it concerns: if only application models are concerned, each concerned model is called, once, with the message without its opcode, and no other; nothing else changes.  Concerned is, of every element the destination address addresses, the first model that is bound to the application key and has the opcode, if the message has the opcode's minimum length. *)
Theorem dispatch_exact op dst ctx payload s : valid_opcode op → (forall r h, concerned op dst ctx (Z.of_nat (length payload)) s r h → exists n, h = Model n) →
  exists calls, node_recv ctx dst (bt_mesh_model_msg_init op ++ payload) s = Some (notes calls s) /\ NoDup calls /\
  forall x, x ∈ calls ↔ exists r n, x = NCall r n ctx payload /\ concerned op dst ctx (Z.of_nat (length payload)) s r (Model n).
Proof.
  intros Hop H. eexists. split; [by apply recv_calls|]. split; [apply calls_NoDup|]. intros x. rewrite elem_of_calls. split.
  - intros (r & n & -> & _ & C). eauto.
  - intros (r & n & -> & C). pose proof (concerned_elem _ _ _ _ _ _ _ C). exists r, n. split_and!; [done|lia|lia|done].
Qed.

(** ** From model to model *)

#[local] Opaque aes bt_mesh_net_encrypt bt_mesh_net_decrypt bt_mesh_net_obfuscate bt_mesh_app_encrypt bt_mesh_app_decrypt bt_mesh_trans_send.

Lemma singleton_list {A} (l : list A) x : NoDup l → (forall y, y ∈ l ↔ y = x) → l = [x].
Proof.
  intros N H. apply Permutation_singleton_r. apply NoDup_Permutation; [done | apply NoDup_singleton |]. intros y. by rewrite H, list_elem_of_singleton.
Qed.

Lemma concerned_fun op dst ctx len s r h r' h' : concerned op dst ctx len s r h → concerned op dst ctx len s r' h' → r_elem r = r_elem r' → r = r' /\ h = h'.
Proof.
  intros C C' E. pose proof (proj2 (recipient_concerned op dst ctx len s (r_elem r) r h) (conj eq_refl C)) as R.
  pose proof (proj2 (recipient_concerned op dst ctx len s (r_elem r') r' h') (conj eq_refl C')) as R'. rewrite E in R. rewrite R in R'. by injection R' as -> ->.
Qed.

(** A unicast message has one recipient. *)
Lemma unicast_sole op dst ctx len s r h r' h' : BT_MESH_ADDR_IS_UNICAST dst = true → NoDup (map e_addr (comp s)) →
  concerned op dst ctx len s r h → concerned op dst ctx len s r' h' → r = r' /\ h = h'.
Proof.
  intros Hu N C C'. eapply concerned_fun; [done..|]. destruct C as (e & m & o & L & A & _), C' as (e' & m' & o' & L' & A' & _).
  unfold elem_addressed in A, A'. rewrite Hu in A, A'. apply Z.eqb_eq in A, A'. apply (NoDup_lookup _ _ _ dst N); rewrite list_lookup_fmap; [rewrite L | rewrite L']; cbn; congruence.
Qed.

Lemma unicast_call op dst ctx payload s r n : valid_opcode op → BT_MESH_ADDR_IS_UNICAST dst = true → NoDup (map e_addr (comp s)) →
  concerned op dst ctx (Z.of_nat (length payload)) s r (Model n) →
  node_recv ctx dst (bt_mesh_model_msg_init op ++ payload) s = Some (notes [NCall r n ctx payload] s).
Proof.
  intros Hop Hu N C. rewrite recv_calls; [|done|].
  - do 2 f_equal. apply singleton_list; [apply calls_NoDup|]. intros y. rewrite elem_of_calls. split.
    + intros (r' & n' & -> & _ & C'). destruct (unicast_sole _ _ _ _ _ _ _ _ _ Hu N C C') as [-> [= ->]]. done.
    + intros ->. exists r, n. pose proof (concerned_elem _ _ _ _ _ _ _ C). split_and!; [done|lia|lia|done].
  - intros r' h' C'. destruct (unicast_sole _ _ _ _ _ _ _ _ _ Hu N C C') as [_ <-]. eauto.
Qed.

(** A node that has heard a PDU. *)
Definition heard (data : list Z) (s : node) : node := with_nt (bt_mesh_net_recv data BT_MESH_NET_IF_ADV (net_view s)) s.

Lemma concerned_with_nt op dst ctx len t s r h : BT_MESH_ADDR_IS_UNICAST dst = true → concerned op dst ctx len s r h → concerned op dst ctx len (with_nt t s) r h.
Proof. intros Hu (e & m & o & L & A & H). exists e, m, o. split_and!; try apply H; [done|]. unfold elem_addressed in *. by rewrite Hu in *. Qed.

(** What model [r] sends with context [ctx] on subnet [i]. *)
Definition sends (r : mref) (ctx : bt_mesh_msg_ctx) (i : nat) (s : node) : msg_tx := mkMsgTx i (app_idx ctx) (addr ctx) (send_ttl ctx) (elem_addr r s) false 0 0.

(** A model that may send with the context: the node is provisioned, the model is bound
    to the key, the subnet is there. *)
Record may_send (r : mref) (ctx : bt_mesh_msg_ctx) (i : nat) (s : node) : Prop := {
  ms_prov : n_provisioned s = true; ms_model : exists m, model_at r (comp s) = Some m /\ model_has_key m (app_idx ctx) = true;
  ms_sub : subnet_num (net_idx ctx) s = Some i; ms_rel : send_rel ctx = 0 }.

Lemma model_send_passes r ctx i msg room cb s err t : may_send r ctx i s → Z.of_nat (length msg) <= BT_MESH_TX_SDU_MAX - 4 → 4 <= room →
  bt_mesh_trans_send (sends r ctx i s) msg room cb (net_view s) = (err, t) →
  bt_mesh_model_send r ctx msg room cb s = (err, note (NSend ctx msg err) (with_nt t s)).
Proof.
  intros [Hp (m & Hm & Hk) Hs Hr] Hl Hroom E. unfold bt_mesh_model_send, model_send. rewrite Hs, Hm, Hp, Hr. cbn [negb mt_app_idx]. rewrite (proj2 (Z.ltb_ge _ _) Hroom), (proj2 (Z.ltb_ge _ _) Hl), Hk. cbn [negb andb].
  change (truthy 0) with false. unfold on_trans. fold (sends r ctx i s). by rewrite E.
Qed.

(** [C20] An unsegmented message goes from a model of one node to the model of another: what a model sends with [bt_mesh_model_send] (opcode and payload of together at most 11 bytes, to a unicast address, with an application key it is bound to and a TTL it names, other than 1; no proxy client takes the address, a buffer is free and no other PDU is queued) leaves as one advertising PDU, and the node with that address and the keys, which has not seen the PDU (the conditions of [hears]) and has no replay entry against it, calls the handler of exactly the model it concerns, once, with the payload.  Longer messages are segmented, see [segmented_delivery] and its conditions. *)
Theorem model_end_to_end r ctx op payload room cb a i sub key aid bf pre sub2 k b r2 n : let msg := bt_mesh_model_msg_init op ++ payload in let tx := sends r ctx i a in
  let k1 := keys_of (kr_flag sub) sub in let iv := IVI_TX (tn (nt a)) in let pdu := unseg_pdu tx sub key aid msg (net_view a) in let data := secured (mic0 (tc (nt a))) k1 iv pdu in
  let ctx2 := mkCtx (sub_net_idx sub2) (ak_app_idx k) (elem_addr r a) BT_MESH_TTL_DEFAULT 0 in
  may_send r ctx i a → valid_opcode op → (length msg <= 11)%nat → 4 <= room →
  can_send tx sub key aid bf (net_view a) → 0 <= k_nid k1 < 128 → 0 <= seq_num (tn (nt a)) < 2 ^ 24 → tx_ok (mkTx false (elem_addr r a) (addr ctx) (send_ttl ctx)) → addr ctx < 32768 →
  hears k1 iv pdu data pre sub2 (tn (net_view b)) → has_key false (sub_net_idx sub2) aid key k (net_view b) →
  (forall rx, rx_src rx = elem_addr r a → rx_seq rx = seq_num (tn (nt a)) → fst (is_replay rx (net_view b)) = false) →
  NoDup (map e_addr (comp b)) → concerned op (addr ctx) ctx2 (Z.of_nat (length payload)) b r2 (Model n) →
  exists a', bt_mesh_model_send r ctx msg room cb a = (0, a') /\ fst (adv_thread (nt a')) = Some data /\
  deliveries (nt (heard data b)) = deliveries (nt b) ++ [EvModel (ak_app_idx k) (elem_addr r a) (addr ctx) (send_ttl ctx) msg] /\
  node_recv ctx2 (addr ctx) msg (heard data b) = Some (notes [NCall r2 n ctx2 payload] (heard data b)).
Proof.
  intros msg tx k1 iv pdu data ctx2 Hms Hop Hl Hroom Hcs Hnid Hseq Hx Hd Hh Hkey Hrp Hnd Hc.
  assert (1 <= length msg)%nat as Hl1 by (unfold msg; rewrite length_app; unfold bt_mesh_model_msg_init; destruct (_ <? _); [cbn; lia|]; destruct (_ <? _); cbn; lia).
  pose proof (tx_dst_ok _ Hx) as Hd1. cbn [tx_dst] in Hd1. assert (BT_MESH_ADDR_IS_UNICAST (addr ctx) = true) as Hu by (unfold BT_MESH_ADDR_IS_UNICAST, truthy; zcases; (done || lia)).
  assert (bt_mesh_elem_find (addr ctx) (tn (net_view b)) = true) as He.
  { destruct Hc as (e & m & o & L & A & _). unfold elem_addressed in A. rewrite Hu in A. unfold bt_mesh_elem_find. apply existsb_exists. exists (e_addr e). rewrite Z.eqb_sym. split; [|done].
    cbn. apply in_map, list_elem_of_In. by apply list_elem_of_lookup_2 in L. }
  destruct (unsegmented_end_to_end tx sub key aid bf msg room cb (net_view a) pre sub2 k (net_view b) Hcs eq_refl ltac:(lia) Hroom Hnid Hseq Hx Hd Hh He Hkey Hrp) as (t & E1 & E2 & E3).
  exists (note (NSend ctx msg 0) (with_nt t a)). split; [apply (model_send_passes r ctx i msg room cb a 0 t Hms); [|done|done]; unfold BT_MESH_TX_SDU_MAX, BT_MESH_TX_SEG_COUNT; lia|].
  split; [exact E2|]. split; [exact E3|]. apply unicast_call; [done|done|done|]. by apply concerned_with_nt.
Qed.

(** ** A light *)

(** The models of the light example: configuration server, generic on/off server, vendor
    server, bound to application key 0.  [g] are the groups of the vendor server. *)
Definition onoff_pub : bt_mesh_model_pub := mkPub 0 0 0 0 0 0 0 0 0 [] false None.
Definition onoff_model (g : list Z) : bt_mesh_model := mkModel 0 4096 (Some onoff_pub) [0; BT_MESH_KEY_UNUSED] g [mkOp 33281 0 (Model 1); mkOp 33282 2 (Model 2)].
Definition vendor_model (g : list Z) : bt_mesh_model := mkModel 424 0 None [0; BT_MESH_KEY_UNUSED] g [mkOp 13894056 3 (Model 3)].
Definition cfg_model (g : list Z) : bt_mesh_model := mkModel 0 0 None [BT_MESH_KEY_DEV; BT_MESH_KEY_UNUSED] g bt_mesh_cfg_srv_op.
Definition light_elem (a : Z) (g : list Z) : bt_mesh_elem := mkElem a 49152 0 [cfg_model (repeat 0 8); onoff_model (repeat 0 8)] [vendor_model g].
Definition light_conf : bt_mesh_cfg_srv := mkCfgSrv 13 1 13 1 1 2 7 (mkHbPub 0 0 0 0 0 0 None) (mkHbSub 0 0 0 0 0 0).
Definition light (a seq : Z) (g : list Z) : node :=
  mkNode (mesh_node a seq) [light_elem a g] (424, 1, 1) light_conf (repeat 0 8) [(0, zeros 8)] true a (repeat 0 8, []) false true [].

(** A group message reaches models that are not in the group: an element is addressed when any of its models is subscribed, and the message is then given to the first model with the opcode.  The on/off server of a light is in no group, the vendor server in 0xC123: an on/off message to 0xC123 is handled by the on/off server; it is not when the vendor server is in no group either. *)
Theorem group_reaches_unsubscribed : let on_off := bt_mesh_model_msg_init 33282 ++ [1; 7] in let ctx := mkCtx 0 0 1 BT_MESH_TTL_DEFAULT 0 in
  model_at (mkRef 0 false 1) (comp (light 2 100 (49443 :: repeat 0 7))) = Some (onoff_model (repeat 0 8)) /\
  nlog <$> node_recv ctx 49443 on_off (light 2 100 (49443 :: repeat 0 7)) = Some [NCall (mkRef 0 false 1) 2 ctx [1; 7]] /\
  nlog <$> node_recv ctx 49443 on_off (light 2 100 (repeat 0 8)) = Some [].
Proof. vm_compute. split_and!; reflexivity. Qed.

(** ** Witnesses *)

Lemma light_concerned : let ctx := mkCtx 0 0 1 BT_MESH_TTL_DEFAULT 0 in forall r h, concerned 33282 2 ctx 2 (light 2 100 (repeat 0 8)) r h ↔ r = mkRef 0 false 1 /\ h = Model 2.
Proof.
  intros ctx r h. split.
  - intros C. pose proof (concerned_elem _ _ _ _ _ _ _ C) as Hl. cbn in Hl. apply (concerned_fun _ _ _ _ _ _ _ (mkRef 0 false 1) (Model 2) C); [|cbn; lia].
    apply (recipient_concerned 33282 2 ctx 2 (light 2 100 (repeat 0 8)) 0). vm_compute. reflexivity.
  - intros [-> ->]. apply (recipient_concerned 33282 2 ctx 2 (light 2 100 (repeat 0 8)) 0). vm_compute. reflexivity.
Qed.

Lemma dispatch_exact_witness : let ctx := mkCtx 0 0 1 BT_MESH_TTL_DEFAULT 0 in let s := light 2 100 (repeat 0 8) in
  exists calls, node_recv ctx 2 (bt_mesh_model_msg_init 33282 ++ [1; 7]) s = Some (notes calls s) /\ NoDup calls /\
  forall x, x ∈ calls ↔ exists r n, x = NCall r n ctx [1; 7] /\ concerned 33282 2 ctx 2 s r (Model n).
Proof.
  intros ctx s. apply (dispatch_exact 33282 2 ctx [1; 7] s); [right; left; lia|]. intros r h C. apply light_concerned in C as [_ ->]. by exists 2.
Defined.

Lemma model_end_to_end_witness : let ctx := mkCtx 0 0 2 5 0 in let ctx2 := mkCtx 0 0 1 BT_MESH_TTL_DEFAULT 0 in
  exists data a', bt_mesh_model_send (mkRef 0 false 1) ctx (bt_mesh_model_msg_init 33282 ++ [1; 7]) 40 None (light 1 8000 (repeat 0 8)) = (0, a') /\ fst (adv_thread (nt a')) = Some data /\
  deliveries (nt (heard data (light 2 100 (repeat 0 8)))) = [EvModel 0 1 2 5 (bt_mesh_model_msg_init 33282 ++ [1; 7])] /\
  node_recv ctx2 2 (bt_mesh_model_msg_init 33282 ++ [1; 7]) (heard data (light 2 100 (repeat 0 8))) = Some (notes [NCall (mkRef 0 false 1) 2 ctx2 [1; 7]] (heard data (light 2 100 (repeat 0 8)))).
Proof.
  intros ctx ctx2. eexists. apply (model_end_to_end (mkRef 0 false 1) ctx 33282 [1; 7] 40 None (light 1 8000 (repeat 0 8)) 0 sample_sub (zeros 16) 38 0 [] sample_sub sample_app (light 2 100 (repeat 0 8)) (mkRef 0 false 1) 2);
    try reflexivity; try (cbn; lia).
  - split; try reflexivity. eexists. split; reflexivity.
  - right; left; lia.
  - split; try reflexivity; split; (discriminate || reflexivity).
  - split; cbn; (done || lia).
  - split; [vm_compute; reflexivity | | by exists [] | constructor | done | vm_compute; reflexivity | vm_compute; reflexivity]. split; [vm_compute; split; congruence | split; [vm_compute; split; congruence | left; reflexivity]].
  - split; [lia | reflexivity | reflexivity |]. exists [], []. split; [reflexivity | constructor].
  - cbn. apply NoDup_singleton.
  - by apply light_concerned.
Defined.
