(* ===== verification/CfgProps.v ===== *)
(** * CfgProps: the configuration server keeps its tables consistent

    Every key a model is bound to exists, every application key belongs to a subnet that
    exists, indices are unique, and key refresh phases are those of the procedure: an
    invariant of everything the configuration server does.  What the single handlers do
    is in CfgFacts. *)
From Stdlib Require Import ZArith Lia List Bool Morphisms RelationClasses.
From stdpp Require Import base list numbers option.
From S2P Require Import Prelude Env Aes Storage Lifecycle Cmac MeshCrypto MeshNet MeshNetProps MeshTrans MeshRecv MeshRecvProps MeshEnd Access CfgSrv AccessProps.
Local Open Scope Z_scope.

(** ** The transport layer leaves keys and settings alone *)

Definition same_cfg (s s' : trans) : Prop := tc s' = tc s /\ subs (tn s') = subs (tn s).
#[export] Instance same_cfg_preorder : PreOrder same_cfg.
Proof. split; [done | intros a b c [] []; split; congruence]. Qed.
Create HintDb frame.
Lemma sc_buf i f s : same_cfg s (on_buf i f s).
Proof. done. Qed.
Lemma sc_emit e s : same_cfg s (MeshTrans.emit e s).
Proof. done. Qed.
Lemma sc_tx i f s : same_cfg s (on_tx i f s).
Proof. done. Qed.
#[export] Hint Resolve sc_buf sc_emit sc_tx : frame.
(** The goal is [same_cfg s (f s)] for some last step [f]. *)
Ltac sc_then L := etransitivity; [|apply L].

Lemma sc_iv_update iv upd s : same_cfg s (snd (MeshTrans.bt_mesh_net_iv_update iv upd s)).
Proof.
  unfold MeshTrans.bt_mesh_net_iv_update. assert (forall iv upd s, same_cfg s (MeshTrans.iv_do_update iv upd s)) as D by (intros ? [] ?; done).
  cbv zeta. repeat match goal with |- context [if ?b then _ else _] => destruct b end; cbn [snd]; try apply D; try done; (etransitivity; [|apply D]; done).
Qed.

Lemma sc_release k i j s : same_cfg s (release_segs k i j s).
Proof.
  revert j s. induction k as [|k IH]; intros j s; [done|]. cbn [release_segs]. etransitivity; [|apply IH].
  destruct (txs s !! i) as [t|]; [|done]. by destruct (stx_seg t !! j) as [[b|]|].
Qed.

Lemma sc_seg_tx_reset i s : same_cfg s (seg_tx_reset i s).
Proof.
  unfold seg_tx_reset. destruct (txs s !! i) as [t|]; [|done]. destruct (stx_nack t =? 0); [done|]. set (s1 := release_segs _ _ _ _).
  assert (same_cfg s s1) as H by (unfold s1; etransitivity; [|apply sc_release]; done). destruct (pending_update _); [|exact H].
  pose proof (sc_iv_update (iv_index (tn (with_update false (last_update (on_tx i (set_nack 0) s1)) (on_tx i (set_nack 0) s1)))) false (with_update false (last_update (on_tx i (set_nack 0) s1)) (on_tx i (set_nack 0) s1))) as H2.
  destruct (MeshTrans.bt_mesh_net_iv_update _ _ _) as [d s2]. cbn [snd] in H2. etransitivity; [exact H|]. etransitivity; [|destruct d; [apply sc_emit | reflexivity]]. exact H2.
Qed.

Lemma sc_seg_tx_complete i err s : same_cfg s (seg_tx_complete i err s).
Proof. unfold seg_tx_complete. sc_then sc_seg_tx_reset. destruct (txs s !! i) as [t|]; [|done]. by destruct (stx_cb t). Qed.
Lemma sc_seg_sent i s : same_cfg s (seg_sent i s).
Proof. unfold seg_sent. destruct (txs s !! i); [|done]. destruct (negb _); [apply sc_seg_tx_complete | done]. Qed.
Lemma sc_cb_start cb err s : same_cfg s (cb_start cb err s).
Proof. destruct cb as [| |i|]; cbn; try done. destruct (txs s !! i) as [t|]; [|done]. by destruct (stx_cb t). Qed.
Lemma sc_cb_end cb err s : same_cfg s (cb_end cb err s).
Proof. destruct cb; cbn; try done; apply sc_seg_sent. Qed.

Lemma encode_subs m room tx sub buf proxy n : subs (snd (bt_mesh_net_encode m room tx sub buf proxy n)) = subs n.
Proof. unfold bt_mesh_net_encode. destruct (_ || _); [done|]. cbv zeta. destruct (bt_mesh_net_encrypt _ _ _ _ _) as [e c]. by destruct (negb _). Qed.

Lemma sc_net_send tx i cb s : same_cfg s (snd (bt_mesh_net_send tx i cb s)).
Proof.
  unfold bt_mesh_net_send. destruct (subs (tn s) !! mt_sub tx) as [sub|]; [|done]. cbv zeta.
  pose proof (encode_subs (mic0 (tc s)) (tailroom (buf_data i s)) (mkTx (mt_app_idx tx =? BT_MESH_KEY_UNUSED) (mt_src tx) (mt_dst tx) (if mt_ttl tx =? BT_MESH_TTL_DEFAULT then default_ttl (tc s) else mt_ttl tx)) sub (buf_data i s) false (tn s)) as E.
  destruct (bt_mesh_net_encode _ _ _ _ _ _ _) as [[err c] n]. cbn [snd] in E. set (s1 := buf_put i c (with_tn n s)). assert (same_cfg s s1) as C1 by done.
  destruct (negb (err =? 0)); [exact C1|]. set (ttl := if mt_ttl tx =? _ then _ else _). set (s2 := if ttl =? 1 then s1 else _). assert (same_cfg s s2) as C2 by (unfold s2; by destruct (ttl =? 1)).
  destruct (_ && _ && _); cbn [snd]; (etransitivity; [exact C2|]; sc_then sc_buf).
  - sc_then sc_cb_end. apply sc_cb_start.
  - destruct (_ || _); [|by destruct (negb _)]. sc_then sc_cb_end. apply (sc_cb_start cb 0 s2).
Qed.

Lemma sc_create s b s' : bt_mesh_adv_create s = Some (b, s') → same_cfg s s'.
Proof. unfold bt_mesh_adv_create. destruct (find_free _ _); [|done]. by intros [= <- <-]. Qed.

Lemma sc_send_segs fuel tx i sz o sdu s : same_cfg s (snd (send_segs fuel tx i sz o sdu s)).
Proof.
  revert o sdu s. induction fuel as [|fuel IH]; intros o sdu s; cbn [send_segs]; [done|]. destruct sdu as [|x sdu]; [done|].
  destruct (bt_mesh_adv_create s) as [[b s1]|] eqn:E; [|apply sc_seg_tx_reset]. apply sc_create in E. cbv zeta. set (s2 := on_tx i _ _).
  pose proof (sc_net_send tx b (if Nat.eqb o 0 then FirstSent i else SegSent i) s2) as H. destruct (bt_mesh_net_send _ _ _ _) as [err s3]. cbn [snd] in H.
  assert (same_cfg s s3) as H3 by (etransitivity; [exact E|]; exact H). destruct (negb _); cbn [snd]; (etransitivity; [exact H3|]); [apply sc_seg_tx_reset | apply IH].
Qed.

Lemma sc_trans_send tx msg room cb s : same_cfg s (snd (bt_mesh_trans_send tx msg room cb s)).
Proof.
  unfold bt_mesh_trans_send. destruct (room <? 4); [done|]. cbv zeta. destruct (trans_key tx s) as [[key aid]|]; [|done].
  destruct (bt_mesh_app_encrypt _ _ _ _ _ _ _ _ _ _) as [err sdu]. destruct (negb (err =? 0)); [done|]. destruct (_ || _).
  - unfold send_seg. cbv zeta. destruct (_ <? _); [done|]. destruct (_ <? _); [done|]. destruct (find_idle _ _) as [i|]; [|done]. etransitivity; [|apply sc_send_segs]. apply sc_tx.
  - unfold send_unseg. destruct (bt_mesh_adv_create s) as [[b s1]|] eqn:E; [|done]. etransitivity; [by apply (sc_create _ b)|]. etransitivity; [|apply sc_net_send]. apply sc_buf.
Qed.

Lemma sc_ctl_send tx op data cb s : same_cfg s (snd (bt_mesh_ctl_send tx op data cb s)).
Proof. unfold bt_mesh_ctl_send. destruct (bt_mesh_adv_create s) as [[b s1]|] eqn:E; [|done]. etransitivity; [by apply (sc_create _ b)|]. etransitivity; [|apply sc_net_send]. apply sc_buf. Qed.

(** ** The parts of the node the invariant is about *)

Record core_eq (s s' : node) : Prop := { ce_comp : comp s' = comp s; ce_app : app_keys_of s' = app_keys_of s; ce_subs : subs_of s' = subs_of s }.
#[export] Instance core_eq_equiv : Equivalence core_eq.
Proof. split; [done | by intros a b [] | intros a b c [] []; split; congruence]. Qed.

Lemma ce_on_trans f s : (forall t, same_cfg t (snd (f t))) → core_eq s (snd (on_trans f s)).
Proof.
  intros H. unfold on_trans. specialize (H (net_view s)) as [H1 H2]. destruct (f (net_view s)) as [err t]. cbn [snd] in *. split; [done| |].
  - unfold app_keys_of. cbn. by rewrite H1.
  - unfold subs_of. cbn. by rewrite H2.
Qed.

Lemma ce_note e s : core_eq s (note e s).
Proof. done. Qed.
Lemma ce_event ev st s : core_eq s (event ev st s).
Proof. by destruct ev. Qed.

Lemma ce_model_send r ctx msg room cb s : core_eq s (snd (Access.bt_mesh_model_send r ctx msg room cb s)).
Proof.
  unfold Access.bt_mesh_model_send. destruct (subnet_num _ s) as [i|]; [|done]. destruct (model_at r (comp s)) as [m|]; [|done]. unfold model_send.
  destruct (negb _); [done|]. destruct (_ <? _); [done|]. destruct (_ <? _); [done|]. destruct (_ && _); [done|].
  match goal with |- context [on_trans ?f s] => pose proof (ce_on_trans f s (sc_trans_send _ _ _ _)) as H; destruct (on_trans f s) as [err s'] end. cbn [snd] in *. etransitivity; [exact H | apply ce_note].
Qed.

Lemma ce_reply r ctx size msg s s' : reply r ctx size msg s = Some s' → core_eq s s'.
Proof. unfold reply. destruct (_ <? _); [done|]. intros [= <-]. apply ce_model_send. Qed.

Lemma ce_hb_send r s : core_eq s (hb_send r s).
Proof. unfold hb_send. destruct (subnet_num _ s); [|done]. etransitivity; [|apply ce_note]. apply ce_on_trans, sc_ctl_send. Qed.
Lemma ce_hb_feature r feat s : core_eq s (hb_feature r feat s).
Proof. unfold hb_feature. destruct (_ && _); [apply ce_hb_send | done]. Qed.
Lemma ce_beacon_update i s : core_eq s (beacon_update i s).
Proof. unfold beacon_update. destruct (subs_of s !! i); [|done]. by destruct (bt_mesh_net_beacon_update _ _). Qed.

(** ** Models by place *)

Lemma model_at_alter r f r' c : model_at r' (alter_model r f c) = if decide (r = r') then f <$> model_at r c else model_at r' c.
Proof.
  unfold model_at, alter_model. destruct r as [e v j], r' as [e' v' j']; cbn [r_elem r_vnd r_model].
  destruct (decide (e = e')) as [->|Ne].
  - rewrite list_lookup_alter_eq. destruct (c !! e') as [el|]; cbn; [|by case_decide].
    destruct (decide (v = v')) as [->|Nv]; [|rewrite decide_False by congruence; by destruct v, v'].
    assert (models_of v' (on_models v' (alter f j) el) = alter f j (models_of v' el)) as -> by (by destruct v').
    destruct (decide (j = j')) as [->|Nj]; [rewrite decide_True by done; apply list_lookup_alter_eq | rewrite decide_False by congruence; by apply list_lookup_alter_ne].
  - rewrite decide_False by congruence. by rewrite list_lookup_alter_ne.
Qed.

Lemma elem_of_imap {A B} (f : nat → A → B) l x : x ∈ imap f l ↔ exists i y, l !! i = Some y /\ x = f i y.
Proof.
  rewrite list_elem_of_lookup. setoid_rewrite list_lookup_imap. setoid_rewrite fmap_Some. naive_solver.
Qed.

Lemma in_refs r c m : model_at r c = Some m → r ∈ all_refs c.
Proof.
  unfold model_at, all_refs. intros (e & He & Hm)%bind_Some. apply list_elem_of_In, in_concat. exists (refs_of (r_elem r) e). rewrite <- !list_elem_of_In. split; [apply elem_of_imap; eauto|].
  unfold refs_of. apply elem_of_app. apply lookup_lt_Some in Hm. destruct r as [i v j]; cbn in *. destruct v; [right|left]; cbn [models_of] in Hm; apply list_elem_of_fmap; exists j; (split; [done|]); apply elem_of_seq; lia.
Qed.

(** ** The invariant *)

(** The keys of a model: unused, the device key, or a stored application key; each once. *)
Record keys_ok (valid : Z → bool) (ks : list Z) : Prop := {
  ko_valid : forall k, k ∈ ks → k = BT_MESH_KEY_UNUSED \/ k = BT_MESH_KEY_DEV \/ valid k = true;
  ko_once : forall i j k, ks !! i = Some k → ks !! j = Some k → k ≠ BT_MESH_KEY_UNUSED → i = j }.

(** The key refresh state of a subnet. *)
Definition kr_ok (sub : bt_mesh_subnet) : Prop :=
  (kr_phase sub = BT_MESH_KR_NORMAL /\ kr_flag sub = false) \/ (kr_phase sub = BT_MESH_KR_PHASE_1 /\ kr_flag sub = false) \/ (kr_phase sub = BT_MESH_KR_PHASE_2 /\ kr_flag sub = true).

Record subs_ok (l : list bt_mesh_subnet) : Prop := {
  so_once : forall i j a b, l !! i = Some a → l !! j = Some b → sub_net_idx a = sub_net_idx b → sub_net_idx a ≠ BT_MESH_KEY_UNUSED → i = j;
  so_range : forall i a, l !! i = Some a → sub_net_idx a = BT_MESH_KEY_UNUSED \/ 0 <= sub_net_idx a <= 4095;
  so_kr : Forall kr_ok l }.

(** A used application key is in the slot of its index, and its subnet exists. *)
Definition app_ok (subs : list bt_mesh_subnet) (i : nat) (k : bt_mesh_app_key) : Prop :=
  ak_net_idx k = BT_MESH_KEY_UNUSED \/ (ak_app_idx k = Z.of_nat i /\ exists sub, sub ∈ subs /\ sub_net_idx sub = ak_net_idx k).

Definition app_valid (l : list bt_mesh_app_key) (idx : Z) : bool := existsb (λ k, negb (ak_net_idx k =? BT_MESH_KEY_UNUSED) && (ak_app_idx k =? idx)) l.

Record cfg_inv (s : node) : Prop := {
  ci_keys : forall r m, model_at r (comp s) = Some m → keys_ok (app_valid (app_keys_of s)) (m_keys m);
  ci_app : forall i k, app_keys_of s !! i = Some k → app_ok (subs_of s) i k;
  ci_subs : subs_ok (subs_of s);
  ci_small : Z.of_nat (length (app_keys_of s)) < 4096 }.

#[export] Instance cfg_inv_proper : Proper (core_eq ==> iff) cfg_inv.
Proof. intros s s' [E1 E2 E3]. split; intros [H1 H2 H3 H4]; split; rewrite ?E1, ?E2, ?E3 in *; done. Qed.

Lemma inv_ce s s' : core_eq s s' → cfg_inv s → cfg_inv s'.
Proof. by intros ->. Qed.
#[export] Hint Resolve ce_note ce_event ce_model_send ce_hb_send ce_hb_feature ce_beacon_update : frame.

(** *** Changes of models *)

Lemma inv_on_model r f s : (forall m, model_at r (comp s) = Some m → keys_ok (app_valid (app_keys_of s)) (m_keys m) → keys_ok (app_valid (app_keys_of s)) (m_keys (f m))) →
  cfg_inv s → cfg_inv (on_model r f s).
Proof.
  intros Hf [H1 H2 H3 H4]. split; try done. intros r' m'. cbn [on_model with_comp comp]. rewrite model_at_alter. change (app_keys_of (on_model r f s)) with (app_keys_of s).
  case_decide; [|apply H1]. subst r'. intros (m & Hm & ->)%fmap_Some. eauto.
Qed.
(** The keys stay. *)
Lemma inv_on_model_keys r f s : (forall m, m_keys (f m) = m_keys m) → cfg_inv s → cfg_inv (on_model r f s).
Proof. intros Hf. apply (inv_on_model r f s). intros m _ H. by rewrite Hf. Qed.

Lemma lookup_insert_inv {A} (l : list A) i x j y : <[i := x]> l !! j = Some y → (j = i /\ y = x) \/ (j ≠ i /\ l !! j = Some y).
Proof.
  rewrite list_lookup_insert. case_decide as D; [destruct D as [-> _]; intros [= <-]; by left|]. intros Hx. right. split; [|done]. intros ->. destruct D. split; [done|]. by apply lookup_lt_Some in Hx.
Qed.
Lemma alter_none {A} (f : A → A) (l : list A) i : l !! i = None → alter f i l = l.
Proof. intros H. apply list_eq. intros j. destruct (decide (i = j)) as [<-|Ne]; [by rewrite list_lookup_alter_eq, H | by rewrite list_lookup_alter_ne]. Qed.
Lemma keys_ok_insert valid ks i k : k = BT_MESH_KEY_UNUSED \/ ((k = BT_MESH_KEY_DEV \/ valid k = true) /\ k ∉ ks) → keys_ok valid ks → keys_ok valid (<[i := k]> ks).
Proof.
  intros Hk [H1 H2]. split.
  - intros x (j & Hj)%list_elem_of_lookup. apply lookup_insert_inv in Hj as [[-> ->]|[_ Hj]]; [tauto|]. apply H1. by apply list_elem_of_lookup_2 in Hj.
  - intros a b x Ha Hb Hx. apply lookup_insert_inv in Ha as [[-> ->]|[_ Ha]], Hb as [[-> ?]|[_ Hb]]; subst; try done; try (by eauto); destruct Hk as [?|[_ Hn]]; try done; destruct Hn;
      [by apply list_elem_of_lookup_2 in Hb | by apply list_elem_of_lookup_2 in Ha].
Qed.

Lemma index_of_lookup a l i j : index_of a l i = Some j → exists n, j = (i + n)%nat /\ l !! n = Some a.
Proof.
  revert i. induction l as [|x l IH]; intros i; [done|]. cbn [index_of]. destruct (Z.eqb_spec x a) as [->|Ne].
  - intros [= <-]. exists 0%nat. split; [lia|done].
  - intros (n & -> & Hn)%IH. exists (S n). split; [lia|done].
Qed.
Lemma index_of_None a l i : index_of a l i = None → a ∉ l.
Proof. revert i. induction l as [|x l IH]; intros i; cbn [index_of]; [intros _ []%elem_of_nil|]. destruct (Z.eqb_spec x a); [done|]. intros H%IH. rewrite elem_of_cons. naive_solver. Qed.

Lemma has_key_spec m k : model_has_key m k = true ↔ k ∈ m_keys m.
Proof. unfold model_has_key. rewrite existsb_exists, list_elem_of_In. setoid_rewrite Z.eqb_eq. naive_solver. Qed.

Lemma inv_bind m k s : cfg_inv s → cfg_inv (snd (mod_bind m k s)).
Proof.
  intros H. unfold mod_bind. destruct (app_key_is_valid k s) eqn:V; [|done]. cbn [negb]. destruct (model_at m (comp s)) as [mo|] eqn:M; [|done].
  destruct (model_has_key mo k) eqn:K; [done|]. destruct (index_of _ _ _) as [i|]; [|done]. cbn [snd]. apply inv_on_model; [|done]. intros m' Hm Hk. rewrite M in Hm. injection Hm as <-.
  cbn [set_keys m_keys]. apply keys_ok_insert; [|done]. right. split; [by right|]. intros Hin%has_key_spec. congruence.
Qed.

Lemma pub_set_keeps m a i c t p x s r : (m_keys <$> model_at r (comp (snd (_mod_pub_set m a i c t p x s)))) = (m_keys <$> model_at r (comp s)).
Proof.
  unfold _mod_pub_set. destruct (mo ← model_at m (comp s); m_pub mo) as [pb|]; [|done]. destruct (truthy c); [done|]. destruct (_ && _); [done|].
  assert (forall f, (m_keys <$> model_at r (comp (on_model m (on_pub f) s))) = (m_keys <$> model_at r (comp s))) as F.
  { intros f. cbn [on_model with_comp comp]. rewrite model_at_alter. case_decide; [subst|done]. by destruct (model_at r (comp s)). }
  destruct (_ =? _); [apply F|]. destruct (bt_mesh_app_key_find _ _); [apply F | done].
Qed.
Lemma pub_set_frame m a i c t p x s : app_keys_of (snd (_mod_pub_set m a i c t p x s)) = app_keys_of s /\ subs_of (snd (_mod_pub_set m a i c t p x s)) = subs_of s.
Proof. unfold _mod_pub_set. destruct (mo ← _; _); [|done]. destruct (truthy c); [done|]. destruct (_ && _); [done|]. destruct (_ =? _); [done|]. by destruct (bt_mesh_app_key_find _ _). Qed.

(** The invariant looks at the keys of the models only. *)
Lemma inv_same_keys s s' : (forall r, (m_keys <$> model_at r (comp s')) = (m_keys <$> model_at r (comp s))) → app_keys_of s' = app_keys_of s → subs_of s' = subs_of s → cfg_inv s → cfg_inv s'.
Proof.
  intros E1 E2 E3 [H1 H2 H3 H4]. split; rewrite ?E2, ?E3; try done. intros r m Hm. specialize (E1 r). rewrite Hm in E1. cbn in E1. symmetry in E1. apply fmap_Some in E1 as (m' & Hm' & ->). by apply (H1 r).
Qed.
Lemma inv_pub_set m a i c t p x s : cfg_inv s → cfg_inv (snd (_mod_pub_set m a i c t p x s)).
Proof. destruct (pub_set_frame m a i c t p x s) as [E1 E2]. apply inv_same_keys; [intros r; apply pub_set_keeps | done | done]. Qed.

(** What unbinding does to the keys of the models. *)
Lemma unbind_keys m k s r : (m_keys <$> model_at r (comp (snd (mod_unbind m k s)))) =
  if decide (r = m) then (λ mo, if app_key_is_valid k s then match index_of k (m_keys mo) 0 with Some i => <[i := BT_MESH_KEY_UNUSED]> (m_keys mo) | None => m_keys mo end else m_keys mo) <$> model_at m (comp s)
  else m_keys <$> model_at r (comp s).
Proof.
  unfold mod_unbind. destruct (app_key_is_valid k s); cbn [negb snd].
  2: { destruct (decide (r = m)) as [->|]; done. }
  destruct (model_at m (comp s)) as [mo|] eqn:M.
  2: { destruct (decide (r = m)) as [->|]; [|done]. cbn [snd]. by rewrite M. }
  destruct (index_of k (m_keys mo) 0) as [i|] eqn:I.
  2: { destruct (decide (r = m)) as [->|]; [|done]. cbn [snd]. rewrite M. cbn. by rewrite I. }
  cbn [snd]. set (s1 := on_model m _ s). transitivity (m_keys <$> model_at r (comp s1)).
  - destruct (m_pub mo) as [p|]; [|done]. destruct (_ =? _); [apply pub_set_keeps|done].
  - unfold s1. cbn [on_model with_comp comp]. rewrite model_at_alter. destruct (decide (m = r)) as [->|]; [rewrite decide_True, M by done; cbn; by rewrite I | by rewrite decide_False].
Qed.
Lemma unbind_frame m k s : app_keys_of (snd (mod_unbind m k s)) = app_keys_of s /\ subs_of (snd (mod_unbind m k s)) = subs_of s.
Proof.
  unfold mod_unbind. destruct (negb _); [done|]. destruct (model_at m (comp s)) as [mo|]; [|done]. destruct (index_of _ _ _); [|done]. cbn [snd].
  destruct (m_pub mo) as [p|]; [|done]. destruct (_ =? _); [|done]. apply (pub_set_frame m BT_MESH_ADDR_UNASSIGNED 0 0 0 0 0 (on_model m (set_keys (<[n:=BT_MESH_KEY_UNUSED]> (m_keys mo))) s)).
Qed.
Lemma inv_unbind m k s : cfg_inv s → cfg_inv (snd (mod_unbind m k s)).
Proof.
  intros [H1 H2 H3 H4]. destruct (unbind_frame m k s) as [E1 E2]. split; rewrite ?E1, ?E2; try done. intros r m' Hm. pose proof (unbind_keys m k s r) as E. rewrite Hm in E. cbn in E. case_decide.
  - symmetry in E. apply fmap_Some in E as (mo & Hmo & E). rewrite E. specialize (H1 m mo Hmo). destruct (app_key_is_valid k s); [|done]. destruct (index_of _ _ _); [|done]. apply keys_ok_insert; [by left | done].
  - symmetry in E. apply fmap_Some in E as (mo & Hmo & ->). by apply (H1 r).
Qed.

(** *** Application keys *)

Lemma app_valid_spec l x : app_valid l x = true ↔ exists j k, l !! j = Some k /\ ak_net_idx k ≠ BT_MESH_KEY_UNUSED /\ ak_app_idx k = x.
Proof.
  unfold app_valid. rewrite existsb_exists. setoid_rewrite <- list_elem_of_In. setoid_rewrite list_elem_of_lookup. setoid_rewrite andb_true_iff. setoid_rewrite negb_true_iff. setoid_rewrite Z.eqb_eq. setoid_rewrite Z.eqb_neq. naive_solver.
Qed.

(** Unbinding removes the key from the model, and only there. *)
Definition unused_in (k : Z) (r : mref) (s : node) : Prop := forall m, model_at r (comp s) = Some m → k ∉ m_keys m.
Lemma insert_gone (ks : list Z) i k : (forall a b, ks !! a = Some k → ks !! b = Some k → a = b) → ks !! i = Some k → k ≠ BT_MESH_KEY_UNUSED → k ∉ <[i := BT_MESH_KEY_UNUSED]> ks.
Proof.
  intros U Hi Hk (j & Hj)%list_elem_of_lookup. destruct (decide (i = j)) as [->|Ne].
  - apply lookup_lt_Some in Hi. rewrite list_lookup_insert_eq in Hj by done. by injection Hj.
  - rewrite list_lookup_insert_ne in Hj by done. by destruct (Ne (U _ _ Hi Hj)).
Qed.
Lemma unbind_unused m k s r : cfg_inv s → app_key_is_valid k s = true → k ≠ BT_MESH_KEY_UNUSED → r = m \/ unused_in k r s → unused_in k r (snd (mod_unbind m k s)).
Proof.
  intros [H1 _ _ _] V Hk Hr m' Hm. pose proof (unbind_keys m k s r) as E. rewrite Hm, V in E. cbn in E. case_decide as D; symmetry in E; apply fmap_Some in E as (mo & Hmo & ->).
  - destruct (index_of k (m_keys mo) 0) as [i|] eqn:I; [|by apply index_of_None in I]. apply index_of_lookup in I as (n & -> & Hn). cbn. apply insert_gone; [|done|done]. intros a b Ha Hb. by apply (ko_once _ _ (H1 m mo Hmo) a b k).
  - destruct Hr as [->|Hr]; [done|]. by apply Hr.
Qed.

Lemma unbind_all k l s : cfg_inv s → app_key_is_valid k s = true → k ≠ BT_MESH_KEY_UNUSED →
  let s' := fold_left (λ s m, snd (mod_unbind m k s)) l s in
  cfg_inv s' /\ app_keys_of s' = app_keys_of s /\ subs_of s' = subs_of s /\ (forall r, r ∈ l \/ unused_in k r s → unused_in k r s') /\ (forall r, is_Some (model_at r (comp s')) → is_Some (model_at r (comp s))).
Proof.
  intros H V Hk. revert s H V. induction l as [|m l IH]; intros s H V; cbn [fold_left].
  - split_and!; try done. by intros r [[]%elem_of_nil|?].
  - destruct (unbind_frame m k s) as [E1 E2]. set (s1 := snd (mod_unbind m k s)) in *. assert (cfg_inv s1) as H' by by apply inv_unbind.
    assert (app_key_is_valid k s1 = true) as V' by (unfold app_key_is_valid; by rewrite E1).
    destruct (IH s1 H' V') as (I1 & I2 & I3 & I4 & I5). split_and!; [done|congruence|congruence| |].
    + intros r Hr. apply I4. rewrite elem_of_cons in Hr. destruct Hr as [[->|Hr]|Hr]; [right; apply unbind_unused; auto | by left | right; apply unbind_unused; auto].
    + intros r Hr%I5. pose proof (unbind_keys m k s r) as E. fold s1 in E. destruct Hr as [x Hx]. rewrite Hx in E. cbn in E. case_decide; symmetry in E; apply fmap_Some in E as (y & Hy & _); subst; by exists y.
Qed.

(** A key index of the store is a small number. *)
Lemma stored_small s i k : cfg_inv s → app_keys_of s !! i = Some k → ak_net_idx k ≠ BT_MESH_KEY_UNUSED → ak_app_idx k = Z.of_nat i /\ ak_app_idx k < 4096.
Proof. intros [_ H2 _ H4] Hi Hn. destruct (H2 i k Hi) as [?|[E _]]; [done|]. apply lookup_lt_Some in Hi. lia. Qed.

Definition key_deleted (i : nat) (s s' : node) : Prop :=
  subs_of s' = subs_of s /\ length (app_keys_of s') = length (app_keys_of s) /\
  forall j k, app_keys_of s' !! j = Some k → (j = i /\ ak_net_idx k = BT_MESH_KEY_UNUSED) \/ (j ≠ i /\ app_keys_of s !! j = Some k).
Lemma inv_app_key_del i k s : cfg_inv s → app_keys_of s !! i = Some k → ak_net_idx k ≠ BT_MESH_KEY_UNUSED → cfg_inv (_app_key_del i s) /\ key_deleted i s (_app_key_del i s).
Proof.
  intros H Hi Hn. destruct (stored_small s i k H Hi Hn) as [Ei Es]. unfold _app_key_del, bt_mesh_model_foreach. rewrite Hi.
  assert (app_key_is_valid (ak_app_idx k) s = true) as V by (apply app_valid_spec; eauto).
  assert (ak_app_idx k ≠ BT_MESH_KEY_UNUSED) as Hk by (unfold BT_MESH_KEY_UNUSED; lia).
  destruct (unbind_all (ak_app_idx k) (all_refs (comp s)) s H V Hk) as (I1 & I2 & I3 & I4 & I5). set (s1 := fold_left _ _ _) in *. set (k' := mkAppKey _ _ _ _ _ _ _).
  assert (app_keys_of (put_app_key i k' s1) = <[i := k']> (app_keys_of s)) as EA by (rewrite <- I2; done).
  assert (subs_of (put_app_key i k' s1) = subs_of s) as EB by (rewrite <- I3; done).
  split; [|split; [exact EB|]; split; [rewrite EA; apply length_insert|]; intros j x Hx; rewrite EA in Hx; destruct (lookup_insert_inv _ _ _ _ _ Hx) as [[-> ->]|]; auto].
  destruct I1 as [J1 _ _ _], H as [H1 H2 H3 H4]. split; rewrite ?EA, ?EB; [|intros j x Hx; destruct (lookup_insert_inv _ _ _ _ _ Hx) as [[-> ->]|[_ Hx']]; [by left | by apply H2] | done | by rewrite length_insert].
  intros r m Hm. change (comp (put_app_key i k' s1)) with (comp s1) in Hm. specialize (J1 r m Hm). rewrite I2 in J1. destruct J1 as [A B]. split; [|done]. intros x Hx.
  destruct (A x Hx) as [?|[?|Vx]]; [by left | by right; left|]. right; right. apply app_valid_spec in Vx as (j & y & Hj & Hy & <-). apply app_valid_spec. exists j, y. split; [|done].
  rewrite list_lookup_insert_ne; [done|]. intros ->. rewrite Hi in Hj. injection Hj as <-. assert (unused_in (ak_app_idx k) r s1) as U by (apply I4; left; destruct (I5 r) as [m0 Hm0]; [by exists m | by eapply in_refs]).
  by apply (U m Hm).
Qed.

(** Deleting all keys whose network [p] picks. *)
Definition del_step (p : Z → bool) (s : node) (i : nat) : node := match app_keys_of s !! i with Some k => if p (ak_net_idx k) then _app_key_del i s else s | None => s end.
Definition keys_deleted (p : Z → bool) (l : list nat) (s s' : node) : Prop :=
  subs_of s' = subs_of s /\ length (app_keys_of s') = length (app_keys_of s) /\
  forall j k, app_keys_of s' !! j = Some k → (j ∈ l → p (ak_net_idx k) = false) /\ (ak_net_idx k = BT_MESH_KEY_UNUSED \/ app_keys_of s !! j = Some k).
Lemma inv_del_step p s i : p BT_MESH_KEY_UNUSED = false → cfg_inv s → cfg_inv (del_step p s i) /\ keys_deleted p [i] s (del_step p s i).
Proof.
  intros Hp H. unfold del_step. destruct (app_keys_of s !! i) as [k|] eqn:E.
  - destruct (p (ak_net_idx k)) eqn:P.
    + assert (ak_net_idx k ≠ BT_MESH_KEY_UNUSED) as Hn by congruence. destruct (inv_app_key_del i k s H E Hn) as (H' & D1 & D2 & D3). split; [done|]. split; [done|]. split; [done|].
      intros j x Hx. destruct (D3 j x Hx) as [[-> ->]|[Hj Hx']]; (split; [|by auto]); [done|]. intros ->%list_elem_of_singleton. done.
    + split; [done|]. split; [done|]. split; [done|]. intros j x Hx. split; [|by right]. intros ->%list_elem_of_singleton. congruence.
  - split; [done|]. split; [done|]. split; [done|]. intros j x Hx. split; [|by right]. intros ->%list_elem_of_singleton. congruence.
Qed.
Lemma inv_del_where p l s : p BT_MESH_KEY_UNUSED = false → cfg_inv s → cfg_inv (fold_left (del_step p) l s) /\ keys_deleted p l s (fold_left (del_step p) l s).
Proof.
  intros Hp. revert s. induction l as [|i l IH]; intros s H; cbn [fold_left].
  - split; [done|]. split; [done|]. split; [done|]. intros j k Hk. split; [intros []%elem_of_nil | by right].
  - destruct (inv_del_step p s i Hp H) as (H1 & A1 & A2 & A3). destruct (IH _ H1) as (H2 & B1 & B2 & B3). split; [done|]. split; [congruence|]. split; [congruence|].
    intros j k Hk. destruct (B3 j k Hk) as [B4 B5]. destruct B5 as [B5|B5].
    + split; [|by left]. intros _. by rewrite B5.
    + destruct (A3 j k B5) as [A4 A5]. split; [|done]. intros [->|Hj]%elem_of_cons; [apply A4; by apply list_elem_of_singleton | auto].
Qed.
Lemma fold_left_same {A B} (f g : A → B → A) l a : (forall x y, f x y = g x y) → fold_left f l a = fold_left g l a.
Proof. intros E. revert a. induction l as [|b l IH]; intros a; [done|]. cbn. by rewrite E, IH. Qed.
Lemma all_slots s j k : app_keys_of s !! j = Some k → j ∈ seq 0 (length (app_keys_of s)).
Proof. intros H%lookup_lt_Some. apply elem_of_seq. lia. Qed.

(** *** Changes of the key table *)

Lemma inv_set_app_keys l s : (forall x, app_valid (app_keys_of s) x = true → app_valid l x = true) → (forall i k, l !! i = Some k → app_ok (subs_of s) i k) →
  length l = length (app_keys_of s) → cfg_inv s → cfg_inv (set_app_keys l s).
Proof.
  intros V O L [H1 H2 H3 H4]. split; [|exact O|exact H3|change (app_keys_of (set_app_keys l s)) with l; by rewrite L]. intros r m Hm. destruct (H1 r m Hm) as [A B]. split; [|exact B]. intros k Hk. destruct (A k Hk) as [?|[?|?]]; auto.
Qed.
Lemma inv_put_app_key i k k' s : app_keys_of s !! i = Some k → app_ok (subs_of s) i k' → ak_net_idx k' ≠ BT_MESH_KEY_UNUSED → cfg_inv s → cfg_inv (put_app_key i k' s).
Proof.
  intros Hi O N H. unfold put_app_key. apply inv_set_app_keys; [| |apply length_insert|done].
  - intros x (j & y & Hj & Hy & <-)%app_valid_spec. apply app_valid_spec. destruct (decide (i = j)) as [<-|Ne].
    + exists i, k'. rewrite list_lookup_insert_eq by (by apply lookup_lt_Some in Hi). destruct O as [?|[O _]]; [done|]. destruct (stored_small s i y H Hj Hy) as [-> _]. done.
    + exists j, y. by rewrite list_lookup_insert_ne.
  - intros j y [[-> ->]|[_ Hj]]%lookup_insert_inv; [done|]. by apply (ci_app s H).
Qed.

Lemma subnet_search_spec x l i j : subnet_search x l i = Some j → exists n sub, j = (i + n)%nat /\ l !! n = Some sub /\ sub_net_idx sub = x.
Proof.
  revert i. induction l as [|a l IH]; intros i; [done|]. cbn [subnet_search]. destruct (Z.eqb_spec (sub_net_idx a) x) as [E|Ne].
  - intros [= <-]. exists 0%nat, a. split_and!; [lia|done|done].
  - intros (n & sub & -> & Hn & E)%IH. exists (S n), sub. split_and!; [lia|done|done].
Qed.
Lemma subnet_search_None x l i : subnet_search x l i = None → forall n sub, l !! n = Some sub → sub_net_idx sub ≠ x.
Proof. revert i. induction l as [|a l IH]; intros i; cbn [subnet_search]; [done|]. destruct (Z.eqb_spec (sub_net_idx a) x) as [E|Ne]; [done|]. intros H n sub. destruct n; cbn; [by intros [= <-] | by apply (IH (S i) H)]. Qed.
Lemma subnet_num_spec x s i : x ≠ BT_MESH_KEY_ANY → subnet_num x s = Some i → exists sub, subs_of s !! i = Some sub /\ sub_net_idx sub = x.
Proof. intros N. unfold subnet_num. destruct (Z.eqb_spec x BT_MESH_KEY_ANY); [done|]. intros (n' & sub & -> & H)%subnet_search_spec. eauto. Qed.

Lemma app_key_num_spec x s i : app_key_num x s = Some i → exists k, app_keys_of s !! i = Some k /\ ak_net_idx k ≠ BT_MESH_KEY_UNUSED /\ ak_app_idx k = x.
Proof. unfold app_key_num. intros ([j k] & (H & [A B] & _)%list_find_Some & ->)%fmap_Some. eauto. Qed.

Lemma inv_app_key_set n a v u s : 0 <= n <= 4095 → 0 <= a → cfg_inv s → cfg_inv (snd (app_key_set n a v u s)).
Proof.
  intros Hn Ha H. unfold app_key_set. destruct (subnet_num n s) as [si|] eqn:S; [|done]. assert (n ≠ BT_MESH_KEY_ANY) as N by (unfold BT_MESH_KEY_ANY; lia). assert (n ≠ BT_MESH_KEY_UNUSED) as N' by (unfold BT_MESH_KEY_UNUSED; lia).
  destruct (subnet_num_spec n s si N S) as (sub & Hsub & Esub). assert (exists sub, sub ∈ subs_of s /\ sub_net_idx sub = n) as Ex by (exists sub; split; [by apply list_elem_of_lookup_2 in Hsub | done]). cbv zeta.
  destruct (i ← app_key_num a s; k ← app_keys_of s !! i; Some (i, k)) as [[i k]|] eqn:F.
  - apply bind_Some in F as (i' & Hi & F). apply bind_Some in F as (k' & Hk & F). injection F as -> ->. apply app_key_num_spec in Hi as (k' & Hk' & Ku & Ka). rewrite Hk in Hk'. injection Hk' as <-.
    destruct (stored_small s i k H Hk Ku) as [Ei _]. destruct u; [|by destruct (_ =? _); [destruct (bool_decide _)|]].
    destruct (negb (_ =? n)); [done|]. destruct (negb _); [done|]. destruct (ak_updated k); [done|]. destruct (bt_mesh_app_id v) as [e|id]; [done|]. cbn [snd]. apply (inv_put_app_key i k); [done| |done|done]. right. cbn. by rewrite <- Ka.
  - destruct u; [done|]. unfold app_key_alloc. destruct (Z.geb_spec a (Z.of_nat (length (app_keys_of s)))) as [|Lt]; [done|]. destruct (bt_mesh_app_id v) as [e|id]; [done|]. cbn [snd].
    destruct (lookup_lt_is_Some_2 (app_keys_of s) (Z.to_nat a)) as [k Hk]; [lia|]. set (f := λ k, mkAppKey n a _ id v _ _). rewrite (alter_insert f _ _ k Hk).
    apply (inv_put_app_key _ k); [done| |done|done]. right. cbn. split; [lia|done].
Qed.

(** *** Changes of the subnets *)

Lemma subs_ok_alter l i f : (forall sub, l !! i = Some sub → kr_ok sub → kr_ok (f sub) /\
    (sub_net_idx (f sub) = sub_net_idx sub \/ sub_net_idx (f sub) = BT_MESH_KEY_UNUSED \/ (0 <= sub_net_idx (f sub) <= 4095 /\ forall j b, l !! j = Some b → sub_net_idx b ≠ sub_net_idx (f sub)))) →
  subs_ok l → subs_ok (alter f i l).
Proof.
  intros Hf [S1 S2 S3]. destruct (l !! i) as [sub|] eqn:E; [|rewrite alter_none by done; by split]. rewrite (alter_insert f l i sub E).
  assert (kr_ok sub) as K by (by eapply (Forall_lookup_1 _ _ _ _ S3 E)). destruct (Hf sub eq_refl K) as [K' N]. split.
  - intros a b x y [[-> ->]|[Na Ha]]%lookup_insert_inv [[-> ->]|[Nb Hb]]%lookup_insert_inv Exy Hx; try done; [| |by eapply S1].
    + destruct N as [N|[N|[_ N]]]; [rewrite N in *; by eapply S1 | done | by destruct (N b y Hb)].
    + destruct N as [N|[N|[_ N]]]; [rewrite N in *; by eapply S1 | congruence | by destruct (N a x Ha)].
  - intros j x [[-> ->]|[_ Hj]]%lookup_insert_inv; [|by eapply S2]. destruct N as [N|[N|[N _]]]; [rewrite N; by eapply S2 | by left | by right].
  - by apply Forall_insert.
Qed.

Lemma inv_set_subs l s : subs_ok l → (forall i k, app_keys_of s !! i = Some k → app_ok l i k) → cfg_inv s → cfg_inv (set_subs l s).
Proof. intros S O [H1 H2 H3 H4]. split; [exact H1 | exact O | exact S | exact H4]. Qed.

(** A change of a subnet that leaves its index. *)
Lemma inv_alter_sub i f s : (forall sub, subs_of s !! i = Some sub → kr_ok sub → kr_ok (f sub) /\ sub_net_idx (f sub) = sub_net_idx sub) → cfg_inv s → cfg_inv (alter_sub i f s).
Proof.
  intros Hf H. destruct (subs_of s !! i) as [sub|] eqn:E; [|unfold alter_sub; rewrite alter_none by done; by apply (inv_ce s)].
  assert (kr_ok sub) as K by (eapply (Forall_lookup_1 _ _ _ _ (so_kr _ (ci_subs s H)) E)). destruct (Hf sub eq_refl K) as [K1 K2].
  apply inv_set_subs; [|intros j k Hj|done].
  - apply subs_ok_alter; [|apply (ci_subs s H)]. intros x Hx Kx. rewrite E in Hx. injection Hx as <-. auto.
  - destruct (ci_app s H j k Hj) as [?|[Ej (x & Hx & Ex)]]; [by left|]. right. split; [done|]. apply list_elem_of_lookup in Hx as (n & Hn). rewrite (alter_insert f _ _ sub E).
    destruct (decide (i = n)) as [<-|Ne].
    + exists (f sub). split; [|congruence]. apply (list_elem_of_lookup_2 _ i). rewrite list_lookup_insert_eq; [done|]. by apply lookup_lt_Some in E.
    + exists x. split; [|done]. apply (list_elem_of_lookup_2 _ n). by rewrite list_lookup_insert_ne.
Qed.

Lemma inv_set_phase i p b s : (forall sub, subs_of s !! i = Some sub → kr_ok sub → kr_ok (mkSubnet (sub_net_idx sub) b p (keys0 sub) (keys1 sub))) → cfg_inv s → cfg_inv (set_phase i p b s).
Proof. intros Hk. apply inv_alter_sub. intros sub Hs K. by split; [apply Hk|]. Qed.

Lemma inv_revoke i sub s : cfg_inv s → cfg_inv (bt_mesh_net_revoke_keys i sub s).
Proof.
  intros H. unfold bt_mesh_net_revoke_keys. cbv zeta. set (s1 := alter_sub i _ s). assert (cfg_inv s1) as H1 by (apply inv_alter_sub; [|done]; intros x _ K; by split). clearbody s1. clear H s.
  set (f := λ k : bt_mesh_app_key, _). assert (forall k, ak_net_idx (f k) = ak_net_idx k /\ ak_app_idx (f k) = ak_app_idx k) as F by (intros k; unfold f; by destruct (_ || _)).
  apply inv_set_app_keys; [| |apply length_map|done].
  - intros x (j & k & Hj & Hk & <-)%app_valid_spec. apply app_valid_spec. exists j, (f k). destruct (F k) as [-> ->]. split; [|done]. change (f <$> app_keys_of s1 !! j = Some (f k)) || rewrite list_lookup_fmap. by rewrite Hj.
  - intros j k' Hj. change (map f (app_keys_of s1)) with (f <$> app_keys_of s1) in Hj. rewrite list_lookup_fmap in Hj. apply fmap_Some in Hj as (k & Hk & ->). unfold app_ok. destruct (F k) as [-> ->]. by apply (ci_app s1 H1).
Qed.

(** A subnet nothing refers to any more. *)
Lemma inv_subnet_clear i s : (forall sub j k, subs_of s !! i = Some sub → app_keys_of s !! j = Some k → ak_net_idx k = BT_MESH_KEY_UNUSED \/ ak_net_idx k ≠ sub_net_idx sub) →
  cfg_inv s → cfg_inv (subnet_clear i s).
Proof.
  intros U H. unfold subnet_clear. eapply inv_ce; [|apply inv_set_subs]; [done| | |done].
  - apply subs_ok_alter; [|apply (ci_subs s H)]. intros x _ _. split; [by left | by right; left].
  - intros j k Hj. destruct (ci_app s H j k Hj) as [?|[Ej (x & Hx & Ex)]]; [by left|]. apply list_elem_of_lookup in Hx as (n & Hn). destruct (decide (i = n)) as [<-|Ne].
    + destruct (U x j k Hn Hj) as [?|?]; [by left | congruence].
    + right. split; [done|]. exists x. split; [|done]. apply (list_elem_of_lookup_2 _ n). by rewrite list_lookup_alter_ne.
Qed.

Lemma inv_subnet_start i idx k s : subs_of s !! i ≫= (λ sub, Some (sub_net_idx sub)) = Some BT_MESH_KEY_UNUSED → 0 <= idx <= 4095 → (forall j b, subs_of s !! j = Some b → sub_net_idx b ≠ idx) →
  cfg_inv s → cfg_inv (subnet_start i idx k s).
Proof.
  intros (sub & E & [= Eu])%bind_Some Hr Hn H. unfold subnet_start. set (f := λ sub, mkSubnet idx _ _ k _). eapply (inv_ce (alter_sub i f s)); [by etransitivity; [apply (ce_beacon_update i)|]|].
  apply inv_set_subs; [| |done].
  - apply subs_ok_alter; [|apply (ci_subs s H)]. intros x _ K. split; [exact K|]. right; right. done.
  - intros j x Hj. destruct (ci_app s H j x Hj) as [?|[Ej (y & Hy & Ey)]]; [by left|]. destruct (decide (ak_net_idx x = BT_MESH_KEY_UNUSED)); [by left|]. right. split; [done|].
    apply list_elem_of_lookup in Hy as (n' & Hn'). exists y. split; [|done]. apply (list_elem_of_lookup_2 _ n'). rewrite list_lookup_alter_ne; [done|]. intros <-. congruence.
Qed.

(** *** Repetition, models set up anew *)

Lemma inv_fold {B} (f : node → B → node) l s : (forall s x, cfg_inv s → cfg_inv (f s x)) → cfg_inv s → cfg_inv (fold_left f l s).
Proof. intros Hf. revert s. induction l as [|x l IH]; intros s H; [done|]. cbn. auto. Qed.

Lemma unused_keys valid (ks : list Z) : keys_ok valid (map (λ _, BT_MESH_KEY_UNUSED) ks).
Proof.
  split.
  - intros k (x & -> & _)%list_elem_of_fmap. by left.
  - intros i j k Hi _ Hk. change (map ?f ?l) with (f <$> l) in Hi. rewrite list_lookup_fmap in Hi. apply fmap_Some in Hi as (x & _ & ->). done.
Qed.
Lemma inv_mod_init r s : cfg_inv s → cfg_inv (mod_init r s).
Proof.
  intros H. unfold mod_init. set (f := λ m, set_keys _ _). assert (cfg_inv (on_model r f s)) as H1 by (apply inv_on_model; [|done]; intros m _ _; apply unused_keys).
  cbv zeta. destruct (r_vnd r); [done|]. destruct (model_at r (comp (on_model r f s))) as [m|] eqn:M; [|done]. destruct (_ =? _); [|done].
  unfold bt_mesh_cfg_srv_init. destruct (negb _); [done|]. cbn [snd]. eapply inv_ce; [|apply inv_on_model, H1]; [done|]. intros m' Hm' K. rewrite M in Hm'. injection Hm' as <-. cbn [set_keys m_keys].
  apply keys_ok_insert; [|done]. right. split; [by left|]. cbn [on_model with_comp comp] in M. rewrite model_at_alter, decide_True in M by done. apply fmap_Some in M as (m0 & _ & ->).
  cbn. intros (x & E & _)%list_elem_of_fmap. done.
Qed.

Lemma inv_groups m g s : cfg_inv s → cfg_inv (on_model m (λ mo, set_groups (g mo) mo) s).
Proof. by apply inv_on_model_keys. Qed.
Lemma inv_group m g s : cfg_inv s → cfg_inv (on_model m (set_groups g) s).
Proof. by apply inv_on_model_keys. Qed.

Lemma inv_setup_model k m s : cfg_inv s → cfg_inv (setup_model k m s).
Proof. intros H. by apply inv_group, inv_bind. Qed.
Lemma inv_setup_elem k i s : cfg_inv s → cfg_inv (setup_elem k i s).
Proof. intros H. unfold setup_elem. destruct (comp s !! i) as [e|]; [|done]. repeat (apply inv_fold; [intros s' x H'; destruct (_ : option mref); [by apply inv_setup_model|done]|]). done. Qed.
Lemma inv_setup k s : cfg_inv s → cfg_inv (snd (genie_mesh_setup k s)).
Proof. unfold genie_mesh_setup. generalize (length (comp s)) 0. intros n. revert s. induction n as [|n IH]; intros s z H; [done|]. cbn. destruct (elem_find_in _ _); [|done]. by apply IH, inv_setup_elem. Qed.
Lemma inv_elem_sub_bind i s : cfg_inv s → cfg_inv (_elem_sub_bind i s).
Proof. intros H. unfold _elem_sub_bind. destruct (comp s !! i) as [e|]; [|done]. repeat (apply inv_fold; [intros s' x H'; destruct (_ : option mref); [by apply inv_group|done]|]). done. Qed.

Lemma inv_same s s' : comp s' = comp s → app_keys_of s' = app_keys_of s → subs_of s' = subs_of s → cfg_inv s → cfg_inv s'.
Proof. intros. by apply (inv_ce s). Qed.
Lemma inv_sub_list l s : cfg_inv s → cfg_inv (with_sub_list l s).
Proof. by apply inv_same. Qed.
Lemma inv_conf c s : cfg_inv s → cfg_inv (with_conf c s).
Proof. by apply inv_same. Qed.
Lemma inv_on_conf f s : cfg_inv s → cfg_inv (on_conf f s).
Proof. apply inv_conf. Qed.
Lemma inv_subx x s : cfg_inv s → cfg_inv (with_subx x s).
Proof. by apply inv_same. Qed.
Lemma inv_note e s : cfg_inv s → cfg_inv (note e s).
Proof. by apply inv_same. Qed.
Lemma inv_event e st s : cfg_inv s → cfg_inv (event e st s).
Proof. apply inv_ce, ce_event. Qed.
Lemma inv_if (b : bool) s t : cfg_inv s → cfg_inv t → cfg_inv (if b then s else t).
Proof. by destruct b. Qed.
Lemma inv_clear_groups m s : cfg_inv s → cfg_inv (clear_groups m s).
Proof. apply inv_groups. Qed.
Lemma inv_put_first_group m a s : cfg_inv s → cfg_inv (put_first_group m a s).
Proof. apply inv_groups. Qed.
Lemma inv_node_id i v s : cfg_inv s → cfg_inv (set_node_id i v s).
Proof. by apply inv_same. Qed.
Lemma inv_load s : cfg_inv s → cfg_inv (load_group_addr s).
Proof. by apply inv_same. Qed.
Lemma inv_labels l s : cfg_inv s → cfg_inv (set_labels l s).
Proof. by apply inv_same. Qed.
Lemma inv_hb_sub_dst a s : cfg_inv s → cfg_inv (bt_mesh_set_hb_sub_dst a s).
Proof. by apply inv_same. Qed.
Lemma inv_hb_feature r f s : cfg_inv s → cfg_inv (hb_feature r f s).
Proof. apply inv_ce, ce_hb_feature. Qed.
Lemma inv_beacon_update i s : cfg_inv s → cfg_inv (beacon_update i s).
Proof. apply inv_ce, ce_beacon_update. Qed.
Create HintDb inv.
#[export] Hint Extern 1 (cfg_inv (bt_mesh_proxy_identity_start _ _)) => apply inv_node_id : inv.
#[export] Hint Extern 1 (cfg_inv (bt_mesh_proxy_identity_stop _ _)) => apply inv_node_id : inv.
#[export] Hint Extern 1 (cfg_inv (hb_pub_disable _)) => apply inv_on_conf : inv.
#[export] Hint Resolve inv_groups inv_group inv_setup inv_elem_sub_bind inv_sub_list inv_conf inv_on_conf inv_subx inv_note inv_event inv_load inv_labels inv_hb_sub_dst inv_hb_feature inv_if inv_clear_groups inv_put_first_group inv_beacon_update inv_bind inv_unbind inv_pub_set inv_revoke : inv.

Lemma inv_va_add u s : cfg_inv s → cfg_inv (snd (va_add u s)).
Proof. intros H. unfold va_add. destruct (va_find u s) as [a f]. destruct (negb _); [done|]. destruct f; [|done]. destruct (bt_mesh_virtual_addr u); cbn; auto with inv. Qed.
Lemma inv_sub_add i m a s : cfg_inv s → cfg_inv (snd (sub_add i m a s)).
Proof. intros H. unfold sub_add. destruct (negb _); [done|]. destruct (find_group m a s); [done|]. destruct (index_of _ _ _); cbn; auto with inv. Qed.
Lemma inv_sub_del i a s : cfg_inv s → cfg_inv (snd (sub_del i a s)).
Proof. intros H. unfold sub_del. destruct (negb _); [done|]. destruct (index_of _ _ _); cbn; auto with inv. Qed.
Lemma inv_sub_va_add m u s : cfg_inv s → cfg_inv (snd (sub_va_add m u s)).
Proof.
  intros H. unfold sub_va_add. pose proof (inv_va_add u s H) as H1. destruct (va_add u s) as [[st a] s1]. cbn in H1. destruct (negb _); [done|]. destruct (find_group _ _ _); [done|]. destruct (mo ← _; _); [|done]. cbn. by apply inv_groups.
Qed.
Lemma inv_sub_va_del m u s : cfg_inv s → cfg_inv (snd (sub_va_del m u s)).
Proof.
  intros H. unfold sub_va_del. cbv zeta. destruct (_ =? _); [done|]. destruct (find_group _ _ _) as [[k|]|]; cbn; [by apply inv_groups| |done].
  apply (inv_same_keys s); [|done..]. intros r. cbn. unfold model_at. destruct (decide (r_elem m = r_elem r)) as [->|Ne]; [|by rewrite list_lookup_alter_ne]. rewrite list_lookup_alter_eq. by destruct (comp s !! r_elem r).
Qed.
#[export] Hint Resolve inv_va_add inv_sub_add inv_sub_del inv_sub_va_add inv_sub_va_del : inv.

(** *** The handlers *)

(** What a handler leaves, if it is defined. *)
Definition after (o : option node) : Prop := forall s, o = Some s → cfg_inv s.
Lemma after_some s : cfg_inv s → after (Some s).
Proof. by intros H s' [= <-]. Qed.
Lemma after_bind {A} (e : option A) k : (forall x, e = Some x → after (k x)) → after (e ≫= k).
Proof. intros H s (x & E & Hk)%bind_Some. by apply (H x). Qed.
Lemma after_reply r ctx n msg s : cfg_inv s → after (reply r ctx n msg s).
Proof. intros H s' E%ce_reply. by apply (inv_ce s). Qed.
Lemma after_then (o : option node) k : after o → (forall s, cfg_inv s → after (k s)) → after (o ≫= k).
Proof. intros H Hk. apply after_bind. intros s E. auto. Qed.

(** Goes through a handler: what is read from the message, answers, case distinctions. *)
Ltac handler_step :=
  match goal with
  | |- after (@mbind option option_bind node node _ _) => apply after_then; [|intros ? ?]
  | |- after (_ ≫= _) => apply after_bind; intros
  | |- after (reply _ _ _ _ _) => apply after_reply
  | |- after (Some _) => apply after_some
  | |- after (match (match ?x with _ => _ end) with _ => _ end) => destruct x eqn:?
  | |- after (match ?x with _ => _ end) => destruct x eqn:?
  | |- cfg_inv (match ?x with _ => _ end) => destruct x eqn:?
  | p : (_ * _)%type |- _ => destruct p
  end.
Ltac handler := unfold send_mod_pub_status, send_mod_sub_status, send_net_key_status, send_krp_status, send_gatt_proxy_status, send_friend_status, hb_pub_send_status, hb_sub_send_status; cbv zeta; repeat (cbv beta iota; handler_step); simplify_eq; auto 9 with inv.

(** The state of a pair that was taken apart. *)
Ltac from_pair n := match goal with E : ?e = (_, n) |- _ => replace n with (snd e) by (by rewrite E); clear E end.
#[export] Hint Extern 1 (cfg_inv ?n) => is_var n; from_pair n : inv.

Lemma inv_identity_stop_all s : cfg_inv s → cfg_inv (identity_stop_all s).
Proof. intros H. unfold identity_stop_all. apply inv_fold; [|done]. intros s' i H'. destruct (subs_of s' !! i); [|done]. destruct (_ =? _); [done|]. by apply inv_subx. Qed.
#[export] Hint Resolve inv_identity_stop_all : inv.

(** Key indices of a message of bytes. *)
Lemma unpack_range buf a b rest : all_u8 buf → key_idx_unpack buf = Some (a, b, rest) → (0 <= a <= 4095 /\ 0 <= b <= 4095) /\ all_u8 rest.
Proof.
  intros H. destruct buf as [|b0 [|b1 [|b2 buf]]]; try done. cbn [key_idx_unpack]. inversion H as [|? ? H0 H']; subst. inversion H' as [|? ? H1 H'']; subst. inversion H'' as [|? ? H2 H3]; subst. intros [= <- <- <-].
  split; [|done]. rewrite !get_le16_spec by done. rewrite Z.shiftr_div_pow2 by lia. change (Z.land ?x 4095) with (Z.land x (Z.ones 12)). rewrite Z.land_ones by lia. change (2 ^ 12) with 4096. change (2 ^ 4) with 16. dlia.
Qed.
Lemma pull_range buf a rest : all_u8 buf → net_buf_simple_pull_le16 buf = Some (a, rest) → 0 <= a.
Proof.
  intros H. destruct buf as [|b0 [|b1 buf]]; try done. cbn. inversion H as [|? ? H0 H']; subst. inversion H' as [|? ? H1 H'']; subst. intros [= <- <-]. rewrite get_le16_spec by done. lia.
Qed.

Lemma inv_key_update i sub key s : subs_of s !! i = Some sub → cfg_inv s → cfg_inv (snd (key_update i sub key s)).
Proof.
  intros Hi H. assert (kr_ok sub) as K by (eapply (Forall_lookup_1 _ _ _ _ (so_kr _ (ci_subs s H)) Hi)). unfold key_update. cbv zeta.
  set (start := match bt_mesh_net_keys_create key with inl _ => _ | inr _ => _ end).
  assert (kr_phase sub = BT_MESH_KR_NORMAL → cfg_inv (snd start)) as St.
  { intros P. unfold start. destruct (bt_mesh_net_keys_create key) as [e|k]; [done|]. cbn [snd]. apply inv_beacon_update, inv_event, inv_alter_sub; [|done]. intros x Hx Kx. rewrite Hi in Hx. injection Hx as <-.
    split; [|done]. right; left. split; [done|]. destruct K as [[_ F]|[[P' _]|[P' _]]]; [done| |]; rewrite P in P'; discriminate. }
  destruct (Z.eqb_spec (kr_phase sub) BT_MESH_KR_NORMAL) as [P|P]; [destruct (bool_decide _); [done | by apply St]|]. destruct (_ && _); [done|].
  destruct K as [[? _]|[[P' _]|[P' _]]]; [done| |]; rewrite P'; done.
Qed.

Lemma inv_app_keys_del_net n s : n ≠ BT_MESH_KEY_UNUSED → cfg_inv s → cfg_inv (app_keys_del_net n s) /\ keys_deleted (Z.eqb n) (seq 0 (length (app_keys_of s))) s (app_keys_del_net n s).
Proof.
  intros Hn H. unfold app_keys_del_net. rewrite (fold_left_same _ (del_step (Z.eqb n))).
  - apply inv_del_where; [by apply Z.eqb_neq | done].
  - intros x i. unfold del_step. destruct (app_keys_of x !! i); [|done]. by rewrite Z.eqb_sym.
Qed.
Lemma inv_net_del n i s : 0 <= n <= 4095 → subnet_num n s = Some i → cfg_inv s → cfg_inv (subnet_clear i (app_keys_del_net n s)).
Proof.
  intros Hn Hi H. assert (n ≠ BT_MESH_KEY_UNUSED) as N by (unfold BT_MESH_KEY_UNUSED; lia). assert (n ≠ BT_MESH_KEY_ANY) as N' by (unfold BT_MESH_KEY_ANY; lia).
  destruct (inv_app_keys_del_net n s N H) as (H1 & D1 & D2 & D3). apply inv_subnet_clear; [|done]. intros sub j k Hs Hk. right. rewrite D1 in Hs. destruct (subnet_num_spec n s i N' Hi) as (sub' & Hs' & E). rewrite Hs in Hs'. injection Hs' as <-.
  assert (j ∈ seq 0 (length (app_keys_of s))) as Hj by (rewrite <- D2; by eapply all_slots). destruct (D3 j k Hk) as [F _]. apply F, Z.eqb_neq in Hj. congruence.
Qed.

(** All keys, then all subnets. *)
Lemma inv_clear_all l s : (forall j k, app_keys_of s !! j = Some k → ak_net_idx k = BT_MESH_KEY_UNUSED) → cfg_inv s → cfg_inv (fold_left (λ s i, subnet_clear i s) l s).
Proof. revert s. induction l as [|i l IH]; intros s U H; [done|]. cbn. apply IH; [exact U|]. apply inv_subnet_clear; [|done]. intros sub j k _ Hk. left. by eapply U. Qed.
Lemma inv_cfg_reset s : cfg_inv s → cfg_inv (bt_mesh_cfg_reset s).
Proof.
  intros H. unfold bt_mesh_cfg_reset. cbv zeta. apply inv_labels. set (s0 := hb_pub_disable _). assert (cfg_inv s0) as H0 by (by apply (inv_same s)). clearbody s0. clear H s. set (s1 := fold_left _ (seq 0 (length (app_keys_of s0))) s0).
  assert (s1 = fold_left (del_step (λ n, negb (n =? BT_MESH_KEY_UNUSED))) (seq 0 (length (app_keys_of s0))) s0) as E by (apply fold_left_same; intros x i; unfold del_step; destruct (app_keys_of x !! i); [|done]; by destruct (_ =? _)).
  destruct (inv_del_where (λ n, negb (n =? BT_MESH_KEY_UNUSED)) (seq 0 (length (app_keys_of s0))) s0 eq_refl H0) as (H1 & D1 & D2 & D3). rewrite <- E in *. apply inv_clear_all; [|done].
  intros j k Hk. destruct (D3 j k Hk) as [F _]. specialize (F ltac:(rewrite <- D2; by eapply all_slots)). apply negb_false_iff, Z.eqb_eq in F. done.
Qed.
Lemma sc_tx_reset t : same_cfg t (bt_mesh_tx_reset t).
Proof. unfold bt_mesh_tx_reset. generalize (seq 0 (length (txs t))). intros l. revert t. induction l as [|i l IH]; intros t; [done|]. cbn. etransitivity; [apply sc_seg_tx_reset | apply IH]. Qed.
Lemma inv_unprovision s : cfg_inv s → cfg_inv (bt_mesh_comp_unprovision s).
Proof. intros H. unfold bt_mesh_comp_unprovision, bt_mesh_model_foreach. apply inv_fold; [intros; by apply inv_mod_init|]. by apply (inv_same s). Qed.
Lemma inv_clear_iv s : cfg_inv s → cfg_inv (clear_iv s).
Proof. by apply inv_same. Qed.
Lemma inv_with_nt t s : same_cfg (nt s) t → cfg_inv s → cfg_inv (with_nt t s).
Proof. intros [E1 E2]. apply inv_same; [done | exact (f_equal app_keys E1) | exact E2]. Qed.
Lemma inv_dev_key k s : cfg_inv s → cfg_inv (CfgSrv.set_dev_key k s).
Proof. by apply inv_same. Qed.
Lemma inv_prov b a s : cfg_inv s → cfg_inv (with_prov b a s).
Proof. by apply inv_same. Qed.
Lemma sc_rpl_clear t : same_cfg t (bt_mesh_rpl_clear t).
Proof. done. Qed.
Lemma sc_rx_reset t : same_cfg t (bt_mesh_rx_reset t).
Proof. done. Qed.
Lemma inv_reset s : cfg_inv s → cfg_inv (CfgSrv.bt_mesh_reset s).
Proof.
  intros H. unfold CfgSrv.bt_mesh_reset. destruct (negb _); [done|]. cbv zeta. do 3 apply inv_note. apply inv_prov, inv_with_nt; [apply sc_rpl_clear|]. apply inv_dev_key, inv_note, inv_with_nt; [|by apply inv_cfg_reset, inv_clear_iv, inv_sub_list, inv_unprovision].
  etransitivity; [apply sc_rx_reset | apply sc_tx_reset].
Qed.
#[export] Hint Resolve inv_reset : inv.

Section Handlers.
Context (r : mref) (ctx : bt_mesh_msg_ctx).

Lemma after_app_key_add buf s : all_u8 buf → cfg_inv s → after (app_key_add r ctx buf s).
Proof.
  intros Hb H. unfold app_key_add. apply after_bind. intros [[n a] rest] E. destruct (unpack_range _ _ _ _ Hb E) as [[Hn Ha] _]. apply after_bind. intros [val x] _.
  pose proof (inv_app_key_set n a val false s Hn (proj1 Ha) H) as H1. destruct (app_key_set n a val false s) as [st s1]. cbn [snd] in H1. handler.
Qed.
Lemma after_app_key_update buf s : all_u8 buf → cfg_inv s → after (app_key_update r ctx buf s).
Proof.
  intros Hb H. unfold app_key_update. apply after_bind. intros [[n a] rest] E. destruct (unpack_range _ _ _ _ Hb E) as [[Hn Ha] _]. apply after_bind. intros [val x] _.
  pose proof (inv_app_key_set n a val true s Hn (proj1 Ha) H) as H1. destruct (app_key_set n a val true s) as [st s1]. cbn [snd] in H1. handler.
Qed.
Lemma after_app_key_del buf s : all_u8 buf → cfg_inv s → after (app_key_del r ctx buf s).
Proof.
  intros Hb H. unfold app_key_del. apply after_bind. intros [[n a] rest] E. destruct (subnet_num n s); [|handler].
  destruct (i ← app_key_num a s; k ← app_keys_of s !! i; Some (i, k)) as [[i k]|] eqn:F; [|handler].
  apply bind_Some in F as (i' & Hi & F). apply bind_Some in F as (k' & Hk & F). injection F as -> ->. apply app_key_num_spec in Hi as (k' & Hk' & Ku & _). rewrite Hk in Hk'. injection Hk' as <-.
  destruct (inv_app_key_del i k s H Hk Ku) as [H1 _]. handler.
Qed.
Lemma after_net_key_add buf s : all_u8 buf → cfg_inv s → after (net_key_add r ctx buf s).
Proof.
  intros Hb H. unfold net_key_add. apply after_bind. intros [n rest] E. pose proof (pull_range _ _ _ Hb E) as Hn. destruct (Z.ltb_spec 4095 n); [handler|]. apply after_bind. intros [key x] _.
  destruct (i ← subnet_num n s; subs_of s !! i) as [sub|] eqn:F; [handler|]. destruct (subnet_search _ _ 0) as [i|] eqn:U; [|handler]. destruct (bt_mesh_net_keys_create key) as [e|k]; [handler|].
  apply after_reply. assert (subnet_num n s = None) as N.
  { destruct (subnet_num n s) as [j|] eqn:J; [|done]. destruct (subnet_num_spec n s j) as (sub & Hsub & _); [unfold BT_MESH_KEY_ANY; lia | done |]. cbn in F. congruence. }
  unfold subnet_num in N. destruct (_ =? _) in N; [done|]. apply inv_subnet_start; [|lia| |done].
  - apply subnet_search_spec in U as (j & sub & -> & Hj & Ej). cbn. rewrite Hj. cbn. by rewrite Ej.
  - apply (subnet_search_None _ _ _ N).
Qed.
Lemma after_net_key_update buf s : cfg_inv s → after (net_key_update r ctx buf s).
Proof.
  intros H. unfold net_key_update. apply after_bind. intros [n rest] E. destruct (_ <? _); [handler|]. apply after_bind. intros [key x] _.
  destruct (i ← subnet_num n s; sub ← subs_of s !! i; Some (i, sub)) as [[i sub]|] eqn:F; [|handler]. apply bind_Some in F as (i' & _ & F). apply bind_Some in F as (sub' & Hs & F). injection F as -> ->.
  pose proof (inv_key_update i sub key s Hs H) as H1. destruct (key_update i sub key s) as [st s1]. cbn [snd] in H1. handler.
Qed.
Lemma after_net_key_del buf s : all_u8 buf → cfg_inv s → after (net_key_del r ctx buf s).
Proof.
  intros Hb H. unfold net_key_del. apply after_bind. intros [n rest] E. pose proof (pull_range _ _ _ Hb E) as Hn. destruct (Z.ltb_spec 4095 n); [handler|]. destruct (subnet_num n s) as [i|] eqn:S; [|handler].
  destruct (_ =? n); [handler|]. set (s1 := if _ : bool then hb_pub_disable s else s). assert (cfg_inv s1 /\ subnet_num n s1 = Some i) as [H1 S1] by (unfold s1; destruct (_ =? n); [split; [by apply (inv_same s)|exact S]|done]).
  cbv zeta. apply after_reply, inv_event, inv_net_del; [lia|done|done].
Qed.
Lemma after_krp_set buf s : cfg_inv s → after (krp_set r ctx buf s).
Proof.
  intros H. unfold krp_set. apply after_bind. intros [n rest] _. apply after_bind. intros [phase x] _. destruct (_ <? n); [handler|].
  destruct (i ← subnet_num n s; sub ← subs_of s !! i; Some (i, sub)) as [[i sub]|]; [|handler]. destruct (_ || _ || _); [handler|]. destruct (_ && _); [|destruct (_ && _); [|handler]].
  - apply after_reply, inv_beacon_update, inv_set_phase; [|done]. intros y _ _. by right; right.
  - apply after_reply, inv_beacon_update, inv_set_phase; [|by apply inv_revoke]. intros y _ _. by left.
Qed.

Lemma after_cfg_call h buf s : all_u8 buf → cfg_inv s → after (cfg_call h r ctx buf s).
Proof.
  intros Hb H. destruct h; cbn [cfg_call];
    first [by apply after_app_key_add | by apply after_app_key_update | by apply after_app_key_del | by apply after_net_key_add | by apply after_net_key_update | by apply after_net_key_del | by apply after_krp_set
          | match goal with |- after (?f r ctx buf s) => unfold f; by handler end].
Qed.
End Handlers.

(** ** The invariant holds *)

Lemma after_recv_elems op dst ctx buf n i s : all_u8 buf → cfg_inv s → after (recv_elems call op dst ctx buf n i s).
Proof.
  intros Hb. revert i s. induction n as [|n IH]; intros i s H; cbn [recv_elems]; [by apply after_some|]. apply after_then; [|intros; by apply IH]. unfold recv_elem.
  destruct (comp s !! i) as [e|]; [|by apply after_some]. destruct (negb _); [by apply after_some|]. destruct (find_op _ _ _ _) as [[j o]|]; [|by apply after_some]. destruct (_ <? _); [by apply after_some|].
  destruct (op_func o) as [h|m]; cbn [call]; [by apply after_cfg_call | by apply after_some, inv_note].
Qed.
Lemma opcode_bytes buf op rest : all_u8 buf → get_opcode buf = Some (op, rest) → all_u8 rest.
Proof.
  intros H. destruct buf as [|b0 buf]; [done|]. inversion H as [|? ? _ H0]; subst. cbn [get_opcode]. cbv zeta. destruct (_ || _); [destruct (_ =? _); [done|]; by intros [= <- <-]|].
  destruct (_ =? 2); [destruct buf as [|b1 buf]; [done|]; inversion H0; subst; by intros [= <- <-]|]. destruct (_ =? 3); [|done]. destruct buf as [|b1 [|b2 buf]]; try done. inversion H0 as [|? ? _ H1]; subst. inversion H1; subst. by intros [= <- <-].
Qed.

(** [C21] The key tables stay consistent through every message: after any message the node receives (whichever of the 46 configuration handlers it is for, with whatever bytes in it), every key a model is bound to is a stored application key or the device key, and is bound once; every stored application key is in the slot of its index and belongs to a subnet that exists; subnet indices are in range and unique; and the key refresh state of a subnet is one of normal, phase 1, and phase 2 with the new keys in use.  So no deletion or reset leaves a binding to a key, or a key of a network, that is gone. *)
Theorem cfg_inv_recv ctx dst buf s s' : all_u8 buf → cfg_inv s → node_recv ctx dst buf s = Some s' → cfg_inv s'.
Proof.
  intros Hb H. unfold node_recv, bt_mesh_model_recv. destruct (get_opcode buf) as [[op rest]|] eqn:E; [|by intros [= <-]]. apply (after_recv_elems op dst ctx rest _ 0 s); [by eapply opcode_bytes | done].
Qed.

(** The light, its keys, and a provisioner that deletes application key 0. *)
Lemma light_inv a q g : cfg_inv (light a q g).
Proof.
  assert (forall k, app_valid (app_keys_of (light a q g)) k = true ↔ k = 0) as V.
  { intros k. rewrite app_valid_spec. split; [intros (j & x & Hj & Hx & <-); destruct j as [|j]; [by injection Hj as <- | by destruct j as [|[|j]]; try injection Hj as <-]|]. intros ->. by exists 0%nat, sample_app. }
  split.
  - intros [e v j] m. unfold model_at. cbn [r_elem r_vnd r_model]. destruct e as [|e]; [|done]. cbn. intros Hm. assert (m_keys m = [BT_MESH_KEY_DEV; BT_MESH_KEY_UNUSED] \/ m_keys m = [0; BT_MESH_KEY_UNUSED]) as [-> | ->].
    { destruct v, j as [|[|j]]; cbn in Hm; try done; injection Hm as <-; auto. }
    all: split; [intros k; rewrite !elem_of_cons, V; intros [?|[?|[]%elem_of_nil]]; auto | intros [|[|i]] [|[|i']] k H1 H2 H3; cbn in H1, H2; simplify_eq; done].
  - intros i k. destruct i as [|i]; cbn; [intros [= <-]; right; split; [done|]; exists sample_sub; split; [by left|done] | by destruct i as [|[|i]]; cbn; try (intros [= <-]; left)].
  - split; [intros [|i] [|j] x y; cbn; try done | intros [|i] x; cbn; [intros [= <-]; right; cbn; lia | done] | repeat constructor].
  - cbn. lia.
Qed.

Lemma cfg_inv_recv_witness : exists s', node_recv (mkCtx 0 BT_MESH_KEY_DEV 1 BT_MESH_TTL_DEFAULT 0) 2 (bt_mesh_model_msg_init (OP80 0) ++ key_idx_pack 0 0) (light 2 100 (repeat 0 8)) = Some s' /\
  cfg_inv s' /\ map (λ m, m_keys <$> model_at m (comp s')) (all_refs (comp s')) = [Some [BT_MESH_KEY_DEV; BT_MESH_KEY_UNUSED]; Some [BT_MESH_KEY_UNUSED; BT_MESH_KEY_UNUSED]; Some [BT_MESH_KEY_UNUSED; BT_MESH_KEY_UNUSED]].
Proof.
  destruct (node_recv (mkCtx 0 BT_MESH_KEY_DEV 1 BT_MESH_TTL_DEFAULT 0) 2 (bt_mesh_model_msg_init (OP80 0) ++ key_idx_pack 0 0) (light 2 100 (repeat 0 8))) as [s'|] eqn:E; [|by vm_compute in E].
  exists s'. split; [done|]. split; [eapply cfg_inv_recv; [|apply (light_inv 2 100 (repeat 0 8))|exact E]; vm_compute; repeat constructor; discriminate|].
  vm_compute in E. injection E as <-. reflexivity.
Defined.
