(* ===== verification/CfgFacts.v ===== *)
(** * CfgFacts: what the configuration server does

    The key refresh procedure from end to end, the safety of the handlers on messages of
    any content, the formats of key indices and heartbeat settings, subscriptions, reset;
    and where the code departs from the mesh profile. *)
From Stdlib Require Import ZArith Lia List Bool.
From stdpp Require Import base list numbers option.
From S2P Require Import Prelude Env Aes Storage Lifecycle Cmac MeshCrypto MeshNet MeshNetProps MeshTrans MeshRecv MeshRecvProps MeshEnd Access CfgSrv AccessProps CfgProps.
Local Open Scope Z_scope.

(** ** Answers *)

Lemma on_trans_log f s : nlog (snd (on_trans f s)) = nlog s.
Proof. unfold on_trans. by destruct (f (net_view s)). Qed.
Lemma model_send_log m tx b msg room cb s : nlog (snd (model_send m tx b msg room cb s)) = nlog s.
Proof. unfold model_send. destruct (negb _); [done|]. destruct (_ <? _); [done|]. destruct (_ <? _); [done|]. destruct (_ && _); [done|]. apply on_trans_log. Qed.

Lemma reply_log r ctx n msg s s' : reply r ctx n msg s = Some s' → exists err, nlog s' = nlog s ++ [NSend ctx msg err].
Proof.
  unfold reply. destruct (_ <? _); [done|]. intros [= <-]. unfold bt_mesh_model_send. destruct (subnet_num _ s) as [i|]; [|by eexists]. destruct (model_at r (comp s)) as [m|]; [|by eexists].
  match goal with |- context [model_send ?a ?b ?c ?d ?e ?f s] => pose proof (model_send_log a b c d e f s) as H; destruct (model_send a b c d e f s) as [err s'] end. cbn in *. rewrite H. by eexists.
Qed.
Lemma reply_defined r ctx n msg s : Z.of_nat (length msg) <= n → exists s', reply r ctx n msg s = Some s' /\ core_eq s s'.
Proof. intros H. unfold reply. rewrite (proj2 (Z.ltb_ge _ _) H). eexists. split; [done|]. apply ce_model_send. Qed.

(** ** Key indices *)

Lemma pack_bytes a b : 0 <= a < 4096 → 0 <= b < 4096 → key_idx_pack a b = [a mod 256; a / 256 + 16 * (b mod 16); b / 16].
Proof.
  intros Ha Hb. unfold key_idx_pack, le16, u8, u16. change (Z.land b 15) with (Z.land b (Z.ones 4)). rewrite Z.land_ones, Z.shiftl_mul_pow2, !Z.shiftr_div_pow2 by lia. change (2 ^ 12) with 4096. change (2 ^ 8) with 256. change (2 ^ 4) with 16.
  rewrite (Z.mod_small (b mod 16 * 4096)) by dlia. replace (b mod 16 * 4096) with (Z.shiftl (b mod 16) 12) by (rewrite Z.shiftl_mul_pow2; lia). rewrite lor_shiftl by (change (2 ^ 12) with 4096; dlia). change (2 ^ 12) with 4096.
  rewrite !land_255. cbn [app]. f_equal; [dlia|]. f_equal; [dlia|]. f_equal. dlia.
Qed.

Lemma key_idx_unpacked a b rest : 0 <= a < 4096 → 0 <= b < 4096 → key_idx_unpack (key_idx_pack a b ++ rest) = Some (a, b, rest).
Proof.
  intros Ha Hb. rewrite pack_bytes by done. cbn [app key_idx_unpack]. rewrite !get_le16_spec by dlia. change 4095 with (Z.ones 12). rewrite Z.land_ones, Z.shiftr_div_pow2 by lia. change (2 ^ 12) with 4096. change (2 ^ 4) with 16.
  do 3 f_equal; dlia.
Qed.
(** ** Key refresh *)

Lemma pull_le16_app n rest : 0 <= n < 65536 → net_buf_simple_pull_le16 (le16 n ++ rest) = Some (n, rest).
Proof. intros H. cbn. by rewrite get_le16_le16. Qed.
Lemma pull_all (l : list Z) : net_buf_simple_pull (length l) l = Some (l, []).
Proof. unfold net_buf_simple_pull. rewrite Nat.ltb_irrefl, firstn_all, skipn_all. done. Qed.

Lemma subnet_search_index x l i : subnet_search x l i = index_of x (map sub_net_idx l) i.
Proof. revert i. induction l as [|a l IH]; intros i; cbn; [done|]. by rewrite IH. Qed.

(** Subnet [n] is [sub], in slot [i]. *)
Record subnet_at (n : Z) (i : nat) (sub : bt_mesh_subnet) (s : node) : Prop := { sa_num : subnet_num n s = Some i; sa_sub : subs_of s !! i = Some sub; sa_idx : sub_net_idx sub = n }.
Lemma subnet_at_move n i sub sub' s s' : subnet_at n i sub s → subs_of s' = <[i := sub']> (subs_of s) → sub_net_idx sub' = n → subnet_at n i sub' s'.
Proof.
  intros [H1 H2 H3] E Hn. split; [|rewrite E; apply list_lookup_insert_eq; by apply lookup_lt_Some in H2|done]. rewrite <- H1. unfold subnet_num. destruct (_ =? _); [done|]. rewrite !subnet_search_index.
  change (subs (tn (nt s'))) with (subs_of s'). rewrite E. change (map ?f ?l) with (f <$> l). rewrite list_fmap_insert, list_insert_id; [done|]. rewrite list_lookup_fmap, H2. cbn. by rewrite H3, Hn.
Qed.
Lemma subnet_at_same n i sub s s' : subs_of s' = subs_of s → subnet_at n i sub s → subnet_at n i sub s'.
Proof. intros E H. apply (subnet_at_move n i sub sub s s' H); [|apply (sa_idx _ _ _ _ H)]. rewrite E. symmetry. apply list_insert_id, (sa_sub _ _ _ _ H). Qed.

(** What a step of the procedure does to subnets and application keys. *)
Definition leaves (o : option node) (l : list bt_mesh_subnet) (k : list bt_mesh_app_key) : Prop := exists s', o = Some s' /\ subs_of s' = l /\ app_keys_of s' = k.
Lemma leaves_reply r ctx n msg s l k : Z.of_nat (length msg) <= n → subs_of s = l → app_keys_of s = k → leaves (reply r ctx n msg s) l k.
Proof. intros H <- <-. destruct (reply_defined r ctx n msg s H) as (s' & E & [_ E3 E4]). by exists s'. Qed.
(** A change of subnet [i], after which its beacon changes. *)
Lemma beacon_subs i f sub s : subs_of s !! i = Some sub → subs_of (beacon_update i (alter_sub i f s)) = <[i := f sub]> (subs_of s).
Proof. intros H. rewrite (ce_subs _ _ (ce_beacon_update i (alter_sub i f s))). by apply alter_insert. Qed.
Lemma beacon_app i s : app_keys_of (beacon_update i s) = app_keys_of s.
Proof. apply (ce_app _ _ (ce_beacon_update i s)). Qed.

Section Refresh.
Context (r : mref) (ctx : bt_mesh_msg_ctx) (n : Z) (i : nat) (Hn : 0 <= n < 4096).

Lemma update_net_key key k sub s : subnet_at n i sub s → length key = 16%nat → kr_phase sub = BT_MESH_KR_NORMAL → key ≠ k_net (keys0 sub) → bt_mesh_net_keys_create key = inr k →
  leaves (net_key_update r ctx (le16 n ++ key) s) (<[i := mkSubnet n (kr_flag sub) BT_MESH_KR_PHASE_1 (keys0 sub) k]> (subs_of s)) (app_keys_of s).
Proof.
  intros [A1 A2 A3] Hl Hp Hk Hc. unfold net_key_update. rewrite pull_le16_app by lia. cbn [mbind option_bind]. rewrite (proj2 (Z.ltb_ge 4095 n)) by lia. rewrite <- Hl, pull_all. cbn [mbind option_bind]. rewrite A1. cbn [mbind option_bind]. rewrite A2. cbn [mbind option_bind].
  unfold key_update. cbv zeta. rewrite Hp, Hc. cbn [Z.eqb]. rewrite bool_decide_eq_false_2 by done. change (BT_MESH_KR_NORMAL =? BT_MESH_KR_NORMAL) with true. cbv beta iota. unfold send_net_key_status.
  apply leaves_reply; [done| |by rewrite beacon_app]. rewrite (ce_subs _ _ (ce_beacon_update _ _)). change (subs_of (event ?e ?b ?x)) with (subs_of x). change (subs_of (alter_sub i ?f s)) with (alter f i (subs_of s)).
  rewrite (alter_insert _ _ _ _ A2). by rewrite A3.
Qed.

Lemma update_app_key a V id j k sub s : subnet_at n i sub s → kr_phase sub = BT_MESH_KR_PHASE_1 → 0 <= a < 4096 → length V = 16%nat → app_key_num a s = Some j → app_keys_of s !! j = Some k →
  ak_net_idx k = n → ak_updated k = false → bt_mesh_app_id V = inr id →
  leaves (app_key_update r ctx (key_idx_pack n a ++ V) s) (subs_of s) (<[j := mkAppKey n a true (ak_id0 k) (ak_val0 k) id V]> (app_keys_of s)).
Proof.
  intros [A1 A2 A3] Hp Ha Hl Hj Hk Hkn Hu Hid. unfold app_key_update. rewrite key_idx_unpacked by done. cbn [mbind option_bind]. rewrite <- Hl, pull_all. cbn [mbind option_bind].
  unfold app_key_set. rewrite A1, A2, Hp, Hj. cbn [mbind option_bind]. rewrite Hk. cbn [mbind option_bind]. rewrite Hkn, Z.eqb_refl, Hu, Hid. cbn [negb]. change (BT_MESH_KR_PHASE_1 =? BT_MESH_KR_PHASE_1) with true. cbn [negb].
  match goal with |- leaves (reply r ctx 10 ?m ?s1 ≫= _) _ _ => destruct (reply_defined r ctx 10 m s1) as (s' & E & [_ E3 E4]); [done|] end. rewrite E. cbn [mbind option_bind]. eexists. split; [done|]. split; [exact E4|exact E3].
Qed.

Lemma to_phase_2 sub s : subnet_at n i sub s → kr_phase sub = BT_MESH_KR_PHASE_1 →
  leaves (krp_set r ctx (le16 n ++ [BT_MESH_KR_PHASE_2]) s) (<[i := mkSubnet n true BT_MESH_KR_PHASE_2 (keys0 sub) (keys1 sub)]> (subs_of s)) (app_keys_of s).
Proof.
  intros [A1 A2 A3] Hp. unfold krp_set. rewrite pull_le16_app by lia. cbn [mbind option_bind net_buf_simple_pull_u8]. rewrite (proj2 (Z.ltb_ge 4095 n)) by lia. rewrite A1. cbn [mbind option_bind]. rewrite A2. cbn [mbind option_bind]. rewrite Hp.
  cbn. unfold send_krp_status. apply leaves_reply; [done| |by rewrite beacon_app]. unfold set_phase. rewrite (beacon_subs _ _ _ _ A2). by rewrite A3.
Qed.

(** Key [k] after the keys of subnet [n] were revoked. *)
Definition revoked (k : bt_mesh_app_key) : bt_mesh_app_key :=
  if negb (ak_net_idx k =? n) || negb (ak_updated k) then k else mkAppKey (ak_net_idx k) (ak_app_idx k) false (ak_id1 k) (ak_val1 k) (ak_id1 k) (ak_val1 k).
Lemma to_phase_3 sub s : subnet_at n i sub s → kr_phase sub = BT_MESH_KR_PHASE_2 →
  leaves (krp_set r ctx (le16 n ++ [BT_MESH_KR_PHASE_3]) s) (<[i := mkSubnet n false BT_MESH_KR_NORMAL (keys1 sub) (keys1 sub)]> (subs_of s)) (map revoked (app_keys_of s)).
Proof.
  intros [A1 A2 A3] Hp. unfold krp_set. rewrite pull_le16_app by lia. cbn [mbind option_bind net_buf_simple_pull_u8]. rewrite (proj2 (Z.ltb_ge 4095 n)) by lia. rewrite A1. cbn [mbind option_bind]. rewrite A2. cbn [mbind option_bind]. rewrite Hp.
  cbn. unfold send_krp_status. apply leaves_reply; [done| |rewrite beacon_app; unfold revoked; by rewrite <- A3]. unfold set_phase. rewrite (beacon_subs _ _ (mkSubnet n (kr_flag sub) (kr_phase sub) (keys1 sub) (keys1 sub))).
  - unfold bt_mesh_net_revoke_keys. cbv zeta. change (subs_of (set_app_keys ?k ?x)) with (subs_of x). change (subs_of (alter_sub i ?f s)) with (alter f i (subs_of s)). rewrite (alter_insert _ _ _ _ A2). apply list_insert_insert_eq.
  - unfold bt_mesh_net_revoke_keys. cbv zeta. change (subs_of (set_app_keys ?k ?x)) with (subs_of x). change (subs_of (alter_sub i ?f s)) with (alter f i (subs_of s)). rewrite list_lookup_alter_eq, A2. cbn. by rewrite A3.
Qed.
End Refresh.

(** [C22] The key refresh procedure replaces the keys: a provisioner that sends a new network key, a new application key of that subnet that is not updated yet, and then sets phases 2 and 3, gets through; in phase 1 the node keeps the old network key and the old application key (the [keys0], [ak_id0] and [ak_val0] it sends with while the key refresh flag is off) and has the new ones beside them, in phase 2 the flag is on and both are still there, and afterwards only the new network key and the new application key are left, back in normal operation; no other subnet and no other application key changes. *)
Theorem key_refresh r ctx n i a j key V k id sub ak s : 0 <= n < 4096 → 0 <= a < 4096 → subnet_at n i sub s → kr_phase sub = BT_MESH_KR_NORMAL → kr_flag sub = false →
  length key = 16%nat → key ≠ k_net (keys0 sub) → bt_mesh_net_keys_create key = inr k → length V = 16%nat → bt_mesh_app_id V = inr id →
  app_key_num a s = Some j → app_keys_of s !! j = Some ak → ak_net_idx ak = n → ak_updated ak = false →
  exists s1 s2 s3 s4, net_key_update r ctx (le16 n ++ key) s = Some s1 /\ app_key_update r ctx (key_idx_pack n a ++ V) s1 = Some s2 /\
  krp_set r ctx (le16 n ++ [BT_MESH_KR_PHASE_2]) s2 = Some s3 /\ krp_set r ctx (le16 n ++ [BT_MESH_KR_PHASE_3]) s3 = Some s4 /\
  subs_of s2 !! i = Some (mkSubnet n false BT_MESH_KR_PHASE_1 (keys0 sub) k) /\ subs_of s3 !! i = Some (mkSubnet n true BT_MESH_KR_PHASE_2 (keys0 sub) k) /\
  app_keys_of s2 !! j = Some (mkAppKey n a true (ak_id0 ak) (ak_val0 ak) id V) /\ app_keys_of s3 = app_keys_of s2 /\
  subs_of s4 = <[i := mkSubnet n false BT_MESH_KR_NORMAL k k]> (subs_of s) /\ app_keys_of s4 !! j = Some (mkAppKey n a false id V id V) /\
  forall j' x, j' ≠ j → app_keys_of s !! j' = Some x → ak_net_idx x ≠ n \/ ak_updated x = false → app_keys_of s4 !! j' = Some x.
Proof.
  intros Hn Ha A Hp Hf Hl Hk Hc HV Hid Hj Hak Hakn Hu. destruct (update_net_key r ctx n i Hn key k sub s A Hl Hp Hk Hc) as (s1 & E1 & S1 & K1). rewrite Hf in S1.
  pose proof (subnet_at_move _ _ _ _ _ s1 A S1 eq_refl) as A1. assert (app_key_num a s1 = Some j) as Hj1 by (unfold app_key_num in *; by rewrite K1). rewrite <- K1 in Hak.
  destruct (update_app_key r ctx n i Hn a V id j ak _ s1 A1 eq_refl Ha HV Hj1 Hak Hakn Hu Hid) as (s2 & E2 & S2 & K2). pose proof (subnet_at_same _ _ _ _ s2 S2 A1) as A2.
  destruct (to_phase_2 r ctx n i Hn _ s2 A2 eq_refl) as (s3 & E3 & S3 & K3). pose proof (subnet_at_move _ _ _ _ _ s3 A2 S3 eq_refl) as A3.
  destruct (to_phase_3 r ctx n i Hn _ s3 A3 eq_refl) as (s4 & E4 & S4 & K4). exists s1, s2, s3, s4. split_and!; [done..|apply A2|apply A3| |done| | |].
  - rewrite K2. apply list_lookup_insert_eq. by apply lookup_lt_Some in Hak.
  - rewrite S4, S3, S2, S1, !list_insert_insert_eq. done.
  - rewrite K4, K3, K2. change (map ?f ?l) with (f <$> l). rewrite list_lookup_fmap, list_lookup_insert_eq by (by apply lookup_lt_Some in Hak). cbn. unfold revoked. cbn. by rewrite Z.eqb_refl.
  - intros j' x Ne Hx Hr. rewrite K4, K3, K2, K1. change (map ?f ?l) with (f <$> l). rewrite list_lookup_fmap, list_lookup_insert_ne, Hx by done. cbn. f_equal. unfold revoked. destruct Hr as [Hr%Z.eqb_neq| ->]; [by rewrite Hr | by rewrite orb_true_r].
Qed.

Lemma key_refresh_witness : let key := repeat 17 16 in let V := repeat 34 16 in exists k id s4, bt_mesh_net_keys_create key = inr k /\ bt_mesh_app_id V = inr id /\
  subs_of s4 = [mkSubnet 0 false BT_MESH_KR_NORMAL k k] /\ app_keys_of s4 !! 0%nat = Some (mkAppKey 0 0 false id V id V).
Proof.
  intros key V. destruct (bt_mesh_net_keys_create key) as [e|k] eqn:E; [by vm_compute in E|]. destruct (bt_mesh_app_id V) as [e|id] eqn:E'; [by vm_compute in E'|].
  destruct (key_refresh (mkRef 0 false 0) (mkCtx 0 BT_MESH_KEY_DEV 1 BT_MESH_TTL_DEFAULT 0) 0 0 0 0 key V k id sample_sub sample_app (light 2 100 (repeat 0 8))) as (s1 & s2 & s3 & s4 & _ & _ & _ & _ & _ & _ & _ & _ & S & K & _);
    try (assumption || reflexivity || lia); [by split | discriminate |]. exists k, id, s4. split; [done|]. split; [done|]. split; [exact S | exact K].
Defined.

(** ** Messages of any content *)

(** The length of an answer. *)
Lemma length_le16 x : length (le16 x) = 2%nat.
Proof. done. Qed.
Ltac msg_len :=
  rewrite ?length_app, ?length_le16;
  repeat match goal with |- context [length (bt_mesh_model_msg_init ?o)] => let n := eval vm_compute in (length (bt_mesh_model_msg_init o)) in change (length (bt_mesh_model_msg_init o)) with n end;
  cbn [length]; try lia.

Section Defined.
Implicit Types (buf : list Z) (s : node).
#[local] Abbreviation defined o := (@is_Some node o).

Lemma d_le16 buf k : (2 <= length buf)%nat → (forall a rest, length rest = (length buf - 2)%nat → defined (k (a, rest))) → defined (net_buf_simple_pull_le16 buf ≫= k).
Proof. intros H Hk. destruct buf as [|b0 [|b1 buf]]; cbn in *; try lia. apply Hk. lia. Qed.
Lemma d_u8 buf k : (1 <= length buf)%nat → (forall a rest, length rest = (length buf - 1)%nat → defined (k (a, rest))) → defined (net_buf_simple_pull_u8 buf ≫= k).
Proof. intros H Hk. destruct buf as [|b0 buf]; cbn in *; [lia|]. apply Hk. lia. Qed.
Lemma d_pull n buf k : (n <= length buf)%nat → (forall l rest, length l = n → length rest = (length buf - n)%nat → defined (k (l, rest))) → defined (net_buf_simple_pull n buf ≫= k).
Proof. intros H Hk. unfold net_buf_simple_pull. rewrite (proj2 (Nat.ltb_ge _ _) H). apply Hk; [rewrite length_take; lia | apply length_drop]. Qed.
Lemma d_unpack buf k : (3 <= length buf)%nat → (forall a b rest, length rest = (length buf - 3)%nat → defined (k (a, b, rest))) → defined (key_idx_unpack buf ≫= k).
Proof. intros H Hk. destruct buf as [|b0 [|b1 [|b2 buf]]]; cbn in *; try lia. apply Hk. lia. Qed.
Lemma d_mod_id vnd buf k : ((if vnd : bool then 4 else 2) <= length buf)%nat → (forall id, (length id <= 4)%nat → defined (k id)) → defined (mod_id vnd buf ≫= k).
Proof. intros H Hk. unfold mod_id, net_buf_simple_pull. destruct vnd; rewrite (proj2 (Nat.ltb_ge _ _) H); apply Hk; rewrite length_take; lia. Qed.
Lemma d_locate a buf s k : (2 <= length buf)%nat →
  (forall l vnd, ((if vnd : bool then 4 else 2) <= length buf)%nat → (forall st, l = inl st → st ≠ STATUS_SUCCESS) → defined (k (l, vnd))) → defined (locate a buf s ≫= k).
Proof.
  intros H Hk. unfold locate. destruct (elem_find_in _ _) as [i|]; [|apply Hk; [destruct (Nat.eqb_spec (length buf) 4); lia | by intros st [= <-]]].
  assert (forall (m : option mref) st, match m with Some m => inr (i, m) | None => inl STATUS_INVALID_MODEL end = inl st → st ≠ STATUS_SUCCESS) as N by (intros [m|] st; [done|]; by intros [= <-]).
  unfold get_model. destruct (Nat.ltb_spec (length buf) 4).
  - destruct buf as [|b0 [|b1 buf]]; cbn in *; try lia. apply Hk; [lia | apply N].
  - destruct buf as [|b0 [|b1 [|b2 [|b3 buf]]]]; cbn in *; try lia. apply Hk; [lia | apply N].
Qed.
Lemma d_reply r ctx n msg s : Z.of_nat (length msg) <= n → defined (reply r ctx n msg s).
Proof. intros H. destruct (reply_defined r ctx n msg s H) as (s' & -> & _). eauto. Qed.
Lemma d_then o k : defined o → (forall s', defined (k s')) → defined (o ≫= k).
Proof. intros [s' ->] H. apply H. Qed.
Lemma d_some s : defined (Some s).
Proof. eauto. Qed.

Lemma pub_set_success m a i c t p x s : fst (_mod_pub_set m a i c t p x s) = STATUS_SUCCESS → is_Some (mo ← model_at m (comp (snd (_mod_pub_set m a i c t p x s))); m_pub mo).
Proof.
  unfold _mod_pub_set. destruct (mo ← model_at m (comp s); m_pub mo) as [pb|] eqn:E; [|done]. apply bind_Some in E as (mo & Hm & Hp). destruct (truthy c); [done|]. destruct (_ && _); [done|].
  assert (forall f, is_Some (mo ← model_at m (comp (on_model m (on_pub f) s)); m_pub mo)) as F by (intros f; cbn [on_model with_comp comp]; rewrite model_at_alter, decide_True, Hm by done; cbn; rewrite Hp; eauto).
  destruct (_ =? _); [intros _; apply F|]. destruct (bt_mesh_app_key_find _ _); [intros _; apply F|done].
Qed.
Lemma d_pub_status r ctx ea pa vnd m st buf s : ((if vnd : bool then 4 else 2) <= length buf)%nat → (st = STATUS_SUCCESS → is_Some (x ← m; mo ← model_at x (comp s); m_pub mo)) → defined (send_mod_pub_status r ctx ea pa vnd m st buf s).
Proof.
  intros Hl Hp. unfold send_mod_pub_status. assert (exists body, (if negb (st =? STATUS_SUCCESS) then Some (zeros 7) else p ← (x ← m; mo ← model_at x (comp s); m_pub mo);
    Some (le16 pa ++ le16 (Z.lor (p_key p) (u16 (Z.shiftl (p_cred p) 12))) ++ [p_ttl p; p_period p; p_retransmit p])) = Some body /\ length body = 7%nat) as (body & -> & Hb).
  { destruct (Z.eqb_spec st STATUS_SUCCESS) as [->|]; cbn [negb]; [|by eexists]. destruct (Hp eq_refl) as [p ->]. cbn. by eexists. }
  cbn [mbind option_bind]. apply d_mod_id; [done|]. intros id Hid. apply d_reply. msg_len.
Qed.
Lemma d_sub_status r ctx st ea sa vnd buf s : ((if vnd : bool then 4 else 2) <= length buf)%nat → defined (send_mod_sub_status r ctx st ea sa vnd buf s).
Proof. intros Hl. unfold send_mod_sub_status. apply d_mod_id; [done|]. intros id Hid. apply d_reply. msg_len. Qed.

Lemma idx_list_length l prev : 2 * Z.of_nat (length (idx_list l prev)) <= 3 * (Z.of_nat (length l) + (if prev =? BT_MESH_KEY_UNUSED then 0 else 1)) + 1.
Proof.
  revert prev. induction l as [|i l IH]; intros prev; cbn [idx_list].
  - destruct (_ =? _); cbn; lia.
  - destruct (prev =? BT_MESH_KEY_UNUSED); [specialize (IH i); destruct (i =? _) in IH; cbn [length] in *; cbv iota; lia|]. specialize (IH BT_MESH_KEY_UNUSED). rewrite length_app. change (_ =? _) with true in IH. cbv iota in IH. assert (length (key_idx_pack prev i) = 3%nat) as -> by done. cbn [length]. cbv iota. lia.
Qed.
Lemma idx_list_fits l m : Z.of_nat (length l) <= m → Z.of_nat (length (idx_list l BT_MESH_KEY_UNUSED)) <= IDX_LEN m.
Proof. intros H. pose proof (idx_list_length l BT_MESH_KEY_UNUSED) as L. change (_ =? _) with true in L. cbv iota in L. unfold IDX_LEN. dlia. Qed.
Lemma filter_short {A} (f : A → bool) l : (length (List.filter f l) <= length l)%nat.
Proof. induction l as [|x l IH]; cbn; [lia|]. destruct (f x); cbn; lia. Qed.
Lemma length_concat_le16 l : length (concat (map le16 l)) = (2 * length l)%nat.
Proof. induction l as [|x l IH]; cbn; [done|]. lia. Qed.

(** The composition data fits in a message or has no vendor models (which the code counts with half
    their size), and lists are no longer than the buffers for them. *)
Definition comp_size (c : list bt_mesh_elem) : Z := foldr (λ e n, 4 + 2 * Z.of_nat (length (e_models e)) + 4 * Z.of_nat (length (e_vnd e)) + n) 0 c.
Record fits (s : node) : Prop := {
  fit_comp : 12 + comp_size (comp s) <= BT_MESH_TX_SDU_MAX \/ Forall (λ e, e_vnd e = []) (comp s);
  fit_groups : forall r m, model_at r (comp s) = Some m → (length (m_groups m) <= length (g_sub_list s))%nat;
  fit_keys : forall r m, model_at r (comp s) = Some m → (length (m_keys m) <= 5)%nat }.

Lemma comp_size_pos c : 0 <= comp_size c.
Proof. unfold comp_size. induction c as [|e c IH]; cbn [foldr]; lia. Qed.
Lemma ids_length ms : length (concat (map (λ m, le16 (m_id m)) ms)) = (2 * length ms)%nat.
Proof. induction ms as [|m ms IH]; [done|]. cbn [map concat]. rewrite length_app, IH, length_le16. cbn [length]. lia. Qed.
Lemma vnd_ids_length ms : length (concat (map (λ m, le16 (m_company m) ++ le16 (m_id m)) ms)) = (4 * length ms)%nat.
Proof. induction ms as [|m ms IH]; [done|]. cbn [map concat]. rewrite !length_app, IH, !length_le16. cbn [length]. lia. Qed.
Lemma comp_added n c buf : Z.of_nat (length buf) + comp_size c <= n → exists out, comp_add_elems n c buf = Some (0, out) /\ Z.of_nat (length out) <= n.
Proof.
  revert buf. induction c as [|e c IH]; intros buf H; [exists buf; split; [done|]; cbn in H; lia|]. cbn [comp_add_elems]. change (comp_size (e :: c)) with (4 + 2 * Z.of_nat (length (e_models e)) + 4 * Z.of_nat (length (e_vnd e)) + comp_size c) in H.
  pose proof (comp_size_pos c). unfold comp_add_elem. rewrite (proj2 (Z.ltb_ge (n - Z.of_nat (length buf)) _)) by lia. cbv zeta.
  match goal with |- context [n <? Z.of_nat (length ?b)] => assert (Z.of_nat (length b) = Z.of_nat (length buf) + 4 + 2 * Z.of_nat (length (e_models e)) + 4 * Z.of_nat (length (e_vnd e))) as L by (rewrite !length_app, ids_length, vnd_ids_length, length_le16; cbn [length]; lia) end.
  rewrite L. rewrite (proj2 (Z.ltb_ge _ _)) by lia. cbn [mbind option_bind]. change (negb (0 =? 0)) with false. cbv iota. apply IH. rewrite L. lia.
Qed.

(** Without vendor models the test of the room that is left is exact. *)
Lemma comp_tested n c buf : Forall (λ e, e_vnd e = []) c → Z.of_nat (length buf) <= n → exists err out, comp_add_elems n c buf = Some (err, out) /\ (0 <= err → Z.of_nat (length out) <= n).
Proof.
  intros F. revert buf. induction F as [|e c He F IH]; intros buf H; [by exists 0, buf|]. cbn [comp_add_elems]. unfold comp_add_elem. rewrite He. destruct (Z.ltb_spec (n - Z.of_nat (length buf)) (4 + Z.of_nat (length (e_models e)) * 2 + Z.of_nat (@length bt_mesh_model []) * 2)) as [G|G].
  - exists (- E2BIG), buf. cbn. split; [done|]. by intros [].
  - cbv zeta. match goal with |- context [n <? Z.of_nat (length ?b)] => assert (Z.of_nat (length b) <= n) as L by (rewrite !length_app, ids_length, length_le16; cbn [length map concat] in *; lia) end.
    rewrite (proj2 (Z.ltb_ge _ _)) by lia. cbn [mbind option_bind]. change (negb (0 =? 0)) with false. cbv iota. by apply IH.
Qed.

Context (r : mref) (ctx : bt_mesh_msg_ctx).
Lemma d_comp_data buf s : fits s → (1 <= length buf)%nat → defined (dev_comp_data_get r ctx buf s).
Proof.
  intros [F _ _] H. unfold dev_comp_data_get, comp_get_page_0. apply d_u8; [done|]. intros page rest _. destruct (dev_ids s) as [[cid pid] vid]. cbv zeta.
  match goal with |- context [comp_add_elems ?n ?c ?b] => assert (exists err out, comp_add_elems n c b = Some (err, out) /\ (0 <= err → Z.of_nat (length out) <= n)) as (err & out & -> & L) end.
  { destruct F as [F|F]; [|apply comp_tested; [done | msg_len; done]]. match goal with |- context [comp_add_elems ?n ?c ?b] => destruct (comp_added n c b) as (out & E & L); [msg_len|] end. by exists 0, out. }
  cbn [mbind option_bind]. destruct (Z.ltb_spec err 0); [done|]. by apply d_reply, L.
Qed.
Lemma d_sub_list a id f n op s : fits s → (length id <= 4)%nat → (length (bt_mesh_model_msg_init op) = 2)%nat → n = Z.of_nat (9 + length id + 2 * length (g_sub_list s)) →
  defined (reply r ctx n (bt_mesh_model_msg_init op ++ sub_list_status a id f s) s).
Proof.
  intros [_ F _] Hid Hop ->. apply d_reply. rewrite length_app, Hop. unfold sub_list_status. destruct (elem_find_in _ _); [|msg_len]. destruct (m ← _; model_at m (comp s)) as [mo|] eqn:E; [|msg_len]. apply bind_Some in E as (m & _ & E). apply F in E.
  unfold group_bytes. pose proof (filter_short (λ a, negb (a =? BT_MESH_ADDR_UNASSIGNED)) (m_groups mo)). rewrite !length_app, length_concat_le16, length_le16. cbn [length]. lia.
Qed.
Lemma d_app_get (l : Z + nat * mref) vnd ea buf s : fits s → ((if vnd : bool then 4 else 2) <= length buf)%nat →
  defined (id ← mod_id vnd buf; reply r ctx 19 (bt_mesh_model_msg_init (if vnd then OP_VND_MOD_APP_LIST else OP_SIG_MOD_APP_LIST) ++ [match l with inl st => st | inr _ => STATUS_SUCCESS end] ++ le16 ea ++ id ++
    match l with inr (_, m) => match model_at m (comp s) with Some mo => key_bytes mo | None => [] end | inl _ => [] end : list Z) s).
Proof.
  intros [_ _ F] H. apply d_mod_id; [done|]. intros id Hid. apply d_reply.
  assert (length (match l with inr (_, m) => match model_at m (comp s) with Some mo => key_bytes mo | None => [] end | inl _ => [] end : list Z) <= 10)%nat as L.
  { destruct l as [st|[i m]]; [cbn; lia|]. destruct (model_at m (comp s)) as [mo|] eqn:E; [|cbn; lia]. apply F in E. unfold key_bytes. rewrite length_concat_le16. pose proof (filter_short (λ k, negb (k =? BT_MESH_KEY_UNUSED)) (m_keys mo)). lia. }
  rewrite !length_app, length_le16. destruct vnd; msg_len.
Qed.

Ltac d_step :=
  match goal with
  | |- is_Some (@mbind option option_bind node node _ _) => apply d_then; [|intros]
  | |- is_Some (net_buf_simple_pull_le16 _ ≫= _) => apply d_le16; [lia|intros]
  | |- is_Some (net_buf_simple_pull_u8 _ ≫= _) => apply d_u8; [lia|intros]
  | |- is_Some (net_buf_simple_pull _ _ ≫= _) => apply d_pull; [lia|intros]
  | |- is_Some (key_idx_unpack _ ≫= _) => apply d_unpack; [lia|intros]
  | |- is_Some (locate _ _ _ ≫= _) => apply d_locate; [lia|intros]
  | |- is_Some (mod_id _ _ ≫= _) => apply d_mod_id; [done|intros]
  | |- is_Some (send_mod_sub_status _ _ _ _ _ _ _ _) => by apply d_sub_status
  | |- is_Some (reply _ _ _ _ _) => apply d_reply; msg_len
  | |- is_Some (Some _) => apply d_some
  | |- is_Some (match ?x with _ => _ end) => destruct x eqn:?
  end.
Ltac defined := cbv zeta; repeat (cbv beta iota; d_step); try done; try lia.

Lemma d_app_key_get buf s : (2 <= length buf)%nat → defined (app_key_get r ctx buf s).
Proof.
  intros H. unfold app_key_get. apply d_le16; [done|]. intros idx rest _. destruct (_ <? _); [apply d_some|]. cbv zeta. apply d_reply. set (st := match subnet_num idx s with None => _ | Some _ => _ end).
  set (l := if st =? STATUS_SUCCESS then _ else _). assert (Z.of_nat (length l) <= IDX_LEN (Z.of_nat (length (app_keys_of s)))) as L.
  { unfold l. destruct (_ =? _); [|cbn; unfold IDX_LEN; dlia]. apply idx_list_fits. rewrite length_map. pose proof (filter_short (λ k, ak_net_idx k =? idx) (app_keys_of s)). lia. }
  msg_len.
Qed.
Lemma d_net_key_get buf s : defined (net_key_get r ctx buf s).
Proof.
  unfold net_key_get. apply d_reply. assert (Z.of_nat (length (idx_list (used_idx s) BT_MESH_KEY_UNUSED)) <= IDX_LEN (Z.of_nat (length (subs_of s)))) as L.
  { apply idx_list_fits. unfold used_idx. pose proof (filter_short (λ i, negb (i =? BT_MESH_KEY_UNUSED)) (map sub_net_idx (subs_of s))) as H. rewrite length_map in H. lia. }
  msg_len.
Qed.
Lemma d_mod_pub_get buf s : (4 <= length buf)%nat → defined (mod_pub_get r ctx buf s).
Proof.
  intros H. unfold mod_pub_get. apply d_le16; [lia|]. intros ea rest L. apply d_locate; [lia|]. intros l vnd V N. destruct l as [st|[i m]]; [apply d_pub_status; [done|]; intros ->; by destruct (N _ eq_refl)|].
  destruct (mo ← model_at m (comp s); m_pub mo) as [p|] eqn:E; apply d_pub_status; done.
Qed.
(** The settings, of which at least five bytes are there. *)
Lemma d_pull_pub buf k : (5 <= length buf)%nat → (forall i c t, defined (k (i, c, t, None))) → (forall i c t p x rest, length rest = (length buf - 5)%nat → defined (k (i, c, t, Some (p, x, rest)))) → defined (pull_pub buf ≫= k).
Proof.
  intros H H1 H2. destruct buf as [|b0 [|b1 [|b2 [|b3 [|b4 buf]]]]]; cbn [length] in *; try lia. unfold pull_pub. cbn [net_buf_simple_pull_le16 net_buf_simple_pull_u8 mbind option_bind]. cbv zeta. destruct (_ && _); cbn [mbind option_bind]; [apply H1 | apply H2; lia].
Qed.
Lemma d_pub_set m ea pa vnd idx cred ttl period ret buf s : ((if vnd : bool then 4 else 2) <= length buf)%nat →
  defined (let '(status, s) := _mod_pub_set m pa idx cred ttl period ret s in send_mod_pub_status r ctx ea pa vnd (Some m) status buf s).
Proof.
  intros V. pose proof (pub_set_success m pa idx cred ttl period ret s) as P. destruct (_mod_pub_set m pa idx cred ttl period ret s) as [st s1]. apply d_pub_status; [done|]. intros ->. by apply P.
Qed.
Lemma d_mod_pub_set buf s : (11 <= length buf)%nat → defined (mod_pub_set r ctx buf s).
Proof.
  intros H. unfold mod_pub_set. apply d_le16; [lia|]. intros ea rest L. apply d_le16; [lia|]. intros pa rest2 L2. apply d_pull_pub; [lia|intros; apply d_some|]. intros idx cred ttl period ret rest3 L3.
  apply d_locate; [lia|]. intros l vnd V N. destruct l as [st|[i m]]; [apply d_pub_status; [done|]; intros ->; by destruct (N _ eq_refl)|]. by apply d_pub_set.
Qed.
Lemma d_mod_pub_va_set buf s : (25 <= length buf)%nat → defined (mod_pub_va_set r ctx buf s).
Proof.
  intros H. unfold mod_pub_va_set. apply d_le16; [lia|]. intros ea rest L. apply d_pull; [lia|]. intros uuid rest2 _ L2. apply d_pull_pub; [lia|intros; apply d_some|]. intros idx cred ttl period ret rest3 L3.
  apply d_locate; [lia|]. intros l vnd V N. destruct l as [st|[i m]]; [apply d_pub_status; [done|]; intros ->; by destruct (N _ eq_refl)|].
  destruct (va_add uuid s) as [[st a] s1]. destruct (Z.eqb_spec st STATUS_SUCCESS) as [->|Ne]; [by apply d_pub_set | by apply d_pub_status].
Qed.
Lemma d_mod_app_bind buf s : (6 <= length buf)%nat → defined (mod_app_bind r ctx buf s) /\ defined (mod_app_unbind r ctx buf s).
Proof.
  intros H. unfold mod_app_bind, mod_app_unbind, create_mod_app_status.
  split; (apply d_le16; [lia|]; intros ea rest L; apply d_le16; [lia|]; intros ka rest2 L2; apply d_locate; [lia|]; intros l vnd V _;
    match goal with |- is_Some (let '(_, _) := ?x in _) => destruct x as [st s1] end; apply d_mod_id; [done|]; intros id Hid; apply d_reply; msg_len).
Qed.
Lemma d_mod_app_get buf s : fits s → (4 <= length buf)%nat → defined (mod_app_get r ctx buf s).
Proof. intros F H. unfold mod_app_get. apply d_le16; [lia|]. intros ea rest L. apply d_locate; [lia|]. intros l vnd V _. by apply d_app_get. Qed.
Lemma d_mod_sub_get buf s : fits s → (4 <= length buf)%nat → defined (mod_sub_get r ctx buf s).
Proof. intros F H. unfold mod_sub_get. apply d_le16; [lia|]. intros a rest L. apply d_le16; [lia|]. intros id rest2 _. apply d_sub_list; [done|cbn; lia|done|cbn [length le16]; lia]. Qed.
Lemma d_mod_sub_get_vnd buf s : fits s → (6 <= length buf)%nat → defined (mod_sub_get_vnd r ctx buf s).
Proof.
  intros F H. unfold mod_sub_get_vnd. apply d_le16; [lia|]. intros a rest L. apply d_le16; [lia|]. intros cid rest2 L2. apply d_le16; [lia|]. intros id rest3 _. apply d_sub_list; [done|cbn; lia|done|cbn [length le16 app]; lia].
Qed.

Lemma d_heartbeat_pub_set buf s : (9 <= length buf)%nat → defined (heartbeat_pub_set r ctx buf s).
Proof. intros H. unfold heartbeat_pub_set, hb_pub_send_status. apply d_pull; [done|]. intros l rest L _. defined. Qed.

(** Every entry of the table, by its handler. *)
Lemma table_min o h : o ∈ bt_mesh_cfg_srv_op → op_func o = Cfg h → op_min_len o = Z.of_nat (match h with
  | App_key_add | App_key_update => 19 | App_key_del | Krp_set | Node_identity_set => 3 | App_key_get | Relay_set | Net_key_del | Node_identity_get | Lpn_timeout_get | Krp_get => 2
  | Dev_comp_data_get | Beacon_set | Default_ttl_set | Gatt_proxy_set | Net_transmit_set | Friend_set => 1
  | Mod_pub_get | Mod_sub_del_all | Mod_sub_get => 4 | Mod_pub_set => 11 | Mod_pub_va_set => 24
  | Mod_sub_add | Mod_sub_del | Mod_sub_overwrite | Mod_sub_get_vnd | Mod_app_bind | Mod_app_unbind => 6
  | Mod_sub_va_add | Mod_sub_va_del | Mod_sub_va_overwrite => 20 | Net_key_add | Net_key_update => 18 | Heartbeat_pub_set => 9 | Heartbeat_sub_set => 5
  | Mod_app_get => if op_code o =? OP80 77 then 6 else 4 | _ => 0 end).
Proof. unfold bt_mesh_cfg_srv_op. intros Ho Hf. repeat (apply elem_of_cons in Ho as [->|Ho]; [cbn in Hf; injection Hf as <-; reflexivity|]). by apply elem_of_nil in Ho. Qed.

Ltac by_table := match goal with |- is_Some (?f _ _ _ _) => unfold f, send_net_key_status, send_krp_status, send_gatt_proxy_status, send_friend_status, hb_pub_send_status, hb_sub_send_status, app_key_status, relay_status, identity_status, key_idx_pack; defined end.
Lemma d_cfg_call h o buf s : fits s → o ∈ bt_mesh_cfg_srv_op → op_func o = Cfg h → op_min_len o <= Z.of_nat (length buf) → (h = Mod_pub_va_set → length buf ≠ 24%nat) → defined (cfg_call h r ctx buf s).
Proof.
  intros F Ho Hf Hl Hva. rewrite (table_min o h Ho Hf) in Hl. apply Nat2Z.inj_le in Hl. clear Ho Hf. destruct h; cbn [cfg_call];
    first [by apply d_comp_data | by apply d_app_key_get | by apply d_net_key_get | by apply d_mod_pub_get | by apply d_mod_pub_set | by apply d_mod_sub_get | by apply d_mod_sub_get_vnd | by apply d_heartbeat_pub_set
          | by apply d_mod_app_bind | apply d_mod_app_get; [done|]; destruct (_ =? _) in Hl; lia | apply d_mod_pub_va_set; specialize (Hva eq_refl); lia | by_table].
Qed.
End Defined.


(** [C23] On a node whose lists of groups and keys are no longer than configured, and whose composition data either fits in a message or has no vendor models, no message makes the configuration server read or write out of bounds: a message that is long enough for its opcode in the table [bt_mesh_cfg_srv_op], whatever its bytes and however long it is, is handled without a read behind its end or a write behind the end of the answer's buffer.  Left out are a virtual publication address with 24 bytes of parameters ([pub_va_overread]) and composition data with vendor models that is too long ([comp_data_overflow]). *)
Theorem handlers_in_bounds h o r ctx buf s : fits s → o ∈ bt_mesh_cfg_srv_op → op_func o = Cfg h → op_min_len o <= Z.of_nat (length buf) → (h = Mod_pub_va_set → length buf ≠ 24%nat) → is_Some (cfg_call h r ctx buf s).
Proof. apply d_cfg_call. Qed.

Lemma light_fits : fits (light 2 100 (repeat 0 8)).
Proof.
  assert (forall r m, model_at r (comp (light 2 100 (repeat 0 8))) = Some m → m ∈ [cfg_model (repeat 0 8); onoff_model (repeat 0 8); vendor_model (repeat 0 8)]) as M.
  { intros [e v j] m. unfold model_at. destruct e as [|e]; [|done]. destruct v, j as [|[|j]]; cbn; try done; intros [= <-]; rewrite !elem_of_cons; auto. }
  split; [left; done| |]; intros r m Hm%M; rewrite !elem_of_cons in Hm; destruct Hm as [->|[->|[->|[]%elem_of_nil]]]; cbn; lia.
Qed.
Lemma handlers_in_bounds_witness : is_Some (cfg_call Mod_pub_va_set (mkRef 0 false 0) (mkCtx 0 BT_MESH_KEY_DEV 1 BT_MESH_TTL_DEFAULT 0) (le16 2 ++ repeat 9 16 ++ [0; 0; 5; 0; 0] ++ le16 4096) (light 2 100 (repeat 0 8))).
Proof.
  apply (handlers_in_bounds Mod_pub_va_set (mkOp (OP80 26) 24 (Cfg Mod_pub_va_set)) (mkRef 0 false 0)); [apply light_fits| |done|cbn; lia|done]. unfold bt_mesh_cfg_srv_op. repeat (apply elem_of_cons; (by left) || right).
Defined.

(** The case that was left out: the table asks for 24 bytes, but the handler reads 25; the last byte of the model identifier is taken from behind the message, for every message of that length with a valid TTL. *)
Theorem pub_va_overread r ctx buf s : length buf = 24%nat → at_ 20 buf <= BT_MESH_TTL_MAX → mod_pub_va_set r ctx buf s = None.
Proof.
  intros H T. do 24 (destruct buf as [|? buf]; [done|]). destruct buf; [|done]. cbn in T. unfold mod_pub_va_set. cbn -[locate va_add send_mod_pub_status]. rewrite (proj2 (Z.ltb_ge _ _) T). cbn [andb mbind option_bind]. unfold locate.
  destruct (elem_find_in _ _); cbn -[va_add _mod_pub_set]; [done|]. unfold send_mod_pub_status. cbn. done.
Qed.
Lemma pub_va_overread_witness : mod_pub_va_set (mkRef 0 false 0) (mkCtx 0 BT_MESH_KEY_DEV 1 BT_MESH_TTL_DEFAULT 0) (repeat 0 24) (light 2 100 (repeat 0 8)) = None.
Proof. apply (pub_va_overread _ _ (repeat 0 24)); done. Defined.

(** Composition data: room is asked for two bytes for every vendor model, which takes
    four.  An element with 20 vendor models does not fit, but is written. *)
Theorem comp_data_overflow : let e := mkElem 2 0 0 [cfg_model []] (repeat (vendor_model []) 20) in
  comp_add_elem BT_MESH_TX_SDU_MAX e (repeat 0 12) = None /\ Z.of_nat (length (repeat 0 12)) + 4 + 2 + 2 * 20 <= BT_MESH_TX_SDU_MAX.
Proof. vm_compute. split; [reflexivity | discriminate]. Qed.

(** ** Subscriptions *)

Section Subscribe.
Context (i : nat).
(** What names a model of the element. *)
Definition name_of (vnd : bool) (m : bt_mesh_model) : Z * Z := (if vnd then m_company m else 0, m_id m).
Definition find_named (vnd : bool) (x : Z * Z) (s : node) : option mref := if vnd then bt_mesh_model_find_vnd i (fst x) (snd x) s else bt_mesh_model_find i (snd x) s.
Definition bind_named (vnd : bool) (s : node) (mo : bt_mesh_model) : node := match find_named vnd (name_of vnd mo) s with Some m => on_model m (set_groups (g_sub_list s)) s | None => s end.

(** Each name once. *)
Definition named_once (vnd : bool) (s : node) : Prop := forall j j' m m', model_at (mkRef i vnd j) (comp s) = Some m → model_at (mkRef i vnd j') (comp s) = Some m' → name_of vnd m = name_of vnd m' → j = j'.
(** The models with name [x] have the list. *)
Definition subscribed (vnd : bool) (x : Z * Z) (s : node) : Prop := forall j m, model_at (mkRef i vnd j) (comp s) = Some m → name_of vnd m = x → m_groups m = g_sub_list s.

Lemma find_named_spec vnd x s m : (vnd = false → fst x = 0) → find_named vnd x s = Some m → exists j mo, m = mkRef i vnd j /\ model_at m (comp s) = Some mo /\ name_of vnd mo = x.
Proof.
  intros Hx. destruct x as [c d]. unfold find_named, bt_mesh_model_find_vnd, bt_mesh_model_find, find_vnd, find_sig, name_of, model_at. destruct vnd; cbn [fst snd] in *.
  - intros (e & He & H)%bind_Some. apply fmap_Some in H as (j & H & ->). apply fmap_Some in H as ([j' mo] & (H1 & [H2 H3] & _)%list_find_Some & ->). exists j', mo. cbn. rewrite He. cbn. subst. done.
  - intros (e & He & H)%bind_Some. apply fmap_Some in H as (j & H & ->). apply fmap_Some in H as ([j' mo] & (H1 & H2 & _)%list_find_Some & ->). exists j', mo. cbn. rewrite He. cbn. rewrite Hx by done. subst. done.
Qed.
Lemma find_named_None vnd x s j m : find_named vnd x s = None → model_at (mkRef i vnd j) (comp s) = Some m → name_of vnd m ≠ x.
Proof.
  destruct x as [c d]. unfold find_named, bt_mesh_model_find_vnd, bt_mesh_model_find, find_vnd, find_sig, name_of, model_at. cbn [r_elem r_vnd r_model fst snd]. destruct (comp s !! i) as [e|]; [|done]. cbn [mbind option_bind].
  destruct vnd; cbn [models_of]; intros H Hm [= E1 E2]; apply fmap_None, fmap_None, list_find_None in H; eapply Forall_lookup_1 in H; [|exact Hm| |exact Hm]; cbn in H; auto.
Qed.

Lemma on_groups_at m g r s : model_at r (comp (on_model m (set_groups g) s)) = if decide (m = r) then set_groups g <$> model_at m (comp s) else model_at r (comp s).
Proof. apply model_at_alter. Qed.
Lemma groups_names m g vnd s : named_once vnd s → named_once vnd (on_model m (set_groups g) s).
Proof.
  intros N j j' a b. rewrite !on_groups_at. intros Ha Hb Hab.
  assert (forall k c, (if decide (m = mkRef i vnd k) then set_groups g <$> model_at m (comp s) else model_at (mkRef i vnd k) (comp s)) = Some c → exists c', model_at (mkRef i vnd k) (comp s) = Some c' /\ name_of vnd c' = name_of vnd c) as P.
  { clear. intros k c. destruct (decide (m = mkRef i vnd k)) as [->|D]; [|eauto]. intros (c' & Hc & ->)%fmap_Some. exists c'. split; [done|]. by destruct vnd. }
  destruct (P j a Ha) as (a' & Ha' & Ea), (P j' b Hb) as (b' & Hb' & Eb). apply (N j j' a' b' Ha' Hb'). congruence.
Qed.
Lemma groups_subscribed m vnd x s : subscribed vnd x s → subscribed vnd x (on_model m (set_groups (g_sub_list s)) s).
Proof. intros S j a. rewrite on_groups_at. case_decide; [|apply S]. intros (c & Hc & ->)%fmap_Some _. done. Qed.

Lemma bind_named_step vnd mo s : named_once vnd s → let s' := bind_named vnd s mo in named_once vnd s' /\ subscribed vnd (name_of vnd mo) s' /\ g_sub_list s' = g_sub_list s /\ (forall v x, subscribed v x s → subscribed v x s') /\ (forall v, named_once v s → named_once v s').
Proof.
  intros N. unfold bind_named. destruct (find_named vnd (name_of vnd mo) s) as [m|] eqn:F; cbv zeta.
  - assert (vnd = false → fst (name_of vnd mo) = 0) as Z0 by (clear; by destruct vnd). destruct (find_named_spec vnd _ s m Z0 F) as (j & mo' & -> & Hm & E). split; [by apply groups_names|]. split; [|split; [done|split; [intros; by apply groups_subscribed | intros; by apply groups_names]]].
    intros j' a. rewrite on_groups_at. case_decide as D; [intros (c & Hc & ->)%fmap_Some _; done|]. intros Ha Ea. destruct D. f_equal. apply (N j j' mo' a Hm Ha). congruence.
  - split; [done|]. split; [|done]. intros j a Ha Ea. by destruct (find_named_None vnd _ s j a F Ha).
Qed.
Lemma bind_all_named vnd l s : named_once vnd s → let s' := fold_left (bind_named vnd) l s in
  (forall mo, mo ∈ l → subscribed vnd (name_of vnd mo) s') /\ g_sub_list s' = g_sub_list s /\ (forall v x, subscribed v x s → subscribed v x s') /\ (forall v, named_once v s → named_once v s').
Proof.
  revert s. induction l as [|mo l IH]; intros s N; cbn [fold_left]; [split_and!; try done; by intros mo []%elem_of_nil|].
  destruct (bind_named_step vnd mo s N) as (N1 & S1 & G1 & P1 & Q1). destruct (IH _ N1) as (S2 & G2 & P2 & Q2). split_and!; [|congruence|auto|auto].
  intros m [->|Hm]%elem_of_cons; [by apply P2 | by apply S2].
Qed.
End Subscribe.

Lemma named_once_nodup i vnd e s : comp s !! i = Some e → NoDup (map (name_of vnd) (models_of vnd e)) → named_once i vnd s.
Proof.
  intros He N j j' m m'. unfold model_at. cbn. rewrite He. cbn. intros Hm Hm' E. apply (NoDup_lookup _ _ _ (name_of vnd m) N); change (map ?f ?l) with (f <$> l); rewrite list_lookup_fmap; [by rewrite Hm | rewrite Hm'; cbn; congruence].
Qed.

(** Binding an element: every model with a name of its own gets the list. *)
Lemma elem_sub_bound i e s : comp s !! i = Some e → (forall vnd, NoDup (map (name_of vnd) (models_of vnd e))) →
  let s' := _elem_sub_bind i s in g_sub_list s' = g_sub_list s /\ forall vnd mo, mo ∈ models_of vnd e → subscribed i vnd (name_of vnd mo) s'.
Proof.
  intros He N. unfold _elem_sub_bind. rewrite He.
  assert (forall l s, fold_left (λ s mo, match bt_mesh_model_find i (m_id mo) s with Some m => on_model m (set_groups (g_sub_list s)) s | None => s end) l s = fold_left (bind_named i false) l s) as -> by done.
  assert (forall l s, fold_left (λ s mo, match bt_mesh_model_find_vnd i (m_company mo) (m_id mo) s with Some m => on_model m (set_groups (g_sub_list s)) s | None => s end) l s = fold_left (bind_named i true) l s) as -> by done.
  cbv zeta. destruct (bind_all_named i false (e_models e) s (named_once_nodup i false e s He (N false))) as (S1 & G1 & P1 & Q1). set (s1 := fold_left (bind_named i false) _ s) in *.
  destruct (bind_all_named i true (e_vnd e) s1 (Q1 true (named_once_nodup i true e s He (N true)))) as (S2 & G2 & P2 & Q2). split; [congruence|]. intros [|] mo Hmo; [by apply S2 | by apply P2, S1].
Qed.

(** Names do not change, so that every model is one of the element's. *)
Lemma bind_named_names i vnd l s r : (λ m, (m_company m, m_id m)) <$> model_at r (comp (fold_left (bind_named i vnd) l s)) = (λ m, (m_company m, m_id m)) <$> model_at r (comp s).
Proof.
  revert s. induction l as [|mo l IH]; intros s; [done|]. cbn [fold_left]. rewrite IH. unfold bind_named. destruct (find_named i vnd _ s) as [m|]; [|done]. rewrite on_groups_at. case_decide; [subst|done]. by destruct (model_at r (comp s)).
Qed.

(** Subscribing one model subscribes its whole element: when a model is given a group it is not in and there is room, the group enters the list all models share, and every model of the element then has exactly that list; whatever list of its own a model had before is gone. *)
Theorem sub_add_element i m a e s s' : sub_add i m a s = (STATUS_SUCCESS, s') → find_group m a s = None → comp s !! i = Some e → (forall vnd, NoDup (map (name_of vnd) (models_of vnd e))) →
  a ∈ g_sub_list s' /\ forall r mo, r_elem r = i → model_at r (comp s') = Some mo → m_groups mo = g_sub_list s'.
Proof.
  unfold sub_add. destruct (negb _); [done|]. intros H F He N. rewrite F in H. destruct (index_of _ _ _) as [k|] eqn:I; [|done]. injection H as <-. set (s1 := with_sub_list _ s).
  destruct (elem_sub_bound i e s1 He N) as [G S]. split.
  - rewrite G. cbn. apply index_of_lookup in I as (n & -> & Hn). apply (list_elem_of_lookup_2 _ n). apply list_lookup_insert_eq. by apply lookup_lt_Some in Hn.
  - intros [x v j] mo Hx Hm. cbn in Hx. subst x. assert (exists mo0, model_at (mkRef i v j) (comp s1) = Some mo0 /\ name_of v mo0 = name_of v mo) as (mo0 & Hm0 & E).
    { assert ((λ m, (m_company m, m_id m)) <$> model_at (mkRef i v j) (comp (_elem_sub_bind i s1)) = (λ m, (m_company m, m_id m)) <$> model_at (mkRef i v j) (comp s1)) as E.
      { unfold _elem_sub_bind. change (comp s1 !! i) with (comp s !! i). rewrite He. etransitivity; [apply (bind_named_names i true) | apply (bind_named_names i false)]. }
      rewrite Hm in E. symmetry in E. apply fmap_Some in E as (mo0 & H0 & [= E1 E2]). exists mo0. split; [done|]. unfold name_of. destruct v; congruence. }
    assert (mo0 ∈ models_of v e) as Hin; [|by apply (S v mo0 Hin j mo)]. unfold model_at in Hm0. cbn in Hm0. change (comp s1) with (comp s) in Hm0. rewrite He in Hm0. cbn in Hm0. by apply list_elem_of_lookup_2 in Hm0.
Qed.

Lemma sub_add_element_witness : let s := light 2 100 (49443 :: repeat 0 7) in let s' := snd (sub_add 0 (mkRef 0 false 1) 49444 s) in
  (m_groups <$> model_at (mkRef 0 true 0) (comp s)) = Some (49443 :: repeat 0 7) /\ (forall mo, model_at (mkRef 0 true 0) (comp s') = Some mo → m_groups mo = 49444 :: repeat 0 7).
Proof.
  intros s s'. split; [done|]. intros mo Hm. destruct (sub_add_element 0 (mkRef 0 false 1) 49444 (light_elem 2 (49443 :: repeat 0 7)) s s') as [_ H]; try reflexivity.
  - intros [|]; vm_compute; repeat constructor; rewrite ?elem_of_cons; intros H; destruct_or?; by try inversion H.
  - by rewrite (H (mkRef 0 true 0) mo eq_refl Hm).
Defined.

(** ** Reset *)

(** What a provisioner sets of a model, apart from keys: its groups, and where and when it publishes. *)
Definition settings (m : bt_mesh_model) : list Z * option (Z * Z * Z * Z * Z) := (m_groups m, (λ p, (p_addr p, p_key p, p_ttl p, p_period p, p_retransmit p)) <$> m_pub m).
(** The models, seen by some projection. *)
Definition same_models {A} (f : bt_mesh_model → A) (s s' : node) : Prop := forall r, f <$> model_at r (comp s') = f <$> model_at r (comp s).
Lemma same_trans {A} (f : bt_mesh_model → A) s1 s2 s3 : same_models f s1 s2 → same_models f s2 s3 → same_models f s1 s3.
Proof. intros H1 H2 r. by rewrite H2. Qed.
Lemma same_on_model {A} (f : bt_mesh_model → A) g r s : (forall m, f (g m) = f m) → same_models f s (on_model r g s).
Proof. intros H r'. cbn [on_model with_comp comp]. rewrite model_at_alter. case_decide; [subst|done]. destruct (model_at r' (comp s)); cbn; [by rewrite H|done]. Qed.
Lemma same_fold {A B} (f : bt_mesh_model → A) (g : node → B → node) l s : (forall s x, same_models f s (g s x)) → same_models f s (fold_left g l s).
Proof. intros H. revert s. induction l as [|x l IH]; intros s; [done|]. cbn. eapply same_trans; [apply H | apply IH]. Qed.

Lemma init_settings r s : same_models settings s (mod_init r s).
Proof.
  unfold mod_init. set (f := λ m, set_keys _ _). assert (same_models settings s (on_model r f s)) as H by (apply same_on_model; intros m; unfold f, settings, on_pub, set_timer; destruct m as [a b [p|]]; done).
  cbv zeta. destruct (r_vnd r); [done|]. destruct (model_at r _); [|done]. destruct (_ =? _); [|done]. unfold bt_mesh_cfg_srv_init. destruct (negb _); [done|]. cbn [snd]. eapply same_trans; [exact H|]. by apply (same_on_model settings).
Qed.

(** No model is bound to an application key. *)
Definition unbound (s : node) : Prop := forall r m k, model_at r (comp s) = Some m → k ∈ m_keys m → k = BT_MESH_KEY_UNUSED \/ k = BT_MESH_KEY_DEV.
Lemma init_keys r s m : model_at r (comp (mod_init r s)) = Some m → forall k, k ∈ m_keys m → k = BT_MESH_KEY_UNUSED \/ k = BT_MESH_KEY_DEV.
Proof.
  unfold mod_init. set (f := λ m, set_keys _ _). assert (forall m, model_at r (comp (on_model r f s)) = Some m → forall k, k ∈ m_keys m → k = BT_MESH_KEY_UNUSED) as H.
  { intros m0. cbn [on_model with_comp comp]. rewrite model_at_alter, decide_True by done. intros (x & _ & ->)%fmap_Some k. cbn. by intros (y & -> & _)%list_elem_of_fmap. }
  cbv zeta. destruct (r_vnd r); [intros; left; by eapply H|]. destruct (model_at r (comp (on_model r f s))) as [mo|] eqn:E; [|intros; congruence]. destruct (_ =? _); [|rewrite E; intros [= <-] k Hk; left; by eapply H].
  unfold bt_mesh_cfg_srv_init. destruct (negb _); [cbn [snd]; rewrite E; intros [= <-] k Hk; left; by eapply H|]. cbn [snd with_conf comp]. cbn [on_model with_comp comp] in *. rewrite (model_at_alter r _ r), decide_True, E by done. cbn. intros [= <-] k. cbn.
  intros (j & Hj)%list_elem_of_lookup. apply lookup_insert_inv in Hj as [[_ ->]|[_ Hj]]; [by right|]. left. eapply H; [done|]. by apply list_elem_of_lookup_2 in Hj.
Qed.
Lemma init_other r r' s : r' ≠ r → model_at r' (comp (mod_init r s)) = model_at r' (comp s).
Proof.
  intros N. unfold mod_init. set (f := λ m, set_keys _ _). assert (forall g s, model_at r' (comp (on_model r g s)) = model_at r' (comp s)) as H by (intros g s0; cbn [on_model with_comp comp]; by rewrite model_at_alter, decide_False).
  cbv zeta. destruct (r_vnd r); [apply H|]. destruct (model_at r _); [|apply H]. destruct (_ =? _); [|apply H]. unfold bt_mesh_cfg_srv_init. destruct (negb _); [apply H|]. cbn [snd with_conf comp]. rewrite H. apply H.
Qed.
Lemma init_all_keys l s r m : r ∈ l → model_at r (comp (fold_left (λ s r, mod_init r s) l s)) = Some m → forall k, k ∈ m_keys m → k = BT_MESH_KEY_UNUSED \/ k = BT_MESH_KEY_DEV.
Proof.
  revert s. induction l as [|x l IH] using rev_ind; intros s Hr; [by apply elem_of_nil in Hr|]. rewrite fold_left_app. cbn [fold_left]. destruct (decide (r = x)) as [->|Ne]; [apply init_keys|]. rewrite init_other by done. apply IH.
  apply elem_of_app in Hr as [?|Hr]; [done|]. by apply list_elem_of_singleton in Hr.
Qed.
Lemma unprovision_unbound s : unbound (bt_mesh_comp_unprovision s) /\ same_models settings s (bt_mesh_comp_unprovision s).
Proof.
  unfold bt_mesh_comp_unprovision, bt_mesh_model_foreach. set (s0 := with_prov _ _ s). assert (same_models settings s0 (fold_left (λ s r, mod_init r s) (all_refs (comp s0)) s0)) as S by (apply (same_fold settings (λ s r, mod_init r s)); intros; apply init_settings).
  split; [|exact S]. intros r m k Hm. eapply init_all_keys; [|exact Hm]. specialize (S r). rewrite Hm in S. symmetry in S. apply fmap_Some in S as (m0 & Hm0 & _). by eapply in_refs.
Qed.

(** Deleting keys that no model is bound to leaves the models alone. *)
Lemma del_unbound i s : unbound s → cfg_inv s → comp (del_step (λ n, negb (n =? BT_MESH_KEY_UNUSED)) s i) = comp s.
Proof.
  intros U H. unfold del_step. destruct (app_keys_of s !! i) as [k|] eqn:E; [|done]. destruct (Z.eqb_spec (ak_net_idx k) BT_MESH_KEY_UNUSED) as [|N]; cbn [negb]; [done|]. destruct (stored_small s i k H E N) as [E1 E2].
  unfold _app_key_del. rewrite E. cbn [put_app_key set_app_keys on_tc with_nt comp]. unfold bt_mesh_model_foreach. generalize (all_refs (comp s)). intros l. induction l as [|m l IH]; [done|]. cbn [fold_left].
  replace (snd (mod_unbind m (ak_app_idx k) s)) with s; [exact IH|]. unfold mod_unbind. destruct (negb _); [done|]. destruct (model_at m (comp s)) as [mo|] eqn:M; [|done]. destruct (index_of _ _ _) as [j|] eqn:I; [|done].
  apply index_of_lookup in I as (n & _ & Hn). apply list_elem_of_lookup_2, (U m mo) in Hn; [|done]. unfold BT_MESH_KEY_UNUSED, BT_MESH_KEY_DEV in Hn. lia.
Qed.
Lemma del_all_unbound l s : unbound s → cfg_inv s → comp (fold_left (del_step (λ n, negb (n =? BT_MESH_KEY_UNUSED))) l s) = comp s.
Proof.
  revert s. induction l as [|i l IH]; intros s U H; [done|]. cbn [fold_left]. pose proof (del_unbound i s U H) as E. rewrite IH; [done| |].
  - unfold unbound. by rewrite E.
  - by apply inv_del_step.
Qed.
Lemma clear_all_subs l s : comp (fold_left (λ s i, subnet_clear i s) l s) = comp s /\ app_keys_of (fold_left (λ s i, subnet_clear i s) l s) = app_keys_of s /\
  forall j sub, subs_of (fold_left (λ s i, subnet_clear i s) l s) !! j = Some sub → j ∈ l \/ sub = unused_subnet → sub = unused_subnet.
Proof.
  induction l as [|i l IH] using rev_ind; [split_and!; try done; by intros j sub _ [[]%elem_of_nil|?]|]. rewrite fold_left_app. cbn [fold_left]. set (s1 := fold_left _ l s) in *. destruct IH as (I1 & I2 & I3). split_and!; [exact I1|exact I2|].
  intros j sub. change (subs_of (subnet_clear i s1)) with (alter (λ _, unused_subnet) i (subs_of s1)). destruct (decide (i = j)) as [<-|Ne].
  - rewrite list_lookup_alter_eq. intros (x & _ & ->)%fmap_Some. done.
  - rewrite list_lookup_alter_ne by done. intros Hs [[?|Hj]%elem_of_app|?]; [by apply (I3 j); [|left] | apply list_elem_of_singleton in Hj; congruence | done].
Qed.
Lemma clear_all_length l s : length (subs_of (fold_left (λ s i, subnet_clear i s) l s)) = length (subs_of s).
Proof. revert s. induction l as [|i l IH]; intros s; [done|]. cbn [fold_left]. rewrite IH. apply length_alter. Qed.

Lemma cfg_reset_spec s : unbound s → cfg_inv s → let s' := bt_mesh_cfg_reset s in
  comp s' = comp s /\ (forall j k, app_keys_of s' !! j = Some k → ak_net_idx k = BT_MESH_KEY_UNUSED) /\ (forall j sub, subs_of s' !! j = Some sub → sub = unused_subnet).
Proof.
  intros U H. unfold bt_mesh_cfg_reset. cbv zeta. set (s0 := hb_pub_disable _). assert (cfg_inv s0) as H0 by (by apply (inv_same s)). assert (unbound s0) as U0 by exact U. assert (comp s0 = comp s) as C0 by done. clearbody s0.
  set (s1 := fold_left _ (seq 0 (length (app_keys_of s0))) s0).
  assert (s1 = fold_left (del_step (λ n, negb (n =? BT_MESH_KEY_UNUSED))) (seq 0 (length (app_keys_of s0))) s0) as E by (apply fold_left_same; intros x i; unfold del_step; destruct (app_keys_of x !! i); [|done]; by destruct (_ =? _)).
  destruct (inv_del_where (λ n, negb (n =? BT_MESH_KEY_UNUSED)) (seq 0 (length (app_keys_of s0))) s0 eq_refl H0) as (H1 & D1 & D2 & D3). pose proof (del_all_unbound (seq 0 (length (app_keys_of s0))) s0 U0 H0) as C1. rewrite <- E in *.
  set (l := seq 0 (length (subs_of s1))). destruct (clear_all_subs l s1) as (A1 & A2 & A3). set (s2 := fold_left _ l s1) in *. split; [change (comp (set_labels ?x s2)) with (comp s2); congruence|]. split.
  - intros j k Hk. change (app_keys_of (set_labels ?x s2)) with (app_keys_of s2) in Hk. rewrite A2 in Hk. destruct (D3 j k Hk) as [F _]. specialize (F ltac:(rewrite <- D2; by eapply all_slots)). apply negb_false_iff, Z.eqb_eq in F. done.
  - intros j sub Hs. change (subs_of (set_labels ?x s2)) with (subs_of s2) in Hs. apply (A3 j sub Hs). left. apply elem_of_seq. apply lookup_lt_Some in Hs. unfold s2 in Hs. rewrite clear_all_length in Hs. lia.
Qed.

(** What a reset does after [bt_mesh_cfg_reset]. *)
Definition reset_tail (s : node) : node :=
  let s := with_nt (bt_mesh_tx_reset (bt_mesh_rx_reset (nt s))) s in
  let s := CfgSrv.set_dev_key (zeros 16) (note (NStack ActProxyGattDisable) s) in
  let s := with_prov false (dev_primary_addr s) (with_nt (bt_mesh_rpl_clear (nt s)) s) in
  note (NStack ActProvReset) (note (NStack ActBeaconDisable) (note (NStack ActScanDisable) s)).
Lemma reset_unfold s : n_provisioned s = true →
  CfgSrv.bt_mesh_reset s = reset_tail (bt_mesh_cfg_reset (clear_iv (with_sub_list (map (λ _, 0) (g_sub_list (bt_mesh_comp_unprovision s))) (bt_mesh_comp_unprovision s)))).
Proof. intros P. unfold CfgSrv.bt_mesh_reset, reset_tail. rewrite P. reflexivity. Qed.
Lemma reset_tail_nt s t : same_cfg (nt s) t → let s' := CfgSrv.set_dev_key (zeros 16) (note (NStack ActProxyGattDisable) (with_nt t s)) in core_eq s s' /\ dev_key (tc (nt s')) = zeros 16.
Proof. intros [E1 E2]. split; [|done]. split; [done | exact (f_equal app_keys E1) | exact E2]. Qed.
Lemma reset_tail_spec s : core_eq s (reset_tail s) /\ n_provisioned (reset_tail s) = false /\ dev_key (tc (nt (reset_tail s))) = zeros 16.
Proof.
  unfold reset_tail. generalize (reset_tail_nt s (bt_mesh_tx_reset (bt_mesh_rx_reset (nt s))) (transitivity (sc_rx_reset _) (sc_tx_reset _))). cbv zeta. generalize (CfgSrv.set_dev_key (zeros 16) (note (NStack ActProxyGattDisable) (with_nt (bt_mesh_tx_reset (bt_mesh_rx_reset (nt s))) s))).
  intros s2 [[E1 E2 E3] E4]. split; [|done]. by split.
Qed.

(** A reset forgets the keys and keeps the rest: after [bt_mesh_reset] of a provisioned node there is no subnet, no application key and no device key, no model is bound to an application key, and the node counts as unprovisioned.  But every model still has its groups, its publication address and its publication period: the bindings are cleared before the keys are deleted, so that the unbinding that would stop the publication finds nothing to do. *)
Theorem reset_forgets_keys s : n_provisioned s = true → cfg_inv s → let s' := CfgSrv.bt_mesh_reset s in
  (forall sub, sub ∈ subs_of s' → sub = unused_subnet) /\ (forall k, k ∈ app_keys_of s' → ak_net_idx k = BT_MESH_KEY_UNUSED) /\ dev_key (tc (nt s')) = zeros 16 /\ unbound s' /\ n_provisioned s' = false /\
  forall r, settings <$> model_at r (comp s') = settings <$> model_at r (comp s).
Proof.
  intros P H s'. assert (s' = CfgSrv.bt_mesh_reset s) as Es by done. clearbody s'. rewrite (reset_unfold s P) in Es. destruct (unprovision_unbound s) as [U S]. pose proof (inv_unprovision s H) as H0. set (s0 := bt_mesh_comp_unprovision s) in *.
  destruct (cfg_reset_spec (clear_iv (with_sub_list (map (λ _, 0) (g_sub_list s0)) s0)) U (inv_clear_iv _ (inv_sub_list _ _ H0))) as (C1 & C2 & C3). cbv zeta in C1, C2, C3. set (s1 := bt_mesh_cfg_reset _) in *. clearbody s1. destruct (reset_tail_spec s1) as ([E1 E2 E3] & E4 & E5). rewrite <- Es in E1, E2, E3, E4, E5.
  split; [intros sub (j & Hj)%list_elem_of_lookup; rewrite E3 in Hj; eauto|]. split; [intros k (j & Hj)%list_elem_of_lookup; rewrite E2 in Hj; eauto|]. split; [done|].
  assert (comp s' = comp s0) as C by (rewrite E1, C1; done). split; [unfold unbound; by rewrite C|]. split; [done|]. intros r. rewrite C. apply S.
Qed.

Lemma reset_forgets_keys_witness : let s := light 2 100 (49443 :: repeat 0 7) in let s' := CfgSrv.bt_mesh_reset s in
  unbound s' /\ n_provisioned s' = false /\ (m_groups <$> model_at (mkRef 0 true 0) (comp s')) = Some (49443 :: repeat 0 7).
Proof.
  intros s s'. destruct (reset_forgets_keys s eq_refl (light_inv 2 100 (49443 :: repeat 0 7))) as (_ & _ & _ & U & P & S). split; [done|]. split; [done|]. specialize (S (mkRef 0 true 0)). fold s' in S.
  destruct (model_at (mkRef 0 true 0) (comp s')) as [m|]; [|done]. cbn in S. cbn. injection S as S. by rewrite S.
Defined.

(** ** Where the code departs from the profile *)

(** The update of a network key is answered with success whatever happened: here there is
    no such subnet. *)
Theorem net_key_update_says_success r ctx n key s : 0 <= n < 4096 → length key = 16%nat → subnet_num n s = None →
  exists s' err, net_key_update r ctx (le16 n ++ key) s = Some s' /\ nlog s' = nlog s ++ [NSend ctx (bt_mesh_model_msg_init OP_NET_KEY_STATUS ++ [STATUS_SUCCESS] ++ le16 n) err].
Proof.
  intros Hn Hl Hs. unfold net_key_update. rewrite pull_le16_app by lia. cbn [mbind option_bind]. rewrite (proj2 (Z.ltb_ge 4095 n)) by lia. rewrite <- Hl, pull_all. cbn [mbind option_bind]. rewrite Hs. cbn [mbind option_bind]. unfold send_net_key_status.
  destruct (reply_defined r ctx 9 (bt_mesh_model_msg_init OP_NET_KEY_STATUS ++ [STATUS_SUCCESS] ++ le16 n) s) as (s' & E & _); [done|]. destruct (reply_log _ _ _ _ _ _ E) as [err L]. eauto.
Qed.

(** [genie_mesh_setup], called for every application key, binds the configuration server
    to it, which [mod_app_bind] refuses to do; the node's reset, for one, can then be
    asked for with the application key, which all nodes have. *)
Theorem cfg_server_open : let s := light 2 100 (repeat 0 8) in let s' := snd (genie_mesh_setup 0 s) in
  recipient (OP80 73) 2 0 0 s 0 = None /\ recipient (OP80 73) 2 0 0 s' 0 = Some (mkRef 0 false 0, Cfg Node_reset).
Proof. vm_compute. split; reflexivity. Qed.

Lemma deleted_slot j k s : cfg_inv s → app_keys_of s !! j = Some k → ak_net_idx k ≠ BT_MESH_KEY_UNUSED →
  app_keys_of (_app_key_del j s) = <[j := mkAppKey BT_MESH_KEY_UNUSED (ak_app_idx k) (ak_updated k) 0 (zeros 16) 0 (zeros 16)]> (app_keys_of s) /\ subs_of (_app_key_del j s) = subs_of s.
Proof.
  intros H Hj Hn. destruct (stored_small s j k H Hj Hn) as [_ Hs]. unfold _app_key_del, bt_mesh_model_foreach. rewrite Hj. assert (app_key_is_valid (ak_app_idx k) s = true) as V by (apply app_valid_spec; eauto).
  destruct (unbind_all (ak_app_idx k) (all_refs (comp s)) s H V ltac:(unfold BT_MESH_KEY_UNUSED; lia)) as (_ & I2 & I3 & _). split; [|exact I3]. rewrite <- I2. done.
Qed.

(** A key that was updated in phase 1, deleted and added again is replaced by zeros at the
    end of the refresh: its slot keeps the mark that there is a new key. *)
Theorem readded_key_lost n i j V id k sub s : cfg_inv s → 0 <= n < 4096 → subnet_at n i sub s → app_keys_of s !! j = Some k → ak_net_idx k = n → ak_updated k = true → bt_mesh_app_id V = inr id →
  let s1 := app_key_set n (ak_app_idx k) V false (_app_key_del j s) in fst s1 = STATUS_SUCCESS /\ ak_val0 <$> app_keys_of (snd s1) !! j = Some V /\
  ak_val0 <$> app_keys_of (bt_mesh_net_revoke_keys i sub (snd s1)) !! j = Some (zeros 16).
Proof.
  intros H Hr A Hj Hn Hu Hid. assert (ak_net_idx k ≠ BT_MESH_KEY_UNUSED) as Nu by (unfold BT_MESH_KEY_UNUSED; lia). destruct (deleted_slot j k s H Hj Nu) as [K S]. destruct (stored_small s j k H Hj Nu) as [Ej Es]. rewrite Hu in K.
  pose proof (subnet_at_same n i sub s _ S A) as [A1 A2 A3]. pose proof (lookup_lt_Some _ _ _ Hj) as Lt. assert (app_key_num (ak_app_idx k) (_app_key_del j s) = None) as Num.
  { destruct (app_key_num _ _) as [x|] eqn:E; [|done]. apply app_key_num_spec in E as (y & Hy & Hy1 & Hy2). rewrite K in Hy. apply lookup_insert_inv in Hy as [[-> ->]|[Ne Hy]]; [done|]. destruct (stored_small s x y H Hy Hy1). lia. }
  assert (app_key_alloc (ak_app_idx k) (_app_key_del j s) = Some j) as Al by (unfold app_key_alloc; rewrite K, length_insert; destruct (Z.geb_spec (ak_app_idx k) (Z.of_nat (length (app_keys_of s)))); [lia|]; rewrite Ej; by rewrite Nat2Z.id).
  unfold app_key_set. rewrite A1, Num, Al, Hid. cbn [mbind option_bind fst snd]. split; [done|]. set (l := alter _ j _). assert (l !! j = Some (mkAppKey n (ak_app_idx k) true id V 0 (zeros 16))) as L by (unfold l; rewrite list_lookup_alter_eq, K, list_lookup_insert_eq by done; done).
  split; [change (app_keys_of (set_app_keys l ?x)) with l; by rewrite L|]. unfold bt_mesh_net_revoke_keys. cbv zeta. change (app_keys_of (set_app_keys ?x ?y)) with x. change (app_keys_of (alter_sub i ?f (set_app_keys l ?x))) with l. change (map ?f l) with (f <$> l). rewrite list_lookup_fmap, L. cbn -[Z.eqb zeros]. by rewrite A3, Z.eqb_refl.
Qed.

(** What the store makes of subscriptions.  Adding writes the list, deleting does not, and
    the list is loaded from the store when the next key is added and at every start, where
    of the written addresses only those above 0xCFFF are taken: a deleted subscription to
    0xD001 comes back, and one to 0xC123 that was added is lost. *)
Theorem subscriptions_and_store : let add a s := event GENIE_EVT_SDK_SUB_ADD None (snd (sub_add 0 (mkRef 0 false 1) a s)) in let del a s := event GENIE_EVT_SDK_SUB_DEL None (snd (sub_del 0 a s)) in
  let in_list a s := existsb (Z.eqb a) (g_sub_list s) in let s := light 2 100 (repeat 0 8) in
  in_list 53249 (del 53249 (add 53249 s)) = false /\ in_list 53249 (load_group_addr (del 53249 (add 53249 s))) = true /\
  in_list 49443 (add 49443 s) = true /\ in_list 49443 (load_group_addr (add 49443 s)) = false.
Proof. vm_compute. split_and!; reflexivity. Qed.

(** *** Heartbeats *)

(** The delay between two heartbeats, in milliseconds. *)
Lemma heartbeat_timer r s : is_Some (subnet_num (hp_net_idx (hb_pub (conf s))) s) → hp_count (hb_pub (conf s)) ≠ 0 →
  let period_ms := u16 (hb_pwr2 (hp_period (hb_pub (conf s))) 1 * 1000) in hp_timer (hb_pub (conf (hb_publish r s))) = if truthy period_ms then Some period_ms else None.
Proof.
  intros [i Hi] Hc. unfold hb_publish. cbv zeta. change (subnet_num ?x (on_conf ?f s)) with (subnet_num x s). rewrite Hi. rewrite (proj2 (Z.eqb_neq _ _) Hc). done.
Qed.

Lemma heartbeat_ms : forallb (λ log, let t := u16 (hb_pwr2 log 1 * 1000) in
    if log <=? 7 then (0 <? t) && (t =? 2 ^ (log - 1) * 1000) else if log <=? 13 then (0 <? t) && (t <? 2 ^ (log - 1) * 1000) else t =? 0) (map Z.of_nat (seq 1 16)) = true.
Proof. vm_compute. reflexivity. Qed.

(** Heartbeats with a period of 128 seconds or more come too early or not at all: the period of [2^(log-1)] seconds is kept in a 16-bit number of milliseconds.  The node waits the configured period exactly for logarithms up to 7, less than it for 8 to 13; and from 14 on, where the period is a multiple of 65536, no further heartbeat is scheduled, whatever the count says. *)
Theorem heartbeat_period r s : is_Some (subnet_num (hp_net_idx (hb_pub (conf s))) s) → hp_count (hb_pub (conf s)) ≠ 0 → 1 <= hp_period (hb_pub (conf s)) <= 16 →
  let log := hp_period (hb_pub (conf s)) in let configured := 2 ^ (log - 1) * 1000 in let timer := hp_timer (hb_pub (conf (hb_publish r s))) in
  (log <= 7 → timer = Some configured) /\ (8 <= log <= 13 → exists t, timer = Some t /\ 0 < t < configured) /\ (14 <= log → timer = None).
Proof.
  intros Hs Hc Hl log configured timer. unfold timer. rewrite (heartbeat_timer r s Hs Hc). fold log. fold log in Hl. unfold configured. clearbody log. clear configured Hs Hc timer.
  pose proof (proj1 (forallb_forall _ _) heartbeat_ms log) as M. cbv zeta beta in *. specialize (M ltac:(apply in_map_iff; exists (Z.to_nat log); split; [lia|]; apply in_seq; lia)).
  unfold truthy. destruct (Z.leb_spec log 7); [|destruct (Z.leb_spec log 13)].
  - apply andb_true_iff in M as [M1%Z.ltb_lt M2%Z.eqb_eq]. rewrite (proj2 (Z.eqb_neq _ 0)) by lia. split_and!; [intros _; by rewrite M2 | lia | lia].
  - apply andb_true_iff in M as [M1%Z.ltb_lt M2%Z.ltb_lt]. rewrite (proj2 (Z.eqb_neq _ 0)) by lia. split_and!; [lia | intros _; by eexists | lia].
  - apply Z.eqb_eq in M. rewrite M. split_and!; [lia | lia | done].
Qed.
Lemma heartbeat_period_witness : let s := on_conf (set_hb_pub (mkHbPub 1 3 14 5 0 0 None)) (light 2 100 (repeat 0 8)) in hp_timer (hb_pub (conf (hb_publish (mkRef 0 false 0) s))) = None.
Proof. intros s. apply (heartbeat_period (mkRef 0 false 0) s); [by exists 0%nat | done | cbn; lia | cbn; lia]. Defined.
