(* ===== verification/Sha256.v ===== *)
(** * Sha256: the hash function of tinycrypt (source/sha256.c)

    [compress] keeps a window of sixteen words where FIPS 180-4 has a schedule of
    sixty-four, and the message arrives in pieces through [tc_sha256_update], is padded
    by [tc_sha256_final] and leaves no trace in the state.  [sha256] below is the
    algorithm of the standard on the whole message, with its constants computed from the
    primes; [streaming_sha256] says that the two agree, however the message is cut.
    A null pointer is [None]; an access outside of an array is an outer [None]. *)
From Stdlib Require Import ZArith Lia List Bool.
From stdpp Require Import base list numbers option.
From S2P Require Import Prelude Aes.
Local Open Scope Z_scope.

Definition TC_SHA256_BLOCK_SIZE : nat := 64.
Definition TC_SHA256_DIGEST_SIZE : nat := 32.
Definition TC_SHA256_STATE_BLOCKS : nat := 8.
Definition u64 (z : Z) : Z := z mod 18446744073709551616.

(** ** The code *)

Definition k256 : list Z :=
  [1116352408; 1899447441; 3049323471; 3921009573; 961987163; 1508970993;
   2453635748; 2870763221; 3624381080; 310598401; 607225278; 1426881987;
   1925078388; 2162078206; 2614888103; 3248222580; 3835390401; 4022224774;
   264347078; 604807628; 770255983; 1249150122; 1555081692; 1996064986;
   2554220882; 2821834349; 2952996808; 3210313671; 3336571891; 3584528711;
   113926993; 338241895; 666307205; 773529912; 1294757372; 1396182291;
   1695183700; 1986661051; 2177026350; 2456956037; 2730485921; 2820302411;
   3259730800; 3345764771; 3516065817; 3600352804; 4094571909; 275423344;
   430227734; 506948616; 659060556; 883997877; 958139571; 1322822218;
   1537002063; 1747873779; 1955562222; 2024104815; 2227730452; 2361852424;
   2428436474; 2756734187; 3204031479; 3329325298].

Definition ROTR (a n : Z) : Z := Z.lor (Z.shiftr a n) (u32 (Z.shiftl a (32 - n))).
Definition Sigma0 (a : Z) : Z := Z.lxor (Z.lxor (ROTR a 2) (ROTR a 13)) (ROTR a 22).
Definition Sigma1 (a : Z) : Z := Z.lxor (Z.lxor (ROTR a 6) (ROTR a 11)) (ROTR a 25).
Definition sigma0 (a : Z) : Z := Z.lxor (Z.lxor (ROTR a 7) (ROTR a 18)) (Z.shiftr a 3).
Definition sigma1 (a : Z) : Z := Z.lxor (Z.lxor (ROTR a 17) (ROTR a 19)) (Z.shiftr a 10).
Definition Ch (a b c : Z) : Z := Z.lxor (Z.land a b) (Z.land (Z.lxor a 4294967295) c).
Definition Maj (a b c : Z) : Z := Z.lxor (Z.lxor (Z.land a b) (Z.land a c)) (Z.land b c).

(** The word at the pointer, and the pointer behind it. *)
Definition BigEndian (c : list Z) : option (Z * list Z) :=
  match c with
  | b0 :: b1 :: b2 :: b3 :: c => Some (Z.lor (Z.lor (Z.lor (Z.shiftl b0 24) (Z.shiftl b1 16)) (Z.shiftl b2 8)) b3, c)
  | _ => None
  end.

(** The eight working variables after one round with the word [w] and the constant [k];
    [t1 += ...] and [t2 = ...] are additions of [unsigned int]. *)
Definition round (w k : Z) (r : list Z) : list Z :=
  match r with
  | [a; b; c; d; e; f; g; h] =>
    let t1 := u32 (w + u32 (h + Sigma1 e + Ch e f g + k)) in
    let t2 := u32 (Sigma0 a + Maj a b c) in
    [u32 (t1 + t2); a; b; c; u32 (d + t1); e; f; g]
  | _ => r
  end.

(** [for (i = 0; i < 16; ++i)]: [work_space] is not initialised, so it has the words
    that have been written. *)
Fixpoint load_rounds (n i : nat) (data ws r : list Z) : option (list Z * list Z) :=
  match n with
  | O => Some (ws, r)
  | S n =>
    '(w, data) ← BigEndian data;
    k ← k256 !! i;
    load_rounds n (S i) data (ws ++ [w]) (round w k r)
  end.

(** [for ( ; i < 64; ++i)]: the window wraps around. *)
Fixpoint window_rounds (n i : nat) (ws r : list Z) : option (list Z) :=
  match n with
  | O => Some r
  | S n =>
    s0 ← ws !! Nat.land (i + 1) 15;
    s1 ← ws !! Nat.land (i + 14) 15;
    w0 ← ws !! Nat.land i 15;
    w9 ← ws !! Nat.land (i + 9) 15;
    let w := u32 (w0 + u32 (sigma0 s0 + sigma1 s1 + w9)) in
    k ← k256 !! i;
    window_rounds n (S i) (<[Nat.land i 15 := w]> ws) (round w k r)
  end.

Definition compress (iv data : list Z) : option (list Z) :=
  '(ws, r) ← load_rounds 16 0 data [] iv;
  r ← window_rounds 48 16 ws r;
  Some (zip_with (λ x y, u32 (x + y)) iv r).

Record tc_sha256_state_struct := mkSha {
  sha_iv : list Z; bits_hashed : Z; sha_leftover : list Z; sha_offset : nat }.

Definition sha256_iv : list Z :=
  [1779033703; 3144134277; 1013904242; 2773480762; 1359893119; 2600822924; 528734635; 1541459225].

Definition tc_sha256_init (s : option tc_sha256_state_struct) : Z * option tc_sha256_state_struct :=
  match s with
  | None => (TC_CRYPTO_FAIL, None)
  | Some _ => (TC_CRYPTO_SUCCESS, Some (mkSha sha256_iv 0 (repeat 0 TC_SHA256_BLOCK_SIZE) 0))
  end.

(** One round of the while loop of the update. *)
Definition update_byte (s : tc_sha256_state_struct) (b : Z) : option tc_sha256_state_struct :=
  _ ← sha_leftover s !! sha_offset s;
  let l := <[sha_offset s := b]> (sha_leftover s) in
  let o := S (sha_offset s) in
  if Nat.leb TC_SHA256_BLOCK_SIZE o
  then iv ← compress (sha_iv s) l; Some (mkSha iv (u64 (bits_hashed s + Z.shiftl (Z.of_nat TC_SHA256_BLOCK_SIZE) 3)) l 0)
  else Some (mkSha (sha_iv s) (bits_hashed s) l o).
Fixpoint update_bytes (s : tc_sha256_state_struct) (data : list Z) : option tc_sha256_state_struct :=
  match data with
  | [] => Some s
  | b :: data => s ← update_byte s b; update_bytes s data
  end.
Definition tc_sha256_update (s : option tc_sha256_state_struct) (data : option (list Z)) : option (Z * option tc_sha256_state_struct) :=
  match s, data with
  | None, _ => Some (TC_CRYPTO_FAIL, None)
  | Some s, None => Some (TC_CRYPTO_FAIL, Some s)
  | Some s, Some data =>
    if Nat.eqb (length data) 0 then Some (TC_CRYPTO_SUCCESS, Some s)
    else s ← update_bytes s data; Some (TC_CRYPTO_SUCCESS, Some s)
  end.

(** [_set(l + o, 0, n)]. *)
Definition set_zero (o n : nat) (l : list Z) : option (list Z) :=
  if Nat.leb (o + n) (length l) then Some (take o l ++ repeat 0 n ++ drop (o + n) l) else None.

(** The eight bytes of the length, in the last eight places of the block. *)
Definition length_bytes (b : Z) : list Z :=
  map (λ k, u8 (Z.shiftr b k)) [56; 48; 40; 32; 24; 16; 8; 0].

(** The room for the length: if the block has none it is finished first. *)
Definition make_room (iv l : list Z) (o : nat) : option (list Z * list Z * nat) :=
  if Nat.ltb (TC_SHA256_BLOCK_SIZE - 8) o
  then l ← set_zero o (TC_SHA256_BLOCK_SIZE - o) l; iv ← compress iv l; Some (iv, l, O)
  else Some (iv, l, o).

Definition tc_sha256_final (digest : option (list Z)) (s : option tc_sha256_state_struct) : option (Z * option (list Z) * option tc_sha256_state_struct) :=
  match digest, s with
  | None, _ | _, None => Some (TC_CRYPTO_FAIL, digest, s)
  | Some d, Some s =>
    let bits := u64 (bits_hashed s + Z.shiftl (Z.of_nat (sha_offset s)) 3) in
    _ ← sha_leftover s !! sha_offset s;
    let l := <[sha_offset s := 0x80]> (sha_leftover s) in
    '(iv, l, o) ← make_room (sha_iv s) l (S (sha_offset s));
    l ← set_zero o (TC_SHA256_BLOCK_SIZE - 8 - o) l;
    let l := take (TC_SHA256_BLOCK_SIZE - 8) l ++ length_bytes bits in
    iv ← compress iv l;
    let out := concat (map word_bytes (take TC_SHA256_STATE_BLOCKS iv)) in
    if Nat.leb (length out) (length d)
    then Some (TC_CRYPTO_SUCCESS, Some (out ++ drop (length out) d), Some (mkSha (repeat 0 TC_SHA256_STATE_BLOCKS) 0 (repeat 0 TC_SHA256_BLOCK_SIZE) 0))
    else None
  end.

(** ** FIPS 180-4 *)

(** The primes up to [n], in order. *)
Definition is_prime (n : nat) : bool := forallb (λ d, negb (Nat.eqb (Nat.modulo n d) 0)) (seq 2 (n - 2)).
Definition primes (n : nat) : list nat := filter (λ p, is_prime p = true) (seq 2 n).

(** Integer cube root, bit by bit from [2^b] down. *)
Fixpoint cube_root (b : nat) (x r : Z) : Z :=
  let r' := r + 2 ^ Z.of_nat b in
  let r := if r' * r' * r' <=? x then r' else r in
  match b with O => r | S b => cube_root b x r end.

(** The first 32 bits of the fractional parts of the cube roots of the first 64 primes,
    and of the square roots of the first 8. *)
Definition fips_K : list Z := map (λ p, cube_root 40 (Z.of_nat p * 2 ^ 96) 0 mod 2 ^ 32) (take 64 (primes 311)).
Definition fips_H0 : list Z := map (λ p, Z.sqrt (Z.of_nat p * 2 ^ 64) mod 2 ^ 32) (take 8 (primes 19)).

Definition fips_word (blk : list Z) (t : nat) : Z :=
  nth (4 * t) blk 0 * 2 ^ 24 + nth (4 * t + 1) blk 0 * 2 ^ 16 + nth (4 * t + 2) blk 0 * 2 ^ 8 + nth (4 * t + 3) blk 0.

(** The message schedule: word [t] from the words [t-2], [t-7], [t-15] and [t-16]. *)
Definition fips_extend (W : list Z) (t : nat) : list Z :=
  W ++ [(sigma1 (nth (t - 2) W 0) + nth (t - 7) W 0 + sigma0 (nth (t - 15) W 0) + nth (t - 16) W 0) mod 2 ^ 32].
Definition fips_schedule (blk : list Z) : list Z := foldl fips_extend (map (fips_word blk) (seq 0 16)) (seq 16 48).

Definition fips_round (K W : list Z) (r : list Z) (t : nat) : list Z :=
  match r with
  | [a; b; c; d; e; f; g; h] =>
    let T1 := (h + Sigma1 e + Ch e f g + nth t K 0 + nth t W 0) mod 2 ^ 32 in
    let T2 := (Sigma0 a + Maj a b c) mod 2 ^ 32 in
    [(T1 + T2) mod 2 ^ 32; a; b; c; (d + T1) mod 2 ^ 32; e; f; g]
  | _ => r
  end.
Definition fips_block (H blk : list Z) : list Z :=
  zip_with (λ x y, (x + y) mod 2 ^ 32) H (foldl (fips_round fips_K (fips_schedule blk)) H (seq 0 64)).

(** A one bit, the zeros that bring the length to 448 bits modulo 512, and the length in
    64 bits. *)
Definition fips_pad (m : list Z) : list Z :=
  m ++ [0x80] ++ repeat 0 ((119 - length m mod 64) mod 64)%nat ++ length_bytes (u64 (8 * Z.of_nat (length m))).
Fixpoint chunks (n : nat) (m : list Z) : list (list Z) :=
  match n with O => [] | S n => take 64 m :: chunks n (drop 64 m) end.
Definition sha256 (m : list Z) : list Z :=
  let p := fips_pad m in
  concat (map word_bytes (foldl fips_block fips_H0 (chunks (length p / 64) p))).

Definition sha256_pieces (ms : list (list Z)) (d : list Z) (s0 : tc_sha256_state_struct) : option (Z * option (list Z) * option tc_sha256_state_struct) :=
  let s := snd (tc_sha256_init (Some s0)) in
  s ← foldl (λ s m, s ← s; '(_, s) ← tc_sha256_update s (Some m); Some s) (Some s) ms;
  tc_sha256_final (Some d) s.

(** ** One block *)

Lemma k256_fips : k256 = fips_K.
Proof. vm_compute. reflexivity. Qed.
Lemma sha256_iv_fips : sha256_iv = fips_H0.
Proof. vm_compute. reflexivity. Qed.

Lemma lor_add a b n : 0 <= n → 0 <= b < 2 ^ n → Z.lor (Z.shiftl a n) b = a * 2 ^ n + b.
Proof.
  intros Hn Hb. rewrite <- Z.shiftl_mul_pow2 by lia.
  assert (Z.land (Z.shiftl a n) b = 0) as Hl; [|by rewrite Z.add_nocarry_lxor, Z.lxor_lor by done].
  apply Z.bits_inj'. intros k Hk. rewrite Z.land_spec, Z.bits_0, Z.shiftl_spec by lia.
  destruct (Z.ltb_spec k n) as [L|L]; [by rewrite (Z.testbit_neg_r a) by lia|].
  rewrite <- (Z.mod_small b (2 ^ n)), Z.mod_pow2_bits_high by lia. apply andb_false_r.
Qed.

Lemma be_word b0 b1 b2 b3 : is_u8 b0 → is_u8 b1 → is_u8 b2 → is_u8 b3 →
  Z.lor (Z.lor (Z.lor (Z.shiftl b0 24) (Z.shiftl b1 16)) (Z.shiftl b2 8)) b3 = b0 * 2 ^ 24 + b1 * 2 ^ 16 + b2 * 2 ^ 8 + b3.
Proof.
  intros. rewrite <- !Z.lor_assoc. rewrite (lor_add b2 b3 8), (lor_add b1 _ 16), (lor_add b0 _ 24) by lia. lia.
Qed.

Lemma round_fips K W r t w k : nth t K 0 = k → nth t W 0 = w → round w k r = fips_round K W r t.
Proof.
  intros <- <-. unfold round, fips_round, u32. do 9 (destruct r as [|? r]; try done). change (2 ^ 32) with 4294967296.
  rewrite (Zplus_mod_idemp_r _ (nth t W 0)). match goal with |- context [(nth t W 0 + ?x) mod _] => rewrite (Z.add_comm (nth t W 0) x) end. reflexivity.
Qed.

Lemma fips_round_length K W r t : length r = 8%nat → length (fips_round K W r t) = 8%nat.
Proof. intros H. by do 9 (destruct r as [|? r]; try done). Qed.
Lemma fips_rounds_length K W ts r : length r = 8%nat → length (foldl (fips_round K W) r ts) = 8%nat.
Proof. revert r. induction ts as [|t ts IH]; intros r H; [done|]. by apply IH, fips_round_length. Qed.

(** The schedule: its words once they are there. *)
Lemma extend_length ts W : length (foldl fips_extend W ts) = (length W + length ts)%nat.
Proof. revert W. induction ts as [|t ts IH]; intros W; cbn [foldl length]; [lia|]. rewrite IH. unfold fips_extend. rewrite length_app. cbn. lia. Qed.
Lemma extend_old ts W t : (t < length W)%nat → nth t (foldl fips_extend W ts) 0 = nth t W 0.
Proof.
  revert W. induction ts as [|t' ts IH]; intros W H; [done|]. cbn [foldl]. rewrite IH by (unfold fips_extend; rewrite length_app; lia).
  unfold fips_extend. by apply app_nth1.
Qed.
Lemma schedule_length blk : length (fips_schedule blk) = 64%nat.
Proof. unfold fips_schedule. rewrite extend_length, length_map, !length_seq. done. Qed.
Lemma schedule_first blk t : (t < 16)%nat → nth t (fips_schedule blk) 0 = fips_word blk t.
Proof.
  intros H. unfold fips_schedule. rewrite extend_old by (by rewrite length_map, length_seq).
  rewrite (nth_indep _ 0 (fips_word blk O)) by (by rewrite length_map, length_seq). rewrite map_nth, seq_nth; [done | lia].
Qed.
Lemma schedule_next blk t : (16 <= t < 64)%nat → let W := fips_schedule blk in
  nth t W 0 = (sigma1 (nth (t - 2) W 0) + nth (t - 7) W 0 + sigma0 (nth (t - 15) W 0) + nth (t - 16) W 0) mod 2 ^ 32.
Proof.
  intros Ht. cbv zeta. unfold fips_schedule. set (W0 := map (fips_word blk) (seq 0 16)).
  assert (length W0 = 16%nat) as L0 by (unfold W0; by rewrite length_map, length_seq).
  replace (seq 16 48) with (seq 16 (t - 16) ++ t :: seq (S t) (63 - t)).
  2:{ replace 48%nat with ((t - 16) + S (63 - t))%nat by lia. rewrite seq_app. f_equal. cbn [seq]. f_equal; [lia | f_equal; lia]. }
  rewrite foldl_app. cbn [foldl]. set (W := foldl fips_extend W0 (seq 16 (t - 16))).
  assert (length W = t) as LW by (unfold W; rewrite extend_length, L0, length_seq; lia).
  assert (forall x, (x < t)%nat → nth x (foldl fips_extend (fips_extend W t) (seq (S t) (63 - t))) 0 = nth x W 0) as Hold.
  { intros x Hx. rewrite extend_old by (unfold fips_extend; rewrite length_app; lia). unfold fips_extend. apply app_nth1. lia. }
  rewrite (Hold (t - 2)%nat), (Hold (t - 7)%nat), (Hold (t - 15)%nat), (Hold (t - 16)%nat) by lia. rewrite extend_old by (unfold fips_extend; rewrite length_app; cbn [length]; lia).
  unfold fips_extend. rewrite app_nth2 by lia. by rewrite LW, Nat.sub_diag.
Qed.

(** ** The two loops of [compress] *)

Lemma lookup_nth (l : list Z) i : (i < length l)%nat → l !! i = Some (nth i l 0).
Proof. intros H. destruct (nth_lookup_or_length l i 0); [done | lia]. Qed.

Lemma k256_nth i : (i < 64)%nat → k256 !! i = Some (nth i fips_K 0).
Proof. intros H. rewrite k256_fips. by apply lookup_nth. Qed.

Lemma big_endian_word blk i : length blk = 64%nat → all_u8 blk → (i < 16)%nat →
  BigEndian (drop (4 * i) blk) = Some (fips_word blk i, drop (4 * S i) blk).
Proof.
  intros Hl Hb Hi.
  assert (forall k, (k < 4)%nat → blk !! (4 * i + k)%nat = Some (nth (4 * i + k) blk 0) /\ is_u8 (nth (4 * i + k) blk 0)) as A.
  { intros k Hk. assert (blk !! (4 * i + k)%nat = Some (nth (4 * i + k) blk 0)) as E by (apply lookup_nth; lia). split; [done|].
    by apply (Forall_lookup_1 _ _ _ _ Hb E). }
  destruct (A 0%nat) as [E0 B0]; [lia|]. destruct (A 1%nat) as [E1 B1]; [lia|]. destruct (A 2%nat) as [E2 B2]; [lia|]. destruct (A 3%nat) as [E3 B3]; [lia|].
  rewrite Nat.add_0_r in E0, B0. rewrite (drop_S _ _ _ E0).
  replace (S (4 * i)) with (4 * i + 1)%nat by lia. rewrite (drop_S _ _ _ E1).
  replace (S (4 * i + 1)) with (4 * i + 2)%nat by lia. rewrite (drop_S _ _ _ E2).
  replace (S (4 * i + 2)) with (4 * i + 3)%nat by lia. rewrite (drop_S _ _ _ E3).
  replace (S (4 * i + 3)) with (4 * S i)%nat by lia. cbn [BigEndian]. rewrite be_word by done. done.
Qed.

Lemma load_rounds_fips blk n i r : length blk = 64%nat → all_u8 blk → (i + n = 16)%nat →
  load_rounds n i (drop (4 * i) blk) (map (fips_word blk) (seq 0 i)) r =
  Some (map (fips_word blk) (seq 0 16), foldl (fips_round fips_K (fips_schedule blk)) r (seq i n)).
Proof.
  intros Hl Hb. revert i r. induction n as [|n IH]; intros i r Hi; [by replace i with 16%nat by lia|].
  cbn [load_rounds]. rewrite big_endian_word by (done || lia). cbn [mbind option_bind]. rewrite k256_nth by lia. cbn [mbind option_bind].
  replace (map (fips_word blk) (seq 0 i) ++ [fips_word blk i]) with (map (fips_word blk) (seq 0 (S i))) by (rewrite seq_S, map_app; done).
  rewrite IH by lia. cbn [seq foldl]. rewrite (round_fips fips_K (fips_schedule blk) r i); [done | done | apply schedule_first; lia].
Qed.

Lemma land15 i : Nat.land i 15 = (i mod 16)%nat.
Proof. apply (Nat.land_ones i 4). Qed.

(** The window has the last sixteen words of the schedule, each in its place. *)
Definition window (W ws : list Z) (i : nat) : Prop :=
  length ws = 16%nat /\ forall t, (i - 16 <= t < i)%nat → ws !! (t mod 16)%nat = Some (nth t W 0).

Lemma window_step W ws i : (16 <= i)%nat → window W ws i → window W (<[(i mod 16)%nat := nth i W 0]> ws) (S i).
Proof.
  intros Hi [Hl Hw]. split; [by rewrite length_insert|]. intros t Ht. destruct (decide (t = i)) as [->|Ne].
  - apply list_lookup_insert_eq. rewrite Hl. apply Nat.mod_upper_bound. lia.
  - rewrite list_lookup_insert_ne; [apply Hw; lia|]. pose proof (Nat.div_mod_eq t 16). pose proof (Nat.div_mod_eq i 16). lia.
Qed.

Lemma window_rounds_fips blk n i ws r : (16 <= i)%nat → (i + n = 64)%nat → window (fips_schedule blk) ws i →
  window_rounds n i ws r = Some (foldl (fips_round fips_K (fips_schedule blk)) r (seq i n)).
Proof.
  revert i ws r. induction n as [|n IH]; intros i ws r Hi Hn Hw; [done|]. cbn [window_rounds]. rewrite !land15.
  assert (forall x, (x < 16)%nat → ws !! ((i + x) mod 16)%nat = Some (nth (i + x - 16) (fips_schedule blk) 0)) as A.
  { intros x Hx. rewrite <- (proj2 Hw (i + x - 16)%nat) by lia. f_equal. replace (i + x)%nat with (i + x - 16 + 1 * 16)%nat at 1 by lia. apply Nat.Div0.mod_add. }
  rewrite (A 1%nat), (A 14%nat), (A 9%nat) by lia. pose proof (A 0%nat ltac:(lia)) as A0. rewrite Nat.add_0_r in A0. rewrite A0. cbn [mbind option_bind].
  rewrite k256_nth by lia. cbn [mbind option_bind].
  match goal with |- context [<[_ := ?x]> ws] => assert (x = nth i (fips_schedule blk) 0) as E end.
  { rewrite (schedule_next blk i) by lia. unfold u32. rewrite Zplus_mod_idemp_r. change (2 ^ 32) with 4294967296. f_equal.
    replace (i + 1 - 16)%nat with (i - 15)%nat by lia. replace (i + 14 - 16)%nat with (i - 2)%nat by lia. replace (i + 9 - 16)%nat with (i - 7)%nat by lia. lia. }
  rewrite E. rewrite IH; [| lia | lia | by apply window_step]. cbn [seq foldl]. by rewrite (round_fips fips_K (fips_schedule blk) r i).
Qed.

Lemma bind_pair {A B C D} (x : option (A * B)) (f : A → B → option C) (g : C → D) a b c : x = Some (a, b) → f a b = Some c →
  ('(a, b) ← x; c ← f a b; Some (g c)) = Some (g c).
Proof. intros -> E. cbn [mbind option_bind]. by rewrite E. Qed.

Lemma first_window blk : window (fips_schedule blk) (map (fips_word blk) (seq 0 16)) 16.
Proof.
  split; [by rewrite length_map, length_seq|]. intros t Ht. rewrite Nat.mod_small, schedule_first by lia.
  change (map (fips_word blk) (seq 0 16)) with (fips_word blk <$> seq 0 16). rewrite list_lookup_fmap, lookup_seq_lt by lia. done.
Qed.

Lemma rounds_split {A} (f : A → nat → A) r : foldl f (foldl f r (seq 0 16)) (seq 16 48) = foldl f r (seq 0 64).
Proof. reflexivity. Qed.
Lemma compress_loops iv data ws r r' : load_rounds 16 0 data [] iv = Some (ws, r) → window_rounds 48 16 ws r = Some r' →
  compress iv data = Some (zip_with (λ x y, u32 (x + y)) iv r').
Proof. unfold compress. generalize (window_rounds 48 16) as f. intros f E1 E2. exact (bind_pair _ f (λ r, zip_with (λ x y, u32 (x + y)) iv r) _ _ _ E1 E2). Qed.

Lemma compress_fips iv blk : length blk = 64%nat → all_u8 blk → compress iv blk = Some (fips_block iv blk).
Proof.
  intros Hl Hb. pose proof (load_rounds_fips blk 16 0 iv Hl Hb eq_refl) as E1. rewrite drop_0 in E1.
  pose proof (fun r => window_rounds_fips blk 48 16 _ r ltac:(lia) ltac:(lia) (first_window blk)) as E2.
  rewrite (compress_loops _ _ _ _ _ E1 (E2 _)). rewrite rounds_split. reflexivity.
Qed.

Lemma fips_block_length H blk : length H = 8%nat → length (fips_block H blk) = 8%nat.
Proof. intros E. unfold fips_block. rewrite length_zip_with, fips_rounds_length, E; [done | done]. Qed.
#[local] Opaque fips_block.

(** ** Messages in pieces *)

Lemma chunks_app n k a b : length a = (64 * n)%nat → chunks (n + k) (a ++ b) = chunks n a ++ chunks k b.
Proof.
  revert a. induction n as [|n IH]; intros a Ha; [by destruct a|]. cbn [Nat.add chunks app].
  rewrite take_app_le, drop_app_le by lia. f_equal. apply IH. rewrite length_drop. lia.
Qed.

(** The hash value of a message whose length is a multiple of the block size. *)
Definition absorb (n : nat) (a : list Z) : list Z := foldl fips_block fips_H0 (chunks n a).

Lemma absorb_length n a : length (absorb n a) = 8%nat.
Proof.
  unfold absorb. assert (length fips_H0 = 8%nat) as H by done. revert H. generalize fips_H0 as H. generalize (chunks n a) as l.
  intros l. induction l as [|b l IH]; intros H E; [done|]. cbn [foldl]. by apply IH, fips_block_length.
Qed.
Lemma absorb_snoc n a b : length a = (64 * n)%nat → length b = 64%nat → fips_block (absorb n a) b = absorb (S n) (a ++ b).
Proof.
  intros Ha Hb. unfold absorb. replace (S n) with (n + 1)%nat by lia. rewrite chunks_app by done. rewrite foldl_app. cbn [chunks foldl].
  by rewrite take_ge by lia.
Qed.

(** What the state means: the whole blocks of the message are absorbed, the rest is in
    the buffer. *)
Definition hashing (s : tc_sha256_state_struct) (m : list Z) : Prop :=
  exists n a r, m = a ++ r /\ length a = (64 * n)%nat /\ (length r < 64)%nat /\ sha_iv s = absorb n a /\ all_u8 m /\
    bits_hashed s = u64 (512 * Z.of_nat n) /\ length (sha_leftover s) = 64%nat /\ sha_offset s = length r /\ take (length r) (sha_leftover s) = r /\ all_u8 (sha_leftover s).

Lemma take_insert_snoc (l r : list Z) b : take (length r) l = r → (length r < length l)%nat →
  take (S (length r)) (<[length r := b]> l) = r ++ [b].
Proof. intros E H. rewrite (take_S_r _ _ b) by (by apply list_lookup_insert_eq). rewrite take_insert_ge by lia. by rewrite E. Qed.

Lemma hashing_byte s m b : hashing s m → is_u8 b → exists s', update_byte s b = Some s' /\ hashing s' (m ++ [b]).
Proof.
  intros (n & a & r & -> & Ha & Hr & Hiv & Hm & Hbits & Hl & Ho & Ht & Hu) Hb. unfold update_byte. rewrite Ho.
  rewrite (lookup_nth (sha_leftover s)) by lia. cbn [mbind option_bind].
  assert (all_u8 (<[length r := b]> (sha_leftover s))) as Hu' by (by apply Forall_insert).
  assert (all_u8 ((a ++ r) ++ [b])) as Hm' by (apply Forall_app_2; [done | by apply Forall_singleton]).
  pose proof (take_insert_snoc (sha_leftover s) r b Ht ltac:(lia)) as Et.
  destruct (Nat.leb_spec TC_SHA256_BLOCK_SIZE (S (length r))) as [L|L]; unfold TC_SHA256_BLOCK_SIZE in L.
  - rewrite compress_fips by (done || by rewrite length_insert). cbn [mbind option_bind]. eexists. split; [done|].
    replace (S (length r)) with 64%nat in Et by lia. rewrite take_ge in Et by (rewrite length_insert; lia).
    exists (S n), (a ++ r ++ [b]), []. cbn [sha_iv bits_hashed sha_leftover sha_offset]. rewrite !length_app, app_nil_r, length_insert. cbn [length].
    repeat split_and!; try done; try lia; [by rewrite app_assoc | | ].
    + rewrite Hiv, Et. rewrite absorb_snoc by (rewrite ?length_app; cbn [length]; lia). by rewrite app_assoc.
    + rewrite Hbits. unfold u64. rewrite Zplus_mod_idemp_l. f_equal. change (Z.shiftl (Z.of_nat TC_SHA256_BLOCK_SIZE) 3) with 512. lia.
  - eexists. split; [done|]. exists n, a, (r ++ [b]). cbn [sha_iv bits_hashed sha_leftover sha_offset]. rewrite length_app, length_insert. cbn [length]. rewrite Nat.add_1_r.
    repeat split_and!; try done; try lia. by rewrite app_assoc.
Qed.

Lemma hashing_bytes data : forall s m, hashing s m → all_u8 data → exists s', update_bytes s data = Some s' /\ hashing s' (m ++ data).
Proof.
  induction data as [|b data IH]; intros s m Hs Hd; [exists s; by rewrite app_nil_r|]. apply Forall_cons_1 in Hd as [Hb Hd].
  destruct (hashing_byte s m b Hs Hb) as (s1 & E & H1). destruct (IH s1 _ H1 Hd) as (s2 & E2 & H2). exists s2. split; [cbn [update_bytes]; rewrite E; done|].
  by rewrite <- app_assoc in H2.
Qed.

(** ** Padding *)

Lemma set_zero_end o n l : length l = (o + n)%nat → set_zero o n l = Some (take o l ++ repeat 0 n).
Proof. intros H. unfold set_zero. rewrite (proj2 (Nat.leb_le _ _)) by lia. by rewrite drop_ge, app_nil_r by lia. Qed.
Lemma set_zero_take o n k l : length l = (o + n + k)%nat → exists l', set_zero o n l = Some l' /\ take (o + n) l' = take o l ++ repeat 0 n.
Proof.
  intros H. unfold set_zero. rewrite (proj2 (Nat.leb_le _ _)) by lia. eexists. split; [done|].
  rewrite app_assoc, take_app_le by (rewrite length_app, length_take, repeat_length; lia). apply take_ge. rewrite length_app, length_take, repeat_length. lia.
Qed.
Lemma length_bytes_length b : length (length_bytes b) = 8%nat.
Proof. done. Qed.
Lemma length_bytes_u8 b : all_u8 (length_bytes b).
Proof. unfold length_bytes. repeat (apply Forall_cons_2; [apply u8_range|]). apply Forall_nil_2. Qed.
Lemma repeat0_u8 n : all_u8 (repeat 0 n).
Proof. induction n; [apply Forall_nil_2 | apply Forall_cons_2; [lia | done]]. Qed.

(** The blocks that [tc_sha256_final] hashes are those of the padding. *)
Lemma pad_count (a r : list Z) n : length a = (64 * n)%nat → (length r < 64)%nat →
  ((119 - length (a ++ r) mod 64) mod 64)%nat = (if Nat.ltb 55 (length r) then 119 - length r else 55 - length r)%nat.
Proof.
  intros Ha Hr. rewrite length_app, Ha. replace (64 * n + length r)%nat with (length r + n * 64)%nat by lia. rewrite Nat.Div0.mod_add, (Nat.mod_small (length r)) by lia.
  destruct (Nat.ltb_spec 55 (length r)); [apply Nat.mod_small; lia|]. replace (119 - length r)%nat with (55 - length r + 1 * 64)%nat by lia. rewrite Nat.Div0.mod_add. apply Nat.mod_small. lia.
Qed.

Lemma blocks_of n (x y : list Z) : length x = (64 * n)%nat → length y = 64%nat → (length (x ++ y) / 64)%nat = S n.
Proof. intros Hx Hy. rewrite length_app, Hx, Hy. replace (64 * n + 64)%nat with ((S n) * 64)%nat by lia. apply Nat.div_mul. lia. Qed.

Lemma final_absorb n a r l bits : length a = (64 * n)%nat → (length r < 64)%nat → length l = 64%nat → take (length r) l = r → all_u8 r →
  exists iv l1 o l2, make_room (absorb n a) (<[length r := 0x80]> l) (S (length r)) = Some (iv, l1, o) /\
    set_zero o (TC_SHA256_BLOCK_SIZE - 8 - o) l1 = Some l2 /\
    let p := (a ++ r) ++ [0x80] ++ repeat 0 ((119 - length (a ++ r) mod 64) mod 64)%nat ++ length_bytes bits in
    compress iv (take (TC_SHA256_BLOCK_SIZE - 8) l2 ++ length_bytes bits) = Some (foldl fips_block fips_H0 (chunks (length p / 64) p)).
Proof.
  intros Ha Hr Hl Ht Hu. rewrite (pad_count a r n) by done. unfold make_room. change (TC_SHA256_BLOCK_SIZE - 8)%nat with 56%nat. change TC_SHA256_BLOCK_SIZE with 64%nat.
  pose proof (take_insert_snoc l r 0x80 Ht ltac:(lia)) as Et. pose proof (length_insert l (length r) 0x80) as Li. rewrite Hl in Li.
  assert (all_u8 (r ++ [0x80])) as Hu' by (apply Forall_app_2; [done | apply Forall_singleton; lia]).
  destruct (Nat.ltb_spec 56 (S (length r))) as [L|L]; destruct (Nat.ltb_spec 55 (length r)) as [L'|L']; try lia.
  - rewrite set_zero_end by lia. rewrite Et. cbn [mbind option_bind]. set (b1 := (r ++ [0x80]) ++ repeat 0 (64 - S (length r))).
    assert (length b1 = 64%nat) as L1 by (unfold b1; rewrite !length_app, repeat_length; cbn [length]; lia).
    assert (all_u8 b1) as U1 by (apply Forall_app_2; [done | apply repeat0_u8]).
    rewrite compress_fips by done. cbn [mbind option_bind]. rewrite absorb_snoc by done.
    destruct (set_zero_take 0 56 8 b1 L1) as (l2 & E2 & T2). eexists _, _, _, l2. split; [done|]. split; [done|]. cbv zeta.
    cbn [Nat.add] in T2. rewrite T2, take_0. cbn [app]. set (b2 := repeat 0 56 ++ length_bytes bits).
    assert (length b2 = 64%nat) as L2 by done.
    rewrite compress_fips by (done || (apply Forall_app_2; [apply repeat0_u8 | apply length_bytes_u8])). rewrite absorb_snoc by (rewrite ?length_app; lia). f_equal.
    replace ((a ++ r) ++ 128 :: repeat 0 (119 - length r) ++ length_bytes bits) with ((a ++ b1) ++ b2).
    + rewrite (blocks_of (S n)) by (rewrite ?length_app; lia). done.
    + unfold b1, b2. replace (119 - length r)%nat with ((64 - S (length r)) + 56)%nat by lia. rewrite repeat_app. by rewrite <- !app_assoc.
  - destruct (set_zero_take (S (length r)) (56 - S (length r)) 8 (<[length r := 0x80]> l)) as (l2 & E2 & T2); [lia|].
    eexists _, _, _, l2. split; [done|]. split; [done|]. cbv zeta. replace (S (length r) + (56 - S (length r)))%nat with 56%nat in T2 by lia. rewrite T2, Et.
    set (b1 := ((r ++ [0x80]) ++ repeat 0 (56 - S (length r))) ++ length_bytes bits).
    assert (length b1 = 64%nat) as L1 by (unfold b1; rewrite !length_app, repeat_length, length_bytes_length; cbn [length]; lia).
    rewrite compress_fips by (done || (apply Forall_app_2; [apply Forall_app_2; [done | apply repeat0_u8] | apply length_bytes_u8])). rewrite absorb_snoc by done. f_equal.
    replace ((a ++ r) ++ [128] ++ repeat 0 (55 - length r) ++ length_bytes bits) with (a ++ b1).
    + rewrite (blocks_of n) by done. done.
    + unfold b1. replace (56 - S (length r))%nat with (55 - length r)%nat by lia. by rewrite <- !app_assoc.
Qed.

Lemma final_of_hashing s m d : hashing s m → (32 <= length d)%nat →
  tc_sha256_final (Some d) (Some s) = Some (TC_CRYPTO_SUCCESS, Some (sha256 m ++ drop 32 d), Some (mkSha (repeat 0 8) 0 (repeat 0 64) 0)).
Proof.
  intros (n & a & r & -> & Ha & Hr & Hiv & Hm & Hbits & Hl & Ho & Ht & Hu) Hd. unfold tc_sha256_final. rewrite Ho, Hiv.
  rewrite (lookup_nth (sha_leftover s)) by lia. cbn [mbind option_bind].
  assert (u64 (bits_hashed s + Z.shiftl (Z.of_nat (length r)) 3) = u64 (8 * Z.of_nat (length (a ++ r)))) as ->.
  { rewrite Hbits, Z.shiftl_mul_pow2, length_app, Ha by lia. unfold u64. rewrite Zplus_mod_idemp_l. f_equal. lia. }
  destruct (final_absorb n a r (sha_leftover s) (u64 (8 * Z.of_nat (length (a ++ r))))) as (iv & l1 & o & l2 & E1 & E2 & E3); try done; [by apply Forall_app in Hm as [_ ?]|].
  rewrite E1. cbn [mbind option_bind]. rewrite E2. cbn [mbind option_bind]. rewrite E3. cbn [mbind option_bind].
  match goal with |- context [foldl fips_block fips_H0 ?c] => set (H := foldl fips_block fips_H0 c) end.
  assert (length H = 8%nat) as LH by apply absorb_length. rewrite take_ge by (unfold TC_SHA256_STATE_BLOCKS; lia).
  rewrite word_bytes_length, LH, (proj2 (Nat.leb_le _ _)) by lia. done.
Qed.

Lemma hashing_init s : exists s', snd (tc_sha256_init (Some s)) = Some s' /\ hashing s' [].
Proof.
  eexists. split; [done|]. exists 0%nat, [], []. cbn [sha_iv bits_hashed sha_leftover sha_offset length app].
  repeat split_and!; try done; try lia; [apply Forall_nil_2 | apply repeat0_u8].
Qed.

Lemma hashing_update s m data : hashing s m → all_u8 data → exists s', tc_sha256_update (Some s) (Some data) = Some (TC_CRYPTO_SUCCESS, Some s') /\ hashing s' (m ++ data).
Proof.
  intros Hs Hd. cbn [tc_sha256_update]. destruct (Nat.eqb_spec (length data) 0) as [L|L].
  - apply nil_length_inv in L as ->. exists s. by rewrite app_nil_r.
  - destruct (hashing_bytes data s m Hs Hd) as (s' & E & Hs'). exists s'. split; [by rewrite E | done].
Qed.

(** [C19] However a message is cut into pieces, and whatever the state and the digest
    buffer held before, initialising, adding the pieces one after the other and
    finishing succeeds, writes the SHA-256 of FIPS 180-4 of the whole message to the
    first 32 bytes of the buffer, and wipes the state. *)
Theorem streaming_sha256 s0 d ms : Forall all_u8 ms → (TC_SHA256_DIGEST_SIZE <= length d)%nat →
  sha256_pieces ms d s0 = Some (TC_CRYPTO_SUCCESS, Some (sha256 (concat ms) ++ drop TC_SHA256_DIGEST_SIZE d),
    Some (mkSha (repeat 0 TC_SHA256_STATE_BLOCKS) 0 (repeat 0 TC_SHA256_BLOCK_SIZE) 0)).
Proof.
  intros Hms Hd. unfold sha256_pieces. destruct (hashing_init s0) as (s & -> & Hs).
  change (sha256 (concat ms)) with (sha256 ([] ++ concat ms)). revert s Hs. generalize (@nil Z) as m.
  induction Hms as [|x ms Hx Hms IH]; intros m s Hs; cbn [foldl concat].
  - cbn [mbind option_bind]. rewrite app_nil_r. by apply final_of_hashing.
  - cbn [mbind option_bind]. destruct (hashing_update s m x Hs Hx) as (s' & E & Hs'). rewrite E. cbn [mbind option_bind]. rewrite app_assoc. by apply IH.
Qed.

Lemma streaming_sha256_witness :
  sha256_pieces [[97]; []; [98; 99]] (repeat 7 33) (mkSha [] 5 [] 9) = Some (TC_CRYPTO_SUCCESS, Some (sha256 [97; 98; 99] ++ [7]), Some (mkSha (repeat 0 8) 0 (repeat 0 64) 0)).
Proof.
  apply (streaming_sha256 (mkSha [] 5 [] 9) (repeat 7 33) [[97]; []; [98; 99]]).
  - repeat (apply Forall_cons_2; [repeat (apply Forall_cons_2; [lia|]); apply Forall_nil_2|]). apply Forall_nil_2.
  - apply Nat.leb_le. reflexivity.
Defined.

(** The test vector of FIPS 180-4 for "abc". *)
Example sha256_abc : sha256 [97; 98; 99] =
  [186; 120; 22; 191; 143; 1; 207; 234; 65; 65; 64; 222; 93; 174; 34; 35; 176; 3; 97; 163; 150; 23; 122; 156; 180; 16; 255; 97; 242; 0; 21; 173].
Proof. vm_compute. reflexivity. Qed.
