(* ===== verification/GenieCrypto.v ===== *)
(** * GenieCrypto: authentication data and the key of a BLE connection

    genie_service/core/src/genie_crypto.c apart from the checksum (which is in [Storage])
    and hextostring of network/bluetooth/bt_common/log.c.  The provisioning value of a
    device is the SHA-256 of its product id, address, secret and the random of the
    provisioner as text; the key of the AIS service is the SHA-256 of a string that starts
    with the random itself.  C strings are byte arrays of their declared size; [sprintf]
    and [memcpy] behind the end of an array are [None].  [sched0] and [ctx0] are the
    uninitialised key schedules and hash contexts on the stack. *)
From Stdlib Require Import ZArith Lia List Bool.
From stdpp Require Import base list numbers option.
From S2P Require Import Prelude Env Aes Cmac Storage Sha256.
Local Open Scope Z_scope.

(** ** Text *)

(** The digit characters of [%x]. *)
Definition hex_digit (n : Z) : Z := if n <? 10 then 48 + n else 87 + n.
(** [sprintf(tmp, "%02x", b)] of a byte. *)
Definition hex2 (b : Z) : list Z := [hex_digit (Z.shiftr b 4); hex_digit (Z.land b 15)].
Definition hextostring (source : list Z) : list Z := concat (map hex2 source).
(** [%08lx] of a 32-bit value: always eight digits. *)
Definition hex8 (v : Z) : list Z := map (λ k, hex_digit (Z.land (Z.shiftr v k) 15)) [28; 24; 20; 16; 12; 8; 4; 0].

Definition comma : list Z := [44].

(** [dest + off] receives the string [s] and its terminator. *)
Definition put_string (off : nat) (s dest : list Z) : option (list Z) :=
  if Nat.leb (off + length s + 1) (length dest) then Some (store_at off (s ++ [0]) dest) else None.
Definition put_bytes (off : nat) (s dest : list Z) : option (list Z) :=
  if Nat.leb (off + length s) (length dest) then Some (store_at off s dest) else None.

(** The characters before the first null: a string function reads that far. *)
Fixpoint c_string (buf : list Z) : option (list Z) :=
  match buf with
  | [] => None
  | b :: buf => if b =? 0 then Some [] else s ← c_string buf; Some (b :: s)
  end.

(** A local [char] array of [n] zeros after [hextostring], read as a string. *)
Definition hex_string (n : nat) (source : list Z) : option (list Z) :=
  d ← put_bytes 0 (hextostring source) (repeat 0 n); c_string d.

Section Crypto.
Variables (sched0 : list Z) (ctx0 : tc_sha256_state_struct).

(** Initialise, one update with the whole string, finish. *)
Definition sha256_of (data digest : list Z) : option (list Z) :=
  '(_, s) ← Some (tc_sha256_init (Some ctx0));
  '(_, s) ← tc_sha256_update s (Some data);
  '(_, d, _) ← tc_sha256_final (Some digest) s;
  d.

(** The result is the new [g_auth]. *)
Definition genie_crypto_get_auth (t : genie_triple_t) (random g_auth : list Z) : option (list Z) :=
  m ← hex_string 13 (take GENIE_TRIPLE_MAC_SIZE (triple_mac t));
  k ← hex_string 33 (take GENIE_TRIPLE_KEY_SIZE (triple_key t));
  r ← hex_string 33 (take 16 random);
  static_str ← put_string 0 (hex8 (pid t) ++ comma ++ m ++ comma ++ k ++ comma ++ r) (repeat 0 88);
  data ← c_string static_str;
  sha256_of data g_auth.

Definition aes_iv : list Z :=
  [0x31; 0x32; 0x33; 0x61; 0x71; 0x77; 0x65; 0x64; 0x23; 0x2a; 0x24; 0x21; 0x28; 0x34; 0x6a; 0x75].

(** Results: the status and the output buffer. *)
Definition genie_crypto_encrypt (g_ble_key data_in data_out : list Z) : Z * list Z :=
  bt_mesh_aes_encrypt sched0 g_ble_key (zip_with Z.lxor (take 16 data_in) aes_iv) data_out.
Definition genie_crypto_decrypt (g_ble_key data_in data_out : list Z) : Z * list Z :=
  let '(ret, data_out) := bt_mesh_aes_decrypt sched0 g_ble_key data_in data_out in
  (ret, zip_with Z.lxor data_out aes_iv).

(** The results are the new [g_ble_key] and the cipher. *)
Definition genie_ais_get_cipher (t : genie_triple_t) (random g_ble_key cipher : list Z) : option (list Z * list Z) :=
  m ← hex_string 13 (take GENIE_TRIPLE_MAC_SIZE (triple_mac t));
  k ← hex_string 33 (take GENIE_TRIPLE_KEY_SIZE (triple_key t));
  static_str ← put_bytes 0 (take 16 random) (repeat 0 72);
  static_str ← put_string 16 (comma ++ hex8 (pid t) ++ comma ++ m ++ comma ++ k) static_str;
  data ← c_string static_str;
  key ← sha256_of data g_ble_key;
  Some (key, snd (genie_crypto_encrypt key random cipher)).

Definition genie_ais_reset (g_ble_key : list Z) : list Z := repeat 0 32.

(** The silent flag, the product id and the address of an advertisement. *)
Definition genie_crypto_adv_create (t : genie_triple_t) (is_silent : bool) (ad : list Z) : option (list Z) :=
  b ← ad !! 3%nat;
  let b := Z.lor b 0x08 in
  let b := if is_silent then Z.lor b 0x20 else Z.land b 0xdf in
  ad ← put_bytes GENIE_TRIPLE_PID_SIZE (le32 (pid t)) (<[3%nat := b]> ad);
  put_bytes 8 (rev (take GENIE_TRIPLE_MAC_SIZE (triple_mac t))) ad.

(** ** Strings *)

Definition nonzero (s : list Z) : Prop := Forall (λ b, b ≠ 0) s.

Lemma hex_digit_text n : 0 <= n < 16 → hex_digit n ≠ 0 /\ is_u8 (hex_digit n).
Proof. intros H. unfold hex_digit. destruct (Z.ltb_spec n 10); lia. Qed.

Lemma nibble b : 0 <= Z.land b 15 < 16.
Proof. change 15 with (Z.ones 4). rewrite Z.land_ones by lia. apply Z.mod_pos_bound. lia. Qed.

Lemma hextostring_text l : all_u8 l → length (hextostring l) = (2 * length l)%nat /\ nonzero (hextostring l) /\ all_u8 (hextostring l).
Proof.
  induction 1 as [|b l Hb Hl (L & N & U)]; [repeat split; [apply Forall_nil_2 | apply Forall_nil_2]|].
  pose proof (hex_digit_text (Z.shiftr b 4)) as A. rewrite Z.shiftr_div_pow2 in A by lia. specialize (A ltac:(split; [apply Z.div_pos; lia | apply Z.div_lt_upper_bound; lia])).
  pose proof (hex_digit_text _ (nibble b)) as B. unfold hextostring in *. cbn [map concat hex2 app length]. rewrite Z.shiftr_div_pow2 by lia.
  repeat split; [lia | |]; repeat apply Forall_cons_2; tauto.
Qed.
Lemma hex8_text v : length (hex8 v) = 8%nat /\ nonzero (hex8 v) /\ all_u8 (hex8 v).
Proof. repeat split; repeat (apply Forall_cons_2; [apply (hex_digit_text _ (nibble _))|]); apply Forall_nil_2. Qed.

Lemma c_string_text s rest : nonzero s → c_string (s ++ 0 :: rest) = Some s.
Proof. induction 1 as [|b s Hb Hs IH]; [done|]. cbn [app c_string]. rewrite (proj2 (Z.eqb_neq _ _) Hb), IH. done. Qed.

Lemma store_at_0 s buf : store_at 0 s buf = s ++ drop (length s) buf.
Proof. done. Qed.
Lemma drop_repeat0 k n : drop k (repeat 0 n) = repeat 0 (n - k).
Proof. revert n. induction k as [|k IH]; intros [|n]; try done. apply IH. Qed.

Lemma hex_string_text n l : all_u8 l → (2 * length l < n)%nat → hex_string n l = Some (hextostring l).
Proof.
  intros Hl Hn. destruct (hextostring_text l Hl) as (L & N & _). unfold hex_string, put_bytes. rewrite repeat_length, (proj2 (Nat.leb_le _ _)) by lia.
  cbn [mbind option_bind]. rewrite store_at_0, drop_repeat0. destruct (n - length (hextostring l))%nat eqn:E; [lia|]. cbn [repeat]. by apply c_string_text.
Qed.
Lemma put_string_read s n : nonzero s → (length s < n)%nat → exists d, put_string 0 s (repeat 0 n) = Some d /\ c_string d = Some s.
Proof.
  intros Hs Hn. unfold put_string. rewrite repeat_length, (proj2 (Nat.leb_le _ _)) by lia. eexists. split; [done|].
  rewrite store_at_0, <- app_assoc. by apply c_string_text.
Qed.

(** What the triple of a device is: a 32-bit product id, six and sixteen bytes. *)
Definition triple_ok (t : genie_triple_t) : Prop :=
  is_u32 (pid t) /\ length (triple_mac t) = GENIE_TRIPLE_MAC_SIZE /\ all_u8 (triple_mac t) /\ length (triple_key t) = GENIE_TRIPLE_KEY_SIZE /\ all_u8 (triple_key t).

(** "pid,mac,key" *)
Definition triple_text (t : genie_triple_t) : list Z := hex8 (pid t) ++ comma ++ hextostring (triple_mac t) ++ comma ++ hextostring (triple_key t).

Lemma comma_text : length comma = 1%nat /\ nonzero comma /\ all_u8 comma.
Proof. repeat split; apply Forall_singleton; lia. Qed.
Lemma app_text a b : nonzero a /\ all_u8 a → nonzero b /\ all_u8 b → nonzero (a ++ b) /\ all_u8 (a ++ b).
Proof. intros [? ?] [? ?]. split; by apply Forall_app_2. Qed.

Lemma triple_text_ok t : triple_ok t → length (triple_text t) = 54%nat /\ nonzero (triple_text t) /\ all_u8 (triple_text t).
Proof.
  intros (Hp & Lm & Um & Lk & Uk). destruct (hex8_text (pid t)) as (L1 & T1), comma_text as (L2 & T2), (hextostring_text _ Um) as (L3 & T3), (hextostring_text _ Uk) as (L4 & T4).
  unfold triple_text. split; [rewrite !length_app; rewrite Lm in L3; rewrite Lk in L4; unfold GENIE_TRIPLE_MAC_SIZE, GENIE_TRIPLE_KEY_SIZE in *; lia|].
  repeat apply app_text; done.
Qed.

Lemma sha256_of_eq data d : all_u8 data → length d = 32%nat → sha256_of data d = Some (sha256 data).
Proof.
  intros Hd Hl. unfold sha256_of. destruct (hashing_init ctx0) as (s & E & Hs). destruct (tc_sha256_init (Some ctx0)) as [r o]. cbn [snd] in E. subst o. cbn [mbind option_bind].
  destruct (hashing_update s [] data Hs Hd) as (s' & E & Hs'). rewrite E. cbn [mbind option_bind]. rewrite (final_of_hashing s' data d Hs' ltac:(lia)). cbn [mbind option_bind].
  by rewrite drop_ge, app_nil_r by lia.
Qed.

(** The value with which a device answers to a provisioner: the SHA-256 of
    "pid,mac,secret,random" in lower case hexadecimal digits, which fits its buffer
    exactly. *)
Theorem auth_value t random g_auth : triple_ok t → length random = 16%nat → all_u8 random → length g_auth = 32%nat →
  genie_crypto_get_auth t random g_auth = Some (sha256 (triple_text t ++ comma ++ hextostring random)).
Proof.
  intros Ht Lr Ur Lg. destruct (triple_text_ok t Ht) as (L & T). destruct Ht as (Hp & Lm & Um & Lk & Uk). destruct (hextostring_text _ Ur) as (L5 & T5), comma_text as (Lc & Tc).
  unfold genie_crypto_get_auth. rewrite !take_ge by (unfold GENIE_TRIPLE_MAC_SIZE, GENIE_TRIPLE_KEY_SIZE in *; lia).
  unfold GENIE_TRIPLE_MAC_SIZE, GENIE_TRIPLE_KEY_SIZE in *. rewrite !hex_string_text by (done || lia). cbn [mbind option_bind].
  replace (hex8 (pid t) ++ comma ++ hextostring (triple_mac t) ++ comma ++ hextostring (triple_key t) ++ comma ++ hextostring random) with (triple_text t ++ comma ++ hextostring random) by (unfold triple_text; by rewrite <- !app_assoc).
  destruct (app_text _ _ T (app_text _ _ Tc T5)) as [N U].
  destruct (put_string_read _ 88 N) as (d & E & C); [rewrite !length_app; lia|]. rewrite E. cbn [mbind option_bind]. rewrite C. cbn [mbind option_bind]. by apply sha256_of_eq.
Qed.

(** The part of the random before its first zero. *)
Fixpoint until_zero (l : list Z) : list Z :=
  match l with [] => [] | b :: l => if b =? 0 then [] else b :: until_zero l end.

Lemma c_string_until l s rest : nonzero s → c_string (l ++ s ++ 0 :: rest) = Some (until_zero l ++ (if forallb (λ b, negb (b =? 0)) l then s else [])).
Proof.
  intros Hs. induction l as [|b l IH]; [by apply c_string_text|]. cbn [app c_string until_zero forallb]. destruct (b =? 0); [done|]. cbn [negb andb]. rewrite IH. done.
Qed.
Lemma until_zero_u8 l : all_u8 l → all_u8 (until_zero l).
Proof. induction 1 as [|b l Hb Hl IH]; [apply Forall_nil_2|]. cbn [until_zero]. destruct (b =? 0); [apply Forall_nil_2 | by apply Forall_cons_2]. Qed.

(** The key of a connection. *)
Definition ble_key (t : genie_triple_t) (random : list Z) : list Z :=
  sha256 (until_zero random ++ (if forallb (λ b, negb (b =? 0)) random then comma ++ triple_text t else [])).

Lemma cipher_key t random g_ble_key cipher : triple_ok t → length random = 16%nat → all_u8 random → length g_ble_key = 32%nat →
  genie_ais_get_cipher t random g_ble_key cipher = Some (ble_key t random, snd (genie_crypto_encrypt (ble_key t random) random cipher)).
Proof.
  intros Ht Lr Ur Lg. destruct (triple_text_ok t Ht) as (L & T). destruct Ht as (Hp & Lm & Um & Lk & Uk). destruct comma_text as (Lc & Tc).
  unfold genie_ais_get_cipher. rewrite !take_ge by (unfold GENIE_TRIPLE_MAC_SIZE, GENIE_TRIPLE_KEY_SIZE in *; lia).
  unfold GENIE_TRIPLE_MAC_SIZE, GENIE_TRIPLE_KEY_SIZE in *. rewrite !hex_string_text by (done || lia). cbn [mbind option_bind].
  unfold put_bytes. rewrite repeat_length, (proj2 (Nat.leb_le _ _)) by lia. cbn [mbind option_bind]. rewrite store_at_0, Lr, drop_repeat0.
  replace (hex8 (pid t) ++ comma ++ hextostring (triple_mac t) ++ comma ++ hextostring (triple_key t)) with (triple_text t) by done.
  unfold put_string. rewrite !length_app, repeat_length, (proj2 (Nat.leb_le _ _)) by lia. cbn [mbind option_bind].
  destruct (app_text _ _ Tc T) as [N U].
  assert (c_string (store_at 16 ((comma ++ triple_text t) ++ [0]) (random ++ repeat 0 (72 - 16))) = Some (until_zero random ++ (if forallb (λ b, negb (b =? 0)) random then comma ++ triple_text t else []))) as E.
  { unfold store_at. rewrite take_app_le, take_ge by lia. rewrite <- !(app_assoc (comma ++ triple_text t)). by apply c_string_until. }
  rewrite E. cbn [mbind option_bind]. rewrite sha256_of_eq; [done | | done]. apply Forall_app_2; [by apply until_zero_u8|]. destruct (forallb _ random); [done | apply Forall_nil_2].
Qed.

Lemma aes_iv_block : block aes_iv.
Proof. split; [done|]. repeat (apply Forall_cons_2; [lia|]). apply Forall_nil_2. Qed.

Lemma crypto_roundtrip key data o o' : block data → snd (genie_crypto_decrypt key (snd (genie_crypto_encrypt key data o)) o') = data.
Proof.
  intros Hd. unfold genie_crypto_encrypt, genie_crypto_decrypt. rewrite take_ge by (destruct Hd; lia).
  rewrite bt_mesh_aes_encrypt_eq. cbn [snd]. rewrite bt_mesh_aes_decrypt_eq. cbn [snd]. rewrite decrypt_encrypt.
  - apply zip_lxor_cancel. by destruct Hd.
  - apply zip_lxor_block; [done | apply aes_iv_block].
  - apply key_schedule_length.
Qed.

(** What [genie_ais_get_cipher] makes of the random of a phone: the text that is
    hashed fits its buffer; when the random has no zero byte the key of the connection is
    the SHA-256 of the random, the product id, the address and the secret of the device,
    and the cipher decrypts to the random under it.  A zero byte ends the text, so that
    everything behind it, the secret included, does not enter the key. *)
Theorem connection_key t random g_ble_key cipher o : triple_ok t → length random = 16%nat → all_u8 random → length g_ble_key = 32%nat →
  exists key c, genie_ais_get_cipher t random g_ble_key cipher = Some (key, c) /\
    snd (genie_crypto_decrypt key c o) = random /\
    (Forall (λ b, b ≠ 0) random → key = sha256 (random ++ comma ++ triple_text t)) /\
    (forall before behind, random = before ++ 0 :: behind → Forall (λ b, b ≠ 0) before → key = sha256 before).
Proof.
  intros Ht Lr Ur Lg. eexists _, _. split; [by apply cipher_key|]. split; [apply crypto_roundtrip; by split|]. unfold ble_key. split.
  - intros N. assert (until_zero random = random /\ forallb (λ b, negb (b =? 0)) random = true) as [-> ->]; [|done].
    clear - N. induction N as [|b l Hb Hl [IH1 IH2]]; [done|]. cbn [until_zero forallb]. rewrite (proj2 (Z.eqb_neq _ _) Hb), IH1. done.
  - intros b1 b2 -> N. assert (until_zero (b1 ++ 0 :: b2) = b1 /\ forallb (λ b, negb (b =? 0)) (b1 ++ 0 :: b2) = false) as [-> ->]; [|by rewrite app_nil_r].
    clear - N. induction N as [|b l Hb Hl [IH1 IH2]]; [done|]. cbn [app until_zero forallb]. rewrite (proj2 (Z.eqb_neq _ _) Hb), IH1. done.
Qed.
End Crypto.

Definition sample_triple : genie_triple_t := mkTriple 293 (repeat 170 16) [1; 2; 3; 4; 5; 6].
Lemma sample_triple_ok : triple_ok sample_triple.
Proof. unfold triple_ok, sample_triple. cbn [pid triple_mac triple_key]. repeat split; try done; cbn [repeat]; repeat (apply Forall_cons_2; [lia|]); apply Forall_nil_2. Qed.

(** A phone that sends sixteen zeros gets the hash of the empty string, whatever the
    secret of the device is. *)
Lemma connection_key_witness : exists key c, genie_ais_get_cipher [] (mkSha [] 0 [] 0) sample_triple (repeat 0 16) (repeat 9 32) [] = Some (key, c) /\
  snd (genie_crypto_decrypt [] key c []) = repeat 0 16 /\ key = sha256 [].
Proof.
  destruct (connection_key [] (mkSha [] 0 [] 0) sample_triple (repeat 0 16) (repeat 9 32) [] []) as (key & c & E & D & _ & Z);
    [apply sample_triple_ok | reflexivity | apply repeat0_u8 | reflexivity |].
  exists key, c. split; [exact E|]. split; [exact D|]. apply (Z [] (repeat 0 15)); [reflexivity | apply Forall_nil_2].
Defined.
