(* ===== verification/Ota.v ===== *)
(** * Ota: the AIS service and firmware updates over a BLE connection

    genie_service/core/src/genie_ais.c and genie_ota.c, with the port
    platform/mcu/tg7100b/port/ali_dfu_port.c, the flash access of
    platform/mcu/tg7100b/hal/flash.c and utility/crc/crc16.c.  A phone connects, may
    negotiate a key, announces an image, sends it in groups of at most sixteen frames,
    and asks for a check; the device then restarts into the new image.

    The state [ais] holds genie_ais_ctx, genie_ota_ctx, the key of genie_crypto.c, the
    flash partition of the image, and the service of [Lifecycle] with its storage.
    A message is the list of the bytes of a GATT write.  A read behind its end and a write
    behind the end of the receive buffer are [None].  [allow_reboot] is the application's
    genie_sal_ota_is_allow_reboot.  CONFIG_GENIE_OTA_PINGPONG and
    CONFIG_BT_MESH_MULTIADV are off. *)
From Stdlib Require Import ZArith Lia List Bool.
From stdpp Require Import base list numbers option.
From S2P Require Import Prelude Env Transport Aes Cmac Storage Lifecycle KvStore Sha256 GenieCrypto.
Local Open Scope Z_scope.

(** ** Constants *)

Definition CONFIG_AIS_TOTAL_FRAME : Z := 6.
Definition OTA_RECV_BUF_SIZE : nat := Z.to_nat (CONFIG_AIS_TOTAL_FRAME * 128).
Definition OTA_RECV_MAX_ERR_COUNT : Z := 10.
Definition AIS_OTA_AUTH_TIMEOUT : Z := 10000.
Definition AIS_OTA_REPORT_TIMEOUT : Z := CONFIG_AIS_TOTAL_FRAME * 400.
Definition AIS_OTA_REBOOT_TIMEOUT : Z := 3000.
Definition AIS_DISCONNECT_TIMEOUT : Z := 1000.
Definition AIS_RESP_ERR : Z := 0x0f.
Definition AIS_SCRT_RANDOM : Z := 0x10.
Definition AIS_SCRT_CIPHER : Z := 0x11.
Definition AIS_SCRT_RESULT : Z := 0x12.
Definition AIS_SCRT_ACK : Z := 0x13.
Definition AIS_LINK_STATUS : Z := 0x14.
Definition AIS_LINK_ACK : Z := 0x15.
Definition OTA_FLAG_SILENT : Z := 0x02.
Definition AIS_OTA_VER_REQ : Z := 0x20.
Definition AIS_OTA_VER_RESP : Z := 0x21.
Definition AIS_OTA_FIRMWARE_REQ : Z := 0x22.
Definition AIS_OTA_UPD_RESP : Z := 0x23.
Definition AIS_OTA_STATUS : Z := 0x24.
Definition AIS_OTA_CHECK_REQ : Z := 0x25.
Definition AIS_OTA_CHECK_RESP : Z := 0x26.
Definition AIS_OTA_DATA : Z := 0x2f.
Definition GFI_OTA_INDICAT : Z := 11.
Definition GFI_OTA_IMAGE_ID : Z := 12.
Definition ATTR_TYPE_REPORT_VERSION : Z := 0xff01.
Definition VENDOR_MODEL_VERSION : Z := 10.
Definition SDK_VERSION : Z := 13.
Definition SPIF_SECTOR_SIZE : Z := 0x1000.

(** ** utility/crc/crc16.c *)

(** The inner loop, [j] from 8 - [n]. *)
Fixpoint ccitt_bits (n : nat) (j data crc : Z) : Z :=
  match n with
  | O => crc
  | S n =>
    let b := u8 (Z.lxor (Z.land (Z.shiftl data j) 0x80) (Z.shiftr (Z.land crc 0x8000) 8)) in
    let crc := u16 (Z.shiftl crc 1) in
    ccitt_bits n (j + 1) data (if negb (b =? 0) then Z.lxor crc 0x1021 else crc)
  end.
Definition util_crc16_ccitt (p_data : list Z) (p_crc : option Z) : Z :=
  fold_left (λ crc b, ccitt_bits 8 0 b crc) p_data (default 0xffff p_crc).

(** [util_crc16_compute], the same text as [genie_crc16_compute]. *)
Definition util_crc16_compute (p_data : list Z) (p_crc : option Z) : Z := genie_crc16_compute p_data p_crc.

(** ** platform/mcu/tg7100b/hal/flash.c, on the partition of the image *)

(** Whether csi_spiflash_initialize gives a handle, the bytes of the partition, how often
    [g_spiflash_mutex] is locked, which of the coming operations of the flash driver fail
    (a failing operation changes nothing), and the static [image_crc16] of the port. *)
Record hal_t := mkHal { spi_ok : bool; ota_part : list Z; mutex : nat; faults_of : list bool; dfu_crc : Z }.

Definition partition_length (h : hal_t) : Z := Z.of_nat (length (ota_part h)).
(** [hal_flash_get_info(HAL_PARTITION_OTA_TEMP) != NULL] *)
Definition hal_flash_get_info (h : hal_t) : bool := spi_ok h.

Definition driver_ok (h : hal_t) : bool * hal_t :=
  match faults_of h with
  | [] => (true, h)
  | b :: l => (negb b, mkHal (spi_ok h) (ota_part h) (mutex h) l (dfu_crc h))
  end.
Definition with_part (p : list Z) (h : hal_t) : hal_t := mkHal (spi_ok h) p (mutex h) (faults_of h) (dfu_crc h).
Definition with_mutex (n : nat) (h : hal_t) : hal_t := mkHal (spi_ok h) (ota_part h) n (faults_of h) (dfu_crc h).
Definition with_dfu_crc (c : Z) (h : hal_t) : hal_t := mkHal (spi_ok h) (ota_part h) (mutex h) (faults_of h) c.

(** [csi_spiflash_erase_sector]; what lies behind the partition is not modelled. *)
Definition erase_sector (off : Z) (p : list Z) : list Z := take (length p) (splice off (repeat 255 (Z.to_nat SPIF_SECTOR_SIZE)) p).
Fixpoint erase_sectors (n : nat) (off : Z) (h : hal_t) : Z * hal_t :=
  match n with
  | O => (0, h)
  | S n =>
    let '(ok, h) := driver_ok h in
    if negb ok then (-1, h) else erase_sectors n (off + SPIF_SECTOR_SIZE) (with_part (erase_sector off (ota_part h)) h)
  end.
Definition hal_flash_erase (off_set size : Z) (h : hal_t) : Z * hal_t :=
  if negb (hal_flash_get_info h) || (partition_length h <? u32 (off_set + size)) then (-1, h) else
  if negb (off_set mod SPIF_SECTOR_SIZE =? 0) then (0, h) else
  let blkcnt := if size mod SPIF_SECTOR_SIZE =? 0 then size / SPIF_SECTOR_SIZE else 1 + size / SPIF_SECTOR_SIZE in
  erase_sectors (Z.to_nat blkcnt) off_set h.

(** A failing write or read of the driver returns before the mutex is unlocked. *)
Definition hal_flash_write (off_set : Z) (buf : list Z) (h : hal_t) : Z * hal_t :=
  if negb (hal_flash_get_info h) || (partition_length h <? u32 (off_set + Z.of_nat (length buf))) then (-1, h) else
  let h := with_mutex (S (mutex h)) h in
  let '(ok, h) := driver_ok h in
  if negb ok then (-1, h) else (0, with_mutex (pred (mutex h)) (with_part (program off_set buf (ota_part h)) h)).
Definition hal_flash_read (off_set n : Z) (h : hal_t) : option (list Z) * hal_t :=
  if negb (hal_flash_get_info h) || (partition_length h <? u32 (off_set + n)) then (None, h) else
  let h := with_mutex (S (mutex h)) h in
  let '(ok, h) := driver_ok h in
  if negb ok then (None, h) else (Some (rd off_set n (ota_part h)), with_mutex (pred (mutex h)) h).

(** ** ali_dfu_port.c *)

Definition ali_dfu_image_update (offset : Z) (buf : list Z) (h : hal_t) : Z * hal_t :=
  let h := with_dfu_crc (if offset =? 0 then util_crc16_ccitt buf None else util_crc16_ccitt buf (Some (dfu_crc h))) h in
  if negb (hal_flash_get_info h) || (partition_length h <? u32 (offset + Z.of_nat (length buf))) then (-1, h) else
  let wr_idx := u32 (offset + Z.shiftl SPIF_SECTOR_SIZE 1) in
  let '(ret, h) := hal_flash_write wr_idx buf h in
  if ret <? 0 then (-1, h) else (0, h).

Definition dfu_check_checksum (h : hal_t) : Z * Z := (1, dfu_crc h).

Definition erase_dfu_flash (h : hal_t) : Z * hal_t :=
  let offset := Z.shiftl SPIF_SECTOR_SIZE 1 in
  if negb (hal_flash_get_info h) then (-1, h) else
  let length_ := u32 (partition_length h - offset) in
  let '(wr_buf, h) := hal_flash_read offset 32 h in
  match wr_buf with
  | None => (-1, h)
  | Some wr_buf =>
    if bool_decide (wr_buf = repeat 255 32) then (0, h) else
    let '(ret, h) := hal_flash_erase offset length_ h in
    if ret <? 0 then (-1, h) else (0, h)
  end.

Definition ali_dfu_get_ota_partition_max_size (h : hal_t) : Z :=
  let reserve_size := Z.shiftl SPIF_SECTOR_SIZE 1 in
  if negb (hal_flash_get_info h) then 0 else
  if reserve_size <? partition_length h then partition_length h - reserve_size else 0.

(** ** State *)

Inductive ais_state_e := AIS_STATE_DISCON | AIS_STATE_CONNECT | AIS_STATE_AUTH | AIS_STATE_IDLE | AIS_STATE_OTA | AIS_STATE_REBOOT.
#[export] Instance ais_state_eq : EqDecision ais_state_e.
Proof. solve_decision. Defined.

Record genie_ota_ctx_t := mkOta {
  err_count : Z; last_seq : Z; total_frame : Z; except_seq : Z; rx_size : Z;
  image_type : Z; image_ver : Z; image_size : Z; image_crc16 : Z; ota_flag : Z;
  flash_clean : Z; ota_ready : Z; rx_len : nat; recv_buf : list Z }.
Definition ota_zero : genie_ota_ctx_t := mkOta 0 0 0 0 0 0 0 0 0 0 0 0 0 (repeat 0 OTA_RECV_BUF_SIZE).

Definition set_err (e : Z) (c : genie_ota_ctx_t) : genie_ota_ctx_t :=
  mkOta e (last_seq c) (total_frame c) (except_seq c) (rx_size c) (image_type c) (image_ver c) (image_size c) (image_crc16 c) (ota_flag c) (flash_clean c) (ota_ready c) (rx_len c) (recv_buf c).
Definition set_rx (n : nat) (b : list Z) (c : genie_ota_ctx_t) : genie_ota_ctx_t :=
  mkOta (err_count c) (last_seq c) (total_frame c) (except_seq c) (rx_size c) (image_type c) (image_ver c) (image_size c) (image_crc16 c) (ota_flag c) (flash_clean c) (ota_ready c) n b.
Definition set_flash_clean (v : Z) (c : genie_ota_ctx_t) : genie_ota_ctx_t :=
  mkOta (err_count c) (last_seq c) (total_frame c) (except_seq c) (rx_size c) (image_type c) (image_ver c) (image_size c) (image_crc16 c) (ota_flag c) v (ota_ready c) (rx_len c) (recv_buf c).
Definition set_ota_ready (v : Z) (c : genie_ota_ctx_t) : genie_ota_ctx_t :=
  mkOta (err_count c) (last_seq c) (total_frame c) (except_seq c) (rx_size c) (image_type c) (image_ver c) (image_size c) (image_crc16 c) (ota_flag c) (flash_clean c) v (rx_len c) (recv_buf c).
Definition set_except (v : Z) (c : genie_ota_ctx_t) : genie_ota_ctx_t :=
  mkOta (err_count c) (last_seq c) (total_frame c) v (rx_size c) (image_type c) (image_ver c) (image_size c) (image_crc16 c) (ota_flag c) (flash_clean c) (ota_ready c) (rx_len c) (recv_buf c).
Definition set_progress (l t r : Z) (c : genie_ota_ctx_t) : genie_ota_ctx_t :=
  mkOta (err_count c) l t (except_seq c) r (image_type c) (image_ver c) (image_size c) (image_crc16 c) (ota_flag c) (flash_clean c) (ota_ready c) (rx_len c) (recv_buf c).

(** What leaves the service. *)
Inductive ais_output :=
| Indicate (conn : Z) (msg : list Z) | Notify (conn : Z) (msg : list Z) | Disconnect (conn : Z) | Reboot.

Section Ais.
Context {F : Type} `{Flash F}.
Variables (keys_ok : list Z → bool) (q : list Z) (sched0 : list Z) (ctx0 : tc_sha256_state_struct).
(** The triple of the device, PROJECT_SW_VERSION, the application. *)
Variables (triple : genie_triple_t) (appver : Z) (allow_reboot : svc F → bool * svc F).

Record ais := mkAis {
  ais_state : ais_state_e; p_conn : option Z; state_update_timer : option Z; disconnect_timer : option Z;
  ota : genie_ota_ctx_t; g_ble_key : list Z; hal : hal_t; sv : svc F; ais_out : list ais_output; heap_faults : list bool }.

Definition set_ais_state (v : ais_state_e) (s : ais) : ais := mkAis v (p_conn s) (state_update_timer s) (disconnect_timer s) (ota s) (g_ble_key s) (hal s) (sv s) (ais_out s) (heap_faults s).
Definition set_conn (v : option Z) (s : ais) : ais := mkAis (ais_state s) v (state_update_timer s) (disconnect_timer s) (ota s) (g_ble_key s) (hal s) (sv s) (ais_out s) (heap_faults s).
Definition set_timer (v : option Z) (s : ais) : ais := mkAis (ais_state s) (p_conn s) v (disconnect_timer s) (ota s) (g_ble_key s) (hal s) (sv s) (ais_out s) (heap_faults s).
Definition set_dis_timer (v : option Z) (s : ais) : ais := mkAis (ais_state s) (p_conn s) (state_update_timer s) v (ota s) (g_ble_key s) (hal s) (sv s) (ais_out s) (heap_faults s).
Definition on_ota (f : genie_ota_ctx_t → genie_ota_ctx_t) (s : ais) : ais := mkAis (ais_state s) (p_conn s) (state_update_timer s) (disconnect_timer s) (f (ota s)) (g_ble_key s) (hal s) (sv s) (ais_out s) (heap_faults s).
Definition set_key (k : list Z) (s : ais) : ais := mkAis (ais_state s) (p_conn s) (state_update_timer s) (disconnect_timer s) (ota s) k (hal s) (sv s) (ais_out s) (heap_faults s).
Definition set_hal (h : hal_t) (s : ais) : ais := mkAis (ais_state s) (p_conn s) (state_update_timer s) (disconnect_timer s) (ota s) (g_ble_key s) h (sv s) (ais_out s) (heap_faults s).
Definition set_sv (v : svc F) (s : ais) : ais := mkAis (ais_state s) (p_conn s) (state_update_timer s) (disconnect_timer s) (ota s) (g_ble_key s) (hal s) v (ais_out s) (heap_faults s).
Definition put_out (o : ais_output) (s : ais) : ais := mkAis (ais_state s) (p_conn s) (state_update_timer s) (disconnect_timer s) (ota s) (g_ble_key s) (hal s) (sv s) (ais_out s ++ [o]) (heap_faults s).
Definition set_heap (l : list bool) (s : ais) : ais := mkAis (ais_state s) (p_conn s) (state_update_timer s) (disconnect_timer s) (ota s) (g_ble_key s) (hal s) (sv s) (ais_out s) l.

(** Whether [aos_malloc] succeeds. *)
Definition aos_malloc (s : ais) : bool * ais :=
  match heap_faults s with [] => (true, s) | b :: l => (negb b, set_heap l s) end.

(** ** genie_ais.c: messages *)

(** [ais_header_t]. *)
Record ais_header_t := mkAisHdr { msg_id : Z; enc : Z; ver : Z; cmd : Z; seq_ : Z; total_frame_ : Z; payload_len : Z }.

Definition parse_header (m : list Z) : option (ais_header_t * list Z) :=
  match m with
  | b0 :: b1 :: b2 :: b3 :: p =>
    Some (mkAisHdr (Z.land b0 15) (Z.land (Z.shiftr b0 4) 1) (Z.shiftr b0 5) b1 (Z.land b2 15) (Z.shiftr b2 4) b3, p)
  | _ => None
  end.
(** The header of a message of the device: one frame. *)
Definition header_bytes (id e cmd len : Z) : list Z := [Z.lor (Z.land id 15) (Z.shiftl e 4); cmd; 0; u8 len].

Definition _ais_server_indicate (id cmd : Z) (msg : list Z) (s : ais) : ais :=
  let '(ok, s) := aos_malloc s in
  if negb ok then s else
  let e := if bool_decide (ais_state s = AIS_STATE_IDLE) then 1 else 0 in
  match p_conn s with
  | Some c => put_out (Indicate c (header_bytes id e cmd (Z.of_nat (length msg)) ++ msg)) s
  | None => s
  end.

Definition genie_ais_notify (id cmd : Z) (msg : list Z) (s : ais) : ais :=
  let e := if bool_decide (ais_state s = AIS_STATE_IDLE \/ ais_state s = AIS_STATE_OTA \/ ais_state s = AIS_STATE_REBOOT) then 1 else 0 in
  match p_conn s with
  | Some c => put_out (Notify c (header_bytes id e cmd (Z.of_nat (length msg)) ++ msg)) s
  | None => s
  end.

Definition handle_ais_disconnect (s : ais) : ais :=
  match p_conn s with Some c => set_conn None (put_out (Disconnect c) s) | None => s end.

Definition dfu_reboot (s : ais) : ais := put_out Reboot s.

Definition genie_ais_disconnect (s : ais) : option ais :=
  if bool_decide (ais_state s ≠ AIS_STATE_REBOOT) then
    let s := set_ais_state AIS_STATE_DISCON (handle_ais_disconnect (set_timer None s)) in
    let s := if (flash_clean (ota s) =? 1) && (ota_ready (ota s) =? 0)
             then on_ota (set_flash_clean 0) (set_hal (snd (erase_dfu_flash (hal s))) s) else s in
    v ← genie_event keys_ok q GENIE_EVT_SDK_AIS_DISCON NULL (sv s);
    Some (set_sv v s)
  else
    let '(go, s) := if negb (ota_flag (ota s) =? OTA_FLAG_SILENT) then (true, s) else let '(r, v) := allow_reboot (sv s) in (r, set_sv v s) in
    Some (if go then dfu_reboot (set_sv (on_store (λ st, snd (genie_storage_delete_reliable GFI_OTA_IMAGE_ID st)) (sv s)) s) else s).

Definition genie_ais_state_update (s : ais) : ais :=
  match p_conn s with
  | None => s
  | Some _ =>
    match ais_state s with
    | AIS_STATE_DISCON => handle_ais_disconnect (set_timer None s)
    | AIS_STATE_CONNECT | AIS_STATE_IDLE => s
    | AIS_STATE_AUTH => set_timer (Some AIS_OTA_AUTH_TIMEOUT) s
    | AIS_STATE_OTA => set_timer (Some AIS_OTA_REPORT_TIMEOUT) s
    | AIS_STATE_REBOOT => set_dis_timer (Some AIS_DISCONNECT_TIMEOUT) (set_timer (Some AIS_OTA_REBOOT_TIMEOUT) s)
    end
  end.

(** ** genie_ota.c *)

Definition status_bytes (c : genie_ota_ctx_t) : list Z :=
  [Z.lor (Z.land (last_seq c) 15) (Z.shiftl (Z.land (total_frame c) 15) 4)] ++ le32 (rx_size c) ++ repeat 11 11.
Definition encrypted (data : list Z) (s : ais) : list Z := snd (genie_crypto_encrypt sched0 (g_ble_key s) data []).

Definition genie_ota_status_report (s : ais) : ais :=
  genie_ais_notify 0 AIS_OTA_STATUS (encrypted (status_bytes (ota s)) s) s.

Definition genie_ota_handle_version_request (id : Z) (p : list Z) (encrypt : bool) (s : ais) : option (bool * ais) :=
  t ← p !! 0%nat;
  if t =? 0 then
    let plaine_data := [0] ++ le32 appver ++ repeat 11 11 in
    Some (true, if encrypt then genie_ais_notify id AIS_OTA_VER_RESP (encrypted plaine_data s) s
                else genie_ais_notify id AIS_OTA_VER_RESP (take 5 plaine_data) s)
  else Some (false, s).

(** [ais_ota_upd_req_t]: image type, version, size, checksum, flag. *)
Definition parse_upd_req (p : list Z) : option (Z * Z * Z * Z * Z) :=
  match p with
  | t :: v0 :: v1 :: v2 :: v3 :: s0 :: s1 :: s2 :: s3 :: c0 :: c1 :: f :: _ =>
    Some (t, get_le32 v0 v1 v2 v3, get_le32 s0 s1 s2 s3, get_le16 c0 c1, f)
  | _ => None
  end.

Definition genie_ota_handle_update_request (id : Z) (p : list Z) (encrypt : bool) (s : ais) : option (bool * ais) :=
  '(t, v, fw_size, crc, f) ← parse_upd_req p;
  let illegal := negb (t =? 0) || (v <=? appver) || (ali_dfu_get_ota_partition_max_size (hal s) <? fw_size) || (fw_size =? 0) in
  let s := if illegal then s
           else on_ota (λ _, mkOta 0 0 0 0 0 t v fw_size crc f 0 0 0 (repeat 0 OTA_RECV_BUF_SIZE)) (set_ais_state AIS_STATE_OTA s) in
  let plaine_data := [if illegal then 0 else 1] ++ le32 0 ++ [CONFIG_AIS_TOTAL_FRAME - 1] ++ repeat 10 10 in
  Some (true, if encrypt then genie_ais_notify id AIS_OTA_UPD_RESP (encrypted plaine_data s) s
              else genie_ais_notify id AIS_OTA_UPD_RESP (take 6 plaine_data) s).

(** The copy of a payload to the receive buffer: [None] when it does not fit. *)
Definition save_payload (p : list Z) (c : genie_ota_ctx_t) : option genie_ota_ctx_t :=
  if Nat.eqb (length p) 0 then Some c else
  if Nat.ltb (length (recv_buf c)) (rx_len c + length p) then None else
  Some (set_rx (rx_len c + length p) (store_at (rx_len c) p (recv_buf c)) (set_flash_clean 1 c)).

(** [p] is the payload: its length is that of the header, see the caller. *)
Definition genie_ota_parse_pdu (h : ais_header_t) (p : list Z) (s : ais) : option (bool * ais) :=
  if total_frame_ h <? seq_ h then Some (false, s) else
  if negb (seq_ h =? except_seq (ota s)) then
    let first := err_count (ota s) =? 0 in
    let s := on_ota (λ c, set_err (u8 (err_count c + 1)) c) s in
    if first then Some (true, genie_ota_status_report s) else Some (false, s)
  else
  if image_size (ota s) <? u32 (rx_size (ota s) + payload_len h) then Some (false, s) else
  let s := on_ota (set_err 0) s in
  let s := if seq_ h =? 0 then on_ota (set_rx 0 (repeat 0 OTA_RECV_BUF_SIZE)) s else s in
  c ← save_payload p (ota s);
  let c := set_progress (seq_ h) (total_frame_ h) (u32 (rx_size c + payload_len h)) c in
  let s := on_ota (λ _, c) s in
  let s :=
    if seq_ h =? total_frame_ h then
      let '(_, hl) := ali_dfu_image_update (u32 (rx_size c - Z.of_nat (rx_len c))) (take (rx_len c) (recv_buf c)) (hal s) in
      on_ota (λ c, set_except 0 (set_rx 0 (recv_buf c) c)) (set_hal hl s)
    else on_ota (set_except (u8 (seq_ h + 1))) s in
  Some (true, if (rx_size (ota s) =? image_size (ota s)) || (seq_ h =? total_frame_ h) then genie_ota_status_report s else s).

Definition _ais_set_ota_change (s : ais) : ais :=
  on_ota (set_ota_ready 1) (set_sv (on_store (λ st, snd (genie_storage_write_userdata GFI_OTA_INDICAT (Some [1]) st)) (sv s)) s).

Definition genie_ota_check_firmware (id : Z) (p : list Z) (s : ais) : option (bool * ais) :=
  r ← p !! 0%nat;
  let s := set_ais_state AIS_STATE_IDLE s in
  if r =? 1 then
    let '(st, crc16) := dfu_check_checksum (hal s) in
    let st := if truthy st && negb (crc16 =? image_crc16 (ota s)) then 0 else st in
    let s := if truthy st then _ais_set_ota_change (set_ais_state AIS_STATE_REBOOT s) else s in
    Some (true, genie_ais_notify id AIS_OTA_CHECK_RESP (encrypted ([st] ++ repeat 15 15) s) s)
  else Some (false, s).

Definition genie_ota_is_ready (s : ais) : bool := truthy (ota_ready (ota s)).
Definition genie_ota_is_updating (s : ais) : bool := 0 <? rx_size (ota s).
Definition genie_ota_get_indication (s : ais) : bool :=
  let '(ret, b) := genie_storage_read_userdata GFI_OTA_INDICAT [255] (store (sv s)) in
  (ret =? GENIE_STORAGE_SUCCESS) && (nth 0 b 0 =? 1).

(** The version report after the start; its callback forgets the indication. *)
Definition ota_report_version_result_cb : Z := 103.
Definition on_version_reported (r : transport_result_e) (s : ais) : ais :=
  match r with
  | SEND_RESULT_SUCCESS => set_sv (on_store (λ st, snd (genie_storage_delete_userdata GFI_OTA_INDICAT st)) (sv s)) s
  | SEND_RESULT_TIMEOUT => s
  end.
Definition genie_ota_report_version (s : ais) : ais :=
  set_sv (send_report (mkPayload 0 VENDOR_OP_ATTR_INDICATE 0 GENIE_TRANSPORT_DEFAULT_RETRY_COUNT 0
    (Some (le16 ATTR_TYPE_REPORT_VERSION ++ le32 appver ++ [VENDOR_MODEL_VERSION; SDK_VERSION])) 8 (Some ota_report_version_result_cb)) (sv s)) s.
(** Registering the service and the timers is done by the stack. *)
Definition genie_ota_init (s : ais) : Z * ais := (0, genie_ota_report_version s).

Definition genie_ais_pre_init (s : ais) : ais := mkAis AIS_STATE_DISCON None None None (ota s) (g_ble_key s) (hal s) (sv s) (ais_out s) (heap_faults s).
Definition genie_ota_pre_init (s : ais) : ais :=
  let s := on_ota (λ _, ota_zero) (genie_ais_pre_init s) in
  set_hal (snd (erase_dfu_flash (hal s))) s.

(** ** genie_ais.c: the state machine *)

Definition state_update_timer_cb (s : ais) : ais :=
  let s := match ais_state s with
    | AIS_STATE_CONNECT | AIS_STATE_IDLE => set_ais_state AIS_STATE_DISCON s
    | AIS_STATE_AUTH => set_ais_state AIS_STATE_CONNECT (set_key (genie_ais_reset (g_ble_key s)) s)
    | AIS_STATE_OTA =>
      let e := err_count (ota s) in
      let s := on_ota (set_err (u8 (e + 1))) s in
      if OTA_RECV_MAX_ERR_COUNT <=? e
      then _ais_server_indicate 0 AIS_RESP_ERR [] (on_ota (λ c, set_rx 0 (recv_buf c) c) (set_ais_state AIS_STATE_IDLE s))
      else genie_ota_status_report s
    | AIS_STATE_REBOOT => dfu_reboot s
    | AIS_STATE_DISCON => s
    end in
  genie_ais_state_update s.

Definition genie_ais_connect (c : Z) (s : ais) : option ais :=
  if bool_decide (ais_state s ≠ AIS_STATE_REBOOT) then
    let s := genie_ais_state_update (set_ais_state AIS_STATE_CONNECT (set_conn (Some c) s)) in
    v ← genie_event keys_ok q GENIE_EVT_SDK_AIS_CONNECT NULL (sv s);
    Some (set_sv v s)
  else Some s.

Definition _ais_dis_timer_cb (s : ais) : ais := handle_ais_disconnect s.

Definition _ais_scrt_random (id : Z) (p : list Z) (s : ais) : option (bool * ais) :=
  let s := set_ais_state AIS_STATE_AUTH s in
  '(key, cipher) ← genie_ais_get_cipher sched0 ctx0 triple (take 16 p) (g_ble_key s) [];
  Some (true, _ais_server_indicate id AIS_SCRT_CIPHER cipher (set_key key s)).

Definition _ais_scrt_result (id : Z) (p : list Z) (s : ais) : option (bool * ais) :=
  r ← p !! 0%nat;
  let s := if r =? 1 then set_ais_state AIS_STATE_CONNECT (set_key (genie_ais_reset (g_ble_key s)) s) else set_ais_state AIS_STATE_IDLE s in
  Some (true, _ais_server_indicate id AIS_SCRT_ACK [0] s).

Definition _ais_link_ack (id : Z) (p : list Z) (s : ais) : option (bool * ais) :=
  r ← p !! 0%nat;
  let s := if r =? 0 then set_ais_state AIS_STATE_CONNECT (set_key (genie_ais_reset (g_ble_key s)) s) else s in
  Some (true, _ais_server_indicate id AIS_LINK_ACK (encrypted ([1] ++ repeat 15 15) s) s).

(** [_ais_decrypt]: the payload in place, 0 when AES succeeds. *)
Definition _ais_decrypt (p : list Z) (s : ais) : Z * list Z :=
  let '(r, dec) := genie_crypto_decrypt sched0 (g_ble_key s) (take 16 p) [] in
  if negb (r =? 0) then (-1, p) else (0, dec ++ drop 16 p).
Definition decrypted (p : list Z) (s : ais) (f : list Z → option (bool * ais)) : option (bool * ais) :=
  let '(r, p) := _ais_decrypt p s in if r =? 0 then f p else Some (false, s).

(** The switch; [None] inside is an unsupported command, which is ignored.  The check of
    the header before it only prints. *)
Definition ais_command (h : ais_header_t) (p : list Z) (len : Z) (s : ais) : option (option (bool * ais)) :=
  let id := msg_id h in
  if cmd h =? AIS_SCRT_RANDOM then
    Some <$> (if len =? 20 then _ais_scrt_random id p s else Some (false, s))
  else if cmd h =? AIS_SCRT_RESULT then
    Some <$> (if len =? 5 then _ais_scrt_result id p (set_timer None s) else Some (false, s))
  else if cmd h =? AIS_LINK_STATUS then
    Some <$> (if len =? 20 then decrypted p s (λ p, _ais_link_ack id p s) else Some (false, s))
  else if cmd h =? AIS_OTA_VER_REQ then
    Some <$> (if len =? 20 then decrypted p s (λ p, genie_ota_handle_version_request id p true s)
              else if len =? 5 then genie_ota_handle_version_request id p false s else Some (false, s))
  else if cmd h =? AIS_OTA_FIRMWARE_REQ then
    Some <$> (if len =? 20 then decrypted p s (λ p, genie_ota_handle_update_request id p true s)
              else if len =? 16 then genie_ota_handle_update_request id p false s else Some (false, s))
  else if cmd h =? AIS_OTA_DATA then
    Some <$> (if (len =? 4 + payload_len h) && (ver h =? 0) then genie_ota_parse_pdu h p s else Some (false, s))
  else if cmd h =? AIS_OTA_CHECK_REQ then
    Some <$> (if (len =? 20) && bool_decide (ais_state s = AIS_STATE_OTA)
              then decrypted p s (λ p, genie_ota_check_firmware id p s) else Some (false, s))
  else Some None.

Definition _ais_server_msg_handle (m : list Z) (s : ais) : option ais :=
  '(h, p) ← parse_header m;
  r ← ais_command h p (Z.of_nat (length m)) s;
  match r with
  | None => Some s
  | Some (timer_refresh, s) =>
    Some (if timer_refresh : bool then genie_ais_state_update s
          else if bool_decide (ais_state s ≠ AIS_STATE_OTA) then _ais_server_indicate (msg_id h) AIS_RESP_ERR [] s else s)
  end.

(** Both write characteristics end here. *)
Definition _ais_service_write (m : list Z) (s : ais) : option ais :=
  if Nat.eqb (length m) 0 then Some s else _ais_server_msg_handle m s.

(** ** What happens to the service *)

Inductive ais_input := InConnect (c : Z) | InDisconnect | InWrite (m : list Z) | InTimer | InDisTimer.

(** A timer is one shot: it is not running in its callback. *)
Definition ais_step (i : ais_input) (s : ais) : option ais :=
  match i with
  | InConnect c => genie_ais_connect c s
  | InDisconnect => genie_ais_disconnect s
  | InWrite m => _ais_service_write m s
  | InTimer => match state_update_timer s with Some _ => Some (state_update_timer_cb (set_timer None s)) | None => Some s end
  | InDisTimer => match disconnect_timer s with Some _ => Some (_ais_dis_timer_cb (set_dis_timer None s)) | None => Some s end
  end.
Fixpoint ais_run (l : list ais_input) (s : ais) : option ais :=
  match l with [] => Some s | i :: l => s ← ais_step i s; ais_run l s end.
End Ais.
Arguments ais F : clear implicits.
