(* ===== verification/OtaProps.v ===== *)
(** * OtaProps: firmware updates

    What a transfer leaves in flash and when the device restarts ([transfer_installs],
    [restart_only_checked]), that a stalled transfer ends ([stalled_transfer_ends]), when
    the receive buffer is large enough ([frames_in_bounds]) and when it is not
    ([long_frames_overflow]), and what the code accepts that it should not. *)
From Stdlib Require Import ZArith Lia List Bool.
From stdpp Require Import base list numbers option.
From S2P Require Import Prelude Env Transport Aes Cmac Storage Lifecycle LifecycleProps KvStore Sha256 GenieCrypto Ota.
Local Open Scope Z_scope.

(** ** Flash and checksum *)

Lemma crc_app a b c : util_crc16_ccitt b (Some (util_crc16_ccitt a c)) = util_crc16_ccitt (a ++ b) c.
Proof. unfold util_crc16_ccitt. by rewrite fold_left_app. Qed.

Lemma land_ff_l b : is_u8 b → Z.land 255 b = b.
Proof. intros H. rewrite Z.land_comm. change 255 with (Z.ones 8). rewrite Z.land_ones by lia. by apply Z.mod_small. Qed.

Lemma program_on_erased pre b n : all_u8 b → (length b <= n)%nat →
  program (Z.of_nat (length pre)) b (pre ++ repeat 255 n) = pre ++ b ++ repeat 255 (n - length b).
Proof.
  intros Hb Hn. unfold program, splice, rd. rewrite !Nat2Z.id.
  rewrite (drop_app_length' pre) by done. rewrite (take_app_length' pre) by done.
  replace (repeat 255 n) with (repeat 255 (length b) ++ repeat 255 (n - length b)) by (rewrite <- repeat_app; f_equal; lia).
  rewrite take_app_length' by (by rewrite repeat_length).
  assert (zip_with Z.land (repeat 255 (length b)) b = b) as ->.
  { clear Hn. induction Hb as [|x b Hx Hb IH]; [done|]. cbn [length repeat zip_with]. f_equal; [by apply land_ff_l | exact IH]. }
  f_equal. f_equal. rewrite drop_app, drop_ge by lia. cbn [app].
  replace (length pre + length b - length pre)%nat with (length b) by lia. rewrite drop_app, drop_ge, repeat_length by (rewrite repeat_length; lia).
  cbn [app]. by rewrite Nat.sub_diag.
Qed.

(** The area of the image behind the two reserved sectors holds [w], the rest of it is
    erased; the driver works. *)
Definition area (h : hal_t) (w : list Z) : Prop :=
  spi_ok h = true /\ faults_of h = [] /\ partition_length h < 2 ^ 31 /\
  exists pre n, length pre = Z.to_nat (2 * SPIF_SECTOR_SIZE) /\ ota_part h = pre ++ w ++ repeat 255 n.

Lemma area_max h w : area h w → ali_dfu_get_ota_partition_max_size h = partition_length h - 2 * SPIF_SECTOR_SIZE /\ Z.of_nat (length w) <= partition_length h - 2 * SPIF_SECTOR_SIZE.
Proof.
  intros (Ok & _ & _ & pre & n & Hp & E). unfold ali_dfu_get_ota_partition_max_size, hal_flash_get_info. rewrite Ok. cbn [negb].
  change (Z.shiftl SPIF_SECTOR_SIZE 1) with 8192. change (2 * SPIF_SECTOR_SIZE) with 8192 in *. unfold partition_length. rewrite E, !length_app, repeat_length.
  destruct (Z.ltb_spec 8192 (Z.of_nat (length pre + (length w + n)))); lia.
Qed.

Lemma image_update_area h w b : area h w → all_u8 b → Z.of_nat (length (w ++ b)) <= partition_length h - 2 * SPIF_SECTOR_SIZE →
  (w = [] \/ dfu_crc h = util_crc16_ccitt w None) →
  exists h', ali_dfu_image_update (Z.of_nat (length w)) b h = (0, h') /\ area h' (w ++ b) /\ dfu_crc h' = util_crc16_ccitt (w ++ b) None /\ partition_length h' = partition_length h.
Proof.
  intros (Ok & Fa & Pl & pre & n & Hp & E) Hb Hlen Hc. change (2 * SPIF_SECTOR_SIZE) with 8192 in *. unfold ali_dfu_image_update.
  assert (length (ota_part h) = length pre + (length w + n))%nat as El by (rewrite E, !length_app, repeat_length; done).
  assert (length b <= n)%nat as Hn by (unfold partition_length in Hlen; rewrite El, length_app in Hlen; lia).
  unfold partition_length in Pl, Hlen. rewrite length_app in Hlen.
  set (c := if Z.of_nat (length w) =? 0 then _ else _). assert (c = util_crc16_ccitt (w ++ b) None) as Ec.
  { unfold c. destruct (Z.eqb_spec (Z.of_nat (length w)) 0) as [L|L]; [by destruct w|]. destruct Hc as [->|Hc]; [done|]. by rewrite Hc, crc_app. }
  unfold hal_flash_write, hal_flash_get_info, partition_length. cbn [with_dfu_crc spi_ok ota_part]. rewrite Ok. cbn [negb orb].
  change (Z.shiftl SPIF_SECTOR_SIZE 1) with 8192. rewrite !(u32_small (_ + 8192)) by lia. rewrite !u32_small by lia.
  rewrite !(proj2 (Z.ltb_ge _ _)) by lia. cbn [orb]. unfold driver_ok. cbn [with_mutex with_part with_dfu_crc faults_of]. rewrite Fa. cbn [negb Z.ltb Z.compare].
  eexists. split; [reflexivity|]. cbn [with_mutex with_part with_dfu_crc ota_part dfu_crc spi_ok faults_of mutex]. rewrite E, app_assoc.
  replace (Z.of_nat (length w) + 8192) with (Z.of_nat (length (pre ++ w))) by (rewrite length_app; lia).
  rewrite program_on_erased by done. rewrite !length_app, !repeat_length. split; [|split; [done | lia]].
  repeat split; try done; [unfold partition_length; cbn [with_mutex with_part ota_part]; rewrite !length_app, repeat_length; lia|].
  exists pre, (n - length b)%nat. split; [done|]. cbn [with_mutex with_part ota_part]. by rewrite <- !app_assoc.
Qed.

(** ** What only goes out *)

Section Props.
Context {F : Type} `{Flash F}.
Variables (keys_ok : list Z → bool) (q : list Z) (sched0 : list Z) (ctx0 : tc_sha256_state_struct).
Variables (triple : genie_triple_t) (appver : Z) (allow_reboot : svc F → bool * svc F).
#[local] Abbreviation ais_step := (ais_step keys_ok q sched0 ctx0 triple appver allow_reboot).
#[local] Abbreviation ais_run := (ais_run keys_ok q sched0 ctx0 triple appver allow_reboot).
#[local] Abbreviation genie_ota_parse_pdu := (genie_ota_parse_pdu sched0).
#[local] Abbreviation _ais_service_write := (_ais_service_write sched0 ctx0 triple appver).
#[local] Abbreviation ais := (ais F).
Implicit Types s : ais.

(** The part of the state that messages to the phone, timers and the connection do not
    touch. *)
Record same (s s' : ais) : Prop := mkSame {
  sm_state : ais_state s' = ais_state s; sm_ota : ota s' = ota s; sm_key : g_ble_key s' = g_ble_key s; sm_hal : hal s' = hal s; sm_sv : sv s' = sv s }.

Lemma same_refl s : same s s.
Proof. by split. Qed.
Lemma same_same s1 s2 s3 : same s1 s2 → same s2 s3 → same s1 s3.
Proof. intros [] []. split; congruence. Qed.
Lemma same_notify id c m s : same s (genie_ais_notify id c m s).
Proof. unfold genie_ais_notify. by destruct (p_conn s). Qed.
Lemma same_report s : same s (genie_ota_status_report sched0 s).
Proof. apply same_notify. Qed.
Lemma same_indicate id c m s : same s (_ais_server_indicate id c m s).
Proof. unfold _ais_server_indicate, aos_malloc. destruct (heap_faults s) as [|[] l]; cbn [negb]; try done; by destruct (p_conn _). Qed.
Lemma same_disconnect s : same s (handle_ais_disconnect s).
Proof. unfold handle_ais_disconnect. by destruct (p_conn s). Qed.
Lemma same_update s : same s (genie_ais_state_update s).
Proof. unfold genie_ais_state_update. destruct (p_conn s); [|done]. destruct (ais_state s); try done. apply (same_same _ (set_timer None s)); [done | apply same_disconnect]. Qed.

(** ** The receiver *)

(** The bytes [w] are in flash, the bytes [pend] of the current group in the buffer. *)
Record receiving (s : ais) (w pend : list Z) : Prop := mkRx {
  rc_area : area (hal s) w;
  rc_crc : w = [] \/ dfu_crc (hal s) = util_crc16_ccitt w None;
  rc_size : rx_size (ota s) = Z.of_nat (length w + length pend);
  rc_len : rx_len (ota s) = length pend;
  rc_buf : length (recv_buf (ota s)) = OTA_RECV_BUF_SIZE /\ take (length pend) (recv_buf (ota s)) = pend;
  rc_bytes : all_u8 (w ++ pend);
  rc_image : rx_size (ota s) <= image_size (ota s) <= ali_dfu_get_ota_partition_max_size (hal s);
  rc_first : except_seq (ota s) = 0 → pend = [] }.

(** A frame of a transfer: its place in its group, and its payload. *)
Definition frame_hdr (h : ais_header_t) (tf sq : Z) (p : list Z) : Prop :=
  seq_ h = sq /\ total_frame_ h = tf /\ payload_len h = Z.of_nat (length p) /\ all_u8 p.

(** What stays the same during a transfer. *)
Definition announced (s s' : ais) : Prop :=
  ais_state s' = ais_state s /\ g_ble_key s' = g_ble_key s /\ sv s' = sv s /\ image_size (ota s') = image_size (ota s) /\
  image_crc16 (ota s') = image_crc16 (ota s) /\ ota_ready (ota s') = ota_ready (ota s) /\ partition_length (hal s') = partition_length (hal s).

Lemma take_store_at (pend p buf : list Z) : take (length pend) buf = pend → (length pend + length p <= length buf)%nat →
  length (store_at (length pend) p buf) = length buf /\ take (length pend + length p) (store_at (length pend) p buf) = pend ++ p.
Proof.
  intros E L. unfold store_at. rewrite E. split; [rewrite !length_app, length_drop; lia|]. rewrite app_assoc. apply take_app_length'. by rewrite length_app.
Qed.

(** What a payload changes in the context. *)
Lemma save_payload_ok pend p c : rx_len c = length pend → length (recv_buf c) = OTA_RECV_BUF_SIZE → take (length pend) (recv_buf c) = pend →
  (length pend + length p <= OTA_RECV_BUF_SIZE)%nat →
  exists f b, save_payload p c = Some (set_flash_clean f (set_rx (length (pend ++ p)) b c)) /\ length b = OTA_RECV_BUF_SIZE /\ take (length (pend ++ p)) b = pend ++ p.
Proof.
  intros Hl Hb Ht Hn. unfold save_payload. rewrite Hl. destruct (Nat.eqb_spec (length p) 0) as [E|E].
  - apply nil_length_inv in E as ->. exists (flash_clean c), (recv_buf c). rewrite app_nil_r. split; [|done]. rewrite <- Hl. by destruct c.
  - rewrite (proj2 (Nat.ltb_ge _ _)) by lia. destruct (take_store_at pend p (recv_buf c)) as [L T]; [done | lia |].
    exists 1, (store_at (length pend) p (recv_buf c)). rewrite length_app. repeat split; try done. by rewrite L.
Qed.

Lemma receiving_same s s' w pend : same s s' → receiving s w pend → receiving s' w pend.
Proof. intros [_ Eo _ Eh _] []. split; rewrite ?Eo, ?Eh; done. Qed.
Lemma announced_same s s' s'' : announced s s' → same s' s'' → announced s s''.
Proof. intros (A & B & C & D & E & G & I) [E1 E2 E3 E4 E5]. unfold announced. rewrite E1, E2, E3, E4, E5. done. Qed.
Lemma announced_trans s s' s'' : announced s s' → announced s' s'' → announced s s''.
Proof. unfold announced. intros (A & B & C & D & E & G & I) (A' & B' & C' & D' & E' & G' & I'). repeat split; congruence. Qed.

(** The first frame of a group clears the buffer, which is empty anyway. *)
Lemma receiving_clear sq s w pend : except_seq (ota s) = sq → receiving s w pend →
  let s1 := if sq =? 0 then on_ota (set_rx 0 (repeat 0 OTA_RECV_BUF_SIZE)) (on_ota (set_err 0) s) else on_ota (set_err 0) s in
  receiving s1 w pend /\ announced s s1 /\ except_seq (ota s1) = sq.
Proof.
  intros Hs [A C Sz L [B1 B2] U I Fi]. cbv zeta. destruct (Z.eqb_spec sq 0) as [->|Ne]; (split; [|by split]).
  - specialize (Fi Hs). subst pend. by split.
  - split; done.
Qed.

(** The rest of [genie_ota_parse_pdu], for a frame that is in order and fits. *)
Lemma receive_frame h p tf s w pend : receiving s w pend → frame_hdr h tf (except_seq (ota s)) p → 0 <= except_seq (ota s) <= tf → tf <= 15 →
  rx_size (ota s) + Z.of_nat (length p) <= image_size (ota s) → (length pend + length p <= OTA_RECV_BUF_SIZE)%nat →
  exists s', genie_ota_parse_pdu h p s = Some (true, s') /\ announced s s' /\
    if except_seq (ota s) =? tf then receiving s' (w ++ pend ++ p) [] /\ except_seq (ota s') = 0
    else receiving s' w (pend ++ p) /\ except_seq (ota s') = except_seq (ota s) + 1.
Proof.
  intros R (Hsq & Htf & Hpl & Up) Hs Ht Hsz Hfit. unfold Ota.genie_ota_parse_pdu. rewrite Hsq, Htf, Hpl, (proj2 (Z.ltb_ge _ _)) by lia. rewrite Z.eqb_refl. cbn [negb].
  pose proof (rc_image _ _ _ R) as Hi. destruct (area_max _ _ (rc_area _ _ _ R)) as [Hmax Hw]. pose proof (rc_area _ _ _ R) as (_ & _ & Pl & _).
  pose proof (rc_size _ _ _ R) as Hrx. change (2 * SPIF_SECTOR_SIZE) with 8192 in *. rewrite u32_small by lia. rewrite (proj2 (Z.ltb_ge _ _)) by lia.
  destruct (receiving_clear (except_seq (ota s)) s w pend eq_refl R) as (R1 & A1 & X1).
  set (s1 := if except_seq (ota s) =? 0 then _ else _) in *. clearbody s1. destruct R1 as [Ar C Sz L [B1 B2] U I Fi].
  destruct A1 as (A11 & A12 & A13 & A14 & A15 & A16 & A17).
  destruct (save_payload_ok pend p (ota s1) L B1 B2 Hfit) as (f & b & E & Lb & Tb). rewrite E. cbn [mbind option_bind]. clear E.
  set (c := set_progress _ _ _ _). assert (rx_size c = Z.of_nat (length w + length (pend ++ p))) as Ec.
  { unfold c. cbn [set_progress set_flash_clean set_rx rx_size]. rewrite Sz, length_app, u32_small; lia. }
  assert (all_u8 (w ++ pend ++ p)) as U' by (rewrite app_assoc; by apply Forall_app_2).
  destruct (Z.eqb_spec (except_seq (ota s)) tf) as [Et|Et].
  - change (hal (on_ota (λ _, c) s1)) with (hal s1). change (rx_len c) with (length (pend ++ p)). change (recv_buf c) with b.
    rewrite Ec, Tb. replace (u32 _) with (Z.of_nat (length w)) by (rewrite u32_small; rewrite length_app in *; lia).
    destruct (image_update_area (hal s1) w (pend ++ p)) as (h' & E & Ar' & Ec' & Pl'); try done;
      [by apply Forall_app in U' as [_ ?] | change (2 * SPIF_SECTOR_SIZE) with 8192; rewrite !length_app, A17; lia |]. rewrite E.
    eexists. split; [reflexivity|]. set (s2 := on_ota _ (set_hal h' _)).
    assert (announced s s2 /\ receiving s2 (w ++ pend ++ p) [] /\ except_seq (ota s2) = 0) as (Q1 & Q2 & Q3).
    { split; [unfold announced, s2; cbn; rewrite Pl'; done|]. split; [|done]. split; try done.
      - by right.
      - unfold s2. cbn [on_ota set_hal ota set_except set_rx rx_size]. rewrite Ec, !length_app. cbn [length]. lia.
      - by rewrite app_nil_r.
      - change (image_size (ota s2)) with (image_size (ota s1)). change (hal s2) with h'. change (rx_size (ota s2)) with (rx_size c).
        rewrite (proj1 (area_max _ _ Ar')), Pl'. rewrite (proj1 (area_max _ _ Ar)) in I. rewrite Ec, length_app. lia. }
    rewrite orb_true_r. split; [apply (announced_same _ _ _ Q1), same_report|]. split; [apply (receiving_same _ _ _ _ (same_report _) Q2)|]. by rewrite (sm_ota _ _ (same_report s2)).
  - eexists. split; [reflexivity|]. set (s2 := on_ota (set_except _) _).
    assert (announced s s2 /\ receiving s2 w (pend ++ p) /\ except_seq (ota s2) = except_seq (ota s) + 1) as (Q1 & Q2 & Q3).
    { split; [done|]. assert (except_seq (ota s2) = except_seq (ota s) + 1) as X by (unfold s2; cbn [on_ota ota set_except except_seq]; apply u8_small; lia).
      split; [|done]. split; try done; [|rewrite X; lia]. change (image_size (ota s2)) with (image_size (ota s1)). change (rx_size (ota s2)) with (rx_size c). rewrite Ec, length_app. change (hal s2) with (hal s1). lia. }
    destruct (_ || _); [|done].
    split; [apply (announced_same _ _ _ Q1), same_report|]. split; [apply (receiving_same _ _ _ _ (same_report _) Q2)|]. by rewrite (sm_ota _ _ (same_report s2)).
Qed.

(** ** Messages of the phone *)

Definition frame_msg (id tf sq : Z) (p : list Z) : list Z :=
  [Z.land id 15; AIS_OTA_DATA; Z.lor (Z.shiftl tf 4) sq; Z.of_nat (length p)] ++ p.
(** The frames of a group from number [sq] on. *)
Fixpoint frames (id tf sq : Z) (ps : list (list Z)) : list (list Z) :=
  match ps with [] => [] | p :: ps => frame_msg id tf sq p :: frames id tf (sq + 1) ps end.
Definition group_msgs (id : Z) (ps : list (list Z)) : list (list Z) := frames id (Z.of_nat (length ps) - 1) 0 ps.
Definition upd_msg (id v size crc flag : Z) : list Z :=
  [Z.land id 15; AIS_OTA_FIRMWARE_REQ; 0; 12] ++ [0] ++ le32 v ++ le32 size ++ le16 crc ++ [flag].
(** The request to check, encrypted with [key]. *)
Definition check_msg (id : Z) (key : list Z) : list Z :=
  [Z.land id 15; AIS_OTA_CHECK_REQ; 0; 16] ++ snd (genie_crypto_encrypt sched0 key ([1] ++ repeat 15 15) []).

(** Decides the comparisons of the command with constants. *)
Ltac eval_cmd c := repeat match goal with |- context [c =? ?d] => let b := eval vm_compute in (c =? d) in change (c =? d) with b end; cbv iota.

Lemma low_nibble z : 0 <= Z.land z 15 < 16 /\ Z.land (Z.land z 15) 15 = Z.land z 15 /\ Z.shiftr (Z.land z 15) 5 = 0.
Proof.
  change 15 with (Z.ones 4). rewrite !Z.land_ones by lia. assert (0 <= z mod 2 ^ 4 < 16) by (apply Z.mod_pos_bound; lia).
  rewrite Z.shiftr_div_pow2 by lia. split; [lia|]. split; [apply Z.mod_small; lia | apply Z.div_small; lia].
Qed.
Lemma two_nibbles tf sq : 0 <= sq < 16 → Z.land (Z.lor (Z.shiftl tf 4) sq) 15 = sq /\ Z.shiftr (Z.lor (Z.shiftl tf 4) sq) 4 = tf.
Proof.
  intros Hs. rewrite lor_add by lia. change 15 with (Z.ones 4). rewrite Z.land_ones, Z.shiftr_div_pow2 by lia. change (2 ^ 4) with 16. split; dlia.
Qed.

Lemma write_data id tf sq p s : (length p <= 255)%nat → all_u8 p → 0 <= sq < 16 → exists h, frame_hdr h tf sq p /\
  _ais_service_write (frame_msg id tf sq p) s = ('(r, s') ← genie_ota_parse_pdu h p s;
    Some (if r : bool then genie_ais_state_update s' else if bool_decide (ais_state s' ≠ AIS_STATE_OTA) then _ais_server_indicate (Z.land id 15) AIS_RESP_ERR [] s' else s')).
Proof.
  intros Hl Hp Hs. destruct (low_nibble id) as (_ & N1 & N2). destruct (two_nibbles tf sq Hs) as [T1 T2].
  exists (mkAisHdr (Z.land id 15) (Z.land (Z.shiftr (Z.land id 15) 4) 1) 0 AIS_OTA_DATA sq tf (Z.of_nat (length p))). split; [done|].
  unfold Ota._ais_service_write, _ais_server_msg_handle, frame_msg. cbn [length Nat.eqb app parse_header mbind option_bind]. rewrite N1, N2, T1, T2.
  unfold ais_command. cbn [cmd msg_id payload_len ver]. eval_cmd AIS_OTA_DATA.
  replace (Z.of_nat (S (S (S (S (length p))))) =? 4 + Z.of_nat (length p)) with true by (symmetry; apply Z.eqb_eq; lia). change (0 =? 0) with true. cbn [andb].
  by destruct (Ota.genie_ota_parse_pdu _ _ _) as [[[] s']|].
Qed.

Lemma run_app l l' s s' : ais_run l s = Some s' → ais_run (l ++ l') s = ais_run l' s'.
Proof. revert s. induction l as [|i l IH]; intros s E; [by injection E as ->|]. cbn [app Ota.ais_run] in *. destruct (Ota.ais_step _ _ _ _ _ _ _ i s); [by apply IH | done]. Qed.

Lemma run_write m l s s' : _ais_service_write m s = Some s' → ais_run (InWrite m :: l) s = ais_run l s'.
Proof. intros E. cbn [Ota.ais_run Ota.ais_step]. by rewrite E. Qed.

(** The rest of a group, and a whole group. *)
Lemma run_frames id ps : forall sq s w pend, ps ≠ [] → receiving s w pend → except_seq (ota s) = sq → 0 <= sq → sq + Z.of_nat (length ps) <= 16 →
  Forall (λ p, all_u8 p /\ (length p <= 255)%nat) ps → (length pend + length (concat ps) <= OTA_RECV_BUF_SIZE)%nat →
  rx_size (ota s) + Z.of_nat (length (concat ps)) <= image_size (ota s) →
  exists s', ais_run (map InWrite (frames id (sq + Z.of_nat (length ps) - 1) sq ps)) s = Some s' /\ announced s s' /\
    receiving s' (w ++ pend ++ concat ps) [] /\ except_seq (ota s') = 0.
Proof.
  induction ps as [|p ps IH]; intros sq s w pend Hne R Hx Hs Hn Hps Hfit Hsz; [done|]. apply Forall_cons_1 in Hps as [[Up Lp] Hps].
  cbn [concat length] in *. rewrite length_app in Hfit, Hsz. cbn [frames map Ota.ais_run Ota.ais_step].
  destruct (write_data id (sq + Z.of_nat (S (length ps)) - 1) sq p s) as (h & Hh & ->); [done | done | lia |]. set (tf := sq + Z.of_nat (S (length ps)) - 1) in *. rewrite <- Hx in Hh.
  destruct (receive_frame h p tf s w pend R Hh) as (s1 & E & A & Q); [lia | lia | lia | lia |]. rewrite E. cbn [mbind option_bind]. clear E.
  pose proof (same_update s1) as Sm. revert Q. destruct (Z.eqb_spec (except_seq (ota s)) tf) as [Et|Et]; intros Q.
  - destruct ps; [|cbn [length] in *; lia]. destruct Q as [Q1 Q2]. eexists. split; [done|]. cbn [concat]. rewrite app_nil_r.
    split; [by apply (announced_same _ _ _ A)|]. split; [by apply (receiving_same _ _ _ _ Sm)|]. by rewrite (sm_ota _ _ Sm).
  - destruct Q as [Q1 Q2]. destruct ps as [|p' ps]; [cbn [length] in *; lia|]. set (s2 := genie_ais_state_update s1) in *.
    pose proof (rc_size _ _ _ R) as Z1. pose proof (rc_size _ _ _ Q1) as Z2. rewrite length_app in Z2. pose proof (announced_same _ _ _ A Sm) as A2.
    replace tf with (sq + 1 + Z.of_nat (length (p' :: ps)) - 1) by lia.
    destruct (IH (sq + 1) s2 w (pend ++ p)) as (s' & E & A' & R' & X'); try done; try lia.
    + by apply (receiving_same _ _ _ _ Sm).
    + rewrite (sm_ota _ _ Sm). lia.
    + rewrite length_app. lia.
    + rewrite (sm_ota _ _ Sm), Z2. destruct A as (_ & _ & _ & -> & _). lia.
    + exists s'. split; [exact E|]. split; [by apply (announced_trans _ s2)|]. by rewrite <- !app_assoc in R'.
Qed.

(** The groups of a transfer: one to sixteen frames of at most 255 bytes, which together
    fit the receive buffer. *)
Definition group_ok (ps : list (list Z)) : Prop :=
  ps ≠ [] /\ (length ps <= 16)%nat /\ Forall (λ p, all_u8 p /\ (length p <= 255)%nat) ps /\ (length (concat ps) <= OTA_RECV_BUF_SIZE)%nat.

Lemma run_groups id gs : forall s w, receiving s w [] → except_seq (ota s) = 0 → Forall group_ok gs →
  rx_size (ota s) + Z.of_nat (length (concat (concat gs))) <= image_size (ota s) →
  exists s', ais_run (map InWrite (concat (map (group_msgs id) gs))) s = Some s' /\ announced s s' /\
    receiving s' (w ++ concat (concat gs)) [] /\ except_seq (ota s') = 0.
Proof.
  induction gs as [|g gs IH]; intros s w R X Hg Hsz.
  - exists s. cbn. rewrite app_nil_r. split; [done|]. by split.
  - apply Forall_cons_1 in Hg as [(G1 & G2 & G3 & G4) Hg]. cbn [concat map] in *. rewrite concat_app, length_app in Hsz.
    destruct (run_frames id g 0 s w []) as (s1 & E & A & R1 & X1); try done; [lia | lia |]. cbn [app] in R1.
    pose proof (rc_size _ _ _ R) as Z1. pose proof (rc_size _ _ _ R1) as Z2. cbn [length] in *. rewrite length_app in Z2.
    destruct (IH s1 (w ++ concat g) R1 X1 Hg) as (s2 & E2 & A2 & R2 & X2); [destruct A as (_ & _ & _ & -> & _); lia|].
    exists s2. rewrite map_app. split; [rewrite (run_app _ _ _ _ E); exact E2|]. split; [by apply (announced_trans _ s1)|]. by rewrite concat_app, app_assoc.
Qed.

(** An announced image that is newer and fits the partition starts a transfer. *)
Lemma write_upd id v size crc flag s : is_u32 v → is_u32 size → is_u16 crc → appver < v → 0 < size <= ali_dfu_get_ota_partition_max_size (hal s) →
  area (hal s) [] → exists s', _ais_service_write (upd_msg id v size crc flag) s = Some s' /\
    receiving s' [] [] /\ except_seq (ota s') = 0 /\ rx_size (ota s') = 0 /\ ais_state s' = AIS_STATE_OTA /\ image_size (ota s') = size /\ image_crc16 (ota s') = crc /\
    ota_ready (ota s') = 0 /\ g_ble_key s' = g_ble_key s /\ sv s' = sv s /\ hal s' = hal s.
Proof.
  intros Hv Hs Hc Hver Hsz Har. destruct (low_nibble id) as (_ & N1 & N2). unfold Ota._ais_service_write, _ais_server_msg_handle, upd_msg, le32, le16.
  cbn [length Nat.eqb app parse_header mbind option_bind]. rewrite N1. unfold ais_command. cbn [cmd msg_id]. eval_cmd AIS_OTA_FIRMWARE_REQ.
  change (Z.of_nat 16 =? 20) with false. change (Z.of_nat 16 =? 16) with true. cbv iota. unfold genie_ota_handle_update_request, parse_upd_req. cbn [mbind option_bind].
  pose proof (get_le32_le32 v Hv) as E1. pose proof (get_le32_le32 size Hs) as E2. cbn [le32] in E1, E2. rewrite E1, E2, get_le16_le16 by done. rewrite (proj2 (Z.leb_gt _ _)), (proj2 (Z.ltb_ge _ _)), (proj2 (Z.eqb_neq size 0)) by lia. cbn [Z.eqb negb orb fmap option_fmap option_map].
  eexists. split; [reflexivity|]. set (s1 := on_ota _ (set_ais_state _ s)). pose proof (same_same _ _ _ (same_notify (Z.land id 15) AIS_OTA_UPD_RESP (take 6 ([1] ++ le32 0 ++ [CONFIG_AIS_TOTAL_FRAME - 1] ++ repeat 10 10)) s1) (same_update _)) as Sm.
  cbv iota. destruct Sm as [M1 M2 M3 M4 M5]. repeat split_and!; rewrite ?M1, ?M2, ?M3, ?M4, ?M5; try done.
  apply (receiving_same s1); [by split|]. split; try done; [by left | apply Forall_nil_2 | change (hal s1) with (hal s); change (image_size (ota s1)) with size; change (rx_size (ota s1)) with 0; lia].
Qed.

Lemma check_plain_block : block ([1] ++ repeat 15 15).
Proof. split; [done|]. cbn [app repeat]. repeat (apply Forall_cons_2; [lia|]). apply Forall_nil_2. Qed.
Lemma encrypt_length key data : length data = 16%nat → block data → length (snd (genie_crypto_encrypt sched0 key data [])) = 16%nat.
Proof.
  intros L B. unfold genie_crypto_encrypt. rewrite take_ge by lia. rewrite bt_mesh_aes_encrypt_eq. cbn [snd].
  apply encrypt_block_block; [|apply key_schedule_length]. apply zip_lxor_block; [done | apply aes_iv_block].
Qed.

Lemma decrypted_block p data s (f : list Z → option (bool * ais)) : length p = 16%nat → snd (genie_crypto_decrypt sched0 (g_ble_key s) p []) = data →
  decrypted sched0 p s f = f data.
Proof.
  intros L E. unfold decrypted, _ais_decrypt. rewrite take_ge, drop_ge by lia. destruct (genie_crypto_decrypt sched0 (g_ble_key s) p []) as [r d] eqn:D.
  apply (f_equal fst) in D. unfold genie_crypto_decrypt in D. rewrite bt_mesh_aes_decrypt_eq in D. cbn [fst] in D. subst r.
  cbn [snd] in E. subst d. by rewrite app_nil_r.
Qed.

Lemma check_command id b2 c p s : length c = 16%nat → snd (genie_crypto_decrypt sched0 (g_ble_key s) c []) = p → ais_state s = AIS_STATE_OTA →
  _ais_service_write ([Z.land id 15; AIS_OTA_CHECK_REQ; b2; 16] ++ c) s = ('(r, s') ← genie_ota_check_firmware sched0 (Z.land id 15) p s;
    Some (if r : bool then genie_ais_state_update s' else if bool_decide (ais_state s' ≠ AIS_STATE_OTA) then _ais_server_indicate (Z.land id 15) AIS_RESP_ERR [] s' else s')).
Proof.
  intros Lc E Hst. destruct (low_nibble id) as (_ & N1 & N2). unfold Ota._ais_service_write, _ais_server_msg_handle. cbn [length Nat.eqb app parse_header mbind option_bind]. rewrite N1.
  unfold ais_command. cbn [cmd msg_id]. eval_cmd AIS_OTA_CHECK_REQ. rewrite Lc. change (Z.of_nat 20 =? 20) with true. rewrite bool_decide_eq_true_2 by done. cbn [andb].
  rewrite (decrypted_block c p) by done. by destruct (genie_ota_check_firmware _ _ _ _) as [[[] s']|].
Qed.

(** The check of a request whose first byte is one. *)
Lemma check_firmware_one id p s : exists s', genie_ota_check_firmware sched0 id (1 :: p) s = Some (true, s') /\
  hal s' = hal s /\ g_ble_key s' = g_ble_key s /\
  if dfu_crc (hal s) =? image_crc16 (ota s)
  then ais_state s' = AIS_STATE_REBOOT /\ ota s' = set_ota_ready 1 (ota s) /\ sv s' = on_store (λ st, snd (genie_storage_write_userdata GFI_OTA_INDICAT (Some [1]) st)) (sv s)
  else ais_state s' = AIS_STATE_IDLE /\ ota s' = ota s /\ sv s' = sv s.
Proof.
  unfold genie_ota_check_firmware. cbn [lookup list_lookup mbind option_bind]. change (1 =? 1) with true. cbv iota. unfold dfu_check_checksum. cbn [set_ais_state hal ota].
  destruct (dfu_crc (hal s) =? image_crc16 (ota s)); cbn [negb andb truthy Z.eqb].
  all: eexists; split; [reflexivity|].
  all: match goal with |- context [genie_ais_notify ?i ?cm ?m ?x] => destruct (same_notify i cm m x) as [M1 M2 M3 M4 M5] end.
  all: rewrite M1, M2, M3, M4, M5; done.
Qed.

Lemma write_check id s : ais_state s = AIS_STATE_OTA → exists s', _ais_service_write (check_msg id (g_ble_key s)) s = Some s' /\
  hal s' = hal s /\ g_ble_key s' = g_ble_key s /\
  if dfu_crc (hal s) =? image_crc16 (ota s)
  then ais_state s' = AIS_STATE_REBOOT /\ ota s' = set_ota_ready 1 (ota s) /\ sv s' = on_store (λ st, snd (genie_storage_write_userdata GFI_OTA_INDICAT (Some [1]) st)) (sv s)
  else ais_state s' = AIS_STATE_IDLE /\ ota s' = ota s /\ sv s' = sv s.
Proof.
  intros Hst. pose proof (encrypt_length (g_ble_key s) ([1] ++ repeat 15 15) eq_refl check_plain_block) as El.
  pose proof (crypto_roundtrip sched0 (g_ble_key s) _ [] [] check_plain_block) as Er. unfold check_msg. rewrite (check_command id 0 _ _ s El Er Hst).
  destruct (check_firmware_one (Z.land id 15) (repeat 15 15) s) as (s' & E & Q). change ([1] ++ repeat 15 15) with (1 :: repeat 15 15). rewrite E. cbn [mbind option_bind].
  exists (genie_ais_state_update s'). destruct (same_update s') as [-> -> -> -> ->]. split; [done | exact Q].
Qed.

Lemma transfer id v crc flag gs s : let img := concat (concat gs) in let size := Z.of_nat (length img) in
  area (hal s) [] → is_u32 v → is_u16 crc → appver < v → 0 < size <= ali_dfu_get_ota_partition_max_size (hal s) → Forall group_ok gs →
  exists s', ais_run (InWrite (upd_msg id v size crc flag) :: map InWrite (concat (map (group_msgs id) gs)) ++ [InWrite (check_msg id (g_ble_key s))]) s = Some s' /\
    area (hal s') img /\
    if crc =? util_crc16_ccitt img None
    then ais_state s' = AIS_STATE_REBOOT /\ ota_ready (ota s') = 1 /\ sv s' = on_store (λ st, snd (genie_storage_write_userdata GFI_OTA_INDICAT (Some [1]) st)) (sv s)
    else ais_state s' = AIS_STATE_IDLE /\ ota_ready (ota s') = 0 /\ sv s' = sv s.
Proof.
  cbv zeta. intros Har Hv Hc Hver Hsz Hg. destruct (area_max _ _ Har) as [Hm _]. pose proof Har as (_ & _ & Pl & _). change (2 * SPIF_SECTOR_SIZE) with 8192 in *.
  destruct (write_upd id v (Z.of_nat (length (concat (concat gs)))) crc flag s) as (s1 & E1 & R1 & X1 & Z1 & St1 & I1 & C1 & O1 & K1 & V1 & H1); try done; [lia|].
  destruct (run_groups id gs s1 [] R1 X1 Hg) as (s2 & E2 & (A1 & A2 & A3 & A4 & A5 & A6 & A7) & R2 & X2); [lia|].
  destruct (write_check id s2) as (s3 & E3 & H3 & K3 & Q); [congruence|]. exists s3. cbn [Ota.ais_run Ota.ais_step]. rewrite E1. cbn [mbind option_bind].
  rewrite (run_app _ _ _ _ E2). cbn [Ota.ais_run Ota.ais_step]. replace (g_ble_key s) with (g_ble_key s2) by congruence. rewrite E3. cbn [mbind option_bind]. split; [done|].
  split; [rewrite H3; apply (rc_area _ _ _ R2)|]. destruct (rc_crc _ _ _ R2) as [E|E]; [cbn [app] in E; rewrite E in Hsz; cbn in Hsz; lia|]. cbn [app] in E.
  rewrite E, A5, C1, Z.eqb_sym in Q. destruct (crc =? _); destruct Q as (Q1 & Q2 & Q3); rewrite Q1, Q2, Q3, A3, V1; [done|]. rewrite A6, O1. done.
Qed.

(** [C16] A whole update over one connection, into a partition that is erased behind its two reserved sectors and with a flash driver that does not fail ([area]): announced with a higher version, its size and checksum, sent in groups that fit the receive buffer, checked.  The image is then in flash byte by byte behind the two reserved sectors, and the device is about to restart into it, with the indication stored, exactly when the announced checksum is the CRC of the image; else it is idle again.  Without the two conditions the device restarts into something else: [dirty_flash_accepted], [lost_write_accepted]. *)
Theorem transfer_installs id v crc flag gs s : let img := concat (concat gs) in let size := Z.of_nat (length img) in
  area (hal s) [] → is_u32 v → is_u16 crc → appver < v → 0 < size <= ali_dfu_get_ota_partition_max_size (hal s) → Forall group_ok gs →
  exists s', ais_run (InWrite (upd_msg id v size crc flag) :: map InWrite (concat (map (group_msgs id) gs)) ++ [InWrite (check_msg id (g_ble_key s))]) s = Some s' /\
    area (hal s') img /\
    if crc =? util_crc16_ccitt img None
    then ais_state s' = AIS_STATE_REBOOT /\ ota_ready (ota s') = 1 /\ sv s' = on_store (λ st, snd (genie_storage_write_userdata GFI_OTA_INDICAT (Some [1]) st)) (sv s)
    else ais_state s' = AIS_STATE_IDLE /\ ota_ready (ota s') = 0 /\ sv s' = sv s.
Proof. exact (transfer id v crc flag gs s). Qed.

(** ** Any session *)

Lemma receiving_err s w pend e : receiving s w pend → receiving (on_ota (set_err e) s) w pend.
Proof. intros []. by split. Qed.

(** What the frames of a transfer amount to: the number of the next frame, the frames of the current
    group, and the complete groups. *)
Record groups := mkGroups { g_next : Z; g_pend : list Z; g_done : list Z }.
Definition no_groups : groups := mkGroups 0 [] [].
(** A frame counts when its number is the next one and the image has room for it; the last frame of a
    group completes it. *)
Definition accept_frame (img sq tf : Z) (p : list Z) (g : groups) : groups :=
  if (sq <=? tf) && (sq =? g_next g) && (Z.of_nat (length (g_done g ++ g_pend g ++ p)) <=? img)
  then (if sq =? tf then mkGroups 0 [] (g_done g ++ g_pend g ++ p) else mkGroups (sq + 1) (g_pend g ++ p) (g_done g)) else g.
(** Only a data message of version 0 whose length byte is right has a frame. *)
Definition accept (img : Z) (g : groups) (i : ais_input) : groups :=
  match i with
  | InWrite (b0 :: c :: b2 :: n :: p) =>
    if (c =? AIS_OTA_DATA) && (n =? Z.of_nat (length p)) && (Z.shiftr b0 5 =? 0) then accept_frame img (Z.land b2 15) (Z.shiftr b2 4) p g else g
  | _ => g
  end.
Definition accepted_groups (img : Z) (l : list ais_input) : list Z := g_done (fold_left (accept img) l no_groups).

Definition collected (img : Z) (g : groups) (s : ais) : Prop := receiving s (g_done g) (g_pend g) /\ except_seq (ota s) = g_next g /\ image_size (ota s) = img.
Lemma collected_same img g s s' : same s s' → collected img g s → collected img g s'.
Proof. intros Sm (R & X & Y). split; [by apply (receiving_same s)|]. by rewrite (sm_ota _ _ Sm). Qed.
Lemma collected_err img g s e : collected img g s → collected img g (on_ota (set_err e) s).
Proof. intros (R & X). split; [by apply receiving_err | done]. Qed.

(** Whatever frame arrives, the receiver has what was accepted. *)
Lemma parse_pdu_session h p img g s r s1 : collected img g s → genie_ota_parse_pdu h p s = Some (r, s1) →
  payload_len h = Z.of_nat (length p) → all_u8 p → 0 <= seq_ h → total_frame_ h <= 15 →
  collected img (accept_frame img (seq_ h) (total_frame_ h) p g) s1.
Proof.
  intros Cg E Hpl Up Hs Ht. pose proof E as E0. destruct (Cg) as (R & Xs & Xi). destruct g as [nx pend w]. unfold accept_frame. cbn [g_next g_pend g_done] in *. revert E. unfold Ota.genie_ota_parse_pdu.
  destruct (Z.ltb_spec (total_frame_ h) (seq_ h)) as [L|L]; [intros [= <- <-]; by rewrite (proj2 (Z.leb_gt _ _)) by lia|]. rewrite (proj2 (Z.leb_le _ _)) by lia. rewrite <- Xs. cbn [andb].
  destruct (Z.eqb_spec (seq_ h) (except_seq (ota s))) as [Eq|Ne]; cbn [negb andb].
  2:{ destruct (err_count (ota s) =? 0); intros [= <- <-]; [apply (collected_same _ _ _ _ (same_report _))|]; by apply collected_err. }
  destruct (area_max _ _ (rc_area _ _ _ R)) as [Hmax Hw]. pose proof (rc_area _ _ _ R) as (_ & _ & Pl & _). pose proof (rc_image _ _ _ R) as Hi. pose proof (rc_size _ _ _ R) as Hrx.
  change (2 * SPIF_SECTOR_SIZE) with 8192 in *. destruct (rc_buf _ _ _ R) as [B1 B2]. assert (length pend <= OTA_RECV_BUF_SIZE)%nat as Lp by (rewrite <- B1, <- B2 at 1; rewrite length_take; lia).
  assert (Z.of_nat (length (w ++ pend ++ p)) = rx_size (ota s) + payload_len h) as Ln by (rewrite !length_app; lia). rewrite Ln, <- Xi.
  destruct (Z.ltb_spec (image_size (ota s)) (u32 (rx_size (ota s) + payload_len h))) as [G|G].
  { intros [= <- <-]. destruct (Z.leb_spec (rx_size (ota s) + payload_len h) (image_size (ota s))); [rewrite u32_small in G by lia; lia | done]. } intros E.
  change OTA_RECV_BUF_SIZE with 768%nat in Lp.
  destruct (receiving_clear (except_seq (ota s)) s w pend eq_refl R) as (R1 & A1 & X1). rewrite <- Eq in R1, A1, X1 at 1.
  set (s2 := if seq_ h =? 0 then _ else _) in *. destruct (save_payload p (ota s2)) as [c|] eqn:Sv; [|done].
  assert (length pend + length p <= OTA_RECV_BUF_SIZE)%nat as Hfit.
  { revert Sv. unfold save_payload. rewrite (rc_len _ _ _ R1), (proj1 (rc_buf _ _ _ R1)). destruct (Nat.eqb_spec (length p) 0); [intros _; change OTA_RECV_BUF_SIZE with 768%nat; lia|].
    destruct (Nat.ltb_spec OTA_RECV_BUF_SIZE (length pend + length p)); [done | lia]. }
  clear E Sv. change OTA_RECV_BUF_SIZE with 768%nat in Hfit. rewrite u32_small in G by lia. rewrite (proj2 (Z.leb_le _ _)) by lia.
  destruct (receive_frame h p (total_frame_ h) s w pend R) as (s' & E & An & Q); [by repeat split | lia | done | lia | exact Hfit |]. rewrite E in E0. injection E0 as <- <-.
  assert (image_size (ota s') = image_size (ota s)) as Ei by apply An. rewrite <- Eq in Q.
  destruct (seq_ h =? total_frame_ h); destruct Q as [Q Qx]; (split; [exact Q | done]).
Qed.

(** No frame changes the state of the machine. *)
Lemma parse_pdu_state h p s r s1 : genie_ota_parse_pdu h p s = Some (r, s1) → ais_state s1 = ais_state s.
Proof.
  unfold Ota.genie_ota_parse_pdu. destruct (_ <? _); [by intros [= <- <-]|]. destruct (negb _).
  { destruct (_ =? 0); intros [= <- <-]; [by rewrite (sm_state _ _ (same_report _)) | done]. }
  destruct (_ <? _); [by intros [= <- <-]|]. set (s2 := if seq_ h =? 0 then _ else _). assert (ais_state s2 = ais_state s) as E2 by (unfold s2; by destruct (_ =? 0)). clearbody s2.
  destruct (save_payload p (ota s2)) as [c|]; [|done]. cbn [mbind option_bind]. intros [= <- <-]. rewrite <- E2.
  match goal with |- ais_state (if ?b then genie_ota_status_report sched0 ?x else _) = _ => assert (ais_state x = ais_state s2) as E3; [|set (y := x) in *; clearbody y] end.
  - destruct (seq_ h =? total_frame_ h); [|done]. by destruct (ali_dfu_image_update _ _ _).
  - destruct (_ || _); [|done]. by rewrite (sm_state _ _ (same_report _)).
Qed.

Lemma decrypted_inv p s (f : list Z → option (bool * ais)) r s1 : decrypted sched0 p s f = Some (r, s1) → (r = false /\ s1 = s) \/ exists d, f d = Some (r, s1).
Proof. unfold decrypted. destruct (_ais_decrypt sched0 p s) as [x d]. destruct (x =? 0); [intros E; right; by exists d | intros [= <- <-]; by left]. Qed.

(** What a command [c] can do to the machine. *)
Inductive effect (c : Z) (s s' : ais) : Prop :=
| EffNothing : same s s' → effect c s s'
| EffKey : (ais_state s' = AIS_STATE_AUTH \/ ais_state s' = AIS_STATE_CONNECT \/ ais_state s' = AIS_STATE_IDLE) → ota s' = ota s → hal s' = hal s → effect c s s'
| EffAnnounce : c = AIS_OTA_FIRMWARE_REQ → hal s' = hal s → ais_state s' = AIS_STATE_OTA → effect c s s'
| EffData h p r : c = AIS_OTA_DATA → genie_ota_parse_pdu h p s = Some (r, s') → payload_len h = Z.of_nat (length p) → 0 <= seq_ h → total_frame_ h <= 15 → all_u8 p → effect c s s'
| EffCheck : c = AIS_OTA_CHECK_REQ → ais_state s = AIS_STATE_OTA → hal s' = hal s → dfu_crc (hal s) = image_crc16 (ota s) → ota s' = set_ota_ready 1 (ota s) → ais_state s' = AIS_STATE_REBOOT → effect c s s'.

Lemma version_effect id p e s r s1 : genie_ota_handle_version_request sched0 appver id p e s = Some (r, s1) → same s s1.
Proof.
  unfold genie_ota_handle_version_request. destruct (p !! 0%nat) as [x|]; [|done]. cbn [mbind option_bind]. destruct (x =? 0); [|by intros [= <- <-]].
  intros [= <- <-]. destruct e; apply same_notify.
Qed.
Lemma update_effect id p e s r s1 : genie_ota_handle_update_request sched0 appver id p e s = Some (r, s1) → effect AIS_OTA_FIRMWARE_REQ s s1.
Proof.
  unfold genie_ota_handle_update_request. destruct (parse_upd_req p) as [[[[[x v] size] crc] f]|]; [|done]. cbn [mbind option_bind]. intros [= <- <-].
  set (b := _ || _). clearbody b. match goal with |- effect _ s ?y => assert (same (if b then s else on_ota (λ _, mkOta 0 0 0 0 0 x v size crc f 0 0 0 (repeat 0 OTA_RECV_BUF_SIZE)) (set_ais_state AIS_STATE_OTA s)) y) as Sm by (destruct e; apply same_notify); set (z := y) in *; clearbody z end.
  destruct b; [by apply EffNothing|]. apply EffAnnounce; [done | by rewrite (sm_hal _ _ Sm) | by rewrite (sm_state _ _ Sm)].
Qed.
Lemma check_effect id p s r s1 : ais_state s = AIS_STATE_OTA → genie_ota_check_firmware sched0 id p s = Some (r, s1) → effect AIS_OTA_CHECK_REQ s s1.
Proof.
  intros Hst. destruct p as [|x p]; [done|]. destruct (Z.eqb_spec x 1) as [->|Ne].
  - destruct (check_firmware_one id p s) as (s' & -> & Hh & _ & Q). intros [= <- <-]. destruct (Z.eqb_spec (dfu_crc (hal s)) (image_crc16 (ota s))); destruct Q as (Q1 & Q2 & Q3); [by apply EffCheck|].
    apply EffKey; auto.
  - unfold genie_ota_check_firmware. cbn [lookup list_lookup mbind option_bind]. rewrite (proj2 (Z.eqb_neq _ _) Ne). intros [= <- <-]. apply EffKey; auto.
Qed.
(** The key exchange. *)
Lemma after_key c id k m s s0 : ais_state s0 = AIS_STATE_AUTH \/ ais_state s0 = AIS_STATE_CONNECT \/ ais_state s0 = AIS_STATE_IDLE →
  ota s0 = ota s → hal s0 = hal s → effect c s (_ais_server_indicate id k m s0).
Proof.
  intros Hst Ho Hh. pose proof (same_indicate id k m s0) as Sm. apply EffKey; [by rewrite (sm_state _ _ Sm) | by rewrite (sm_ota _ _ Sm) | by rewrite (sm_hal _ _ Sm)].
Qed.
Lemma random_effect c id p s r s1 : _ais_scrt_random sched0 ctx0 triple id p s = Some (r, s1) → effect c s s1.
Proof. unfold _ais_scrt_random. destruct (genie_ais_get_cipher _ _ _ _ _ _) as [[k x]|]; [|done]. cbn [mbind option_bind]. intros [= <- <-]. apply after_key; auto. Qed.
Lemma result_effect c id p s r s1 : _ais_scrt_result id p (set_timer None s) = Some (r, s1) → effect c s s1.
Proof. unfold _ais_scrt_result. destruct (p !! 0%nat) as [x|]; [|done]. cbn [mbind option_bind]. intros [= <- <-]. apply after_key; destruct (x =? 1); auto. Qed.
Lemma link_effect c id p s r s1 : _ais_link_ack sched0 id p s = Some (r, s1) → effect c s s1.
Proof.
  unfold _ais_link_ack. destruct (p !! 0%nat) as [x|]; [|done]. cbn [mbind option_bind]. intros [= <- <-].
  destruct (x =? 0); [apply after_key; auto | apply EffNothing, same_indicate].
Qed.

Lemma in_decrypted c p s (f : list Z → option (bool * ais)) r s1 : (forall d, f d = Some (r, s1) → effect c s s1) → decrypted sched0 p s f = Some (r, s1) → effect c s s1.
Proof. intros Hf E. apply decrypted_inv in E as [[_ ->]|[d E]]; [apply EffNothing, same_refl | by apply (Hf d)]. Qed.

(** [Some <$> (if guard then ... else Some (false, s))] *)
Lemma guarded c (b : bool) (x : option (bool * ais)) s r s1 : (b = true → x = Some (r, s1) → effect c s s1) → Some <$> (if b then x else Some (false, s)) = Some (Some (r, s1)) → effect c s s1.
Proof. intros Hf. destruct b; [|intros [= <- <-]; apply EffNothing, same_refl]. destruct x as [[]|]; [|done]. intros [= <- <-]. by apply Hf. Qed.

Lemma command_effect h p len s r s1 : ais_command sched0 ctx0 triple appver h p len s = Some (Some (r, s1)) → len = 4 + Z.of_nat (length p) →
  0 <= seq_ h → total_frame_ h <= 15 → all_u8 p → effect (cmd h) s s1.
Proof.
  unfold ais_command. intros E Hlen Hs Ht Hp. revert E.
  destruct (cmd h =? AIS_SCRT_RANDOM). { apply guarded. intros _. apply random_effect. }
  destruct (cmd h =? AIS_SCRT_RESULT). { apply guarded. intros _. apply result_effect. }
  destruct (cmd h =? AIS_LINK_STATUS). { apply guarded. intros _. apply in_decrypted. intros d. apply link_effect. }
  destruct (cmd h =? AIS_OTA_VER_REQ).
  { destruct (len =? 20).
    - apply (guarded _ true _ s). intros _. apply in_decrypted. intros d E'. apply EffNothing, (version_effect _ _ _ _ _ _ E').
    - apply guarded. intros _ E'. apply EffNothing, (version_effect _ _ _ _ _ _ E'). }
  destruct (Z.eqb_spec (cmd h) AIS_OTA_FIRMWARE_REQ) as [->|_].
  { destruct (len =? 20).
    - apply (guarded _ true _ s). intros _. apply in_decrypted. intros d. apply update_effect.
    - apply guarded. intros _. apply update_effect. }
  destruct (Z.eqb_spec (cmd h) AIS_OTA_DATA) as [Ec|_].
  { apply guarded. intros [L _]%andb_prop E. apply Z.eqb_eq in L. apply (EffData _ _ _ h p r Ec E); try done. lia. }
  destruct (Z.eqb_spec (cmd h) AIS_OTA_CHECK_REQ) as [->|_]; [|done]. apply guarded. intros [_ St]%andb_prop. apply bool_decide_eq_true in St. apply in_decrypted. intros d. by apply check_effect.
Qed.

(** The command byte of a write. *)
Definition write_cmd (i : ais_input) : Z := match i with InWrite (_ :: c :: _) => c | _ => 0 end.

Lemma write_effect m s s' : _ais_service_write m s = Some s' → all_u8 m → exists s1, effect (write_cmd (InWrite m)) s s1 /\ same s1 s'.
Proof.
  intros E Hm. revert E. unfold Ota._ais_service_write. destruct (Nat.eqb_spec (length m) 0); [intros [= <-]; exists s; split; [apply EffNothing, same_refl | apply same_refl]|].
  unfold _ais_server_msg_handle. destruct m as [|b0 [|b1 [|b2 [|b3 p]]]]; try done. cbn [parse_header mbind option_bind write_cmd].
  set (h := mkAisHdr _ _ _ _ _ _ _). destruct (ais_command _ _ _ _ h p _ s) as [[[r s1]|]|] eqn:E; [| |done]; cbn [mbind option_bind].
  - assert (effect (cmd h) s s1) as Ef.
    { pose proof (Forall_lookup_1 _ _ 2%nat b2 Hm eq_refl) as H2. cbn in H2. apply command_effect in E; [done | cbn [length]; lia | | |].
      - unfold h. cbn [seq_]. apply nibble.
      - unfold h. cbn [total_frame_]. rewrite Z.shiftr_div_pow2 by lia. change (2 ^ 4) with 16. dlia.
      - by apply Forall_cons_1 in Hm as [_ [_ [_ [_ ?]%Forall_cons_1]%Forall_cons_1]%Forall_cons_1]. }
    intros [= <-]. exists s1. split; [done|]. destruct r; [apply same_update|]. destruct (bool_decide _); [apply same_indicate | apply same_refl].
  - intros [= <-]. exists s. split; [apply EffNothing, same_refl | apply same_refl].
Qed.

(** ** Runs *)

Definition input_ok (i : ais_input) : Prop := match i with InWrite m => all_u8 m | _ => True end.

Lemma connect_state c s s' : genie_ais_connect keys_ok q c s = Some s' → ais_state s ≠ AIS_STATE_REBOOT → ais_state s' = AIS_STATE_CONNECT.
Proof.
  unfold genie_ais_connect. intros E Hs. rewrite bool_decide_eq_true_2 in E by done. destruct (genie_event _ _ _ _ _) as [v|]; [|done]. injection E as <-.
  cbn [set_sv ais_state]. by rewrite (sm_state _ _ (same_update _)).
Qed.
Lemma disconnect_state s s' : genie_ais_disconnect keys_ok q allow_reboot s = Some s' → ais_state s ≠ AIS_STATE_REBOOT → ais_state s' = AIS_STATE_DISCON.
Proof.
  unfold genie_ais_disconnect. intros E Hs. rewrite bool_decide_eq_true_2 in E by done. destruct (genie_event _ _ _ _ _) as [v|]; [|done]. injection E as <-.
  cbn [set_sv ais_state]. by destruct (_ && _).
Qed.
(** The report timer in a transfer. *)
Lemma timer_ota s : ais_state s = AIS_STATE_OTA → state_update_timer_cb sched0 s = genie_ais_state_update (
  if OTA_RECV_MAX_ERR_COUNT <=? err_count (ota s)
  then _ais_server_indicate 0 AIS_RESP_ERR [] (on_ota (λ c, set_rx 0 (recv_buf c) c) (set_ais_state AIS_STATE_IDLE (on_ota (set_err (u8 (err_count (ota s) + 1))) s)))
  else genie_ota_status_report sched0 (on_ota (set_err (u8 (err_count (ota s) + 1))) s)).
Proof. intros E. unfold state_update_timer_cb. rewrite E. by destruct (_ <=? _). Qed.

(** A data message: its frame is looked at when the message is well formed. *)
Lemma write_frame b0 b2 n p s s' : _ais_service_write (b0 :: AIS_OTA_DATA :: b2 :: n :: p) s = Some s' → exists s1, same s1 s' /\
  let h := mkAisHdr (Z.land b0 15) (Z.land (Z.shiftr b0 4) 1) (Z.shiftr b0 5) AIS_OTA_DATA (Z.land b2 15) (Z.shiftr b2 4) n in
  if (n =? Z.of_nat (length p)) && (Z.shiftr b0 5 =? 0) then exists r, genie_ota_parse_pdu h p s = Some (r, s1) else s1 = s.
Proof.
  unfold Ota._ais_service_write. cbn [length Nat.eqb]. unfold _ais_server_msg_handle. cbn [parse_header mbind option_bind]. cbv zeta. set (h := mkAisHdr _ _ _ _ _ _ _).
  unfold ais_command. change (cmd h) with AIS_OTA_DATA. cbn [AIS_OTA_DATA AIS_SCRT_RANDOM AIS_SCRT_RESULT AIS_LINK_STATUS AIS_OTA_VER_REQ AIS_OTA_FIRMWARE_REQ Z.eqb Pos.eqb].
  change (payload_len h) with n. change (ver h) with (Z.shiftr b0 5). replace (Z.of_nat (length (b0 :: AIS_OTA_DATA :: b2 :: n :: p)) =? 4 + n) with (n =? Z.of_nat (length p)) by (cbn [length]; destruct (Z.eqb_spec n (Z.of_nat (length p))), (Z.eqb_spec (Z.of_nat (S (S (S (S (length p)))))) (4 + n)); (done || lia)).
  destruct ((n =? Z.of_nat (length p)) && (Z.shiftr b0 5 =? 0)).
  - destruct (Ota.genie_ota_parse_pdu _ h p s) as [[r s1]|]; [|done]. cbn [fmap option_fmap option_map mbind option_bind]. intros [= <-]. exists s1. split; [|exists r; reflexivity].
    destruct r; [apply same_update|]. destruct (bool_decide _); [apply same_indicate | apply same_refl].
  - cbn [fmap option_fmap option_map mbind option_bind]. intros [= <-]. exists s. split; [|done]. destruct (bool_decide _); [apply same_indicate | apply same_refl].
Qed.
(** Messages without a frame. *)
Lemma accept_other img g m : write_cmd (InWrite m) ≠ AIS_OTA_DATA → accept img g (InWrite m) = g.
Proof. intros Hc. destruct m as [|b0 [|c [|b2 [|n p]]]]; try done. cbn [accept write_cmd] in *. by rewrite (proj2 (Z.eqb_neq _ _) Hc). Qed.

Lemma step_session i img g s s' : input_ok i → write_cmd i ≠ AIS_OTA_FIRMWARE_REQ → ais_state s = AIS_STATE_OTA → collected img g s →
  ais_step i s = Some s' → ais_state s' = AIS_STATE_OTA → collected img (accept img g i) s'.
Proof.
  intros Hi Hc Hst R E Hst'. destruct i as [c| |m| |]; cbn [Ota.ais_step] in E.
  - apply connect_state in E; congruence.
  - apply disconnect_state in E; congruence.
  - destruct (Z.eq_dec (write_cmd (InWrite m)) AIS_OTA_DATA) as [Ed|Ed].
    + destruct m as [|b0 [|c [|b2 [|n p]]]]; try done. cbn [write_cmd] in Ed. subst c. destruct (write_frame b0 b2 n p s s' E) as (s1 & Sm & Q). cbn [accept]. rewrite Z.eqb_refl. cbn [andb].
      apply (collected_same _ _ _ _ Sm). cbv zeta in Q. destruct (Z.eqb_spec n (Z.of_nat (length p))) as [En|]; [|cbn [andb] in Q; rewrite Q; exact R]. destruct (_ =? 0); [|cbn [andb] in Q; rewrite Q; exact R]. destruct Q as [r Ep]. cbn [andb].
      pose proof (Forall_lookup_1 _ _ 2%nat b2 Hi eq_refl) as H2. cbn in H2. apply (parse_pdu_session _ _ _ _ _ _ _ R Ep); cbn [payload_len seq_ total_frame_]; try done.
      * by apply Forall_cons_1 in Hi as [_ [_ [_ [_ ?]%Forall_cons_1]%Forall_cons_1]%Forall_cons_1].
      * apply nibble.
      * rewrite Z.shiftr_div_pow2 by lia. change (2 ^ 4) with 16. dlia.
    + rewrite accept_other by done. destruct (write_effect m s s' E Hi) as (s1 & Ef & Sm). assert (ais_state s1 = AIS_STATE_OTA) as Hs1 by (by rewrite <- (sm_state _ _ Sm)).
      destruct Ef as [S1 | St | Ec | h p r Ep Hl Hsq Htf Hp | ? ? ? ? ? St]; try congruence.
      * by apply (collected_same _ _ _ _ (same_same _ _ _ S1 Sm)).
      * rewrite Hs1 in St. by destruct St as [|[|]].
  - destruct (state_update_timer s); injection E as <-; [|done]. rewrite timer_ota in Hst' |- * by done. rewrite (sm_state _ _ (same_update _)) in Hst'.
    destruct (_ <=? _); [by rewrite (sm_state _ _ (same_indicate _ _ _ _)) in Hst'|].
    apply (collected_same _ _ _ _ (same_update _)), (collected_same _ _ _ _ (same_report _)), collected_err. by apply (collected_same _ _ s).
  - destruct (disconnect_timer s); injection E as <-; [|done]. apply (collected_same _ _ _ _ (same_disconnect _)). by apply (collected_same _ _ s).
Qed.

(** Inputs during which the transfer goes on and nothing new is announced. *)
Fixpoint in_session (l : list ais_input) (s s' : ais) : Prop :=
  match l with
  | [] => s' = s
  | i :: l => input_ok i /\ write_cmd i ≠ AIS_OTA_FIRMWARE_REQ /\ exists s1, ais_step i s = Some s1 /\ ais_state s1 = AIS_STATE_OTA /\ in_session l s1 s'
  end.

Lemma session_receives l : forall img g s s', ais_state s = AIS_STATE_OTA → collected img g s → in_session l s s' →
  ais_state s' = AIS_STATE_OTA /\ collected img (fold_left (accept img) l g) s'.
Proof.
  induction l as [|i l IH]; intros img g s s' Hst R; cbn [in_session]; [by intros ->|].
  intros (Hi & Hc & s1 & E & St1 & Hl). apply (IH _ _ s1); [done | | done]. by apply (step_session i img g s s1).
Qed.

(** The same, computed. *)
Definition byte_list (m : list Z) : bool := forallb (λ b, (0 <=? b) && (b <? 256)) m.
Fixpoint session_exec (l : list (list Z)) (s : ais) : option ais :=
  match l with
  | [] => Some s
  | m :: l =>
    s ← ais_step (InWrite m) s;
    if byte_list m && negb (write_cmd (InWrite m) =? AIS_OTA_FIRMWARE_REQ) && bool_decide (ais_state s = AIS_STATE_OTA) then session_exec l s else None
  end.
Lemma byte_list_ok m : byte_list m = true → all_u8 m.
Proof. unfold byte_list. induction m as [|b m IH]; [intros _; apply Forall_nil_2|]. cbn [forallb]. intros [Hb Hm]%andb_prop. apply Forall_cons_2; [lia | by apply IH]. Qed.
Lemma session_exec_ok l : forall s s', session_exec l s = Some s' → in_session (map InWrite l) s s'.
Proof.
  induction l as [|m l IH]; intros s s'; cbn [session_exec map in_session]; [by intros [= ->]|]. destruct (Ota.ais_step _ _ _ _ _ _ _ (InWrite m) s) as [s1|]; [|done]. cbn [mbind option_bind].
  destruct (byte_list m) eqn:B; [|done]. destruct (Z.eqb_spec (write_cmd (InWrite m)) AIS_OTA_FIRMWARE_REQ); [done|]. cbn [negb andb]. case_bool_decide; [|done]. intros E.
  split; [by apply byte_list_ok|]. split; [done|]. exists s1. auto.
Qed.

(** Outside of a transfer nothing leads to the restart. *)
Lemma no_restart i s s' : input_ok i → ais_state s ≠ AIS_STATE_OTA → ais_state s ≠ AIS_STATE_REBOOT → ais_step i s = Some s' → ais_state s' ≠ AIS_STATE_REBOOT.
Proof.
  intros Hi No Nr E Hr. destruct i as [c| |m| |]; cbn [Ota.ais_step] in E.
  - apply connect_state in E; congruence.
  - apply disconnect_state in E; congruence.
  - destruct (write_effect m s s' E Hi) as (s1 & Ef & Sm). rewrite (sm_state _ _ Sm) in Hr. destruct Ef as [S1 | St | | h p r _ Ep |]; try congruence.
    + rewrite (sm_state _ _ S1) in Hr. congruence.
    + rewrite Hr in St. by destruct St as [|[|]].
    + apply parse_pdu_state in Ep. congruence.
  - destruct (state_update_timer s); injection E as <-; [|congruence]. unfold state_update_timer_cb in Hr. rewrite (sm_state _ _ (same_update _)) in Hr. cbn [set_timer ais_state] in Hr. destruct (ais_state s) eqn:S1; cbn in Hr; congruence.
  - destruct (disconnect_timer s); injection E as <-; [|congruence]. rewrite (sm_state _ _ (same_disconnect _)) in Hr. exact (Nr Hr).
Qed.

(** [C17] The device gets ready to restart only by a check in a transfer.  Outside of a
    transfer no message, connection or timer brings it there.  And after any sequence of
    frames, in and out of order, of other messages and of timeouts, that started with a
    transfer into erased flash whose driver does not fail, what is in flash at the restart is exactly the
    bytes of the complete groups that were accepted, in order - the groups as [accept] finds them in
    the messages - and, if there was one, their CRC is the announced one (without
    any group the CRC of the previous update is compared: [empty_update]). *)
Theorem restart_only_checked :
  (forall i s s', input_ok i → ais_state s ≠ AIS_STATE_OTA → ais_state s ≠ AIS_STATE_REBOOT → ais_step i s = Some s' → ais_state s' ≠ AIS_STATE_REBOOT) /\
  forall l i s s1 s2, ais_state s = AIS_STATE_OTA → receiving s [] [] → except_seq (ota s) = 0 → in_session l s s1 → input_ok i →
  ais_step i s1 = Some s2 → ais_state s2 = AIS_STATE_REBOOT →
  let w := accepted_groups (image_size (ota s)) l in
  (exists m, i = InWrite m /\ write_cmd i = AIS_OTA_CHECK_REQ) /\ ota_ready (ota s2) = 1 /\
  area (hal s2) w /\ Z.of_nat (length w) <= rx_size (ota s2) <= image_size (ota s2) /\ (w ≠ [] → image_crc16 (ota s2) = util_crc16_ccitt w None).
Proof.
  split; [exact no_restart|]. intros l i s s1 s2. intros Hst R Hx Hl Hi E Hr. cbv zeta. destruct (session_receives l (image_size (ota s)) no_groups s s1 Hst) as (St1 & R1 & _); [by split | done|].
  fold (accepted_groups (image_size (ota s)) l) in R1. set (w := accepted_groups _ l) in *. set (pend := g_pend _) in R1. clearbody w pend. destruct i as [c| |m| |]; cbn [Ota.ais_step] in E.
  - apply connect_state in E; congruence.
  - apply disconnect_state in E; congruence.
  - destruct (write_effect m s1 s2 E Hi) as (s3 & Ef & Sm). rewrite (sm_state _ _ Sm) in Hr. rewrite (sm_ota _ _ Sm), (sm_hal _ _ Sm).
    destruct Ef as [S1 | St | Ec Hh St | h p r _ Ep | Hc St Hh Hcrc Ho St']; try congruence.
    + rewrite (sm_state _ _ S1) in Hr. congruence.
    + rewrite Hr in St. by destruct St as [|[|]].
    + apply parse_pdu_state in Ep. congruence.
    + split; [by exists m|]. rewrite Hh, Ho. split; [done|]. split; [apply (rc_area _ _ _ R1)|]. cbn [set_ota_ready rx_size image_size image_crc16].
      pose proof (rc_size _ _ _ R1). pose proof (rc_image _ _ _ R1). split; [lia|]. intros Hw. destruct (rc_crc _ _ _ R1); [done | congruence].
  - destruct (state_update_timer s1); injection E as <-; [|congruence]. rewrite timer_ota in Hr by done. rewrite (sm_state _ _ (same_update _)) in Hr.
    destruct (_ <=? _); [by rewrite (sm_state _ _ (same_indicate _ _ _ _)) in Hr|]. rewrite (sm_state _ _ (same_report _)) in Hr. cbn in Hr. congruence.
  - destruct (disconnect_timer s1); injection E as <-; [rewrite (sm_state _ _ (same_disconnect _)) in Hr|]; cbn in Hr; congruence.
Qed.

(** ** A stalled transfer *)

Lemma update_timer_ota s c : p_conn s = Some c → ais_state s = AIS_STATE_OTA → genie_ais_state_update s = set_timer (Some AIS_OTA_REPORT_TIMEOUT) s.
Proof. intros Hc Hs. unfold genie_ais_state_update. by rewrite Hc, Hs. Qed.

(** One expiry: the report and one more error, or the end of the transfer. *)
Lemma timer_step s c x : ais_state s = AIS_STATE_OTA → p_conn s = Some c → state_update_timer s = Some x → 0 <= err_count (ota s) <= 10 →
  exists s', ais_step InTimer s = Some s' /\
  if err_count (ota s) =? 10 then ais_state s' = AIS_STATE_IDLE /\ state_update_timer s' = None
  else ais_state s' = AIS_STATE_OTA /\ p_conn s' = Some c /\ state_update_timer s' = Some AIS_OTA_REPORT_TIMEOUT /\ err_count (ota s') = err_count (ota s) + 1.
Proof.
  intros Hst Hc Ht He. cbn [Ota.ais_step]. rewrite Ht. eexists. split; [done|]. rewrite timer_ota by done. cbn [set_timer ota].
  destruct (Z.eqb_spec (err_count (ota s)) 10) as [E|E].
  - rewrite (proj2 (Z.leb_le _ _)) by (unfold OTA_RECV_MAX_ERR_COUNT; lia). unfold genie_ais_state_update, _ais_server_indicate, aos_malloc.
    cbn [on_ota set_ais_state set_timer heap_faults]. destruct (heap_faults s) as [|[] l]; cbn; rewrite ?Hc; cbn; rewrite ?Hc; done.
  - rewrite (proj2 (Z.leb_gt _ _)) by (unfold OTA_RECV_MAX_ERR_COUNT; lia). set (s1 := on_ota _ _). unfold genie_ota_status_report, genie_ais_notify.
    change (p_conn s1) with (p_conn s). rewrite Hc. rewrite (update_timer_ota _ c) by done. repeat split; try done. cbn. apply u8_small. lia.
Qed.

(** A transfer whose phone falls silent ends: the report timer expires once for every
    error that is still allowed, each time the device reports and waits again, and with the
    last expiry it is idle and no timer is running. *)
Theorem stalled_transfer_ends s c x : ais_state s = AIS_STATE_OTA → p_conn s = Some c → state_update_timer s = Some x → 0 <= err_count (ota s) <= 10 →
  let n := Z.to_nat (10 - err_count (ota s)) in
  (forall k, (k <= n)%nat → exists s', ais_run (repeat InTimer k) s = Some s' /\ ais_state s' = AIS_STATE_OTA /\ err_count (ota s') = err_count (ota s) + Z.of_nat k) /\
  exists s', ais_run (repeat InTimer (S n)) s = Some s' /\ ais_state s' = AIS_STATE_IDLE /\ state_update_timer s' = None.
Proof.
  intros Hst Hc Ht He n.
  assert (forall k, (k <= n)%nat → exists s', ais_run (repeat InTimer k) s = Some s' /\ ais_state s' = AIS_STATE_OTA /\ p_conn s' = Some c /\ (exists y, state_update_timer s' = Some y) /\ err_count (ota s') = err_count (ota s) + Z.of_nat k) as A.
  { induction k as [|k IH]; intros Hk; [exists s; repeat split; [done | done | by exists x | lia]|].
    destruct IH as (s1 & E & S1 & C1 & (y & T1) & N1); [lia|]. destruct (timer_step s1 c y S1 C1 T1) as (s2 & E2 & Q); [lia|].
    rewrite (proj2 (Z.eqb_neq _ _)) in Q by lia. destruct Q as (Q1 & Q2 & Q3 & Q4). exists s2. split; [|repeat split; [done | done | by eexists | lia]].
    replace (S k) with (k + 1)%nat by lia. rewrite repeat_app, (run_app _ _ _ _ E). cbn [repeat Ota.ais_run]. by rewrite E2. }
  split; [intros k Hk; destruct (A k Hk) as (s' & E & S1 & _ & _ & N1); by exists s'|].
  destruct (A n (le_n n)) as (s1 & E & S1 & C1 & (y & T1) & N1). destruct (timer_step s1 c y S1 C1 T1) as (s2 & E2 & Q); [lia|].
  rewrite (proj2 (Z.eqb_eq _ _)) in Q by lia. exists s2. split; [|done]. replace (S n) with (n + 1)%nat by lia. rewrite repeat_app, (run_app _ _ _ _ E). cbn [repeat Ota.ais_run]. by rewrite E2.
Qed.

(** ** Bounds *)

(** The key has its size, and the group in the buffer is at most 128 bytes per frame. *)
Definition in_bounds (s : ais) : Prop :=
  length (g_ble_key s) = 32%nat /\ length (recv_buf (ota s)) = OTA_RECV_BUF_SIZE /\ 0 <= except_seq (ota s) < CONFIG_AIS_TOTAL_FRAME /\ Z.of_nat (rx_len (ota s)) <= 128 * except_seq (ota s).

Lemma in_bounds_same s s' : same s s' → in_bounds s → in_bounds s'.
Proof. intros [_ Eo Ek _ _]. unfold in_bounds. by rewrite Eo, Ek. Qed.

Lemma parse_pdu_bounds h p s : in_bounds s → (length p <= 128)%nat → 0 <= seq_ h → total_frame_ h < CONFIG_AIS_TOTAL_FRAME →
  exists r s', genie_ota_parse_pdu h p s = Some (r, s') /\ in_bounds s'.
Proof.
  intros (K & B & X & L) Hp Hs Ht. unfold CONFIG_AIS_TOTAL_FRAME in *. unfold Ota.genie_ota_parse_pdu. destruct (Z.ltb_spec (total_frame_ h) (seq_ h)); [by exists false, s|].
  destruct (Z.eqb_spec (seq_ h) (except_seq (ota s))) as [E|E]; cbn [negb].
  2:{ destruct (_ =? 0); eexists _, _; (split; [reflexivity|]); [apply (in_bounds_same _ _ (same_report _))|]; done. }
  destruct (_ <? _); [by exists false, s|]. set (s1 := if seq_ h =? 0 then _ else _).
  assert (length (g_ble_key s1) = 32%nat /\ length (recv_buf (ota s1)) = 768%nat /\ Z.of_nat (rx_len (ota s1)) <= 128 * seq_ h) as (K1 & B1 & L1).
  { unfold s1. destruct (Z.eqb_spec (seq_ h) 0) as [Z|Z]; repeat split; cbn [on_ota ota set_rx set_err rx_len recv_buf]; try done; lia. }
  clearbody s1. assert (exists f n b, save_payload p (ota s1) = Some (set_flash_clean f (set_rx n b (ota s1))) /\ length b = 768%nat /\ Z.of_nat n <= 128 * (seq_ h + 1)) as (f & n & b & -> & Lb & Ln).
  { unfold save_payload. destruct (Nat.eqb_spec (length p) 0); [exists (flash_clean (ota s1)), (rx_len (ota s1)), (recv_buf (ota s1)); split; [by destruct (ota s1) | split; [done | lia]]|].
    rewrite (proj2 (Nat.ltb_ge _ _)) by lia. exists 1, (rx_len (ota s1) + length p)%nat, (store_at (rx_len (ota s1)) p (recv_buf (ota s1))). split; [reflexivity|]. split; [|lia]. unfold store_at. rewrite !length_app, length_take, length_drop. lia. }
  cbn [mbind option_bind]. eexists _, _. split; [reflexivity|]. match goal with |- in_bounds (if ?c then _ ?x else _) => assert (in_bounds x) as Q; [|destruct c; [apply (in_bounds_same _ _ (same_report _)) |]; exact Q] end.
  destruct (Z.eqb_spec (seq_ h) (total_frame_ h)).
  - destruct (ali_dfu_image_update _ _ _) as [y hl]. repeat split; try done; cbn; lia.
  - repeat split; try done; cbn; rewrite u8_small by lia; unfold CONFIG_AIS_TOTAL_FRAME; lia.
Qed.

Lemma sha256_length m : length (sha256 m) = 32%nat.
Proof. unfold sha256. cbv zeta. rewrite word_bytes_length. change (foldl fips_block fips_H0 ?c) with (absorb (length (fips_pad m) / 64) (fips_pad m)). by rewrite absorb_length. Qed.

(** The events of connections come to an end. *)
Lemma ais_connect_event v : exists v', genie_event keys_ok q GENIE_EVT_SDK_AIS_CONNECT NULL v = Some v'.
Proof. unfold genie_event. cbn [genie_event_fuel]. destruct (negb (event_cb (senv v))); [by eexists|]. cbn [event_dispatch mbind option_bind]. rewrite bool_decide_eq_true_2 by done. by eexists. Qed.
Lemma ais_discon_event v : exists v', genie_event keys_ok q GENIE_EVT_SDK_AIS_DISCON NULL v = Some v'.
Proof.
  unfold genie_event. cbn [genie_event_fuel]. destruct (negb (event_cb (senv v))); [by eexists|]. cbn [event_dispatch mbind option_bind].
  unfold _genie_event_handle_ais_discon. destruct (stack_rc _ v) as [r v1]. destruct (r =? 0); cbn [fst snd].
  2:{ rewrite bool_decide_eq_true_2 by done. by eexists. }
  rewrite bool_decide_eq_false_2 by done. match goal with |- context [negb (event_cb (senv ?x))] => destruct (negb (event_cb (senv x))) end; [by eexists|].
  cbn [event_dispatch mbind option_bind _genie_event_handle_pbadv_start fst snd]. rewrite bool_decide_eq_true_2 by done. by eexists.
Qed.

(** What the header declares as data is at most six frames of 128 bytes. *)
Definition short_frames (i : ais_input) : Prop :=
  match i with
  | InWrite m => all_u8 m /\ match m with
    | [] => True
    | _ :: c :: b2 :: _ :: p => c = AIS_OTA_DATA → (length p <= 128)%nat /\ Z.shiftr b2 4 < CONFIG_AIS_TOTAL_FRAME
    | _ => False
    end
  | _ => True
  end.

(** The result of a command exists and keeps the bounds. *)
Definition fine (x : option (bool * ais)) : Prop := exists r s', x = Some (r, s') /\ in_bounds s'.

Lemma fine_nothing s : in_bounds s → fine (Some (false, s)).
Proof. intros B. by exists false, s. Qed.
Lemma fine_if (b : bool) x s : in_bounds s → (b = true → fine x) → fine (if b then x else Some (false, s)).
Proof. intros B Hx. destruct b; [by apply Hx | by apply fine_nothing]. Qed.
Lemma inv_rows_length (b : list Z) : length (inv_sub_bytes (inv_shift_rows b)) = 16%nat.
Proof. done. Qed.
Lemma decrypt_block_length words b : length words = (Nb * (Nr + 1))%nat → length (decrypt_block words b) = 16%nat.
Proof. intros E. unfold decrypt_block, add_round_key at 1. rewrite length_zip_with, inv_rows_length, word_bytes_length, length_take, length_drop, E. done. Qed.
Lemma fine_decrypted p s (f : list Z → option (bool * ais)) : in_bounds s → length p = 16%nat → (forall d, length d = 16%nat → fine (f d)) → fine (decrypted sched0 p s f).
Proof.
  intros B L Hf. rewrite (decrypted_block p _ s f L eq_refl). apply Hf. unfold genie_crypto_decrypt. rewrite bt_mesh_aes_decrypt_eq. cbn [snd]. rewrite length_zip_with.
  rewrite decrypt_block_length by apply key_schedule_length. done.
Qed.
Lemma has_first_byte (p : list Z) : (0 < length p)%nat → exists x, p !! 0%nat = Some x.
Proof. destruct p as [|x p]; [cbn; lia|]. intros _. by exists x. Qed.
Lemma fine_same r s s' : same s s' → in_bounds s → fine (Some (r, s')).
Proof. intros Sm B. exists r, s'. split; [done | by apply (in_bounds_same s)]. Qed.

Lemma random_fine id p s : triple_ok triple → in_bounds s → length p = 16%nat → all_u8 p → fine (_ais_scrt_random sched0 ctx0 triple id p s).
Proof.
  intros Ht B Lp Up. unfold _ais_scrt_random. rewrite take_ge by lia. cbn [set_ais_state g_ble_key]. rewrite cipher_key by (done || apply B). cbn [mbind option_bind].
  apply (fine_same _ _ _ (same_indicate _ _ _ _)). destruct B as (K & B). split; [apply sha256_length | exact B].
Qed.
Lemma result_fine id p s : in_bounds s → (0 < length p)%nat → fine (_ais_scrt_result id p s).
Proof.
  intros B [x Hx]%has_first_byte. unfold _ais_scrt_result. rewrite Hx. cbn [mbind option_bind]. apply (fine_same _ _ _ (same_indicate _ _ _ _)).
  destruct (x =? 1); [|done]. by destruct B as (_ & ?).
Qed.
Lemma link_fine id p s : in_bounds s → (0 < length p)%nat → fine (_ais_link_ack sched0 id p s).
Proof.
  intros B [x Hx]%has_first_byte. unfold _ais_link_ack. rewrite Hx. cbn [mbind option_bind]. apply (fine_same _ _ _ (same_indicate _ _ _ _)).
  destruct (x =? 0); [|done]. by destruct B as (_ & ?).
Qed.
Lemma version_fine id p e s : in_bounds s → (0 < length p)%nat → fine (genie_ota_handle_version_request sched0 appver id p e s).
Proof.
  intros B [x Hx]%has_first_byte. unfold genie_ota_handle_version_request. rewrite Hx. cbn [mbind option_bind]. destruct (x =? 0); [|by apply fine_nothing].
  destruct e; by apply (fine_same _ _ _ (same_notify _ _ _ _)).
Qed.
Lemma update_fine id p e s : in_bounds s → (12 <= length p)%nat → fine (genie_ota_handle_update_request sched0 appver id p e s).
Proof.
  intros B Lp. unfold genie_ota_handle_update_request, parse_upd_req. do 12 (destruct p as [|? p]; [cbn [length] in Lp; lia|]). cbn [mbind option_bind].
  destruct e; apply (fine_same _ _ _ (same_notify _ _ _ _)); (destruct (_ || _); [done|]); (destruct B as (K & _); split; [exact K | by vm_compute]).
Qed.
Lemma check_fine id p s : in_bounds s → (0 < length p)%nat → fine (genie_ota_check_firmware sched0 id p s).
Proof.
  intros B Lp. destruct p as [|x p]; [cbn in Lp; lia|]. destruct (Z.eqb_spec x 1) as [->|Ne].
  - destruct (check_firmware_one id p s) as (s' & -> & _ & Hk & Q). exists true, s'. split; [done|]. unfold in_bounds. rewrite Hk. destruct (_ =? _); destruct Q as (_ & -> & _); done.
  - unfold genie_ota_check_firmware. cbn [lookup list_lookup mbind option_bind]. rewrite (proj2 (Z.eqb_neq _ _) Ne). by apply fine_nothing.
Qed.

Lemma command_fine h p len s : triple_ok triple → in_bounds s → len = 4 + Z.of_nat (length p) → all_u8 p → 0 <= seq_ h →
  (cmd h = AIS_OTA_DATA → (length p <= 128)%nat /\ total_frame_ h < CONFIG_AIS_TOTAL_FRAME) →
  exists x, ais_command sched0 ctx0 triple appver h p len s = Some x /\ match x with Some (_, s') => in_bounds s' | None => True end.
Proof.
  intros Ht B -> Up Hs Hd.
  assert (forall y, fine y → exists x, Some <$> y = Some x /\ match x with Some (_, s') => in_bounds s' | None => True end) as W.
  { intros y (r & s' & -> & Q). by exists (Some (r, s')). }
  unfold ais_command.
  destruct (cmd h =? AIS_SCRT_RANDOM). { apply W, fine_if; [done|]. intros L%Z.eqb_eq. apply random_fine; [done | done | lia | done]. }
  destruct (cmd h =? AIS_SCRT_RESULT). { apply W, fine_if; [done|]. intros L%Z.eqb_eq. apply result_fine; [done | lia]. }
  destruct (cmd h =? AIS_LINK_STATUS). { apply W, fine_if; [done|]. intros L%Z.eqb_eq. apply fine_decrypted; [done | lia |]. intros d Ld. apply link_fine; [done | lia]. }
  destruct (cmd h =? AIS_OTA_VER_REQ).
  { apply W. destruct (Z.eqb_spec (4 + Z.of_nat (length p)) 20); [apply fine_decrypted; [done | lia |]; intros d Ld; apply version_fine; [done | lia]|].
    apply fine_if; [done|]. intros L%Z.eqb_eq. apply version_fine; [done | lia]. }
  destruct (cmd h =? AIS_OTA_FIRMWARE_REQ).
  { apply W. destruct (Z.eqb_spec (4 + Z.of_nat (length p)) 20); [apply fine_decrypted; [done | lia |]; intros d Ld; apply update_fine; [done | lia]|].
    apply fine_if; [done|]. intros L%Z.eqb_eq. apply update_fine; [done | lia]. }
  destruct (Z.eqb_spec (cmd h) AIS_OTA_DATA) as [Ed|_].
  { destruct (Hd Ed). apply W, fine_if; [done|]. intros _. by apply parse_pdu_bounds. }
  destruct (cmd h =? AIS_OTA_CHECK_REQ); [|by exists None].
  apply W, fine_if; [done|]. intros [L%Z.eqb_eq _]%andb_prop. apply fine_decrypted; [done | lia |]. intros d Ld. apply check_fine; [done | lia].
Qed.

(** [C18] While the phone keeps to frames of at most 128 bytes and groups of at most six frames, as the device announces it, and its writes are empty or have at least the four bytes of a header ([short_frames]), no read or write of the service leaves its buffer: from a state in which the buffer holds at most 128 bytes per frame of the current group, every such message, every connection and every timer is handled, and leaves such a state.  Shorter writes and longer frames are read or stored out of bounds: [short_message_overread], [long_frames_overflow]. *)
Theorem frames_in_bounds i s : triple_ok triple → in_bounds s → short_frames i → exists s', ais_step i s = Some s' /\ in_bounds s'.
Proof.
  intros Ht B Hi. destruct i as [c| |m| |]; cbn [Ota.ais_step].
  - unfold genie_ais_connect. destruct (bool_decide _); [|by exists s]. destruct (ais_connect_event (sv (genie_ais_state_update (set_ais_state AIS_STATE_CONNECT (set_conn (Some c) s))))) as (v & ->).
    cbn [mbind option_bind]. eexists. split; [done|]. by apply (in_bounds_same _ _ (same_update (set_ais_state AIS_STATE_CONNECT (set_conn (Some c) s)))).
  - unfold genie_ais_disconnect. destruct (bool_decide _).
    + match goal with |- context [genie_event _ _ _ _ (sv ?x)] => set (y := x); destruct (ais_discon_event (sv y)) as (v & ->) end. cbn [mbind option_bind]. eexists. split; [done|].
      change (in_bounds y). assert (in_bounds (set_ais_state AIS_STATE_DISCON (handle_ais_disconnect (set_timer None s)))) as Q by apply (in_bounds_same _ _ (same_disconnect (set_timer None s)) B).
      unfold y. by destruct (_ && _).
    + destruct (negb _); [by eexists|]. destruct (allow_reboot (sv s)) as [[] v]; by eexists.
  - destruct Hi as [Hm Hi]. unfold Ota._ais_service_write. destruct m as [|b0 [|b1 [|b2 [|b3 p]]]]; try done; [by exists s|]. cbn [length Nat.eqb]. unfold _ais_server_msg_handle. cbn [parse_header mbind option_bind].
    set (h := mkAisHdr _ _ _ _ _ _ _). destruct (command_fine h p (Z.of_nat (length (b0 :: b1 :: b2 :: b3 :: p))) s) as (x & -> & Q); try done.
    + cbn [length]. lia.
    + by apply Forall_cons_1 in Hm as [_ [_ [_ [_ ?]%Forall_cons_1]%Forall_cons_1]%Forall_cons_1].
    + apply nibble.
    + cbn [mbind option_bind]. destruct x as [[r s1]|]; [|by exists s]. eexists. split; [done|].
      destruct r; [by apply (in_bounds_same _ _ (same_update _))|]. destruct (bool_decide _); [by apply (in_bounds_same _ _ (same_indicate _ _ _ _)) | done].
  - destruct (state_update_timer s); [|by exists s]. eexists. split; [done|]. apply (in_bounds_same _ _ (same_update _)). cbn [set_timer ais_state]. destruct (ais_state s); try done.
    + by destruct B as (_ & ?).
    + destruct (_ <=? _); [|by apply (in_bounds_same _ _ (same_report _))]. apply (in_bounds_same _ _ (same_indicate _ _ _ _)). destruct B as (K & Bf & X & L). repeat split; try done; cbn; lia.
  - destruct (disconnect_timer s); [|by exists s]. eexists. split; [done|]. by apply (in_bounds_same _ _ (same_disconnect _)).
Qed.

(** ** What is accepted *)

(** A phone that never negotiated a key can install any image: an update request needs
    no encryption, and before a negotiation the key is zero. *)
Theorem unauthenticated_update c id v flag gs s : let img := concat (concat gs) in let size := Z.of_nat (length img) in
  ais_state s ≠ AIS_STATE_REBOOT → g_ble_key s = repeat 0 32 → area (hal s) [] → is_u32 v → is_u16 (util_crc16_ccitt img None) → appver < v →
  0 < size <= ali_dfu_get_ota_partition_max_size (hal s) → Forall group_ok gs →
  exists s', ais_run (InConnect c :: InWrite (upd_msg id v size (util_crc16_ccitt img None) flag) :: map InWrite (concat (map (group_msgs id) gs)) ++ [InWrite (check_msg id (repeat 0 32))]) s = Some s' /\
    ais_state s' = AIS_STATE_REBOOT /\ area (hal s') img.
Proof.
  cbv zeta. intros Hst Hk Har Hv Hc Hver Hsz Hg. cbn [Ota.ais_run Ota.ais_step]. unfold genie_ais_connect. rewrite bool_decide_eq_true_2 by done.
  set (s1 := genie_ais_state_update _). destruct (ais_connect_event (sv s1)) as (v1 & ->). cbn [mbind option_bind].
  pose proof (same_update (set_ais_state AIS_STATE_CONNECT (set_conn (Some c) s))) as [_ _ K1 H1 _]. fold s1 in K1, H1.
  destruct (transfer id v (util_crc16_ccitt (concat (concat gs)) None) flag gs (set_sv v1 s1)) as (s' & E & Ar & Q); try done; try (cbn [set_sv hal]; rewrite H1; done).
  rewrite Z.eqb_refl in Q. assert (g_ble_key (set_sv v1 s1) = repeat 0 32) as Kx by (rewrite <- Hk; exact K1). rewrite Kx in E. exists s'. split; [exact E|]. split; [by destruct Q | done].
Qed.

(** An update is accepted without a byte of its image: the checksum of the port is that
    of the last group ever written, zero at first, and the check does not compare sizes. *)
Theorem empty_update id v size flag s : is_u32 v → is_u32 size → is_u16 (dfu_crc (hal s)) → appver < v → 0 < size <= ali_dfu_get_ota_partition_max_size (hal s) → area (hal s) [] →
  exists s', ais_run [InWrite (upd_msg id v size (dfu_crc (hal s)) flag); InWrite (check_msg id (g_ble_key s))] s = Some s' /\
    ais_state s' = AIS_STATE_REBOOT /\ ota_ready (ota s') = 1 /\ rx_size (ota s') = 0 /\ hal s' = hal s.
Proof.
  intros Hv Hs Hc Hver Hsz Har. destruct (write_upd id v size (dfu_crc (hal s)) flag s) as (s1 & E1 & R1 & X1 & Z1 & St1 & I1 & C1 & O1 & K1 & V1 & H1); try done.
  destruct (write_check id s1 St1) as (s2 & E2 & H2 & K2 & Q). exists s2. split; [rewrite (run_write _ _ _ _ E1), <- K1, (run_write _ _ _ _ E2); reflexivity|].
  rewrite H1, C1, Z.eqb_refl in Q. destruct Q as (Q1 & Q2 & Q3). rewrite Q2. repeat split; [done | exact Z1 | congruence].
Qed.
End Props.

(** ** Concrete runs *)

(** A connected device, never authenticated, with two reserved sectors and [n] erased
    bytes for the image; [fl] are the failures of the flash driver. *)
Definition dev (n : Z) (fl : list bool) : ais wflash :=
  mkAis AIS_STATE_CONNECT (Some 1) None None ota_zero (repeat 0 32) (mkHal true (repeat 255 (Z.to_nat (8192 + n))) 0 fl 0) joined1 [] [].
Abbreviation dev_run := (ais_run any_key unset4 [] (mkSha [] 0 [] 0) sample_triple 65536 (λ v : svc wflash, (true, v))).
Abbreviation dev_step := (ais_step any_key unset4 [] (mkSha [] 0 [] 0) sample_triple 65536 (λ v : svc wflash, (true, v))).
Abbreviation dev_session := (session_exec any_key unset4 [] (mkSha [] 0 [] 0) sample_triple 65536 (λ v : svc wflash, (true, v))).

Lemma dev_area n : 0 <= n < 2 ^ 30 → area (hal (dev n [])) [].
Proof.
  intros Hn. unfold area, dev. cbn [hal spi_ok faults_of ota_part]. unfold partition_length. cbn [ota_part]. rewrite repeat_length. repeat split; [lia|].
  exists (repeat 255 (Z.to_nat 8192)), (Z.to_nat n). split; [by rewrite repeat_length|]. cbn [app]. rewrite <- repeat_app. f_equal. lia.
Qed.

Lemma transfer_installs_witness : exists s', dev_run (InWrite (upd_msg 1 65537 5 (util_crc16_ccitt [1; 2; 3; 4; 5] None) 0) ::
    map InWrite (group_msgs 1 [[1; 2; 3]; [4]] ++ group_msgs 1 [[5]]) ++ [InWrite (check_msg [] 1 (repeat 0 32))]) (dev 1024 []) = Some s' /\
  area (hal s') [1; 2; 3; 4; 5] /\ ais_state s' = AIS_STATE_REBOOT.
Proof.
  destruct (transfer_installs any_key unset4 [] (mkSha [] 0 [] 0) sample_triple 65536 (λ v, (true, v)) 1 65537 (util_crc16_ccitt [1; 2; 3; 4; 5] None) 0 [[[1; 2; 3]; [4]]; [[5]]] (dev 1024 [])) as (s' & E & A & Q).
  - apply dev_area. lia.
  - lia.
  - split; [vm_compute; intros; discriminate | vm_compute; reflexivity].
  - lia.
  - split; [reflexivity | vm_compute; intros; discriminate].
  - repeat (apply Forall_cons_2; [split; [done | split; [cbn; lia | split; [repeat (apply Forall_cons_2; [split; [repeat (apply Forall_cons_2; [lia|]); apply Forall_nil_2 | cbn; lia]|]); apply Forall_nil_2 | apply Nat.leb_le; reflexivity]]]|]). apply Forall_nil_2.
  - exists s'. split; [exact E|]. split; [exact A|]. rewrite Z.eqb_refl in Q. exact (proj1 Q).
Defined.

(** The device in a transfer of [size] bytes with the announced checksum [crc]. *)
Definition dev_ota (n size crc : Z) : ais wflash :=
  on_ota (λ _, mkOta 0 0 0 0 0 0 65537 size crc 0 0 0 0 (repeat 0 OTA_RECV_BUF_SIZE)) (set_timer (Some AIS_OTA_REPORT_TIMEOUT) (set_ais_state AIS_STATE_OTA (dev n []))).

Lemma dev_receiving n size crc : 0 <= n < 2 ^ 30 → 0 <= size <= n → receiving (dev_ota n size crc) [] [].
Proof.
  intros Hn Hs. pose proof (dev_area n Hn) as A. destruct (area_max _ _ A) as [M _]. unfold partition_length in M. cbn [dev hal ota_part] in M. rewrite repeat_length in M.
  split; try done; [by left | apply Forall_nil_2 |]. change (hal (dev_ota n size crc)) with (mkHal true (repeat 255 (Z.to_nat (8192 + n))) 0 [] 0). rewrite M. change (2 * SPIF_SECTOR_SIZE) with 8192. change (rx_size _) with 0. change (image_size _) with size. lia.
Qed.

(** A frame out of order, then a group, then the check. *)
Definition some_frames : list (list Z) := [frame_msg 1 0 3 [9]; frame_msg 1 1 0 [1; 2]; frame_msg 1 1 1 [3]].
Lemma some_frames_run : exists s1 s2, dev_session some_frames (dev_ota 1024 5 (util_crc16_ccitt [1; 2; 3] None)) = Some s1 /\
  dev_step (InWrite (check_msg [] 1 (repeat 0 32))) s1 = Some s2 /\ ais_state s2 = AIS_STATE_REBOOT.
Proof.
  assert ((s1 ← dev_session some_frames (dev_ota 1024 5 (util_crc16_ccitt [1; 2; 3] None)); s2 ← dev_step (InWrite (check_msg [] 1 (repeat 0 32))) s1; Some (ais_state s2)) = Some AIS_STATE_REBOOT) as X by (vm_compute; reflexivity).
  revert X. generalize (dev_ota 1024 5 (util_crc16_ccitt [1; 2; 3] None)) as s. generalize (check_msg [] 1 (repeat 0 32)) as m. intros m s X.
  destruct (session_exec _ _ _ _ _ _ _ some_frames s) as [s1|]; [|discriminate X]. cbn [mbind option_bind] in X.
  destruct (dev_step (InWrite m) s1) as [s2|] eqn:E2; [|discriminate X]. cbn [mbind option_bind] in X. exists s1, s2. split; [done|]. split; [done | congruence].
Qed.
Lemma check_msg_bytes : all_u8 (check_msg [] 1 (repeat 0 32)).
Proof. apply byte_list_ok. vm_compute. reflexivity. Qed.

Lemma restart_only_checked_witness : exists s1 s2,
  dev_session some_frames (dev_ota 1024 5 (util_crc16_ccitt [1; 2; 3] None)) = Some s1 /\
  dev_step (InWrite (check_msg [] 1 (repeat 0 32))) s1 = Some s2 /\ ais_state s2 = AIS_STATE_REBOOT /\
  ota_ready (ota s2) = 1 /\ area (hal s2) [1; 2; 3] /\ image_crc16 (ota s2) = util_crc16_ccitt [1; 2; 3] None.
Proof.
  destruct some_frames_run as (s1 & s2 & E1 & E2 & St). exists s1, s2. split; [exact E1|]. split; [exact E2|]. split; [exact St|].
  destruct (proj2 (restart_only_checked any_key unset4 [] (mkSha [] 0 [] 0) sample_triple 65536 (λ v : svc wflash, (true, v))) (map InWrite some_frames)
    (InWrite (check_msg [] 1 (repeat 0 32))) (dev_ota 1024 5 (util_crc16_ccitt [1; 2; 3] None)) s1 s2 eq_refl (dev_receiving 1024 5 _ ltac:(lia) ltac:(lia)) eq_refl
    (session_exec_ok _ _ _ _ _ _ _ _ _ _ E1) check_msg_bytes E2 St) as (_ & Or & Ar & _ & Cr).
  change (image_size (ota (dev_ota 1024 5 (util_crc16_ccitt [1; 2; 3] None)))) with 5 in Ar, Cr. assert (accepted_groups 5 (map InWrite some_frames) = [1; 2; 3]) as Ew by (vm_compute; reflexivity). rewrite Ew in Ar, Cr.
  split; [exact Or|]. split; [exact Ar | exact (Cr ltac:(discriminate))].
Defined.

Lemma stalled_transfer_ends_witness : exists s', dev_run (repeat InTimer 11) (dev_ota 1024 5 0) = Some s' /\ ais_state s' = AIS_STATE_IDLE /\ state_update_timer s' = None.
Proof.
  apply (stalled_transfer_ends any_key unset4 [] (mkSha [] 0 [] 0) sample_triple 65536 (λ v, (true, v)) (dev_ota 1024 5 0) 1 AIS_OTA_REPORT_TIMEOUT); try reflexivity.
  cbn. lia.
Defined.

Lemma frames_in_bounds_witness : exists s', dev_step (InWrite (frame_msg 1 5 0 (repeat 7 128))) (dev_ota 1024 1000 0) = Some s' /\ in_bounds s'.
Proof.
  apply (frames_in_bounds any_key unset4 [] (mkSha [] 0 [] 0) sample_triple 65536 (λ v, (true, v)) (InWrite (frame_msg 1 5 0 (repeat 7 128)))).
  - apply sample_triple_ok.
  - unfold in_bounds, CONFIG_AIS_TOTAL_FRAME. cbn [dev_ota dev on_ota set_timer set_ais_state ota g_ble_key except_seq rx_len recv_buf]. rewrite !repeat_length. repeat split; lia.
  - cbn [short_frames]. split; [apply byte_list_ok; vm_compute; reflexivity|]. intros _. split; [apply Nat.leb_le; reflexivity | reflexivity].
Defined.

(** ** What goes wrong *)

(** With frames of 240 bytes the fourth frame of a group of six is written behind the
    end of the receive buffer, although the group is not longer than announced. *)
Theorem long_frames_overflow :
  let f sq := InWrite (frame_msg 1 5 sq (repeat 7 240)) in
  (s ← dev_run [InWrite (upd_msg 1 65537 1024 0 0); f 0; f 1; f 2] (dev 1024 []); Some (rx_len (ota s))) = Some 720%nat /\
  dev_run [InWrite (upd_msg 1 65537 1024 0 0); f 0; f 1; f 2; f 3] (dev 1024 []) = None.
Proof. vm_compute. split; reflexivity. Qed.

(** A second announcement on the same connection forgets that the flash is dirty: the
    second image is programmed over the first, its checksum (computed from RAM) is right,
    and the device restarts into bytes that are neither. *)
Theorem dirty_flash_accepted :
  (s ← dev_run [InWrite (upd_msg 1 65537 2 0 0); InWrite (frame_msg 1 0 0 [1; 2]);
     InWrite (upd_msg 1 65537 2 (util_crc16_ccitt [4; 6] None) 0); InWrite (frame_msg 1 0 0 [4; 6]); InWrite (check_msg [] 1 (repeat 0 32))] (dev 64 []);
   Some (ais_state s, rd 8192 2 (ota_part (hal s)))) = Some (AIS_STATE_REBOOT, [0; 2]).
Proof. vm_compute. reflexivity. Qed.

(** A failing write of the flash is not noticed by the check, and the mutex of the flash
    stays locked. *)
Theorem lost_write_accepted :
  (s ← dev_run [InWrite (upd_msg 1 65537 2 (util_crc16_ccitt [4; 6] None) 0); InWrite (frame_msg 1 0 0 [4; 6]); InWrite (check_msg [] 1 (repeat 0 32))] (dev 64 [true]);
   Some (ais_state s, rd 8192 2 (ota_part (hal s)), mutex (hal s))) = Some (AIS_STATE_REBOOT, [255; 255], 1%nat).
Proof. vm_compute. reflexivity. Qed.

(** A write of less than a header is read behind its end. *)
Theorem short_message_overread m : (0 < length m < 4)%nat → dev_step (InWrite m) (dev 64 []) = None.
Proof. intros L. destruct m as [|? [|? [|? [|? ?]]]]; cbn [length] in L; try lia; reflexivity. Qed.
