(* ===== verification/Prov.v ===== *)
(** * Prov: the provisioning protocol of the device (bt_mesh/src/prov.c)

    A provisioner opens a link over advertisements (PB-ADV) or a GATT connection, and the
    two sides exchange capabilities, public keys, confirmations, randoms and the encrypted
    provisioning data.  Below the messages, PB-ADV has transactions of up to three segments
    with acknowledgments and retransmission.

    The state [pst] holds [slink], the acknowledgment that is being sent, the receive
    buffer (the first client of proxy.c), the authentication value of genie_crypto.c, the
    host's side, and the transport state of [MeshTrans], from whose pool the advertising
    buffers are taken.  What the code calls outwards is logged in [plog].  The host computes
    the shared secret and the public key, which arrive as inputs ([IDhKey], [IPubKey]).  Input and output OOB are
    compiled out, so WAIT_NUMBER and WAIT_STRING are never set.  [None] is a null pointer or
    an access outside of a buffer. *)
From Stdlib Require Import ZArith Lia List Bool.
From stdpp Require Import base list numbers option.
From S2P Require Import Prelude Env Aes Cmac Storage Sha256 GenieCrypto MeshCrypto MeshNet MeshTrans Access.
Local Open Scope Z_scope.

(** ** Constants *)

Definition AUTH_METHOD_STATIC : Z := 1.
Definition PROV_ERR_NVAL_PDU : Z := 1.
Definition PROV_ERR_NVAL_FMT : Z := 2.
Definition PROV_ERR_UNEXP_PDU : Z := 3.
Definition PROV_ERR_CFM_FAILED : Z := 4.
Definition PROV_ERR_RESOURCES : Z := 5.
Definition PROV_ERR_DECRYPT : Z := 6.
Definition PROV_ERR_UNEXP_ERR : Z := 7.
Definition PROV_INVITE : Z := 0.
Definition PROV_CAPABILITIES : Z := 1.
Definition PROV_START : Z := 2.
Definition PROV_PUB_KEY : Z := 3.
Definition PROV_INPUT_COMPLETE : Z := 4.
Definition PROV_CONFIRM : Z := 5.
Definition PROV_RANDOM : Z := 6.
Definition PROV_DATA : Z := 7.
Definition PROV_COMPLETE : Z := 8.
Definition PROV_FAILED : Z := 9.
Definition PROV_ALG_P256 : Z := 0.
Definition GPCF (gpc : Z) : Z := Z.land gpc 3.
Definition GPC_START (last_seg : Z) : Z := Z.shiftl last_seg 2.
Definition GPC_ACK : Z := 1.
Definition GPC_CONT (seg_id : Z) : Z := Z.lor (Z.shiftl seg_id 2) 2.
Definition GPC_CTL (op : Z) : Z := Z.lor (Z.shiftl op 2) 3.
Definition START_PAYLOAD_MAX : nat := 20.
Definition CONT_PAYLOAD_MAX : nat := 23.
Definition LINK_OPEN : Z := 0.
Definition LINK_ACK : Z := 1.
Definition LINK_CLOSE : Z := 2.
Definition CLOSE_REASON_FAILED : Z := 2.
Definition XACT_NVAL : Z := 255.
Definition TRANSACTION_TIMEOUT : Z := 30 * 1000.
Definition PROV_BUF_HEADROOM : nat := 5.
Definition CLIENT_BUF_SIZE : nat := 68.
Definition ENOTCONN : Z := 57.
(** The callbacks of advertising buffers: [buf_sent_cb] and the [cb] of [gen_prov_ack_send]. *)
Definition buf_sent_cb : send_cb := UserCb 1.
Definition ack_cb : send_cb := UserCb 2.
Definition STATIC_OOB_LENGTH : nat := 16.

(** ** State *)

Record prov_link := mkLink {
  REMOTE_PUB_KEY : bool; LOCAL_PUB_KEY : bool; LINK_ACTIVE : bool; HAVE_DHKEY : bool; SEND_CONFIRM : bool;
  l_conn : option Z; dhkey : list Z; expect : Z;
  l_conf : list Z; l_rand : list Z; l_auth : list Z; conf_salt : list Z; conf_key : list Z; conf_inputs : list Z; prov_salt : list Z;
  l_id : Z; rx_id : Z; prev_id : Z; rx_seg : Z; rx_last_seg : Z; rx_fcs : Z; rx_buf : bool;
  tx_start : Z; tx_id : Z; tx_buf : list (option nat); retransmit : bool }.

Definition link_zero : prov_link :=
  mkLink false false false false false None (zeros 32) 0 (zeros 16) (zeros 16) (zeros 16) (zeros 16) (zeros 16) (zeros 145) (zeros 16)
    0 0 0 0 0 0 false 0 0 [None; None; None] false.

(** [struct bt_mesh_prov] and the number of elements.  [static_val] is the buffer of
    genie_crypto.c, [static_val_len] is STATIC_OOB_LENGTH (genie_mesh_init). *)
Record bt_mesh_prov := mkProv {
  prov_uuid : list Z; public_key_type : Z; output_size : Z; output_actions : Z; input_size : Z; input_actions : Z;
  has_link_open : bool; has_link_close : bool; elem_count : Z }.

(** What the code calls. *)
Inductive pevent :=
| PvGatt (conn : Z) (msg : list Z)                                 (* bt_mesh_proxy_send *)
| PvAttention (time : Z) | PvLinkOpen (gatt : bool) | PvLinkClose (gatt : bool) | PvUnref (conn : Z)
| PvStarted | PvProvData (addr : Z)                                (* genie_event *)
| PvDhKeyGen (remote_pk : list Z)
| PvProvision (net_key : list Z) (net_idx flags iv_index addr : Z) (dev_key : list Z). (* bt_mesh_provision *)

(** The host: its public key, whether a shared secret is being computed; the results of
    the coming GATT sends and of the coming requests (0 when the list is empty), and the
    coming random numbers (an error when the list is empty). *)
Record host := mkHost { pub_key : option (list Z); dh_key_cb : bool; gatt_rcs : list Z; dh_rcs : list Z; rands : list (list Z) }.

Record pst := mkPst {
  slink : prov_link; pending_ack : Z; client_len : Z; client_buf : list Z; g_auth : list Z; hst : host; tr : trans; plog : list pevent }.

Definition on_link (f : prov_link → prov_link) (s : pst) : pst := mkPst (f (slink s)) (pending_ack s) (client_len s) (client_buf s) (g_auth s) (hst s) (tr s) (plog s).
Definition on_tr (f : trans → trans) (s : pst) : pst := mkPst (slink s) (pending_ack s) (client_len s) (client_buf s) (g_auth s) (hst s) (f (tr s)) (plog s).
Definition set_pending (v : Z) (s : pst) : pst := mkPst (slink s) v (client_len s) (client_buf s) (g_auth s) (hst s) (tr s) (plog s).
Definition set_client (n : Z) (b : list Z) (s : pst) : pst := mkPst (slink s) (pending_ack s) n b (g_auth s) (hst s) (tr s) (plog s).
Definition set_g_auth (a : list Z) (s : pst) : pst := mkPst (slink s) (pending_ack s) (client_len s) (client_buf s) a (hst s) (tr s) (plog s).
Definition set_hst (h : host) (s : pst) : pst := mkPst (slink s) (pending_ack s) (client_len s) (client_buf s) (g_auth s) h (tr s) (plog s).
Definition plogged (e : pevent) (s : pst) : pst := mkPst (slink s) (pending_ack s) (client_len s) (client_buf s) (g_auth s) (hst s) (tr s) (plog s ++ [e]).

Definition bt_mesh_pub_key_get (s : pst) : option (list Z) := pub_key (hst s).
(** [bt_dh_key_gen]: one request at a time. *)
Definition bt_mesh_dh_key_gen (remote_pk : list Z) (s : pst) : Z * pst :=
  let h := hst s in
  if dh_key_cb h then (- EBUSY, s) else
  match pub_key h with
  | None => (- EADDRNOTAVAIL, s)
  | Some _ =>
    match dh_rcs h with
    | r :: l => if truthy r then (r, set_hst (mkHost (pub_key h) false (gatt_rcs h) l (rands h)) s)
                else (0, plogged (PvDhKeyGen remote_pk) (set_hst (mkHost (pub_key h) true (gatt_rcs h) l (rands h)) s))
    | [] => (0, plogged (PvDhKeyGen remote_pk) (set_hst (mkHost (pub_key h) true (gatt_rcs h) [] (rands h)) s))
    end
  end.
Definition bt_mesh_rand (s : pst) : option (list Z) * pst :=
  let h := hst s in
  match rands h with
  | [] => (None, s)
  | r :: l => (Some r, set_hst (mkHost (pub_key h) (dh_key_cb h) (gatt_rcs h) (dh_rcs h) l) s)
  end.
(** A message that is sent is in the log; one that is refused is not. *)
Definition bt_mesh_proxy_send (conn : Z) (msg : list Z) (s : pst) : Z * pst :=
  let h := hst s in
  match gatt_rcs h with
  | [] => (0, plogged (PvGatt conn msg) s)
  | r :: l => (r, (if truthy r then id else plogged (PvGatt conn msg)) (set_hst (mkHost (pub_key h) (dh_key_cb h) l (dh_rcs h) (rands h)) s))
  end.

Definition set_flags (r lo a h c : bool) (l : prov_link) : prov_link :=
  mkLink r lo a h c (l_conn l) (dhkey l) (expect l) (l_conf l) (l_rand l) (l_auth l) (conf_salt l) (conf_key l) (conf_inputs l) (prov_salt l) (l_id l) (rx_id l) (prev_id l) (rx_seg l) (rx_last_seg l) (rx_fcs l) (rx_buf l) (tx_start l) (tx_id l) (tx_buf l) (retransmit l).
Definition set_active (v : bool) (l : prov_link) : prov_link := set_flags (REMOTE_PUB_KEY l) (LOCAL_PUB_KEY l) v (HAVE_DHKEY l) (SEND_CONFIRM l) l.
Definition set_local (v : bool) (l : prov_link) : prov_link := set_flags (REMOTE_PUB_KEY l) v (LINK_ACTIVE l) (HAVE_DHKEY l) (SEND_CONFIRM l) l.
Definition set_remote (v : bool) (l : prov_link) : prov_link := set_flags v (LOCAL_PUB_KEY l) (LINK_ACTIVE l) (HAVE_DHKEY l) (SEND_CONFIRM l) l.
Definition set_have_dh (v : bool) (l : prov_link) : prov_link := set_flags (REMOTE_PUB_KEY l) (LOCAL_PUB_KEY l) (LINK_ACTIVE l) v (SEND_CONFIRM l) l.
Definition set_send_confirm (v : bool) (l : prov_link) : prov_link := set_flags (REMOTE_PUB_KEY l) (LOCAL_PUB_KEY l) (LINK_ACTIVE l) (HAVE_DHKEY l) v l.
Definition set_keys (d c r a cs ck ci ps : list Z) (l : prov_link) : prov_link :=
  mkLink (REMOTE_PUB_KEY l) (LOCAL_PUB_KEY l) (LINK_ACTIVE l) (HAVE_DHKEY l) (SEND_CONFIRM l) (l_conn l) d (expect l) c r a cs ck ci ps (l_id l) (rx_id l) (prev_id l) (rx_seg l) (rx_last_seg l) (rx_fcs l) (rx_buf l) (tx_start l) (tx_id l) (tx_buf l) (retransmit l).
Definition set_dhkey (d : list Z) (l : prov_link) : prov_link := set_keys d (l_conf l) (l_rand l) (l_auth l) (conf_salt l) (conf_key l) (conf_inputs l) (prov_salt l) l.
Definition set_conf (c : list Z) (l : prov_link) : prov_link := set_keys (dhkey l) c (l_rand l) (l_auth l) (conf_salt l) (conf_key l) (conf_inputs l) (prov_salt l) l.
Definition set_rand (r : list Z) (l : prov_link) : prov_link := set_keys (dhkey l) (l_conf l) r (l_auth l) (conf_salt l) (conf_key l) (conf_inputs l) (prov_salt l) l.
Definition set_auth (a : list Z) (l : prov_link) : prov_link := set_keys (dhkey l) (l_conf l) (l_rand l) a (conf_salt l) (conf_key l) (conf_inputs l) (prov_salt l) l.
Definition set_conf_salt (x : list Z) (l : prov_link) : prov_link := set_keys (dhkey l) (l_conf l) (l_rand l) (l_auth l) x (conf_key l) (conf_inputs l) (prov_salt l) l.
Definition set_conf_key (x : list Z) (l : prov_link) : prov_link := set_keys (dhkey l) (l_conf l) (l_rand l) (l_auth l) (conf_salt l) x (conf_inputs l) (prov_salt l) l.
Definition set_inputs (x : list Z) (l : prov_link) : prov_link := set_keys (dhkey l) (l_conf l) (l_rand l) (l_auth l) (conf_salt l) (conf_key l) x (prov_salt l) l.
Definition set_prov_salt (x : list Z) (l : prov_link) : prov_link := set_keys (dhkey l) (l_conf l) (l_rand l) (l_auth l) (conf_salt l) (conf_key l) (conf_inputs l) x l.
Definition set_expect (e : Z) (l : prov_link) : prov_link :=
  mkLink (REMOTE_PUB_KEY l) (LOCAL_PUB_KEY l) (LINK_ACTIVE l) (HAVE_DHKEY l) (SEND_CONFIRM l) (l_conn l) (dhkey l) e (l_conf l) (l_rand l) (l_auth l) (conf_salt l) (conf_key l) (conf_inputs l) (prov_salt l) (l_id l) (rx_id l) (prev_id l) (rx_seg l) (rx_last_seg l) (rx_fcs l) (rx_buf l) (tx_start l) (tx_id l) (tx_buf l) (retransmit l).
Definition set_link_conn (c : option Z) (l : prov_link) : prov_link :=
  mkLink (REMOTE_PUB_KEY l) (LOCAL_PUB_KEY l) (LINK_ACTIVE l) (HAVE_DHKEY l) (SEND_CONFIRM l) c (dhkey l) (expect l) (l_conf l) (l_rand l) (l_auth l) (conf_salt l) (conf_key l) (conf_inputs l) (prov_salt l) (l_id l) (rx_id l) (prev_id l) (rx_seg l) (rx_last_seg l) (rx_fcs l) (rx_buf l) (tx_start l) (tx_id l) (tx_buf l) (retransmit l).
Definition set_rxs (i id p sg ls f : Z) (b : bool) (l : prov_link) : prov_link :=
  mkLink (REMOTE_PUB_KEY l) (LOCAL_PUB_KEY l) (LINK_ACTIVE l) (HAVE_DHKEY l) (SEND_CONFIRM l) (l_conn l) (dhkey l) (expect l) (l_conf l) (l_rand l) (l_auth l) (conf_salt l) (conf_key l) (conf_inputs l) (prov_salt l) i id p sg ls f b (tx_start l) (tx_id l) (tx_buf l) (retransmit l).
Definition set_tx (st i : Z) (b : list (option nat)) (r : bool) (l : prov_link) : prov_link :=
  mkLink (REMOTE_PUB_KEY l) (LOCAL_PUB_KEY l) (LINK_ACTIVE l) (HAVE_DHKEY l) (SEND_CONFIRM l) (l_conn l) (dhkey l) (expect l) (l_conf l) (l_rand l) (l_auth l) (conf_salt l) (conf_key l) (conf_inputs l) (prov_salt l) (l_id l) (rx_id l) (prev_id l) (rx_seg l) (rx_last_seg l) (rx_fcs l) (rx_buf l) st i b r.
Definition set_tx_buf (b : list (option nat)) (l : prov_link) : prov_link := set_tx (tx_start l) (tx_id l) b (retransmit l) l.
Definition set_tx_id (i : Z) (l : prov_link) : prov_link := set_tx (tx_start l) i (tx_buf l) (retransmit l) l.
Definition set_tx_start (t : Z) (l : prov_link) : prov_link := set_tx t (tx_id l) (tx_buf l) (retransmit l) l.
Definition set_retransmit (b : bool) (l : prov_link) : prov_link := set_tx (tx_start l) (tx_id l) (tx_buf l) b l.
Definition set_link_id (i : Z) (l : prov_link) : prov_link := set_rxs i (rx_id l) (prev_id l) (rx_seg l) (rx_last_seg l) (rx_fcs l) (rx_buf l) l.
Definition set_rx_ids (id p : Z) (l : prov_link) : prov_link := set_rxs (l_id l) id p (rx_seg l) (rx_last_seg l) (rx_fcs l) (rx_buf l) l.
Definition set_rx_seg (sg ls : Z) (l : prov_link) : prov_link := set_rxs (l_id l) (rx_id l) (prev_id l) sg ls (rx_fcs l) (rx_buf l) l.
Definition set_rx_fcs (f : Z) (l : prov_link) : prov_link := set_rxs (l_id l) (rx_id l) (prev_id l) (rx_seg l) (rx_last_seg l) f (rx_buf l) l.
Definition set_rx_buf (b : bool) (l : prov_link) : prov_link := set_rxs (l_id l) (rx_id l) (prev_id l) (rx_seg l) (rx_last_seg l) (rx_fcs l) b l.

Section Prov.
Variables (ctx0 : tc_sha256_state_struct) (t : genie_triple_t) (prov : bt_mesh_prov).

(** ** PB-ADV, sending *)

Definition has_tx (s : pst) : bool := match tx_buf (slink s) with Some _ :: _ => true | _ => false end.
Definition buf_sent (s : pst) : pst := if has_tx s then on_link (set_retransmit true) s else s.

(** The loop over [slink.tx.buf], [n] entries from [i] on. *)
Fixpoint free_segments_from (n i : nat) (s : pst) : pst :=
  match n with
  | O => s
  | S n =>
    match tx_buf (slink s) !! i with
    | Some (Some b) =>
      let s := on_link (λ l, set_tx_buf (<[i := None]> (tx_buf l)) l) s in
      let s := on_tr (on_buf b (λ b, mkBuf (ab_ref b) (ab_data b) (ab_attempts b) false (ab_cb b))) s in
      free_segments_from n (S i) (on_tr (net_buf_unref b) s)
    | _ => s
    end
  end.
Definition free_segments : pst → pst := free_segments_from 3 0.
Definition prov_clear_tx (s : pst) : pst := free_segments (on_link (set_retransmit false) s).

Definition bt_mesh_proxy_get_buf (s : pst) : pst := set_client 0 (client_buf s) s.

(** The link is cleared before conf_inputs[0] is tested. *)
Definition reset_link (s : pst) : pst :=
  let s := prov_clear_tx s in
  let s := if has_link_close prov then plogged (PvLinkClose false) s else s in
  let s := on_link (λ l, set_retransmit (retransmit l) link_zero) s in
  let s := on_link (λ l, set_rx_ids (rx_id l) XACT_NVAL l) s in
  let s := match bt_mesh_pub_key_get s with Some _ => on_link (set_local true) s | None => s end in
  let s := on_link (set_rx_buf true) (bt_mesh_proxy_get_buf s) in
  if truthy (nth 0 (conf_inputs (slink s)) 0) then plogged (PvAttention 0) s else s.
Definition bt_mesh_prov_reset_link (s : pst) : pst := if LINK_ACTIVE (slink s) then reset_link s else s.

Definition adv_buf_create (s : pst) : option (nat * pst) :=
  match bt_mesh_adv_create (tr s) with None => None | Some (b, t) => Some (b, on_tr (λ _, t) s) end.
Definition ack_complete (s : pst) : pst := set_pending XACT_NVAL s.

Definition gen_prov_ack_send (xact_id : Z) (s : pst) : pst :=
  if pending_ack s =? xact_id then s else
  match adv_buf_create s with
  | None => s
  | Some (b, s) =>
    let '(complete, s) := if pending_ack s =? XACT_NVAL then (ack_cb, set_pending xact_id s) else (NoCb, s) in
    let s := on_tr (buf_put b (be32 (l_id (slink s)) ++ [xact_id; GPC_ACK])) s in
    on_tr (net_buf_unref b) (on_tr (bt_mesh_adv_send b complete) s)
  end.

(** The last segment has the callback that starts the timer of the retransmission. *)
Definition seg_cb (i : nat) (s : pst) : send_cb :=
  match tx_buf (slink s) !! S i with Some (Some _) => NoCb | _ => buf_sent_cb end.
(** The loop of [send_reliable], and with [skip_busy] the one of [prov_retransmit]. *)
Fixpoint send_segments (skip_busy : bool) (n i : nat) (s : pst) : pst :=
  match n with
  | O => s
  | S n =>
    match tx_buf (slink s) !! i with
    | Some (Some b) =>
      let busy := match pool (tr s) !! b with Some p => ab_busy p | None => false end in
      send_segments skip_busy n (S i) (if skip_busy && busy then s else on_tr (bt_mesh_adv_send b (seg_cb i s)) s)
    | _ => s
    end
  end.
Definition k_uptime_get (s : pst) : Z := now (tc (tr s)).
Definition send_reliable (s : pst) : pst := send_segments false 3 0 (on_link (set_tx_start (k_uptime_get s)) s).

Definition bearer_ctl_send (op : Z) (data : list Z) (s : pst) : Z * pst :=
  let s := prov_clear_tx s in
  match adv_buf_create s with
  | None => (- ENOBUFS, s)
  | Some (b, s) =>
    let s := on_tr (buf_put b (be32 (l_id (slink s)) ++ [0; GPC_CTL op] ++ data)) s in
    (0, send_reliable (on_link (λ l, set_tx_buf (<[0%nat := Some b]> (tx_buf l)) l) s))
  end.

Definition last_seg (len : nat) : nat := if Nat.leb len START_PAYLOAD_MAX then 0 else 1 + (len - START_PAYLOAD_MAX) / CONT_PAYLOAD_MAX.
Definition next_transaction_id (s : pst) : Z * pst :=
  let i := tx_id (slink s) in
  let i := if truthy i && negb (i =? 255) then u8 (i + 1) else 128 in
  (i, on_link (set_tx_id i) s).

(** The loop over the continuation segments: the message that is left from [seg_id] on. *)
Fixpoint send_conts (fuel : nat) (xact_id : Z) (seg_id : nat) (msg : list Z) (s : pst) : Z * pst :=
  match msg, fuel with
  | [], _ => (0, send_reliable s)
  | _, O => (0, s)
  | _, S fuel =>
    if Nat.leb 3 seg_id then (- E2BIG, free_segments s) else
    match adv_buf_create s with
    | None => (- ENOBUFS, free_segments s)
    | Some (b, s) =>
      let s := on_link (λ l, set_tx_buf (<[seg_id := Some b]> (tx_buf l)) l) s in
      let s := on_tr (buf_put b (be32 (l_id (slink s)) ++ [xact_id; GPC_CONT (Z.of_nat seg_id)] ++ take CONT_PAYLOAD_MAX msg)) s in
      send_conts fuel xact_id (S seg_id) (drop CONT_PAYLOAD_MAX msg) s
    end
  end.
Definition start_pdu (id xact_id : Z) (msg : list Z) : list Z :=
  be32 id ++ [xact_id; GPC_START (Z.of_nat (last_seg (length msg)))] ++ be16 (Z.of_nat (length msg)) ++ [bt_mesh_fcs_calc msg] ++ take START_PAYLOAD_MAX msg.
Definition prov_send_adv (msg : list Z) (s : pst) : Z * pst :=
  let s := prov_clear_tx s in
  match adv_buf_create s with
  | None => (- ENOBUFS, s)
  | Some (b, s) =>
    let '(xact_id, s) := next_transaction_id s in
    let s := on_tr (buf_put b (start_pdu (l_id (slink s)) xact_id msg)) s in
    let s := on_link (λ l, set_tx_buf (<[0%nat := Some b]> (tx_buf l)) l) s in
    send_conts 4 xact_id 1 (drop START_PAYLOAD_MAX msg) s
  end.

Definition prov_send_gatt (msg : list Z) (s : pst) : Z * pst :=
  match l_conn (slink s) with None => (- ENOTCONN, s) | Some c => bt_mesh_proxy_send c msg s end.
Definition prov_send (msg : list Z) (s : pst) : Z * pst :=
  match l_conn (slink s) with Some _ => prov_send_gatt msg s | None => prov_send_adv msg s end.
Definition prov_send_fail_msg (err : Z) (s : pst) : pst := snd (prov_send [PROV_FAILED; err] s).

(** ** Closing *)

Definition bt_mesh_pb_gatt_close (conn : Z) (s : pst) : Z * pst :=
  if negb (bool_decide (l_conn (slink s) = Some conn)) then (- ENOTCONN, s) else
  let s := if truthy (nth 0 (conf_inputs (slink s)) 0) then plogged (PvAttention 0) s else s in
  let s := if has_link_close prov then plogged (PvLinkClose true) s else s in
  let s := plogged (PvUnref conn) s in
  let pub_key := LOCAL_PUB_KEY (slink s) in
  (0, on_link (λ _, if pub_key then set_local true link_zero else link_zero) s).

Definition close_link (err reason : Z) (s : pst) : pst :=
  match l_conn (slink s) with
  | Some c => snd (bt_mesh_pb_gatt_close c s)
  | None =>
    let s := if truthy err then prov_send_fail_msg err s else s in
    let s := on_link (λ l, set_rx_seg 0 (rx_last_seg l) l) s in
    let s := snd (bearer_ctl_send LINK_CLOSE [reason] s) in
    let s := on_link (set_active false) s in
    if truthy (nth 0 (conf_inputs (slink s)) 0) then plogged (PvAttention 0) s else s
  end.

(** ** The messages *)

Definition on_inputs (off : nat) (d : list Z) : pst → pst := on_link (λ l, set_inputs (store_at off d (conf_inputs l)) l).
Definition expecting (e : Z) : pst → pst := on_link (set_expect e).

Definition prov_invite (data : list Z) (s : pst) : pst :=
  let d := nth 0 data 0 in
  let s := if truthy d then plogged (PvAttention d) s else s in
  let s := on_inputs 0 [d] s in
  let caps := [u8 (elem_count prov)] ++ be16 (Z.shiftl 1 PROV_ALG_P256) ++ [public_key_type prov; 1; output_size prov] ++ be16 (output_actions prov) ++
              [input_size prov] ++ be16 (input_actions prov) in
  let s := on_inputs 1 caps s in
  let '(rc, s) := prov_send (PROV_CAPABILITIES :: caps) s in
  if truthy rc then close_link PROV_ERR_RESOURCES CLOSE_REASON_FAILED s else
  let s := expecting PROV_START s in
  match l_conn (slink s) with Some _ => plogged PvStarted s | None => s end.

(** Only the static method; [slink.auth] is the buffer of genie_crypto.c. *)
Definition prov_auth (method action size : Z) (s : pst) : Z * pst :=
  if method =? AUTH_METHOD_STATIC then
    if truthy action || truthy size then (- EINVAL, s) else (0, on_link (set_auth (take STATIC_OOB_LENGTH (g_auth s))) s)
  else (- EINVAL, s).

Definition prov_start (data : list Z) (s : pst) : pst :=
  if negb (nth 0 data 0 =? PROV_ALG_P256) then expecting PROV_FAILED (prov_send_fail_msg PROV_ERR_NVAL_FMT s) else
  if negb (nth 1 data 0 =? public_key_type prov) then expecting PROV_FAILED (prov_send_fail_msg PROV_ERR_NVAL_FMT s) else
  let s := expecting PROV_PUB_KEY (on_inputs 12 (take 5 data) s) in
  let '(rc, s) := prov_auth (nth 2 data 0) (nth 3 data 0) (nth 4 data 0) s in
  if rc <? 0 then prov_send_fail_msg PROV_ERR_NVAL_FMT s else s.

(** [slink.auth] becomes the authentication value of the random number. *)
Definition load_auth (random : list Z) (s : pst) : option pst :=
  a ← genie_crypto_get_auth ctx0 t random (g_auth s);
  Some (on_link (set_auth (take STATIC_OOB_LENGTH a)) (set_g_auth a s)).

(** The buffer of an outgoing message, [PROV_BUF(len)]: the array has 5 + len bytes and is aligned
    to 4, so that the compiler gives it a multiple of 4.  The assertions of net_buf are compiled
    out: a longer message is written behind the array, inside what the alignment adds or beyond
    it.  The other messages have exactly the length of their buffer. *)
Definition PROV_BUF (len : nat) : nat := 4 * ((PROV_BUF_HEADROOM + len + 3) / 4).
Definition prov_buf (len : nat) (msg : list Z) : option (list Z) :=
  if Nat.leb (PROV_BUF_HEADROOM + length msg) (PROV_BUF len) then Some msg else None.

Definition unexpected (s : pst) : pst := close_link PROV_ERR_UNEXP_ERR CLOSE_REASON_FAILED s.

Definition send_confirm (s : pst) : option pst :=
  match bt_mesh_prov_conf_salt (conf_inputs (slink s)) with
  | inl _ => Some (unexpected s)
  | inr salt =>
    let s := on_link (set_conf_salt salt) s in
    match bt_mesh_prov_conf_key (dhkey (slink s)) (conf_salt (slink s)) with
    | inl _ => Some (unexpected s)
    | inr key =>
      let s := on_link (set_conf_key key) s in
      match bt_mesh_rand s with
      | (None, s) => Some (unexpected s)
      | (Some r, s) =>
        s ← load_auth r (on_link (set_rand r) s);
        match bt_mesh_prov_conf (conf_key (slink s)) (l_rand (slink s)) (l_auth (slink s)) with
        | inl _ => Some (unexpected s)
        | inr cfm =>
          buf ← prov_buf 17 (PROV_CONFIRM :: cfm);
          let '(rc, s) := prov_send buf s in
          Some (if truthy rc then close_link PROV_ERR_RESOURCES CLOSE_REASON_FAILED s else expecting PROV_RANDOM s)
        end
      end
    end
  end.

(** The host calls back once per request; no key when it failed. *)
Definition prov_dh_key_cb (key : option (list Z)) (s : pst) : option pst :=
  match key with
  | None => Some (unexpected s)
  | Some k =>
    let s := on_link (set_have_dh true) (on_link (set_dhkey (reverse (take 32 k))) s) in
    if SEND_CONFIRM (slink s) then send_confirm (on_link (set_send_confirm false) s) else Some s
  end.

(** The halves of a key, each reversed. *)
Definition swap_halves (k : list Z) : list Z := reverse (take 32 k) ++ reverse (take 32 (drop 32 k)).

Definition send_pub_key (s : pst) : pst :=
  match bt_mesh_pub_key_get s with
  | None => close_link PROV_ERR_RESOURCES CLOSE_REASON_FAILED s
  | Some key =>
    let s := on_inputs 81 (swap_halves key) s in
    let s := snd (prov_send (PROV_PUB_KEY :: swap_halves key) s) in
    let '(rc, s) := bt_mesh_dh_key_gen (swap_halves (take 64 (drop 17 (conf_inputs (slink s))))) s in
    if truthy rc then unexpected s else expecting PROV_CONFIRM s
  end.

Definition prov_pub_key (data : list Z) (s : pst) : pst :=
  let s := on_inputs 17 (take 64 data) s in
  if negb (LOCAL_PUB_KEY (slink s)) then on_link (set_remote true) (prov_clear_tx s) else send_pub_key s.

Definition pub_key_ready (pkey : bool) (s : pst) : pst :=
  if negb pkey then s else
  let s := on_link (set_local true) s in
  if REMOTE_PUB_KEY (slink s) then send_pub_key (on_link (set_remote false) s) else s.

Definition prov_confirm (data : list Z) (s : pst) : option pst :=
  let s := on_link (set_conf (take 16 data)) s in
  if negb (HAVE_DHKEY (slink s)) then Some (on_link (set_send_confirm true) (prov_clear_tx s)) else send_confirm s.

Definition prov_random (data : list Z) (s : pst) : option pst :=
  s ← load_auth data s;
  match bt_mesh_prov_conf (conf_key (slink s)) (take 16 data) (l_auth (slink s)) with
  | inl _ => Some (unexpected s)
  | inr conf_verify =>
    if negb (bool_decide (conf_verify = l_conf (slink s))) then Some (expecting PROV_FAILED (prov_send_fail_msg PROV_ERR_CFM_FAILED s)) else
    buf ← prov_buf 16 (PROV_RANDOM :: l_rand (slink s));
    let '(rc, s) := prov_send buf s in
    if truthy rc then Some (close_link PROV_ERR_RESOURCES CLOSE_REASON_FAILED s) else
    match bt_mesh_prov_salt (conf_salt (slink s)) (take 16 data) (l_rand (slink s)) with
    | inl _ => Some (unexpected s)
    | inr salt => Some (expecting PROV_DATA (on_link (set_prov_salt salt) s))
    end
  end.

Definition prov_data (data : list Z) (s : pst) : pst :=
  let l := slink s in
  match bt_mesh_session_key (dhkey l) (prov_salt l) with
  | inl _ => unexpected s
  | inr session_key =>
    match bt_mesh_prov_nonce (dhkey l) (prov_salt l) with
    | inl _ => unexpected s
    | inr nonce =>
      let '(err, pdu) := bt_mesh_prov_decrypt session_key nonce (take 33 data) in
      if truthy err then expecting PROV_FAILED (prov_send_fail_msg PROV_ERR_DECRYPT s) else
      match bt_mesh_dev_key (dhkey l) (prov_salt l) with
      | inl _ => unexpected s
      | inr dev_key =>
        let net_idx := get_be16 (nth 16 pdu 0) (nth 17 pdu 0) in
        let flags := nth 18 pdu 0 in
        let iv_index := Z.lor (Z.shiftl (nth 19 pdu 0) 24) (Z.lor (Z.shiftl (nth 20 pdu 0) 16) (get_be16 (nth 21 pdu 0) (nth 22 pdu 0))) in
        let addr := get_be16 (nth 23 pdu 0) (nth 24 pdu 0) in
        let s := plogged (PvProvData addr) s in
        let s := snd (prov_send [PROV_COMPLETE] s) in
        let s := expecting 0 s in
        plogged (PvProvision (take 16 pdu) net_idx flags iv_index addr dev_key) s
      end
    end
  end.

(** Capabilities, input complete, complete and failed only log. *)
Definition prov_ignored (data : list Z) (s : pst) : pst := s.

Definition pure_handler (f : list Z → pst → pst) (data : list Z) (s : pst) : option pst := Some (f data s).
Definition prov_handlers : list ((list Z → pst → option pst) * nat) :=
  [(pure_handler prov_invite, 1%nat); (pure_handler prov_ignored, 11%nat); (pure_handler prov_start, 5%nat); (pure_handler prov_pub_key, 64%nat);
   (pure_handler prov_ignored, 0%nat); (prov_confirm, 16%nat); (prov_random, 16%nat); (pure_handler prov_data, 33%nat);
   (pure_handler prov_ignored, 0%nat); (pure_handler prov_ignored, 1%nat)].

(** ** PB-ADV, receiving *)

Definition prov_retransmit (s : pst) : pst :=
  let s := on_link (set_retransmit false) s in
  if negb (LINK_ACTIVE (slink s)) then s else
  if TRANSACTION_TIMEOUT <? k_uptime_get s - tx_start (slink s) then reset_link s else
  send_segments true 3 0 s.

Record prov_rx := mkRx { link_id : Z; xact_id : Z; gpc : Z }.

Definition link_open (rx : prov_rx) (buf : list Z) (s : pst) : option pst :=
  if Nat.ltb (length buf) 16 then Some s else
  if LINK_ACTIVE (slink s) then Some s else
  if negb (bool_decide (take 16 buf = prov_uuid prov)) then Some s else
  let s := if has_link_open prov then plogged (PvLinkOpen false) s else s in
  let s := on_link (set_active true) (on_link (set_link_id (link_id rx)) s) in
  if negb (rx_buf (slink s)) then None else
  let s := set_client 0 (client_buf s) s in
  let s := snd (bearer_ctl_send LINK_ACK [] s) in
  Some (expecting PROV_INVITE (plogged PvStarted s)).

Definition gen_prov_ctl (rx : prov_rx) (buf : list Z) (s : pst) : option pst :=
  let op := Z.shiftr (gpc rx) 2 in
  if op =? LINK_OPEN then link_open rx buf s else
  if op =? LINK_CLOSE then Some (if LINK_ACTIVE (slink s) then reset_link s else s) else Some s.

Definition rx_data (s : pst) : list Z := take (Z.to_nat (client_len s)) (client_buf s).

Definition prov_msg_recv (s : pst) : option pst :=
  if negb (rx_buf (slink s)) then None else
  let type := nth 0 (client_buf s) 0 in
  if negb (bt_mesh_fcs_check (rx_data s) (rx_fcs (slink s))) then Some s else
  let s := gen_prov_ack_send (rx_id (slink s)) s in
  let s := on_link (λ l, set_rx_ids 0 (rx_id l) l) s in
  if negb (type =? PROV_FAILED) && negb (type =? expect (slink s)) then Some (expecting PROV_FAILED (prov_send_fail_msg PROV_ERR_UNEXP_PDU s)) else
  match prov_handlers !! Z.to_nat type with
  | None => Some (close_link PROV_ERR_NVAL_PDU CLOSE_REASON_FAILED s)
  | Some (func, len) =>
    if negb (1 + Z.of_nat len =? client_len s) then Some (close_link PROV_ERR_NVAL_FMT CLOSE_REASON_FAILED s) else
    func (drop 1 (rx_data s)) s
  end.

(** memcpy into the receive buffer. *)
Definition rx_write (off : Z) (d : list Z) (s : pst) : option pst :=
  match d with
  | [] => Some s
  | _ => if (0 <=? off) && (off + Z.of_nat (length d) <=? Z.of_nat CLIENT_BUF_SIZE) then Some (set_client (client_len s) (store_at (Z.to_nat off) d (client_buf s)) s) else None
  end.
Definition XACT_SEG_RECV (seg : Z) (l : prov_link) : prov_link := set_rx_seg (u8 (Z.land (rx_seg l) (Z.lnot (Z.shiftl 1 seg)))) (rx_last_seg l) l.

Definition gen_prov_cont (rx : prov_rx) (buf : list Z) (s : pst) : option pst :=
  let seg := Z.shiftr (gpc rx) 2 in
  let l := slink s in
  if negb (truthy (rx_seg l)) && (prev_id l =? xact_id rx) then Some (gen_prov_ack_send (xact_id rx) s) else
  if negb (xact_id rx =? rx_id l) then Some s else
  if rx_last_seg l <? seg then Some (close_link PROV_ERR_NVAL_FMT CLOSE_REASON_FAILED s) else
  if (seg =? rx_last_seg l) && negb (u8 (client_len s - 20 - 23 * (rx_last_seg l - 1)) =? Z.of_nat (length buf)) then
    Some (close_link PROV_ERR_NVAL_FMT CLOSE_REASON_FAILED s) else
  if negb (truthy (Z.land (rx_seg l) (Z.shiftl 1 seg))) then Some s else
  if negb (rx_buf l) then None else
  s ← rx_write (20 + (seg - 1) * 23) buf s;
  let s := on_link (XACT_SEG_RECV seg) s in
  if negb (truthy (rx_seg (slink s))) then prov_msg_recv s else Some s.

Definition gen_prov_ack (rx : prov_rx) (buf : list Z) (s : pst) : option pst :=
  Some (if negb (has_tx s) then s else if xact_id rx =? tx_id (slink s) then prov_clear_tx s else s).

Definition gen_prov_start (rx : prov_rx) (buf : list Z) (s : pst) : option pst :=
  let l := slink s in
  if truthy (rx_seg l) then Some s else
  if prev_id l =? xact_id rx then Some (gen_prov_ack_send (xact_id rx) s) else
  if negb (rx_buf l) then None else
  let len := get_be16 (nth 0 buf 0) (nth 1 buf 0) in
  let s := set_client len (client_buf s) s in
  let s := on_link (λ l, set_rx_fcs (nth 2 buf 0) (set_rx_ids (xact_id rx) (prev_id l) l)) s in
  let buf := drop 3 buf in
  if len <? 1 then Some (close_link PROV_ERR_NVAL_FMT CLOSE_REASON_FAILED s) else
  if Z.of_nat CLIENT_BUF_SIZE <? len then Some (close_link PROV_ERR_NVAL_FMT CLOSE_REASON_FAILED s) else
  let last := Z.shiftr (gpc rx) 2 in
  if (0 <? last) && (len <=? 20) then Some (close_link PROV_ERR_NVAL_FMT CLOSE_REASON_FAILED s) else
  let s := on_link (set_rx_seg (u8 (Z.shiftl 1 (last + 1) - 1)) last) s in
  s ← rx_write 0 buf s;
  let s := on_link (XACT_SEG_RECV 0) s in
  if negb (truthy (rx_seg (slink s))) then prov_msg_recv s else Some s.

(** The function, whether it needs a link, its shortest message. *)
Definition gen_prov : list ((prov_rx → list Z → pst → option pst) * bool * nat) :=
  [(gen_prov_start, true, 3%nat); (gen_prov_ack, true, 0%nat); (gen_prov_cont, true, 0%nat); (gen_prov_ctl, false, 0%nat)].
Definition gen_prov_recv (rx : prov_rx) (buf : list Z) (s : pst) : option pst :=
  '(func, require_link, min_len) ← gen_prov !! Z.to_nat (GPCF (gpc rx));
  if Nat.ltb (length buf) min_len then Some s else
  if negb (LINK_ACTIVE (slink s)) && require_link then Some s else func rx buf s.

Definition bt_prov_active (s : pst) : bool := LINK_ACTIVE (slink s).
Definition get_be32 (l : list Z) : Z := Z.lor (Z.shiftl (nth 0 l 0) 24) (Z.lor (Z.shiftl (nth 1 l 0) 16) (get_be16 (nth 2 l 0) (nth 3 l 0))).
Definition bt_mesh_pb_adv_recv (is_provisioned : bool) (buf : list Z) (s : pst) : option pst :=
  if negb (bt_prov_active s) && is_provisioned then Some s else
  if Nat.ltb (length buf) 6 then Some s else
  let rx := mkRx (get_be32 buf) (nth 4 buf 0) (nth 5 buf 0) in
  if LINK_ACTIVE (slink s) && negb (l_id (slink s) =? link_id rx) then Some s else
  gen_prov_recv rx (drop 6 buf) s.

(** ** PB-GATT *)

Definition bt_mesh_pb_gatt_recv (conn : Z) (buf : list Z) (s : pst) : option (Z * pst) :=
  if negb (bool_decide (l_conn (slink s) = Some conn)) then Some (- ENOTCONN, s) else
  match buf with
  | [] => Some (- EINVAL, s)
  | type :: buf =>
    if negb (type =? PROV_FAILED) && negb (type =? expect (slink s)) then Some (- EINVAL, s) else
    match prov_handlers !! Z.to_nat type with
    | None => Some (- EINVAL, s)
    | Some (func, len) =>
      if negb (Nat.eqb len (length buf)) then Some (- EINVAL, s) else s ← func buf s; Some (0, s)
    end
  end.

Definition bt_mesh_pb_gatt_open (conn : Z) (s : pst) : Z * pst :=
  if LINK_ACTIVE (slink s) then (- EBUSY, s) else
  let s := on_link (set_active true) s in
  let s := expecting PROV_INVITE (on_link (set_link_conn (Some conn)) s) in
  (0, if has_link_open prov then plogged (PvLinkOpen true) s else s).

(** [key_err]: the result of the host's request for a public key. *)
Definition bt_mesh_prov_init (key_err : Z) (s : pst) : Z * pst :=
  if truthy key_err then (key_err, s) else
  let s := on_link (set_retransmit false) s in
  let s := on_link (λ l, set_rx_ids (rx_id l) XACT_NVAL l) s in
  (0, on_link (set_rx_buf true) (bt_mesh_proxy_get_buf s)).

(** ** The inputs of the component *)

(** The advertising thread sends the next buffer and calls its callbacks. *)
Definition adv_sent (s : pst) : pst :=
  let cb := match adv_queue (tr s) with
            | [] => NoCb
            | i :: _ => match pool (tr s) !! i with Some b => if ab_busy b then ab_cb b else NoCb | None => NoCb end
            end in
  let s := on_tr (λ t, snd (adv_thread t)) s in
  match cb with UserCb 1 => buf_sent s | UserCb 2 => ack_complete s | _ => s end.

Inductive pinput :=
| IAdv (is_provisioned : bool) (pdu : list Z)
| IGattOpen (conn : Z) | IGattRecv (conn : Z) (msg : list Z) | IGattClose (conn : Z)
| IDhKey (key : option (list Z)) | IPubKey (key : option (list Z))
| ITimer | IAdvSent | IResetLink | ITime (d : Z).

Definition pstep (i : pinput) (s : pst) : option pst :=
  let h := hst s in
  match i with
  | IAdv p pdu => bt_mesh_pb_adv_recv p pdu s
  | IGattOpen c => Some (snd (bt_mesh_pb_gatt_open c s))
  | IGattRecv c m => '(_, s) ← bt_mesh_pb_gatt_recv c m s; Some s
  | IGattClose c => Some (snd (bt_mesh_pb_gatt_close c s))
  | IDhKey k => if dh_key_cb h then prov_dh_key_cb k (set_hst (mkHost (pub_key h) false (gatt_rcs h) (dh_rcs h) (rands h)) s) else Some s
  | IPubKey k => Some (pub_key_ready (match k with Some _ => true | None => false end)
                         (match k with Some _ => set_hst (mkHost k (dh_key_cb h) (gatt_rcs h) (dh_rcs h) (rands h)) s | None => s end))
  | ITimer => Some (if retransmit (slink s) then prov_retransmit s else s)
  | IAdvSent => Some (adv_sent s)
  | IResetLink => Some (bt_mesh_prov_reset_link s)
  | ITime d => Some (on_tr (λ t, mkTrans (mkCfg (app_keys (tc t)) (dev_key (tc t)) (labels (tc t)) (groups (tc t)) (proxy_takes (tc t)) (default_ttl (tc t)) (hb_sub_dst (tc t)) (now (tc t) + d) (mic0 (tc t)))
        (tn t) (pool t) (adv_queue t) (local_queue t) (txs t) (rxs t) (rpl_index t) (pending_update t) (last_update t) (tlog t)) s)
  end.

Fixpoint pruns (l : list pinput) (s : pst) : option pst :=
  match l with [] => Some s | i :: l => s ← pstep i s; pruns l s end.

End Prov.
