(* ===== verification/ProvProps.v ===== *)
(** * ProvProps: what provisioning guarantees

    [provisioned_only_verified]: whatever arrives in whatever order, the device takes
    provisioning data only after a peer proved that it knows the device's secret.
    [honest_provisioning]: a provisioner that follows the protocol over GATT provisions the
    device, with the keys both sides compute.  [pb_adv_roundtrip]: what one side sends over
    PB-ADV the other side receives.  The last part has the cases in which the code does
    something else than it means to. *)
From Stdlib Require Import ZArith Lia List Bool String.
From stdpp Require Import base list numbers option.
From S2P Require Import Prelude Env Aes Cmac Storage Sha256 GenieCrypto MeshCrypto MeshCryptoProps MeshNet MeshNetProps MeshTrans Prov.
Local Open Scope Z_scope.

(** ** The computations of the protocol *)

Definition k1_ref (n salt p : list Z) : list Z := cmac_ref (cmac_ref salt n) p.
Definition conf_salt_ref (inputs : list Z) : list Z := cmac_ref (zeros 16) inputs.
Definition conf_key_ref (dh salt : list Z) : list Z := k1_ref dh salt (cstr "prck").
Definition prov_salt_ref (csalt provisioner device : list Z) : list Z := cmac_ref (zeros 16) (csalt ++ provisioner ++ device).
(** The first half of the SHA-256 of "pid,mac,secret,random". *)
Definition auth_ref (t : genie_triple_t) (random : list Z) : list Z := take 16 (sha256 (triple_text t ++ comma ++ hextostring random)).
Definition confirmation (t : genie_triple_t) (ckey random : list Z) : list Z := cmac_ref ckey (random ++ auth_ref t random).

Lemma cmac1_ref k m : cmac1 k m = inr (cmac_ref k m).
Proof. unfold cmac1, lift. by rewrite cmac_one. Qed.
Lemma k1_eq n salt p : bt_mesh_k1 n salt p = inr (k1_ref n salt p).
Proof. unfold bt_mesh_k1. rewrite cmac1_ref. cbn [rbind]. apply cmac1_ref. Qed.
Lemma conf_salt_eq i : bt_mesh_prov_conf_salt i = inr (conf_salt_ref i).
Proof. apply cmac1_ref. Qed.
Lemma conf_key_eq dh salt : bt_mesh_prov_conf_key dh salt = inr (conf_key_ref dh salt).
Proof. apply k1_eq. Qed.
Lemma cmac_length key m : length (cmac_ref key m) = 16%nat.
Proof. unfold cmac_ref. destruct (split_last _ _). apply encrypt_block_length, key_schedule_length. Qed.
Lemma conf_salt_length i : length (conf_salt_ref i) = 16%nat.
Proof. apply cmac_length. Qed.
Lemma confirmation_length t k r : length (confirmation t k r) = 16%nat.
Proof. apply cmac_length. Qed.
#[local] Opaque cmac_ref.
Lemma lift_ok {A} (a : A) : lift (0, a) = inr a.
Proof. done. Qed.
Lemma joined_app a b : joined (Some a :: b) = a ++ joined b.
Proof. done. Qed.

Lemma conf_eq t ckey r a : length r = 16%nat → a = auth_ref t r → bt_mesh_prov_conf ckey r a = inr (confirmation t ckey r).
Proof.
  intros L ->. unfold bt_mesh_prov_conf, confirmation. rewrite cmac_joined; [by rewrite lift_ok, !joined_app; unfold joined; cbn [map concat]; rewrite app_nil_r | | change MAX_CALLS with 281474976710656; cbn [length]; lia].
  cbn [pieces_ok default from_option id]. unfold piece_ok. rewrite L. done.
Qed.
Lemma prov_salt_eq c p d : length c = 16%nat → length p = 16%nat → bt_mesh_prov_salt c p d = inr (prov_salt_ref c p d).
Proof.
  intros L L'. unfold bt_mesh_prov_salt, prov_salt_ref. rewrite cmac_joined; [by rewrite lift_ok, !joined_app; unfold joined; cbn [map concat]; rewrite app_nil_r | | change MAX_CALLS with 281474976710656; cbn [length]; lia].
  cbn [pieces_ok default from_option id]. unfold piece_ok. rewrite L, L'. done.
Qed.

(** ** Sending changes the sender's side of the link only *)

(** An event other than the end of provisioning. *)
Definition quiet (e : pevent) : Prop := match e with PvProvision _ _ _ _ _ _ => False | _ => True end.
Definition logs (s s' : pst) : Prop := exists es, plog s' = plog s ++ es /\ Forall quiet es.

Record sending (s s' : pst) : Prop := {
  snd_link : exists st i b r, slink s' = set_tx st i b r (slink s);
  snd_len : client_len s' = client_len s; snd_buf : client_buf s' = client_buf s; snd_auth : g_auth s' = g_auth s;
  snd_key : pub_key (hst s') = pub_key (hst s); snd_dh : dh_key_cb (hst s') = dh_key_cb (hst s); snd_rand : rands (hst s') = rands (hst s);
  snd_log : logs s s' }.

Lemma logs_same s s' : plog s' = plog s → logs s s'.
Proof. exists []. by rewrite app_nil_r. Qed.
Lemma logs_trans a b c : logs a b → logs b c → logs a c.
Proof. intros (x & E & F) (y & E' & F'). exists (x ++ y). rewrite E', E, app_assoc. split; [done|]. by apply Forall_app_2. Qed.
Lemma set_tx_same l : l = set_tx (tx_start l) (tx_id l) (tx_buf l) (retransmit l) l.
Proof. by destruct l. Qed.
Lemma sending_refl s : sending s s.
Proof. split; try done; [repeat eexists; apply set_tx_same | by apply logs_same]. Qed.
Lemma sending_trans a b c : sending a b → sending b c → sending a c.
Proof.
  intros [(st & i & t & r & L) ? ? ? ? ? ? G] [(st' & i' & t' & r' & L') ? ? ? ? ? ? G']. split; try congruence; [|by eapply logs_trans].
  exists st', i', t', r'. rewrite L', L. done.
Qed.
#[export] Instance sending_preorder : PreOrder sending := { PreOrder_Reflexive := sending_refl; PreOrder_Transitive := sending_trans }.

Lemma sending_tr f s : sending s (on_tr f s).
Proof. split; try done; [repeat eexists; apply set_tx_same | by apply logs_same]. Qed.
Lemma sending_pending v s : sending s (set_pending v s).
Proof. split; try done; [repeat eexists; apply set_tx_same | by apply logs_same]. Qed.
Lemma sending_tx_buf f s : sending s (on_link (λ l, set_tx_buf (f l) l) s).
Proof. split; try done; [unfold set_tx_buf; repeat eexists | by apply logs_same]. Qed.
Lemma sending_retransmit b s : sending s (on_link (set_retransmit b) s).
Proof. split; try done; [unfold set_retransmit; repeat eexists | by apply logs_same]. Qed.
Lemma sending_tx_start b s : sending s (on_link (set_tx_start b) s).
Proof. split; try done; [unfold set_tx_start; repeat eexists | by apply logs_same]. Qed.
Lemma sending_tx_id b s : sending s (on_link (set_tx_id b) s).
Proof. split; try done; [unfold set_tx_id; repeat eexists | by apply logs_same]. Qed.
Lemma sending_plogged e s : quiet e → sending s (plogged e s).
Proof. intros Q. split; try done; [repeat eexists; apply set_tx_same | exists [e]; split; [done | by repeat constructor]]. Qed.
Create HintDb prov.
#[export] Hint Resolve sending_refl sending_tr sending_pending sending_tx_buf sending_retransmit sending_tx_start sending_tx_id sending_plogged : prov.
#[export] Hint Extern 1 (quiet _) => exact Logic.I : prov.
Ltac snd_by L := etransitivity; [|apply L].

Lemma sending_free n : forall i s, sending s (free_segments_from n i s).
Proof.
  induction n as [|n IH]; intros i s; [done|]. cbn. destruct (tx_buf (slink s) !! i) as [[b|]|]; try done.
  snd_by IH. do 2 snd_by sending_tr. apply sending_tx_buf.
Qed.
Lemma sending_clear s : sending s (prov_clear_tx s).
Proof. unfold prov_clear_tx, free_segments. snd_by sending_free. apply sending_retransmit. Qed.
Lemma sending_create s b s' : adv_buf_create s = Some (b, s') → sending s s'.
Proof. unfold adv_buf_create. destruct (bt_mesh_adv_create _) as [[? ?]|]; [|done]. intros [= <- <-]. apply sending_tr. Qed.
Lemma sending_segments sk n : forall i s, sending s (send_segments sk n i s).
Proof.
  induction n as [|n IH]; intros i s; [done|]. cbn. destruct (tx_buf (slink s) !! i) as [[b|]|]; try done.
  snd_by IH. destruct (sk && _); [done | apply sending_tr].
Qed.
Lemma sending_reliable s : sending s (send_reliable s).
Proof. unfold send_reliable. snd_by sending_segments. apply sending_tx_start. Qed.
Lemma sending_ack x s : sending s (gen_prov_ack_send x s).
Proof.
  unfold gen_prov_ack_send. destruct (_ =? x); [done|]. destruct (adv_buf_create s) as [[b s1]|] eqn:E; [|done]. apply sending_create in E. etransitivity; [apply E|].
  destruct (_ =? _); do 3 snd_by sending_tr; [apply sending_pending | done].
Qed.
Lemma sending_ctl op d s : sending s (snd (bearer_ctl_send op d s)).
Proof.
  unfold bearer_ctl_send. etransitivity; [apply (sending_clear s)|]. destruct (adv_buf_create _) as [[b s1]|] eqn:E; [|done]. apply sending_create in E. etransitivity; [apply E|].
  snd_by sending_reliable. snd_by sending_tx_buf. apply sending_tr.
Qed.
Lemma sending_conts n x : forall i m s, sending s (snd (send_conts n x i m s)).
Proof.
  induction n as [|n IH]; intros i [|z m] s; try done; try apply sending_reliable. cbn [send_conts]. destruct (Nat.leb 3 i); [apply sending_free|].
  destruct (adv_buf_create _) as [[b s1]|] eqn:E; [|apply sending_free]. apply sending_create in E. etransitivity; [apply E|].
  snd_by IH. snd_by sending_tr. apply sending_tx_buf.
Qed.
Lemma sending_send_adv m s : sending s (snd (prov_send_adv m s)).
Proof.
  unfold prov_send_adv. etransitivity; [apply (sending_clear s)|]. destruct (adv_buf_create _) as [[b s1]|] eqn:E; [|done]. apply sending_create in E. etransitivity; [apply E|].
  unfold next_transaction_id. cbv zeta beta iota. snd_by sending_conts. snd_by sending_tx_buf. snd_by sending_tr. apply sending_tx_id.
Qed.
Lemma sending_proxy c m s : sending s (snd (bt_mesh_proxy_send c m s)).
Proof.
  unfold bt_mesh_proxy_send. destruct (gatt_rcs (hst s)) as [|r l]; [by apply sending_plogged|]. cbn [snd]. destruct (truthy r); unfold id.
  - split; try done; [repeat eexists; apply set_tx_same | by apply logs_same].
  - split; try done; [repeat eexists; apply set_tx_same | exists [PvGatt c m]; split; [done | by repeat constructor]].
Qed.
Lemma sending_send m s : sending s (snd (prov_send m s)).
Proof. unfold prov_send, prov_send_gatt. destruct (l_conn (slink s)); [apply sending_proxy | apply sending_send_adv]. Qed.
Lemma sending_fail e s : sending s (prov_send_fail_msg e s).
Proof. apply sending_send. Qed.
#[export] Hint Resolve sending_clear sending_ack sending_ctl sending_send sending_fail : prov.

(** ** Only a peer that knows the secret provisions the device *)

Section Safety.
Variables (ctx0 : tc_sha256_state_struct) (t : genie_triple_t) (prov : bt_mesh_prov).
(** The shared secrets the host has delivered and the messages that have come in, in order. *)
Variables (ks ms : list (list Z)).
(** The message of the step at hand, the last one. *)
Variable cur : list (list Z).
Hypothesis Hcur : exists old, ms = old ++ cur.

(** The confirmation key comes from the inputs and a shared secret of the host. *)
Definition keyed (l : prov_link) : Prop := exists dh inputs, dh ∈ ks /\ conf_salt l = conf_salt_ref inputs /\ conf_key l = conf_key_ref dh (conf_salt l).
(** The confirmation came in before the random number it is the confirmation of, which takes the
    secret of the device; the session is bound to both random numbers. *)
Definition verified (l : prov_link) : Prop := exists r m1 m2 m3, length r = 16%nat /\ ms = m1 ++ (PROV_CONFIRM :: l_conf l) :: m2 ++ (PROV_RANDOM :: r) :: m3 /\
  l_conf l = confirmation t (conf_key l) r /\ prov_salt l = prov_salt_ref (conf_salt l) r (l_rand l).

Definition session_key (l : prov_link) : list Z := k1_ref (dhkey l) (prov_salt l) (cstr "prsk").
Definition session_nonce (l : prov_link) : list Z := take 13 (drop 3 (k1_ref (dhkey l) (prov_salt l) (cstr "prsn"))).
Definition device_key (l : prov_link) : list Z := k1_ref (dhkey l) (prov_salt l) (cstr "prdk").

(** The data a peer provisions the device with: key, index, flags, IV index, address. *)
Definition prov_pdu (nk : list Z) (idx fl iv ad : Z) (pdu : list Z) : Prop :=
  nk = take 16 pdu /\ idx = get_be16 (nth 16 pdu 0) (nth 17 pdu 0) /\ fl = nth 18 pdu 0 /\
  iv = Z.lor (Z.shiftl (nth 19 pdu 0) 24) (Z.lor (Z.shiftl (nth 20 pdu 0) 16) (get_be16 (nth 21 pdu 0) (nth 22 pdu 0))) /\ ad = get_be16 (nth 23 pdu 0) (nth 24 pdu 0).

(** A provisioning that a link may end in. *)
Definition authentic (l : prov_link) (e : pevent) : Prop :=
  match e with
  | PvProvision nk idx fl iv ad dk =>
    keyed l /\ verified l /\ dhkey l ∈ ks /\ dk = device_key l /\ exists data pdu, cur = [PROV_DATA :: data] /\ length data = 33%nat /\ bt_mesh_prov_decrypt (session_key l) (session_nonce l) data = (0, pdu) /\ prov_pdu nk idx fl iv ad pdu
  | _ => True
  end.
Definition evs (l : prov_link) (s s' : pst) : Prop := exists es, plog s' = plog s ++ es /\ Forall (authentic l) es.

Definition random_ok (r : list Z) : Prop := length r = 16%nat /\ all_u8 r.

Record inv (s : pst) : Prop := {
  i_auth : length (g_auth s) = 32%nat;
  i_buf : all_u8 (client_buf s) /\ length (client_buf s) = CLIENT_BUF_SIZE;
  i_rx : rx_seg (slink s) = 0 \/ 0 <= client_len s <= 68;
  i_flags : SEND_CONFIRM (slink s) = true → HAVE_DHKEY (slink s) = false;
  i_dh : HAVE_DHKEY (slink s) = true → dhkey (slink s) ∈ ks;
  i_conf : SEND_CONFIRM (slink s) = true \/ expect (slink s) = PROV_RANDOM → PROV_CONFIRM :: l_conf (slink s) ∈ ms;
  i_keyed : expect (slink s) = PROV_RANDOM \/ expect (slink s) = PROV_DATA → HAVE_DHKEY (slink s) = true /\ keyed (slink s);
  i_verified : expect (slink s) = PROV_DATA → verified (slink s);
  i_rands : Forall random_ok (rands (hst s)) }.

Definition core (l : prov_link) := (HAVE_DHKEY l, SEND_CONFIRM l, expect l, l_conf l, l_rand l, conf_salt l, conf_key l, prov_salt l, dhkey l).

Lemma inv_core s s' : inv s → core (slink s') = core (slink s) → g_auth s' = g_auth s → client_buf s' = client_buf s → client_len s' = client_len s →
  rands (hst s') = rands (hst s) → rx_seg (slink s') = rx_seg (slink s) \/ rx_seg (slink s') = 0 → inv s'.
Proof.
  intros I C A B L H R. unfold core in C. injection C as E1 E2 E3 E4 E5 E6 E7 E8 E9. destruct I as [? ? R' F D Cf K V W].
  split; unfold keyed, verified in *; rewrite ?A, ?B, ?L, ?H, ?E1, ?E2, ?E3, ?E4, ?E5, ?E6, ?E7, ?E8, ?E9 in *; try done.
  destruct R as [-> | ->]; [done | by left].
Qed.
Lemma inv_sending s s' : sending s s' → inv s → inv s'.
Proof. intros [(a & b & c & d & L)] I. apply (inv_core s); try done; rewrite L; [done | by left]. Qed.

(** Without a session: nothing to verify. *)
Lemma inv_idle s : length (g_auth s) = 32%nat → all_u8 (client_buf s) /\ length (client_buf s) = CLIENT_BUF_SIZE → rx_seg (slink s) = 0 →
  SEND_CONFIRM (slink s) = false → HAVE_DHKEY (slink s) = false → expect (slink s) = 0 → Forall random_ok (rands (hst s)) → inv s.
Proof. intros A B R F D E W. split; rewrite ?F, ?E, ?D; try done; [by left | by intros [?|?]..]. Qed.

Lemma inv_expecting e s : inv s → e ≠ PROV_RANDOM → e ≠ PROV_DATA → inv (expecting e s).
Proof. intros [? ? ? ? ? Cf ? ? ?] N N'. split; try done; [intros [F|?]; [apply Cf; by left | done] | by intros [?|?]]. Qed.

Lemma logs_evs l s s' : logs s s' → evs l s s'.
Proof. intros (es & E & F). exists es. split; [done|]. clear E. induction F as [|e es Q F IH]; constructor; [by destruct e | done]. Qed.
Lemma evs_trans l a b c : evs l a b → evs l b c → evs l a c.
Proof. intros (x & E & F) (y & E' & F'). exists (x ++ y). rewrite E', E, app_assoc. split; [done | by apply Forall_app_2]. Qed.

Lemma quiet_sending s s1 s' : sending s s1 → (inv s1 → inv s' /\ logs s1 s') → inv s → inv s' /\ logs s s'.
Proof. intros S H I. destruct (H (inv_sending _ _ S I)) as [I' L]. split; [done|]. eapply logs_trans; [apply S | done]. Qed.

(** The parts of the state the invariant does not speak about. *)
Ltac inv_same := match goal with I : inv ?s |- inv _ => apply (inv_core s); [exact I | reflexivity | reflexivity | reflexivity | reflexivity | reflexivity | first [left; reflexivity | right; reflexivity]] end.

Lemma gatt_close_inv c s : inv s → inv (snd (bt_mesh_pb_gatt_close prov c s)) /\ logs s (snd (bt_mesh_pb_gatt_close prov c s)).
Proof.
  intros I. unfold bt_mesh_pb_gatt_close. destruct (negb _); [split; [done | by apply logs_same]|]. cbn [snd].
  set (s1 := if truthy _ then _ else s). assert (sending s s1) as S1 by (subst s1; destruct (truthy _); auto with prov).
  set (s2 := if has_link_close prov then _ else s1). assert (sending s1 s2) as S2 by (subst s2; destruct (has_link_close prov); auto with prov).
  pose proof (sending_plogged (PvUnref c) s2 Logic.I) as S3. pose proof (sending_trans _ _ _ S1 (sending_trans _ _ _ S2 S3)) as S. clearbody s2. clear S1 S2 S3 s1.
  destruct (inv_sending _ _ S I) as [? ? ? ? ? ? ? ? ?]. split; [|apply S]. destruct (LOCAL_PUB_KEY _); by apply inv_idle.
Qed.

Lemma adv_close_inv r s : inv s → let s3 := on_link (set_active false) (snd (bearer_ctl_send LINK_CLOSE [r] s)) in
  let s4 := if truthy (nth 0 (conf_inputs (slink s3)) 0) then plogged (PvAttention 0) s3 else s3 in inv s4 /\ logs s s4.
Proof.
  cbv zeta. apply (quiet_sending s _ _ (sending_ctl LINK_CLOSE [r] s)). generalize (snd (bearer_ctl_send LINK_CLOSE [r] s)). clear. intros s I.
  destruct (truthy _); (split; [inv_same|]); [exists [PvAttention 0]; split; [done | by repeat constructor] | by apply logs_same].
Qed.
Lemma close_inv e r s : inv s → inv (close_link prov e r s) /\ logs s (close_link prov e r s).
Proof.
  intros I. unfold close_link. destruct (l_conn (slink s)) as [c|]; [by apply gatt_close_inv|].
  set (s1 := if truthy e then _ else s). assert (sending s s1) as S1 by (subst s1; destruct (truthy e); auto with prov).
  revert I. apply (quiet_sending s s1 _ S1). clearbody s1. clear S1 s. intros I.
  set (s2 := on_link _ s1). assert (inv s2) as I2 by inv_same. assert (logs s1 s2) as L2 by by apply logs_same.
  destruct (adv_close_inv r s2 I2) as [I4 L4]. split; [exact I4 | exact (logs_trans _ _ _ L2 L4)].
Qed.

Definition good (s s' : pst) : Prop := inv s' /\ logs s s'.
Lemma good_refl s : inv s → good s s.
Proof. split; [done | by apply logs_same]. Qed.
Lemma good_trans a b c : good a b → (inv b → good b c) → good a c.
Proof. intros [I L] H. destruct (H I) as [I' L']. split; [done | by eapply logs_trans]. Qed.
Lemma good_sending s s' : inv s → sending s s' → good s s'.
Proof. intros I S. split; [by eapply inv_sending | apply S]. Qed.
Lemma good_send m s rc s' : inv s → prov_send m s = (rc, s') → good s s'.
Proof. intros I E. apply good_sending; [done|]. replace s' with (snd (prov_send m s)) by (by rewrite E). apply sending_send. Qed.
Lemma good_expecting e s : inv s → e ≠ PROV_RANDOM → e ≠ PROV_DATA → good s (expecting e s).
Proof. intros I N N'. split; [by apply inv_expecting | by apply logs_same]. Qed.
(** Any change the invariant does not speak about. *)
Lemma good_core s s' : inv s → core (slink s') = core (slink s) → g_auth s' = g_auth s → client_buf s' = client_buf s → client_len s' = client_len s →
  rands (hst s') = rands (hst s) → rx_seg (slink s') = rx_seg (slink s) \/ rx_seg (slink s') = 0 → plog s' = plog s → good s s'.
Proof. intros. split; [by eapply inv_core | by apply logs_same]. Qed.
Ltac good_same := apply good_core; [assumption | reflexivity.. | left; reflexivity | reflexivity].
Ltac then_same := eapply good_trans; [good_same | intros ?].
Lemma good_close e r s : inv s → good s (close_link prov e r s).
Proof. apply close_inv. Qed.
Lemma good_fail e s : inv s → good s (expecting PROV_FAILED (prov_send_fail_msg e s)).
Proof. intros I. eapply good_trans; [by apply good_sending, sending_fail|]. intros I'. by apply good_expecting. Qed.

Lemma good_reset s : inv s → good s (reset_link prov s).
Proof.
  intros I. unfold reset_link. eapply good_trans; [apply (good_sending s); [done | apply sending_clear]|]. generalize (prov_clear_tx s). clear. intros s [A B ? ? ? ? ? ? ?].
  destruct (has_link_close prov), (bt_mesh_pub_key_get _); (split; [by apply inv_idle|]); first [by apply logs_same | exists [PvLinkClose false]; split; [done | by repeat constructor]].
Qed.

Lemma good_invite data s : inv s → good s (prov_invite prov data s).
Proof.
  intros I. unfold prov_invite. set (s1 := if truthy _ then _ else s). eapply (good_trans _ s1); [apply good_sending; [done|]; subst s1; destruct (truthy _); auto with prov|].
  clearbody s1. intros I1. set (caps := _ ++ _). eapply good_trans; [|intros I2].
  { apply (good_core s1 (on_inputs 1 caps (on_inputs 0 [nth 0 data 0] s1))); try done. by left. }
  destruct (prov_send _ _) as [rc s2] eqn:E. eapply good_trans; [by eapply good_send|]. intros I3. destruct (truthy rc); [by apply good_close|].
  eapply good_trans; [by apply (good_expecting PROV_START)|]. intros I4. destruct (l_conn _); [|by apply good_refl]. apply good_sending; [done | auto with prov].
Qed.

Lemma good_start data s : inv s → good s (prov_start prov data s).
Proof.
  intros I. unfold prov_start. do 2 (destruct (negb _); [by apply good_fail|]).
  eapply (good_trans _ (on_inputs 12 (take 5 data) s)); [good_same|]. intros I1. eapply good_trans; [by apply (good_expecting PROV_PUB_KEY)|]. intros I2.
  unfold prov_auth. destruct (_ =? _); [destruct (_ || _)|]; cbn [Z.ltb]; try (apply good_sending; [done | apply sending_fail]). good_same.
Qed.

Lemma good_dh_key_gen pk s : inv s → good s (snd (bt_mesh_dh_key_gen pk s)).
Proof.
  intros I. unfold bt_mesh_dh_key_gen. destruct (dh_key_cb _); [by apply good_refl|]. destruct (pub_key _); [|by apply good_refl].
  destruct (dh_rcs _) as [|r rs]; [|destruct (truthy r)]; cbn [snd]; try good_same;
    (split; [inv_same | eexists; split; [reflexivity | by repeat constructor]]).
Qed.

Lemma good_send_pub_key s : inv s → good s (send_pub_key prov s).
Proof.
  intros I. unfold send_pub_key. destruct (bt_mesh_pub_key_get s) as [k|]; [|by apply good_close]. cbv zeta.
  eapply (good_trans _ (on_inputs 81 (swap_halves k) s)); [good_same|]. intros I1.
  eapply good_trans; [apply good_sending; [done | apply sending_send]|]. intros I2. 
  match goal with |- context [bt_mesh_dh_key_gen ?p ?s] => pose proof (good_dh_key_gen p s I2) as G; destruct (bt_mesh_dh_key_gen p s) as [rc s3] end.
  eapply good_trans; [exact G|]. intros I3. destruct (truthy rc); [by apply good_close | by apply good_expecting].
Qed.

Lemma good_pub_key data s : inv s → good s (prov_pub_key prov data s).
Proof.
  intros I. unfold prov_pub_key. eapply (good_trans _ (on_inputs 17 (take 64 data) s)); [good_same|]. intros I1. destruct (negb _); [|by apply good_send_pub_key].
  eapply good_trans; [apply good_sending; [done | apply sending_clear]|]. intros I2. good_same.
Qed.
Lemma good_pub_key_ready b s : inv s → good s (pub_key_ready prov b s).
Proof.
  intros I. unfold pub_key_ready. destruct (negb b); [by apply good_refl|]. eapply (good_trans _ (on_link (set_local true) s)); [good_same|]. intros I1.
  destruct (REMOTE_PUB_KEY _); [|by apply good_refl]. eapply (good_trans _ (on_link (set_remote false) _)); [good_same|]. apply good_send_pub_key.
Qed.

(** *** The messages with cryptography *)

Hypothesis Ht : triple_ok t.

Definition with_auth (r : list Z) (s : pst) : pst := on_link (set_auth (auth_ref t r)) (set_g_auth (sha256 (triple_text t ++ comma ++ hextostring r)) s).
Lemma load_auth_eq r s : random_ok r → length (g_auth s) = 32%nat → load_auth ctx0 t r s = Some (with_auth r s).
Proof. intros [L U] G. unfold load_auth. by rewrite auth_value. Qed.
Lemma digest_length m : length (sha256 m) = 32%nat.
Proof.
  unfold sha256. fold (absorb (length (fips_pad m) / 64) (fips_pad m)). pose proof (absorb_length (length (fips_pad m) / 64) (fips_pad m)) as L.
  destruct (absorb _ _) as [|? [|? [|? [|? [|? [|? [|? [|? [|? ?]]]]]]]]]; done.
Qed.
#[local] Opaque sha256 conf_key_ref conf_salt_ref confirmation prov_salt_ref auth_ref.
Lemma inv_with_auth r s : inv s → inv (with_auth r s).
Proof. intros [? ? ? ? ? ? K V ?]. split; try done. apply digest_length. Qed.

(** Before the confirmation is sent the session may change. *)
Definition early (s : pst) : Prop := expect (slink s) ≠ PROV_RANDOM /\ expect (slink s) ≠ PROV_DATA.
Lemma inv_early s s' : inv s → early s' → length (g_auth s') = 32%nat → client_buf s' = client_buf s → client_len s' = client_len s → rx_seg (slink s') = rx_seg (slink s) →
  (SEND_CONFIRM (slink s') = true → HAVE_DHKEY (slink s') = false /\ PROV_CONFIRM :: l_conf (slink s') ∈ ms) → (HAVE_DHKEY (slink s') = true → dhkey (slink s') ∈ ks) →
  Forall random_ok (rands (hst s')) → inv s'.
Proof. intros [? ? ? ? ? ? ? ? ?] [N N'] A B L R F D W. split; rewrite ?B, ?L, ?R; try done; [intros X; by apply F | intros [X|?]; [by apply F | done] | by intros [?|?]]. Qed.
Lemma i_send s : inv s → SEND_CONFIRM (slink s) = true → HAVE_DHKEY (slink s) = false /\ PROV_CONFIRM :: l_conf (slink s) ∈ ms.
Proof. intros I F. split; [by apply I | apply I; by left]. Qed.

Definition session (l : prov_link) := (dhkey l, l_conf l, l_rand l, conf_salt l, conf_key l, prov_salt l).
(** What [send_confirm] has computed when it sends. *)
Definition confirmed_with (salt key r a g : list Z) (rs : list (list Z)) (s : pst) : pst :=
  let h := hst s in
  on_link (set_auth a) (set_g_auth g (on_link (set_rand r) (set_hst (mkHost (pub_key h) (dh_key_cb h) (gatt_rcs h) (dh_rcs h) rs) (on_link (set_conf_key key) (on_link (set_conf_salt salt) s))))).
Definition confirmed (s : pst) (r : list Z) (rs : list (list Z)) : pst :=
  let salt := conf_salt_ref (conf_inputs (slink s)) in
  confirmed_with salt (conf_key_ref (dhkey (slink s)) salt) r (auth_ref t r) (sha256 (triple_text t ++ comma ++ hextostring r)) rs s.
Lemma confirmed_link salt key r a g rs s : let l := slink (confirmed_with salt key r a g rs s) in
  session l = (dhkey (slink s), l_conf (slink s), r, salt, key, prov_salt (slink s)) /\ l_conn l = l_conn (slink s) /\ conf_inputs l = conf_inputs (slink s) /\
  LOCAL_PUB_KEY l = LOCAL_PUB_KEY (slink s) /\ HAVE_DHKEY l = HAVE_DHKEY (slink s) /\ SEND_CONFIRM l = SEND_CONFIRM (slink s) /\ expect l = expect (slink s) /\ rx_seg l = rx_seg (slink s).
Proof. done. Qed.
Lemma confirmed_rest salt key r a g rs s : let s' := confirmed_with salt key r a g rs s in
  hst s' = mkHost (pub_key (hst s)) (dh_key_cb (hst s)) (gatt_rcs (hst s)) (dh_rcs (hst s)) rs /\ g_auth s' = g /\ plog s' = plog s /\ client_buf s' = client_buf s /\ client_len s' = client_len s.
Proof. done. Qed.
Lemma send_confirm_eq s r rs : length (g_auth s) = 32%nat → random_ok r → rands (hst s) = r :: rs → send_confirm ctx0 t prov s =
  let s1 := confirmed s r rs in let '(rc, s2) := prov_send (PROV_CONFIRM :: confirmation t (conf_key (slink s1)) r) s1 in
  Some (if truthy rc then close_link prov PROV_ERR_RESOURCES CLOSE_REASON_FAILED s2 else expecting PROV_RANDOM s2).
Proof.
  intros I R E. unfold send_confirm. rewrite conf_salt_eq. cbv zeta. rewrite conf_key_eq.
  unfold bt_mesh_rand. change (rands (hst (on_link _ _))) with (rands (hst s)). rewrite E.
  rewrite load_auth_eq by done. cbn [mbind option_bind]. rewrite (conf_eq t) by (done || apply R). unfold prov_buf. cbn [length]. by rewrite confirmation_length.
Qed.
Lemma good_send_confirm s s' : inv s → early s → HAVE_DHKEY (slink s) = true → PROV_CONFIRM :: l_conf (slink s) ∈ ms → send_confirm ctx0 t prov s = Some s' → good s s'.
Proof.
  intros I N D Cm. destruct (rands (hst s)) as [|r rs] eqn:E.
  - unfold send_confirm. rewrite conf_salt_eq. cbv zeta. rewrite conf_key_eq. unfold bt_mesh_rand. change (rands (hst (on_link _ _))) with (rands (hst s)). rewrite E.
    intros [= <-]. eapply good_trans; [|apply good_close]. split; [|by apply logs_same]. apply (inv_early s); try done; first [exact (i_send s I) | exact (i_dh s I) | exact (i_auth s I) | exact (i_rands s I)].
  - pose proof (i_rands _ I) as W. rewrite E in W. apply Forall_cons_1 in W as [R W].
    rewrite (send_confirm_eq s r rs) by (done || apply I). cbv zeta. set (s1 := confirmed s r rs).
    destruct (confirmed_link _ _ _ _ _ _ _ : let l := slink s1 in _) as (Es & _ & _ & _ & Eh & Ef & Ee & Er). destruct (confirmed_rest _ _ _ _ _ _ _ : let s' := s1 in _) as (Eo & Eg & El & Eb & Ec).
    clearbody s1. injection Es as Ed Ec' _ Es Ek _.
    assert (good s s1) as G. { split; [|by apply logs_same]. apply (inv_early s); try done; [split; rewrite Ee; apply N | rewrite Eg; apply digest_length | rewrite Ef, Eh, Ec'; exact (i_send s I) | rewrite Eh, Ed; exact (i_dh s I) | by rewrite Eo]. }
    assert (HAVE_DHKEY (slink s1) = true) as D1 by (by rewrite Eh). assert (keyed (slink s1)) as K1 by (exists (dhkey (slink s)), (conf_inputs (slink s)); rewrite Ek, Es; split; [by apply I | done]). rewrite <- Ec' in Cm.
    destruct (prov_send _ s1) as [rc s2] eqn:E2. intros [= <-]. eapply good_trans; [exact G|]. intros I1.
    assert (sending s1 s2) as S by (replace s2 with (snd (prov_send (PROV_CONFIRM :: confirmation t (conf_key (slink s1)) r) s1)) by (by rewrite E2); apply sending_send). clear E2.
    eapply good_trans; [by apply good_sending|]. intros I2. destruct (truthy rc); [by apply good_close|]. split; [|by apply logs_same].
    destruct S as [(a & b & c & d & L)]. destruct I2 as [? ? ? ? ? ? ? ? ?]. split; [assumption.. | | | intros X; discriminate X | assumption];
      intros _; change (slink (expecting _ s2)) with (set_expect PROV_RANDOM (slink s2)); rewrite L; [exact Cm | exact (conj D1 K1)].
Qed.

Lemma good_dh_key_cb k s s' : inv s → (forall key, k = Some key → reverse (take 32 key) ∈ ks) → prov_dh_key_cb ctx0 t prov k s = Some s' → good s s'.
Proof.
  intros I Hk. unfold prov_dh_key_cb. destruct k as [k|]; [|intros [= <-]; by apply good_close]. cbv zeta. set (s1 := on_link (set_have_dh true) _). intros E.
  change (SEND_CONFIRM (slink s1)) with (SEND_CONFIRM (slink s)) in E. destruct (SEND_CONFIRM (slink s)) eqn:F.
  - pose proof (i_flags _ I F) as H. assert (early s) as N.
    { split; intros X; destruct (i_keyed _ I) as [Y _]; auto; congruence. }
    eapply (good_trans _ (on_link (set_send_confirm false) s1)); [|intros I1; apply good_send_confirm; try done; apply I; by left]. split; [|by apply logs_same]. apply (inv_early s); try done; [apply I | intros _; by apply Hk | apply I].
  - injection E as <-. split; [|by apply logs_same]. destruct I as [? ? ? ? ? ? K ? ?]. split; [done.. | intros X; cbn in X; congruence | intros _; by apply Hk | done | | done | done].
    intros X. destruct (K X) as [_ Y]. by split.
Qed.

Lemma good_confirm data s s' : inv s → expect (slink s) = PROV_CONFIRM → PROV_CONFIRM :: take 16 data ∈ ms → prov_confirm ctx0 t prov data s = Some s' → good s s'.
Proof.
  intros I X Cm. unfold prov_confirm. set (s1 := on_link (set_conf _) s). assert (early s1) as N by (split; cbn; by rewrite X).
  assert (good s s1) as G by (split; [apply (inv_early s); try done; [apply I | intros F; split; [by apply I | done] | apply I | apply I] | by apply logs_same]). change (HAVE_DHKEY (slink s1)) with (HAVE_DHKEY (slink s)).
  destruct (HAVE_DHKEY (slink s)) eqn:D; cbn [negb]; intros E.
  - eapply good_trans; [exact G|]. intros I1. by apply good_send_confirm.
  - injection E as <-. eapply good_trans; [exact G|]. intros I1. eapply good_trans; [by apply good_sending, sending_clear|]. intros I2.
    pose proof (sending_clear s1) as [(a & b & c & d & L)]. split; [|by apply logs_same].
    apply (inv_early (prov_clear_tx s1)); try done; try apply I2;
      unfold early; change (slink (on_link _ _)) with (set_send_confirm true (slink (prov_clear_tx s1))); rewrite L; done.
Qed.

Lemma good_random data s s' : inv s → expect (slink s) = PROV_RANDOM → random_ok data → cur = [PROV_RANDOM :: data] → prov_random ctx0 t prov data s = Some s' → good s s'.
Proof.
  intros I X R Hm. destruct Hcur as [old Ho]. rewrite Hm in Ho. clear Hm. rename Ho into Hm. unfold prov_random. rewrite load_auth_eq by (done || apply I). cbn [mbind option_bind].
  assert (inv (with_auth data s)) as I1 by by apply inv_with_auth. assert (good s (with_auth data s)) as G1 by (split; [done | by apply logs_same]).
  rewrite take_ge by (destruct R; lia). destruct (i_keyed _ I1 (or_introl X)) as (D1 & dh & inputs & Kd & Ks & Kk). pose proof (i_conf _ I1 (or_intror X)) as Cm.
  rewrite (conf_eq t) by (done || apply R). destruct (bool_decide _) eqn:B; cbn [negb]; [|intros [= <-]; eapply good_trans; [exact G1 | by apply good_fail]].
  apply bool_decide_eq_true in B. clear I. set (s1 := with_auth data s) in *. clearbody s1.
  unfold prov_buf. destruct (Nat.leb _ _); [cbn [mbind option_bind] | done]. destruct (prov_send _ s1) as [rc s2] eqn:E2. assert (sending s1 s2) as S by (replace s2 with (snd (prov_send (PROV_RANDOM :: l_rand (slink s1)) s1)) by (by rewrite E2); apply sending_send). clear E2.
  intros E. eapply good_trans; [exact G1|]. intros _. eapply good_trans; [by apply good_sending|]. intros I2.
  destruct (truthy rc); [injection E as <-; by apply good_close|].
  destruct S as [(a & b & c & d & L)]. rewrite L in E. change (conf_salt (set_tx a b c d (slink s1))) with (conf_salt (slink s1)) in E. change (l_rand (set_tx a b c d (slink s1))) with (l_rand (slink s1)) in E.
  assert (length (conf_salt (slink s1)) = 16%nat) as Ls by (rewrite Ks; apply conf_salt_length). rewrite prov_salt_eq in E by (exact Ls || apply R). injection E as <-. split; [|by apply logs_same].
  assert (slink (expecting PROV_DATA (on_link (set_prov_salt (prov_salt_ref (conf_salt (slink s1)) data (l_rand (slink s1)))) s2)) =
    set_expect PROV_DATA (set_prov_salt (prov_salt_ref (conf_salt (slink s1)) data (l_rand (slink s1))) (set_tx a b c d (slink s1)))) as EL by (by rewrite <- L).
  assert (SEND_CONFIRM (slink s1) = true → False) as Ns. { intros F. by rewrite (i_flags _ I1 F) in D1. }
  destruct I2 as [? ? ? ? ? ? K ? ?]. split; [assumption.. | | | | assumption]; rewrite EL.
  - intros [F|F]; [exfalso; by apply Ns | discriminate F].
  - intros _. split; [exact D1|]. exists dh, inputs. exact (conj Kd (conj Ks Kk)).
  - intros _. rewrite Hm in Cm. apply elem_of_app in Cm as [Cm|Cm]; [|apply list_elem_of_singleton in Cm; discriminate Cm]. apply list_elem_of_split in Cm as (m1 & m2 & ->).
    exists data, m1, m2, []. split; [apply R|]. split; [rewrite Hm, <- app_assoc; reflexivity|]. split; [exact (eq_sym B) | reflexivity].
Qed.

Lemma decrypt_pair sk nonce data : exists err pdu, bt_mesh_prov_decrypt sk nonce data = (err, pdu).
Proof. destruct (bt_mesh_prov_decrypt sk nonce data). eauto. Qed.

Lemma data_inv data s : inv s → expect (slink s) = PROV_DATA → length data = 33%nat → cur = [PROV_DATA :: data] → inv (prov_data prov data s) /\ evs (slink s) s (prov_data prov data s).
Proof.
  intros I X Ld Hm. unfold prov_data. cbv zeta. unfold bt_mesh_session_key, bt_mesh_prov_nonce, bt_mesh_dev_key. rewrite !k1_eq. cbn [rbind]. rewrite (take_ge data 33) by lia.
  fold (session_key (slink s)) (session_nonce (slink s)) (device_key (slink s)).
  destruct (bt_mesh_prov_decrypt _ _ data) as [err pdu] eqn:E. destruct (truthy err) eqn:Z.
  - destruct (good_fail PROV_ERR_DECRYPT s I) as [? L]. split; [done | by apply logs_evs].
  - apply truthy_false in Z. subst err. set (s1 := plogged _ s). pose proof (sending_plogged (PvProvData (get_be16 (nth 23 pdu 0) (nth 24 pdu 0))) s Logic.I) as S1. fold s1 in S1.
    pose proof (sending_trans _ _ _ S1 (sending_send [PROV_COMPLETE] s1)) as S. set (s2 := snd (prov_send [PROV_COMPLETE] s1)) in *. clearbody s2. clear S1 s1.
    pose proof (inv_expecting 0 s2 (inv_sending _ _ S I) ltac:(done) ltac:(done)) as I2. split; [inv_same|].
    eapply evs_trans; [apply logs_evs, S|]. eexists [_]. split; [reflexivity|]. constructor; [|constructor].
    split; [apply (i_keyed _ I); by right|]. split; [by apply (i_verified _ I)|]. split; [apply I, (i_keyed _ I); by right|]. split; [done|]. exists data, pdu. repeat split; done.
Qed.

(** *** Every message *)

Lemma authentic_session l l' e : session l = session l' → authentic l e → authentic l' e.
Proof.
  intros E. unfold session in E. injection E as E1 E2 E3 E4 E5 E6. unfold authentic, keyed, verified, session_key, session_nonce, device_key. by rewrite E1, E2, E3, E4, E5, E6.
Qed.
(** What a step does from the link [l] on. *)
Definition step_ok (l : prov_link) (s s' : pst) : Prop := inv s' /\ evs l s s'.
Lemma good_ok l s s' : good s s' → step_ok l s s'.
Proof. intros [I L]. split; [done | by apply logs_evs]. Qed.
Lemma ok_session l l' s s' : session l = session l' → step_ok l s s' → step_ok l' s s'.
Proof.
  intros E [I (es & L & F)]. split; [done|]. exists es. split; [done|]. clear L. induction F as [|e es H F IH]; constructor; [by apply (authentic_session l) | done].
Qed.
Lemma good_then l a b c : good a b → (inv b → step_ok l b c) → step_ok l a c.
Proof. intros [I L] H. destruct (H I) as [I' L']. split; [done|]. eapply evs_trans; [by apply logs_evs | done]. Qed.

Lemma handler_ok type func len data s s' : inv s → prov_handlers ctx0 t prov !! type = Some (func, len) → Z.of_nat type = PROV_FAILED \/ Z.of_nat type = expect (slink s) →
  length data = len → all_u8 data → cur = [Z.of_nat type :: data] → func data s = Some s' → step_ok (slink s) s s'.
Proof.
  intros I H X Ld U Hm. destruct type as [|[|[|[|[|[|[|[|[|[|type]]]]]]]]]]; [..|done]; injection H as <- <-; unfold pure_handler, prov_ignored; intros E;
    try (injection E as <-); try (destruct X as [X|X]; [discriminate X | apply eq_sym in X]).
  - by apply good_ok, good_invite.
  - by apply good_ok, good_refl.
  - by apply good_ok, good_start.
  - by apply good_ok, good_pub_key.
  - by apply good_ok, good_refl.
  - apply good_ok, (good_confirm data); try done. rewrite take_ge by lia. destruct Hcur as [old ->]. rewrite Hm. apply elem_of_app. right. by apply list_elem_of_singleton.
  - by apply good_ok, (good_random data).
  - by apply data_inv.
  - by apply good_ok, good_refl.
  - by apply good_ok, good_refl.
Qed.

Lemma rx_data_cons s : 1 <= client_len s → client_buf s ≠ [] → rx_data s = nth 0 (client_buf s) 0 :: drop 1 (rx_data s).
Proof. intros L N. unfold rx_data. destruct (client_buf s) as [|x l]; [done|]. replace (Z.to_nat (client_len s)) with (S (Z.to_nat (client_len s - 1))) by lia. done. Qed.

Lemma msg_recv_ok s s' : inv s → 0 <= client_len s <= 68 → cur = [rx_data s] → prov_msg_recv ctx0 t prov s = Some s' → step_ok (slink s) s s'.
Proof.
  intros I Lc Hm. unfold prov_msg_recv. destruct (negb (rx_buf _)); [done|]. destruct (negb (bt_mesh_fcs_check _ _)); [intros [= <-]; by apply good_ok, good_refl|].
  pose proof (sending_ack (rx_id (slink s)) s) as S. set (s1 := gen_prov_ack_send _ s) in *. pose proof (snd_buf _ _ S) as Eb. pose proof (snd_len _ _ S) as El. destruct (snd_link _ _ S) as (a & b & c & d & L).
  set (s2 := on_link _ s1). assert (good s s2) as G. { eapply good_trans; [by apply good_sending|]. intros I1. good_same. }
  assert (session (slink s2) = session (slink s)) as Es by (subst s2; cbn; by rewrite L). assert (client_len s2 = client_len s /\ client_buf s2 = client_buf s) as [El2 Eb2] by done.
  clearbody s2. clear s1 S Eb El L. destruct G as [I2 Lg]. destruct (i_buf _ I2) as [U Lb]. set (type := nth 0 (client_buf s) 0).
  assert (is_u8 type) as Ut. { subst type. rewrite <- Eb2. destruct (client_buf s2) as [|x l]; [done|]. by apply Forall_cons_1 in U as [? _]. }
  intros E. apply (good_then _ _ s2); [by split|]. intros _. revert E. destruct (negb (type =? PROV_FAILED) && _) eqn:X; [intros [= <-]; by apply good_ok, good_fail|].
  destruct (prov_handlers _ _ _ !! Z.to_nat type) as [[func len]|] eqn:H; [|intros [= <-]; by apply good_ok, good_close].
  destruct (negb (1 + _ =? _)) eqn:Z; [intros [= <-]; by apply good_ok, good_close|]. intros E. apply (ok_session (slink s2)); [done|].
  refine (handler_ok _ _ _ _ _ _ I2 H _ _ _ _ E).
  - rewrite Z2Nat.id by lia. destruct (Z.eqb_spec type PROV_FAILED); [by left|]. destruct (Z.eqb_spec type (expect (slink s2))); [by right | done].
  - unfold rx_data. rewrite length_drop, length_take, Lb. unfold CLIENT_BUF_SIZE. apply Bool.negb_false_iff, Z.eqb_eq in Z. lia.
  - unfold rx_data. by apply Forall_drop, Forall_take.
  - apply Bool.negb_false_iff, Z.eqb_eq in Z. rewrite Z2Nat.id by lia. rewrite Hm. f_equal.
    assert (rx_data s2 = rx_data s) as -> by (unfold rx_data; by rewrite El2, Eb2). subst type. apply rx_data_cons; [lia|]. rewrite <- Eb2. intros N. by rewrite N in Lb.
Qed.

Lemma rx_write_ok off d s s' : rx_write off d s = Some s' → all_u8 d → all_u8 (client_buf s) /\ length (client_buf s) = CLIENT_BUF_SIZE →
  let b := store_at (Z.to_nat off) d (client_buf s) in s' = set_client (client_len s) b s /\ all_u8 b /\ length b = CLIENT_BUF_SIZE.
Proof.
  unfold rx_write. intros E U [Ub Lb]. cbv zeta. destruct d as [|x d].
  { unfold store_at. cbn [length app]. rewrite Nat.add_0_r, take_drop. injection E as <-. by destruct s. }
  destruct (_ && _) eqn:C; [|done].
  apply andb_true_iff in C as [C1%Z.leb_le C2%Z.leb_le]. injection E as <-. split; [reflexivity|]. set (n := Z.to_nat off). assert (n + length (x :: d) <= CLIENT_BUF_SIZE)%nat by (subst n; lia).
  unfold store_at. split; [apply Forall_app_2; [by apply Forall_take | apply Forall_app_2; [done | by apply Forall_drop]]|].
  rewrite !length_app, length_take, length_drop, Lb. lia.
Qed.

(** Changes on the receiving side. *)
Lemma inv_rx s s' : inv s → core (slink s') = core (slink s) → g_auth s' = g_auth s → rands (hst s') = rands (hst s) →
  all_u8 (client_buf s') /\ length (client_buf s') = CLIENT_BUF_SIZE → rx_seg (slink s') = 0 \/ 0 <= client_len s' <= 68 → inv s'.
Proof.
  intros I C A H B R. apply (inv_core (set_client (client_len s') (client_buf s') (on_link (λ l, set_rx_seg (rx_seg (slink s')) (rx_last_seg l) l) s))); try done; [|by left].
  destruct I as [? ? ? ? ? ? ? ? ?]. by split.
Qed.

Lemma get_be16_range a b : is_u8 a → is_u8 b → 0 <= get_be16 a b.
Proof. intros Ha Hb. unfold get_be16. rewrite Z.lor_nonneg, Z.shiftl_nonneg. lia. Qed.
Lemma nth_u8 l i : all_u8 l → is_u8 (nth i l 0).
Proof. intros U. destruct (nth_in_or_default i l 0) as [H | ->]; [|done]. by apply (proj1 (List.Forall_forall _ _) U). Qed.

(** What the receive buffer holds once the payload of a PDU is in it. *)
Definition start_message (buf : list Z) (s : pst) : list Z := take (Z.to_nat (get_be16 (nth 0 buf 0) (nth 1 buf 0))) (store_at 0 (drop 3 buf) (client_buf s)).
Definition cont_message (rx : prov_rx) (buf : list Z) (s : pst) : list Z := take (Z.to_nat (client_len s)) (store_at (Z.to_nat (20 + (Z.shiftr (gpc rx) 2 - 1) * 23)) buf (client_buf s)).

Lemma start_ok rx buf s s' : inv s → all_u8 buf → cur = [start_message buf s] → gen_prov_start ctx0 t prov rx buf s = Some s' → step_ok (slink s) s s'.
Proof.
  intros I U Hm. unfold gen_prov_start. destruct (truthy (rx_seg (slink s))) eqn:T; [intros [= <-]; by apply good_ok, good_refl|].
  destruct (_ =? _); [intros [= <-]; by apply good_ok, good_sending, sending_ack|]. destruct (negb _); [done|]. cbv zeta.
  pose proof (get_be16_range _ _ (nth_u8 buf 0 U) (nth_u8 buf 1 U)) as N. set (len := get_be16 _ _) in *. apply truthy_false in T.
  set (s1 := on_link _ (set_client _ _ s)). assert (good s s1) as G by (split; [apply (inv_rx s); try done; [apply I | by left] | by apply logs_same]).
  assert (session (slink s1) = session (slink s)) as Es by done. destruct (Z.ltb_spec len 1); [intros [= <-]; apply good_ok; eapply good_trans; [exact G | apply good_close]|].
  destruct (Z.ltb_spec (Z.of_nat CLIENT_BUF_SIZE) len); [intros [= <-]; apply good_ok; eapply good_trans; [exact G | apply good_close]|].
  destruct (_ && _); [intros [= <-]; apply good_ok; eapply good_trans; [exact G | apply good_close]|].
  set (s2 := on_link _ s1). intros E. apply bind_Some in E as (s3 & E3 & E). unfold CLIENT_BUF_SIZE in *.
  destruct (rx_write_ok _ _ _ _ E3) as (-> & Ub & Lb); [by apply Forall_drop | apply I|]. clear E3.
  set (s4 := on_link (XACT_SEG_RECV 0) _) in *. assert (good s s4) as G4 by (split; [apply (inv_rx s); try done; right; cbn; lia | by apply logs_same]).
  apply (good_then _ _ s4); [done|]. intros I4. revert E. destruct (negb _); [|intros [= <-]; by apply good_ok, good_refl].
  intros E. apply (ok_session (slink s4)); [done|]. apply msg_recv_ok; [done | cbn; lia | exact Hm | done].
Qed.

Lemma cont_ok rx buf s s' : inv s → all_u8 buf → cur = [cont_message rx buf s] → gen_prov_cont ctx0 t prov rx buf s = Some s' → step_ok (slink s) s s'.
Proof.
  intros I U Hm. unfold gen_prov_cont. cbv zeta. destruct (negb _ && _); [intros [= <-]; by apply good_ok, good_sending, sending_ack|].
  destruct (negb (xact_id rx =? _)); [intros [= <-]; by apply good_ok, good_refl|]. destruct (_ <? _); [intros [= <-]; by apply good_ok, good_close|].
  destruct (_ && _); [intros [= <-]; by apply good_ok, good_close|]. destruct (truthy (Z.land _ _)) eqn:T; cbn [negb]; [|intros [= <-]; by apply good_ok, good_refl].
  destruct (negb (rx_buf _)); [done|]. intros E. apply bind_Some in E as (s3 & E3 & E).
  destruct (rx_write_ok _ _ _ _ E3) as (-> & Ub & Lb); [done | apply I|]. clear E3.
  assert (0 <= client_len s <= 68) as R. { destruct (i_rx _ I) as [R|R]; [|done]. by rewrite R in T. }
  set (s4 := on_link (XACT_SEG_RECV _) _) in *. assert (good s s4) as G4 by (split; [apply (inv_rx s); try done; by right | by apply logs_same]).
  apply (good_then _ _ s4); [done|]. intros I4. revert E. destruct (negb _); [|intros [= <-]; by apply good_ok, good_refl].
  intros E. apply (ok_session (slink s4)); [done|]. apply msg_recv_ok; [done | done | exact Hm | done].
Qed.

Lemma open_ok rx buf s s' : inv s → link_open prov rx buf s = Some s' → good s s'.
Proof.
  intros I. unfold link_open. destruct (Nat.ltb _ _); [intros [= <-]; by apply good_refl|]. destruct (LINK_ACTIVE _); [intros [= <-]; by apply good_refl|].
  destruct (negb (bool_decide _)); [intros [= <-]; by apply good_refl|]. cbv zeta. set (s1 := if has_link_open prov then _ else s).
  assert (good s s1) as G by (subst s1; destruct (has_link_open prov); [apply good_sending; auto with prov | by apply good_refl]). clearbody s1.
  destruct (negb (rx_buf _)); [done|]. intros [= <-]. eapply good_trans; [exact G|]. intros I1. set (s2 := set_client 0 _ _).
  eapply (good_trans _ s2); [split; [apply (inv_rx s1); try done; [apply I1 | by right] | by apply logs_same]|]. intros I2.
  eapply good_trans; [apply good_sending; [done | apply (sending_ctl LINK_ACK [] s2)]|]. intros I3. eapply good_trans; [apply good_sending; [done | by apply (sending_plogged PvStarted)]|].
  intros I4. by apply good_expecting.
Qed.

(** The message a PDU of PB-ADV leaves in the receive buffer: the PDUs that start a message (0) and
    those that continue it (2) have a payload. *)
Definition adv_message (pdu : list Z) (s : pst) : list (list Z) :=
  let rx := mkRx (get_be32 pdu) (nth 4 pdu 0) (nth 5 pdu 0) in
  match Z.to_nat (GPCF (gpc rx)) with
  | 0%nat => [start_message (drop 6 pdu) s]
  | 2%nat => [cont_message rx (drop 6 pdu) s]
  | _ => []
  end.

Lemma adv_recv_ok p pdu s s' : inv s → all_u8 pdu → cur = adv_message pdu s → bt_mesh_pb_adv_recv ctx0 t prov p pdu s = Some s' → step_ok (slink s) s s'.
Proof.
  intros I U Hm. unfold bt_mesh_pb_adv_recv. destruct (negb _ && p); [intros [= <-]; by apply good_ok, good_refl|]. destruct (Nat.ltb _ _); [intros [= <-]; by apply good_ok, good_refl|].
  cbv zeta. destruct (_ && _); [intros [= <-]; by apply good_ok, good_refl|]. unfold adv_message in Hm. set (rx := mkRx _ _ _) in *. cbv zeta in Hm. clearbody rx. apply (Forall_drop _ 6) in U. revert U Hm. generalize (drop 6 pdu) as buf. intros buf U Hm.
  unfold gen_prov_recv, gen_prov. destruct (Z.to_nat (GPCF (gpc rx))) as [|[|[|[|n]]]]; cbn [lookup list_lookup mbind option_bind]; [..|done];
    (destruct (Nat.ltb _ _); [intros [= <-]; by apply good_ok, good_refl|]); (destruct (negb _ && _); [intros [= <-]; by apply good_ok, good_refl|]).
  - by apply start_ok.
  - unfold gen_prov_ack. intros [= <-]. apply good_ok. destruct (negb _); [by apply good_refl|]. destruct (_ =? _); [by apply good_sending, sending_clear | by apply good_refl].
  - by apply cont_ok.
  - unfold gen_prov_ctl. cbv zeta. destruct (_ =? LINK_OPEN); [intros E; by eapply good_ok, open_ok|]. destruct (_ =? LINK_CLOSE); intros [= <-]; [|by apply good_ok, good_refl].
    apply good_ok. destruct (LINK_ACTIVE _); [by apply good_reset | by apply good_refl].
Qed.

Lemma gatt_recv_ok c m s r s' : inv s → all_u8 m → cur = [m] → bt_mesh_pb_gatt_recv ctx0 t prov c m s = Some (r, s') → step_ok (slink s) s s'.
Proof.
  intros I U Hm. unfold bt_mesh_pb_gatt_recv. destruct (negb (bool_decide _)); [intros [= <- <-]; by apply good_ok, good_refl|].
  destruct m as [|type m]; [intros [= <- <-]; by apply good_ok, good_refl|]. apply Forall_cons_1 in U as [Ut U].
  destruct (negb (type =? PROV_FAILED) && _) eqn:X; [intros [= <- <-]; by apply good_ok, good_refl|].
  destruct (prov_handlers _ _ _ !! _) as [[func len]|] eqn:H; [|intros [= <- <-]; by apply good_ok, good_refl].
  destruct (Nat.eqb_spec len (length m)) as [El|]; cbn [negb]; [|intros [= <- <-]; by apply good_ok, good_refl].
  intros E. apply bind_Some in E as (s1 & E1 & E). injection E as <- <-. refine (handler_ok _ _ _ _ _ _ I H _ _ _ _ E1); [|done | done | rewrite Z2Nat.id by lia; exact Hm].
  rewrite Z2Nat.id by lia. destruct (Z.eqb_spec type PROV_FAILED); [by left|]. destruct (Z.eqb_spec type (expect (slink s))); [by right | done].
Qed.

Definition input_ok (i : pinput) : Prop :=
  match i with IAdv _ m => all_u8 m | IGattRecv _ m => all_u8 m | _ => True end.

Lemma gatt_open_ok c s : inv s → good s (snd (bt_mesh_pb_gatt_open prov c s)).
Proof.
  intros I. unfold bt_mesh_pb_gatt_open. destruct (LINK_ACTIVE _); [by apply good_refl|]. cbn [snd].
  eapply (good_trans _ (expecting PROV_INVITE (on_link (set_link_conn (Some c)) (on_link (set_active true) s)))).
  { eapply (good_trans _ (on_link (set_link_conn (Some c)) (on_link (set_active true) s))); [good_same|]. intros I1. by apply good_expecting. }
  intros I1. destruct (has_link_open prov); [apply good_sending; auto with prov | by apply good_refl].
Qed.
Lemma retransmit_ok s : inv s → good s (prov_retransmit prov s).
Proof.
  intros I. unfold prov_retransmit. cbv zeta. eapply good_trans; [apply good_sending; [done | apply (sending_retransmit false)]|]. intros I1.
  destruct (negb _); [by apply good_refl|]. destruct (_ <? _); [by apply good_reset | by apply good_sending, sending_segments].
Qed.
Lemma adv_sent_ok s : inv s → good s (adv_sent s).
Proof.
  intros I. unfold adv_sent. cbv zeta. match goal with |- context [match ?c with NoCb => _ | _ => _ end] => generalize c as cb; intros cb end. set (s1 := on_tr _ s). eapply (good_trans _ s1); [by apply good_sending, sending_tr|]. intros I1. clearbody s1. assert (good s1 (buf_sent s1)) by (unfold buf_sent; destruct (has_tx s1); [apply good_sending; auto with prov | by apply good_refl]).
  destruct cb as [|[|[[|[]|]|[[]|[]|]|]|]| |]; try done; try by apply good_refl. apply good_sending; [done | apply sending_pending].
Qed.

(** What an input brings: a message, or a shared secret of the host. *)
Definition incoming (i : pinput) (s : pst) : list (list Z) :=
  match i with IAdv _ pdu => adv_message pdu s | IGattRecv _ m => [m] | _ => [] end.
Definition secret (i : pinput) : list (list Z) := match i with IDhKey (Some k) => [reverse (take 32 k)] | _ => [] end.

Lemma step_inv i s s' : inv s → input_ok i → cur = incoming i s → (exists old, ks = old ++ secret i) → pstep ctx0 t prov i s = Some s' → step_ok (slink s) s s'.
Proof.
  intros I U Hm Hk. destruct i as [p m|c|c m|c|k|k| | | |d]; cbn [pstep]; cbv zeta.
  - by apply adv_recv_ok.
  - intros [= <-]. by apply good_ok, gatt_open_ok.
  - intros E. apply bind_Some in E as ([r s1] & E1 & E). injection E as <-. by eapply gatt_recv_ok.
  - intros [= <-]. by apply good_ok, gatt_close_inv.
  - destruct (dh_key_cb _); [|intros [= <-]; by apply good_ok, good_refl]. set (s1 := set_hst _ s). intros E. apply good_ok.
    eapply (good_trans _ s1); [good_same|]. intros I1. eapply good_dh_key_cb; [done | | done]. intros key ->. destruct Hk as [old ->]. apply elem_of_app. right. by apply list_elem_of_singleton.
  - intros [= <-]. apply good_ok. destruct k as [k|]; [|by apply good_pub_key_ready]. set (s1 := set_hst _ s).
    eapply (good_trans _ s1); [good_same|]. apply good_pub_key_ready.
  - intros [= <-]. apply good_ok. destruct (retransmit _); [by apply retransmit_ok | by apply good_refl].
  - intros [= <-]. by apply good_ok, adv_sent_ok.
  - intros [= <-]. apply good_ok. unfold bt_mesh_prov_reset_link. destruct (LINK_ACTIVE _); [by apply good_reset | by apply good_refl].
  - intros [= <-]. by apply good_ok, good_sending, sending_tr.
Qed.
End Safety.

(** More messages and more secrets. *)
Lemma inv_mono t ks ms k m s : inv t ks ms s → inv t (ks ++ k) (ms ++ m) s.
Proof.
  intros [? ? ? ? D Cf K V ?]. split; try done.
  - intros X. apply elem_of_app. left. by apply D.
  - intros X. apply elem_of_app. left. by apply Cf.
  - intros X. destruct (K X) as (H & dh & inputs & A & B). split; [done|]. exists dh, inputs. split; [apply elem_of_app; by left | done].
  - intros X. destruct (V X) as (r & m1 & m2 & m3 & L & -> & C). exists r, m1, m2, (m3 ++ m). split; [done|]. split; [|done]. by rewrite <- app_assoc, <- app_comm_cons, <- app_assoc.
Qed.

(** The messages and the secrets of a history. *)
Fixpoint heard (ctx0 : tc_sha256_state_struct) (t : genie_triple_t) (prov : bt_mesh_prov) (l : list pinput) (s : pst) : list (list Z) :=
  match l with
  | [] => []
  | i :: l => incoming i s ++ match pstep ctx0 t prov i s with Some s' => heard ctx0 t prov l s' | None => [] end
  end.
Definition secrets (l : list pinput) : list (list Z) := l ≫= secret.

Lemma runs_inv ctx0 t prov l : triple_ok t → forall ks ms s0 s, inv t ks ms s0 → Forall input_ok l → pruns ctx0 t prov l s0 = Some s →
  forall e, e ∈ plog s → e ∈ plog s0 \/ exists l1 i l2 s1, l = l1 ++ i :: l2 /\ pruns ctx0 t prov l1 s0 = Some s1 /\
  authentic t (ks ++ secrets (l1 ++ [i])) (ms ++ heard ctx0 t prov l1 s0 ++ incoming i s1) (incoming i s1) (slink s1) e.
Proof.
  intros Ht. induction l as [|i l IH]; intros ks ms s0 s I F; [intros [= <-]; by left|]. apply Forall_cons_1 in F as [Fi F]. cbn [pruns]. intros E. apply bind_Some in E as (s1 & E1 & E).
  destruct (step_inv ctx0 t prov (ks ++ secret i) (ms ++ incoming i s0) (incoming i s0) (ex_intro _ _ eq_refl) Ht i s0 s1 (inv_mono _ _ _ _ _ _ I) Fi eq_refl (ex_intro _ _ eq_refl) E1) as [I1 (es & L & A)].
  intros e He. destruct (IH _ _ _ _ I1 F E e He) as [H | (l1 & j & l2 & s2 & -> & E2 & H)].
  - rewrite L in H. apply elem_of_app in H as [H|H]; [by left|]. right. exists [], i, l, s0. split; [done|]. split; [done|]. apply list_elem_of_In in H. cbn [heard app secrets mbind list_bind].
    rewrite app_nil_r. by apply (proj1 (List.Forall_forall _ _) A).
  - right. exists (i :: l1), j, l2, s2. split; [done|]. split; [cbn [pruns]; by rewrite E1|]. cbn [heard app secrets mbind list_bind]. rewrite E1. by rewrite <- !app_assoc in *.
Qed.

(** The confirmation and the random number came before the data. *)
Lemma before_last (m1 m2 m3 old : list (list Z)) a b c d r : m1 ++ (a :: c) :: m2 ++ (b :: r) :: m3 = old ++ [d] → nth 0 d 0 ≠ b →
  exists m3', old = m1 ++ (a :: c) :: m2 ++ (b :: r) :: m3'.
Proof.
  intros E N. destruct m3 as [|x m3 _] using rev_ind.
  - replace (m1 ++ (a :: c) :: m2 ++ [b :: r]) with ((m1 ++ (a :: c) :: m2) ++ [b :: r]) in E by (by rewrite <- app_assoc). apply app_inj_tail in E as [_ <-]. by destruct N.
  - exists m3. replace (m1 ++ (a :: c) :: m2 ++ (b :: r) :: m3 ++ [x]) with ((m1 ++ (a :: c) :: m2 ++ (b :: r) :: m3) ++ [x]) in E; [by apply app_inj_tail in E as [-> _]|].
    rewrite <- app_assoc. cbn [app]. by rewrite <- app_assoc.
Qed.
Lemma incoming_no_secret i s m : incoming i s = [m] → secret i = [].
Proof. by destruct i. Qed.

(** A device that waits for a provisioner. *)
Record waiting (s : pst) : Prop := {
  w_log : plog s = []; w_auth : length (g_auth s) = 32%nat; w_buf : all_u8 (client_buf s) /\ length (client_buf s) = CLIENT_BUF_SIZE;
  w_seg : rx_seg (slink s) = 0; w_send : SEND_CONFIRM (slink s) = false; w_have : HAVE_DHKEY (slink s) = false; w_expect : expect (slink s) = 0; w_rands : Forall random_ok (rands (hst s)) }.

(** [C5] In every history of messages over both bearers, of callbacks of the host and of timers, whenever the device ends a provisioning there were, in this order among the messages that came in, a confirmation, a random number of which it is the confirmation - a value that takes the device's secret and a key derived from a shared secret the host computed - and, as the last one, the provisioning data, which decrypt and authenticate under the session keys bound to both random numbers; the network key, index, flags, IV index and address are the ones decrypted from that message, and the device key is the session's. *)
Theorem provisioned_only_verified ctx0 t prov l s0 s nk idx fl iv ad dk : triple_ok t → waiting s0 → Forall input_ok l → pruns ctx0 t prov l s0 = Some s →
  PvProvision nk idx fl iv ad dk ∈ plog s →
  exists l1 i l2 s1, l = l1 ++ i :: l2 /\ pruns ctx0 t prov l1 s0 = Some s1 /\
  let k := slink s1 in let ks := secrets l1 in
  exists m1 m2 m3 random data pdu dh inputs,
    heard ctx0 t prov l1 s0 = m1 ++ (PROV_CONFIRM :: l_conf k) :: m2 ++ (PROV_RANDOM :: random) :: m3 /\ incoming i s1 = [PROV_DATA :: data] /\
    dh ∈ ks /\ conf_salt k = conf_salt_ref inputs /\ conf_key k = conf_key_ref dh (conf_salt k) /\ l_conf k = confirmation t (conf_key k) random /\
    dhkey k ∈ ks /\ prov_salt k = prov_salt_ref (conf_salt k) random (l_rand k) /\ dk = device_key k /\
    length data = 33%nat /\ bt_mesh_prov_decrypt (session_key k) (session_nonce k) data = (0, pdu) /\ prov_pdu nk idx fl iv ad pdu.
Proof.
  intros Ht [? ? ? ? ? ? ? ?] F E H. destruct (runs_inv ctx0 t prov l Ht [] [] s0 s) with (e := PvProvision nk idx fl iv ad dk) as [N | (l1 & i & l2 & s1 & X & Y & A)]; try done.
  - by apply inv_idle.
  - rewrite w_log0 in N. by apply elem_of_nil in N.
  - exists l1, i, l2, s1. split; [exact X|]. split; [exact Y|]. cbv zeta.
    destruct A as ((dh & inputs & K1 & K2 & K3) & (r & m1 & m2 & m3 & V1 & V2 & V3 & V4) & D & Dk & data & pdu & Cu & Ld & De & Pd).
    rewrite Cu in V2. symmetry in V2. destruct (before_last m1 m2 m3 (heard ctx0 t prov l1 s0) _ _ _ _ _ V2) as [m3' Hh]; [done|].
    assert (secrets (l1 ++ [i]) = secrets l1) as Es by (unfold secrets; rewrite bind_app; cbn; rewrite (incoming_no_secret _ _ _ Cu); apply app_nil_r).
    cbn [app] in K1, D. rewrite Es in K1, D. exists m1, m2, m3', r, data, pdu, dh, inputs. repeat (split; [done|]). done.
Qed.

(** ** An honest provisioner *)

#[local] Opaque sha256 conf_key_ref conf_salt_ref confirmation prov_salt_ref auth_ref.

Definition gatt_sent (l : list pevent) : list (list Z) := omap (λ e, match e with PvGatt _ m => Some m | _ => None end) l.
Definition capabilities (prov : bt_mesh_prov) : list Z :=
  [u8 (elem_count prov)] ++ be16 (Z.shiftl 1 PROV_ALG_P256) ++ [public_key_type prov; 1; output_size prov] ++ be16 (output_actions prov) ++ [input_size prov] ++ be16 (input_actions prov).

Section Honest.
Variables (ctx0 : tc_sha256_state_struct) (t : genie_triple_t) (prov : bt_mesh_prov) (c : Z).
Hypothesis Ht : triple_ok t.

Record at_stage (s : pst) (e : Z) (inputs : list Z) (have : bool) (h : host) (sent : list (list Z)) : Prop := {
  st_conn : l_conn (slink s) = Some c; st_expect : expect (slink s) = e;
  st_inputs : take (length inputs) (conf_inputs (slink s)) = inputs /\ length (conf_inputs (slink s)) = 145%nat;
  st_flags : LOCAL_PUB_KEY (slink s) = true /\ HAVE_DHKEY (slink s) = have /\ SEND_CONFIRM (slink s) = false;
  st_host : hst s = h; st_sent : gatt_sent (plog s) = sent; st_g : length (g_auth s) = 32%nat }.

Lemma store_prefix (inputs d buf : list Z) : take (length inputs) buf = inputs → (length inputs + length d <= length buf)%nat →
  take (length (inputs ++ d)) (store_at (length inputs) d buf) = inputs ++ d /\ length (store_at (length inputs) d buf) = length buf.
Proof.
  intros E L. unfold store_at. rewrite E. split; [|rewrite !length_app, length_drop; lia]. by rewrite app_assoc, take_app_length.
Qed.

Lemma gatt_step s type m f len : l_conn (slink s) = Some c → expect (slink s) = type → prov_handlers ctx0 t prov !! Z.to_nat type = Some (f, len) → length m = len →
  pstep ctx0 t prov (IGattRecv c (type :: m)) s = f m s.
Proof.
  intros C X H L. cbn [pstep]. unfold bt_mesh_pb_gatt_recv. rewrite C, X, bool_decide_true, Z.eqb_refl, andb_false_r, H, L, Nat.eqb_refl by done. cbn [negb].
  by destruct (f m s).
Qed.
Lemma gatt_send s m : l_conn (slink s) = Some c → gatt_rcs (hst s) = [] → prov_send m s = (0, plogged (PvGatt c m) s).
Proof. intros C G. unfold prov_send, prov_send_gatt, bt_mesh_proxy_send. by rewrite C, G. Qed.
Lemma gatt_sent_app a b : gatt_sent (a ++ b) = gatt_sent a ++ gatt_sent b.
Proof. apply omap_app. Qed.

Ltac stage := split; cbn [slink on_link expecting on_inputs plogged set_hst hst plog g_auth]; try done.

Lemma stage_invite s a h sent : at_stage s PROV_INVITE [] false h sent → gatt_rcs h = [] →
  at_stage (prov_invite prov [a] s) PROV_START ([a] ++ capabilities prov) false h (sent ++ [PROV_CAPABILITIES :: capabilities prov]).
Proof.
  intros [C X [_ Li] F Hh Sn G] R. unfold prov_invite. cbn [nth]. cbv zeta. fold (capabilities prov).
  set (s1 := if truthy a then _ else s). assert (slink s1 = slink s /\ hst s1 = hst s /\ g_auth s1 = g_auth s /\ gatt_sent (plog s1) = gatt_sent (plog s)) as (E1 & E2 & E3 & E4).
  { subst s1. destruct (truthy a); [|done]. repeat split; try done. cbn. rewrite gatt_sent_app. by rewrite app_nil_r. } clearbody s1.
  rewrite gatt_send by (cbn; rewrite ?E1, ?E2, ?Hh; done). cbn [truthy Z.eqb negb].
  pose proof (store_prefix [] [a] (conf_inputs (slink s)) eq_refl ltac:(cbn; lia)) as [P1 P2]. pose proof (store_prefix [a] (capabilities prov) _ P1 ltac:(rewrite P2, Li; cbn; lia)) as [P3 P4].
  change (l_conn (slink (expecting PROV_START (plogged (PvGatt c (PROV_CAPABILITIES :: capabilities prov)) (on_inputs 1 (capabilities prov) (on_inputs 0 [a] s1)))))) with (l_conn (slink s1)).
  rewrite E1, C. split; cbn [slink on_link expecting on_inputs plogged hst plog g_auth]; rewrite ?E1, ?E2, ?E3; try done.
  - split; [exact P3|]. etransitivity; [exact P4 | by rewrite P2].
  - rewrite !gatt_sent_app, E4, Sn. cbn. by rewrite app_nil_r.
Qed.

Lemma stage_start s h sent inputs : at_stage s PROV_START inputs false h sent → public_key_type prov = 0 → length inputs = 12%nat →
  at_stage (prov_start prov [PROV_ALG_P256; 0; AUTH_METHOD_STATIC; 0; 0] s) PROV_PUB_KEY (inputs ++ [PROV_ALG_P256; 0; AUTH_METHOD_STATIC; 0; 0]) false h sent.
Proof.
  intros [C X [Pi Li] F Hh Sn G] K L. unfold prov_start. cbn [nth]. rewrite K. cbn [Z.eqb negb PROV_ALG_P256]. unfold prov_auth. cbn [Z.eqb AUTH_METHOD_STATIC truthy orb negb Z.ltb Z.compare].
  destruct (store_prefix inputs [PROV_ALG_P256; 0; AUTH_METHOD_STATIC; 0; 0] _ Pi ltac:(rewrite Li, L; cbn; lia)) as [P1 P2]. rewrite L in P1, P2 at 1. rewrite Li in P2.
  by split.
Qed.

Lemma stage_pub_key s pk rc rs sent inputs rk : at_stage s PROV_PUB_KEY inputs false (mkHost (Some pk) false [] [] rs) sent → length inputs = 17%nat → length rk = 64%nat → length pk = 64%nat →
  rc = mkHost (Some pk) true [] [] rs → at_stage (prov_pub_key prov rk s) PROV_CONFIRM (inputs ++ rk ++ swap_halves pk) false rc (sent ++ [PROV_PUB_KEY :: swap_halves pk]).
Proof.
  intros [C X [Pi Li] F Hh Sn G] L Lr Lp ->. unfold prov_pub_key. rewrite (take_ge rk) by lia. set (s1 := on_inputs 17 rk s).
  assert (length (swap_halves pk) = 64%nat) as Lw by (unfold swap_halves; rewrite length_app, !length_reverse, !length_take, length_drop; lia).
  destruct (store_prefix inputs rk _ Pi ltac:(lia)) as [P1 P2]. rewrite L in P1, P2 at 1. rewrite Li in P2. 
  change (LOCAL_PUB_KEY (slink s1)) with (LOCAL_PUB_KEY (slink s)). destruct F as (F1 & F2 & F3). rewrite F1. cbn [negb]. unfold send_pub_key.
  change (bt_mesh_pub_key_get s1) with (pub_key (hst s)). rewrite Hh. cbn [pub_key]. rewrite gatt_send by (cbn; rewrite ?Hh; done). cbn [snd].
  unfold bt_mesh_dh_key_gen. cbv zeta. change (hst (plogged _ _)) with (hst s). rewrite Hh. cbn [dh_key_cb pub_key dh_rcs gatt_rcs rands]. cbn [truthy Z.eqb negb].
  assert (length (inputs ++ rk) = 81%nat) as L81 by (rewrite length_app; lia).
  destruct (store_prefix (inputs ++ rk) (swap_halves pk) (store_at 17 rk (conf_inputs (slink s)))) as [P3 P4]; [exact P1 | rewrite L81, P2; lia|].
  rewrite L81 in P3, P4 at 1. rewrite P2 in P4. rewrite <- app_assoc in P3. split; try done.
  cbn [plog expecting on_link plogged set_hst]. rewrite !gatt_sent_app. change (plog (on_inputs 81 (swap_halves pk) s1)) with (plog s). rewrite Sn. cbn. by rewrite app_nil_r.
Qed.

Lemma stage_dh s k pk rs sent inputs : at_stage s PROV_CONFIRM inputs false (mkHost (Some pk) true [] [] rs) sent →
  exists s', pstep ctx0 t prov (IDhKey (Some k)) s = Some s' /\ at_stage s' PROV_CONFIRM inputs true (mkHost (Some pk) false [] [] rs) sent /\ dhkey (slink s') = reverse (take 32 k).
Proof.
  intros [C X [Pi Li] (F1 & F2 & F3) Hh Sn G]. cbn [pstep]. cbv zeta. rewrite Hh. cbn [dh_key_cb pub_key gatt_rcs dh_rcs rands]. unfold prov_dh_key_cb. cbv zeta. set (s1 := set_hst _ s).
  change (SEND_CONFIRM (slink (on_link _ _))) with (SEND_CONFIRM (slink s)). rewrite F3. eexists. split; [reflexivity|]. by split.
Qed.

(** A message is sent and another one is expected. *)
Lemma stage_sent s e e' inputs have h sent m : at_stage s e inputs have h sent → at_stage (expecting e' (plogged (PvGatt c m) s)) e' inputs have h (sent ++ [m]).
Proof. intros [C X Pi F Hh Sn G]. split; try done. cbn [plog expecting on_link plogged]. by rewrite gatt_sent_app, Sn. Qed.
Lemma stage_confirmed s inputs pk r rs sent salt key a g : at_stage s PROV_CONFIRM inputs true (mkHost (Some pk) false [] [] (r :: rs)) sent → length g = 32%nat →
  at_stage (confirmed_with salt key r a g rs s) PROV_CONFIRM inputs true (mkHost (Some pk) false [] [] rs) sent.
Proof. intros [C X Pi F Hh Sn G] Lg. split; try done. unfold confirmed_with. cbn. by rewrite Hh. Qed.
Lemma stage_conf s conf e inputs have h sent : at_stage s e inputs have h sent → at_stage (on_link (set_conf conf) s) e inputs have h sent.
Proof. intros [C X Pi F Hh Sn G]. by split. Qed.

Lemma confirm_eq s conf pk r rs sent inputs : at_stage s PROV_CONFIRM inputs true (mkHost (Some pk) false [] [] (r :: rs)) sent → length conf = 16%nat → random_ok r →
  let s1 := on_link (set_conf conf) s in let s2 := confirmed t s1 r rs in
  prov_confirm ctx0 t prov conf s = Some (expecting PROV_RANDOM (plogged (PvGatt c (PROV_CONFIRM :: confirmation t (conf_key (slink s2)) r)) s2)).
Proof.
  intros A Lc R. cbv zeta. unfold prov_confirm. rewrite (take_ge conf) by lia. apply (stage_conf _ conf) in A. set (s1 := on_link _ s) in *. clearbody s1.
  destruct A as [C X Pi (F1 & F2 & F3) Hh Sn G]. rewrite F2. cbn [negb]. rewrite (send_confirm_eq ctx0 t prov Ht s1 r rs) by (done || by rewrite Hh). cbv zeta.
  destruct (confirmed_link _ _ _ _ _ _ _ : let l := slink (confirmed t s1 r rs) in _) as (_ & E5 & _). destruct (confirmed_rest _ _ _ _ _ _ _ : let s' := confirmed t s1 r rs in _) as (E4 & _).
  rewrite gatt_send; [done | by rewrite E5 | by rewrite E4, Hh].
Qed.

Lemma stage_confirm s conf pk r rs sent inputs : at_stage s PROV_CONFIRM inputs true (mkHost (Some pk) false [] [] (r :: rs)) sent → length inputs = 145%nat → length conf = 16%nat → random_ok r →
  let salt := conf_salt_ref inputs in let ckey := conf_key_ref (dhkey (slink s)) salt in
  exists s', prov_confirm ctx0 t prov conf s = Some s' /\ at_stage s' PROV_RANDOM inputs true (mkHost (Some pk) false [] [] rs) (sent ++ [PROV_CONFIRM :: confirmation t ckey r]) /\
  session (slink s') = (dhkey (slink s), conf, r, salt, ckey, prov_salt (slink s)).
Proof.
  intros A L Lc R. cbv zeta. rewrite (confirm_eq s conf pk r rs sent inputs) by done. cbv zeta. eexists. split; [reflexivity|].
  destruct (st_inputs _ _ _ _ _ _ A) as [Pi Li]. rewrite L, take_ge in Pi by lia.
  unfold confirmed. cbv zeta. change (conf_inputs (slink (on_link (set_conf conf) s))) with (conf_inputs (slink s)). change (dhkey (slink (on_link (set_conf conf) s))) with (dhkey (slink s)). rewrite Pi.
  generalize (conf_salt_ref inputs) as salt. intros salt. generalize (conf_key_ref (dhkey (slink s)) salt) as key. intros key.
  pose proof (digest_length (triple_text t ++ comma ++ hextostring r)) as G. revert G. generalize (sha256 (triple_text t ++ comma ++ hextostring r)) as g. generalize (auth_ref t r) as a. intros a g G.
  split; [|reflexivity]. apply (stage_sent _ PROV_CONFIRM), stage_confirmed, G. by apply stage_conf.
Qed.

Lemma stage_random s pr pk rs sent inputs : at_stage s PROV_RANDOM inputs true (mkHost (Some pk) false [] [] rs) sent → random_ok pr → length (conf_salt (slink s)) = 16%nat → length (l_rand (slink s)) = 16%nat →
  l_conf (slink s) = confirmation t (conf_key (slink s)) pr →
  exists s', prov_random ctx0 t prov pr s = Some s' /\ at_stage s' PROV_DATA inputs true (mkHost (Some pk) false [] [] rs) (sent ++ [PROV_RANDOM :: l_rand (slink s)]) /\
  dhkey (slink s') = dhkey (slink s) /\ prov_salt (slink s') = prov_salt_ref (conf_salt (slink s)) pr (l_rand (slink s)).
Proof.
  intros [C X Pi F Hh Sn G] R Ls Lr V. unfold prov_random. rewrite load_auth_eq by done. cbn [mbind option_bind]. rewrite take_ge by (destruct R; lia).
  set (s1 := with_auth t pr s). assert (length (g_auth s1) = 32%nat) as G1 by apply digest_length. rewrite (conf_eq t) by (done || apply R).
  assert (at_stage s1 PROV_RANDOM inputs true (mkHost (Some pk) false [] [] rs) sent /\ session (slink s1) = session (slink s)) as [[C1 _ P1 F1 H1 Sn1 _] S1] by (by split; [split|]).
  assert (confirmation t (conf_key (slink s1)) pr = l_conf (slink s1)) as V1 by exact (eq_sym V). clearbody s1. rewrite bool_decide_true by done. cbn [negb].
  unfold session in S1. injection S1 as D1 _ D3 D4 _ _.
  assert (prov_buf 16 (PROV_RANDOM :: l_rand (slink s1)) = Some (PROV_RANDOM :: l_rand (slink s1))) as -> by (unfold prov_buf; cbn [length]; by rewrite D3, Lr). cbn [mbind option_bind].
  rewrite gatt_send by (done || by rewrite H1). cbn [truthy Z.eqb negb]. change (slink (plogged _ s1)) with (slink s1). rewrite D4, D3. rewrite prov_salt_eq by (done || apply R).
  eexists. split; [reflexivity|]. split; [|done]. split; try done. cbn [plog expecting on_link plogged]. by rewrite gatt_sent_app, Sn1.
Qed.

Definition data_pdu (nk : list Z) (idx fl iv ad : Z) : list Z := nk ++ be16 idx ++ [fl] ++ be32 iv ++ be16 ad.
Lemma be32_get iv : 0 <= iv < 4294967296 →
  Z.lor (Z.shiftl (u8 (Z.shiftr iv 24)) 24) (Z.lor (Z.shiftl (u8 (Z.shiftr iv 16)) 16) (get_be16 (u8 (Z.shiftr iv 8)) (u8 iv))) = iv.
Proof.
  intros H. rewrite get_be16_spec by apply u8_range. rewrite !Z.shiftr_div_pow2 by lia. unfold u8.
  rewrite (lor_add (_ mod 256) _ 16) by (lia || dlia). rewrite (lor_add (_ mod 256) _ 24) by (lia || dlia). dlia.
Qed.
Lemma data_pdu_fields nk idx fl iv ad : length nk = 16%nat → is_u16 idx → 0 <= iv < 4294967296 → is_u16 ad → prov_pdu nk idx fl iv ad (data_pdu nk idx fl iv ad).
Proof.
  intros L Hi Hv Ha. unfold prov_pdu, data_pdu. assert (forall k tl, nth (16 + k) (nk ++ tl) 0 = nth k tl 0) as N by (intros; rewrite app_nth2 by lia; f_equal; lia).
  split; [by rewrite take_app_le, take_ge by lia|]. rewrite (N 0%nat), (N 1%nat), (N 2%nat), (N 3%nat), (N 4%nat), (N 5%nat), (N 6%nat), (N 7%nat), (N 8%nat).
  unfold be16. cbn [app nth be32]. by rewrite !get_be16_be16, be32_get by done.
Qed.

Lemma stage_data s inputs h sent m pdu data : at_stage s PROV_DATA inputs true h sent → gatt_rcs h = [] → length pdu = 25%nat →
  bt_mesh_ccm_encrypt m (session_key (slink s)) (session_nonce (slink s)) pdu [] 0 8 = (0, data) →
  forall nk idx fl iv ad, prov_pdu nk idx fl iv ad pdu →
  plog (prov_data prov data s) = plog s ++ [PvProvData ad; PvGatt c [PROV_COMPLETE]; PvProvision nk idx fl iv ad (device_key (slink s))] /\ length data = 33%nat.
Proof.
  intros [C X Pi F Hh Sn G] R Lp E nk idx fl iv ad (P1 & P2 & P3 & P4 & P5).
  destruct (ccm_roundtrip m (session_key (slink s)) (session_nonce (slink s)) pdu [] 0 8) as (d & Ee & Ld & Dd); [lia | lia | lia|]. rewrite E in Ee. injection Ee as <-. rewrite Lp in Ld, Dd.
  split; [|done]. unfold prov_data. cbv zeta. unfold bt_mesh_session_key, bt_mesh_prov_nonce, bt_mesh_dev_key. rewrite !k1_eq. cbn [rbind]. rewrite (take_ge data 33) by lia.
  fold (session_key (slink s)) (session_nonce (slink s)) (device_key (slink s)). unfold bt_mesh_prov_decrypt. rewrite Dd. cbn [truthy Z.eqb negb].
  rewrite <- P1, <- P2, <- P3, <- P4, <- P5. rewrite gatt_send by (first [exact C | cbn [hst plogged]; by rewrite Hh]). cbn [snd plog plogged expecting on_link]. by rewrite <- !app_assoc.
Qed.
End Honest.

(** A device without a link that has its key pair: nothing is left over from an earlier link. *)
Record ready (s : pst) (pk : list Z) (rs : list (list Z)) : Prop := {
  rd_link : LINK_ACTIVE (slink s) = false /\ LOCAL_PUB_KEY (slink s) = true /\ HAVE_DHKEY (slink s) = false /\ SEND_CONFIRM (slink s) = false;
  rd_inputs : length (conf_inputs (slink s)) = 145%nat; rd_host : hst s = mkHost (Some pk) false [] [] rs; rd_auth : length (g_auth s) = 32%nat; rd_log : plog s = [] }.

Definition start_msg : list Z := [PROV_ALG_P256; 0; AUTH_METHOD_STATIC; 0; 0].

Lemma honest_run ctx0 t prov c s0 pk r rs att rk dh pr nk idx fl iv ad m data :
  triple_ok t → public_key_type prov = 0 → ready s0 pk (r :: rs) → length pk = 64%nat → random_ok r → length rk = 64%nat → length dh = 32%nat → random_ok pr →
  length nk = 16%nat → is_u16 idx → 0 <= iv < 4294967296 → is_u16 ad →
  let salt := conf_salt_ref ([att] ++ capabilities prov ++ start_msg ++ rk ++ swap_halves pk) in
  let ckey := conf_key_ref dh salt in
  let psalt := prov_salt_ref salt pr r in
  bt_mesh_ccm_encrypt m (k1_ref dh psalt (cstr "prsk")) (take 13 (drop 3 (k1_ref dh psalt (cstr "prsn")))) (data_pdu nk idx fl iv ad) [] 0 8 = (0, data) →
  exists s, pruns ctx0 t prov [IGattOpen c; IGattRecv c [PROV_INVITE; att]; IGattRecv c (PROV_START :: start_msg); IGattRecv c (PROV_PUB_KEY :: rk); IDhKey (Some (reverse dh));
    IGattRecv c (PROV_CONFIRM :: confirmation t ckey pr); IGattRecv c (PROV_RANDOM :: pr); IGattRecv c (PROV_DATA :: data)] s0 = Some s /\
  gatt_sent (plog s) = [PROV_CAPABILITIES :: capabilities prov; PROV_PUB_KEY :: swap_halves pk; PROV_CONFIRM :: confirmation t ckey r; PROV_RANDOM :: r; [PROV_COMPLETE]] /\
  exists es, plog s = es ++ [PvProvision nk idx fl iv ad (k1_ref dh psalt (cstr "prdk"))].
Proof.
  intros Ht K [(F1 & F2 & F3 & F4) Li Hh G L0] Lp Rr Lr Ld Rp Ln Hi Hv Ha. cbv zeta. set (inputs := [att] ++ _ ++ _). set (salt := conf_salt_ref inputs). set (ckey := conf_key_ref dh salt). set (psalt := prov_salt_ref salt pr r). intros E.
  set (s1 := snd (bt_mesh_pb_gatt_open prov c s0)).
  assert (at_stage c s1 PROV_INVITE [] false (mkHost (Some pk) false [] [] (r :: rs)) []) as A1.
  { subst s1. unfold bt_mesh_pb_gatt_open. rewrite F1. cbn [snd]. destruct (has_link_open prov); split; try done; cbn; by rewrite L0. }
  set (l := IGattRecv c [PROV_INVITE; att] :: _). change (pruns ctx0 t prov (IGattOpen c :: l) s0) with (pruns ctx0 t prov l s1). subst l. clearbody s1. clear F1 F2 F3 F4 Li Hh G L0 s0. cbn [pruns].
  rewrite (gatt_step ctx0 t prov c s1 PROV_INVITE [att] (pure_handler (prov_invite prov)) 1) by (done || apply A1). cbn [pure_handler mbind option_bind].
  apply (stage_invite prov c s1 att) in A1; [|done]. set (s2 := prov_invite prov [att] s1) in *. clearbody s2.
  rewrite (gatt_step ctx0 t prov c s2 PROV_START start_msg (pure_handler (prov_start prov)) 5) by (done || apply A1). cbn [pure_handler mbind option_bind].
  apply (stage_start prov c s2) in A1; [|done | done]. fold start_msg in A1. set (s3 := prov_start prov start_msg s2) in *. clearbody s3.
  rewrite (gatt_step ctx0 t prov c s3 PROV_PUB_KEY rk (pure_handler (prov_pub_key prov)) 64) by (done || apply A1). cbn [pure_handler mbind option_bind].
  apply (stage_pub_key prov c s3) with (rk := rk) (rc := mkHost (Some pk) true [] [] (r :: rs)) in A1; [|done..]. set (s4 := prov_pub_key prov rk s3) in *. clearbody s4.
  rewrite <- !app_assoc in A1. fold inputs in A1. assert (length inputs = 145%nat) as L145.
  { subst inputs. rewrite !length_app. unfold swap_halves. rewrite length_app, !length_reverse, !length_take, length_drop, Lr, Lp. done. }
  destruct (stage_dh ctx0 t prov c s4 (reverse dh) _ _ _ _ A1) as (s5 & E5 & A5 & D5). rewrite E5. cbn [mbind option_bind]. clear E5 A1 s4. rewrite take_ge, reverse_involutive in D5 by (rewrite length_reverse; lia).
  rewrite (gatt_step ctx0 t prov c s5 PROV_CONFIRM _ (prov_confirm ctx0 t prov) 16) by (done || apply A5 || apply confirmation_length).
  destruct (stage_confirm ctx0 t prov c Ht s5 (confirmation t ckey pr) _ _ _ _ _ A5 L145 (confirmation_length _ _ _) Rr) as (s6 & E6 & A6 & S6). rewrite E6. cbn [mbind option_bind]. clear E6 A5. rewrite D5 in A6, S6. clear D5.
  fold salt ckey in A6, S6. unfold session in S6. injection S6 as D6 C6 R6 Sa6 Ck6 _.
  rewrite (gatt_step ctx0 t prov c s6 PROV_RANDOM _ (prov_random ctx0 t prov) 16) by (done || apply A6 || apply Rp).
  destruct (stage_random ctx0 t prov c Ht s6 pr _ _ _ _ A6 Rp) as (s7 & E7 & A7 & D7 & P7); [rewrite Sa6; apply conf_salt_length | rewrite R6; apply Rr | by rewrite Ck6|]. rewrite E7. cbn [mbind option_bind]. clear E7 A6.
  rewrite D6 in D7. rewrite Sa6, R6 in P7. fold psalt in P7. rewrite R6 in A7. clear D6 C6 R6 Sa6 Ck6.
  destruct (stage_data prov c s7 _ _ _ m (data_pdu nk idx fl iv ad) data A7) with (nk := nk) (idx := idx) (fl := fl) (iv := iv) (ad := ad) as [L8 Ldata]; [done | | | by apply data_pdu_fields|].
  { unfold data_pdu. rewrite !length_app, Ln. done. }
  { unfold session_key, session_nonce. by rewrite D7, P7. }
  rewrite (gatt_step ctx0 t prov c s7 PROV_DATA _ (pure_handler (prov_data prov)) 33) by (done || apply A7). cbn [pure_handler mbind option_bind pruns].
  eexists. split; [reflexivity|]. rewrite L8. unfold device_key. rewrite D7, P7. split.
  - rewrite gatt_sent_app, (st_sent _ _ _ _ _ _ _ A7). done.
  - eexists (_ ++ [_; _]). by rewrite <- app_assoc.
Qed.

(** [C6] A provisioner that follows the protocol over GATT without OOB key, whatever its keys, random numbers and data are, provisions a device that is ready (no link, its public key and a random number available) and whose stack takes what it sends: the device answers each message with what the protocol asks for, its own confirmation and random number included, and ends with the network key, index, flags, IV index and address it was sent and with the device key both sides compute.  The answer with the random number is one byte longer than the array declared for it ([random_behind_array]); the padding behind the array takes the byte. *)
Theorem honest_provisioning ctx0 t prov c s0 pk r rs att rk dh pr nk idx fl iv ad m data :
  triple_ok t → public_key_type prov = 0 → ready s0 pk (r :: rs) → length pk = 64%nat → random_ok r → length rk = 64%nat → length dh = 32%nat → random_ok pr →
  length nk = 16%nat → is_u16 idx → 0 <= iv < 4294967296 → is_u16 ad →
  let salt := conf_salt_ref ([att] ++ capabilities prov ++ start_msg ++ rk ++ swap_halves pk) in
  let ckey := conf_key_ref dh salt in
  let psalt := prov_salt_ref salt pr r in
  bt_mesh_ccm_encrypt m (k1_ref dh psalt (cstr "prsk")) (take 13 (drop 3 (k1_ref dh psalt (cstr "prsn")))) (data_pdu nk idx fl iv ad) [] 0 8 = (0, data) →
  exists s, pruns ctx0 t prov [IGattOpen c; IGattRecv c [PROV_INVITE; att]; IGattRecv c (PROV_START :: start_msg); IGattRecv c (PROV_PUB_KEY :: rk); IDhKey (Some (reverse dh));
    IGattRecv c (PROV_CONFIRM :: confirmation t ckey pr); IGattRecv c (PROV_RANDOM :: pr); IGattRecv c (PROV_DATA :: data)] s0 = Some s /\
  gatt_sent (plog s) = [PROV_CAPABILITIES :: capabilities prov; PROV_PUB_KEY :: swap_halves pk; PROV_CONFIRM :: confirmation t ckey r; PROV_RANDOM :: r; [PROV_COMPLETE]] /\
  exists es, plog s = es ++ [PvProvision nk idx fl iv ad (k1_ref dh psalt (cstr "prdk"))].
Proof. apply honest_run. Qed.

(** The buffer of the device's random number is declared for 16 bytes of message and gets 17: the
    last one lies behind the array, in the padding its alignment gives it. *)
Lemma random_behind_array r : length r = 16%nat → prov_buf 16 (PROV_RANDOM :: r) = Some (PROV_RANDOM :: r) /\ (PROV_BUF_HEADROOM + 16 < PROV_BUF_HEADROOM + length (PROV_RANDOM :: r) <= PROV_BUF 16)%nat.
Proof. intros L. unfold prov_buf. cbn [length]. rewrite L. split; [done | cbn; lia]. Qed.

(** *** A session *)

Definition sample_prov : bt_mesh_prov := mkProv (repeat 7 16) 0 0 0 0 0 false false 1.
Definition bytes_from (a n : nat) : list Z := map Z.of_nat (seq a n).
Definition sample_pnet : net := mkNet 0 false 0 [] [] 0 [] 0 [] false false [].
Definition sample_ptrans : trans :=
  mkTrans (mkCfg [] [] [] [] (λ _, false) 0 0 0 []) sample_pnet (repeat (mkBuf 0 [] 0 false NoCb) 4) [] [] [] [] 0 false 0 [].
Definition sample_pk : list Z := bytes_from 1 64.
Definition sample_rk : list Z := bytes_from 101 64.
Definition sample_r : list Z := bytes_from 20 16.
Definition sample_pr : list Z := bytes_from 60 16.
Definition sample_dh : list Z := bytes_from 200 32.
Definition sample_pst : pst :=
  mkPst (set_rx_buf true (set_rx_ids 0 XACT_NVAL (set_local true link_zero))) XACT_NVAL 0 (zeros CLIENT_BUF_SIZE) (zeros 32) (mkHost (Some sample_pk) false [] [] [sample_r]) sample_ptrans [].
Definition sample_salt : list Z := conf_salt_ref ([5] ++ capabilities sample_prov ++ start_msg ++ sample_rk ++ swap_halves sample_pk).
Definition sample_psalt : list Z := prov_salt_ref sample_salt sample_pr sample_r.
Definition sample_nk : list Z := bytes_from 3 16.
Definition sample_data : list Z :=
  snd (bt_mesh_ccm_encrypt [] (k1_ref sample_dh sample_psalt (cstr "prsk")) (take 13 (drop 3 (k1_ref sample_dh sample_psalt (cstr "prsn")))) (data_pdu sample_nk 2 0 7 33) [] 0 8).
Definition sample_inputs : list pinput :=
  [IGattOpen 4; IGattRecv 4 [PROV_INVITE; 5]; IGattRecv 4 (PROV_START :: start_msg); IGattRecv 4 (PROV_PUB_KEY :: sample_rk); IDhKey (Some (reverse sample_dh));
   IGattRecv 4 (PROV_CONFIRM :: confirmation sample_triple (conf_key_ref sample_dh sample_salt) sample_pr); IGattRecv 4 (PROV_RANDOM :: sample_pr); IGattRecv 4 (PROV_DATA :: sample_data)].
Definition sample_ctx : tc_sha256_state_struct := mkSha [] 0 [] 0.

Lemma sample_ready : ready sample_pst sample_pk [sample_r].
Proof. by split. Qed.
Lemma u8_list_ok l : forallb (λ b, (0 <=? b) && (b <? 256)) l = true → all_u8 l.
Proof. induction l as [|b l IH]; cbn; [by constructor|]. intros [[B1 B2]%andb_true_iff H]%andb_true_iff. constructor; [lia | by apply IH]. Qed.
Lemma sample_random_ok a : (a + 16 <= 256)%nat → random_ok (bytes_from a 16).
Proof.
  intros H. unfold bytes_from. split; [by rewrite length_map, length_seq|]. apply List.Forall_forall. intros x Hx. apply in_map_iff in Hx as (n & <- & Hn%in_seq). lia.
Qed.
Lemma pair_ok (x : Z * list Z) : fst x = 0 → x = (0, snd x).
Proof. destruct x. by intros <-. Qed.
Lemma sample_encrypt : bt_mesh_ccm_encrypt [] (k1_ref sample_dh sample_psalt (cstr "prsk")) (take 13 (drop 3 (k1_ref sample_dh sample_psalt (cstr "prsn")))) (data_pdu sample_nk 2 0 7 33) [] 0 8 = (0, sample_data).
Proof. unfold sample_data. apply pair_ok. vm_compute. reflexivity. Qed.
Definition sample_ends (s : pst) : Prop := PvProvision sample_nk 2 0 7 33 (k1_ref sample_dh sample_psalt (cstr "prdk")) ∈ plog s.

Lemma honest_provisioning_witness : exists s, pruns sample_ctx sample_triple sample_prov sample_inputs sample_pst = Some s /\ sample_ends s.
Proof.
  destruct (honest_provisioning sample_ctx sample_triple sample_prov 4 sample_pst sample_pk sample_r [] 5 sample_rk sample_dh sample_pr sample_nk 2 0 7 33 [] sample_data) as (s & E & _ & es & L);
    [exact sample_triple_ok | reflexivity | exact sample_ready | reflexivity | by apply sample_random_ok; lia | reflexivity | reflexivity | by apply sample_random_ok; lia | reflexivity | lia | lia | lia | exact sample_encrypt|].
  exists s. split; [exact E|]. unfold sample_ends. rewrite L. apply elem_of_app. right. apply list_elem_of_singleton. reflexivity.
Defined.

Lemma sample_runs : exists s, pruns sample_ctx sample_triple sample_prov sample_inputs sample_pst = Some s /\ sample_ends s.
Proof.
  destruct (honest_run sample_ctx sample_triple sample_prov 4 sample_pst sample_pk sample_r [] 5 sample_rk sample_dh sample_pr sample_nk 2 0 7 33 [] sample_data) as (s & E & _ & es & L);
    [exact sample_triple_ok | reflexivity | exact sample_ready | reflexivity | by apply sample_random_ok; lia | reflexivity | reflexivity | by apply sample_random_ok; lia | reflexivity | lia | lia | lia | exact sample_encrypt|].
  exists s. split; [exact E|]. unfold sample_ends. rewrite L. apply elem_of_app. right. apply list_elem_of_singleton. reflexivity.
Qed.
Lemma sample_inputs_ok : Forall input_ok sample_inputs.
Proof. repeat (apply Forall_cons_2; [first [exact Logic.I | apply u8_list_ok; vm_compute; reflexivity]|]). constructor. Qed.
Lemma provisioned_only_verified_witness : exists l1 i s1 random, pruns sample_ctx sample_triple sample_prov l1 sample_pst = Some s1 /\
  incoming i s1 ≠ [] /\ l_conf (slink s1) = confirmation sample_triple (conf_key (slink s1)) random.
Proof.
  destruct sample_runs as (s & E & L). unfold sample_ends in L.
  destruct (provisioned_only_verified sample_ctx sample_triple sample_prov sample_inputs sample_pst s sample_nk 2 0 7 33 (k1_ref sample_dh sample_psalt (cstr "prdk"))) as
    (l1 & i & _ & s1 & _ & R & _ & _ & _ & r & data & _ & _ & _ & _ & I & _ & _ & _ & V & _);
    [exact sample_triple_ok | split; try reflexivity; [split; [apply u8_list_ok|]; reflexivity | apply Forall_cons_2; [apply sample_random_ok; lia | constructor]] | exact sample_inputs_ok | exact E | exact L|].
  exists l1, i, s1, r. split; [exact R|]. split; [rewrite I; discriminate | exact V].
Defined.
