(* ===== verification/ProvAdv.v ===== *)
(** * ProvAdv: provisioning over advertisements

    [pb_adv_roundtrip]: the segments in which one side puts a message on the air are
    reassembled by the other side.  The findings of prov.c follow. *)
From Stdlib Require Import ZArith Lia List Bool String.
From stdpp Require Import base list numbers option.
From S2P Require Import Prelude Env Aes Cmac Storage Sha256 GenieCrypto MeshCrypto MeshCryptoProps MeshNet MeshNetProps MeshTrans Access Prov ProvProps.
Local Open Scope Z_scope.

(** ** The segments of a message *)

Definition cont_pdu (id x : Z) (k : nat) (payload : list Z) : list Z := be32 id ++ [x; GPC_CONT (Z.of_nat k)] ++ payload.
Fixpoint cont_pdus (n : nat) (id x : Z) (k : nat) (msg : list Z) : list (list Z) :=
  match n, msg with S n, _ :: _ => cont_pdu id x k (take CONT_PAYLOAD_MAX msg) :: cont_pdus n id x (S k) (drop CONT_PAYLOAD_MAX msg) | _, _ => [] end.
Definition segments (id x : Z) (msg : list Z) : list (list Z) := start_pdu id x msg :: cont_pdus 2 id x 1 (drop START_PAYLOAD_MAX msg).

(** The buffer is in use and has these bytes. *)
Definition holds (s : pst) (b : nat) (d : list Z) : Prop := exists p, pool (tr s) !! b = Some p /\ ab_ref p ≠ 0%nat /\ ab_data p = d.
(** The transaction on the air: the buffers of the link hold these PDUs. *)
Definition on_air (s : pst) (pdus : list (list Z)) : Prop :=
  exists bs, tx_buf (slink s) = map Some bs ++ repeat None (3 - length bs) /\ Forall2 (holds s) bs pdus.

Lemma free_buffer p : forall i b, find_free p i = Some b → exists k x, b = (i + k)%nat /\ p !! k = Some x /\ ab_ref x = 0%nat.
Proof.
  induction p as [|a p IH]; intros i b; [done|]. cbn. destruct (Nat.eqb_spec (ab_ref a) 0) as [E|_]; [intros [= <-]; exists 0%nat, a; split; [lia | done]|].
  intros H. destruct (IH _ _ H) as (k & x & -> & L & R). exists (S k), x. split; [lia | done].
Qed.
Lemma create_spec s b s' : adv_buf_create s = Some (b, s') → holds s' b [] /\ slink s' = slink s /\ (forall b' d, holds s b' d → b' ≠ b /\ holds s' b' d).
Proof.
  unfold adv_buf_create, bt_mesh_adv_create. destruct (find_free (pool (tr s)) 0) as [i|] eqn:F; [|done]. intros [= <- <-]. apply free_buffer in F as (k & x & -> & L & R). cbn in L.
  split; [|split; [done|]].
  - exists (mkBuf 1 [] 0 false NoCb). cbn. rewrite list_lookup_alter_eq, L. split; [reflexivity|]. by split.
  - intros b' d (p & Lp & Rp & Dp). assert (b' ≠ (0 + k)%nat) as N by (intros ->; cbn in Lp; congruence). split; [done|].
    exists p. cbn. rewrite list_lookup_alter_ne by (cbn in N; congruence). done.
Qed.
Lemma put_spec s b d d0 : holds s b d0 → holds (on_tr (buf_put b d) s) b d /\ (forall b' d', b' ≠ b → holds s b' d' → holds (on_tr (buf_put b d) s) b' d').
Proof.
  intros (p & L & R & D). split.
  - eexists. cbn. rewrite list_lookup_alter_eq, L. by split; [reflexivity|].
  - intros b' d' N (p' & L' & R' & D'). exists p'. cbn. by rewrite list_lookup_alter_ne by done.
Qed.
Lemma send_holds i cb s b d : holds s b d → holds (on_tr (bt_mesh_adv_send i cb) s) b d.
Proof.
  intros (p & L & R & D). destruct (decide (i = b)) as [-> |N].
  - eexists. cbn. rewrite list_lookup_alter_eq, L. by split; [reflexivity|].
  - exists p. cbn. by rewrite list_lookup_alter_ne by done.
Qed.
Lemma send_segments_holds sk n : forall i s b d, holds s b d → holds (send_segments sk n i s) b d.
Proof.
  induction n as [|n IH]; intros i s b d H; [done|]. cbn. destruct (tx_buf (slink s) !! i) as [[x|]|]; try done. apply IH. destruct (sk && _); [done | by apply send_holds].
Qed.
Lemma send_segments_link sk n : forall i s, slink (send_segments sk n i s) = slink s.
Proof. induction n as [|n IH]; intros i s; [done|]. cbn. destruct (tx_buf (slink s) !! i) as [[x|]|]; try done. rewrite IH. by destruct (sk && _). Qed.
Lemma reliable_air s pdus : on_air s pdus → on_air (send_reliable s) pdus.
Proof.
  intros (bs & T & F). unfold send_reliable. exists bs. rewrite send_segments_link. split; [exact T|]. eapply Forall2_impl; [|exact F]. intros b d H. by apply send_segments_holds.
Qed.

Lemma insert_next (bs : list nat) b : (length bs < 3)%nat → <[length bs := Some b]> (map Some bs ++ repeat None (3 - length bs)) = map Some (bs ++ [b]) ++ repeat None (3 - length (bs ++ [b])).
Proof. destruct bs as [|b0 [|b1 [|b2 [|b3 bs]]]]; cbn; intros; (done || lia). Qed.

(** One more segment. *)
Lemma segment_air s bs pdus b s' d : tx_buf (slink s) = map Some bs ++ repeat None (3 - length bs) → Forall2 (holds s) bs pdus → (length bs < 3)%nat → adv_buf_create s = Some (b, s') →
  let s2 := on_tr (buf_put b d) (on_link (λ l, set_tx_buf (<[length bs := Some b]> (tx_buf l)) l) s') in
  tx_buf (slink s2) = map Some (bs ++ [b]) ++ repeat None (3 - length (bs ++ [b])) /\ Forall2 (holds s2) (bs ++ [b]) (pdus ++ [d]) /\ l_id (slink s2) = l_id (slink s) /\ tx_id (slink s2) = tx_id (slink s).
Proof.
  intros T F L E. apply create_spec in E as (Hb & El & Hk). cbv zeta. set (s3 := on_link _ s'). assert (holds s3 b []) as Hb3 by exact Hb.
  destruct (put_spec s3 b d [] Hb3) as [P1 P2]. split; [|split; [|split]].
  - cbn. rewrite El, T. by apply insert_next.
  - apply Forall2_app; [|by constructor]. eapply Forall2_impl; [|exact F]. intros b' d' H. destruct (Hk _ _ H) as [N H']. by apply P2.
  - cbn. by rewrite El.
  - cbn. by rewrite El.
Qed.

Lemma conts_air x fuel : forall msg s bs pdus s', tx_buf (slink s) = map Some bs ++ repeat None (3 - length bs) → Forall2 (holds s) bs pdus → (length bs <= 3)%nat → (length msg <= 23 * fuel)%nat →
  send_conts fuel x (length bs) msg s = (0, s') →
  on_air s' (pdus ++ cont_pdus (3 - length bs) (l_id (slink s)) x (length bs) msg) /\ l_id (slink s') = l_id (slink s) /\ tx_id (slink s') = tx_id (slink s) /\ (length msg <= 23 * (3 - length bs))%nat.
Proof.
  induction fuel as [|fuel IH]; intros [|z msg] s bs pdus s' T F L Lm; cbn [send_conts]; intros E; [| cbn in Lm; lia | |].
  1, 2: injection E as <-; replace (cont_pdus (3 - length bs) (l_id (slink s)) x (length bs) []) with (@nil (list Z)) by (by destruct (3 - length bs)%nat); rewrite app_nil_r; (split; [apply reliable_air; exists bs; by split | unfold send_reliable; rewrite send_segments_link; repeat split; cbn; lia]).
  destruct (Nat.leb_spec 3 (length bs)) as [|L3]; [done|]. destruct (adv_buf_create s) as [[b s1]|] eqn:C; [|done].
  set (d := be32 _ ++ _) in E. destruct (segment_air s bs pdus b s1 d T F L3 C) as (T2 & F2 & I2 & X2). set (s2 := on_tr _ _) in *. clearbody s2.
  assert (d = cont_pdu (l_id (slink s)) x (length bs) (take CONT_PAYLOAD_MAX (z :: msg))) as Ed. { subst d. cbn [slink on_link]. apply create_spec in C as (_ & -> & _). done. }
  assert (S (length bs) = length (bs ++ [b])) as Eb by (rewrite length_app; cbn; lia). rewrite Eb in E.
  destruct (IH (drop CONT_PAYLOAD_MAX (z :: msg)) s2 (bs ++ [b]) (pdus ++ [d]) s' T2 F2) as (A & Ai & Ax & Al); [rewrite <- Eb; lia | rewrite length_drop; unfold CONT_PAYLOAD_MAX; lia | exact E|].
  rewrite <- Eb, I2 in A. replace (3 - length bs)%nat with (S (3 - S (length bs))) by lia. cbn [cont_pdus]. rewrite <- Ed.
  rewrite <- app_assoc in A. split; [exact A|]. split; [congruence|]. split; [congruence|]. rewrite <- Eb, length_drop in Al. unfold CONT_PAYLOAD_MAX in Al. lia.
Qed.

(** The buffers of a transaction come before the empty entries. *)
Definition tx_prefix (l : list (option nat)) : Prop := exists bs, l = map Some bs ++ repeat None (3 - length bs) /\ (length bs <= 3)%nat.
Lemma clear_prefix s : tx_prefix (tx_buf (slink s)) → tx_buf (slink (prov_clear_tx s)) = [None; None; None].
Proof.
  intros (bs & E & L). unfold prov_clear_tx, free_segments. set (s1 := on_link _ s). assert (tx_buf (slink s1) = map Some bs ++ repeat None (3 - length bs)) as E1 by exact E. clearbody s1. clear E.
  destruct bs as [|b0 [|b1 [|b2 [|b3 bs]]]]; cbn in L; try lia; cbn [map repeat app Nat.sub length] in E1; repeat (cbn [free_segments_from]; cbn [slink on_tr on_link set_tx_buf set_tx tx_buf] ; rewrite ?E1; cbn [lookup list_lookup insert list_insert]); done.
Qed.

Lemma free_tx_id n : forall i s, tx_id (slink (free_segments_from n i s)) = tx_id (slink s).
Proof. induction n as [|n IH]; intros i s; [done|]. cbn [free_segments_from]. destruct (tx_buf (slink s) !! i) as [[x|]|]; try done. by rewrite IH. Qed.
Lemma clear_tx_id s : tx_id (slink (prov_clear_tx s)) = tx_id (slink s).
Proof. unfold prov_clear_tx, free_segments. by rewrite free_tx_id. Qed.

Definition next_id (i : Z) : Z := if truthy i && negb (i =? 255) then u8 (i + 1) else 128.
Lemma send_air s msg s' : tx_prefix (tx_buf (slink s)) → (length msg <= 112)%nat → prov_send_adv msg s = (0, s') →
  on_air s' (segments (l_id (slink s)) (next_id (tx_id (slink s))) msg) /\ l_id (slink s') = l_id (slink s) /\ tx_id (slink s') = next_id (tx_id (slink s)) /\ (length msg <= 66)%nat.
Proof.
  intros P Lm. unfold prov_send_adv. pose proof (clear_prefix s P) as T. pose proof (sending_clear s) as [(a & b & c & d & El)]. pose proof (clear_tx_id s) as Ei.
  assert (l_id (slink (prov_clear_tx s)) = l_id (slink s)) as Eid by (by rewrite El). set (s1 := prov_clear_tx s) in *. clearbody s1. clear El.
  destruct (adv_buf_create s1) as [[b0 s2]|] eqn:C; [|done]. apply create_spec in C as (Hb & E2 & _). unfold next_transaction_id. cbv zeta beta iota. fold (next_id (tx_id (slink s2))).
  rewrite E2, Ei. set (x := next_id (tx_id (slink s))). set (s3 := on_link (set_tx_id x) s2). assert (holds s3 b0 []) as H3 by exact Hb.
  change (l_id (slink s3)) with (l_id (slink s2)). rewrite E2, Eid. destruct (put_spec s3 b0 (start_pdu (l_id (slink s)) x msg) [] H3) as [H4 _].
  set (s5 := on_link (λ l, _) _). intros E.
  destruct (conts_air x 4 (drop START_PAYLOAD_MAX msg) s5 [b0] [start_pdu (l_id (slink s)) x msg] s') as (A & Ai & Ax & Al); [| by constructor | cbn; lia | rewrite length_drop; unfold START_PAYLOAD_MAX; lia | exact E|].
  { cbn. rewrite E2, T. done. }
  change (l_id (slink s5)) with (l_id (slink s2)) in *. change (tx_id (slink s5)) with x in *. rewrite E2, Eid in A, Ai. repeat split; try done. rewrite length_drop in Al. cbn in Al. unfold START_PAYLOAD_MAX in Al. lia.
Qed.

(** ** Receiving *)

Section Receive.
Variables (ctx0 : tc_sha256_state_struct) (t : genie_triple_t) (prov : bt_mesh_prov).

(** What receiving segments does not touch. *)
Definition untouched (r r' : pst) : Prop :=
  session (slink r') = session (slink r) /\ expect (slink r') = expect (slink r) /\ conf_inputs (slink r') = conf_inputs (slink r) /\ hst r' = hst r /\ tr r' = tr r /\ plog r' = plog r /\ g_auth r' = g_auth r /\ l_conn (slink r') = l_conn (slink r).

(** [k] bytes of the message are there; [seg] are the segments that are missing. *)
Record partial (r r' : pst) (x : Z) (msg : list Z) (k : nat) (seg last : Z) : Prop := {
  pa_data : take k (client_buf r') = take k msg /\ length (client_buf r') = CLIENT_BUF_SIZE; pa_len : client_len r' = Z.of_nat (length msg);
  pa_fcs : rx_fcs (slink r') = bt_mesh_fcs_calc msg; pa_id : rx_id (slink r') = x; pa_seg : rx_seg (slink r') = seg /\ rx_last_seg (slink r') = last;
  pa_link : LINK_ACTIVE (slink r') = true /\ l_id (slink r') = l_id (slink r) /\ rx_buf (slink r') = true; pa_same : untouched r r' }.

Record listening (r : pst) (id x : Z) : Prop := {
  li_link : LINK_ACTIVE (slink r) = true /\ l_id (slink r) = id /\ rx_buf (slink r) = true; li_seg : rx_seg (slink r) = 0; li_prev : prev_id (slink r) ≠ x;
  li_buf : length (client_buf r) = CLIENT_BUF_SIZE; li_id : 0 <= id < 4294967296 }.

Lemma be32_be id tl : 0 <= id < 4294967296 → get_be32 (be32 id ++ tl) = id.
Proof. intros H. unfold get_be32. cbn [app be32 nth]. by apply be32_get. Qed.

Lemma recv_pdu p id x g tl r : LINK_ACTIVE (slink r) = true → l_id (slink r) = id → 0 <= id < 4294967296 →
  bt_mesh_pb_adv_recv ctx0 t prov p (be32 id ++ [x; g] ++ tl) r = gen_prov_recv ctx0 t prov (mkRx id x g) tl r.
Proof.
  intros A I H. unfold bt_mesh_pb_adv_recv, bt_prov_active. rewrite A. cbn [negb andb]. rewrite be32_be by done. change (Nat.ltb (length (be32 id ++ [x; g] ++ tl)) 6) with false. cbv iota zeta.
  change (nth 4 (be32 id ++ [x; g] ++ tl) 0) with x. change (nth 5 (be32 id ++ [x; g] ++ tl) 0) with g. change (drop 6 (be32 id ++ [x; g] ++ tl)) with tl. cbn [link_id]. by rewrite I, Z.eqb_refl.
Qed.

(** The bits of the segments that are missing after the first one. *)
Definition missing (last : Z) : Z := u8 (Z.land (u8 (Z.shiftl 1 (last + 1) - 1)) (Z.lnot (Z.shiftl 1 0))).

Lemma gpc_start k : (k <= 2)%nat → GPCF (GPC_START (Z.of_nat k)) = 0 /\ Z.shiftr (GPC_START (Z.of_nat k)) 2 = Z.of_nat k.
Proof. intros H. destruct k as [|[|[|k]]]; [done..|lia]. Qed.
Lemma gpc_cont k : (k <= 2)%nat → GPCF (GPC_CONT (Z.of_nat k)) = 2 /\ Z.shiftr (GPC_CONT (Z.of_nat k)) 2 = Z.of_nat k.
Proof. intros H. destruct k as [|[|[|k]]]; [done..|lia]. Qed.
Lemma last_seg_bound n : (n <= 65)%nat → (last_seg n <= 2)%nat /\ (last_seg n = 0%nat ↔ (n <= 20)%nat).
Proof.
  intros L. unfold last_seg. destruct (Nat.leb_spec n START_PAYLOAD_MAX); unfold START_PAYLOAD_MAX, CONT_PAYLOAD_MAX in *; [lia|].
  assert ((n - 20) / 23 < 2)%nat by (apply Nat.Div0.div_lt_upper_bound; lia). lia.
Qed.
Lemma rx_write_eq off d s : (0 < length d)%nat → 0 <= off → off + Z.of_nat (length d) <= Z.of_nat CLIENT_BUF_SIZE → rx_write off d s = Some (set_client (client_len s) (store_at (Z.to_nat off) d (client_buf s)) s).
Proof. intros Hd H0 H. unfold rx_write. destruct d as [|z d]; [cbn in Hd; lia|]. by rewrite (proj2 (Z.leb_le _ _) H0), (proj2 (Z.leb_le _ _) H). Qed.

Lemma recv_start p r id x msg : listening r id x → (1 <= length msg <= 65)%nat → let last := Z.of_nat (last_seg (length msg)) in
  exists r1, partial r r1 x msg (Nat.min 20 (length msg)) (missing last) last /\
  bt_mesh_pb_adv_recv ctx0 t prov p (start_pdu id x msg) r = if truthy (missing last) then Some r1 else prov_msg_recv ctx0 t prov r1.
Proof.
  intros [(A & I & B) S P Lb Hi] L. cbv zeta. unfold start_pdu. rewrite recv_pdu by done. destruct (last_seg_bound (length msg)) as [Hl H20]; [lia|]. set (last := last_seg (length msg)) in *.
  destruct (gpc_start last Hl) as [G1 G2]. unfold gen_prov_recv. cbn [gpc]. rewrite G1. change (gen_prov ctx0 t prov !! Z.to_nat 0) with (Some (gen_prov_start ctx0 t prov, true, 3%nat)). cbn [mbind option_bind].
  set (buf := be16 _ ++ _). change (Nat.ltb (length buf) 3) with false. rewrite A. cbn [negb andb]. unfold gen_prov_start. cbv zeta. rewrite S. cbn [truthy Z.eqb negb xact_id gpc].
  rewrite (proj2 (Z.eqb_neq _ _) P), B. cbn [negb]. cbv zeta. rewrite G2. change (nth 2 buf 0) with (bt_mesh_fcs_calc msg). change (drop 3 buf) with (take START_PAYLOAD_MAX msg).
  replace (get_be16 (nth 0 buf 0) (nth 1 buf 0)) with (Z.of_nat (length msg)) by (symmetry; apply get_be16_be16; lia). clear buf.
  assert ((Z.of_nat (length msg) <? 1) = false) as -> by lia. assert ((Z.of_nat CLIENT_BUF_SIZE <? Z.of_nat (length msg)) = false) as -> by (apply Z.ltb_ge; unfold CLIENT_BUF_SIZE; lia).
  replace ((0 <? Z.of_nat last) && (Z.of_nat (length msg) <=? 20)) with false by (symmetry; apply andb_false_iff; destruct (Z.ltb_spec 0 (Z.of_nat last)); [right; lia | by left]).
  assert (length (take START_PAYLOAD_MAX msg) = Nat.min 20 (length msg)) as Lt by (rewrite length_take; reflexivity).
  rewrite rx_write_eq by (rewrite ?Lt; unfold CLIENT_BUF_SIZE; lia). cbn [mbind option_bind]. set (r1 := on_link (XACT_SEG_RECV 0) _). exists r1. split.
  - destruct (store_prefix [] (take START_PAYLOAD_MAX msg) (client_buf r) eq_refl) as [P1 P2]; [rewrite Lt, Lb; unfold CLIENT_BUF_SIZE; cbn [length]; lia|].
    split; try done. split; [|change (length (store_at 0 (take START_PAYLOAD_MAX msg) (client_buf r)) = CLIENT_BUF_SIZE); cbn in P2; by rewrite <- Lb].
    change (take (Nat.min 20 (length msg)) (store_at 0 (take START_PAYLOAD_MAX msg) (client_buf r)) = take (Nat.min 20 (length msg)) msg).
    rewrite <- Lt. etransitivity; [exact P1|]. cbn [app]. rewrite Lt. destruct (Nat.min_spec 20 (length msg)) as [[? ->]|[? ->]]; [done|]. by rewrite !take_ge by (unfold START_PAYLOAD_MAX; lia).
  - change (rx_seg (slink r1)) with (missing (Z.of_nat last)). by destruct (truthy (missing (Z.of_nat last))).
Qed.

Lemma recv_cont p r id r1 x msg k n seg last payload : listening r id x → partial r r1 x msg n seg last → (length msg <= 65)%nat → (1 <= k <= 2)%nat → n = (20 + 23 * (k - 1))%nat →
  Z.of_nat k <= last → truthy seg = true → truthy (Z.land seg (Z.shiftl 1 (Z.of_nat k))) = true → take (length payload) (drop n msg) = payload → (0 < length payload)%nat → (n + length payload <= length msg)%nat →
  (Z.of_nat k = last → (n + length payload = length msg)%nat) →
  let seg' := u8 (Z.land seg (Z.lnot (Z.shiftl 1 (Z.of_nat k)))) in
  exists r2, partial r r2 x msg (n + length payload) seg' last /\
  bt_mesh_pb_adv_recv ctx0 t prov p (cont_pdu id x k payload) r1 = if truthy seg' then Some r2 else prov_msg_recv ctx0 t prov r2.
Proof.
  intros [(_ & I & _) _ _ _ Hi] [[D Lb] Lc F X [Sg Ls] (A & I1 & B) U] Lm Hk En Hl T Tb Ep Lp Ln Hlast. cbv zeta. unfold cont_pdu. rewrite recv_pdu by (congruence || done).
  destruct (gpc_cont k) as [G1 G2]; [lia|]. unfold gen_prov_recv. cbn [gpc]. rewrite G1. change (gen_prov ctx0 t prov !! Z.to_nat 2) with (Some (gen_prov_cont ctx0 t prov, true, 0%nat)). cbn [mbind option_bind]. change (Nat.ltb (length payload) 0) with false. rewrite A. cbn [negb andb].
  unfold gen_prov_cont. cbv zeta. cbn [gpc xact_id]. rewrite G2, Sg, Ls, T, X, Lc, B, Z.eqb_refl, Tb. cbn [negb andb].
  rewrite (proj2 (Z.ltb_ge _ _) Hl).
  assert (((Z.of_nat k =? last) && negb (u8 (Z.of_nat (length msg) - 20 - 23 * (last - 1)) =? Z.of_nat (length payload))) = false) as ->.
  { destruct (Z.eqb_spec (Z.of_nat k) last) as [E|]; [|done]. specialize (Hlast E). subst last. rewrite u8_small by lia. cbn [andb]. apply negb_false_iff, Z.eqb_eq. lia. }
  rewrite rx_write_eq by (unfold CLIENT_BUF_SIZE; lia). cbn [mbind option_bind]. set (r2 := on_link (XACT_SEG_RECV _) _). exists r2.
  assert (rx_seg (slink r2) = u8 (Z.land seg (Z.lnot (Z.shiftl 1 (Z.of_nat k))))) as E2 by (rewrite <- Sg; reflexivity). split.
  - assert (length (take n msg) = n) as Ltk by (rewrite length_take; lia).
    destruct (store_prefix (take n msg) payload (client_buf r1)) as [P1 P2]; [by rewrite Ltk | rewrite Ltk, Lb; unfold CLIENT_BUF_SIZE; lia|]. rewrite length_app, Ltk in P1. rewrite Ltk in P2.
    assert (Z.to_nat (20 + (Z.of_nat k - 1) * 23) = n) as Eo by lia. split; try done.
    + split; [|change (length (store_at (Z.to_nat (20 + (Z.of_nat k - 1) * 23)) payload (client_buf r1)) = CLIENT_BUF_SIZE); by rewrite Eo, P2].
      change (take (n + length payload) (store_at (Z.to_nat (20 + (Z.of_nat k - 1) * 23)) payload (client_buf r1)) = take (n + length payload) msg).
      rewrite Eo, P1, <- take_take_drop. by rewrite Ep.
  - rewrite E2. by destruct (truthy (u8 _)).
Qed.

Lemma fcs_own msg : all_u8 msg → bt_mesh_fcs_check msg (bt_mesh_fcs_calc msg) = true.
Proof.
  intros U. pose proof (fcs_fold_byte msg 255 U ltac:(lia)) as F. unfold bt_mesh_fcs_check, bt_mesh_fcs_calc. rewrite fcs_accept by lia. apply Z.eqb_refl.
Qed.

(** The message is complete. *)
Record arrived (r r' : pst) (x : Z) (msg : list Z) : Prop := {
  ar_data : rx_data r' = msg; ar_fcs : bt_mesh_fcs_check (rx_data r') (rx_fcs (slink r')) = true; ar_id : rx_id (slink r') = x; ar_seg : rx_seg (slink r') = 0; ar_same : untouched r r' }.
Lemma partial_arrived r r' x msg last : all_u8 msg → partial r r' x msg (length msg) 0 last → arrived r r' x msg.
Proof.
  intros U [[D Lb] Lc F X [Sg Ls] A Sm]. assert (rx_data r' = msg) as E by (unfold rx_data; rewrite Lc, Nat2Z.id, D; by apply take_ge). split; try done. rewrite E, F. by apply fcs_own.
Qed.

Definition hear_adv (p : bool) (pdus : list (list Z)) (r : pst) : option pst := foldl (λ r d, r ← r; bt_mesh_pb_adv_recv ctx0 t prov p d r) (Some r) pdus.

Lemma segments_heard p r id x msg : listening r id x → all_u8 msg → (1 <= length msg <= 65)%nat → length msg ≠ 43%nat →
  exists r', arrived r r' x msg /\ hear_adv p (segments id x msg) r = prov_msg_recv ctx0 t prov r'.
Proof.
  intros Li U L N. unfold hear_adv, segments. cbn [foldl mbind option_bind]. destruct (recv_start p r id x msg Li L) as (r1 & P1 & E1). rewrite E1. clear E1.
  unfold last_seg in P1 |- *. destruct (Nat.leb_spec (length msg) START_PAYLOAD_MAX) as [H|H]; unfold START_PAYLOAD_MAX, CONT_PAYLOAD_MAX in *.
  { exists r1. rewrite (drop_ge msg) by lia. split; [|done]. rewrite Nat.min_r in P1 by lia. by eapply partial_arrived. }
  rewrite Nat.min_l in P1 by lia. destruct (drop 20 msg) as [|z1 m1] eqn:D1; [apply (f_equal length) in D1; rewrite length_drop in D1; cbn in D1; lia|].
  destruct (decide (length msg < 43)%nat) as [H43|H43].
  - rewrite (Nat.div_small (length msg - 20) 23) in P1 |- * by lia. change (truthy (missing (Z.of_nat (1 + 0)))) with true. cbv iota.
    unfold cont_pdus. rewrite <- D1. rewrite (take_ge (drop 20 msg)), (drop_ge (drop 20 msg)) by (rewrite length_drop; unfold CONT_PAYLOAD_MAX; lia). cbn [foldl mbind option_bind].
    destruct (recv_cont p r id r1 x msg 1 20 (missing 1) 1 (drop 20 msg)) as (r2 & P2 & E2); try done; try (rewrite ?length_drop; lia); [by apply take_ge; lia|].
    exists r2. rewrite E2. split; [|done]. rewrite length_drop in P2. replace (20 + (length msg - 20))%nat with (length msg) in P2 by lia. by eapply partial_arrived.
  - assert ((length msg - 20) / 23 = 1)%nat as Ed by (symmetry; apply (Nat.div_unique _ _ _ (length msg - 43)); lia). rewrite Ed in P1 |- *. change (truthy (missing (Z.of_nat (1 + 1)))) with true. cbv iota.
    unfold cont_pdus. rewrite <- D1, drop_drop. change (20 + CONT_PAYLOAD_MAX)%nat with 43%nat. destruct (drop 43 msg) as [|z2 m2] eqn:D2; [apply (f_equal length) in D2; rewrite length_drop in D2; cbn in D2; lia|]. rewrite <- D2.
    rewrite (take_ge (drop 43 msg)) by (rewrite length_drop; unfold CONT_PAYLOAD_MAX; lia). cbn [foldl mbind option_bind].
    assert (length (take CONT_PAYLOAD_MAX (drop 20 msg)) = 23%nat) as L1 by (rewrite length_take, length_drop; unfold CONT_PAYLOAD_MAX; lia).
    destruct (recv_cont p r id r1 x msg 1 20 (missing 2) 2 (take CONT_PAYLOAD_MAX (drop 20 msg))) as (r2 & P2 & E2); try done; try (rewrite ?L1; lia); [by rewrite L1|].
    rewrite E2. change (truthy _) with true at 1. cbv iota. cbn [mbind option_bind]. rewrite L1 in P2.
    destruct (recv_cont p r id r2 x msg 2 43 4 2 (drop 43 msg)) as (r3 & P3 & E3); try done; try (rewrite ?length_drop; lia); [by apply take_ge; lia|].
    exists r3. rewrite E3. split; [|done]. rewrite length_drop in P3. replace (43 + (length msg - 43))%nat with (length msg) in P3 by lia. by eapply partial_arrived.
Qed.
End Receive.

(** [C7] What one side sends over PB-ADV the other side gets: when a message of one to sixty-five bytes, other than forty-three, is sent, the buffers of the transaction hold segments which, heard in order by a device that listens on this link and has not just had this transaction, put exactly the message into its receive buffer, with a check sequence that is accepted, and hand it to the protocol. *)
Theorem pb_adv_roundtrip ctx0 t prov p s msg s' r : tx_prefix (tx_buf (slink s)) → all_u8 msg → (1 <= length msg <= 65)%nat → length msg ≠ 43%nat → prov_send_adv msg s = (0, s') →
  listening r (l_id (slink s)) (tx_id (slink s')) →
  exists pdus r', on_air s' pdus /\ arrived r r' (tx_id (slink s')) msg /\ hear_adv ctx0 t prov p pdus r = prov_msg_recv ctx0 t prov r'.
Proof.
  intros P U L N E Li. destruct (send_air s msg s' P ltac:(lia) E) as (A & _ & X & _). rewrite <- X in A.
  destruct (segments_heard ctx0 t prov p r _ _ msg Li U L N) as (r' & Ar & H). eauto.
Qed.

Definition sample_sender : pst := on_link (set_active true) (on_link (set_link_id 305419896) sample_pst).
Definition sample_msg : list Z := PROV_PUB_KEY :: sample_pk.
Lemma pb_adv_roundtrip_witness : exists s' pdus r', prov_send_adv sample_msg sample_sender = (0, s') /\ on_air s' pdus /\ arrived sample_sender r' 128 sample_msg.
Proof.
  destruct (pb_adv_roundtrip sample_ctx sample_triple sample_prov false sample_sender sample_msg (snd (prov_send_adv sample_msg sample_sender)) sample_sender) as (pdus & r' & A & H & _).
  - exists []. split; [reflexivity | cbn; lia].
  - apply u8_list_ok. reflexivity.
  - split; vm_compute; lia.
  - discriminate.
  - vm_compute. reflexivity.
  - split; [repeat split | reflexivity | vm_compute; discriminate | reflexivity | cbn; lia].
  - exists (snd (prov_send_adv sample_msg sample_sender)), pdus, r'. split; [vm_compute; reflexivity|]. split; [exact A|]. exact H.
Defined.

(** ** Where the code does something else *)

Definition link_open_pdu (id : Z) : list Z := be32 id ++ [0; GPC_CTL LINK_OPEN] ++ prov_uuid sample_prov.
(** A first segment that announces nine segments and sixty-five bytes, and its segment number seven. *)
Definition long_start : list Z := be32 7 ++ [1; GPC_START 8] ++ [0; 65; 0] ++ zeros 20.
Definition seventh : list Z := be32 7 ++ [1; GPC_CONT 7] ++ zeros 23.

(** Three advertisements, before any authentication, make the device write behind its receive buffer: the number of a segment is compared with the last segment the sender announced, and neither with the length of the message nor with the size of the buffer. *)
Theorem segment_overflow :
  (exists s, hear_adv sample_ctx sample_triple sample_prov false [link_open_pdu 7; long_start] sample_pst = Some s) /\
  hear_adv sample_ctx sample_triple sample_prov false [link_open_pdu 7; long_start; seventh] sample_pst = None.
Proof. split; [eexists|]; vm_compute; reflexivity. Qed.

(** A GATT link that is closed clears the pointer to the receive buffer, and nothing sets it again: the next link over advertisements uses the null pointer. *)
Theorem gatt_close_breaks_adv :
  (exists s, pruns sample_ctx sample_triple sample_prov [IGattOpen 4; IGattClose 4] sample_pst = Some s) /\
  pruns sample_ctx sample_triple sample_prov [IGattOpen 4; IGattClose 4; IAdv false (link_open_pdu 7)] sample_pst = None.
Proof. split; [eexists|]; vm_compute; reflexivity. Qed.

(** A method of authentication the device refuses does not end the session: it sends an error and expects the public key. *)
Theorem refused_method_continues : exists s,
  pruns sample_ctx sample_triple sample_prov [IGattOpen 4; IGattRecv 4 [PROV_INVITE; 0]; IGattRecv 4 [PROV_START; 0; 0; 0; 0; 0]; IGattRecv 4 (PROV_PUB_KEY :: sample_rk)] sample_pst = Some s /\
  gatt_sent (plog s) = [PROV_CAPABILITIES :: capabilities sample_prov; [PROV_FAILED; PROV_ERR_NVAL_FMT]; PROV_PUB_KEY :: swap_halves sample_pk] /\ expect (slink s) = PROV_CONFIRM.
Proof. eexists. split; [vm_compute; reflexivity | split; vm_compute; reflexivity]. Qed.

(** A message of forty-three bytes is sent in two segments that announce three, and the receiver waits for the third. *)
Theorem forty_three_lost : let msg := zeros 43 in
  length (segments 305419896 128 msg) = 2%nat /\ exists s, hear_adv sample_ctx sample_triple sample_prov false (segments 305419896 128 msg) sample_sender = Some s /\ rx_seg (slink s) = 4 /\ pending_ack s = XACT_NVAL.
Proof. split; [reflexivity|]. eexists. split; [vm_compute; reflexivity | split; reflexivity]. Qed.

(** The end of a link never switches the attention timer off: the code tests its duration after it has cleared the link. *)
Theorem reset_keeps_attention prov s : plog (reset_link prov s) = plog (prov_clear_tx s) ++ (if has_link_close prov then [PvLinkClose false] else []).
Proof. unfold reset_link. destruct (has_link_close prov), (bt_mesh_pub_key_get _); cbn; by rewrite ?app_nil_r. Qed.

(** What the advertising thread puts on the air from the queue of [n] buffers. *)
Fixpoint aired (n : nat) (s : pst) : list (list Z) :=
  match n with O => [] | S n => match fst (adv_thread (tr s)) with Some d => [d] | None => [] end ++ aired n (adv_sent s) end.
(** A link over advertisements that fails is closed without its error message: the message is cancelled by the closing message before it is on the air. *)
Theorem failure_not_sent : exists s,
  pruns sample_ctx sample_triple sample_prov [IAdv false (link_open_pdu 7); IAdvSent; IAdv false (be32 7 ++ [1; GPC_START 0; 0; 0; 0])] sample_pst = Some s /\
  length (adv_queue (tr s)) = 2%nat /\ aired 2 s = [be32 7 ++ [0; GPC_CTL LINK_CLOSE; CLOSE_REASON_FAILED]].
Proof. eexists. split; [vm_compute; reflexivity | split; vm_compute; reflexivity]. Qed.

Definition secret (l : prov_link) : bool * list Z := (HAVE_DHKEY l, dhkey l).
Lemma sending_secret s s' : sending s s' → secret (slink s') = secret (slink s).
Proof. intros [(a & b & c & d & L)]. by rewrite L. Qed.
Lemma close_secret prov e reason s : l_conn (slink s) = None → secret (slink (close_link prov e reason s)) = secret (slink s).
Proof.
  intros C. unfold close_link. rewrite C. cbv zeta. set (s1 := if truthy e then _ else s). assert (secret (slink s1) = secret (slink s)) as <- by (subst s1; destruct (truthy e); [apply sending_secret, sending_fail | done]).
  set (s2 := on_link _ s1). set (s3 := snd (bearer_ctl_send _ _ s2)). change (secret (slink s1)) with (secret (slink s2)). rewrite <- (sending_secret s2 s3 (sending_ctl _ _ _)). clearbody s3. set (s4 := on_link (set_active false) s3). change (secret (slink s3)) with (secret (slink s4)). by destruct (truthy (nth 0 (conf_inputs (slink s4)) 0)).
Qed.
Lemma open_secret prov rx buf s s' : link_open prov rx buf s = Some s' → secret (slink s') = secret (slink s).
Proof.
  unfold link_open. destruct (Nat.ltb _ _); [by intros [= <-]|]. destruct (LINK_ACTIVE _); [by intros [= <-]|]. destruct (negb (bool_decide _)); [by intros [= <-]|]. cbv zeta.
  set (s1 := if has_link_open prov then _ else s). assert (secret (slink s1) = secret (slink s)) as <- by (subst s1; by destruct (has_link_open prov)). destruct (negb (rx_buf _)); [done|].
  set (s2 := set_client 0 _ _). intros [= <-]. change (secret (slink s1)) with (secret (slink s2)). rewrite <- (sending_secret s2 _ (sending_ctl LINK_ACK [] s2)). done.
Qed.
(** A link over advertisements that fails leaves its shared secret behind, marked as valid, and the next link starts with it. *)
Theorem stale_secret prov e reason s id buf s' : l_conn (slink s) = None → HAVE_DHKEY (slink s) = true → link_open prov (mkRx id 0 3) buf (close_link prov e reason s) = Some s' →
  HAVE_DHKEY (slink s') = true /\ dhkey (slink s') = dhkey (slink s).
Proof.
  intros C H E. apply open_secret in E. rewrite close_secret in E by done. unfold secret in E. injection E as E1 E2. by rewrite E1, E2.
Qed.
