(* ===== verification/Kernel.v ===== *)
(** * Kernel: tasks, scheduling, semaphores and mutexes of the rhino kernel (kernel/rhino/core)

    The scheduler of the operating system below the stack: k_bitmap.h, k_sched.c, k_pend.c,
    k_tick.c, k_sem.c, k_mutex.c, the task operations of k_task.c, and the interrupt and
    tick entry points of k_sys.c and k_time.c, for one CPU.

    Tasks and kernel objects are numbered; [tasks] and [objs] are the memory behind the
    pointers, so the null checks of those arguments are left out.  A circular list is the
    list of its members from the one the head points to on: the ready list of a priority
    from [cur_list_item], the block list of an object and the tick list from behind their
    heads.  [n_tasks] and [n_objs] bound the memory of task blocks and of objects.  The
    mutexes of a task are chained by pointers as in the source: [mutex_list] of the task,
    then [mutex_next] (the field [mutex_list] of [kmutex_t]).  [kobj] has the fields of
    [ksem_t] and of [kmutex_t]; [obj_type] says which.  [None] stands for [k_err_proc],
    which stops the system, for a null or wild pointer and for a loop that does not end.

    A function that blocks its caller ends at the switch to another task with [Pends]; what
    it does when the task runs again is [pend_state_end_proc].  Tracing, hooks, statistics
    and stacks have no part in the model. *)
From Stdlib Require Import ZArith Lia List Bool.
From stdpp Require Import base list numbers option.
From S2P Require Import Prelude.
Local Open Scope Z_scope.

(** ** Data *)

Definition RHINO_CONFIG_PRI_MAX : Z := 62.
Definition RHINO_IDLE_PRI : Z := RHINO_CONFIG_PRI_MAX - 1.
Definition RHINO_CONFIG_TIME_SLICE_DEFAULT : Z := 50.
Definition RHINO_NO_WAIT : Z := 0.
Definition RHINO_WAIT_FOREVER : Z := 18446744073709551615.
Definition SCHED_MAX_LOCK_COUNT : Z := 200.
Definition tick_wrap (z : Z) : Z := z mod 18446744073709551616.
(** The conversion of a [tick_t] to [int]. *)
Definition to_int (z : Z) : Z := let u := z mod 4294967296 in if u <? 2147483648 then u else u - 4294967296.

Inductive task_stat_t := K_SEED | K_RDY | K_PEND | K_SUSPENDED | K_PEND_SUSPENDED | K_SLEEP | K_SLEEP_SUSPENDED | K_DELETED.
Inductive blk_state_t := BLK_FINISH | BLK_ABORT | BLK_TIMEOUT | BLK_DEL | BLK_INVALID.
Inductive blk_policy_t := BLK_POLICY_PRI | BLK_POLICY_FIFO.
Inductive kobj_type_t :=
| RHINO_OBJ_TYPE_NONE | RHINO_SEM_OBJ_TYPE | RHINO_MUTEX_OBJ_TYPE | RHINO_QUEUE_OBJ_TYPE | RHINO_BUF_QUEUE_OBJ_TYPE | RHINO_TIMER_OBJ_TYPE | RHINO_EVENT_OBJ_TYPE | RHINO_MM_OBJ_TYPE.
Inductive alloc_flag := K_OBJ_STATIC_ALLOC | K_OBJ_DYN_ALLOC.
Inductive sched_policy_t := KSCHED_FIFO | KSCHED_RR.
Inductive kstat_t :=
| RHINO_SUCCESS | RHINO_SYS_FATAL_ERR | RHINO_SYS_SP_ERR | RHINO_RUNNING | RHINO_STOPPED | RHINO_INV_PARAM
| RHINO_NULL_PTR | RHINO_INV_ALIGN | RHINO_KOBJ_TYPE_ERR | RHINO_KOBJ_DEL_ERR | RHINO_KOBJ_DOCKER_EXIST | RHINO_KOBJ_BLK
| RHINO_KOBJ_SET_FULL | RHINO_NOTIFY_FUNC_EXIST | RHINO_MM_POOL_SIZE_ERR | RHINO_MM_ALLOC_SIZE_ERR | RHINO_MM_FREE_ADDR_ERR | RHINO_MM_CORRUPT_ERR
| RHINO_DYN_MEM_PROC_ERR | RHINO_NO_MEM | RHINO_RINGBUF_FULL | RHINO_RINGBUF_EMPTY | RHINO_SCHED_DISABLE | RHINO_SCHED_ALREADY_ENABLED
| RHINO_SCHED_LOCK_COUNT_OVF | RHINO_INV_SCHED_WAY | RHINO_TASK_INV_STACK_SIZE | RHINO_TASK_NOT_SUSPENDED | RHINO_TASK_DEL_NOT_ALLOWED | RHINO_TASK_SUSPEND_NOT_ALLOWED
| RHINO_SUSPENDED_COUNT_OVF | RHINO_BEYOND_MAX_PRI | RHINO_PRI_CHG_NOT_ALLOWED | RHINO_INV_TASK_STATE | RHINO_IDLE_TASK_EXIST | RHINO_NO_PEND_WAIT
| RHINO_BLK_ABORT | RHINO_BLK_TIMEOUT | RHINO_BLK_DEL | RHINO_BLK_INV_STATE | RHINO_BLK_POOL_SIZE_ERR | RHINO_TIMER_STATE_INV
| RHINO_NO_THIS_EVENT_OPT | RHINO_BUF_QUEUE_INV_SIZE | RHINO_BUF_QUEUE_SIZE_ZERO | RHINO_BUF_QUEUE_FULL | RHINO_BUF_QUEUE_MSG_SIZE_OVERFLOW | RHINO_QUEUE_FULL
| RHINO_QUEUE_NOT_FULL | RHINO_SEM_OVF | RHINO_SEM_TASK_WAITING | RHINO_MUTEX_NOT_RELEASED_BY_OWNER | RHINO_MUTEX_OWNER_NESTED | RHINO_MUTEX_NESTED_OVF
| RHINO_NOT_CALLED_BY_INTRPT | RHINO_TRY_AGAIN | RHINO_WORKQUEUE_EXIST | RHINO_WORKQUEUE_NOT_EXIST | RHINO_WORKQUEUE_WORK_EXIST | RHINO_WORKQUEUE_BUSY
| RHINO_WORKQUEUE_WORK_RUNNING | RHINO_TASK_STACK_OVF | RHINO_INTRPT_STACK_OVF.
#[export] Instance task_stat_eq_dec : EqDecision task_stat_t.
Proof. solve_decision. Defined.
#[export] Instance kobj_type_eq_dec : EqDecision kobj_type_t.
Proof. solve_decision. Defined.
#[export] Instance alloc_flag_eq_dec : EqDecision alloc_flag.
Proof. solve_decision. Defined.

(** What a call returns: a status, or nothing yet because the caller waits. *)
Inductive kret := Returns (st : kstat_t) | Pends.

(** [on_tick]: [tick_head] is not null. *)
Record ktask_t := mkTask {
  task_state : task_stat_t; prio : Z; b_prio : Z; blk_state : blk_state_t; blk_obj : option nat; suspend_count : Z;
  tick_match : Z; tick_remain : Z; on_tick : bool; mutex_list : option nat; task_sem_obj : option nat;
  time_slice : Z; time_total : Z; sched_policy : sched_policy_t; task_alloc : alloc_flag }.
Record kobj := mkObj {
  obj_type : kobj_type_t; blk_policy : blk_policy_t; blk_list : list nat; mm_alloc_flag : alloc_flag;
  sem_count : Z; peak_count : Z; mutex_task : option nat; owner_nested : Z; mutex_next : option nat }.
Record runqueue_t := mkRq { cur_list_item : Z → list nat; task_bit_map : list Z; highest_pri : Z }.
Record kern := mkKern {
  tasks : nat → ktask_t; objs : nat → kobj; n_tasks : nat; n_objs : nat; g_ready_queue : runqueue_t; g_tick_head : list nat; g_tick_count : Z;
  g_active_task : nat; g_sched_lock : Z; g_intrpt_nested_level : Z; running : bool; idle_spawned : bool; g_res_list : list nat }.

Definition upd {A} (f : nat → A) (k : nat) (v : A) : nat → A := λ x, if Nat.eqb x k then v else f x.
Definition updz {A} (f : Z → A) (k : Z) (v : A) : Z → A := λ x, if x =? k then v else f x.

Definition set_tasks (f : nat → ktask_t) (s : kern) : kern := mkKern f (objs s) (n_tasks s) (n_objs s) (g_ready_queue s) (g_tick_head s) (g_tick_count s) (g_active_task s) (g_sched_lock s) (g_intrpt_nested_level s) (running s) (idle_spawned s) (g_res_list s).
Definition set_objs (f : nat → kobj) (s : kern) : kern := mkKern (tasks s) f (n_tasks s) (n_objs s) (g_ready_queue s) (g_tick_head s) (g_tick_count s) (g_active_task s) (g_sched_lock s) (g_intrpt_nested_level s) (running s) (idle_spawned s) (g_res_list s).
Definition set_rq (q : runqueue_t) (s : kern) : kern := mkKern (tasks s) (objs s) (n_tasks s) (n_objs s) q (g_tick_head s) (g_tick_count s) (g_active_task s) (g_sched_lock s) (g_intrpt_nested_level s) (running s) (idle_spawned s) (g_res_list s).
Definition set_ticks (l : list nat) (n : Z) (s : kern) : kern := mkKern (tasks s) (objs s) (n_tasks s) (n_objs s) (g_ready_queue s) l n (g_active_task s) (g_sched_lock s) (g_intrpt_nested_level s) (running s) (idle_spawned s) (g_res_list s).
Definition set_active (t : nat) (s : kern) : kern := mkKern (tasks s) (objs s) (n_tasks s) (n_objs s) (g_ready_queue s) (g_tick_head s) (g_tick_count s) t (g_sched_lock s) (g_intrpt_nested_level s) (running s) (idle_spawned s) (g_res_list s).
Definition set_lock (n : Z) (s : kern) : kern := mkKern (tasks s) (objs s) (n_tasks s) (n_objs s) (g_ready_queue s) (g_tick_head s) (g_tick_count s) (g_active_task s) n (g_intrpt_nested_level s) (running s) (idle_spawned s) (g_res_list s).
Definition set_level (n : Z) (s : kern) : kern := mkKern (tasks s) (objs s) (n_tasks s) (n_objs s) (g_ready_queue s) (g_tick_head s) (g_tick_count s) (g_active_task s) (g_sched_lock s) n (running s) (idle_spawned s) (g_res_list s).
Definition set_running (b : bool) (s : kern) : kern := mkKern (tasks s) (objs s) (n_tasks s) (n_objs s) (g_ready_queue s) (g_tick_head s) (g_tick_count s) (g_active_task s) (g_sched_lock s) (g_intrpt_nested_level s) b (idle_spawned s) (g_res_list s).
Definition set_idle (b : bool) (s : kern) : kern := mkKern (tasks s) (objs s) (n_tasks s) (n_objs s) (g_ready_queue s) (g_tick_head s) (g_tick_count s) (g_active_task s) (g_sched_lock s) (g_intrpt_nested_level s) (running s) b (g_res_list s).
Definition set_res (l : list nat) (s : kern) : kern := mkKern (tasks s) (objs s) (n_tasks s) (n_objs s) (g_ready_queue s) (g_tick_head s) (g_tick_count s) (g_active_task s) (g_sched_lock s) (g_intrpt_nested_level s) (running s) (idle_spawned s) l.
Definition on_task (t : nat) (f : ktask_t → ktask_t) (s : kern) : kern := set_tasks (upd (tasks s) t (f (tasks s t))) s.
Definition on_obj (o : nat) (f : kobj → kobj) (s : kern) : kern := set_objs (upd (objs s) o (f (objs s o))) s.

Definition t_state (v : task_stat_t) (k : ktask_t) : ktask_t := mkTask v (prio k) (b_prio k) (blk_state k) (blk_obj k) (suspend_count k) (tick_match k) (tick_remain k) (on_tick k) (mutex_list k) (task_sem_obj k) (time_slice k) (time_total k) (sched_policy k) (task_alloc k).
Definition t_prio (v : Z) (k : ktask_t) : ktask_t := mkTask (task_state k) v (b_prio k) (blk_state k) (blk_obj k) (suspend_count k) (tick_match k) (tick_remain k) (on_tick k) (mutex_list k) (task_sem_obj k) (time_slice k) (time_total k) (sched_policy k) (task_alloc k).
Definition t_b_prio (v : Z) (k : ktask_t) : ktask_t := mkTask (task_state k) (prio k) v (blk_state k) (blk_obj k) (suspend_count k) (tick_match k) (tick_remain k) (on_tick k) (mutex_list k) (task_sem_obj k) (time_slice k) (time_total k) (sched_policy k) (task_alloc k).
Definition t_blk (b : blk_state_t) (k : ktask_t) : ktask_t := mkTask (task_state k) (prio k) (b_prio k) b (blk_obj k) (suspend_count k) (tick_match k) (tick_remain k) (on_tick k) (mutex_list k) (task_sem_obj k) (time_slice k) (time_total k) (sched_policy k) (task_alloc k).
Definition t_blk_obj (v : option nat) (k : ktask_t) : ktask_t := mkTask (task_state k) (prio k) (b_prio k) (blk_state k) v (suspend_count k) (tick_match k) (tick_remain k) (on_tick k) (mutex_list k) (task_sem_obj k) (time_slice k) (time_total k) (sched_policy k) (task_alloc k).
Definition t_suspend (v : Z) (k : ktask_t) : ktask_t := mkTask (task_state k) (prio k) (b_prio k) (blk_state k) (blk_obj k) v (tick_match k) (tick_remain k) (on_tick k) (mutex_list k) (task_sem_obj k) (time_slice k) (time_total k) (sched_policy k) (task_alloc k).
Definition t_tick (m : Z) (r : Z) (k : ktask_t) : ktask_t := mkTask (task_state k) (prio k) (b_prio k) (blk_state k) (blk_obj k) (suspend_count k) m r (on_tick k) (mutex_list k) (task_sem_obj k) (time_slice k) (time_total k) (sched_policy k) (task_alloc k).
Definition t_on_tick (b : bool) (k : ktask_t) : ktask_t := mkTask (task_state k) (prio k) (b_prio k) (blk_state k) (blk_obj k) (suspend_count k) (tick_match k) (tick_remain k) b (mutex_list k) (task_sem_obj k) (time_slice k) (time_total k) (sched_policy k) (task_alloc k).
Definition t_mutexes (v : option nat) (k : ktask_t) : ktask_t := mkTask (task_state k) (prio k) (b_prio k) (blk_state k) (blk_obj k) (suspend_count k) (tick_match k) (tick_remain k) (on_tick k) v (task_sem_obj k) (time_slice k) (time_total k) (sched_policy k) (task_alloc k).
Definition t_sem (v : option nat) (k : ktask_t) : ktask_t := mkTask (task_state k) (prio k) (b_prio k) (blk_state k) (blk_obj k) (suspend_count k) (tick_match k) (tick_remain k) (on_tick k) (mutex_list k) v (time_slice k) (time_total k) (sched_policy k) (task_alloc k).
Definition t_slice (v : Z) (k : ktask_t) : ktask_t := mkTask (task_state k) (prio k) (b_prio k) (blk_state k) (blk_obj k) (suspend_count k) (tick_match k) (tick_remain k) (on_tick k) (mutex_list k) (task_sem_obj k) v (time_total k) (sched_policy k) (task_alloc k).
Definition t_total (v : Z) (k : ktask_t) : ktask_t := mkTask (task_state k) (prio k) (b_prio k) (blk_state k) (blk_obj k) (suspend_count k) (tick_match k) (tick_remain k) (on_tick k) (mutex_list k) (task_sem_obj k) (time_slice k) v (sched_policy k) (task_alloc k).
Definition t_policy (v : sched_policy_t) (k : ktask_t) : ktask_t := mkTask (task_state k) (prio k) (b_prio k) (blk_state k) (blk_obj k) (suspend_count k) (tick_match k) (tick_remain k) (on_tick k) (mutex_list k) (task_sem_obj k) (time_slice k) (time_total k) v (task_alloc k).
Definition o_waiters (l : list nat) (o : kobj) : kobj := mkObj (obj_type o) (blk_policy o) l (mm_alloc_flag o) (sem_count o) (peak_count o) (mutex_task o) (owner_nested o) (mutex_next o).
Definition o_type (v : kobj_type_t) (o : kobj) : kobj := mkObj v (blk_policy o) (blk_list o) (mm_alloc_flag o) (sem_count o) (peak_count o) (mutex_task o) (owner_nested o) (mutex_next o).
Definition o_count (v : Z) (o : kobj) : kobj := mkObj (obj_type o) (blk_policy o) (blk_list o) (mm_alloc_flag o) v (peak_count o) (mutex_task o) (owner_nested o) (mutex_next o).
Definition o_peak (v : Z) (o : kobj) : kobj := mkObj (obj_type o) (blk_policy o) (blk_list o) (mm_alloc_flag o) (sem_count o) v (mutex_task o) (owner_nested o) (mutex_next o).
Definition o_owner (v : option nat) (o : kobj) : kobj := mkObj (obj_type o) (blk_policy o) (blk_list o) (mm_alloc_flag o) (sem_count o) (peak_count o) v (owner_nested o) (mutex_next o).
Definition o_nested (v : Z) (o : kobj) : kobj := mkObj (obj_type o) (blk_policy o) (blk_list o) (mm_alloc_flag o) (sem_count o) (peak_count o) (mutex_task o) v (mutex_next o).
Definition o_next (v : option nat) (o : kobj) : kobj := mkObj (obj_type o) (blk_policy o) (blk_list o) (mm_alloc_flag o) (sem_count o) (peak_count o) (mutex_task o) (owner_nested o) v.

(** ** Bitmap (k_bitmap.h) *)

Definition BITMAP_MASK (nr : Z) : Z := Z.shiftl 1 (31 - Z.land nr 31).
Definition BITMAP_WORD (nr : Z) : nat := Z.to_nat (Z.shiftr nr 5).
Definition krhino_bitmap_set (bm : list Z) (nr : Z) : list Z := alter (λ x, Z.lor x (BITMAP_MASK nr)) (BITMAP_WORD nr) bm.
Definition krhino_bitmap_clear (bm : list Z) (nr : Z) : list Z := alter (λ x, Z.land x (Z.lnot (BITMAP_MASK nr))) (BITMAP_WORD nr) bm.
(** One step of the binary search: if none of the bits of the mask is set, [n] positions are skipped. *)
Definition clz_step (mask n : Z) (st : Z * Z) : Z * Z :=
  let '(x, nr) := st in if Z.land x mask =? 0 then (Z.shiftl x n mod 4294967296, nr + n) else (x, nr).
(** [0XFFFF0000], [0XFF000000], [0XF0000000], [0XC0000000], [0X80000000]. *)
Definition first_bit (tmp nr : Z) : Z :=
  (clz_step 2147483648 1 (clz_step 3221225472 2 (clz_step 4026531840 4 (clz_step 4278190080 8 (clz_step 4294901760 16 (tmp, nr)))))).2.
Definition krhino_clz32 (x : Z) : Z := if x =? 0 then 32 else first_bit x 0.
Fixpoint krhino_find_first_bit (bm : list Z) (nr : Z) : option Z :=
  match bm with
  | [] => None
  | w :: bm => if w =? 0 then krhino_find_first_bit bm (nr + 32) else Some (first_bit w nr)
  end.

(** ** Ready queue and scheduler (k_sched.c) *)

Definition krhino_sched_disable (s : kern) : kret * kern :=
  if 0 <? g_intrpt_nested_level s then (Returns RHINO_NOT_CALLED_BY_INTRPT, s) else
  if SCHED_MAX_LOCK_COUNT <=? g_sched_lock s then (Returns RHINO_SCHED_LOCK_COUNT_OVF, s)
  else (Returns RHINO_SUCCESS, set_lock (g_sched_lock s + 1) s).

Definition preferred_cpu_ready_task_get (q : runqueue_t) : option nat := head (cur_list_item q (highest_pri q)).
Definition core_sched (s : kern) : option kern :=
  if 0 <? g_intrpt_nested_level s then Some s else
  if 0 <? g_sched_lock s then Some s else
  t ← preferred_cpu_ready_task_get (g_ready_queue s);
  Some (if Nat.eqb t (g_active_task s) then s else set_active t s).

Definition krhino_sched_enable (s : kern) : option (kret * kern) :=
  if 0 <? g_intrpt_nested_level s then Some (Returns RHINO_NOT_CALLED_BY_INTRPT, s) else
  if g_sched_lock s =? 0 then Some (Returns RHINO_SCHED_ALREADY_ENABLED, s) else
  let s1 := set_lock (g_sched_lock s - 1) s in
  if 0 <? g_sched_lock s1 then Some (Returns RHINO_SCHED_DISABLE, s1) else
  s2 ← core_sched s1; Some (Returns RHINO_SUCCESS, s2).

(** The bit map is static and therefore zero. *)
Definition runqueue_init : runqueue_t := mkRq (λ _, []) [0; 0] RHINO_CONFIG_PRI_MAX.
Definition ready_list_init (p : Z) (t : nat) (q : runqueue_t) : runqueue_t :=
  mkRq (updz (cur_list_item q) p [t]) (krhino_bitmap_set (task_bit_map q) p) (if p <? highest_pri q then p else highest_pri q).
Definition rq_put (p : Z) (l : list nat) (q : runqueue_t) : runqueue_t := mkRq (updz (cur_list_item q) p l) (task_bit_map q) (highest_pri q).
Definition rq_add_tail (p : Z) (t : nat) (q : runqueue_t) : runqueue_t :=
  match cur_list_item q p with [] => ready_list_init p t q | l => rq_put p (l ++ [t]) q end.
Definition rq_add_head (p : Z) (t : nat) (q : runqueue_t) : runqueue_t :=
  match cur_list_item q p with [] => ready_list_init p t q | l => rq_put p (t :: l) q end.
Definition ready_list_add_tail (t : nat) (s : kern) : kern := set_rq (rq_add_tail (prio (tasks s t)) t (g_ready_queue s)) s.
Definition ready_list_add_head (t : nat) (s : kern) : kern := set_rq (rq_add_head (prio (tasks s t)) t (g_ready_queue s)) s.
Definition ready_list_add (t : nat) (s : kern) : kern :=
  if prio (tasks s t) =? prio (tasks s (g_active_task s)) then ready_list_add_tail t s else ready_list_add_head t s.
(** [klist_rm]: takes [t] out of a list. *)
Definition klist_rm (t : nat) (l : list nat) : list nat := filter (λ x, x ≠ t) l.
Definition rq_rm (p : Z) (t : nat) (q : runqueue_t) : option runqueue_t :=
  match cur_list_item q p with
  | [] => None
  | [_] =>
    let bm := krhino_bitmap_clear (task_bit_map q) p in
    if p =? highest_pri q then
      i ← krhino_find_first_bit bm 0;
      if 0 <=? i then Some (mkRq (updz (cur_list_item q) p []) bm i) else None
    else Some (mkRq (updz (cur_list_item q) p []) bm (highest_pri q))
  | l => Some (rq_put p (klist_rm t l) q)
  end.
Definition ready_list_rm (t : nat) (s : kern) : option kern := q ← rq_rm (prio (tasks s t)) t (g_ready_queue s); Some (set_rq q s).
Definition ready_list_head_to_tail (t : nat) (s : kern) : option kern :=
  let p := prio (tasks s t) in
  match cur_list_item (g_ready_queue s) p with [] => None | x :: l => Some (set_rq (rq_put p (l ++ [x]) (g_ready_queue s)) s) end.

Definition time_slice_update (s : kern) : option kern :=
  match cur_list_item (g_ready_queue s) (prio (tasks s (g_active_task s))) with
  | [] => Some s
  | [_] => Some s
  | t :: _ =>
    match sched_policy (tasks s t) with
    | KSCHED_FIFO => Some s
    | KSCHED_RR =>
      let s1 := if 0 <? time_slice (tasks s t) then on_task t (t_slice (time_slice (tasks s t) - 1)) s else s in
      if 0 <? time_slice (tasks s1 t) then Some s1 else
      s2 ← ready_list_head_to_tail t s1; Some (on_task t (t_slice (time_total (tasks s2 t))) s2)
    end
  end.

(** ** Tick list (k_tick.c, without the update) *)

(** Inserts [t] before the first member for which [later] holds. *)
Fixpoint insert_before (later : nat → bool) (t : nat) (l : list nat) : list nat :=
  match l with [] => [t] | x :: l' => if later x then t :: l else x :: insert_before later t l' end.
Definition tick_list_pri_insert (t : nat) (s : kern) : kern :=
  let val := tick_remain (tasks s t) in
  set_ticks (insert_before (λ x, val <? tick_wrap (tick_match (tasks s x) - g_tick_count s)) t (g_tick_head s)) (g_tick_count s) s.
Definition tick_list_insert (t : nat) (time : Z) (s : kern) : kern :=
  if 0 <? time then
    let s1 := on_task t (t_tick (tick_wrap (g_tick_count s + time)) time) s in
    on_task t (t_on_tick true) (tick_list_pri_insert t s1)
  else s.
Definition tick_list_rm (t : nat) (s : kern) : kern :=
  if on_tick (tasks s t) then on_task t (t_on_tick false) (set_ticks (klist_rm t (g_tick_head s)) (g_tick_count s) s) else s.

(** ** Waiting for an object (k_pend.c) *)

Definition pend_list_add (o t : nat) (s : kern) : kern :=
  on_obj o (λ b, o_waiters (insert_before (λ x, prio (tasks s t) <? prio (tasks s x)) t (blk_list b)) b) s.
(** [klist_rm(&task->task_list)] of a task that waits: it leaves the list of its object. *)
Definition blk_list_rm (t : nat) (s : kern) : kern :=
  match blk_obj (tasks s t) with Some o => on_obj o (λ b, o_waiters (klist_rm t (blk_list b)) b) s | None => s end.
Definition pend_wake (t : nat) (s : kern) : option kern :=
  match task_state (tasks s t) with
  | K_PEND => Some (on_task t (t_state K_RDY) (ready_list_add t (blk_list_rm t s)))
  | K_PEND_SUSPENDED => Some (on_task t (t_state K_SUSPENDED) (blk_list_rm t s))
  | _ => None
  end.
Definition pend_task_wakeup (t : nat) (s : kern) : option kern :=
  s1 ← pend_wake t s; Some (on_task t (t_blk_obj None) (on_task t (t_blk BLK_FINISH) (tick_list_rm t s1))).
Definition pend_task_rm (t : nat) (s : kern) : option kern :=
  s1 ← pend_wake t s; Some (on_task t (t_blk_obj None) (on_task t (t_blk BLK_DEL) (tick_list_rm t s1))).
Definition pend_to_blk_obj (o t : nat) (timeout : Z) (s : kern) : option kern :=
  let s1 := on_task t (t_blk_obj (Some o)) s in
  let s2 := if timeout =? RHINO_WAIT_FOREVER then s1 else tick_list_insert t timeout s1 in
  s3 ← ready_list_rm t (on_task t (t_state K_PEND) s2);
  Some (match blk_policy (objs s3 o) with
        | BLK_POLICY_FIFO => on_obj o (λ b, o_waiters (blk_list b ++ [t]) b) s3
        | BLK_POLICY_PRI => pend_list_add o t s3
        end).
Definition pend_list_reorder (t : nat) (s : kern) : option kern :=
  o ← blk_obj (tasks s t);
  Some (match blk_policy (objs s o) with BLK_POLICY_PRI => pend_list_add o t (blk_list_rm t s) | BLK_POLICY_FIFO => s end).
Definition pend_state_end_proc (t : nat) (s : kern) : option kstat_t :=
  match blk_state (tasks s t) with
  | BLK_FINISH => Some RHINO_SUCCESS
  | BLK_ABORT => Some RHINO_BLK_ABORT
  | BLK_TIMEOUT => Some RHINO_BLK_TIMEOUT
  | BLK_DEL => Some RHINO_BLK_DEL
  | BLK_INVALID => None
  end.

(** ** Priorities and mutexes (k_mutex.c, task_pri_change of k_task.c) *)

(** The slot [prev] points to: [mutex_list] of the task, or [mutex_next] of a mutex. *)
Definition slot (t : nat) (prev : option nat) (s : kern) : option nat :=
  match prev with None => mutex_list (tasks s t) | Some m => mutex_next (objs s m) end.
Definition slot_put (t : nat) (prev : option nat) (v : option nat) (s : kern) : kern :=
  match prev with None => on_task t (t_mutexes v) s | Some m => on_obj m (o_next v) s end.
(** The priority of the first waiter of [m], else the value of the last mutex seen. *)
Definition first_waiter_pri (m : nat) (pri : Z) (s : kern) : Z := match blk_list (objs s m) with [] => pri | x :: _ => prio (tasks s x) end.
Fixpoint mutex_pri_look_loop (fuel : nat) (t : nat) (rel prev : option nat) (pri new_pri : Z) (s : kern) : option (Z * kern) :=
  match slot t prev s with
  | None => Some (new_pri, s)
  | Some m =>
    match fuel with
    | O => None
    | S f =>
      if decide (rel = Some m) then mutex_pri_look_loop f t rel prev pri new_pri (slot_put t prev (mutex_next (objs s m)) s)
      else let pri := first_waiter_pri m pri s in mutex_pri_look_loop f t rel (Some m) pri (if pri <? new_pri then pri else new_pri) s
    end
  end.
Definition mutex_pri_look (t : nat) (rel : option nat) (s : kern) : option (Z * kern) :=
  mutex_pri_look_loop (n_objs s) t rel None (b_prio (tasks s t)) (b_prio (tasks s t)) s.
Fixpoint mutex_pri_limit_loop (fuel : nat) (m : option nat) (pri high_pri : Z) (s : kern) : option Z :=
  match m with
  | None => Some high_pri
  | Some m =>
    match fuel with
    | O => None
    | S f => let pri := first_waiter_pri m pri s in mutex_pri_limit_loop f (mutex_next (objs s m)) pri (if pri <? high_pri then pri else high_pri) s
    end
  end.
Definition mutex_pri_limit (t : nat) (pri : Z) (s : kern) : option Z := mutex_pri_limit_loop (n_objs s) (mutex_list (tasks s t)) pri pri s.

(** The loop follows the tasks that wait for one another; [64 * n_tasks] passes are enough, also
    if they form a cycle (see KernelPri.v). *)
Fixpoint task_pri_change_loop (fuel : nat) (t : nat) (new_pri : Z) (s : kern) : option kern :=
  match fuel with
  | O => None
  | S f =>
    if prio (tasks s t) =? new_pri then Some s else
    match task_state (tasks s t) with
    | K_RDY =>
      s1 ← ready_list_rm t s;
      let s2 := on_task t (t_prio new_pri) s1 in
      Some (if Nat.eqb t (g_active_task s) then ready_list_add_head t s2 else ready_list_add_tail t s2)
    | K_SLEEP | K_SUSPENDED | K_SLEEP_SUSPENDED => Some (on_task t (t_prio new_pri) s)
    | K_PEND | K_PEND_SUSPENDED =>
      let old_pri := prio (tasks s t) in
      s1 ← pend_list_reorder t (on_task t (t_prio new_pri) s);
      o ← blk_obj (tasks s1 t);
      if decide (obj_type (objs s1 o) = RHINO_MUTEX_OBJ_TYPE) then
        m ← mutex_task (objs s1 o);
        if prio (tasks s1 t) <? prio (tasks s1 m) then task_pri_change_loop f m new_pri s1
        else if prio (tasks s1 m) =? old_pri then
          '(np, s2) ← mutex_pri_look m None s1;
          if np =? prio (tasks s2 m) then Some s2 else task_pri_change_loop f m np s2
        else Some s1
      else Some s1
    | K_SEED | K_DELETED => None
    end
  end.
Definition task_pri_change (t : nat) (new_pri : Z) (s : kern) : option kern := task_pri_change_loop (64 * n_tasks s) t new_pri s.

Definition mutex_release (t : nat) (rel : option nat) (s : kern) : option kern :=
  '(new_pri, s1) ← mutex_pri_look t rel s;
  if new_pri =? prio (tasks s1 t) then Some s1 else task_pri_change t new_pri s1.
Definition mutex_task_pri_reset (t : nat) (s : kern) : option kern :=
  o ← blk_obj (tasks s t);
  if decide (obj_type (objs s o) = RHINO_MUTEX_OBJ_TYPE) then
    m ← mutex_task (objs s o);
    if prio (tasks s m) =? prio (tasks s t) then mutex_release m None s else Some s
  else Some s.

(** All waiters of an object are woken; every pass takes the first one off the list. *)
Fixpoint wake_all (wake : nat → kern → option kern) (fuel : nat) (o : nat) (s : kern) : option kern :=
  match blk_list (objs s o) with
  | [] => Some s
  | x :: _ => match fuel with O => None | S f => s1 ← wake x s; wake_all wake f o s1 end
  end.
Definition wake_waiters (wake : nat → kern → option kern) (o : nat) (s : kern) : option kern := wake_all wake (length (blk_list (objs s o))) o s.

Definition mutex_create (o : nat) (fl : alloc_flag) (s : kern) : kret * kern :=
  (Returns RHINO_SUCCESS,
   on_obj o (λ b, mkObj RHINO_MUTEX_OBJ_TYPE BLK_POLICY_PRI [] fl (sem_count b) (peak_count b) None (owner_nested b) None) s).
(** [krhino_mutex_del] ([fl] static) and [krhino_mutex_dyn_del] ([fl] dynamic). *)
Definition krhino_mutex_del (o : nat) (fl : alloc_flag) (s : kern) : option (kret * kern) :=
  if 0 <? g_intrpt_nested_level s then Some (Returns RHINO_NOT_CALLED_BY_INTRPT, s) else
  if decide (obj_type (objs s o) = RHINO_MUTEX_OBJ_TYPE) then
    if decide (mm_alloc_flag (objs s o) = fl) then
      let s1 := on_obj o (o_type RHINO_OBJ_TYPE_NONE) s in
      s2 ← match mutex_task (objs s1 o) with Some t => mutex_release t (Some o) s1 | None => Some s1 end;
      s3 ← wake_waiters pend_task_rm o s2;
      s4 ← core_sched s3; Some (Returns RHINO_SUCCESS, s4)
    else Some (Returns RHINO_KOBJ_DEL_ERR, s)
  else Some (Returns RHINO_KOBJ_TYPE_ERR, s).

(** The mutex becomes the first of the chain of [t]. *)
Definition mutex_own (o t : nat) (s : kern) : kern :=
  on_task t (t_mutexes (Some o)) (on_obj o (λ b, o_next (mutex_list (tasks s t)) (o_owner (Some t) b)) s).
Definition krhino_mutex_lock (o : nat) (ticks : Z) (s : kern) : option (kret * kern) :=
  if negb (running s) then Some (Returns RHINO_SUCCESS, s) else
  if 0 <? g_intrpt_nested_level s then Some (Returns RHINO_NOT_CALLED_BY_INTRPT, s) else
  if decide (obj_type (objs s o) = RHINO_MUTEX_OBJ_TYPE) then
    let a := g_active_task s in
    if decide (mutex_task (objs s o) = Some a) then
      if owner_nested (objs s o) =? 4294967295 then None
      else Some (Returns RHINO_MUTEX_OWNER_NESTED, on_obj o (λ b, o_nested (owner_nested b + 1) b) s)
    else match mutex_task (objs s o) with
    | None => Some (Returns RHINO_SUCCESS, on_obj o (o_nested 1) (mutex_own o a s))
    | Some m =>
      if ticks =? RHINO_NO_WAIT then Some (Returns RHINO_NO_PEND_WAIT, s) else
      if 0 <? g_sched_lock s then Some (Returns RHINO_SCHED_DISABLE, s) else
      s1 ← (if prio (tasks s a) <? prio (tasks s m) then task_pri_change m (prio (tasks s a)) s else Some s);
      s2 ← pend_to_blk_obj o a ticks s1;
      s3 ← core_sched s2; Some (Pends, s3)
    end
  else Some (Returns RHINO_KOBJ_TYPE_ERR, s).
Definition krhino_mutex_unlock (o : nat) (s : kern) : option (kret * kern) :=
  if negb (running s) then Some (Returns RHINO_SUCCESS, s) else
  if 0 <? g_intrpt_nested_level s then Some (Returns RHINO_NOT_CALLED_BY_INTRPT, s) else
  if decide (obj_type (objs s o) = RHINO_MUTEX_OBJ_TYPE) then
    let a := g_active_task s in
    if decide (mutex_task (objs s o) = Some a) then
      let s1 := on_obj o (λ b, o_nested ((owner_nested b - 1) mod 4294967296) b) s in
      if 0 <? owner_nested (objs s1 o) then Some (Returns RHINO_MUTEX_OWNER_NESTED, s1) else
      s2 ← mutex_release a (Some o) s1;
      match blk_list (objs s2 o) with
      | [] => Some (Returns RHINO_SUCCESS, on_obj o (o_owner None) s2)
      | t :: _ =>
        s3 ← pend_task_wakeup t s2;
        s4 ← core_sched (on_obj o (o_nested 1) (mutex_own o t s3)); Some (Returns RHINO_SUCCESS, s4)
      end
    else Some (Returns RHINO_MUTEX_NOT_RELEASED_BY_OWNER, s)
  else Some (Returns RHINO_KOBJ_TYPE_ERR, s).

(** ** Semaphores (k_sem.c) *)

Definition sem_create (o : nat) (count : Z) (fl : alloc_flag) (s : kern) : kret * kern :=
  (Returns RHINO_SUCCESS, on_obj o (λ b, mkObj RHINO_SEM_OBJ_TYPE BLK_POLICY_PRI [] fl count count (mutex_task b) (owner_nested b) (mutex_next b)) s).
(** [krhino_sem_del] ([fl] static) and [krhino_sem_dyn_del] ([fl] dynamic). *)
Definition krhino_sem_del (o : nat) (fl : alloc_flag) (s : kern) : option (kret * kern) :=
  if 0 <? g_intrpt_nested_level s then Some (Returns RHINO_NOT_CALLED_BY_INTRPT, s) else
  if decide (obj_type (objs s o) = RHINO_SEM_OBJ_TYPE) then
    if decide (mm_alloc_flag (objs s o) = fl) then
      s1 ← wake_waiters pend_task_rm o (on_obj o (o_type RHINO_OBJ_TYPE_NONE) s);
      s2 ← core_sched s1; Some (Returns RHINO_SUCCESS, s2)
    else Some (Returns RHINO_KOBJ_DEL_ERR, s)
  else Some (Returns RHINO_KOBJ_TYPE_ERR, s).
Definition peak_update (b : kobj) : kobj := if peak_count b <? sem_count b then o_peak (sem_count b) b else b.
Definition sem_give (o : nat) (opt_wake_all : bool) (s : kern) : option (kret * kern) :=
  if decide (obj_type (objs s o) = RHINO_SEM_OBJ_TYPE) then
    match blk_list (objs s o) with
    | [] =>
      if sem_count (objs s o) =? 4294967295 then Some (Returns RHINO_SEM_OVF, s)
      else Some (Returns RHINO_SUCCESS, on_obj o (λ b, peak_update (o_count (sem_count b + 1) b)) s)
    | t :: _ =>
      s1 ← (if opt_wake_all then wake_waiters pend_task_wakeup o s else pend_task_wakeup t s);
      s2 ← core_sched s1; Some (Returns RHINO_SUCCESS, s2)
    end
  else Some (Returns RHINO_KOBJ_TYPE_ERR, s).
Definition krhino_sem_give (o : nat) : kern → option (kret * kern) := sem_give o false.
Definition krhino_sem_give_all (o : nat) : kern → option (kret * kern) := sem_give o true.
Definition krhino_sem_take (o : nat) (ticks : Z) (s : kern) : option (kret * kern) :=
  if 0 <? g_intrpt_nested_level s then Some (Returns RHINO_NOT_CALLED_BY_INTRPT, s) else
  if decide (obj_type (objs s o) = RHINO_SEM_OBJ_TYPE) then
    if 0 <? sem_count (objs s o) then Some (Returns RHINO_SUCCESS, on_obj o (λ b, o_count (sem_count b - 1) b) s) else
    if ticks =? RHINO_NO_WAIT then Some (Returns RHINO_NO_PEND_WAIT, s) else
    if 0 <? g_sched_lock s then Some (Returns RHINO_SCHED_DISABLE, s) else
    s1 ← pend_to_blk_obj o (g_active_task s) ticks s;
    s2 ← core_sched s1; Some (Pends, s2)
  else Some (Returns RHINO_KOBJ_TYPE_ERR, s).
Definition krhino_sem_count_set (o : nat) (count : Z) (s : kern) : kret * kern :=
  if 0 <? g_intrpt_nested_level s then (Returns RHINO_NOT_CALLED_BY_INTRPT, s) else
  if decide (obj_type (objs s o) = RHINO_SEM_OBJ_TYPE) then
    let set := (Returns RHINO_SUCCESS, on_obj o (λ b, peak_update (o_count count b)) s) in
    if 0 <? sem_count (objs s o) then set else match blk_list (objs s o) with [] => set | _ => (Returns RHINO_SEM_TASK_WAITING, s) end
  else (Returns RHINO_KOBJ_TYPE_ERR, s).
Definition krhino_sem_count_get (o : nat) (s : kern) : Z := sem_count (objs s o).

(** ** Time (k_tick.c, k_time.c, k_sys.c) *)

(** The wait or sleep of [t] ends because its time is over. *)
Definition tick_expire (t : nat) (s : kern) : option kern :=
  match task_state (tasks s t) with
  | K_SLEEP => Some (ready_list_add t (tick_list_rm t (on_task t (λ k, t_state K_RDY (t_blk BLK_FINISH k)) s)))
  | K_PEND =>
    let s1 := ready_list_add t (blk_list_rm t (tick_list_rm t s)) in
    s2 ← mutex_task_pri_reset t (on_task t (λ k, t_state K_RDY (t_blk BLK_TIMEOUT k)) s1);
    Some (on_task t (t_blk_obj None) s2)
  | K_PEND_SUSPENDED =>
    let s1 := blk_list_rm t (tick_list_rm t s) in
    s2 ← mutex_task_pri_reset t (on_task t (λ k, t_state K_SUSPENDED (t_blk BLK_TIMEOUT k)) s1);
    Some (on_task t (t_blk_obj None) s2)
  | K_SLEEP_SUSPENDED => Some (tick_list_rm t (on_task t (λ k, t_blk BLK_FINISH (t_state K_SUSPENDED k)) s))
  | _ => None
  end.
(** The two ticks are truncated to [int]; the difference wraps around. *)
Definition tick_delta (t : nat) (s : kern) : Z := to_int (to_int (tick_match (tasks s t)) - to_int (g_tick_count s)).
(** [tick_list_rm] takes only the task at hand off the list, so the saved successor is the rest of the list. *)
Fixpoint tick_expire_all (l : list nat) (s : kern) : option kern :=
  match l with
  | [] => Some s
  | t :: l => if tick_delta t s <=? 0 then s1 ← tick_expire t s; tick_expire_all l s1 else Some s
  end.
Definition tick_list_update (ticks : Z) (s : kern) : option kern :=
  let s1 := set_ticks (g_tick_head s) (tick_wrap (g_tick_count s + ticks)) s in
  tick_expire_all (g_tick_head s1) s1.
Definition krhino_tick_proc (s : kern) : option kern := s1 ← tick_list_update 1 s; time_slice_update s1.

Definition krhino_intrpt_enter (s : kern) : kern := set_level ((g_intrpt_nested_level s + 1) mod 256) s.
Definition krhino_intrpt_exit (s : kern) : option kern :=
  let s1 := set_level ((g_intrpt_nested_level s - 1) mod 256) s in
  if 0 <? g_intrpt_nested_level s1 then Some s1 else
  if 0 <? g_sched_lock s1 then Some s1 else
  t ← preferred_cpu_ready_task_get (g_ready_queue s1);
  Some (if Nat.eqb t (g_active_task s1) then s1 else set_active t s1).

Definition RHINO_CONFIG_TICKS_PER_SECOND : Z := 1000.
Definition krhino_ms_to_ticks (ms : Z) : Z :=
  let surplus := ms mod 1000 in
  let ticks := tick_wrap (ms / 1000 * RHINO_CONFIG_TICKS_PER_SECOND) in
  let padding := 1000 / RHINO_CONFIG_TICKS_PER_SECOND in
  let padding := if 0 <? padding then padding - 1 else 0 in
  tick_wrap (ticks + (surplus + padding) * RHINO_CONFIG_TICKS_PER_SECOND / 1000).
Definition krhino_ticks_to_ms (ticks : Z) : Z :=
  let surplus := ticks mod RHINO_CONFIG_TICKS_PER_SECOND in
  let time := tick_wrap (ticks / RHINO_CONFIG_TICKS_PER_SECOND * 1000) in
  let padding := RHINO_CONFIG_TICKS_PER_SECOND / 1000 in
  let padding := if 0 <? padding then padding - 1 else 0 in
  tick_wrap (time + (surplus + padding) * 1000 / RHINO_CONFIG_TICKS_PER_SECOND).

(** ** Tasks (k_task.c) *)

(** [memset] and the fields set before the task is made ready. *)
Definition new_task (p ticks : Z) (autorun : bool) (fl : alloc_flag) : ktask_t :=
  let total := if 0 <? ticks then ticks else RHINO_CONFIG_TIME_SLICE_DEFAULT in
  mkTask (if autorun then K_RDY else K_SUSPENDED) p p BLK_FINISH None (if autorun then 0 else 1) 0 0 false None None total total KSCHED_RR fl.
Definition task_create (t : nat) (p ticks stack_size : Z) (autorun : bool) (fl : alloc_flag) (s : kern) : option (kret * kern) :=
  if stack_size =? 0 then Some (Returns RHINO_TASK_INV_STACK_SIZE, s) else
  if RHINO_CONFIG_PRI_MAX <=? p then Some (Returns RHINO_BEYOND_MAX_PRI, s) else
  if 0 <? g_intrpt_nested_level s then Some (Returns RHINO_NOT_CALLED_BY_INTRPT, s) else
  if (p =? RHINO_IDLE_PRI) && idle_spawned s then Some (Returns RHINO_IDLE_TASK_EXIST, s) else
  let s1 := if p =? RHINO_IDLE_PRI then set_idle true s else s in
  let s2 := on_task t (λ _, new_task p ticks autorun fl) s1 in
  if autorun then
    let s3 := ready_list_add_tail t s2 in
    if running s then s4 ← core_sched s3; Some (Returns RHINO_SUCCESS, s4) else Some (Returns RHINO_SUCCESS, s3)
  else Some (Returns RHINO_SUCCESS, s2).
Definition krhino_task_sleep (ticks : Z) (s : kern) : option (kret * kern) :=
  if ticks =? 0 then Some (Returns RHINO_INV_PARAM, s) else
  if 0 <? g_intrpt_nested_level s then Some (Returns RHINO_NOT_CALLED_BY_INTRPT, s) else
  if 0 <? g_sched_lock s then Some (Returns RHINO_SCHED_DISABLE, s) else
  let a := g_active_task s in
  s1 ← ready_list_rm a (tick_list_insert a ticks (on_task a (t_state K_SLEEP) s));
  s2 ← core_sched s1; Some (Pends, s2).
Definition krhino_task_yield (s : kern) : option (kret * kern) :=
  s1 ← ready_list_head_to_tail (g_active_task s) s; s2 ← core_sched s1; Some (Returns RHINO_SUCCESS, s2).
Definition krhino_cur_task_get (s : kern) : nat := g_active_task s.
Definition sched_ok (s : kern) : option (kret * kern) := s1 ← core_sched s; Some (Returns RHINO_SUCCESS, s1).
Definition task_suspend (t : nat) (s : kern) : option (kret * kern) :=
  if (Nat.eqb t (g_active_task s)) && (0 <? g_sched_lock s) then Some (Returns RHINO_SCHED_DISABLE, s) else
  match task_state (tasks s t) with
  | K_RDY => s1 ← ready_list_rm t (on_task t (λ k, t_state K_SUSPENDED (t_suspend 1 k)) s); sched_ok s1
  | K_SLEEP => sched_ok (on_task t (λ k, t_state K_SLEEP_SUSPENDED (t_suspend 1 k)) s)
  | K_PEND => sched_ok (on_task t (λ k, t_state K_PEND_SUSPENDED (t_suspend 1 k)) s)
  | K_SUSPENDED | K_SLEEP_SUSPENDED | K_PEND_SUSPENDED =>
    if suspend_count (tasks s t) =? 255 then Some (Returns RHINO_SUSPENDED_COUNT_OVF, s)
    else sched_ok (on_task t (λ k, t_suspend (suspend_count k + 1) k) s)
  | K_SEED | K_DELETED => Some (Returns RHINO_INV_TASK_STATE, s)
  end.
Definition krhino_task_suspend (t : nat) (s : kern) : option (kret * kern) :=
  if prio (tasks s t) =? RHINO_IDLE_PRI then Some (Returns RHINO_TASK_SUSPEND_NOT_ALLOWED, s) else task_suspend t s.
Definition task_resume (t : nat) (s : kern) : option (kret * kern) :=
  let s1 := on_task t (λ k, t_suspend ((suspend_count k - 1) mod 256) k) s in
  let zero := suspend_count (tasks s1 t) =? 0 in
  match task_state (tasks s t) with
  | K_RDY | K_SLEEP | K_PEND => Some (Returns RHINO_TASK_NOT_SUSPENDED, s)
  | K_SUSPENDED => sched_ok (if zero then ready_list_add t (on_task t (t_state K_RDY) s1) else s1)
  | K_SLEEP_SUSPENDED => sched_ok (if zero then on_task t (t_state K_SLEEP) s1 else s1)
  | K_PEND_SUSPENDED => sched_ok (if zero then on_task t (t_state K_PEND) s1 else s1)
  | K_SEED | K_DELETED => Some (Returns RHINO_INV_TASK_STATE, s)
  end.
Definition krhino_task_resume (t : nat) (s : kern) : option (kret * kern) := task_resume t s.
(** [old_pri] is the priority of the task before the call. *)
Definition krhino_task_pri_change (t : nat) (pri : Z) (s : kern) : option (kret * kern) :=
  if RHINO_IDLE_PRI <=? prio (tasks s t) then Some (Returns RHINO_PRI_CHG_NOT_ALLOWED, s) else
  if RHINO_IDLE_PRI <=? pri then Some (Returns RHINO_PRI_CHG_NOT_ALLOWED, s) else
  if decide (task_state (tasks s t) = K_DELETED) then Some (Returns RHINO_INV_TASK_STATE, s) else
  if 0 <? g_intrpt_nested_level s then Some (Returns RHINO_NOT_CALLED_BY_INTRPT, s) else
  limit ← mutex_pri_limit t pri s;
  s1 ← task_pri_change t limit (on_task t (t_b_prio pri) s);
  sched_ok s1.
Definition krhino_task_wait_abort (t : nat) (s : kern) : option (kret * kern) :=
  if 0 <? g_intrpt_nested_level s then Some (Returns RHINO_NOT_CALLED_BY_INTRPT, s) else
  match task_state (tasks s t) with
  | K_RDY => sched_ok s
  | K_SUSPENDED => sched_ok (ready_list_add t (on_task t (t_state K_RDY) s))
  | K_SLEEP | K_SLEEP_SUSPENDED => sched_ok (on_task t (λ k, t_blk BLK_ABORT (t_state K_RDY k)) (ready_list_add t (tick_list_rm t s)))
  | K_PEND_SUSPENDED | K_PEND =>
    let s1 := ready_list_add t (blk_list_rm t (tick_list_rm t s)) in
    s2 ← mutex_task_pri_reset t (on_task t (λ k, t_blk BLK_ABORT (t_state K_RDY k)) s1);
    sched_ok (on_task t (t_blk_obj None) s2)
  | K_SEED | K_DELETED => Some (Returns RHINO_INV_TASK_STATE, s)
  end.

(** [next_mutex] is read before the chain of the mutex is changed. *)
Fixpoint task_mutex_free_loop (fuel : nat) (next_mutex : option nat) (s : kern) : option kern :=
  match next_mutex with
  | None => Some s
  | Some m =>
    match fuel with
    | O => None
    | S f =>
      let next := mutex_next (objs s m) in
      match blk_list (objs s m) with
      | t :: _ => s1 ← pend_task_wakeup t s; task_mutex_free_loop f next (mutex_own m t s1)
      | [] => task_mutex_free_loop f next (on_obj m (o_owner None) s)
      end
    end
  end.
Definition task_mutex_free (t : nat) (s : kern) : option kern := task_mutex_free_loop (n_objs s) (mutex_list (tasks s t)) s.
(** The end of both deletions: the task leaves its list. *)
Definition task_unlink (t : nat) (s : kern) : option kern :=
  match task_state (tasks s t) with
  | K_RDY => s1 ← ready_list_rm t s; Some (on_task t (t_state K_DELETED) s1)
  | K_SUSPENDED => Some (on_task t (t_state K_DELETED) s)
  | K_SLEEP | K_SLEEP_SUSPENDED => Some (on_task t (t_state K_DELETED) (tick_list_rm t s))
  | K_PEND | K_PEND_SUSPENDED => mutex_task_pri_reset t (on_task t (t_state K_DELETED) (blk_list_rm t (tick_list_rm t s)))
  | K_SEED | K_DELETED => Some s
  end.
Definition krhino_task_del (task : option nat) (s : kern) : option (kret * kern) :=
  if 0 <? g_intrpt_nested_level s then Some (Returns RHINO_NOT_CALLED_BY_INTRPT, s) else
  let t := default (g_active_task s) task in
  if prio (tasks s t) =? RHINO_IDLE_PRI then Some (Returns RHINO_TASK_DEL_NOT_ALLOWED, s) else
  if decide (task_alloc (tasks s t) = K_OBJ_STATIC_ALLOC) then
    if (Nat.eqb t (g_active_task s)) && (0 <? g_sched_lock s) then Some (Returns RHINO_SCHED_DISABLE, s) else
    s1 ← task_mutex_free t s;
    match task_state (tasks s1 t) with
    | K_SEED | K_DELETED => Some (Returns RHINO_INV_TASK_STATE, s1)
    | _ => s2 ← task_unlink t s1; sched_ok s2
    end
  else Some (Returns RHINO_KOBJ_DEL_ERR, s).
Definition g_res_sem : nat := 0.
Definition krhino_task_dyn_del (task : option nat) (s : kern) : option (kret * kern) :=
  if 0 <? g_intrpt_nested_level s then Some (Returns RHINO_NOT_CALLED_BY_INTRPT, s) else
  let t := default (g_active_task s) task in
  if prio (tasks s t) =? RHINO_IDLE_PRI then Some (Returns RHINO_TASK_DEL_NOT_ALLOWED, s) else
  if decide (task_alloc (tasks s t) = K_OBJ_DYN_ALLOC) then
    if (Nat.eqb t (g_active_task s)) && (0 <? g_sched_lock s) then Some (Returns RHINO_SCHED_DISABLE, s) else
    if decide (task_state (tasks s t) = K_DELETED) then Some (Returns RHINO_INV_TASK_STATE, s) else
    let s1 := set_res (g_res_list s ++ [t]) (set_lock ((g_sched_lock s + 1) mod 256) s) in
    '(ret, s2) ← krhino_sem_give g_res_sem s1;
    let s3 := set_lock ((g_sched_lock s2 - 1) mod 256) s2 in
    match ret with
    | Returns RHINO_SUCCESS => s4 ← task_mutex_free t s3; s5 ← task_unlink t s4; sched_ok s5
    | _ => None
    end
  else Some (Returns RHINO_KOBJ_DEL_ERR, s).

Definition krhino_task_time_slice_set (t : nat) (slice : Z) (s : kern) : kret * kern :=
  if 0 <? g_intrpt_nested_level s then (Returns RHINO_NOT_CALLED_BY_INTRPT, s) else
  let s1 := on_task t (t_total (if 0 <? slice then slice else RHINO_CONFIG_TIME_SLICE_DEFAULT)) s in
  (Returns RHINO_SUCCESS, on_task t (λ k, t_slice (time_total k) k) s1).
Definition krhino_sched_policy_set (t : nat) (policy : sched_policy_t) (s : kern) : kret * kern :=
  if 0 <? g_intrpt_nested_level s then (Returns RHINO_NOT_CALLED_BY_INTRPT, s) else (Returns RHINO_SUCCESS, on_task t (t_policy policy) s).

(** ** Semaphores of a task (k_task_sem.c) *)

(** A null semaphore is [RHINO_NULL_PTR]. *)
Definition on_task_sem (t : nat) (f : nat → kern → option (kret * kern)) (s : kern) : option (kret * kern) :=
  match task_sem_obj (tasks s t) with Some o => f o s | None => Some (Returns RHINO_NULL_PTR, s) end.
Definition krhino_task_sem_create (t o : nat) (count : Z) (s : kern) : kret * kern :=
  let '(r, s1) := sem_create o count K_OBJ_STATIC_ALLOC s in (r, on_task t (t_sem (Some o)) s1).
Definition krhino_task_sem_del (t : nat) : kern → option (kret * kern) := on_task_sem t (λ o, krhino_sem_del o K_OBJ_STATIC_ALLOC).
Definition krhino_task_sem_give (t : nat) : kern → option (kret * kern) := on_task_sem t krhino_sem_give.
Definition krhino_task_sem_take (ticks : Z) (s : kern) : option (kret * kern) := on_task_sem (krhino_cur_task_get s) (λ o, krhino_sem_take o ticks) s.
Definition krhino_task_sem_count_set (t : nat) (count : Z) : kern → option (kret * kern) := on_task_sem t (λ o s, Some (krhino_sem_count_set o count s)).

(** ** Start (k_sys.c) *)

Definition krhino_start (s : kern) : option kern :=
  if running s then Some s else
  t ← preferred_cpu_ready_task_get (g_ready_queue s);
  Some (set_running true (set_active t s)).

(** The start-up of the kernel in zeroed memory, without the work queue and the timer task: the
    semaphore and the task that free memory, and the idle task, which is task 0. *)
Definition zero_task : ktask_t := mkTask K_SEED 0 0 BLK_FINISH None 0 0 0 false None None 0 0 KSCHED_FIFO K_OBJ_STATIC_ALLOC.
Definition zero_obj : kobj := mkObj RHINO_OBJ_TYPE_NONE BLK_POLICY_PRI [] K_OBJ_STATIC_ALLOC 0 0 None 0 None.
Definition zero_kern (nt no : nat) : kern := mkKern (λ _, zero_task) (λ _, zero_obj) nt no runqueue_init [] 0 0 0 0 false false [].
Definition g_idle_task : nat := 0.
Definition g_dyn_task : nat := 1.
Definition RHINO_CONFIG_K_DYN_MEM_TASK_PRI : Z := 6.
Definition dyn_mem_proc_task_start (s : kern) : option (kret * kern) := task_create g_dyn_task RHINO_CONFIG_K_DYN_MEM_TASK_PRI 0 256 true K_OBJ_STATIC_ALLOC s.
Definition krhino_init (nt no : nat) : option kern :=
  let '(_, s1) := sem_create g_res_sem 0 K_OBJ_STATIC_ALLOC (zero_kern nt no) in
  '(_, s2) ← dyn_mem_proc_task_start s1;
  '(_, s3) ← task_create g_idle_task RHINO_IDLE_PRI 0 100 true K_OBJ_STATIC_ALLOC s2;
  Some s3.
(** What the memory task does when it runs, up to the free: it takes the semaphore, then every entry. *)
Definition dyn_mem_proc_pop (s : kern) : option (nat * kern) :=
  match g_res_list s with t :: l => Some (t, set_res l s) | [] => None end.
