(* ===== verification/KernelQueue.v ===== *)
(** * KernelQueue: the bit map, the ready queue and the ordered lists of the kernel

    The facts about the data structures of Kernel.v that do not depend on what the tasks
    do: the bit map finds the first bit set, the ready queue holds exactly the ready tasks
    at their priorities and knows the most urgent one, and [insert_before] and [klist_rm]
    keep a list ordered. *)
From Stdlib Require Import ZArith Lia List Bool Sorted.
From stdpp Require Import base list numbers option sorting sets.
From S2P Require Import Prelude Kernel.
Local Open Scope Z_scope.

(** ** Bit map *)

Definition word32 (x : Z) : Prop := 0 ≤ x < 4294967296.
Definition bm_bit (bm : list Z) (p : Z) : bool := Z.testbit (nth (BITMAP_WORD p) bm 0) (31 - Z.land p 31).

Lemma land_31 p : Z.land p 31 = p mod 32.
Proof. change 31 with (Z.ones 5). rewrite Z.land_ones by lia. reflexivity. Qed.
Lemma word_eq p : BITMAP_WORD p = Z.to_nat (p / 32).
Proof. unfold BITMAP_WORD. rewrite Z.shiftr_div_pow2 by lia. reflexivity. Qed.
Lemma mask_bit p i : 0 ≤ i → Z.testbit (BITMAP_MASK p) i = (i =? 31 - p mod 32).
Proof.
  intros Hi. unfold BITMAP_MASK. rewrite land_31, Z.shiftl_1_l.
  pose proof (Z.mod_pos_bound p 32 ltac:(lia)).
  destruct (Z.eqb_spec i (31 - p mod 32)) as [->|Hn]; [apply Z.pow2_bits_true; lia|apply Z.pow2_bits_false; lia].
Qed.

(** The mask of [32 - j] leading ones tells whether a word has a bit from [j] on. *)
Lemma lead_mask x j : word32 x → 0 ≤ j ≤ 32 → (Z.land x (4294967296 - 2 ^ j) =? 0) = (x <? 2 ^ j).
Proof.
  intros Hx Hj.
  assert (E : 4294967296 - 2 ^ j = Z.shiftl (Z.ones (32 - j)) j).
  { rewrite Z.shiftl_mul_pow2, Z.ones_equiv by lia. rewrite <- Z.sub_1_r, Z.mul_sub_distr_r, <- Z.pow_add_r by lia.
    replace (32 - j + j) with 32 by lia. lia. }
  assert (E2 : Z.land x (4294967296 - 2 ^ j) = Z.shiftl (Z.shiftr x j) j).
  { rewrite E. apply Z.bits_inj'. intros i Hi. rewrite Z.land_spec.
    destruct (Z.ltb_spec i j).
    - rewrite !(Z.shiftl_spec_low _ j i) by lia. apply andb_false_r.
    - rewrite !Z.shiftl_spec_high, Z.shiftr_spec by lia. replace (i - j + j) with i by lia.
      rewrite Z.testbit_ones by lia. destruct (Z.ltb_spec i 32).
      + replace (0 <=? i - j) with true by (symmetry; apply Z.leb_le; lia).
        replace (i - j <? 32 - j) with true by (symmetry; apply Z.ltb_lt; lia). apply andb_true_r.
      + rewrite (Z.bits_above_log2 x i); [reflexivity|apply Hx|].
        destruct (Z.eq_dec x 0) as [->|]; [simpl; lia|]. unfold word32 in Hx.
        assert (Z.log2 x < 32) by (apply Z.log2_lt_pow2; lia). lia. }
  rewrite E2, Z.shiftl_mul_pow2, Z.shiftr_div_pow2 by lia. unfold word32 in Hx.
  destruct (Z.ltb_spec x (2 ^ j)).
  - rewrite Z.div_small by lia. reflexivity.
  - apply Z.eqb_neq. assert (1 ≤ x / 2 ^ j) by (apply Z.div_le_lower_bound; lia). nia.
Qed.

(** One step keeps the position of the leading one, and brings it to bit [32 - n] at least. *)
Lemma clz_step_ok n x nr : 0 < n → n ≤ 32 → word32 x → 0 < x → x < 2 ^ (32 - n) ∨ 2 ^ (32 - n) ≤ x →
  let '(y, m) := clz_step (4294967296 - 2 ^ (32 - n)) n (x, nr) in
  word32 y ∧ 0 < y ∧ m - Z.log2 y = nr - Z.log2 x ∧ (2 ^ (32 - 2 * n) ≤ x → 2 ^ (32 - n) ≤ y).
Proof.
  intros Hn Hn2 Hw Hx _. unfold clz_step. rewrite lead_mask by (auto; lia). unfold word32 in *.
  destruct (Z.ltb_spec x (2 ^ (32 - n))) as [Hs|Hs]; [|repeat split; try lia].
  assert (Hb : x * 2 ^ n < 4294967296).
  { change 4294967296 with (2 ^ 32). replace 32 with (32 - n + n) by lia. rewrite Z.pow_add_r by lia. nia. }
  rewrite Z.shiftl_mul_pow2 by lia. rewrite Z.mod_small by nia.
  repeat split; try nia.
  - rewrite Z.log2_mul_pow2 by lia. lia.
  - intros H. destruct (Z.ltb_spec (32 - 2 * n) 0).
    + assert (1 ≤ x) by lia. assert (2 ^ (32 - n) ≤ 2 ^ n) by (apply Z.pow_le_mono_r; lia). nia.
    + replace (32 - n) with (32 - 2 * n + n) by lia. rewrite Z.pow_add_r by lia. nia.
Qed.

Lemma first_bit_spec x nr : word32 x → 0 < x → first_bit x nr = nr + 31 - Z.log2 x.
Proof.
  intros Hw Hx. unfold first_bit.
  pose proof (clz_step_ok 16 x nr ltac:(lia) ltac:(lia) Hw Hx ltac:(lia)) as S1.
  change (4294967296 - 2 ^ (32 - 16)) with 4294901760 in S1.
  destruct (clz_step 4294901760 16 (x, nr)) as [x1 n1]. destruct S1 as (W1 & P1 & L1 & B1). simpl in B1. specialize (B1 ltac:(lia)).
  pose proof (clz_step_ok 8 x1 n1 ltac:(lia) ltac:(lia) W1 P1 ltac:(lia)) as S2.
  change (4294967296 - 2 ^ (32 - 8)) with 4278190080 in S2.
  destruct (clz_step 4278190080 8 (x1, n1)) as [x2 n2]. destruct S2 as (W2 & P2 & L2 & B2). simpl in B2. specialize (B2 ltac:(lia)).
  pose proof (clz_step_ok 4 x2 n2 ltac:(lia) ltac:(lia) W2 P2 ltac:(lia)) as S3.
  change (4294967296 - 2 ^ (32 - 4)) with 4026531840 in S3.
  destruct (clz_step 4026531840 4 (x2, n2)) as [x3 n3]. destruct S3 as (W3 & P3 & L3 & B3). simpl in B3. specialize (B3 ltac:(lia)).
  pose proof (clz_step_ok 2 x3 n3 ltac:(lia) ltac:(lia) W3 P3 ltac:(lia)) as S4.
  change (4294967296 - 2 ^ (32 - 2)) with 3221225472 in S4.
  destruct (clz_step 3221225472 2 (x3, n3)) as [x4 n4]. destruct S4 as (W4 & P4 & L4 & B4). simpl in B4. specialize (B4 ltac:(lia)).
  pose proof (clz_step_ok 1 x4 n4 ltac:(lia) ltac:(lia) W4 P4 ltac:(lia)) as S5.
  change (4294967296 - 2 ^ (32 - 1)) with 2147483648 in S5.
  destruct (clz_step 2147483648 1 (x4, n4)) as [x5 n5]. destruct S5 as (W5 & P5 & L5 & B5). simpl in B5. specialize (B5 ltac:(lia)).
  simpl. assert (Z.log2 x5 = 31); [|lia].
  unfold word32 in W5. apply Z.log2_unique; [lia|]. change (2 ^ Z.succ 31) with 4294967296. simpl. lia.
Qed.

Lemma bm_bit_low w bm p : 0 ≤ p < 32 → bm_bit (w :: bm) p = Z.testbit w (31 - p).
Proof. intros H. unfold bm_bit. rewrite word_eq, land_31, Z.div_small, Z.mod_small by lia. reflexivity. Qed.
Lemma bm_bit_high w bm p : 0 ≤ p → bm_bit (w :: bm) (p + 32) = bm_bit bm p.
Proof.
  intros H. unfold bm_bit. rewrite !word_eq, !land_31.
  replace (p + 32) with (p + 1 * 32) by lia. rewrite Z.div_add, Z.mod_add by lia.
  rewrite Z2Nat.inj_add by (try apply Z.div_pos; lia). rewrite Nat.add_comm. reflexivity.
Qed.

(** [krhino_find_first_bit] finds the least position whose bit is set, if there is one. *)
Lemma find_first_bit_spec bm nr :
  Forall word32 bm →
  match krhino_find_first_bit bm nr with
  | Some i => ∃ p, i = nr + p ∧ 0 ≤ p < 32 * Z.of_nat (length bm) ∧ bm_bit bm p = true ∧ ∀ q, 0 ≤ q < p → bm_bit bm q = false
  | None => ∀ q, 0 ≤ q → bm_bit bm q = false
  end.
Proof.
  intros HF. revert nr. induction HF as [|w bm Hw HF IH]; intros nr; simpl.
  - intros q _. unfold bm_bit. destruct (BITMAP_WORD q); apply Z.bits_0.
  - destruct (Z.eqb_spec w 0) as [->|Hn].
    + specialize (IH (nr + 32)).
      assert (Z0 : ∀ q, 0 ≤ q < 32 → bm_bit (0 :: bm) q = false) by (intros q Hq; rewrite bm_bit_low by lia; apply Z.bits_0).
      destruct (krhino_find_first_bit bm (nr + 32)) as [i|].
      * destruct IH as (p & -> & Hp & Hb & Hl). exists (p + 32). split; [lia|]. split; [lia|].
        split; [rewrite bm_bit_high by lia; exact Hb|].
        intros q Hq. destruct (Z.ltb_spec q 32); [apply Z0; lia|].
        replace q with (q - 32 + 32) by lia. rewrite bm_bit_high by lia. apply Hl. lia.
      * intros q Hq. destruct (Z.ltb_spec q 32); [apply Z0; lia|].
        replace q with (q - 32 + 32) by lia. rewrite bm_bit_high by lia. apply IH. lia.
    + unfold word32 in Hw. assert (Hl : 0 ≤ Z.log2 w < 32) by (split; [apply Z.log2_nonneg|apply Z.log2_lt_pow2; lia]).
      exists (31 - Z.log2 w). rewrite first_bit_spec by (unfold word32; lia). split; [lia|]. split; [lia|]. split.
      * rewrite bm_bit_low by lia. replace (31 - (31 - Z.log2 w)) with (Z.log2 w) by lia. apply Z.bit_log2. lia.
      * intros q Hq. rewrite bm_bit_low by lia. apply Z.bits_above_log2; lia.
Qed.

(** A position in the two words of the map. *)
Definition in_map (bm : list Z) (p : Z) : Prop := 0 ≤ p < 32 * Z.of_nat (length bm).
Lemma alter_bit (g : Z → Z) bm p q :
  in_map bm p → in_map bm q →
  bm_bit (alter g (BITMAP_WORD p) bm) q = if p / 32 =? q / 32 then Z.testbit (g (nth (BITMAP_WORD q) bm 0)) (31 - q mod 32) else bm_bit bm q.
Proof.
  intros Hp Hq. unfold bm_bit, in_map in *. rewrite !word_eq, !land_31.
  assert (0 ≤ p / 32) by (apply Z.div_pos; lia). assert (0 ≤ q / 32) by (apply Z.div_pos; lia).
  assert (q / 32 < Z.of_nat (length bm)) by (apply Z.div_lt_upper_bound; lia).
  rewrite !(nth_lookup (A:=Z)). destruct (Z.eqb_spec (p / 32) (q / 32)) as [E|E].
  - rewrite E, list_lookup_alter_eq. destruct (lookup_lt_is_Some_2 bm (Z.to_nat (q / 32))) as [x Hx]; [lia|]. rewrite Hx. reflexivity.
  - rewrite list_lookup_alter_ne by lia. reflexivity.
Qed.
Lemma same_bit p q : (p / 32 =? q / 32) && (31 - q mod 32 =? 31 - p mod 32) = (p =? q).
Proof.
  pose proof (Z.div_mod p 32 ltac:(lia)). pose proof (Z.div_mod q 32 ltac:(lia)).
  destruct (Z.eqb_spec (p / 32) (q / 32)); destruct (Z.eqb_spec (31 - q mod 32) (31 - p mod 32)); destruct (Z.eqb_spec p q); simpl; subst; lia.
Qed.
Lemma set_bit bm p q : in_map bm p → in_map bm q → bm_bit (krhino_bitmap_set bm p) q = (p =? q) || bm_bit bm q.
Proof.
  intros Hp Hq. unfold krhino_bitmap_set. rewrite alter_bit by assumption. rewrite <- (same_bit p q).
  pose proof (Z.mod_pos_bound q 32 ltac:(lia)).
  destruct (p / 32 =? q / 32); [|reflexivity]. rewrite Z.lor_spec, mask_bit by lia. rewrite orb_comm. unfold bm_bit. rewrite land_31. reflexivity.
Qed.
Lemma clear_bit bm p q : in_map bm p → in_map bm q → bm_bit (krhino_bitmap_clear bm p) q = negb (p =? q) && bm_bit bm q.
Proof.
  intros Hp Hq. unfold krhino_bitmap_clear. rewrite alter_bit by assumption. rewrite <- (same_bit p q).
  pose proof (Z.mod_pos_bound q 32 ltac:(lia)).
  destruct (p / 32 =? q / 32); [|reflexivity]. rewrite Z.land_spec, Z.lnot_spec, mask_bit by lia. rewrite andb_comm. unfold bm_bit. rewrite land_31. reflexivity.
Qed.
Lemma word32_bits x : (∀ i, 32 ≤ i → Z.testbit x i = false) → 0 ≤ x → word32 x.
Proof.
  intros H Hx. split; [exact Hx|]. destruct (Z.ltb_spec x 4294967296) as [|Hge]; [assumption|].
  assert (32 ≤ Z.log2 x) by (apply Z.log2_le_pow2; lia). specialize (H _ H0). rewrite Z.bit_log2 in H by lia. discriminate.
Qed.
Lemma word32_high x i : word32 x → 32 ≤ i → Z.testbit x i = false.
Proof.
  intros [H0 H1] Hi. destruct (Z.eq_dec x 0) as [->|]; [apply Z.bits_0|]. apply Z.bits_above_log2; [lia|].
  assert (Z.log2 x < 32) by (apply Z.log2_lt_pow2; lia). lia.
Qed.
Lemma alter_words (g : Z → Z) k bm : Forall word32 bm → (∀ x, word32 x → word32 (g x)) → Forall word32 (alter g k bm).
Proof. intros HF Hg. apply Forall_alter; [exact HF|]. intros x Hx. intros. apply Hg. assumption. Qed.
Lemma set_words bm p : Forall word32 bm → Forall word32 (krhino_bitmap_set bm p).
Proof.
  intros HF. apply alter_words; [exact HF|]. intros x Hx. apply word32_bits.
  - intros i Hi. rewrite Z.lor_spec, mask_bit by lia. rewrite (word32_high x) by assumption.
    pose proof (Z.mod_pos_bound p 32 ltac:(lia)). simpl. apply Z.eqb_neq. lia.
  - apply Z.lor_nonneg. split; [apply Hx|]. unfold BITMAP_MASK. apply Z.shiftl_nonneg. lia.
Qed.
Lemma clear_words bm p : Forall word32 bm → Forall word32 (krhino_bitmap_clear bm p).
Proof.
  intros HF. apply alter_words; [exact HF|]. intros x Hx. apply word32_bits.
  - intros i Hi. rewrite Z.land_spec, (word32_high x) by assumption. reflexivity.
  - apply Z.land_nonneg. left. apply Hx.
Qed.

(** ** Ordered lists *)

Lemma elem_of_insert_before later t x l : x ∈ insert_before later t l ↔ x = t ∨ x ∈ l.
Proof.
  induction l as [|y l IH]; simpl; [set_solver|]. destruct (later y); [set_solver|]. rewrite elem_of_cons, IH. set_solver.
Qed.
Lemma insert_before_NoDup later t l : t ∉ l → NoDup l → NoDup (insert_before later t l).
Proof.
  intros Ht Hl. induction Hl as [|y l Hy Hl IH]; simpl; [apply NoDup_singleton|].
  destruct (later y); [constructor; [exact Ht|constructor; assumption]|].
  constructor; [rewrite elem_of_insert_before; set_solver|apply IH; set_solver].
Qed.
Lemma elem_of_klist_rm t x l : x ∈ klist_rm t l ↔ x ≠ t ∧ x ∈ l.
Proof. unfold klist_rm. rewrite list_elem_of_filter. reflexivity. Qed.
Lemma klist_rm_NoDup t l : NoDup l → NoDup (klist_rm t l).
Proof. apply NoDup_filter. Qed.

(** A list ordered by a key; the head has the least key. *)
Definition ordered (key : nat → Z) (l : list nat) : Prop := StronglySorted (λ x y, key x ≤ key y) l.

Lemma ordered_head key x l y : ordered key (x :: l) → y ∈ x :: l → key x ≤ key y.
Proof.
  intros H Hy. apply StronglySorted_inv in H as [_ H]. apply elem_of_cons in Hy as [->|Hy]; [lia|].
  rewrite Forall_forall in H. apply H, Hy.
Qed.
Lemma ordered_filter key (P : nat → Prop) `{∀ x, Decision (P x)} l : ordered key l → ordered key (filter P l).
Proof.
  induction 1 as [|x l Hl IH HF]; [constructor|]. rewrite filter_cons. destruct (decide (P x)); [|exact IH].
  constructor; [exact IH|]. rewrite Forall_forall in *. intros y Hy. apply list_elem_of_filter in Hy as [_ Hy]. auto.
Qed.
Lemma ordered_rm key t l : ordered key l → ordered key (klist_rm t l).
Proof. apply ordered_filter. Qed.
Lemma ordered_ext key key' l : (∀ x, x ∈ l → key x = key' x) → ordered key l → ordered key' l.
Proof.
  intros He H. induction H as [|x l Hl IH HF]; [constructor|]. constructor.
  - apply IH. intros y Hy. apply He. set_solver.
  - rewrite Forall_forall in *. intros y Hy. rewrite <- !He by set_solver. apply HF, Hy.
Qed.
Lemma ordered_insert key t l : ordered key l → ordered key (insert_before (λ x, key t <? key x) t l).
Proof.
  induction 1 as [|x l Hl IH HF]; simpl; [repeat constructor|]. rewrite Forall_forall in HF.
  destruct (Z.ltb_spec (key t) (key x)).
  - constructor; [constructor; [exact Hl|rewrite Forall_forall; exact HF]|].
    rewrite Forall_forall. intros y Hy. apply elem_of_cons in Hy as [->|Hy]; [lia|]. specialize (HF y Hy). simpl in HF. lia.
  - constructor; [exact IH|]. rewrite Forall_forall. intros y Hy. apply elem_of_insert_before in Hy as [->|Hy]; [lia|apply HF, Hy].
Qed.

(** ** Ready queue *)

(** [RQ f q]: the queue holds every task [t] with [f t = Some p] in the list of the priority
    [p] and no other task; the map has the bits of the lists that are not empty, and
    [highest_pri] is the least priority in use. *)
Record RQ (f : nat → option Z) (q : runqueue_t) : Prop := mkRQ {
  rq_mem : ∀ p t, t ∈ cur_list_item q p ↔ f t = Some p;
  rq_nodup : ∀ p, NoDup (cur_list_item q p);
  rq_range : ∀ t p, f t = Some p → 0 ≤ p < RHINO_CONFIG_PRI_MAX;
  rq_words : Forall word32 (task_bit_map q);
  rq_len : length (task_bit_map q) = 2%nat;
  rq_bit : ∀ p, 0 ≤ p < 64 → bm_bit (task_bit_map q) p = true ↔ cur_list_item q p ≠ [];
  rq_least : ∀ p, cur_list_item q p ≠ [] → highest_pri q ≤ p;
  rq_top : cur_list_item q (highest_pri q) ≠ [] ∨ highest_pri q = RHINO_CONFIG_PRI_MAX }.

Lemma RQ_ext f g q : (∀ t, f t = g t) → RQ f q → RQ g q.
Proof. intros E [A B C D L F G I]. split; auto; [intros p t; rewrite <- E; apply A|intros t p; rewrite <- E; apply C]. Qed.

Lemma RQ_init : RQ (λ _, None) runqueue_init.
Proof.
  split; simpl; auto; try (intros; discriminate).
  - intros p t. split; [set_solver|discriminate].
  - intros _. constructor.
  - repeat constructor; lia.
  - intros p Hp. split; [|congruence]. unfold bm_bit. intros H. destruct (BITMAP_WORD p) as [|[|[|n]]]; simpl in H; rewrite Z.bits_0 in H; discriminate.
  - intros p H. congruence.
Qed.

Section ready_queue.
Context (f : nat → option Z) (q : runqueue_t) (HQ : RQ f q).

Lemma rq_in_map p : 0 ≤ p < RHINO_CONFIG_PRI_MAX → in_map (task_bit_map q) p.
Proof. intros H. unfold in_map. rewrite (rq_len _ _ HQ). unfold RHINO_CONFIG_PRI_MAX in H. lia. Qed.
Lemma rq_in_map64 p : 0 ≤ p < 64 → in_map (task_bit_map q) p.
Proof. intros H. unfold in_map. rewrite (rq_len _ _ HQ). lia. Qed.

Lemma updz_eq {A} (g : Z → A) k v : updz g k v k = v.
Proof. unfold updz. rewrite Z.eqb_refl. reflexivity. Qed.
Lemma updz_ne {A} (g : Z → A) k v x : x ≠ k → updz g k v x = g x.
Proof. intros H. unfold updz. destruct (Z.eqb_spec x k); [contradiction|reflexivity]. Qed.

(** A change of the list of one priority, in which the members are known. *)
Lemma rq_put_ok g p l :
  cur_list_item q p ≠ [] → l ≠ [] → NoDup l → (∀ t, t ∈ l ↔ g t = Some p) → (∀ t r, r ≠ p → g t = Some r ↔ f t = Some r) →
  RQ g (rq_put p l q).
Proof.
  intros Hne Hl Hnd Hm Hg. split; simpl.
  - intros r t. destruct (Z.eq_dec r p) as [->|Hr]; [rewrite updz_eq; apply Hm|].
    rewrite updz_ne by exact Hr. rewrite (rq_mem _ _ HQ), Hg by exact Hr. reflexivity.
  - intros r. destruct (Z.eq_dec r p) as [->|Hr]; [rewrite updz_eq; exact Hnd|rewrite updz_ne by exact Hr; apply (rq_nodup _ _ HQ)].
  - intros t r H. destruct (Z.eq_dec r p) as [->|Hr]; [|apply (rq_range _ _ HQ t), Hg; assumption].
    destruct (cur_list_item q p) as [|x l'] eqn:E; [congruence|].
    apply (rq_range _ _ HQ x), (rq_mem _ _ HQ). rewrite E. set_solver.
  - apply (rq_words _ _ HQ).
  - apply (rq_len _ _ HQ).
  - intros r Hr. rewrite (rq_bit _ _ HQ) by exact Hr. unfold updz. destruct (Z.eqb_spec r p) as [->|]; intuition.
  - intros r. unfold updz. destruct (Z.eqb_spec r p) as [->|]; intros H; apply (rq_least _ _ HQ); assumption.
  - unfold updz. destruct (Z.eqb_spec (highest_pri q) p); [left; exact Hl|apply (rq_top _ _ HQ)].
Qed.

Lemma ready_list_init_ok p t :
  cur_list_item q p = [] → 0 ≤ p < RHINO_CONFIG_PRI_MAX → f t = None → RQ (upd f t (Some p)) (ready_list_init p t q).
Proof.
  intros He Hp Hf. assert (Hn : ∀ x, f x ≠ Some p).
  { intros x H. apply (rq_mem _ _ HQ) in H. rewrite He in H. set_solver. }
  split; simpl.
  - intros r x. unfold upd, updz. destruct (Z.eqb_spec r p) as [->|Hr]; destruct (Nat.eqb_spec x t) as [->|Hx].
    + set_solver.
    + split; [set_solver|intros H; destruct (Hn _ H)].
    + rewrite (rq_mem _ _ HQ), Hf. split; congruence.
    + apply (rq_mem _ _ HQ).
  - intros r. unfold updz. destruct (r =? p); [apply NoDup_singleton|apply (rq_nodup _ _ HQ)].
  - intros x r. unfold upd. destruct (Nat.eqb x t); [intros [= <-]; exact Hp|apply (rq_range _ _ HQ)].
  - apply set_words, (rq_words _ _ HQ).
  - unfold krhino_bitmap_set. rewrite length_alter. apply (rq_len _ _ HQ).
  - intros r Hr. rewrite set_bit by (apply rq_in_map64; unfold RHINO_CONFIG_PRI_MAX in Hp; lia). unfold updz.
    rewrite orb_true_iff, Z.eqb_eq, (rq_bit _ _ HQ) by exact Hr.
    destruct (Z.eqb_spec r p) as [->|]; [split; [discriminate|auto]|split; [intros [E|E]; [congruence|exact E]|auto]].
  - intros r. unfold updz. destruct (Z.eqb_spec r p) as [->|]; [intros _; destruct (Z.ltb_spec p (highest_pri q)); lia|].
    intros H. apply (rq_least _ _ HQ) in H. destruct (Z.ltb_spec p (highest_pri q)); lia.
  - destruct (Z.ltb_spec p (highest_pri q)); [left; rewrite updz_eq; discriminate|].
    left. unfold updz. destruct (Z.eqb_spec (highest_pri q) p); [discriminate|].
    destruct (rq_top _ _ HQ) as [H'|H']; [exact H'|lia].
Qed.

Lemma rq_add_tail_ok p t : 0 ≤ p < RHINO_CONFIG_PRI_MAX → f t = None → RQ (upd f t (Some p)) (rq_add_tail p t q).
Proof.
  intros Hp Hf. unfold rq_add_tail. destruct (cur_list_item q p) as [|x l] eqn:E; [apply ready_list_init_ok; assumption|].
  assert (Ht : t ∉ x :: l) by (rewrite <- E, (rq_mem _ _ HQ), Hf; discriminate).
  apply rq_put_ok.
  - rewrite E. discriminate.
  - destruct l; discriminate.
  - rewrite NoDup_app, <- E. split; [apply (rq_nodup _ _ HQ)|]. split; [rewrite E; set_solver|apply NoDup_singleton].
  - intros y. unfold upd. rewrite elem_of_app, <- E, (rq_mem _ _ HQ), list_elem_of_singleton.
    destruct (Nat.eqb_spec y t) as [->|]; [intuition|]. intuition congruence.
  - intros y r Hr. unfold upd. destruct (Nat.eqb_spec y t) as [->|]; [rewrite Hf; split; congruence|reflexivity].
Qed.
Lemma rq_add_head_ok p t : 0 ≤ p < RHINO_CONFIG_PRI_MAX → f t = None → RQ (upd f t (Some p)) (rq_add_head p t q).
Proof.
  intros Hp Hf. unfold rq_add_head. destruct (cur_list_item q p) as [|x l] eqn:E; [apply ready_list_init_ok; assumption|].
  assert (Ht : t ∉ x :: l) by (rewrite <- E, (rq_mem _ _ HQ), Hf; discriminate).
  apply rq_put_ok.
  - rewrite E. discriminate.
  - discriminate.
  - constructor; [exact Ht|]. rewrite <- E. apply (rq_nodup _ _ HQ).
  - intros y. unfold upd. rewrite elem_of_cons, <- E, (rq_mem _ _ HQ).
    destruct (Nat.eqb_spec y t) as [->|]; [intuition|]. intuition congruence.
  - intros y r Hr. unfold upd. destruct (Nat.eqb_spec y t) as [->|]; [rewrite Hf; split; congruence|reflexivity].
Qed.

(** A task leaves the queue, and some other task stays. *)
Lemma rq_rm_ok p t : f t = Some p → (∃ u, u ≠ t ∧ f u ≠ None) → ∃ q', rq_rm p t q = Some q' ∧ RQ (upd f t None) q'.
Proof.
  intros Hf (u & Hu & Hfu). assert (Hp := rq_range _ _ HQ _ _ Hf). assert (Hin : t ∈ cur_list_item q p) by (apply (rq_mem _ _ HQ), Hf).
  unfold rq_rm. destruct (cur_list_item q p) as [|x [|y l]] eqn:E; [set_solver| |].
  2: { eexists. split; [reflexivity|]. apply rq_put_ok.
    - rewrite E. discriminate.
    - intros H0. assert (HN := rq_nodup _ _ HQ p). rewrite E in HN.
      assert (Hx : ∀ z, z ∈ x :: y :: l → z = t).
      { intros z Hz. destruct (Nat.eq_dec z t); [assumption|]. assert (z ∈ klist_rm t (x :: y :: l)) by (apply elem_of_klist_rm; auto).
        rewrite H0 in H. set_solver. }
      rewrite (Hx x), (Hx y) in HN by set_solver. apply NoDup_cons in HN as [HN _]. set_solver.
    - apply klist_rm_NoDup. rewrite <- E. apply (rq_nodup _ _ HQ).
    - intros z. rewrite elem_of_klist_rm, <- E, (rq_mem _ _ HQ). unfold upd. destruct (Nat.eqb_spec z t); intuition congruence.
    - intros z r Hr. unfold upd. destruct (Nat.eqb_spec z t) as [->|]; [rewrite Hf; split; congruence|reflexivity]. }
  assert (x = t) as -> by set_solver.
  set (bm := krhino_bitmap_clear (task_bit_map q) p).
  assert (Hb : ∀ r, 0 ≤ r < 64 → bm_bit bm r = true ↔ updz (cur_list_item q) p [] r ≠ []).
  { intros r Hr. unfold bm. rewrite clear_bit by (apply rq_in_map64; unfold RHINO_CONFIG_PRI_MAX in Hp; lia).
    rewrite andb_true_iff, (rq_bit _ _ HQ) by exact Hr. unfold updz.
    destruct (Z.eqb_spec p r) as [->|Hn]; [rewrite Z.eqb_refl; simpl; split; [intros [? _]; discriminate|congruence]|].
    rewrite (proj2 (Z.eqb_neq r p)) by auto. simpl. tauto. }
  assert (Hw : Forall word32 bm) by apply clear_words, (rq_words _ _ HQ).
  assert (Hlen : length bm = 2%nat) by (unfold bm, krhino_bitmap_clear; rewrite length_alter; apply (rq_len _ _ HQ)).
  assert (Hrest : ∀ h, (∀ r, updz (cur_list_item q) p [] r ≠ [] → h ≤ r) → updz (cur_list_item q) p [] h ≠ [] ∨ h = RHINO_CONFIG_PRI_MAX →
                   RQ (upd f t None) (mkRq (updz (cur_list_item q) p []) bm h)).
  { intros h H1 H2. split; simpl; auto.
    - intros r z. unfold upd, updz. destruct (Z.eqb_spec r p) as [->|]; destruct (Nat.eqb_spec z t) as [->|].
      + set_solver.
      + split; [set_solver|]. intros H. apply (rq_mem _ _ HQ) in H. rewrite E in H. set_solver.
      + rewrite (rq_mem _ _ HQ), Hf. split; congruence.
      + apply (rq_mem _ _ HQ).
    - intros r. unfold updz. destruct (r =? p); [constructor|apply (rq_nodup _ _ HQ)].
    - intros z r. unfold upd. destruct (Nat.eqb z t); [discriminate|apply (rq_range _ _ HQ)]. }
  destruct (Z.eqb_spec p (highest_pri q)) as [Eh|Eh].
  - pose proof (find_first_bit_spec bm 0 Hw) as HF. destruct (krhino_find_first_bit bm 0) as [i|].
    + destruct HF as (r & -> & Hr & Hbr & Hlow). rewrite Hlen in Hr. cbn [mbind option_bind]. rewrite Z.add_0_l, (proj2 (Z.leb_le 0 r)) by lia.
      eexists. split; [reflexivity|]. apply Hrest.
      * intros r' Hr'. destruct (Z.leb_spec r r') as [|Hlt]; [assumption|].
        assert (0 ≤ r') as H0. { unfold updz in Hr'. destruct (r' =? p); [congruence|].
          destruct (cur_list_item q r') as [|z l'] eqn:Ez; [congruence|]. apply (rq_range _ _ HQ z), (rq_mem _ _ HQ). rewrite Ez. set_solver. }
        apply Hb in Hr'; [|lia]. rewrite Hlow in Hr' by lia. discriminate.
      * left. apply Hb; [lia|exact Hbr].
    + exfalso. destruct (f u) as [r|] eqn:Hu'; [|congruence]. assert (Hr := rq_range _ _ HQ _ _ Hu'). unfold RHINO_CONFIG_PRI_MAX in Hr.
      assert (bm_bit bm r = true); [|rewrite HF in H by lia; discriminate].
      apply Hb; [lia|]. apply (rq_mem _ _ HQ) in Hu'. unfold updz. destruct (Z.eqb_spec r p) as [->|]; [rewrite E in Hu'; set_solver|].
      intros H. rewrite H in Hu'. set_solver.
  - eexists. split; [reflexivity|]. apply Hrest.
    + intros r Hr. apply (rq_least _ _ HQ). unfold updz in Hr. destruct (r =? p); [congruence|exact Hr].
    + destruct (rq_top _ _ HQ) as [H|H]; [left; rewrite updz_ne by auto; exact H|right; exact H].
Qed.

Lemma rotate_ok p x l : cur_list_item q p = x :: l → RQ f (rq_put p (l ++ [x]) q).
Proof.
  intros E. apply rq_put_ok.
  - rewrite E. discriminate.
  - destruct l; discriminate.
  - rewrite <- Permutation_cons_append, <- E. apply (rq_nodup _ _ HQ).
  - intros t. rewrite <- Permutation_cons_append, <- E. apply (rq_mem _ _ HQ).
  - reflexivity.
Qed.

(** The first task of the list at [highest_pri] is ready and none is more urgent. *)
Lemma preferred_ok : (∃ u, f u ≠ None) →
  ∃ t p, preferred_cpu_ready_task_get q = Some t ∧ f t = Some p ∧ p = highest_pri q ∧ ∀ u r, f u = Some r → p ≤ r.
Proof.
  intros (u & Hu). destruct (f u) as [r|] eqn:E; [|congruence].
  assert (Hne : cur_list_item q (highest_pri q) ≠ []).
  { destruct (rq_top _ _ HQ) as [H|H]; [exact H|]. assert (highest_pri q ≤ r).
    { apply (rq_least _ _ HQ). apply (rq_mem _ _ HQ) in E. intros H0. rewrite H0 in E. set_solver. }
    pose proof (rq_range _ _ HQ _ _ E). lia. }
  unfold preferred_cpu_ready_task_get. destruct (cur_list_item q (highest_pri q)) as [|t l] eqn:El; [congruence|].
  exists t, (highest_pri q). split; [reflexivity|]. split; [apply (rq_mem _ _ HQ); rewrite El; set_solver|]. split; [reflexivity|].
  intros v w Hv. apply (rq_least _ _ HQ). apply (rq_mem _ _ HQ) in Hv. intros H0. rewrite H0 in Hv. set_solver.
Qed.
End ready_queue.
