(* ===== verification/KernelInv.v ===== *)
(** * KernelInv: what holds of the kernel between two calls

    The invariant of the kernel of Kernel.v, in layers that do not depend on each other:
    [RQ] (KernelQueue.v) of the ready queue, [BL] of the lists of waiting tasks, [TL] of the
    tick list, [ML] of the chains of mutexes, [task_ok] of a task block, and [PI], that each
    task has the most urgent of its own priority and of those of the tasks that wait for it.
    The first four are stated against functions that say where a task is; [Core] takes the
    functions that read it from the task blocks. *)
From Stdlib Require Import ZArith Lia List Bool FunctionalExtensionality.
From stdpp Require Import base list numbers option sorting sets.
From S2P Require Import Prelude Kernel KernelQueue.
Local Open Scope Z_scope.

(** ** Functions *)

Lemma upd_eq {A} (f : nat → A) k v : upd f k v k = v.
Proof. unfold upd. rewrite Nat.eqb_refl. reflexivity. Qed.
Lemma upd_ne {A} (f : nat → A) k v x : x ≠ k → upd f k v x = f x.
Proof. intros H. unfold upd. destruct (Nat.eqb_spec x k); [contradiction|reflexivity]. Qed.
Lemma upd_upd {A} (f : nat → A) k v w : upd (upd f k v) k w = upd f k w.
Proof. apply functional_extensionality. intros x. unfold upd. destruct (Nat.eqb x k); reflexivity. Qed.
Lemma upd_id {A} (f : nat → A) k v : f k = v → upd f k v = f.
Proof. intros E. apply functional_extensionality. intros x. unfold upd. destruct (Nat.eqb_spec x k) as [->|]; congruence. Qed.
Lemma upd_app {A B} (g : A → B) (f : nat → A) k v x : g (upd f k v x) = upd (λ y, g (f y)) k (g v) x.
Proof. unfold upd. destruct (Nat.eqb x k); reflexivity. Qed.

(** Cases on whether a task is the one that was changed. *)
Ltac at_task x t := destruct (Nat.eq_dec x t) as [->|?]; [rewrite ?upd_eq in *|rewrite ?(upd_ne _ t _ x) in * by assumption].

(** ** Where a task is *)

Definition live (k : ktask_t) : bool := match task_state k with K_SEED | K_DELETED => false | _ => true end.
Definition pending (k : ktask_t) : bool := match task_state k with K_PEND | K_PEND_SUSPENDED => true | _ => false end.
Definition sleeping (k : ktask_t) : bool := match task_state k with K_SLEEP | K_SLEEP_SUSPENDED => true | _ => false end.
(** The place in the ready queue, and the object the task waits for. *)
Definition rdy1 (k : ktask_t) : option Z := match task_state k with K_RDY => Some (prio k) | _ => None end.
Definition wob1 (k : ktask_t) : option nat := if pending k then blk_obj k else None.
Definition rem1 (c : Z) (k : ktask_t) : Z := tick_wrap (tick_match k - c).
Definition owner1 (b : kobj) : option nat := match obj_type b with RHINO_MUTEX_OBJ_TYPE => mutex_task b | _ => None end.

Definition rdy (s : kern) (t : nat) := rdy1 (tasks s t).
Definition wob (s : kern) (t : nat) := wob1 (tasks s t).
Definition pri (s : kern) (t : nat) := prio (tasks s t).
Definition base (s : kern) (t : nat) := b_prio (tasks s t).
Definition tck (s : kern) (t : nat) := on_tick (tasks s t).
Definition rem (s : kern) (t : nat) := rem1 (g_tick_count s) (tasks s t).
Definition owner (s : kern) (o : nat) := owner1 (objs s o).

(** ** Layers *)

Record BL (g : nat → option nat) (pr : nat → Z) (ob : nat → kobj) : Prop := mkBL {
  bl_mem : ∀ o t, t ∈ blk_list (ob o) ↔ g t = Some o;
  bl_nodup : ∀ o, NoDup (blk_list (ob o));
  bl_ord : ∀ o, ordered pr (blk_list (ob o));
  bl_pri : ∀ o, blk_policy (ob o) = BLK_POLICY_PRI }.
Record TL (h : nat → bool) (rm : nat → Z) (l : list nat) : Prop := mkTL {
  tl_mem : ∀ t, t ∈ l ↔ h t = true;
  tl_nodup : NoDup l;
  tl_ord : ordered rm l }.
Fixpoint chain (nx : nat → option nat) (p : option nat) (l : list nat) : Prop :=
  match l with [] => p = None | o :: l => p = Some o ∧ chain nx (nx o) l end.
Record ML (own : nat → option nat) (H : nat → list nat) (hd nx : nat → option nat) (lv : nat → bool) (n : nat) : Prop := mkML {
  ml_chain : ∀ t, lv t = true → chain nx (hd t) (H t);
  ml_mem : ∀ o t, o ∈ H t ↔ own o = Some t;
  ml_nodup : ∀ t, NoDup (H t);
  ml_live : ∀ o t, own o = Some t → lv t = true;
  ml_lt : ∀ o t, own o = Some t → (o < n)%nat }.

Definition pri_ok (p : Z) : Prop := 0 ≤ p < RHINO_CONFIG_PRI_MAX.
Record task_ok (n : nat) (t : nat) (k : ktask_t) : Prop := mkTaskOk {
  k_lt : live k = true → (t < n)%nat;
  k_prio : live k = true → pri_ok (prio k);
  k_u8 : 0 ≤ prio k;
  k_base : live k = true → pri_ok (b_prio k);
  k_pend : pending k = true → blk_obj k ≠ None;
  k_tick : on_tick k = true → pending k || sleeping k = true;
  k_sleep : sleeping k = true → on_tick k = true }.
(** The idle task is always ready and holds nothing. *)
Record idle_ok (own : nat → option nat) (k : ktask_t) : Prop := mkIdle {
  id_state : task_state k = K_RDY; id_prio : prio k = RHINO_IDLE_PRI; id_base : b_prio k = RHINO_IDLE_PRI; id_own : ∀ o, own o ≠ Some g_idle_task }.

(** [own] says which task has which mutex in its chain; between two calls it is [owner]. *)
Record Core (own : nat → option nat) (H : nat → list nat) (s : kern) : Prop := mkCore {
  c_rq : RQ (rdy s) (g_ready_queue s);
  c_bl : BL (wob s) (pri s) (objs s);
  c_tl : TL (tck s) (rem s) (g_tick_head s);
  c_ml : ML own H (λ t, mutex_list (tasks s t)) (λ o, mutex_next (objs s o)) (λ t, live (tasks s t)) (n_objs s);
  c_ok : ∀ t, task_ok (n_tasks s) t (tasks s t);
  c_idle : idle_ok own (tasks s g_idle_task) }.

(** ** Lists of waiting tasks *)

Lemma BL_ext g pr ob g' pr' ob' :
  BL g pr ob → (∀ t, g' t = g t) → (∀ t, g t ≠ None → pr' t = pr t) →
  (∀ o, blk_list (ob' o) = blk_list (ob o)) → (∀ o, blk_policy (ob' o) = blk_policy (ob o)) → BL g' pr' ob'.
Proof.
  intros [A B C D] Hg Hp Hl Hy. split.
  - intros o t. rewrite Hl, Hg. apply A.
  - intros o. rewrite Hl. apply B.
  - intros o. rewrite Hl. eapply ordered_ext; [|apply C]. intros x Hx. symmetry. apply Hp. rewrite (proj1 (A _ _) Hx). discriminate.
  - intros o. rewrite Hy. apply D.
Qed.
Lemma BL_rm g pr ob t o : BL g pr ob → g t = Some o → BL (upd g t None) pr (upd ob o (o_waiters (klist_rm t (blk_list (ob o))) (ob o))).
Proof.
  intros [A B C D] Hg. split.
  - intros o' x. destruct (Nat.eq_dec o' o) as [->|Ho].
    + rewrite upd_eq. simpl. rewrite elem_of_klist_rm, A. unfold upd. destruct (Nat.eqb_spec x t); intuition congruence.
    + rewrite upd_ne by exact Ho. rewrite A. unfold upd. destruct (Nat.eqb_spec x t); intuition congruence.
  - intros o'. destruct (Nat.eq_dec o' o) as [->|Ho]; [rewrite upd_eq; apply klist_rm_NoDup, B|rewrite upd_ne by exact Ho; apply B].
  - intros o'. destruct (Nat.eq_dec o' o) as [->|Ho]; [rewrite upd_eq; apply ordered_rm, C|rewrite upd_ne by exact Ho; apply C].
  - intros o'. destruct (Nat.eq_dec o' o) as [->|Ho]; [rewrite upd_eq; apply D|rewrite upd_ne by exact Ho; apply D].
Qed.
Lemma BL_add g pr ob t o : BL g pr ob → g t = None →
  BL (upd g t (Some o)) pr (upd ob o (o_waiters (insert_before (λ x, pr t <? pr x) t (blk_list (ob o))) (ob o))).
Proof.
  intros [A B C D] Hg. assert (Hn : ∀ o', t ∉ blk_list (ob o')) by (intros o'; rewrite A, Hg; discriminate). split.
  - intros o' x. destruct (Nat.eq_dec o' o) as [->|Ho].
    + rewrite upd_eq. simpl. rewrite elem_of_insert_before, A. unfold upd. destruct (Nat.eqb_spec x t) as [->|]; intuition congruence.
    + rewrite upd_ne by exact Ho. rewrite A. unfold upd. destruct (Nat.eqb_spec x t) as [->|]; intuition congruence.
  - intros o'. destruct (Nat.eq_dec o' o) as [->|Ho]; [rewrite upd_eq; apply insert_before_NoDup; auto|rewrite upd_ne by exact Ho; apply B].
  - intros o'. destruct (Nat.eq_dec o' o) as [->|Ho]; [rewrite upd_eq; apply ordered_insert, C|rewrite upd_ne by exact Ho; apply C].
  - intros o'. destruct (Nat.eq_dec o' o) as [->|Ho]; [rewrite upd_eq; apply D|rewrite upd_ne by exact Ho; apply D].
Qed.
(** The priority of a task that waits for nothing has no part in the lists. *)
Lemma BL_pri g pr ob t p : BL g pr ob → g t = None → BL g (upd pr t p) ob.
Proof. intros HB Hg. apply (BL_ext _ _ _ _ _ _ HB); auto. intros x Hx. apply upd_ne. congruence. Qed.
(** A waiting task gets a new priority and is put into the list again. *)
Lemma BL_reorder g pr ob t o p : BL g pr ob → g t = Some o →
  let ob1 := upd ob o (o_waiters (klist_rm t (blk_list (ob o))) (ob o)) in
  BL g (upd pr t p) (upd ob1 o (o_waiters (insert_before (λ x, upd pr t p t <? upd pr t p x) t (blk_list (ob1 o))) (ob1 o))).
Proof.
  intros HB Hg ob1. rewrite <- (upd_id g t (Some o) Hg), <- (upd_upd g t None).
  apply (BL_add _ (upd pr t p)); [|apply upd_eq]. apply BL_pri; [|apply upd_eq]. apply BL_rm; assumption.
Qed.

(** ** Tick list *)

Lemma TL_ext h rm l h' rm' : TL h rm l → (∀ t, h' t = h t) → (∀ t, h t = true → rm' t = rm t) → TL h' rm' l.
Proof.
  intros [A B C] Hh Hr. split; auto.
  - intros t. rewrite Hh. apply A.
  - eapply ordered_ext; [|exact C]. intros x Hx. symmetry. apply Hr, A, Hx.
Qed.
Lemma TL_rm h rm l t : TL h rm l → TL (upd h t false) rm (klist_rm t l).
Proof.
  intros [A B C]. split.
  - intros x. rewrite elem_of_klist_rm, A. unfold upd. destruct (Nat.eqb_spec x t); intuition congruence.
  - apply klist_rm_NoDup, B.
  - apply ordered_rm, C.
Qed.
Lemma TL_add h rm l t : TL h rm l → h t = false → TL (upd h t true) rm (insert_before (λ x, rm t <? rm x) t l).
Proof.
  intros [A B C] Ht. assert (t ∉ l) by (rewrite A, Ht; discriminate). split.
  - intros x. rewrite elem_of_insert_before, A. unfold upd. destruct (Nat.eqb_spec x t); intuition congruence.
  - apply insert_before_NoDup; assumption.
  - apply ordered_insert, C.
Qed.

(** ** What the primitives change *)

Create HintDb kern.

(** Everything of [s'] but the task blocks, the ready queue, the tick list and the lists of
    waiting tasks is as in [s]. *)
Record frame (s s' : kern) : Prop := mkFrame {
  fr_tasks : n_tasks s' = n_tasks s; fr_objs : n_objs s' = n_objs s; fr_count : g_tick_count s' = g_tick_count s; fr_active : g_active_task s' = g_active_task s;
  fr_lock : g_sched_lock s' = g_sched_lock s; fr_level : g_intrpt_nested_level s' = g_intrpt_nested_level s; fr_running : running s' = running s;
  fr_obj : ∀ o, o_waiters [] (objs s' o) = o_waiters [] (objs s o) }.
Lemma frame_refl s : frame s s.
Proof. split; reflexivity. Qed.
Lemma frame_trans s1 s2 s3 : frame s1 s2 → frame s2 s3 → frame s1 s3.
Proof. intros F1 F2. split; intros; (etransitivity; [apply F2|apply F1]). Qed.
#[export] Hint Resolve frame_refl : kern.
Lemma frame_field {A} (F : kobj → A) s s' o : (∀ b l, F (o_waiters l b) = F b) → frame s s' → F (objs s' o) = F (objs s o).
Proof. intros HF [_ _ _ _ _ _ _ H]. rewrite <- (HF (objs s' o) []), H. apply HF. Qed.
Lemma frame_next s s' o : frame s s' → mutex_next (objs s' o) = mutex_next (objs s o).
Proof. apply (frame_field mutex_next). reflexivity. Qed.
Lemma frame_type s s' o : frame s s' → obj_type (objs s' o) = obj_type (objs s o).
Proof. apply (frame_field obj_type). reflexivity. Qed.
Lemma frame_mtask s s' o : frame s s' → mutex_task (objs s' o) = mutex_task (objs s o).
Proof. apply (frame_field mutex_task). reflexivity. Qed.
Lemma frame_owner s s' o : frame s s' → owner s' o = owner s o.
Proof. apply (frame_field owner1). reflexivity. Qed.

Lemma frame_on_task t f s : frame s (on_task t f s).
Proof. split; reflexivity. Qed.
Lemma frame_rq q s : frame s (set_rq q s).
Proof. split; reflexivity. Qed.
Lemma frame_waiters o l s : frame s (on_obj o (λ b, o_waiters (l b) b) s).
Proof. split; try reflexivity. intros x. simpl. unfold upd. destruct (Nat.eqb_spec x o) as [->|]; reflexivity. Qed.
Lemma frame_add t s : frame s (ready_list_add t s).
Proof. unfold ready_list_add. destruct (_ =? _); apply frame_rq. Qed.
Lemma frame_tick_rm t s : frame s (tick_list_rm t s).
Proof. unfold tick_list_rm. destruct (on_tick _); split; reflexivity. Qed.
Lemma frame_tick_insert t n s : frame s (tick_list_insert t n s).
Proof. unfold tick_list_insert. destruct (0 <? n); split; reflexivity. Qed.
Lemma frame_blk_rm t s : frame s (blk_list_rm t s).
Proof. unfold blk_list_rm. destruct (blk_obj _); [apply (frame_waiters _ (λ b, klist_rm t (blk_list b)))|apply frame_refl]. Qed.
Lemma frame_pend_add o t s : frame s (pend_list_add o t s).
Proof. apply (frame_waiters o (λ b, insert_before (λ x, prio (tasks s t) <? prio (tasks s x)) t (blk_list b))). Qed.
#[export] Hint Resolve frame_on_task frame_rq frame_waiters frame_add frame_tick_rm frame_tick_insert frame_blk_rm frame_pend_add : kern.
(** Frames of compositions of primitives. *)
Ltac frames := repeat (first [solve [eauto 1 with kern] | eapply frame_trans; [|solve [eauto 1 with kern]]]).

Lemma tasks_add t s : tasks (ready_list_add t s) = tasks s.
Proof. unfold ready_list_add. destruct (_ =? _); reflexivity. Qed.
Lemma tasks_blk_rm t s : tasks (blk_list_rm t s) = tasks s.
Proof. unfold blk_list_rm. destruct (blk_obj _); reflexivity. Qed.
Lemma tasks_on t f s : tasks (on_task t f s) = upd (tasks s) t (f (tasks s t)).
Proof. reflexivity. Qed.
Lemma t_on_tick_id k : on_tick k = false → t_on_tick false k = k.
Proof. destruct k; simpl. intros ->. reflexivity. Qed.
Lemma tasks_tick_rm t s : tasks (tick_list_rm t s) = upd (tasks s) t (t_on_tick false (tasks s t)).
Proof.
  unfold tick_list_rm. destruct (on_tick (tasks s t)) eqn:E; [reflexivity|]. rewrite t_on_tick_id by exact E. symmetry. apply upd_id. reflexivity.
Qed.
Lemma rq_blk_rm t s : g_ready_queue (blk_list_rm t s) = g_ready_queue s.
Proof. unfold blk_list_rm. destruct (blk_obj _); reflexivity. Qed.
Lemma rq_tick_rm t s : g_ready_queue (tick_list_rm t s) = g_ready_queue s.
Proof. unfold tick_list_rm. destruct (on_tick _); reflexivity. Qed.
Lemma rq_tick_insert t n s : g_ready_queue (tick_list_insert t n s) = g_ready_queue s.
Proof. unfold tick_list_insert. destruct (0 <? n); reflexivity. Qed.
Lemma objs_add t s : objs (ready_list_add t s) = objs s.
Proof. unfold ready_list_add. destruct (_ =? _); reflexivity. Qed.
Lemma objs_tick_rm t s : objs (tick_list_rm t s) = objs s.
Proof. unfold tick_list_rm. destruct (on_tick _); reflexivity. Qed.
Lemma objs_tick_insert t n s : objs (tick_list_insert t n s) = objs s.
Proof. unfold tick_list_insert. destruct (0 <? n); reflexivity. Qed.
Lemma ticks_add t s : g_tick_head (ready_list_add t s) = g_tick_head s.
Proof. unfold ready_list_add. destruct (_ =? _); reflexivity. Qed.
Lemma ticks_blk_rm t s : g_tick_head (blk_list_rm t s) = g_tick_head s.
Proof. unfold blk_list_rm. destruct (blk_obj _); reflexivity. Qed.
Lemma rq_on t f s : g_ready_queue (on_task t f s) = g_ready_queue s.
Proof. reflexivity. Qed.
Lemma objs_on t f s : objs (on_task t f s) = objs s.
Proof. reflexivity. Qed.
Lemma ticks_on t f s : g_tick_head (on_task t f s) = g_tick_head s.
Proof. reflexivity. Qed.
#[export] Hint Rewrite tasks_add tasks_blk_rm tasks_on tasks_tick_rm rq_blk_rm rq_tick_rm rq_tick_insert objs_add objs_tick_rm objs_tick_insert
  ticks_add ticks_blk_rm rq_on objs_on ticks_on @upd_eq @upd_upd : kern.

(** ** The primitives and the layers *)

Lemma RQ_same f q t v : RQ f q → f t = v → RQ (upd f t v) q.
Proof. intros H E. rewrite upd_id by exact E. exact H. Qed.
Lemma RQ_add f s t p : RQ f (g_ready_queue s) → prio (tasks s t) = p → pri_ok p → f t = None → RQ (upd f t (Some p)) (g_ready_queue (ready_list_add t s)).
Proof.
  intros HQ <- Hp Hf. unfold ready_list_add. destruct (_ =? _); simpl; [apply rq_add_tail_ok|apply rq_add_head_ok]; assumption.
Qed.
Lemma RQ_rm f s t : RQ f (g_ready_queue s) → f t = Some (prio (tasks s t)) → t ≠ g_idle_task → f g_idle_task ≠ None →
  ∃ q, ready_list_rm t s = Some (set_rq q s) ∧ RQ (upd f t None) q.
Proof.
  intros HQ Hf Ht Hi. destruct (rq_rm_ok f _ HQ _ t Hf (ex_intro _ g_idle_task (conj (not_eq_sym Ht) Hi))) as (q & E & HQ').
  exists q. split; [|exact HQ']. unfold ready_list_rm. rewrite E. reflexivity.
Qed.
Lemma BL_same g pr ob t v p : BL g pr ob → g t = v → pr t = p → BL (upd g t v) (upd pr t p) ob.
Proof. intros H E F. rewrite (upd_id g) by exact E. rewrite (upd_id pr) by exact F. exact H. Qed.
Lemma BL_leave g pr s t o : BL g pr (objs s) → g t = Some o → blk_obj (tasks s t) = Some o → BL (upd g t None) pr (objs (blk_list_rm t s)).
Proof. intros H E F. unfold blk_list_rm. rewrite F. apply BL_rm; assumption. Qed.
Lemma TL_same h rm l t v r : TL h rm l → h t = v → rm t = r → TL (upd h t v) (upd rm t r) l.
Proof. intros H E F. rewrite (upd_id h) by exact E. rewrite (upd_id rm) by exact F. exact H. Qed.
Lemma TL_leave h rm s t : TL h rm (g_tick_head s) → h t = on_tick (tasks s t) → TL (upd h t false) rm (g_tick_head (tick_list_rm t s)).
Proof. intros H E. unfold tick_list_rm. destruct (on_tick (tasks s t)); simpl; [apply TL_rm, H|rewrite upd_id by exact E; exact H]. Qed.

(** One task block changes: the layers that hold of the new places make a [Core]. *)
Lemma Core_task_gen own H s t k s' :
  Core own H s → frame s s' → tasks s' = upd (tasks s) t k → (t = g_idle_task → idle_ok own k) →
  RQ (upd (rdy s) t (rdy1 k)) (g_ready_queue s') →
  BL (upd (wob s) t (wob1 k)) (upd (pri s) t (prio k)) (objs s') →
  TL (upd (tck s) t (on_tick k)) (upd (rem s) t (rem1 (g_tick_count s) k)) (g_tick_head s') →
  task_ok (n_tasks s) t k →
  (live k = true → chain (λ o, mutex_next (objs s o)) (mutex_list k) (H t)) → (live k = false → ∀ o, own o ≠ Some t) →
  Core own H s'.
Proof.
  intros [Q B T M K I] F E Ht HQ HB HT Hk Hc Hd.
  assert (Hnx : (λ o, mutex_next (objs s' o)) = (λ o, mutex_next (objs s o))) by (apply functional_extensionality; intros o; apply frame_next, F).
  assert (Ex : ∀ A (g : ktask_t → A), (λ x, g (tasks s' x)) = upd (λ x, g (tasks s x)) t (g k)).
  { intros A g. apply functional_extensionality. intros x. rewrite E. apply upd_app. }
  split.
  - unfold rdy in *. rewrite Ex. exact HQ.
  - unfold wob, pri in *. rewrite !Ex. exact HB.
  - unfold tck, rem in *. rewrite (fr_count _ _ F), !Ex. exact HT.
  - rewrite Hnx, !Ex, (fr_objs _ _ F). destruct M as [M1 M2 M3 M4 M5]. split; auto.
    + intros x. at_task x t; auto.
    + intros o x Ho. at_task x t; [|eauto]. destruct (live k) eqn:El; [reflexivity|]. destruct (Hd eq_refl _ Ho).
  - intros x. rewrite E, (fr_tasks _ _ F). at_task x t; auto.
  - rewrite E. destruct (Nat.eq_dec t g_idle_task) as [->|Hn]; [rewrite upd_eq; auto|rewrite upd_ne by auto; exact I].
Qed.
Lemma Core_task own H s t k s' :
  Core own H s → frame s s' → tasks s' = upd (tasks s) t k → t ≠ g_idle_task →
  RQ (upd (rdy s) t (rdy1 k)) (g_ready_queue s') →
  BL (upd (wob s) t (wob1 k)) (upd (pri s) t (prio k)) (objs s') →
  TL (upd (tck s) t (on_tick k)) (upd (rem s) t (rem1 (g_tick_count s) k)) (g_tick_head s') →
  task_ok (n_tasks s) t k →
  (live k = true → chain (λ o, mutex_next (objs s o)) (mutex_list k) (H t)) → (live k = false → ∀ o, own o ≠ Some t) →
  Core own H s'.
Proof. intros HC F E Ht. apply Core_task_gen; auto. intros E'. destruct (Ht E'). Qed.

(** ** Priority inheritance *)

(** [boss x]: the task that holds the mutex [x] waits for.  [dem]: [p] is the most urgent of
    the base priority of [m], of the priorities of the tasks that wait for [m] and of the
    extra demand [e m]. *)
Definition boss_of (g own : nat → option nat) (x : nat) : option nat := g x ≫= own.
Record dem (b : nat → option nat) (pr bp : nat → Z) (e : nat → option Z) (m : nat) (p : Z) : Prop := mkDem {
  d_base : p ≤ bp m;
  d_wait : ∀ x, b x = Some m → p ≤ pr x;
  d_extra : ∀ r, e m = Some r → p ≤ r;
  d_att : p = bp m ∨ (∃ x, b x = Some m ∧ p = pr x) ∨ e m = Some p }.
Definition no_extra : nat → option Z := λ _, None.

(** All tasks of [lv] but those of [X] have the priority they are due. *)
Definition PI (b : nat → option nat) (pr bp : nat → Z) (e : nat → option Z) (lv : nat → bool) (X : nat → Prop) : Prop :=
  ∀ m, lv m = true → ¬ X m → dem b pr bp e m (pr m).
Definition nobody : nat → Prop := λ _, False.

Lemma dem_ext b pr bp e b' pr' bp' e' m p :
  dem b pr bp e m p → bp' m = bp m → e' m = e m → (∀ x, b' x = Some m ↔ b x = Some m) → (∀ x, b x = Some m → pr' x = pr x) → dem b' pr' bp' e' m p.
Proof.
  intros [A B C D] Hb He Hx Hp. split.
  - rewrite Hb. exact A.
  - intros x H. apply Hx in H. rewrite Hp by exact H. auto.
  - rewrite He. exact C.
  - rewrite Hb, He. destruct D as [D|[(x & D1 & D2)|D]]; auto. right. left. exists x. rewrite Hp by exact D1. split; [apply Hx, D1|exact D2].
Qed.
Lemma dem_unique b pr bp e m p p' : dem b pr bp e m p → dem b pr bp e m p' → p = p'.
Proof.
  intros [A B C D] [A' B' C' D'].
  assert (p ≤ p') by (destruct D' as [->|[(x & E & ->)|E]]; auto). assert (p' ≤ p) by (destruct D as [->|[(x & E & ->)|E]]; auto). lia.
Qed.

(** [x] stops waiting, and [m], which it waited for, had no need of it or is excused. *)
Lemma PI_leave b pr bp e lv X x :
  PI b pr bp e lv X → PI (upd b x None) pr bp e lv (λ m, X m ∨ (b x = Some m ∧ pr m = pr x)).
Proof.
  intros H m Hl Hn. destruct (H m Hl) as [A B C D]; [tauto|]. split; auto.
  - intros y. at_task y x; [discriminate|auto].
  - destruct D as [D|[(y & D1 & D2)|D]]; auto. right. left. exists y. at_task y x; [|auto]. destruct Hn. right. auto.
Qed.
(** [x] begins to wait for [m], which is urgent enough already or has an extra demand for it. *)
Lemma PI_enter b pr bp e lv X x m :
  PI b pr bp e lv X → b x = None → (pr m ≤ pr x ∧ e m = None) ∨ e m = Some (pr x) → ¬ X m → lv m = true → PI (upd b x (Some m)) pr bp (upd e m None) lv X.
Proof.
  intros H Hb Hm Hx Hlm m' Hl Hn. destruct (H m' Hl Hn) as [A B C D]. destruct (Nat.eq_dec m' m) as [->|Hne].
  - split; auto.
    + intros y. at_task y x; [intros _|auto]. destruct Hm as [[Hm _]|Hm]; [exact Hm|apply C, Hm].
    + intros r. rewrite upd_eq. discriminate.
    + destruct D as [D|[(y & D1 & D2)|D]]; auto.
      * right. left. exists y. at_task y x; [congruence|auto].
      * destruct Hm as [[_ Hm]|Hm]; [congruence|]. right. left. exists x. rewrite upd_eq. split; [reflexivity|congruence].
  - rewrite <- (upd_ne e m None m') in C, D by exact Hne. split; auto.
    + intros y. at_task y x; [congruence|auto].
    + destruct D as [D|[(y & D1 & D2)|D]]; auto. right. left. exists y. at_task y x; [congruence|auto].
Qed.

(** ** The chain of mutexes *)

Lemma chain_ext nx nx' p l : (∀ o, o ∈ l → nx' o = nx o) → chain nx p l → chain nx' p l.
Proof.
  revert p. induction l as [|o l IH]; intros p He; simpl; [auto|]. intros [-> H]. split; [reflexivity|].
  rewrite He by set_solver. apply IH; [|exact H]. intros x Hx. apply He. set_solver.
Qed.
(** The waiters of a list of mutexes at their heads: the least of [a] and their priorities. *)
Definition head_min (s : kern) (a : Z) (l : list nat) : Z :=
  fold_left (λ a m, match blk_list (objs s m) with [] => a | x :: _ => Z.min a (prio (tasks s x)) end) l a.
Lemma head_min_le s l a : head_min s a l ≤ a.
Proof.
  revert a. induction l as [|m l IH]; intros a; simpl; [lia|]. unfold head_min in IH |- *. simpl. etransitivity; [apply IH|].
  destruct (blk_list _); lia.
Qed.
(** The loops compute [head_min]: the value left over from the last mutex is never below the result. *)
Lemma head_min_step s m pr a : a ≤ pr →
  let pr' := first_waiter_pri m pr s in
  let a' := if pr' <? a then pr' else a in a' ≤ pr' ∧ a' = head_min s a [m].
Proof.
  intros Ha. unfold head_min, first_waiter_pri; simpl. destruct (blk_list (objs s m)) as [|x l]; [|destruct (Z.ltb_spec (prio (tasks s x)) a); lia].
  destruct (Z.ltb_spec pr a); lia.
Qed.
Lemma mutex_pri_limit_loop_ok s fuel p l pr a :
  chain (λ o, mutex_next (objs s o)) p l → (length l ≤ fuel)%nat → a ≤ pr → mutex_pri_limit_loop fuel p pr a s = Some (head_min s a l).
Proof.
  revert fuel p pr a. induction l as [|m l IH]; intros fuel p pr a; simpl.
  - intros -> _ _. destruct fuel; reflexivity.
  - intros [-> Hc] Hf Ha. destruct fuel as [|fuel]; [lia|]. simpl. destruct (head_min_step s m pr a Ha) as [H1 H2].
    rewrite (IH fuel _ _ _ Hc) by (auto; lia). rewrite H2. reflexivity.
Qed.
Lemma mutex_pri_look_loop_ok s fuel t rel prev l pr a :
  chain (λ o, mutex_next (objs s o)) (slot t prev s) l → (∀ o, rel = Some o → o ∉ l) → (length l ≤ fuel)%nat → a ≤ pr →
  mutex_pri_look_loop fuel t rel prev pr a s = Some (head_min s a l, s).
Proof.
  revert fuel prev pr a. induction l as [|m l IH]; intros fuel prev pr a; simpl.
  - intros E _ _ _. destruct fuel; simpl; rewrite E; reflexivity.
  - intros [E Hc] Hr Hf Ha. destruct fuel as [|fuel]; [lia|]. simpl. rewrite E. destruct (decide (rel = Some m)) as [->|_].
    { destruct (Hr m eq_refl). set_solver. }
    destruct (head_min_step s m pr a Ha) as [H1 H2].
    rewrite (IH fuel (Some m)) by (auto; try lia; intros o Ho; specialize (Hr o Ho); set_solver). rewrite H2. reflexivity.
Qed.
(** The mutex [o] is taken out of the chain. *)
Definition pred_of (prev : option nat) (l : list nat) : option nat := match last l with Some m => Some m | None => prev end.
Lemma head_min_put s t prev v l a : head_min (slot_put t prev v s) a l = head_min s a l.
Proof.
  unfold head_min. revert a. induction l as [|m l IH]; intros a; simpl; [reflexivity|]. rewrite IH. f_equal.
  destruct prev as [m'|]; simpl; unfold upd; [destruct (Nat.eqb_spec m m') as [->|]; reflexivity|].
  destruct (blk_list _) as [|x l']; [reflexivity|]. destruct (Nat.eqb_spec x t) as [->|]; reflexivity.
Qed.
Lemma pred_of_cons prev m l : pred_of (Some m) l = pred_of prev (m :: l).
Proof. unfold pred_of. rewrite last_cons. destruct (last l); reflexivity. Qed.
Lemma mutex_pri_look_loop_rm s fuel t o prev l1 l2 pr a :
  chain (λ o, mutex_next (objs s o)) (slot t prev s) (l1 ++ o :: l2) → NoDup (l1 ++ o :: l2) → (∀ m, prev = Some m → m ∉ o :: l2) →
  (length (l1 ++ o :: l2) ≤ fuel)%nat → a ≤ pr →
  mutex_pri_look_loop fuel t (Some o) prev pr a s = Some (head_min s a (l1 ++ l2), slot_put t (pred_of prev l1) (mutex_next (objs s o)) s).
Proof.
  revert fuel prev pr a. induction l1 as [|m l1 IH]; intros fuel prev pr a; simpl.
  - intros [E Hc] HN Hp Hf Ha. apply NoDup_cons in HN as [Ho HN]. destruct fuel as [|fuel]; [lia|]. simpl. rewrite E.
    destruct (decide (Some o = Some o)); [|congruence]. rewrite <- (head_min_put s t prev (mutex_next (objs s o)) l2).
    replace (pred_of prev []) with prev by (unfold pred_of; simpl; destruct prev; reflexivity).
    apply mutex_pri_look_loop_ok; [|intros x [= <-]; exact Ho|lia|exact Ha].
    destruct prev as [m'|]; simpl; [|rewrite upd_eq; exact Hc]. rewrite upd_eq. simpl.
    eapply chain_ext; [|exact Hc]. intros x Hx. simpl. rewrite upd_ne; [reflexivity|]. specialize (Hp m' eq_refl). set_solver.
  - intros [E Hc] HN Hp Hf Ha. apply NoDup_cons in HN as [Hm HN]. destruct fuel as [|fuel]; [lia|]. simpl. rewrite E.
    destruct (decide (Some o = Some m)) as [[= ->]|_]; [set_solver|].
    destruct (head_min_step s m pr a Ha) as [H1 H2].
    rewrite (IH fuel (Some m)); [|exact Hc|exact HN|intros x [= <-]; set_solver|lia|exact H1].
    rewrite H2, <- (pred_of_cons prev). reflexivity.
Qed.
