(* ===== verification/KernelPri.v ===== *)
(** * KernelPri: changes of priority and of the owner of a mutex

    [task_pri_change] ends and leaves every task with the priority it is due, also when the
    tasks that wait for each other form a cycle; [mutex_release] and [mutex_task_pri_reset]
    give the owner of a mutex back the priority it is due. *)
From Stdlib Require Import ZArith Lia List Bool FunctionalExtensionality.
From stdpp Require Import base list numbers option sorting sets.
From S2P Require Import Prelude Kernel KernelQueue KernelInv.
Local Open Scope Z_scope.

(** ** One task gets a new priority *)

(** Only priorities, the ready queue and the order of the lists of waiting tasks differ. *)
Record keeps (s s' : kern) : Prop := mkKeeps {
  kp_frame : frame s s'; kp_ticks : g_tick_head s' = g_tick_head s;
  kp_task : ∀ x, t_prio 0 (tasks s' x) = t_prio 0 (tasks s x) }.
Lemma keeps_refl s : keeps s s.
Proof. split; auto using frame_refl. Qed.
Lemma keeps_trans s1 s2 s3 : keeps s1 s2 → keeps s2 s3 → keeps s1 s3.
Proof.
  intros K1 K2. split; [eapply frame_trans; [apply K1|apply K2]|rewrite (kp_ticks _ _ K2); apply K1|].
  intros x. rewrite (kp_task _ _ K2). apply K1.
Qed.
Lemma keeps_field {A} (F : ktask_t → A) s s' x : (∀ k p, F (t_prio p k) = F k) → keeps s s' → F (tasks s' x) = F (tasks s x).
Proof. intros HF K. rewrite <- (HF (tasks s' x) 0), (kp_task _ _ K). apply HF. Qed.
Lemma keeps_state s s' x : keeps s s' → task_state (tasks s' x) = task_state (tasks s x).
Proof. apply (keeps_field task_state). reflexivity. Qed.
Lemma keeps_live s s' x : keeps s s' → live (tasks s' x) = live (tasks s x).
Proof. apply (keeps_field live). reflexivity. Qed.
Lemma keeps_base s s' x : keeps s s' → base s' x = base s x.
Proof. apply (keeps_field b_prio). reflexivity. Qed.
Lemma keeps_wob s s' x : keeps s s' → wob s' x = wob s x.
Proof. apply (keeps_field wob1). reflexivity. Qed.
Lemma keeps_blk s s' x : keeps s s' → blk_obj (tasks s' x) = blk_obj (tasks s x).
Proof. apply (keeps_field blk_obj). reflexivity. Qed.
Lemma keeps_upd s s' t p : frame s s' → g_tick_head s' = g_tick_head s → tasks s' = upd (tasks s) t (t_prio p (tasks s t)) → keeps s s'.
Proof. intros F T E. split; auto. intros x. rewrite E. at_task x t; reflexivity. Qed.

Section one_task.
Context (own : nat → option nat) (H : nat → list nat) (s : kern) (HC : Core own H s).

Lemma core_chain t : live (tasks s t) = true → chain (λ o, mutex_next (objs s o)) (mutex_list (tasks s t)) (H t).
Proof. apply (ml_chain _ _ _ _ _ _ (c_ml _ _ _ HC)). Qed.
Lemma core_dead t : live (tasks s t) = false → ∀ o, own o ≠ Some t.
Proof. intros Hl o Ho. apply (ml_live _ _ _ _ _ _ (c_ml _ _ _ HC)) in Ho. simpl in Ho. congruence. Qed.
Lemma core_idle_rdy : rdy s g_idle_task ≠ None.
Proof. unfold rdy, rdy1. rewrite (id_state _ _ (c_idle _ _ _ HC)). discriminate. Qed.
Lemma core_not_idle t : task_state (tasks s t) ≠ K_RDY → t ≠ g_idle_task.
Proof. intros Hs ->. apply Hs, (id_state _ _ (c_idle _ _ _ HC)). Qed.

Lemma task_ok_pri n t k p : task_ok n t k → pri_ok p → task_ok n t (t_prio p k).
Proof. intros [A B U C D E F] Hp. split; auto. apply Hp. Qed.

Context (t : nat) (p : Z) (Ht : t ≠ g_idle_task) (Hp : pri_ok p).
(** The new block of the task, and the new state if only the lists at hand change. *)
Let k := t_prio p (tasks s t).
Lemma core_new_pri s' : frame s s' → g_tick_head s' = g_tick_head s → tasks s' = upd (tasks s) t k →
  RQ (upd (rdy s) t (rdy1 k)) (g_ready_queue s') → BL (wob s) (upd (pri s) t p) (objs s') → Core own H s' ∧ keeps s s'.
Proof.
  intros F T E HQ HB. split; [|exact (keeps_upd _ _ _ _ F T E)].
  apply (Core_task own H s t k); auto.
  - rewrite (upd_id (wob s)) by reflexivity. exact HB.
  - rewrite T. apply TL_same; try reflexivity. apply (c_tl _ _ _ HC).
  - apply task_ok_pri; [apply (c_ok _ _ _ HC)|exact Hp].
  - apply core_chain.
  - apply core_dead.
Qed.

Lemma new_pri_ready (head : bool) : task_state (tasks s t) = K_RDY →
  ∃ s', (s1 ← ready_list_rm t s; let s2 := on_task t (t_prio p) s1 in Some (if head then ready_list_add_head t s2 else ready_list_add_tail t s2)) = Some s'
    ∧ Core own H s' ∧ keeps s s' ∧ tasks s' = upd (tasks s) t k.
Proof.
  intros Hs. assert (Er : rdy s t = Some (prio (tasks s t))) by (unfold rdy, rdy1; rewrite Hs; reflexivity).
  destruct (RQ_rm _ s t (c_rq _ _ _ HC) Er Ht core_idle_rdy) as (q & -> & HQ). cbn [mbind option_bind].
  assert (Ek : rdy1 k = Some p) by (unfold rdy1, k; simpl; rewrite Hs; reflexivity).
  assert (Ew : wob s t = None) by (unfold wob, wob1, pending; rewrite Hs; reflexivity).
  eexists. split; [reflexivity|].
  assert (Hq : RQ (upd (rdy s) t (rdy1 k)) (if head then rq_add_head p t q else rq_add_tail p t q)).
  { rewrite Ek, <- (upd_upd _ _ None). destruct head; [apply rq_add_head_ok|apply rq_add_tail_ok]; auto using upd_eq. }
  assert (HB : BL (wob s) (upd (pri s) t p) (objs s)) by (apply BL_pri; [apply (c_bl _ _ _ HC)|exact Ew]).
  unfold ready_list_add_head, ready_list_add_tail in *. simpl. rewrite upd_eq. simpl.
  apply and_assoc. destruct head; (split; [apply core_new_pri; auto; split; reflexivity|reflexivity]).
Qed.
Lemma new_pri_idle : rdy s t = None → wob s t = None → Core own H (on_task t (t_prio p) s) ∧ keeps s (on_task t (t_prio p) s).
Proof.
  intros Er Ew. apply core_new_pri; try reflexivity; [apply frame_on_task| |].
  - apply RQ_same; [apply (c_rq _ _ _ HC)|]. rewrite Er. unfold rdy, rdy1, k in *. simpl. destruct (task_state _); congruence.
  - apply BL_pri; [apply (c_bl _ _ _ HC)|exact Ew].
Qed.
Lemma new_pri_pend o : wob s t = Some o →
  ∃ s', pend_list_reorder t (on_task t (t_prio p) s) = Some s' ∧ Core own H s' ∧ keeps s s' ∧ tasks s' = upd (tasks s) t k.
Proof.
  intros Ew. assert (Eb : blk_obj (tasks s t) = Some o) by (unfold wob, wob1 in Ew; destruct (pending _); congruence).
  unfold pend_list_reorder. simpl. rewrite upd_eq. simpl. rewrite Eb. simpl. rewrite (bl_pri _ _ _ (c_bl _ _ _ HC)).
  eexists. split; [reflexivity|].
  assert (E : tasks (pend_list_add o t (blk_list_rm t (on_task t (t_prio p) s))) = upd (tasks s) t k) by (unfold pend_list_add; simpl; autorewrite with kern; reflexivity).
  apply and_assoc. split; [|exact E].
  apply core_new_pri; auto; [frames| | |].
  - unfold pend_list_add. simpl. autorewrite with kern. reflexivity.
  - unfold pend_list_add. simpl. autorewrite with kern. apply RQ_same; [apply (c_rq _ _ _ HC)|].
    unfold rdy, rdy1, k. simpl. unfold wob, wob1, pending in Ew. destruct (task_state _); congruence.
  - pose proof (BL_reorder _ _ _ t o p (c_bl _ _ _ HC) Ew) as HB. unfold pend_list_add. simpl. unfold blk_list_rm. simpl. rewrite upd_eq. simpl. rewrite Eb. simpl.
    replace (λ x, upd (pri s) t p t <? upd (pri s) t p x) with (λ x, prio (upd (tasks s) t k t) <? prio (upd (tasks s) t k x)) in HB; [exact HB|].
    apply functional_extensionality. intros x. rewrite !upd_eq. unfold pri. at_task x t; reflexivity.
Qed.
End one_task.

(** ** The graph of waiting tasks *)

Section graph.
Context (b : nat → option nat) (pr bp : nat → Z) (e : nat → option Z) (lv : nat → bool) (t : nat) (p : Z).
Context (Ht : b t ≠ Some t) (Hd : dem b pr bp e t p) (HP : PI b pr bp e lv (λ x, x = t)).

(** [t] gets the priority it is due; only the task it waits for may then be off. *)
Lemma PI_set : PI b (upd pr t p) bp e lv (λ x, b t = Some x).
Proof.
  intros x Hl Hx. at_task x t.
  - apply (dem_ext _ _ _ _ _ _ _ _ _ _ Hd); try reflexivity. intros y Hy. apply upd_ne. congruence.
  - apply (dem_ext _ _ _ _ _ _ _ _ _ _ (HP x Hl ltac:(assumption))); try reflexivity. intros y Hy. apply upd_ne. congruence.
Qed.
Lemma PI_set_last : b t = None → PI b (upd pr t p) bp e lv nobody.
Proof. intros Hb x Hl _. apply PI_set; [exact Hl|]. rewrite Hb. discriminate. Qed.
(** The task waited for is less urgent and takes the priority over. *)
Lemma dem_raise m : b t = Some m → lv m = true → p < pr m → dem b (upd pr t p) bp e m p.
Proof.
  intros Hb Hl Hm. destruct (HP m Hl) as [A B C D]; [congruence|]. split.
  - lia.
  - intros x Hx. at_task x t; [lia|]. specialize (B x Hx). lia.
  - intros r Hr. specialize (C r Hr). lia.
  - right. left. exists t. rewrite upd_eq. auto.
Qed.
(** The task waited for owes its priority to another one. *)
Lemma PI_set_other m : b t = Some m → lv m = true → pr m ≤ p → pr m ≠ pr t → PI b (upd pr t p) bp e lv nobody.
Proof.
  intros Hb Hlm Hle Hne x Hl _. destruct (Nat.eq_dec x m) as [->|Hx]; [|apply PI_set; [exact Hl|congruence]].
  destruct (HP m Hl) as [A B C D]; [congruence|]. rewrite (upd_ne pr t p m) by congruence. split; auto.
  - intros x Hx. at_task x t; auto.
  - destruct D as [D|[(x & D1 & D2)|D]]; auto. right. left. exists x. at_task x t; [congruence|auto].
Qed.
End graph.

(** ** The loop *)

Definition boss (own : nat → option nat) (s : kern) : nat → option nat := boss_of (wob s) own.
Definition demand (own : nat → option nat) (e : nat → option Z) (s : kern) : nat → Z → Prop := dem (boss own s) (pri s) (base s) e.
Definition due (own : nat → option nat) (e : nat → option Z) (X : nat → Prop) (s : kern) : Prop :=
  PI (boss own s) (pri s) (base s) e (λ t, live (tasks s t)) X.
(** A task that waits for a mutex waits for another task, which has it in its chain. *)
Definition waits_ok (own : nat → option nat) (s : kern) : Prop :=
  ∀ x o, wob s x = Some o → obj_type (objs s o) = RHINO_MUTEX_OBJ_TYPE → ∃ m, own o = Some m ∧ m ≠ x.
Definition owns_ok (own : nat → option nat) (s : kern) : Prop :=
  ∀ o m, own o = Some m → obj_type (objs s o) = RHINO_MUTEX_OBJ_TYPE ∧ mutex_task (objs s o) = Some m.

Lemma keeps_boss own s s' : keeps s s' → boss own s' = boss own s.
Proof. intros K. apply functional_extensionality. intros x. unfold boss, boss_of. rewrite (keeps_wob _ _ _ K). reflexivity. Qed.
Lemma keeps_bases s s' : keeps s s' → base s' = base s.
Proof. intros K. apply functional_extensionality. intros x. apply (keeps_base _ _ _ K). Qed.
Lemma keeps_lives s s' : keeps s s' → (λ t, live (tasks s' t)) = (λ t, live (tasks s t)).
Proof. intros K. apply functional_extensionality. intros x. apply (keeps_live _ _ _ K). Qed.
Lemma keeps_waits own s s' : keeps s s' → waits_ok own s → waits_ok own s'.
Proof. intros K W x o. rewrite (keeps_wob _ _ _ K), (frame_type _ _ _ (kp_frame _ _ K)). apply W. Qed.
Lemma keeps_owns own s s' : keeps s s' → owns_ok own s → owns_ok own s'.
Proof. intros K W o m Ho. rewrite (frame_type _ _ _ (kp_frame _ _ K)), (frame_mtask _ _ _ (kp_frame _ _ K)). apply W, Ho. Qed.
Lemma pri_upd s s' t p : tasks s' = upd (tasks s) t (t_prio p (tasks s t)) → pri s' = upd (pri s) t p.
Proof. intros E. apply functional_extensionality. intros x. unfold pri. rewrite E. at_task x t; reflexivity. Qed.

(** The least of [a] and the priorities of the first waiters is that of all waiters. *)
Lemma head_min_spec own H s l a : Core own H s →
  (head_min s a l ≤ a) ∧ (∀ o x, o ∈ l → wob s x = Some o → head_min s a l ≤ pri s x) ∧
  (head_min s a l = a ∨ ∃ o x, o ∈ l ∧ wob s x = Some o ∧ head_min s a l = pri s x).
Proof.
  intros HC. revert a. induction l as [|m l IH]; intros a; [simpl; repeat split; auto; [lia|set_solver]|].
  change (head_min s a (m :: l)) with (head_min s (head_min s a [m]) l). destruct (IH (head_min s a [m])) as (A & B & C).
  assert (Hm : head_min s a [m] ≤ a ∧ (∀ x, wob s x = Some m → head_min s a [m] ≤ pri s x) ∧ (head_min s a [m] = a ∨ ∃ x, wob s x = Some m ∧ head_min s a [m] = pri s x)).
  { destruct (c_bl _ _ _ HC) as [M _ O _]. unfold head_min. simpl. specialize (O m). destruct (blk_list (objs s m)) as [|y r] eqn:El.
    - repeat split; auto; [lia|]. intros x Hx. apply M in Hx. rewrite El in Hx. set_solver.
    - assert (Hy : wob s y = Some m) by (apply M; rewrite El; set_solver). change (prio (tasks s y)) with (pri s y). split; [lia|]. split.
      + intros x Hx. apply M in Hx. rewrite El in Hx. pose proof (ordered_head _ _ _ _ O Hx). lia.
      + destruct (Z.min_spec a (pri s y)) as [[_ E]|[_ E]]; rewrite E; [auto|right; eauto]. }
  destruct Hm as (A' & B' & C'). split; [lia|]. split.
  - intros o x Ho Hx. apply elem_of_cons in Ho as [->|Ho]; [specialize (B' x Hx); lia|eapply B; eauto].
  - destruct C as [C|(o & x & C1 & C2 & C3)]; [|right; exists o, x; split; [set_solver|auto]].
    destruct C' as [C'|(x & C1 & C2)]; [left; congruence|right; exists m, x; split; [set_solver|split; congruence]].
Qed.
Lemma chain_length own H s t : Core own H s → (length (H t) ≤ n_objs s)%nat.
Proof.
  intros HC. destruct (c_ml _ _ _ HC) as [_ M N _ L]. rewrite <- (length_seq (n_objs s) 0). apply NoDup_incl_length; [apply NoDup_ListNoDup, N|].
  intros o Ho. apply list_elem_of_In in Ho. apply M, L in Ho. apply in_seq. lia.
Qed.
Lemma head_min_demand own H s t : Core own H s → demand own no_extra s t (head_min s (base s t) (H t)).
Proof.
  intros HC. destruct (head_min_spec own H s (H t) (base s t) HC) as (A & B & C). pose proof (ml_mem _ _ _ _ _ _ (c_ml _ _ _ HC)) as M.
  split; auto; try discriminate.
  - intros x Hx. unfold boss, boss_of in Hx. destruct (wob s x) as [o|] eqn:E; [|discriminate]. apply M in Hx. eapply B; eauto.
  - destruct C as [C|(o & x & C1 & C2 & C3)]; [auto|]. right. left. exists x. split; [|exact C3]. unfold boss, boss_of. rewrite C2. apply M, C1.
Qed.
Lemma wob_live s x o : wob s x = Some o → live (tasks s x) = true.
Proof. unfold wob, wob1, pending, live. destruct (task_state _); congruence. Qed.
Lemma demand_ok own H e s t p : Core own H s → live (tasks s t) = true → demand own e s t p → (∀ r, e t = Some r → pri_ok r) → pri_ok p.
Proof.
  intros HC Hl [A B C D] He. pose proof (k_base _ _ _ (c_ok _ _ _ HC t) Hl) as Hb. destruct D as [->|[(x & D1 & ->)|D]]; [exact Hb| |exact (He _ D)].
  apply (k_prio _ _ _ (c_ok _ _ _ HC x)). unfold boss, boss_of in D1. destruct (wob s x) eqn:E; [|discriminate]. eapply wob_live, E.
Qed.
Lemma mutex_pri_look_ok own H s t : Core own H s → live (tasks s t) = true →
  ∃ p, mutex_pri_look t None s = Some (p, s) ∧ demand own no_extra s t p.
Proof.
  intros HC Hl. exists (head_min s (base s t) (H t)). split; [|apply head_min_demand, HC].
  apply mutex_pri_look_loop_ok; [apply (core_chain _ _ _ HC), Hl|discriminate|eapply chain_length, HC|reflexivity].
Qed.

(** What the loop finds at [t], for which [p] is due, and what it leaves behind. *)
Record at_loop (own : nat → option nat) (H : nat → list nat) (e : nat → option Z) (t : nat) (p : Z) (s : kern) : Prop := mkAtLoop {
  al_core : Core own H s; al_waits : pending (tasks s t) = true → waits_ok own s; al_owns : owns_ok own s; al_live : live (tasks s t) = true; al_idle : t ≠ g_idle_task; al_pri : pri_ok p;
  al_dem : demand own e s t p; al_due : due own e (λ x, x = t) s }.

Lemma wob_pending s x o : wob s x = Some o → pending (tasks s x) = true.
Proof. unfold wob, wob1. destruct (pending _); congruence. Qed.
Lemma boss_irrefl own s t : (pending (tasks s t) = true → waits_ok own s) → owns_ok own s → boss own s t ≠ Some t.
Proof.
  intros W O Hb. unfold boss, boss_of in Hb. destruct (wob s t) as [o|] eqn:E; [|discriminate]. simpl in Hb.
  destruct (W (wob_pending _ _ _ E) t o E) as (m & Hm & Hne); [apply (O _ _ Hb)|congruence].
Qed.
Lemma boss_live own H s x m : Core own H s → boss own s x = Some m → live (tasks s m) = true ∧ m ≠ g_idle_task.
Proof.
  intros HC Hb. unfold boss, boss_of in Hb. destruct (wob s x) as [o|]; [|discriminate]. simpl in Hb.
  split; [apply (ml_live _ _ _ _ _ _ (c_ml _ _ _ HC) o), Hb|]. intros ->. apply (id_own _ _ (c_idle _ _ _ HC) o), Hb.
Qed.

(** The graph after [t] got its priority. *)
Lemma due_set own e t p s s1 X : keeps s s1 → tasks s1 = upd (tasks s) t (t_prio p (tasks s t)) →
  PI (boss own s) (upd (pri s) t p) (base s) e (λ x, live (tasks s x)) X → due own e X s1.
Proof. intros K E HX. unfold due. rewrite (keeps_boss _ _ _ K), (keeps_bases _ _ K), (keeps_lives _ _ K), (pri_upd _ _ _ _ E). exact HX. Qed.
(** The last pass: [t] does not wait. *)
Lemma tpc_last own H e t p s : at_loop own H e t p s → pri s t ≠ p → pending (tasks s t) = false →
  ∃ s1, keeps s s1 ∧ tasks s1 = upd (tasks s) t (t_prio p (tasks s t)) ∧ Core own H s1 ∧ (∀ f, task_pri_change_loop (S f) t p s = Some s1) ∧ due own e nobody s1.
Proof.
  intros [HC W O Hl Hi Hp Hd HP] Hne Epd. assert (Ep : (prio (tasks s t) =? p) = false) by (apply Z.eqb_neq, Hne).
  assert (Ew : wob s t = None) by (unfold wob, wob1; rewrite Epd; reflexivity).
  assert (Hb : boss own s t = None) by (unfold boss, boss_of; rewrite Ew; reflexivity).
  assert (Hlast := PI_set_last _ _ _ _ _ t p (boss_irrefl own s t W O) Hd HP Hb).
  destruct (decide (task_state (tasks s t) = K_RDY)) as [Es|Es].
  - destruct (new_pri_ready own H s HC t p Hi Hp (Nat.eqb t (g_active_task s)) Es) as (s1 & E1 & C1 & K1 & T1).
    exists s1. do 3 (split; [assumption|]). split; [|eapply due_set; eauto]. intros f. cbn [task_pri_change_loop]. rewrite Ep, Es. exact E1.
  - assert (Er : rdy s t = None) by (unfold rdy, rdy1; destruct (task_state (tasks s t)); congruence).
    destruct (new_pri_idle own H s HC t p Hi Hp Er Ew) as [C1 K1].
    exists (on_task t (t_prio p) s). split; [exact K1|]. split; [reflexivity|]. split; [exact C1|]. split; [|eapply due_set; eauto].
    intros f. cbn [task_pri_change_loop]. rewrite Ep. unfold live, pending in *. destruct (task_state (tasks s t)); congruence.
Qed.
(** The pass at a task that waits for [o], up to the question who is next. *)
Lemma tpc_waiting own H t p s o : Core own H s → t ≠ g_idle_task → pri_ok p → pri s t ≠ p → wob s t = Some o →
  ∃ s1, keeps s s1 ∧ tasks s1 = upd (tasks s) t (t_prio p (tasks s t)) ∧ Core own H s1 ∧
    ∀ f, task_pri_change_loop (S f) t p s =
     (if decide (obj_type (objs s o) = RHINO_MUTEX_OBJ_TYPE) then
        m ← mutex_task (objs s o);
        if p <? prio (tasks s1 m) then task_pri_change_loop f m p s1
        else if prio (tasks s1 m) =? prio (tasks s t) then
          '(np, s2) ← mutex_pri_look m None s1;
          if np =? prio (tasks s2 m) then Some s2 else task_pri_change_loop f m np s2
        else Some s1
      else Some s1).
Proof.
  intros HC Hi Hp Hne Ew. assert (Epd := wob_pending _ _ _ Ew). assert (Eb : blk_obj (tasks s t) = Some o) by (unfold wob, wob1 in Ew; rewrite Epd in Ew; exact Ew).
  destruct (new_pri_pend own H s HC t p Hi Hp o Ew) as (s1 & E1 & C1 & K1 & T1). exists s1. do 3 (split; [assumption|]).
  assert (Ep : (prio (tasks s t) =? p) = false) by (apply Z.eqb_neq, Hne). intros f. cbn [task_pri_change_loop]. rewrite Ep. unfold pending in Epd.
  rewrite <- (frame_type _ _ o (kp_frame _ _ K1)), <- (frame_mtask _ _ o (kp_frame _ _ K1)). assert (Pt : prio (tasks s1 t) = p) by (rewrite T1, upd_eq; reflexivity).
  destruct (task_state (tasks s t)); try discriminate; rewrite E1; cbn [mbind option_bind]; rewrite (keeps_blk _ _ _ K1), Eb; cbn [mbind option_bind]; rewrite Pt; reflexivity.
Qed.
(** One pass of the loop. *)
Lemma tpc_step own H e t p s : at_loop own H e t p s → pri s t ≠ p → p < pri s t ∨ e = no_extra →
  ∃ s1, keeps s s1 ∧ tasks s1 = upd (tasks s) t (t_prio p (tasks s t)) ∧ Core own H s1 ∧
    (((∀ f, task_pri_change_loop (S f) t p s = Some s1) ∧ due own e nobody s1) ∨
     ∃ m p', (∀ f, task_pri_change_loop (S f) t p s = task_pri_change_loop f m p' s1) ∧ at_loop own H e m p' s1 ∧ p' ≠ pri s1 m ∧ ((p' = p ∧ p < pri s1 m) ∨ pri s t < p)).
Proof.
  intros A Hne Hor. destruct (pending (tasks s t)) eqn:Epd.
  2: { destruct (tpc_last own H e t p s A Hne Epd) as (s1 & K1 & T1 & C1 & E1 & D1). exists s1. do 3 (split; [assumption|]). left. auto. }
  destruct A as [HC W O Hl Hi Hp Hd HP]. specialize (W Epd). destruct (blk_obj (tasks s t)) as [o|] eqn:Eb; [|destruct (k_pend _ _ _ (c_ok _ _ _ HC t) Epd Eb)].
  assert (Ew : wob s t = Some o) by (unfold wob, wob1; rewrite Epd; exact Eb). assert (Hirr := boss_irrefl own s t (λ _, W) O).
  destruct (tpc_waiting own H t p s o HC Hi Hp Hne Ew) as (s1 & K1 & T1 & C1 & Hloop). exists s1. do 3 (split; [assumption|]).
  destruct (decide (obj_type (objs s o) = RHINO_MUTEX_OBJ_TYPE)) as [Et|Et].
  2: { left. split; [exact Hloop|]. eapply due_set; eauto. apply PI_set_last; auto. unfold boss, boss_of. rewrite Ew. simpl.
    destruct (own o) as [m|] eqn:Eo; [|reflexivity]. destruct (Et (proj1 (O _ _ Eo))). }
  destruct (W t o Ew Et) as (m & Eo & Hm). rewrite (proj2 (O _ _ Eo)) in Hloop. cbn [mbind option_bind] in Hloop.
  assert (Hb : boss own s t = Some m) by (unfold boss, boss_of; rewrite Ew; exact Eo).
  destruct (boss_live own H s t m HC Hb) as [Hlm Him].
  assert (Pm : prio (tasks s1 m) = pri s m) by (rewrite T1, upd_ne by exact Hm; reflexivity). rewrite Pm in Hloop.
  assert (Hset := PI_set _ _ _ _ _ t p Hirr Hd HP). assert (Hlm1 : live (tasks s1 m) = true) by (rewrite (keeps_live _ _ _ K1); exact Hlm).
  assert (Next : ∀ p', demand own e s1 m p' → pri_ok p' → at_loop own H e m p' s1).
  { intros p' Hd' Hp'. split; eauto using keeps_waits, keeps_owns. eapply due_set; eauto. intros x Hx Hxm. apply Hset; [exact Hx|congruence]. }
  destruct (Z.ltb_spec p (pri s m)) as [Hlt|Hge].
  { right. exists m, p. split; [exact Hloop|]. split; [|unfold pri in *; split; [lia|]; left; split; [reflexivity|lia]].
    apply Next; [|exact Hp]. unfold demand. rewrite (keeps_boss _ _ _ K1), (keeps_bases _ _ K1), (pri_upd _ _ _ _ T1). eapply dem_raise; eauto. }
  destruct (Z.eqb_spec (pri s m) (prio (tasks s t))) as [He|He].
  2: { left. split; [exact Hloop|]. eapply due_set; eauto. eapply PI_set_other; eauto. }
  destruct Hor as [?| ->]; [unfold pri in *; lia|]. destruct (mutex_pri_look_ok own H s1 m C1 Hlm1) as (np & El & Hnp).
  rewrite El in Hloop. cbn [mbind option_bind] in Hloop. rewrite Pm in Hloop. destruct (Z.eqb_spec np (pri s m)) as [Enp|Enp].
  - left. split; [exact Hloop|]. intros x Hx _. destruct (Nat.eq_dec x m) as [->|Hxm].
    + change (pri s1 m) with (prio (tasks s1 m)). rewrite Pm, <- Enp. exact Hnp.
    + apply (due_set own no_extra t p s s1 _ K1 T1 Hset); [exact Hx|congruence].
  - right. exists m, np. split; [exact Hloop|]. split; [apply Next; [exact Hnp|eapply (demand_ok own H no_extra s1 m); eauto; discriminate]|].
    split; unfold pri in *; [congruence|lia].
Qed.

(** ** Termination *)

(** The sum of a measure over the task blocks. *)
Definition total (f : nat → nat) (n : nat) : nat := sum_list_with f (seq 0 n).
Lemma total_le f g n : (∀ x, (f x ≤ g x)%nat) → (total f n ≤ total g n)%nat.
Proof. intros Hle. unfold total. induction (seq 0 n) as [|x l IH]; simpl; [lia|]. specialize (Hle x). lia. Qed.
Lemma total_lt f g n t : (t < n)%nat → (∀ x, (f x ≤ g x)%nat) → (f t < g t)%nat → (total f n < total g n)%nat.
Proof.
  intros Ht Hle Hlt. assert (Hin : t ∈ seq 0 n) by (apply elem_of_seq; lia). unfold total. revert Hin.
  assert (Hs : ∀ l, (sum_list_with f l ≤ sum_list_with g l)%nat) by (induction l as [|x l IH]; simpl; [lia|specialize (Hle x); lia]).
  induction (seq 0 n) as [|x l IH]; simpl; [set_solver|]. intros Hin. apply elem_of_cons in Hin as [->|Hin].
  - specialize (Hs l). lia.
  - specialize (IH Hin). specialize (Hle x). lia.
Qed.
Lemma total_const c n : total (λ _, c) n = (c * n)%nat.
Proof. unfold total. rewrite <- (length_seq n 0) at 2. induction (seq 0 n) as [|x l IH]; simpl; lia. Qed.
(** Tasks less urgent than [p], and what all priorities can still be lowered. *)
Definition above (s : kern) (p : Z) : nat := total (λ x, if p <? pri s x then 1%nat else 0%nat) (n_tasks s).
Definition room (s : kern) : nat := total (λ x, Z.to_nat (RHINO_CONFIG_PRI_MAX - pri s x)) (n_tasks s).

Lemma above_le s p : (above s p ≤ n_tasks s)%nat.
Proof. transitivity (total (λ _, 1%nat) (n_tasks s)); [|rewrite total_const; lia]. apply total_le. intros x. destruct (p <? pri s x); lia. Qed.

(** The loop with an extra demand only raises tasks; each is raised once. *)
Lemma tpc_raise own H e p fuel t s : at_loop own H e t p s → p < pri s t → (above s p < fuel)%nat →
  ∃ s', task_pri_change_loop fuel t p s = Some s' ∧ Core own H s' ∧ keeps s s' ∧ due own e nobody s' ∧ ∀ x, pri s' x = pri s x ∨ (p < pri s x ∧ pri s' x = p).
Proof.
  revert t s. induction fuel as [|fuel IH]; intros t s A Hlt Hf; [lia|].
  destruct (tpc_step own H e t p s A) as (s1 & K1 & T1 & C1 & D); [lia|auto|].
  assert (P1 : ∀ x, pri s1 x = pri s x ∨ (p < pri s x ∧ pri s1 x = p)).
  { intros x. rewrite (pri_upd _ _ _ _ T1). at_task x t; auto. }
  destruct D as [[E HP]|(m & p' & E & A' & Hne & Hp')]; [exists s1; auto|].
  destruct Hp' as [[-> Hm]|Hp']; [|lia].
  destruct (IH m s1 A' Hm) as (s2 & E2 & C2 & K2 & HP2 & P2).
  - assert (Hall : (above s1 p < above s p)%nat); [|lia]. unfold above. rewrite (fr_tasks _ _ (kp_frame _ _ K1)). apply (total_lt _ _ _ t).
    + apply (k_lt _ _ _ (c_ok _ _ _ (al_core _ _ _ _ _ _ A) t)), A.
    + intros x. destruct (Z.ltb_spec p (pri s1 x)); destruct (Z.ltb_spec p (pri s x)); destruct (P1 x); lia.
    + rewrite (pri_upd _ _ _ _ T1), upd_eq. destruct (Z.ltb_spec p p); destruct (Z.ltb_spec p (pri s t)); lia.
  - exists s2. rewrite E. split; [exact E2|]. split; [exact C2|]. split; [eapply keeps_trans; eauto|]. split; [exact HP2|].
    intros x. destruct (P1 x); destruct (P2 x); lia.
Qed.

(** Without an extra demand a task may also be lowered; all priorities together leave room for
    [RHINO_CONFIG_PRI_MAX] such passes per task. *)
Lemma tpc_any own H fuel t p s : at_loop own H no_extra t p s → (room s + n_tasks s < fuel)%nat →
  ∃ s', task_pri_change_loop fuel t p s = Some s' ∧ Core own H s' ∧ keeps s s' ∧ due own no_extra nobody s'.
Proof.
  revert t p s. induction fuel as [|fuel IH]; intros t p s A Hf; [lia|].
  destruct (Z.lt_trichotomy p (pri s t)) as [Hlt|[He|Hgt]].
  - destruct (tpc_raise own H no_extra p (S fuel) t s A Hlt) as (s' & E & C & K & D & _); [pose proof (above_le s p); lia|eauto].
  - exists s. split; [simpl; unfold pri in He; rewrite (proj2 (Z.eqb_eq _ _)) by auto; reflexivity|].
    split; [apply A|]. split; [apply keeps_refl|]. intros x Hx _. destruct (Nat.eq_dec x t) as [->|Hn]; [rewrite <- He; apply A|apply (al_due _ _ _ _ _ _ A); auto].
  - destruct (tpc_step own H no_extra t p s A) as (s1 & K1 & T1 & C1 & D); [lia|auto|].
    destruct D as [[E HP]|(m & p' & E & A' & _ & _)]; [exists s1; auto|].
    destruct (IH m p' s1 A') as (s2 & E2 & C2 & K2 & D2); [|exists s2; rewrite E; eauto using keeps_trans].
    rewrite (fr_tasks _ _ (kp_frame _ _ K1)). assert (Hr : (room s1 < room s)%nat); [|lia].
    unfold room. rewrite (fr_tasks _ _ (kp_frame _ _ K1)), (pri_upd _ _ _ _ T1). apply (total_lt _ _ _ t).
    + apply (k_lt _ _ _ (c_ok _ _ _ (al_core _ _ _ _ _ _ A) t)), A.
    + intros x. at_task x t; lia.
    + rewrite upd_eq. destruct (al_pri _ _ _ _ _ _ A). lia.
Qed.
(** The fuel of [task_pri_change] is enough. *)
Lemma room_le own H s : Core own H s → (room s ≤ 62 * n_tasks s)%nat.
Proof. intros HC. rewrite <- total_const. apply total_le. intros x. pose proof (k_u8 _ _ _ (c_ok _ _ _ HC x)). unfold pri, RHINO_CONFIG_PRI_MAX. lia. Qed.
Lemma task_pri_change_ok own H t p s : at_loop own H no_extra t p s →
  ∃ s', task_pri_change t p s = Some s' ∧ Core own H s' ∧ keeps s s' ∧ due own no_extra nobody s'.
Proof.
  intros A. apply tpc_any; [exact A|]. pose proof (room_le _ _ _ (al_core _ _ _ _ _ _ A)). pose proof (k_lt _ _ _ (c_ok _ _ _ (al_core _ _ _ _ _ _ A) t) (al_live _ _ _ _ _ _ A)). lia.
Qed.
Lemma task_pri_change_raise own H e t p s : at_loop own H e t p s → p < pri s t →
  ∃ s', task_pri_change t p s = Some s' ∧ Core own H s' ∧ keeps s s' ∧ due own e nobody s' ∧ ∀ x, pri s' x = pri s x ∨ (p < pri s x ∧ pri s' x = p).
Proof.
  intros A Hlt. apply tpc_raise; auto. pose proof (above_le s p). pose proof (k_lt _ _ _ (c_ok _ _ _ (al_core _ _ _ _ _ _ A) t) (al_live _ _ _ _ _ _ A)). lia.
Qed.

(** ** Chains that change *)

(** Only the links of the chains and the owners of mutexes differ. *)
Record relinked (s s' : kern) : Prop := mkRelinked {
  rl_tasks : n_tasks s' = n_tasks s; rl_objs : n_objs s' = n_objs s; rl_rq : g_ready_queue s' = g_ready_queue s;
  rl_ticks : g_tick_head s' = g_tick_head s; rl_count : g_tick_count s' = g_tick_count s;
  rl_task : ∀ x, t_mutexes None (tasks s' x) = t_mutexes None (tasks s x);
  rl_list : ∀ o, blk_list (objs s' o) = blk_list (objs s o); rl_policy : ∀ o, blk_policy (objs s' o) = blk_policy (objs s o) }.
Lemma relinked_field {A} (F : ktask_t → A) s s' x : (∀ k v, F (t_mutexes v k) = F k) → relinked s s' → F (tasks s' x) = F (tasks s x).
Proof. intros HF R. rewrite <- (HF (tasks s' x) None), (rl_task _ _ R). apply HF. Qed.
Lemma relinked_fun {A} (F : ktask_t → A) s s' : (∀ k v, F (t_mutexes v k) = F k) → relinked s s' → (λ x, F (tasks s' x)) = (λ x, F (tasks s x)).
Proof. intros HF R. apply functional_extensionality. intros x. apply (relinked_field F); assumption. Qed.
Lemma task_ok_mutexes n t k v : task_ok n t (t_mutexes v k) ↔ task_ok n t k.
Proof. split; intros [A B C D E F]; split; auto. Qed.
Lemma Core_relink own H own' H' s s' : Core own H s → relinked s s' →
  ML own' H' (λ t, mutex_list (tasks s' t)) (λ o, mutex_next (objs s' o)) (λ t, live (tasks s t)) (n_objs s) → (∀ o, own' o ≠ Some g_idle_task) → Core own' H' s'.
Proof.
  intros [Q B T M K I] R M' Hi. split.
  - unfold rdy. rewrite (relinked_fun rdy1 _ _) with (2 := R) by reflexivity. rewrite (rl_rq _ _ R). exact Q.
  - apply (BL_ext _ _ _ _ _ _ B); try apply R.
    + intros t. apply (relinked_field wob1); [reflexivity|exact R].
    + intros t _. apply (relinked_field prio); [reflexivity|exact R].
  - unfold tck, rem. rewrite (rl_count _ _ R), (rl_ticks _ _ R). rewrite (relinked_fun on_tick _ _) with (2 := R) by reflexivity.
    rewrite (relinked_fun (rem1 (g_tick_count s)) _ _) with (2 := R) by reflexivity. exact T.
  - rewrite (relinked_fun live _ _) with (2 := R) by reflexivity. rewrite (rl_objs _ _ R). exact M'.
  - intros t. rewrite (rl_tasks _ _ R), <- (task_ok_mutexes _ _ _ None), (rl_task _ _ R), task_ok_mutexes. apply K.
  - destruct I as [I1 I2 I3 I4]. split; [rewrite <- I1; apply (relinked_field task_state)|rewrite <- I2; apply (relinked_field prio)|rewrite <- I3; apply (relinked_field b_prio)|]; auto.
Qed.
Lemma relinked_due own e X s s' : relinked s s' → due own e X s → due own e X s'.
Proof.
  intros R. unfold due, boss, wob, pri, base. rewrite (relinked_fun wob1 _ _) with (2 := R) by reflexivity.
  rewrite (relinked_fun prio _ _) with (2 := R) by reflexivity. rewrite (relinked_fun b_prio _ _) with (2 := R) by reflexivity.
  rewrite (relinked_fun live _ _) with (2 := R) by reflexivity. auto.
Qed.

Lemma relinked_demand own e s s' t p : relinked s s' → demand own e s t p → demand own e s' t p.
Proof.
  intros R. unfold demand, boss, wob, pri, base. rewrite (relinked_fun wob1 _ _) with (2 := R) by reflexivity.
  rewrite (relinked_fun prio _ _) with (2 := R) by reflexivity. rewrite (relinked_fun b_prio _ _) with (2 := R) by reflexivity. auto.
Qed.
Lemma chain_unlink nx p l1 m o l2 : chain nx p (l1 ++ m :: o :: l2) → NoDup (l1 ++ m :: o :: l2) → chain (upd nx m (nx o)) p (l1 ++ m :: l2).
Proof.
  revert p. induction l1 as [|x l1 IH]; intros p; simpl.
  - intros (-> & Hm & Hc) HN. split; [reflexivity|]. rewrite upd_eq. eapply chain_ext; [|exact Hc].
    intros y Hy. apply upd_ne. apply NoDup_cons in HN as [HN _]. set_solver.
  - intros [-> Hc] HN. apply NoDup_cons in HN as [Hx HN]. split; [reflexivity|]. rewrite upd_ne by set_solver. apply IH; assumption.
Qed.
Lemma slot_put_relinked t prev v s : relinked s (slot_put t prev v s).
Proof.
  destruct prev as [m|]; split; try reflexivity.
  - intros o. simpl. destruct (Nat.eq_dec o m) as [->|Hn]; [rewrite upd_eq|rewrite upd_ne by exact Hn]; reflexivity.
  - intros o. simpl. destruct (Nat.eq_dec o m) as [->|Hn]; [rewrite upd_eq|rewrite upd_ne by exact Hn]; reflexivity.
  - intros x. simpl. at_task x t; reflexivity.
Qed.

Section unlink.
Context (own : nat → option nat) (H : nat → list nat) (s : kern) (HC : Core own H s).
Context (t o : nat) (l1 l2 : list nat) (Hl : live (tasks s t) = true) (Ho : own o = Some t) (HH : H t = l1 ++ o :: l2).
Let s1 := slot_put t (pred_of None l1) (mutex_next (objs s o)) s.

Lemma unlink_core : Core (upd own o None) (upd H t (l1 ++ l2)) s1.
Proof.
  destruct (c_ml _ _ _ HC) as [Mc Mm Mn Ml Mb].
  assert (Hc := Mc t Hl). assert (HN := Mn t). simpl in Hc. rewrite HH in Hc, HN.
  apply (Core_relink own H _ _ _ _ HC (slot_put_relinked _ _ _ _)).
  2: { intros x. destruct (Nat.eq_dec x o) as [->|Hn]; [rewrite upd_eq; discriminate|rewrite upd_ne by exact Hn; apply (id_own _ _ (c_idle _ _ _ HC))]. }
  split.
  - intros x Hx. unfold s1, pred_of. destruct l1 as [|m l] using rev_ind.
    + simpl in *. destruct Hc as [_ Hc]. at_task x t; [exact Hc|apply Mc, Hx].
    + clear IHl. rewrite last_snoc. simpl. rewrite <- app_assoc in HN, Hc. simpl in HN, Hc.
      assert (Em : (λ o0 : nat, mutex_next (upd (objs s) m (o_next (mutex_next (objs s o)) (objs s m)) o0)) = upd (λ o, mutex_next (objs s o)) m (mutex_next (objs s o))).
      { apply functional_extensionality. intros y. rewrite (upd_app mutex_next). reflexivity. }
      rewrite Em. at_task x t.
      * rewrite <- app_assoc. simpl. apply (chain_unlink (λ o, mutex_next (objs s o))); assumption.
      * eapply chain_ext; [|apply Mc, Hx]. intros y Hy. apply upd_ne. intros ->. apply Mm in Hy.
        assert (m ∈ H t) as Hm by (rewrite HH; set_solver). apply Mm in Hm. congruence.
  - intros y x. destruct (Nat.eq_dec y o) as [->|Hn].
    + rewrite upd_eq. split; [|discriminate]. at_task x t.
      * intros Hi. exfalso. apply NoDup_app in HN as (_ & HN & HN2). apply NoDup_cons in HN2 as [HN2 _]. set_solver.
      * rewrite Mm. congruence.
    + rewrite (upd_ne own) by exact Hn. rewrite <- Mm. at_task x t; [|reflexivity]. rewrite HH. set_solver.
  - intros x. at_task x t; [|apply Mn]. apply NoDup_app in HN as (N1 & N2 & N3). apply NoDup_cons in N3 as [_ N3]. apply NoDup_app. set_solver.
  - intros y x. destruct (Nat.eq_dec y o) as [->|Hn]; [rewrite upd_eq; discriminate|rewrite upd_ne by exact Hn; apply Ml].
  - intros y x. destruct (Nat.eq_dec y o) as [->|Hn]; [rewrite upd_eq; discriminate|rewrite upd_ne by exact Hn; apply Mb].
Qed.
End unlink.

(** ** Release of a mutex *)

(** What a release keeps: everything but priorities, the order of the lists and the links. *)
Record alike (s s' : kern) : Prop := mkAlike {
  ak_tasks : n_tasks s' = n_tasks s; ak_objs : n_objs s' = n_objs s; ak_count : g_tick_count s' = g_tick_count s; ak_active : g_active_task s' = g_active_task s;
  ak_lock : g_sched_lock s' = g_sched_lock s; ak_level : g_intrpt_nested_level s' = g_intrpt_nested_level s; ak_running : running s' = running s;
  ak_ticks : g_tick_head s' = g_tick_head s;
  ak_obj : ∀ o, o_next None (o_waiters [] (objs s' o)) = o_next None (o_waiters [] (objs s o));
  ak_task : ∀ x, t_mutexes None (t_prio 0 (tasks s' x)) = t_mutexes None (t_prio 0 (tasks s x)) }.
Lemma keeps_alike s s' : keeps s s' → alike s s'.
Proof. intros [F T K]. split; try apply F; auto; intros; [rewrite (fr_obj _ _ F)|rewrite K]; reflexivity. Qed.
Lemma alike_trans s1 s2 s3 : alike s1 s2 → alike s2 s3 → alike s1 s3.
Proof. intros F1 F2. split; intros; (etransitivity; [apply F2|apply F1]). Qed.
Lemma alike_slot_put t prev v s : alike s (slot_put t prev v s).
Proof.
  destruct prev as [m|]; split; try reflexivity; [intros o|intros x]; simpl; unfold upd.
  - destruct (Nat.eqb_spec o m) as [->|]; reflexivity.
  - destruct (Nat.eqb_spec x t) as [->|]; reflexivity.
Qed.
Lemma alike_task {A} (F : ktask_t → A) s s' x : (∀ k v p, F (t_mutexes v (t_prio p k)) = F k) → alike s s' → F (tasks s' x) = F (tasks s x).
Proof. intros HF K. rewrite <- (HF (tasks s' x) None 0), (ak_task _ _ K). apply HF. Qed.
Lemma alike_field {A} (F : kobj → A) s s' o : (∀ b l v, F (o_next v (o_waiters l b)) = F b) → alike s s' → F (objs s' o) = F (objs s o).
Proof. intros HF K. rewrite <- (HF (objs s' o) [] None), (ak_obj _ _ K). apply HF. Qed.
Lemma alike_wob s s' x : alike s s' → wob s' x = wob s x.
Proof. apply (alike_task wob1). reflexivity. Qed.
Lemma alike_type s s' o : alike s s' → obj_type (objs s' o) = obj_type (objs s o).
Proof. apply (alike_field obj_type). reflexivity. Qed.
Lemma alike_mtask s s' o : alike s s' → mutex_task (objs s' o) = mutex_task (objs s o).
Proof. apply (alike_field mutex_task). reflexivity. Qed.
Lemma alike_waits own s s' : alike s s' → waits_ok own s → waits_ok own s'.
Proof. intros K W x o. rewrite (alike_wob _ _ _ K), (alike_type _ _ _ K). apply W. Qed.
Lemma alike_owns own s s' : alike s s' → owns_ok own s → owns_ok own s'.
Proof. intros K W o m Ho. rewrite (alike_type _ _ _ K), (alike_mtask _ _ _ K). apply W, Ho. Qed.

(** The part after [mutex_pri_look]. *)
Lemma release_change own H s t p : Core own H s → live (tasks s t) = true → t ≠ g_idle_task → (pending (tasks s t) = true → waits_ok own s) → owns_ok own s →
  demand own no_extra s t p → due own no_extra (λ x, x = t) s →
  ∃ s', (if p =? prio (tasks s t) then Some s else task_pri_change t p s) = Some s' ∧ Core own H s' ∧ keeps s s' ∧ due own no_extra nobody s' ∧
    (demand own no_extra s t (pri s t) → s' = s).
Proof.
  intros HC Hl Hi W O Hd HP. destruct (Z.eqb_spec p (prio (tasks s t))) as [E|E].
  - exists s. split; [reflexivity|]. split; [exact HC|]. split; [apply keeps_refl|]. split; [|reflexivity]. intros x Hx _.
    destruct (Nat.eq_dec x t) as [->|Hn]; [change (pri s t) with (prio (tasks s t)); rewrite <- E; exact Hd|apply HP; auto].
  - destruct (task_pri_change_ok own H t p s) as (s' & E' & C' & K' & D').
    + split; auto. eapply demand_ok; eauto. discriminate.
    + exists s'. do 4 (split; [assumption|]). intros Hd'. destruct E. exact (dem_unique _ _ _ _ _ _ _ Hd Hd').
Qed.
Lemma release_none own H s t : Core own H s → live (tasks s t) = true → t ≠ g_idle_task → (pending (tasks s t) = true → waits_ok own s) → owns_ok own s →
  due own no_extra (λ x, x = t) s →
  ∃ s', mutex_release t None s = Some s' ∧ Core own H s' ∧ keeps s s' ∧ due own no_extra nobody s'.
Proof.
  intros HC Hl Hi W O HP. destruct (mutex_pri_look_ok own H s t HC Hl) as (p & E & Hd). unfold mutex_release. rewrite E. cbn [mbind option_bind].
  destruct (release_change own H s t p) as (s' & E' & C' & K' & D' & _); eauto.
Qed.
(** The graph without the mutex [o]: nobody waits for its owner because of [o] any more. *)
Lemma due_drop own e t o s : own o = Some t → due own e (λ x, x = t) s → due (upd own o None) e (λ x, x = t) s.
Proof.
  intros Ho HP m Hm Hn. apply (dem_ext _ _ _ _ _ _ _ _ _ _ (HP m Hm Hn)); try reflexivity.
  intros x. unfold boss, boss_of. destruct (wob s x) as [y|]; simpl; [|reflexivity]. destruct (Nat.eq_dec y o) as [->|Hy]; [rewrite upd_eq, Ho; split; congruence|].
  rewrite upd_ne by exact Hy. reflexivity.
Qed.
Lemma release_some own H s t o : Core own H s → own o = Some t → (pending (tasks s t) = true → waits_ok (upd own o None) s) → owns_ok (upd own o None) s →
  due own no_extra (λ x, x = t) s →
  ∃ s' H', mutex_release t (Some o) s = Some s' ∧ Core (upd own o None) H' s' ∧ alike s s' ∧ due (upd own o None) no_extra nobody s' ∧
    (demand (upd own o None) no_extra s t (pri s t) → g_ready_queue s' = g_ready_queue s).
Proof.
  intros HC Ho W O HP. assert (Hl : live (tasks s t) = true) by (apply (ml_live _ _ _ _ _ _ (c_ml _ _ _ HC) o), Ho).
  assert (Hi : t ≠ g_idle_task) by (intros ->; apply (id_own _ _ (c_idle _ _ _ HC) o), Ho).
  assert (Hin := proj2 (ml_mem _ _ _ _ _ _ (c_ml _ _ _ HC) o t) Ho). apply list_elem_of_split in Hin as (l1 & l2 & HH).
  assert (HC1 := unlink_core own H s HC t o l1 l2 Hl Ho HH). assert (Hlen := chain_length own H s t HC).
  set (s1 := slot_put t (pred_of None l1) (mutex_next (objs s o)) s) in *.
  assert (R : relinked s s1) by apply slot_put_relinked. assert (K : alike s s1) by apply alike_slot_put.
  assert (El : mutex_pri_look t (Some o) s = Some (head_min s (base s t) (l1 ++ l2), s1)).
  { apply (mutex_pri_look_loop_rm s (n_objs s) t o None l1 l2); try rewrite <- HH; auto; [apply (core_chain _ _ _ HC), Hl|apply (ml_nodup _ _ _ _ _ _ (c_ml _ _ _ HC))|discriminate|reflexivity]. }
  unfold mutex_release. rewrite El. cbn [mbind option_bind].
  destruct (release_change _ _ s1 t (head_min s (base s t) (l1 ++ l2)) HC1) as (s' & E & C' & K' & D' & Q').
  - rewrite (relinked_field live _ _ _ (λ _ _, eq_refl) R). exact Hl.
  - exact Hi.
  - rewrite (relinked_field pending _ _ _ (λ _ _, eq_refl) R). intros Hpd. apply (alike_waits _ _ _ K), W, Hpd.
  - apply (alike_owns _ _ _ K), O.
  - pose proof (head_min_demand _ _ s1 t HC1) as Hd. rewrite upd_eq in Hd. unfold s1 in Hd at 2. rewrite head_min_put in Hd.
    unfold base in Hd. rewrite (relinked_field b_prio _ _ _ (λ _ _, eq_refl) R) in Hd. exact Hd.
  - apply (relinked_due _ _ _ _ _ R), due_drop; assumption.
  - exists s', (upd H t (l1 ++ l2)). split; [exact E|]. split; [exact C'|]. split; [eapply alike_trans; [exact K|apply keeps_alike, K']|]. split; [exact D'|].
    intros Hd. rewrite Q'; [apply R|]. apply (relinked_demand _ _ _ _ _ _ R). unfold pri. rewrite (relinked_field prio _ _ _ (λ _ _, eq_refl) R). exact Hd.
Qed.

(** A waiter of [o] is gone, and its owner may be too urgent now. *)
Lemma pri_reset own H s x o : Core own H s → blk_obj (tasks s x) = Some o → waits_ok own s → owns_ok own s →
  (obj_type (objs s o) = RHINO_MUTEX_OBJ_TYPE → own o ≠ None) → due own no_extra (λ m, own o = Some m ∧ pri s m = pri s x) s →
  ∃ s', mutex_task_pri_reset x s = Some s' ∧ Core own H s' ∧ keeps s s' ∧ due own no_extra nobody s'.
Proof.
  intros HC Eb W O Hown HP. unfold mutex_task_pri_reset. rewrite Eb. cbn [mbind option_bind].
  destruct (own o) as [m|] eqn:Eo.
  - destruct (O _ _ Eo) as [Et Em]. destruct (decide _); [|congruence]. rewrite Em. cbn [mbind option_bind].
    destruct (Z.eqb_spec (prio (tasks s m)) (prio (tasks s x))) as [Ep|Ep].
    + apply (release_none own H); auto.
      * apply (ml_live _ _ _ _ _ _ (c_ml _ _ _ HC) o), Eo.
      * intros ->. apply (id_own _ _ (c_idle _ _ _ HC) o), Eo.
      * intros y Hy Hn. apply HP; [exact Hy|]. intros [[= ->] _]. auto.
    + exists s. split; [reflexivity|]. split; [exact HC|]. split; [apply keeps_refl|]. intros y Hy _. apply HP; [exact Hy|].
      intros [[= <-] Hp]. unfold pri in Hp. congruence.
  - destruct (decide _) as [Et|_]; [destruct (Hown Et eq_refl)|].
    exists s. split; [reflexivity|]. split; [exact HC|]. split; [apply keeps_refl|]. intros y Hy _. apply HP; [exact Hy|]. intros [? _]. discriminate.
Qed.

(** ** A task gets a mutex *)

Lemma own_relinked o x s : relinked s (mutex_own o x s).
Proof.
  split; try reflexivity; [intros y; simpl; at_task y x; reflexivity| |];
    (intros y; simpl; destruct (Nat.eq_dec y o) as [->|Hy]; [rewrite upd_eq|rewrite upd_ne by exact Hy]; reflexivity).
Qed.
Lemma own_core own H s o x : Core own H s → own o = None → live (tasks s x) = true → x ≠ g_idle_task → (o < n_objs s)%nat →
  Core (upd own o (Some x)) (upd H x (o :: H x)) (mutex_own o x s).
Proof.
  intros HC Ho Hl Hi Hlt. destruct (c_ml _ _ _ HC) as [Mc Mm Mn Ml Mb].
  assert (Hno : ∀ t, o ∉ H t) by (intros t Ht; apply Mm in Ht; congruence).
  assert (Enx : ∀ y, mutex_next (objs (mutex_own o x s) y) = upd (λ o, mutex_next (objs s o)) o (mutex_list (tasks s x)) y).
  { intros y. unfold mutex_own. simpl. destruct (Nat.eq_dec y o) as [->|Hy]; [rewrite !upd_eq|rewrite !upd_ne by exact Hy]; reflexivity. }
  apply (Core_relink own H _ _ _ _ HC (own_relinked o x s)).
  - split.
    + intros t Ht. apply (chain_ext (upd (λ o, mutex_next (objs s o)) o (mutex_list (tasks s x)))); [intros y _; apply Enx|].
      simpl. at_task t x.
      * split; [reflexivity|]. rewrite upd_eq. eapply chain_ext; [|apply Mc, Hl]. intros y Hy. apply upd_ne. intros ->. apply (Hno x Hy).
      * eapply chain_ext; [|apply Mc, Ht]. intros y Hy. apply upd_ne. intros ->. apply (Hno t Hy).
    + intros y t. destruct (Nat.eq_dec y o) as [->|Hy].
      * rewrite upd_eq. at_task t x; [set_solver|]. split; [intros Hin; destruct (Hno _ Hin)|congruence].
      * rewrite (upd_ne own) by exact Hy. rewrite <- Mm. at_task t x; [set_solver|reflexivity].
    + intros t. at_task t x; [constructor; auto|apply Mn].
    + intros y t. destruct (Nat.eq_dec y o) as [->|Hy]; [rewrite upd_eq; intros [= <-]; exact Hl|rewrite upd_ne by exact Hy; apply Ml].
    + intros y t. destruct (Nat.eq_dec y o) as [->|Hy]; [rewrite upd_eq; intros [= <-]; exact Hlt|rewrite upd_ne by exact Hy; apply Mb].
  - intros y. destruct (Nat.eq_dec y o) as [->|Hy]; [rewrite upd_eq; congruence|rewrite upd_ne by exact Hy; apply (id_own _ _ (c_idle _ _ _ HC))].
Qed.
(** The graph with the mutex [o] given to [x], which is no less urgent than its waiters. *)
Lemma due_give own e X s o x : own o = None → (∀ y, wob s y = Some o → pri s x ≤ pri s y) → due own e X s → due (upd own o (Some x)) e X s.
Proof.
  intros Ho Hx HP m Hm Hn. destruct (HP m Hm Hn) as [A B C D]. split; auto.
  - intros y. unfold boss, boss_of in *. destruct (wob s y) as [z|] eqn:Ey; simpl; [|discriminate]. destruct (Nat.eq_dec z o) as [->|Hz].
    + rewrite upd_eq. intros [= <-]. apply Hx, Ey.
    + rewrite upd_ne by exact Hz. intros Hb. apply B. rewrite Ey. exact Hb.
  - destruct D as [D|[(y & D1 & D2)|D]]; auto. right. left. exists y. split; [|exact D2]. unfold boss, boss_of in *.
    destruct (wob s y) as [z|]; [|discriminate]. simpl in *. rewrite upd_ne by congruence. exact D1.
Qed.
