(* ===== verification/KernelMoves.v ===== *)
(** * KernelMoves: a task moves from one place of the kernel to another

    What every change of the state of a task does to the invariant of KernelInv.v: a task
    stops waiting or sleeping, is suspended or resumed, begins to wait or to sleep, is
    created or deleted. *)
From Stdlib Require Import ZArith Lia List Bool FunctionalExtensionality.
From stdpp Require Import base list numbers option sorting sets.
From S2P Require Import Prelude Kernel KernelQueue KernelInv KernelPri.
Local Open Scope Z_scope.

(** ** The invariant without the CPU *)

(** [Y]: objects that are being deleted. *)
Definition objs_ok (Y : nat → Prop) (s : kern) : Prop :=
  ∀ o, (obj_type (objs s o) = RHINO_OBJ_TYPE_NONE → ¬ Y o → blk_list (objs s o) = []) ∧ (obj_type (objs s o) ≠ RHINO_OBJ_TYPE_NONE → (o < n_objs s)%nat).
Record KI (Y : nat → Prop) (H : nat → list nat) (s : kern) : Prop := mkKI {
  i_core : Core (owner s) H s; i_due : due (owner s) no_extra nobody s; i_waits : waits_ok (owner s) s; i_objs : objs_ok Y s }.

Lemma owns_owner s : owns_ok (owner s) s.
Proof. intros o m. unfold owner, owner1. destruct (obj_type (objs s o)); auto; discriminate. Qed.
Lemma owner_type s o : owner s o ≠ None → obj_type (objs s o) = RHINO_MUTEX_OBJ_TYPE.
Proof. unfold owner, owner1. destruct (obj_type (objs s o)); congruence. Qed.
Lemma frame_owners s s' : frame s s' → owner s' = owner s.
Proof. intros F. apply functional_extensionality. intros o. apply frame_owner, F. Qed.
Lemma keeps_owners s s' : keeps s s' → owner s' = owner s.
Proof. intros K. apply frame_owners, K. Qed.

Lemma klist_rm_nil t : klist_rm t [] = [].
Proof. reflexivity. Qed.
Lemma klist_rm_id t l : t ∉ l → klist_rm t l = l.
Proof.
  intros Ht. unfold klist_rm. induction l as [|x l IH]; [reflexivity|]. rewrite filter_cons_True by set_solver. f_equal. apply IH. set_solver.
Qed.

(** ** A task that neither waits nor sleeps afterwards *)

(** The new block [k] of a task: the same priorities and mutexes, no place in a list of waiters
    or in the tick list. *)
Record stops (k0 k : ktask_t) : Prop := mkStops {
  st_pend : pending k = false; st_sleep : sleeping k = false; st_tick : on_tick k = false;
  st_prio : prio k = prio k0; st_base : live k = true → b_prio k = b_prio k0; st_mutex : live k = true → mutex_list k = mutex_list k0; st_live : live k = true → live k0 = true }.

Section stop.
Context (own : nat → option nat) (H : nat → list nat) (s : kern) (HC : Core own H s).
Context (t : nat) (k : ktask_t) (s' : kern) (Ht : t ≠ g_idle_task) (HS : stops (tasks s t) k) (HF : frame s s') (HE : tasks s' = upd (tasks s) t k).

Lemma stops_wob : wob1 k = None.
Proof. unfold wob1. rewrite (st_pend _ _ HS). reflexivity. Qed.
Lemma stop_pri : pri s' = pri s.
Proof. apply functional_extensionality. intros x. unfold pri. rewrite HE. at_task x t; [apply HS|reflexivity]. Qed.
Lemma stop_base x : live (tasks s' x) = true → base s' x = base s x.
Proof. unfold base. rewrite HE. at_task x t; [apply HS|reflexivity]. Qed.
Lemma stop_wob : wob s' = upd (wob s) t None.
Proof. apply functional_extensionality. intros x. unfold wob. rewrite HE. at_task x t; [apply stops_wob|reflexivity]. Qed.
Lemma stop_live x : live (tasks s' x) = true → live (tasks s x) = true.
Proof. rewrite HE. at_task x t; [apply HS|auto]. Qed.

Lemma stop_core : RQ (upd (rdy s) t (rdy1 k)) (g_ready_queue s') → BL (upd (wob s) t None) (pri s) (objs s') → TL (upd (tck s) t false) (rem s) (g_tick_head s') →
  (live k = false → ∀ o, own o ≠ Some t) → Core own H s'.
Proof.
  intros HQ HB HT Hd. apply (Core_task own H s t k); auto.
  - rewrite stops_wob. rewrite (upd_id (pri s)) by (symmetry; apply HS). exact HB.
  - rewrite (st_tick _ _ HS). apply (TL_ext _ _ _ _ _ HT); [reflexivity|]. intros x Hx. at_task x t; [discriminate|reflexivity].
  - destruct (c_ok _ _ _ HC t) as [A B U C D E F]. destruct HS as [S1 S2 S3 S4 S5 S6 S7]. split; intros; try congruence; auto.
    + rewrite S4. auto.
    + rewrite S5 by assumption. auto.
  - intros Hl. rewrite (st_mutex _ _ HS Hl). apply (core_chain _ _ _ HC), HS, Hl.
Qed.
Lemma stop_due e X : due own e X s → due own e (λ m, X m ∨ (boss own s t = Some m ∧ pri s m = pri s t)) s'.
Proof.
  intros HP. unfold due, boss. rewrite stop_pri, stop_wob.
  replace (boss_of (upd (wob s) t None) own) with (upd (boss own s) t None).
  - intros m Hm Hn. eapply dem_ext; [apply (PI_leave _ _ _ _ _ _ t HP); [apply stop_live, Hm|exact Hn]|apply stop_base, Hm|reflexivity|reflexivity|reflexivity].
  - apply functional_extensionality. intros x. unfold boss, boss_of. at_task x t; reflexivity.
Qed.
Lemma stop_waits : waits_ok own s → waits_ok own s'.
Proof. intros W x o. rewrite stop_wob, (frame_type _ _ _ HF). at_task x t; [discriminate|apply W]. Qed.
End stop.

(** A task that waits for nothing leaves all other tasks as they are. *)
Lemma due_weaken own e (X Y : nat → Prop) s : (∀ m, X m → Y m) → due own e X s → due own e Y s.
Proof. intros HXY HP m Hm Hn. apply HP; auto. Qed.
Lemma not_waiting own s t : wob s t = None → boss own s t = None.
Proof. intros E. unfold boss, boss_of. rewrite E. reflexivity. Qed.

Lemma objs_ok_frame Y s s' : frame s s' → (∀ o, blk_list (objs s o) = [] → blk_list (objs s' o) = []) → objs_ok Y s → objs_ok Y s'.
Proof. intros F Hl HO o. rewrite (frame_type _ _ _ F), (fr_objs _ _ F). destruct (HO o) as [A B]. split; auto. Qed.
Lemma blk_rm_list t s o : blk_list (objs s o) = [] → blk_list (objs (blk_list_rm t s) o) = [].
Proof.
  intros E. unfold blk_list_rm. destruct (blk_obj _) as [o'|]; [|exact E]. simpl. unfold upd. destruct (Nat.eqb_spec o o') as [->|]; [|exact E].
  simpl. rewrite E. reflexivity.
Qed.

(** The invariant after a task that does not wait stopped sleeping or being ready. *)
Lemma KI_stop Y H s t k s' : KI Y H s → t ≠ g_idle_task → stops (tasks s t) k → frame s s' → tasks s' = upd (tasks s) t k → wob s t = None → objs s' = objs s →
  RQ (upd (rdy s) t (rdy1 k)) (g_ready_queue s') → TL (upd (tck s) t false) (rem s) (g_tick_head s') → (live k = false → ∀ o, owner s o ≠ Some t) → KI Y H s'.
Proof.
  intros [HC HP W HO] Ht HS F E Ew Eo HQ HT Hd. split; rewrite ?(frame_owners _ _ F).
  - apply (stop_core _ _ s HC t k); auto. rewrite Eo, upd_id by exact Ew. apply (c_bl _ _ _ HC).
  - eapply due_weaken; [|apply (stop_due (owner s) s t k s' HS E no_extra nobody HP)]. intros m [[]|[Hb _]]. rewrite not_waiting in Hb by exact Ew. discriminate.
  - apply (stop_waits _ s t k); assumption.
  - apply (objs_ok_frame _ _ _ F); [|exact HO]. rewrite Eo. auto.
Qed.
(** A task that is neither ready, waiting nor on the tick list. *)
Lemma tl_off own H s t : Core own H s → pending (tasks s t) = false → sleeping (tasks s t) = false → tck s t = false.
Proof. intros HC H1 H2. unfold tck. destruct (on_tick (tasks s t)) eqn:E; [|reflexivity]. pose proof (k_tick _ _ _ (c_ok _ _ _ HC t) E). rewrite H1, H2 in *. discriminate. Qed.
Lemma TL_off own H s t : Core own H s → tck s t = false → TL (upd (tck s) t false) (rem s) (g_tick_head s).
Proof. intros HC E. rewrite upd_id by exact E. apply (c_tl _ _ _ HC). Qed.
Lemma rdy_none s t : task_state (tasks s t) ≠ K_RDY → rdy s t = None.
Proof. unfold rdy, rdy1. destruct (task_state _); congruence. Qed.
Lemma wob_none s t : pending (tasks s t) = false → wob s t = None.
Proof. unfold wob, wob1. intros ->. reflexivity. Qed.

(** ** The state of a task changes, its place does not *)

Record relabels (k0 k : ktask_t) : Prop := mkRelabels {
  re_rdy : rdy1 k = rdy1 k0; re_pend : pending k = pending k0; re_sleep : sleeping k = sleeping k0; re_live : live k = live k0; re_blk : pending k0 = true → blk_obj k = blk_obj k0;
  re_prio : prio k = prio k0; re_base : b_prio k = b_prio k0; re_mutex : mutex_list k = mutex_list k0; re_tick : on_tick k = on_tick k0; re_match : tick_match k = tick_match k0 }.
Lemma KI_relabel Y H s t k s' : KI Y H s → relabels (tasks s t) k → s' = set_tasks (upd (tasks s) t k) s → KI Y H s'.
Proof.
  intros [HC HP W HO] R ->. assert (F : frame s (set_tasks (upd (tasks s) t k) s)) by (split; reflexivity).
  assert (Ew : wob1 k = wob s t).
  { unfold wob, wob1. rewrite (re_pend _ _ R). destruct (pending (tasks s t)) eqn:Ep; [apply R, Ep|reflexivity]. }
  assert (Ex : ∀ A (g : ktask_t → A), g k = g (tasks s t) → (λ x, g (tasks (set_tasks (upd (tasks s) t k) s) x)) = (λ x, g (tasks s x))).
  { intros A g Eg. apply functional_extensionality. intros x. simpl. at_task x t; [exact Eg|reflexivity]. }
  split; rewrite ?(frame_owners _ _ F).
  - apply (Core_task_gen (owner s) H s t k); auto.
    + intros ->. destruct (c_idle _ _ _ HC) as [I1 I2 I3 I4]. pose proof (re_rdy _ _ R) as Er. unfold rdy1 in Er. rewrite I1 in Er.
      split; [destruct (task_state k); congruence|rewrite (re_prio _ _ R); exact I2|rewrite (re_base _ _ R); exact I3|exact I4].
    + apply RQ_same; [apply (c_rq _ _ _ HC)|]. symmetry. apply R.
    + apply BL_same; [apply (c_bl _ _ _ HC)|auto|symmetry; apply R].
    + apply TL_same; [apply (c_tl _ _ _ HC)|symmetry; apply R|]. unfold rem, rem1. rewrite (re_match _ _ R). reflexivity.
    + destruct (c_ok _ _ _ HC t) as [A B U C D E G]. destruct R as [R1 R2 R3 R4 R5 R6 R7 R8 R9 R10]. split; rewrite ?R2, ?R3, ?R4, ?R6, ?R7, ?R9; auto. intros Hp. rewrite R5 by exact Hp. auto.
    + rewrite (re_live _ _ R), (re_mutex _ _ R). apply (core_chain _ _ _ HC).
    + rewrite (re_live _ _ R). apply (core_dead _ _ _ HC).
  - unfold due, boss, wob, pri, base in *. rewrite (Ex _ wob1), (Ex _ prio), (Ex _ b_prio), (Ex _ live); try apply R; [exact HP|]. exact Ew.
  - intros x o. unfold wob. rewrite (equal_f (Ex _ wob1 Ew) x). apply W.
  - exact HO.
Qed.

(** ** What the running task may rely on *)

(** Ready tasks stay ready, live ones live, and the CPU is left alone. *)
Record calm (s s' : kern) : Prop := mkCalm {
  cm_active : g_active_task s' = g_active_task s; cm_lock : g_sched_lock s' = g_sched_lock s; cm_level : g_intrpt_nested_level s' = g_intrpt_nested_level s;
  cm_running : running s' = running s; cm_n : n_tasks s' = n_tasks s; cm_no : n_objs s' = n_objs s; cm_count : g_tick_count s' = g_tick_count s;
  cm_tick : ∀ x, tck s' x = true → tck s x = true ∧ tick_match (tasks s' x) = tick_match (tasks s x);
  cm_rdy : ∀ x, task_state (tasks s x) = K_RDY → task_state (tasks s' x) = K_RDY;
  cm_live : ∀ x, live (tasks s x) = true → live (tasks s' x) = true }.
Lemma still_refl s : calm s s.
Proof. split; auto. Qed.
Lemma still_trans s1 s2 s3 : calm s1 s2 → calm s2 s3 → calm s1 s3.
Proof.
  intros C1 C2. split; try (etransitivity; [apply C2|apply C1]); intros x Hx; try (apply C2, C1, Hx).
  destruct (cm_tick _ _ C2 x Hx) as [A ->]. apply (cm_tick _ _ C1 x A).
Qed.
Lemma calm_upd s s' t k : frame s s' → tasks s' = upd (tasks s) t k → (task_state (tasks s t) = K_RDY → task_state k = K_RDY) → (live (tasks s t) = true → live k = true) →
  (on_tick k = true → tck s t = true ∧ tick_match k = tick_match (tasks s t)) → calm s s'.
Proof. intros F E H1 H2 H3. split; try apply F; intros x; unfold tck in *; rewrite E; at_task x t; auto. Qed.
Lemma calm_keeps s s' : keeps s s' → calm s s'.
Proof.
  intros K. split; try apply K; intros x; unfold tck; rewrite ?(keeps_state _ _ _ K), ?(keeps_live _ _ _ K); auto.
  rewrite (keeps_field on_tick _ _ _ (λ _ _, eq_refl) K), (keeps_field tick_match _ _ _ (λ _ _, eq_refl) K). auto.
Qed.
Lemma calm_alike s s' : alike s s' → calm s s'.
Proof.
  intros K. split; try apply K; intros x; unfold tck;
    rewrite ?(alike_task task_state _ _ _ (λ _ _ _, eq_refl) K), ?(alike_task live _ _ _ (λ _ _ _, eq_refl) K); auto.
  rewrite (alike_task on_tick _ _ _ (λ _ _ _, eq_refl) K), (alike_task tick_match _ _ _ (λ _ _ _, eq_refl) K). auto.
Qed.
#[export] Hint Resolve still_refl calm_keeps calm_alike : kern.

(** ** A task is taken out of a list of waiting tasks *)

(** The end of a wait, with the result [b]. *)
Definition wake_with (b : blk_state_t) (t : nat) (s : kern) : option kern :=
  s1 ← pend_wake t s; Some (on_task t (t_blk_obj None) (on_task t (t_blk b) (tick_list_rm t s1))).

Lemma pending_facts own H s t : Core own H s → pending (tasks s t) = true →
  t ≠ g_idle_task ∧ rdy s t = None ∧ pri_ok (pri s t) ∧ ∃ o, blk_obj (tasks s t) = Some o ∧ wob s t = Some o.
Proof.
  intros HC Hp. assert (Hs : task_state (tasks s t) ≠ K_RDY) by (unfold pending in Hp; destruct (task_state _); congruence).
  split; [apply (core_not_idle _ _ _ HC), Hs|]. split; [apply rdy_none, Hs|].
  split; [apply (k_prio _ _ _ (c_ok _ _ _ HC t)); unfold pending, live in *; destruct (task_state _); congruence|].
  destruct (blk_obj (tasks s t)) as [o|] eqn:E; [|destruct (k_pend _ _ _ (c_ok _ _ _ HC t) Hp E)].
  exists o. split; [reflexivity|]. unfold wob, wob1. rewrite Hp. exact E.
Qed.

(** The task is out of the list of waiting tasks; it leaves the tick list and gets its result. *)
Lemma wake_tail own H s t b st s1 : Core own H s → pending (tasks s t) = true → st = K_RDY ∨ st = K_SUSPENDED →
  tasks s1 = upd (tasks s) t (t_state st (tasks s t)) → frame s s1 → objs s1 = objs (blk_list_rm t s) → g_tick_head s1 = g_tick_head s →
  RQ (upd (rdy s) t (rdy1 (t_state st (tasks s t)))) (g_ready_queue s1) →
  ∃ s' k, Some (on_task t (t_blk_obj None) (on_task t (t_blk b) (tick_list_rm t s1))) = Some s' ∧ stops (tasks s t) k ∧ live k = true ∧ frame s s' ∧
    tasks s' = upd (tasks s) t k ∧ objs s' = objs (blk_list_rm t s) ∧ Core own H s'.
Proof.
  intros HC Hp Hst T1 F1 O1 K1 HQ. destruct (pending_facts _ _ _ _ HC Hp) as (Ht & Er & Hok & o & Eb & Ew).
  set (k := t_blk_obj None (t_blk b (t_on_tick false (t_state st (tasks s t))))).
  set (s' := on_task t (t_blk_obj None) (on_task t (t_blk b) (tick_list_rm t s1))).
  assert (Hl : live k = true) by (unfold live, k; simpl; destruct Hst as [->| ->]; reflexivity).
  assert (HS : stops (tasks s t) k).
  { split; try reflexivity; unfold pending, sleeping, live in *; simpl; [destruct Hst as [->| ->]; reflexivity|destruct Hst as [->| ->]; reflexivity|].
    destruct (task_state (tasks s t)); congruence. }
  assert (F : frame s s') by (eapply frame_trans; [exact F1|unfold s'; frames]).
  assert (E : tasks s' = upd (tasks s) t k) by (unfold s'; autorewrite with kern; rewrite T1; autorewrite with kern; reflexivity).
  exists s', k. do 5 (split; [assumption || reflexivity|]). split; [unfold s'; autorewrite with kern; exact O1|].
  apply (stop_core own H s HC t _ _ Ht HS F E); unfold s'; autorewrite with kern; [exact HQ| |apply TL_leave|rewrite Hl; discriminate].
  - rewrite O1. eapply BL_leave; eauto. apply (c_bl _ _ _ HC).
  - rewrite K1. apply (c_tl _ _ _ HC).
  - rewrite T1, upd_eq. reflexivity.
Qed.
Lemma wake_ok own H s t b : Core own H s → pending (tasks s t) = true →
  ∃ s' k, wake_with b t s = Some s' ∧ stops (tasks s t) k ∧ live k = true ∧ frame s s' ∧ tasks s' = upd (tasks s) t k ∧ objs s' = objs (blk_list_rm t s) ∧ Core own H s'.
Proof.
  intros HC Hp. destruct (pending_facts _ _ _ _ HC Hp) as (Ht & Er & Hok & o & Eb & Ew).
  unfold wake_with, pend_wake. destruct (task_state (tasks s t)) eqn:Es; unfold pending in Hp; rewrite Es in Hp; try discriminate; cbn [mbind option_bind].
  - apply (wake_tail own H s t b K_RDY); auto; try (autorewrite with kern; reflexivity); [unfold pending; rewrite Es; reflexivity|frames|].
    autorewrite with kern. apply RQ_add; autorewrite with kern; [apply (c_rq _ _ _ HC)|reflexivity|exact Hok|exact Er].
  - apply (wake_tail own H s t b K_SUSPENDED); auto; try (autorewrite with kern; reflexivity); [unfold pending; rewrite Es; reflexivity|frames|].
    autorewrite with kern. apply RQ_same; [apply (c_rq _ _ _ HC)|exact Er].
Qed.

(** The waiter [t] of an object without an owner is woken. *)
Lemma KI_wake Y H s t o b : KI Y H s → wob s t = Some o → owner s o = None →
  ∃ s', wake_with b t s = Some s' ∧ KI Y H s' ∧ frame s s' ∧ calm s s' ∧ (∀ o', blk_list (objs s' o') = klist_rm t (blk_list (objs s o'))) ∧
    ∀ x, x ≠ t → tasks s' x = tasks s x.
Proof.
  intros [HC HP W HO] Ew Eo. assert (Hp := wob_pending _ _ _ Ew).
  destruct (pending_facts _ _ _ _ HC Hp) as (Ht & Er & Hok & o' & Eb & Ew'). assert (o' = o) as -> by congruence.
  destruct (wake_ok _ _ _ t b HC Hp) as (s' & k & E & HS & Hl & F & T & O & HC').
  assert (HB : ∀ o', blk_list (objs s' o') = klist_rm t (blk_list (objs s o'))).
  { intros x. rewrite O. unfold blk_list_rm. rewrite Eb. simpl. unfold upd. destruct (Nat.eqb_spec x o) as [->|Hx]; [reflexivity|].
    symmetry. apply klist_rm_id. rewrite (bl_mem _ _ _ (c_bl _ _ _ HC)), Ew. congruence. }
  exists s'. split; [exact E|]. split.
  - split; rewrite ?(frame_owners _ _ F).
    + exact HC'.
    + eapply due_weaken; [|apply (stop_due _ _ _ _ _ HS T _ _ HP)]. intros m [[]|[Hb _]]. unfold boss, boss_of in Hb. rewrite Ew in Hb. simpl in Hb. congruence.
    + apply (stop_waits _ s t k); assumption.
    + apply (objs_ok_frame _ _ _ F); [|exact HO]. intros x Hx. rewrite HB, Hx. reflexivity.
  - split; [exact F|]. split; [|split; [exact HB|]].
    + apply (calm_upd _ _ t k F T); [|auto|rewrite (st_tick _ _ HS); discriminate]. intros Hs. unfold pending in Hp. rewrite Hs in Hp. discriminate.
    + intros x Hx. rewrite T. apply upd_ne, Hx.
Qed.
(** All waiters of such an object are woken. *)
Lemma KI_wake_all Y H b o fuel s : KI Y H s → owner s o = None → (length (blk_list (objs s o)) ≤ fuel)%nat →
  ∃ s', wake_all (wake_with b) fuel o s = Some s' ∧ KI Y H s' ∧ frame s s' ∧ calm s s' ∧ blk_list (objs s' o) = [] ∧ ∀ x, wob s x ≠ Some o → tasks s' x = tasks s x.
Proof.
  revert s. induction fuel as [|fuel IH]; intros s HK Eo Hf; simpl; destruct (blk_list (objs s o)) as [|t l] eqn:El.
  - exists s. auto 10 using frame_refl, still_refl.
  - simpl in Hf. lia.
  - exists s. auto 10 using frame_refl, still_refl.
  - assert (Ew : wob s t = Some o) by (apply (bl_mem _ _ _ (c_bl _ _ _ (i_core _ _ _ HK))); rewrite El; set_solver).
    destruct (KI_wake _ _ _ t o b HK Ew Eo) as (s1 & E1 & K1 & F1 & C1 & B1 & T1). rewrite E1. cbn [mbind option_bind].
    destruct (IH s1 K1) as (s2 & E2 & K2 & F2 & C2 & B2 & T2).
    + rewrite (frame_owner _ _ _ F1). exact Eo.
    + rewrite B1, El. assert (HN := bl_nodup _ _ _ (c_bl _ _ _ (i_core _ _ _ HK)) o). rewrite El in HN. apply NoDup_cons in HN as [HN _].
      unfold klist_rm. rewrite filter_cons_False by auto. fold (klist_rm t l). rewrite klist_rm_id by exact HN. simpl in Hf. lia.
    + exists s2. split; [exact E2|]. split; [exact K2|]. split; [eapply frame_trans; eauto|]. split; [eapply still_trans; eauto|]. split; [exact B2|].
      intros x Hx. rewrite T2; [apply T1; congruence|]. unfold wob. rewrite T1 by congruence. exact Hx.
Qed.

(** A waiter leaves its list for another reason than being woken: the owner of the mutex gets
    the priority it is due without the waiter. *)
Lemma KI_leave Y H s t o k s1 : KI Y H s → wob s t = Some o → stops (tasks s t) k → blk_obj k = Some o → frame s s1 → tasks s1 = upd (tasks s) t k →
  objs s1 = objs (blk_list_rm t s) → RQ (upd (rdy s) t (rdy1 k)) (g_ready_queue s1) → TL (upd (tck s) t false) (rem s) (g_tick_head s1) →
  (live k = false → ∀ o, owner s o ≠ Some t) →
  ∃ s2, mutex_task_pri_reset t s1 = Some s2 ∧ KI Y H s2 ∧ keeps s1 s2.
Proof.
  intros [HC HP W HO] Ew HS Ek F T O HQ HT Hd. assert (Hp := wob_pending _ _ _ Ew).
  destruct (pending_facts _ _ _ _ HC Hp) as (Ht & Er & Hok & o' & Eb & Ew'). assert (o' = o) as -> by congruence.
  assert (HC1 : Core (owner s) H s1).
  { apply (stop_core _ _ s HC t k); auto. rewrite O. eapply BL_leave; eauto. apply (c_bl _ _ _ HC). }
  assert (W1 : waits_ok (owner s) s1) by (apply (stop_waits _ s t k); assumption).
  assert (O1 : owns_ok (owner s) s1) by (rewrite <- (frame_owners _ _ F); apply owns_owner).
  destruct (pri_reset (owner s) H s1 t o HC1) as (s2 & E2 & C2 & K2 & D2); auto.
  - rewrite T, upd_eq. exact Ek.
  - rewrite (frame_type _ _ _ F). intros Hty. destruct (W t o Ew Hty) as (m & Hm & _). congruence.
  - eapply due_weaken; [|apply (stop_due _ _ _ _ _ HS T _ _ HP)]. intros m [[]|[Hb Hm]]. unfold boss, boss_of in Hb. rewrite Ew in Hb.
    rewrite (stop_pri s t k s1 HS T). auto.
  - exists s2. split; [exact E2|]. split; [|exact K2]. assert (F2 := frame_trans _ _ _ F (kp_frame _ _ K2)).
    split; rewrite ?(frame_owners _ _ F2); auto.
    + apply (keeps_waits _ _ _ K2), W1.
    + apply (objs_ok_frame _ _ _ F2); [|exact HO]. intros x Hx. assert (Hx1 : blk_list (objs s1 x) = []) by (rewrite O; apply blk_rm_list, Hx).
      destruct (blk_list (objs s2 x)) as [|y l] eqn:El; [reflexivity|]. exfalso.
      assert (Hy : wob s2 y = Some x) by (apply (bl_mem _ _ _ (c_bl _ _ _ C2)); rewrite El; set_solver).
      rewrite (keeps_wob _ _ _ K2) in Hy. apply (bl_mem _ _ _ (c_bl _ _ _ HC1)) in Hy. rewrite Hx1 in Hy. set_solver.
Qed.

(** ** A task begins to wait or to sleep *)

Definition tick_ok (n : Z) : Prop := 0 < n < 18446744073709551616.
Lemma rem_insert c n : tick_ok n → tick_wrap (tick_wrap (c + n) - c) = n.
Proof. unfold tick_ok, tick_wrap. intros Hn. rewrite Zminus_mod_idemp_l. replace (c + n - c) with n by lia. apply Z.mod_small. lia. Qed.
(** [s] may differ from the state [s0] of the invariant in the block of [t]. *)
Lemma tick_insert_ok own H s0 s t n : Core own H s0 → tck s0 t = false → tick_ok n →
  g_tick_head s = g_tick_head s0 → g_tick_count s = g_tick_count s0 → (∀ x, x ≠ t → tasks s x = tasks s0 x) →
  TL (upd (tck s0) t true) (upd (rem s0) t n) (g_tick_head (tick_list_insert t n s)) ∧
  tasks (tick_list_insert t n s) = upd (tasks s) t (t_on_tick true (t_tick (tick_wrap (g_tick_count s + n)) n (tasks s t))).
Proof.
  intros HC Ht Hn El Ec Ex. unfold tick_list_insert. rewrite (proj2 (Z.ltb_lt 0 n)) by apply Hn. simpl. rewrite !upd_eq, upd_upd. simpl. split; [|reflexivity].
  assert (T0 : TL (tck s0) (upd (rem s0) t n) (g_tick_head s0)).
  { apply (TL_ext _ _ _ _ _ (c_tl _ _ _ HC)); [reflexivity|]. intros x Hx. apply upd_ne. congruence. }
  pose proof (TL_add _ _ _ t T0 Ht) as T1. rewrite upd_eq in T1. rewrite El.
  match goal with |- TL _ _ (insert_before ?g _ _) => replace g with (λ x, n <? upd (rem s0) t n x); [exact T1|] end.
  apply functional_extensionality. intros x. at_task x t; simpl.
  - rewrite rem_insert by exact Hn. reflexivity.
  - rewrite Ex by assumption. rewrite Ec. reflexivity.
Qed.

(** The new block [k] of a ready task that waits for [w] or sleeps. *)
Record begins (c : Z) (k0 k : ktask_t) (w : option nat) : Prop := mkBegins {
  bg_wob : wob1 k = w; bg_rdy : rdy1 k = None; bg_prio : prio k = prio k0; bg_base : b_prio k = b_prio k0; bg_mutex : mutex_list k = mutex_list k0; bg_live : live k = true;
  bg_tick : on_tick k = true → 1 ≤ rem1 c k }.
Lemma begins_core own H s t k s' w : Core own H s → t ≠ g_idle_task → live (tasks s t) = true → begins (g_tick_count s) (tasks s t) k w → task_ok (n_tasks s) t k → frame s s' → tasks s' = upd (tasks s) t k →
  RQ (upd (rdy s) t None) (g_ready_queue s') → BL (upd (wob s) t w) (pri s) (objs s') →
  TL (upd (tck s) t (on_tick k)) (upd (rem s) t (rem1 (g_tick_count s) k)) (g_tick_head s') → Core own H s'.
Proof.
  intros HC Ht Hl HB Hk F E HQ HL HT. apply (Core_task own H s t k); auto.
  - rewrite (bg_rdy _ _ _ _ HB). exact HQ.
  - rewrite (bg_wob _ _ _ _ HB), (upd_id (pri s)) by (symmetry; apply HB). exact HL.
  - intros _. rewrite (bg_mutex _ _ _ _ HB). apply (core_chain _ _ _ HC), Hl.
  - rewrite (bg_live _ _ _ _ HB). discriminate.
Qed.

Section ready_task.
Context (own : nat → option nat) (H : nat → list nat) (s : kern) (HC : Core own H s) (a : nat) (Ha : a ≠ g_idle_task) (Hs : task_state (tasks s a) = K_RDY).

Lemma ready_facts : live (tasks s a) = true ∧ pending (tasks s a) = false ∧ sleeping (tasks s a) = false ∧ rdy s a = Some (pri s a) ∧ wob s a = None ∧ tck s a = false.
Proof.
  assert (E1 : pending (tasks s a) = false) by (unfold pending; rewrite Hs; reflexivity).
  assert (E2 : sleeping (tasks s a) = false) by (unfold sleeping; rewrite Hs; reflexivity).
  split; [unfold live; rewrite Hs; reflexivity|]. split; [exact E1|]. split; [exact E2|]. split; [unfold rdy, rdy1; rewrite Hs; reflexivity|].
  split; [apply wob_none, E1|apply (tl_off _ _ _ _ HC); assumption].
Qed.
(** [ready_list_rm] in a state that differs from [s] in the block of [a]. *)
Lemma ready_rm_ok s1 : g_ready_queue s1 = g_ready_queue s → prio (tasks s1 a) = pri s a →
  ∃ q, ready_list_rm a s1 = Some (set_rq q s1) ∧ RQ (upd (rdy s) a None) q.
Proof.
  intros Eq Ep. apply RQ_rm; auto; [rewrite Eq; apply (c_rq _ _ _ HC)|rewrite Ep; apply ready_facts|apply (core_idle_rdy _ _ _ HC)].
Qed.
Lemma begins_ok k w : begins (g_tick_count s) (tasks s a) k w → (pending k = true → blk_obj k ≠ None) → (on_tick k = true → pending k || sleeping k = true) → (sleeping k = true → on_tick k = true) →
  task_ok (n_tasks s) a k.
Proof.
  intros [B1 B2 B3 B4 B5 B6 B7] P1 P2 P3. destruct (c_ok _ _ _ HC a) as [A B U C D E F]. destruct ready_facts as (Hl & _).
  split; auto; rewrite ?B3, ?B4; auto.
Qed.

Lemma sleep_core n : tick_ok n →
  ∃ s' k, ready_list_rm a (tick_list_insert a n (on_task a (t_state K_SLEEP) s)) = Some s' ∧ begins (g_tick_count s) (tasks s a) k None ∧ frame s s' ∧ tasks s' = upd (tasks s) a k ∧
    objs s' = objs s ∧ Core own H s'.
Proof.
  intros Hn. destruct ready_facts as (Hl & Hp & Hsl & Er & Ew & Et).
  destruct (tick_insert_ok own H s (on_task a (t_state K_SLEEP) s) a n HC Et Hn eq_refl eq_refl) as [HT T1]; [intros x Hx; apply upd_ne, Hx|].
  set (s1 := tick_list_insert a n (on_task a (t_state K_SLEEP) s)) in *. simpl in T1. rewrite upd_eq, upd_upd in T1.
  destruct (ready_rm_ok s1) as (q & E & HQ); [unfold s1; autorewrite with kern; reflexivity|rewrite T1, upd_eq; reflexivity|].
  exists (set_rq q s1). eexists. split; [exact E|].
  assert (F : frame s (set_rq q s1)) by (unfold s1; frames).
  assert (HB : begins (g_tick_count s) (tasks s a) (t_on_tick true (t_tick (tick_wrap (g_tick_count s + n)) n (t_state K_SLEEP (tasks s a)))) None).
  { split; try reflexivity. intros _. unfold rem1. simpl. rewrite rem_insert by exact Hn. destruct Hn. lia. }
  split; [exact HB|]. split; [exact F|]. split; [exact T1|]. split; [unfold s1; simpl; autorewrite with kern; reflexivity|].
  apply (begins_core own H s a _ _ None HC Ha Hl HB); auto.
  - apply (begins_ok _ _ HB); reflexivity || discriminate.
  - unfold s1. simpl. autorewrite with kern. rewrite upd_id by exact Ew. apply (c_bl _ _ _ HC).
  - simpl. unfold rem1. simpl. rewrite rem_insert by exact Hn. exact HT.
Qed.
Lemma pend_core o n : tick_ok n →
  ∃ s' k, pend_to_blk_obj o a n s = Some s' ∧ begins (g_tick_count s) (tasks s a) k (Some o) ∧ frame s s' ∧ tasks s' = upd (tasks s) a k ∧
    (∀ o', o' ≠ o → objs s' o' = objs s o') ∧ Core own H s'.
Proof.
  intros Hn. destruct ready_facts as (Hl & Hp & Hsl & Er & Ew & Et).
  set (s1 := on_task a (t_blk_obj (Some o)) s).
  set (s2 := if n =? RHINO_WAIT_FOREVER then s1 else tick_list_insert a n s1).
  assert (A2 : ∃ k2, tasks s2 = upd (tasks s) a k2 ∧ blk_obj k2 = Some o ∧ task_state k2 = K_RDY ∧ prio k2 = pri s a ∧ b_prio k2 = base s a ∧ mutex_list k2 = mutex_list (tasks s a) ∧
    TL (upd (tck s) a (on_tick k2)) (upd (rem s) a (rem1 (g_tick_count s) k2)) (g_tick_head s2) ∧ (on_tick k2 = true → 1 ≤ rem1 (g_tick_count s) k2) ∧ objs s2 = objs s ∧ g_ready_queue s2 = g_ready_queue s ∧ frame s s2).
  { unfold s2. destruct (n =? RHINO_WAIT_FOREVER).
    - exists (t_blk_obj (Some o) (tasks s a)). repeat (split; [assumption || reflexivity|]). split; [apply TL_same; try reflexivity; apply (c_tl _ _ _ HC)|].
      split; [simpl; unfold tck in Et; rewrite Et; discriminate|]. split; [reflexivity|]. split; [reflexivity|unfold s1; frames].
    - destruct (tick_insert_ok own H s s1 a n HC Et Hn eq_refl eq_refl) as [HT T1]; [intros x Hx; apply upd_ne, Hx|]. simpl in T1. rewrite upd_eq, upd_upd in T1.
      eexists. split; [exact T1|]. repeat (split; [assumption || reflexivity|]). simpl. unfold rem1. simpl. rewrite rem_insert by exact Hn.
      split; [exact HT|]. split; [destruct Hn; lia|]. unfold s1. autorewrite with kern. split; [reflexivity|]. split; [reflexivity|frames]. }
  destruct A2 as (k2 & T2 & B1 & B2 & B3 & B4 & B5 & HT & B6 & O2 & Q2 & F2).
  destruct (ready_rm_ok (on_task a (t_state K_PEND) s2)) as (q & E & HQ); [exact Q2|simpl; rewrite upd_eq, T2, upd_eq; exact B3|].
  unfold pend_to_blk_obj. fold s1 s2. rewrite E. cbn [mbind option_bind].
  assert (Epol : blk_policy (objs (set_rq q (on_task a (t_state K_PEND) s2)) o) = BLK_POLICY_PRI) by (simpl; rewrite O2; apply (bl_pri _ _ _ (c_bl _ _ _ HC))).
  rewrite Epol. set (s3 := set_rq q (on_task a (t_state K_PEND) s2)). exists (pend_list_add o a s3), (t_state K_PEND k2). split; [reflexivity|].
  assert (T3 : tasks (pend_list_add o a s3) = upd (tasks s) a (t_state K_PEND k2)) by (unfold pend_list_add, s3; simpl; rewrite T2, upd_eq, upd_upd; reflexivity).
  assert (HB : begins (g_tick_count s) (tasks s a) (t_state K_PEND k2) (Some o)) by (split; try reflexivity; assumption).
  assert (F : frame s (pend_list_add o a s3)) by (eapply frame_trans; [exact F2|unfold s3; frames]).
  split; [exact HB|]. split; [exact F|]. split; [exact T3|]. split.
  { intros o' Ho. unfold pend_list_add. simpl. rewrite upd_ne by exact Ho. rewrite O2. reflexivity. }
  apply (begins_core own H s a _ _ (Some o) HC Ha Hl HB); auto.
  - apply (begins_ok _ _ HB); simpl; [rewrite B1; discriminate|reflexivity|discriminate].
  - pose proof (BL_add _ _ _ a o (c_bl _ _ _ HC) Ew) as HL. unfold pend_list_add. simpl. rewrite O2.
    match goal with |- BL _ _ (upd _ _ (o_waiters (insert_before ?g _ _) _)) => replace g with (λ x, pri s a <? pri s x); [exact HL|] end.
    apply functional_extensionality. intros x. rewrite T2, !upd_eq, upd_upd. unfold pri. at_task x a; simpl; rewrite ?B3; reflexivity.
Qed.
End ready_task.
