(* ===== verification/KernelOps.v ===== *)
(** * KernelOps: every call keeps the invariant

    The invariant [Inv] of the whole kernel, and that each operation of Kernel.v, called as
    [legal] says, returns (it neither stops the system nor follows a wild pointer nor loops)
    and keeps it. *)
From Stdlib Require Import ZArith Lia List Bool FunctionalExtensionality.
From stdpp Require Import base list numbers option sorting sets.
From S2P Require Import Prelude Kernel KernelQueue KernelInv KernelPri KernelMoves.
Local Open Scope Z_scope.

(** ** The CPU *)

Definition ticks_ok (s : kern) : Prop := ∀ t, tck s t = true → 1 ≤ rem s t.
(** The running task is ready unless an interrupt has just suspended it, and it is the
    preferred one outside of interrupts unless the scheduler is locked. *)
Record cpu_ok (s : kern) : Prop := mkCpu {
  cpu_running : running s = true; cpu_lock : 0 ≤ g_sched_lock s ≤ 200; cpu_level : 0 ≤ g_intrpt_nested_level s;
  cpu_live : live (tasks s (g_active_task s)) = true;
  cpu_rdy : g_intrpt_nested_level s = 0 ∨ 0 < g_sched_lock s → task_state (tasks s (g_active_task s)) = K_RDY;
  cpu_pref : g_intrpt_nested_level s = 0 → g_sched_lock s = 0 → preferred_cpu_ready_task_get (g_ready_queue s) = Some (g_active_task s) }.
Definition Inv (s : kern) : Prop := ∃ H, KI nobody H s ∧ ticks_ok s ∧ cpu_ok s.

(** What [core_sched] needs. *)
Record pre_sched (s : kern) : Prop := mkPre {
  ps_running : running s = true; ps_lock : 0 ≤ g_sched_lock s ≤ 200; ps_level : 0 ≤ g_intrpt_nested_level s;
  ps_live : 0 < g_intrpt_nested_level s → live (tasks s (g_active_task s)) = true;
  ps_rdy : 0 < g_sched_lock s → task_state (tasks s (g_active_task s)) = K_RDY }.
Lemma calm_pre s s' : cpu_ok s → calm s s' → pre_sched s'.
Proof.
  intros [A B C D E F] [M1 M2 M3 M4 M5 M6 M7 M8 M9 M10]. split; rewrite ?M1, ?M2, ?M3, ?M4; auto.
Qed.
Lemma calm_ticks s s' : ticks_ok s → calm s s' → ticks_ok s'.
Proof.
  intros HT C t Ht. destruct (cm_tick _ _ C t Ht) as [A B]. specialize (HT t A). unfold rem, rem1 in *. rewrite B, (cm_count _ _ C). exact HT.
Qed.

(** Registers of the CPU have no part in [KI]. *)
Lemma KI_cpu Y H s s' : KI Y H s → tasks s' = tasks s → objs s' = objs s → n_tasks s' = n_tasks s → n_objs s' = n_objs s → g_ready_queue s' = g_ready_queue s →
  g_tick_head s' = g_tick_head s → g_tick_count s' = g_tick_count s → KI Y H s'.
Proof.
  intros [[Q B T M K I] HP W HO] E1 E2 E3 E4 E5 E6 E7.
  assert (Eo : owner s' = owner s) by (unfold owner; rewrite E2; reflexivity).
  split; rewrite ?Eo; unfold due, boss, waits_ok, objs_ok, rdy, wob, pri, base, tck, rem in *; rewrite ?E1, ?E2, ?E3, ?E4, ?E5, ?E6, ?E7; auto.
  split; unfold rdy, wob, pri, tck, rem; rewrite ?E1, ?E2, ?E3, ?E4, ?E5, ?E6, ?E7; auto.
Qed.
Lemma preferred_rdy Y H s : KI Y H s → ∃ t, preferred_cpu_ready_task_get (g_ready_queue s) = Some t ∧ task_state (tasks s t) = K_RDY ∧
  ∀ u, task_state (tasks s u) = K_RDY → pri s t ≤ pri s u.
Proof.
  intros HK. destruct (preferred_ok _ _ (c_rq _ _ _ (i_core _ _ _ HK))) as (t & p & E & Hf & _ & Hl); [exists g_idle_task; apply (core_idle_rdy _ _ _ (i_core _ _ _ HK))|].
  exists t. split; [exact E|]. unfold rdy, rdy1 in Hf. destruct (task_state (tasks s t)) eqn:Es; try discriminate. split; [reflexivity|].
  intros u Hu. injection Hf as Hf. unfold pri. rewrite Hf. apply (Hl u). unfold rdy, rdy1. rewrite Hu. reflexivity.
Qed.
Lemma rdy_live k : task_state k = K_RDY → live k = true.
Proof. unfold live. intros ->. reflexivity. Qed.

(** The switch to the preferred task. *)
Lemma switch_inv H s : KI nobody H s → ticks_ok s → running s = true → g_sched_lock s = 0 → g_intrpt_nested_level s = 0 →
  ∃ t, preferred_cpu_ready_task_get (g_ready_queue s) = Some t ∧ Inv (if Nat.eqb t (g_active_task s) then s else set_active t s).
Proof.
  intros HK HT Hr Hl Hn. destruct (preferred_rdy _ _ _ HK) as (t & E & Hs & _). exists t. split; [exact E|]. exists H.
  destruct (Nat.eqb_spec t (g_active_task s)) as [->|Hne].
  - split; [exact HK|]. split; [exact HT|]. split; auto using rdy_live; lia.
  - split; [apply (KI_cpu _ _ s); auto|]. split; [exact HT|]. split; simpl; auto using rdy_live; lia.
Qed.
Lemma sched_inv H s : KI nobody H s → ticks_ok s → pre_sched s → ∃ s', core_sched s = Some s' ∧ Inv s'.
Proof.
  intros HK HT [A B C D E]. unfold core_sched. destruct (Z.ltb_spec 0 (g_intrpt_nested_level s)) as [Hl|Hl].
  { exists s. split; [reflexivity|]. exists H. split; [exact HK|]. split; [exact HT|]. split; auto; try lia. intros [?|?]; [lia|auto]. }
  destruct (Z.ltb_spec 0 (g_sched_lock s)) as [Hk|Hk].
  { assert (Hn : g_intrpt_nested_level s = 0) by lia. exists s. split; [reflexivity|]. exists H. split; [exact HK|]. split; [exact HT|].
    split; auto using rdy_live; lia. }
  destruct (switch_inv H s HK HT A) as (t & Ep & HI); [lia|lia|]. rewrite Ep. eexists. split; [reflexivity|exact HI].
Qed.

(** The result of a call that returns and keeps the invariant. *)
Definition fine (r : option (kret * kern)) : Prop := ∃ ret s', r = Some (ret, s') ∧ Inv s'.
Lemma fine_ret st s : Inv s → fine (Some (st, s)).
Proof. intros HI. exists st, s. auto. Qed.
Lemma fine_sched H ret s : KI nobody H s → ticks_ok s → pre_sched s → fine (s1 ← core_sched s; Some (ret, s1)).
Proof. intros HK HT HP. destruct (sched_inv H s HK HT HP) as (s' & E & HI). rewrite E. apply fine_ret, HI. Qed.
(** The call changed nothing the running task relies on. *)
Lemma fine_calm H ret s s1 : ticks_ok s → cpu_ok s → KI nobody H s1 → calm s s1 → fine (s2 ← core_sched s1; Some (ret, s2)).
Proof. intros HT HP HK C. apply (fine_sched H); [exact HK|exact (calm_ticks _ _ HT C)|exact (calm_pre _ _ HP C)]. Qed.
#[export] Hint Resolve fine_ret : kern.

(** The invariant of a state in which no task has changed its place and the ready queue is the same. *)
Lemma Inv_still H s s' : KI nobody H s' → ticks_ok s → cpu_ok s → calm s s' → g_ready_queue s' = g_ready_queue s → Inv s'.
Proof.
  intros HK HT [A B C D E F] HM. exists H. split; [exact HK|]. split; [exact (calm_ticks _ _ HT HM)|]. destruct HM as [M1 M2 M3 M4 M5 M6 M7 M8 M9 M10] .
  split; rewrite ?M1, ?M2, ?M3, ?M4; auto. rewrite H0. auto.
Qed.

(** ** Scheduler *)

Lemma sched_disable_ok s : Inv s → fine (Some (krhino_sched_disable s)).
Proof.
  intros HI. unfold krhino_sched_disable. destruct (Z.ltb_spec 0 (g_intrpt_nested_level s)) as [?|Hl]; [auto with kern|].
  unfold SCHED_MAX_LOCK_COUNT. destruct (Z.leb_spec 200 (g_sched_lock s)) as [?|Hlt]; [auto with kern|]. apply fine_ret. destruct HI as (H & HK & HT & [A B C D E F]).
  exists H. split; [apply (KI_cpu _ _ s); auto|]. split; [exact HT|]. split; simpl; auto; try lia. intros _. apply E. left. lia.
Qed.
Lemma sched_enable_ok s : Inv s → fine (krhino_sched_enable s).
Proof.
  intros HI. unfold krhino_sched_enable. destruct (Z.ltb_spec 0 (g_intrpt_nested_level s)) as [?|Hl]; [auto with kern|].
  destruct (Z.eqb_spec (g_sched_lock s) 0) as [?|Hk]; [auto with kern|]. destruct HI as (H & HK & HT & [A B C D E F]).
  assert (HK1 : KI nobody H (set_lock (g_sched_lock s - 1) s)) by (apply (KI_cpu _ _ s); auto). simpl.
  destruct (Z.ltb_spec 0 (g_sched_lock s - 1)) as [Hg|Hg].
  - apply fine_ret. exists H. split; [exact HK1|]. split; [exact HT|]. split; simpl; auto; try lia. intros _. apply E. left. lia.
  - apply (fine_sched H); [exact HK1|exact HT|]. split; simpl; auto; lia.
Qed.
Lemma yield_ok s : Inv s → task_state (tasks s (g_active_task s)) = K_RDY → fine (krhino_task_yield s).
Proof.
  intros (H & HK & HT & HP) Hs. unfold krhino_task_yield, ready_list_head_to_tail. set (p := prio (tasks s (g_active_task s))).
  assert (Hin : g_active_task s ∈ cur_list_item (g_ready_queue s) p) by (apply (rq_mem _ _ (c_rq _ _ _ (i_core _ _ _ HK))); unfold rdy, rdy1; rewrite Hs; reflexivity).
  destruct (cur_list_item (g_ready_queue s) p) as [|x l] eqn:El; [set_solver|]. cbn [mbind option_bind].
  apply (fine_calm H _ s); auto; [|split; auto].
  destruct HK as [[Q B T M K I] HD W HO]. split; auto. split; auto. simpl. apply rotate_ok; [exact Q|exact El].
Qed.

(** ** Semaphores *)

Lemma KI_obj Y H s o f : KI Y H s → (∀ b, blk_list (f b) = blk_list b) → (∀ b, blk_policy (f b) = blk_policy b) → (∀ b, obj_type (f b) = obj_type b) → (∀ b, mutex_task (f b) = mutex_task b) →
  (∀ b, mutex_next (f b) = mutex_next b) → KI Y H (on_obj o f s).
Proof.
  intros [[Q B T M K I] HP W HO] F1 F2 F3 F4 F5.
  assert (Ex : ∀ A (g : kobj → A), (∀ b, g (f b) = g b) → ∀ x, g (objs (on_obj o f s) x) = g (objs s x)).
  { intros A g Hg x. simpl. destruct (Nat.eq_dec x o) as [->|Hx]; [rewrite upd_eq; apply Hg|rewrite upd_ne by exact Hx; reflexivity]. }
  assert (Eo : owner (on_obj o f s) = owner s).
  { apply functional_extensionality. apply (Ex _ owner1). intros b. unfold owner1. rewrite F3, F4. reflexivity. }
  assert (En : (λ x, mutex_next (objs (on_obj o f s) x)) = (λ x, mutex_next (objs s x))) by (apply functional_extensionality, (Ex _ mutex_next), F5).
  split; rewrite ?Eo; auto.
  - split; auto; [|rewrite En; exact M]. apply (BL_ext _ _ _ _ _ _ B); auto.
  - intros x y. rewrite (Ex _ obj_type F3). apply W.
  - intros x. rewrite (Ex _ obj_type F3), (Ex _ blk_list F1). apply HO.
Qed.
Lemma calm_obj s o f : calm s (on_obj o f s).
Proof. split; auto. Qed.
#[export] Hint Resolve calm_obj : kern.
Lemma wake_with_finish : pend_task_wakeup = wake_with BLK_FINISH.
Proof. reflexivity. Qed.
Lemma wake_with_del : pend_task_rm = wake_with BLK_DEL.
Proof. reflexivity. Qed.

Lemma sem_give_ok o all s : Inv s → fine (sem_give o all s).
Proof.
  intros HI. assert (HI' := HI). destruct HI as (H & HK & HT & HP). unfold sem_give. destruct (decide _) as [Ety|]; [|auto with kern].
  assert (Eo : owner s o = None) by (unfold owner, owner1; rewrite Ety; reflexivity).
  destruct (blk_list (objs s o)) as [|t l] eqn:El.
  - destruct (_ =? _); [auto with kern|]. apply fine_ret, (Inv_still H s); auto with kern.
    apply KI_obj; auto; intros b; unfold peak_update; destruct (_ <? _); reflexivity.
  - rewrite wake_with_finish. destruct all.
    + unfold wake_waiters. destruct (KI_wake_all nobody H BLK_FINISH o _ s HK Eo (le_n _)) as (s1 & E1 & K1 & _ & C1 & _). rewrite E1. apply (fine_calm H _ s); auto.
    + assert (Ew : wob s t = Some o) by (apply (bl_mem _ _ _ (c_bl _ _ _ (i_core _ _ _ HK))); rewrite El; set_solver).
      destruct (KI_wake nobody H s t o BLK_FINISH HK Ew Eo) as (s1 & E1 & K1 & _ & C1 & _). rewrite E1. apply (fine_calm H _ s); auto.
Qed.

(** An object is deleted: nobody waits for it at the end. *)
Lemma KI_deleted H s o : KI (λ x, x = o) H s → blk_list (objs s o) = [] → KI nobody H s.
Proof.
  intros [HC HP W HO] E. split; auto. intros x. destruct (HO x) as [A B]. split; [|exact B]. intros Ht _. destruct (Nat.eq_dec x o) as [->|Hx]; auto.
Qed.
Lemma empty_kept own own' H H' s s' o : Core own H s → Core own' H' s' → (∀ x, wob s' x = wob s x) → blk_list (objs s o) = [] → blk_list (objs s' o) = [].
Proof.
  intros HC HC' Hw E. destruct (blk_list (objs s' o)) as [|y l] eqn:El; [reflexivity|]. exfalso.
  assert (Hy : wob s' y = Some o) by (apply (bl_mem _ _ _ (c_bl _ _ _ HC')); rewrite El; set_solver).
  rewrite Hw in Hy. apply (bl_mem _ _ _ (c_bl _ _ _ HC)) in Hy. rewrite E in Hy. set_solver.
Qed.
(** The waiters of an object marked as deleted are woken. *)
Lemma del_waiters H s s1 o : ticks_ok s → cpu_ok s → KI (λ x, x = o) H s1 → owner s1 o = None → calm s s1 →
  fine (s3 ← wake_waiters pend_task_rm o s1; s4 ← core_sched s3; Some (Returns RHINO_SUCCESS, s4)).
Proof.
  intros HT HP HK Eo C. unfold wake_waiters. rewrite wake_with_del.
  destruct (KI_wake_all _ H BLK_DEL o _ s1 HK Eo (le_n _)) as (s3 & E3 & K3 & _ & C3 & B3 & _). rewrite E3. cbn [mbind option_bind].
  apply (fine_calm H _ s); auto; [apply (KI_deleted _ _ o K3 B3)|eapply still_trans; eauto].
Qed.
Lemma Core_obj own H s o f : Core own H s → (∀ b, blk_list (f b) = blk_list b) → (∀ b, blk_policy (f b) = blk_policy b) → (∀ b, mutex_next (f b) = mutex_next b) → Core own H (on_obj o f s).
Proof.
  intros [Q B T M K I] F1 F2 F3. assert (Ex : ∀ A (g : kobj → A), (∀ b, g (f b) = g b) → ∀ x, g (objs (on_obj o f s) x) = g (objs s x)).
  { intros A g Hg x. simpl. destruct (Nat.eq_dec x o) as [->|Hx]; [rewrite upd_eq; apply Hg|rewrite upd_ne by exact Hx; reflexivity]. }
  split; auto.
  - apply (BL_ext _ _ _ _ _ _ B); auto; apply Ex; assumption.
  - rewrite (functional_extensionality _ _ (Ex _ mutex_next F3)). exact M.
Qed.
Lemma Core_type own H s o v : Core own H s → Core own H (on_obj o (o_type v) s).
Proof. intros HC. apply Core_obj; auto. Qed.
(** The object [o] is marked as deleted. *)
Lemma marked_objs s o : objs_ok nobody s → objs_ok (λ x, x = o) (on_obj o (o_type RHINO_OBJ_TYPE_NONE) s).
Proof.
  intros HO x. destruct (HO x) as [A B]. simpl. destruct (Nat.eq_dec x o) as [->|Hx]; [rewrite upd_eq; simpl; split; [intros _ Hn; congruence|congruence]|].
  rewrite upd_ne by exact Hx. split; [intros Ht _; apply A; auto|exact B].
Qed.
Lemma marked_owner s o : owner (on_obj o (o_type RHINO_OBJ_TYPE_NONE) s) = upd (owner s) o None.
Proof.
  apply functional_extensionality. intros x. unfold owner. simpl. destruct (Nat.eq_dec x o) as [->|Hx]; [rewrite !upd_eq; reflexivity|rewrite !upd_ne by exact Hx; reflexivity].
Qed.
Lemma marked_waits s o : waits_ok (owner s) s → waits_ok (upd (owner s) o None) (on_obj o (o_type RHINO_OBJ_TYPE_NONE) s).
Proof.
  intros W x y. simpl. destruct (Nat.eq_dec y o) as [->|Hy]; [rewrite upd_eq; discriminate|]. rewrite !upd_ne by exact Hy. apply W.
Qed.
Lemma KI_marked H s o : KI nobody H s → owner s o = None → KI (λ x, x = o) H (on_obj o (o_type RHINO_OBJ_TYPE_NONE) s).
Proof.
  intros [HC HP W HO] Eo. split; rewrite ?marked_owner.
  - rewrite upd_id by exact Eo. apply Core_type, HC.
  - rewrite upd_id by exact Eo. exact HP.
  - apply marked_waits, W.
  - apply marked_objs, HO.
Qed.

Lemma sem_del_ok o fl s : Inv s → fine (krhino_sem_del o fl s).
Proof.
  intros HI. unfold krhino_sem_del. destruct (0 <? _); [auto with kern|]. destruct (decide _) as [Ety|]; [|auto with kern].
  destruct (decide _); [|auto with kern]. destruct HI as (H & HK & HT & HP).
  assert (Eo : owner s o = None) by (unfold owner, owner1; rewrite Ety; reflexivity).
  apply (del_waiters H s); auto with kern; [apply KI_marked; assumption|]. rewrite marked_owner, upd_eq. reflexivity.
Qed.
Lemma mutex_del_ok o fl s : Inv s → fine (krhino_mutex_del o fl s).
Proof.
  intros HI. unfold krhino_mutex_del. destruct (0 <? _); [auto with kern|]. destruct (decide _) as [Ety|]; [|auto with kern].
  destruct (decide _); [|auto with kern]. destruct HI as (H & HK & HT & HP). cbv zeta.
  set (s1 := on_obj o (o_type RHINO_OBJ_TYPE_NONE) s). assert (Em : mutex_task (objs s1 o) = owner s o) by (unfold s1, owner, owner1; simpl; rewrite upd_eq, Ety; reflexivity).
  rewrite Em. destruct (owner s o) as [t|] eqn:Eo.
  2: { cbn [mbind option_bind]. unfold s1. apply (del_waiters H s); auto with kern; [apply KI_marked; assumption|]. rewrite marked_owner, upd_eq. reflexivity. }
  destruct HK as [HC HD W HO].
  destruct (release_some (owner s) H s1 t o) as (s2 & H2 & E2 & C2 & K2 & D2 & _); auto.
  - apply Core_type, HC.
  - intros _. apply marked_waits, W.
  - rewrite <- marked_owner. apply owns_owner.
  - intros m Hm Hn. apply HD; [exact Hm|intros []].
  - rewrite E2. cbn [mbind option_bind].
    assert (Eo2 : owner s2 = upd (owner s) o None).
    { rewrite <- marked_owner. fold s1. apply functional_extensionality. intros x. apply (alike_field owner1); [reflexivity|exact K2]. }
    apply (del_waiters H2 s); auto.
    + split; rewrite ?Eo2; auto.
      * apply (alike_waits _ _ _ K2), marked_waits, W.
      * intros x. rewrite (alike_type _ _ _ K2), (ak_objs _ _ K2). destruct (marked_objs s o HO x) as [A B]. fold s1 in A, B. split; [|exact B]. intros Ht Hx.
        apply (empty_kept (owner s) (upd (owner s) o None) H H2 s1); auto; [apply Core_type, HC|intros y; apply alike_wob, K2].
    + rewrite Eo2, upd_eq. reflexivity.
    + eapply still_trans; [apply calm_obj|apply calm_alike, K2].
Qed.

(** A new object. *)
Lemma KI_create Y H s o b : KI Y H s → obj_type (objs s o) = RHINO_OBJ_TYPE_NONE → blk_list (objs s o) = [] → (o < n_objs s)%nat →
  blk_list b = [] → blk_policy b = BLK_POLICY_PRI → owner1 b = None → obj_type b ≠ RHINO_OBJ_TYPE_NONE → KI Y H (on_obj o (λ _, b) s).
Proof.
  intros [[Q B T M K I] HP W HO] Ety El Hlt B1 B2 B3 B4.
  assert (Eo : owner (on_obj o (λ _, b) s) = owner s).
  { apply functional_extensionality. intros x. unfold owner. simpl. destruct (Nat.eq_dec x o) as [->|Hx]; [rewrite upd_eq|rewrite upd_ne by exact Hx; reflexivity].
    rewrite B3. unfold owner1. rewrite Ety. reflexivity. }
  assert (Hno : ∀ t, o ∉ H t) by (intros t Ht; apply (ml_mem _ _ _ _ _ _ M) in Ht; unfold owner, owner1 in Ht; rewrite Ety in Ht; discriminate).
  split; rewrite ?Eo; auto.
  - split; auto.
    + apply (BL_ext _ _ _ _ _ _ B); auto; intros x; simpl; destruct (Nat.eq_dec x o) as [->|Hx]; rewrite ?upd_eq, ?(upd_ne _ o _ x) by exact Hx; try reflexivity; [congruence|].
      rewrite B2. symmetry. apply (bl_pri _ _ _ B).
    + destruct M as [M1 M2 M3 M4 M5]. split; auto. intros t Ht. eapply chain_ext; [|apply M1, Ht]. intros x Hx. simpl. rewrite upd_ne; [reflexivity|]. intros ->. apply (Hno t Hx).
  - intros x y Hy. simpl. destruct (Nat.eq_dec y o) as [->|Hx]; [|rewrite upd_ne by exact Hx; apply W, Hy].
    change (wob (on_obj o (λ _, b) s) x) with (wob s x) in Hy. apply (bl_mem _ _ _ B) in Hy. rewrite El in Hy. set_solver.
  - intros x. simpl. destruct (Nat.eq_dec x o) as [->|Hx]; [rewrite upd_eq; split; [congruence|auto]|rewrite upd_ne by exact Hx; apply HO].
Qed.
(** The object [o] is free for a new semaphore or mutex. *)
Definition free_obj (o : nat) (s : kern) : Prop := obj_type (objs s o) = RHINO_OBJ_TYPE_NONE ∧ (o < n_objs s)%nat.
Lemma create_inv s o b : Inv s → free_obj o s → blk_list b = [] → blk_policy b = BLK_POLICY_PRI → owner1 b = None → obj_type b ≠ RHINO_OBJ_TYPE_NONE → Inv (on_obj o (λ _, b) s).
Proof.
  intros (H & HK & HT & HP) [Ht Hlt] B1 B2 B3 B4. apply (Inv_still H s); auto with kern. apply KI_create; auto. apply (proj1 (i_objs _ _ _ HK o) Ht). intros [].
Qed.
Lemma sem_create_ok o count fl s : Inv s → free_obj o s → fine (Some (sem_create o count fl s)).
Proof. intros HI Hf. apply fine_ret. apply (create_inv s o (mkObj _ _ _ _ _ _ _ _ _) HI Hf); try reflexivity. discriminate. Qed.
Lemma mutex_create_ok o fl s : Inv s → free_obj o s → fine (Some (mutex_create o fl s)).
Proof. intros HI Hf. apply fine_ret. apply (create_inv s o (mkObj _ _ _ _ _ _ _ _ _) HI Hf); try reflexivity. discriminate. Qed.
Lemma sem_count_set_ok o c s : Inv s → fine (Some (krhino_sem_count_set o c s)).
Proof.
  intros HI. assert (HI' := HI). destruct HI as (H & HK & HT & HP). unfold krhino_sem_count_set. destruct (0 <? _); [auto with kern|]. destruct (decide _); [|auto with kern].
  assert (Hset : fine (Some (Returns RHINO_SUCCESS, on_obj o (λ b, peak_update (o_count c b)) s))).
  { apply fine_ret, (Inv_still H s); auto with kern. apply KI_obj; auto; intros b; unfold peak_update; destruct (_ <? _); reflexivity. }
  cbv zeta. destruct (0 <? _); [exact Hset|]. destruct (blk_list _); [exact Hset|auto with kern].
Qed.

(** ** Calls that make the running task wait *)

Section begin.
Context (H : nat → list nat) (s : kern) (HT : ticks_ok s) (a : nat) (Hs : task_state (tasks s a) = K_RDY).
Context (k : ktask_t) (w : option nat) (s' : kern) (HB : begins (g_tick_count s) (tasks s a) k w) (F : frame s s') (E : tasks s' = upd (tasks s) a k).

Lemma begin_pri : pri s' = pri s.
Proof. apply functional_extensionality. intros x. unfold pri. rewrite E. at_task x a; [apply HB|reflexivity]. Qed.
Lemma begin_base : base s' = base s.
Proof. apply functional_extensionality. intros x. unfold base. rewrite E. at_task x a; [apply HB|reflexivity]. Qed.
Lemma begin_live : (λ t, live (tasks s' t)) = (λ t, live (tasks s t)).
Proof. apply functional_extensionality. intros x. rewrite E. at_task x a; [rewrite (bg_live _ _ _ _ HB); symmetry; apply rdy_live, Hs|reflexivity]. Qed.
Lemma begin_boss : boss (owner s) s' = upd (boss (owner s) s) a (w ≫= owner s).
Proof. apply functional_extensionality. intros x. unfold boss, boss_of, wob. rewrite E. at_task x a; [rewrite (bg_wob _ _ _ _ HB)|]; reflexivity. Qed.
Lemma begin_ticks : ticks_ok s'.
Proof.
  intros x. unfold tck, rem. rewrite (fr_count _ _ F), E. at_task x a; [apply (bg_tick _ _ _ _ HB)|apply HT].
Qed.
(** The object is not deleted, and a mutex has another task as its owner. *)
Lemma begin_KI : waits_ok (owner s) s → objs_ok nobody s → Core (owner s) H s' → due (owner s) no_extra nobody s' →
  (∀ o, w = Some o → obj_type (objs s o) ≠ RHINO_OBJ_TYPE_NONE ∧ (obj_type (objs s o) = RHINO_MUTEX_OBJ_TYPE → ∃ m, owner s o = Some m ∧ m ≠ a)) →
  (∀ o, w ≠ Some o → objs s' o = objs s o) → KI nobody H s'.
Proof.
  intros W HO HC HD Hw Ho. split; rewrite ?(frame_owners _ _ F); auto.
  - intros x o. unfold wob. rewrite E, (frame_type _ _ _ F). at_task x a; [rewrite (bg_wob _ _ _ _ HB); intros ->; apply (Hw o eq_refl)|apply W].
  - intros o. rewrite (frame_type _ _ _ F), (fr_objs _ _ F). destruct (HO o) as [A B]. split; [|exact B]. intros Ht Hn.
    rewrite Ho; [auto|]. intros Ew. destruct (Hw o Ew) as [Hne _]. congruence.
Qed.
(** Nobody is made to wait for another task. *)
Lemma begin_due : due (owner s) no_extra nobody s → (w ≫= owner s) = None → due (owner s) no_extra nobody s'.
Proof.
  intros HD Eb. unfold due. rewrite begin_pri, begin_base, begin_live, begin_boss, Eb, upd_id; [exact HD|].
  apply not_waiting, wob_none. unfold pending. rewrite Hs. reflexivity.
Qed.
End begin.
Lemma begin_pre s s' : cpu_ok s → frame s s' → g_intrpt_nested_level s = 0 → g_sched_lock s = 0 → pre_sched s'.
Proof. intros [A B C D E F] Fr H1 H2. split; rewrite ?(fr_running _ _ Fr), ?(fr_lock _ _ Fr), ?(fr_level _ _ Fr); auto; lia. Qed.
Lemma level_zero s : cpu_ok s → (0 <? g_intrpt_nested_level s) = false → g_intrpt_nested_level s = 0.
Proof. intros HP Hl. apply Z.ltb_ge in Hl. destruct HP. lia. Qed.
Lemma lock_zero s : cpu_ok s → (0 <? g_sched_lock s) = false → g_sched_lock s = 0.
Proof. intros HP Hl. apply Z.ltb_ge in Hl. destruct HP. lia. Qed.

(** A time in ticks, zero included. *)
Definition tick_arg (n : Z) : Prop := 0 ≤ n < 18446744073709551616.
Lemma tick_arg_ok n : tick_arg n → n ≠ 0 → tick_ok n.
Proof. unfold tick_arg, tick_ok. lia. Qed.

Lemma sleep_ok n s : Inv s → tick_arg n → (g_intrpt_nested_level s = 0 → g_active_task s ≠ g_idle_task) → fine (krhino_task_sleep n s).
Proof.
  intros HI Hn Hi. unfold krhino_task_sleep. destruct (Z.eqb_spec n 0) as [?|Hz]; [auto with kern|]. destruct (0 <? g_intrpt_nested_level s) eqn:El; [auto with kern|].
  destruct (0 <? g_sched_lock s) eqn:Ek; [auto with kern|]. destruct HI as (H & HK & HT & HP). apply (level_zero _ HP) in El. apply (lock_zero _ HP) in Ek.
  assert (Hs := cpu_rdy _ HP (or_introl El)). cbv zeta.
  destruct (sleep_core _ H s (i_core _ _ _ HK) _ (Hi El) Hs n (tick_arg_ok _ Hn Hz)) as (s1 & k & E1 & HB & F & T & O & C1). rewrite E1. cbn [mbind option_bind].
  apply (fine_sched H); [|exact (begin_ticks s HT _ k _ s1 HB F T)|exact (begin_pre _ _ HP F El Ek)].
  apply (begin_KI H s _ k None s1 HB F T (i_waits _ _ _ HK) (i_objs _ _ _ HK) C1); [apply (begin_due s _ Hs k None s1 HB T (i_due _ _ _ HK) eq_refl)|discriminate|rewrite O; auto].
Qed.
Lemma sem_take_ok o n s : Inv s → tick_arg n → (g_intrpt_nested_level s = 0 → g_active_task s ≠ g_idle_task) → fine (krhino_sem_take o n s).
Proof.
  intros HI Hn Hi. unfold krhino_sem_take. destruct (0 <? g_intrpt_nested_level s) eqn:El; [auto with kern|]. destruct (decide _) as [Ety|]; [|auto with kern].
  assert (HI' := HI). destruct HI as (H & HK & HT & HP).
  destruct (0 <? sem_count _); [apply fine_ret, (Inv_still H s); auto with kern; apply KI_obj; auto|].
  unfold RHINO_NO_WAIT. destruct (Z.eqb_spec n 0) as [?|Hz]; [auto with kern|]. destruct (0 <? g_sched_lock s) eqn:Ek; [auto with kern|].
  apply (level_zero _ HP) in El. apply (lock_zero _ HP) in Ek. assert (Hs := cpu_rdy _ HP (or_introl El)).
  destruct (pend_core _ H s (i_core _ _ _ HK) _ (Hi El) Hs o n (tick_arg_ok _ Hn Hz)) as (s1 & k & E1 & HB & F & T & O & C1). rewrite E1. cbn [mbind option_bind].
  apply (fine_sched H); [|exact (begin_ticks s HT _ k _ s1 HB F T)|exact (begin_pre _ _ HP F El Ek)].
  assert (Eo : owner s o = None) by (unfold owner, owner1; rewrite Ety; reflexivity).
  apply (begin_KI H s _ k (Some o) s1 HB F T (i_waits _ _ _ HK) (i_objs _ _ _ HK) C1).
  - apply (begin_due s _ Hs k (Some o) s1 HB T (i_due _ _ _ HK)). exact Eo.
  - intros o' [= <-]. rewrite Ety. split; discriminate.
  - intros o' Ho. apply O. congruence.
Qed.

(** ** Mutexes *)

Lemma no_extra_upd m v : upd (upd no_extra m v) m None = no_extra.
Proof. rewrite upd_upd. apply upd_id. reflexivity. Qed.

(** The owner takes over the priority of the task that is going to wait for it. *)
Lemma inherit_ok H s o m : KI nobody H s → owner s o = Some m → task_state (tasks s (g_active_task s)) = K_RDY → m ≠ g_active_task s →
  let a := g_active_task s in
  ∃ s1 e, (if prio (tasks s a) <? prio (tasks s m) then task_pri_change m (prio (tasks s a)) s else Some s) = Some s1 ∧
    Core (owner s) H s1 ∧ keeps s s1 ∧ due (owner s) e nobody s1 ∧ pri s1 a = pri s a ∧ ((pri s1 m ≤ pri s1 a ∧ e m = None) ∨ e m = Some (pri s1 a)) ∧ upd e m None = no_extra.
Proof.
  intros [HC HD W HO] Eo Hs Hm a. assert (Hl : live (tasks s m) = true) by (apply (ml_live _ _ _ _ _ _ (c_ml _ _ _ HC) o), Eo).
  destruct (Z.ltb_spec (prio (tasks s a)) (prio (tasks s m))) as [Hlt|Hge].
  - assert (Hpa : pri_ok (pri s a)) by (apply (k_prio _ _ _ (c_ok _ _ _ HC a)), rdy_live, Hs). destruct (HD m Hl) as [A B C D]; [intros []|].
    destruct (task_pri_change_raise (owner s) H (upd no_extra m (Some (pri s a))) m (pri s a) s) as (s1 & E1 & C1 & K1 & D1 & P1); [|exact Hlt|].
    + split; auto using owns_owner.
      * intros ->. apply (id_own _ _ (c_idle _ _ _ HC) o), Eo.
      * unfold pri in *. split; [apply Z.lt_le_incl; eapply Z.lt_le_trans; eauto|intros x Hx; apply Z.lt_le_incl; eapply Z.lt_le_trans; [exact Hlt|apply B, Hx]|intros r; rewrite upd_eq; intros [= <-]; reflexivity|rewrite upd_eq; auto].
      * intros x Hx Hn. apply (dem_ext _ _ _ _ _ _ _ _ _ _ (HD x Hx (λ f, f))); try reflexivity. apply upd_ne, Hn.
    + exists s1, (upd no_extra m (Some (pri s a))). split; [exact E1|]. do 3 (split; [assumption|]).
      assert (Epa : pri s1 a = pri s a) by (destruct (P1 a) as [Hpa'|[Hpa' _]]; [exact Hpa'|destruct (Z.lt_irrefl _ Hpa')]). split; [exact Epa|]. split; [right; rewrite upd_eq, Epa; reflexivity|apply no_extra_upd].
  - exists s, no_extra. split; [reflexivity|]. split; [exact HC|]. split; [apply keeps_refl|]. split; [exact HD|]. split; [reflexivity|].
    split; [left; split; [unfold pri; lia|reflexivity]|apply upd_id; reflexivity].
Qed.

(** A mutex nobody holds goes to the running task. *)
Lemma take_free_ok s o : Inv s → obj_type (objs s o) = RHINO_MUTEX_OBJ_TYPE → owner s o = None → g_active_task s ≠ g_idle_task → Inv (on_obj o (o_nested 1) (mutex_own o (g_active_task s) s)).
Proof.
  intros (H & HK & HT & HP) Ety Eo Hi. set (a := g_active_task s). set (s1 := mutex_own o a s).
  assert (Hnw : ∀ y, wob s y ≠ Some o) by (intros y Hy; destruct (i_waits _ _ _ HK y o Hy Ety) as (m & Hm & _); congruence).
  assert (Eo1 : owner s1 = upd (owner s) o (Some a)).
  { apply functional_extensionality. intros x. unfold owner, s1, mutex_own. simpl. destruct (Nat.eq_dec x o) as [->|Hx]; [rewrite !upd_eq; unfold owner1; simpl; rewrite Ety; reflexivity|].
    rewrite !upd_ne by exact Hx. reflexivity. }
  assert (Ety1 : ∀ x, obj_type (objs s1 x) = obj_type (objs s x)).
  { intros x. unfold s1, mutex_own. simpl. destruct (Nat.eq_dec x o) as [->|Hx]; [rewrite upd_eq|rewrite upd_ne by exact Hx]; reflexivity. }
  assert (R := own_relinked o a s). fold s1 in R. destruct HK as [HC HD W HO].
  assert (HK1 : KI nobody (upd H a (o :: H a)) s1).
  { split; rewrite ?Eo1.
    - apply own_core; auto; [apply (cpu_live _ HP)|]. apply HO. rewrite Ety. discriminate.
    - apply (relinked_due _ _ _ _ _ R), due_give; auto. intros y Hy. destruct (Hnw y Hy).
    - intros x y. unfold wob. rewrite (relinked_field wob1 _ _ _ (λ _ _, eq_refl) R), Ety1. intros Hy Hty. destruct (Nat.eq_dec y o) as [->|Hn]; [destruct (Hnw x Hy)|].
      rewrite upd_ne by exact Hn. apply (W x y Hy Hty).
    - intros x. rewrite Ety1, (rl_list _ _ R). apply HO. }
  apply (Inv_still (upd H a (o :: H a)) s); auto.
  - apply KI_obj; auto.
  - split; try reflexivity; intros x; unfold tck; simpl; at_task x a; auto.
Qed.

Lemma mutex_lock_ok o n s : Inv s → tick_arg n → (g_intrpt_nested_level s = 0 → g_active_task s ≠ g_idle_task) →
  (owner s o = Some (g_active_task s) → owner_nested (objs s o) ≠ 4294967295) → fine (krhino_mutex_lock o n s).
Proof.
  intros HI Hn Hi Hnest. unfold krhino_mutex_lock. destruct (negb (running s)); [auto with kern|]. destruct (0 <? g_intrpt_nested_level s) eqn:El; [auto with kern|].
  destruct (decide _) as [Ety|]; [|auto with kern]. cbv zeta. set (a := g_active_task s). assert (HI' := HI). destruct HI as (H & HK & HT & HP).
  apply (level_zero _ HP) in El. specialize (Hi El).
  assert (Em : mutex_task (objs s o) = owner s o) by (unfold owner, owner1; rewrite Ety; reflexivity). rewrite Em.
  destruct (decide (owner s o = Some a)) as [Eo|Hne].
  { rewrite (proj2 (Z.eqb_neq _ _)) by auto. apply fine_ret, (Inv_still H s); auto with kern. apply KI_obj; auto. }
  destruct (owner s o) as [m|] eqn:Eo; [|apply fine_ret, take_free_ok; assumption].
  unfold RHINO_NO_WAIT. destruct (Z.eqb_spec n 0) as [?|Hz]; [auto with kern|]. destruct (0 <? g_sched_lock s) eqn:Ek; [auto with kern|]. apply (lock_zero _ HP) in Ek.
  assert (Hs := cpu_rdy _ HP (or_introl El)). assert (Hma : m ≠ a) by congruence.
  pose proof (inherit_ok H s o m HK Eo Hs Hma) as HX. cbv zeta in HX. fold a in HX, Hs. destruct HX as (s1 & e & E1 & C1 & K1 & D1 & P1 & Hor & He). rewrite E1. cbn [mbind option_bind].
  assert (Hs1 : task_state (tasks s1 a) = K_RDY) by (rewrite (keeps_state _ _ _ K1); exact Hs).
  assert (Eo1 := keeps_owners _ _ K1). rewrite <- Eo1 in C1, D1.
  destruct (pend_core _ H s1 C1 a Hi Hs1 o n (tick_arg_ok _ Hn Hz)) as (s2 & k & E2 & HB & F2 & T2 & O2 & C2). rewrite E2. cbn [mbind option_bind].
  assert (HT1 : ticks_ok s1) by (apply (calm_ticks _ _ HT), calm_keeps, K1).
  assert (F := frame_trans _ _ _ (kp_frame _ _ K1) F2).
  apply (fine_sched H); [|exact (begin_ticks s1 HT1 a k _ s2 HB F2 T2)|exact (begin_pre _ _ HP F El Ek)].
  apply (begin_KI H s1 a k (Some o) s2 HB F2 T2); auto.
  - rewrite Eo1. apply (keeps_waits _ _ _ K1), HK.
  - apply (objs_ok_frame _ _ _ (kp_frame _ _ K1)); [|apply HK]. intros x. apply (empty_kept (owner s) (owner s1) H H); [apply HK|exact C1|]. intros y. apply keeps_wob, K1.
  - unfold due. rewrite (begin_pri s1 a k (Some o) s2 HB T2), (begin_base s1 a k (Some o) s2 HB T2), (begin_live s1 a Hs1 k (Some o) s2 HB T2), (begin_boss s1 a k (Some o) s2 HB T2).
    change (Some o ≫= owner s1) with (owner s1 o). replace (owner s1 o) with (Some m) by (rewrite Eo1; auto). rewrite <- He. apply PI_enter; auto.
    + apply not_waiting, wob_none. unfold pending. rewrite Hs1. reflexivity.
    + rewrite (keeps_live _ _ _ K1). apply (ml_live _ _ _ _ _ _ (c_ml _ _ _ (i_core _ _ _ HK)) o), Eo.
  - intros y [= <-]. rewrite (frame_type _ _ _ (kp_frame _ _ K1)), Ety. split; [discriminate|]. intros _. exists m. rewrite Eo1. auto.
Qed.

(** The first waiter [x] of the mutex [o], which no task has in its chain, is woken and gets it. *)
Record handed (own : nat → option nat) (H : nat → list nat) (o x : nat) (s s' : kern) : Prop := mkHanded {
  hd_core : Core (upd own o (Some x)) (upd H x (o :: H x)) s'; hd_calm : calm s s'; hd_wob : wob s' = upd (wob s) x None;
  hd_type : ∀ y, obj_type (objs s' y) = obj_type (objs s y); hd_mtask : ∀ y, mutex_task (objs s' y) = upd (λ z, mutex_task (objs s z)) o (Some x) y;
  hd_next : ∀ y, y ≠ o → mutex_next (objs s' y) = mutex_next (objs s y); hd_empty : ∀ y, blk_list (objs s y) = [] → blk_list (objs s' y) = [];
  hd_tasks : ∀ y, y ≠ x → tasks s' y = tasks s y }.
Lemma hand_over own H X s o x l : Core own H s → due own no_extra X s → own o = None → (o < n_objs s)%nat → blk_list (objs s o) = x :: l →
  ∃ s1, pend_task_wakeup x s = Some s1 ∧ handed own H o x s (mutex_own o x s1) ∧ due (upd own o (Some x)) no_extra X (mutex_own o x s1).
Proof.
  intros HC HD Eown Hlt El. assert (Ew : wob s x = Some o) by (apply (bl_mem _ _ _ (c_bl _ _ _ HC)); rewrite El; set_solver). assert (Hp := wob_pending _ _ _ Ew).
  destruct (pending_facts _ _ _ _ HC Hp) as (Ht & _ & _ & o' & Eb & Ew'). assert (o' = o) as -> by congruence.
  destruct (wake_ok own H s x BLK_FINISH HC Hp) as (s1 & k & E1 & HS & Hl & F1 & T1 & O1 & C1). exists s1. split; [exact E1|].
  assert (R := own_relinked o x s1). set (s2 := mutex_own o x s1) in *. assert (Ew1 := stop_wob s x k s1 HS T1).
  assert (Hl1 : live (tasks s1 x) = true) by (rewrite T1, upd_eq; exact Hl).
  assert (Eo : ∀ y, objs s2 y = upd (objs s1) o (objs s2 o) y).
  { intros y. unfold s2, mutex_own. simpl. destruct (Nat.eq_dec y o) as [->|Hy]; [rewrite !upd_eq|rewrite !upd_ne by exact Hy]; reflexivity. }
  assert (Eo' : objs s2 o = o_next (mutex_list (tasks s1 x)) (o_owner (Some x) (objs s1 o))) by (unfold s2, mutex_own; simpl; rewrite upd_eq; reflexivity).
  split.
  - split.
    + apply own_core; auto. rewrite (fr_objs _ _ F1). exact Hlt.
    + apply (still_trans _ s1); [apply (calm_upd _ _ x k F1 T1); [|auto|rewrite (st_tick _ _ HS); discriminate]; unfold pending in Hp; destruct (task_state (tasks s x)); congruence|].
      split; try reflexivity; intros y; unfold tck; simpl; at_task y x; auto.
    + unfold wob at 1. rewrite (relinked_fun wob1 _ _) with (2 := R) by reflexivity. exact Ew1.
    + intros y. rewrite <- (frame_type _ _ y F1), Eo. destruct (Nat.eq_dec y o) as [->|Hy]; [rewrite upd_eq, Eo'|rewrite upd_ne by exact Hy]; reflexivity.
    + intros y. rewrite Eo. destruct (Nat.eq_dec y o) as [->|Hy]; [rewrite !upd_eq, Eo'; reflexivity|rewrite !upd_ne by exact Hy; apply (frame_mtask _ _ y F1)].
    + intros y Hy. rewrite Eo, upd_ne by exact Hy. apply (frame_next _ _ y F1).
    + intros y Hy. rewrite (rl_list _ _ R), O1. apply blk_rm_list, Hy.
    + intros y Hy. unfold s2, mutex_own. simpl. rewrite T1, !upd_ne by exact Hy. reflexivity.
  - apply (relinked_due _ _ _ _ _ R), due_give; auto.
    + intros y. rewrite Ew1. at_task y x; [discriminate|]. intros Hy. rewrite !(stop_pri s x k s1 HS T1). apply (ordered_head (pri s) x l).
      * rewrite <- El. apply (bl_ord _ _ _ (c_bl _ _ _ HC)).
      * rewrite <- El. apply (bl_mem _ _ _ (c_bl _ _ _ HC)), Hy.
    + eapply due_weaken; [|apply (stop_due _ _ _ _ _ HS T1 _ _ HD)]. intros m [Hm|[Hb _]]; [exact Hm|]. unfold boss, boss_of in Hb. rewrite Ew in Hb. simpl in Hb. congruence.
Qed.

(** A mutex that was just released and has no waiters. *)
Lemma nobody_waits H s o : Core (upd (owner s) o None) H s → due (upd (owner s) o None) no_extra nobody s → objs_ok nobody s →
  (∀ x y, wob s x = Some y → y ≠ o → obj_type (objs s y) = RHINO_MUTEX_OBJ_TYPE → ∃ m, owner s y = Some m ∧ m ≠ x) → (∀ y, wob s y ≠ Some o) → KI nobody H (on_obj o (o_owner None) s).
Proof.
  intros HC HD HO W Hnw. assert (Eo : owner (on_obj o (o_owner None) s) = upd (owner s) o None).
  { apply functional_extensionality. intros x. unfold owner. simpl. destruct (Nat.eq_dec x o) as [->|Hx]; [rewrite !upd_eq; unfold owner1; simpl; destruct (obj_type (objs s o)); reflexivity|].
    rewrite !upd_ne by exact Hx. reflexivity. }
  split; rewrite ?Eo; auto.
  - apply Core_obj; auto.
  - intros x y Hy. simpl. assert (Hn : y ≠ o) by (intros ->; exact (Hnw _ Hy)). rewrite !upd_ne by exact Hn. apply (W x y Hy Hn).
  - intros x. simpl. destruct (Nat.eq_dec x o) as [->|Hx]; [rewrite upd_eq|rewrite upd_ne by exact Hx]; apply HO.
Qed.
(** A mutex that was just released and handed over. *)
Lemma handed_KI H s o x l s' : handed (upd (owner s) o None) H o x s s' → due (upd (upd (owner s) o None) o (Some x)) no_extra nobody s' → objs_ok nobody s → obj_type (objs s o) = RHINO_MUTEX_OBJ_TYPE →
  blk_list (objs s o) = x :: l → (∀ z y, wob s z = Some y → y ≠ o → obj_type (objs s y) = RHINO_MUTEX_OBJ_TYPE → ∃ m, owner s y = Some m ∧ m ≠ z) → KI nobody (upd H x (o :: H x)) s'.
Proof.
  intros [C1 C2 C3 C4 C5 C6 C7 C8] HD HO Ety El W.
  assert (Eo : owner s' = upd (upd (owner s) o None) o (Some x)).
  { rewrite upd_upd. apply functional_extensionality. intros y. unfold owner, owner1. rewrite C4, C5. destruct (Nat.eq_dec y o) as [->|Hy]; [rewrite !upd_eq, Ety; reflexivity|].
    rewrite !upd_ne by exact Hy. reflexivity. }
  split; rewrite ?Eo; auto.
  - intros z y. rewrite C3, C4, upd_upd. at_task z x; [discriminate|]. intros Hy Hty. destruct (Nat.eq_dec y o) as [->|Hn]; [exists x; rewrite upd_eq; auto|].
    rewrite upd_ne by exact Hn. apply (W z y); assumption.
  - intros y. rewrite C4, (cm_no _ _ C2). destruct (HO y) as [A B]. split; [|exact B]. intros Hty Hn. apply C7, A; assumption.
Qed.

Lemma mutex_unlock_ok o s : Inv s → fine (krhino_mutex_unlock o s).
Proof.
  intros HI. unfold krhino_mutex_unlock. destruct (negb (running s)); [auto with kern|]. destruct (0 <? g_intrpt_nested_level s) eqn:El; [auto with kern|].
  destruct (decide _) as [Ety|]; [|auto with kern]. cbv zeta. set (a := g_active_task s). destruct (decide _) as [Em|]; [|auto with kern].
  destruct HI as (H & HK & HT & HP). apply (level_zero _ HP) in El. assert (Hs := cpu_rdy _ HP (or_introl El)). fold a in Hs.
  assert (Eo : owner s o = Some a) by (unfold owner, owner1; rewrite Ety; exact Em).
  set (s1 := on_obj o (λ b, o_nested ((owner_nested b - 1) mod 4294967296) b) s).
  assert (HK1 : KI nobody H s1) by (apply KI_obj; auto). assert (C1 : calm s s1) by apply calm_obj.
  destruct (0 <? owner_nested (objs s1 o)); [apply fine_ret, (Inv_still H s); auto|].
  assert (Eo1 : owner s1 = owner s).
  { apply functional_extensionality. intros x. unfold owner, s1. simpl. destruct (Nat.eq_dec x o) as [->|Hx]; [rewrite upd_eq|rewrite upd_ne by exact Hx]; reflexivity. }
  assert (Ety1 : obj_type (objs s1 o) = RHINO_MUTEX_OBJ_TYPE) by (unfold s1; simpl; rewrite upd_eq; exact Ety).
  destruct (release_some (owner s1) H s1 a o (i_core _ _ _ HK1)) as (s2 & H2 & E2 & C2 & K2 & D2 & Q2).
  - rewrite Eo1. exact Eo.
  - change (tasks s1 a) with (tasks s a). unfold pending. rewrite Hs. discriminate.
  - intros y m. destruct (Nat.eq_dec y o) as [->|Hn]; [rewrite upd_eq; discriminate|rewrite upd_ne by exact Hn; apply owns_owner].
  - intros m Hm _. apply (i_due _ _ _ HK1 m Hm). intros [].
  - rewrite E2. cbn [mbind option_bind].
    assert (Eo2 : owner s2 = owner s1) by (apply functional_extensionality; intros x; apply (alike_field owner1); [reflexivity|exact K2]).
    assert (HO2 : objs_ok nobody s2).
    { intros x. rewrite (alike_type _ _ _ K2), (ak_objs _ _ K2). destruct (i_objs _ _ _ HK1 x) as [A B]. split; [|exact B]. intros Hty Hx.
      apply (empty_kept _ _ _ _ _ _ x (i_core _ _ _ HK1) C2); [intros y; apply alike_wob, K2|auto]. }
    assert (W2 : ∀ x y, wob s2 x = Some y → y ≠ o → obj_type (objs s2 y) = RHINO_MUTEX_OBJ_TYPE → ∃ m, owner s2 y = Some m ∧ m ≠ x).
    { intros x y. rewrite (alike_wob _ _ _ K2), (alike_type _ _ _ K2), Eo2. intros Hy _ Hty. apply (i_waits _ _ _ HK1 x y Hy Hty). }
    rewrite <- Eo2 in C2, D2. destruct (blk_list (objs s2 o)) as [|t l] eqn:Eb.
    + assert (Hnw : ∀ y, wob s2 y ≠ Some o) by (intros y Hy; apply (bl_mem _ _ _ (c_bl _ _ _ C2)) in Hy; rewrite Eb in Hy; set_solver).
      apply fine_ret, (Inv_still H2 s); auto; [apply nobody_waits; assumption|eapply still_trans; [exact C1|]; eapply still_trans; [apply calm_alike, K2|apply calm_obj]|].
      simpl. rewrite Q2; [reflexivity|]. apply (dem_ext _ _ _ _ _ _ _ _ _ _ (i_due _ _ _ HK1 a (cpu_live _ HP) (λ f, f))); try reflexivity.
      intros x. unfold boss, boss_of. destruct (wob s1 x) as [y|] eqn:Ey; [|reflexivity]. simpl. rewrite upd_ne; [reflexivity|]. intros ->. apply (Hnw x). rewrite (alike_wob _ _ _ K2). exact Ey.
    + assert (Ety2 : obj_type (objs s2 o) = RHINO_MUTEX_OBJ_TYPE) by (rewrite (alike_type _ _ _ K2); exact Ety1).
      destruct (hand_over _ H2 nobody s2 o t l C2 D2 (upd_eq _ _ _)) as (s3 & E3 & HH & D3); [apply HO2; rewrite Ety2; discriminate|exact Eb|].
      rewrite E3. cbn [mbind option_bind]. apply (fine_calm (upd H2 t (o :: H2 t)) _ s); auto; [apply KI_obj; auto; eapply handed_KI; eauto|].
      eapply still_trans; [exact C1|]. eapply still_trans; [apply calm_alike, K2|]. eapply still_trans; [apply (hd_calm _ _ _ _ _ _ HH)|apply calm_obj].
Qed.
