(* ===== verification/KernelTasks.v ===== *)
(** * KernelTasks: the operations on tasks, ticks and interrupts keep the invariant *)
From Stdlib Require Import ZArith Lia List Bool FunctionalExtensionality.
From stdpp Require Import base list numbers option sorting sets.
From S2P Require Import Prelude Kernel KernelQueue KernelInv KernelPri KernelMoves KernelOps.
Local Open Scope Z_scope.

(** ** Suspend and resume *)

Section move.
Context (s s' : kern) (t : nat) (k : ktask_t) (F : frame s s') (E : tasks s' = upd (tasks s) t k).
Lemma move_ticks : ticks_ok s → (on_tick k = true → tck s t = true ∧ tick_match k = tick_match (tasks s t)) → ticks_ok s'.
Proof.
  intros HT Hk x. unfold tck, rem, rem1. rewrite (fr_count _ _ F), E. at_task x t; [|apply HT]. intros Hx. destruct (Hk Hx) as [A ->]. apply (HT t A).
Qed.
Lemma move_pre : cpu_ok s → (t = g_active_task s → g_sched_lock s = 0 ∧ (0 < g_intrpt_nested_level s → live k = true)) → pre_sched s'.
Proof.
  intros [A B C D G I] Hk. split; rewrite ?(fr_running _ _ F), ?(fr_lock _ _ F), ?(fr_level _ _ F), ?(fr_active _ _ F), ?E; auto.
  - intros Hl. destruct (Nat.eq_dec (g_active_task s) t) as [Ea|Hn]; [rewrite Ea, upd_eq; apply Hk; auto|rewrite upd_ne by exact Hn; exact D].
  - intros Hk'. destruct (Nat.eq_dec (g_active_task s) t) as [Ea|Hn]; [destruct (Hk (eq_sym Ea)); lia|rewrite upd_ne by exact Hn; auto].
Qed.
End move.
Lemma not_idle_pri Y H s t : KI Y H s → prio (tasks s t) ≠ RHINO_IDLE_PRI → t ≠ g_idle_task.
Proof. intros HK Hp ->. apply Hp, (c_idle _ _ _ (i_core _ _ _ HK)). Qed.
Lemma not_idle_state Y H s t : KI Y H s → task_state (tasks s t) ≠ K_RDY → t ≠ g_idle_task.
Proof. intros HK Hp ->. apply Hp, (c_idle _ _ _ (i_core _ _ _ HK)). Qed.

(** A call that only relabels a task. *)
Lemma relabel_calm s t k : relabels (tasks s t) k → calm s (set_tasks (upd (tasks s) t k) s).
Proof.
  intros R. apply (calm_upd _ _ t k); [split; reflexivity|reflexivity|..].
  - intros Hs. pose proof (re_rdy _ _ R) as Er. unfold rdy1 in Er. rewrite Hs in Er. destruct (task_state k); congruence.
  - rewrite (re_live _ _ R). auto.
  - rewrite (re_tick _ _ R), (re_match _ _ R). auto.
Qed.
Lemma relabel_sched H s t f : KI nobody H s → ticks_ok s → cpu_ok s → relabels (tasks s t) (f (tasks s t)) → fine (sched_ok (on_task t f s)).
Proof. intros HK HT HP R. apply (fine_calm H _ s); auto; [eapply KI_relabel; eauto; reflexivity|apply relabel_calm, R]. Qed.
Ltac relabel := split; unfold rdy1, pending, sleeping, live in *; simpl; try match goal with E : task_state _ = _ |- _ => rewrite ?E end; auto.

Lemma suspend_ok t s : Inv s → fine (krhino_task_suspend t s).
Proof.
  intros HI. unfold krhino_task_suspend. destruct (Z.eqb_spec (prio (tasks s t)) RHINO_IDLE_PRI) as [?|Hp]; [auto with kern|]. unfold task_suspend.
  destruct (Nat.eqb t (g_active_task s) && (0 <? g_sched_lock s)) eqn:Ea; [auto with kern|].
  assert (HI' := HI). destruct HI as (H & HK & HT & HP). assert (Hi := not_idle_pri _ _ _ _ HK Hp).
  destruct (task_state (tasks s t)) eqn:Es; auto with kern.
  2-6: try (destruct (_ =? 255); [auto with kern|]); apply (relabel_sched H); auto; relabel.
  destruct (ready_facts _ _ _ (i_core _ _ _ HK) t Es) as (Hl & Hpd & Hsl & Er & Ew & Et).
  set (k := t_state K_SUSPENDED (t_suspend 1 (tasks s t))). change (on_task t _ s) with (on_task t (λ _, k) s).
  destruct (ready_rm_ok _ _ _ (i_core _ _ _ HK) t Hi Es (on_task t (λ _, k) s) eq_refl) as (q & E & HQ); [simpl; rewrite upd_eq; reflexivity|].
  rewrite E. cbn [mbind option_bind].
  assert (F : frame s (set_rq q (on_task t (λ _, k) s))) by frames.
  assert (HS : stops (tasks s t) k) by (split; try reflexivity; unfold tck in Et; [exact Et|auto]).
  apply (fine_sched H).
  - apply (KI_stop _ H s t k); auto. simpl. apply (TL_off _ _ _ _ (i_core _ _ _ HK) Et).
  - apply (move_ticks s _ t k); auto.
  - apply (move_pre s _ t k); auto. intros ->. rewrite Nat.eqb_refl in Ea. simpl in Ea. split; [apply (lock_zero _ HP), Ea|reflexivity].
Qed.

(** A suspended task becomes ready. *)
Lemma unsuspend_ok H s t k : KI nobody H s → ticks_ok s → cpu_ok s → task_state (tasks s t) = K_SUSPENDED → k = t_state K_RDY (t_suspend (suspend_count k) (tasks s t)) →
  fine (sched_ok (ready_list_add t (on_task t (λ _, k) s))).
Proof.
  intros HK HT HP Es Ek. assert (Hi : t ≠ g_idle_task) by (apply (not_idle_state _ _ _ _ HK); congruence).
  assert (E1 : pending (tasks s t) = false) by (unfold pending; rewrite Es; reflexivity). assert (E2 : sleeping (tasks s t) = false) by (unfold sleeping; rewrite Es; reflexivity).
  assert (Et := tl_off _ _ _ _ (i_core _ _ _ HK) E1 E2). assert (Hl : live (tasks s t) = true) by (unfold live; rewrite Es; reflexivity).
  assert (Hpk : prio k = pri s t) by (rewrite Ek; reflexivity).
  assert (F : frame s (ready_list_add t (on_task t (λ _, k) s))) by frames.
  assert (HS : stops (tasks s t) k) by (rewrite Ek; split; try reflexivity; [exact Et|auto]).
  assert (Erk : rdy1 k = Some (pri s t)) by (rewrite Ek; reflexivity).
  assert (ET : tasks (ready_list_add t (on_task t (λ _, k) s)) = upd (tasks s) t k) by (autorewrite with kern; reflexivity).
  apply (fine_calm H _ s); auto.
  - apply (KI_stop _ H s t k); auto; autorewrite with kern.
    + apply wob_none, E1.
    + reflexivity.
    + rewrite Erk. apply RQ_add; [apply (c_rq _ _ _ (i_core _ _ _ HK))|simpl; rewrite upd_eq; exact Hpk| |apply rdy_none; congruence].
      apply (k_prio _ _ _ (c_ok _ _ _ (i_core _ _ _ HK) t) Hl).
    + apply (TL_off _ _ _ _ (i_core _ _ _ HK) Et).
    + rewrite Ek. discriminate.
  - apply (calm_upd _ _ t k F ET); [congruence|rewrite Ek; auto|rewrite (st_tick _ _ HS); discriminate].
Qed.
Lemma resume_ok t s : Inv s → fine (krhino_task_resume t s).
Proof.
  intros HI. unfold krhino_task_resume, task_resume. assert (HI' := HI). destruct HI as (H & HK & HT & HP). cbv zeta. cbn [tasks on_task set_tasks]. rewrite upd_eq. simpl suspend_count.
  set (c := (suspend_count (tasks s t) - 1) mod 256).
  destruct (task_state (tasks s t)) eqn:Es; auto with kern.
  - destruct (c =? 0).
    + replace (on_task t (t_state K_RDY) (on_task t (λ k, t_suspend ((suspend_count k - 1) mod 256) k) s)) with (on_task t (λ _, t_state K_RDY (t_suspend c (tasks s t))) s).
      * apply (unsuspend_ok H); auto.
      * unfold on_task. simpl. rewrite upd_eq, upd_upd. reflexivity.
    + apply (relabel_sched H); auto; relabel.
  - destruct (c =? 0); [|apply (relabel_sched H); auto; relabel].
    replace (on_task t (t_state K_PEND) (on_task t (λ k, t_suspend ((suspend_count k - 1) mod 256) k) s)) with (on_task t (λ k, t_state K_PEND (t_suspend c k)) s).
    + apply (relabel_sched H); auto; relabel.
    + unfold on_task. simpl. rewrite upd_eq, upd_upd. reflexivity.
  - destruct (c =? 0); [|apply (relabel_sched H); auto; relabel].
    replace (on_task t (t_state K_SLEEP) (on_task t (λ k, t_suspend ((suspend_count k - 1) mod 256) k) s)) with (on_task t (λ k, t_state K_SLEEP (t_suspend c k)) s).
    + apply (relabel_sched H); auto; relabel.
    + unfold on_task. simpl. rewrite upd_eq, upd_upd. reflexivity.
Qed.
Lemma time_slice_set_ok t n s : Inv s → fine (Some (krhino_task_time_slice_set t n s)).
Proof.
  intros HI. unfold krhino_task_time_slice_set. destruct (0 <? _); [auto with kern|]. destruct HI as (H & HK & HT & HP). cbv zeta.
  set (v := if 0 <? n then n else RHINO_CONFIG_TIME_SLICE_DEFAULT).
  assert (R : relabels (tasks s t) (t_slice v (t_total v (tasks s t)))) by relabel.
  apply fine_ret, (Inv_still H s); auto.
  - eapply KI_relabel; eauto. unfold on_task. simpl. rewrite upd_eq, upd_upd. reflexivity.
  - pose proof (relabel_calm _ _ _ R) as C. unfold on_task. simpl. rewrite upd_eq, upd_upd. exact C.
Qed.
Lemma sched_policy_set_ok t p s : Inv s → fine (Some (krhino_sched_policy_set t p s)).
Proof.
  intros HI. unfold krhino_sched_policy_set. destruct (0 <? _); [auto with kern|]. destruct HI as (H & HK & HT & HP).
  assert (R : relabels (tasks s t) (t_policy p (tasks s t))) by relabel.
  apply fine_ret, (Inv_still H s); auto; [eapply KI_relabel; eauto; reflexivity|apply relabel_calm, R].
Qed.

(** ** The end of a wait or a sleep *)

Lemma ticks_tick_rm t s : on_tick (tasks s t) = true → g_tick_head (tick_list_rm t s) = klist_rm t (g_tick_head s).
Proof. unfold tick_list_rm. intros ->. reflexivity. Qed.
Lemma sleeping_facts Y H s t : KI Y H s → sleeping (tasks s t) = true →
  t ≠ g_idle_task ∧ live (tasks s t) = true ∧ tck s t = true ∧ rdy s t = None ∧ wob s t = None ∧ task_state (tasks s t) ≠ K_RDY ∧ pri_ok (pri s t).
Proof.
  intros HK Hs. assert (Hn : task_state (tasks s t) ≠ K_RDY) by (unfold sleeping in Hs; destruct (task_state _); congruence).
  assert (Hl : live (tasks s t) = true) by (unfold sleeping, live in *; destruct (task_state _); congruence).
  split; [apply (not_idle_state _ _ _ _ HK Hn)|]. split; [exact Hl|].
  split; [apply (k_sleep _ _ _ (c_ok _ _ _ (i_core _ _ _ HK) t) Hs)|]. split; [apply rdy_none, Hn|].
  split; [apply wob_none; unfold sleeping, pending in *; destruct (task_state _); congruence|]. split; [exact Hn|apply (k_prio _ _ _ (c_ok _ _ _ (i_core _ _ _ HK) t) Hl)].
Qed.
(** A sleeping task gets the block [k] and leaves the tick list. *)
Lemma sleep_end H s t k s' : KI nobody H s → sleeping (tasks s t) = true → stops (tasks s t) k → live k = true → frame s s' → tasks s' = upd (tasks s) t k → objs s' = objs s →
  g_tick_head s' = klist_rm t (g_tick_head s) → RQ (upd (rdy s) t (rdy1 k)) (g_ready_queue s') → KI nobody H s' ∧ calm s s'.
Proof.
  intros HK Hs HS Hl F E O L HQ. destruct (sleeping_facts _ _ _ _ HK Hs) as (Hi & Hl0 & Et & Er & Ew & Hn & Hp). split.
  - apply (KI_stop _ H s t k); auto; [|rewrite Hl; discriminate]. rewrite L. apply TL_rm, (c_tl _ _ _ (i_core _ _ _ HK)).
  - apply (calm_upd _ _ t k F E); [contradiction|auto|rewrite (st_tick _ _ HS); discriminate].
Qed.
(** A waiting task leaves because its time is over or the wait is aborted. *)
Lemma wait_end H s t st b : KI nobody H s → pending (tasks s t) = true → st = K_RDY ∨ st = K_SUSPENDED →
  let s0 := blk_list_rm t (tick_list_rm t s) in
  let s1 := match st with K_RDY => ready_list_add t s0 | _ => s0 end in
  ∃ s2, mutex_task_pri_reset t (on_task t (λ k, t_state st (t_blk b k)) s1) = Some s2 ∧
    KI nobody H (on_task t (t_blk_obj None) s2) ∧ calm s (on_task t (t_blk_obj None) s2) ∧ g_tick_head s2 = g_tick_head (tick_list_rm t s) ∧
    task_state (tasks s2 t) = st ∧ ∀ x, x ≠ t → t_prio 0 (tasks s2 x) = t_prio 0 (tasks s x).
Proof.
  intros HK Hp Hst s0 s1. assert (HC := i_core _ _ _ HK). destruct (pending_facts _ _ _ _ HC Hp) as (Hi & Er & Hok & o & Eb & Ew).
  set (k := t_state st (t_blk b (t_on_tick false (tasks s t)))).
  assert (T0 : tasks s0 = upd (tasks s) t (t_on_tick false (tasks s t))) by (unfold s0; autorewrite with kern; reflexivity).
  assert (Q0 : g_ready_queue s0 = g_ready_queue s) by (unfold s0; autorewrite with kern; reflexivity).
  assert (O0 : objs s0 = objs (blk_list_rm t s)).
  { unfold s0, blk_list_rm. autorewrite with kern. simpl. rewrite Eb. simpl. autorewrite with kern. reflexivity. }
  assert (A1 : tasks s1 = tasks s0 ∧ objs s1 = objs s0 ∧ g_tick_head s1 = g_tick_head (tick_list_rm t s) ∧ frame s s1 ∧ RQ (upd (rdy s) t (rdy1 k)) (g_ready_queue s1)).
  { assert (F0 : frame s s0) by (unfold s0; frames). assert (L0 : g_tick_head s0 = g_tick_head (tick_list_rm t s)) by (unfold s0; autorewrite with kern; reflexivity).
    unfold s1, k. destruct Hst as [->| ->].
    - autorewrite with kern. do 3 (split; [assumption || reflexivity|]). split; [eapply frame_trans; [exact F0|frames]|].
      apply RQ_add; [rewrite Q0; apply (c_rq _ _ _ HC)|rewrite T0, upd_eq; reflexivity|exact Hok|exact Er].
    - do 4 (split; [assumption || reflexivity|]). rewrite Q0. apply RQ_same; [apply (c_rq _ _ _ HC)|exact Er]. }
  destruct A1 as (T1 & O1 & L1 & F1 & Q1). set (s1' := on_task t (λ k, t_state st (t_blk b k)) s1).
  assert (HL : live k = true) by (destruct Hst as [->| ->]; reflexivity).
  assert (HS : stops (tasks s t) k).
  { split; try reflexivity; try (destruct Hst as [->| ->]; reflexivity). intros _. unfold pending, live in *. destruct (task_state (tasks s t)); congruence. }
  assert (T1' : tasks s1' = upd (tasks s) t k) by (unfold s1'; autorewrite with kern; rewrite T1, T0; autorewrite with kern; reflexivity).
  destruct (KI_leave nobody H s t o k s1' HK Ew HS) as (s2 & E2 & K2 & P2); auto.
  - unfold s1'. frames.
  - unfold s1'. simpl. rewrite O1. exact O0.
  - unfold s1'. simpl. rewrite L1. apply TL_leave; [apply (c_tl _ _ _ HC)|reflexivity].
  - rewrite HL. discriminate.
  - exists s2. split; [exact E2|].
    assert (R : relabels (tasks s2 t) (t_blk_obj None (tasks s2 t))).
    { split; try reflexivity. intros Hpd. exfalso. rewrite (keeps_field pending _ _ t (λ _ _, eq_refl) P2), T1', upd_eq, (st_pend _ _ HS) in Hpd. discriminate. }
    split; [eapply KI_relabel; eauto; reflexivity|]. split; [|split; [rewrite (kp_ticks _ _ P2); exact L1|]].
    2: { split; [rewrite (keeps_state _ _ _ P2), T1', upd_eq; reflexivity|]. intros x Hx. rewrite (kp_task _ _ P2), T1', upd_ne by exact Hx. reflexivity. }
    apply (still_trans _ s1'); [|apply (still_trans _ s2); [apply calm_keeps, P2|apply relabel_calm, R]].
    apply (calm_upd _ _ t k); auto; [unfold s1'; frames|unfold pending in Hp; destruct (task_state (tasks s t)); congruence|rewrite (st_tick _ _ HS); discriminate].
Qed.

Lemma wait_abort_ok t s : Inv s → fine (krhino_task_wait_abort t s).
Proof.
  intros HI. unfold krhino_task_wait_abort. destruct (0 <? _); [auto with kern|]. assert (HI' := HI). destruct HI as (H & HK & HT & HP).
  assert (Hsleep : sleeping (tasks s t) = true → fine (sched_ok (on_task t (λ k, t_blk BLK_ABORT (t_state K_RDY k)) (ready_list_add t (tick_list_rm t s))))).
  { intros Hs. destruct (sleeping_facts _ _ _ _ HK Hs) as (Hi & Hl & Et & Er & Ew & Hn & Hp).
    destruct (sleep_end H s t (t_blk BLK_ABORT (t_state K_RDY (t_on_tick false (tasks s t)))) (on_task t (λ k, t_blk BLK_ABORT (t_state K_RDY k)) (ready_list_add t (tick_list_rm t s)))) as [K1 C1]; auto.
    - split; auto.
    - frames.
    - autorewrite with kern. reflexivity.
    - autorewrite with kern. reflexivity.
    - autorewrite with kern. apply ticks_tick_rm, Et.
    - autorewrite with kern. apply RQ_add; autorewrite with kern; [apply (c_rq _ _ _ (i_core _ _ _ HK))|reflexivity|exact Hp|exact Er].
    - apply (fine_calm H _ s); auto. }
  assert (Hpend : pending (tasks s t) = true → fine (s2 ← mutex_task_pri_reset t (on_task t (λ k, t_blk BLK_ABORT (t_state K_RDY k)) (ready_list_add t (blk_list_rm t (tick_list_rm t s)))); sched_ok (on_task t (t_blk_obj None) s2))).
  { intros Hp. destruct (wait_end H s t K_RDY BLK_ABORT HK Hp (or_introl eq_refl)) as (s2 & E2 & K2 & C2 & _ & _).
    change (on_task t (λ k, t_blk BLK_ABORT (t_state K_RDY k))) with (on_task t (λ k, t_state K_RDY (t_blk BLK_ABORT k))). rewrite E2. cbn [mbind option_bind]. apply (fine_calm H _ s); auto. }
  destruct (task_state (tasks s t)) eqn:Es; auto with kern.
  - apply (fine_calm H _ s); auto with kern.
  - apply Hpend. unfold pending. rewrite Es. reflexivity.
  - change (on_task t (t_state K_RDY) s) with (on_task t (λ _, t_state K_RDY (tasks s t)) s).
    apply (unsuspend_ok H); auto.
  - apply Hpend. unfold pending. rewrite Es. reflexivity.
  - apply Hsleep. unfold sleeping. rewrite Es. reflexivity.
  - apply Hsleep. unfold sleeping. rewrite Es. reflexivity.
Qed.

(** ** Ticks *)

Lemma expire_ok H s t : KI nobody H s → tck s t = true →
  ∃ s', tick_expire t s = Some s' ∧ KI nobody H s' ∧ calm s s' ∧ g_tick_head s' = klist_rm t (g_tick_head s) ∧
    (task_state (tasks s' t) = K_RDY ∨ task_state (tasks s' t) = K_SUSPENDED) ∧ ∀ x, x ≠ t → t_prio 0 (tasks s' x) = t_prio 0 (tasks s x).
Proof.
  intros HK Et. assert (HC := i_core _ _ _ HK). assert (Hw := k_tick _ _ _ (c_ok _ _ _ HC t) Et). unfold tick_expire.
  destruct (task_state (tasks s t)) eqn:Es; unfold pending, sleeping in Hw; rewrite Es in Hw; try discriminate.
  - destruct (wait_end H s t K_RDY BLK_TIMEOUT HK) as (s2 & E2 & K2 & C2 & L2 & S2 & X2); [unfold pending; rewrite Es; reflexivity|auto|]. cbn zeta iota in E2. cbv zeta. rewrite E2.
    eexists. split; [reflexivity|]. split; [exact K2|]. split; [exact C2|]. split; [simpl; rewrite L2; apply ticks_tick_rm, Et|].
    split; [simpl; rewrite upd_eq; simpl; rewrite S2; auto|]. intros x Hx. simpl. rewrite upd_ne by exact Hx. apply X2, Hx.
  - destruct (wait_end H s t K_SUSPENDED BLK_TIMEOUT HK) as (s2 & E2 & K2 & C2 & L2 & S2 & X2); [unfold pending; rewrite Es; reflexivity|auto|]. cbn zeta iota in E2. cbv zeta. rewrite E2.
    eexists. split; [reflexivity|]. split; [exact K2|]. split; [exact C2|]. split; [simpl; rewrite L2; apply ticks_tick_rm, Et|].
    split; [simpl; rewrite upd_eq; simpl; rewrite S2; auto|]. intros x Hx. simpl. rewrite upd_ne by exact Hx. apply X2, Hx.
  - assert (Hs : sleeping (tasks s t) = true) by (unfold sleeping; rewrite Es; reflexivity). destruct (sleeping_facts _ _ _ _ HK Hs) as (Hi & Hl & _ & Er & Ew & Hn & Hp).
    eexists. split; [reflexivity|]. apply and_assoc. split.
    + apply (sleep_end H s t (t_on_tick false (t_state K_RDY (t_blk BLK_FINISH (tasks s t))))); auto; autorewrite with kern; auto.
      * split; auto.
      * frames.
      * rewrite ticks_tick_rm; [reflexivity|]. simpl. rewrite upd_eq. exact Et.
      * apply RQ_add; autorewrite with kern; [apply (c_rq _ _ _ HC)|reflexivity|exact Hp|exact Er].
    + split; [autorewrite with kern; rewrite ticks_tick_rm; [reflexivity|]; simpl; rewrite upd_eq; exact Et|].
      autorewrite with kern. split; [auto|]. intros x Hx. rewrite upd_ne by exact Hx. reflexivity.
  - assert (Hs : sleeping (tasks s t) = true) by (unfold sleeping; rewrite Es; reflexivity). destruct (sleeping_facts _ _ _ _ HK Hs) as (Hi & Hl & _ & Er & Ew & Hn & Hp).
    assert (L : g_tick_head (tick_list_rm t (on_task t (λ k, t_blk BLK_FINISH (t_state K_SUSPENDED k)) s)) = klist_rm t (g_tick_head s)).
    { rewrite ticks_tick_rm; [reflexivity|]. simpl. rewrite upd_eq. exact Et. }
    eexists. split; [reflexivity|]. apply and_assoc.
    split; [|split; [exact L|]; autorewrite with kern; split; [auto|]; intros x Hx; rewrite upd_ne by exact Hx; reflexivity].
    apply (sleep_end H s t (t_on_tick false (t_blk BLK_FINISH (t_state K_SUSPENDED (tasks s t))))); auto; autorewrite with kern; auto.
    + split; auto.
    + frames.
    + apply RQ_same; [apply (c_rq _ _ _ HC)|exact Er].
Qed.

(** A task whose time is over is due; the truncation to [int] does not hide it. *)
Lemma delta_zero s t : tick_wrap (tick_match (tasks s t) - g_tick_count s) = 0 → tick_delta t s = 0.
Proof.
  intros E. unfold tick_delta, to_int, tick_wrap in *.
  assert (Em : tick_match (tasks s t) mod 4294967296 = g_tick_count s mod 4294967296).
  { apply Z.mod_divide in E as [q E]; [|lia]. replace (tick_match (tasks s t)) with (g_tick_count s + q * 4294967296 * 4294967296) by lia. rewrite Z_mod_plus_full. reflexivity. }
  rewrite Em, Z.sub_diag. reflexivity.
Qed.
Lemma expire_all_ok H s l : KI nobody H s → l = g_tick_head s → ∃ s', tick_expire_all l s = Some s' ∧ KI nobody H s' ∧ calm s s' ∧ ticks_ok s'.
Proof.
  revert s. induction l as [|t l IH]; intros s HK El; simpl.
  - exists s. split; [reflexivity|]. split; [exact HK|]. split; [apply still_refl|]. intros x Hx. apply (tl_mem _ _ _ (c_tl _ _ _ (i_core _ _ _ HK))) in Hx. rewrite <- El in Hx. set_solver.
  - assert (HL := c_tl _ _ _ (i_core _ _ _ HK)). assert (Et : tck s t = true) by (apply (tl_mem _ _ _ HL); rewrite <- El; set_solver).
    destruct (Z.leb_spec (tick_delta t s) 0) as [Hd|Hd].
    + destruct (expire_ok H s t HK Et) as (s1 & E1 & K1 & C1 & L1 & _). rewrite E1. cbn [mbind option_bind].
      destruct (IH s1 K1) as (s2 & E2 & K2 & C2 & T2); [|exists s2; eauto using still_trans].
      rewrite L1, <- El. pose proof (tl_nodup _ _ _ HL) as HN. rewrite <- El in HN. apply NoDup_cons in HN as [HN _].
      unfold klist_rm. rewrite filter_cons_False by auto. symmetry. apply klist_rm_id, HN.
    + exists s. split; [reflexivity|]. split; [exact HK|]. split; [apply still_refl|]. intros x Hx. apply (tl_mem _ _ _ HL) in Hx. rewrite <- El in Hx.
      pose proof (tl_ord _ _ _ HL) as HO. rewrite <- El in HO. pose proof (ordered_head _ _ _ _ HO Hx) as Hle.
      assert (Hz : rem s t ≠ 0) by (intros Hz; rewrite (delta_zero _ _ Hz) in Hd; lia).
      assert (0 ≤ rem s t) by (unfold rem, rem1, tick_wrap; apply Z.mod_pos_bound; lia). lia.
Qed.
(** One tick passes: every time on the list is one tick shorter. *)
Lemma rem_tick s t : 1 ≤ rem s t → rem1 (tick_wrap (g_tick_count s + 1)) (tasks s t) = rem s t - 1.
Proof.
  unfold rem, rem1, tick_wrap. intros Hr. rewrite Zminus_mod_idemp_r. replace (tick_match (tasks s t) - (g_tick_count s + 1)) with (tick_match (tasks s t) - g_tick_count s - 1) by lia.
  rewrite <- Zminus_mod_idemp_l. pose proof (Z.mod_pos_bound (tick_match (tasks s t) - g_tick_count s) 18446744073709551616 ltac:(lia)). rewrite Z.mod_small; lia.
Qed.
Lemma KI_tick H s : KI nobody H s → ticks_ok s → KI nobody H (set_ticks (g_tick_head s) (tick_wrap (g_tick_count s + 1)) s).
Proof.
  intros [[Q B T M K I] HD W HO] HT. split; auto. split; auto. destruct T as [T1 T2 T3]. split; auto. simpl.
  clear T2. assert (Hall : ∀ x, x ∈ g_tick_head s → 1 ≤ rem s x) by (intros x Hx; apply HT, T1, Hx). revert Hall T3. generalize (g_tick_head s). clear T1.
  intros l Hall. induction 1 as [|x l Hl IH HF]; [constructor|]. constructor; [apply IH; set_solver|].
  rewrite Forall_forall in *. intros y Hy. specialize (HF y Hy). unfold rem at 1 2. simpl. rewrite !rem_tick by (apply Hall; set_solver). simpl in HF. lia.
Qed.
Lemma calm_cpu s s' : cpu_ok s → calm s s' → 0 < g_intrpt_nested_level s → cpu_ok s'.
Proof.
  intros [A1 A2 A3 A4 A5 A6] C Hl. split; rewrite ?(cm_active _ _ C), ?(cm_lock _ _ C), ?(cm_level _ _ C), ?(cm_running _ _ C); auto; try lia.
  - apply (cm_live _ _ C), A4.
  - intros Hr. apply (cm_rdy _ _ C), A5, Hr.
Qed.
Lemma slice_ok H s : KI nobody H s → ticks_ok s → cpu_ok s → 0 < g_intrpt_nested_level s → ∃ s', time_slice_update s = Some s' ∧ Inv s'.
Proof.
  intros HK HT HP Hl. unfold time_slice_update. assert (HI : Inv s) by (exists H; auto).
  assert (Hlev : ∀ s', KI nobody H s' → calm s s' → Inv s').
  { intros s' HK' C. exists H. split; [exact HK'|]. split; [exact (calm_ticks _ _ HT C)|exact (calm_cpu _ _ HP C Hl)]. }
  destruct (cur_list_item _ _) as [|t [|u l]] eqn:El; [eauto|eauto|]. destruct (sched_policy (tasks s t)); [eauto|]. cbv zeta.
  set (s1 := if 0 <? time_slice (tasks s t) then on_task t (t_slice (time_slice (tasks s t) - 1)) s else s).
  assert (A1 : KI nobody H s1 ∧ calm s s1 ∧ g_ready_queue s1 = g_ready_queue s ∧ pri s1 t = pri s t).
  { unfold s1. destruct (0 <? _); [|auto with kern]. assert (R : relabels (tasks s t) (t_slice (time_slice (tasks s t) - 1) (tasks s t))) by relabel.
    split; [eapply KI_relabel; eauto; reflexivity|]. split; [apply relabel_calm, R|]. split; [reflexivity|]. unfold pri. simpl. rewrite upd_eq. reflexivity. }
  destruct A1 as (K1 & C1 & Q1 & P1). destruct (0 <? time_slice (tasks s1 t)); [eauto|].
  assert (Ht : rdy s t = Some (prio (tasks s (g_active_task s)))) by (apply (rq_mem _ _ (c_rq _ _ _ (i_core _ _ _ HK))); rewrite El; set_solver).
  assert (Ep : prio (tasks s1 t) = prio (tasks s (g_active_task s))).
  { fold (pri s1 t). rewrite P1. unfold rdy, rdy1 in Ht. destruct (task_state (tasks s t)); try discriminate. injection Ht as Ht. exact Ht. }
  unfold ready_list_head_to_tail. rewrite Ep, Q1, El. cbn [mbind option_bind].
  eexists. split; [reflexivity|]. assert (K2 : KI nobody H (set_rq (rq_put (prio (tasks s (g_active_task s))) ((u :: l) ++ [t]) (g_ready_queue s)) s1)).
  { destruct K1 as [[Q B T M K I] HD W HO]. split; auto. split; auto. apply (rotate_ok (rdy s1) (g_ready_queue s)); [rewrite <- Q1; exact Q|exact El]. }
  assert (R : ∀ k v, relabels k (t_slice v k)) by (intros k v; relabel).
  apply Hlev; [eapply KI_relabel; [exact K2|apply R|reflexivity]|].
  apply (still_trans _ _ _ C1). eapply still_trans; [|apply relabel_calm, R]. split; auto.
Qed.
Lemma tick_proc_ok s : Inv s → 0 < g_intrpt_nested_level s → ∃ s', krhino_tick_proc s = Some s' ∧ Inv s'.
Proof.
  intros (H & HK & HT & HP) Hl. unfold krhino_tick_proc, tick_list_update. simpl.
  destruct (expire_all_ok H _ (g_tick_head s) (KI_tick H s HK HT) eq_refl) as (s1 & E1 & K1 & C1 & T1). rewrite E1. cbn [mbind option_bind].
  apply (slice_ok H); auto.
  - apply (calm_cpu (set_ticks (g_tick_head s) (tick_wrap (g_tick_count s + 1)) s)); auto. destruct HP. split; auto.
  - rewrite (cm_level _ _ C1). exact Hl.
Qed.

(** ** Interrupts *)

Lemma intrpt_enter_ok s : Inv s → g_intrpt_nested_level s < 255 → Inv (krhino_intrpt_enter s).
Proof.
  intros (H & HK & HT & [A B C D E F]) Hl. exists H. split; [apply (KI_cpu _ _ s); auto|]. split; [exact HT|].
  assert (El : (g_intrpt_nested_level s + 1) mod 256 = g_intrpt_nested_level s + 1) by (apply Z.mod_small; lia).
  split; simpl; rewrite ?El; auto; try lia. intros [?|?]; [lia|auto].
Qed.
Lemma intrpt_exit_ok s : Inv s → 0 < g_intrpt_nested_level s → g_intrpt_nested_level s ≤ 255 →
  ∃ s', krhino_intrpt_exit s = Some s' ∧ Inv s'.
Proof.
  intros (H & HK & HT & [A B C D E F]) Hl Hu. unfold krhino_intrpt_exit.
  assert (El : (g_intrpt_nested_level s - 1) mod 256 = g_intrpt_nested_level s - 1) by (apply Z.mod_small; lia).
  assert (K1 : KI nobody H (set_level ((g_intrpt_nested_level s - 1) mod 256) s)) by (apply (KI_cpu _ _ s); auto). cbv zeta. cbn [g_intrpt_nested_level set_level g_sched_lock g_ready_queue g_active_task]. rewrite El in *.
  destruct (Z.ltb_spec 0 (g_intrpt_nested_level s - 1)) as [Hn|Hn].
  { eexists. split; [reflexivity|]. exists H. split; [exact K1|]. split; [exact HT|]. split; simpl; auto; try lia. intros [?|?]; [lia|auto]. }
  destruct (Z.ltb_spec 0 (g_sched_lock s)) as [Hk|Hk].
  { eexists. split; [reflexivity|]. exists H. split; [exact K1|]. split; [exact HT|]. split; simpl; auto; lia. }
  destruct (switch_inv H _ K1 HT A) as (t & Ep & HI); [simpl; lia|simpl; lia|]. simpl in Ep. rewrite Ep. cbn [mbind option_bind]. eexists. split; [reflexivity|]. exact HI.
Qed.
