(* ===== verification/KernelLife.v ===== *)
(** * KernelLife: creation and deletion of tasks, and changes of their priority *)
From Stdlib Require Import ZArith Lia List Bool FunctionalExtensionality.
From stdpp Require Import base list numbers option sorting sets.
From S2P Require Import Prelude Kernel KernelQueue KernelInv KernelPri KernelMoves KernelOps KernelTasks.
Local Open Scope Z_scope.

(** ** Creation *)

(** A block that is free for a new task. *)
Definition free_task (t : nat) (s : kern) : Prop := live (tasks s t) = false ∧ (t < n_tasks s)%nat.
Record fresh (k : ktask_t) : Prop := mkFresh {
  fs_pend : pending k = false; fs_sleep : sleeping k = false; fs_tick : on_tick k = false; fs_mutex : mutex_list k = None;
  fs_prio : pri_ok (prio k); fs_base : b_prio k = prio k; fs_live : live k = true }.
Lemma dead_facts Y H s t : KI Y H s → live (tasks s t) = false → rdy s t = None ∧ wob s t = None ∧ tck s t = false ∧ t ≠ g_idle_task ∧ ∀ x, boss (owner s) s x ≠ Some t.
Proof.
  intros HK Hd. assert (HC := i_core _ _ _ HK). assert (Hp : pending (tasks s t) = false) by (unfold live, pending in *; destruct (task_state _); congruence).
  assert (Hs : sleeping (tasks s t) = false) by (unfold live, sleeping in *; destruct (task_state _); congruence).
  split; [apply rdy_none; unfold live in Hd; destruct (task_state _); congruence|]. split; [apply wob_none, Hp|]. split; [apply (tl_off _ _ _ _ HC Hp Hs)|].
  split; [intros ->; unfold live in Hd; rewrite (id_state _ _ (c_idle _ _ _ HC)) in Hd; discriminate|].
  intros x Hb. destruct (boss_live _ _ _ _ _ HC Hb) as [Hl _]. congruence.
Qed.
Lemma KI_new Y H s t k s' : KI Y H s → free_task t s → fresh k → frame s s' → tasks s' = upd (tasks s) t k → objs s' = objs s → g_tick_head s' = g_tick_head s →
  RQ (upd (rdy s) t (rdy1 k)) (g_ready_queue s') → KI Y H s'.
Proof.
  intros HK [Hd Hlt] [F1 F2 F3 F4 F5 F6 F7] F E O L HQ. destruct (dead_facts _ _ _ _ HK Hd) as (Er & Ew & Et & Hi & Hb). destruct HK as [HC HD W HO].
  assert (Ewk : wob1 k = None) by (unfold wob1; rewrite F1; reflexivity).
  assert (Ewob : wob s' = wob s) by (apply functional_extensionality; intros x; unfold wob; rewrite E; at_task x t; [rewrite Ewk; symmetry; exact Ew|reflexivity]).
  split; rewrite ?(frame_owners _ _ F).
  - apply (Core_task _ H s t k); auto.
    + rewrite O, Ewk, (upd_id (wob s)) by exact Ew. apply BL_pri; [apply (c_bl _ _ _ HC)|exact Ew].
    + rewrite L, F3, (upd_id (tck s)) by exact Et. apply (TL_ext _ _ _ _ _ (c_tl _ _ _ HC)); [reflexivity|]. intros x Hx. apply upd_ne. congruence.
    + split; rewrite ?F1, ?F2, ?F3, ?F6; auto; try discriminate. apply F5.
    + intros _. rewrite F4. destruct (H t) as [|o l] eqn:EH; [reflexivity|]. exfalso.
      assert (owner s o = Some t) as Ho by (apply (ml_mem _ _ _ _ _ _ (c_ml _ _ _ HC)); rewrite EH; set_solver). apply (ml_live _ _ _ _ _ _ (c_ml _ _ _ HC)) in Ho. simpl in Ho. congruence.
    + rewrite F7. discriminate.
  - intros m Hm _. unfold boss. rewrite Ewob. destruct (Nat.eq_dec m t) as [->|Hn].
    + assert (Ep : pri s' t = prio k) by (unfold pri; rewrite E, upd_eq; reflexivity). assert (Ebs : base s' t = prio k) by (unfold base; rewrite E, upd_eq; exact F6).
      rewrite Ep. split; [rewrite Ebs; lia|intros x Hx; destruct (Hb x Hx)|discriminate|auto].
    + assert (Hm' : live (tasks s m) = true) by (rewrite E, upd_ne in Hm by exact Hn; exact Hm).
      assert (Epm : pri s' m = pri s m) by (unfold pri; rewrite E, upd_ne by exact Hn; reflexivity). rewrite Epm.
      apply (dem_ext _ _ _ _ _ _ _ _ _ _ (HD m Hm' (λ f, f))); try reflexivity; [unfold base; rewrite E, upd_ne by exact Hn; reflexivity|].
      intros x Hx. unfold pri. rewrite E, upd_ne; [reflexivity|]. intros ->. unfold boss, boss_of in Hx. rewrite Ew in Hx. discriminate.
  - intros x o. rewrite Ewob, (frame_type _ _ _ F). apply W.
  - apply (objs_ok_frame _ _ _ F); [|exact HO]. rewrite O. auto.
Qed.
Lemma KI_idle Y H b s : KI Y H s → KI Y H (set_idle b s).
Proof. intros HK. apply (KI_cpu _ _ s); auto. Qed.

Lemma task_create_ok t p n st auto fl s : Inv s → free_task t s → 0 ≤ p → fine (task_create t p n st auto fl s).
Proof.
  intros HI Hf Hp. unfold task_create. destruct (st =? 0); [auto with kern|]. unfold RHINO_CONFIG_PRI_MAX. destruct (Z.leb_spec 62 p) as [?|Hlt]; [auto with kern|].
  destruct (0 <? g_intrpt_nested_level s) eqn:El; [auto with kern|]. destruct (_ && _); [auto with kern|]. destruct HI as (H & HK & HT & HP). cbv zeta.
  set (s1 := if p =? RHINO_IDLE_PRI then set_idle true s else s).
  assert (A1 : KI nobody H s1 ∧ calm s s1 ∧ free_task t s1 ∧ running s1 = running s).
  { unfold s1. destruct (p =? RHINO_IDLE_PRI); [|auto with kern]. split; [apply KI_idle, HK|]. split; [split; auto|]. auto. }
  destruct A1 as (K1 & C1 & Hf1 & R1). set (k := new_task p n auto fl).
  assert (HF : fresh k) by (unfold k, new_task; split; try reflexivity; try (destruct auto; reflexivity); split; assumption).
  destruct (dead_facts _ _ _ _ K1 (proj1 Hf1)) as (Er & _ & Et & Hi & _).
  assert (Hact : t ≠ g_active_task s1).
  { intros ->. destruct Hf1 as [Hd _]. rewrite (cm_live _ _ C1) in Hd; [discriminate|]. rewrite (cm_active _ _ C1). apply (cpu_live _ HP). }
  assert (Hc : ∀ s', frame s1 s' → tasks s' = upd (tasks s1) t k → calm s1 s').
  { intros s' F E. apply (calm_upd _ _ t k F E); [intros Hs; destruct Hf1 as [Hd _]; unfold live in Hd; rewrite Hs in Hd; discriminate|rewrite (fs_live _ HF); auto|rewrite (fs_tick _ HF); discriminate]. }
  change (on_task t (λ _, new_task p n auto fl) s1) with (on_task t (λ _, k) s1). destruct auto.
  - set (s3 := ready_list_add_tail t (on_task t (λ _, k) s1)).
    assert (F : frame s1 s3) by (unfold s3, ready_list_add_tail; eapply frame_trans; [apply (frame_on_task t (λ _, k))|apply frame_rq]).
    assert (K3 : KI nobody H s3).
    { apply (KI_new nobody H s1 t k); auto. unfold s3, ready_list_add_tail. simpl. rewrite upd_eq. apply rq_add_tail_ok; [apply (c_rq _ _ _ (i_core _ _ _ K1))|apply (fs_prio _ HF)|exact Er]. }
    rewrite (cpu_running _ HP). apply (fine_calm H _ s); auto. eapply still_trans; [exact C1|]. apply Hc; auto.
  - apply fine_ret, (Inv_still H s); auto.
    + apply (KI_new nobody H s1 t k); auto using frame_on_task. apply RQ_same; [apply (c_rq _ _ _ (i_core _ _ _ K1))|exact Er].
    + eapply still_trans; [exact C1|]. apply Hc; auto using frame_on_task.
    + simpl. unfold s1. destruct (_ =? _); reflexivity.
Qed.

(** ** Change of the base priority *)

Lemma head_min_ext s s' l a : (∀ m, blk_list (objs s' m) = blk_list (objs s m)) → (∀ x, pri s' x = pri s x) → head_min s' a l = head_min s a l.
Proof.
  intros Hb Hp. unfold head_min. revert a. induction l as [|m l IH]; intros a; simpl; [reflexivity|]. rewrite IH, Hb. destruct (blk_list (objs s m)) as [|x r]; [reflexivity|].
  fold (pri s' x) (pri s x). rewrite Hp. reflexivity.
Qed.
Lemma pri_change_ok t p s : Inv s → 0 ≤ p → task_state (tasks s t) ≠ K_SEED → fine (krhino_task_pri_change t p s).
Proof.
  intros HI Hp Hs. unfold krhino_task_pri_change. destruct (Z.leb_spec RHINO_IDLE_PRI (prio (tasks s t))) as [?|Hlt]; [auto with kern|].
  destruct (Z.leb_spec RHINO_IDLE_PRI p) as [?|Hlp]; [auto with kern|]. destruct (decide _) as [?|Hdel]; [auto with kern|]. destruct (0 <? _); [auto with kern|].
  destruct HI as (H & HK & HT & HP). assert (HC := i_core _ _ _ HK). assert (Hl : live (tasks s t) = true) by (unfold live; destruct (task_state _); congruence).
  assert (Hi : t ≠ g_idle_task) by (apply (not_idle_pri _ _ _ _ HK); lia).
  assert (Elim : mutex_pri_limit t p s = Some (head_min s p (H t))) by (apply mutex_pri_limit_loop_ok; [apply (core_chain _ _ _ HC), Hl|eapply chain_length, HC|lia]).
  rewrite Elim. cbn [mbind option_bind]. set (k := t_b_prio p (tasks s t)). set (s1 := on_task t (t_b_prio p) s).
  assert (F : frame s s1) by apply frame_on_task. assert (E : tasks s1 = upd (tasks s) t k) by reflexivity.
  assert (Hpok : pri_ok p) by (unfold pri_ok, RHINO_CONFIG_PRI_MAX, RHINO_IDLE_PRI, RHINO_CONFIG_PRI_MAX in *; lia).
  assert (Ex : ∀ A (g : ktask_t → A), (∀ k v, g (t_b_prio v k) = g k) → (λ x, g (tasks s1 x)) = (λ x, g (tasks s x))).
  { intros A g Hg. apply functional_extensionality. intros x. rewrite E. at_task x t; [apply Hg|reflexivity]. }
  assert (C1 : Core (owner s) H s1).
  { apply (Core_task _ H s t k); auto.
    - apply RQ_same; [apply (c_rq _ _ _ HC)|reflexivity].
    - apply BL_same; [apply (c_bl _ _ _ HC)|reflexivity|reflexivity].
    - apply TL_same; [apply (c_tl _ _ _ HC)|reflexivity|reflexivity].
    - destruct (c_ok _ _ _ HC t) as [A B U C D G I]. split; auto.
    - apply (core_chain _ _ _ HC).
    - apply (core_dead _ _ _ HC). }
  assert (Ew : wob s1 = wob s) by (apply (Ex _ wob1); reflexivity). assert (Ep : pri s1 = pri s) by (apply (Ex _ prio); reflexivity).
  destruct (task_pri_change_ok (owner s) H t (head_min s p (H t)) s1) as (s2 & E2 & C2 & K2 & D2).
  - assert (Hd : demand (owner s) no_extra s1 t (head_min s p (H t))).
    { rewrite <- (head_min_ext s s1) by (intros; try reflexivity; rewrite Ep; reflexivity).
      replace p with (base s1 t) by (unfold base; rewrite E, upd_eq; reflexivity). apply head_min_demand, C1. }
    assert (Hl1 : live (tasks s1 t) = true) by (rewrite E, upd_eq; exact Hl).
    split; auto.
    + intros _ x o. rewrite Ew. apply HK.
    + exact (owns_owner s).
    + apply (demand_ok _ _ _ _ _ _ C1 Hl1 Hd). discriminate.
    + intros m Hm Hn. unfold boss. rewrite Ew, Ep. rewrite (equal_f (Ex _ live (λ _ _, eq_refl)) m) in Hm.
      apply (dem_ext _ _ _ _ _ _ _ _ _ _ (i_due _ _ _ HK m Hm (λ f, f))); try reflexivity. unfold base. rewrite E, upd_ne by exact Hn. reflexivity.
  - rewrite E2. cbn [mbind option_bind]. assert (F2 := frame_trans _ _ _ F (kp_frame _ _ K2)).
    apply (fine_calm H _ s); auto.
    + split; rewrite ?(frame_owners _ _ F2); auto.
      * intros x o. rewrite (keeps_wob _ _ _ K2), Ew, (frame_type _ _ _ F2). apply HK.
      * apply (objs_ok_frame _ _ _ F2); [|apply HK]. intros o. apply (empty_kept _ _ _ _ _ _ o C1 C2). intros x. apply keeps_wob, K2.
    + apply (still_trans _ s1); [|apply calm_keeps, K2]. apply (calm_upd _ _ t k F E); auto.
Qed.

(** ** Deletion *)

(** While the mutexes of [t] are given away its chain is not a chain any more.  The proof follows
    a state in which [t] has no mutexes and no claim to another priority than it has, and
    puts the fields [g] changes back at the end. *)
Section aside.
Context (t : nat) (g : ktask_t → ktask_t) (Hg : ∀ k, prio (g k) = prio k).

Lemma upd_comm {A} (f : nat → A) x y a b : x ≠ y → upd (upd f x a) y b = upd (upd f y b) x a.
Proof. intros Hn. apply functional_extensionality. intros z. unfold upd. destruct (Nat.eqb_spec z x); destruct (Nat.eqb_spec z y); congruence. Qed.
Lemma aside_at x s : x ≠ t → tasks (on_task t g s) x = tasks s x.
Proof. intros Hx. simpl. apply upd_ne, Hx. Qed.
Lemma aside_prio x s : prio (tasks (on_task t g s) x) = prio (tasks s x).
Proof. simpl. at_task x t; auto. Qed.
Lemma aside_on_task x f s : x ≠ t → on_task x f (on_task t g s) = on_task t g (on_task x f s).
Proof. intros Hx. unfold on_task, set_tasks. simpl. rewrite (upd_ne _ t _ x) by exact Hx. rewrite (upd_ne _ x _ t) by auto. rewrite upd_comm by auto. reflexivity. Qed.
Lemma aside_add x s : ready_list_add x (on_task t g s) = on_task t g (ready_list_add x s).
Proof.
  unfold ready_list_add. rewrite !aside_prio. change (g_active_task (on_task t g s)) with (g_active_task s). destruct (_ =? _).
  - unfold ready_list_add_tail. rewrite aside_prio. reflexivity.
  - unfold ready_list_add_head. rewrite aside_prio. reflexivity.
Qed.
Lemma aside_blk_rm x s : x ≠ t → blk_list_rm x (on_task t g s) = on_task t g (blk_list_rm x s).
Proof. intros Hx. unfold blk_list_rm. rewrite aside_at by exact Hx. destruct (blk_obj _); reflexivity. Qed.
Lemma aside_tick_rm x s : x ≠ t → tick_list_rm x (on_task t g s) = on_task t g (tick_list_rm x s).
Proof.
  intros Hx. unfold tick_list_rm. rewrite aside_at by exact Hx. destruct (on_tick _); [|reflexivity]. rewrite <- aside_on_task by exact Hx. reflexivity.
Qed.
Lemma aside_wake x s : x ≠ t → pend_task_wakeup x (on_task t g s) = on_task t g <$> pend_task_wakeup x s.
Proof.
  intros Hx. unfold pend_task_wakeup, pend_wake. rewrite aside_at by exact Hx.
  destruct (task_state (tasks s x)); try reflexivity; cbn [mbind option_bind fmap option_fmap option_map];
    rewrite aside_blk_rm, ?aside_add, aside_on_task, aside_tick_rm, !aside_on_task by exact Hx; reflexivity.
Qed.
Lemma aside_own o x s : x ≠ t → mutex_own o x (on_task t g s) = on_task t g (mutex_own o x s).
Proof.
  intros Hx. unfold mutex_own. rewrite aside_at by exact Hx. rewrite <- aside_on_task by exact Hx. reflexivity.
Qed.
End aside.

(** The mutexes [l] of [t] are not in a chain; they are given away one by one. *)
Record giving (own : nat → option nat) (H : nat → list nat) (t : nat) (p : option nat) (l : list nat) (s : kern) : Prop := mkGiving {
  gv_core : Core own H s; gv_due : due own no_extra nobody s; gv_objs : objs_ok nobody s;
  gv_chain : chain (λ o, mutex_next (objs s o)) p l; gv_nodup : NoDup l;
  gv_list : ∀ o, o ∈ l → own o = None ∧ obj_type (objs s o) = RHINO_MUTEX_OBJ_TYPE; gv_self : ∀ x o, o ∈ l → wob s x = Some o → x ≠ t;
  gv_own : ∀ o, o ∉ l → own o = owner s o; gv_none : ∀ o, own o ≠ Some t;
  gv_waits : ∀ x o, wob s x = Some o → obj_type (objs s o) = RHINO_MUTEX_OBJ_TYPE → o ∉ l → ∃ m, own o = Some m ∧ m ≠ x }.
Lemma give_waiter own H t p o l s x r : giving own H t p (o :: l) s → blk_list (objs s o) = x :: r →
  x ≠ t ∧ ∃ s1, pend_task_wakeup x s = Some s1 ∧ giving (upd own o (Some x)) (upd H x (o :: H x)) t (mutex_next (objs s o)) l (mutex_own o x s1) ∧
    calm s (mutex_own o x s1) ∧ tasks (mutex_own o x s1) t = tasks s t.
Proof.
  intros [HC HD HO Hch HN Hl Hself Hown Hnone W] El. destruct Hch as [_ Hch]. apply NoDup_cons in HN as [Ho HN]. destruct (Hl o ltac:(set_solver)) as [Eown Ety].
  assert (Hx : x ≠ t) by (apply (Hself x o ltac:(set_solver)); apply (bl_mem _ _ _ (c_bl _ _ _ HC)); rewrite El; set_solver).
  split; [exact Hx|]. destruct (hand_over own H nobody s o x r HC HD Eown) as (s1 & E1 & HH & D1); [apply HO; rewrite Ety; discriminate|exact El|].
  exists s1. split; [exact E1|]. set (s2 := mutex_own o x s1) in *. destruct HH as [B1 B2 B3 B4 B5 B6 B7 B8]. split; [|split; [exact B2|apply B8; auto]].
  assert (Hne : ∀ y, y ∈ l → y ≠ o) by (intros y Hy ->; auto). split; auto.
  - intros y. rewrite B4, (cm_no _ _ B2). destruct (HO y) as [A B]. split; [|exact B]. intros Hty Hn. apply B7, A; assumption.
  - eapply chain_ext; [|exact Hch]. intros y Hy. apply B6, Hne, Hy.
  - intros y Hy. rewrite B4, upd_ne by (apply Hne, Hy). apply Hl. set_solver.
  - intros z y Hy. rewrite B3. at_task z x; [discriminate|]. apply Hself. set_solver.
  - intros y Hy. unfold owner, owner1. rewrite B4, B5. destruct (Nat.eq_dec y o) as [->|Hn]; [rewrite !upd_eq, Ety; reflexivity|].
    rewrite !upd_ne by exact Hn. rewrite Hown by set_solver. reflexivity.
  - intros y. destruct (Nat.eq_dec y o) as [->|Hn]; [rewrite upd_eq; congruence|rewrite upd_ne by exact Hn; apply Hnone].
  - intros z y. rewrite B3, B4. at_task z x; [discriminate|]. intros Hy Hty Hyl. destruct (Nat.eq_dec y o) as [->|Hn]; [exists x; rewrite upd_eq; auto|].
    rewrite upd_ne by exact Hn. apply (W z y Hy Hty). set_solver.
Qed.
Lemma give_nobody own H t p o l s : giving own H t p (o :: l) s → blk_list (objs s o) = [] → giving own H t (mutex_next (objs s o)) l (on_obj o (o_owner None) s).
Proof.
  intros [HC HD HO Hch HN Hl Hself Hown Hnone W] El. destruct Hch as [_ Hch]. apply NoDup_cons in HN as [Ho HN]. destruct (Hl o ltac:(set_solver)) as [Eown Ety].
  assert (Ex : ∀ A (F : kobj → A), (∀ b, F (o_owner None b) = F b) → ∀ y, F (objs (on_obj o (o_owner None) s) y) = F (objs s y)).
  { intros A F HF y. simpl. destruct (Nat.eq_dec y o) as [->|Hy]; [rewrite upd_eq; apply HF|rewrite upd_ne by exact Hy; reflexivity]. }
  split; auto.
  - apply Core_obj; auto.
  - intros y. rewrite (Ex _ obj_type (λ _, eq_refl)), (Ex _ blk_list (λ _, eq_refl)). apply HO.
  - eapply chain_ext; [|exact Hch]. intros y Hy. apply (Ex _ mutex_next (λ _, eq_refl)).
  - intros y Hy. rewrite (Ex _ obj_type (λ _, eq_refl)). apply Hl. set_solver.
  - intros z y Hy. apply Hself. set_solver.
  - intros y Hy. destruct (Nat.eq_dec y o) as [->|Hn].
    + rewrite Eown. unfold owner. simpl. rewrite upd_eq. unfold owner1. simpl. rewrite Ety. reflexivity.
    + rewrite Hown by set_solver. unfold owner. simpl. rewrite upd_ne by exact Hn. reflexivity.
  - intros z y Hy. rewrite (Ex _ obj_type (λ _, eq_refl)). intros Hty Hyl. destruct (Nat.eq_dec y o) as [->|Hn]; [|apply (W z y Hy Hty); set_solver].
    change (wob (on_obj o (o_owner None) s) z) with (wob s z) in Hy. apply (bl_mem _ _ _ (c_bl _ _ _ HC)) in Hy. rewrite El in Hy. set_solver.
Qed.
Lemma free_loop t g fuel own H p l s : (∀ k, prio (g k) = prio k) → giving own H t p l s → (length l ≤ fuel)%nat →
  ∃ s' H', task_mutex_free_loop fuel p (on_task t g s) = Some (on_task t g s') ∧ KI nobody H' s' ∧ calm s s' ∧ tasks s' t = tasks s t ∧ ∀ o, owner s' o ≠ Some t.
Proof.
  intros Hg. revert own H p l s. induction fuel as [|fuel IH]; intros own H p l s G Hf; destruct l as [|o l]; try (simpl in Hf; lia).
  1,2: pose proof (gv_chain _ _ _ _ _ _ G) as Ep; simpl in Ep; subst p; exists s, H;
    assert (Eo : own = owner s) by (apply functional_extensionality; intros o; apply (gv_own _ _ _ _ _ _ G); set_solver); subst own; destruct G as [HC HD HO _ _ _ _ _ Hnone W];
    (split; [reflexivity|]); (split; [split; auto; intros x o Hx Hty; apply (W x o Hx Hty); set_solver|]); split; auto with kern.
  assert (Ep := gv_chain _ _ _ _ _ _ G). destruct Ep as [-> _]. simpl in Hf.
  cbn [task_mutex_free_loop]. change (objs (on_task t g s)) with (objs s). destruct (blk_list (objs s o)) as [|x r] eqn:El.
  - change (on_obj o (o_owner None) (on_task t g s)) with (on_task t g (on_obj o (o_owner None) s)).
    destruct (IH own H _ l _ (give_nobody _ _ _ _ _ _ _ G El)) as (s' & H' & E & K & C & T & O); [lia|].
    exists s', H'. split; [exact E|]. split; [exact K|]. split; [eapply still_trans; [apply calm_obj|exact C]|]. auto.
  - destruct (give_waiter _ _ _ _ _ _ _ _ _ G El) as (Hx & s1 & E1 & G1 & C1 & T1). rewrite (aside_wake t g Hg x s Hx), E1. cbn [fmap option_fmap option_map mbind option_bind].
    rewrite (aside_own t g o x s1 Hx). destruct (IH _ _ _ l _ G1) as (s' & H' & E & K & C & T & O); [lia|].
    exists s', H'. split; [exact E|]. split; [exact K|]. split; [eapply still_trans; eauto|]. split; [congruence|exact O].
Qed.

(** The state the proof follows, and what puts it back. *)
Definition bare (k : ktask_t) : ktask_t := t_b_prio (prio k) (t_mutexes None k).
Definition put_back (k0 k : ktask_t) : ktask_t := t_b_prio (b_prio k0) (t_mutexes (mutex_list k0) k).
Lemma put_back_bare t s : on_task t (put_back (tasks s t)) (on_task t bare s) = s.
Proof.
  unfold on_task, set_tasks. simpl. rewrite upd_eq, upd_upd, upd_id; [destruct s; reflexivity|]. destruct (tasks s t); reflexivity.
Qed.
Definition without (t : nat) (own : nat → option nat) (o : nat) : option nat := if decide (own o = Some t) then None else own o.
Lemma without_some t own o m : without t own o = Some m ↔ own o = Some m ∧ m ≠ t.
Proof. unfold without. destruct (decide (own o = Some t)) as [E|E]; [rewrite E; split; [discriminate|intros [[= ->] []]; reflexivity]|]. split; [intros H; split; congruence|intros [H _]; exact H]. Qed.

Lemma bare_giving H s t : KI nobody H s → live (tasks s t) = true → t ≠ g_idle_task →
  giving (without t (owner s)) (upd H t []) t (mutex_list (tasks s t)) (H t) (on_task t bare s).
Proof.
  intros [HC HD W HO] Hl Hi. destruct (c_ml _ _ _ HC) as [Mc Mm Mn Ml Mb]. set (own := without t (owner s)).
  set (s1 := on_task t (t_mutexes None) s). assert (R : relinked s s1) by (split; try reflexivity; intros x; unfold s1; simpl; at_task x t; reflexivity).
  assert (C1 : Core own (upd H t []) s1).
  { apply (Core_relink (owner s) H _ _ _ _ HC R).
    - split.
      + intros x Hx. unfold s1. simpl. at_task x t; [reflexivity|apply Mc, Hx].
      + intros o x. unfold own. rewrite without_some, <- Mm. at_task x t; [set_solver|]. split; [auto|intros [? _]; assumption].
      + intros x. at_task x t; [constructor|apply Mn].
      + intros o x Ho. apply without_some in Ho as [Ho _]. apply (Ml o x Ho).
      + intros o x Ho. apply without_some in Ho as [Ho _]. apply (Mb o x Ho).
    - intros o Ho. apply without_some in Ho as [Ho _]. apply (id_own _ _ (c_idle _ _ _ HC) o Ho). }
  set (s2 := on_task t bare s). assert (F : frame s1 s2) by (split; reflexivity).
  assert (T2 : tasks s2 = upd (tasks s1) t (bare (tasks s t))) by (unfold s1, s2; simpl; rewrite upd_upd; reflexivity).
  assert (E1 : tasks s1 t = t_mutexes None (tasks s t)) by (unfold s1; simpl; apply upd_eq).
  assert (Ex : ∀ A (F : ktask_t → A), (∀ k, F (bare k) = F k) → (λ x, F (tasks s2 x)) = (λ x, F (tasks s x))).
  { intros A F' HF. apply functional_extensionality. intros x. unfold s2. simpl. at_task x t; [apply HF|reflexivity]. }
  assert (Ew : wob s2 = wob s) by (apply (Ex _ wob1); reflexivity). assert (Ep : pri s2 = pri s) by (apply (Ex _ prio); reflexivity).
  split; auto.
  - apply (Core_task own (upd H t []) s1 t (bare (tasks s t))); auto.
    + apply RQ_same; [apply (c_rq _ _ _ C1)|unfold rdy; rewrite E1; reflexivity].
    + apply BL_same; [apply (c_bl _ _ _ C1)|unfold wob; rewrite E1; reflexivity|unfold pri; rewrite E1; reflexivity].
    + apply TL_same; [apply (c_tl _ _ _ C1)|unfold tck; rewrite E1; reflexivity|unfold rem; rewrite E1; reflexivity].
    + destruct (c_ok _ _ _ HC t) as [A B U C D E G]. split; auto.
    + intros _. rewrite upd_eq. reflexivity.
    + unfold live, bare in *. simpl. intros Hd. unfold live in Hl. rewrite Hl in Hd. discriminate.
  - intros m Hm _. unfold boss. rewrite Ew, Ep. rewrite (equal_f (Ex _ live (λ _, eq_refl)) m) in Hm. destruct (Nat.eq_dec m t) as [->|Hn].
    + assert (Eb : base s2 t = pri s t) by (unfold base, s2; simpl; rewrite upd_eq; reflexivity). split; [rewrite Eb; lia| |discriminate|auto].
      intros x Hx. unfold boss_of in Hx. destruct (wob s x) as [o|]; [|discriminate]. simpl in Hx. apply without_some in Hx as [_ Hx]. congruence.
    + apply (dem_ext _ _ _ _ _ _ _ _ _ _ (HD m Hm (λ f, f))); try reflexivity; [unfold base, s2; simpl; rewrite upd_ne by exact Hn; reflexivity|].
      intros x. unfold boss, boss_of. destruct (wob s x) as [o|]; [|reflexivity]. simpl. unfold own. rewrite without_some. split; [intros [? _]; assumption|auto].
  - intros o Ho. apply Mm in Ho. split; [unfold own, without; rewrite Ho; destruct (decide _); congruence|]. apply (owns_owner s o t Ho).
  - intros x o Ho Hx ->. rewrite Ew in Hx. apply Mm in Ho. destruct (W t o Hx) as (m & Hm & Hne); [apply (owns_owner s o t Ho)|congruence].
  - intros o Ho. unfold own, without. destruct (decide (owner s o = Some t)) as [E|E]; [destruct Ho; apply Mm, E|reflexivity].
  - intros o Ho. apply without_some in Ho as [_ Ho]. congruence.
  - intros x o. rewrite Ew. intros Hx Hty Ho. destruct (W x o Hx Hty) as (m & Hm & Hne). exists m. split; [|exact Hne]. apply without_some. split; [exact Hm|].
    intros ->. apply Ho, Mm, Hm.
Qed.

(** [t], which holds nothing any more, leaves the kernel; [g] puts fields back that are of no use to it. *)
Section gone.
Context (H : nat → list nat) (s : kern) (t : nat) (g : ktask_t → ktask_t) (HK : KI nobody H s) (Hi : t ≠ g_idle_task) (Ho : ∀ o, owner s o ≠ Some t).
Context (G1 : ∀ k, prio (g k) = prio k) (G2 : ∀ k, task_state (g k) = task_state k) (G3 : ∀ k, on_tick (g k) = on_tick k) (G4 : ∀ k, blk_obj (g k) = blk_obj k).
(** The result: [s1] is the state in which [t] is off all lists. *)
Definition gone (r : option kern) : Prop :=
  ∃ s1 s2 k, r = Some s2 ∧ KI nobody H s2 ∧ frame s s1 ∧ tasks s1 = upd (tasks s) t k ∧ on_tick k = false ∧ calm s1 s2.

Lemma gone_stops k : prio k = prio (tasks s t) → task_state k = K_DELETED → on_tick k = false → stops (tasks s t) k.
Proof. intros E1 E2 E3. split; auto; unfold pending, sleeping, live; rewrite E2; try reflexivity; discriminate. Qed.
Lemma gone_now k s1 : frame s s1 → tasks s1 = upd (tasks s) t k → prio k = prio (tasks s t) → task_state k = K_DELETED → on_tick k = false → wob s t = None → objs s1 = objs s →
  RQ (upd (rdy s) t None) (g_ready_queue s1) → TL (upd (tck s) t false) (rem s) (g_tick_head s1) → gone (Some s1).
Proof.
  intros F E E1 E2 E3 Ew O HQ HT. exists s1, s1, k. split; [reflexivity|]. split; [|auto with kern].
  apply (KI_stop nobody H s t k); auto using gone_stops. unfold rdy1. rewrite E2. exact HQ.
Qed.
Lemma gone_ready : task_state (tasks s t) = K_RDY → gone (s1 ← ready_list_rm t (on_task t g s); Some (on_task t (t_state K_DELETED) s1)).
Proof.
  intros Es. assert (HC := i_core _ _ _ HK). destruct (ready_facts _ _ _ HC t Es) as (Hl & Hp & Hsl & Er & Ew & Et).
  destruct (ready_rm_ok _ _ _ HC t Hi Es (on_task t g s) eq_refl) as (q & E & HQ); [simpl; rewrite upd_eq; apply G1|]. rewrite E. cbn [mbind option_bind].
  apply (gone_now (t_state K_DELETED (g (tasks s t)))); auto; [frames|simpl; rewrite upd_eq, upd_upd; reflexivity|apply G1|simpl; rewrite G3; exact Et|apply (TL_off _ _ _ _ HC Et)].
Qed.
Lemma gone_suspended : task_state (tasks s t) = K_SUSPENDED → gone (Some (on_task t (t_state K_DELETED) (on_task t g s))).
Proof.
  intros Es. assert (HC := i_core _ _ _ HK). assert (Et : tck s t = false) by (apply (tl_off _ _ _ _ HC); unfold pending, sleeping; rewrite Es; reflexivity).
  apply (gone_now (t_state K_DELETED (g (tasks s t)))); auto; [frames|simpl; rewrite upd_eq, upd_upd; reflexivity|apply G1|simpl; rewrite G3; exact Et| | |apply (TL_off _ _ _ _ HC Et)].
  - apply wob_none. unfold pending. rewrite Es. reflexivity.
  - apply RQ_same; [apply (c_rq _ _ _ HC)|apply rdy_none; congruence].
Qed.
Lemma gone_sleeping : sleeping (tasks s t) = true → gone (Some (on_task t (t_state K_DELETED) (tick_list_rm t (on_task t g s)))).
Proof.
  intros Hs. assert (HC := i_core _ _ _ HK). destruct (sleeping_facts _ _ _ _ HK Hs) as (_ & _ & Et & Er & Ew & _ & _).
  apply (gone_now (t_state K_DELETED (t_on_tick false (g (tasks s t))))); auto; [frames|autorewrite with kern; reflexivity|apply G1|autorewrite with kern; reflexivity| |]; autorewrite with kern.
  - apply RQ_same; [apply (c_rq _ _ _ HC)|exact Er].
  - apply TL_leave; [apply (c_tl _ _ _ HC)|simpl; rewrite upd_eq, G3; reflexivity].
Qed.
Lemma gone_waiting : pending (tasks s t) = true → gone (mutex_task_pri_reset t (on_task t (t_state K_DELETED) (blk_list_rm t (tick_list_rm t (on_task t g s))))).
Proof.
  intros Hp. assert (HC := i_core _ _ _ HK). destruct (pending_facts _ _ _ _ HC Hp) as (_ & Er & _ & o & Eb & Ew). set (k := t_state K_DELETED (t_on_tick false (g (tasks s t)))).
  set (s1 := on_task t (t_state K_DELETED) (blk_list_rm t (tick_list_rm t (on_task t g s)))). assert (F : frame s s1) by (unfold s1; frames).
  assert (T : tasks s1 = upd (tasks s) t k) by (unfold s1; autorewrite with kern; reflexivity).
  destruct (KI_leave nobody H s t o k s1 HK Ew) as (s2 & E2 & K2 & P2); auto; unfold s1; autorewrite with kern.
  - apply gone_stops; try reflexivity. apply G1.
  - simpl. rewrite G4. exact Eb.
  - unfold blk_list_rm. autorewrite with kern. simpl. rewrite G4, Eb. simpl. autorewrite with kern. reflexivity.
  - apply RQ_same; [apply (c_rq _ _ _ HC)|exact Er].
  - apply TL_leave; [apply (c_tl _ _ _ HC)|simpl; rewrite upd_eq, G3; reflexivity].
  - exists s1, s2, k. split; [exact E2|]. split; [exact K2|]. auto with kern.
Qed.
Lemma unlink_ok : live (tasks s t) = true → gone (task_unlink t (on_task t g s)).
Proof.
  intros Hl. unfold task_unlink. cbn [tasks on_task set_tasks]. rewrite upd_eq, G2. fold (on_task t g s).
  destruct (task_state (tasks s t)) eqn:Es; unfold live in Hl; rewrite Es in Hl; try discriminate.
  - apply gone_ready, Es.
  - apply gone_waiting. unfold pending. rewrite Es. reflexivity.
  - apply gone_suspended, Es.
  - apply gone_waiting. unfold pending. rewrite Es. reflexivity.
  - apply gone_sleeping. unfold sleeping. rewrite Es. reflexivity.
  - apply gone_sleeping. unfold sleeping. rewrite Es. reflexivity.
Qed.
End gone.

Lemma pre_calm s s' : pre_sched s → calm s s' → pre_sched s'.
Proof. intros [A B C D E] [M1 M2 M3 M4 M5 M6 M7 M8 M9 M10]. split; rewrite ?M1, ?M2, ?M3, ?M4; auto. Qed.
Lemma pre_gone s s' t k : pre_sched s → g_intrpt_nested_level s = 0 → (t = g_active_task s → g_sched_lock s = 0) → frame s s' → tasks s' = upd (tasks s) t k → pre_sched s'.
Proof.
  intros [A B C D E] Hl Ha F T. split; rewrite ?(fr_running _ _ F), ?(fr_lock _ _ F), ?(fr_level _ _ F), ?(fr_active _ _ F); auto; try lia.
  intros Hk. rewrite T, upd_ne; [auto|]. intros <-. specialize (Ha eq_refl). lia.
Qed.
Lemma mutex_free_ok H s t : KI nobody H s → live (tasks s t) = true → t ≠ g_idle_task →
  ∃ s' H', task_mutex_free t s = Some (on_task t (put_back (tasks s t)) s') ∧ KI nobody H' s' ∧ calm s s' ∧ tasks s' t = bare (tasks s t) ∧ ∀ o, owner s' o ≠ Some t.
Proof.
  intros HK Hl Hi. assert (G := bare_giving H s t HK Hl Hi).
  destruct (free_loop t (put_back (tasks s t)) (n_objs s) _ _ _ _ _ (λ _, eq_refl) G (chain_length _ _ _ t (i_core _ _ _ HK))) as (s' & H' & E & K & C & T & O).
  rewrite put_back_bare in E. exists s', H'. split; [exact E|]. split; [exact K|]. split; [|split; [rewrite T; simpl; apply upd_eq|exact O]].
  eapply still_trans; [|exact C]. split; try reflexivity; intros x; unfold tck; simpl; at_task x t; auto.
Qed.
Lemma del_ok H s t : KI nobody H s → ticks_ok s → pre_sched s → g_intrpt_nested_level s = 0 → live (tasks s t) = true → t ≠ g_idle_task → (t = g_active_task s → g_sched_lock s = 0) →
  ∃ s1 s2 s3, task_mutex_free t s = Some s1 ∧ live (tasks s1 t) = true ∧ task_unlink t s1 = Some s2 ∧ core_sched s2 = Some s3 ∧ Inv s3.
Proof.
  intros HK HT HP Hlev Hl Hi Ha. destruct (mutex_free_ok H s t HK Hl Hi) as (s' & H' & E & K & C & T & O).
  assert (Hl' : live (tasks s' t) = true) by (rewrite T; exact Hl).
  destruct (unlink_ok H' s' t (put_back (tasks s t)) K Hi O) as (s1 & s2 & k & E2 & K2 & F1 & T1 & Ek & C2); try reflexivity; [exact Hl'|].
  assert (HP' := pre_calm _ _ HP C). assert (HT' := calm_ticks _ _ HT C).
  assert (HP1 : pre_sched s1).
  { apply (pre_gone s' s1 t k); auto; [rewrite (cm_level _ _ C); exact Hlev|]. rewrite (cm_active _ _ C), (cm_lock _ _ C). exact Ha. }
  assert (HT1 : ticks_ok s1) by (apply (move_ticks s' s1 t k F1 T1 HT'); congruence).
  destruct (sched_inv H' s2 K2 (calm_ticks _ _ HT1 C2) (pre_calm _ _ HP1 C2)) as (s3 & E3 & HI).
  exists (on_task t (put_back (tasks s t)) s'), s2, s3. split; [exact E|]. split; [|auto]. simpl. rewrite upd_eq. exact Hl'.
Qed.
Lemma task_del_ok task s : Inv s → (let t := default (g_active_task s) task in live (tasks s t) = true) → fine (krhino_task_del task s).
Proof.
  intros HI Hl. unfold krhino_task_del. destruct (0 <? g_intrpt_nested_level s) eqn:El; [auto with kern|]. cbv zeta in *. set (t := default (g_active_task s) task) in *.
  destruct (Z.eqb_spec (prio (tasks s t)) RHINO_IDLE_PRI) as [?|Hp]; [auto with kern|]. destruct (decide _); [|auto with kern].
  destruct (Nat.eqb t (g_active_task s) && (0 <? g_sched_lock s)) eqn:Ea; [auto with kern|]. destruct HI as (H & HK & HT & HP).
  destruct (del_ok H s t HK HT (calm_pre _ _ HP (still_refl s)) (level_zero _ HP El) Hl (not_idle_pri _ _ _ _ HK Hp)) as (s1 & s2 & s3 & E1 & Hl1 & E2 & E3 & HI3).
  { intros Et. rewrite Et, Nat.eqb_refl in Ea. apply (lock_zero _ HP Ea). }
  rewrite E1. cbn [mbind option_bind]. unfold live in Hl1. unfold sched_ok.
  destruct (task_state (tasks s1 t)); try discriminate; rewrite E2; cbn [mbind option_bind]; rewrite E3; apply fine_ret, HI3.
Qed.
(** The semaphore of the task that frees memory can be given. *)
Definition res_sem_ok (s : kern) : Prop :=
  obj_type (objs s g_res_sem) = RHINO_SEM_OBJ_TYPE ∧ (blk_list (objs s g_res_sem) = [] → sem_count (objs s g_res_sem) ≠ 4294967295).
Lemma res_sem_give H s : KI nobody H s → res_sem_ok s → 0 < g_sched_lock s → ∃ s', krhino_sem_give g_res_sem s = Some (Returns RHINO_SUCCESS, s') ∧ KI nobody H s' ∧ calm s s'.
Proof.
  intros HK [Ety Hc] Hlock. unfold krhino_sem_give, sem_give. destruct (decide _); [|congruence].
  assert (Eo : owner s g_res_sem = None) by (unfold owner, owner1; rewrite Ety; reflexivity).
  assert (Sc : ∀ s', calm s s' → core_sched s' = Some s').
  { intros s' C. unfold core_sched. rewrite (cm_lock _ _ C), (proj2 (Z.ltb_lt _ _) Hlock). destruct (0 <? _); reflexivity. }
  destruct (blk_list (objs s g_res_sem)) as [|x l] eqn:El.
  - rewrite (proj2 (Z.eqb_neq _ _)) by auto. eexists. split; [reflexivity|]. split; [|apply calm_obj]. apply KI_obj; auto; intros b; unfold peak_update; destruct (_ <? _); reflexivity.
  - assert (Ew : wob s x = Some g_res_sem) by (apply (bl_mem _ _ _ (c_bl _ _ _ (i_core _ _ _ HK))); rewrite El; set_solver).
    destruct (KI_wake nobody H s x g_res_sem BLK_FINISH HK Ew Eo) as (s1 & E1 & K1 & _ & C1 & _). rewrite wake_with_finish, E1. cbn [mbind option_bind]. rewrite (Sc _ C1). cbn [mbind option_bind]. eauto.
Qed.
Lemma task_dyn_del_ok task s : Inv s → (let t := default (g_active_task s) task in task_state (tasks s t) ≠ K_SEED) → res_sem_ok s → fine (krhino_task_dyn_del task s).
Proof.
  intros HI Hs Hres. unfold krhino_task_dyn_del. destruct (0 <? g_intrpt_nested_level s) eqn:El; [auto with kern|]. cbv zeta in *. set (t := default (g_active_task s) task) in *.
  destruct (Z.eqb_spec (prio (tasks s t)) RHINO_IDLE_PRI) as [?|Hp]; [auto with kern|]. destruct (decide _); [|auto with kern].
  destruct (Nat.eqb t (g_active_task s) && (0 <? g_sched_lock s)) eqn:Ea; [auto with kern|]. destruct (decide _) as [?|Hdel]; [auto with kern|]. destruct HI as (H & HK & HT & HP).
  assert (Hl : live (tasks s t) = true) by (unfold live; destruct (task_state (tasks s t)); congruence).
  assert (Hlk := cpu_lock _ HP). assert (Elk : (g_sched_lock s + 1) mod 256 = g_sched_lock s + 1) by (apply Z.mod_small; lia). rewrite Elk.
  set (s1 := set_res (g_res_list s ++ [t]) (set_lock (g_sched_lock s + 1) s)).
  assert (K1 : KI nobody H s1) by (apply (KI_cpu _ _ s); auto).
  destruct (res_sem_give H s1 K1 Hres) as (s2 & E2 & K2 & C2); [simpl; lia|]. rewrite E2. cbn [mbind option_bind].
  assert (Elk2 : (g_sched_lock s2 - 1) mod 256 = g_sched_lock s) by (rewrite (cm_lock _ _ C2); simpl; rewrite Z.mod_small; lia). rewrite Elk2.
  set (s3 := set_lock (g_sched_lock s) s2). assert (C3 : calm s s3).
  { split; try (apply C2 || reflexivity); intros x Hx; apply C2, Hx. }
  assert (K3 : KI nobody H s3) by (apply (KI_cpu _ _ s2); auto).
  destruct (del_ok H s3 t K3 (calm_ticks _ _ HT C3) (calm_pre _ _ HP C3)) as (s4 & s5 & s6 & E4 & Hl4 & E5 & E6 & HI6).
  - rewrite (cm_level _ _ C3). apply (level_zero _ HP El).
  - apply (cm_live _ _ C3), Hl.
  - apply (not_idle_pri _ _ _ _ HK Hp).
  - rewrite (cm_active _ _ C3), (cm_lock _ _ C3). intros Et. rewrite Et, Nat.eqb_refl in Ea. apply (lock_zero _ HP Ea).
  - rewrite E4. cbn [mbind option_bind]. rewrite E5. cbn [mbind option_bind]. unfold sched_ok. rewrite E6. apply fine_ret, HI6.
Qed.
