(* ===== verification/KernelProps.v ===== *)
(** * KernelProps: what the kernel guarantees

    The calls of tasks and interrupts as one type, the conditions under which they are made,
    and the properties of every run from the start-up: no call stops the system, the most
    urgent ready task runs, and a task that holds mutexes is as urgent as the tasks that wait
    for them. *)
From Stdlib Require Import ZArith Lia List Bool FunctionalExtensionality.
From stdpp Require Import base list numbers option sorting sets.
From S2P Require Import Prelude Kernel KernelQueue KernelInv KernelPri KernelMoves KernelOps KernelTasks KernelLife.
Local Open Scope Z_scope.

(** ** Calls *)

Inductive kop :=
| OSchedDisable | OSchedEnable | OYield | OSleep (n : Z) | OSuspend (t : nat) | OResume (t : nat) | OPriChange (t : nat) (p : Z) | OWaitAbort (t : nat)
| OTaskCreate (t : nat) (p n st : Z) (auto : bool) (fl : alloc_flag) | OTaskDel (t : option nat) | OTaskDynDel (t : option nat) | OTimeSlice (t : nat) (n : Z) | OPolicy (t : nat) (p : sched_policy_t)
| OSemCreate (o : nat) (c : Z) (fl : alloc_flag) | OSemDel (o : nat) (fl : alloc_flag) | OSemGive (o : nat) | OSemGiveAll (o : nat) | OSemTake (o : nat) (n : Z) | OSemCountSet (o : nat) (c : Z)
| OMutexCreate (o : nat) (fl : alloc_flag) | OMutexDel (o : nat) (fl : alloc_flag) | OMutexLock (o : nat) (n : Z) | OMutexUnlock (o : nat)
| OTaskSemCreate (t o : nat) (c : Z) | OTaskSemDel (t : nat) | OTaskSemGive (t : nat) | OTaskSemTake (n : Z) | OTaskSemCountSet (t : nat) (c : Z)
| OIntrptEnter | OIntrptExit | OTick.

Definition done (s : option kern) : option (kret * kern) := s1 ← s; Some (Returns RHINO_SUCCESS, s1).
Definition exec (op : kop) (s : kern) : option (kret * kern) :=
  match op with
  | OSchedDisable => Some (krhino_sched_disable s) | OSchedEnable => krhino_sched_enable s | OYield => krhino_task_yield s | OSleep n => krhino_task_sleep n s
  | OSuspend t => krhino_task_suspend t s | OResume t => krhino_task_resume t s | OPriChange t p => krhino_task_pri_change t p s | OWaitAbort t => krhino_task_wait_abort t s
  | OTaskCreate t p n st auto fl => task_create t p n st auto fl s | OTaskDel t => krhino_task_del t s | OTaskDynDel t => krhino_task_dyn_del t s
  | OTimeSlice t n => Some (krhino_task_time_slice_set t n s) | OPolicy t p => Some (krhino_sched_policy_set t p s)
  | OSemCreate o c fl => Some (sem_create o c fl s) | OSemDel o fl => krhino_sem_del o fl s | OSemGive o => krhino_sem_give o s | OSemGiveAll o => krhino_sem_give_all o s
  | OSemTake o n => krhino_sem_take o n s | OSemCountSet o c => Some (krhino_sem_count_set o c s)
  | OMutexCreate o fl => Some (mutex_create o fl s) | OMutexDel o fl => krhino_mutex_del o fl s | OMutexLock o n => krhino_mutex_lock o n s | OMutexUnlock o => krhino_mutex_unlock o s
  | OTaskSemCreate t o c => Some (krhino_task_sem_create t o c s) | OTaskSemDel t => krhino_task_sem_del t s | OTaskSemGive t => krhino_task_sem_give t s
  | OTaskSemTake n => krhino_task_sem_take n s | OTaskSemCountSet t c => krhino_task_sem_count_set t c s
  | OIntrptEnter => done (Some (krhino_intrpt_enter s)) | OIntrptExit => done (krhino_intrpt_exit s) | OTick => done (krhino_tick_proc s)
  end.

(** The idle task makes no call that may block; blocks and objects are not created twice; a
    task that was never created or is deleted is not deleted (again); interrupts nest at most
    255 times and a tick comes from one. *)
Definition may_block (s : kern) : Prop := g_intrpt_nested_level s = 0 → g_active_task s ≠ g_idle_task.
Definition legal (op : kop) (s : kern) : Prop :=
  match op with
  | OYield => g_intrpt_nested_level s = 0
  | OSleep n | OSemTake _ n | OTaskSemTake n => tick_arg n ∧ may_block s
  | OMutexLock o n => tick_arg n ∧ may_block s ∧ (mutex_task (objs s o) = Some (g_active_task s) → owner_nested (objs s o) ≠ 4294967295)
  | OPriChange t p => 0 ≤ p ∧ task_state (tasks s t) ≠ K_SEED
  | OTaskCreate t p _ _ _ _ => free_task t s ∧ 0 ≤ p
  | OTaskDel t => live (tasks s (default (g_active_task s) t)) = true
  | OTaskDynDel t => task_state (tasks s (default (g_active_task s) t)) ≠ K_SEED ∧ res_sem_ok s
  | OSemCreate o _ _ | OMutexCreate o _ | OTaskSemCreate _ o _ => free_obj o s
  | OIntrptEnter => g_intrpt_nested_level s < 255
  | OIntrptExit => 0 < g_intrpt_nested_level s ≤ 255
  | OTick => 0 < g_intrpt_nested_level s
  | _ => True
  end.

Lemma task_sem_ok t f s : Inv s → (∀ o, fine (f o s)) → fine (on_task_sem t f s).
Proof. intros HI Hf. unfold on_task_sem. destruct (task_sem_obj _); auto with kern. Qed.
Lemma task_sem_create_ok t o c s : Inv s → free_obj o s → fine (Some (krhino_task_sem_create t o c s)).
Proof.
  intros HI Hf. destruct (sem_create_ok o c K_OBJ_STATIC_ALLOC s HI Hf) as (r & s1 & E & HI1). injection E as <- <-. apply fine_ret.
  destruct HI1 as (H & HK & HT & HP). match goal with |- Inv (on_task t _ ?s1) => assert (R : relabels (tasks s1 t) (t_sem (Some o) (tasks s1 t))) by relabel;
    apply (Inv_still H s1); auto; [eapply KI_relabel; eauto; reflexivity|apply relabel_calm, R] end.
Qed.
Lemma fine_done r : (∃ s', r = Some s' ∧ Inv s') → fine (done r).
Proof. intros (s' & -> & HI). apply fine_ret, HI. Qed.
Lemma exec_fine op s : Inv s → legal op s → fine (exec op s).
Proof.
  intros HI. destruct op; simpl; intros HL.
  - apply sched_disable_ok, HI.
  - apply sched_enable_ok, HI.
  - apply yield_ok; [exact HI|]. destruct HI as (H & HK & HT & HP). apply (cpu_rdy _ HP). auto.
  - apply sleep_ok; [exact HI|apply HL..].
  - apply suspend_ok, HI.
  - apply resume_ok, HI.
  - apply pri_change_ok; [exact HI|apply HL..].
  - apply wait_abort_ok, HI.
  - apply task_create_ok; [exact HI|apply HL..].
  - apply task_del_ok; assumption.
  - apply task_dyn_del_ok; [exact HI|apply HL..].
  - apply time_slice_set_ok, HI.
  - apply sched_policy_set_ok, HI.
  - apply sem_create_ok; assumption.
  - apply sem_del_ok, HI.
  - apply sem_give_ok, HI.
  - apply sem_give_ok, HI.
  - apply sem_take_ok; [exact HI|apply HL..].
  - apply sem_count_set_ok, HI.
  - apply mutex_create_ok; assumption.
  - apply mutex_del_ok, HI.
  - destruct HL as (H1 & H2 & H3). apply mutex_lock_ok; auto. intros Ho. apply H3. apply (owns_owner s o _ Ho).
  - apply mutex_unlock_ok, HI.
  - apply task_sem_create_ok; assumption.
  - apply task_sem_ok; [exact HI|]. intros o. apply sem_del_ok, HI.
  - apply task_sem_ok; [exact HI|]. intros o. apply sem_give_ok, HI.
  - apply task_sem_ok; [exact HI|]. intros o. apply sem_take_ok; [exact HI|apply HL..].
  - apply task_sem_ok; [exact HI|]. intros o. apply sem_count_set_ok, HI.
  - apply fine_ret, intrpt_enter_ok; assumption.
  - apply fine_done, intrpt_exit_ok; [exact HI|apply HL..].
  - apply fine_done, tick_proc_ok; assumption.
Qed.

(** ** Runs from the start-up *)

Definition boot (nt no : nat) : option kern := krhino_init nt no ≫= krhino_start.
Inductive reach (nt no : nat) : kern → Prop :=
| reach_boot s : boot nt no = Some s → reach nt no s
| reach_step s op ret s' : reach nt no s → legal op s → exec op s = Some (ret, s') → reach nt no s'.

Section booted.
Context (nt no : nat) (Hnt : (2 ≤ nt)%nat) (Hno : (1 ≤ no)%nat).
Let dyn := new_task RHINO_CONFIG_K_DYN_MEM_TASK_PRI 0 true K_OBJ_STATIC_ALLOC.
Let idle := new_task RHINO_IDLE_PRI 0 true K_OBJ_STATIC_ALLOC.
Let queue := rq_add_tail RHINO_IDLE_PRI g_idle_task (rq_add_tail RHINO_CONFIG_K_DYN_MEM_TASK_PRI g_dyn_task runqueue_init).
Let booted : kern := mkKern (upd (upd (λ _, zero_task) g_dyn_task dyn) g_idle_task idle)
  (upd (λ _, zero_obj) g_res_sem (mkObj RHINO_SEM_OBJ_TYPE BLK_POLICY_PRI [] K_OBJ_STATIC_ALLOC 0 0 None 0 None)) nt no queue [] 0 g_dyn_task 0 0 true true [].

Lemma boot_eq : boot nt no = Some booted.
Proof. reflexivity. Qed.
Lemma booted_tasks t : tasks booted t = idle ∧ t = g_idle_task ∨ tasks booted t = dyn ∧ t = g_dyn_task ∨ tasks booted t = zero_task.
Proof. destruct t as [|[|t]]; [left|right; left|right; right]; auto. Qed.
Lemma booted_objs o : blk_list (objs booted o) = [] ∧ blk_policy (objs booted o) = BLK_POLICY_PRI ∧ owner booted o = None ∧ (obj_type (objs booted o) ≠ RHINO_OBJ_TYPE_NONE → o = g_res_sem).
Proof. destruct o as [|o]; [|repeat split; simpl; congruence]. repeat split; auto. Qed.
Lemma booted_inv : Inv booted.
Proof.
  assert (HQ : RQ (rdy booted) queue).
  { apply (RQ_ext (upd (upd (λ _, None) g_dyn_task (Some RHINO_CONFIG_K_DYN_MEM_TASK_PRI)) g_idle_task (Some RHINO_IDLE_PRI))); [intros [|[|t]]; reflexivity|].
    apply rq_add_tail_ok; [apply rq_add_tail_ok; [apply RQ_init| |]| |]; try reflexivity; split; discriminate || reflexivity. }
  assert (Hw : ∀ t, wob booted t = None) by (intros [|[|t]]; reflexivity).
  assert (Ht : ∀ t, tck booted t = false) by (intros [|[|t]]; reflexivity).
  exists (λ _, []). split; [|split].
  - split.
    + split; auto.
      * split; intros o; destruct (booted_objs o) as (E1 & E2 & _); rewrite ?E1, ?Hw; auto; [|constructor|constructor]. intros t. rewrite Hw. split; [set_solver|discriminate].
      * split; simpl; [|constructor|constructor]. intros t. rewrite Ht. split; [set_solver|discriminate].
      * split.
        -- intros [|[|t]] Hl; reflexivity || discriminate.
        -- intros o t. destruct (booted_objs o) as (_ & _ & -> & _). split; [set_solver|discriminate].
        -- intros t. constructor.
        -- intros o t. destruct (booted_objs o) as (_ & _ & -> & _). discriminate.
        -- intros o t. destruct (booted_objs o) as (_ & _ & -> & _). discriminate.
      * intros t. destruct t as [|[|t]]; (split; simpl; try discriminate; try (intros _; split; discriminate || reflexivity); try (intros _; lia); lia).
      * split; try reflexivity. intros o. destruct (booted_objs o) as (_ & _ & -> & _). discriminate.
    + intros m Hm _. assert (Hb : ∀ x, boss (owner booted) booted x ≠ Some m) by (intros x; rewrite not_waiting by apply Hw; discriminate).
      assert (Ep : pri booted m = base booted m) by (destruct m as [|[|m]]; reflexivity).
      split; [lia|intros x Hx; destruct (Hb x Hx)|discriminate|auto].
    + intros x o. rewrite Hw. discriminate.
    + intros o. destruct (booted_objs o) as (E1 & _ & _ & E4). split; [auto|]. intros Hty. rewrite (E4 Hty). change (0 < no)%nat. lia.
  - intros t. rewrite Ht. discriminate.
  - split; reflexivity || (simpl; lia).
Qed.
End booted.
Lemma reach_inv nt no s : (2 ≤ nt)%nat → (1 ≤ no)%nat → reach nt no s → Inv s.
Proof.
  intros Hnt Hno. induction 1 as [s E|s op ret s' _ IH HL E].
  - rewrite (boot_eq nt no) in E. injection E as <-. apply booted_inv; assumption.
  - destruct (exec_fine op s IH HL) as (r & s1 & E1 & HI). congruence.
Qed.

(** ** Properties *)

(** No call of a task or an interrupt stops the system: from the start-up on, every call made
    as [legal] says returns a result or puts the caller to sleep; it does not reach
    [k_err_proc], follow a null pointer or loop for ever, [task_pri_change] on waiting tasks
    that form a cycle included. *)
Theorem kernel_never_stops nt no s op :
  (2 ≤ nt)%nat → (1 ≤ no)%nat → reach nt no s → legal op s → ∃ ret s', exec op s = Some (ret, s').
Proof. intros Hnt Hno HR HL. destruct (exec_fine op s (reach_inv _ _ _ Hnt Hno HR) HL) as (ret & s' & E & _). eauto. Qed.

(** [C12] At all times the lists of the kernel hold what the task blocks say: the ready list of a
    priority exactly the ready tasks of that priority, the list of an object exactly the
    tasks that wait for it, and the tick list every sleeping task and only sleeping or
    waiting ones. *)
Theorem kernel_lists_consistent nt no s :
  (2 ≤ nt)%nat → (1 ≤ no)%nat → reach nt no s →
  (∀ p t, t ∈ cur_list_item (g_ready_queue s) p ↔ task_state (tasks s t) = K_RDY ∧ prio (tasks s t) = p) ∧
  (∀ o t, t ∈ blk_list (objs s o) ↔ pending (tasks s t) = true ∧ blk_obj (tasks s t) = Some o) ∧
  (∀ t, sleeping (tasks s t) = true → t ∈ g_tick_head s) ∧ (∀ t, t ∈ g_tick_head s → sleeping (tasks s t) = true ∨ pending (tasks s t) = true).
Proof.
  intros Hnt Hno HR. destruct (reach_inv _ _ _ Hnt Hno HR) as (H & HK & _). assert (HC := i_core _ _ _ HK). split; [|split; [|split]].
  - intros p t. rewrite (rq_mem _ _ (c_rq _ _ _ HC)). unfold rdy, rdy1. destruct (task_state (tasks s t)); split; try discriminate; try (intros [? ?]; congruence). intros [= ->]. auto.
  - intros o t. rewrite (bl_mem _ _ _ (c_bl _ _ _ HC)). unfold wob, wob1. destruct (pending (tasks s t)); intuition discriminate.
  - intros t Hs. apply (tl_mem _ _ _ (c_tl _ _ _ HC)), (k_sleep _ _ _ (c_ok _ _ _ HC t) Hs).
  - intros t Hin. apply (tl_mem _ _ _ (c_tl _ _ _ HC)) in Hin. pose proof (k_tick _ _ _ (c_ok _ _ _ HC t) Hin) as Hk. destruct (pending (tasks s t)); auto.
Qed.

(** [C13] In every state that legal calls lead to from the start-up, outside of interrupts and while the scheduler is not locked, the running task is ready and no ready task is more urgent.  [legal] excludes in particular krhino_task_del of a task that is deleted already, which the kernel does not refuse in time: it gives the mutexes of the deleted task away once more ([deleted_twice_takes_mutex]), and the statement fails after it. *)
Theorem highest_priority_runs nt no s :
  (2 ≤ nt)%nat → (1 ≤ no)%nat → reach nt no s → g_intrpt_nested_level s = 0 → g_sched_lock s = 0 →
  task_state (tasks s (g_active_task s)) = K_RDY ∧ ∀ t, task_state (tasks s t) = K_RDY → prio (tasks s (g_active_task s)) ≤ prio (tasks s t).
Proof.
  intros Hnt Hno HR Hl Hk. destruct (reach_inv _ _ _ Hnt Hno HR) as (H & HK & _ & HP). destruct (preferred_rdy _ _ _ HK) as (t & E & Hs & Hle).
  rewrite (cpu_pref _ HP Hl Hk) in E. injection E as <-. auto.
Qed.

(** [C14] In every state that legal calls lead to from the start-up, a task that holds mutexes is at least as urgent as every task that waits for one of them, and it is more urgent than its own priority only if such a task has exactly its priority.  [legal] excludes in particular krhino_task_del of a task that is deleted already: it takes a mutex from its owner, which keeps the inherited priority ([deleted_twice_takes_mutex]). *)
Theorem priority_inheritance nt no s t :
  (2 ≤ nt)%nat → (1 ≤ no)%nat → reach nt no s → live (tasks s t) = true →
  let waits_for x := ∃ o, x ∈ blk_list (objs s o) ∧ obj_type (objs s o) = RHINO_MUTEX_OBJ_TYPE ∧ mutex_task (objs s o) = Some t in
  prio (tasks s t) ≤ b_prio (tasks s t) ∧ (∀ x, waits_for x → prio (tasks s t) ≤ prio (tasks s x)) ∧
  (prio (tasks s t) = b_prio (tasks s t) ∨ ∃ x, waits_for x ∧ prio (tasks s t) = prio (tasks s x)).
Proof.
  intros Hnt Hno HR Hl waits_for. destruct (reach_inv _ _ _ Hnt Hno HR) as (H & HK & _). assert (HC := i_core _ _ _ HK).
  assert (Hb : ∀ x, waits_for x ↔ boss (owner s) s x = Some t).
  { intros x. unfold waits_for, boss, boss_of. split.
    - intros (o & Hx & Hty & Hm). apply (bl_mem _ _ _ (c_bl _ _ _ HC)) in Hx. rewrite Hx. simpl. unfold owner, owner1. rewrite Hty. exact Hm.
    - destruct (wob s x) as [o|] eqn:E; [|discriminate]. intros Ho. exists o. split; [apply (bl_mem _ _ _ (c_bl _ _ _ HC)), E|apply (owns_owner s o t Ho)]. }
  destruct (i_due _ _ _ HK t Hl (λ f, f)) as [A B _ D]. split; [exact A|]. split; [intros x Hx; apply B, Hb, Hx|].
  destruct D as [D|[(x & D1 & D2)|D]]; [auto|right; exists x; split; [apply Hb, D1|exact D2]|discriminate].
Qed.

(** ** Times *)

Lemma to_int_mod z : to_int z mod 4294967296 = z mod 4294967296.
Proof.
  unfold to_int. destruct (_ <? _); [apply Z.mod_mod; lia|]. rewrite Zminus_mod, Z.mod_same, Z.sub_0_r by lia. rewrite !Z.mod_mod by lia. reflexivity.
Qed.
Lemma to_int_ext a b : a mod 4294967296 = b mod 4294967296 → to_int a = to_int b.
Proof. intros E. unfold to_int. rewrite E. reflexivity. Qed.
(** Less than [2^31] ticks ahead the truncated difference is the time left. *)
Lemma delta_rem s t : rem s t < 2147483648 → tick_delta t s = rem s t.
Proof.
  intros Hr. assert (H0 : 0 ≤ rem s t) by (unfold rem, rem1, tick_wrap; apply Z.mod_pos_bound; lia).
  unfold tick_delta. rewrite (to_int_ext _ (rem s t)).
  - unfold to_int. rewrite Z.mod_small by lia. rewrite (proj2 (Z.ltb_lt _ _) Hr). reflexivity.
  - rewrite Zminus_mod, !to_int_mod, <- Zminus_mod. unfold rem, rem1, tick_wrap. set (d := tick_match (tasks s t) - g_tick_count s).
    rewrite (Z.div_mod d 18446744073709551616) at 1 by lia. replace (18446744073709551616 * (d / 18446744073709551616)) with (d / 18446744073709551616 * 4294967296 * 4294967296) by lia.
    rewrite Z.add_comm, Z_mod_plus_full. reflexivity.
Qed.
Lemma apart_field {A} (F : ktask_t → A) k k' : (∀ k p, F (t_prio p k) = F k) → t_prio 0 k' = t_prio 0 k → F k' = F k.
Proof. intros HF E. rewrite <- (HF k' 0), E. apply HF. Qed.
Lemma expire_all_exact H s l s' : KI nobody H s → l = g_tick_head s → (∀ x, x ∈ l → rem s x < 2147483648) → tick_expire_all l s = Some s' →
  (∀ x, x ∈ l → rem s x = 0 → tck s' x = false ∧ (task_state (tasks s' x) = K_RDY ∨ task_state (tasks s' x) = K_SUSPENDED)) ∧
  (∀ x, x ∉ l ∨ 0 < rem s x → t_prio 0 (tasks s' x) = t_prio 0 (tasks s x)).
Proof.
  revert s. induction l as [|t l IH]; intros s HK El Hr E; simpl in E.
  - injection E as <-. split; [set_solver|auto].
  - assert (HL := c_tl _ _ _ (i_core _ _ _ HK)). pose proof (tl_nodup _ _ _ HL) as HN. rewrite <- El in HN. apply NoDup_cons in HN as [Htl HN].
    assert (Et : tck s t = true) by (apply (tl_mem _ _ _ HL); rewrite <- El; set_solver).
    assert (Hpos : ∀ x, 0 ≤ rem s x) by (intros x; unfold rem, rem1, tick_wrap; apply Z.mod_pos_bound; lia).
    rewrite delta_rem in E by (apply Hr; set_solver). destruct (Z.leb_spec (rem s t) 0) as [Hd|Hd].
    + destruct (expire_ok H s t HK Et) as (s1 & E1 & K1 & C1 & L1 & S1 & X1). rewrite E1 in E. cbn [mbind option_bind] in E.
      assert (Er : ∀ x, x ≠ t → rem s1 x = rem s x).
      { intros x Hx. unfold rem. rewrite (cm_count _ _ C1). apply (apart_field (rem1 (g_tick_count s))); [reflexivity|apply X1, Hx]. }
      assert (El1 : l = g_tick_head s1).
      { rewrite L1, <- El. unfold klist_rm. rewrite filter_cons_False by auto. symmetry. apply klist_rm_id, Htl. }
      destruct (IH s1 K1 El1) as [A B]; [intros x Hx; rewrite Er by (intros ->; auto); apply Hr; set_solver|exact E|].
      assert (Hlt : ∀ x, x ∈ l → x ≠ t) by (intros x Hx ->; auto).
      assert (Btck : ∀ x, x ∉ l → tck s' x = tck s1 x ∧ task_state (tasks s' x) = task_state (tasks s1 x)).
      { intros x Hx. split; [apply (apart_field on_tick)|apply (apart_field task_state)]; auto. }
      split.
      * intros x Hx Hz. apply elem_of_cons in Hx as [->|Hx]; [|apply A; [exact Hx|rewrite Er by auto; exact Hz]].
        destruct (Btck t Htl) as [-> ->]. split; [|exact S1]. destruct (tck s1 t) eqn:Ek; [|reflexivity].
        apply (tl_mem _ _ _ (c_tl _ _ _ (i_core _ _ _ K1))) in Ek. rewrite <- El1 in Ek. destruct (Htl Ek).
      * intros x Hx. assert (Hne : x ≠ t) by (intros ->; destruct Hx as [Hx|Hx]; [set_solver|lia]). rewrite <- X1 by exact Hne. apply B.
        destruct Hx as [Hx|Hx]; [left; set_solver|right; rewrite Er by exact Hne; exact Hx].
    + injection E as <-. split; [|auto]. intros x Hx Hz. exfalso. pose proof (tl_ord _ _ _ HL) as HO. rewrite <- El in HO. pose proof (ordered_head _ _ _ _ HO Hx). lia.
Qed.
(** Time slices change no state and no time. *)
Lemma slice_keeps s s' : time_slice_update s = Some s' → g_tick_head s' = g_tick_head s ∧ ∀ x, task_state (tasks s' x) = task_state (tasks s x) ∧ tck s' x = tck s x.
Proof.
  assert (R : ∀ s t v, (∀ x, task_state (tasks (on_task t (t_slice v) s) x) = task_state (tasks s x) ∧ tck (on_task t (t_slice v) s) x = tck s x)).
  { intros s0 t v x. unfold tck. simpl. at_task x t; auto. }
  unfold time_slice_update. destruct (cur_list_item _ _) as [|t [|u l]]; [intros [= <-]; auto|intros [= <-]; auto|]. destruct (sched_policy (tasks s t)); [intros [= <-]; auto|]. cbv zeta.
  set (s1 := if 0 <? time_slice (tasks s t) then on_task t (t_slice (time_slice (tasks s t) - 1)) s else s).
  assert (A1 : g_tick_head s1 = g_tick_head s ∧ ∀ x, task_state (tasks s1 x) = task_state (tasks s x) ∧ tck s1 x = tck s x) by (unfold s1; destruct (0 <? _); [split; [reflexivity|apply R]|auto]).
  destruct A1 as [L1 X1]. destruct (0 <? time_slice (tasks s1 t)); [intros [= <-]; auto|]. unfold ready_list_head_to_tail. destruct (cur_list_item _ _) as [|y r]; [discriminate|]. cbn [mbind option_bind].
  intros [= <-]. split; [exact L1|]. intros x. destruct (R (set_rq (rq_put (prio (tasks s1 t)) (r ++ [y]) (g_ready_queue s1)) s1) t (time_total (tasks s1 t)) x) as [-> ->]. apply X1.
Qed.

(** [C15] A tick ends exactly the waits and sleeps whose time is over: if no task has [2^31] ticks or
    more to go, the tasks with one tick left come off the tick list and are ready or (if
    they were suspended) suspended, and all others keep their time and state. *)
Theorem tick_ends_exactly nt no s :
  (2 ≤ nt)%nat → (1 ≤ no)%nat → reach nt no s → 0 < g_intrpt_nested_level s → (∀ t, t ∈ g_tick_head s → rem s t ≤ 2147483648) →
  ∃ s', krhino_tick_proc s = Some s' ∧
    ∀ t, t ∈ g_tick_head s →
      (rem s t = 1 → (t ∉ g_tick_head s') ∧ (task_state (tasks s' t) = K_RDY ∨ task_state (tasks s' t) = K_SUSPENDED)) ∧
      (rem s t ≠ 1 → t ∈ g_tick_head s' ∧ task_state (tasks s' t) = task_state (tasks s t)).
Proof.
  intros Hnt Hno HR Hl Hrem. assert (HI := reach_inv _ _ _ Hnt Hno HR). destruct (tick_proc_ok s HI Hl) as (s' & E & HI'). exists s'. split; [exact E|].
  destruct HI as (H & HK & HT & HP). destruct HI' as (H' & HK' & _). unfold krhino_tick_proc, tick_list_update in E. simpl in E.
  set (s0 := set_ticks (g_tick_head s) (tick_wrap (g_tick_count s + 1)) s) in E.
  assert (K0 : KI nobody H s0) by (apply KI_tick; assumption).
  destruct (tick_expire_all (g_tick_head s) s0) as [s1|] eqn:E1; [|discriminate]. cbn [mbind option_bind] in E. destruct (slice_keeps _ _ E) as [L2 X2].
  assert (Hone : ∀ x, x ∈ g_tick_head s → 1 ≤ rem s x) by (intros x Hx; apply HT, (tl_mem _ _ _ (c_tl _ _ _ (i_core _ _ _ HK))), Hx).
  assert (Er : ∀ x, x ∈ g_tick_head s → rem s0 x = rem s x - 1) by (intros x Hx; apply (rem_tick s x), Hone, Hx).
  destruct (expire_all_exact H s0 (g_tick_head s) s1 K0 eq_refl) as [A B]; [intros x Hx; rewrite Er by exact Hx; specialize (Hrem x Hx); lia|exact E1|].
  assert (Hmem : ∀ x, x ∈ g_tick_head s' ↔ tck s1 x = true).
  { intros x. rewrite (tl_mem _ _ _ (c_tl _ _ _ (i_core _ _ _ HK'))). destruct (X2 x) as [_ ->]. reflexivity. }
  intros t Ht. destruct (X2 t) as [-> _]. rewrite Hmem. split; intros Hr.
  - destruct (A t Ht) as [A1 A2]; [rewrite Er by exact Ht; lia|]. rewrite A1. auto.
  - assert (X1 : t_prio 0 (tasks s1 t) = t_prio 0 (tasks s t)) by (apply (B t); right; rewrite Er by exact Ht; specialize (Hone t Ht); lia).
    split; [|apply (apart_field task_state); [reflexivity|exact X1]]. unfold tck. rewrite (apart_field on_tick _ _ (λ _ _, eq_refl) X1).
    apply (tl_mem _ _ _ (c_tl _ _ _ (i_core _ _ _ HK))), Ht.
Qed.

(** ** Examples *)

Fixpoint run (ops : list kop) (s : kern) : option (list kret * kern) :=
  match ops with
  | [] => Some ([], s)
  | op :: ops => '(r, s1) ← exec op s; '(rs, s2) ← run ops s1; Some (r :: rs, s2)
  end.
Fixpoint legal_run (ops : list kop) (s : kern) : Prop :=
  match ops with [] => True | op :: ops => legal op s ∧ match exec op s with Some (_, s1) => legal_run ops s1 | None => False end end.
Lemma run_reach nt no ops s rs s' : reach nt no s → legal_run ops s → run ops s = Some (rs, s') → reach nt no s'.
Proof.
  revert s rs. induction ops as [|op ops IH]; simpl; intros s rs HR HL E; [congruence|]. destruct HL as [HL HL'].
  destruct (exec op s) as [[r s1]|] eqn:E1; [|discriminate]. cbn [mbind option_bind] in E. destruct (run ops s1) as [[rs1 s2]|] eqn:E2; [|discriminate].
  injection E as _ <-. apply (IH s1 rs1); auto. eapply reach_step; eauto.
Qed.
Ltac legal_run := vm_compute; repeat split; try discriminate; try (intros; discriminate); try lia.

(** Task 1 creates the mutex 1, the task 2 (priority 20) and the suspended task 3 (priority 10) and
    waits for the semaphore 0; task 2 locks the mutex and resumes task 3, which waits for the mutex. *)
Definition inherit_ops : list kop :=
  [OMutexCreate 1 K_OBJ_STATIC_ALLOC; OTaskCreate 2 20 0 100 true K_OBJ_STATIC_ALLOC; OTaskCreate 3 10 0 100 false K_OBJ_STATIC_ALLOC; OSemTake 0 RHINO_WAIT_FOREVER;
   OMutexLock 1 RHINO_WAIT_FOREVER; OResume 3; OMutexLock 1 100].
Definition after (ops : list kop) : kern := default (zero_kern 0 0) (snd <$> (s ← boot 8 8; run ops s)).
Lemma after_reach ops s rs s' : boot 8 8 = Some s → legal_run ops s → run ops s = Some (rs, s') → reach 8 8 (after ops).
Proof.
  intros E1 HL E2. unfold after. rewrite E1. cbn [mbind option_bind]. rewrite E2. simpl. eapply run_reach; eauto. apply reach_boot, E1.
Qed.
Ltac reached := eapply after_reach; [vm_compute; reflexivity|legal_run|vm_compute; reflexivity].
Lemma inherit_reach : reach 8 8 (after inherit_ops).
Proof. reached. Qed.
Definition tick_ops : list kop := inherit_ops ++ [OIntrptEnter].
Lemma tick_reach : reach 8 8 (after tick_ops).
Proof. reached. Qed.

(** The running task 2 releases the mutex. *)
Lemma kernel_never_stops_witness : ∃ ret s', exec (OMutexUnlock 1) (after inherit_ops) = Some (ret, s').
Proof. apply (kernel_never_stops 8 8); [lia|lia|apply inherit_reach|exact I]. Defined.
(** Task 3 is in the list of the mutex. *)
Lemma kernel_lists_consistent_witness : 3%nat ∈ blk_list (objs (after inherit_ops) 1).
Proof.
  destruct (kernel_lists_consistent 8 8 (after inherit_ops) ltac:(lia) ltac:(lia) inherit_reach) as (_ & HB & _). apply HB. split; vm_compute; reflexivity.
Defined.
(** Task 2 runs. *)
Lemma highest_priority_runs_witness : task_state (tasks (after inherit_ops) (g_active_task (after inherit_ops))) = K_RDY.
Proof. apply (highest_priority_runs 8 8); [lia|lia|apply inherit_reach|vm_compute; reflexivity|vm_compute; reflexivity]. Defined.
(** Task 2 has the priority of task 3. *)
Lemma priority_inheritance_witness : prio (tasks (after inherit_ops) 2) ≤ prio (tasks (after inherit_ops) 3) ∧ prio (tasks (after inherit_ops) 2) = 10 ∧ b_prio (tasks (after inherit_ops) 2) = 20.
Proof.
  destruct (priority_inheritance 8 8 (after inherit_ops) 2 ltac:(lia) ltac:(lia) inherit_reach) as (_ & HB & _); [vm_compute; reflexivity|].
  split; [apply HB; exists 1%nat; split; [vm_compute; apply list_elem_of_here|split; vm_compute; reflexivity]|split; vm_compute; reflexivity].
Defined.
(** Task 3 waits for a hundred ticks; the first one does not end the wait. *)
Lemma tick_ends_exactly_witness : ∃ s', krhino_tick_proc (after tick_ops) = Some s' ∧ 3%nat ∈ g_tick_head s'.
Proof.
  assert (Eh : g_tick_head (after tick_ops) = [3%nat]) by (vm_compute; reflexivity).
  destruct (tick_ends_exactly 8 8 (after tick_ops) ltac:(lia) ltac:(lia) tick_reach) as (s' & E & HT).
  - vm_compute. reflexivity.
  - rewrite Eh. intros t Ht. apply list_elem_of_singleton in Ht as ->. vm_compute. discriminate.
  - exists s'. split; [exact E|]. apply (HT 3%nat); [rewrite Eh; apply list_elem_of_here|vm_compute; discriminate].
Defined.

(** ** Where the code falls short *)

(** Task 2 holds the mutex 1, tasks 3 and 4 wait for it; task 2 deletes itself, and task 3 has the mutex. *)
Definition wait_two_ops (nested : list kop) : list kop :=
  [OMutexCreate 1 K_OBJ_STATIC_ALLOC; OTaskCreate 2 20 0 100 true K_OBJ_STATIC_ALLOC; OTaskCreate 3 10 0 100 false K_OBJ_STATIC_ALLOC; OTaskCreate 4 12 0 100 false K_OBJ_STATIC_ALLOC;
   OSemTake 0 RHINO_WAIT_FOREVER; OMutexLock 1 RHINO_WAIT_FOREVER] ++ nested ++
  [OResume 3; OMutexLock 1 RHINO_WAIT_FOREVER; OResume 4; OSleep 1; OMutexLock 1 RHINO_WAIT_FOREVER; OIntrptEnter; OTick; OIntrptExit; OTaskDel None].
Lemma wait_two_reach : reach 8 8 (after (wait_two_ops [])).
Proof. reached. Qed.

(** [krhino_task_del] gives the mutexes of the task away before it looks at the state of the task:
    deleting a deleted task takes the mutex from task 3, which is inside of it, and gives it
    to task 4; task 3 cannot release it any more. *)
Theorem deleted_twice_takes_mutex :
  let s := after (wait_two_ops []) in
  reach 8 8 s ∧ g_active_task s = 3%nat ∧ mutex_task (objs s 1) = Some 3%nat ∧
  (λ '(r, s'), (r, mutex_task (objs s' 1), task_state (tasks s' 4))) <$> krhino_task_del (Some 2%nat) s = Some (Returns RHINO_INV_TASK_STATE, Some 4%nat, K_RDY) ∧
  (λ '(rs, _), rs) <$> run [OTaskDel (Some 2%nat); OMutexUnlock 1] s = Some [Returns RHINO_INV_TASK_STATE; Returns RHINO_MUTEX_NOT_RELEASED_BY_OWNER].
Proof. split; [apply wait_two_reach|]. repeat split; vm_compute; reflexivity. Qed.
(** [task_mutex_free] does not reset the nesting count: task 3 got the mutex from the deleted task,
    which had locked it twice, and after one release it still has it. *)
Theorem inherited_nesting :
  let s := after (wait_two_ops [OMutexLock 1 RHINO_WAIT_FOREVER]) in
  g_active_task s = 3%nat ∧ mutex_task (objs s 1) = Some 3%nat ∧
  (λ '(r, s'), (r, mutex_task (objs s' 1))) <$> krhino_mutex_unlock 1 s = Some (Returns RHINO_MUTEX_OWNER_NESTED, Some 3%nat).
Proof. repeat split; vm_compute; reflexivity. Qed.
(** [tick_list_update] compares the ticks as [int]: a task that sleeps [2^31 + 1] ticks is woken by
    the first tick. *)
Theorem long_sleep_ends_at_once :
  let s := after [OSleep 2147483649; OIntrptEnter] in
  task_state (tasks s 1) = K_SLEEP ∧ (λ s', task_state (tasks s' 1)) <$> krhino_tick_proc s = Some K_RDY.
Proof. repeat split; vm_compute; reflexivity. Qed.

(** At a thousand ticks per second a tick is a millisecond. *)
Lemma ms_to_ticks_id ms : 0 ≤ ms < 18446744073709551616 → krhino_ms_to_ticks ms = ms ∧ krhino_ticks_to_ms ms = ms.
Proof.
  intros Hm. unfold krhino_ms_to_ticks, krhino_ticks_to_ms, RHINO_CONFIG_TICKS_PER_SECOND, tick_wrap. cbv zeta. replace (1000 / 1000) with 1 by reflexivity. simpl (0 <? 1). cbv iota.
  pose proof (Z.div_mod ms 1000 ltac:(lia)). pose proof (Z.mod_pos_bound ms 1000 ltac:(lia)). assert (0 ≤ ms / 1000) by (apply Z.div_pos; lia).
  rewrite Z.add_0_r, Z.div_mul by lia. rewrite Zplus_mod_idemp_l. rewrite Z.mod_small by lia. lia.
Qed.
