(* ===== verification/RingBuf.v ===== *)
(** * RingBuf: the ring buffer of the kernel's queues (kernel/rhino/core/k_ringbuf.c)

    Messages of one size ([RINGBUF_TYPE_FIX]) or of any size, with their length in front
    ([RINGBUF_TYPE_DYN]), in a ring of bytes.  [buf] is the memory from [buf] to [end], and
    [head] and [tail] are offsets into it; both may be at [end].  [size_t] has 32 bits.  A
    copy that leaves the memory of the ring or of the caller is [None].  The functions
    [krhino_ringbuf_*] are compiled out (RHINO_CONFIG_RINGBUF_VENDOR is 0); the queues use
    the ones modelled here. *)
From Stdlib Require Import ZArith Lia List Bool.
From stdpp Require Import base list numbers option.
From S2P Require Import Prelude Env Kernel.
Local Open Scope Z_scope.

Inductive ringbuf_type := RINGBUF_TYPE_FIX | RINGBUF_TYPE_DYN.
Record k_ringbuf_t := mkRing { rb_buf : list Z; rb_head : Z; rb_tail : Z; freesize : Z; rb_type : ringbuf_type; blk_size : Z }.
Definition RING_BUF_LEN : Z := 4.
Definition rb_end (r : k_ringbuf_t) : Z := Z.of_nat (length (rb_buf r)).

(** [memcpy] of [n] bytes from [src] to offset [p] of the ring, and from offset [p] of the ring. *)
Definition copy_in (p n : Z) (src buf : list Z) : option (list Z) :=
  if (0 <=? p) && (0 <=? n) && (p + n <=? Z.of_nat (length buf)) && (n <=? Z.of_nat (length src))
  then Some (take (Z.to_nat p) buf ++ take (Z.to_nat n) src ++ drop (Z.to_nat (p + n)) buf) else None.
Definition copy_out (p n : Z) (buf : list Z) : option (list Z) :=
  if (0 <=? p) && (0 <=? n) && (p + n <=? Z.of_nat (length buf)) then Some (take (Z.to_nat n) (drop (Z.to_nat p) buf)) else None.

Definition ringbuf_reset (r : k_ringbuf_t) : k_ringbuf_t := mkRing (rb_buf r) 0 0 (rb_end r) (rb_type r) (blk_size r).
Definition ringbuf_init (buf : list Z) (ty : ringbuf_type) (block_size : Z) : k_ringbuf_t := ringbuf_reset (mkRing buf 0 0 0 ty block_size).
Definition ringbuf_is_full (r : k_ringbuf_t) : bool :=
  match rb_type r with RINGBUF_TYPE_DYN => freesize r <? RING_BUF_LEN + 1 | RINGBUF_TYPE_FIX => freesize r <? blk_size r end.
Definition ringbuf_is_empty (r : k_ringbuf_t) : bool := freesize r =? rb_end r.

(** [tail] and [head] at the end of the memory go to its start. *)
Definition wrap_tail (r : k_ringbuf_t) : k_ringbuf_t := mkRing (rb_buf r) (rb_head r) (if rb_tail r =? rb_end r then 0 else rb_tail r) (freesize r) (rb_type r) (blk_size r).
Definition wrap_head (r : k_ringbuf_t) : k_ringbuf_t := mkRing (rb_buf r) (if rb_head r =? rb_end r then 0 else rb_head r) (rb_tail r) (freesize r) (rb_type r) (blk_size r).
(** [n] bytes are copied to the tail. *)
Definition put (n : Z) (src : list Z) (r : k_ringbuf_t) : option k_ringbuf_t :=
  b ← copy_in (rb_tail r) n src (rb_buf r); Some (mkRing b (rb_head r) (rb_tail r + n) (u32 (freesize r - n)) (rb_type r) (blk_size r)).
(** [n] bytes are copied to the end of the memory, and the tail goes to its start. *)
Definition put_end (n : Z) (src : list Z) (r : k_ringbuf_t) : option k_ringbuf_t :=
  b ← copy_in (rb_tail r) n src (rb_buf r); Some (mkRing b (rb_head r) 0 (u32 (freesize r - n)) (rb_type r) (blk_size r)).
Definition get (n : Z) (r : k_ringbuf_t) : option (list Z * k_ringbuf_t) :=
  d ← copy_out (rb_head r) n (rb_buf r); Some (d, mkRing (rb_buf r) (rb_head r + n) (rb_tail r) (u32 (freesize r + n)) (rb_type r) (blk_size r)).
Definition get_end (n : Z) (r : k_ringbuf_t) : option (list Z * k_ringbuf_t) :=
  d ← copy_out (rb_head r) n (rb_buf r); Some (d, mkRing (rb_buf r) 0 (rb_tail r) (u32 (freesize r + n)) (rb_type r) (blk_size r)).

(** [data]: the memory of the caller from the argument on. *)
Definition push_fix (data : list Z) (r : k_ringbuf_t) : option (kstat_t * k_ringbuf_t) :=
  if freesize r <? blk_size r then Some (RHINO_RINGBUF_FULL, r) else
  r1 ← put (blk_size r) data (wrap_tail r); Some (RHINO_SUCCESS, r1).
Definition push_len (len : Z) (r : k_ringbuf_t) : option k_ringbuf_t :=
  let c_len := le32 len in
  let r := wrap_tail r in
  let split_len := rb_end r - rb_tail r in
  if (rb_head r <=? rb_tail r) && (split_len <? RING_BUF_LEN) && (0 <? split_len) then
    r1 ← put_end split_len c_len r;
    let len_bytes := RING_BUF_LEN - split_len in
    if 0 <? len_bytes then put len_bytes (drop (Z.to_nat split_len) c_len) r1 else Some r1
  else put RING_BUF_LEN c_len r.
Definition push_data (data : list Z) (len : Z) (r : k_ringbuf_t) : option k_ringbuf_t :=
  let r := wrap_tail r in
  let split_len := rb_end r - rb_tail r in
  if (rb_head r <=? rb_tail r) && (split_len <? len) && (0 <? split_len) then
    r1 ← put_end split_len data r; put (len - split_len) (drop (Z.to_nat split_len) data) r1
  else put len data r.
Definition push_dyn (data : list Z) (len : Z) (r : k_ringbuf_t) : option (kstat_t * k_ringbuf_t) :=
  if (len =? 0) || (4294967295 <=? len) then Some (RHINO_INV_PARAM, r) else
  if freesize r <? u32 (RING_BUF_LEN + len) then Some (RHINO_RINGBUF_FULL, r) else
  r1 ← push_len len r; r2 ← push_data data len r1; Some (RHINO_SUCCESS, r2).
Definition ringbuf_push (data : list Z) (len : Z) (r : k_ringbuf_t) : option (kstat_t * k_ringbuf_t) :=
  match rb_type r with RINGBUF_TYPE_FIX => push_fix data r | RINGBUF_TYPE_DYN => push_dyn data len r end.

Definition get_len (b : list Z) : Z := get_le32 (nth 0 b 0) (nth 1 b 0) (nth 2 b 0) (nth 3 b 0).
Definition pop_len (r : k_ringbuf_t) : option (Z * k_ringbuf_t) :=
  let r := wrap_head r in
  let split_len := rb_end r - rb_head r in
  if (split_len <? RING_BUF_LEN) && (0 <? split_len) then
    '(c1, r1) ← get_end split_len r;
    if 0 <? RING_BUF_LEN - split_len then '(c2, r2) ← get (RING_BUF_LEN - split_len) r1; Some (get_len (c1 ++ c2), r2) else Some (get_len (c1 ++ repeat 0 (Z.to_nat (RING_BUF_LEN - split_len))), r1)
  else '(c, r1) ← get RING_BUF_LEN r; Some (get_len c, r1).
Definition pop_data (len : Z) (r : k_ringbuf_t) : option (list Z * k_ringbuf_t) :=
  let r := wrap_head r in
  let split_len := rb_end r - rb_head r in
  if (rb_tail r <? rb_head r) && (split_len <? len) then
    '(d1, r1) ← get_end split_len r; '(d2, r2) ← get (len - split_len) r1; Some (d1 ++ d2, r2)
  else get len r.
(** The message is what [pdata] gets; its length is [*plen]. *)
Definition ringbuf_pop (r : k_ringbuf_t) : option (kstat_t * list Z * k_ringbuf_t) :=
  if ringbuf_is_empty r then Some (RHINO_RINGBUF_EMPTY, [], r) else
  match rb_type r with
  | RINGBUF_TYPE_FIX => '(d, r1) ← get (blk_size r) (wrap_head r); Some (RHINO_SUCCESS, d, r1)
  | RINGBUF_TYPE_DYN => '(len, r1) ← pop_len r; '(d, r2) ← pop_data len r1; Some (RHINO_SUCCESS, d, r2)
  end.

(** ** The bytes in the ring *)

Definition cell (cap h i : Z) : Z := if h + i <? cap then h + i else h + i - cap.
(** [l] is in the ring, from [head] on. *)
Record RB (r : k_ringbuf_t) (l : list Z) : Prop := mkRB {
  b_cap : 0 < rb_end r < 4294967296; b_head : 0 ≤ rb_head r ≤ rb_end r; b_tail : 0 ≤ rb_tail r ≤ rb_end r; b_len : Z.of_nat (length l) ≤ rb_end r;
  b_free : freesize r = rb_end r - Z.of_nat (length l);
  b_pos : rb_tail r = rb_head r + Z.of_nat (length l) ∨ rb_tail r + rb_end r = rb_head r + Z.of_nat (length l);
  b_cells : ∀ i, (i < length l)%nat → rb_buf r !! Z.to_nat (cell (rb_end r) (rb_head r) (Z.of_nat i)) = l !! i }.
(** What pushing and popping leaves as it is. *)
Record same_ring (r r' : k_ringbuf_t) : Prop := mkSame { s_end : rb_end r' = rb_end r; s_type : rb_type r' = rb_type r; s_blk : blk_size r' = blk_size r }.

#[export] Instance same_ring_preorder : PreOrder same_ring.
Proof. split; [intros r; split; reflexivity|intros r1 r2 r3 [A1 A2 A3] [B1 B2 B3]; split; congruence]. Qed.

Lemma copy_in_some p n src buf : 0 ≤ p → 0 ≤ n → p + n ≤ Z.of_nat (length buf) → n ≤ Z.of_nat (length src) →
  copy_in p n src buf = Some (take (Z.to_nat p) buf ++ take (Z.to_nat n) src ++ drop (Z.to_nat (p + n)) buf).
Proof.
  intros A B C D. unfold copy_in. rewrite (proj2 (Z.leb_le 0 p) A), (proj2 (Z.leb_le 0 n) B), (proj2 (Z.leb_le _ _) C), (proj2 (Z.leb_le _ _) D). reflexivity.
Qed.
Lemma copy_in_lookup p n (src buf : list Z) j : 0 ≤ p → 0 ≤ n → p + n ≤ Z.of_nat (length buf) → n ≤ Z.of_nat (length src) →
  (take (Z.to_nat p) buf ++ take (Z.to_nat n) src ++ drop (Z.to_nat (p + n)) buf) !! j =
  if (p <=? Z.of_nat j) && (Z.of_nat j <? p + n) then src !! (j - Z.to_nat p)%nat else buf !! j.
Proof.
  intros A B C D. destruct (Z.leb_spec p (Z.of_nat j)); [destruct (Z.ltb_spec (Z.of_nat j) (p + n))|]; simpl.
  - rewrite lookup_app_r by (rewrite length_take; lia). rewrite lookup_app_l by (rewrite !length_take; lia). rewrite lookup_take_lt by (rewrite length_take; lia). f_equal. rewrite length_take. lia.
  - rewrite lookup_app_r by (rewrite length_take; lia). rewrite lookup_app_r by (rewrite !length_take; lia). rewrite lookup_drop. f_equal. rewrite !length_take. lia.
  - rewrite lookup_app_l by (rewrite length_take; lia). rewrite lookup_take_lt by lia. reflexivity.
Qed.
Lemma copy_out_some p n buf : 0 ≤ p → 0 ≤ n → p + n ≤ Z.of_nat (length buf) → copy_out p n buf = Some (take (Z.to_nat n) (drop (Z.to_nat p) buf)).
Proof. intros A B C. unfold copy_out. rewrite (proj2 (Z.leb_le 0 p) A), (proj2 (Z.leb_le 0 n) B), (proj2 (Z.leb_le _ _) C). reflexivity. Qed.

Lemma put_raw r l n src t : RB r l → 0 < n ≤ Z.of_nat (length src) → Z.of_nat (length l) + n ≤ rb_end r → rb_tail r + n ≤ rb_end r →
  t = rb_tail r + n ∨ t = 0 ∧ rb_tail r + n = rb_end r ∧ rb_head r < rb_end r →
  ∃ b, copy_in (rb_tail r) n src (rb_buf r) = Some b ∧ length b = length (rb_buf r) ∧
    RB (mkRing b (rb_head r) t (u32 (freesize r - n)) (rb_type r) (blk_size r)) (l ++ take (Z.to_nat n) src).
Proof.
  intros [Hc Hh Ht Hl Hf Hp Hx] Hn Hr He Hq. eexists. split; [apply copy_in_some; unfold rb_end in *; lia|].
  assert (El : length (take (Z.to_nat (rb_tail r)) (rb_buf r) ++ take (Z.to_nat n) src ++ drop (Z.to_nat (rb_tail r + n)) (rb_buf r)) = length (rb_buf r)).
  { rewrite !length_app, !length_take, length_drop. unfold rb_end in *. lia. }
  assert (Em : Z.of_nat (length (l ++ take (Z.to_nat n) src)) = Z.of_nat (length l) + n) by (rewrite length_app, length_take; lia).
  split; [exact El|].
  assert (Ee : ∀ h t f ty s, rb_end (mkRing (take (Z.to_nat (rb_tail r)) (rb_buf r) ++ take (Z.to_nat n) src ++ drop (Z.to_nat (rb_tail r + n)) (rb_buf r)) h t f ty s) = rb_end r) by (intros; unfold rb_end; cbn [rb_buf]; rewrite El; reflexivity).
  split; rewrite ?Ee, ?Em; cbn [rb_buf rb_head rb_tail freesize]; try lia.
  - rewrite u32_small by lia. lia.
  - intros i Hi. assert (Hi' : Z.of_nat i < Z.of_nat (length l) + n) by lia. rewrite copy_in_lookup by (unfold rb_end in *; lia). unfold cell.
    destruct (Nat.lt_ge_cases i (length l)) as [Hil|Hil].
    + rewrite lookup_app_l by lia. rewrite <- (Hx i Hil). unfold cell. destruct (Z.ltb_spec (rb_head r + Z.of_nat i) (rb_end r)).
      * rewrite Z2Nat.id by lia. destruct (Z.leb_spec (rb_tail r) (rb_head r + Z.of_nat i)), (Z.ltb_spec (rb_head r + Z.of_nat i) (rb_tail r + n)); try reflexivity. exfalso. lia.
      * rewrite Z2Nat.id by lia. destruct (Z.leb_spec (rb_tail r) (rb_head r + Z.of_nat i - rb_end r)), (Z.ltb_spec (rb_head r + Z.of_nat i - rb_end r) (rb_tail r + n)); try reflexivity. exfalso. lia.
    + rewrite lookup_app_r by lia. rewrite lookup_take_lt by lia.
      assert (Ec : (if rb_head r + Z.of_nat i <? rb_end r then rb_head r + Z.of_nat i else rb_head r + Z.of_nat i - rb_end r) = rb_tail r + (Z.of_nat i - Z.of_nat (length l))).
      { destruct (Z.ltb_spec (rb_head r + Z.of_nat i) (rb_end r)); lia. }
      rewrite Ec, Z2Nat.id by lia. rewrite (proj2 (Z.leb_le _ _)) by lia. rewrite (proj2 (Z.ltb_lt _ _)) by lia. simpl. f_equal. lia.
Qed.
Lemma put_ok r l n src : RB r l → 0 < n ≤ Z.of_nat (length src) → Z.of_nat (length l) + n ≤ rb_end r → rb_tail r + n ≤ rb_end r →
  ∃ r', put n src r = Some r' ∧ RB r' (l ++ take (Z.to_nat n) src) ∧ same_ring r r' ∧ rb_head r' = rb_head r ∧ rb_tail r' = rb_tail r + n.
Proof.
  intros HR Hn Hr He. destruct (put_raw r l n src (rb_tail r + n) HR Hn Hr He) as (b & Eb & El & HB); [auto|]. unfold put. rewrite Eb. simpl. eexists. split; [reflexivity|].
  split; [exact HB|]. repeat split. unfold rb_end. simpl. congruence.
Qed.
Lemma put_end_ok r l n src : RB r l → 0 < n ≤ Z.of_nat (length src) → Z.of_nat (length l) + n ≤ rb_end r → rb_tail r + n = rb_end r → rb_head r < rb_end r →
  ∃ r', put_end n src r = Some r' ∧ RB r' (l ++ take (Z.to_nat n) src) ∧ same_ring r r' ∧ rb_head r' = rb_head r ∧ rb_tail r' = 0.
Proof.
  intros HR Hn Hr He Hh. destruct (put_raw r l n src 0 HR Hn Hr) as (b & Eb & El & HB); [lia|auto|]. unfold put_end. rewrite Eb. simpl. eexists. split; [reflexivity|].
  split; [exact HB|]. repeat split. unfold rb_end. simpl. congruence.
Qed.
Lemma wrap_tail_ok r l : RB r l → Z.of_nat (length l) < rb_end r → RB (wrap_tail r) l ∧ same_ring r (wrap_tail r) ∧ rb_head (wrap_tail r) = rb_head r ∧ rb_tail (wrap_tail r) < rb_end r.
Proof.
  intros [Hc Hh Ht Hl Hf Hp Hx] Hlt. split; [|repeat split; simpl; destruct (Z.eqb_spec (rb_tail r) (rb_end r)); lia].
  split; change (rb_end (wrap_tail r)) with (rb_end r); simpl; auto; destruct (Z.eqb_spec (rb_tail r) (rb_end r)); lia.
Qed.
Lemma wrap_head_ok r l : RB r l → 0 < Z.of_nat (length l) → RB (wrap_head r) l ∧ same_ring r (wrap_head r) ∧ rb_tail (wrap_head r) = rb_tail r ∧ rb_head (wrap_head r) < rb_end r.
Proof.
  intros [Hc Hh Ht Hl Hf Hp Hx] Hlt. split; [|repeat split; simpl; destruct (Z.eqb_spec (rb_head r) (rb_end r)); lia].
  split; change (rb_end (wrap_head r)) with (rb_end r); simpl; auto; destruct (Z.eqb_spec (rb_head r) (rb_end r)); try lia; auto.
  intros i Hi. rewrite <- (Hx i Hi). f_equal. unfold cell. destruct (Z.ltb_spec (0 + Z.of_nat i) (rb_end r)), (Z.ltb_spec (rb_head r + Z.of_nat i) (rb_end r)); lia.
Qed.

Lemma get_raw r l1 l2 h : RB r (l1 ++ l2) → rb_head r + Z.of_nat (length l1) ≤ rb_end r →
  h = rb_head r + Z.of_nat (length l1) ∨ h = 0 ∧ rb_head r + Z.of_nat (length l1) = rb_end r ∧ l2 ≠ [] →
  copy_out (rb_head r) (Z.of_nat (length l1)) (rb_buf r) = Some l1 ∧
  RB (mkRing (rb_buf r) h (rb_tail r) (u32 (freesize r + Z.of_nat (length l1))) (rb_type r) (blk_size r)) l2.
Proof.
  intros [Hc Hh Ht Hl Hf Hp Hx] He Hq. rewrite length_app, Nat2Z.inj_add in *. assert (H2 : h = rb_head r + Z.of_nat (length l1) ∨ h = 0 ∧ rb_head r + Z.of_nat (length l1) = rb_end r ∧ 0 < Z.of_nat (length l2)) by (destruct Hq as [?|(? & ? & ?)]; [auto|right; destruct l2; [congruence|simpl; lia]]). clear Hq. split.
  - rewrite copy_out_some by (unfold rb_end in *; lia). f_equal. apply list_eq. intros i. destruct (Nat.lt_ge_cases i (length l1)) as [Hi|Hi].
    + rewrite lookup_take_lt by lia. rewrite lookup_drop. specialize (Hx i ltac:(lia)). rewrite lookup_app_l in Hx by lia. rewrite <- Hx. f_equal. unfold cell.
      rewrite (proj2 (Z.ltb_lt _ _)) by lia. lia.
    + rewrite lookup_take_ge by lia. symmetry. apply lookup_ge_None_2. lia.
  - split; change (rb_end (mkRing (rb_buf r) h (rb_tail r) (u32 (freesize r + Z.of_nat (length l1))) (rb_type r) (blk_size r))) with (rb_end r); simpl; try lia.
    + rewrite u32_small by lia. lia.
    + intros i Hi. specialize (Hx (length l1 + i)%nat ltac:(lia)). rewrite lookup_app_r in Hx by lia.
      replace (length l1 + i - length l1)%nat with i in Hx by lia. rewrite <- Hx. f_equal. unfold cell.
      destruct (Z.ltb_spec (h + Z.of_nat i) (rb_end r)), (Z.ltb_spec (rb_head r + Z.of_nat (length l1 + i)) (rb_end r)); lia.
Qed.
Lemma get_ok r n l1 l2 : RB r (l1 ++ l2) → n = Z.of_nat (length l1) → rb_head r + n ≤ rb_end r →
  ∃ r', get n r = Some (l1, r') ∧ RB r' l2 ∧ same_ring r r' ∧ rb_tail r' = rb_tail r ∧ rb_head r' = rb_head r + n.
Proof.
  intros HR -> He. destruct (get_raw r l1 l2 (rb_head r + Z.of_nat (length l1)) HR He) as [E HB]; [auto|]. unfold get. rewrite E. simpl. eexists. split; [reflexivity|]. split; [exact HB|]. repeat split.
Qed.
Lemma get_end_ok r n l1 l2 : RB r (l1 ++ l2) → n = Z.of_nat (length l1) → rb_head r + n = rb_end r → l2 ≠ [] →
  ∃ r', get_end n r = Some (l1, r') ∧ RB r' l2 ∧ same_ring r r' ∧ rb_tail r' = rb_tail r ∧ rb_head r' = 0.
Proof.
  intros HR -> He H2. destruct (get_raw r l1 l2 0 HR) as [E HB]; [lia|auto|]. unfold get_end. rewrite E. simpl. eexists. split; [reflexivity|]. split; [exact HB|]. repeat split.
Qed.

(** ** Pushing and popping bytes *)

(** Both copies of a push, split at the end of the memory or not. *)
Lemma push_split_ok r l src n : RB r l → 0 < n ≤ Z.of_nat (length src) → Z.of_nat (length l) + n ≤ rb_end r → rb_tail r < rb_end r →
  let split_len := rb_end r - rb_tail r in
  ∃ r', (if (rb_head r <=? rb_tail r) && (split_len <? n) && (0 <? split_len) then r1 ← put_end split_len src r; put (n - split_len) (drop (Z.to_nat split_len) src) r1 else put n src r) = Some r' ∧
    RB r' (l ++ take (Z.to_nat n) src) ∧ same_ring r r'.
Proof.
  intros HR Hn Hl Ht split_len. assert (Hs : 0 < split_len) by (subst split_len; lia). pose proof (b_pos _ _ HR) as Hp. pose proof (b_head _ _ HR) as Hh. pose proof (b_tail _ _ HR) as Htt.
  destruct (Z.leb_spec (rb_head r) (rb_tail r)) as [H1|H1]; [destruct (Z.ltb_spec split_len n) as [H2|H2]|]; cbn [andb]; rewrite ?(proj2 (Z.ltb_lt _ _) Hs).
  - destruct (put_end_ok r l split_len src HR) as (r1 & -> & HR1 & S1 & E1 & E2); [lia|lia|lia|lia|]. simpl.
    assert (Len : Z.of_nat (length (l ++ take (Z.to_nat split_len) src)) = Z.of_nat (length l) + split_len) by (rewrite length_app, length_take; lia).
    destruct (put_ok r1 _ (n - split_len) (drop (Z.to_nat split_len) src) HR1) as (r2 & -> & HR2 & S2 & _);
      [rewrite length_drop; lia|rewrite Len, (s_end _ _ S1); lia|rewrite E2, (s_end _ _ S1); lia|].
    exists r2. split; [reflexivity|]. split; [|etransitivity; eassumption]. rewrite <- app_assoc in HR2. rewrite take_take_drop in HR2. replace (Z.to_nat split_len + Z.to_nat (n - split_len))%nat with (Z.to_nat n) in HR2 by lia. exact HR2.
  - destruct (put_ok r l n src HR) as (r1 & -> & HR1 & S1 & _); [lia|lia|lia|]. eauto.
  - destruct (put_ok r l n src HR) as (r1 & -> & HR1 & S1 & _); [lia|lia|lia|]. eauto.
Qed.
Lemma push_len_ok r l n : RB r l → Z.of_nat (length l) + 4 ≤ rb_end r → ∃ r', push_len n r = Some r' ∧ RB r' (l ++ le32 n) ∧ same_ring r r'.
Proof.
  intros HR Hl. destruct (wrap_tail_ok r l HR) as (HW & SW & _ & Ht); [lia|]. pose proof (s_end _ _ SW) as Ee.
  destruct (push_split_ok (wrap_tail r) l (le32 n) 4 HW) as (r' & E & HR' & S'); [cbn; lia|lia|lia|].
  exists r'. split; [|split; [exact HR'|etransitivity; eassumption]]. rewrite <- E. unfold push_len, RING_BUF_LEN. cbv zeta.
  destruct (_ && (_ <? 4) && _) eqn:C; [|reflexivity]. destruct (put_end _ _ _); [|reflexivity]. cbn [mbind option_bind].
  apply andb_prop in C as [C _]. apply andb_prop in C as [_ C]. apply Z.ltb_lt in C. rewrite (proj2 (Z.ltb_lt _ _)) by lia. reflexivity.
Qed.
Lemma push_data_ok r l d n : RB r l → 0 < n ≤ Z.of_nat (length d) → Z.of_nat (length l) + n ≤ rb_end r →
  ∃ r', push_data d n r = Some r' ∧ RB r' (l ++ take (Z.to_nat n) d) ∧ same_ring r r'.
Proof.
  intros HR Hn Hl. destruct (wrap_tail_ok r l HR) as (HW & SW & _ & Ht); [lia|]. pose proof (s_end _ _ SW) as Ee.
  destruct (push_split_ok (wrap_tail r) l d n HW) as (r' & E & HR' & S'); [lia|lia|lia|]. exists r'. split; [exact E|]. split; [exact HR'|etransitivity; eassumption].
Qed.

Lemma ring_split {A} (l : list A) n : (n ≤ length l)%nat → ∃ a b, l = a ++ b ∧ length a = n ∧ length b = (length l - n)%nat.
Proof. intros H. exists (take n l), (drop n l). rewrite take_drop, length_take, length_drop. split; [reflexivity|]. lia. Qed.
Lemma get_len_le32 n : 0 ≤ n < 4294967296 → get_len (le32 n) = n.
Proof. intros H. apply get_le32_le32. exact H. Qed.
Lemma pop_len_ok r n l : RB r (le32 n ++ l) → 0 ≤ n < 4294967296 → l ≠ [] → ∃ r', pop_len r = Some (n, r') ∧ RB r' l ∧ same_ring r r'.
Proof.
  intros HR Hn Hl. assert (L4 : length (le32 n) = 4%nat) by reflexivity. destruct (wrap_head_ok r _ HR) as (HW & SW & _ & Hh); [rewrite length_app; lia|].
  pose proof (s_end _ _ SW) as Ee. pose proof (b_head _ _ HW) as Hb. unfold pop_len, RING_BUF_LEN. cbv zeta. set (split_len := rb_end (wrap_head r) - rb_head (wrap_head r)).
  assert (Hs : 0 < split_len) by (subst split_len; lia). rewrite (proj2 (Z.ltb_lt _ _) Hs), andb_true_r. destruct (Z.ltb_spec split_len 4).
  - destruct (ring_split (le32 n) (Z.to_nat split_len)) as (a & b & E & La & Lb); [lia|]. rewrite E, <- app_assoc in HW.
    destruct (get_end_ok _ split_len a (b ++ l) HW) as (r1 & -> & HR1 & S1 & _ & H1); [lia|subst split_len; lia|destruct b; [simpl in Lb; lia|discriminate]|]. cbn [mbind option_bind].
    rewrite (proj2 (Z.ltb_lt _ _)) by lia. destruct (get_ok r1 (4 - split_len) b l HR1) as (r2 & -> & HR2 & S2 & _); [lia| |].
    { pose proof (b_len _ _ HR1) as Hbl. rewrite length_app in Hbl. lia. }
    cbn [mbind option_bind]. rewrite <- E, get_len_le32 by exact Hn. exists r2. split; [reflexivity|]. split; [exact HR2|]. do 2 (etransitivity; [eassumption|]). exact S2.
  - destruct (get_ok _ 4 (le32 n) l HW) as (r1 & -> & HR1 & S1 & _); [reflexivity|subst split_len; lia|]. cbn [mbind option_bind]. rewrite get_len_le32 by exact Hn. exists r1. split; [reflexivity|].
    split; [exact HR1|etransitivity; eassumption].
Qed.
Lemma pop_data_ok r d l : RB r (d ++ l) → d ≠ [] → Z.of_nat (length (d ++ l)) < rb_end r → ∃ r', pop_data (Z.of_nat (length d)) r = Some (d, r') ∧ RB r' l ∧ same_ring r r'.
Proof.
  intros HR Hd Hlt. assert (Ld : 0 < Z.of_nat (length d)) by (destruct d; [congruence|simpl; lia]). destruct (wrap_head_ok r _ HR) as (HW & SW & _ & Hh); [rewrite length_app; lia|].
  pose proof (s_end _ _ SW) as Ee. pose proof (b_head _ _ HW) as Hb. pose proof (b_pos _ _ HW) as Hp. pose proof (b_tail _ _ HW) as Ht. rewrite length_app, Nat2Z.inj_add in Hp, Hlt.
  unfold pop_data. cbv zeta. set (split_len := rb_end (wrap_head r) - rb_head (wrap_head r)). assert (Hs : 0 < split_len) by (subst split_len; lia).
  destruct (Z.ltb_spec (rb_tail (wrap_head r)) (rb_head (wrap_head r))); [destruct (Z.ltb_spec split_len (Z.of_nat (length d)))|]; cbn [andb].
  - destruct (ring_split d (Z.to_nat split_len)) as (a & b & -> & La & Lb); [lia|]. rewrite <- app_assoc in HW.
    destruct (get_end_ok _ split_len a (b ++ l) HW) as (r1 & -> & HR1 & S1 & _ & H1); [lia|subst split_len; lia|destruct b; [simpl in Lb; lia|discriminate]|]. cbn [mbind option_bind].
    rewrite length_app in *. destruct (get_ok r1 (Z.of_nat (length a + length b) - split_len) b l HR1) as (r2 & -> & HR2 & S2 & _); [lia| |].
    { pose proof (b_len _ _ HR1) as Hbl. rewrite length_app in Hbl. lia. }
    exists r2. split; [reflexivity|]. split; [exact HR2|]. do 2 (etransitivity; [eassumption|]). exact S2.
  - destruct (get_ok _ _ d l HW eq_refl) as (r1 & -> & HR1 & S1 & _); [subst split_len; lia|]. exists r1. split; [reflexivity|]. split; [exact HR1|etransitivity; eassumption].
  - destruct (get_ok _ _ d l HW eq_refl) as (r1 & -> & HR1 & S1 & _); [lia|]. exists r1. split; [reflexivity|]. split; [exact HR1|etransitivity; eassumption].
Qed.

(** ** Messages *)

Definition encode (ty : ringbuf_type) (d : list Z) : list Z := match ty with RINGBUF_TYPE_FIX => d | RINGBUF_TYPE_DYN => le32 (Z.of_nat (length d)) ++ d end.
Definition used (ty : ringbuf_type) (q : list (list Z)) : Z := Z.of_nat (length (concat (map (encode ty) q))).
Definition msg_ok (ty : ringbuf_type) (blk : Z) (d : list Z) : Prop :=
  match ty with RINGBUF_TYPE_FIX => Z.of_nat (length d) = blk | RINGBUF_TYPE_DYN => 0 < Z.of_nat (length d) < 4294967296 end.
Definition aligned (r : k_ringbuf_t) : Prop :=
  rb_type r = RINGBUF_TYPE_FIX → 0 < blk_size r ∧ (blk_size r | rb_end r) ∧ (blk_size r | rb_head r) ∧ (blk_size r | rb_tail r).
(** The messages [q] are in the ring. *)
Record holds (r : k_ringbuf_t) (q : list (list Z)) : Prop := mkHolds {
  h_bytes : RB r (concat (map (encode (rb_type r)) q)); h_msgs : Forall (msg_ok (rb_type r) (blk_size r)) q; h_aligned : aligned r }.

Lemma used_nil_iff ty blk q : (ty = RINGBUF_TYPE_FIX → 0 < blk) → Forall (msg_ok ty blk) q → used ty q = 0 → q = [].
Proof. intros Hb [|d q' Hd _]; [reflexivity|]. unfold used. simpl. rewrite length_app. destruct ty; simpl in *; [specialize (Hb eq_refl)|]; lia. Qed.
(** A message takes a byte at least. *)
Lemma msgs_length ty blk q : (ty = RINGBUF_TYPE_FIX → 0 < blk) → Forall (msg_ok ty blk) q → Z.of_nat (length q) ≤ used ty q.
Proof.
  intros Hb Hm. unfold used. induction Hm as [|d q Hd _ IH]; [simpl; lia|]. simpl map. rewrite concat_cons, length_app. unfold msg_ok in Hd. destruct ty; [specialize (Hb eq_refl)|]; cbn [encode]; rewrite ?length_app; cbn [length]; lia.
Qed.
Lemma holds_length r q : holds r q → Z.of_nat (length q) ≤ rb_end r.
Proof. intros [HB HM HA]. pose proof (msgs_length _ _ _ (λ T, proj1 (HA T)) HM) as Hl. pose proof (b_len _ _ HB). unfold used in Hl. lia. Qed.
Lemma divide_step b x e : 0 < b → (b | x) → (b | e) → x < e → x + b ≤ e.
Proof.
  intros Hb [a ->] [k ->] H. assert (a < k) by (apply (Z.mul_lt_mono_pos_r b); lia). assert ((a + 1) * b ≤ k * b) by (apply Z.mul_le_mono_nonneg_r; lia). lia.
Qed.

Lemma empty_ok r q : holds r q → ringbuf_is_empty r = true ↔ q = [].
Proof.
  intros [HB HM HA]. unfold ringbuf_is_empty. rewrite (b_free _ _ HB), Z.eqb_eq. split.
  - intros E. apply (used_nil_iff (rb_type r) (blk_size r)); [intros T; apply (HA T)|exact HM|unfold used; lia].
  - intros ->. simpl. lia.
Qed.
Lemma push_fix_ok r q d : holds r q → rb_type r = RINGBUF_TYPE_FIX → used RINGBUF_TYPE_FIX q + blk_size r ≤ rb_end r → blk_size r ≤ Z.of_nat (length d) →
  ∃ r', put (blk_size r) d (wrap_tail r) = Some r' ∧ holds r' (q ++ [take (Z.to_nat (blk_size r)) d]) ∧ same_ring r r'.
Proof.
  intros [HB HM HA] T Hf Hd. destruct (HA T) as (H0 & De & Dh & Dt). unfold used in Hf. rewrite T in HB.
  destruct (wrap_tail_ok r _ HB) as (HW & SW & Eh & Ht); [lia|]. pose proof (s_end _ _ SW) as Ee.
  assert (Dt' : (blk_size r | rb_tail (wrap_tail r))) by (simpl; destruct (_ =? _); [exists 0; lia|exact Dt]).
  pose proof (divide_step _ _ _ H0 Dt' De Ht) as Hle. destruct (put_ok (wrap_tail r) _ (blk_size r) d HW) as (r' & E & HR & S' & Eh' & Et'); [lia|lia|lia|].
  assert (ST : same_ring r r') by (etransitivity; eassumption). exists r'. split; [exact E|]. split; [|exact ST]. destruct ST as [E1 E2 E3]. split.
  - rewrite E2, T, map_app, concat_app. simpl. rewrite app_nil_r. exact HR.
  - rewrite E2, E3. apply Forall_app. split; [exact HM|]. constructor; [|constructor]. rewrite T. simpl. rewrite length_take. lia.
  - intros _. rewrite E1, E3, Eh', Et', Eh. split; [exact H0|]. split; [exact De|]. split; [exact Dh|]. apply Z.divide_add_r; [exact Dt'|reflexivity].
Qed.
Lemma push_dyn_ok r q d : holds r q → rb_type r = RINGBUF_TYPE_DYN → d ≠ [] → Z.of_nat (length d) < 4294967292 → used RINGBUF_TYPE_DYN q + 4 + Z.of_nat (length d) ≤ rb_end r →
  ∃ r1 r', push_len (Z.of_nat (length d)) r = Some r1 ∧ push_data d (Z.of_nat (length d)) r1 = Some r' ∧ holds r' (q ++ [d]) ∧ same_ring r r'.
Proof.
  intros [HB HM HA] T Hd Hb Hf. unfold used in Hf. rewrite T in HB. assert (Ld : 0 < Z.of_nat (length d)) by (destruct d; [congruence|simpl; lia]).
  destruct (push_len_ok r _ (Z.of_nat (length d)) HB) as (r1 & E1 & HR1 & S1); [lia|].
  destruct (push_data_ok r1 _ d (Z.of_nat (length d)) HR1) as (r' & E' & HR' & S'); [lia|rewrite length_app, (s_end _ _ S1); simpl length; lia|].
  exists r1, r'. split; [exact E1|]. split; [exact E'|]. assert (ST : same_ring r r') by (etransitivity; eassumption). split; [|exact ST]. destruct ST as [F1 F2 F3]. split.
  - rewrite F2, T, map_app, concat_app. cbn [map concat encode]. rewrite app_nil_r. rewrite Nat2Z.id, firstn_all, <- app_assoc in HR'. exact HR'.
  - rewrite F2, F3. apply Forall_app. split; [exact HM|]. constructor; [|constructor]. rewrite T. simpl. lia.
  - intros Ht. congruence.
Qed.
Lemma pop_ok r d q : holds r (d :: q) → ∃ r', ringbuf_pop r = Some (RHINO_SUCCESS, d, r') ∧ holds r' q ∧ same_ring r r'.
Proof.
  intros HH. unfold ringbuf_pop. destruct (ringbuf_is_empty r) eqn:E; [apply (empty_ok _ _ HH) in E; discriminate|]. destruct HH as [HB HM HA]. inversion HM as [|? ? Hd HM']; subst.
  destruct (rb_type r) eqn:T; cbn [map concat encode] in HB; cbn [msg_ok] in Hd.
  - destruct (HA T) as (H0 & De & Dh & Dt). destruct (wrap_head_ok r _ HB) as (HW & SW & Et & Hh); [rewrite length_app; lia|].
    assert (Dh' : (blk_size r | rb_head (wrap_head r))) by (simpl; destruct (_ =? _); [exists 0; lia|exact Dh]). pose proof (divide_step _ _ _ H0 Dh' De Hh) as Hle. pose proof (s_end _ _ SW) as Ee.
    destruct (get_ok (wrap_head r) (blk_size r) d _ HW) as (r' & -> & HR & S' & Et' & Eh'); [lia|lia|]. simpl.
    assert (ST : same_ring r r') by (etransitivity; eassumption). exists r'. split; [reflexivity|]. split; [|exact ST]. destruct ST as [E1 E2 E3]. split; [rewrite E2, T; exact HR|rewrite E2, E3, T; exact HM'|].
    intros _. rewrite E1, E3, Eh', Et', Et. split; [exact H0|]. split; [exact De|]. split; [|exact Dt]. apply Z.divide_add_r; [exact Dh'|reflexivity].
  - rewrite <- app_assoc in HB. assert (Hn : d ≠ []) by (intros ->; simpl in Hd; lia).
    destruct (pop_len_ok r _ _ HB) as (r1 & -> & HR1 & S1); [lia|destruct d; [congruence|discriminate]|]. simpl.
    destruct (pop_data_ok r1 d _ HR1 Hn) as (r' & -> & HR & S'); [pose proof (b_len _ _ HB) as Hbl; rewrite length_app in Hbl; simpl in Hbl; rewrite (s_end _ _ S1); lia|]. simpl.
    assert (ST : same_ring r r') by (etransitivity; eassumption). exists r'. split; [reflexivity|]. split; [|exact ST]. destruct ST as [E1 E2 E3]. split; [rewrite E2, T; exact HR|rewrite E2, E3, T; exact HM'|congruence].
Qed.

(** ** The ring as a queue of messages *)

Inductive rb_op := RPush (d : list Z) | RPop | RReset | RIsEmpty.
Definition rb_step (op : rb_op) (r : k_ringbuf_t) : option (kstat_t * list Z * k_ringbuf_t) :=
  match op with
  | RPush d => '(st, r1) ← ringbuf_push d (Z.of_nat (length d)) r; Some (st, [], r1)
  | RPop => ringbuf_pop r
  | RReset => Some (RHINO_SUCCESS, [], ringbuf_reset r)
  | RIsEmpty => Some (if ringbuf_is_empty r then RHINO_RINGBUF_EMPTY else RHINO_SUCCESS, [], r)
  end.
Fixpoint rb_run (ops : list rb_op) (r : k_ringbuf_t) : option (list (kstat_t * list Z)) :=
  match ops with [] => Some [] | op :: ops => '(st, d, r1) ← rb_step op r; l ← rb_run ops r1; Some ((st, d) :: l) end.

(** The specification: a queue with room for [cap] bytes. *)
Definition fifo_push (ty : ringbuf_type) (cap blk : Z) (d : list Z) (q : list (list Z)) : kstat_t * list (list Z) :=
  match ty with
  | RINGBUF_TYPE_FIX => if used ty q + blk <=? cap then (RHINO_SUCCESS, q ++ [take (Z.to_nat blk) d]) else (RHINO_RINGBUF_FULL, q)
  | RINGBUF_TYPE_DYN =>
    match d with
    | [] => (RHINO_INV_PARAM, q)
    | _ => if used ty q + 4 + Z.of_nat (length d) <=? cap then (RHINO_SUCCESS, q ++ [d]) else (RHINO_RINGBUF_FULL, q)
    end
  end.
Definition fifo_step (ty : ringbuf_type) (cap blk : Z) (op : rb_op) (q : list (list Z)) : kstat_t * list Z * list (list Z) :=
  match op, q with
  | RPush d, _ => let '(st, q1) := fifo_push ty cap blk d q in (st, [], q1)
  | RPop, [] => (RHINO_RINGBUF_EMPTY, [], []) | RPop, d :: q1 => (RHINO_SUCCESS, d, q1)
  | RReset, _ => (RHINO_SUCCESS, [], [])
  | RIsEmpty, [] => (RHINO_RINGBUF_EMPTY, [], []) | RIsEmpty, _ => (RHINO_SUCCESS, [], q)
  end.
Fixpoint fifo_run (ty : ringbuf_type) (cap blk : Z) (ops : list rb_op) (q : list (list Z)) : list (kstat_t * list Z) :=
  match ops with [] => [] | op :: ops => let '(st, d, q1) := fifo_step ty cap blk op q in (st, d) :: fifo_run ty cap blk ops q1 end.
(** A message of a fixed size is in the memory of the caller; the length of others leaves room for the header in 32 bits. *)
Definition rb_arg (ty : ringbuf_type) (blk : Z) (op : rb_op) : Prop :=
  match op with
  | RPush d => match ty with RINGBUF_TYPE_FIX => blk ≤ Z.of_nat (length d) | RINGBUF_TYPE_DYN => Z.of_nat (length d) < 4294967292 end
  | _ => True
  end.

Lemma reset_ok r : 0 < rb_end r < 4294967296 → (rb_type r = RINGBUF_TYPE_FIX → 0 < blk_size r ∧ (blk_size r | rb_end r)) → holds (ringbuf_reset r) [].
Proof.
  intros Hc Ha. split; [|constructor|].
  - split; change (rb_end (ringbuf_reset r)) with (rb_end r); simpl; try lia.
  - intros T. simpl in *. destruct (Ha T) as [A B]. split; [exact A|]. split; [exact B|]. split; exists 0; lia.
Qed.
Ltac stays r := exists r; split; [reflexivity|]; split; [assumption|reflexivity].
Lemma push_step r q d : holds r q → rb_arg (rb_type r) (blk_size r) (RPush d) →
  let '(st, q1) := fifo_push (rb_type r) (rb_end r) (blk_size r) d q in ∃ r', ringbuf_push d (Z.of_nat (length d)) r = Some (st, r') ∧ holds r' q1 ∧ same_ring r r'.
Proof.
  intros HH Ha. pose proof (b_free _ _ (h_bytes _ _ HH)) as Hf. pose proof (b_cap _ _ (h_bytes _ _ HH)) as Hc. unfold ringbuf_push, fifo_push, rb_arg, used in *. destruct (rb_type r) eqn:T.
  - unfold push_fix. rewrite Hf. destruct (Z.ltb_spec (rb_end r - Z.of_nat (length (concat (map (encode RINGBUF_TYPE_FIX) q)))) (blk_size r)).
    + rewrite (proj2 (Z.leb_gt _ _)) by lia. stays r.
    + rewrite (proj2 (Z.leb_le _ _)) by lia. destruct (push_fix_ok r q d HH T) as (r' & -> & HH' & S'); [unfold used; lia|exact Ha|]. exists r'. auto.
  - unfold push_dyn, RING_BUF_LEN. destruct d as [|x d']; [simpl; stays r|]. set (d := x :: d') in *.
    assert (Ld : 0 < Z.of_nat (length d)) by (subst d; simpl; lia). destruct (Z.eqb_spec (Z.of_nat (length d)) 0); [lia|]. destruct (Z.leb_spec 4294967295 (Z.of_nat (length d))); [lia|]. cbn [orb].
    rewrite u32_small by lia. rewrite Hf. destruct (Z.ltb_spec (rb_end r - Z.of_nat (length (concat (map (encode RINGBUF_TYPE_DYN) q)))) (4 + Z.of_nat (length d))).
    + rewrite (proj2 (Z.leb_gt _ _)) by lia. stays r.
    + rewrite (proj2 (Z.leb_le _ _)) by lia. destruct (push_dyn_ok r q d HH T) as (r1 & r' & -> & E' & HH' & S'); [discriminate|lia|unfold used; lia|]. cbn [mbind option_bind]. rewrite E'. exists r'. auto.
Qed.
Lemma step_ok r q op : holds r q → rb_arg (rb_type r) (blk_size r) op →
  let '(st, d, q1) := fifo_step (rb_type r) (rb_end r) (blk_size r) op q in ∃ r', rb_step op r = Some (st, d, r') ∧ holds r' q1 ∧ same_ring r r'.
Proof.
  intros HH Ha. destruct op as [d| | |]; simpl.
  - pose proof (push_step r q d HH Ha) as H. destruct (fifo_push _ _ _ d q) as [st q1]. destruct H as (r' & -> & H). exists r'. auto.
  - destruct q as [|d q].
    + unfold ringbuf_pop. rewrite (proj2 (empty_ok _ _ HH) eq_refl). stays r.
    + apply pop_ok, HH.
  - eexists. split; [reflexivity|]. split; [|repeat split]. apply reset_ok; [apply (b_cap _ _ (h_bytes _ _ HH))|]. intros T. destruct (h_aligned _ _ HH T) as (A & B & _). auto.
  - assert (Hn : q ≠ [] → ringbuf_is_empty r = false) by (intros Hq; apply not_true_is_false; intros E; apply Hq, (empty_ok _ _ HH), E).
    destruct q; [rewrite (proj2 (empty_ok _ _ HH) eq_refl)|rewrite Hn by discriminate]; stays r.
Qed.
Lemma run_fifo ops r q : holds r q → Forall (rb_arg (rb_type r) (blk_size r)) ops → rb_run ops r = Some (fifo_run (rb_type r) (rb_end r) (blk_size r) ops q).
Proof.
  revert r q. induction ops as [|op ops IH]; intros r q HH Ha; [reflexivity|]. inversion Ha as [|? ? Ho Hr]; subst. simpl.
  pose proof (step_ok r q op HH Ho) as H. destruct (fifo_step _ _ _ op q) as [[st d] q1]. destruct H as (r' & -> & HH' & [E1 E2 E3]). simpl. rewrite (IH r' q1 HH'), E1, E2, E3 by (rewrite E2, E3; exact Hr). reflexivity.
Qed.

(** [C11] The ring buffer is a queue: whatever memory it is set up in, any sequence of pushes, pops
    and resets returns what a queue with that many bytes of room returns, messages unchanged
    and in order, and no copy leaves the memory, also where a message or its length is split
    at the end of the ring. *)
Theorem ringbuf_is_fifo buf ty blk ops :
  0 < Z.of_nat (length buf) < 4294967296 → (ty = RINGBUF_TYPE_FIX → 0 < blk ∧ (blk | Z.of_nat (length buf))) → Forall (rb_arg ty blk) ops →
  rb_run ops (ringbuf_init buf ty blk) = Some (fifo_run ty (Z.of_nat (length buf)) blk ops []).
Proof. intros Hb Ha Ho. apply (run_fifo ops (ringbuf_init buf ty blk) []); [|exact Ho]. apply reset_ok; assumption. Qed.
(** Three messages through a ring of twelve bytes: the second and its length are split. *)
Lemma ringbuf_is_fifo_witness :
  rb_run [RPush [1; 2; 3; 4; 5]; RPop; RPush [6; 7; 8]; RPush [9]; RPush [10]; RPop; RPop; RPop] (ringbuf_init (repeat 0 12) RINGBUF_TYPE_DYN 0) =
  Some [(RHINO_SUCCESS, []); (RHINO_SUCCESS, [1; 2; 3; 4; 5]); (RHINO_SUCCESS, []); (RHINO_SUCCESS, []); (RHINO_RINGBUF_FULL, []); (RHINO_SUCCESS, [6; 7; 8]); (RHINO_SUCCESS, [9]); (RHINO_RINGBUF_EMPTY, [])].
Proof. rewrite ringbuf_is_fifo; [reflexivity|simpl; lia|discriminate|]. repeat constructor. Defined.

(** The sum of header and length wraps around: a push of [2^32 - 3] bytes into a ring of twelve is
    not refused, but copied behind the end of the memory. *)
Theorem push_length_wraps : ringbuf_push (repeat 0 12) 4294967293 (ringbuf_init (repeat 0 12) RINGBUF_TYPE_DYN 0) = None.
Proof. vm_compute. reflexivity. Qed.
