(* ===== verification/KernelMsg.v ===== *)
(** * KernelMsg: queues, buffer queues and event flags (k_queue.c, k_buf_queue.c, k_event.c)

    The objects of the rhino kernel through which tasks and interrupts exchange messages and
    events.  They make tasks wait as Kernel.v says; what is added to its state is the part of
    the object behind [blk_obj] ([qinfo]), and the fields of a task block that carry a message
    or the awaited flags ([tinfo]).  [sent] and [received] are no part of the program: they
    record the messages a queue has accepted, and the messages tasks have got from it - what a
    receive call returns, and what is found in the block of a woken task.  A flush takes the
    messages that nobody has got off the first record.

    The message of a queue is a pointer, four bytes in the ring; a buffer queue copies the
    bytes.  [task_msg] stands for the pointer [msg] of the task block in the first case and
    for the memory it points to in the second.  The memory of a ring is an argument of the
    function that creates the queue; creating and deleting dynamically differs by the
    allocation, and by [mm_alloc_flag].  Tracing and statistics have no part in the model. *)
From Stdlib Require Import ZArith Lia List Bool.
From stdpp Require Import base list numbers option.
From S2P Require Import Prelude Env Kernel KernelProps RingBuf.
Local Open Scope Z_scope.

(** ** Data *)

(** [msg_size]: [msg_q.size] of a queue, [max_msg_size] of a buffer queue. *)
Record qinfo := mkQ { ringbuf : k_ringbuf_t; cur_num : Z; peak_num : Z; msg_size : Z; min_free_buf_size : Z; flags : Z }.
Record tinfo := mkTi { task_msg : list Z; bq_msg_size : Z; pend_option : Z; pend_flags : Z; pend_info : Z }.
Record kx := mkKx { kn : kern; qs : nat → qinfo; ts : nat → tinfo; sent : nat → list (list Z); received : nat → list (list Z) }.

Definition with_kn (k : kern) (s : kx) : kx := mkKx k (qs s) (ts s) (sent s) (received s).
Definition on_q (o : nat) (f : qinfo → qinfo) (s : kx) : kx := mkKx (kn s) (upd (qs s) o (f (qs s o))) (ts s) (sent s) (received s).
Definition on_t (t : nat) (f : tinfo → tinfo) (s : kx) : kx := mkKx (kn s) (qs s) (upd (ts s) t (f (ts s t))) (sent s) (received s).
Definition log_sent (o : nat) (m : list Z) (s : kx) : kx := mkKx (kn s) (qs s) (ts s) (upd (sent s) o (sent s o ++ [m])) (received s).
Definition log_received (o : nat) (m : list Z) (s : kx) : kx := mkKx (kn s) (qs s) (ts s) (sent s) (upd (received s) o (received s o ++ [m])).
Definition log_clear (o : nat) (s : kx) : kx := mkKx (kn s) (qs s) (ts s) (upd (sent s) o []) (upd (received s) o []).
Definition log_flush (o : nat) (s : kx) : kx := mkKx (kn s) (qs s) (ts s) (upd (sent s) o (received s o)) (received s).
Definition q_ring (r : k_ringbuf_t) (q : qinfo) : qinfo := mkQ r (cur_num q) (peak_num q) (msg_size q) (min_free_buf_size q) (flags q).
Definition q_num (n : Z) (q : qinfo) : qinfo := mkQ (ringbuf q) n (peak_num q) (msg_size q) (min_free_buf_size q) (flags q).
Definition q_peak (n : Z) (q : qinfo) : qinfo := mkQ (ringbuf q) (cur_num q) n (msg_size q) (min_free_buf_size q) (flags q).
Definition q_min_free (n : Z) (q : qinfo) : qinfo := mkQ (ringbuf q) (cur_num q) (peak_num q) (msg_size q) n (flags q).
Definition q_flags (f : Z) (q : qinfo) : qinfo := mkQ (ringbuf q) (cur_num q) (peak_num q) (msg_size q) (min_free_buf_size q) f.
Definition ti_msg (m : list Z) (t : tinfo) : tinfo := mkTi m (bq_msg_size t) (pend_option t) (pend_flags t) (pend_info t).
Definition ti_size (n : Z) (t : tinfo) : tinfo := mkTi (task_msg t) n (pend_option t) (pend_flags t) (pend_info t).
Definition ti_info (f : Z) (t : tinfo) : tinfo := mkTi (task_msg t) (bq_msg_size t) (pend_option t) (pend_flags t) f.
Definition ti_pend (opt fl : Z) (t : tinfo) : tinfo := mkTi (task_msg t) (bq_msg_size t) opt fl (pend_info t).

(** A call returns, with what it stores for its caller ([[]] for nothing or a null pointer), or its caller waits. *)
Definition xret : Type := option (kret * list Z * kx).
Definition ret (st : kstat_t) (s : kx) : xret := Some (Returns st, [], s).
Definition sched_ret (r : kret) (s : kx) : xret := k ← core_sched (kn s); Some (r, [], with_kn k s).
(** The running task waits for [o]. *)
Definition pend_ret (o : nat) (ticks : Z) (s : kx) : xret := k ← pend_to_blk_obj o (g_active_task (kn s)) ticks (kn s); sched_ret Pends (with_kn k s).
Definition obj_init (ty : kobj_type_t) (fl : alloc_flag) (b : kobj) : kobj :=
  mkObj ty BLK_POLICY_PRI [] fl (sem_count b) (peak_count b) (mutex_task b) (owner_nested b) (mutex_next b).
Definition is_type (ty : kobj_type_t) (o : nat) (s : kx) : bool := bool_decide (obj_type (objs (kn s) o) = ty).
Definition waiters (o : nat) (s : kx) : list nat := blk_list (objs (kn s) o).
(** The common part of the three deletions; [reset] is done before the scheduler runs. *)
Definition obj_del (ty : kobj_type_t) (o : nat) (fl : alloc_flag) (reset : kx → kx) (s : kx) : xret :=
  if 0 <? g_intrpt_nested_level (kn s) then ret RHINO_NOT_CALLED_BY_INTRPT s else
  if negb (is_type ty o s) then ret RHINO_KOBJ_TYPE_ERR s else
  if negb (bool_decide (mm_alloc_flag (objs (kn s) o) = fl)) then ret RHINO_KOBJ_DEL_ERR s else
  k ← wake_waiters pend_task_rm o (on_obj o (o_type RHINO_OBJ_TYPE_NONE) (kn s));
  sched_ret (Returns RHINO_SUCCESS) (reset (with_kn k s)).
Definition ring_reset (o : nat) (s : kx) : kx := on_q o (λ q, q_ring (ringbuf_reset (ringbuf q)) q) s.

(** ** Queues (k_queue.c) *)

(** [mem]: the memory from [start] on. *)
Definition queue_create (o : nat) (mem : list Z) (msg_num : Z) (fl : alloc_flag) (s : kx) : xret :=
  if msg_num =? 0 then ret RHINO_INV_PARAM s else
  let s := on_q o (λ q, mkQ (ringbuf_init mem RINGBUF_TYPE_FIX 4) 0 0 msg_num (min_free_buf_size q) (flags q)) s in
  ret RHINO_SUCCESS (log_clear o (with_kn (on_obj o (obj_init RHINO_QUEUE_OBJ_TYPE fl) (kn s)) s)).
Definition krhino_queue_del (o : nat) (fl : alloc_flag) : kx → xret := obj_del RHINO_QUEUE_OBJ_TYPE o fl (ring_reset o).
(** What the call of a waiting task will return. *)
Definition queue_msg (t : nat) (s : kx) : list Z := task_msg (ts s t).
Definition buf_queue_msg (t : nat) (s : kx) : list Z := take (Z.to_nat (bq_msg_size (ts s t))) (task_msg (ts s t)).
Definition task_msg_recv (o t : nat) (m : list Z) (s : kx) : option kx :=
  let s := on_t t (ti_msg m) (log_sent o m s) in
  let s := log_received o (queue_msg t s) s in
  k ← pend_task_wakeup t (kn s); Some (with_kn k s).
Fixpoint msg_recv_all (fuel : nat) (o : nat) (m : list Z) (s : kx) : option kx :=
  match waiters o s with
  | [] => Some s
  | t :: _ => match fuel with O => None | S f => s ← task_msg_recv o t m s; msg_recv_all f o m s end
  end.
Definition peak_num_update (q : qinfo) : qinfo := if peak_num q <? cur_num q then q_peak (cur_num q) q else q.
Definition msg_send (o : nat) (p : Z) (opt_wake_all : bool) (s : kx) : xret :=
  if negb (is_type RHINO_QUEUE_OBJ_TYPE o s) then ret RHINO_KOBJ_TYPE_ERR s else
  if msg_size (qs s o) <=? cur_num (qs s o) then ret RHINO_QUEUE_FULL s else
  match waiters o s with
  | [] =>
    let s := on_q o (λ q, peak_num_update (q_num (u32 (cur_num q + 1)) q)) s in
    '(_, r) ← ringbuf_push (le32 p) 4 (ringbuf (qs s o));
    ret RHINO_SUCCESS (log_sent o (le32 p) (on_q o (q_ring r) s))
  | t :: l =>
    s ← (if opt_wake_all then msg_recv_all (S (length l)) o (le32 p) s else task_msg_recv o t (le32 p) s);
    sched_ret (Returns RHINO_SUCCESS) s
  end.
Definition krhino_queue_back_send (o : nat) (p : Z) : kx → xret := msg_send o p false.
Definition krhino_queue_all_send (o : nat) (p : Z) : kx → xret := msg_send o p true.
Definition krhino_queue_recv (o : nat) (ticks : Z) (s : kx) : xret :=
  if (0 <? g_intrpt_nested_level (kn s)) && negb (ticks =? RHINO_NO_WAIT) then ret RHINO_NOT_CALLED_BY_INTRPT s else
  if negb (is_type RHINO_QUEUE_OBJ_TYPE o s) then ret RHINO_KOBJ_TYPE_ERR s else
  if 0 <? cur_num (qs s o) then
    '(_, m, r) ← ringbuf_pop (ringbuf (qs s o));
    Some (Returns RHINO_SUCCESS, m, log_received o m (on_q o (λ q, q_num (u32 (cur_num q - 1)) (q_ring r q)) s))
  else
  if ticks =? RHINO_NO_WAIT then ret RHINO_NO_PEND_WAIT s else
  if 0 <? g_sched_lock (kn s) then ret RHINO_SCHED_DISABLE s else
  pend_ret o ticks s.
(** The end of the call when the task runs again. *)
Definition queue_recv_end (t : nat) (s : kx) : option (kstat_t * list Z) :=
  st ← pend_state_end_proc t (kn s); Some (st, match st with RHINO_SUCCESS => queue_msg t s | _ => [] end).
Definition krhino_queue_is_full (o : nat) (s : kx) : kstat_t :=
  if negb (is_type RHINO_QUEUE_OBJ_TYPE o s) then RHINO_KOBJ_TYPE_ERR else if msg_size (qs s o) <=? cur_num (qs s o) then RHINO_QUEUE_FULL else RHINO_QUEUE_NOT_FULL.
Definition krhino_queue_flush (o : nat) (s : kx) : xret :=
  if 0 <? g_intrpt_nested_level (kn s) then ret RHINO_NOT_CALLED_BY_INTRPT s else
  if negb (is_type RHINO_QUEUE_OBJ_TYPE o s) then ret RHINO_KOBJ_TYPE_ERR s else
  ret RHINO_SUCCESS (log_flush o (ring_reset o (on_q o (q_num 0) s))).

(** ** Buffer queues (k_buf_queue.c) *)

Definition buf_queue_create (o : nat) (buf : list Z) (max_msg : Z) (fl : alloc_flag) (ty : ringbuf_type) (s : kx) : xret :=
  if max_msg =? 0 then ret RHINO_INV_PARAM s else
  if Z.of_nat (length buf) =? 0 then ret RHINO_BUF_QUEUE_SIZE_ZERO s else
  let r := ringbuf_init buf ty max_msg in
  let s := on_q o (λ q, mkQ r 0 0 max_msg (freesize r) (flags q)) s in
  ret RHINO_SUCCESS (log_clear o (with_kn (on_obj o (obj_init RHINO_BUF_QUEUE_OBJ_TYPE fl) (kn s)) s)).
Definition krhino_buf_queue_create (o : nat) (buf : list Z) (max_msg : Z) : kx → xret := buf_queue_create o buf max_msg K_OBJ_STATIC_ALLOC RINGBUF_TYPE_DYN.
(** [buf] has [msg_size * msg_num] bytes. *)
Definition krhino_fix_buf_queue_create (o : nat) (buf : list Z) (msg_size : Z) : kx → xret := buf_queue_create o buf msg_size K_OBJ_STATIC_ALLOC RINGBUF_TYPE_FIX.
Definition krhino_buf_queue_del (o : nat) (fl : alloc_flag) : kx → xret := obj_del RHINO_BUF_QUEUE_OBJ_TYPE o fl (ring_reset o).
Definition min_free_update (q : qinfo) : qinfo := if freesize (ringbuf q) <? min_free_buf_size q then q_min_free (freesize (ringbuf q)) q else q.
(** [mem]: the memory of the caller from [msg] on. *)
Definition buf_queue_send (o : nat) (mem : list Z) (size : Z) (s : kx) : xret :=
  if negb (is_type RHINO_BUF_QUEUE_OBJ_TYPE o s) then ret RHINO_KOBJ_TYPE_ERR s else
  if msg_size (qs s o) <? size then ret RHINO_BUF_QUEUE_MSG_SIZE_OVERFLOW s else
  if size =? 0 then ret RHINO_INV_PARAM s else
  match waiters o s with
  | [] =>
    '(err, r) ← ringbuf_push mem size (ringbuf (qs s o));
    let s1 := on_q o (q_ring r) s in
    match err with
    | RHINO_SUCCESS =>
      let m := match rb_type r with RINGBUF_TYPE_FIX => take (Z.to_nat (blk_size r)) mem | RINGBUF_TYPE_DYN => take (Z.to_nat size) mem end in
      ret RHINO_SUCCESS (log_sent o m (on_q o (λ q, min_free_update (peak_num_update (q_num (u32 (cur_num q + 1)) q))) s1))
    | RHINO_RINGBUF_FULL => ret RHINO_BUF_QUEUE_FULL s1
    | _ => ret err s1
    end
  | t :: _ =>
    m ← copy_out 0 size mem;
    let s1 := on_t t (ti_size size) (on_t t (ti_msg m) (log_sent o m s)) in
    let s1 := log_received o (buf_queue_msg t s1) s1 in
    k ← pend_task_wakeup t (kn s1);
    sched_ret (Returns RHINO_SUCCESS) (with_kn k s1)
  end.
Definition krhino_buf_queue_send (o : nat) (mem : list Z) (size : Z) : kx → xret := buf_queue_send o mem size.
Definition krhino_buf_queue_recv (o : nat) (ticks : Z) (s : kx) : xret :=
  if (0 <? g_intrpt_nested_level (kn s)) && negb (ticks =? RHINO_NO_WAIT) then ret RHINO_NOT_CALLED_BY_INTRPT s else
  if negb (is_type RHINO_BUF_QUEUE_OBJ_TYPE o s) then ret RHINO_KOBJ_TYPE_ERR s else
  if negb (ringbuf_is_empty (ringbuf (qs s o))) then
    '(_, m, r) ← ringbuf_pop (ringbuf (qs s o));
    Some (Returns RHINO_SUCCESS, m, log_received o m (on_q o (λ q, q_num (u32 (cur_num q - 1)) (q_ring r q)) s))
  else
  if ticks =? RHINO_NO_WAIT then ret RHINO_NO_PEND_WAIT s else
  if 0 <? g_sched_lock (kn s) then ret RHINO_SCHED_DISABLE s else
  pend_ret o ticks s.
Definition buf_queue_recv_end (t : nat) (s : kx) : option (kstat_t * list Z) :=
  st ← pend_state_end_proc t (kn s); Some (st, match st with RHINO_SUCCESS => buf_queue_msg t s | _ => [] end).
Definition krhino_buf_queue_flush (o : nat) (s : kx) : xret :=
  if 0 <? g_intrpt_nested_level (kn s) then ret RHINO_NOT_CALLED_BY_INTRPT s else
  if negb (is_type RHINO_BUF_QUEUE_OBJ_TYPE o s) then ret RHINO_KOBJ_TYPE_ERR s else
  ret RHINO_SUCCESS (log_flush o (on_q o (λ q, q_min_free (freesize (ringbuf q)) (q_peak 0 (q_num 0 q))) (ring_reset o s))).

(** ** Event flags (k_event.c) *)

Definition RHINO_FLAGS_AND_MASK : Z := 2.
Definition RHINO_FLAGS_CLEAR_MASK : Z := 1.
Definition RHINO_AND : Z := 2.
Definition RHINO_AND_CLEAR : Z := 3.
Definition RHINO_OR : Z := 0.
Definition RHINO_OR_CLEAR : Z := 1.
Definition event_create (o : nat) (fl : Z) (alloc : alloc_flag) (s : kx) : xret :=
  let s := on_q o (q_flags fl) s in ret RHINO_SUCCESS (with_kn (on_obj o (obj_init RHINO_EVENT_OBJ_TYPE alloc) (kn s)) s).
Definition krhino_event_del (o : nat) (alloc : alloc_flag) : kx → xret := obj_del RHINO_EVENT_OBJ_TYPE o alloc (on_q o (q_flags 0)).
(** Whether the flags [cur] are what a task asks for with [opt] and [want]. *)
Definition event_met (opt want cur : Z) : bool :=
  if truthy (Z.land opt RHINO_FLAGS_AND_MASK) then Z.land cur want =? want else 0 <? Z.land cur want.
Definition event_clear (opt want : Z) (q : qinfo) : qinfo :=
  if truthy (Z.land opt RHINO_FLAGS_CLEAR_MASK) then q_flags (Z.land (flags q) (u32 (Z.lnot want))) q else q.
(** The flags found are stored for the caller. *)
Definition krhino_event_get (o : nat) (want opt ticks : Z) (s : kx) : xret :=
  if negb (existsb (Z.eqb opt) [RHINO_AND; RHINO_OR; RHINO_AND_CLEAR; RHINO_OR_CLEAR]) then ret RHINO_NO_THIS_EVENT_OPT s else
  if 0 <? g_intrpt_nested_level (kn s) then ret RHINO_NOT_CALLED_BY_INTRPT s else
  if negb (is_type RHINO_EVENT_OBJ_TYPE o s) then ret RHINO_KOBJ_TYPE_ERR s else
  if event_met opt want (flags (qs s o)) then Some (Returns RHINO_SUCCESS, [flags (qs s o)], on_q o (event_clear opt want) s) else
  if ticks =? RHINO_NO_WAIT then ret RHINO_NO_PEND_WAIT s else
  if 0 <? g_sched_lock (kn s) then ret RHINO_SCHED_DISABLE s else
  pend_ret o ticks (on_t (g_active_task (kn s)) (ti_pend opt want) s).
(** A woken task leaves only its own place of the list, so the saved successor is the rest of the list. *)
Fixpoint event_wake (l : list nat) (o : nat) (cur : Z) (s : kx) : option kx :=
  match l with
  | [] => Some s
  | t :: l =>
    if event_met (pend_option (ts s t)) (pend_flags (ts s t)) cur then
      let s1 := on_t t (ti_info cur) s in
      k ← pend_task_wakeup t (kn s1);
      event_wake l o cur (on_q o (event_clear (pend_option (ts s1 t)) (pend_flags (ts s1 t))) (with_kn k s1))
    else event_wake l o cur s
  end.
Definition event_set (o : nat) (fl opt : Z) (s : kx) : xret :=
  if negb (is_type RHINO_EVENT_OBJ_TYPE o s) then ret RHINO_KOBJ_TYPE_ERR s else
  if truthy (Z.land opt RHINO_FLAGS_AND_MASK) then ret RHINO_SUCCESS (on_q o (λ q, q_flags (Z.land (flags q) fl) q) s) else
  let s := on_q o (λ q, q_flags (Z.lor (flags q) fl) q) s in
  s ← event_wake (waiters o s) o (flags (qs s o)) s;
  sched_ret (Returns RHINO_SUCCESS) s.
Definition krhino_event_set (o : nat) (fl opt : Z) (s : kx) : xret :=
  if negb ((opt =? RHINO_AND) || (opt =? RHINO_OR)) then ret RHINO_NO_THIS_EVENT_OPT s else event_set o fl opt s.
Definition event_get_end (t : nat) (s : kx) : option (kstat_t * Z) := st ← pend_state_end_proc t (kn s); Some (st, pend_info (ts s t)).
