(* ===== verification/KernelWait.v ===== *)
(** * KernelWait: the calls of Kernel.v leave queues and events alone

    No call of Kernel.v makes a task wait for a queue, a buffer queue or an event, or turns an
    object into one: of the tasks that wait for such an object, some may stop waiting. *)
From Stdlib Require Import ZArith Lia List Bool.
From stdpp Require Import base list numbers option.
From S2P Require Import Prelude Kernel KernelQueue KernelInv KernelMoves KernelOps KernelProps.
Local Open Scope Z_scope.

(** The objects of KernelMsg.v. *)
Definition carries (s : kern) (o : nat) : bool := match obj_type (objs s o) with RHINO_QUEUE_OBJ_TYPE | RHINO_BUF_QUEUE_OBJ_TYPE | RHINO_EVENT_OBJ_TYPE => true | _ => false end.
Record fewer (s s' : kern) : Prop := mkFewer {
  fw_type : ∀ o, carries s' o = true → obj_type (objs s' o) = obj_type (objs s o);
  fw_wob : ∀ t o, carries s' o = true → wob s' t = Some o → wob s t = Some o }.
#[export] Instance fewer_preorder : PreOrder fewer.
Proof.
  split; [intros s; split; auto|]. intros s1 s2 s3 [A1 A2] [B1 B2].
  assert (Hc : ∀ o, carries s3 o = true → carries s2 o = true) by (intros o Ho; unfold carries in *; rewrite <- B1; assumption).
  split; [intros o Ho; rewrite B1, A1; auto|auto].
Qed.
Definition fewer_opt (s : kern) (r : option kern) : Prop := match r with Some s' => fewer s s' | None => True end.
Definition fewer_ret (s : kern) (r : option (kret * kern)) : Prop := match r with Some (_, s') => fewer s s' | None => True end.

Lemma fewer_same s s' : tasks s' = tasks s → (∀ o, obj_type (objs s' o) = obj_type (objs s o)) → fewer s s'.
Proof. intros E1 E2. split; auto. intros t o _. unfold wob. rewrite E1. auto. Qed.
Lemma fewer_task s t f : (∀ o, wob1 (f (tasks s t)) = Some o → wob1 (tasks s t) = Some o) → fewer s (on_task t f s).
Proof. intros H. split; [auto|]. intros x o _. unfold wob. simpl. unfold upd. destruct (Nat.eqb_spec x t) as [->|?]; auto. Qed.
(** A change that keeps the state and the object of the task, or after which it does not wait. *)
Lemma fewer_keep s t f : (∀ k, task_state (f k) = task_state k) → (∀ k, blk_obj (f k) = blk_obj k) → fewer s (on_task t f s).
Proof. intros H1 H2. apply fewer_task. intros o. unfold wob1, pending. rewrite H1, H2. auto. Qed.
Lemma fewer_stop s t f : (∀ k, pending (f k) = false ∨ blk_obj (f k) = None) → fewer s (on_task t f s).
Proof. intros H. apply fewer_task. intros o. unfold wob1. destruct (H (tasks s t)) as [->| ->]; [discriminate|]. destruct (pending _); discriminate. Qed.
Lemma fewer_obj s o f : (∀ b, obj_type (f b) = obj_type b) → fewer s (on_obj o f s).
Proof. intros H. apply fewer_same; [reflexivity|]. intros x. simpl. unfold upd. destruct (Nat.eqb_spec x o) as [->|?]; auto. Qed.
(** The new type is none of the three. *)
Lemma fewer_retype s o f : carries (on_obj o f s) o = false → fewer s (on_obj o f s).
Proof.
  intros Hc. split; [|auto]. intros x Hx. destruct (Nat.eq_dec x o) as [->|Hne]; [congruence|]. simpl. rewrite upd_ne by exact Hne. reflexivity.
Qed.

Create HintDb fewer.
#[export] Hint Extern 1 (fewer ?s ?s) => reflexivity : fewer.
Ltac fewer_leaf :=
  lazymatch goal with
  | |- fewer ?s ?s => reflexivity
  | |- fewer _ (on_obj _ _ _) => apply fewer_obj; intros; reflexivity
  | |- fewer _ (on_task _ _ _) => first [apply fewer_keep; intros; reflexivity | apply fewer_stop; intros; first [left; reflexivity | right; reflexivity]]
  | |- fewer _ _ => first [apply fewer_same; [reflexivity|intros; reflexivity] | solve [auto with fewer]]
  end.
(** Peels the outermost change off the state. *)
Ltac fewer_peel :=
  lazymatch goal with
  | |- fewer ?s ?s => reflexivity
  | |- fewer _ (on_obj ?o ?f ?s1) => etransitivity; [|fewer_leaf]
  | |- fewer _ (on_task ?t ?f ?s1) => etransitivity; [|fewer_leaf]
  | |- fewer _ (set_rq ?q ?s1) => transitivity s1; [|fewer_leaf]
  | |- fewer _ (set_ticks ?l ?n ?s1) => transitivity s1; [|fewer_leaf]
  | |- fewer _ (set_active ?t ?s1) => transitivity s1; [|fewer_leaf]
  | |- fewer _ (set_lock ?t ?s1) => transitivity s1; [|fewer_leaf]
  | |- fewer _ (set_level ?t ?s1) => transitivity s1; [|fewer_leaf]
  | |- fewer _ (set_idle ?t ?s1) => transitivity s1; [|fewer_leaf]
  | |- fewer _ (set_res ?t ?s1) => transitivity s1; [|fewer_leaf]
  | |- fewer _ (if ?b then _ else _) => destruct b
  | |- fewer _ (match ?b with _ => _ end) => destruct b
  end.
Ltac fewer_all := repeat fewer_peel; try solve [auto with fewer].

Lemma ready_add_fewer s t : fewer s (ready_list_add t s).
Proof. unfold ready_list_add, ready_list_add_tail, ready_list_add_head. fewer_all. Qed.
Lemma ready_add_head_fewer s t : fewer s (ready_list_add_head t s).
Proof. unfold ready_list_add_head. fewer_all. Qed.
Lemma ready_add_tail_fewer s t : fewer s (ready_list_add_tail t s).
Proof. unfold ready_list_add_tail. fewer_all. Qed.
Lemma tick_rm_fewer s t : fewer s (tick_list_rm t s).
Proof. unfold tick_list_rm. fewer_all. Qed.
Lemma tick_insert_fewer s t n : fewer s (tick_list_insert t n s).
Proof. unfold tick_list_insert, tick_list_pri_insert. fewer_all. Qed.
Lemma blk_rm_fewer s t : fewer s (blk_list_rm t s).
Proof. unfold blk_list_rm. fewer_all. Qed.
Lemma pend_add_fewer s o t : fewer s (pend_list_add o t s).
Proof. unfold pend_list_add. fewer_all. Qed.
#[export] Hint Resolve ready_add_fewer ready_add_head_fewer ready_add_tail_fewer tick_rm_fewer tick_insert_fewer blk_rm_fewer pend_add_fewer : fewer.

Lemma opt_bind s e k : fewer_opt s e → (∀ s1, fewer_opt s1 (k s1)) → fewer_opt s (e ≫= k).
Proof. intros He Hk. destruct e as [s1|]; [|exact I]. change (fewer_opt s (k s1)). simpl in He. specialize (Hk s1). destruct (k s1); [|exact I]. simpl in *. etransitivity; eassumption. Qed.
Lemma opt_from s s1 r : fewer s s1 → fewer_opt s1 r → fewer_opt s r.
Proof. intros H1 H2. destruct r; [|exact I]. simpl in *. etransitivity; eassumption. Qed.
Lemma ret_bind s e k : fewer_opt s e → (∀ s1, fewer_ret s1 (k s1)) → fewer_ret s (e ≫= k).
Proof. intros He Hk. destruct e as [s1|]; [|exact I]. change (fewer_ret s (k s1)). simpl in He. specialize (Hk s1). destruct (k s1) as [[? ?]|]; [|exact I]. simpl in *. etransitivity; eassumption. Qed.
Lemma ret_from s s1 r : fewer s s1 → fewer_ret s1 r → fewer_ret s r.
Proof. intros H1 H2. destruct r as [[? ?]|]; [|exact I]. simpl in *. etransitivity; eassumption. Qed.
Definition fewer_look (s : kern) (r : option (Z * kern)) : Prop := match r with Some (_, s') => fewer s s' | None => True end.
Lemma opt_bind_look s e k : fewer_look s e → (∀ z s1, fewer_opt s1 (k (z, s1))) → fewer_opt s (e ≫= k).
Proof.
  intros He Hk. destruct e as [[z s1]|]; [|exact I]. change (fewer_opt s (k (z, s1))). simpl in He. specialize (Hk z s1). destruct (k (z, s1)); [|exact I]. simpl in *. etransitivity; eassumption.
Qed.
Ltac fewer_step :=
  lazymatch goal with
  | |- fewer_opt _ None => exact I
  | |- fewer_ret _ None => exact I
  | |- fewer_opt _ (Some _) => cbn [fewer_opt]
  | |- fewer_ret _ (Some (_, _)) => cbn [fewer_ret]
  | |- fewer_opt _ (?e ≫= _) => first [apply opt_bind; [|intros ?] | apply opt_bind_look; [|intros ? ?; cbn beta iota] | destruct e; [cbn [mbind option_bind]|exact I]]
  | |- fewer_ret _ (?e ≫= _) => first [apply ret_bind; [|intros ?] | destruct e; [cbn [mbind option_bind]|exact I]]
  | |- fewer_look _ _ => solve [auto with fewer]
  | |- fewer_opt _ (if ?b then _ else _) => destruct b eqn:?
  | |- fewer_ret _ (if ?b then _ else _) => destruct b eqn:?
  | |- fewer_opt _ (match ?b with _ => _ end) => destruct b eqn:?
  | |- fewer_ret _ (match ?b with _ => _ end) => destruct b eqn:?
  | |- fewer ?s ?s => reflexivity
  | |- fewer _ (if ?b then _ else _) => destruct b eqn:?
  | |- fewer _ (match ?b with _ => _ end) => destruct b eqn:?
  | |- fewer _ (?f ?s1) => transitivity s1; [|solve [fewer_leaf | auto with fewer]]
  | |- fewer_opt ?s (?f ?s) => solve [auto with fewer]
  | |- fewer_ret ?s (?f ?s) => solve [auto with fewer]
  | |- fewer_opt _ (?f ?s1) => apply (opt_from _ s1); [|solve [auto with fewer]]
  | |- fewer_ret _ (?f ?s1) => apply (ret_from _ s1); [|solve [auto with fewer]]
  end.
Ltac fewer_go := cbv zeta; repeat (fewer_step; cbv zeta).

Lemma ready_rm_fewer s t : fewer_opt s (ready_list_rm t s).
Proof. unfold ready_list_rm. destruct (rq_rm _ _ _); [|exact I]. simpl. fewer_go. Qed.
Lemma core_sched_fewer s : fewer_opt s (core_sched s).
Proof. unfold core_sched. fewer_step; [fewer_go|]. fewer_step; [fewer_go|]. destruct (preferred_cpu_ready_task_get _); [|exact I]. cbn [mbind option_bind]. fewer_go. Qed.
#[export] Hint Resolve ready_rm_fewer core_sched_fewer : fewer.
Lemma wake_fewer s t : fewer_opt s (pend_task_wakeup t s).
Proof. unfold pend_task_wakeup, pend_wake. fewer_go. Qed.
Lemma pend_rm_fewer s t : fewer_opt s (pend_task_rm t s).
Proof. unfold pend_task_rm, pend_wake. fewer_go. Qed.
#[export] Hint Resolve wake_fewer pend_rm_fewer : fewer.
Lemma wake_all_fewer w o s : (∀ t s, fewer_opt s (w t s)) → fewer_opt s (wake_waiters w o s).
Proof. intros Hw. unfold wake_waiters. generalize (length (blk_list (objs s o))). intros n. revert s. induction n as [|n IH]; intros s; simpl; fewer_go; auto. Qed.
Lemma reorder_fewer s t : fewer_opt s (pend_list_reorder t s).
Proof. unfold pend_list_reorder. destruct (blk_obj _); [|exact I]. cbn [mbind option_bind]. fewer_go. Qed.
#[export] Hint Resolve wake_all_fewer reorder_fewer : fewer.
Lemma slot_put_fewer s t p v : fewer s (slot_put t p v s).
Proof. unfold slot_put. fewer_go. Qed.
#[export] Hint Resolve slot_put_fewer : fewer.
Lemma look_loop_fewer fuel t rel s : ∀ prev pri new_pri, fewer_look s (mutex_pri_look_loop fuel t rel prev pri new_pri s).
Proof.
  revert s. induction fuel as [|fuel IH]; intros s prev pri new_pri; simpl; destruct (slot t prev s) as [m|]; try exact I; try (cbn; reflexivity). destruct (decide (rel = Some m)).
  - specialize (IH (slot_put t prev (mutex_next (objs s m)) s) prev pri new_pri). destruct (mutex_pri_look_loop _ _ _ _ _ _ _) as [[? ?]|]; [|exact I]. simpl in *. etransitivity; [apply slot_put_fewer|exact IH].
  - apply IH.
Qed.
Lemma look_fewer s t rel : fewer_look s (mutex_pri_look t rel s).
Proof. apply look_loop_fewer. Qed.
#[export] Hint Resolve look_fewer : fewer.
Lemma pri_change_fewer s t p : fewer_opt s (task_pri_change t p s).
Proof.
  unfold task_pri_change. generalize (64 * n_tasks s)%nat. intros n. revert s t p. induction n as [|n IH]; intros s t p; simpl; [exact I|]. fewer_go.
Qed.
#[export] Hint Resolve pri_change_fewer : fewer.
Lemma release_fewer s t rel : fewer_opt s (mutex_release t rel s).
Proof. unfold mutex_release. fewer_go. Qed.
#[export] Hint Resolve release_fewer : fewer.
Lemma reset_fewer s t : fewer_opt s (mutex_task_pri_reset t s).
Proof. unfold mutex_task_pri_reset. fewer_go. Qed.
Lemma own_fewer s o t : fewer s (mutex_own o t s).
Proof. unfold mutex_own. fewer_go. Qed.
#[export] Hint Resolve reset_fewer own_fewer : fewer.
Lemma sched_ok_fewer s : fewer_ret s (sched_ok s).
Proof. unfold sched_ok. fewer_go. Qed.
#[export] Hint Resolve sched_ok_fewer : fewer.
(** A task begins to wait for an object that is neither a queue nor an event. *)
Lemma pend_fewer s o t n : carries s o = false → fewer_opt s (pend_to_blk_obj o t n s).
Proof.
  intros Hc. unfold pend_to_blk_obj. set (s2 := if n =? RHINO_WAIT_FOREVER then _ else _).
  assert (E2 : ∀ x, obj_type (objs s2 x) = obj_type (objs s x)) by (intros x; subst s2; destruct (_ =? _); [reflexivity|]; unfold tick_list_insert, tick_list_pri_insert; destruct (0 <? n); reflexivity).
  assert (F : fewer s (on_task t (t_state K_PEND) s2)).
  { assert (Fx : ∀ x o', x ≠ t → wob s2 x = Some o' → wob s x = Some o').
    { intros x o' Hx. subst s2. unfold wob. destruct (_ =? _); simpl; [rewrite upd_ne by exact Hx; auto|].
      unfold tick_list_insert, tick_list_pri_insert. destruct (0 <? n); simpl; rewrite ?upd_ne by exact Hx; auto. }
    assert (Et : blk_obj (tasks s2 t) = Some o).
    { subst s2. destruct (_ =? _); simpl; [rewrite upd_eq; reflexivity|]. unfold tick_list_insert, tick_list_pri_insert. destruct (0 <? n); simpl; rewrite ?upd_eq; reflexivity. }
    split; [intros x _; apply E2|]. intros x o' Ho. unfold wob. simpl. destruct (Nat.eq_dec x t) as [->|Hx].
    - rewrite upd_eq. unfold wob1. simpl. rewrite Et. intros [= <-]. unfold carries in *. simpl in Ho. rewrite E2, Hc in Ho. discriminate.
    - rewrite upd_ne by exact Hx. apply (Fx x o' Hx). }
  apply (opt_from _ _ _ F). fewer_go.
Qed.
Lemma is_carrier s o ty : obj_type (objs s o) = ty → ty = RHINO_SEM_OBJ_TYPE ∨ ty = RHINO_MUTEX_OBJ_TYPE → carries s o = false.
Proof. intros E [-> | ->]; unfold carries; rewrite E; reflexivity. Qed.
Lemma carries_back s s' o : fewer s s' → carries s o = false → carries s' o = false.
Proof. intros F H. destruct (carries s' o) eqn:E; [|reflexivity]. unfold carries in *. rewrite (fw_type _ _ F o) in E by exact E. congruence. Qed.

Lemma sem_give_fewer o all s : fewer_ret s (sem_give o all s).
Proof.
  unfold sem_give. fewer_go; auto with fewer. unfold peak_update. apply fewer_obj. intros b. destruct (_ <? _); reflexivity.
Qed.
Lemma sem_take_fewer o n s : fewer_ret s (krhino_sem_take o n s).
Proof.
  unfold krhino_sem_take. fewer_step; [fewer_go|]. destruct (decide _) as [Ety|]; [|fewer_go]. repeat (fewer_step; [solve [fewer_go]|]). apply ret_bind; [|intros; fewer_go]. apply pend_fewer, (is_carrier _ _ _ Ety). auto.
Qed.
Lemma retype_fewer s o : fewer s (on_obj o (o_type RHINO_OBJ_TYPE_NONE) s).
Proof. apply fewer_retype. unfold carries. simpl. rewrite upd_eq. reflexivity. Qed.
#[export] Hint Resolve sem_give_fewer sem_take_fewer retype_fewer : fewer.
Lemma sem_del_fewer o fl s : fewer_ret s (krhino_sem_del o fl s).
Proof. unfold krhino_sem_del. fewer_go. Qed.
Lemma mutex_del_fewer o fl s : fewer_ret s (krhino_mutex_del o fl s).
Proof. unfold krhino_mutex_del. fewer_go. Qed.
Lemma sem_create_fewer o c fl s : fewer s (sem_create o c fl s).2.
Proof. apply fewer_retype. unfold carries. simpl. rewrite upd_eq. reflexivity. Qed.
Lemma mutex_create_fewer o fl s : fewer s (mutex_create o fl s).2.
Proof. apply fewer_retype. unfold carries. simpl. rewrite upd_eq. reflexivity. Qed.
Lemma sem_count_fewer o c s : fewer s (krhino_sem_count_set o c s).2.
Proof.
  assert (Hf : fewer s (on_obj o (λ b, peak_update (o_count c b)) s)) by (apply fewer_obj; intros b; unfold peak_update; destruct (_ <? _); reflexivity).
  unfold krhino_sem_count_set. cbv zeta. repeat (destruct (_ <? _)); try destruct (decide _); try destruct (blk_list _); simpl; auto; reflexivity.
Qed.
Lemma mutex_lock_fewer o n s : fewer_ret s (krhino_mutex_lock o n s).
Proof.
  unfold krhino_mutex_lock. repeat (fewer_step; [solve [fewer_go]|]). destruct (decide _) as [Ety|]; [|fewer_go]. cbv zeta. destruct (decide _); [fewer_go|]. destruct (mutex_task _) as [m|]; [|fewer_go].
  do 2 (fewer_step; [solve [fewer_go]|]). set (e := if _ <? _ then _ else _). assert (Fe : fewer_opt s e) by (subst e; fewer_go). destruct e as [s1|]; [|exact I]. cbn [mbind option_bind]. simpl in Fe.
  apply (ret_from _ s1 _ Fe). apply ret_bind; [|intros; fewer_go]. apply pend_fewer, (carries_back s s1 o Fe), (is_carrier _ _ _ Ety). auto.
Qed.
Lemma mutex_unlock_fewer o s : fewer_ret s (krhino_mutex_unlock o s).
Proof. unfold krhino_mutex_unlock. fewer_go. Qed.
#[export] Hint Resolve sem_del_fewer mutex_del_fewer mutex_lock_fewer mutex_unlock_fewer : fewer.

(** ** Tasks and time *)

Lemma rotate_fewer s t : fewer_opt s (ready_list_head_to_tail t s).
Proof. unfold ready_list_head_to_tail. fewer_go. Qed.
#[export] Hint Resolve rotate_fewer : fewer.
Lemma slice_fewer s : fewer_opt s (time_slice_update s).
Proof. unfold time_slice_update. fewer_go. Qed.
Lemma expire_fewer s t : fewer_opt s (tick_expire t s).
Proof. unfold tick_expire. fewer_go. Qed.
#[export] Hint Resolve slice_fewer expire_fewer : fewer.
Lemma expire_all_fewer l : ∀ s, fewer_opt s (tick_expire_all l s).
Proof. induction l as [|t l IH]; intros s; simpl; fewer_go; auto. Qed.
Lemma tick_fewer s : fewer_opt s (krhino_tick_proc s).
Proof.
  unfold krhino_tick_proc, tick_list_update. cbv zeta. apply opt_bind; [|intros; apply slice_fewer]. apply (opt_from _ (set_ticks (g_tick_head s) (tick_wrap (g_tick_count s + 1)) s)); [fewer_leaf|]. apply expire_all_fewer.
Qed.
Lemma sleep_fewer n s : fewer_ret s (krhino_task_sleep n s).
Proof. unfold krhino_task_sleep. fewer_go. Qed.
(** A task that waits is suspended or resumed. *)
Lemma fewer_suspended s t f : pending (tasks s t) = true → blk_obj (f (tasks s t)) = blk_obj (tasks s t) → fewer s (on_task t f s).
Proof. intros Hp Hb. apply fewer_task. intros o. unfold wob1. rewrite Hp, Hb. destruct (pending (f _)); [auto|discriminate]. Qed.
Lemma suspend_fewer t s : fewer_ret s (krhino_task_suspend t s).
Proof.
  unfold krhino_task_suspend, task_suspend. destruct (_ =? _); [fewer_go|]. destruct (_ && _); [fewer_go|]. destruct (task_state (tasks s t)) eqn:E; try solve [fewer_go].
  apply (ret_from _ (on_task t (λ k, t_state K_PEND_SUSPENDED (t_suspend 1 k)) s)); [|apply sched_ok_fewer]. apply fewer_suspended; [unfold pending; rewrite E; reflexivity|reflexivity].
Qed.
Lemma resume_fewer t s : fewer_ret s (krhino_task_resume t s).
Proof.
  unfold krhino_task_resume, task_resume. cbv zeta. set (s1 := on_task t (λ k, t_suspend ((suspend_count k - 1) mod 256) k) s). assert (F : fewer s s1) by (subst s1; fewer_leaf).
  destruct (task_state (tasks s t)) eqn:E; try solve [fewer_go]; refine (ret_from _ _ _ _ (sched_ok_fewer _)); (etransitivity; [exact F|]); destruct (suspend_count _ =? 0); try reflexivity; try solve [fewer_go].
  apply fewer_suspended; [|reflexivity]. unfold s1, pending. simpl. rewrite upd_eq. simpl. rewrite E. reflexivity.
Qed.
Lemma pri_change_call_fewer t p s : fewer_ret s (krhino_task_pri_change t p s).
Proof. unfold krhino_task_pri_change. fewer_go. Qed.
Lemma abort_fewer t s : fewer_ret s (krhino_task_wait_abort t s).
Proof. unfold krhino_task_wait_abort. fewer_go. Qed.
Lemma create_fewer t p n st auto fl s : fewer_ret s (task_create t p n st auto fl s).
Proof. unfold task_create. cbv zeta. repeat (fewer_step; [solve [fewer_go]|]). destruct auto; fewer_go. Qed.
Lemma mutex_free_fewer t s : fewer_opt s (task_mutex_free t s).
Proof.
  unfold task_mutex_free. generalize (n_objs s), (mutex_list (tasks s t)). intros n m. revert m s. induction n as [|n IH]; intros m s; simpl; fewer_go; auto.
Qed.
Lemma unlink_fewer t s : fewer_opt s (task_unlink t s).
Proof. unfold task_unlink. fewer_go. Qed.
#[export] Hint Resolve mutex_free_fewer unlink_fewer : fewer.
Lemma del_fewer t s : fewer_ret s (krhino_task_del t s).
Proof. unfold krhino_task_del. fewer_go. Qed.
Lemma dyn_del_fewer t s : fewer_ret s (krhino_task_dyn_del t s).
Proof.
  unfold krhino_task_dyn_del. cbv zeta. destruct (0 <? _); [fewer_go|]. destruct (_ =? _); [fewer_go|]. destruct (decide _); [|fewer_go]. destruct (_ && _); [fewer_go|]. destruct (decide _); [fewer_go|].
  set (s1 := set_res _ _). assert (F1 : fewer s s1) by (subst s1; fewer_go). pose proof (sem_give_fewer g_res_sem false s1) as Fg. unfold krhino_sem_give. destruct (sem_give g_res_sem false s1) as [[r s2]|]; [|exact I].
  cbn [mbind option_bind]. simpl in Fg. apply (ret_from _ s2); [etransitivity; eassumption|]. fewer_go.
Qed.
Lemma enable_fewer s : fewer_ret s (krhino_sched_enable s).
Proof. unfold krhino_sched_enable. fewer_go. Qed.
Lemma intrpt_exit_fewer s : fewer_opt s (krhino_intrpt_exit s).
Proof. unfold krhino_intrpt_exit. cbv zeta. apply (opt_from _ (set_level ((g_intrpt_nested_level s - 1) mod 256) s)); [fewer_leaf|]. fewer_go. Qed.

Lemma ret_pair s (x : kret * kern) : fewer s x.2 → fewer_ret s (Some x).
Proof. destruct x. auto. Qed.
Lemma done_fewer s r : fewer_opt s r → fewer_ret s (done r).
Proof. intros H. unfold done. apply ret_bind; [exact H|]. intros s1. simpl. reflexivity. Qed.
Lemma task_sem_fewer s t f : (∀ o, fewer_ret s (f o s)) → fewer_ret s (on_task_sem t f s).
Proof. intros H. unfold on_task_sem. destruct (task_sem_obj _); [apply H|]. simpl. reflexivity. Qed.
Lemma task_sem_create_fewer t o c s : fewer s (krhino_task_sem_create t o c s).2.
Proof. unfold krhino_task_sem_create. simpl. etransitivity; [apply (sem_create_fewer o c K_OBJ_STATIC_ALLOC s)|]. fewer_leaf. Qed.
(** Every call of Kernel.v. *)
Lemma exec_fewer op s : fewer_ret s (exec op s).
Proof.
  destruct op; simpl exec; try apply enable_fewer; try apply sleep_fewer; try apply suspend_fewer; try apply resume_fewer; try apply pri_change_call_fewer; try apply abort_fewer;
    try apply create_fewer; try apply del_fewer; try apply dyn_del_fewer; try apply sem_give_fewer; try apply task_sem_fewer; try solve [auto with fewer]; try (apply ret_pair);
    try apply sem_create_fewer; try apply mutex_create_fewer; try apply sem_count_fewer; try apply task_sem_create_fewer; try apply done_fewer; try apply tick_fewer; try apply intrpt_exit_fewer.
  - unfold krhino_sched_disable. destruct (0 <? _); [reflexivity|]. destruct (_ <=? _); [reflexivity|]. simpl. fewer_go.
  - unfold krhino_task_yield. fewer_go.
  - unfold krhino_task_time_slice_set. destruct (0 <? _); [reflexivity|]. simpl. fewer_go.
  - unfold krhino_sched_policy_set. destruct (0 <? _); [reflexivity|]. simpl. fewer_go.
  - intros o. apply sem_give_fewer.
  - intros o. apply ret_pair, sem_count_fewer.
  - simpl. fewer_go.
Qed.
