(* ===== verification/KernelMsgProps.v ===== *)
(** * KernelMsgProps: messages and events arrive

    The calls of Kernel.v and KernelMsg.v as one system, its invariant, and that in every run
    from the start-up no call stops the system, the messages of a queue are received in the
    order in which they were sent, no task waits for a queue that holds a message, and none
    waits for flags that are set. *)
From Stdlib Require Import ZArith Lia List Bool.
From stdpp Require Import base list numbers option sorting sets.
From S2P Require Import Prelude Env Kernel KernelQueue KernelInv KernelPri KernelMoves KernelOps KernelTasks KernelLife KernelProps RingBuf KernelMsg KernelWait.
Local Open Scope Z_scope.

(** ** Calls *)

Inductive xop :=
| XK (op : kop)
| XQueueCreate (o : nat) (mem : list Z) (n : Z) (fl : alloc_flag) | XQueueDel (o : nat) (fl : alloc_flag) | XQueueSend (o : nat) (p : Z) | XQueueAllSend (o : nat) (p : Z) | XQueueRecv (o : nat) (n : Z) | XQueueFlush (o : nat)
| XBufCreate (o : nat) (buf : list Z) (max : Z) (fl : alloc_flag) (ty : ringbuf_type) | XBufDel (o : nat) (fl : alloc_flag) | XBufSend (o : nat) (mem : list Z) (size : Z) | XBufRecv (o : nat) (n : Z) | XBufFlush (o : nat)
| XEventCreate (o : nat) (f : Z) (fl : alloc_flag) | XEventDel (o : nat) (fl : alloc_flag) | XEventGet (o : nat) (want opt n : Z) | XEventSet (o : nat) (f opt : Z).

Definition tinfo_zero : tinfo := mkTi [] 0 0 0 0.
(** [task_create] clears the task block. *)
Definition clear_block (op : kop) (r : kret) (s : kx) : kx :=
  match op, r with OTaskCreate t _ _ _ _ _, Returns RHINO_SUCCESS => on_t t (λ _, tinfo_zero) s | _, _ => s end.
Definition xexec (op : xop) (s : kx) : xret :=
  match op with
  | XK op => '(r, k) ← exec op (kn s); Some (r, [], clear_block op r (with_kn k s))
  | XQueueCreate o mem n fl => queue_create o mem n fl s | XQueueDel o fl => krhino_queue_del o fl s
  | XQueueSend o p => krhino_queue_back_send o p s | XQueueAllSend o p => krhino_queue_all_send o p s | XQueueRecv o n => krhino_queue_recv o n s | XQueueFlush o => krhino_queue_flush o s
  | XBufCreate o buf max fl ty => buf_queue_create o buf max fl ty s | XBufDel o fl => krhino_buf_queue_del o fl s
  | XBufSend o mem size => krhino_buf_queue_send o mem size s | XBufRecv o n => krhino_buf_queue_recv o n s | XBufFlush o => krhino_buf_queue_flush o s
  | XEventCreate o f fl => event_create o f fl s | XEventDel o fl => krhino_event_del o fl s | XEventGet o want opt n => krhino_event_get o want opt n s | XEventSet o f opt => krhino_event_set o f opt s
  end.
(** Beyond [legal] for the calls of Kernel.v: memory has the size that is passed with it, and a
    message for a queue of fixed size has that size at least; the idle task does not wait. *)
Definition xlegal (op : xop) (s : kx) : Prop :=
  match op with
  | XK op => legal op (kn s)
  | XQueueCreate o mem n _ => free_obj o (kn s) ∧ Z.of_nat (length mem) = 4 * n ∧ 4 * n < 4294967296
  | XBufCreate o buf max _ ty => free_obj o (kn s) ∧ 0 ≤ max ∧ Z.of_nat (length buf) < 4294967296 ∧ (ty = RINGBUF_TYPE_FIX → (max | Z.of_nat (length buf)))
  | XEventCreate o f _ => free_obj o (kn s) ∧ 0 ≤ f
  | XBufSend o mem size => 0 ≤ size ≤ Z.of_nat (length mem) ∧ size < 4294967292 ∧ (rb_type (ringbuf (qs s o)) = RINGBUF_TYPE_FIX → msg_size (qs s o) ≤ Z.of_nat (length mem))
  | XQueueRecv _ n | XBufRecv _ n | XEventGet _ _ _ n => tick_arg n ∧ may_block (kn s)
  | XEventSet _ f _ => 0 ≤ f
  | _ => True
  end.

(** ** The invariant *)

(** The messages [q] are in the ring of [o]; they are what has been sent and not received. *)
Record chan (s : kx) (o : nat) (q : list (list Z)) : Prop := mkChan {
  ch_holds : holds (ringbuf (qs s o)) q; ch_num : cur_num (qs s o) = Z.of_nat (length q); ch_log : sent s o = received s o ++ q; ch_idle : waiters o s ≠ [] → q = [] }.
Definition is_queue (q : qinfo) : Prop := rb_type (ringbuf q) = RINGBUF_TYPE_FIX ∧ blk_size (ringbuf q) = 4 ∧ rb_end (ringbuf q) = 4 * msg_size q.
Definition is_bufq (q : qinfo) : Prop := 0 < msg_size q ∧ blk_size (ringbuf q) = msg_size q.
Definition unmet (s : kx) (o t : nat) : Prop := event_met (pend_option (ts s t)) (pend_flags (ts s t)) (flags (qs s o)) = false.
Definition qok (s : kx) (o : nat) : Prop :=
  match obj_type (objs (kn s) o) with
  | RHINO_QUEUE_OBJ_TYPE => is_queue (qs s o) ∧ ∃ q, chan s o q
  | RHINO_BUF_QUEUE_OBJ_TYPE => is_bufq (qs s o) ∧ ∃ q, chan s o q
  | RHINO_EVENT_OBJ_TYPE => 0 ≤ flags (qs s o) ∧ ∀ t, t ∈ waiters o s → unmet s o t
  | _ => True
  end.
Definition XInv (s : kx) : Prop := Inv (kn s) ∧ ∀ o, qok s o.
Definition xfine (r : xret) : Prop := ∃ rt d s', r = Some (rt, d, s') ∧ XInv s'.

Lemma waiters_wob k o t : Inv k → t ∈ blk_list (objs k o) ↔ wob k t = Some o.
Proof. intros (H & HK & _). apply (bl_mem _ _ _ (c_bl _ _ _ (i_core _ _ _ HK))). Qed.
(** The tasks that wait do not become more, and the rest of what belongs to [o] is the same. *)
Lemma qok_ext s s' o : qok s o → (carries (kn s') o = true → obj_type (objs (kn s') o) = obj_type (objs (kn s) o)) →
  (∀ t, carries (kn s') o = true → t ∈ waiters o s' → t ∈ waiters o s) → qs s' o = qs s o → sent s' o = sent s o → received s' o = received s o →
  (∀ t, carries (kn s') o = true → t ∈ waiters o s' → pend_option (ts s' t) = pend_option (ts s t) ∧ pend_flags (ts s' t) = pend_flags (ts s t)) → qok s' o.
Proof.
  intros Hq Ht Hw E1 E2 E3 Hp. unfold qok. unfold carries in *. destruct (obj_type (objs (kn s') o)) eqn:Ty; try exact I; specialize (Ht eq_refl); unfold qok in Hq; rewrite <- Ht in Hq.
  1,2: destruct Hq as (A & q & [B1 B2 B3 B4]); rewrite E1; split; [exact A|]; exists q; split; rewrite ?E1, ?E2, ?E3; auto;
    intros Hn; apply B4; destruct (waiters o s') as [|x l] eqn:El; [congruence|]; intros El'; specialize (Hw x eq_refl); rewrite El' in Hw; set_solver.
  destruct Hq as (A & B). rewrite E1. split; [exact A|]. intros t Hin. unfold unmet. destruct (Hp t eq_refl Hin) as [-> ->]. rewrite E1. apply B, Hw; auto.
Qed.

Lemma qok_idle s o : carries (kn s) o = false → qok s o.
Proof. unfold carries, qok. destruct (obj_type _); auto; discriminate. Qed.
Definition same_pend (s s' : kx) (t : nat) : Prop := pend_option (ts s' t) = pend_option (ts s t) ∧ pend_flags (ts s' t) = pend_flags (ts s t).
Lemma qok_step s s' x : XInv s → Inv (kn s') → fewer (kn s) (kn s') → qs s' x = qs s x → sent s' x = sent s x → received s' x = received s x →
  (∀ t, carries (kn s') x = true → wob (kn s') t = Some x → same_pend s s' t) → qok s' x.
Proof.
  intros [HI HQ] HI' F E1 E2 E3 Hp. destruct (carries (kn s') x) eqn:Ec; [|apply qok_idle, Ec]. apply (qok_ext s); auto.
  - intros _. apply (fw_type _ _ F), Ec.
  - intros t _. unfold waiters. rewrite !waiters_wob by assumption. apply (fw_wob _ _ F), Ec.
  - intros t _ Ht. apply Hp; [reflexivity|]. apply (waiters_wob _ _ _ HI'), Ht.
Qed.
(** A call that is about the object [o] only. *)
Lemma XInv_step s s' o : XInv s → Inv (kn s') → fewer (kn s) (kn s') → (∀ x, x ≠ o → qs s' x = qs s x ∧ sent s' x = sent s x ∧ received s' x = received s x) →
  (∀ t x, x ≠ o → wob (kn s') t = Some x → same_pend s s' t) → (carries (kn s') o = true → qok s' o) → XInv s'.
Proof.
  intros HX HI' F He Hp Ho. split; [exact HI'|]. intros x. destruct (Nat.eq_dec x o) as [->|Hx]; [destruct (carries (kn s') o) eqn:Ec; [apply Ho, eq_refl|apply qok_idle, Ec]|].
  destruct (He x Hx) as (E1 & E2 & E3). apply (qok_step s); auto. intros t _. apply Hp, Hx.
Qed.
Lemma xfine_ret st s : XInv s → xfine (ret st s).
Proof. intros H. exists (Returns st), [], s. auto. Qed.
Lemma core_sched_same k k' : core_sched k = Some k' → tasks k' = tasks k ∧ objs k' = objs k.
Proof.
  unfold core_sched. destruct (0 <? _); [intros [= <-]; auto|]. destruct (0 <? _); [intros [= <-]; auto|]. destruct (preferred_cpu_ready_task_get _) as [t|]; [|discriminate].
  cbn [mbind option_bind]. intros [= <-]. destruct (Nat.eqb _ _); auto.
Qed.
Lemma carries_owner k o : carries k o = true → owner k o = None.
Proof. unfold carries, owner, owner1. destruct (obj_type _); auto; discriminate. Qed.
(** The first task that waits for [o] is woken. *)
Lemma wake_sched k o t : Inv k → t ∈ blk_list (objs k o) → carries k o = true → ∃ k1 k2, pend_task_wakeup t k = Some k1 ∧ core_sched k1 = Some k2 ∧ Inv k2 ∧ fewer k k2.
Proof.
  intros HI Ht Hc. assert (Ew : wob k t = Some o) by (apply (waiters_wob _ _ _ HI), Ht). destruct HI as (H & HK & HT & HP). rewrite wake_with_finish.
  destruct (KI_wake nobody H k t o BLK_FINISH HK Ew (carries_owner _ _ Hc)) as (k1 & E1 & K1 & _ & C1 & _). exists k1.
  destruct (sched_inv H k1 K1 (calm_ticks _ _ HT C1) (calm_pre _ _ HP C1)) as (k2 & E2 & I2). exists k2. split; [exact E1|]. split; [exact E2|]. split; [exact I2|].
  pose proof (wake_fewer k t) as F1. rewrite wake_with_finish, E1 in F1. pose proof (core_sched_fewer k1) as F2. rewrite E2 in F2. etransitivity; eassumption.
Qed.
Lemma wake_all_sched k o b : Inv k → carries k o = true → ∃ k1 k2, wake_waiters (wake_with b) o k = Some k1 ∧ core_sched k1 = Some k2 ∧ Inv k2 ∧ fewer k k2 ∧ blk_list (objs k1 o) = [].
Proof.
  intros (H & HK & HT & HP) Hc. destruct (KI_wake_all nobody H b o _ k HK (carries_owner _ _ Hc) (le_n _)) as (k1 & E1 & K1 & _ & C1 & B1 & _). exists k1.
  destruct (sched_inv H k1 K1 (calm_ticks _ _ HT C1) (calm_pre _ _ HP C1)) as (k2 & E2 & I2). exists k2. split; [exact E1|]. split; [exact E2|]. split; [exact I2|]. split; [|exact B1].
  assert (F1 : fewer_opt k (wake_waiters (wake_with b) o k)) by (apply wake_all_fewer; intros t s; unfold wake_with, pend_wake; fewer_go). unfold wake_waiters in F1. rewrite E1 in F1.
  pose proof (core_sched_fewer k1) as F2. rewrite E2 in F2. etransitivity; eassumption.
Qed.
(** The running task begins to wait for [o]. *)
Lemma pend_sched k o n : Inv k → tick_arg n → n ≠ 0 → (0 <? g_intrpt_nested_level k) = false → (0 <? g_sched_lock k) = false → may_block k → carries k o = true →
  ∃ k1 k2, pend_to_blk_obj o (g_active_task k) n k = Some k1 ∧ core_sched k1 = Some k2 ∧ Inv k2 ∧ (∀ x, obj_type (objs k2 x) = obj_type (objs k x)) ∧
    wob k2 (g_active_task k) = Some o ∧ (∀ t, t ≠ g_active_task k → wob k2 t = wob k t) ∧ wob k (g_active_task k) = None.
Proof.
  intros (H & HK & HT & HP) Hn Hz El Ek Hi Hc. apply (level_zero _ HP) in El. apply (lock_zero _ HP) in Ek. assert (Hs := cpu_rdy _ HP (or_introl El)).
  destruct (pend_core _ H k (i_core _ _ _ HK) _ (Hi El) Hs o n (tick_arg_ok _ Hn Hz)) as (k1 & b & E1 & HB & F & T & O & C1).
  assert (Hty : obj_type (objs k o) ≠ RHINO_OBJ_TYPE_NONE ∧ obj_type (objs k o) ≠ RHINO_MUTEX_OBJ_TYPE) by (unfold carries in Hc; destruct (obj_type _); split; congruence).
  assert (K1 : KI nobody H k1).
  { apply (begin_KI H k _ b (Some o) k1 HB F T (i_waits _ _ _ HK) (i_objs _ _ _ HK) C1).
    - apply (begin_due k _ Hs b (Some o) k1 HB T (i_due _ _ _ HK)). exact (carries_owner _ _ Hc).
    - intros o' [= <-]. split; [apply Hty|]. intros E. destruct (proj2 Hty E).
    - intros o' Ho. apply O. congruence. }
  destruct (sched_inv H k1 K1 (begin_ticks k HT _ b _ k1 HB F T) (begin_pre _ _ HP F El Ek)) as (k2 & E2 & I2). exists k1, k2.
  destruct (core_sched_same _ _ E2) as [Et Eo]. split; [exact E1|]. split; [exact E2|]. split; [exact I2|]. split; [intros x; rewrite Eo; apply (frame_type _ _ _ F)|].
  split; [unfold wob; rewrite Et, T, upd_eq; apply (bg_wob _ _ _ _ HB)|]. split; [intros t Ht; unfold wob; rewrite Et, T, upd_ne by exact Ht; reflexivity|].
  unfold wob, wob1, pending. rewrite Hs. reflexivity.
Qed.
(** The object [o] is deleted. *)
Lemma del_sched k o : Inv k → carries k o = true →
  ∃ k1 k2, wake_waiters pend_task_rm o (on_obj o (o_type RHINO_OBJ_TYPE_NONE) k) = Some k1 ∧ core_sched k1 = Some k2 ∧ Inv k2 ∧ fewer k k2 ∧ carries k2 o = false.
Proof.
  intros (H & HK & HT & HP) Hc. set (k0 := on_obj o (o_type RHINO_OBJ_TYPE_NONE) k).
  destruct (del_waiters H k k0 o HT HP) as (r & k2 & E & I2); [apply KI_marked; [exact HK|apply carries_owner, Hc]|unfold k0; rewrite marked_owner, upd_eq; reflexivity|apply calm_obj|].
  assert (F1 : fewer_opt k0 (wake_waiters pend_task_rm o k0)) by (apply wake_all_fewer; auto with fewer). destruct (wake_waiters pend_task_rm o k0) as [k1|]; [|discriminate]. exists k1. cbn [mbind option_bind] in E.
  pose proof (core_sched_fewer k1) as F2. destruct (core_sched k1) as [k2'|]; [|discriminate]. injection E as _ ->. exists k2. simpl in F1, F2.
  assert (F : fewer k0 k2) by (etransitivity; eassumption). split; [reflexivity|]. split; [reflexivity|]. split; [exact I2|]. split; [etransitivity; [apply retype_fewer|exact F]|].
  apply (carries_back _ _ _ F). unfold k0, carries. simpl. rewrite upd_eq. reflexivity.
Qed.

Lemma upd_at {A} (f : nat → A) k v : upd f k v k = v.
Proof. apply upd_eq. Qed.
Lemma is_type_carries ty o s : is_type ty o s = true → ty = RHINO_QUEUE_OBJ_TYPE ∨ ty = RHINO_BUF_QUEUE_OBJ_TYPE ∨ ty = RHINO_EVENT_OBJ_TYPE → obj_type (objs (kn s) o) = ty ∧ carries (kn s) o = true.
Proof. intros E Ht. apply bool_decide_eq_true in E. split; [exact E|]. unfold carries. rewrite E. destruct Ht as [->|[->| ->]]; reflexivity. Qed.

(** Nothing but the object [o] of the additional state is changed, and nothing a waiting task has asked for. *)
Record only (o : nat) (s s' : kx) : Prop := mkOnly { on_kn : kn s' = kn s; on_ts : ∀ t, same_pend s s' t; on_qs : ∀ x, x ≠ o → qs s' x = qs s x ∧ sent s' x = sent s x ∧ received s' x = received s x }.
#[export] Instance only_preorder o : PreOrder (only o).
Proof.
  split; [intros s; split; auto; intros t; split; reflexivity|]. intros s1 s2 s3 [A1 A2 A3] [B1 B2 B3]. split; [congruence| |].
  - intros t. destruct (A2 t), (B2 t). split; congruence.
  - intros x Hx. destruct (A3 x Hx) as (?&?&?), (B3 x Hx) as (?&?&?). repeat split; congruence.
Qed.
Ltac only_tac := split; [reflexivity|intros ?; split; simpl; try (unfold upd; destruct (Nat.eqb_spec _ _); subst); reflexivity|intros ? ?; simpl; rewrite ?upd_ne by assumption; auto].
Lemma only_q o f s : only o s (on_q o f s).
Proof. only_tac. Qed.
Lemma only_sent o m s : only o s (log_sent o m s).
Proof. only_tac. Qed.
Lemma only_received o m s : only o s (log_received o m s).
Proof. only_tac. Qed.
Lemma only_clear o s : only o s (log_clear o s).
Proof. only_tac. Qed.
Lemma only_t o t f s : (∀ i, pend_option (f i) = pend_option i ∧ pend_flags (f i) = pend_flags i) → only o s (on_t t f s).
Proof. intros H. split; [reflexivity| |auto]. intros x. unfold same_pend. simpl. unfold upd. destruct (Nat.eqb_spec x t) as [->|?]; auto. Qed.
Lemma only_flush o s : only o s (log_flush o s).
Proof. split; [reflexivity|intros t; split; reflexivity|]. intros x Hx. simpl. rewrite !upd_ne by exact Hx. auto. Qed.
#[export] Hint Resolve only_q only_sent only_received only_clear only_flush : kern.

(** A call that changes the additional state at [o] and then the kernel. *)
Lemma XInv_only s s1 s' o : XInv s → only o s s1 → s' = with_kn (kn s') s1 → Inv (kn s') → fewer (kn s) (kn s') → (carries (kn s') o = true → qok s' o) → XInv s'.
Proof.
  intros HX [E1 E2 E3] Es HI' F Ho. apply (XInv_step s _ o HX HI' F); [|intros t x _ _; rewrite Es; apply (E2 t)|exact Ho]. intros x Hx. rewrite Es. simpl. apply E3, Hx.
Qed.

(** ** Every call keeps the invariant *)

Lemma xk_ok op s : XInv s → legal op (kn s) → xfine (xexec (XK op) s).
Proof.
  intros HX HL. assert (HX' := HX). destruct HX as [HI HQ]. destruct (exec_fine op (kn s) HI HL) as (r & k & E & HI'). pose proof (exec_fewer op (kn s)) as F. cbn [xexec]. rewrite E in *. cbn [mbind option_bind]. simpl in F.
  exists r, [], (clear_block op r (with_kn k s)). split; [reflexivity|].
  assert (Ek : kn (clear_block op r (with_kn k s)) = k) by (destruct op; try reflexivity; destruct r as [[]|]; reflexivity).
  assert (Eq : ∀ x, qs (clear_block op r (with_kn k s)) x = qs s x ∧ sent (clear_block op r (with_kn k s)) x = sent s x ∧ received (clear_block op r (with_kn k s)) x = received s x).
  { intros x. destruct op; auto; destruct r as [[]|]; auto. }
  split; rewrite ?Ek; [exact HI'|]. intros x. destruct (Eq x) as (E1 & E2 & E3). apply (qok_step s); rewrite ?Ek; auto. intros t Hc Hw. apply (fw_wob _ _ F t x Hc), wob_pending in Hw.
  destruct op; try (split; reflexivity). destruct r as [[]|]; try (split; reflexivity). destruct (Nat.eq_dec t t0) as [->|Ht]; [exfalso|split; simpl; rewrite upd_ne by exact Ht; reflexivity].
  destruct HL as [[Hl _] _]. unfold live, pending in *. destruct (task_state _); discriminate.
Qed.
(** A new object: its type is [ty], and nobody waits for it. *)
Lemma create_kern k o ty fl : Inv k → free_obj o k → ty = RHINO_QUEUE_OBJ_TYPE ∨ ty = RHINO_BUF_QUEUE_OBJ_TYPE ∨ ty = RHINO_EVENT_OBJ_TYPE →
  Inv (on_obj o (obj_init ty fl) k) ∧ obj_type (objs (on_obj o (obj_init ty fl) k) o) = ty ∧ blk_list (objs (on_obj o (obj_init ty fl) k) o) = [] ∧
  (∀ x, x ≠ o → objs (on_obj o (obj_init ty fl) k) x = objs k x) ∧ ∀ t, wob (on_obj o (obj_init ty fl) k) t = wob k t.
Proof.
  intros HI Hf Hty. split; [apply (create_inv k o (obj_init ty fl (objs k o)) HI Hf); try reflexivity; [|]; destruct Hty as [->|[->| ->]]; reflexivity || discriminate|].
  simpl. rewrite !upd_eq. split; [reflexivity|]. split; [reflexivity|]. split; [intros x Hx; apply upd_ne, Hx|reflexivity].
Qed.
Lemma XInv_create s s1 o ty fl : XInv s → free_obj o (kn s) → ty = RHINO_QUEUE_OBJ_TYPE ∨ ty = RHINO_BUF_QUEUE_OBJ_TYPE ∨ ty = RHINO_EVENT_OBJ_TYPE → only o s s1 →
  let s' := with_kn (on_obj o (obj_init ty fl) (kn s)) s1 in (obj_type (objs (kn s') o) = ty → waiters o s' = [] → qok s' o) → XInv s'.
Proof.
  intros [HI HQ] Hf Hty [_ O2 O3] s' Ho. destruct (create_kern (kn s) o ty fl HI Hf Hty) as (I1 & E1 & E2 & E3 & E4). split; [exact I1|]. intros x. destruct (Nat.eq_dec x o) as [->|Hx]; [apply Ho; assumption|].
  destruct (O3 x Hx) as (A & B & C). apply (qok_ext s); auto.
  - intros _. change (kn s') with (on_obj o (obj_init ty fl) (kn s)). rewrite E3 by exact Hx. reflexivity.
  - intros t _. unfold waiters. change (kn s') with (on_obj o (obj_init ty fl) (kn s)). rewrite E3 by exact Hx. auto.
  - intros t _ _. apply O2.
Qed.

Lemma chan_empty s o : holds (ringbuf (qs s o)) [] → cur_num (qs s o) = 0 → sent s o = received s o → chan s o [].
Proof. intros A B C. split; auto. rewrite C, app_nil_r. reflexivity. Qed.
Lemma queue_create_ok o mem n fl s : XInv s → xlegal (XQueueCreate o mem n fl) s → xfine (queue_create o mem n fl s).
Proof.
  intros HX (Hf & Hm & Hn). unfold queue_create. destruct (Z.eqb_spec n 0) as [?|Hz]; [apply xfine_ret, HX|]. apply xfine_ret. cbv zeta.
  set (f := λ q : qinfo, _). apply (XInv_create s (log_clear o (on_q o f s)) o RHINO_QUEUE_OBJ_TYPE fl HX Hf); [auto|etransitivity; [apply only_q|apply only_clear]|].
  intros Ty _. unfold qok. rewrite Ty. simpl. unfold is_queue. rewrite !upd_eq. simpl. split; [unfold rb_end; simpl; repeat split; lia|]. exists []. apply chan_empty; simpl; rewrite !upd_eq; simpl; auto.
  apply reset_ok; unfold rb_end; simpl; [lia|]. intros _. split; [lia|]. exists n. lia.
Qed.
Lemma buf_create_ok o buf max fl ty s : XInv s → xlegal (XBufCreate o buf max fl ty) s → xfine (buf_queue_create o buf max fl ty s).
Proof.
  intros HX (Hf & Hm & Hn & Hd). unfold buf_queue_create. destruct (Z.eqb_spec max 0) as [?|Hz]; [apply xfine_ret, HX|]. destruct (Z.eqb_spec (Z.of_nat (length buf)) 0) as [?|Hl]; [apply xfine_ret, HX|].
  apply xfine_ret. cbv zeta. set (f := λ q : qinfo, _). apply (XInv_create s (log_clear o (on_q o f s)) o RHINO_BUF_QUEUE_OBJ_TYPE fl HX Hf); [auto|etransitivity; [apply only_q|apply only_clear]|].
  intros Ty _. unfold qok. rewrite Ty. simpl. unfold is_bufq. rewrite !upd_eq. simpl. split; [split; [lia|reflexivity]|]. exists []. apply chan_empty; simpl; rewrite !upd_eq; simpl; auto.
  apply reset_ok; unfold rb_end; simpl; [lia|]. intros E. split; [lia|]. apply Hd, E.
Qed.
Lemma event_create_ok o f fl s : XInv s → xlegal (XEventCreate o f fl) s → xfine (event_create o f fl s).
Proof.
  intros HX (Hf & Hp). apply xfine_ret. apply (XInv_create s (on_q o (q_flags f) s) o RHINO_EVENT_OBJ_TYPE fl HX Hf); [auto|apply only_q|].
  intros Ty Hw. unfold qok. rewrite Ty. simpl. rewrite !upd_eq. simpl. split; [exact Hp|]. intros t Ht. rewrite Hw in Ht. set_solver.
Qed.
Lemma obj_del_ok ty o fl reset s : XInv s → ty = RHINO_QUEUE_OBJ_TYPE ∨ ty = RHINO_BUF_QUEUE_OBJ_TYPE ∨ ty = RHINO_EVENT_OBJ_TYPE → (∀ s, only o s (reset s)) → xfine (obj_del ty o fl reset s).
Proof.
  intros HX Hty Hr. unfold obj_del. destruct (0 <? _); [apply xfine_ret, HX|]. destruct (is_type ty o s) eqn:Et; [|apply xfine_ret, HX]. cbn [negb]. destruct (bool_decide _); [|apply xfine_ret, HX]. cbn [negb].
  destruct (is_type_carries _ _ _ Et Hty) as [_ Hc]. destruct (del_sched (kn s) o (proj1 HX) Hc) as (k1 & k2 & E1 & E2 & I2 & F & N). rewrite E1. cbn [mbind option_bind].
  unfold sched_ret. rewrite (on_kn _ _ _ (Hr (with_kn k1 s))). simpl kn. rewrite E2. cbn [mbind option_bind]. eexists _, _, _. split; [reflexivity|].
  destruct (Hr (with_kn k1 s)) as [O1 O2 O3]. apply (XInv_step s (with_kn k2 (reset (with_kn k1 s))) o HX I2 F); [exact O3|intros t x _ _; apply O2|]. simpl. congruence.
Qed.

(** *** Queues *)

Lemma queue_used q : Forall (msg_ok RINGBUF_TYPE_FIX 4) q → used RINGBUF_TYPE_FIX q = 4 * Z.of_nat (length q).
Proof. intros H. unfold used. induction H as [|d q Hd _ IH]; [reflexivity|]. simpl in *. rewrite length_app. lia. Qed.
(** What is pushed is sent. *)
Lemma chan_push s s' o q m r : chan s o q → waiters o s = [] → waiters o s' = [] → ringbuf (qs s' o) = r → holds r (q ++ [m]) → cur_num (qs s' o) = cur_num (qs s o) + 1 →
  sent s' o = sent s o ++ [m] → received s' o = received s o → chan s' o (q ++ [m]).
Proof.
  intros [A B C D] Hw Hw' Er Hr En E1 E2. split.
  - rewrite Er. exact Hr.
  - rewrite En, B, length_app. simpl. lia.
  - rewrite E1, E2, C, app_assoc. reflexivity.
  - intros Hn. destruct (Hn Hw').
Qed.
(** A message that goes to a waiting task is sent and received at once. *)
Lemma chan_hand s s' o q : chan s o q → waiters o s ≠ [] → qs s' o = qs s o → (∃ l, sent s' o = sent s o ++ l ∧ received s' o = received s o ++ l) → q = [] ∧ chan s' o [].
Proof.
  intros [A B C D] Hw Eq (l & E1 & E2). specialize (D Hw). subst q. split; [reflexivity|]. rewrite app_nil_r in C. split; rewrite ?Eq; auto. rewrite E1, E2, C, app_nil_r. reflexivity.
Qed.
Lemma msg_push_ok o p s : XInv s → is_type RHINO_QUEUE_OBJ_TYPE o s = true → cur_num (qs s o) < msg_size (qs s o) → waiters o s = [] →
  let s1 := on_q o (λ q, peak_num_update (q_num (u32 (cur_num q + 1)) q)) s in
  ∃ st r, ringbuf_push (le32 p) 4 (ringbuf (qs s1 o)) = Some (st, r) ∧ XInv (log_sent o (le32 p) (on_q o (q_ring r) s1)).
Proof.
  intros HX Et Hlt Hw s1. destruct (is_type_carries _ _ _ Et (or_introl eq_refl)) as [Ty Hc]. pose proof (proj2 HX o) as Hq. unfold qok in Hq. rewrite Ty in Hq. destruct Hq as ((Q1 & Q2 & Q3) & q & Hch).
  assert (HH := ch_holds _ _ _ Hch). assert (Hcap := b_cap _ _ (h_bytes _ _ HH)). assert (Hnum := ch_num _ _ _ Hch).
  assert (Er : ringbuf (qs s1 o) = ringbuf (qs s o)) by (unfold s1; simpl; rewrite upd_eq; unfold peak_num_update; destruct (_ <? _); reflexivity).
  assert (En : cur_num (qs s1 o) = cur_num (qs s o) + 1) by (unfold s1; simpl; rewrite upd_eq; unfold peak_num_update; destruct (_ <? _); simpl; apply u32_small; lia).
  assert (Ez : msg_size (qs s1 o) = msg_size (qs s o)) by (unfold s1; simpl; rewrite upd_eq; unfold peak_num_update; destruct (_ <? _); reflexivity).
  pose proof (push_step (ringbuf (qs s o)) q (le32 p) HH) as Hp. unfold fifo_push, rb_arg in Hp. rewrite Q1, Q2 in Hp. specialize (Hp ltac:(simpl; lia)).
  pose proof (h_msgs _ _ HH) as Hm. rewrite Q1, Q2 in Hm. rewrite (queue_used _ Hm), (proj2 (Z.leb_le _ _)) in Hp by lia. destruct Hp as (r & E & HH' & [S1 S2 S3]).
  change (Z.of_nat (length (le32 p))) with 4 in E. exists RHINO_SUCCESS, r. rewrite Er. split; [exact E|].
  apply (XInv_only s (log_sent o (le32 p) (on_q o (q_ring r) s1)) _ o HX); [|reflexivity|apply HX|reflexivity|].
  - etransitivity; [apply only_q|]. etransitivity; [apply only_q|apply only_sent].
  - intros _. unfold qok. simpl kn. rewrite Ty. simpl qs. rewrite upd_eq. split; [unfold is_queue; simpl; rewrite S1, S2, S3; unfold s1 in Ez; simpl in Ez; rewrite Ez; auto|].
    exists (q ++ [le32 p]). apply (chan_push s (log_sent o (le32 p) (on_q o (q_ring r) s1)) o q _ r Hch Hw Hw); [simpl; rewrite upd_eq; reflexivity|exact HH'|simpl; rewrite upd_eq; exact En|simpl; rewrite upd_eq; reflexivity|reflexivity].
Qed.

Lemma task_msg_recv_eq o t m s k : pend_task_wakeup t (kn s) = Some k → task_msg_recv o t m s = Some (with_kn k (log_received o m (log_sent o m (on_t t (ti_msg m) s)))).
Proof. intros E. unfold task_msg_recv, queue_msg. cbn [ts on_t log_sent kn log_received]. rewrite upd_eq. cbn [task_msg ti_msg]. rewrite E. reflexivity. Qed.
Definition handed_over (o : nat) (s s' : kx) : Prop :=
  only o s (with_kn (kn s) s') ∧ qs s' = qs s ∧ ∃ l, sent s' o = sent s o ++ l ∧ received s' o = received s o ++ l.
Lemma handed_one o t m s k : handed_over o s (with_kn k (log_received o m (log_sent o m (on_t t (ti_msg m) s)))).
Proof.
  split; [|split; [reflexivity|exists [m]; simpl; rewrite !upd_eq; auto]]. change (only o s (log_received o m (log_sent o m (on_t t (ti_msg m) s)))). transitivity (on_t t (ti_msg m) s); [apply only_t; auto|]. etransitivity; [apply only_sent|apply only_received].
Qed.
Lemma handed_trans o s1 s2 s3 : handed_over o s1 s2 → handed_over o s2 s3 → handed_over o s1 s3.
Proof.
  intros ([A1 A2 A3] & B & l & C1 & C2) ([A1' A2' A3'] & B' & l' & C1' & C2'). split; [|split; [congruence|exists (l ++ l'); rewrite C1', C2', C1, C2, <- !app_assoc; auto]]. split; [reflexivity| |].
  - intros t. destruct (A2 t), (A2' t). split; simpl in *; congruence.
  - intros x Hx. destruct (A3 x Hx) as (?&?&?), (A3' x Hx) as (?&?&?). simpl in *. repeat split; congruence.
Qed.
Lemma recv_all_eq o m fuel : ∀ s k, wake_all pend_task_wakeup fuel o (kn s) = Some k → ∃ s', msg_recv_all fuel o m s = Some s' ∧ kn s' = k ∧ handed_over o s s'.
Proof.
  assert (Hrefl : ∀ s, handed_over o s s) by (intros s; split; [split; [reflexivity|intros t; split; reflexivity|auto]|split; [reflexivity|exists []; rewrite !app_nil_r; auto]]).
  induction fuel as [|fuel IH]; intros s k E; simpl in E |- *; unfold waiters; destruct (blk_list (objs (kn s) o)) as [|t l]; try discriminate; try (injection E as <-; exists s; auto).
  destruct (pend_task_wakeup t (kn s)) as [k1|] eqn:E1; [|discriminate]. cbn [mbind option_bind] in E. rewrite (task_msg_recv_eq o t m s k1 E1). cbn [mbind option_bind].
  destruct (IH (with_kn k1 (log_received o m (log_sent o m (on_t t (ti_msg m) s)))) k E) as (s' & E' & Ek & Hh). exists s'. split; [exact E'|]. split; [exact Ek|]. eapply handed_trans; [apply handed_one|exact Hh].
Qed.
(** After a message was handed over, and the scheduler. *)
Lemma hand_ok o ty s s' k2 : XInv s → is_type ty o s = true → ty = RHINO_QUEUE_OBJ_TYPE ∨ ty = RHINO_BUF_QUEUE_OBJ_TYPE → waiters o s ≠ [] → handed_over o s s' → core_sched (kn s') = Some k2 → Inv k2 → fewer (kn s) k2 →
  xfine (sched_ret (Returns RHINO_SUCCESS) s').
Proof.
  intros HX Et Hty Hw (O & Eq & l & E1 & E2) Es I2 F. assert (Hty3 : ty = RHINO_QUEUE_OBJ_TYPE ∨ ty = RHINO_BUF_QUEUE_OBJ_TYPE ∨ ty = RHINO_EVENT_OBJ_TYPE) by tauto.
  destruct (is_type_carries _ _ _ Et Hty3) as [Ty Hc]. unfold sched_ret. rewrite Es. cbn [mbind option_bind]. eexists _, _, _. split; [reflexivity|].
  apply (XInv_only s (with_kn (kn s) s') (with_kn k2 s') o HX O); [reflexivity|exact I2|exact F|]. intros Hc2. pose proof (proj2 HX o) as Hq. unfold qok in Hq |- *. simpl kn in *. rewrite (fw_type _ _ F o Hc2), Ty. rewrite Ty in Hq.
  destruct Hty as [->| ->]; destruct Hq as (A & q & Hch); simpl qs; rewrite Eq; (split; [exact A|]); exists []; eapply (chan_hand s _ o q Hch Hw); simpl; rewrite ?Eq; eauto.
Qed.
Lemma msg_send_ok o p all s : XInv s → xfine (msg_send o p all s).
Proof.
  intros HX. unfold msg_send. destruct (is_type _ o s) eqn:Et; [|apply xfine_ret, HX]. cbn [negb]. destruct (Z.leb_spec (msg_size (qs s o)) (cur_num (qs s o))) as [?|Hlt]; [apply xfine_ret, HX|].
  destruct (is_type_carries _ _ _ Et (or_introl eq_refl)) as [Ty Hc]. destruct (waiters o s) as [|t l] eqn:Ew.
  - cbv zeta. destruct (msg_push_ok o p s HX Et Hlt Ew) as (st & r & E & HX'). rewrite E. cbn [mbind option_bind]. apply xfine_ret, HX'.
  - assert (Hne : waiters o s ≠ []) by (rewrite Ew; discriminate). destruct all.
    + destruct (wake_all_sched (kn s) o BLK_FINISH (proj1 HX) Hc) as (k1 & k2 & E1 & E2 & I2 & F & _). unfold wake_waiters in E1. rewrite <- wake_with_finish in E1.
      change (blk_list (objs (kn s) o)) with (waiters o s) in E1. rewrite Ew in E1. change (length (t :: l)) with (S (length l)) in E1.
      destruct (recv_all_eq o (le32 p) (S (length l)) s k1 E1) as (s' & -> & Ek & Hh). cbn [mbind option_bind].
      apply (hand_ok o _ s s' k2 HX Et (or_introl eq_refl) Hne Hh); [rewrite Ek; exact E2|exact I2|exact F].
    + destruct (wake_sched (kn s) o t (proj1 HX)) as (k1 & k2 & E1 & E2 & I2 & F); [change (t ∈ waiters o s); rewrite Ew; set_solver|exact Hc|]. rewrite (task_msg_recv_eq o t (le32 p) s k1 E1). cbn [mbind option_bind].
      apply (hand_ok o _ s _ k2 HX Et (or_introl eq_refl) Hne (handed_one o t (le32 p) s k1)); [exact E2|exact I2|exact F].
Qed.
Lemma pop_step o m q s : XInv s → carries (kn s) o = true → chan s o (m :: q) →
  ∃ st r, ringbuf_pop (ringbuf (qs s o)) = Some (st, m, r) ∧ XInv (log_received o m (on_q o (λ q, q_num (u32 (cur_num q - 1)) (q_ring r q)) s)).
Proof.
  intros HX Hc Hch. destruct (pop_ok _ m q (ch_holds _ _ _ Hch)) as (r & E & HH & [S1 S2 S3]). exists RHINO_SUCCESS, r. split; [exact E|].
  assert (Hcap := b_cap _ _ (h_bytes _ _ (ch_holds _ _ _ Hch))). assert (Hnum := ch_num _ _ _ Hch).
  pose proof (holds_length _ _ (ch_holds _ _ _ Hch)) as Hq.
  set (s' := log_received o m _). apply (XInv_only s s' s' o HX); [etransitivity; [apply only_q|apply only_received]|reflexivity|apply HX|reflexivity|]. intros _.
  assert (Hc' : chan s' o q).
  { destruct Hch as [A B C D]. split; unfold s'; simpl; rewrite ?upd_eq; simpl.
    - exact HH.
    - rewrite B. simpl in *. rewrite u32_small by lia. lia.
    - rewrite C, <- app_assoc. reflexivity.
    - intros Hw. discriminate (D Hw). }
  pose proof (proj2 HX o) as Ho. unfold qok in Ho |- *. change (kn s') with (kn s). assert (Eq : qs s' o = q_num (u32 (cur_num (qs s o) - 1)) (q_ring r (qs s o))) by (unfold s'; simpl; rewrite upd_eq; reflexivity). rewrite Eq.
  unfold carries in Hc. destruct (obj_type (objs (kn s) o)); try discriminate Hc.
  - destruct Ho as ((A1 & A2 & A3) & _). split; [|eauto]. unfold is_queue. simpl. rewrite S1, S2, S3. auto.
  - destruct Ho as ((A1 & A2) & _). split; [|eauto]. unfold is_bufq. simpl. rewrite S3. auto.
  - destruct Ho as (A & B). split; [exact A|]. intros t Ht. specialize (B t Ht). unfold unmet in *. unfold s'. simpl. rewrite upd_eq. exact B.
Qed.
(** The running task waits for [o], which has no message, or not the flags the task asks for. *)
Lemma pend_ret_ok o n s s1 : XInv s → tick_arg n → n ≠ 0 → (0 <? g_intrpt_nested_level (kn s)) = false → (0 <? g_sched_lock (kn s)) = false → may_block (kn s) → carries (kn s) o = true →
  kn s1 = kn s → qs s1 = qs s → sent s1 = sent s → received s1 = received s → (∀ t, t ≠ g_active_task (kn s) → same_pend s s1 t) →
  (obj_type (objs (kn s) o) ≠ RHINO_EVENT_OBJ_TYPE → chan s o []) → (obj_type (objs (kn s) o) = RHINO_EVENT_OBJ_TYPE → unmet s1 o (g_active_task (kn s))) → xfine (pend_ret o n s1).
Proof.
  intros HX Hn Hz El Ek Hi Hc Ekn Eq E1 E2 Hp Hch Hev. destruct (pend_sched (kn s) o n (proj1 HX) Hn Hz El Ek Hi Hc) as (k1 & k2 & P1 & P2 & I2 & Ty & W1 & W2 & W3).
  unfold pend_ret, sched_ret. rewrite Ekn, P1. cbn [mbind option_bind]. simpl kn. rewrite P2. cbn [mbind option_bind]. eexists _, _, _. split; [reflexivity|]. split; [exact I2|].
  set (s' := with_kn k2 (with_kn k1 s1)). assert (Hw : ∀ x t, t ∈ waiters x s' → t = g_active_task (kn s) ∧ x = o ∨ t ≠ g_active_task (kn s) ∧ t ∈ waiters x s).
  { intros x t Ht. apply (waiters_wob _ _ _ I2) in Ht. destruct (Nat.eq_dec t (g_active_task (kn s))) as [->|Hne]; [left; split; congruence|right]. split; [exact Hne|].
    apply (waiters_wob _ _ _ (proj1 HX)). rewrite <- W2 by exact Hne. exact Ht. }
  intros x. pose proof (proj2 HX x) as Hx. destruct (Nat.eq_dec x o) as [->|Hne].
  - unfold qok in Hx |- *. change (kn s') with k2. rewrite Ty. change (qs s') with (qs s1). rewrite Eq. destruct (obj_type (objs (kn s) o)) eqn:To; auto.
    1,2: destruct Hx as (A & q & _); split; [exact A|]; exists []; destruct (Hch ltac:(discriminate)) as [C1 C2 C3 C4]; split; unfold s'; simpl; rewrite ?Eq, ?E1, ?E2; auto.
    destruct Hx as (A & B). split; [exact A|]. intros t Ht. destruct (Hw o t Ht) as [(-> & _)|(Hne & Hin)]; [apply Hev; reflexivity|]. specialize (B t Hin). destruct (Hp t Hne) as [P3 P4].
    unfold unmet in *. unfold s'. simpl. rewrite P3, P4, Eq. exact B.
  - apply (qok_ext s); [exact Hx|..].
    + intros _. apply Ty.
    + intros t _ Ht. destruct (Hw x t Ht) as [(_ & ?)|(_ & ?)]; [congruence|assumption].
    + unfold s'. simpl. rewrite Eq. reflexivity.
    + unfold s'. simpl. rewrite E1. reflexivity.
    + unfold s'. simpl. rewrite E2. reflexivity.
    + intros t _ Ht. destruct (Hw x t Ht) as [(_ & ?)|(? & ?)]; [congruence|apply Hp; assumption].
Qed.
Lemma queue_recv_ok o n s : XInv s → tick_arg n → may_block (kn s) → xfine (krhino_queue_recv o n s).
Proof.
  intros HX Hn Hi. unfold krhino_queue_recv. destruct (_ && _) eqn:El; [apply xfine_ret, HX|]. destruct (is_type _ o s) eqn:Et; [|apply xfine_ret, HX]. cbn [negb].
  destruct (is_type_carries _ _ _ Et (or_introl eq_refl)) as [Ty Hc]. pose proof (proj2 HX o) as Ho. unfold qok in Ho. rewrite Ty in Ho. destruct Ho as (A & q & Hch). assert (Hnum := ch_num _ _ _ Hch).
  destruct (Z.ltb_spec 0 (cur_num (qs s o))) as [Hg|Hg].
  - destruct q as [|m q]; [simpl in Hnum; lia|]. destruct (pop_step o m q s HX Hc Hch) as (st & r & -> & HX'). cbn [mbind option_bind]. eexists _, _, _. split; [reflexivity|exact HX'].
  - assert (q = []) as -> by (destruct q; [reflexivity|simpl in Hnum; lia]). unfold RHINO_NO_WAIT in *. destruct (Z.eqb_spec n 0) as [?|Hz]; [apply xfine_ret, HX|]. destruct (0 <? g_sched_lock (kn s)) eqn:Ek; [apply xfine_ret, HX|].
    rewrite andb_true_r in El. apply (pend_ret_ok o n s s); auto; [intros t _; split; reflexivity|congruence].
Qed.
Lemma queue_flush_ok o s : XInv s → xfine (krhino_queue_flush o s).
Proof.
  intros HX. unfold krhino_queue_flush. destruct (0 <? _); [apply xfine_ret, HX|]. destruct (is_type _ o s) eqn:Et; [|apply xfine_ret, HX]. cbn [negb]. apply xfine_ret.
  destruct (is_type_carries _ _ _ Et (or_introl eq_refl)) as [Ty Hc]. pose proof (proj2 HX o) as Ho. unfold qok in Ho. rewrite Ty in Ho. destruct Ho as ((A1 & A2 & A3) & q & Hch).
  set (s' := log_flush o _). apply (XInv_only s s' s' o HX); [do 2 (etransitivity; [apply only_q|]); apply only_flush|reflexivity|apply HX|reflexivity|]. intros _. unfold qok. change (kn s') with (kn s). rewrite Ty.
  assert (Eq : qs s' o = q_ring (ringbuf_reset (ringbuf (qs s o))) (q_num 0 (qs s o))) by (unfold s'; simpl; rewrite !upd_eq; reflexivity). rewrite Eq. split; [split; [exact A1|]; split; [exact A2|exact A3]|]. exists [].
  apply chan_empty; [rewrite Eq|rewrite Eq; reflexivity|unfold s'; simpl; apply upd_eq]. simpl. apply reset_ok; [apply (b_cap _ _ (h_bytes _ _ (ch_holds _ _ _ Hch)))|].
  intros T. destruct (h_aligned _ _ (ch_holds _ _ _ Hch) T) as (? & ? & _). auto.
Qed.

(** *** Buffer queues *)

Lemma bufq_facts o s : XInv s → is_type RHINO_BUF_QUEUE_OBJ_TYPE o s = true → obj_type (objs (kn s) o) = RHINO_BUF_QUEUE_OBJ_TYPE ∧ carries (kn s) o = true ∧ is_bufq (qs s o) ∧ ∃ q, chan s o q.
Proof.
  intros HX Et. destruct (is_type_carries _ _ _ Et (or_intror (or_introl eq_refl))) as [Ty Hc]. pose proof (proj2 HX o) as Ho. unfold qok in Ho. rewrite Ty in Ho. destruct Ho as (A & q & Hch). eauto.
Qed.
(** The ring takes the message or is full. *)
Lemma bufq_push q r m size : holds r q → 0 < size ≤ Z.of_nat (length m) → size < 4294967292 → (rb_type r = RINGBUF_TYPE_FIX → blk_size r ≤ Z.of_nat (length m)) →
  ∃ st r', ringbuf_push m size r = Some (st, r') ∧ same_ring r r' ∧
    (st = RHINO_SUCCESS ∧ holds r' (q ++ [match rb_type r with RINGBUF_TYPE_FIX => take (Z.to_nat (blk_size r)) m | RINGBUF_TYPE_DYN => take (Z.to_nat size) m end]) ∨ st = RHINO_RINGBUF_FULL ∧ r' = r).
Proof.
  intros HH Hs Hb Hf. pose proof (b_free _ _ (h_bytes _ _ HH)) as Hfr. pose proof (b_cap _ _ (h_bytes _ _ HH)) as Hc. unfold ringbuf_push. destruct (rb_type r) eqn:T.
  - unfold push_fix. destruct (Z.ltb_spec (freesize r) (blk_size r)); [exists RHINO_RINGBUF_FULL, r; split; [reflexivity|]; split; [reflexivity|auto]|].
    destruct (push_fix_ok r q m HH T) as (r' & -> & HH' & S'); [unfold used; lia|auto|]. exists RHINO_SUCCESS, r'. auto 10.
  - unfold push_dyn. destruct (Z.eqb_spec size 0); [lia|]. destruct (Z.leb_spec 4294967295 size); [lia|]. cbn [orb]. unfold RING_BUF_LEN. rewrite u32_small by lia.
    destruct (Z.ltb_spec (freesize r) (4 + size)); [exists RHINO_RINGBUF_FULL, r; split; [reflexivity|]; split; [reflexivity|auto]|].
    pose proof (h_bytes _ _ HH) as HB. rewrite T in HB. destruct (push_len_ok r _ size HB) as (r1 & -> & HR1 & S1); [lia|]. cbn [mbind option_bind].
    destruct (push_data_ok r1 _ m size HR1) as (r' & -> & HR' & S'); [lia|rewrite length_app, (s_end _ _ S1); simpl length; lia|]. cbn [mbind option_bind]. exists RHINO_SUCCESS, r'. split; [reflexivity|].
    assert (ST : same_ring r r') by (etransitivity; eassumption). split; [exact ST|]. left. split; [reflexivity|]. destruct ST as [F1 F2 F3].
    assert (Lm : Z.of_nat (length (take (Z.to_nat size) m)) = size) by (rewrite length_take; lia). split.
    + rewrite F2, T, map_app, concat_app. cbn [map concat encode]. rewrite app_nil_r, Lm. rewrite <- app_assoc in HR'. exact HR'.
    + rewrite F2, F3. apply Forall_app. split; [apply HH|]. constructor; [|constructor]. rewrite T. simpl. lia.
    + intros Ht. congruence.
Qed.
Lemma buf_send_ok o m size s : XInv s → xlegal (XBufSend o m size) s → xfine (buf_queue_send o m size s).
Proof.
  intros HX (Hs & Hb & Hf). unfold buf_queue_send. destruct (is_type _ o s) eqn:Et; [|apply xfine_ret, HX]. cbn [negb]. destruct (Z.ltb_spec (msg_size (qs s o)) size) as [?|Hle]; [apply xfine_ret, HX|].
  destruct (Z.eqb_spec size 0) as [?|Hz]; [apply xfine_ret, HX|]. destruct (bufq_facts o s HX Et) as (Ty & Hc & (A1 & A2) & q & Hch). destruct (waiters o s) as [|t l] eqn:Ew.
  - destruct (bufq_push q (ringbuf (qs s o)) m size (ch_holds _ _ _ Hch)) as (st & r & -> & [S1 S2 S3] & Hr); [lia|lia|rewrite A2; exact Hf|]. cbn [mbind option_bind]. destruct Hr as [[-> HH]|[-> ->]].
    + apply xfine_ret. rewrite S2, S3. set (mm := match rb_type (ringbuf (qs s o)) with RINGBUF_TYPE_FIX => _ | RINGBUF_TYPE_DYN => _ end) in *. set (f := λ q0 : qinfo, _). set (s' := log_sent o mm _).
      apply (XInv_only s s' s' o HX); [do 2 (etransitivity; [apply only_q|]); apply only_sent|reflexivity|apply HX|reflexivity|]. intros _. unfold qok. change (kn s') with (kn s). rewrite Ty.
      assert (Hcap := b_cap _ _ (h_bytes _ _ (ch_holds _ _ _ Hch))). pose proof (holds_length _ _ HH) as Hl. rewrite length_app in Hl. simpl in Hl. assert (Hnum := ch_num _ _ _ Hch).
      assert (Eq : qs s' o = f (q_ring r (qs s o))) by (unfold s'; simpl; rewrite !upd_eq; reflexivity).
      assert (F : ringbuf (f (q_ring r (qs s o))) = r ∧ msg_size (f (q_ring r (qs s o))) = msg_size (qs s o) ∧ cur_num (f (q_ring r (qs s o))) = cur_num (qs s o) + 1).
      { unfold f, min_free_update, peak_num_update. destruct (_ <? _), (_ <? _); simpl; repeat split; apply u32_small; lia. }
      rewrite Eq. destruct F as (F1 & F2 & F3). split; [unfold is_bufq; rewrite F1, F2, S3; auto|]. exists (q ++ [mm]).
      apply (chan_push s s' o q mm r Hch Ew Ew); [rewrite Eq; exact F1|exact HH|rewrite Eq; exact F3|unfold s'; simpl; apply upd_eq|reflexivity].
    + apply xfine_ret. set (s' := on_q o _ s). apply (XInv_only s s' s' o HX); [apply only_q|reflexivity|apply HX|reflexivity|]. intros _. unfold qok. change (kn s') with (kn s). rewrite Ty.
      assert (Eq : qs s' o = qs s o) by (unfold s'; simpl; rewrite upd_eq; destruct (qs s o); reflexivity). rewrite Eq. split; [split; assumption|]. exists q. destruct Hch as [C1 C2 C3 C4]. split; rewrite ?Eq; auto.
  - rewrite copy_out_some by lia. cbn [mbind option_bind]. cbv zeta. set (d := take (Z.to_nat size) _). destruct (wake_sched (kn s) o t (proj1 HX)) as (k1 & k2 & E1 & E2 & I2 & F); [change (t ∈ waiters o s); rewrite Ew; set_solver|exact Hc|].
    assert (Lm : length d = Z.to_nat size) by (unfold d; rewrite length_take, length_drop; lia).
    assert (Em : buf_queue_msg t (on_t t (ti_size size) (on_t t (ti_msg d) (log_sent o d s))) = d).
    { unfold buf_queue_msg. cbn [ts on_t]. rewrite !upd_eq. cbn [bq_msg_size ti_size task_msg ti_msg]. apply take_ge. lia. }
    rewrite Em. simpl kn. rewrite E1. cbn [mbind option_bind]. apply (hand_ok o RHINO_BUF_QUEUE_OBJ_TYPE s _ k2 HX Et (or_intror eq_refl)); auto; [rewrite Ew; discriminate|].
    split; [|split; [reflexivity|exists [d]; simpl; rewrite !upd_eq; auto]]. change (only o s (log_received o d (on_t t (ti_size size) (on_t t (ti_msg d) (log_sent o d s))))).
    etransitivity; [apply only_sent|]. etransitivity; [|apply only_received]. etransitivity; apply only_t; auto.
Qed.
Lemma buf_recv_ok o n s : XInv s → tick_arg n → may_block (kn s) → xfine (krhino_buf_queue_recv o n s).
Proof.
  intros HX Hn Hi. unfold krhino_buf_queue_recv. destruct (_ && _) eqn:El; [apply xfine_ret, HX|]. destruct (is_type _ o s) eqn:Et; [|apply xfine_ret, HX]. cbn [negb].
  destruct (bufq_facts o s HX Et) as (Ty & Hc & _ & q & Hch). pose proof (empty_ok _ _ (ch_holds _ _ _ Hch)) as He. destruct (ringbuf_is_empty _) eqn:Ee; cbn [negb].
  - apply proj1 in He. specialize (He eq_refl). subst q. unfold RHINO_NO_WAIT in *. destruct (Z.eqb_spec n 0) as [?|Hz]; [apply xfine_ret, HX|]. destruct (0 <? g_sched_lock (kn s)) eqn:Ek; [apply xfine_ret, HX|].
    rewrite andb_true_r in El. apply (pend_ret_ok o n s s); auto; [intros t _; split; reflexivity|congruence].
  - destruct q as [|m q]; [discriminate (proj2 He eq_refl)|]. destruct (pop_step o m q s HX Hc Hch) as (st & r & -> & HX'). cbn [mbind option_bind]. eexists _, _, _. split; [reflexivity|exact HX'].
Qed.
Lemma buf_flush_ok o s : XInv s → xfine (krhino_buf_queue_flush o s).
Proof.
  intros HX. unfold krhino_buf_queue_flush. destruct (0 <? _); [apply xfine_ret, HX|]. destruct (is_type _ o s) eqn:Et; [|apply xfine_ret, HX]. cbn [negb]. apply xfine_ret.
  destruct (bufq_facts o s HX Et) as (Ty & Hc & (A1 & A2) & q & Hch). set (f := λ q0 : qinfo, _).
  set (s' := log_flush o _). apply (XInv_only s s' s' o HX); [do 2 (etransitivity; [apply only_q|]); apply only_flush|reflexivity|apply HX|reflexivity|]. intros _. unfold qok. change (kn s') with (kn s). rewrite Ty.
  assert (Eq : qs s' o = f (q_ring (ringbuf_reset (ringbuf (qs s o))) (qs s o))) by (unfold s'; simpl; rewrite !upd_eq; reflexivity). rewrite Eq. split; [split; [exact A1|exact A2]|]. exists [].
  apply chan_empty; [rewrite Eq|rewrite Eq; reflexivity|unfold s'; simpl; apply upd_eq]. simpl. apply reset_ok; [apply (b_cap _ _ (h_bytes _ _ (ch_holds _ _ _ Hch)))|].
  intros T. destruct (h_aligned _ _ (ch_holds _ _ _ Hch) T) as (? & ? & _). auto.
Qed.

(** *** Events *)

(** Flags that are cleared meet nothing new. *)
Lemma met_mono opt want f x : 0 ≤ f → event_met opt want f = false → event_met opt want (Z.land f x) = false.
Proof.
  intros Hf. unfold event_met. destruct (truthy _).
  - rewrite !Z.eqb_neq. intros Hn E. apply Hn. apply Z.bits_inj'. intros n Hn0. apply (f_equal (λ z, Z.testbit z n)) in E. rewrite !Z.land_spec in *. destruct (Z.testbit f n), (Z.testbit x n), (Z.testbit want n); simpl in *; congruence.
  - rewrite !Z.ltb_ge. intros Hle. assert (H0 : Z.land f want = 0) by (pose proof (proj2 (Z.land_nonneg f want) (or_introl Hf)); lia).
    assert (E : Z.land (Z.land f x) want = 0); [|lia]. rewrite <- Z.land_assoc, (Z.land_comm x), Z.land_assoc, H0. apply Z.land_0_l.
Qed.
Lemma clear_flags opt want q : 0 ≤ flags q → ∃ x, flags (event_clear opt want q) = Z.land (flags q) x.
Proof. intros Hf. unfold event_clear. destruct (truthy _); [simpl; eauto|]. exists (-1). rewrite Z.land_m1_r. reflexivity. Qed.
Lemma event_get_ok o want opt n s : XInv s → tick_arg n → may_block (kn s) → xfine (krhino_event_get o want opt n s).
Proof.
  intros HX Hn Hi. unfold krhino_event_get. destruct (negb (existsb _ _)); [apply xfine_ret, HX|]. destruct (0 <? g_intrpt_nested_level (kn s)) eqn:El; [apply xfine_ret, HX|].
  destruct (is_type _ o s) eqn:Et; [|apply xfine_ret, HX]. cbn [negb]. destruct (is_type_carries _ _ _ Et (or_intror (or_intror eq_refl))) as [Ty Hc]. pose proof (proj2 HX o) as Ho. unfold qok in Ho. rewrite Ty in Ho. destruct Ho as (A & B).
  destruct (event_met opt want (flags (qs s o))) eqn:Em.
  - eexists _, _, _. split; [reflexivity|]. set (s' := on_q o _ s). apply (XInv_only s s' s' o HX); [apply only_q|reflexivity|apply HX|reflexivity|]. intros _. unfold qok. change (kn s') with (kn s). rewrite Ty.
    destruct (clear_flags opt want (qs s o) A) as [x Ex]. assert (Ef : flags (qs s' o) = Z.land (flags (qs s o)) x) by (unfold s'; simpl; rewrite upd_eq; exact Ex).
    split; [rewrite Ef; apply Z.land_nonneg; auto|]. intros t Ht. specialize (B t Ht). unfold unmet in *. rewrite Ef. apply met_mono; assumption.
  - unfold RHINO_NO_WAIT. destruct (Z.eqb_spec n 0) as [?|Hz]; [apply xfine_ret, HX|]. destruct (0 <? g_sched_lock (kn s)) eqn:Ek; [apply xfine_ret, HX|].
    apply (pend_ret_ok o n s); auto; [|congruence|intros _; unfold unmet; simpl; rewrite upd_eq; exact Em]. intros t Ht. split; simpl; rewrite upd_ne by exact Ht; reflexivity.
Qed.
(** The tasks of the list [l] are looked at. *)
Lemma event_wake_ok o cur l : ∀ s H, KI nobody H (kn s) → carries (kn s) o = true → NoDup l → (∀ t, t ∈ l → wob (kn s) t = Some o) → 0 ≤ flags (qs s o) →
  ∃ s', event_wake l o cur s = Some s' ∧ KI nobody H (kn s') ∧ calm (kn s) (kn s') ∧ fewer (kn s) (kn s') ∧ only o s (with_kn (kn s) s') ∧ obj_type (objs (kn s') o) = obj_type (objs (kn s) o) ∧
    (∃ x, flags (qs s' o) = Z.land (flags (qs s o)) x) ∧ ∀ t, t ∈ l → wob (kn s') t = Some o → event_met (pend_option (ts s t)) (pend_flags (ts s t)) cur = false.
Proof.
  induction l as [|t l IH]; intros s H HK Hc Hd Hw Hf; cbn [event_wake].
  { exists s. split; [reflexivity|]. split; [exact HK|]. split; [apply still_refl|]. split; [reflexivity|]. split; [split; [reflexivity|intros t; split; reflexivity|auto]|]. split; [reflexivity|]. split; [exists (-1); rewrite Z.land_m1_r; reflexivity|set_solver]. }
  apply NoDup_cons in Hd as [Hn Hd]. destruct (event_met (pend_option (ts s t)) (pend_flags (ts s t)) cur) eqn:Em.
  2: { destruct (IH s H HK Hc Hd) as (s' & E & K & C & F & O & T & X & N); [intros x Hx; apply Hw; set_solver|exact Hf|]. exists s'. do 7 (split; [assumption|]). intros x Hx Hwx. apply elem_of_cons in Hx as [->|Hx]; [exact Em|apply N; assumption]. }
  cbv zeta. set (s1 := on_t t (ti_info cur) s). destruct (KI_wake nobody H (kn s) t o BLK_FINISH HK (Hw t ltac:(set_solver)) (carries_owner _ _ Hc)) as (k & E1 & K1 & F1 & C1 & _ & T1).
  rewrite <- wake_with_finish in E1. change (kn s1) with (kn s). rewrite E1. cbn [mbind option_bind]. set (s2 := on_q o _ (with_kn k s1)). pose proof (wake_fewer (kn s) t) as Fw. rewrite E1 in Fw. simpl in Fw.
  assert (Hwt : wob k t ≠ Some o).
  { rewrite wake_with_finish in E1. unfold wake_with in E1. destruct (pend_wake t (kn s)) as [k0|]; [|discriminate]. cbn [mbind option_bind] in E1. injection E1 as <-. unfold wob, wob1. simpl. rewrite upd_eq. simpl. destruct (pending _); discriminate. }
  destruct (clear_flags (pend_option (ts s1 t)) (pend_flags (ts s1 t)) (qs s1 o) Hf) as [x Ex]. assert (Ef : flags (qs s2 o) = Z.land (flags (qs s o)) x) by (unfold s2; simpl; rewrite upd_eq; exact Ex).
  assert (O2 : only o s (with_kn (kn s) s2)) by (change (only o s (on_q o (event_clear (pend_option (ts s1 t)) (pend_flags (ts s1 t))) s1)); etransitivity; [apply only_t|apply only_q]; auto).
  destruct (IH s2 H K1) as (s' & E & K & C & F & O & T & [y Ey] & N).
  - change (kn s2) with k. unfold carries. rewrite (frame_type _ _ _ F1). exact Hc.
  - exact Hd.
  - intros z Hz. change (kn s2) with k. unfold wob. rewrite T1 by (intros ->; contradiction). apply (Hw z). set_solver.
  - rewrite Ef. apply Z.land_nonneg. auto.
  - exists s'. split; [exact E|]. split; [exact K|]. split; [eapply still_trans; [exact C1|exact C]|]. split; [etransitivity; [exact Fw|exact F]|].
    split; [destruct O2 as [_ P2 P3], O as [_ P4 P5]; split; [reflexivity|intros z; destruct (P2 z), (P4 z); split; simpl in *; congruence|intros z Hz; destruct (P3 z Hz) as (?&?&?), (P5 z Hz) as (?&?&?); simpl in *; repeat split; congruence]|].
    assert (Ty : obj_type (objs (kn s') o) = obj_type (objs (kn s) o)) by (rewrite T; apply (frame_type _ _ _ F1)). split; [exact Ty|].
    split; [exists (Z.land x y); rewrite Ey, Ef, Z.land_assoc; reflexivity|]. intros z Hz Hwz. apply elem_of_cons in Hz as [->|Hz].
    + destruct Hwt. apply (fw_wob _ _ F); [|exact Hwz]. unfold carries. rewrite Ty. exact Hc.
    + destruct O2 as [_ P2 _]. destruct (P2 z) as [Q1 Q2]. simpl in Q1, Q2. rewrite <- Q1, <- Q2. apply N; assumption.
Qed.

Lemma event_set_ok o f opt s : XInv s → 0 ≤ f → xfine (krhino_event_set o f opt s).
Proof.
  intros HX Hf. unfold krhino_event_set, event_set. destruct (negb _); [apply xfine_ret, HX|]. destruct (is_type _ o s) eqn:Et; [|apply xfine_ret, HX]. cbn [negb].
  destruct (is_type_carries _ _ _ Et (or_intror (or_intror eq_refl))) as [Ty Hc]. pose proof (proj2 HX o) as Ho. unfold qok in Ho. rewrite Ty in Ho. destruct Ho as (A & B). destruct (truthy _).
  - apply xfine_ret. set (s' := on_q o _ s). apply (XInv_only s s' s' o HX); [apply only_q|reflexivity|apply HX|reflexivity|]. intros _. unfold qok. change (kn s') with (kn s). rewrite Ty.
    assert (Ef : flags (qs s' o) = Z.land (flags (qs s o)) f) by (unfold s'; simpl; rewrite upd_eq; reflexivity).
    split; [rewrite Ef; apply Z.land_nonneg; auto|]. intros t Ht. specialize (B t Ht). unfold unmet in *. rewrite Ef. apply met_mono; assumption.
  - cbv zeta. set (s1 := on_q o _ s). destruct HX as [HI HQ]. assert (HI' := HI). destruct HI as (H & HK & HT & HP).
    assert (Ef : flags (qs s1 o) = Z.lor (flags (qs s o)) f) by (unfold s1; simpl; rewrite upd_eq; reflexivity). assert (Hnn : 0 ≤ flags (qs s1 o)) by (rewrite Ef; apply Z.lor_nonneg; auto).
    destruct (event_wake_ok o (flags (qs s1 o)) (waiters o s1) s1 H) as (s2 & E & K & C & F & O & T & [x Ex] & N); auto.
    { apply (bl_nodup _ _ _ (c_bl _ _ _ (i_core _ _ _ HK))). }
    { intros t Ht. apply (waiters_wob _ _ _ HI'), Ht. }
    rewrite E. cbn [mbind option_bind]. destruct (sched_inv H (kn s2) K (calm_ticks _ _ HT C) (calm_pre _ _ HP C)) as (k2 & E2 & I2). unfold sched_ret. rewrite E2. cbn [mbind option_bind]. eexists _, _, _. split; [reflexivity|].
    pose proof (core_sched_fewer (kn s2)) as F2. rewrite E2 in F2. simpl in F2. assert (FF : fewer (kn s) k2) by (etransitivity; [exact F|exact F2]).
    apply (XInv_only s (with_kn (kn s) s2) (with_kn k2 s2) o (conj HI' HQ)); [transitivity s1; [apply only_q|exact O]|reflexivity|exact I2|exact FF|].
    intros Hc2. unfold qok. simpl kn in *. rewrite (fw_type _ _ FF o Hc2), Ty. simpl qs. split; [rewrite Ex; apply Z.land_nonneg; auto|]. intros t Ht. apply (waiters_wob _ _ _ I2) in Ht. simpl kn in Ht.
    unfold unmet. simpl. rewrite Ex. apply met_mono; [exact Hnn|]. destruct O as [_ P _]. destruct (P t) as [Q1 Q2]. simpl in Q1, Q2. rewrite Q1, Q2. apply N.
    + apply (waiters_wob _ _ _ HI'). apply (fw_wob _ _ FF); assumption.
    + apply (fw_wob _ _ F2); assumption.
Qed.

(** ** Runs from the start-up *)

Lemma xexec_fine op s : XInv s → xlegal op s → xfine (xexec op s).
Proof.
  intros HX HL. destruct op.
  - apply xk_ok; assumption.
  - apply queue_create_ok; assumption.
  - apply obj_del_ok; [exact HX|auto|intros ?; apply only_q].
  - apply msg_send_ok, HX.
  - apply msg_send_ok, HX.
  - apply queue_recv_ok; [exact HX|apply HL..].
  - apply queue_flush_ok, HX.
  - apply buf_create_ok; assumption.
  - apply obj_del_ok; [exact HX|auto|intros ?; apply only_q].
  - apply buf_send_ok; assumption.
  - apply buf_recv_ok; [exact HX|apply HL..].
  - apply buf_flush_ok, HX.
  - apply event_create_ok; assumption.
  - apply obj_del_ok; [exact HX|auto|intros ?; apply only_q].
  - apply event_get_ok; [exact HX|apply HL..].
  - apply event_set_ok; assumption.
Qed.

Definition ring_zero : k_ringbuf_t := mkRing [] 0 0 0 RINGBUF_TYPE_FIX 0.
Definition qinfo_zero : qinfo := mkQ ring_zero 0 0 0 0 0.
Definition xboot (nt no : nat) : option kx := k ← boot nt no; Some (mkKx k (λ _, qinfo_zero) (λ _, tinfo_zero) (λ _, []) (λ _, [])).
Inductive xreach (nt no : nat) : kx → Prop :=
| xreach_boot s : xboot nt no = Some s → xreach nt no s
| xreach_step s op r d s' : xreach nt no s → xlegal op s → xexec op s = Some (r, d, s') → xreach nt no s'.

Lemma xreach_inv nt no s : (2 ≤ nt)%nat → (1 ≤ no)%nat → xreach nt no s → XInv s.
Proof.
  intros Hnt Hno. induction 1 as [s E|s op r d s' _ IH HL E].
  - unfold xboot in E. rewrite (boot_eq nt no) in E. injection E as <-. split.
    + apply (reach_inv nt no); [exact Hnt|exact Hno|]. apply reach_boot, boot_eq.
    + intros o. apply qok_idle. destruct o; reflexivity.
  - destruct (xexec_fine op s IH HL) as (r' & d' & s1 & E1 & HI). congruence.
Qed.
Lemma is_channel s o : XInv s → obj_type (objs (kn s) o) = RHINO_QUEUE_OBJ_TYPE ∨ obj_type (objs (kn s) o) = RHINO_BUF_QUEUE_OBJ_TYPE → ∃ q, chan s o q.
Proof. intros [_ HQ] [E|E]; specialize (HQ o); unfold qok in HQ; rewrite E in HQ; apply HQ. Qed.

(** *** What a caller gets *)

Lemma woken_finish t k k1 k2 : pend_task_wakeup t k = Some k1 → core_sched k1 = Some k2 → pend_state_end_proc t k2 = Some RHINO_SUCCESS.
Proof.
  intros E1 E2. apply core_sched_same in E2 as [E2 _]. unfold pend_state_end_proc. rewrite E2. unfold pend_task_wakeup in E1. destruct (pend_wake t k) as [k0|]; [|discriminate].
  cbn [mbind option_bind] in E1. injection E1 as <-. unfold on_task. simpl. rewrite !upd_eq. reflexivity.
Qed.
(** A call that returns a message returns the oldest one that nobody has got. *)
Lemma queue_recv_oldest o n s q d s' : chan s o q → krhino_queue_recv o n s = Some (Returns RHINO_SUCCESS, d, s') → ∃ q', q = d :: q' ∧ received s' o = received s o ++ [d].
Proof.
  intros Hch. unfold krhino_queue_recv, ret. destruct (_ && _); [discriminate|]. destruct (negb _); [discriminate|]. destruct (Z.ltb_spec 0 (cur_num (qs s o))) as [Hg|_].
  - destruct q as [|m q]; [rewrite (ch_num _ _ _ Hch) in Hg; simpl in Hg; lia|]. destruct (pop_ok _ m q (ch_holds _ _ _ Hch)) as (r & E & _). rewrite E. cbn [mbind option_bind]. intros [= <- <-].
    exists q. split; [reflexivity|]. simpl. apply upd_eq.
  - destruct (_ =? _); [discriminate|]. destruct (0 <? _); [discriminate|]. unfold pend_ret, sched_ret. destruct (pend_to_blk_obj _ _ _ _) as [k|]; [|discriminate]. cbn [mbind option_bind]. destruct (core_sched _); discriminate.
Qed.
Lemma buf_recv_oldest o n s q d s' : chan s o q → krhino_buf_queue_recv o n s = Some (Returns RHINO_SUCCESS, d, s') → ∃ q', q = d :: q' ∧ received s' o = received s o ++ [d].
Proof.
  intros Hch. unfold krhino_buf_queue_recv, ret. destruct (_ && _); [discriminate|]. destruct (negb _); [discriminate|]. pose proof (empty_ok _ _ (ch_holds _ _ _ Hch)) as He. destruct (ringbuf_is_empty _) eqn:Ee; cbn [negb].
  - destruct (_ =? _); [discriminate|]. destruct (0 <? _); [discriminate|]. unfold pend_ret, sched_ret. destruct (pend_to_blk_obj _ _ _ _) as [k|]; [|discriminate]. cbn [mbind option_bind]. destruct (core_sched _); discriminate.
  - destruct q as [|m q]; [discriminate (proj2 He eq_refl)|]. destruct (pop_ok _ m q (ch_holds _ _ _ Hch)) as (r & E & _). rewrite E. cbn [mbind option_bind]. intros [= <- <-].
    exists q. split; [reflexivity|]. simpl. apply upd_eq.
Qed.
(** A message that is sent while tasks wait is what the first of them gets. *)
Lemma queue_hand_first o p t l s d s' : waiters o s = t :: l → krhino_queue_back_send o p s = Some (Returns RHINO_SUCCESS, d, s') → queue_recv_end t s' = Some (RHINO_SUCCESS, le32 p).
Proof.
  intros Ew. unfold krhino_queue_back_send, msg_send, ret. destruct (negb _); [discriminate|]. destruct (_ <=? _); [discriminate|]. rewrite Ew. unfold task_msg_recv. cbn [kn on_t log_sent log_received].
  destruct (pend_task_wakeup t (kn s)) as [k1|] eqn:E1; [|discriminate]. cbn [mbind option_bind]. unfold sched_ret. cbn [kn with_kn]. destruct (core_sched k1) as [k2|] eqn:E2; [|discriminate]. cbn [mbind option_bind].
  intros [= _ <-]. unfold queue_recv_end. cbn [kn with_kn]. rewrite (woken_finish _ _ _ _ E1 E2). cbn [mbind option_bind]. unfold queue_msg. simpl. rewrite upd_eq. reflexivity.
Qed.
Lemma buf_hand_first o mem size t l s d s' : waiters o s = t :: l → krhino_buf_queue_send o mem size s = Some (Returns RHINO_SUCCESS, d, s') → buf_queue_recv_end t s' = Some (RHINO_SUCCESS, take (Z.to_nat size) mem).
Proof.
  intros Ew. unfold krhino_buf_queue_send, buf_queue_send, ret. destruct (negb _); [discriminate|]. destruct (_ <? _); [discriminate|]. destruct (_ =? _); [discriminate|]. rewrite Ew.
  unfold copy_out. destruct (_ && _); [|discriminate]. cbn [mbind option_bind]. change (Z.to_nat 0) with 0%nat. rewrite drop_0. cbn [kn on_t log_sent log_received].
  destruct (pend_task_wakeup t (kn s)) as [k1|] eqn:E1; [|discriminate]. cbn [mbind option_bind]. unfold sched_ret. cbn [kn with_kn]. destruct (core_sched k1) as [k2|] eqn:E2; [|discriminate]. cbn [mbind option_bind].
  intros [= _ <-]. unfold buf_queue_recv_end. cbn [kn with_kn]. rewrite (woken_finish _ _ _ _ E1 E2). cbn [mbind option_bind]. unfold buf_queue_msg. simpl. rewrite !upd_eq. simpl. rewrite take_take, Nat.min_id. reflexivity.
Qed.

(** ** Properties *)

(** [C8] No call stops the system, those for messages and events included: from the start-up on, every call made as [xlegal] says returns or puts the caller to sleep, and no copy of a message leaves the memory of the queue or of the sender.  [xlegal] asks of the caller: a task that was never created or is deleted is not deleted (again) ([deleted_twice_takes_mutex]) and its priority is not changed before it is created; tasks and objects are created in free blocks, with the memory that is passed for them; the idle task makes no call that may block; timeouts are 64-bit values; a mutex is nested less than 2^32 - 1 times; interrupts nest at most 255 times and a tick comes from one; messages are shorter than 2^32 - 4 bytes and lie in the memory passed, and for a queue of fixed size that memory has the size of a message ([fixed_queue_overread]). *)
Theorem messaging_never_stops nt no s op :
  (2 ≤ nt)%nat → (1 ≤ no)%nat → xreach nt no s → xlegal op s → ∃ r d s', xexec op s = Some (r, d, s').
Proof. intros Hnt Hno HR HL. destruct (xexec_fine op s (xreach_inv _ _ _ Hnt Hno HR) HL) as (r & d & s' & E & _). eauto. Qed.

(** [C9] At all times the messages that a queue or a buffer queue has taken since it was created,
    less those a flush dropped unread, are those its receivers have got followed by those in its ring, each once, unchanged and in the
    order of sending; no task waits for a queue that holds a message; a receive call that returns a message returns the oldest one that
    nobody has got; and a message sent while tasks wait is what the call of the first of them returns when it runs again. *)
Theorem messages_in_order nt no s o :
  (2 ≤ nt)%nat → (1 ≤ no)%nat → xreach nt no s → obj_type (objs (kn s) o) = RHINO_QUEUE_OBJ_TYPE ∨ obj_type (objs (kn s) o) = RHINO_BUF_QUEUE_OBJ_TYPE →
  ∃ q, sent s o = received s o ++ q ∧ holds (ringbuf (qs s o)) q ∧ cur_num (qs s o) = Z.of_nat (length q) ∧ (waiters o s ≠ [] → q = []) ∧
    (∀ n d s', krhino_queue_recv o n s = Some (Returns RHINO_SUCCESS, d, s') ∨ krhino_buf_queue_recv o n s = Some (Returns RHINO_SUCCESS, d, s') → ∃ q', q = d :: q' ∧ received s' o = received s o ++ [d]) ∧
    (∀ t l p d s', waiters o s = t :: l → krhino_queue_back_send o p s = Some (Returns RHINO_SUCCESS, d, s') → queue_recv_end t s' = Some (RHINO_SUCCESS, le32 p)) ∧
    (∀ t l mem size d s', waiters o s = t :: l → krhino_buf_queue_send o mem size s = Some (Returns RHINO_SUCCESS, d, s') → buf_queue_recv_end t s' = Some (RHINO_SUCCESS, take (Z.to_nat size) mem)).
Proof.
  intros Hnt Hno HR Hty. destruct (is_channel s o (xreach_inv _ _ _ Hnt Hno HR) Hty) as [q Hch]. exists q. destruct (Hch) as [A B C D]. do 4 (split; [assumption|]). split; [|split].
  - intros n d s' [E|E]; [eapply queue_recv_oldest|eapply buf_recv_oldest]; eassumption.
  - intros t l p d s' Ew E. eapply queue_hand_first; eassumption.
  - intros t l mem size d s' Ew E. eapply buf_hand_first; eassumption.
Qed.

(** [C10] No event is missed: at all times a task that waits for flags waits because the flags of
    the event are not what it asked for with its option. *)
Theorem no_event_missed nt no s o t :
  (2 ≤ nt)%nat → (1 ≤ no)%nat → xreach nt no s → obj_type (objs (kn s) o) = RHINO_EVENT_OBJ_TYPE → pending (tasks (kn s) t) = true → blk_obj (tasks (kn s) t) = Some o →
  event_met (pend_option (ts s t)) (pend_flags (ts s t)) (flags (qs s o)) = false.
Proof.
  intros Hnt Hno HR Hty Hp Hb. destruct (xreach_inv _ _ _ Hnt Hno HR) as [HI HQ]. specialize (HQ o). unfold qok in HQ. rewrite Hty in HQ. apply HQ, (waiters_wob _ _ _ HI).
  unfold wob, wob1. rewrite Hp. exact Hb.
Qed.

(** ** Examples *)

Fixpoint xrun (ops : list xop) (s : kx) : option (list (kret * list Z) * kx) :=
  match ops with
  | [] => Some ([], s)
  | op :: ops => '(r, d, s1) ← xexec op s; '(rs, s2) ← xrun ops s1; Some ((r, d) :: rs, s2)
  end.
Fixpoint xlegal_run (ops : list xop) (s : kx) : Prop :=
  match ops with [] => True | op :: ops => xlegal op s ∧ match xexec op s with Some (_, _, s1) => xlegal_run ops s1 | None => False end end.
Lemma xrun_reach nt no ops s rs s' : xreach nt no s → xlegal_run ops s → xrun ops s = Some (rs, s') → xreach nt no s'.
Proof.
  revert s rs. induction ops as [|op ops IH]; simpl; intros s rs HR HL E; [congruence|]. destruct HL as [HL HL'].
  destruct (xexec op s) as [[[r d] s1]|] eqn:E1; [|discriminate]. cbn [mbind option_bind] in E. destruct (xrun ops s1) as [[rs1 s2]|] eqn:E2; [|discriminate].
  injection E as _ <-. apply (IH s1 rs1); auto. eapply xreach_step; eauto.
Qed.
Definition xafter (ops : list xop) : option (list (kret * list Z) * kx) := s ← xboot 8 8; xrun ops s.
Definition xstate (ops : list xop) : kx := default (mkKx (zero_kern 0 0) (λ _, qinfo_zero) (λ _, tinfo_zero) (λ _, []) (λ _, [])) (snd <$> xafter ops).
Lemma xafter_reach ops s rs s' : xboot 8 8 = Some s → xlegal_run ops s → xrun ops s = Some (rs, s') → xreach 8 8 (xstate ops).
Proof.
  intros E1 HL E2. unfold xstate, xafter. rewrite E1. cbn [mbind option_bind]. rewrite E2. simpl. eapply xrun_reach; eauto. apply xreach_boot, E1.
Qed.
Ltac xreached := eapply xafter_reach; [vm_compute; reflexivity|legal_run|vm_compute; reflexivity].

(** Task 1 creates the buffer queue 1 with ten bytes, the queue 2, the event 3 and the task 2 with
    priority 4, which runs, waits for the buffer queue, gets [7; 8] from task 1 and waits for
    the flags 6; task 1 sends two messages and sets one of the flags. *)
Definition message_ops : list xop :=
  [XBufCreate 1 (repeat 0 10) 5 K_OBJ_STATIC_ALLOC RINGBUF_TYPE_DYN; XQueueCreate 2 (repeat 0 8) 2 K_OBJ_STATIC_ALLOC; XEventCreate 3 0 K_OBJ_STATIC_ALLOC;
   XK (OTaskCreate 2 4 0 100 true K_OBJ_STATIC_ALLOC); XBufRecv 1 RHINO_WAIT_FOREVER; XBufSend 1 [7; 8] 2; XEventGet 3 6 RHINO_AND RHINO_WAIT_FOREVER;
   XBufSend 1 [1; 2; 3] 3; XQueueSend 2 305419896; XEventSet 3 2 RHINO_OR].
Lemma message_reach : xreach 8 8 (xstate message_ops).
Proof. xreached. Qed.

(** The receiver of the sent message is task 1 itself. *)
Lemma messaging_never_stops_witness : ∃ r d s', xexec (XBufRecv 1 0) (xstate message_ops) = Some (r, d, s').
Proof. apply (messaging_never_stops 8 8); [lia|lia|apply message_reach|split; [split; discriminate || reflexivity|vm_compute; discriminate]]. Defined.
(** Of the two messages for the buffer queue, one is received and one is in the ring. *)
Lemma messages_in_order_witness : ∃ q, sent (xstate message_ops) 1 = received (xstate message_ops) 1 ++ q ∧ holds (ringbuf (qs (xstate message_ops) 1)) q ∧ received (xstate message_ops) 1 = [[7; 8]] ∧ sent (xstate message_ops) 1 = [[7; 8]; [1; 2; 3]].
Proof.
  destruct (messages_in_order 8 8 (xstate message_ops) 1 ltac:(lia) ltac:(lia) message_reach) as (q & A & B & _); [right; vm_compute; reflexivity|].
  exists q. split; [exact A|]. split; [exact B|]. split; vm_compute; reflexivity.
Defined.
(** Task 2 waits for the flags 6 of which only 2 is set. *)
Lemma no_event_missed_witness : event_met RHINO_AND 6 2 = false.
Proof. apply (no_event_missed 8 8 (xstate message_ops) 3 2); [lia|lia|apply message_reach|vm_compute; reflexivity..]. Defined.

(** ** Where the code falls short *)

(** A queue of fixed size ignores the length of the message: of a message of three bytes it copies
    eight, so it reads behind a buffer of three, and the receiver gets eight bytes. *)
Theorem fixed_queue_overread :
  let create := XBufCreate 1 (repeat 0 16) 8 K_OBJ_STATIC_ALLOC RINGBUF_TYPE_FIX in
  xafter [create; XBufSend 1 [1; 2; 3] 3] = None ∧
  fst <$> xafter [create; XBufSend 1 [1; 2; 3; 4; 5; 6; 7; 8] 3; XBufRecv 1 0] = Some [(Returns RHINO_SUCCESS, []); (Returns RHINO_SUCCESS, []); (Returns RHINO_SUCCESS, [1; 2; 3; 4; 5; 6; 7; 8])].
Proof. split; vm_compute; reflexivity. Qed.
